(* ===== verification/_CoqProject ===== *)
-Q . S2P
Prelude.v
Json.v
Identity.v
Domain.v
ExecTypes.v
ExecState.v
ExecPlan.v
Approval.v
Budget.v
Supervisor.v
Runner.v
LeaseSchema.v
LeaseStore.v
LeaseSpec.v
LeaseRefine.v
LeaseSafety.v
LeaseLive.v
Worker.v
WorkerSystem.v
CircuitBreaker.v
Admission.v
OutboxStore.v
Outbox.v
RouteTypes.v
TaskSchema.v
TaskStore.v
TaskLog.v
TaskRefine.v
TaskHistory.v
TaskSafety.v
GoStrings.v
GoText.v
Programs.v
TaskRepository.v
Order.v
Pricing.v
Router.v
ModelSchema.v
ModelTypes.v
CostLedger.v
Reconcile.v
ModelRuntime.v
ControlPlane.v
ControlSystem.v
Lifecycle.v
LifecycleMemory.v
Activities.v
ActivitySpec.v
Lineage.v
LineageSpec.v
PlanningSystem.v
Authn.v
AuthnSpec.v
AuthnSystem.v
Authorization.v
Http.v
Access.v
Boundary.v
Pages.v
Sandbox.v
Credentials.v
ToolGateway.v
Evaluation.v
ControlEvidence.v
Handlers.v
HandlersSpec.v
SchemaValidator.v
ModelSafety.v
ModelGateway.v
ModelRouting.v
ChangePolicy.v
DraftPipeline.v
Clusters.v
GitOps.v
GitOpsSpec.v
ManifestYaml.v
MachineMapping.v
ModelEval.v
Startup.v
