(* ===== verification/Prelude.v ===== *)
(** * Verification of aicloud: a governed control plane for AI executions

    aicloud (Go) plans work as a DAG of nodes, schedules the nodes under policy,
    approval and budget, executes each node through a worker that holds a
    fenced lease in PostgreSQL, and publishes what happened through a
    transactional outbox.  Tasks are routed to model deployments by eligibility,
    score and quoted price, executed against model providers with a fallback
    chain, and recorded as an event log behind idempotent commands.  Requests
    arrive over HTTP with an OpenID Connect token and are authorized by role and
    scope before a handler calls the control plane.  This library models the
    parts that decide whether an effect may happen, happens at most once and is
    accounted for, and proves what those parts promise.

    ** The parts and where they are modelled

    - [Prelude]: the Go and PostgreSQL vocabulary the other files share: 64-bit
      integers that wrap, [time.Time] and [time.Duration], float64 (IEEE 754,
      from the Standard Library's [SpecFloat]), [strings.TrimSpace] on UTF-8
      bytes, error values with [errors.Is]/[As]/[Join], the [result] monad,
      [sort.SliceStable], notations, tactics and the hint database [go].
    - [Json]: [encoding/json.Valid], the grammar checker the domain uses.
    - [Identity]: internal/identity/principal.go, system.go and
      internal/tenant/context.go: principals, their validation, the context
      guards every scoped repository runs.
    - [Domain]: internal/domain/types.go, task_aggregate.go, task_event.go: the
      Task aggregate's state machine and the validated records.
    - [ExecTypes], [ExecState], [ExecPlan]: execution/types.go, lease.go,
      attempt_persistence.go; state.go (the execution and node state machines);
      plan.go (plan validation and the cycle search).
    - [Approval]: execution/approval.go.  [Budget]: execution/budget.go, the
      ledger and its coordinator.  [Supervisor]: execution/supervisor.go.
      [Runner]: execution/runner.go.
    - [LeaseSchema], [LeaseStore]: the tables execution_node_runtime and
      execution_attempts with their constraints, and every operation of
      internal/repository/postgres_execution_node_leases.go,
      postgres_execution_attempts.go and postgres_execution_node_retry.go.
    - [LeaseSpec], [LeaseInv], [LeaseRefine]: the abstract lease protocol (a step
      relation on one node's rows), its invariant by rule induction, and the
      simulation of it by the store.  [LeaseSafety], [LeaseLive]: the theorems
      about histories of store calls.
    - [Worker]: execution/persistent_worker.go over the interfaces
      AttemptExecutionCoordinator, BudgetCoordinator and TargetInvoker (type
      classes).  [WorkerSystem]: the worker over the store and the ledger, with
      other workers interfering between its calls.
    - [CircuitBreaker]: internal/circuitbreaker/breaker.go.  [Admission]:
      internal/admission/admission.go.
    - [OutboxStore]: internal/repository/postgres_outbox.go.  [Outbox]:
      internal/outbox/dispatcher.go, and the dispatcher over the table.
    - [RouteTypes]: route requests, candidates and decisions, cost events.
      [TaskSchema], [TaskStore]: the tables tasks, task_events, outbox_messages,
      idempotency_records and route_decisions, and every transaction of
      internal/repository/postgres_task_creates.go, postgres_task_commands.go,
      postgres_route_commands.go, postgres_route_selection.go,
      postgres_model_execution_commands.go and postgres_idempotency_lookup.go.
      [TaskLog]: the log of one task as a fold over its events.  [TaskRefine],
      [TaskRefineModel]: what each transaction changes.  [TaskHistory],
      [TaskSafety]: histories of commands and the theorems about them.
    - [Order]: weak orders, float comparisons and stable sorting.  [Pricing]:
      internal/domain/deployment*.go, pricing_policy.go, pricing_quote.go,
      route_pricing_evidence.go and the in-memory policy store.  [Router]:
      internal/router.  [RouterSpec]: when a model or deployment is eligible, and
      the theorems about decisions.  [Reconcile]:
      internal/cost/pricing_reconciliation.go.  [RouteExamples]: concrete models,
      deployments and policies, and the instances of the theorems on them.
    - [ModelTypes], [CostLedger], [ModelRuntime]: model/provider types,
      internal/cost/ledger.go with its memory store, internal/modelruntime (the
      executor with its fallback chain, breaker, ledger and traces).
      [ControlPlane]: internal/controlplane/service.go, task_commands.go,
      task_route_commands.go and task_model_commands.go, as programs over the
      stores, the router and the runtime.  [ControlSystem]: the control plane
      over the command store, with other requests between its calls.
    - [Programs]: code as a tree of requests to its environment, with the
      weakest precondition of a program under an environment that may answer
      anything and the interpreter of one trace.  [Lifecycle]:
      internal/workflow/lifecycle.go, the durable workflow of a task, over the
      interface of its activities.  [LifecycleMemory]: the in-memory activities
      that discharge the laws of that interface.
    - [Activities]: internal/workflow/planning_activity.go,
      routing_activity.go and execution_activity.go with
      internal/executionbinding, as programs over the stores, the policy gate,
      the router and the worker.  [ActivitySpec]: what they guarantee whatever
      the stores answer.  [ActivityExamples]: the instances.
    - [Lineage]: internal/repository/postgres_execution_lineage.go with the
      tables of its migration.  [LineageSpec], [LineageScope]: the invariant of
      the tables, what a call may change, and the scopes.  [PlanningSystem]:
      planning over that store with other requests between its calls;
      [PlanningLive]: planning alone on it.  [LineageExamples]: the instances.
    - [GoStrings]: the case, search and path functions of the standard library
      the policy code uses.  [Authorization]: internal/authorization (roles,
      scope policy, service).  [Sandbox]: internal/sandbox/sandbox.go.
      [Credentials]: internal/credentials/broker.go.  [ToolGateway]:
      internal/toolgateway/gateway.go with internal/approval/store.go and
      internal/audit/store.go.
    - [GoText], [Paths]: splitting, trimming, base64 and numbers in text, and the
      laws of splitting a path.  [Authn]: internal/authn (token verification,
      the remote key set and its cache, the HTTP client with its redirects).
      [AuthnSpec], [AuthnSystem], [AuthnExamples]: what an accepted token proves,
      concurrent requests over one cache, and the instances.
    - [Http]: internal/httpapi/request_context.go, error_envelope.go and the part
      of net/http they use.  [Access]: tenant_middleware.go, access.go,
      access_routes.go, access_models.go, access_tasks.go and the chain of
      cmd/api-server/main.go.  [AccessSpec]: the API as a table.  [Boundary],
      [BoundaryExamples]: the chain over the verifier and the authorizer.
      [Pages]: response_contract.go.
    - [Evaluation]: internal/evaluation/evaluation.go.  [ControlEvidence]:
      internal/modelservice/service.go and the operations of
      internal/controlplane/service.go that [ControlPlane] leaves out (models,
      admission, tools, evaluations, listings).  [Handlers]: server.go,
      task_commands.go, route_commands.go, evidence_handlers.go,
      task_scope_guard.go and full_handler.go of internal/httpapi with the
      dispatch of http.ServeMux.  [HandlersSpec], [HandlersExamples]: the
      handlers behind the boundary.
    - [TaskRepository]: the task repositories: in memory, scoped by row-level
      security (internal/repository/postgres_scoped_tasks.go) and the tenant
      wrapper of internal/tenantrepo/tasks.go over either, with the checks of
      database roles.  [TaskRepositorySpec]: concurrent requests on them.
    - [ModelSchema], [SchemaValidator]: model/schema, the structured outputs of
      models and their required fields.  [ModelSafety]: model/safety/safety.go.
      [ModelGateway]: model/gateway/gateway.go as a program over the provider,
      the clock and the auditor.  [MockProvider]: model/mock/provider.go.
      [ModelRouting]: model/registry and model/routing.  [ModelEval]:
      model/eval/eval.go.
    - [ChangePolicy]: agent/proposal, policy/checker and agent/workflow.
      [DraftPipeline]: agent/prdraft and agent/pipeline.  [Clusters],
      [Controller]: infra/api, infra/adapter and infra/controller.  [GitOps]:
      integrations/gitops (patch plans, the patch of a cluster, writers, branch
      plans).  [ManifestYaml]: integrations/gitops/yamlio, the reader and the
      printer of manifests.  [MachineMapping]: infra/mapping.  [GitOpsSpec],
      [PipelineExamples], [ManifestYamlSpec]: from an intent to the text of a
      manifest, and the instances.
    - [Startup]: the in-memory repositories of models and deployments, the
      static policy engine, and the part of cmd/api-server that registers
      providers before the first request.

    A module is in the file of its name, but for these, which follow the module
    they belong to: [AccessSpec] in Access.v; [ActivityExamples] in
    ActivitySpec.v; [AuthnExamples] in AuthnSystem.v; [BoundaryExamples] in
    Boundary.v; [Controller] in Clusters.v; [PipelineExamples] in GitOpsSpec.v;
    [Paths] in GoText.v; [HandlersExamples] in HandlersSpec.v; [LeaseInv] in
    LeaseSpec.v; [LineageScope] in LineageSpec.v; [ManifestYamlSpec] in
    ManifestYaml.v; [MockProvider] in ModelGateway.v; [PlanningLive],
    [LineageExamples] in PlanningSystem.v; [RouteExamples] in Reconcile.v;
    [RouterSpec] in Router.v; [TaskRefineModel] in TaskRefine.v;
    [TaskRepositorySpec] in TaskRepository.v.

    ** How the code corresponds to the definitions

    Structs are records whose field names carry a prefix, string enumerations
    are inductive types with the source's constants and one constructor for any
    other string, a method that mutates its receiver takes the old value and
    returns the new one, [(T, error)] is [result T], a map is a [gmap] and a
    range over a map is any order of it.  Interfaces are type classes over a
    world type; their laws are classes of their own, discharged by the
    implementations.  Reading the clock, random bytes, statement failures and
    the outcome of COMMIT are inputs of each call, so the theorems hold for all
    of them.

    ** What is assumed

    PostgreSQL and the database driver are not code of the repository.  A
    transaction is atomic; row-level security hides other tenants and projects;
    a write that breaks a constraint of the migrations fails; calls on the same
    rows are serial because they lock them.  Any statement may fail, a failed
    COMMIT may or may not have been applied, clocks may read anything.  The
    rounding of timestamps ([pg_ts]) and of NUMERIC costs ([pg_cost]) are
    parameters.  Random ids are not assumed to be fresh: a collision fails on
    the primary key.

    The JSONB columns of the lineage tables give back a value that the decoder
    reads as the one that was encoded ([pg_jsonb] and the codec law of
    [Lineage]); which of two ids sorts first is a collation, a parameter.  A
    workflow's activities are answered by Temporal: an activity is retried only
    where its options say so, and any answer may come back.

    The network answers the key set's requests with anything; that RSA
    signatures of the published keys cannot be forged is not assumed, the
    theorems say which key and digest the signature was checked with.  A request
    comes with the method, the path and the escaped path that net/http parsed.

    JSON codecs, SHA-256, RSA verification, [url.Parse], the text of an error, [strings.EqualFold], the
    formatting of a float and what a stable sort does on keys that no weak order
    compares (NaN scores) are parameters; the router hands its comparators to a
    [sort.SliceStable] that is any stable sort.  Float expressions are rounded
    operation by operation: the compiler is not assumed to fuse multiplications
    and additions.  So are the conversion of a float to an integer, the printing
    of a value of type any, Unicode lower case where a text is not compared with
    ASCII, and the order of a sort that is not stable on equal keys.  A model
    provider answers anything; theorems about the mock provider say so.
    Histories of the command store consist of its own
    transactions; the older repository methods that overwrite a task row without
    an event are not part of them.

    ** What the theorems show

    - The lease store: every history of calls is a run of the abstract protocol;
      a node is RUNNING exactly when it has one open attempt; an effect of a
      node that is not retry-safe starts at most once and a mutation commits at
      most once; a superseded lease is rejected by every later operation;
      claims and completions do exactly what their specifications say, and a
      claim that should succeed does; finished attempts never change; tenants
      and projects are isolated.
    - The worker: a target is invoked only with a lease, a reservation, a bound
      attempt and (for a mutation) a recorded effect start; completion needs
      evidence; an unresolved effect is reported and left to recovery; success
      is durable end to end.
    - Plans, scheduling, budget: validation accepts exactly the bounded DAGs and
      terminates; the scheduler prepares exactly the runnable nodes and does not
      deadlock; the ledger conserves amounts and keeps within its limits, for
      integer counters; a NaN cost defeats the cost limit.
    - Commands: a task row is the fold of its event log and the log only grows; a
      finished command never changes and a replay answers what the first call
      answered; a model command begins once, and a model runs at most once for
      each time its command is acquired, whatever other requests do in between.
    - Workflows and lineage: a binding needs an allowing policy decision for its
      own task and a goal in its own scope; mutations are never retried; a plan,
      a goal and a decision that were stored are never changed or lost and are
      read back as they were written, only in their own scope; planning that
      reports success has stored its goal and its plan whatever happens in
      between, and run alone it succeeds and is idempotent.
    - Routing and cost: decisions select the best eligible model or deployment
      and nothing that is not eligible; quotes price exactly what their policy
      covers and are never negative; the policy in force is resolved; metered
      usage is charged as it was quoted at routing time; the router's copy of
      itself loses its pricing policies.  The executor tries the fallback chain
      in order, calls no provider behind an open circuit, and charges an answer
      at the prices of its model.
    - Approvals, tasks, admission, circuit breaker: revocation is final; a task
      completes only through validation; a model is admitted only on sufficient,
      latest evidence; the breaker follows its reference specification.
    - The outbox: messages are neither lost nor changed, leases are exclusive
      until they expire, a message is acknowledged only after the adapter of its
      destination accepted it as the table held it, retry backoff is a capped power of two.
    - Tools and access: a tool runs only after the registry, the policy and, if
      asked for, the approval cleared it, with the image, command and limits that
      are registered and a credential for the task and tool that is revoked as
      the last step, and every decision is audited but one; planned jobs are
      confined; a credential validates only as issued; authorization follows
      its access matrix and the principal's own scope.

    - The API: a token is accepted only if a key of at least 2048 bits, published
      where the configured issuer says, verifies its signature and its claims are
      in force, and a valid token is
      accepted; a request costs a bounded number of fetches over HTTPS; a handler
      sees a request only after authentication and after the entry of the API
      table was authorized; the operation the handler then performs is the one of
      that entry, on its resource, under that principal, after the task was found
      in scope; following the page tokens visits a list once, in order; evidence
      is stored for the task or model that was found; an update of a task is
      never lost, a task never leaves the project it was created in, and no
      request is told of a task of another project.

    - Models and changes: a draft is made only from a plan the safety gate and the
      schema passed, for fields of the allowlist, and carries the judgement of
      the policy; without a review each change scales the GPU workers of a cluster
      in dev by at most three replicas; a patch can be undone, and what
      is written is read back; the static router sends a request only to a
      provider that may serve it, and does so if there is one; reconciliation
      converges; machines are mapped without a clash; a recommendation is earned
      by the scores, which are percentages.
    - Start-up: a configured provider whose model has another id than the mock
      model is admitted and routed to only if it is approved; a built-in tool that writes needs an approval.

    ** Bounds and fuel

    Loops that are not structural use fuel.  The task workflow ends for every
    fuel above the potential of its state (theorem [TaskLifecycleWorkflow_ends] of [Lifecycle]).
    The loop over the replicas of a worker group counts in int32 and has fuel for
    one more than their number; it runs out only where the code does not end
    ([MachineMapping.machines_match_the_cluster]).  Merging hyphens has a round
    for each byte ([GitOps.merge_all_merged]).  An HTTP request follows at most ten redirects and has
    fuel for eleven hops ([AuthnSpec.clientDo_fuel] proves that it never runs
    out).  The plan's cycle search ([ExecPlan.hasCycle_fuel])
    has one unit per node of the graph plus one, and [hasCycle_correct] and
    [ValidatePlan_correct] prove that it never runs out; the JSON checker has
    two per byte plus one, and [Json.Valid_fuel] proves that more changes
    nothing.  The backoff loop recurses on the number of Go's iterations.
    Machine integers are kept at their width where a sum can overflow (the
    budget counters, the breaker's failure count, durations); PostgreSQL's
    INTEGER columns are range checked on write.

    ** What is not modelled, and what comes next

    Not modelled: the HTTP clients of language-model services, of OPA, of the
    compute cloud and of Temporal; the repositories of
    internal/repository/postgres.go, evidence.go and postgres_deployments.go,
    which map one row to one struct; the reading of the environment, the choice
    of stores, HTTP server and signals of the processes; the migration runner;
    the request logger and the compatibility aliases of the middleware, which do
    nothing more than pass a request on.  Next would be the PostgreSQL deployment
    and pricing repositories over their tables. *)
From stdpp Require Export base tactics gmap strings list sorting.
From Stdlib Require Export ZArith Lia Ascii.
From Stdlib Require Export Floats.SpecFloat.

#[export] Set Default Goal Selector "!".

Declare Scope go_scope.
Delimit Scope go_scope with go.
#[global] Open Scope go_scope.

(** Go's [==] on a comparable type. *)
Notation "x ==? y" := (bool_decide (x = y)) (at level 70, no associativity) : go_scope.
Notation "x !=? y" := (negb (bool_decide (x = y))) (at level 70, no associativity) : go_scope.

(** ** Machine integers *)

(** [int] and [int64] of a 64-bit platform: two's complement, wrapping. *)
Definition int_max : Z := (9223372036854775807)%Z.
Definition int_min : Z := (-9223372036854775808)%Z.
Definition two64 : Z := (18446744073709551616)%Z.

Definition wrap64 (z : Z) : Z := ((z + 9223372036854775808) mod two64 - 9223372036854775808)%Z.

Definition add64 (a b : Z) : Z := wrap64 (a + b).
Definition sub64 (a b : Z) : Z := wrap64 (a - b).
Definition mul64 (a b : Z) : Z := wrap64 (a * b).

Definition in_int64 (z : Z) : Prop := (int_min ≤ z ≤ int_max)%Z.

(** PostgreSQL's INTEGER and BIGINT ranges, tested when a value is stored. *)
Definition fits_int4 (z : Z) : bool := ((-2147483648 <=? z) && (z <=? 2147483647))%Z.
Definition fits_int8 (z : Z) : bool := ((int_min <=? z) && (z <=? int_max))%Z.

(** ** float64: IEEE 754 binary64, rounding to nearest even *)

Definition float64 : Set := spec_float.
Definition f64_prec : Z := (53)%Z.
Definition f64_emax : Z := (1024)%Z.
Definition f_add (x y : float64) : float64 := SFadd f64_prec f64_emax x y.
Definition f_sub (x y : float64) : float64 := SFsub f64_prec f64_emax x y.
Definition f_mul (x y : float64) : float64 := SFmul f64_prec f64_emax x y.
Definition f_div (x y : float64) : float64 := SFdiv f64_prec f64_emax x y.
Definition f_lt (x y : float64) : bool := SFltb x y.
Definition f_gt (x y : float64) : bool := SFltb y x.
(** The conversion [float64(z)] of an integer. *)
Definition f_int (z : Z) : float64 := binary_normalize f64_prec f64_emax z 0 false.
Definition f_zero : float64 := S754_zero false.
Definition f_nan : float64 := S754_nan.

#[global] Arguments f_add : simpl never.
#[global] Arguments f_sub : simpl never.
#[global] Arguments f_mul : simpl never.
#[global] Arguments f_div : simpl never.
#[global] Arguments f_int : simpl never.

#[export] Instance spec_float_eq_dec : EqDecision spec_float.
Proof. solve_decision. Defined.
#[export] Instance float64_eq_dec : EqDecision float64 := spec_float_eq_dec.

(** ** time.Time and time.Duration

    A [Time] is an instant in nanoseconds since the zero Time
    (0001-01-01T00:00:00Z), so [IsZero] is comparison with 0.  Locations and
    monotonic readings, which no modelled comparison depends on, are left out. *)
Definition Time : Set := Z.
Definition Duration : Set := Z.
Bind Scope Z_scope with Time Duration.
Definition IsZero (t : Time) : bool := (t =? 0)%Z.
Definition Before (t u : Time) : bool := (t <? u)%Z.
Definition After (t u : Time) : bool := (u <? t)%Z.
Definition Add (t : Time) (d : Duration) : Time := (t + d)%Z.
(** [t.Sub(u)] saturates at the bounds of Duration. *)
Definition Sub (t u : Time) : Duration := Z.max int_min (Z.min int_max (t - u)).
Definition Millisecond : Duration := 1000000%Z.
Definition Second : Duration := 1000000000%Z.
Definition Minute : Duration := 60000000000%Z.
Definition Hour : Duration := 3600000000000%Z.
(** [d.Milliseconds()] truncates toward zero. *)
Definition Milliseconds (d : Duration) : Z := Z.quot d Millisecond.

#[export] Instance Time_eq_dec : EqDecision Time := Z.eq_dec.

(** ** Strings: Go strings are byte strings *)

Definition code (a : ascii) : N := N_of_ascii a.
Definition bytes (s : string) : list ascii := String.list_ascii_of_string s.
Definition of_bytes (l : list ascii) : string := String.string_of_list_ascii l.

(** The UTF-8 encodings of the runes [unicode.IsSpace] accepts: one byte,
    two bytes (U+0085, U+00A0) or three (U+1680, U+2000-U+200A, U+2028,
    U+2029, U+202F, U+205F, U+3000). *)
Definition space1 (a : ascii) : bool :=
  ((9 <=? code a) && (code a <=? 13) || (code a =? 32))%N.
Definition space2 (a b : ascii) : bool :=
  ((code a =? 194) && ((code b =? 133) || (code b =? 160)))%N.
Definition space3 (a b c : ascii) : bool :=
  (((code a =? 225) && (code b =? 154) && (code c =? 128))
   || ((code a =? 226) && (code b =? 128)
       && (((128 <=? code c) && (code c <=? 138))
           || (code c =? 168) || (code c =? 169) || (code c =? 175)))
   || ((code a =? 226) && (code b =? 129) && (code c =? 159))
   || ((code a =? 227) && (code b =? 128) && (code c =? 128)))%N.

Section trim.
Variable sp2 : ascii → ascii → bool.
Variable sp3 : ascii → ascii → ascii → bool.

(** Drop the leading spaces, the multi-byte ones given by [sp2] and [sp3]. *)
Fixpoint trim_front (l : list ascii) : list ascii :=
  match l with
  | [] => []
  | a :: l1 =>
      if space1 a then trim_front l1 else
      match l1 with
      | [] => l
      | b :: l2 =>
          if sp2 a b then trim_front l2 else
          match l2 with
          | [] => l
          | c :: l3 => if sp3 a b c then trim_front l3 else l
          end
      end
  end.

(** Whether the first rune of [l] is a space. *)
Definition leads (l : list ascii) : bool :=
  match l with
  | [] => false
  | [a] => space1 a
  | [a; b] => space1 a || sp2 a b
  | a :: b :: c :: _ => space1 a || sp2 a b || sp3 a b c
  end.
End trim.

Definition trim_left (l : list ascii) : list ascii := trim_front space2 space3 l.
Definition trim_right (l : list ascii) : list ascii :=
  reverse (trim_front (λ a b, space2 b a) (λ a b c, space3 c b a) (reverse l)).

(** [strings.TrimSpace]. *)
Definition TrimSpace (s : string) : string := of_bytes (trim_right (trim_left (bytes s))).

(** [strings.TrimSpace(s) == ""]. *)
Definition blank (s : string) : bool := TrimSpace s ==? "".

(** ** Errors

    An [error] value is a sentinel (a package-level [errors.New], compared by
    identity), a fresh [errors.New]/[fmt.Errorf] value, a [fmt.Errorf] value
    wrapping another with [%w], an [errors.Join], or a value of a concrete
    error type with one string field ([TypedErr]), or a model provider's error
    ([ProviderErr], [provider.ProviderError]).  A formatted error carries
    its format and arguments; [fmt]'s rendering of them is never inspected by
    the modelled code except where a component names it as a parameter. *)
Inductive fmt_arg : Type :=
| AStr (s : string)
| AInt (z : Z)
| AFloat (f : float64).

Inductive error : Type :=
| Sentinel (name text : string)
| Errorf (format : string) (args : list fmt_arg)
| Errorw (format : string) (args : list fmt_arg) (wrapped : error)
| JoinErr (errs : list error)
| TypedErr (ty field : string) (inner : option error)
| ProviderErr (code message : string) (retryable : bool).

(** [errors.Is(err, target)] for a sentinel target. *)
Fixpoint errors_Is (err : error) (target : string) : bool :=
  match err with
  | Sentinel n _ => n ==? target
  | Errorf _ _ => false
  | Errorw _ _ e => errors_Is e target
  | JoinErr es => existsb (λ e, errors_Is e target) es
  | TypedErr _ _ (Some e) => errors_Is e target
  | TypedErr _ _ None | ProviderErr _ _ _ => false
  end.

(** [errors.As] for the concrete type [ty]: the field of the first match in
    depth-first order. *)
Fixpoint errors_As (err : error) (ty : string) : option string :=
  match err with
  | Sentinel _ _ | Errorf _ _ | ProviderErr _ _ _ => None
  | Errorw _ _ e => errors_As e ty
  | JoinErr es =>
      (fix first (es : list error) : option string :=
         match es with
         | [] => None
         | e :: es' => match errors_As e ty with Some f => Some f | None => first es' end
         end) es
  | TypedErr t f inner =>
      if t ==? ty then Some f
      else match inner with Some e => errors_As e ty | None => None end
  end.

(** [errors.As] for [*provider.ProviderError]: code, message and whether it is
    retryable. *)
Fixpoint errors_AsProvider (err : error) : option (string * string * bool) :=
  match err with
  | Sentinel _ _ | Errorf _ _ | TypedErr _ _ None => None
  | Errorw _ _ e | TypedErr _ _ (Some e) => errors_AsProvider e
  | JoinErr es =>
      (fix first (es : list error) : option (string * string * bool) :=
         match es with
         | [] => None
         | e :: es' => match errors_AsProvider e with Some f => Some f | None => first es' end
         end) es
  | ProviderErr c m r => Some (c, m, r)
  end.

(** [errors.Join]: nil arguments are dropped; nil when nothing is left. *)
Definition errors_Join (es : list (option error)) : option error :=
  match omap id es with
  | [] => None
  | l => Some (JoinErr l)
  end.

(** ** Results: [(T, error)] where the value is meaningless on error *)
Inductive result (A : Type) : Type :=
| Ok (a : A)
| Err (e : error).
Arguments Ok {A} a.
Arguments Err {A} e.

#[export] Instance result_ret : MRet result := λ A, Ok.
#[export] Instance result_bind : MBind result := λ A B f m,
  match m with Ok a => f a | Err e => Err e end.

Definition is_ok {A} (r : result A) : bool := match r with Ok _ => true | Err _ => false end.

(** The [error] part of a result: nil is [None]. *)
Definition err_of {A} (r : result A) : option error :=
  match r with Ok _ => None | Err e => Some e end.

(** ** Automation *)

Create HintDb go.
Create Rewrite HintDb go.

(** Turn the boolean guards of the code into propositions. *)
Ltac go_props :=
  repeat match goal with
  | H : bool_decide _ = true |- _ => apply bool_decide_eq_true in H
  | H : bool_decide _ = false |- _ => apply bool_decide_eq_false in H
  | H : negb _ = true |- _ => apply negb_true_iff in H
  | H : negb _ = false |- _ => apply negb_false_iff in H
  | H : _ && _ = true |- _ => apply andb_true_iff in H as [? ?]
  | H : _ || _ = false |- _ => apply orb_false_iff in H as [? ?]
  | H : _ || _ = true |- _ => apply orb_true_iff in H
  | H : _ && _ = false |- _ => apply andb_false_iff in H
  | H : (_ <? _)%Z = true |- _ => apply Z.ltb_lt in H
  | H : (_ <? _)%Z = false |- _ => apply Z.ltb_ge in H
  | H : (_ <=? _)%Z = true |- _ => apply Z.leb_le in H
  | H : (_ <=? _)%Z = false |- _ => apply Z.leb_gt in H
  | H : (_ =? _)%Z = true |- _ => apply Z.eqb_eq in H
  | H : (_ =? _)%Z = false |- _ => apply Z.eqb_neq in H
  end.

(** Destruct the innermost scrutinee of [x]. *)
Ltac go_scrut x :=
  lazymatch x with
  | context [ match ?y with _ => _ end ] => go_scrut y
  | _ => let Hb := fresh "Hb" in destruct x eqn:Hb
  end.

(** Follow the branches of a computation that returned the given value. *)
Ltac go_inv H :=
  repeat (simplify_eq/=; try done;
    match type of H with
    | context [ match ?x with _ => _ end ] => go_scrut x
    end); simplify_eq/=; try done.

Lemma bind_Ok {A B} (m : result A) (f : A → result B) b :
  (x ← m; f x) = Ok b → ∃ a, m = Ok a ∧ f a = Ok b.
Proof. destruct m; simpl; [eauto|done]. Qed.

(** Split the first bind of [H : (x ← m; k) = Ok _] into [m = Ok x] and the rest. *)
Ltac bind_inv H x Hx :=
  apply bind_Ok in H as (x & Hx & H).

(** ** Integer lemmas *)

Lemma wrap64_id z : in_int64 z → wrap64 z = z.
Proof.
  unfold in_int64, wrap64, int_min, int_max, two64. intros [? ?].
  rewrite Z.mod_small; lia.
Qed.

Lemma wrap64_range z : in_int64 (wrap64 z).
Proof.
  unfold in_int64, wrap64, int_min, int_max.
  pose proof (Z.mod_pos_bound (z + 9223372036854775808) two64 ltac:(done)).
  unfold two64 in *. lia.
Qed.

Lemma wrap64_plus_multiple z k : wrap64 (z + k * two64) = wrap64 z.
Proof.
  unfold wrap64. f_equal.
  replace (z + k * two64 + 9223372036854775808)%Z
    with ((z + 9223372036854775808) + k * two64)%Z by lia.
  by rewrite Z_mod_plus_full.
Qed.

Lemma wrap64_shift z : ∃ k, wrap64 z = (z + k * two64)%Z.
Proof.
  unfold wrap64. exists (- ((z + 9223372036854775808) / two64))%Z.
  pose proof (Z.div_mod (z + 9223372036854775808) two64 ltac:(done)). lia.
Qed.

Lemma wrap64_add_l a b : wrap64 (wrap64 a + b) = wrap64 (a + b).
Proof.
  destruct (wrap64_shift a) as [k ->].
  replace (a + k * two64 + b)%Z with ((a + b) + k * two64)%Z by lia.
  apply wrap64_plus_multiple.
Qed.

Lemma wrap64_add_r a b : wrap64 (a + wrap64 b) = wrap64 (a + b).
Proof. by rewrite Z.add_comm, wrap64_add_l, Z.add_comm. Qed.

Lemma wrap64_sub_r a b : wrap64 (a - wrap64 b) = wrap64 (a - b).
Proof.
  destruct (wrap64_shift b) as [k ->].
  replace (a - (b + k * two64))%Z with ((a - b) + (- k) * two64)%Z by lia.
  apply wrap64_plus_multiple.
Qed.

Lemma wrap64_idem a : wrap64 (wrap64 a) = wrap64 a.
Proof. pose proof (wrap64_add_l a 0). by rewrite !Z.add_0_r in *. Qed.

Lemma add64_small a b : in_int64 (a + b) → add64 a b = (a + b)%Z.
Proof. apply wrap64_id. Qed.

#[export] Hint Rewrite wrap64_add_l wrap64_add_r wrap64_sub_r wrap64_idem : go.
#[export] Hint Resolve wrap64_range : go.

(** ** Maps *)

Lemma map_size_1_singleton {A} `{Countable K} (m : gmap K A) :
  size m = 1 → ∃ k x, m = {[k := x]}.
Proof.
  intros Hs. destruct (map_size_ne_0_lookup_1 m) as [k [x Hk]]; [by rewrite Hs|].
  exists k, x. rewrite <- (insert_delete_id m k x Hk).
  assert (delete k m = ∅) as ->; [|done].
  apply map_size_empty_inv. rewrite map_size_delete_Some, Hs by eauto. done.
Qed.

(** ** TrimSpace lemmas *)

Lemma bytes_of_bytes l : bytes (of_bytes l) = l.
Proof. apply String.list_ascii_of_string_of_list_ascii. Qed.

Lemma of_bytes_bytes s : of_bytes (bytes s) = s.
Proof. apply String.string_of_list_ascii_of_string. Qed.

Section trim_lemmas.
Variable sp2 : ascii → ascii → bool.
Variable sp3 : ascii → ascii → ascii → bool.

(** Strong induction following the recursion of [trim_front]. *)
Lemma list_ind3 (P : list ascii → Prop) :
  (∀ l, (∀ l', length l' < length l → P l') → P l) → ∀ l, P l.
Proof.
  intros IH l. remember (length l) as n eqn:Hn.
  revert l Hn. induction (lt_wf n) as [n _ IHn]. intros l ->.
  apply IH. intros l' Hl. by apply (IHn (length l')).
Qed.

Lemma trim_front_no_lead l : leads sp2 sp3 (trim_front sp2 sp3 l) = false.
Proof.
  induction l as [l IH] using list_ind3.
  destruct l as [|a [|b [|c l]]]; simpl in *; [done| | |];
    repeat (case_match; simpl in *); try done;
    try (apply IH; simpl; lia); go_props; repeat (rewrite ?orb_false_iff); auto.
Qed.

Lemma trim_front_id l : leads sp2 sp3 l = false → trim_front sp2 sp3 l = l.
Proof.
  destruct l as [|a [|b [|c l]]]; simpl; intros H; [done| | |]; go_props;
    repeat match goal with E : _ = false |- _ => rewrite E; clear E end; done.
Qed.

Lemma trim_front_suffix l : ∃ p, l = p ++ trim_front sp2 sp3 l.
Proof.
  induction l as [l IH] using list_ind3.
  destruct l as [|a l1]; [by exists []|]. simpl.
  destruct (space1 a).
  { destruct (IH l1) as [p Hp]; [simpl; lia|]. exists (a :: p). simpl. by f_equal. }
  destruct l1 as [|b l2]; [by exists []|].
  destruct (sp2 a b).
  { destruct (IH l2) as [p Hp]; [simpl; lia|]. exists (a :: b :: p). simpl. by do 2 f_equal. }
  destruct l2 as [|c l3]; [by exists []|].
  destruct (sp3 a b c); [|by exists []].
  destruct (IH l3) as [p Hp]; [simpl; lia|]. exists (a :: b :: c :: p). simpl. by do 3 f_equal.
Qed.

Lemma leads_app l q : leads sp2 sp3 l = true → leads sp2 sp3 (l ++ q) = true.
Proof.
  destruct l as [|a [|b [|c l]]]; simpl; [done| | |]; intros H;
    destruct q as [|x [|y q]]; simpl; rewrite ?H; auto;
    repeat (apply orb_true_iff in H as [H|H]; rewrite ?H); auto using orb_true_r;
    rewrite ?orb_true_l, ?orb_true_r; auto.
Qed.
End trim_lemmas.

Lemma trim_right_prefix l : ∃ q, l = trim_right l ++ q.
Proof.
  unfold trim_right.
  destruct (trim_front_suffix (λ a b, space2 b a) (λ a b c, space3 c b a) (reverse l)) as [p Hp].
  exists (reverse p). rewrite <- reverse_app, <- Hp. by rewrite reverse_involutive.
Qed.

Lemma trim_right_idem l : trim_right (trim_right l) = trim_right l.
Proof.
  unfold trim_right. rewrite reverse_involutive, trim_front_id; [done|].
  apply trim_front_no_lead.
Qed.

Lemma TrimSpace_idem s : TrimSpace (TrimSpace s) = TrimSpace s.
Proof.
  unfold TrimSpace. rewrite bytes_of_bytes. f_equal.
  set (t := trim_left (bytes s)).
  assert (trim_left (trim_right t) = trim_right t) as ->; [|apply trim_right_idem].
  apply trim_front_id. destruct (leads _ _ (trim_right t)) eqn:E; [|done].
  destruct (trim_right_prefix t) as [q Hq].
  apply (leads_app _ _ _ q) in E. rewrite <- Hq in E. unfold t, trim_left in E.
  by rewrite trim_front_no_lead in E.
Qed.

Lemma blank_TrimSpace s : blank (TrimSpace s) = blank s.
Proof. unfold blank. by rewrite TrimSpace_idem. Qed.

#[export] Hint Rewrite TrimSpace_idem blank_TrimSpace : go.

Example TrimSpace_ascii : TrimSpace "  a b	" = "a b".
Proof. reflexivity. Qed.

(** ** sort.SliceStable

    Go's stable sort is determined by its comparison and its input; insertion
    from the right computes it. *)
Section SliceStable.
Context {A : Type} (less : A → A → bool).

Fixpoint insert_stable (x : A) (l : list A) : list A :=
  match l with
  | [] => [x]
  | y :: l' => if less y x then y :: insert_stable x l' else x :: l
  end.
Definition SliceStable (l : list A) : list A := foldr insert_stable [] l.

Lemma insert_stable_Permutation x l : insert_stable x l ≡ₚ x :: l.
Proof.
  induction l as [|y l IH]; simpl; [done|]. destruct (less y x); [|done].
  rewrite IH. apply Permutation_swap.
Qed.
Lemma SliceStable_Permutation l : SliceStable l ≡ₚ l.
Proof. induction l as [|x l IH]; simpl; [done|]. by rewrite insert_stable_Permutation, IH. Qed.

Hypothesis less_asym : ∀ x y, less x y = true → less y x = false.
Hypothesis less_trans : ∀ x y z, less y x = false → less z y = false → less z x = false.

Lemma SliceStable_sorted l : StronglySorted (λ x y, less y x = false) (SliceStable l).
Proof.
  induction l as [|x l IH]; simpl; [constructor|].
  induction IH as [|y l' Hs IH' Hf]; simpl; [repeat constructor|].
  destruct (less y x) eqn:E.
  - constructor; [done|]. rewrite insert_stable_Permutation. constructor; [by apply less_asym|done].
  - constructor; [by constructor|]. constructor; [done|].
    eapply Forall_impl; [done|]. intros z Hz. by eapply less_trans.
Qed.
End SliceStable.
