(* ===== verification/Json.v ===== *)
(** * Json: [encoding/json.Valid]

    The standard library's syntax check of a JSON text, which the domain
    records use on their payloads: RFC 8259 values over bytes, insignificant
    whitespace around them, a nesting limit of 10000, strings of any bytes from
    0x20 up except quote and backslash (their UTF-8 is not checked), the escapes
    of the RFC.  The scanner is a recursive descent with fuel; [parse_fuel]
    shows that twice the number of bytes plus one is enough. *)
From S2P Require Import Prelude.

Module Json.
#[local] Open Scope char_scope.

Definition is_ws (a : ascii) : bool :=
  (a ==? "032") || (a ==? "009") || (a ==? "010") || (a ==? "013").
Definition is_digit (a : ascii) : bool := ((48 <=? code a) && (code a <=? 57))%N.
Definition is_hex (a : ascii) : bool :=
  is_digit a || ((97 <=? code a) && (code a <=? 102))%N || ((65 <=? code a) && (code a <=? 70))%N.

Fixpoint skip_ws (l : list ascii) : list ascii :=
  match l with a :: r => if is_ws a then skip_ws r else l | [] => [] end.

Fixpoint skip_digits (l : list ascii) : list ascii :=
  match l with a :: r => if is_digit a then skip_digits r else l | [] => [] end.

(** At least one digit. *)
Definition digits1 (l : list ascii) : option (list ascii) :=
  match l with a :: r => if is_digit a then Some (skip_digits r) else None | [] => None end.

(** The rest of a string literal after its opening quote. *)
Fixpoint string_body (l : list ascii) : option (list ascii) :=
  match l with
  | [] => None
  | a :: r =>
      if a ==? "034" then Some r
      else if a ==? "\" then
        match r with
        | [] => None
        | e :: r1 =>
            if e ==? "u" then
              match r1 with
              | h1 :: h2 :: h3 :: h4 :: r5 =>
                  if is_hex h1 && is_hex h2 && is_hex h3 && is_hex h4 then string_body r5 else None
              | _ => None
              end
            else if (e ==? "034") || (e ==? "\") || (e ==? "/") || (e ==? "b") || (e ==? "f")
                    || (e ==? "n") || (e ==? "r") || (e ==? "t")
            then string_body r1 else None
        end
      else if (code a <? 32)%N then None
      else string_body r
  end.

Definition number_exp (l : list ascii) : option (list ascii) :=
  match l with
  | a :: r =>
      if (a ==? "e") || (a ==? "E") then
        match r with
        | s :: r1 => if (s ==? "+") || (s ==? "-") then digits1 r1 else digits1 r
        | [] => None
        end
      else Some l
  | [] => Some l
  end.

Definition number_frac (l : list ascii) : option (list ascii) :=
  match l with
  | a :: r => if a ==? "." then l' ← digits1 r; number_exp l' else number_exp l
  | [] => Some l
  end.

(** A number without its sign: a zero, or digits that do not start with one. *)
Definition number_abs (l : list ascii) : option (list ascii) :=
  match l with
  | a :: r =>
      if a ==? "0" then number_frac r
      else if is_digit a then number_frac (skip_digits r)
      else None
  | [] => None
  end.

Fixpoint strip (p l : list ascii) : option (list ascii) :=
  match p, l with
  | [], _ => Some l
  | a :: p', b :: l' => if a ==? b then strip p' l' else None
  | _, [] => None
  end.

Inductive mode : Type := Value | Members | Elements.

Definition maxNestingDepth : N := 10000.

(** [parse fuel m depth l]: the rest of [l] after a value ([Value]), after the
    members of an object and its closing brace ([Members], at a quote), or
    after the elements of an array and its closing bracket ([Elements]). *)
Fixpoint parse (fuel : nat) (m : mode) (depth : N) (l : list ascii) : option (list ascii) :=
  match fuel with
  | 0 => None
  | S fuel =>
      match m with
      | Value =>
          match l with
          | [] => None
          | a :: r =>
              if a ==? "034" then string_body r
              else if a ==? "{" then
                if (maxNestingDepth <? depth + 1)%N then None
                else match skip_ws r with
                     | b :: r1 => if b ==? "}" then Some r1 else parse fuel Members (depth + 1) (b :: r1)
                     | [] => None
                     end
              else if a ==? "[" then
                if (maxNestingDepth <? depth + 1)%N then None
                else match skip_ws r with
                     | b :: r1 => if b ==? "]" then Some r1 else parse fuel Elements (depth + 1) (b :: r1)
                     | [] => None
                     end
              else if a ==? "t" then strip (bytes "rue") r
              else if a ==? "f" then strip (bytes "alse") r
              else if a ==? "n" then strip (bytes "ull") r
              else if a ==? "-" then number_abs r
              else number_abs l
          end
      | Members =>
          match l with
          | q :: r =>
              if q ==? "034" then
                r1 ← string_body r;
                r2 ← strip (bytes ":") (skip_ws r1);
                r3 ← parse fuel Value depth (skip_ws r2);
                match skip_ws r3 with
                | b :: r4 =>
                    if b ==? "}" then Some r4
                    else if b ==? "," then parse fuel Members depth (skip_ws r4)
                    else None
                | [] => None
                end
              else None
          | [] => None
          end
      | Elements =>
          r1 ← parse fuel Value depth l;
          match skip_ws r1 with
          | b :: r2 =>
              if b ==? "]" then Some r2
              else if b ==? "," then parse fuel Elements depth (skip_ws r2)
              else None
          | [] => None
          end
      end
  end.

Definition Valid (s : string) : bool :=
  let l := bytes s in
  match parse (S (2 * length l)) Value 0 (skip_ws l) with
  | Some rest => match skip_ws rest with [] => true | _ => false end
  | None => false
  end.

(** ** The fuel is enough *)

Lemma skip_ws_length l : length (skip_ws l) ≤ length l.
Proof. induction l as [|a l IH]; simpl; [done|]. destruct (is_ws a); simpl; lia. Qed.
Lemma skip_digits_length l : length (skip_digits l) ≤ length l.
Proof. induction l as [|a l IH]; simpl; [done|]. destruct (is_digit a); simpl; lia. Qed.

Lemma digits1_length l r : digits1 l = Some r → length r < length l.
Proof.
  destruct l as [|a l]; simpl; [done|]. destruct (is_digit a); [|done]. intros [= <-].
  pose proof (skip_digits_length l). lia.
Qed.

Lemma string_body_length l r : string_body l = Some r → length r < length l.
Proof.
  revert r. induction l as [l IH] using list_ind3. intros r H. destruct l as [|a l]; [done|].
  simpl in H. case_bool_decide; [simplify_eq; simpl; lia|]. case_bool_decide.
  - destruct l as [|e l]; [done|]. case_bool_decide.
    + destruct l as [|h1 [|h2 [|h3 [|h4 l]]]]; try done. destruct (_ && _); [|done].
      apply IH in H; simpl in *; lia.
    + destruct (_ || _); [|done]. apply IH in H; simpl in *; lia.
  - destruct (_ <? _)%N; [done|]. apply IH in H; simpl in *; lia.
Qed.

Lemma strip_length p l r : strip p l = Some r → length r ≤ length l.
Proof.
  revert l. induction p as [|a p IH]; intros l H; simpl in H; [by simplify_eq|].
  destruct l as [|b l]; [done|]. case_bool_decide; [|done]. apply IH in H. simpl. lia.
Qed.

#[local] Arguments strip : simpl never.

Lemma number_exp_length l r : number_exp l = Some r → length r ≤ length l.
Proof.
  unfold number_exp. destruct l as [|a l]; [by intros [= <-]|]. destruct (_ || _); [|by intros [= <-]].
  destruct l as [|b l]; [done|]. destruct (_ || _); intros H%digits1_length; simpl in *; lia.
Qed.

Lemma number_frac_length l r : number_frac l = Some r → length r ≤ length l.
Proof.
  unfold number_frac. destruct l as [|a l]; [by intros [= <-]|]. case_bool_decide.
  - intros (l' & Hl%digits1_length & Hr%number_exp_length)%bind_Some. simpl. lia.
  - apply number_exp_length.
Qed.

Lemma number_abs_length l r : number_abs l = Some r → length r < length l.
Proof.
  unfold number_abs. destruct l as [|a l]; [done|]. pose proof (skip_digits_length l).
  case_bool_decide; [intros Hr%number_frac_length; simpl; lia|].
  destruct (is_digit a); [|done]. intros Hr%number_frac_length. simpl. lia.
Qed.

Lemma parse_length fuel m d l r : parse fuel m d l = Some r → length r < length l.
Proof.
  revert m d l r. induction fuel as [|fuel IH]; intros m d l r H; simpl in H; [done|]. destruct m.
  - destruct l as [|a l]; [done|]. pose proof (skip_ws_length l).
    case_bool_decide; [apply string_body_length in H; simpl; lia|].
    case_bool_decide.
    { destruct (_ <? _)%N; [done|]. destruct (skip_ws l) as [|b r1]; [done|].
      case_bool_decide; [simplify_eq; simpl in *; lia|]. apply IH in H. simpl in *. lia. }
    case_bool_decide.
    { destruct (_ <? _)%N; [done|]. destruct (skip_ws l) as [|b r1]; [done|].
      case_bool_decide; [simplify_eq; simpl in *; lia|]. apply IH in H. simpl in *. lia. }
    case_bool_decide; [apply strip_length in H; simpl; lia|].
    case_bool_decide; [apply strip_length in H; simpl; lia|].
    case_bool_decide; [apply strip_length in H; simpl; lia|].
    case_bool_decide; apply number_abs_length in H; simpl in *; lia.
  - destruct l as [|q l]; [done|]. case_bool_decide; [|done].
    apply bind_Some in H as (r1 & H1%string_body_length & H).
    apply bind_Some in H as (r2 & H2%strip_length & H). apply bind_Some in H as (r3 & H3%IH & H).
    pose proof (skip_ws_length r1). pose proof (skip_ws_length r2). pose proof (skip_ws_length r3).
    destruct (skip_ws r3) as [|b r4]; [done|]. pose proof (skip_ws_length r4).
    case_bool_decide; [simplify_eq; simpl in *; lia|]. case_bool_decide; [|done].
    apply IH in H. simpl in *. lia.
  - apply bind_Some in H as (r1 & H1%IH & H). pose proof (skip_ws_length r1).
    destruct (skip_ws r1) as [|b r2]; [done|]. pose proof (skip_ws_length r2).
    case_bool_decide; [simplify_eq; simpl in *; lia|]. case_bool_decide; [|done].
    apply IH in H. simpl in *. lia.
Qed.

Definition bound (m : mode) (l : list ascii) : nat :=
  match m with Elements => S (S (2 * length l)) | _ => S (2 * length l) end.

(** Any two amounts of fuel above the bound give the same result. *)
Lemma parse_fuel f1 f2 m d l :
  bound m l ≤ f1 → bound m l ≤ f2 → parse f1 m d l = parse f2 m d l.
Proof.
  revert f2 m d l. induction f1 as [|f1 IH]; intros f2 m d l H1 H2; [destruct m; simpl in H1; lia|].
  destruct f2 as [|f2]; [destruct m; simpl in H2; lia|]. destruct m; simpl in *.
  - destruct l as [|a l]; [done|]. pose proof (skip_ws_length l). simpl in *.
    case_bool_decide; [done|]. case_bool_decide.
    { destruct (_ <? _)%N; [done|]. destruct (skip_ws l) as [|b r1]; [done|].
      case_bool_decide; [done|]. apply IH; simpl in *; lia. }
    case_bool_decide; [|done].
    destruct (_ <? _)%N; [done|]. destruct (skip_ws l) as [|b r1]; [done|].
    case_bool_decide; [done|]. apply IH; simpl in *; lia.
  - destruct l as [|q l]; [done|]. case_bool_decide; [|done]. simpl in *.
    destruct (string_body l) as [r1|] eqn:E1; [|done]. apply string_body_length in E1. simpl.
    destruct (strip _ (skip_ws r1)) as [r2|] eqn:E2; [|done]. apply strip_length in E2. simpl.
    pose proof (skip_ws_length r1). pose proof (skip_ws_length r2).
    rewrite (IH f2 Value d (skip_ws r2)) by (simpl; lia).
    destruct (parse f2 Value d (skip_ws r2)) as [r3|] eqn:E3; [|done]. apply parse_length in E3. simpl.
    pose proof (skip_ws_length r3). destruct (skip_ws r3) as [|b r4]; [done|].
    pose proof (skip_ws_length r4). simpl in *.
    case_bool_decide; [done|]. case_bool_decide; [|done]. apply IH; simpl; lia.
  - rewrite (IH f2 Value d l) by (simpl; lia).
    destruct (parse f2 Value d l) as [r1|] eqn:E1; [|done]. apply parse_length in E1. simpl.
    pose proof (skip_ws_length r1). destruct (skip_ws r1) as [|b r2]; [done|].
    pose proof (skip_ws_length r2). simpl in *.
    case_bool_decide; [done|]. case_bool_decide; [|done]. apply IH; simpl; lia.
Qed.

(** The verdict of [Valid] does not depend on its fuel. *)
Lemma Valid_fuel s fuel :
  S (2 * String.length s) ≤ fuel →
  Valid s = match parse fuel Value 0 (skip_ws (bytes s)) with
            | Some rest => match skip_ws rest with [] => true | _ => false end
            | None => false
            end.
Proof.
  intros Hf. assert (length (bytes s) = String.length s) as Hl.
  { clear. unfold bytes. induction s; simpl; [done|by f_equal]. }
  unfold Valid. pose proof (skip_ws_length (bytes s)).
  rewrite (parse_fuel _ fuel Value 0 (skip_ws (bytes s))); [done|simpl; lia..].
Qed.

Example Valid_array : Valid "[1, -2.5e+3, true, null, {}] " = true.
Proof. reflexivity. Qed.
Example Valid_not : Valid "[01]" = false ∧ Valid "[1,]" = false ∧ Valid "" = false.
Proof. done. Qed.

End Json.
