(* ===== verification/Identity.v ===== *)
(** * Identity: authenticated principals and tenant scopes

    [src/internal/identity/principal.go], [src/internal/identity/system.go] and
    [src/internal/tenant/context.go].  A [Context] is what the code reads of a
    [context.Context]: the Principal stored under the package-private key, if
    any.  Strings are normalised with [strings.TrimSpace] exactly as in the
    source; role and capability lists are trimmed, emptied of blanks and
    deduplicated in order. *)
From S2P Require Import Prelude.

Module Identity.

Inductive PrincipalType : Type :=
| PrincipalUser
| PrincipalServiceAccount
| PrincipalSystem
| PrincipalOther (s : string).

#[export] Instance PrincipalType_eq_dec : EqDecision PrincipalType.
Proof. solve_decision. Defined.

Definition CapabilityTaskSystemAccess : string := "task:system-access".
Definition CapabilityDatabaseAdmin : string := "database:admin".

Definition ErrPrincipalRequired : error := Sentinel "identity.ErrPrincipalRequired" "authenticated principal is required".
Definition ErrTenantRequired : error := Sentinel "identity.ErrTenantRequired" "tenant scope is required".
Definition ErrProjectRequired : error := Sentinel "identity.ErrProjectRequired" "project scope is required".
Definition ErrCapabilityRequired : error := Sentinel "identity.ErrCapabilityRequired" "required capability is missing".
Definition ErrInvalidPrincipal : error := Sentinel "identity.ErrInvalidPrincipal" "invalid principal".

Record Principal : Type := mkPrincipal {
  Type_ : PrincipalType;
  SubjectID : string;
  TenantID : string;
  ProjectID : string;
  Roles : list string;
  Capabilities : list string;
  AuthnMethod : string;
  Issuer : string;
  SessionID : string;
  Purpose : string
}.

#[export] Instance Principal_eq_dec : EqDecision Principal.
Proof. solve_decision. Defined.

(** The value a [context.Context] holds under [principalKey]. *)
Definition Context : Type := option Principal.

(** The loop of [normalizeStrings] with its [seen] set. *)
Fixpoint normalizeStrings_loop (seen : gset string) (values : list string) : list string :=
  match values with
  | [] => []
  | value :: rest =>
      let value := TrimSpace value in
      if value ==? "" then normalizeStrings_loop seen rest
      else if bool_decide (value ∈ seen) then normalizeStrings_loop seen rest
      else value :: normalizeStrings_loop ({[value]} ∪ seen) rest
  end.

Definition normalizeStrings (values : list string) : list string :=
  normalizeStrings_loop ∅ values.

Definition normalize (p : Principal) : Principal :=
  {| Type_ := Type_ p;
     SubjectID := TrimSpace (SubjectID p);
     TenantID := TrimSpace (TenantID p);
     ProjectID := TrimSpace (ProjectID p);
     Roles := normalizeStrings (Roles p);
     Capabilities := normalizeStrings (Capabilities p);
     AuthnMethod := TrimSpace (AuthnMethod p);
     Issuer := TrimSpace (Issuer p);
     SessionID := TrimSpace (SessionID p);
     Purpose := TrimSpace (Purpose p) |}.

Definition Validate (principal : Principal) : result unit :=
  let principal := normalize principal in
  if (SubjectID principal ==? "") || (AuthnMethod principal ==? "") then Err ErrInvalidPrincipal
  else match Type_ principal with
       | PrincipalUser | PrincipalServiceAccount =>
           if TenantID principal ==? "" then Err ErrInvalidPrincipal else Ok tt
       | PrincipalSystem =>
           if Purpose principal ==? "" then Err ErrInvalidPrincipal else Ok tt
       | PrincipalOther _ => Err ErrInvalidPrincipal
       end.

Definition WithPrincipal (ctx : Context) (principal : Principal) : Context :=
  Some (normalize principal).

Definition PrincipalFromContext (ctx : Context) : option Principal :=
  match ctx with
  | None => None
  | Some principal =>
      let principal := normalize principal in
      match Validate principal with
      | Err _ => None
      | Ok _ => Some principal
      end
  end.

Definition RequirePrincipal (ctx : Context) : result Principal :=
  match PrincipalFromContext ctx with
  | None => Err ErrPrincipalRequired
  | Some principal => Ok principal
  end.

Definition RequireTenant (ctx : Context) : result Principal :=
  principal ← RequirePrincipal ctx;
  if TenantID principal ==? "" then Err ErrTenantRequired else Ok principal.

Definition RequireProject (ctx : Context) : result Principal :=
  principal ← RequireTenant ctx;
  if ProjectID principal ==? "" then Err ErrProjectRequired else Ok principal.

(** [slices.Contains(p.Capabilities, strings.TrimSpace(capability))]. *)
Definition HasCapability (p : Principal) (capability : string) : bool :=
  bool_decide (TrimSpace capability ∈ Capabilities p).

Definition RequireCapability (ctx : Context) (capability : string) : result Principal :=
  principal ← RequirePrincipal ctx;
  if negb (HasCapability principal capability)
  then Err (Errorw "%w: %s" [AStr capability] ErrCapabilityRequired)
  else Ok principal.

Definition RequireSystemCapability (ctx : Context) (capability : string) : result Principal :=
  principal ← RequireCapability ctx capability;
  if Type_ principal !=? PrincipalSystem
  then Err (Errorw "%w: system principal required" [] ErrInvalidPrincipal)
  else if Purpose principal ==? ""
  then Err (Errorw "%w: system principal purpose is required" [] ErrInvalidPrincipal)
  else Ok principal.

Definition NewSystemPrincipal (subjectID purpose : string) (capabilities : list string) : result Principal :=
  let principal :=
    {| Type_ := PrincipalSystem; SubjectID := subjectID; TenantID := ""; ProjectID := "";
       Roles := []; Capabilities := capabilities; AuthnMethod := "internal_system";
       Issuer := "aicloud"; SessionID := ""; Purpose := purpose |} in
  _ ← Validate principal;
  Ok (normalize principal).

Definition NewProjectSystemPrincipal (subjectID purpose tenantID projectID : string)
    (capabilities : list string) : result Principal :=
  let principal :=
    {| Type_ := PrincipalSystem; SubjectID := subjectID; TenantID := tenantID;
       ProjectID := projectID; Roles := []; Capabilities := capabilities;
       AuthnMethod := "internal_system"; Issuer := "aicloud"; SessionID := "";
       Purpose := purpose |} in
  _ ← Validate principal;
  Ok (normalize principal).

Definition OwnsProject (p : Principal) (tenantID projectID : string) : bool :=
  if (TenantID p ==? "") || (ProjectID p ==? "") then false
  else (TenantID p ==? TrimSpace tenantID) && (ProjectID p ==? TrimSpace projectID).

(** The guard every scoped repository runs before it opens a transaction
    ([withScopedTx] of the lease store and of the outbox). *)
Definition requireScopedPrincipal (ctx : Context) : result Principal :=
  principal ← RequireProject ctx;
  if (Type_ principal ==? PrincipalSystem)
     && negb (HasCapability principal CapabilityTaskSystemAccess)
  then Err (Errorw "%w: %s" [AStr CapabilityTaskSystemAccess] ErrCapabilityRequired)
  else Ok principal.

(** ** The compatibility projection of [src/internal/tenant/context.go] *)

Definition ErrScopeRequired : error := Sentinel "tenant.ErrScopeRequired" "tenant scope is required".

Record Scope : Type := mkScope {
  Scope_TenantID : string;
  Scope_ProjectID : string;
  Scope_SubjectID : string
}.

Definition normalizeScope (scope : Scope) : Scope :=
  {| Scope_TenantID := TrimSpace (Scope_TenantID scope);
     Scope_ProjectID := TrimSpace (Scope_ProjectID scope);
     Scope_SubjectID := TrimSpace (Scope_SubjectID scope) |}.

Definition WithScope (ctx : Context) (scope : Scope) : Context :=
  let scope := normalizeScope scope in
  WithPrincipal ctx
    {| Type_ := PrincipalUser; SubjectID := Scope_SubjectID scope;
       TenantID := Scope_TenantID scope; ProjectID := Scope_ProjectID scope;
       Roles := []; Capabilities := []; AuthnMethod := "legacy_scope";
       Issuer := "aicloud-compat"; SessionID := ""; Purpose := "" |}.

Definition FromContext (ctx : Context) : option Scope :=
  match PrincipalFromContext ctx with
  | None => None
  | Some principal =>
      if TenantID principal ==? "" then None
      else Some {| Scope_TenantID := TenantID principal;
                   Scope_ProjectID := ProjectID principal;
                   Scope_SubjectID := SubjectID principal |}
  end.

Definition Require (ctx : Context) : result Scope :=
  match FromContext ctx with
  | None => Err ErrScopeRequired
  | Some scope => Ok scope
  end.

Definition OwnsTask (scope : Scope) (tenantID projectID : string) : bool :=
  if blank (Scope_TenantID scope) || (Scope_TenantID scope !=? TrimSpace tenantID) then false
  else if blank (Scope_ProjectID scope) || (Scope_ProjectID scope !=? TrimSpace projectID) then false
  else true.

(** ** Normalisation *)

(** What [normalizeStrings] returns: trimmed, non-blank, pairwise distinct. *)
Definition normalized_strings (l : list string) : Prop :=
  NoDup l ∧ Forall (λ s, TrimSpace s = s ∧ s ≠ "") l.

Lemma normalizeStrings_loop_spec seen values :
  let out := normalizeStrings_loop seen values in
  normalized_strings out ∧ (∀ s, s ∈ out → s ∉ seen).
Proof.
  revert seen. induction values as [|v values IH]; intros seen; simpl.
  { split; [split; constructor|]. intros s Hs. by apply not_elem_of_nil in Hs. }
  case_bool_decide; [apply IH|]. case_bool_decide; [apply IH|].
  destruct (IH ({[TrimSpace v]} ∪ seen)) as [[Hnd Hall] Hseen]. split; [split|].
  - constructor; [|done]. intros Hin. specialize (Hseen _ Hin). set_solver.
  - constructor; [|done]. by rewrite TrimSpace_idem.
  - intros s [->|Hs]%elem_of_cons; [done|]. specialize (Hseen _ Hs). set_solver.
Qed.

Lemma normalizeStrings_loop_id seen l :
  normalized_strings l → (∀ s, s ∈ l → s ∉ seen) → normalizeStrings_loop seen l = l.
Proof.
  revert seen. induction l as [|s l IH]; intros seen [Hnd Hall] Hseen; [done|].
  apply NoDup_cons in Hnd as [Hs Hnd]. apply Forall_cons in Hall as [[Ht Hne] Hall].
  simpl. rewrite Ht. rewrite bool_decide_eq_false_2 by done.
  rewrite bool_decide_eq_false_2 by (apply Hseen; set_solver).
  f_equal. apply IH; [done|]. intros x Hx. specialize (Hseen x). set_solver.
Qed.

Lemma normalizeStrings_spec values : normalized_strings (normalizeStrings values).
Proof. apply normalizeStrings_loop_spec. Qed.

Lemma normalizeStrings_idem values :
  normalizeStrings (normalizeStrings values) = normalizeStrings values.
Proof. apply normalizeStrings_loop_id; [apply normalizeStrings_spec|]. set_solver. Qed.

Lemma normalize_idem p : normalize (normalize p) = normalize p.
Proof. unfold normalize. simpl. by rewrite !TrimSpace_idem, !normalizeStrings_idem. Qed.

Lemma Validate_normalize p : Validate (normalize p) = Validate p.
Proof. unfold Validate. by rewrite normalize_idem. Qed.

#[export] Hint Rewrite normalize_idem Validate_normalize normalizeStrings_idem : go.

Lemma PrincipalFromContext_Some ctx p :
  PrincipalFromContext ctx = Some p →
  normalize p = p ∧ Validate p = Ok tt ∧ ∃ q, ctx = Some q ∧ p = normalize q.
Proof.
  destruct ctx as [q|]; simpl; [|done]. intros H. go_inv H.
  repeat match goal with u : unit |- _ => destruct u end.
  rewrite normalize_idem. eauto.
Qed.

Lemma RequireProject_Ok ctx p :
  RequireProject ctx = Ok p →
  PrincipalFromContext ctx = Some p ∧ TenantID p ≠ "" ∧ ProjectID p ≠ "".
Proof.
  unfold RequireProject, RequireTenant, RequirePrincipal, mbind, result_bind.
  intros H. go_inv H. go_props. naive_solver.
Qed.

Lemma requireScopedPrincipal_Ok ctx p :
  requireScopedPrincipal ctx = Ok p → RequireProject ctx = Ok p.
Proof.
  unfold requireScopedPrincipal, mbind, result_bind. intros H. go_inv H.
Qed.

End Identity.
