(* ===== verification/Domain.v ===== *)
(** * Domain: tasks, models and their records

    [src/internal/domain/types.go], [task_aggregate.go] and [task_event.go]: the
    control plane's data types, the Task aggregate with its state machine, and
    the validation of task events, outbox messages and idempotency records.
    JSON payloads are byte strings checked with [Json.Valid]. *)
From S2P Require Import Prelude Json.

Module Domain.

(** ** Enumerations *)
Inductive ModelLifecycle : Type :=
| ModelDraft | ModelActive | ModelDegraded | ModelDeprecated | ModelRetired | ModelRevoked
| ModelLifecycleOther (s : string).
Inductive HealthStatus : Type :=
| HealthUnknown | HealthHealthy | HealthDegraded | HealthUnhealthy | HealthOther (s : string).
Inductive ApprovalStatus : Type :=
| ApprovalDiscovered | ApprovalEvidenceCollected | ApprovalReviewed | ApprovalApproved
| ApprovalRestricted | ApprovalRejected | ApprovalRevoked | ApprovalOther (s : string).
Inductive DeploymentMode : Type :=
| DeploymentPublicAPI | DeploymentEnterpriseAPI | DeploymentPrivateEndpoint | DeploymentSelfHosted
| DeploymentLocal | DeploymentModeOther (s : string).
Inductive InferenceEffort : Type :=
| EffortMinimal | EffortLow | EffortMedium | EffortHigh | EffortOther (s : string).
Inductive ServiceTier : Type :=
| TierStandard | TierPriority | TierBatch | TierProvisioned | TierOther (s : string).
Inductive TaskStatus : Type :=
| TaskCreated | TaskPlanning | TaskRouting | TaskExecuting | TaskWaitingApproval | TaskValidating
| TaskCompleted | TaskFailed | TaskCancelled | TaskExpired | TaskStatusOther (s : string).
Inductive OutboxStatus : Type :=
| OutboxPending | OutboxDelivering | OutboxDelivered | OutboxDeadLetter | OutboxStatusOther (s : string).
Inductive IdempotencyStatus : Type :=
| IdempotencyInProgress | IdempotencyCompleted | IdempotencyFailedRetryable | IdempotencyFailedFinal
| IdempotencyStatusOther (s : string).

#[export] Instance ApprovalStatus_eq_dec : EqDecision ApprovalStatus.
Proof. solve_decision. Defined.
#[export] Instance DeploymentMode_eq_dec : EqDecision DeploymentMode.
Proof. solve_decision. Defined.
#[export] Instance TaskStatus_eq_dec : EqDecision TaskStatus.
Proof. solve_decision. Defined.
#[export] Instance OutboxStatus_eq_dec : EqDecision OutboxStatus.
Proof. solve_decision. Defined.

(** The string a task status is, as the error messages print it. *)
Definition TaskStatus_string (s : TaskStatus) : string :=
  match s with
  | TaskCreated => "CREATED" | TaskPlanning => "PLANNING" | TaskRouting => "ROUTING"
  | TaskExecuting => "EXECUTING" | TaskWaitingApproval => "WAITING_APPROVAL"
  | TaskValidating => "VALIDATING" | TaskCompleted => "COMPLETED" | TaskFailed => "FAILED"
  | TaskCancelled => "CANCELLED" | TaskExpired => "EXPIRED" | TaskStatusOther s => s
  end.

(** ** Models *)
Record LicenseEvidence : Type := {
  License_LicenseID : string;
  License_LicenseTextRef : string;
  License_UpstreamModel : string;
  License_CommercialUseAllowed : bool;
  License_HostedServiceAllowed : bool;
  License_RedistributionAllowed : bool;
  License_NoticeRequired : bool;
  License_Reviewer : string;
  License_ReviewedAt : option Time
}.

Record ModelProvenance : Type := {
  Provenance_Source : string;
  Provenance_BaseModels : list string;
  Provenance_Datasets : list string;
  Provenance_FineTunings : list string;
  Provenance_BuildProcess : string
}.

Record PricingProfile : Type := {
  Pricing_Currency : string;
  Pricing_InputPerMillion : float64;
  Pricing_OutputPerMillion : float64;
  Pricing_CachedPerMillion : float64;
  Pricing_ServiceTierFactor : float64
}.

Record Model : Type := {
  Model_ID : string;
  Model_Name : string;
  Model_Version : string;
  Model_Provider : string;
  Model_Endpoint : string;
  Model_DeploymentMode : DeploymentMode;
  Model_Lifecycle : ModelLifecycle;
  Model_Capabilities : list string;
  Model_Pricing : PricingProfile;
  Model_Health : HealthStatus;
  Model_HealthCheckedAt : option Time;
  Model_P95LatencyMS : Z;
  Model_ErrorRate : float64;
  Model_QuotaRemaining : Z;
  Model_CapacityAvailable : Z;
  Model_QueueDepth : Z;
  Model_ServiceTiers : list ServiceTier;
  Model_InferenceEfforts : list InferenceEffort;
  Model_EvaluationVersion : string;
  Model_License : string;
  Model_LicenseEvidence : LicenseEvidence;
  Model_Provenance : ModelProvenance;
  Model_ArtifactDigest : string;
  Model_ApprovalStatus : ApprovalStatus;
  Model_RiskLevel : string;
  Model_DataResidency : string;
  Model_CreatedAt : Time;
  Model_UpdatedAt : Time
}.

(** ** The Task aggregate *)

Definition ErrInvalidTaskTransition : error := Sentinel "ErrInvalidTaskTransition" "invalid task transition".
Definition ErrTaskTerminal : error := Sentinel "ErrTaskTerminal" "task is terminal".
Definition ErrTransitionActor : error := Sentinel "ErrTransitionActor" "task transition actor is required".
Definition ErrTransitionCause : error := Sentinel "ErrTransitionCause" "task transition cause is required".
Definition ErrTransitionTime : error := Sentinel "ErrTransitionTime" "task transition time is required".

Record Task : Type := mkTask {
  Task_ID : string;
  Task_TenantID : string;
  Task_ProjectID : string;
  Task_CreatedBy : string;
  Task_AgentID : string;
  Task_Input : string;
  Task_Status : TaskStatus;
  Task_Version : Z;
  Task_Result : string;
  Task_Cost : float64;
  Task_EstimatedCost : float64;
  Task_ActualCost : float64;
  Task_Currency : string;
  Task_RouteDecisionID : string;
  Task_TraceID : string;
  Task_CreatedAt : Time;
  Task_UpdatedAt : Time;
  Task_CompletedAt : option Time
}.

Record TaskTransitionCommand : Type := mkTaskTransitionCommand {
  Command_To : TaskStatus;
  Command_Actor : string;
  Command_Cause : string;
  Command_At : Time
}.

Record TaskTransition : Type := mkTaskTransition {
  Transition_From : TaskStatus;
  Transition_To : TaskStatus;
  Transition_Actor : string;
  Transition_Cause : string;
  Transition_At : Time
}.

Record NewTaskParams : Type := mkNewTaskParams {
  Params_ID : string;
  Params_AgentID : string;
  Params_Input : string;
  Params_TraceID : string;
  Params_Currency : string;
  Params_Now : Time
}.

Definition NewTask (params : NewTaskParams) : result Task :=
  if blank (Params_ID params) then Err (Errorf "task id is required" [])
  else if blank (Params_Input params) then Err (Errorf "task input is required" [])
  else if IsZero (Params_Now params) then Err (Errorf "task creation time is required" [])
  else
    let currency := TrimSpace (Params_Currency params) in
    let currency := if currency ==? "" then "USD" else currency in
    Ok {| Task_ID := TrimSpace (Params_ID params); Task_TenantID := ""; Task_ProjectID := "";
          Task_CreatedBy := ""; Task_AgentID := TrimSpace (Params_AgentID params);
          Task_Input := Params_Input params; Task_Status := TaskCreated; Task_Version := 1;
          Task_Result := ""; Task_Cost := f_zero; Task_EstimatedCost := f_zero;
          Task_ActualCost := f_zero; Task_Currency := currency; Task_RouteDecisionID := "";
          Task_TraceID := TrimSpace (Params_TraceID params); Task_CreatedAt := Params_Now params;
          Task_UpdatedAt := Params_Now params; Task_CompletedAt := None |}.

Definition terminal_status (s : TaskStatus) : bool :=
  match s with TaskCompleted | TaskFailed | TaskCancelled | TaskExpired => true | _ => false end.

Definition IsTerminal (t : Task) : bool := terminal_status (Task_Status t).

Definition isKnownNonTerminal (s : TaskStatus) : bool :=
  match s with
  | TaskCreated | TaskPlanning | TaskRouting | TaskExecuting | TaskWaitingApproval | TaskValidating => true
  | _ => false
  end.

Definition CanTransition (t : Task) (to : TaskStatus) : bool :=
  if IsTerminal t then false
  else if (to ==? TaskFailed) || (to ==? TaskCancelled) || (to ==? TaskExpired)
  then isKnownNonTerminal (Task_Status t)
  else match Task_Status t with
       | TaskCreated => to ==? TaskPlanning
       | TaskPlanning => to ==? TaskRouting
       | TaskRouting => to ==? TaskExecuting
       | TaskExecuting => (to ==? TaskWaitingApproval) || (to ==? TaskValidating)
       | TaskWaitingApproval => to ==? TaskExecuting
       | TaskValidating => to ==? TaskCompleted
       | _ => false
       end.

Definition moveTask (t : Task) (to : TaskStatus) (at_ : Time) : Task :=
  {| Task_ID := Task_ID t; Task_TenantID := Task_TenantID t; Task_ProjectID := Task_ProjectID t;
     Task_CreatedBy := Task_CreatedBy t; Task_AgentID := Task_AgentID t; Task_Input := Task_Input t;
     Task_Status := to; Task_Version := Task_Version t; Task_Result := Task_Result t;
     Task_Cost := Task_Cost t; Task_EstimatedCost := Task_EstimatedCost t;
     Task_ActualCost := Task_ActualCost t; Task_Currency := Task_Currency t;
     Task_RouteDecisionID := Task_RouteDecisionID t; Task_TraceID := Task_TraceID t;
     Task_CreatedAt := Task_CreatedAt t; Task_UpdatedAt := at_;
     Task_CompletedAt := if terminal_status to then Some at_ else Task_CompletedAt t |}.

(** The method [Transition] of a task pointer: its target before and after;
    [None] is a nil receiver. *)
Definition Transition (t : option Task) (command : TaskTransitionCommand)
    : result TaskTransition * option Task :=
  match t with
  | None => (Err (Errorw "%w: nil task" [] ErrInvalidTaskTransition), t)
  | Some task =>
      let actor := TrimSpace (Command_Actor command) in
      let cause := TrimSpace (Command_Cause command) in
      if actor ==? "" then (Err ErrTransitionActor, t)
      else if cause ==? "" then (Err ErrTransitionCause, t)
      else if IsZero (Command_At command) then (Err ErrTransitionTime, t)
      else if IsTerminal task then (Err (Errorw "%w: %s" [AStr (TaskStatus_string (Task_Status task))] ErrTaskTerminal), t)
      else if negb (CanTransition task (Command_To command))
      then (Err (Errorw "%w: %s -> %s" [AStr (TaskStatus_string (Task_Status task));
                                         AStr (TaskStatus_string (Command_To command))]
                  ErrInvalidTaskTransition), t)
      else
        (Ok {| Transition_From := Task_Status task; Transition_To := Command_To command;
               Transition_Actor := actor; Transition_Cause := cause;
               Transition_At := Command_At command |},
         Some (moveTask task (Command_To command) (Command_At command)))
  end.

Definition CanonicalTaskStateEvent (status : TaskStatus) : string * bool :=
  match status with
  | TaskCreated => ("TaskCreated", true)
  | TaskPlanning => ("TaskPlanningStarted", true)
  | TaskRouting => ("TaskRoutingStarted", true)
  | TaskExecuting => ("TaskExecutionStarted", true)
  | TaskWaitingApproval => ("TaskApprovalRequested", true)
  | TaskValidating => ("TaskValidationStarted", true)
  | TaskCompleted => ("TaskCompleted", true)
  | TaskFailed => ("TaskFailed", true)
  | TaskCancelled => ("TaskCancelled", true)
  | TaskExpired => ("TaskExpired", true)
  | TaskStatusOther _ => ("", false)
  end.

(** ** Records validated before they are stored *)

Definition ErrInvalidTaskEvent : error := Sentinel "ErrInvalidTaskEvent" "invalid task event".
Definition ErrInvalidOutboxMessage : error := Sentinel "ErrInvalidOutboxMessage" "invalid outbox message".
Definition ErrInvalidIdempotencyRecord : error :=
  Sentinel "ErrInvalidIdempotencyRecord" "invalid idempotency record".

Record TaskEventActor : Type := { Actor_PrincipalType : string; Actor_SubjectID : string }.

Record TaskEvent : Type := mkTaskEvent {
  Event_EventID : string;
  Event_TenantID : string;
  Event_ProjectID : string;
  Event_TaskID : string;
  Event_Sequence : Z;
  Event_EventType : string;
  Event_Actor : TaskEventActor;
  Event_Payload : string;
  Event_RequestID : string;
  Event_TraceID : string;
  Event_SchemaVersion : Z;
  Event_OccurredAt : Time;
  Event_CreatedAt : Time
}.

Definition validPayload (p : string) : bool := (p !=? "") && Json.Valid p.

Definition ValidateTaskEvent (e : TaskEvent) : result unit :=
  if blank (Event_EventID e) || blank (Event_TenantID e) || blank (Event_ProjectID e)
     || blank (Event_TaskID e) || blank (Event_EventType e) || blank (Event_TraceID e)
  then Err ErrInvalidTaskEvent
  else if (Event_Sequence e <? 1)%Z || (Event_SchemaVersion e <? 1)%Z
          || IsZero (Event_OccurredAt e) || IsZero (Event_CreatedAt e)
  then Err ErrInvalidTaskEvent
  else if blank (Actor_PrincipalType (Event_Actor e)) || blank (Actor_SubjectID (Event_Actor e))
  then Err ErrInvalidTaskEvent
  else if negb (validPayload (Event_Payload e))
  then Err (Errorw "%w: payload must be valid JSON" [] ErrInvalidTaskEvent)
  else Ok tt.

Record OutboxMessage : Type := mkOutboxMessage {
  Outbox_OutboxID : string;
  Outbox_TenantID : string;
  Outbox_ProjectID : string;
  Outbox_TaskID : string;
  Outbox_AggregateType : string;
  Outbox_AggregateID : string;
  Outbox_EventType : string;
  Outbox_Payload : string;
  Outbox_Destination : string;
  Outbox_IdempotencyKey : string;
  Outbox_Status : OutboxStatus;
  Outbox_Attempts : Z;
  Outbox_AvailableAt : Time;
  Outbox_CreatedAt : Time;
  Outbox_DeliveredAt : option Time
}.

Definition ValidateOutboxMessage (m : OutboxMessage) : result unit :=
  if blank (Outbox_OutboxID m) || blank (Outbox_TenantID m) || blank (Outbox_ProjectID m)
     || blank (Outbox_AggregateType m) || blank (Outbox_AggregateID m) || blank (Outbox_EventType m)
     || blank (Outbox_Destination m) || blank (Outbox_IdempotencyKey m)
  then Err ErrInvalidOutboxMessage
  else if (Outbox_Attempts m <? 0)%Z || IsZero (Outbox_AvailableAt m) || IsZero (Outbox_CreatedAt m)
  then Err ErrInvalidOutboxMessage
  else match Outbox_Status m with
  | OutboxStatusOther _ => Err ErrInvalidOutboxMessage
  | _ =>
      if negb (validPayload (Outbox_Payload m))
      then Err (Errorw "%w: payload must be valid JSON" [] ErrInvalidOutboxMessage)
      else Ok tt
  end.

Record IdempotencyRecord : Type := mkIdempotencyRecord {
  Idem_TenantID : string;
  Idem_ProjectID : string;
  Idem_Operation : string;
  Idem_Key : string;
  Idem_RequestDigest : string;
  Idem_Status : IdempotencyStatus;
  Idem_ResourceID : string;
  Idem_ResponseCode : Z;
  Idem_ResponseDigest : string;
  Idem_ResponsePayload : string;
  Idem_CreatedAt : Time;
  Idem_ExpiresAt : Time
}.

Definition ValidateIdempotencyRecord (r : IdempotencyRecord) : result unit :=
  if blank (Idem_TenantID r) || blank (Idem_ProjectID r) || blank (Idem_Operation r)
     || blank (Idem_Key r) || blank (Idem_RequestDigest r) || IsZero (Idem_CreatedAt r)
     || IsZero (Idem_ExpiresAt r)
  then Err ErrInvalidIdempotencyRecord
  else if negb (After (Idem_ExpiresAt r) (Idem_CreatedAt r))
  then Err (Errorw "%w: expires_at must be after created_at" [] ErrInvalidIdempotencyRecord)
  else match Idem_Status r with
  | IdempotencyStatusOther _ => Err ErrInvalidIdempotencyRecord
  | _ =>
      if (Idem_ResponsePayload r !=? "") && negb (Json.Valid (Idem_ResponsePayload r))
      then Err (Errorw "%w: response payload must be valid JSON" [] ErrInvalidIdempotencyRecord)
      else Ok tt
  end.

(** ** Histories of a task *)

(** The task after a list of commands, and the transitions that were made. *)
Fixpoint run_commands (commands : list TaskTransitionCommand) (t : Task) : list TaskTransition * Task :=
  match commands with
  | [] => ([], t)
  | c :: rest =>
      match Transition (Some t) c with
      | (Ok tr, Some t') => let '(trs, t'') := run_commands rest t' in (tr :: trs, t'')
      | _ => run_commands rest t
      end
  end.

Arguments Transition : simpl never.

Lemma Transition_cases t c :
  (∃ e, Transition (Some t) c = (Err e, Some t))
  ∨ (CanTransition t (Command_To c) = true ∧ IsTerminal t = false ∧ Command_At c ≠ 0%Z
     ∧ TrimSpace (Command_Actor c) ≠ "" ∧ TrimSpace (Command_Cause c) ≠ ""
     ∧ Transition (Some t) c =
         (Ok (mkTaskTransition (Task_Status t) (Command_To c) (TrimSpace (Command_Actor c))
                (TrimSpace (Command_Cause c)) (Command_At c)),
          Some (moveTask t (Command_To c) (Command_At c)))).
Proof.
  unfold Transition. case_bool_decide; [eauto|]. case_bool_decide; [eauto|].
  unfold IsZero. destruct (Z.eqb_spec (Command_At c) 0); [eauto|].
  destruct (IsTerminal t) eqn:?; [eauto|]. destruct (CanTransition t _) eqn:?; simpl; eauto.
  right. done.
Qed.

(** The task's consistency: created fields are kept, and the completion time is
    set exactly in the terminal states. *)
Definition consistent (t0 t : Task) : Prop :=
  Task_ID t = Task_ID t0 ∧ Task_Input t = Task_Input t0 ∧ Task_CreatedAt t = Task_CreatedAt t0
  ∧ (Task_CompletedAt t ≠ None ↔ IsTerminal t = true)
  ∧ (IsTerminal t = true → Task_CompletedAt t = Some (Task_UpdatedAt t)).

(** What a transition into a state requires of the state before it. *)
Lemma CanTransition_inv t to :
  CanTransition t to = true →
  IsTerminal t = false
  ∧ (to = TaskCompleted → Task_Status t = TaskValidating)
  ∧ (to = TaskValidating → Task_Status t = TaskExecuting)
  ∧ (to = TaskExecuting → Task_Status t = TaskRouting ∨ Task_Status t = TaskWaitingApproval)
  ∧ (to = TaskWaitingApproval → Task_Status t = TaskExecuting)
  ∧ (to = TaskRouting → Task_Status t = TaskPlanning)
  ∧ (to = TaskPlanning → Task_Status t = TaskCreated) ∧ to ≠ TaskCreated.
Proof.
  unfold CanTransition. destruct (IsTerminal t); [done|].
  destruct (_ || _) eqn:Ho; intros H.
  - rewrite !orb_true_iff, !bool_decide_eq_true in Ho.
    destruct Ho as [[->| ->]| ->]; split_and!; done.
  - rewrite !orb_false_iff, !bool_decide_eq_false in Ho.
    destruct (Task_Status t); try done;
      rewrite ?orb_true_iff, ?bool_decide_eq_true in H; split_and!; intros; subst; auto;
      intuition congruence.
Qed.

(** The states visited: where the task has been says where it can be. *)
Definition visited (trs : list TaskTransition) (s : TaskStatus) : Prop :=
  ∃ tr, tr ∈ trs ∧ Transition_To tr = s.

Definition went_through (trs : list TaskTransition) (s : TaskStatus) : Prop :=
  match s with
  | TaskCreated => True
  | TaskPlanning => visited trs TaskPlanning
  | TaskRouting => visited trs TaskPlanning ∧ visited trs TaskRouting
  | TaskExecuting | TaskWaitingApproval =>
      visited trs TaskPlanning ∧ visited trs TaskRouting ∧ visited trs TaskExecuting
  | TaskValidating | TaskCompleted =>
      visited trs TaskPlanning ∧ visited trs TaskRouting ∧ visited trs TaskExecuting
      ∧ visited trs TaskValidating
  | TaskFailed | TaskCancelled | TaskExpired => True
  | TaskStatusOther _ => False
  end.

Lemma visited_snoc trs tr s : visited (trs ++ [tr]) s ↔ visited trs s ∨ Transition_To tr = s.
Proof. unfold visited. set_solver. Qed.

Lemma run_commands_app c1 c2 t :
  run_commands (c1 ++ c2) t =
  (let '(trs1, t1) := run_commands c1 t in
   let '(trs2, t2) := run_commands c2 t1 in (trs1 ++ trs2, t2)).
Proof.
  revert t. induction c1 as [|c c1 IH]; intros t; simpl.
  { by destruct (run_commands c2 t). }
  destruct (Transition_cases t c) as [[e ->]|(_ & _ & _ & _ & _ & ->)]; rewrite IH.
  - by destruct (run_commands c1 t), (run_commands c2 _).
  - destruct (run_commands c1 _) as [trs1 t1]. by destruct (run_commands c2 t1).
Qed.

Definition lifecycle_ok (t0 : Task) (r : list TaskTransition * Task) : Prop :=
  consistent t0 (snd r) ∧ went_through (fst r) (Task_Status (snd r))
  ∧ Forall (λ tr, terminal_status (Transition_From tr) = false ∧ Transition_Actor tr ≠ ""
                  ∧ Transition_Cause tr ≠ "") (fst r)
  ∧ last (Transition_To <$> fst r) = (if bool_decide (fst r = []) then None else Some (Task_Status (snd r))).

(** The life of a task: whatever commands are sent to a new task, in any
    order, its status is always the target of the last transition made; it is
    COMPLETED only after planning, routing, executing and validating; no
    transition leaves a terminal state, and every transition names its actor
    and cause; the completion time is set exactly in the terminal states, to
    the time of the last update; and id, input and creation time never change. *)
Theorem task_lifecycle params t0 commands :
  NewTask params = Ok t0 →
  lifecycle_ok t0 (run_commands commands t0).
Proof.
  intros Hnew.
  assert (Task_Status t0 = TaskCreated ∧ Task_CompletedAt t0 = None) as [Hs0 Hc0].
  { unfold NewTask in Hnew. repeat (case_match; [done|]). by simplify_eq. }
  induction commands as [|c commands IH] using rev_ind.
  { simpl. split_and!; simpl; try done; unfold consistent, IsTerminal; rewrite ?Hs0, ?Hc0; done. }
  rewrite run_commands_app. destruct (run_commands commands t0) as [trs t]. simpl.
  destruct IH as ((H1 & H2 & H3 & H4 & H5) & Hw & Hf & Hl). simpl in *.
  destruct (Transition_cases t c) as [[e ->]|(Hcan & Hnt & Hat & Ha & Hcz & ->)].
  { rewrite app_nil_r. split_and!; done. }
  pose proof (CanTransition_inv _ _ Hcan) as (_ & I1 & I2 & I3 & I4 & I5 & I6 & I7).
  assert (Task_CompletedAt t = None) as Hcn.
  { destruct (Task_CompletedAt t); [|done]. rewrite Hnt in H4. naive_solver. }
  unfold lifecycle_ok. simpl. split_and!.
  - unfold consistent, IsTerminal; simpl. rewrite Hcn. by destruct (terminal_status (Command_To c)).
  - assert (∀ s, visited trs s → visited (trs ++ [mkTaskTransition (Task_Status t) (Command_To c)
      (TrimSpace (Command_Actor c)) (TrimSpace (Command_Cause c)) (Command_At c)]) s) as Hmono.
    { intros s Hv. apply visited_snoc. by left. }
    destruct (Command_To c) eqn:Hto; simpl; try done; rewrite ?visited_snoc; simpl.
    + by right.
    + rewrite (I5 eq_refl) in Hw. simpl in Hw. tauto.
    + destruct (I3 eq_refl) as [E|E]; rewrite E in Hw; simpl in Hw; tauto.
    + rewrite (I4 eq_refl) in Hw. simpl in Hw. tauto.
    + rewrite (I2 eq_refl) in Hw. simpl in Hw. tauto.
    + rewrite (I1 eq_refl) in Hw. simpl in Hw. tauto.
    + unfold CanTransition in Hcan. rewrite Hnt in Hcan. simpl in Hcan.
      by destruct (Task_Status t).
  - apply Forall_app. split; [done|]. by repeat constructor.
  - rewrite fmap_app. simpl. rewrite last_snoc. by destruct trs.
Qed.

Definition sample_params : NewTaskParams := mkNewTaskParams "t1" "a1" "summarise" "tr1" "" 5%Z.
Definition go (s : TaskStatus) (at_ : Time) : TaskTransitionCommand := mkTaskTransitionCommand s "alice" "go" at_.
Definition new_task : Task := match NewTask sample_params with Ok t => t | Err _ => mkTask "" "" "" "" "" "" TaskCreated 0 "" f_zero f_zero f_zero "" "" "" 0%Z 0%Z None end.

Definition sample_commands : list TaskTransitionCommand :=
  [go TaskPlanning 6%Z; go TaskCompleted 7%Z; go TaskRouting 8%Z; go TaskExecuting 9%Z;
   go TaskValidating 10%Z; go TaskCompleted 11%Z; go TaskFailed 12%Z].

Lemma task_lifecycle_witness :
  Task_Status (snd (run_commands sample_commands new_task)) = TaskCompleted
  ∧ lifecycle_ok new_task (run_commands sample_commands new_task).
Proof.
  split; [reflexivity|].
  exact (task_lifecycle sample_params new_task sample_commands eq_refl).
Defined.

End Domain.
