(* ===== verification/ExecTypes.v ===== *)
(** * ExecTypes: the data model of the execution kernel

    [src/execution/types.go], [lease.go] and [attempt_persistence.go].  Every
    Go string enumeration is an inductive type with the source's constants and
    one constructor [..Other s] for any other string [s]; the zero value of the
    enumeration is [..Other ""].  Struct fields keep their Go names with the
    struct's name in front; a [*time.Time] is an [option Time]. *)
From S2P Require Import Prelude.

(** ** Identifiers *)
Abbreviation GoalID := string (only parsing).
Abbreviation ExecutionID := string (only parsing).
Abbreviation PlanID := string (only parsing).
Abbreviation NodeID := string (only parsing).
Abbreviation TargetID := string (only parsing).
Abbreviation AttemptID := string (only parsing).
Abbreviation PolicyDecisionID := string (only parsing).
Abbreviation EvidenceID := string (only parsing).
Abbreviation ArtifactID := string (only parsing).
Abbreviation OutcomeID := string (only parsing).

(** ** Enumerations *)
Inductive ExecutionPhase : Type :=
| ExecutionCreated | ExecutionPlanning | ExecutionReady | ExecutionRunning
| ExecutionVerifying | ExecutionReplanning | ExecutionSucceeded | ExecutionFailed
| ExecutionCancelled | ExecutionPhaseOther (s : string).

Inductive ConditionType : Type :=
| ConditionApprovalRequired | ConditionPartiallyBlocked | ConditionRetrying
| ConditionBudgetPressure | ConditionTargetDegraded | ConditionWaitingExternalInput
| ConditionCancellationRequested | ConditionOther (s : string).

Inductive NodeType : Type :=
| NodeModel | NodeTool | NodeCode | NodeAgent | NodeBrowser | NodeRetrieval
| NodeData | NodeWorkflow | NodeHuman | NodeVerifier | NodeTypeOther (s : string).

Inductive NodeState : Type :=
| NodePending | NodeReady | NodeRunning | NodeWaitingApproval | NodeSucceeded
| NodeFailed | NodeSkipped | NodeBlocked | NodeCancelled | NodeStateOther (s : string).

Inductive EffectClass : Type :=
| EffectPure | EffectReadOnly | EffectIdempotentMutation | EffectNonIdempotentMutation
| EffectOther (s : string).

Inductive TargetType : Type :=
| TargetModel | TargetTool | TargetCode | TargetAgent | TargetBrowser | TargetRetrieval
| TargetData | TargetWorkflow | TargetHuman | TargetTypeOther (s : string).

Inductive ErrorClass : Type :=
| ErrorTransient | ErrorTargetUnavailable | ErrorTimeout | ErrorPolicyDenied
| ErrorBudgetExceeded | ErrorInvalidOutput | ErrorVerificationFailed | ErrorPermanent
| ErrorUnknown | ErrorClassOther (s : string).

Inductive AttemptStatus : Type :=
| AttemptPending | AttemptRunning | AttemptSucceeded | AttemptFailed | AttemptCancelled
| AttemptAbandoned | AttemptStatusOther (s : string).

Inductive PolicyDecision : Type :=
| PolicyAllow | PolicyDeny | PolicyRequireApproval | PolicyDecisionOther (s : string).

Inductive VerifierVerdict : Type :=
| VerifierPass | VerifierFail | VerifierInconclusive | VerifierOther (s : string).

Inductive OutcomeStatus : Type :=
| OutcomeVerifiedSuccess | OutcomePartialSuccess | OutcomeUnverified | OutcomeFailed
| OutcomeOther (s : string).

#[export] Instance ExecutionPhase_eq_dec : EqDecision ExecutionPhase.
Proof. solve_decision. Defined.
#[export] Instance ConditionType_eq_dec : EqDecision ConditionType.
Proof. solve_decision. Defined.
#[export] Instance NodeType_eq_dec : EqDecision NodeType.
Proof. solve_decision. Defined.
#[export] Instance NodeState_eq_dec : EqDecision NodeState.
Proof. solve_decision. Defined.
#[export] Instance EffectClass_eq_dec : EqDecision EffectClass.
Proof. solve_decision. Defined.
#[export] Instance TargetType_eq_dec : EqDecision TargetType.
Proof. solve_decision. Defined.
#[export] Instance ErrorClass_eq_dec : EqDecision ErrorClass.
Proof. solve_decision. Defined.
#[export] Instance AttemptStatus_eq_dec : EqDecision AttemptStatus.
Proof. solve_decision. Defined.
#[export] Instance PolicyDecision_eq_dec : EqDecision PolicyDecision.
Proof. solve_decision. Defined.

(** The zero values of the enumerations the code compares with [""]. *)
Definition NodeStateZero : NodeState := NodeStateOther "".
Definition ErrorClassZero : ErrorClass := ErrorClassOther "".

(** The string of an [ErrorClass], as it is stored in an [InvocationError]. *)
Definition ErrorClass_string (c : ErrorClass) : string :=
  match c with
  | ErrorTransient => "TRANSIENT"
  | ErrorTargetUnavailable => "TARGET_UNAVAILABLE"
  | ErrorTimeout => "TIMEOUT"
  | ErrorPolicyDenied => "POLICY_DENIED"
  | ErrorBudgetExceeded => "BUDGET_EXCEEDED"
  | ErrorInvalidOutput => "INVALID_OUTPUT"
  | ErrorVerificationFailed => "VERIFICATION_FAILED"
  | ErrorPermanent => "PERMANENT"
  | ErrorUnknown => "UNKNOWN"
  | ErrorClassOther s => s
  end.

Definition ErrorClass_of_string (s : string) : ErrorClass :=
  if s ==? "TRANSIENT" then ErrorTransient
  else if s ==? "TARGET_UNAVAILABLE" then ErrorTargetUnavailable
  else if s ==? "TIMEOUT" then ErrorTimeout
  else if s ==? "POLICY_DENIED" then ErrorPolicyDenied
  else if s ==? "BUDGET_EXCEEDED" then ErrorBudgetExceeded
  else if s ==? "INVALID_OUTPUT" then ErrorInvalidOutput
  else if s ==? "VERIFICATION_FAILED" then ErrorVerificationFailed
  else if s ==? "PERMANENT" then ErrorPermanent
  else if s ==? "UNKNOWN" then ErrorUnknown
  else ErrorClassOther s.

(** ** Budgets and usage *)
Record BudgetLimit : Type := {
  MaxCost : float64;
  MaxDuration : Duration;
  MaxNodeAttempts : Z;
  MaxFrontierCalls : Z;
  MaxToolCalls : Z
}.

Record AccountingCounters : Type := {
  Counters_Cost : float64;
  Counters_NodeAttempts : Z;
  Counters_FrontierCalls : Z;
  Counters_ToolCalls : Z
}.

Record BudgetState : Type := {
  Budget_Limit : BudgetLimit;
  Budget_Reserved : AccountingCounters;
  Budget_Consumed : AccountingCounters
}.

Record Usage : Type := {
  Usage_InputTokens : Z;
  Usage_OutputTokens : Z;
  Usage_Cost : float64;
  Usage_Duration : Duration
}.

Record Accounting : Type := {
  ConsumedCost : float64;
  ReservedCost : float64;
  Elapsed : Duration
}.

Definition UsageZero : Usage :=
  {| Usage_InputTokens := 0; Usage_OutputTokens := 0; Usage_Cost := f_zero; Usage_Duration := 0%Z |}.

(** ** Goals, plans and executions *)
Record AcceptanceCriterion : Type := {
  Criterion_ID : string;
  Criterion_Text : string;
  Criterion_Required : bool
}.

Record GoalConstraints : Type := {
  ProductionWriteAllowed : bool;
  AllowedDataScopes : list string
}.

Record Goal : Type := {
  Goal_ID : GoalID;
  Goal_TaskRef : string;
  Goal_Objective : string;
  Goal_AcceptanceCriteria : list AcceptanceCriterion;
  Goal_Constraints : GoalConstraints;
  Goal_Budget : BudgetLimit
}.

Record ExecIdentity : Type := { Identity_Principal : string; Identity_Tenant : string }.

Record PolicyContext : Type := { Environment : string; DataSensitivity : string }.

Record ExecutionCondition : Type := {
  Condition_Type : ConditionType;
  Condition_Status : bool;
  Condition_NodeRef : NodeID;
  Condition_Reason : string;
  Condition_UpdatedAt : Time
}.

Record ExecutionStatus : Type := {
  Status_Phase : ExecutionPhase;
  Status_Conditions : list ExecutionCondition
}.

Record PlanRevisionRef : Type := { PlanRef_PlanID : PlanID; PlanRef_Revision : Z }.

Record Execution : Type := {
  Execution_ID : ExecutionID;
  Execution_TaskRef : string;
  Execution_GoalRef : GoalID;
  Execution_PlanRef : PlanRevisionRef;
  Execution_Identity : ExecIdentity;
  Execution_PolicyContext : PolicyContext;
  Execution_Budget : BudgetState;
  Execution_Status : ExecutionStatus;
  Execution_Accounting : Accounting;
  Execution_CreatedAt : Time;
  Execution_UpdatedAt : Time
}.

Record CapabilityRequirement : Type := {
  Modality : list string;
  Reasoning : string;
  Coding : string;
  ContextSize : string;
  ToolCalling : string;
  PrivateData : bool;
  LatencyClass : string;
  ReliabilityClass : string
}.

Record RetryPolicy : Type := { MaxAttempts : Z; RetryOn : list ErrorClass }.

Record EffectSpec : Type := {
  Effect_Class : EffectClass;
  Effect_IdempotencyKey : string;
  Effect_RetrySafe : bool
}.

Record ExecutionNode : Type := {
  Node_ID : NodeID;
  Node_Type : NodeType;
  Node_DependsOn : list NodeID;
  Node_CapabilityRequirement : CapabilityRequirement;
  Node_Timeout : Duration;
  Node_RetryPolicy : RetryPolicy;
  Node_Effect : EffectSpec;
  Node_VerificationRequired : bool
}.

Record ExecutionPlan : Type := {
  Plan_ID : PlanID;
  Plan_GoalRef : GoalID;
  Plan_Revision : Z;
  Plan_ParentRevision : Z;
  Plan_Nodes : list ExecutionNode;
  Plan_CreatedAt : Time
}.

(** ** Targets and attempts *)
Record TargetPolicy : Type := { DataLocality : string; AllowedSensitivity : list string }.
Record TargetHealth : Type := { Health_State : string; Health_ObservedAt : Time }.
Record TargetSnapshot : Type := {
  Snapshot_Digest : string;
  Snapshot_EndpointClass : string;
  Snapshot_ModelVersion : string;
  Snapshot_RuntimeVersion : string;
  Snapshot_DeploymentRef : string;
  Snapshot_CapabilityHash : string
}.

Record ExecutionTarget : Type := {
  Target_ID : TargetID;
  Target_Revision : Z;
  Target_Type : TargetType;
  Target_Capabilities : gmap string string;
  Target_Policy : TargetPolicy;
  Target_Health : TargetHealth;
  Target_Snapshot : TargetSnapshot
}.

Record ExecutionAttempt : Type := {
  Attempt_ID : AttemptID;
  Attempt_ExecutionRef : ExecutionID;
  Attempt_NodeRef : NodeID;
  Attempt_TargetRef : TargetID;
  Attempt_TargetRevision : Z;
  Attempt_TargetSnapshot : string;
  Attempt_AttemptNumber : Z;
  Attempt_Status : AttemptStatus;
  Attempt_ErrorClass : ErrorClass;
  Attempt_Usage : Usage;
  Attempt_IdempotencyKey : string;
  Attempt_EffectStartedAt : option Time;
  Attempt_EffectCommittedAt : option Time;
  Attempt_StartedAt : Time;
  Attempt_FinishedAt : option Time
}.

(** ** Policy decisions *)
Record PolicyDecisionRecord : Type := {
  Policy_ID : PolicyDecisionID;
  Policy_PolicySetRef : string;
  Policy_PolicyVersion : string;
  Policy_ExecutionRef : ExecutionID;
  Policy_PlanRevision : Z;
  Policy_NodeRef : NodeID;
  Policy_Principal : string;
  Policy_Action : string;
  Policy_Resource : string;
  Policy_RequestedScope : string;
  Policy_Decision : PolicyDecision;
  Policy_ReasonCodes : list string;
  Policy_ExpiresAt : option Time
}.

(** ** Evidence and outcomes *)
Record Artifact : Type := {
  Artifact_ID : ArtifactID;
  Artifact_ExecutionRef : ExecutionID;
  Artifact_NodeRef : NodeID;
  Artifact_Type : string;
  Artifact_MediaType : string;
  Artifact_Location : string;
  Artifact_Digest : string;
  Artifact_Immutable : bool
}.

Record Evidence : Type := {
  Evidence_ID : EvidenceID;
  Evidence_ExecutionRef : ExecutionID;
  Evidence_SourceNodeRef : NodeID;
  Evidence_Type : string;
  Evidence_ClaimID : string;
  Evidence_SourceRef : string;
  Evidence_SourceVersion : string;
  Evidence_ObservedAt : Time;
  Evidence_ContentDigest : string;
  Evidence_ArtifactRef : ArtifactID;
  Evidence_TargetSnapshot : string;
  Evidence_Strength : string;
  Evidence_Confidence : float64
}.

Record VerifierResult : Type := {
  Verifier_ID : string;
  Verifier_ExecutionRef : ExecutionID;
  Verifier_NodeRef : NodeID;
  Verifier_VerifierRef : string;
  Verifier_VerifierVersion : string;
  Verifier_InputEvidenceRefs : list EvidenceID;
  Verifier_Verdict : VerifierVerdict
}.

Record AcceptanceResult : Type := {
  Acceptance_CriterionID : string;
  Acceptance_Result : VerifierVerdict;
  Acceptance_EvidenceRefs : list EvidenceID
}.

Record Outcome : Type := {
  Outcome_ID : OutcomeID;
  Outcome_ExecutionRef : ExecutionID;
  Outcome_Status : OutcomeStatus;
  Outcome_AcceptanceResults : list AcceptanceResult;
  Outcome_Confidence : float64
}.

(** ** Leases ([lease.go]) *)
Record NodeLease : Type := mkNodeLease {
  Lease_ExecutionRef : ExecutionID;
  Lease_PlanRevision : Z;
  Lease_NodeRef : NodeID;
  Lease_AttemptRef : AttemptID;
  Lease_OwnerWorkerID : string;
  Lease_Token : string;
  Lease_Fence : Z;
  Lease_AttemptNumber : Z;
  Lease_ClaimedAt : Time;
  Lease_HeartbeatAt : Time;
  Lease_ExpiresAt : Time
}.

Definition NodeLease_ActiveAt (l : NodeLease) (now : Time) : bool :=
  (Lease_Token l !=? "") && (0 <? Lease_Fence l)%Z
  && negb (Before now (Lease_ClaimedAt l)) && Before now (Lease_ExpiresAt l).

Record NodeRuntimeRecord : Type := mkNodeRuntimeRecord {
  Runtime_ExecutionRef : ExecutionID;
  Runtime_PlanRevision : Z;
  Runtime_NodeRef : NodeID;
  Runtime_State : NodeState;
  Runtime_EffectClass : EffectClass;
  Runtime_RetrySafe : bool;
  Runtime_IdempotencyKey : string;
  Runtime_AttemptNumber : Z;
  Runtime_LeaseFence : Z;
  Runtime_EffectStartedAt : option Time;
  Runtime_EffectCommittedAt : option Time;
  Runtime_UpdatedAt : Time
}.

Definition NodeRuntimeRecord_Terminal (r : NodeRuntimeRecord) : bool :=
  match Runtime_State r with
  | NodeSucceeded | NodeFailed | NodeSkipped | NodeCancelled => true
  | _ => false
  end.

(** ** Durable attempts ([attempt_persistence.go]) *)
Record AttemptRecord : Type := {
  Record_Attempt : ExecutionAttempt;
  Record_PlanRevision : Z;
  Record_LeaseFence : Z;
  Record_LeaseOwner : string;
  Record_PolicyDecisionRef : PolicyDecisionID;
  Record_BudgetReservationRef : string;
  Record_ClaimedAt : Time;
  Record_CreatedAt : Time;
  Record_UpdatedAt : Time
}.

Record AttemptBinding : Type := {
  Binding_TargetRef : TargetID;
  Binding_TargetRevision : Z;
  Binding_TargetSnapshot : string;
  Binding_PolicyDecisionRef : PolicyDecisionID;
  Binding_BudgetReservationRef : string
}.

Record AttemptCompletion : Type := {
  Completion_Status : AttemptStatus;
  Completion_ErrorClass : ErrorClass;
  Completion_Usage : Usage
}.

Definition AttemptCompletion_Terminal (c : AttemptCompletion) : bool :=
  match Completion_Status c with
  | AttemptSucceeded | AttemptFailed | AttemptCancelled | AttemptAbandoned => true
  | _ => false
  end.

(** [isMutationEffect] of [persistent_worker.go] and [isMutation] of the lease
    repository: the same test. *)
Definition isMutation (effect : EffectClass) : bool :=
  (effect ==? EffectIdempotentMutation) || (effect ==? EffectNonIdempotentMutation).

Lemma ErrorClass_of_to_string c :
  (∀ s, c = ErrorClassOther s → ErrorClass_of_string s = c) →
  ErrorClass_of_string (ErrorClass_string c) = c.
Proof. intros H. destruct c; try reflexivity. by apply (H s). Qed.
