(* ===== verification/ExecState.v ===== *)
(** * ExecState: the execution and node state machines

    [src/execution/state.go].  The transition tables are the source's maps: a
    phase with no entry is [None].  Beside the functions of the file, the step
    relations [exec_step] and [node_step] (a transition the validators accept
    and that changes the state) carry the reachability theorems. *)
From S2P Require Import Prelude ExecTypes.

Module ExecState.

Definition executionTransitions (from : ExecutionPhase) : option (list ExecutionPhase) :=
  match from with
  | ExecutionCreated => Some [ExecutionPlanning; ExecutionCancelled]
  | ExecutionPlanning => Some [ExecutionReady; ExecutionFailed; ExecutionCancelled]
  | ExecutionReady => Some [ExecutionRunning; ExecutionFailed; ExecutionCancelled]
  | ExecutionRunning =>
      Some [ExecutionVerifying; ExecutionReplanning; ExecutionFailed; ExecutionCancelled]
  | ExecutionVerifying =>
      Some [ExecutionSucceeded; ExecutionReplanning; ExecutionFailed; ExecutionCancelled]
  | ExecutionReplanning => Some [ExecutionReady; ExecutionFailed; ExecutionCancelled]
  | _ => None
  end.

Definition CanTransitionExecution (from to : ExecutionPhase) : bool :=
  if from ==? to then true
  else match executionTransitions from with
       | None => false
       | Some next => bool_decide (to ∈ next)
       end.

(** [%s] of the phases is rendered by [fmt]; the error keeps the format. *)
Definition ValidateExecutionTransition (from to : ExecutionPhase) : result unit :=
  if CanTransitionExecution from to then Ok tt
  else Err (Errorf "invalid execution transition: %s -> %s" []).

Definition IsTerminalExecutionPhase (phase : ExecutionPhase) : bool :=
  match phase with
  | ExecutionSucceeded | ExecutionFailed | ExecutionCancelled => true
  | _ => false
  end.

Definition nodeTransitions (from : NodeState) : option (list NodeState) :=
  match from with
  | NodePending => Some [NodeReady; NodeSkipped; NodeBlocked; NodeCancelled]
  | NodeReady => Some [NodeRunning; NodeWaitingApproval; NodeBlocked; NodeCancelled]
  | NodeWaitingApproval => Some [NodeReady; NodeBlocked; NodeCancelled]
  | NodeRunning => Some [NodeSucceeded; NodeFailed; NodeCancelled]
  | NodeFailed => Some [NodeReady; NodeBlocked; NodeCancelled]
  | NodeBlocked => Some [NodeReady; NodeCancelled]
  | _ => None
  end.

Definition CanTransitionNode (from to : NodeState) : bool :=
  if from ==? to then true
  else match nodeTransitions from with
       | None => false
       | Some next => bool_decide (to ∈ next)
       end.

Definition ValidateNodeTransition (from to : NodeState) : result unit :=
  if CanTransitionNode from to then Ok tt
  else Err (Errorf "invalid node transition: %s -> %s" []).

Definition IsTerminalNodeState (state : NodeState) : bool :=
  match state with
  | NodeSucceeded | NodeSkipped | NodeCancelled => true
  | _ => false
  end.

(** ** Step relations *)

Definition exec_step (p q : ExecutionPhase) : Prop :=
  p ≠ q ∧ ValidateExecutionTransition p q = Ok tt.

Definition node_step (p q : NodeState) : Prop :=
  p ≠ q ∧ ValidateNodeTransition p q = Ok tt.

(** A history of phases: each one a step from the one before. *)
Inductive exec_trace : ExecutionPhase → list ExecutionPhase → ExecutionPhase → Prop :=
| exec_trace_nil p : exec_trace p [] p
| exec_trace_snoc p l q r :
    exec_trace p l q → exec_step q r → exec_trace p (l ++ [r]) r.

Lemma exec_step_inv p q :
  exec_step p q → ∃ next, executionTransitions p = Some next ∧ q ∈ next.
Proof.
  unfold exec_step, ValidateExecutionTransition, CanTransitionExecution.
  intros [Hne H]. rewrite (bool_decide_eq_false_2 (p = q)) in H by done.
  destruct (executionTransitions p) as [next|]; [|done].
  case_bool_decide; [|done]. eauto.
Qed.

Lemma node_step_inv p q :
  node_step p q → ∃ next, nodeTransitions p = Some next ∧ q ∈ next.
Proof.
  unfold node_step, ValidateNodeTransition, CanTransitionNode.
  intros [Hne H]. rewrite (bool_decide_eq_false_2 (p = q)) in H by done.
  destruct (nodeTransitions p) as [next|]; [|done].
  case_bool_decide; [|done]. eauto.
Qed.

(** The only phases that lead into [q]. *)
Ltac step_cases H :=
  let next := fresh "next" in let Hn := fresh "Hn" in let Hq := fresh "Hq" in
  first [apply exec_step_inv in H as (next & Hn & Hq)
        | apply node_step_inv in H as (next & Hn & Hq)];
  match type of Hn with ?f ?p = _ => first [is_var p; destruct p | idtac]; simplify_eq/= end;
  repeat (apply elem_of_cons in Hq as [Hq|Hq]; simplify_eq/=; try done);
  try (by apply not_elem_of_nil in Hq).

Lemma exec_step_to_succeeded p : exec_step p ExecutionSucceeded → p = ExecutionVerifying.
Proof. intros H. by step_cases H. Qed.
Lemma exec_step_to_verifying p : exec_step p ExecutionVerifying → p = ExecutionRunning.
Proof. intros H. by step_cases H. Qed.
Lemma exec_step_to_running p : exec_step p ExecutionRunning → p = ExecutionReady.
Proof. intros H. by step_cases H. Qed.

Lemma exec_trace_last p l q :
  exec_trace p l q → (l = [] ∧ p = q) ∨ ∃ l' r, l = l' ++ [q] ∧ exec_trace p l' r ∧ exec_step r q.
Proof. inversion 1; subst; [by left|right; eauto 10]. Qed.

(** The last phase of a history, when it is not the first one. *)
Lemma exec_trace_step_back p l q :
  exec_trace p l q → p ≠ q → ∃ l' r, l = l' ++ [q] ∧ exec_trace p l' r ∧ exec_step r q.
Proof. intros H Hne. destruct (exec_trace_last _ _ _ H) as [[? ?]|?]; done. Qed.

(** Every history from CREATED that has left CREATED passed through PLANNING. *)
Lemma exec_trace_planning l q :
  exec_trace ExecutionCreated l q → q ≠ ExecutionCreated → q ≠ ExecutionCancelled →
  ExecutionPlanning ∈ l.
Proof.
  intros H. remember ExecutionCreated as p eqn:Hp. induction H as [p|p l q r Hl IH Hs]; [done|].
  subst p. intros _ Hc. rewrite elem_of_app. destruct (decide (q = ExecutionCreated)) as [->|Hq].
  - right. step_cases Hs; set_solver.
  - left. apply IH; [done..|]. intros ->. by step_cases Hs.
Qed.

Lemma exec_trace_ready l :
  exec_trace ExecutionCreated l ExecutionReady →
  ∃ l1 l2, l = l1 ++ ExecutionPlanning :: l2 ++ [ExecutionReady].
Proof.
  intros H. destruct (exec_trace_step_back _ _ _ H) as (l' & r & -> & Hl & Hs); [done|].
  assert (ExecutionPlanning ∈ l') as Hin.
  { eapply exec_trace_planning; [exact Hl|..]; intros ->; by step_cases Hs. }
  apply list_elem_of_split in Hin as (l1 & l2 & ->).
  exists l1, l2. by rewrite <- app_assoc.
Qed.

(** ** Properties *)

(** The phases of the source's constants. *)
Definition known_phase (p : ExecutionPhase) : bool :=
  match p with ExecutionPhaseOther _ => false | _ => true end.

(** A history of node states. *)
Inductive node_trace : NodeState → list NodeState → NodeState → Prop :=
| node_trace_nil p : node_trace p [] p
| node_trace_snoc p l q r :
    node_trace p l q → node_step q r → node_trace p (l ++ [r]) r.

Lemma node_trace_step_back p l q :
  node_trace p l q → p ≠ q → ∃ l' r, l = l' ++ [q] ∧ node_trace p l' r ∧ node_step r q.
Proof. inversion 1; subst; [done|eauto 10]. Qed.

(** Verified before succeeded: every history of an execution that starts in
    CREATED and ends in SUCCEEDED went through PLANNING and ends with READY,
    RUNNING, VERIFYING, SUCCEEDED, whatever replanning happened between. *)
Theorem exec_success_is_verified l :
  exec_trace ExecutionCreated l ExecutionSucceeded →
  ∃ l1 l2, l = l1 ++ ExecutionPlanning :: l2 ++
               [ExecutionReady; ExecutionRunning; ExecutionVerifying; ExecutionSucceeded].
Proof.
  intros H.
  destruct (exec_trace_step_back _ _ _ H) as (la & a & -> & Ha & Hs); [done|].
  apply exec_step_to_succeeded in Hs as ->.
  destruct (exec_trace_step_back _ _ _ Ha) as (lb & b & -> & Hb & Hs); [done|].
  apply exec_step_to_verifying in Hs as ->.
  destruct (exec_trace_step_back _ _ _ Hb) as (lc & c & -> & Hc & Hs); [done|].
  apply exec_step_to_running in Hs as ->.
  destruct (exec_trace_ready _ Hc) as (l1 & l2 & ->).
  exists l1, l2. by rewrite <- !app_assoc; simpl; rewrite <- !app_assoc.
Qed.

Lemma exec_success_is_verified_witness :
  let l := [ExecutionPlanning; ExecutionReady; ExecutionRunning; ExecutionReplanning;
            ExecutionReady; ExecutionRunning; ExecutionVerifying; ExecutionSucceeded] in
  exec_trace ExecutionCreated l ExecutionSucceeded ∧
  ∃ l1 l2, l = l1 ++ ExecutionPlanning :: l2 ++
               [ExecutionReady; ExecutionRunning; ExecutionVerifying; ExecutionSucceeded].
Proof.
  intros l.
  assert (Ht : exec_trace ExecutionCreated l ExecutionSucceeded).
  { unfold l.
    repeat match goal with
    | |- exec_trace _ ?l _ =>
        let l' := eval cbv in (take (length l - 1) l) in
        let r := eval cbv in (default ExecutionCreated (last l)) in
        let q := eval cbv in (default ExecutionCreated (last l')) in
        change l with (l' ++ [r]);
        apply (exec_trace_snoc _ l' q r); [|by split]
    end. constructor. }
  split; [exact Ht|]. exact (exec_success_is_verified l Ht).
Defined.

(** A phase is final exactly when it is one of SUCCEEDED, FAILED and CANCELLED
    or an unknown string; a known phase that is not final has a transition to a
    final phase, so an execution can always be brought to an end. *)
Theorem exec_final_iff_terminal p :
  ((∀ q, CanTransitionExecution p q = true → q = p) ↔
     IsTerminalExecutionPhase p = true ∨ known_phase p = false) ∧
  (known_phase p = true → IsTerminalExecutionPhase p = false →
     exec_step p ExecutionCancelled ∧ IsTerminalExecutionPhase ExecutionCancelled = true).
Proof.
  split; [split|].
  - intros H. destruct p; auto; exfalso;
      by specialize (H ExecutionCancelled eq_refl).
  - intros H q Hq. unfold CanTransitionExecution in Hq.
    case_bool_decide; [done|]. destruct p; simpl in *; naive_solver.
  - intros Hk Ht. destruct p; simpl in *; try done; by split.
Qed.

(** A node reaches SUCCEEDED only by running: every history of a node that
    starts PENDING and ends SUCCEEDED ends with READY, RUNNING, SUCCEEDED, and
    SUCCEEDED, SKIPPED and CANCELLED admit no further transition. *)
Theorem node_success_was_running l :
  (node_trace NodePending l NodeSucceeded →
     ∃ l', l = l' ++ [NodeReady; NodeRunning; NodeSucceeded]) ∧
  (∀ p q, IsTerminalNodeState p = true → CanTransitionNode p q = true → q = p).
Proof.
  split.
  - intros H. destruct (node_trace_step_back _ _ _ H) as (la & a & -> & Ha & Hs); [done|].
    step_cases Hs.
    destruct (node_trace_step_back _ _ _ Ha) as (lb & b & -> & Hb & Hs); [done|].
    step_cases Hs.
    destruct (node_trace_step_back _ _ _ Hb) as (lc & c & -> & Hc & Hs'); [done|].
    exists lc. by rewrite <- !app_assoc.
  - intros p q Hp Hq. unfold CanTransitionNode in Hq. case_bool_decide; [done|].
    destruct p; simpl in *; done.
Qed.

End ExecState.
