(* ===== verification/ExecPlan.v ===== *)
(** * ExecPlan: bounded-DAG validation of execution plans

    [src/execution/plan.go].  [hasCycle] is the source's depth-first search
    with its three-valued marks.  Two things the source leaves to the Go
    runtime are explicit here: the order in which [for id := range deps]
    enumerates the map (the argument [order]) and the recursion depth (fuel;
    [hasCycle_fuel] is proved to be enough).  The theorems hold for every
    order, so the verdict does not depend on Go's map iteration. *)
From S2P Require Import Prelude ExecTypes.

Module ExecPlan.

(** ** Effects *)
Definition ValidateEffectSpec (effect : EffectSpec) : result unit :=
  match Effect_Class effect with
  | EffectPure | EffectReadOnly => Ok tt
  | EffectIdempotentMutation =>
      if Effect_IdempotencyKey effect ==? ""
      then Err (Errorf "idempotent mutation requires idempotency key" [])
      else if negb (Effect_RetrySafe effect)
      then Err (Errorf "idempotent mutation must declare retrySafe=true" [])
      else Ok tt
  | EffectNonIdempotentMutation =>
      if Effect_RetrySafe effect
      then Err (Errorf "non-idempotent mutation cannot declare retrySafe=true" [])
      else Ok tt
  | EffectOther s => Err (Errorf "unknown effect class %q" [AStr s])
  end.

(** ** Cycle detection *)

(** The marks of the search; an identifier with no mark is [unseen]. *)
Inductive mark : Type := visiting | done_.
#[export] Instance mark_eq_dec : EqDecision mark.
Proof. solve_decision. Defined.

Abbreviation Deps := (gmap NodeID (list NodeID)).
Abbreviation Marks := (gmap NodeID mark).

(** [deps[node.ID] = node.DependsOn], later nodes overwriting earlier ones. *)
Fixpoint depsOf_loop (deps : Deps) (nodes : list ExecutionNode) : Deps :=
  match nodes with
  | [] => deps
  | node :: rest => depsOf_loop (<[Node_ID node := Node_DependsOn node]> deps) rest
  end.
Definition depsOf (nodes : list ExecutionNode) : Deps := depsOf_loop ∅ nodes.

(** Reading a missing key of a Go map of slices yields the nil slice. *)
Definition deps_at (deps : Deps) (id : NodeID) : list NodeID := default [] (deps !! id).

(** [for _, dep := range ids { if visit(dep) { return true } }]. *)
Fixpoint visit_list (visit : NodeID → Marks → option (bool * Marks))
    (ids : list NodeID) (state : Marks) : option (bool * Marks) :=
  match ids with
  | [] => Some (false, state)
  | dep :: rest =>
      match visit dep state with
      | None => None
      | Some (true, state') => Some (true, state')
      | Some (false, state') => visit_list visit rest state'
      end
  end.

Fixpoint visit (fuel : nat) (deps : Deps) (id : NodeID) (state : Marks) : option (bool * Marks) :=
  match fuel with
  | O => None
  | S fuel =>
      match state !! id with
      | Some visiting => Some (true, state)
      | Some done_ => Some (false, state)
      | None =>
          match visit_list (visit fuel deps) (deps_at deps id) (<[id := visiting]> state) with
          | None => None
          | Some (true, state') => Some (true, state')
          | Some (false, state') => Some (false, <[id := done_]> state')
          end
      end
  end.

(** [for id := range deps { if state[id] == unseen && visit(id) { return true } }]. *)
Fixpoint hasCycle_loop (fuel : nat) (deps : Deps) (order : list NodeID) (state : Marks)
    : option bool :=
  match order with
  | [] => Some false
  | id :: rest =>
      match state !! id with
      | Some _ => hasCycle_loop fuel deps rest state
      | None =>
          match visit fuel deps id state with
          | None => None
          | Some (true, _) => Some true
          | Some (false, state') => hasCycle_loop fuel deps rest state'
          end
      end
  end.

(** Every identifier the search can meet. *)
Definition universe (nodes : list ExecutionNode) : gset NodeID :=
  list_to_set (nodes ≫= λ n, Node_ID n :: Node_DependsOn n).

Definition hasCycle_fuel (nodes : list ExecutionNode) : nat := S (size (universe nodes)).

Definition hasCycle (order : list NodeID) (nodes : list ExecutionNode) : option bool :=
  hasCycle_loop (hasCycle_fuel nodes) (depsOf nodes) order ∅.

(** ** Plan validation *)

(** The first loop of [ValidatePlan]: the node index. *)
Fixpoint indexNodes (nodes : gmap NodeID ExecutionNode) (l : list ExecutionNode)
    : result (gmap NodeID ExecutionNode) :=
  match l with
  | [] => Ok nodes
  | node :: rest =>
      if Node_ID node ==? "" then Err (Errorf "node id is required" [])
      else match nodes !! Node_ID node with
      | Some _ => Err (Errorf "duplicate node id: %s" [AStr (Node_ID node)])
      | None =>
          match ValidateEffectSpec (Node_Effect node) with
          | Err e => Err (Errorw "node %s: %w" [AStr (Node_ID node)] e)
          | Ok _ => indexNodes (<[Node_ID node := node]> nodes) rest
          end
      end
  end.

(** The second loop: the dependencies of one node. *)
Fixpoint checkDeps (nodes : gmap NodeID ExecutionNode) (id : NodeID) (seenDeps : gset NodeID)
    (deps : list NodeID) : result unit :=
  match deps with
  | [] => Ok tt
  | dep :: rest =>
      if dep ==? id then Err (Errorf "node %s depends on itself" [AStr id])
      else match nodes !! dep with
      | None => Err (Errorf "node %s references unknown dependency %s" [AStr id; AStr dep])
      | Some _ =>
          if bool_decide (dep ∈ seenDeps)
          then Err (Errorf "node %s contains duplicate dependency %s" [AStr id; AStr dep])
          else checkDeps nodes id ({[dep]} ∪ seenDeps) rest
      end
  end.

Fixpoint checkAllDeps (nodes : gmap NodeID ExecutionNode) (l : list ExecutionNode) : result unit :=
  match l with
  | [] => Ok tt
  | node :: rest =>
      _ ← checkDeps nodes (Node_ID node) ∅ (Node_DependsOn node);
      checkAllDeps nodes rest
  end.

(** [ValidatePlan]; [None] would be the search running out of fuel. *)
Definition ValidatePlan (order : list NodeID) (plan : ExecutionPlan) : option (result unit) :=
  if Plan_ID plan ==? "" then Some (Err (Errorf "plan id is required" []))
  else if Plan_GoalRef plan ==? "" then Some (Err (Errorf "goal ref is required" []))
  else if (Plan_Revision plan <=? 0)%Z then Some (Err (Errorf "plan revision must be positive" []))
  else if Nat.eqb (length (Plan_Nodes plan)) 0
  then Some (Err (Errorf "plan must contain at least one node" []))
  else match indexNodes ∅ (Plan_Nodes plan) with
  | Err e => Some (Err e)
  | Ok nodes =>
      match checkAllDeps nodes (Plan_Nodes plan) with
      | Err e => Some (Err e)
      | Ok _ =>
          match hasCycle order (Plan_Nodes plan) with
          | None => None
          | Some true => Some (Err (Errorf "execution plan contains a cycle" []))
          | Some false => Some (Ok tt)
          end
      end
  end.

(** ** Specification *)

(** [a] depends on [b]. *)
Definition edge (deps : Deps) (a b : NodeID) : Prop := b ∈ deps_at deps a.

Definition acyclic (deps : Deps) : Prop := ∀ v, ¬ tc (edge deps) v v.

(** An order in which [range deps] may enumerate the keys. *)
Definition range_order (order : list NodeID) (nodes : list ExecutionNode) : Prop :=
  NoDup order ∧ (∀ id, id ∈ order ↔ id ∈ dom (depsOf nodes)).

(** What the comments of the package call the bounded-DAG invariants. *)
Record well_formed (plan : ExecutionPlan) : Prop := {
  wf_id : Plan_ID plan ≠ "";
  wf_goal : Plan_GoalRef plan ≠ "";
  wf_revision : (0 < Plan_Revision plan)%Z;
  wf_nonempty : Plan_Nodes plan ≠ [];
  wf_node_ids : Forall (λ n, Node_ID n ≠ "") (Plan_Nodes plan);
  wf_unique : NoDup (Node_ID <$> Plan_Nodes plan);
  wf_effects : Forall (λ n, ValidateEffectSpec (Node_Effect n) = Ok tt) (Plan_Nodes plan);
  wf_deps : Forall (λ n, NoDup (Node_DependsOn n) ∧ (Node_ID n ∉ Node_DependsOn n) ∧
                         (∀ d, d ∈ Node_DependsOn n → d ∈ (Node_ID <$> Plan_Nodes plan)))
                   (Plan_Nodes plan);
  wf_acyclic : acyclic (depsOf (Plan_Nodes plan))
}.

(** ** The search: termination *)

Section dfs.
Variable deps : Deps.

Lemma visit_list_dom f ids st b st' :
  (∀ id st b st', f id st = Some (b, st') → dom st ⊆ dom st') →
  visit_list f ids st = Some (b, st') → dom st ⊆ dom st'.
Proof.
  intros Hf. revert st. induction ids as [|id ids IH]; intros st H; simpl in H; [by simplify_eq|].
  destruct (f id st) as [[[] st1]|] eqn:E; simplify_eq; [by eapply Hf|].
  apply Hf in E. apply IH in H. set_solver.
Qed.

Lemma visit_dom fuel id st b st' :
  visit fuel deps id st = Some (b, st') → dom st ⊆ dom st'.
Proof.
  revert id st b st'. induction fuel as [|fuel IH]; intros id st b st' H; simpl in H; [done|].
  destruct (st !! id) as [[]|]; simplify_eq; [done..|].
  destruct (visit_list _ _ _) as [[[] st1]|] eqn:E; simplify_eq;
    apply (visit_list_dom _ _ _ _ _ IH) in E; rewrite ?dom_insert_L in *; set_solver.
Qed.

Lemma visit_list_terminates (U : gset NodeID) fuel ids st :
  (∀ id st, id ∈ U → size (U ∖ dom st) < fuel → is_Some (visit fuel deps id st)) →
  (∀ id, id ∈ ids → id ∈ U) → size (U ∖ dom st) < fuel →
  is_Some (visit_list (visit fuel deps) ids st).
Proof.
  intros Hv. revert st. induction ids as [|id ids IH]; intros st Hids Hsz; simpl; [done|].
  destruct (Hv id st) as [[b st1] E]; [set_solver|done|]. rewrite E.
  destruct b; [done|]. apply IH; [set_solver|].
  apply visit_dom in E. eapply Nat.le_lt_trans; [|exact Hsz].
  apply subseteq_size. set_solver.
Qed.

Lemma visit_terminates (U : gset NodeID) fuel id st :
  (∀ a b, edge deps a b → b ∈ U) → id ∈ U → size (U ∖ dom st) < fuel →
  is_Some (visit fuel deps id st).
Proof.
  intros HU. revert id st. induction fuel as [|fuel IH]; intros id st Hid Hsz; [lia|]. simpl.
  destruct (st !! id) as [[]|] eqn:Hst; [done..|].
  destruct (visit_list_terminates U fuel (deps_at deps id) (<[id:=visiting]> st)) as [[b st1] E].
  - intros. by apply IH.
  - intros d Hd. by apply (HU id).
  - rewrite dom_insert_L. apply not_elem_of_dom in Hst.
    assert (size (U ∖ ({[id]} ∪ dom st)) < size (U ∖ dom st)); [|lia].
    apply subset_size. set_solver.
  - rewrite E. by destruct b.
Qed.

(** ** The search: a reported cycle is a cycle *)

Definition same_visiting (st st' : Marks) : Prop :=
  ∀ v, st' !! v = Some visiting ↔ st !! v = Some visiting.

Lemma visit_list_same_visiting f ids st st' :
  (∀ id st st', f id st = Some (false, st') → same_visiting st st') →
  visit_list f ids st = Some (false, st') → same_visiting st st'.
Proof.
  intros Hf. revert st. induction ids as [|id ids IH]; intros st H; simpl in H; [by simplify_eq|].
  destruct (f id st) as [[[] st1]|] eqn:E; simplify_eq.
  intros v. by rewrite (IH _ H v), (Hf _ _ _ E v).
Qed.

Lemma visit_same_visiting fuel id st st' :
  visit fuel deps id st = Some (false, st') → same_visiting st st'.
Proof.
  revert id st st'. induction fuel as [|fuel IH]; intros id st st' H; simpl in H; [done|].
  destruct (st !! id) as [[]|] eqn:Hst; simplify_eq; [done|].
  destruct (visit_list _ _ _) as [[[] st1]|] eqn:E; simplify_eq.
  apply visit_list_same_visiting in E; [|exact IH].
  intros v. destruct (decide (id = v)) as [->|Hne]; simplify_map_eq; [naive_solver|].
  rewrite (E v). by simplify_map_eq.
Qed.

Definition path_to (st : Marks) (id : NodeID) : Prop :=
  ∀ v, st !! v = Some visiting → tc (edge deps) v id.

Lemma visit_list_sound fuel src ids st st' :
  (∀ id st st', path_to st id → visit fuel deps id st = Some (true, st') →
     ∃ v, tc (edge deps) v v) →
  (∀ id, id ∈ ids → edge deps src id) →
  (∀ v, st !! v = Some visiting → rtc (edge deps) v src) →
  visit_list (visit fuel deps) ids st = Some (true, st') → ∃ v, tc (edge deps) v v.
Proof.
  intros Hv. revert st. induction ids as [|id ids IH]; intros st Hids Hpath H; simpl in H; [done|].
  assert (path_to st id) as Hp.
  { intros v Hvis. eapply tc_rtc_l; [by apply Hpath|]. apply tc_once, Hids. set_solver. }
  destruct (visit fuel deps id st) as [[[] st1]|] eqn:E; simplify_eq; [by eapply Hv|].
  apply visit_same_visiting in E. apply (IH st1); [set_solver| |done].
  intros v Hvis. apply Hpath. by apply E.
Qed.

Lemma visit_sound fuel id st st' :
  path_to st id → visit fuel deps id st = Some (true, st') → ∃ v, tc (edge deps) v v.
Proof.
  revert id st st'. induction fuel as [|fuel IH]; intros id st st' Hp H; simpl in H; [done|].
  destruct (st !! id) as [[]|] eqn:Hst; simplify_eq; [by exists id; apply Hp|].
  destruct (visit_list _ _ _) as [[[] st1]|] eqn:E; simplify_eq.
  eapply (visit_list_sound fuel id); [exact IH|done| |exact E].
  intros v Hvis. destruct (decide (id = v)) as [->|Hne]; [done|].
  apply tc_rtc, Hp. by simplify_map_eq.
Qed.

(** ** The search: no reported cycle means no cycle *)

Definition done_closed (st : Marks) : Prop :=
  ∀ v, st !! v = Some done_ →
    (∀ w, edge deps v w → st !! w = Some done_) ∧ ¬ tc (edge deps) v v.

Definition done_mono (st st' : Marks) : Prop :=
  ∀ v, st !! v = Some done_ → st' !! v = Some done_.

Lemma done_mono_refl st : done_mono st st.
Proof. by intros v. Qed.
#[local] Hint Resolve done_mono_refl : core.

Lemma done_closed_rtc st v w :
  done_closed st → st !! v = Some done_ → rtc (edge deps) v w → st !! w = Some done_.
Proof.
  intros Hc Hv Hr. induction Hr as [|a b c Hab _ IH]; [done|]. apply IH. by apply (Hc a).
Qed.

Lemma visit_list_complete f ids st st' :
  (∀ id st st', done_closed st → f id st = Some (false, st') →
     done_closed st' ∧ st' !! id = Some done_ ∧ done_mono st st') →
  done_closed st → visit_list f ids st = Some (false, st') →
  done_closed st' ∧ (∀ id, id ∈ ids → st' !! id = Some done_) ∧ done_mono st st'.
Proof.
  intros Hf. revert st. induction ids as [|id ids IH]; intros st Hc H; simpl in H.
  { simplify_eq. split_and!; [done|set_solver|done]. }
  destruct (f id st) as [[[] st1]|] eqn:E; simplify_eq.
  destruct (Hf _ _ _ Hc E) as (Hc1 & Hid & Hm1).
  destruct (IH _ Hc1 H) as (Hc2 & Hids & Hm2). split_and!; [done| |].
  - intros x [->|Hx]%elem_of_cons; [by apply Hm2|by apply Hids].
  - intros v Hv. by apply Hm2, Hm1.
Qed.

(** Marking [id] done once its dependencies are. *)
Lemma done_closed_insert st id :
  done_closed st → st !! id = Some visiting →
  (∀ d, edge deps id d → st !! d = Some done_) → done_closed (<[id := done_]> st).
Proof.
  intros Hc Hid Hds v Hv.
  assert (∀ w, st !! w = Some done_ → <[id:=done_]> st !! w = Some done_) as Hm.
  { intros w Hw. destruct (decide (id = w)); by simplify_map_eq. }
  destruct (decide (id = v)) as [<-|Hne].
  - split; [by intros w Hw; apply Hm, Hds|]. intros Htc.
    inversion Htc as [? ? He|? b ? He Hr]; subst.
    + by rewrite (Hds _ He) in Hid.
    + apply tc_rtc in Hr. by rewrite (done_closed_rtc _ _ _ Hc (Hds _ He) Hr) in Hid.
  - rewrite lookup_insert_ne in Hv by done. destruct (Hc v Hv) as [Hs Hn].
    split; [|done]. intros w Hw. by apply Hm, Hs.
Qed.

Lemma visit_complete fuel id st st' :
  done_closed st → visit fuel deps id st = Some (false, st') →
  done_closed st' ∧ st' !! id = Some done_ ∧ done_mono st st'.
Proof.
  revert id st st'. induction fuel as [|fuel IH]; intros id st st' Hc H; simpl in H; [done|].
  destruct (st !! id) as [[]|] eqn:Hst; simplify_eq; [by split_and!|].
  destruct (visit_list _ _ _) as [[[] st1]|] eqn:E; simplify_eq.
  assert (done_closed (<[id:=visiting]> st)) as Hc0.
  { intros v Hv. destruct (decide (id = v)) as [->|Hne]; simplify_map_eq.
    destruct (Hc v Hv) as [Hs Hn]. split; [|done]. intros w Hw.
    destruct (decide (id = w)) as [->|]; [by rewrite (Hs _ Hw) in Hst|].
    rewrite lookup_insert_ne by done. by apply Hs. }
  pose proof (visit_list_same_visiting _ _ _ _ (visit_same_visiting fuel) E id) as Hvis.
  destruct (visit_list_complete _ _ _ _ IH Hc0 E) as (Hc1 & Hids & Hm).
  split_and!; [|by simplify_map_eq|].
  - apply done_closed_insert; [done| |done]. apply Hvis. by simplify_map_eq.
  - intros v Hv. destruct (decide (id = v)) as [->|Hne]; [by rewrite Hst in Hv|].
    rewrite lookup_insert_ne by done. apply Hm. by rewrite lookup_insert_ne.
Qed.

(** ** The outer loop *)

Lemma hasCycle_loop_spec (U : gset NodeID) fuel order st :
  (∀ a b, edge deps a b → b ∈ U) → (∀ id, id ∈ order → id ∈ U) → size U < fuel →
  done_closed st → (∀ v, st !! v ≠ Some visiting) →
  ∃ b, hasCycle_loop fuel deps order st = Some b ∧
       (b = true → ∃ v, tc (edge deps) v v) ∧
       (b = false → ∃ st', done_closed st' ∧ done_mono st st' ∧
                           ∀ id, id ∈ order → st' !! id = Some done_).
Proof.
  intros HU. revert st. induction order as [|id order IH]; intros st Hord Hsz Hc Hnv; simpl.
  { exists false. split_and!; [done..|]. intros _. exists st. split_and!; [done..|set_solver]. }
  destruct (st !! id) as [[]|] eqn:Hst; [by apply Hnv in Hst|..].
  - destruct (IH st) as (b & -> & Ht & Hf); [set_solver|done..|]. exists b.
    split_and!; [done..|]. intros Hb. destruct (Hf Hb) as (st' & Hc' & Hm & Hall).
    exists st'. split_and!; [done..|]. intros x [->|Hx]%elem_of_cons; auto.
  - destruct (visit_terminates U fuel id st) as [[b st1] E]; [done|set_solver| |].
    { eapply Nat.le_lt_trans; [|exact Hsz]. apply subseteq_size. set_solver. }
    rewrite E. destruct b.
    + exists true. split_and!; [done| |done]. intros _.
      eapply visit_sound; [|exact E]. intros v Hv. by apply Hnv in Hv.
    + destruct (visit_complete _ _ _ _ Hc E) as (Hc1 & Hid & Hm1).
      destruct (IH st1) as (b & -> & Ht & Hf); [set_solver|done..| |].
      { intros v Hv. apply (visit_same_visiting _ _ _ _ E) in Hv. by apply Hnv in Hv. }
      exists b. split_and!; [done..|]. intros Hb.
      destruct (Hf Hb) as (st' & Hc' & Hm & Hall).
      exists st'. split_and!; [done| |].
      * intros v Hv. by apply Hm, Hm1.
      * intros x [->|Hx]%elem_of_cons; auto.
Qed.
End dfs.

(** ** The dependency index *)

Lemma depsOf_loop_dom deps nodes :
  dom (depsOf_loop deps nodes) = dom deps ∪ list_to_set (Node_ID <$> nodes).
Proof.
  revert deps. induction nodes as [|n nodes IH]; intros deps; simpl; [set_solver|].
  rewrite IH, dom_insert_L. set_solver.
Qed.

Lemma depsOf_dom nodes : dom (depsOf nodes) = list_to_set (Node_ID <$> nodes).
Proof. unfold depsOf. rewrite depsOf_loop_dom. set_solver. Qed.

Lemma depsOf_loop_inv deps nodes id l :
  depsOf_loop deps nodes !! id = Some l →
  deps !! id = Some l ∨ ∃ n, n ∈ nodes ∧ Node_ID n = id ∧ Node_DependsOn n = l.
Proof.
  revert deps. induction nodes as [|n nodes IH]; intros deps H; simpl in H; [by left|].
  destruct (IH _ H) as [H1|(n' & ? & ? & ?)]; [|right; set_solver].
  destruct (decide (Node_ID n = id)) as [<-|Hne]; simplify_map_eq; [right; set_solver|by left].
Qed.

Lemma depsOf_loop_notin deps nodes id :
  id ∉ (Node_ID <$> nodes) → depsOf_loop deps nodes !! id = deps !! id.
Proof.
  revert deps. induction nodes as [|n nodes IH]; intros deps Hid; simpl; [done|].
  rewrite IH by set_solver. apply lookup_insert_ne. set_solver.
Qed.

Lemma depsOf_loop_in deps nodes n :
  NoDup (Node_ID <$> nodes) → n ∈ nodes →
  depsOf_loop deps nodes !! Node_ID n = Some (Node_DependsOn n).
Proof.
  revert deps. induction nodes as [|m nodes IH]; intros deps Hnd Hn; simpl; [by apply not_elem_of_nil in Hn|].
  apply NoDup_cons in Hnd as [Hm Hnd]. apply elem_of_cons in Hn as [->|Hn]; [|by apply IH].
  rewrite depsOf_loop_notin by done. apply lookup_insert_eq.
Qed.

Lemma deps_at_node nodes n :
  NoDup (Node_ID <$> nodes) → n ∈ nodes → deps_at (depsOf nodes) (Node_ID n) = Node_DependsOn n.
Proof. intros. unfold deps_at, depsOf. by rewrite depsOf_loop_in. Qed.

Lemma edge_node nodes a b :
  edge (depsOf nodes) a b → ∃ n, n ∈ nodes ∧ Node_ID n = a ∧ b ∈ Node_DependsOn n.
Proof.
  unfold edge, deps_at. destruct (depsOf nodes !! a) as [l|] eqn:E; simpl; [|set_solver].
  apply depsOf_loop_inv in E as [E|(n & ? & ? & <-)]; [by rewrite lookup_empty in E|eauto].
Qed.

Lemma elem_of_universe nodes id :
  id ∈ universe nodes ↔ ∃ n, n ∈ nodes ∧ (id = Node_ID n ∨ id ∈ Node_DependsOn n).
Proof.
  unfold universe. rewrite elem_of_list_to_set, list_elem_of_bind.
  split; intros (n & H1 & H2); exists n; rewrite elem_of_cons in *; naive_solver.
Qed.

Lemma cycle_in_dom nodes v :
  tc (edge (depsOf nodes)) v v → v ∈ dom (depsOf nodes).
Proof.
  intros Htc. assert (∃ w, edge (depsOf nodes) v w) as [w Hw].
  { inversion Htc; subst; eauto. }
  apply edge_node in Hw as (n & Hn & <- & _). rewrite depsOf_dom. set_solver.
Qed.

Lemma hasCycle_spec order nodes :
  range_order order nodes →
  ∃ b, hasCycle order nodes = Some b ∧ (b = true ↔ ∃ v, tc (edge (depsOf nodes)) v v).
Proof.
  intros [Hnd Hord].
  destruct (hasCycle_loop_spec (depsOf nodes) (universe nodes) (hasCycle_fuel nodes) order ∅)
    as (b & Hb & Ht & Hf).
  - intros a c (n & Hn & _ & Hc)%edge_node. apply elem_of_universe. eauto.
  - intros id Hid%Hord. rewrite depsOf_dom in Hid. apply elem_of_universe. set_solver.
  - unfold hasCycle_fuel. lia.
  - intros v Hv. by rewrite lookup_empty in Hv.
  - intros v. by rewrite lookup_empty.
  - exists b. split; [done|]. destruct b; (split; [|]); [|done|done|].
    + by intros _; apply Ht.
    + intros [v Hv]. exfalso. destruct (Hf eq_refl) as (st' & Hc & _ & Hall).
      apply (Hc v); [|done]. apply Hall, Hord. by eapply cycle_in_dom.
Qed.

(** ** The validation loops *)

Definition node_ok (n : ExecutionNode) : Prop :=
  Node_ID n ≠ "" ∧ ValidateEffectSpec (Node_Effect n) = Ok tt.

Lemma indexNodes_Ok m l m' :
  indexNodes m l = Ok m' →
  Forall node_ok l ∧ NoDup (Node_ID <$> l) ∧ (∀ n, n ∈ l → m !! Node_ID n = None) ∧
  dom m' = dom m ∪ list_to_set (Node_ID <$> l).
Proof.
  revert m. induction l as [|n l IH]; intros m H; simpl in H.
  { simplify_eq. split_and!; [constructor|constructor|set_solver|set_solver]. }
  case_bool_decide; [done|]. destruct (m !! Node_ID n) eqn:Hm; [done|].
  destruct (ValidateEffectSpec (Node_Effect n)) as [[]|] eqn:He; [|done].
  destruct (IH _ H) as (Hok & Hnd & Hfresh & Hdom). split_and!.
  - by constructor.
  - simpl. constructor; [|done]. intros (n' & Hn' & Hin)%list_elem_of_fmap.
    specialize (Hfresh _ Hin). rewrite <- Hn' in Hfresh. by rewrite lookup_insert_eq in Hfresh.
  - intros n' [->|Hin]%elem_of_cons; [done|]. specialize (Hfresh _ Hin).
    by apply lookup_insert_None in Hfresh as [? ?].
  - rewrite Hdom, dom_insert_L. simpl. set_solver.
Qed.

Lemma indexNodes_total m l :
  Forall node_ok l → NoDup (Node_ID <$> l) → (∀ n, n ∈ l → m !! Node_ID n = None) →
  ∃ m', indexNodes m l = Ok m'.
Proof.
  revert m. induction l as [|n l IH]; intros m Hok Hnd Hfresh; simpl; [eauto|].
  apply Forall_cons in Hok as [[Hid He] Hok]. apply NoDup_cons in Hnd as [Hn Hnd].
  rewrite bool_decide_eq_false_2 by done. rewrite Hfresh by set_solver. rewrite He.
  apply IH; [done..|]. intros n' Hn'. rewrite lookup_insert_ne; [apply Hfresh; set_solver|].
  intros Heq. apply Hn. rewrite Heq. by apply list_elem_of_fmap_2.
Qed.

Lemma checkDeps_iff nodes id seen deps :
  checkDeps nodes id seen deps = Ok tt ↔
  NoDup deps ∧ (id ∉ deps) ∧ (∀ d, d ∈ deps → d ∈ dom nodes ∧ d ∉ seen).
Proof.
  revert seen. induction deps as [|d deps IH]; intros seen; simpl.
  { split; [|done]. intros _. split_and!; [constructor|set_solver|set_solver]. }
  case_bool_decide as Hd; [set_solver|].
  destruct (nodes !! d) as [n|] eqn:Hn; [|apply not_elem_of_dom in Hn; set_solver].
  apply elem_of_dom_2 in Hn.
  case_bool_decide; [set_solver|]. rewrite IH, NoDup_cons. set_solver.
Qed.

Lemma checkAllDeps_iff nodes l :
  checkAllDeps nodes l = Ok tt ↔
  Forall (λ n, NoDup (Node_DependsOn n) ∧ (Node_ID n ∉ Node_DependsOn n) ∧
               (∀ d, d ∈ Node_DependsOn n → d ∈ dom nodes)) l.
Proof.
  induction l as [|n l IH]; simpl; [split; [constructor|done]|].
  rewrite Forall_cons, <- IH. unfold mbind, result_bind.
  pose proof (checkDeps_iff nodes (Node_ID n) ∅ (Node_DependsOn n)) as Hc.
  destruct (checkDeps _ _ _ _) as [[]|e]; [set_solver|].
  split; [done|]. intros [(H1 & H2 & H3) _].
  assert (Err e = Ok tt) as E; [|done]. apply Hc. set_solver.
Qed.

(** ** Progress: a finite acyclic graph has a source *)

(** The first dependency of [v] in [S]. *)
Definition pick (deps : Deps) (X : list NodeID) (v : NodeID) : NodeID :=
  default v (head (filter (λ d, d ∈ X) (deps_at deps v))).

Lemma pick_spec deps X v :
  (∃ w, edge deps v w ∧ w ∈ X) → edge deps v (pick deps X v) ∧ pick deps X v ∈ X.
Proof.
  intros (w & Hw & HX). unfold pick, edge in *.
  destruct (filter (λ d, d ∈ X) (deps_at deps v)) as [|d l] eqn:E; simpl.
  - assert (w ∈ filter (λ d, d ∈ X) (deps_at deps v)) as H.
    { by apply list_elem_of_filter. }
    rewrite E in H. by apply not_elem_of_nil in H.
  - assert (d ∈ filter (λ d, d ∈ X) (deps_at deps v)) as H by (rewrite E; set_solver).
    apply list_elem_of_filter in H. naive_solver.
Qed.

(** The walk that follows [pick] for [n] steps, last node first. *)
Fixpoint walk (deps : Deps) (X : list NodeID) (v : NodeID) (n : nat) : list NodeID :=
  match n with
  | O => [v]
  | S n => v :: walk deps X (pick deps X v) n
  end.

Lemma walk_length deps X v n : length (walk deps X v n) = S n.
Proof. revert v. induction n as [|n IH]; intros v; simpl; [done|]. by rewrite IH. Qed.

Lemma walk_spec deps X v n :
  (∀ v, v ∈ X → ∃ w, edge deps v w ∧ w ∈ X) → v ∈ X →
  (∀ w, w ∈ walk deps X v n → w ∈ X ∧ rtc (edge deps) v w) ∧
  (¬ NoDup (walk deps X v n) → ∃ w, tc (edge deps) w w).
Proof.
  intros HX. revert v. induction n as [|n IH]; intros v Hv; simpl.
  { split; [|intros []; apply NoDup_singleton].
    intros w [->|[]%not_elem_of_nil]%elem_of_cons. by split. }
  destruct (pick_spec deps X v (HX v Hv)) as [He Hp]. destruct (IH _ Hp) as [Hin Hnd].
  split.
  - intros w [->|Hw]%elem_of_cons; [done|]. destruct (Hin w Hw) as [? ?].
    split; [done|]. by eapply rtc_l.
  - intros Hdup. destruct (decide (v ∈ walk deps X (pick deps X v) n)) as [Hw|Hw].
    + exists v. destruct (Hin v Hw) as [_ Hr]. by eapply tc_rtc_r; [apply tc_once|].
    + apply Hnd. intros ?. by apply Hdup, NoDup_cons.
Qed.

Lemma acyclic_source deps (X : list NodeID) :
  acyclic deps → X ≠ [] → ∃ v, v ∈ X ∧ ∀ w, edge deps v w → w ∉ X.
Proof.
  intros Hac HX. destruct (decide (Exists (λ v, Forall (λ w, w ∉ X) (deps_at deps v)) X)) as [He|He].
  { apply Exists_exists in He as (v & Hv & Hall). exists v. split; [done|].
    intros w Hw. rewrite Forall_forall in Hall. by apply Hall. }
  exfalso. destruct X as [|v X']; [done|]. set (X := v :: X') in *.
  destruct (walk_spec deps X v (length X)) as [Hin Hdup]; [|set_solver|].
  - intros u Hu. apply Exists_not_Forall in He || idtac.
    destruct (decide (Exists (λ w, w ∈ X) (deps_at deps u))) as [Hex|Hex].
    + apply Exists_exists in Hex as (w & ? & ?). eauto.
    + exfalso. apply He, Exists_exists. exists u. split; [done|].
      apply Forall_forall. intros w Hw HwX. apply Hex, Exists_exists. eauto.
  - destruct Hdup as [w Hw]; [|by apply (Hac w)]. intros Hnd.
    assert (length (walk deps X v (length X)) ≤ length X) as Hle.
    { apply NoDup_incl_length; [by apply NoDup_ListNoDup|].
      intros w Hw%list_elem_of_In. apply list_elem_of_In. by apply Hin. }
    rewrite walk_length in Hle. lia.
Qed.

Lemma ValidatePlan_wf order plan :
  range_order order (Plan_Nodes plan) →
  ∃ r, ValidatePlan order plan = Some r ∧ (r = Ok tt ↔ well_formed plan).
Proof.
  intros Hord. unfold ValidatePlan.
  case_bool_decide; [eexists; split; [done|]; split; [done|by intros []]|].
  case_bool_decide; [eexists; split; [done|]; split; [done|by intros []]|].
  destruct (Plan_Revision plan <=? 0)%Z eqn:Hrev; go_props.
  { eexists; split; [done|]; split; [done|intros []; lia]. }
  destruct (Plan_Nodes plan) as [|n0 l0] eqn:Hnodes; simpl (Nat.eqb _ _); cbn match.
  { eexists; split; [done|]; split; [done|by intros []]. }
  rewrite <- Hnodes in *.
  destruct (indexNodes ∅ (Plan_Nodes plan)) as [m|e] eqn:Hidx.
  2: { eexists; split; [done|]; split; [done|intros []].
       destruct (indexNodes_total ∅ (Plan_Nodes plan)) as [m' Hm']; [|done| |congruence].
       - by apply Forall_and.
       - intros. apply lookup_empty. }
  destruct (indexNodes_Ok _ _ _ Hidx) as (Hok & Hnd & _ & Hdom). apply Forall_and in Hok as [Hids Heff].
  assert (∀ d, d ∈ dom m ↔ d ∈ (Node_ID <$> Plan_Nodes plan)) as Hdom'.
  { intros d. rewrite Hdom. set_solver. }
  pose proof (checkAllDeps_iff m (Plan_Nodes plan)) as Hdeps. setoid_rewrite Hdom' in Hdeps.
  destruct (checkAllDeps m (Plan_Nodes plan)) as [[]|e] eqn:Hc.
  2: { eexists; split; [done|]; split; [done|intros []]. by apply Hdeps. }
  destruct (hasCycle_spec order (Plan_Nodes plan) Hord) as (b & -> & Hb).
  destruct b; eexists; (split; [done|]).
  - split; [done|]. intros []. destruct (proj1 Hb eq_refl) as [v Hv]. by destruct (wf_acyclic0 v).
  - split; [intros _|done]. split; [done|done|done|congruence|done|done|done|by apply Hdeps|].
    intros v Hv. assert (false = true); [|done]. apply Hb. eauto.
Qed.

(** An order that [range deps] may choose always exists. *)
(** The validation with the map visited in the order [order plan]; it never runs out
    of fuel. *)
Definition validatePlan (order : ExecutionPlan → list NodeID) (plan : ExecutionPlan) : result unit :=
  default (Err (Errorf "unreachable" [])) (ValidatePlan (order plan) plan).

Lemma validatePlan_wf order plan :
  range_order (order plan) (Plan_Nodes plan) → validatePlan order plan = Ok tt ↔ well_formed plan.
Proof. intros Ho. unfold validatePlan. by destruct (ValidatePlan_wf _ _ Ho) as (r & -> & Hr). Qed.

Lemma range_order_exists nodes : range_order (elements (dom (depsOf nodes))) nodes.
Proof. split; [apply NoDup_elements|]. intros id. apply elem_of_elements. Qed.

(** In a well-formed plan the dependencies of a node are other nodes of it. *)
Lemma well_formed_edge plan a b :
  well_formed plan → edge (depsOf (Plan_Nodes plan)) a b →
  a ∈ (Node_ID <$> Plan_Nodes plan) ∧ b ∈ (Node_ID <$> Plan_Nodes plan).
Proof.
  intros Hwf (n & Hn & <- & Hb)%edge_node. split; [by apply list_elem_of_fmap_2|].
  pose proof (wf_deps _ Hwf) as Hd. rewrite Forall_forall in Hd. by apply (Hd n Hn).
Qed.

(** Progress over a well-formed plan: while some node is not yet in the set of
    finished nodes, one of the missing nodes has all its dependencies in it. *)
Lemma well_formed_progress plan (finished : NodeID → bool) :
  well_formed plan →
  (∃ n, n ∈ Plan_Nodes plan ∧ finished (Node_ID n) = false) →
  ∃ n, n ∈ Plan_Nodes plan ∧ finished (Node_ID n) = false ∧
       ∀ d, d ∈ Node_DependsOn n → finished d = true.
Proof.
  intros Hwf (n0 & Hn0 & Hf0).
  set (X := filter (λ id, finished id = false) (Node_ID <$> Plan_Nodes plan)).
  assert (∀ id, id ∈ X ↔ finished id = false ∧ id ∈ (Node_ID <$> Plan_Nodes plan)) as HX.
  { intros id. unfold X. by rewrite list_elem_of_filter. }
  destruct (acyclic_source (depsOf (Plan_Nodes plan)) X) as (v & Hv & Hsrc).
  - apply Hwf.
  - intros HX0. assert (Node_ID n0 ∈ X) as Hin.
    { apply HX. split; [done|]. by apply list_elem_of_fmap_2. }
    rewrite HX0 in Hin. by apply not_elem_of_nil in Hin.
  - apply HX in Hv as [Hv Hin]. apply list_elem_of_fmap in Hin as (n & -> & Hn).
    exists n. split_and!; [done..|]. intros d Hd.
    assert (edge (depsOf (Plan_Nodes plan)) (Node_ID n) d) as He.
    { unfold edge. rewrite deps_at_node; [done|apply Hwf|done]. }
    destruct (finished d) eqn:Hfd; [done|]. exfalso. apply (Hsrc d He), HX.
    split; [done|]. by eapply well_formed_edge.
Qed.

(** ** Properties *)

(** C38. [ValidatePlan] always returns, and accepts a plan exactly when it is a
    well-formed bounded DAG: identified, positively revised, non-empty, with
    unique non-empty node ids, valid effects, known, distinct, non-reflexive
    dependencies and no dependency cycle.  This holds for every order in which
    Go's map iteration may drive the cycle search. *)
Theorem ValidatePlan_correct order plan :
  range_order order (Plan_Nodes plan) →
  ∃ r, ValidatePlan order plan = Some r ∧ (r = Ok tt ↔ well_formed plan).
Proof. apply ValidatePlan_wf. Qed.

(** The depth-first search terminates within its fuel and reports a cycle
    exactly when some node depends on itself through one or more dependencies;
    in particular two iteration orders of the same map give the same answer. *)
Theorem hasCycle_correct order order' nodes :
  range_order order nodes → range_order order' nodes →
  ∃ b, hasCycle order nodes = Some b ∧ hasCycle order' nodes = Some b ∧
       (b = true ↔ ∃ v, tc (edge (depsOf nodes)) v v).
Proof.
  intros H H'. destruct (hasCycle_spec _ _ H) as (b & Hb & Hi).
  destruct (hasCycle_spec _ _ H') as (b' & Hb' & Hi').
  exists b. split; [done|]. split; [|done]. rewrite Hb'. f_equal.
  destruct b, b'; try done; naive_solver.
Qed.

(** A small plan for the witnesses: [collect], then [fix], then [verify]. *)
Definition sample_node (id : NodeID) (deps : list NodeID) (effect : EffectSpec) : ExecutionNode :=
  {| Node_ID := id; Node_Type := NodeTool; Node_DependsOn := deps;
     Node_CapabilityRequirement :=
       {| Modality := []; Reasoning := ""; Coding := ""; ContextSize := ""; ToolCalling := "";
          PrivateData := false; LatencyClass := ""; ReliabilityClass := "" |};
     Node_Timeout := Minute; Node_RetryPolicy := {| MaxAttempts := 1; RetryOn := [] |};
     Node_Effect := effect; Node_VerificationRequired := false |}.

Definition read_effect : EffectSpec :=
  {| Effect_Class := EffectReadOnly; Effect_IdempotencyKey := ""; Effect_RetrySafe := true |}.
Definition mutate_effect : EffectSpec :=
  {| Effect_Class := EffectNonIdempotentMutation; Effect_IdempotencyKey := "";
     Effect_RetrySafe := false |}.

Definition sample_plan : ExecutionPlan :=
  {| Plan_ID := "plan-1"; Plan_GoalRef := "goal-1"; Plan_Revision := 1; Plan_ParentRevision := 0;
     Plan_Nodes := [sample_node "verify" ["fix"; "collect"] read_effect;
                    sample_node "fix" ["collect"] mutate_effect;
                    sample_node "collect" [] read_effect];
     Plan_CreatedAt := 1%Z |}.


Lemma sample_range_order : range_order ["fix"; "collect"; "verify"] (Plan_Nodes sample_plan).
Proof.
  split; [apply (bool_decide_unpack _); vm_compute; exact I|].
  intros id. rewrite depsOf_dom. simpl. set_solver.
Qed.

Lemma sample_plan_wf : well_formed sample_plan.
Proof.
  destruct (ValidatePlan_wf _ _ sample_range_order) as (r & Hr & Hi).
  apply Hi. vm_compute in Hr. congruence.
Qed.

Lemma ValidatePlan_correct_witness :
  ValidatePlan ["fix"; "collect"; "verify"] sample_plan = Some (Ok tt) ∧ well_formed sample_plan.
Proof.
  destruct (ValidatePlan_correct ["fix"; "collect"; "verify"] sample_plan sample_range_order)
    as (r & Hr & Hi).
  assert (r = Ok tt) as -> by (vm_compute in Hr; congruence).
  split; [exact Hr|by apply Hi].
Defined.

End ExecPlan.
