(* ===== verification/Approval.v ===== *)
(** * Approval: scoped approvals with expiry and revocation

    [src/execution/approval.go].  The store is the map of
    [MemoryApprovalStore]; every operation runs under its mutex, so it is one
    atomic step from store to store.  An operation returns its result and the
    store after it. *)
From S2P Require Import Prelude ExecTypes.

Module Approval.

Definition ErrApprovalNotFound : error := Sentinel "ErrApprovalNotFound" "approval not found".
Definition ErrApprovalExpired : error := Sentinel "ErrApprovalExpired" "approval expired".
Definition ErrApprovalMismatch : error := Sentinel "ErrApprovalMismatch" "approval scope mismatch".

Abbreviation ApprovalID := string (only parsing).

Record ApprovalScope : Type := mkApprovalScope {
  Scope_ExecutionRef : ExecutionID;
  Scope_PlanRevision : Z;
  Scope_NodeRef : NodeID;
  Scope_Action : string;
  Scope_Resource : string;
  Scope_RequestedScope : string
}.

#[export] Instance ApprovalScope_eq_dec : EqDecision ApprovalScope.
Proof. solve_decision. Defined.

Record ApprovalRecord : Type := mkApprovalRecord {
  Approval_ID : ApprovalID;
  Approval_PolicyDecisionRef : PolicyDecisionID;
  Approval_Scope : ApprovalScope;
  Approval_ApprovedBy : string;
  Approval_ApprovedAt : Time;
  Approval_ExpiresAt : option Time;
  Approval_RevokedAt : option Time
}.

Definition ActiveAt (a : ApprovalRecord) (now : Time) : bool :=
  match Approval_RevokedAt a with
  | Some _ => false
  | None =>
      match Approval_ExpiresAt a with
      | Some e => if negb (Before now e) then false else true
      | None => true
      end
  end.

Definition Authorizes (a : ApprovalRecord) (scope : ApprovalScope) (now : Time) : result unit :=
  if negb (ActiveAt a now) then Err ErrApprovalExpired
  else if Approval_Scope a !=? scope
  then Err (Errorw "%w: approved=%+v requested=%+v" [] ErrApprovalMismatch)
  else Ok tt.

Abbreviation MemoryApprovalStore := (gmap ApprovalID ApprovalRecord).

Definition NewMemoryApprovalStore : MemoryApprovalStore := ∅.

Definition Put (record : ApprovalRecord) (s : MemoryApprovalStore)
    : result unit * MemoryApprovalStore :=
  if Approval_ID record ==? "" then (Err (Errorf "approval id is required" []), s)
  else if (Scope_ExecutionRef (Approval_Scope record) ==? "")
          || (Scope_NodeRef (Approval_Scope record) ==? "")
          || (Scope_PlanRevision (Approval_Scope record) <=? 0)%Z
  then (Err (Errorf "approval execution, plan revision and node scope are required" []), s)
  else if (Approval_ApprovedBy record ==? "") || IsZero (Approval_ApprovedAt record)
  then (Err (Errorf "approval actor and timestamp are required" []), s)
  else match s !! Approval_ID record with
  | Some _ => (Err (Errorf "approval %q already exists" [AStr (Approval_ID record)]), s)
  | None => (Ok tt, <[Approval_ID record := record]> s)
  end.

Definition Get (id : ApprovalID) (s : MemoryApprovalStore) : result ApprovalRecord :=
  match s !! id with
  | None => Err ErrApprovalNotFound
  | Some record => Ok record
  end.

Definition set_RevokedAt (a : ApprovalRecord) (at_ : Time) : ApprovalRecord :=
  {| Approval_ID := Approval_ID a; Approval_PolicyDecisionRef := Approval_PolicyDecisionRef a;
     Approval_Scope := Approval_Scope a; Approval_ApprovedBy := Approval_ApprovedBy a;
     Approval_ApprovedAt := Approval_ApprovedAt a; Approval_ExpiresAt := Approval_ExpiresAt a;
     Approval_RevokedAt := Some at_ |}.

Definition Revoke (id : ApprovalID) (at_ : Time) (s : MemoryApprovalStore)
    : result unit * MemoryApprovalStore :=
  match s !! id with
  | None => (Err ErrApprovalNotFound, s)
  | Some record =>
      match Approval_RevokedAt record with
      | Some _ => (Ok tt, s)
      | None => (Ok tt, <[id := set_RevokedAt record at_]> s)
      end
  end.

(** ** Histories of the store *)

Inductive op : Type :=
| OpPut (record : ApprovalRecord)
| OpRevoke (id : ApprovalID) (at_ : Time).

Definition run_op (o : op) (s : MemoryApprovalStore) : MemoryApprovalStore :=
  match o with
  | OpPut record => snd (Put record s)
  | OpRevoke id at_ => snd (Revoke id at_ s)
  end.

Definition run (ops : list op) (s : MemoryApprovalStore) : MemoryApprovalStore :=
  foldl (λ s o, run_op o s) s ops.

(** A record may only gain a revocation time. *)
Definition evolves (a b : ApprovalRecord) : Prop :=
  b = a ∨ (Approval_RevokedAt a = None ∧ ∃ t, b = set_RevokedAt a t).

Lemma evolves_trans a b c : evolves a b → evolves b c → evolves a c.
Proof.
  intros [->|(Ha & t & ->)] [->|(Hb & u & ->)]; [by left|right; eauto|right; eauto|done].
Qed.

Lemma run_op_evolves o s id a :
  s !! id = Some a → ∃ b, run_op o s !! id = Some b ∧ evolves a b.
Proof.
  intros Ha. destruct o as [r|i t]; simpl.
  - unfold Put. repeat case_match; simpl; try (by exists a; split; [done|left]).
    destruct (decide (Approval_ID r = id)) as [<-|Hne]; [congruence|].
    exists a. rewrite lookup_insert_ne by done. split; [done|by left].
  - unfold Revoke. destruct (s !! i) as [r|] eqn:Hi; [|by exists a; split; [done|left]].
    destruct (Approval_RevokedAt r) eqn:Hr; [by exists a; split; [done|left]|]. simpl.
    destruct (decide (i = id)) as [->|Hne]; simplify_map_eq.
    + eexists. split; [done|]. right. eauto.
    + exists a. by split; [|left].
Qed.

Lemma run_evolves ops s id a :
  s !! id = Some a → ∃ b, run ops s !! id = Some b ∧ evolves a b.
Proof.
  revert s a. induction ops as [|o ops IH]; intros s a Ha; simpl; [by exists a; split; [|left]|].
  destruct (run_op_evolves o s id a Ha) as (b & Hb & Hab).
  destruct (IH _ _ Hb) as (c & Hc & Hbc). exists c. split; [done|]. by eapply evolves_trans.
Qed.

Lemma Authorizes_iff a scope now :
  Authorizes a scope now = Ok tt ↔
  Approval_RevokedAt a = None ∧ (∀ e, Approval_ExpiresAt a = Some e → (now < e)%Z) ∧
  Approval_Scope a = scope.
Proof.
  unfold Authorizes, ActiveAt, Before.
  destruct (Approval_RevokedAt a); simpl; [by naive_solver|].
  destruct (Approval_ExpiresAt a) as [e|].
  - destruct (Z.ltb_spec now e); simpl.
    + case_bool_decide; simpl; split; intros; try naive_solver lia.
    + split; [done|]. intros (_ & He & _). specialize (He e eq_refl). lia.
  - simpl. case_bool_decide; simpl; naive_solver.
Qed.

(** ** Properties *)

(** An approval authorises exactly its own scope, and only while it is neither
    revoked nor expired; once it has stopped authorising a scope because of
    expiry or revocation it never authorises it again at a later instant. *)
Theorem approval_authority a scope now now' :
  (Authorizes a scope now = Ok tt ↔
     Approval_RevokedAt a = None ∧ (∀ e, Approval_ExpiresAt a = Some e → (now < e)%Z) ∧
     Approval_Scope a = scope) ∧
  ((now ≤ now')%Z → Authorizes a scope now' = Ok tt → Authorizes a scope now = Ok tt).
Proof.
  split; [apply Authorizes_iff|]. intros Hle. rewrite !Authorizes_iff.
  intros (Hr & He & Hs). split_and!; [done| |done]. intros e Hee.
  specialize (He e Hee). lia.
Qed.

(** Revocation is final: after [Revoke] succeeds on an id, no later sequence of
    store operations makes the approval of that id authorise anything again,
    at any time and for any scope; its approved scope never changes either. *)
Theorem revocation_is_final id at_ s s' ops a :
  s !! id = Some a → Revoke id at_ s = (Ok tt, s') →
  ∃ b, Get id (run ops s') = Ok b ∧ Approval_Scope b = Approval_Scope a ∧
       ∀ scope now, Authorizes b scope now = Err ErrApprovalExpired.
Proof.
  intros Ha Hrev. unfold Revoke in Hrev. rewrite Ha in Hrev.
  assert (∃ c, s' !! id = Some c ∧ Approval_Scope c = Approval_Scope a ∧
               is_Some (Approval_RevokedAt c)) as (c & Hc & Hsc & [t Ht]).
  { destruct (Approval_RevokedAt a) eqn:Hra; simplify_eq; [eauto 10|].
    eexists. rewrite lookup_insert_eq. split; [done|]. by split. }
  destruct (run_evolves ops s' id c Hc) as (b & Hb & [->|(? & _)]); [|congruence].
  exists c. unfold Get. rewrite Hb. split_and!; [done..|].
  intros scope now. unfold Authorizes, ActiveAt. by rewrite Ht.
Qed.

Definition sample_scope : ApprovalScope :=
  {| Scope_ExecutionRef := "exec-1"; Scope_PlanRevision := 1; Scope_NodeRef := "fix";
     Scope_Action := "restart"; Scope_Resource := "svc"; Scope_RequestedScope := "prod" |}.

Definition sample_record : ApprovalRecord :=
  {| Approval_ID := "appr-1"; Approval_PolicyDecisionRef := "pd-1";
     Approval_Scope := sample_scope; Approval_ApprovedBy := "alice";
     Approval_ApprovedAt := 10%Z; Approval_ExpiresAt := Some 100%Z; Approval_RevokedAt := None |}.

Lemma revocation_is_final_witness :
  let s := snd (Put sample_record NewMemoryApprovalStore) in
  let s' := snd (Revoke "appr-1" 20 s) in
  ∃ b, Get "appr-1" (run [OpPut sample_record; OpRevoke "appr-1" 30] s') = Ok b ∧
       Approval_Scope b = sample_scope ∧
       ∀ scope now, Authorizes b scope now = Err ErrApprovalExpired.
Proof.
  intros s s'.
  apply (revocation_is_final "appr-1" 20%Z s s'
           [OpPut sample_record; OpRevoke "appr-1" 30%Z] sample_record); reflexivity.
Defined.

End Approval.
