(* ===== verification/Budget.v ===== *)
(** * Budget: the atomic budget ledger

    [src/execution/budget.go].  The ledger is the guarded state of
    [BudgetLedger]; each method holds the mutex for its whole body, so it is one
    atomic step.  Integer counters wrap at 64 bits and costs are binary64, as in
    the source.  [Reserve] hands out a copy of the reservation, so no caller
    aliases the ledger's own record. *)
From S2P Require Import Prelude ExecTypes.

Module Budget.

Definition ErrBudgetExceeded : error := Sentinel "ErrBudgetExceeded" "budget exceeded".
Definition ErrReservationMissing : error := Sentinel "ErrReservationMissing" "budget reservation not found".
Definition ErrReservationClosed : error :=
  Sentinel "ErrReservationClosed" "budget reservation already settled or released".

Record BudgetEstimate : Type := mkBudgetEstimate {
  Estimate_Cost : float64;
  Estimate_NodeAttempts : Z;
  Estimate_FrontierCalls : Z;
  Estimate_ToolCalls : Z
}.

Record BudgetReservation : Type := mkBudgetReservation {
  Reservation_ID : string;
  Reservation_ExecutionRef : ExecutionID;
  Reservation_NodeRef : NodeID;
  Reservation_Estimate : BudgetEstimate;
  Reservation_Closed : bool
}.

Record BudgetLedger : Type := mkBudgetLedger {
  ledger_state : BudgetState;
  ledger_reservations : gmap string BudgetReservation
}.

Definition NewBudgetLedger (state : BudgetState) : BudgetLedger :=
  {| ledger_state := state; ledger_reservations := ∅ |}.

Definition Snapshot (l : BudgetLedger) : BudgetState := ledger_state l.

Definition validateCountersAgainstLimit (c : AccountingCounters) (limit : BudgetLimit) : result unit :=
  if f_gt (MaxCost limit) f_zero && f_gt (Counters_Cost c) (MaxCost limit)
  then Err (Errorw "%w: cost %.4f > %.4f" [AFloat (Counters_Cost c); AFloat (MaxCost limit)]
              ErrBudgetExceeded)
  else if (0 <? MaxNodeAttempts limit)%Z && (MaxNodeAttempts limit <? Counters_NodeAttempts c)%Z
  then Err (Errorw "%w: node attempts %d > %d"
              [AInt (Counters_NodeAttempts c); AInt (MaxNodeAttempts limit)] ErrBudgetExceeded)
  else if (0 <? MaxFrontierCalls limit)%Z && (MaxFrontierCalls limit <? Counters_FrontierCalls c)%Z
  then Err (Errorw "%w: frontier calls %d > %d"
              [AInt (Counters_FrontierCalls c); AInt (MaxFrontierCalls limit)] ErrBudgetExceeded)
  else if (0 <? MaxToolCalls limit)%Z && (MaxToolCalls limit <? Counters_ToolCalls c)%Z
  then Err (Errorw "%w: tool calls %d > %d"
              [AInt (Counters_ToolCalls c); AInt (MaxToolCalls limit)] ErrBudgetExceeded)
  else Ok tt.

(** [applyEstimate(&dst, v, sign)]. *)
Definition applyEstimate (dst : AccountingCounters) (v : BudgetEstimate) (sign : Z) : AccountingCounters :=
  {| Counters_Cost := f_add (Counters_Cost dst) (f_mul (f_int sign) (Estimate_Cost v));
     Counters_NodeAttempts := add64 (Counters_NodeAttempts dst) (mul64 sign (Estimate_NodeAttempts v));
     Counters_FrontierCalls := add64 (Counters_FrontierCalls dst) (mul64 sign (Estimate_FrontierCalls v));
     Counters_ToolCalls := add64 (Counters_ToolCalls dst) (mul64 sign (Estimate_ToolCalls v)) |}.

Definition negative (e : BudgetEstimate) : bool :=
  f_lt (Estimate_Cost e) f_zero || (Estimate_NodeAttempts e <? 0)%Z
  || (Estimate_FrontierCalls e <? 0)%Z || (Estimate_ToolCalls e <? 0)%Z.

(** The counters [Reserve] tests: reserved + consumed + estimate. *)
Definition nextCounters (st : BudgetState) (e : BudgetEstimate) : AccountingCounters :=
  let r := Budget_Reserved st in
  let c := Budget_Consumed st in
  {| Counters_Cost := f_add (f_add (Counters_Cost r) (Counters_Cost c)) (Estimate_Cost e);
     Counters_NodeAttempts :=
       add64 (add64 (Counters_NodeAttempts r) (Counters_NodeAttempts c)) (Estimate_NodeAttempts e);
     Counters_FrontierCalls :=
       add64 (add64 (Counters_FrontierCalls r) (Counters_FrontierCalls c)) (Estimate_FrontierCalls e);
     Counters_ToolCalls :=
       add64 (add64 (Counters_ToolCalls r) (Counters_ToolCalls c)) (Estimate_ToolCalls e) |}.

Definition set_reserved (st : BudgetState) (r : AccountingCounters) : BudgetState :=
  {| Budget_Limit := Budget_Limit st; Budget_Reserved := r; Budget_Consumed := Budget_Consumed st |}.
Definition set_consumed (st : BudgetState) (c : AccountingCounters) : BudgetState :=
  {| Budget_Limit := Budget_Limit st; Budget_Reserved := Budget_Reserved st; Budget_Consumed := c |}.

Definition close (r : BudgetReservation) : BudgetReservation :=
  {| Reservation_ID := Reservation_ID r; Reservation_ExecutionRef := Reservation_ExecutionRef r;
     Reservation_NodeRef := Reservation_NodeRef r; Reservation_Estimate := Reservation_Estimate r;
     Reservation_Closed := true |}.

Definition Reserve (id : string) (executionRef : ExecutionID) (nodeRef : NodeID)
    (estimate : BudgetEstimate) (l : BudgetLedger) : result BudgetReservation * BudgetLedger :=
  if id ==? "" then (Err (Errorf "reservation id is required" []), l)
  else match ledger_reservations l !! id with
  | Some _ => (Err (Errorf "reservation %q already exists" [AStr id]), l)
  | None =>
      if negative estimate
      then (Err (Errorf "budget estimate cannot contain negative values" []), l)
      else match validateCountersAgainstLimit (nextCounters (ledger_state l) estimate)
                   (Budget_Limit (ledger_state l)) with
      | Err e => (Err e, l)
      | Ok _ =>
          let reservation :=
            {| Reservation_ID := id; Reservation_ExecutionRef := executionRef;
               Reservation_NodeRef := nodeRef; Reservation_Estimate := estimate;
               Reservation_Closed := false |} in
          (Ok reservation,
           {| ledger_state :=
                set_reserved (ledger_state l)
                  (applyEstimate (Budget_Reserved (ledger_state l)) estimate 1);
              ledger_reservations := <[id := reservation]> (ledger_reservations l) |})
      end
  end.

Definition Settle (id : string) (actual : BudgetEstimate) (l : BudgetLedger)
    : result unit * BudgetLedger :=
  match ledger_reservations l !! id with
  | None => (Err ErrReservationMissing, l)
  | Some reservation =>
      if Reservation_Closed reservation then (Err ErrReservationClosed, l)
      else if negative actual then (Err (Errorf "actual usage cannot contain negative values" []), l)
      else
        let st := set_reserved (ledger_state l)
                    (applyEstimate (Budget_Reserved (ledger_state l))
                       (Reservation_Estimate reservation) (-1)) in
        (Ok tt,
         {| ledger_state := set_consumed st (applyEstimate (Budget_Consumed st) actual 1);
            ledger_reservations := <[id := close reservation]> (ledger_reservations l) |})
  end.

Definition Release (id : string) (l : BudgetLedger) : result unit * BudgetLedger :=
  match ledger_reservations l !! id with
  | None => (Err ErrReservationMissing, l)
  | Some reservation =>
      if Reservation_Closed reservation then (Err ErrReservationClosed, l)
      else
        (Ok tt,
         {| ledger_state :=
              set_reserved (ledger_state l)
                (applyEstimate (Budget_Reserved (ledger_state l))
                   (Reservation_Estimate reservation) (-1));
            ledger_reservations := <[id := close reservation]> (ledger_reservations l) |})
  end.

Definition Exhausted (l : BudgetLedger) : bool :=
  let r := Budget_Reserved (ledger_state l) in
  let c := Budget_Consumed (ledger_state l) in
  negb (is_ok (validateCountersAgainstLimit
    {| Counters_Cost := f_add (Counters_Cost r) (Counters_Cost c);
       Counters_NodeAttempts := add64 (Counters_NodeAttempts r) (Counters_NodeAttempts c);
       Counters_FrontierCalls := add64 (Counters_FrontierCalls r) (Counters_FrontierCalls c);
       Counters_ToolCalls := add64 (Counters_ToolCalls r) (Counters_ToolCalls c) |}
    (Budget_Limit (ledger_state l)))).

(** ** [BudgetLedgerCoordinator]: [None] is a nil coordinator or ledger *)

Definition errLedgerRequired : error := Errorf "budget ledger is required" [].

Definition Coordinator_Reserve (id : string) (executionRef : ExecutionID) (nodeRef : NodeID)
    (estimate : BudgetEstimate) (c : option BudgetLedger)
    : result BudgetReservation * option BudgetLedger :=
  match c with
  | None => (Err errLedgerRequired, c)
  | Some l => let '(r, l') := Reserve id executionRef nodeRef estimate l in (r, Some l')
  end.

Definition Coordinator_Settle (id : string) (actual : BudgetEstimate) (c : option BudgetLedger)
    : result unit * option BudgetLedger :=
  match c with
  | None => (Err errLedgerRequired, c)
  | Some l => let '(r, l') := Settle id actual l in (r, Some l')
  end.

Definition Coordinator_Release (id : string) (c : option BudgetLedger)
    : result unit * option BudgetLedger :=
  match c with
  | None => (Err errLedgerRequired, c)
  | Some l => let '(r, l') := Release id l in (r, Some l')
  end.

(** ** Histories *)

Inductive op : Type :=
| OpReserve (id : string) (executionRef : ExecutionID) (nodeRef : NodeID) (estimate : BudgetEstimate)
| OpSettle (id : string) (actual : BudgetEstimate)
| OpRelease (id : string).

Definition run_op (o : op) (l : BudgetLedger) : BudgetLedger :=
  match o with
  | OpReserve id e n est => snd (Reserve id e n est l)
  | OpSettle id a => snd (Settle id a l)
  | OpRelease id => snd (Release id l)
  end.

Definition run (ops : list op) (l : BudgetLedger) : BudgetLedger := foldl (λ l o, run_op o l) l ops.

(** One integer counter of the ledger: how it is read from the accumulated
    counters and from an estimate. *)
Inductive counter : Type := CNodeAttempts | CFrontierCalls | CToolCalls.

Definition read_counters (k : counter) (c : AccountingCounters) : Z :=
  match k with
  | CNodeAttempts => Counters_NodeAttempts c
  | CFrontierCalls => Counters_FrontierCalls c
  | CToolCalls => Counters_ToolCalls c
  end.
Definition read_estimate (k : counter) (e : BudgetEstimate) : Z :=
  match k with
  | CNodeAttempts => Estimate_NodeAttempts e
  | CFrontierCalls => Estimate_FrontierCalls e
  | CToolCalls => Estimate_ToolCalls e
  end.
Definition read_limit (k : counter) (lim : BudgetLimit) : Z :=
  match k with
  | CNodeAttempts => MaxNodeAttempts lim
  | CFrontierCalls => MaxFrontierCalls lim
  | CToolCalls => MaxToolCalls lim
  end.

(** The estimates of the reservations that are still open. *)
Definition open_amount (k : counter) (r : BudgetReservation) : Z :=
  if Reservation_Closed r then 0 else read_estimate k (Reservation_Estimate r).
Definition open_sum (k : counter) (rs : gmap string BudgetReservation) : Z :=
  map_fold (λ _ r acc, (open_amount k r + acc)%Z) 0%Z rs.

(** What a history settles: the actual usage of its successful [Settle]s. *)
Fixpoint settled_sum (k : counter) (ops : list op) (l : BudgetLedger) : Z :=
  match ops with
  | [] => 0
  | o :: rest =>
      (match o with
       | OpSettle id a => if is_ok (fst (Settle id a l)) then read_estimate k a else 0
       | _ => 0
       end + settled_sum k rest (run_op o l))%Z
  end.

(** ** Counter lemmas *)

Lemma read_applyEstimate k dst v sign :
  read_counters k (applyEstimate dst v sign)
  = wrap64 (read_counters k dst + sign * read_estimate k v).
Proof. destruct k; simpl; unfold add64, mul64; by rewrite wrap64_add_r. Qed.

Lemma read_nextCounters k st e :
  read_counters k (nextCounters st e)
  = wrap64 (read_counters k (Budget_Reserved st) + read_counters k (Budget_Consumed st)
            + read_estimate k e).
Proof. destruct k; simpl; unfold add64; by rewrite wrap64_add_l. Qed.

Lemma negative_false k e : negative e = false → (0 ≤ read_estimate k e)%Z.
Proof. unfold negative. intros H. go_props. by destruct k. Qed.

Lemma validate_within k c lim :
  validateCountersAgainstLimit c lim = Ok tt →
  (0 < read_limit k lim)%Z → (read_counters k c ≤ read_limit k lim)%Z.
Proof.
  unfold validateCountersAgainstLimit. intros H Hl. go_inv H; go_props.
  destruct k; simpl in *; lia.
Qed.

Lemma open_sum_insert k rs id r :
  rs !! id = None → open_sum k (<[id := r]> rs) = (open_amount k r + open_sum k rs)%Z.
Proof.
  intros H. unfold open_sum. rewrite map_fold_insert_L; [done| |done].
  intros. lia.
Qed.

Lemma open_sum_update k rs id r r' :
  rs !! id = Some r →
  open_sum k (<[id := r']> rs) = (open_sum k rs - open_amount k r + open_amount k r')%Z.
Proof.
  intros H. rewrite <- (insert_delete_id rs id r H) at 2.
  rewrite <- insert_delete_eq, !open_sum_insert by apply lookup_delete_eq. lia.
Qed.

(** ** What one operation does to the ledger *)

Definition mkReservation id e n est : BudgetReservation :=
  {| Reservation_ID := id; Reservation_ExecutionRef := e; Reservation_NodeRef := n;
     Reservation_Estimate := est; Reservation_Closed := false |}.

Lemma Reserve_cases id e n est l :
  (∃ err, Reserve id e n est l = (Err err, l))
  ∨ (id ≠ "" ∧ ledger_reservations l !! id = None ∧ negative est = false
     ∧ validateCountersAgainstLimit (nextCounters (ledger_state l) est)
         (Budget_Limit (ledger_state l)) = Ok tt
     ∧ Reserve id e n est l =
         (Ok (mkReservation id e n est),
          {| ledger_state := set_reserved (ledger_state l)
               (applyEstimate (Budget_Reserved (ledger_state l)) est 1);
             ledger_reservations :=
               <[id := mkReservation id e n est]> (ledger_reservations l) |})).
Proof.
  unfold Reserve. case_bool_decide; [by left; eexists|].
  destruct (_ !! id) eqn:?; [by left; eexists|].
  destruct (negative est) eqn:?; [by left; eexists|].
  destruct (validateCountersAgainstLimit _ _) as [[]|] eqn:?; [right|by left; eexists].
  done.
Qed.

Lemma Settle_cases id a l :
  (∃ err, Settle id a l = (Err err, l))
  ∨ (∃ r, ledger_reservations l !! id = Some r ∧ Reservation_Closed r = false
     ∧ negative a = false
     ∧ Settle id a l =
         (Ok tt,
          {| ledger_state := set_consumed
               (set_reserved (ledger_state l)
                  (applyEstimate (Budget_Reserved (ledger_state l)) (Reservation_Estimate r) (-1)))
               (applyEstimate (Budget_Consumed (ledger_state l)) a 1);
             ledger_reservations := <[id := close r]> (ledger_reservations l) |})).
Proof.
  unfold Settle. destruct (_ !! id) as [r|] eqn:?; [|by left; eexists].
  destruct (Reservation_Closed r) eqn:?; [by left; eexists|].
  destruct (negative a) eqn:?; [by left; eexists|]. right. eauto.
Qed.

Lemma Release_cases id l :
  (∃ err, Release id l = (Err err, l))
  ∨ (∃ r, ledger_reservations l !! id = Some r ∧ Reservation_Closed r = false
     ∧ Release id l =
         (Ok tt,
          {| ledger_state := set_reserved (ledger_state l)
               (applyEstimate (Budget_Reserved (ledger_state l)) (Reservation_Estimate r) (-1));
             ledger_reservations := <[id := close r]> (ledger_reservations l) |})).
Proof.
  unfold Release. destruct (_ !! id) as [r|] eqn:?; [|by left; eexists].
  destruct (Reservation_Closed r) eqn:?; [by left; eexists|]. right. eauto.
Qed.

(** Case analysis on one operation of a history. *)
Ltac op_cases o l :=
  destruct o as [id ? ? est|id act|id]; simpl;
  match goal with
  | |- context [Reserve ?i ?e ?n ?a l] =>
      destruct (Reserve_cases i e n a l) as [[? ->]|(Hid & Hnone & Hneg & Hlim & ->)]
  | |- context [Settle ?i ?a l] =>
      destruct (Settle_cases i a l) as [[? ->]|(r & Hr & Hopen & Hneg & ->)]
  | |- context [Release ?i l] =>
      destruct (Release_cases i l) as [[? ->]|(r & Hr & Hopen & ->)]
  end; simpl.

Lemma run_app ops1 ops2 l : run (ops1 ++ ops2) l = run ops2 (run ops1 l).
Proof. apply foldl_app. Qed.

Lemma limit_constant ops l :
  Budget_Limit (ledger_state (run ops l)) = Budget_Limit (ledger_state l).
Proof.
  revert l. induction ops as [|o ops IH]; intros l; [done|]. simpl. rewrite IH.
  op_cases o l; done.
Qed.

(** A reservation id, once used, stays in the ledger. *)
Lemma reservation_persists i ops l :
  is_Some (ledger_reservations l !! i) → is_Some (ledger_reservations (run ops l) !! i).
Proof.
  revert l. induction ops as [|o ops IH]; intros l Hi; [done|]. apply IH.
  op_cases o l; try done; (destruct (decide (id = i)) as [->|];
    [by rewrite lookup_insert_eq|by rewrite lookup_insert_ne]).
Qed.

Lemma Reserve_duplicate i e n est l :
  i ≠ "" → is_Some (ledger_reservations l !! i) →
  Reserve i e n est l = (Err (Errorf "reservation %q already exists" [AStr i]), l).
Proof. intros Hi [r Hr]. unfold Reserve. by rewrite bool_decide_eq_false_2, Hr. Qed.

(** ** Conservation *)

Definition reserved k (l : BudgetLedger) : Z := read_counters k (Budget_Reserved (ledger_state l)).
Definition consumed k (l : BudgetLedger) : Z := read_counters k (Budget_Consumed (ledger_state l)).

Lemma run_op_reserved k o l b :
  reserved k l = wrap64 (b + open_sum k (ledger_reservations l)) →
  reserved k (run_op o l) = wrap64 (b + open_sum k (ledger_reservations (run_op o l))).
Proof.
  unfold reserved. intros H.
  op_cases o l; try done; rewrite read_applyEstimate, H, wrap64_add_l;
    [rewrite open_sum_insert by done | |];
    try (rewrite (open_sum_update k _ _ r) by done); unfold open_amount; simpl;
    rewrite ?Hopen; f_equal; lia.
Qed.

Lemma run_consumed k ops l :
  consumed k (run ops l) = wrap64 (consumed k l + settled_sum k ops l)
  ∨ (consumed k (run ops l) = consumed k l ∧ settled_sum k ops l = 0%Z).
Proof.
  revert l. induction ops as [|o ops IH]; intros l; [right; simpl; done|].
  simpl run. specialize (IH (run_op o l)). revert IH. simpl settled_sum.
  destruct (decide (consumed k (run_op o l) = consumed k l
      ∧ match o with
        | OpSettle id a => if is_ok (fst (Settle id a l)) then read_estimate k a else 0%Z
        | _ => 0%Z end = 0%Z)) as [[-> ->]|Hne]; [done|].
  assert (consumed k (run_op o l) = wrap64 (consumed k l +
      match o with
        | OpSettle id a => if is_ok (fst (Settle id a l)) then read_estimate k a else 0%Z
        | _ => 0%Z end)) as ->.
  { revert Hne. unfold consumed. op_cases o l; try (intros Hne; by destruct Hne).
    intros _. by rewrite read_applyEstimate, Z.mul_1_l. }
  intros [->|[-> ->]]; left; [rewrite wrap64_add_l|]; f_equal; lia.
Qed.

Lemma run_reserved k ops l b :
  reserved k l = wrap64 (b + open_sum k (ledger_reservations l)) →
  reserved k (run ops l) = wrap64 (b + open_sum k (ledger_reservations (run ops l))).
Proof.
  revert l. induction ops as [|o ops IH]; intros l H; [done|].
  apply IH. by apply run_op_reserved.
Qed.

(** Conservation over any history of the ledger: for each integer counter,
    the reserved amount is (at 64 bits) the initial reserved amount plus the
    estimates of exactly the reservations that are still open, and the consumed
    amount is the initial one plus the actual usage of exactly the [Settle]
    calls that succeeded; nothing is lost or counted twice. *)
Theorem ledger_conservation k st ops :
  in_int64 (read_counters k (Budget_Reserved st)) →
  in_int64 (read_counters k (Budget_Consumed st)) →
  let l := run ops (NewBudgetLedger st) in
  reserved k l = wrap64 (read_counters k (Budget_Reserved st) + open_sum k (ledger_reservations l))
  ∧ consumed k l = wrap64 (read_counters k (Budget_Consumed st)
                           + settled_sum k ops (NewBudgetLedger st)).
Proof.
  intros Hr Hc l. split.
  - apply run_reserved. unfold reserved, open_sum; simpl.
    by rewrite map_fold_empty, Z.add_0_r, wrap64_id.
  - destruct (run_consumed k ops (NewBudgetLedger st)) as [H|[H ->]]; unfold l; rewrite H; [done|].
    by rewrite Z.add_0_r, wrap64_id.
Qed.

Definition limits (cost : float64) (n : Z) : BudgetLimit :=
  {| MaxCost := cost; MaxDuration := 0%Z; MaxNodeAttempts := n; MaxFrontierCalls := n;
     MaxToolCalls := n |}.
Definition zero_counters : AccountingCounters :=
  {| Counters_Cost := f_zero; Counters_NodeAttempts := 0; Counters_FrontierCalls := 0;
     Counters_ToolCalls := 0 |}.
Definition fresh_state (lim : BudgetLimit) : BudgetState :=
  {| Budget_Limit := lim; Budget_Reserved := zero_counters; Budget_Consumed := zero_counters |}.
Definition est_of (n : Z) : BudgetEstimate := mkBudgetEstimate (f_int n) n n n.
Definition sample_history : list op :=
  [OpReserve "r1" "e" "n1" (est_of 2); OpReserve "r2" "e" "n2" (est_of 3); OpReserve "r3" "e" "n3" (est_of 9);
   OpSettle "r1" (est_of 1); OpSettle "r1" (est_of 1); OpRelease "r2"; OpReserve "r4" "e" "n4" (est_of 4)].

Lemma ledger_conservation_witness :
  let l := run sample_history (NewBudgetLedger (fresh_state (limits (f_int 10) 10))) in
  reserved CToolCalls l = 4%Z ∧ consumed CToolCalls l = 1%Z.
Proof.
  destruct (ledger_conservation CToolCalls (fresh_state (limits (f_int 10) 10)) sample_history)
    as [Hr Hc]; [done..|]. split; [exact Hr|exact Hc].
Defined.

(** ** No overspending *)

(** The history's callers settle no more than they reserved and estimate no
    more than keeps the 64-bit sum of [Reserve] exact. *)
Fixpoint disciplined (k : counter) (ops : list op) (l : BudgetLedger) : bool :=
  match ops with
  | [] => true
  | o :: rest =>
      match o with
      | OpReserve _ _ _ e =>
          (read_estimate k e + read_limit k (Budget_Limit (ledger_state l)) <=? int_max)%Z
      | OpSettle id a =>
          match ledger_reservations l !! id with
          | Some r => (read_estimate k a <=? read_estimate k (Reservation_Estimate r))%Z
          | None => true
          end
      | OpRelease _ => true
      end && disciplined k rest (run_op o l)
  end.

(** The ledger's invariant for one counter, [b] being reserved elsewhere. *)
Record spends_within (k : counter) (b : Z) (l : BudgetLedger) : Prop := {
  sw_base : (0 ≤ b)%Z;
  sw_reserved : reserved k l = (b + open_sum k (ledger_reservations l))%Z;
  sw_estimates : map_Forall (λ _ r, (0 ≤ read_estimate k (Reservation_Estimate r))%Z)
                   (ledger_reservations l);
  sw_consumed : (0 ≤ consumed k l)%Z;
  sw_limit : (reserved k l + consumed k l ≤ read_limit k (Budget_Limit (ledger_state l)) ≤ int_max)%Z
}.

Lemma open_sum_nonneg k rs :
  map_Forall (λ _ r, (0 ≤ read_estimate k (Reservation_Estimate r))%Z) rs → (0 ≤ open_sum k rs)%Z.
Proof.
  induction rs as [|id r rs Hid IH] using map_ind; intros H.
  { unfold open_sum. by rewrite map_fold_empty. }
  rewrite open_sum_insert by done. apply map_Forall_insert in H as [Hr H]; [|done].
  specialize (IH H). unfold open_amount. case_match; lia.
Qed.

Lemma open_sum_closed k rs id r :
  rs !! id = Some r → Reservation_Closed r = false →
  open_sum k (<[id := close r]> rs)
  = (open_sum k rs - read_estimate k (Reservation_Estimate r))%Z.
Proof.
  intros Hr Ho. rewrite (open_sum_update k rs id r) by done. unfold open_amount.
  rewrite Ho. simpl. lia.
Qed.

(** Closing an open reservation gives back its estimate, without wrapping. *)
Lemma spends_close k b l id r :
  spends_within k b l → ledger_reservations l !! id = Some r → Reservation_Closed r = false →
  let rs := <[id := close r]> (ledger_reservations l) in
  map_Forall (λ _ r, (0 ≤ read_estimate k (Reservation_Estimate r))%Z) rs
  ∧ read_counters k (applyEstimate (Budget_Reserved (ledger_state l)) (Reservation_Estimate r) (-1))
    = (b + open_sum k rs)%Z
  ∧ (b + open_sum k rs)%Z = (reserved k l - read_estimate k (Reservation_Estimate r))%Z
  ∧ (0 ≤ read_estimate k (Reservation_Estimate r))%Z ∧ (0 ≤ open_sum k rs)%Z.
Proof.
  intros [Hb Hres Hest Hc [Hl1 Hl2]] Hr Ho rs.
  assert (Hf : map_Forall (λ _ r, (0 ≤ read_estimate k (Reservation_Estimate r))%Z) rs).
  { apply map_Forall_insert_2; [|done]. apply (Hest id r Hr). }
  pose proof (Hest id r Hr) as Hr0. simpl in Hr0.
  pose proof (open_sum_nonneg k rs Hf).
  pose proof (open_sum_closed k _ _ _ Hr Ho) as Heq. fold rs in Heq.
  assert (b + open_sum k rs = reserved k l - read_estimate k (Reservation_Estimate r))%Z by lia.
  split_and!; try done. rewrite read_applyEstimate. fold (reserved k l).
  rewrite wrap64_id; [lia|]. unfold in_int64, int_min, int_max in *. lia.
Qed.

Lemma spends_within_step k b o l :
  (0 < read_limit k (Budget_Limit (ledger_state l)))%Z →
  disciplined k [o] l = true → spends_within k b l → spends_within k b (run_op o l).
Proof.
  intros Hpos Hd Hsw. pose proof Hsw as [Hb Hres Hest Hc [Hl1 Hl2]].
  simpl in Hd. rewrite andb_true_r in Hd. revert Hd.
  op_cases o l; try done; intros Hd.
  - go_props. pose proof (negative_false k _ Hneg) as He.
    pose proof (validate_within k _ _ Hlim Hpos) as Hle. rewrite read_nextCounters in Hle.
    fold (reserved k l) (consumed k l) in Hle.
    pose proof (open_sum_nonneg k _ Hest).
    rewrite wrap64_id in Hle by (unfold in_int64, int_min in *; lia).
    assert (reserved k (mkBudgetLedger
        (set_reserved (ledger_state l) (applyEstimate (Budget_Reserved (ledger_state l)) est 1))
        (<[id:=mkReservation id executionRef nodeRef est]> (ledger_reservations l)))
      = reserved k l + read_estimate k est)%Z as Hr'.
    { unfold reserved; simpl. rewrite read_applyEstimate. fold (reserved k l).
      rewrite wrap64_id; unfold in_int64, int_min in *; lia. }
    split; try done.
    + rewrite Hr'; simpl. rewrite open_sum_insert by done. unfold open_amount; simpl. lia.
    + by apply map_Forall_insert_2.
    + rewrite Hr'. split; [|done]. unfold consumed in *; simpl in *. lia.
  - rewrite Hr in Hd. go_props. pose proof (negative_false k _ Hneg) as He.
    destruct (spends_close k b l id r Hsw Hr Hopen) as (Hf & Hrd & Heq & Hr0 & Hs0).
    assert (read_counters k (applyEstimate (Budget_Consumed (ledger_state l)) act 1)
            = consumed k l + read_estimate k act)%Z as Hc'.
    { rewrite read_applyEstimate. fold (consumed k l).
      rewrite wrap64_id; unfold in_int64, int_min in *; lia. }
    split; unfold reserved, consumed in *; simpl in *; try done; rewrite ?Hrd, ?Hc'; lia.
  - destruct (spends_close k b l id r Hsw Hr Hopen) as (Hf & Hrd & Heq & Hr0 & Hs0).
    split; unfold reserved, consumed in *; simpl in *; try done; rewrite ?Hrd; lia.
Qed.

Lemma spends_within_run k b ops l :
  (0 < read_limit k (Budget_Limit (ledger_state l)))%Z →
  disciplined k ops l = true → spends_within k b l → spends_within k b (run ops l).
Proof.
  revert l. induction ops as [|o ops IH]; intros l Hpos Hd Hsw; [done|].
  simpl in Hd. apply andb_true_iff in Hd as [Hd1 Hd2].
  pose proof (limit_constant [o] l) as Hlim. simpl in Hlim.
  apply IH; [by rewrite Hlim|done|]. apply spends_within_step; [done| |done].
  simpl. by rewrite andb_true_r.
Qed.

(** C14. A limited counter is never overspent: from a state within its limit,
    after any history whose callers settle no more than they reserved (and
    whose estimates stay clear of the 64-bit bound), reserved plus consumed is
    still within the limit, and neither is negative. *)
Theorem budget_never_overspent k st ops :
  let limit := read_limit k (Budget_Limit st) in
  (0 < limit ≤ int_max)%Z →
  (0 ≤ read_counters k (Budget_Reserved st))%Z → (0 ≤ read_counters k (Budget_Consumed st))%Z →
  (read_counters k (Budget_Reserved st) + read_counters k (Budget_Consumed st) ≤ limit)%Z →
  disciplined k ops (NewBudgetLedger st) = true →
  let l := run ops (NewBudgetLedger st) in
  (0 ≤ reserved k l ∧ 0 ≤ consumed k l ∧ reserved k l + consumed k l ≤ limit)%Z.
Proof.
  intros limit [Hpos Hmax] Hr Hc Hle Hd l.
  assert (spends_within k (read_counters k (Budget_Reserved st)) (NewBudgetLedger st)) as Hsw.
  { split; unfold reserved, consumed, open_sum; simpl; try done.
    rewrite map_fold_empty; lia. }
  destruct (spends_within_run k _ ops (NewBudgetLedger st) Hpos Hd Hsw) as [Hb Hres Hest Hc' [Hl _]].
  rewrite limit_constant in Hl. pose proof (open_sum_nonneg k _ Hest).
  unfold l, limit. simpl in Hl. lia.
Qed.

Lemma budget_never_overspent_witness :
  let l := run sample_history (NewBudgetLedger (fresh_state (limits (f_int 10) 10))) in
  (reserved CToolCalls l + consumed CToolCalls l ≤ 10)%Z.
Proof.
  destruct (budget_never_overspent CToolCalls (fresh_state (limits (f_int 10) 10)) sample_history)
    as (_ & _ & ?); done.
Defined.

(** ** A reservation is closed once *)

Definition is_closed (id : string) (l : BudgetLedger) : Prop :=
  ∃ r, ledger_reservations l !! id = Some r ∧ Reservation_Closed r = true.

Lemma is_closed_run i ops l : is_closed i l → is_closed i (run ops l).
Proof.
  revert l. induction ops as [|o ops IH]; intros l [r0 [Hr0 Hc0]]; [by exists r0|].
  apply IH. unfold is_closed.
  op_cases o l; try (by exists r0);
    (destruct (decide (id = i)) as [->|]; [congruence|
       exists r0; by rewrite lookup_insert_ne]).
Qed.

Lemma closed_refuses id l a :
  is_closed id l →
  Settle id a l = (Err ErrReservationClosed, l) ∧ Release id l = (Err ErrReservationClosed, l).
Proof. intros (r & Hr & Hc). unfold Settle, Release. by rewrite Hr, Hc. Qed.

Lemma Settle_closes id a l l' : Settle id a l = (Ok tt, l') → is_closed id l'.
Proof.
  destruct (Settle_cases id a l) as [[? ->]|(r & Hr & _ & _ & ->)]; [done|]. intros [= <-].
  exists (close r). split; [apply lookup_insert_eq|done].
Qed.

(** A reservation is closed exactly once: after a [Settle] or [Release] of
    it succeeded, then whatever else runs on the ledger, every later [Settle]
    or [Release] of the same id reports [ErrReservationClosed] and leaves the
    ledger untouched, and the id cannot be reserved again. *)
Theorem reservation_closes_once id l a o rest :
  (o = OpSettle id a ∧ is_ok (fst (Settle id a l)) = true)
  ∨ (o = OpRelease id ∧ is_ok (fst (Release id l)) = true) →
  let l' := run (o :: rest) l in
  (∀ a', Settle id a' l' = (Err ErrReservationClosed, l'))
  ∧ Release id l' = (Err ErrReservationClosed, l')
  ∧ ∀ e n est, is_ok (fst (Reserve id e n est l')) = false.
Proof.
  intros Ho l'.
  assert (is_closed id l') as Hc.
  { apply (is_closed_run id rest (run_op o l)). unfold is_closed.
    destruct Ho as [[-> Ho]|[-> Ho]]; revert Ho; simpl.
    - destruct (Settle_cases id a l) as [[? ->]|(r & Hr & _ & _ & ->)]; [done|].
      intros _. exists (close r). split; [apply lookup_insert_eq|done].
    - destruct (Release_cases id l) as [[? ->]|(r & Hr & _ & ->)]; [done|].
      intros _. exists (close r). split; [apply lookup_insert_eq|done]. }
  split_and!; [intros a'; by apply closed_refuses|by apply (closed_refuses id l' a)|].
  destruct Hc as (r & Hr & _). intros e n est. unfold Reserve. rewrite Hr.
  by case_bool_decide.
Qed.

Lemma reservation_closes_once_witness :
  let l := run [OpReserve "r1" "e" "n1" (est_of 2)] (NewBudgetLedger (fresh_state (limits (f_int 10) 10))) in
  let l' := run [OpSettle "r1" (est_of 1); OpReserve "r1" "e" "n1" (est_of 2)] l in
  Release "r1" l' = (Err ErrReservationClosed, l').
Proof.
  intros l. apply (reservation_closes_once "r1" l (est_of 1)). left. split; [done|reflexivity].
Defined.

(** ** Limits that do not hold *)

Lemma f_add_nan_l x : f_add f_nan x = f_nan.
Proof. reflexivity. Qed.
Lemma f_add_nan_r x : f_add x f_nan = f_nan.
Proof. by destruct x. Qed.
Lemma f_mul_nan_r x : f_mul x f_nan = f_nan.
Proof. by destruct x. Qed.
Lemma f_gt_nan x : f_gt f_nan x = false.
Proof. by destruct x. Qed.

Definition cost_poisoned (l : BudgetLedger) : Prop :=
  Counters_Cost (Budget_Reserved (ledger_state l)) = f_nan.

Lemma cost_poisoned_run ops l : cost_poisoned l → cost_poisoned (run ops l).
Proof.
  revert l. induction ops as [|o ops IH]; intros l H; [done|]. apply IH.
  unfold cost_poisoned in *. op_cases o l; try done; by rewrite H, f_add_nan_l.
Qed.

Definition without_cost_limit (lim : BudgetLimit) : BudgetLimit :=
  {| MaxCost := f_zero; MaxDuration := MaxDuration lim; MaxNodeAttempts := MaxNodeAttempts lim;
     MaxFrontierCalls := MaxFrontierCalls lim; MaxToolCalls := MaxToolCalls lim |}.

(** The cost limit does not survive a NaN estimate: [Reserve] accepts a
    cost that is not a number (it is neither negative nor above the limit), and
    from then on, whatever runs, the cost limit refuses nothing, neither in
    [Reserve] nor in [Exhausted]: every check comes out as if there were none. *)
Theorem nan_cost_disables_limit id e n est l rest :
  Estimate_Cost est = f_nan → is_ok (fst (Reserve id e n est l)) = true →
  let l' := run (OpReserve id e n est :: rest) l in
  let st := ledger_state l' in
  (∀ est', validateCountersAgainstLimit (nextCounters st est') (Budget_Limit st)
           = validateCountersAgainstLimit (nextCounters st est') (without_cost_limit (Budget_Limit st)))
  ∧ Exhausted l' = Exhausted (mkBudgetLedger
      {| Budget_Limit := without_cost_limit (Budget_Limit st); Budget_Reserved := Budget_Reserved st;
         Budget_Consumed := Budget_Consumed st |} (ledger_reservations l')).
Proof.
  intros Hn Hok l' st.
  assert (cost_poisoned l') as Hp.
  { apply (cost_poisoned_run rest (run_op (OpReserve id e n est) l)). unfold cost_poisoned. revert Hok. simpl.
    destruct (Reserve_cases id e n est l) as [[? ->]|(_ & _ & _ & _ & ->)]; [done|].
    intros _; simpl. by rewrite Hn, f_mul_nan_r, f_add_nan_r. }
  unfold cost_poisoned in Hp. fold st in Hp.
  assert (∀ est' x, f_gt (Counters_Cost (nextCounters st est')) x = false) as Hgt.
  { intros est' x. unfold nextCounters. cbn [Counters_Cost]. by rewrite Hp, !f_add_nan_l, f_gt_nan. }
  split.
  - intros est'. unfold validateCountersAgainstLimit. rewrite !Hgt. by rewrite !andb_false_r.
  - clearbody l'. subst st. unfold Exhausted, validateCountersAgainstLimit. cbn -[f_add f_gt].
    by rewrite Hp, f_add_nan_l, !f_gt_nan, !andb_false_r.
Qed.

Lemma nan_cost_disables_limit_witness :
  let l := NewBudgetLedger (fresh_state (limits (f_int 10) 10)) in
  let l' := run [OpReserve "r1" "e" "n1" (mkBudgetEstimate f_nan 1 0 0)] l in
  is_ok (fst (Reserve "r2" "e" "n2" (mkBudgetEstimate (f_int 1000) 1 0 0) l')) = true
  ∧ ∀ est', validateCountersAgainstLimit (nextCounters (ledger_state l') est') (limits (f_int 10) 10)
            = validateCountersAgainstLimit (nextCounters (ledger_state l') est')
                (without_cost_limit (limits (f_int 10) 10)).
Proof.
  intros l l'. split; [reflexivity|].
  apply (nan_cost_disables_limit "r1" "e" "n1" (mkBudgetEstimate f_nan 1 0 0) l []); reflexivity.
Defined.

(** The 64-bit sum of [Reserve] wraps: with a limit of ten tool calls and one
    reserved, an estimate of 2^63-1 calls is accepted. *)
Example overflow_accepted :
  is_ok (fst (Reserve "r2" "e" "n" (mkBudgetEstimate f_zero 0 0 int_max)
    (run [OpReserve "r1" "e" "n" (mkBudgetEstimate f_zero 0 0 1)]
       (NewBudgetLedger (fresh_state (limits f_zero 10)))))) = true.
Proof. reflexivity. Qed.

End Budget.
