(* ===== verification/Supervisor.v ===== *)
(** * Supervisor: choosing the nodes of a plan that may run

    [src/execution/supervisor.go].  The policy evaluator, the target resolver
    and the cost estimator are interfaces the kernel is given; they are the
    section's parameters, functions of the execution and the node as
    [PrepareRunnable] documents ("deterministic/side-effect-free").  [errText]
    is [error.Error()], which the code copies into the reason of a condition.
    The plan's nodes are sorted by id; where ids repeat (which [ValidatePlan]
    refuses) Go leaves the order of equal ids open and the model keeps the
    plan's. *)
From stdpp Require Import pretty.
From S2P Require Import Prelude ExecTypes ExecState ExecPlan Budget.

Module Supervisor.
Import ExecPlan Budget.

Definition ErrExecutionNotRunnable : error :=
  Sentinel "ErrExecutionNotRunnable" "execution is not runnable".
Definition ErrPlanNotReady : error := Sentinel "ErrPlanNotReady" "plan has no runnable nodes".
Definition ErrPolicyApproval_text : string := "policy requires approval".
Definition ErrPolicyRejected_text : string := "policy denied action".

Record PreparedNode : Type := mkPreparedNode {
  Prepared_Node : ExecutionNode;
  Prepared_Target : ExecutionTarget;
  Prepared_Policy : PolicyDecisionRecord;
  Prepared_Estimate : BudgetEstimate
}.

Record ReadyNode : Type := mkReadyNode {
  Ready_Node : ExecutionNode;
  Ready_Target : ExecutionTarget;
  Ready_Policy : PolicyDecisionRecord;
  Ready_Reservation : option BudgetReservation
}.

(** [runtimes[id]]: the zero value when the key is absent. *)
Definition runtime_at (runtimes : gmap NodeID NodeState) (id : NodeID) : NodeState :=
  default NodeStateZero (runtimes !! id).

Definition dependenciesSucceeded (node : ExecutionNode) (runtimes : gmap NodeID NodeState) : bool :=
  forallb (λ dep, runtime_at runtimes dep ==? NodeSucceeded) (Node_DependsOn node).

Definition active_or_waiting (s : NodeState) : bool :=
  match s with NodeRunning | NodeWaitingApproval | NodeBlocked => true | _ => false end.

Definition hasActiveOrWaitingNodes (runtimes : gmap NodeID NodeState) : bool :=
  existsb (λ kv, active_or_waiting kv.2) (map_to_list runtimes).

Definition nextAttemptNumber (_ : NodeID) (_ : gmap NodeID NodeState) : Z := 1%Z.

Definition condition (t : ConditionType) (node : NodeID) (reason : string) : ExecutionCondition :=
  {| Condition_Type := t; Condition_Status := true; Condition_NodeRef := node;
     Condition_Reason := reason; Condition_UpdatedAt := 0%Z |}.

(** Go compares strings byte by byte, as [String.le] does. *)
Definition id_le (a b : ExecutionNode) : Prop := String.le (Node_ID a) (Node_ID b).
#[export] Instance id_le_dec a b : Decision (id_le a b) := decide (String.le _ _).

(** [sort.Slice] is not stable: between nodes of equal ids, which [ValidatePlan]
    excludes, this fixes one of the orders it may produce. *)
Definition sortNodes (nodes : list ExecutionNode) : list ExecutionNode := merge_sort id_le nodes.

(** The state the loop sees: absent and empty states count as PENDING. *)
Definition effective_state (runtimes : gmap NodeID NodeState) (id : NodeID) : NodeState :=
  if runtime_at runtimes id ==? NodeStateZero then NodePending else runtime_at runtimes id.

Definition PolicyDecision_string (d : PolicyDecision) : string :=
  match d with
  | PolicyAllow => "ALLOW"
  | PolicyDeny => "DENY"
  | PolicyRequireApproval => "REQUIRE_APPROVAL"
  | PolicyDecisionOther s => s
  end.

Section supervisor.
Variable Evaluate : Execution → ExecutionNode → result PolicyDecisionRecord.
Variable Resolve : Execution → ExecutionNode → result ExecutionTarget.
Variable Estimate : Execution → ExecutionNode → ExecutionTarget → result BudgetEstimate.
Variable errText : error → string.

(** The loop of [PrepareRunnable]: [Err] carries the conditions collected when
    the loop returns early. *)
Fixpoint prepare_loop (execution : Execution) (runtimes : gmap NodeID NodeState)
    (nodes : list ExecutionNode) (prepared : list PreparedNode)
    (conditions : list ExecutionCondition)
    : list PreparedNode * list ExecutionCondition * option error :=
  match nodes with
  | [] => (prepared, conditions, None)
  | node :: rest =>
      let state := effective_state runtimes (Node_ID node) in
      if (state !=? NodePending) && (state !=? NodeReady)
      then prepare_loop execution runtimes rest prepared conditions
      else if negb (dependenciesSucceeded node runtimes)
      then prepare_loop execution runtimes rest prepared conditions
      else match Evaluate execution node with
      | Err e => ([], conditions, Some (Errorw "policy evaluate node %s: %w" [AStr (Node_ID node)] e))
      | Ok policy =>
          match Policy_Decision policy with
          | PolicyDeny =>
              prepare_loop execution runtimes rest prepared
                (conditions ++ [condition ConditionPartiallyBlocked (Node_ID node) ErrPolicyRejected_text])
          | PolicyRequireApproval =>
              prepare_loop execution runtimes rest prepared
                (conditions ++ [condition ConditionApprovalRequired (Node_ID node) ErrPolicyApproval_text])
          | PolicyDecisionOther s =>
              ([], conditions, Some (Errorf "node %s returned unknown policy decision %q"
                                      [AStr (Node_ID node); AStr s]))
          | PolicyAllow =>
              match Resolve execution node with
              | Err e =>
                  prepare_loop execution runtimes rest prepared
                    (conditions ++ [condition ConditionTargetDegraded (Node_ID node) (errText e)])
              | Ok target =>
                  match Estimate execution node target with
                  | Err e => ([], conditions, Some (Errorw "estimate node %s: %w" [AStr (Node_ID node)] e))
                  | Ok estimate =>
                      prepare_loop execution runtimes rest
                        (prepared ++ [mkPreparedNode node target policy estimate]) conditions
                  end
              end
          end
      end
  end.

Definition PrepareRunnable (execution : Execution) (plan : ExecutionPlan)
    (runtimes : gmap NodeID NodeState)
    : list PreparedNode * list ExecutionCondition * option error :=
  let phase := Status_Phase (Execution_Status execution) in
  if (phase !=? ExecutionRunning) && (phase !=? ExecutionReady)
  then ([], [], Some ErrExecutionNotRunnable)
  else match prepare_loop execution runtimes (sortNodes (Plan_Nodes plan)) [] [] with
  | (_, conditions, Some e) => ([], conditions, Some e)
  | (prepared, conditions, None) =>
      if bool_decide (length prepared = 0) && bool_decide (length conditions = 0)
      then if hasActiveOrWaitingNodes runtimes then ([], [], None)
           else ([], [], Some ErrPlanNotReady)
      else (prepared, conditions, None)
  end.

Definition reservationID (execution : Execution) (runtimes : gmap NodeID NodeState) (node : NodeID)
    : string :=
  Execution_ID execution +:+ "/" +:+ node +:+ "/" +:+ pretty (nextAttemptNumber node runtimes).

Fixpoint select_loop (execution : Execution) (runtimes : gmap NodeID NodeState)
    (prepared : list PreparedNode) (ready : list ReadyNode) (conditions : list ExecutionCondition)
    (l : BudgetLedger)
    : (list ReadyNode * list ExecutionCondition * option error) * BudgetLedger :=
  match prepared with
  | [] => ((ready, conditions, None), l)
  | candidate :: rest =>
      let node := Node_ID (Prepared_Node candidate) in
      match Reserve (reservationID execution runtimes node) (Execution_ID execution) node
              (Prepared_Estimate candidate) l with
      | (Err e, l') =>
          if errors_Is e "ErrBudgetExceeded"
          then select_loop execution runtimes rest ready
                 (conditions ++ [condition ConditionBudgetPressure node (errText e)]) l'
          else (([], conditions, Some e), l')
      | (Ok reservation, l') =>
          select_loop execution runtimes rest
            (ready ++ [mkReadyNode (Prepared_Node candidate) (Prepared_Target candidate)
                         (Prepared_Policy candidate) (Some reservation)]) conditions l'
      end
  end.

Definition SelectRunnable (execution : Execution) (plan : ExecutionPlan)
    (runtimes : gmap NodeID NodeState) (l : BudgetLedger)
    : (list ReadyNode * list ExecutionCondition * option error) * BudgetLedger :=
  match PrepareRunnable execution plan runtimes with
  | (_, conditions, Some e) => (([], conditions, Some e), l)
  | (prepared, conditions, None) => select_loop execution runtimes prepared [] conditions l
  end.

(** ** What the scheduler should do with one node *)

(** A node that may be scheduled now: PENDING or READY with every dependency
    SUCCEEDED. *)
Definition schedulable (runtimes : gmap NodeID NodeState) (node : ExecutionNode) : Prop :=
  (effective_state runtimes (Node_ID node) = NodePending
   ∨ effective_state runtimes (Node_ID node) = NodeReady)
  ∧ ∀ d, d ∈ Node_DependsOn node → runtimes !! d = Some NodeSucceeded.

(** [p] is what a schedulable node becomes when policy allows it and its
    target and estimate are found. *)
Definition prepares (execution : Execution) (node : ExecutionNode) (p : PreparedNode) : Prop :=
  ∃ policy target estimate,
    Evaluate execution node = Ok policy ∧ Policy_Decision policy = PolicyAllow
    ∧ Resolve execution node = Ok target ∧ Estimate execution node target = Ok estimate
    ∧ p = mkPreparedNode node target policy estimate.

(** [c] is the condition a schedulable node raises instead. *)
Inductive raises (execution : Execution) (node : ExecutionNode) : ExecutionCondition → Prop :=
| raises_denied policy :
    Evaluate execution node = Ok policy → Policy_Decision policy = PolicyDeny →
    raises execution node (condition ConditionPartiallyBlocked (Node_ID node) ErrPolicyRejected_text)
| raises_approval policy :
    Evaluate execution node = Ok policy → Policy_Decision policy = PolicyRequireApproval →
    raises execution node (condition ConditionApprovalRequired (Node_ID node) ErrPolicyApproval_text)
| raises_degraded policy e :
    Evaluate execution node = Ok policy → Policy_Decision policy = PolicyAllow →
    Resolve execution node = Err e →
    raises execution node (condition ConditionTargetDegraded (Node_ID node) (errText e)).

Lemma dependenciesSucceeded_iff node runtimes :
  dependenciesSucceeded node runtimes = true
  ↔ ∀ d, d ∈ Node_DependsOn node → runtimes !! d = Some NodeSucceeded.
Proof.
  unfold dependenciesSucceeded. rewrite forallb_forall. unfold runtime_at.
  setoid_rewrite <- list_elem_of_In. apply forall_proper; intros d.
  rewrite bool_decide_eq_true. destruct (runtimes !! d) as [s|]; simpl; naive_solver.
Qed.

Lemma schedulable_guards runtimes node :
  schedulable runtimes node ↔
  ((effective_state runtimes (Node_ID node) !=? NodePending)
   && (effective_state runtimes (Node_ID node) !=? NodeReady)) = false
  ∧ dependenciesSucceeded node runtimes = true.
Proof.
  unfold schedulable. rewrite dependenciesSucceeded_iff, andb_false_iff, !negb_false_iff,
    !bool_decide_eq_true. done.
Qed.

(** What the loop adds for one node: its outcome is determined. *)
Definition outcome (execution : Execution) (runtimes : gmap NodeID NodeState) (node : ExecutionNode)
    (p : option PreparedNode) (c : option ExecutionCondition) : Prop :=
  (∀ p', schedulable runtimes node ∧ prepares execution node p' ↔ p = Some p')
  ∧ (∀ c', schedulable runtimes node ∧ raises execution node c' ↔ c = Some c')
  ∧ (∀ p', p = Some p' → Prepared_Node p' = node)
  ∧ (schedulable runtimes node → is_Some p ∨ is_Some c).

Lemma prepare_loop_cons execution runtimes node rest prepared conditions prepared' conditions' :
  prepare_loop execution runtimes (node :: rest) prepared conditions = (prepared', conditions', None) →
  ∃ p c, outcome execution runtimes node p c
  ∧ prepare_loop execution runtimes rest (prepared ++ option_list p) (conditions ++ option_list c)
    = (prepared', conditions', None).
Proof.
  assert (∀ P Q : Prop, ¬ P → (P ∧ Q ↔ False)) as Hno by tauto.
  simpl. intros H. unfold outcome. setoid_rewrite schedulable_guards.
  destruct (_ && _) eqn:Hst.
  { exists None, None. rewrite !app_nil_r. naive_solver. }
  destruct (dependenciesSucceeded node runtimes); simpl in H.
  2: { exists None, None. rewrite !app_nil_r. naive_solver. }
  destruct (Evaluate execution node) as [policy|] eqn:He; [|done].
  destruct (Policy_Decision policy) eqn:Hd; [| | |done].
  - destruct (Resolve execution node) as [target|e] eqn:Hr.
    + destruct (Estimate execution node target) as [estimate|] eqn:Hc; [|done].
      exists (Some (mkPreparedNode node target policy estimate)), None.
      rewrite app_nil_r. split; [|done]. split_and!; [|intros c'; split; [|done]|naive_solver|eauto].
      * intros p'. split; [intros [_ (?&?&?&?&?&?&?&->)]; congruence|]. intros [= <-].
        split; [done|]. by exists policy, target, estimate.
      * intros [_ Hx]. destruct Hx; congruence.
    + exists None, (Some (condition ConditionTargetDegraded (Node_ID node) (errText e))).
      rewrite app_nil_r. split; [|done]. split_and!; [|intros c'|done|eauto].
      * intros p'. split; [intros [_ (?&?&?&?&?&?&?&->)]; congruence|done].
      * split; [intros [_ Hx]; destruct Hx; congruence|]. intros [= <-]. split; [done|].
        by eapply raises_degraded.
  - exists None. eexists (Some _). rewrite app_nil_r. split; [|exact H]. split_and!; [|intros c'|done|eauto].
    + intros p'. split; [intros [_ (?&?&?&?&?&?&?&->)]; congruence|done].
    + split; [intros [_ Hx]; destruct Hx; congruence|]. intros [= <-]. split; [done|].
      by eapply raises_denied.
  - exists None. eexists (Some _). rewrite app_nil_r. split; [|exact H]. split_and!; [|intros c'|done|eauto].
    + intros p'. split; [intros [_ (?&?&?&?&?&?&?&->)]; congruence|done].
    + split; [intros [_ Hx]; destruct Hx; congruence|]. intros [= <-]. split; [done|].
      by eapply raises_approval.
Qed.

Lemma prepare_loop_spec execution runtimes nodes prepared conditions prepared' conditions' :
  prepare_loop execution runtimes nodes prepared conditions = (prepared', conditions', None) →
  ∃ ps cs, prepared' = prepared ++ ps ∧ conditions' = conditions ++ cs
  ∧ (Prepared_Node <$> ps) `sublist_of` nodes
  ∧ (∀ p, p ∈ ps ↔ ∃ node, node ∈ nodes ∧ schedulable runtimes node ∧ prepares execution node p)
  ∧ (∀ c, c ∈ cs ↔ ∃ node, node ∈ nodes ∧ schedulable runtimes node ∧ raises execution node c)
  ∧ (∀ node, node ∈ nodes → schedulable runtimes node →
       (∃ p, prepares execution node p) ∨ ∃ c, raises execution node c).
Proof.
  revert prepared conditions. induction nodes as [|node rest IH]; intros prepared conditions H.
  { simplify_eq/=. exists [], []. rewrite !app_nil_r. set_solver. }
  apply prepare_loop_cons in H as (p & c & (Hp & Hc & Hn & Hany) & H).
  apply IH in H as (ps & cs & -> & -> & Hsub & Hps & Hcs & Hall).
  exists (option_list p ++ ps), (option_list c ++ cs). rewrite !app_assoc.
  split_and!; try done.
  - destruct p as [p'|]; simpl; [|by apply sublist_cons].
    rewrite (Hn p') by done. by apply sublist_skip.
  - intros q. rewrite elem_of_app, Hps. setoid_rewrite elem_of_cons.
    assert (q ∈ option_list p ↔ schedulable runtimes node ∧ prepares execution node q) as ->.
    { rewrite Hp. destruct p; simpl; rewrite ?list_elem_of_singleton; set_solver. }
    naive_solver.
  - intros q. rewrite elem_of_app, Hcs. setoid_rewrite elem_of_cons.
    assert (q ∈ option_list c ↔ schedulable runtimes node ∧ raises execution node q) as ->.
    { rewrite Hc. destruct c; simpl; rewrite ?list_elem_of_singleton; set_solver. }
    naive_solver.
  - intros m [->|Hm]%elem_of_cons Hs; [|by apply Hall].
    destruct (Hany Hs) as [[q Hq]|[q Hq]]; [left|right]; exists q; [by apply Hp|by apply Hc].
Qed.

Lemma elem_of_sortNodes node nodes : node ∈ sortNodes nodes ↔ node ∈ nodes.
Proof. unfold sortNodes. by rewrite merge_sort_Permutation. Qed.

#[local] Instance id_le_total : Total id_le.
Proof. intros a b. unfold id_le. apply (total String.le). Qed.
#[local] Instance id_le_trans : Transitive id_le.
Proof. intros a b c. unfold id_le. apply transitivity. Qed.

Lemma StronglySorted_sublist {A} (R : A → A → Prop) l k :
  l `sublist_of` k → StronglySorted R k → StronglySorted R l.
Proof.
  induction 1 as [|x l k Hs IH|x l k Hs IH]; intros Hk; [done|..]; inversion_clear Hk; auto.
  constructor; [auto|]. apply Forall_forall. intros y Hy.
  eapply Forall_forall; [eassumption|]. eapply elem_of_submseteq; [exact Hy|].
  by apply sublist_submseteq.
Qed.

(** The loop ran to its end and [PrepareRunnable] reports what it found. *)
Lemma PrepareRunnable_loop execution plan runtimes prepared conditions :
  prepare_loop execution runtimes (sortNodes (Plan_Nodes plan)) [] [] = (prepared, conditions, None) →
  (∀ p, p ∈ prepared ↔ ∃ node, node ∈ Plan_Nodes plan ∧ schedulable runtimes node
                               ∧ prepares execution node p)
  ∧ (∀ c, c ∈ conditions ↔ ∃ node, node ∈ Plan_Nodes plan ∧ schedulable runtimes node
                                   ∧ raises execution node c)
  ∧ StronglySorted id_le (Prepared_Node <$> prepared)
  ∧ (∀ node, node ∈ Plan_Nodes plan → schedulable runtimes node →
       (∃ p, prepares execution node p) ∨ ∃ c, raises execution node c).
Proof.
  intros H. apply prepare_loop_spec in H as (ps & cs & -> & -> & Hsub & Hps & Hcs & Hall).
  simpl. setoid_rewrite elem_of_sortNodes in Hps. setoid_rewrite elem_of_sortNodes in Hcs.
  setoid_rewrite elem_of_sortNodes in Hall. split_and!; try done.
  eapply StronglySorted_sublist; [exact Hsub|]. apply StronglySorted_merge_sort; apply _.
Qed.

Lemma PrepareRunnable_inv execution plan runtimes prepared conditions e :
  PrepareRunnable execution plan runtimes = (prepared, conditions, e) →
  e = None ∨ e = Some ErrPlanNotReady →
  (Status_Phase (Execution_Status execution) = ExecutionRunning
   ∨ Status_Phase (Execution_Status execution) = ExecutionReady)
  ∧ prepare_loop execution runtimes (sortNodes (Plan_Nodes plan)) [] [] = (prepared, conditions, None)
  ∧ (e = Some ErrPlanNotReady →
     prepared = [] ∧ conditions = [] ∧ hasActiveOrWaitingNodes runtimes = false).
Proof.
  unfold PrepareRunnable. intros H He.
  destruct (_ && _) eqn:Hphase; [naive_solver|].
  destruct (prepare_loop _ _ _ _ _) as [[ps cs] [e'|]] eqn:Hl.
  { exfalso. simplify_eq. destruct He as [|[= ->]]; [done|]. clear -Hl.
    revert Hl. generalize (@nil PreparedNode), (@nil ExecutionCondition).
    induction (sortNodes (Plan_Nodes plan)) as [|n ns IH]; intros a b Hl; simpl in Hl; [done|].
    repeat case_match; simplify_eq; eauto. }
  assert (Status_Phase (Execution_Status execution) = ExecutionRunning
   ∨ Status_Phase (Execution_Status execution) = ExecutionReady) as Hp.
  { go_props. destruct Hphase; go_props; auto. }
  clear Hphase.
  destruct (_ && _) eqn:Hlen; [|by simplify_eq].
  apply andb_true_iff in Hlen as [H1 H2]. apply bool_decide_eq_true in H1, H2.
  apply nil_length_inv in H1 as ->. apply nil_length_inv in H2 as ->.
  destruct (hasActiveOrWaitingNodes runtimes) eqn:?; by simplify_eq.
Qed.

(** What [PrepareRunnable] prepares, exactly.  When it returns without an
    error the execution is READY or RUNNING; a node is prepared if and only if
    it is a node of the plan in state PENDING or READY whose dependencies have
    all SUCCEEDED, that policy allows, whose target resolves and whose cost is
    estimated, and it is prepared with exactly that policy record, target and
    estimate; a condition is reported if and only if such a node was denied,
    needs approval or has no target; and the nodes come in the order of their
    ids. *)
Theorem PrepareRunnable_correct execution plan runtimes prepared conditions :
  PrepareRunnable execution plan runtimes = (prepared, conditions, None) →
  (Status_Phase (Execution_Status execution) = ExecutionRunning
   ∨ Status_Phase (Execution_Status execution) = ExecutionReady)
  ∧ (∀ p, p ∈ prepared ↔ ∃ node, node ∈ Plan_Nodes plan ∧ schedulable runtimes node
                                 ∧ prepares execution node p)
  ∧ (∀ c, c ∈ conditions ↔ ∃ node, node ∈ Plan_Nodes plan ∧ schedulable runtimes node
                                   ∧ raises execution node c)
  ∧ StronglySorted id_le (Prepared_Node <$> prepared).
Proof.
  intros H. apply PrepareRunnable_inv in H as (Hp & Hl & _); [|by left].
  apply PrepareRunnable_loop in Hl as (? & ? & ? & _). done.
Qed.

Lemma hasActiveOrWaitingNodes_false runtimes id s :
  hasActiveOrWaitingNodes runtimes = false → runtimes !! id = Some s → active_or_waiting s = false.
Proof.
  intros H Hs. destruct (active_or_waiting s) eqn:Ha; [|done]. rewrite <- H. symmetry.
  apply existsb_exists. exists (id, s). split; [|done]. by apply list_elem_of_In, elem_of_map_to_list.
Qed.

(** A node that ended, or whose recorded state is not one the kernel knows. *)
Definition dead (s : NodeState) : Prop :=
  s = NodeFailed ∨ s = NodeSkipped ∨ s = NodeCancelled ∨ ∃ x, s = NodeStateOther x ∧ x ≠ "".

(** The scheduler of a valid plan does not deadlock: when it reports that
    nothing is runnable ([ErrPlanNotReady]), either every node of the plan has
    SUCCEEDED or some node of it ended otherwise (FAILED, SKIPPED, CANCELLED or
    an unknown state); a plan whose nodes are all still pending, ready or
    succeeded always offers a node or a condition. *)
Theorem scheduler_never_stuck execution plan runtimes prepared conditions :
  well_formed plan →
  PrepareRunnable execution plan runtimes = (prepared, conditions, Some ErrPlanNotReady) →
  (∀ node, node ∈ Plan_Nodes plan → runtimes !! Node_ID node = Some NodeSucceeded)
  ∨ ∃ node s, node ∈ Plan_Nodes plan ∧ runtimes !! Node_ID node = Some s ∧ dead s.
Proof.
  intros Hwf H. apply PrepareRunnable_inv in H as (_ & Hl & Hd); [|by right].
  destruct (Hd eq_refl) as (-> & -> & Hact). apply PrepareRunnable_loop in Hl as (Hp & Hc & _ & Hall).
  set (finished id := bool_decide (runtimes !! id = Some NodeSucceeded)).
  destruct (decide (Exists (λ n, finished (Node_ID n) = false) (Plan_Nodes plan))) as [Hex|Hex].
  2: { left. intros n Hn. destruct (finished (Node_ID n)) eqn:Hf.
       - by apply bool_decide_eq_true in Hf.
       - exfalso. apply Hex, Exists_exists. eauto. }
  right. apply Exists_exists in Hex as (n0 & Hn0 & Hf0).
  destruct (well_formed_progress plan finished Hwf) as (n & Hn & Hf & Hdeps); [eauto|].
  apply bool_decide_eq_false in Hf.
  assert (¬ schedulable runtimes n) as Hns.
  { intros Hs. destruct (Hall n Hn Hs) as [[p Hq]|[c Hq]].
    - apply (not_elem_of_nil p), Hp. eauto.
    - apply (not_elem_of_nil c), Hc. eauto. }
  assert (∀ d, d ∈ Node_DependsOn n → runtimes !! d = Some NodeSucceeded) as Hds.
  { intros d Hd'. by apply Hdeps, bool_decide_eq_true in Hd'. }
  unfold schedulable, effective_state, runtime_at in Hns.
  destruct (runtimes !! Node_ID n) as [s|] eqn:Hs; simpl in Hns; [|naive_solver].
  exists n, s. pose proof (hasActiveOrWaitingNodes_false _ _ _ Hact Hs) as Ha.
  split_and!; [done..|]. unfold dead.
  case_bool_decide as Hz; [naive_solver|]. destruct s; naive_solver.
Qed.

(** ** [SelectRunnable] and the ledger *)

Lemma reservationID_nonempty execution runtimes node : reservationID execution runtimes node ≠ "".
Proof. unfold reservationID. by destruct (Execution_ID execution). Qed.

Definition reservation_of (r : ReadyNode) (res : BudgetReservation) : Prop :=
  Ready_Reservation r = Some res ∧ Reservation_NodeRef res = Node_ID (Ready_Node r)
  ∧ Reservation_Closed res = false.

Lemma select_loop_spec execution runtimes prepared ready conditions l ready' conditions' l' :
  select_loop execution runtimes prepared ready conditions l = ((ready', conditions', None), l') →
  ∃ rs, ready' = ready ++ rs
  ∧ (∀ id res, ledger_reservations l' !! id = Some res ↔
       ledger_reservations l !! id = Some res
       ∨ (ledger_reservations l !! id = None
          ∧ ∃ r, r ∈ rs ∧ reservation_of r res
                 ∧ id = reservationID execution runtimes (Node_ID (Ready_Node r))))
  ∧ (∀ r, r ∈ rs → (∃ p, p ∈ prepared ∧ Ready_Node r = Prepared_Node p
                         ∧ Ready_Target r = Prepared_Target p ∧ Ready_Policy r = Prepared_Policy p
                         ∧ Reservation_Estimate <$> Ready_Reservation r = Some (Prepared_Estimate p))
       ∧ ∃ res, reservation_of r res
         ∧ ledger_reservations l' !! reservationID execution runtimes (Node_ID (Ready_Node r)) = Some res).
Proof.
  revert ready conditions l. induction prepared as [|p prepared IH]; intros ready conditions l H.
  { simplify_eq/=. exists []. rewrite app_nil_r. set_solver. }
  simpl in H.
  set (i := reservationID execution runtimes (Node_ID (Prepared_Node p))) in *.
  destruct (Reserve_cases i (Execution_ID execution) (Node_ID (Prepared_Node p))
              (Prepared_Estimate p) l) as [[e He]|(Hid & Hnone & _ & _ & He)]; rewrite He in H.
  - destruct (errors_Is e _); [|done]. apply IH in H as (rs & -> & Hl & Hr).
    exists rs. split_and!; [done..|]. intros r Hin. destruct (Hr r Hin) as [(q & Hq & ?) ?].
    split; [|done]. exists q. by rewrite elem_of_cons; auto.
  - apply IH in H as (rs & -> & Hl & Hr). set (r0 := mkReadyNode _ _ _ _) in *.
    exists (r0 :: rs). rewrite <- app_assoc. split_and!; [done|..].
    + intros id res. rewrite Hl. simpl. destruct (decide (id = i)) as [->|Hne].
      * rewrite lookup_insert_eq, Hnone. split.
        -- intros [[= <-]|[? _]]; [|done]. right. split; [done|]. exists r0.
           rewrite elem_of_cons. split_and!; auto. by unfold reservation_of.
        -- intros [?|(_ & r & Hin & (Hr1 & Hr2) & Hr3)]; [done|]. left.
           apply elem_of_cons in Hin as [->|Hin]; [by simplify_eq/=|].
           destruct (Hr r Hin) as (_ & res' & (Hr4 & _) & Hr5). rewrite <- Hr3 in Hr5.
           rewrite Hl in Hr5. simpl in Hr5. rewrite lookup_insert_eq in Hr5.
           destruct Hr5 as [|[? _]]; [|done]. congruence.
      * rewrite lookup_insert_ne by done. setoid_rewrite elem_of_cons. naive_solver.
    + intros r [->|Hin]%elem_of_cons.
      * split; [exists p; rewrite elem_of_cons; by auto|].
        eexists. split; [by unfold reservation_of|]. apply Hl. left. apply lookup_insert_eq.
      * destruct (Hr r Hin) as [(q & Hq & ?) ?]. split; [|done]. exists q. rewrite elem_of_cons; auto.
Qed.

(** Every node [SelectRunnable] hands out owns an open reservation, and no
    other reservation appears: when it returns without an error, each ready
    node is one [PrepareRunnable] prepared (same node, target and policy), its
    reservation carries the prepared estimate and is open in the ledger under
    the id derived from the execution and the node, and the ledger's
    reservations are the old ones plus exactly those. *)
Theorem SelectRunnable_reserves execution plan runtimes l ready conditions l' :
  SelectRunnable execution plan runtimes l = ((ready, conditions, None), l') →
  (∀ r, r ∈ ready →
     (∃ p, p ∈ fst (fst (PrepareRunnable execution plan runtimes))
           ∧ Ready_Node r = Prepared_Node p ∧ Ready_Target r = Prepared_Target p
           ∧ Ready_Policy r = Prepared_Policy p
           ∧ Reservation_Estimate <$> Ready_Reservation r = Some (Prepared_Estimate p))
     ∧ ∃ res, reservation_of r res
       ∧ ledger_reservations l' !! reservationID execution runtimes (Node_ID (Ready_Node r)) = Some res)
  ∧ ∀ id res, ledger_reservations l' !! id = Some res ↔
       ledger_reservations l !! id = Some res
       ∨ (ledger_reservations l !! id = None
          ∧ ∃ r, r ∈ ready ∧ reservation_of r res
                 ∧ id = reservationID execution runtimes (Node_ID (Ready_Node r))).
Proof.
  unfold SelectRunnable. destruct (PrepareRunnable _ _ _) as [[ps cs] [e|]]; [done|]. simpl. intros H.
  apply select_loop_spec in H as (rs & -> & Hl & Hr). simpl. auto.
Qed.

Lemma select_loop_duplicate execution runtimes prepared ready conditions l :
  (∃ p, p ∈ prepared
   ∧ is_Some (ledger_reservations l !! reservationID execution runtimes (Node_ID (Prepared_Node p)))) →
  ∃ cs e, fst (select_loop execution runtimes prepared ready conditions l) = ([], cs, Some e).
Proof.
  revert ready conditions l. induction prepared as [|q prepared IH]; intros ready conditions l (p & Hp & Hs).
  { by apply not_elem_of_nil in Hp. }
  simpl. set (i := reservationID execution runtimes (Node_ID (Prepared_Node q))).
  apply elem_of_cons in Hp as [->|Hp].
  { rewrite Reserve_duplicate; [simpl; eauto| |done]. apply reservationID_nonempty. }
  destruct (Reserve_cases i (Execution_ID execution) (Node_ID (Prepared_Node q))
              (Prepared_Estimate q) l) as [[e ->]|(_ & _ & _ & _ & ->)].
  - destruct (errors_Is e _); [|simpl; eauto]. apply IH. eauto.
  - apply IH. exists p. split; [done|]. simpl.
    destruct (decide (i = reservationID execution runtimes (Node_ID (Prepared_Node p)))) as [<-|];
      [by rewrite lookup_insert_eq|by rewrite lookup_insert_ne].
Qed.

(** The in-memory path cannot retry: the attempt number in a reservation id
    is always 1, so once [SelectRunnable] has handed out a node, then after any
    use of the ledger (settling or releasing the reservation included) every
    later call that would prepare the same node of the same execution returns
    no node at all and an error. *)
Theorem legacy_retry_refused execution plan runtimes l ready conditions l' r :
  SelectRunnable execution plan runtimes l = ((ready, conditions, None), l') → r ∈ ready →
  ∀ ops execution' plan' runtimes' prepared' conditions',
    Execution_ID execution' = Execution_ID execution →
    PrepareRunnable execution' plan' runtimes' = (prepared', conditions', None) →
    (∃ p, p ∈ prepared' ∧ Node_ID (Prepared_Node p) = Node_ID (Ready_Node r)) →
    ∃ cs e, fst (SelectRunnable execution' plan' runtimes' (run ops l')) = ([], cs, Some e).
Proof.
  unfold SelectRunnable at 1. destruct (PrepareRunnable execution plan runtimes) as [[ps cs] [e|]];
    [done|]. intros H Hin. apply select_loop_spec in H as (rs & -> & _ & Hr).
  destruct (Hr r Hin) as (_ & res & _ & Hres).
  intros ops execution' plan' runtimes' prepared' conditions' Hid Hprep (p & Hp & Hnode).
  unfold SelectRunnable. rewrite Hprep. apply select_loop_duplicate. exists p. split; [done|].
  apply reservation_persists. unfold reservationID in *. rewrite Hid, Hnode. eauto.
Qed.

End supervisor.

(** ** Witnesses *)

Definition sample_execution : Execution :=
  {| Execution_ID := "e1"; Execution_TaskRef := "t1"; Execution_GoalRef := "g1";
     Execution_PlanRef := {| PlanRef_PlanID := "p1"; PlanRef_Revision := 1 |};
     Execution_Identity := {| Identity_Principal := "alice"; Identity_Tenant := "acme" |};
     Execution_PolicyContext := {| Environment := "prod"; DataSensitivity := "internal" |};
     Execution_Budget := fresh_state (limits (f_int 10) 10);
     Execution_Status := {| Status_Phase := ExecutionRunning; Status_Conditions := [] |};
     Execution_Accounting := {| ConsumedCost := f_zero; ReservedCost := f_zero; Elapsed := 0%Z |};
     Execution_CreatedAt := 1%Z; Execution_UpdatedAt := 1%Z |}.

Definition sample_target : ExecutionTarget :=
  {| Target_ID := "t"; Target_Revision := 1; Target_Type := TargetTool; Target_Capabilities := ∅;
     Target_Policy := {| DataLocality := ""; AllowedSensitivity := [] |};
     Target_Health := {| Health_State := "HEALTHY"; Health_ObservedAt := 1%Z |};
     Target_Snapshot := {| Snapshot_Digest := "sha256:1"; Snapshot_EndpointClass := "";
       Snapshot_ModelVersion := ""; Snapshot_RuntimeVersion := ""; Snapshot_DeploymentRef := "";
       Snapshot_CapabilityHash := "" |} |}.

Definition sample_policy (node : NodeID) (d : PolicyDecision) : PolicyDecisionRecord :=
  {| Policy_ID := "pd-" +:+ node; Policy_PolicySetRef := ""; Policy_PolicyVersion := "";
     Policy_ExecutionRef := "e1"; Policy_PlanRevision := 1; Policy_NodeRef := node;
     Policy_Principal := "alice"; Policy_Action := "run"; Policy_Resource := "";
     Policy_RequestedScope := ""; Policy_Decision := d; Policy_ReasonCodes := [];
     Policy_ExpiresAt := None |}.

Definition allow_all (_ : Execution) (n : ExecutionNode) : result PolicyDecisionRecord :=
  Ok (sample_policy (Node_ID n) PolicyAllow).
Definition resolve_all (_ : Execution) (_ : ExecutionNode) : result ExecutionTarget := Ok sample_target.
Definition estimate_one (_ : Execution) (_ : ExecutionNode) (_ : ExecutionTarget) : result BudgetEstimate :=
  Ok (est_of 1).
Definition text_of (e : error) : string := match e with Sentinel _ t => t | _ => "error" end.

Definition sample_prepared (n : ExecutionNode) : PreparedNode :=
  mkPreparedNode n sample_target (sample_policy (Node_ID n) PolicyAllow) (est_of 1).

Definition fix_node : ExecutionNode := sample_node "fix" ["collect"] mutate_effect.
Definition collected : gmap NodeID NodeState := {[ "collect" := NodeSucceeded ]}.
Definition collect_failed : gmap NodeID NodeState := {[ "collect" := NodeFailed ]}.

Lemma PrepareRunnable_correct_witness :
  ∃ node, node ∈ Plan_Nodes sample_plan ∧ schedulable collected node
          ∧ prepares allow_all resolve_all estimate_one sample_execution node (sample_prepared fix_node).
Proof.
  destruct (PrepareRunnable_correct allow_all resolve_all estimate_one text_of sample_execution
              sample_plan collected [sample_prepared fix_node] []) as (_ & Hp & _).
  - vm_compute. reflexivity.
  - apply Hp. apply list_elem_of_here.
Defined.

Lemma scheduler_never_stuck_witness :
  (∀ node, node ∈ Plan_Nodes sample_plan → collect_failed !! Node_ID node = Some NodeSucceeded)
  ∨ ∃ node s, node ∈ Plan_Nodes sample_plan ∧ collect_failed !! Node_ID node = Some s ∧ dead s.
Proof.
  apply (scheduler_never_stuck allow_all resolve_all estimate_one text_of sample_execution
           sample_plan collect_failed [] []); [apply sample_plan_wf|vm_compute; reflexivity].
Defined.

Definition sample_ledger : BudgetLedger := NewBudgetLedger (fresh_state (limits (f_int 10) 10)).
Definition selected : (list ReadyNode * list ExecutionCondition * option error) * BudgetLedger :=
  SelectRunnable allow_all resolve_all estimate_one text_of sample_execution sample_plan collected
    sample_ledger.

Definition fix_ready : ReadyNode :=
  mkReadyNode fix_node sample_target (sample_policy "fix" PolicyAllow)
    (Some (mkReservation "e1/fix/1" "e1" "fix" (est_of 1))).

Lemma selected_eq : selected = (([fix_ready], [], None), snd selected).
Proof. vm_compute. reflexivity. Qed.

Lemma SelectRunnable_reserves_witness :
  ∃ res, reservation_of fix_ready res
         ∧ ledger_reservations (snd selected) !! "e1/fix/1" = Some res.
Proof.
  destruct (SelectRunnable_reserves allow_all resolve_all estimate_one text_of sample_execution
    sample_plan collected sample_ledger [fix_ready] [] (snd selected) selected_eq) as [H _].
  destruct (H fix_ready) as [_ Hr]; [apply list_elem_of_here|exact Hr].
Defined.

Lemma legacy_retry_refused_witness :
  ∃ cs e, fst (SelectRunnable allow_all resolve_all estimate_one text_of sample_execution sample_plan
                 collected (run [OpRelease "e1/fix/1"] (snd selected))) = ([], cs, Some e).
Proof.
  eapply (legacy_retry_refused allow_all resolve_all estimate_one text_of sample_execution sample_plan
    collected sample_ledger [fix_ready] [] (snd selected) fix_ready selected_eq).
  - apply list_elem_of_here.
  - reflexivity.
  - vm_compute. reflexivity.
  - exists (sample_prepared fix_node). split; [apply list_elem_of_here|reflexivity].
Defined.

End Supervisor.
