(* ===== verification/Runner.v ===== *)
(** * Runner: one attempt of the in-memory path

    [src/execution/runner.go].  The target invoker is a parameter; its
    [(InvocationResult, error)] is a pair, since the code uses the result's
    usage on the error path too.  The two readings of the clock are arguments.
    [nil] dependencies are [None]. *)
From S2P Require Import Prelude ExecTypes Budget Supervisor.

Module Runner.
Import Budget Supervisor.

Inductive EffectDisposition : Type :=
| EffectDispositionNotApplicable | EffectDispositionNotApplied
| EffectDispositionCommitted | EffectDispositionUnknown | EffectDispositionOther (s : string).

#[export] Instance EffectDisposition_eq_dec : EqDecision EffectDisposition.
Proof. solve_decision. Defined.

Record InvocationResult : Type := mkInvocationResult {
  Result_Usage : Usage;
  Result_ArtifactRefs : list ArtifactID;
  Result_EffectDisposition : EffectDisposition
}.

Definition InvocationResultZero : InvocationResult :=
  mkInvocationResult UsageZero [] EffectDispositionNotApplicable.

(** [&InvocationError{Class: class, Err: inner}]; [Unwrap] is [inner]. *)
Definition InvocationError (class : ErrorClass) (inner : option error) : error :=
  TypedErr "InvocationError" (ErrorClass_string class) inner.

Definition DeadlineExceeded : error :=
  Sentinel "context.DeadlineExceeded" "context deadline exceeded".
Definition Canceled : error := Sentinel "context.Canceled" "context canceled".

Definition actualBudgetForInvocation (target : ExecutionTarget) (usage : Usage) : BudgetEstimate :=
  {| Estimate_Cost := Usage_Cost usage; Estimate_NodeAttempts := 1; Estimate_FrontierCalls := 0;
     Estimate_ToolCalls := if decide (Target_Type target = TargetTool) then 1 else 0 |}.

Definition classifyInvocationError (err : option error) : ErrorClass :=
  match err with
  | None => ErrorClassZero
  | Some e =>
      let rest :=
        if errors_Is e "context.DeadlineExceeded" then ErrorTimeout
        else if errors_Is e "context.Canceled" then ErrorTransient
        else ErrorUnknown in
      match errors_As e "InvocationError" with
      | Some class => if class !=? "" then ErrorClass_of_string class else rest
      | None => rest
      end
  end.

Definition ExecutionAttemptZero : ExecutionAttempt :=
  {| Attempt_ID := ""; Attempt_ExecutionRef := ""; Attempt_NodeRef := ""; Attempt_TargetRef := "";
     Attempt_TargetRevision := 0; Attempt_TargetSnapshot := ""; Attempt_AttemptNumber := 0;
     Attempt_Status := AttemptStatusOther ""; Attempt_ErrorClass := ErrorClassZero;
     Attempt_Usage := UsageZero; Attempt_IdempotencyKey := ""; Attempt_EffectStartedAt := None;
     Attempt_EffectCommittedAt := None; Attempt_StartedAt := 0%Z; Attempt_FinishedAt := None |}.

(** The attempt [Run] returns once the invocation is over. *)
Definition finishedAttempt (execution : Execution) (ready : ReadyNode) (attemptID : AttemptID)
    (attemptNumber : Z) (started finished : Time) (usage : Usage) (status : AttemptStatus)
    (class : ErrorClass) : ExecutionAttempt :=
  {| Attempt_ID := attemptID; Attempt_ExecutionRef := Execution_ID execution;
     Attempt_NodeRef := Node_ID (Ready_Node ready); Attempt_TargetRef := Target_ID (Ready_Target ready);
     Attempt_TargetRevision := Target_Revision (Ready_Target ready);
     Attempt_TargetSnapshot := Snapshot_Digest (Target_Snapshot (Ready_Target ready));
     Attempt_AttemptNumber := attemptNumber; Attempt_Status := status; Attempt_ErrorClass := class;
     Attempt_Usage := usage;
     Attempt_IdempotencyKey := Effect_IdempotencyKey (Node_Effect (Ready_Node ready));
     Attempt_EffectStartedAt := None; Attempt_EffectCommittedAt := None;
     Attempt_StartedAt := started; Attempt_FinishedAt := Some finished |}.

Definition Invoker : Type :=
  Execution → ExecutionNode → ExecutionTarget → InvocationResult * option error.

Definition Run (invoker : option Invoker) (started finished : Time) (execution : Execution)
    (ready : ReadyNode) (attemptID : AttemptID) (attemptNumber : Z) (budget : option BudgetLedger)
    : (ExecutionAttempt * InvocationResult * option error) * option BudgetLedger :=
  let refuse msg := ((ExecutionAttemptZero, InvocationResultZero, Some (Errorf msg [])), budget) in
  match invoker with
  | None => refuse "target invoker is required"
  | Some invoke =>
  match budget with
  | None => refuse "budget ledger is required"
  | Some l =>
  match Ready_Reservation ready with
  | None => refuse "budget reservation is required"
  | Some reservation =>
      if attemptID ==? "" then refuse "attempt id is required"
      else if (attemptNumber <=? 0)%Z then refuse "attempt number must be positive"
      else
        let '(result, err) := invoke execution (Ready_Node ready) (Ready_Target ready) in
        let attempt := finishedAttempt execution ready attemptID attemptNumber started finished
                         (Result_Usage result) in
        match Settle (Reservation_ID reservation)
                (actualBudgetForInvocation (Ready_Target ready) (Result_Usage result)) l with
        | (Err settleErr, l') =>
            ((attempt AttemptFailed ErrorUnknown, result,
              Some (Errorw "settle budget reservation: %w" [] settleErr)), Some l')
        | (Ok _, l') =>
            match err with
            | None => ((attempt AttemptSucceeded ErrorClassZero, result, None), Some l')
            | Some e =>
                ((attempt AttemptFailed (classifyInvocationError err), result, Some e), Some l')
            end
        end
  end end end.

Lemma ErrorClass_of_string_nonzero s : s ≠ "" → ErrorClass_of_string s ≠ ErrorClassZero.
Proof.
  unfold ErrorClass_of_string, ErrorClassZero. intros H.
  repeat case_bool_decide; congruence.
Qed.

Lemma classify_nonzero e : classifyInvocationError (Some e) ≠ ErrorClassZero.
Proof.
  unfold classifyInvocationError. destruct (errors_As e _) as [c|].
  - destruct (bool_decide (c = "")) eqn:Hc; simpl; [repeat case_match; done|].
    apply ErrorClass_of_string_nonzero. by apply bool_decide_eq_false in Hc.
  - repeat case_match; done.
Qed.

(** A failed invocation always has an error class, and it is the right one:
    the class an [InvocationError] in the chain states if it states one,
    otherwise TIMEOUT for a deadline, TRANSIENT for a cancellation and UNKNOWN
    for anything else; never the empty class. *)
Theorem classifyInvocationError_correct e :
  classifyInvocationError (Some e) ≠ ErrorClassZero
  ∧ (∀ s, errors_As e "InvocationError" = Some s → s ≠ "" →
       classifyInvocationError (Some e) = ErrorClass_of_string s)
  ∧ (errors_As e "InvocationError" = None ∨ errors_As e "InvocationError" = Some "" →
       (errors_Is e "context.DeadlineExceeded" = true → classifyInvocationError (Some e) = ErrorTimeout)
       ∧ (errors_Is e "context.DeadlineExceeded" = false → errors_Is e "context.Canceled" = true →
            classifyInvocationError (Some e) = ErrorTransient)
       ∧ (errors_Is e "context.DeadlineExceeded" = false → errors_Is e "context.Canceled" = false →
            classifyInvocationError (Some e) = ErrorUnknown)).
Proof.
  split; [apply classify_nonzero|]. unfold classifyInvocationError. split.
  - intros s -> Hs. by rewrite bool_decide_eq_false_2.
  - intros [-> | ->]; [|rewrite bool_decide_eq_true_2 by done]; simpl; split_and!; intros;
      repeat match goal with E : _ = _ |- _ => rewrite E; clear E end; done.
Qed.


(** One run settles its reservation exactly once with the usage that was
    reported, whatever the invocation's outcome: with an open reservation of
    the ledger and a non-negative reported cost, [Run] closes it, moves the
    actual usage (one attempt, one tool call for a tool target) from reserved
    to consumed, and the attempt is SUCCEEDED exactly when the invocation
    returned no error; a failed attempt carries a non-empty error class. *)
Theorem Run_settles invoke started finished execution ready attemptID attemptNumber l res result err
    attempt result' err' l' :
  Ready_Reservation ready = Some res →
  ledger_reservations l !! Reservation_ID res = Some res → Reservation_Closed res = false →
  attemptID ≠ "" → (0 < attemptNumber)%Z →
  invoke execution (Ready_Node ready) (Ready_Target ready) = (result, err) →
  f_lt (Usage_Cost (Result_Usage result)) f_zero = false →
  Run (Some invoke) started finished execution ready attemptID attemptNumber (Some l)
    = ((attempt, result', err'), Some l') →
  Settle (Reservation_ID res) (actualBudgetForInvocation (Ready_Target ready) (Result_Usage result)) l
    = (Ok tt, l')
  ∧ is_closed (Reservation_ID res) l'
  ∧ result' = result ∧ err' = err
  ∧ (Attempt_Status attempt = AttemptSucceeded ↔ err = None)
  ∧ (Attempt_Status attempt = AttemptFailed ↔ Attempt_ErrorClass attempt ≠ ErrorClassZero)
  ∧ Attempt_Usage attempt = Result_Usage result.
Proof.
  intros Hres Hl Hopen Hid Hnum Hinv Hcost H.
  unfold Run in H. rewrite Hres, bool_decide_eq_false_2, Hinv in H by done.
  destruct (Z.leb_spec attemptNumber 0); [lia|].
  set (actual := actualBudgetForInvocation (Ready_Target ready) (Result_Usage result)) in *.
  assert (negative actual = false) as Hneg.
  { unfold negative, actual; simpl. rewrite Hcost. by case_decide. }
  destruct (Settle_cases (Reservation_ID res) actual l) as [[e He]|(r & Hr & _ & _ & Hs)].
  { unfold Settle in He. by rewrite Hl, Hopen, Hneg in He. }
  rewrite Hs in H |- *.
  assert (is_closed (Reservation_ID res) l') as Hc.
  { exists (close r). destruct err; injection H as ? ? ? <-; by split; [apply lookup_insert_eq|]. }
  pose proof classify_nonzero as Hcl.
  destruct err as [e|]; simplify_eq/=; split_and!; try done; naive_solver.
Qed.

Definition run_sample : (ExecutionAttempt * InvocationResult * option error) * option BudgetLedger :=
  Run (Some (λ _ _ _, (InvocationResultZero, Some DeadlineExceeded))) 1%Z 2%Z sample_execution fix_ready
    "a1" 1 (Some (snd selected)).

Lemma Run_settles_witness :
  Attempt_Status (fst (fst (fst run_sample))) = AttemptFailed
  ∧ is_closed "e1/fix/1" (default sample_ledger (snd run_sample)).
Proof.
  destruct (Run_settles (λ _ _ _, (InvocationResultZero, Some DeadlineExceeded)) 1%Z 2%Z sample_execution
    fix_ready "a1" 1 (snd selected) (mkReservation "e1/fix/1" "e1" "fix" (est_of 1)) InvocationResultZero
    (Some DeadlineExceeded) (fst (fst (fst run_sample))) (snd (fst (fst run_sample)))
    (snd (fst run_sample)) (default sample_ledger (snd run_sample))) as (_ & Hc & _);
    try reflexivity; try done.
Defined.

End Runner.
