(* ===== verification/LeaseSchema.v ===== *)
(** * LeaseSchema: the tables of the lease store and its transactions

    The tables [execution_node_runtime] and [execution_attempts] of
    [src/db/migrations/017_execution_node_runtime_leases.sql] and
    [018_execution_attempts.sql] as the store of
    [src/internal/repository/postgres_execution_node_leases.go] sees them, with
    the CHECK and UNIQUE constraints evaluated on every write, and
    [withScopedTx].

    PostgreSQL itself is not code of the repository.  What is assumed of it is
    written into the definitions below and is documented behaviour: a
    transaction is atomic and is undone when it does not commit; row-level
    security (FORCEd on both tables, the role not being exempt from it) hides
    every row of another tenant or project; a write that breaks a constraint
    fails.  Every operation of the store first locks (SELECT FOR UPDATE) or
    updates the node's row, so transactions on one node are serial and each is
    one step.  Everything else is left open by [TxEnv]: any statement may fail
    with any error, the clock may read anything (it is read before the row is
    locked, so it need not be monotone), and a failed COMMIT may or may not
    have been applied.  [now] is read from PostgreSQL at its microsecond
    resolution and is stored unchanged; a time computed in Go is stored through
    [pg_ts], PostgreSQL's rounding, a parameter. *)
From S2P Require Import Prelude Identity ExecTypes.
From stdpp Require Import vector.

Module LeaseSchema.

Abbreviation ScopeKey := (string * string)%type (only parsing).
Abbreviation NodeRef := (ExecutionID * Z * NodeID)%type (only parsing).
Abbreviation NodeKey := (string * string * (ExecutionID * Z * NodeID))%type (only parsing).
Abbreviation AttemptKey := (string * string * AttemptID)%type (only parsing).

(** ** Rows; the columns of the primary key are in the map's key *)
Record NodeRow : Type := mkNodeRow {
  n_state : NodeState;
  n_effect_class : EffectClass;
  n_retry_safe : bool;
  n_idempotency_key : option string;
  n_attempt_number : Z;
  n_lease_owner : option string;
  n_lease_token : option string;
  n_lease_fence : Z;
  n_claimed_at : option Time;
  n_heartbeat_at : option Time;
  n_lease_expires_at : option Time;
  n_effect_started_at : option Time;
  n_effect_committed_at : option Time;
  n_created_at : Time;
  n_updated_at : Time
}.

Record AttemptRow : Type := mkAttemptRow {
  a_ref : NodeRef;
  a_attempt_number : Z;
  a_lease_fence : Z;
  a_lease_owner : string;
  a_status : AttemptStatus;
  a_target_id : option TargetID;
  a_target_revision : option Z;
  a_target_snapshot_digest : option string;
  a_policy_decision_id : option PolicyDecisionID;
  a_budget_reservation_id : option string;
  a_idempotency_key : option string;
  a_error_class : option ErrorClass;
  a_input_tokens : Z;
  a_output_tokens : Z;
  a_cost : float64;
  a_duration_ms : Z;
  a_claimed_at : Time;
  a_started_at : option Time;
  a_effect_started_at : option Time;
  a_effect_committed_at : option Time;
  a_finished_at : option Time;
  a_created_at : Time;
  a_updated_at : Time
}.

Record DB : Type := mkDB {
  nodes : gmap NodeKey NodeRow;
  attempts : gmap AttemptKey AttemptRow
}.

Definition emptyDB : DB := mkDB ∅ ∅.

(** [NULLIF(s, '')]. *)
Definition NULLIF (s : string) : option string := if s ==? "" then None else Some s.
Definition NULLIF_class (c : ErrorClass) : option ErrorClass :=
  if c ==? ErrorClassZero then None else Some c.

Definition isNull {A} (o : option A) : bool := match o with None => true | Some _ => false end.
Definition notNull {A} (o : option A) : bool := negb (isNull o).
(** [NULLIF(col, '') IS NOT NULL]. *)
Definition nonEmpty (o : option string) : bool :=
  match o with Some s => s !=? "" | None => false end.

(** ** CHECK constraints of [execution_node_runtime] *)
Definition known_state (s : NodeState) : bool :=
  match s with NodeStateOther _ => false | _ => true end.
Definition known_effect (e : EffectClass) : bool :=
  match e with EffectOther _ => false | _ => true end.

Definition lease_state_contract (r : NodeRow) : bool :=
  match n_state r with
  | NodeRunning =>
      notNull (n_lease_owner r) && notNull (n_lease_token r) && notNull (n_heartbeat_at r)
      && match n_claimed_at r, n_lease_expires_at r with
         | Some c, Some e => (c <? e)%Z
         | _, _ => false
         end
  | _ =>
      isNull (n_lease_owner r) && isNull (n_lease_token r) && isNull (n_claimed_at r)
      && isNull (n_heartbeat_at r) && isNull (n_lease_expires_at r)
  end.

Definition node_checks (k : NodeKey) (r : NodeRow) : bool :=
  (1 <=? k.2.1.2)%Z
  && fits_int4 (n_attempt_number r)
  && (0 <=? n_attempt_number r)%Z
  && (0 <=? n_lease_fence r)%Z && fits_int8 (n_lease_fence r)
  && known_state (n_state r)
  && known_effect (n_effect_class r)
  && ((n_effect_class r !=? EffectIdempotentMutation) || nonEmpty (n_idempotency_key r))
  && ((n_effect_class r !=? EffectNonIdempotentMutation) || negb (n_retry_safe r))
  && lease_state_contract r
  && (isNull (n_effect_committed_at r) || notNull (n_effect_started_at r)).

(** ** CHECK constraints of [execution_attempts] *)
Definition target_bound (r : AttemptRow) : bool :=
  nonEmpty (a_target_id r)
  && match a_target_revision r with Some v => (1 <=? v)%Z | None => false end
  && nonEmpty (a_target_snapshot_digest r).

Definition lifecycle_contract (r : AttemptRow) : bool :=
  match a_status r with
  | AttemptPending => isNull (a_started_at r) && isNull (a_finished_at r)
  | AttemptRunning => notNull (a_started_at r) && isNull (a_finished_at r)
  | AttemptSucceeded | AttemptFailed => notNull (a_started_at r) && notNull (a_finished_at r)
  | AttemptCancelled | AttemptAbandoned => notNull (a_finished_at r)
  | AttemptStatusOther _ => false
  end.

Definition attempt_checks (r : AttemptRow) : bool :=
  (1 <=? (a_ref r).1.2)%Z
  && fits_int4 (a_attempt_number r)
  && (1 <=? a_attempt_number r)%Z
  && (1 <=? a_lease_fence r)%Z
  && lifecycle_contract r
  && ((isNull (a_target_id r) && isNull (a_target_revision r) && isNull (a_target_snapshot_digest r))
      || target_bound r)
  && (isNull (a_started_at r) || target_bound r)
  && (isNull (a_started_at r)
      || (nonEmpty (a_policy_decision_id r) && nonEmpty (a_budget_reservation_id r)))
  && ((a_status r !=? AttemptFailed)
      || match a_error_class r with Some c => c !=? ErrorClassZero | None => false end)
  && (isNull (a_effect_committed_at r) || notNull (a_effect_started_at r))
  && ((0 <=? a_input_tokens r)%Z && (0 <=? a_output_tokens r)%Z
      && negb (f_lt (a_cost r) f_zero) && (0 <=? a_duration_ms r)%Z).

(** The UNIQUE constraints over one node's attempts. *)
Definition unique_conflict (scope : ScopeKey) (r : AttemptRow) (kv : AttemptKey * AttemptRow) : bool :=
  (kv.1.1 ==? scope) && (a_ref kv.2 ==? a_ref r)
  && ((a_attempt_number kv.2 =? a_attempt_number r)%Z || (a_lease_fence kv.2 =? a_lease_fence r)%Z).

(** ** The environment of one transaction *)
Inductive CommitOutcome : Type :=
| Committed
| CommitFailed (e : error)
| CommitUnknown (e : error).

Record TxEnv : Type := mkTxEnv {
  env_db : bool;                       (** [r != nil && r.db != nil] *)
  env_ctx : Identity.Context;
  env_begin : option error;
  env_fault : string → option error;   (** a statement, by the text that wraps its error *)
  env_clock : result Time;             (** [SELECT clock_timestamp()] *)
  env_now : Time;                      (** [NOW()] *)
  env_rand : nat → result (vec ascii 16); (** the n-th [rand.Read] of 16 bytes *)
  env_commit : CommitOutcome
}.

Definition fault (env : TxEnv) (label : string) : result unit :=
  match env_fault env label with Some e => Err e | None => Ok tt end.

(** [ExecContext] whose error is wrapped with the statement's label. *)
Definition exec_stmt (env : TxEnv) (label : string) : result unit :=
  match env_fault env label with
  | Some e => Err (Errorw (label +:+ ": %w") [] e)
  | None => Ok tt
  end.

Definition RowsAffected (env : TxEnv) (label : string) (affected : nat) : result nat :=
  _ ← fault env (label +:+ " rows affected"); Ok affected.

Definition violation (label : string) : error :=
  Errorw (label +:+ ": %w") [] (Errorf "pq: constraint violation" []).

Definition databaseNow (env : TxEnv) : result Time :=
  match env_clock env with
  | Err e => Err (Errorw "read PostgreSQL clock: %w" [] e)
  | Ok now => Ok now
  end.

Definition scope_of (p : Identity.Principal) : ScopeKey :=
  (Identity.TenantID p, Identity.ProjectID p).

(** The body of a transaction sees the principal and the database and returns
    its value and the database it leaves. *)
Definition TxBody (A : Type) : Type := Identity.Principal → DB → result (A * DB).

Definition withScopedTx {A} (env : TxEnv) (fn : TxBody A) (db : DB) : result A * DB :=
  if negb (env_db env) then (Err (Errorf "database is required" []), db)
  else match Identity.requireScopedPrincipal (env_ctx env) with
  | Err e => (Err e, db)
  | Ok principal =>
      match env_begin env with
      | Some e => (Err (Errorw "begin execution node transaction: %w" [] e), db)
      | None =>
          match exec_stmt env "set execution node transaction scope" with
          | Err e => (Err e, db)
          | Ok _ =>
              match fn principal db with
              | Err e => (Err e, db)
              | Ok (a, db') =>
                  match env_commit env with
                  | Committed => (Ok a, db')
                  | CommitFailed e => (Err (Errorw "commit execution node transaction: %w" [] e), db)
                  | CommitUnknown e => (Err (Errorw "commit execution node transaction: %w" [] e), db')
                  end
              end
          end
      end
  end.

(** ** Statements *)

(** [UPDATE execution_node_runtime SET .. WHERE <key> AND cond]: the number of
    rows updated (at most one, by the primary key) and the new database. *)
Definition update_node (env : TxEnv) (label : string) (k : NodeKey) (cond : NodeRow → bool)
    (set : NodeRow → NodeRow) (db : DB) : result (nat * DB) :=
  _ ← exec_stmt env label;
  match nodes db !! k with
  | None => Ok (0, db)
  | Some row =>
      if cond row then
        if node_checks k (set row) then Ok (1, mkDB (<[k := set row]> (nodes db)) (attempts db))
        else Err (violation label)
      else Ok (0, db)
  end.

(** [UPDATE execution_attempts SET .. WHERE cond] inside the scope. *)
Definition attempt_hits (scope : ScopeKey) (cond : AttemptID → AttemptRow → bool)
    (m : gmap AttemptKey AttemptRow) : gmap AttemptKey AttemptRow :=
  filter (λ kv, kv.1.1 = scope ∧ cond kv.1.2 kv.2 = true) m.

Definition update_attempts (env : TxEnv) (label : string) (scope : ScopeKey)
    (cond : AttemptID → AttemptRow → bool) (set : AttemptRow → AttemptRow) (db : DB)
    : result (nat * DB) :=
  _ ← exec_stmt env label;
  let hits := set <$> attempt_hits scope cond (attempts db) in
  if bool_decide (map_Forall (λ _ r, attempt_checks r = true) hits)
  then Ok (size hits, mkDB (nodes db) (hits ∪ attempts db))
  else Err (violation label).

(** [INSERT INTO execution_attempts], failing on a duplicate key. *)
Definition insert_attempt (env : TxEnv) (label : string) (scope : ScopeKey) (id : AttemptID)
    (row : AttemptRow) (db : DB) : result DB :=
  _ ← exec_stmt env label;
  if notNull (attempts db !! (scope, id))
     || existsb (unique_conflict scope row) (map_to_list (attempts db))
     || negb (attempt_checks row)
  then Err (violation label)
  else Ok (mkDB (nodes db) (<[(scope, id) := row]> (attempts db))).

(** An INTEGER parameter of a WHERE clause. *)
Definition int4_param (label : string) (z : Z) : result unit :=
  if fits_int4 z then Ok tt else Err (violation label).

(** ** Lemmas about statements *)

Lemma update_node_Ok env label k cond set db n db' :
  update_node env label k cond set db = Ok (n, db') →
  (n = 0 ∧ db' = db)
  ∨ (n = 1 ∧ ∃ row, nodes db !! k = Some row ∧ cond row = true ∧ node_checks k (set row) = true
     ∧ db' = mkDB (<[k := set row]> (nodes db)) (attempts db)).
Proof.
  unfold update_node, mbind, result_bind. intros H. go_inv H; eauto 10.
Qed.

(** An update of exactly one attempt is an insertion at that attempt's key. *)
Lemma update_attempts_one env label scope cond set db db' :
  update_attempts env label scope cond set db = Ok (1, db') →
  ∃ id row, attempts db !! (scope, id) = Some row ∧ cond id row = true
  ∧ attempt_checks (set row) = true
  ∧ db' = mkDB (nodes db) (<[(scope, id) := set row]> (attempts db)).
Proof.
  unfold update_attempts, mbind, result_bind. intros H.
  destruct (exec_stmt env label); [|done].
  case_bool_decide as Hall; [|done]. injection H as Hs <-. rewrite map_size_fmap in Hs.
  apply map_size_1_singleton in Hs as ([sc id] & row & Hm). rewrite Hm, map_fmap_singleton in Hall |- *.
  assert (attempt_hits scope cond (attempts db) !! (sc, id) = Some row) as Hl.
  { rewrite Hm. apply lookup_singleton_eq. }
  apply map_lookup_filter_Some in Hl as (Hl & Hsc & Hc). simpl in Hsc, Hc. subst sc.
  exists id, row. rewrite map_Forall_singleton in Hall. split_and!; try done.
  f_equal. by rewrite insert_union_singleton_l.
Qed.

(** Where exactly one attempt of the scope satisfies the condition and the new
    row meets the constraints, one row is updated. *)
Lemma update_attempts_hit env label scope cond set db id row :
  exec_stmt env label = Ok tt →
  attempts db !! (scope, id) = Some row → cond id row = true →
  (∀ id' row', attempts db !! (scope, id') = Some row' → cond id' row' = true → id' = id) →
  attempt_checks (set row) = true →
  update_attempts env label scope cond set db
  = Ok (1, mkDB (nodes db) (<[(scope, id) := set row]> (attempts db))).
Proof.
  intros He Hl Hc Hu Hk. unfold update_attempts, mbind, result_bind. rewrite He.
  assert (attempt_hits scope cond (attempts db) = {[ (scope, id) := row ]}) as ->.
  { apply map_eq. intros [sc i]. destruct (decide ((sc, i) = (scope, id))) as [[= -> ->]|Hne].
    - rewrite lookup_singleton_eq. by apply map_lookup_filter_Some.
    - rewrite lookup_singleton_ne by congruence. apply map_lookup_filter_None. right.
      intros r Hr [Hsc Hcr]. simpl in *. subst sc. apply Hne. f_equal. eauto. }
  rewrite map_fmap_singleton, map_size_singleton, bool_decide_eq_true_2
    by (by rewrite map_Forall_singleton).
  by rewrite insert_union_singleton_l.
Qed.

Lemma insert_attempt_Ok env label scope id row db db' :
  insert_attempt env label scope id row db = Ok db' →
  attempts db !! (scope, id) = None ∧ attempt_checks row = true
  ∧ db' = mkDB (nodes db) (<[(scope, id) := row]> (attempts db)).
Proof.
  unfold insert_attempt, mbind, result_bind. intros H. go_inv H. go_props.
  split_and!; [|done..]. unfold notNull, isNull in *. by destruct (_ !! _).
Qed.

Lemma insert_attempt_fresh env label scope id row db :
  exec_stmt env label = Ok tt →
  attempts db !! (scope, id) = None → attempt_checks row = true →
  (∀ i r, attempts db !! (scope, i) = Some r → a_ref r = a_ref row →
     a_attempt_number r ≠ a_attempt_number row ∧ a_lease_fence r ≠ a_lease_fence row) →
  insert_attempt env label scope id row db
  = Ok (mkDB (nodes db) (<[(scope, id) := row]> (attempts db))).
Proof.
  intros He Hn Hc Hu. unfold insert_attempt, mbind, result_bind. rewrite He, Hn, Hc. simpl.
  assert (existsb (unique_conflict scope row) (map_to_list (attempts db)) = false) as ->; [|done].
  apply not_true_iff_false. rewrite existsb_exists. intros ([[sc i] r] & Hin & Hx).
  apply list_elem_of_In, elem_of_map_to_list in Hin.
  unfold unique_conflict in Hx. apply andb_true_iff in Hx as [[Hs Hr]%andb_true_iff Hx].
  apply bool_decide_eq_true in Hs, Hr. simpl in *. subst sc.
  destruct (Hu i r Hin Hr) as [H1 H2]. apply orb_true_iff in Hx as [Hx|Hx]; by apply Z.eqb_eq in Hx.
Qed.

(** What a transaction does: nothing, or its body's change with its result
    (reported as an error when the outcome of COMMIT is unknown). *)
Lemma withScopedTx_cases {A} env (fn : TxBody A) db :
  (∃ e, withScopedTx env fn db = (Err e, db))
  ∨ ∃ p a db', Identity.requireScopedPrincipal (env_ctx env) = Ok p ∧ fn p db = Ok (a, db')
      ∧ snd (withScopedTx env fn db) = db'
      ∧ (fst (withScopedTx env fn db) = Ok a ∨ ∃ e, env_commit env = CommitUnknown e).
Proof.
  unfold withScopedTx. destruct (env_db env); simpl; [|eauto].
  destruct (Identity.requireScopedPrincipal _) as [p|]; [|eauto].
  destruct (env_begin env); [eauto|]. destruct (exec_stmt _ _); [|eauto].
  destruct (fn p db) as [[x db']|] eqn:Hf; [|eauto].
  destruct (env_commit env); [right|eauto|right]; exists p, x, db'; split_and!; simpl; eauto.
Qed.

End LeaseSchema.
