(* ===== verification/LeaseStore.v ===== *)
(** * LeaseStore: durable node leases and attempts

    [src/internal/repository/postgres_execution_node_leases.go],
    [postgres_execution_attempts.go] and [postgres_execution_node_retry.go]: the
    operations of [PostgresExecutionNodeLeases], each the whole method, over the
    tables of [LeaseSchema].  An operation takes the environment of its
    transaction and the database and returns its result and the database after
    it; a record type of the source that a SELECT fills is built from the row
    the way the source scans it. *)
From stdpp Require Import vector.
From S2P Require Import Prelude Identity ExecTypes LeaseSchema.

Module LeaseStore.
Import LeaseSchema.

Definition ErrNodeRuntimeNotFound : error :=
  Sentinel "ErrNodeRuntimeNotFound" "execution node runtime not found".
Definition ErrNodeRuntimeExists : error :=
  Sentinel "ErrNodeRuntimeExists" "execution node runtime already exists".
Definition ErrNodeNotClaimable : error :=
  Sentinel "ErrNodeNotClaimable" "execution node is not claimable".
Definition ErrNodeLeaseHeld : error :=
  Sentinel "ErrNodeLeaseHeld" "execution node lease is held by another worker".
Definition ErrNodeLeaseLost : error :=
  Sentinel "ErrNodeLeaseLost" "execution node lease is no longer valid".
Definition ErrNodeRecoveryRequired : error :=
  Sentinel "ErrNodeRecoveryRequired" "execution node requires recovery review before retry".
Definition ErrNodeEffectNotCommitted : error :=
  Sentinel "ErrNodeEffectNotCommitted" "execution node mutation effect is not committed".
Definition ErrAttemptCompletion : error :=
  Sentinel "ErrAttemptCompletion" "execution attempt completion does not match node terminal state".
Definition ErrAttemptNotFound : error := Sentinel "ErrAttemptNotFound" "execution attempt not found".
Definition ErrAttemptStateConflict : error :=
  Sentinel "ErrAttemptStateConflict" "execution attempt state conflict".
Definition ErrAttemptBindingInvalid : error :=
  Sentinel "ErrAttemptBindingInvalid" "execution attempt binding is invalid".

(** ** Validation *)

Definition validateNodeRuntimeRecord (record : NodeRuntimeRecord) : result unit :=
  if (Runtime_ExecutionRef record ==? "") || (Runtime_PlanRevision record <? 1)%Z
     || (Runtime_NodeRef record ==? "")
  then Err (Errorf "execution, positive plan revision and node are required" [])
  else if Runtime_State record ==? NodeStateZero then Err (Errorf "node state is required" [])
  else if (Runtime_EffectClass record ==? EffectIdempotentMutation)
          && blank (Runtime_IdempotencyKey record)
  then Err (Errorf "idempotent mutation requires idempotency key" [])
  else if (Runtime_EffectClass record ==? EffectNonIdempotentMutation) && Runtime_RetrySafe record
  then Err (Errorf "non-idempotent mutation cannot be registered retry-safe" [])
  else Ok tt.

Definition validateLeaseIdentity (executionID : ExecutionID) (planRevision : Z) (nodeID : NodeID)
    (owner : string) (leaseDuration : Duration) : result unit :=
  if (executionID ==? "") || (planRevision <? 1)%Z || (nodeID ==? "") || blank owner
  then Err (Errorf "execution, positive plan revision, node and lease owner are required" [])
  else if (leaseDuration <=? 0)%Z then Err (Errorf "positive lease duration is required" [])
  else Ok tt.

Definition validateLeaseAttempt (lease : NodeLease) : result unit :=
  if (Lease_AttemptRef lease ==? "") || (Lease_AttemptNumber lease <? 1)%Z || (Lease_Fence lease <? 1)%Z
  then Err (Errorf "lease attempt reference, positive attempt number and fence are required" [])
  else Ok tt.

Definition validateHeldLease (lease : NodeLease) (leaseDuration : Duration) : result unit :=
  _ ← validateLeaseIdentity (Lease_ExecutionRef lease) (Lease_PlanRevision lease) (Lease_NodeRef lease)
        (Lease_OwnerWorkerID lease) leaseDuration;
  _ ← validateLeaseAttempt lease;
  if blank (Lease_Token lease) || (Lease_Fence lease <? 1)%Z
  then Err (Errorf "lease token and positive fence are required" [])
  else Ok tt.

Definition validateAttemptCompletion (terminal : NodeState) (completion : AttemptCompletion)
    : result unit :=
  if negb (AttemptCompletion_Terminal completion)
     || (Completion_Status completion ==? AttemptAbandoned)
  then Err ErrAttemptCompletion
  else
    let matches :=
      ((terminal ==? NodeSucceeded) && (Completion_Status completion ==? AttemptSucceeded))
      || ((terminal ==? NodeFailed) && (Completion_Status completion ==? AttemptFailed))
      || ((terminal ==? NodeCancelled) && (Completion_Status completion ==? AttemptCancelled)) in
    if negb matches then Err ErrAttemptCompletion
    else if (terminal ==? NodeFailed) && (Completion_ErrorClass completion ==? ErrorClassZero)
    then Err (Errorw "%w: failed attempt requires error class" [] ErrAttemptCompletion)
    else
      let u := Completion_Usage completion in
      if (Usage_InputTokens u <? 0)%Z || (Usage_OutputTokens u <? 0)%Z
         || f_lt (Usage_Cost u) f_zero || (Usage_Duration u <? 0)%Z
      then Err (Errorw "%w: usage cannot be negative" [] ErrAttemptCompletion)
      else Ok tt.

Definition validateAttemptBinding (binding : AttemptBinding) : result unit :=
  if (Binding_TargetRef binding ==? "") || (Binding_TargetRevision binding <? 1)%Z
     || blank (Binding_TargetSnapshot binding)
  then Err (Errorw "%w: target id, positive revision and snapshot are required" []
              ErrAttemptBindingInvalid)
  else if Binding_PolicyDecisionRef binding ==? ""
  then Err (Errorw "%w: policy decision is required" [] ErrAttemptBindingInvalid)
  else if blank (Binding_BudgetReservationRef binding)
  then Err (Errorw "%w: budget reservation is required" [] ErrAttemptBindingInvalid)
  else Ok tt.

(** ** Tokens: [hex.EncodeToString] of 16 random bytes *)

Definition hexDigit (n : N) : ascii :=
  if (n <? 10)%N then ascii_of_N (48 + n) else ascii_of_N (87 + n).
Definition EncodeToString (b : list ascii) : string :=
  of_bytes (a ← b; [hexDigit (code a / 16)%N; hexDigit (code a mod 16)%N]).

Definition newLeaseToken (env : TxEnv) (n : nat) : result string :=
  match env_rand env n with
  | Err e => Err (Errorw "generate lease token: %w" [] e)
  | Ok buf => Ok (EncodeToString (vec_to_list buf))
  end.

Definition newAttemptID (env : TxEnv) (n : nat) : result AttemptID :=
  token ← newLeaseToken env n; Ok ("att_" +:+ token).

(** ** Rows as the code reads them *)

Record nodeRuntimeRow : Type := mkNodeRuntimeRow {
  row_record : NodeRuntimeRecord;
  row_leaseOwner : option string;
  row_leaseToken : option string;
  row_claimedAt : option Time;
  row_heartbeatAt : option Time;
  row_leaseExpiresAt : option Time
}.

Definition scanNode (executionID : ExecutionID) (planRevision : Z) (nodeID : NodeID) (r : NodeRow)
    : nodeRuntimeRow :=
  {| row_record :=
       {| Runtime_ExecutionRef := executionID; Runtime_PlanRevision := planRevision;
          Runtime_NodeRef := nodeID; Runtime_State := n_state r;
          Runtime_EffectClass := n_effect_class r; Runtime_RetrySafe := n_retry_safe r;
          Runtime_IdempotencyKey := default "" (n_idempotency_key r);
          Runtime_AttemptNumber := n_attempt_number r; Runtime_LeaseFence := n_lease_fence r;
          Runtime_EffectStartedAt := n_effect_started_at r;
          Runtime_EffectCommittedAt := n_effect_committed_at r; Runtime_UpdatedAt := n_updated_at r |};
     row_leaseOwner := n_lease_owner r; row_leaseToken := n_lease_token r;
     row_claimedAt := n_claimed_at r; row_heartbeatAt := n_heartbeat_at r;
     row_leaseExpiresAt := n_lease_expires_at r |}.

Definition loadNodeRuntime (env : TxEnv) (p : Identity.Principal) (executionID : ExecutionID)
    (planRevision : Z) (nodeID : NodeID) (db : DB) : result nodeRuntimeRow :=
  _ ← exec_stmt env "load execution node runtime";
  match nodes db !! (scope_of p, (executionID, planRevision, nodeID)) with
  | None => Err ErrNodeRuntimeNotFound
  | Some r => Ok (scanNode executionID planRevision nodeID r)
  end.

Definition leaseOwnsRow (row : nodeRuntimeRow) (lease : NodeLease) (now : Time) : bool :=
  (Runtime_State (row_record row) ==? NodeRunning)
  && (row_leaseOwner row ==? Some (Lease_OwnerWorkerID lease))
  && (row_leaseToken row ==? Some (Lease_Token lease))
  && (Runtime_LeaseFence (row_record row) =? Lease_Fence lease)%Z
  && (Runtime_AttemptNumber (row_record row) =? Lease_AttemptNumber lease)%Z
  && match row_leaseExpiresAt row with Some e => Before now e | None => false end.

Definition scanAttempt (id : AttemptID) (r : AttemptRow) : AttemptRecord :=
  {| Record_Attempt :=
       {| Attempt_ID := id; Attempt_ExecutionRef := (a_ref r).1.1; Attempt_NodeRef := (a_ref r).2;
          Attempt_TargetRef := default "" (a_target_id r);
          Attempt_TargetRevision := default 0%Z (a_target_revision r);
          Attempt_TargetSnapshot := default "" (a_target_snapshot_digest r);
          Attempt_AttemptNumber := a_attempt_number r; Attempt_Status := a_status r;
          Attempt_ErrorClass := default ErrorClassZero (a_error_class r);
          Attempt_Usage :=
            {| Usage_InputTokens := a_input_tokens r; Usage_OutputTokens := a_output_tokens r;
               Usage_Cost := a_cost r; Usage_Duration := mul64 (a_duration_ms r) Millisecond |};
          Attempt_IdempotencyKey := default "" (a_idempotency_key r);
          Attempt_EffectStartedAt := a_effect_started_at r;
          Attempt_EffectCommittedAt := a_effect_committed_at r;
          Attempt_StartedAt := default 0%Z (a_started_at r);
          Attempt_FinishedAt := a_finished_at r |};
     Record_PlanRevision := (a_ref r).1.2; Record_LeaseFence := a_lease_fence r;
     Record_LeaseOwner := a_lease_owner r;
     Record_PolicyDecisionRef := default "" (a_policy_decision_id r);
     Record_BudgetReservationRef := default "" (a_budget_reservation_id r);
     Record_ClaimedAt := a_claimed_at r; Record_CreatedAt := a_created_at r;
     Record_UpdatedAt := a_updated_at r |}.

Definition loadAttemptTx (env : TxEnv) (p : Identity.Principal) (attemptID : AttemptID) (db : DB)
    : result AttemptRecord :=
  _ ← fault env "load execution attempt";
  match attempts db !! (scope_of p, attemptID) with
  | None => Err ErrAttemptNotFound
  | Some r => Ok (scanAttempt attemptID r)
  end.

Definition node_attempts (scope : ScopeKey) (ref : NodeRef) (m : gmap AttemptKey AttemptRow)
    : list (AttemptID * AttemptRow) :=
  omap (λ kv, if (kv.1.1 ==? scope) && (a_ref kv.2 ==? ref) then Some (kv.1.2, kv.2) else None)
    (map_to_list m).

(** The first row a query without ORDER BY returns; the UNIQUE constraints
    leave at most one. *)
Definition loadCurrentAttemptIDTx (env : TxEnv) (p : Identity.Principal) (executionID : ExecutionID)
    (planRevision : Z) (nodeID : NodeID) (attemptNumber fence : Z) (db : DB) : result AttemptID :=
  _ ← exec_stmt env "load current execution attempt id";
  _ ← int4_param "load current execution attempt id" attemptNumber;
  match List.find (λ kv, (a_attempt_number kv.2 =? attemptNumber)%Z && (a_lease_fence kv.2 =? fence)%Z)
          (node_attempts (scope_of p) (executionID, planRevision, nodeID) (attempts db)) with
  | None => Err ErrAttemptNotFound
  | Some (id, _) => Ok id
  end.

(** ** Attempt statements *)

Definition attempt_ref_matches (executionID : ExecutionID) (planRevision : Z) (nodeID : NodeID)
    (attemptNumber fence : Z) (r : AttemptRow) : bool :=
  (a_ref r ==? (executionID, planRevision, nodeID))
  && (a_attempt_number r =? attemptNumber)%Z && (a_lease_fence r =? fence)%Z.

Definition lease_attempt_matches (lease : NodeLease) (id : AttemptID) (r : AttemptRow) : bool :=
  (id ==? Lease_AttemptRef lease)
  && attempt_ref_matches (Lease_ExecutionRef lease) (Lease_PlanRevision lease) (Lease_NodeRef lease)
       (Lease_AttemptNumber lease) (Lease_Fence lease) r.

Definition pendingAttempt (ref : NodeRef) (attemptNumber fence : Z) (owner idempotencyKey : string)
    (claimedAt : Time) : AttemptRow :=
  {| a_ref := ref; a_attempt_number := attemptNumber; a_lease_fence := fence; a_lease_owner := owner;
     a_status := AttemptPending; a_target_id := None; a_target_revision := None;
     a_target_snapshot_digest := None; a_policy_decision_id := None; a_budget_reservation_id := None;
     a_idempotency_key := NULLIF idempotencyKey; a_error_class := None; a_input_tokens := 0;
     a_output_tokens := 0; a_cost := f_zero; a_duration_ms := 0; a_claimed_at := claimedAt;
     a_started_at := None; a_effect_started_at := None; a_effect_committed_at := None;
     a_finished_at := None; a_created_at := claimedAt; a_updated_at := claimedAt |}.

Definition insertPendingAttemptTx (env : TxEnv) (p : Identity.Principal) (attemptID : AttemptID)
    (executionID : ExecutionID) (planRevision : Z) (nodeID : NodeID) (attemptNumber fence : Z)
    (owner idempotencyKey : string) (claimedAt : Time) (db : DB) : result DB :=
  insert_attempt env "insert pending execution attempt" (scope_of p) attemptID
    (pendingAttempt (executionID, planRevision, nodeID) attemptNumber fence owner idempotencyKey claimedAt)
    db.

Definition requireOneAttemptRow (env : TxEnv) (label : string) (r : nat * DB) : result DB :=
  affected ← RowsAffected env label r.1;
  if affected !=? 1 then Err ErrAttemptStateConflict else Ok r.2.

Definition set_abandoned (finishedAt : Time) (r : AttemptRow) : AttemptRow :=
  {| a_ref := a_ref r; a_attempt_number := a_attempt_number r; a_lease_fence := a_lease_fence r;
     a_lease_owner := a_lease_owner r; a_status := AttemptAbandoned; a_target_id := a_target_id r;
     a_target_revision := a_target_revision r; a_target_snapshot_digest := a_target_snapshot_digest r;
     a_policy_decision_id := a_policy_decision_id r; a_budget_reservation_id := a_budget_reservation_id r;
     a_idempotency_key := a_idempotency_key r; a_error_class := a_error_class r;
     a_input_tokens := a_input_tokens r; a_output_tokens := a_output_tokens r; a_cost := a_cost r;
     a_duration_ms := a_duration_ms r; a_claimed_at := a_claimed_at r; a_started_at := a_started_at r;
     a_effect_started_at := a_effect_started_at r; a_effect_committed_at := a_effect_committed_at r;
     a_finished_at := Some finishedAt; a_created_at := a_created_at r; a_updated_at := finishedAt |}.

Definition open_status (s : AttemptStatus) : bool :=
  (s ==? AttemptPending) || (s ==? AttemptRunning).

Definition abandonAttemptTx (env : TxEnv) (p : Identity.Principal) (executionID : ExecutionID)
    (planRevision : Z) (nodeID : NodeID) (attemptNumber fence : Z) (finishedAt : Time) (db : DB)
    : result DB :=
  _ ← int4_param "abandon execution attempt" attemptNumber;
  r ← update_attempts env "abandon execution attempt" (scope_of p)
        (λ _ r, attempt_ref_matches executionID planRevision nodeID attemptNumber fence r
                && open_status (a_status r))
        (set_abandoned finishedAt) db;
  requireOneAttemptRow env "abandon execution attempt" r.

Definition set_attempt_effect_started (at_ : Time) (r : AttemptRow) : AttemptRow :=
  {| a_ref := a_ref r; a_attempt_number := a_attempt_number r; a_lease_fence := a_lease_fence r;
     a_lease_owner := a_lease_owner r; a_status := a_status r; a_target_id := a_target_id r;
     a_target_revision := a_target_revision r; a_target_snapshot_digest := a_target_snapshot_digest r;
     a_policy_decision_id := a_policy_decision_id r; a_budget_reservation_id := a_budget_reservation_id r;
     a_idempotency_key := a_idempotency_key r; a_error_class := a_error_class r;
     a_input_tokens := a_input_tokens r; a_output_tokens := a_output_tokens r; a_cost := a_cost r;
     a_duration_ms := a_duration_ms r; a_claimed_at := a_claimed_at r; a_started_at := a_started_at r;
     a_effect_started_at := Some at_; a_effect_committed_at := a_effect_committed_at r;
     a_finished_at := a_finished_at r; a_created_at := a_created_at r; a_updated_at := at_ |}.

Definition updateAttemptEffectStartedTx (env : TxEnv) (p : Identity.Principal) (lease : NodeLease)
    (at_ : Time) (db : DB) : result DB :=
  _ ← int4_param "mark attempt effect started" (Lease_AttemptNumber lease);
  r ← update_attempts env "mark attempt effect started" (scope_of p)
        (λ id r, lease_attempt_matches lease id r && (a_status r ==? AttemptRunning)
                 && isNull (a_effect_started_at r))
        (set_attempt_effect_started at_) db;
  requireOneAttemptRow env "mark attempt effect started" r.

Definition set_attempt_effect_committed (at_ : Time) (r : AttemptRow) : AttemptRow :=
  {| a_ref := a_ref r; a_attempt_number := a_attempt_number r; a_lease_fence := a_lease_fence r;
     a_lease_owner := a_lease_owner r; a_status := a_status r; a_target_id := a_target_id r;
     a_target_revision := a_target_revision r; a_target_snapshot_digest := a_target_snapshot_digest r;
     a_policy_decision_id := a_policy_decision_id r; a_budget_reservation_id := a_budget_reservation_id r;
     a_idempotency_key := a_idempotency_key r; a_error_class := a_error_class r;
     a_input_tokens := a_input_tokens r; a_output_tokens := a_output_tokens r; a_cost := a_cost r;
     a_duration_ms := a_duration_ms r; a_claimed_at := a_claimed_at r; a_started_at := a_started_at r;
     a_effect_started_at := a_effect_started_at r; a_effect_committed_at := Some at_;
     a_finished_at := a_finished_at r; a_created_at := a_created_at r; a_updated_at := at_ |}.

Definition updateAttemptEffectCommittedTx (env : TxEnv) (p : Identity.Principal) (lease : NodeLease)
    (at_ : Time) (db : DB) : result DB :=
  _ ← int4_param "mark attempt effect committed" (Lease_AttemptNumber lease);
  r ← update_attempts env "mark attempt effect committed" (scope_of p)
        (λ id r, lease_attempt_matches lease id r && (a_status r ==? AttemptRunning)
                 && notNull (a_effect_started_at r) && isNull (a_effect_committed_at r))
        (set_attempt_effect_committed at_) db;
  requireOneAttemptRow env "mark attempt effect committed" r.

Definition set_started (binding : AttemptBinding) (now : Time) (r : AttemptRow) : AttemptRow :=
  {| a_ref := a_ref r; a_attempt_number := a_attempt_number r; a_lease_fence := a_lease_fence r;
     a_lease_owner := a_lease_owner r; a_status := AttemptRunning;
     a_target_id := Some (Binding_TargetRef binding);
     a_target_revision := Some (Binding_TargetRevision binding);
     a_target_snapshot_digest := Some (Binding_TargetSnapshot binding);
     a_policy_decision_id := Some (Binding_PolicyDecisionRef binding);
     a_budget_reservation_id := Some (Binding_BudgetReservationRef binding);
     a_idempotency_key := a_idempotency_key r; a_error_class := a_error_class r;
     a_input_tokens := a_input_tokens r; a_output_tokens := a_output_tokens r; a_cost := a_cost r;
     a_duration_ms := a_duration_ms r; a_claimed_at := a_claimed_at r; a_started_at := Some now;
     a_effect_started_at := a_effect_started_at r; a_effect_committed_at := a_effect_committed_at r;
     a_finished_at := a_finished_at r; a_created_at := a_created_at r; a_updated_at := now |}.

Section store.
(** PostgreSQL's rounding of a Go time to TIMESTAMPTZ, and what a float64 reads
    back as after it was stored in NUMERIC(20,8) (or the error of storing it). *)
Variable pg_ts : Time → Time.
Variable pg_cost : float64 → result float64.

Definition set_completed (completion : AttemptCompletion) (cost : float64) (finishedAt : Time)
    (r : AttemptRow) : AttemptRow :=
  {| a_ref := a_ref r; a_attempt_number := a_attempt_number r; a_lease_fence := a_lease_fence r;
     a_lease_owner := a_lease_owner r; a_status := Completion_Status completion;
     a_target_id := a_target_id r; a_target_revision := a_target_revision r;
     a_target_snapshot_digest := a_target_snapshot_digest r;
     a_policy_decision_id := a_policy_decision_id r; a_budget_reservation_id := a_budget_reservation_id r;
     a_idempotency_key := a_idempotency_key r;
     a_error_class := NULLIF_class (Completion_ErrorClass completion);
     a_input_tokens := Usage_InputTokens (Completion_Usage completion);
     a_output_tokens := Usage_OutputTokens (Completion_Usage completion); a_cost := cost;
     a_duration_ms := Milliseconds (Usage_Duration (Completion_Usage completion));
     a_claimed_at := a_claimed_at r; a_started_at := a_started_at r;
     a_effect_started_at := a_effect_started_at r; a_effect_committed_at := a_effect_committed_at r;
     a_finished_at := Some finishedAt; a_created_at := a_created_at r; a_updated_at := finishedAt |}.

Definition completeAttemptTx (env : TxEnv) (p : Identity.Principal) (lease : NodeLease)
    (completion : AttemptCompletion) (finishedAt : Time) (db : DB) : result DB :=
  _ ← int4_param "complete execution attempt" (Lease_AttemptNumber lease);
  cost ← match pg_cost (Usage_Cost (Completion_Usage completion)) with
         | Err e => Err (Errorw "complete execution attempt: %w" [] e)
         | Ok cost => Ok cost
         end;
  r ← update_attempts env "complete execution attempt" (scope_of p)
        (λ id r, lease_attempt_matches lease id r
                 && ((a_status r ==? AttemptRunning)
                     || ((Completion_Status completion ==? AttemptCancelled)
                         && (a_status r ==? AttemptPending))))
        (set_completed completion cost finishedAt) db;
  requireOneAttemptRow env "complete execution attempt" r.

(** ** Node statements *)

(** [WHERE .. state='RUNNING' AND lease_owner=$4 AND lease_token=$5 AND
    lease_fence=$6 AND lease_expires_at > $7]. *)
Definition lease_cond (lease : NodeLease) (now : Time) (r : NodeRow) : bool :=
  (n_state r ==? NodeRunning)
  && (n_lease_owner r ==? Some (Lease_OwnerWorkerID lease))
  && (n_lease_token r ==? Some (Lease_Token lease))
  && (n_lease_fence r =? Lease_Fence lease)%Z
  && match n_lease_expires_at r with Some e => (now <? e)%Z | None => false end.

Definition lease_key (p : Identity.Principal) (lease : NodeLease) : NodeKey :=
  (scope_of p, (Lease_ExecutionRef lease, Lease_PlanRevision lease, Lease_NodeRef lease)).

Definition set_claimed (attemptNumber : Z) (owner token : string) (fence : Z) (now expiresAt : Time)
    (r : NodeRow) : NodeRow :=
  {| n_state := NodeRunning; n_effect_class := n_effect_class r; n_retry_safe := n_retry_safe r;
     n_idempotency_key := n_idempotency_key r; n_attempt_number := attemptNumber;
     n_lease_owner := Some owner; n_lease_token := Some token; n_lease_fence := fence;
     n_claimed_at := Some now; n_heartbeat_at := Some now; n_lease_expires_at := Some (pg_ts expiresAt);
     n_effect_started_at := None; n_effect_committed_at := None; n_created_at := n_created_at r;
     n_updated_at := now |}.

Definition set_renewed (now expiresAt : Time) (r : NodeRow) : NodeRow :=
  {| n_state := n_state r; n_effect_class := n_effect_class r; n_retry_safe := n_retry_safe r;
     n_idempotency_key := n_idempotency_key r; n_attempt_number := n_attempt_number r;
     n_lease_owner := n_lease_owner r; n_lease_token := n_lease_token r; n_lease_fence := n_lease_fence r;
     n_claimed_at := n_claimed_at r; n_heartbeat_at := Some now;
     n_lease_expires_at := Some (pg_ts expiresAt);
     n_effect_started_at := n_effect_started_at r; n_effect_committed_at := n_effect_committed_at r;
     n_created_at := n_created_at r; n_updated_at := now |}.

Definition set_effect_started (now : Time) (r : NodeRow) : NodeRow :=
  {| n_state := n_state r; n_effect_class := n_effect_class r; n_retry_safe := n_retry_safe r;
     n_idempotency_key := n_idempotency_key r; n_attempt_number := n_attempt_number r;
     n_lease_owner := n_lease_owner r; n_lease_token := n_lease_token r; n_lease_fence := n_lease_fence r;
     n_claimed_at := n_claimed_at r; n_heartbeat_at := n_heartbeat_at r;
     n_lease_expires_at := n_lease_expires_at r;
     n_effect_started_at := Some now; n_effect_committed_at := n_effect_committed_at r;
     n_created_at := n_created_at r; n_updated_at := now |}.

Definition set_effect_committed (now : Time) (r : NodeRow) : NodeRow :=
  {| n_state := n_state r; n_effect_class := n_effect_class r; n_retry_safe := n_retry_safe r;
     n_idempotency_key := n_idempotency_key r; n_attempt_number := n_attempt_number r;
     n_lease_owner := n_lease_owner r; n_lease_token := n_lease_token r; n_lease_fence := n_lease_fence r;
     n_claimed_at := n_claimed_at r; n_heartbeat_at := n_heartbeat_at r;
     n_lease_expires_at := n_lease_expires_at r;
     n_effect_started_at := n_effect_started_at r; n_effect_committed_at := Some now;
     n_created_at := n_created_at r; n_updated_at := now |}.

(** [SET state=s, lease_owner=NULL, lease_token=NULL, claimed_at=NULL,
    heartbeat_at=NULL, lease_expires_at=NULL, updated_at=now]. *)
Definition set_unleased (s : NodeState) (now : Time) (r : NodeRow) : NodeRow :=
  {| n_state := s; n_effect_class := n_effect_class r; n_retry_safe := n_retry_safe r;
     n_idempotency_key := n_idempotency_key r; n_attempt_number := n_attempt_number r;
     n_lease_owner := None; n_lease_token := None; n_lease_fence := n_lease_fence r;
     n_claimed_at := None; n_heartbeat_at := None; n_lease_expires_at := None;
     n_effect_started_at := n_effect_started_at r; n_effect_committed_at := n_effect_committed_at r;
     n_created_at := n_created_at r; n_updated_at := now |}.

(** [affected != 1] of a node statement is reported as [e]. *)
Definition requireOneNodeRow (env : TxEnv) (label : string) (e : error) (r : nat * DB) : result DB :=
  affected ← RowsAffected env label r.1;
  if affected !=? 1 then Err e else Ok r.2.

(** ** Operations *)

Definition registeredRow (record : NodeRuntimeRecord) (now : Time) : NodeRow :=
  {| n_state := Runtime_State record; n_effect_class := Runtime_EffectClass record;
     n_retry_safe := Runtime_RetrySafe record;
     n_idempotency_key := NULLIF (Runtime_IdempotencyKey record);
     n_attempt_number := Runtime_AttemptNumber record; n_lease_owner := None; n_lease_token := None;
     n_lease_fence := Runtime_LeaseFence record; n_claimed_at := None; n_heartbeat_at := None;
     n_lease_expires_at := None; n_effect_started_at := None; n_effect_committed_at := None;
     n_created_at := now; n_updated_at := now |}.

Definition Register (env : TxEnv) (record : NodeRuntimeRecord) (db : DB) : result unit * DB :=
  match validateNodeRuntimeRecord record with
  | Err e => (Err e, db)
  | Ok _ =>
      withScopedTx env (λ principal db,
        _ ← exec_stmt env "register execution node runtime";
        let k := (scope_of principal,
                  (Runtime_ExecutionRef record, Runtime_PlanRevision record, Runtime_NodeRef record)) in
        let row := registeredRow record (env_now env) in
        if negb (node_checks k row) then Err (violation "register execution node runtime")
        else match nodes db !! k with
        | Some _ =>
            affected ← RowsAffected env "register execution node runtime" 0;
            if affected !=? 1 then Err ErrNodeRuntimeExists else Ok (tt, db)
        | None =>
            affected ← RowsAffected env "register execution node runtime" 1;
            if affected !=? 1 then Err ErrNodeRuntimeExists
            else Ok (tt, mkDB (<[k := row]> (nodes db)) (attempts db))
        end) db
  end.

(** Whether [Claim] takes the node, and whether it takes it over. *)
Definition claimable (row : nodeRuntimeRow) (now : Time) : result bool :=
  if NodeRuntimeRecord_Terminal (row_record row) then Err ErrNodeNotClaimable
  else match Runtime_State (row_record row) with
  | NodeReady => if notNull (row_leaseToken row) then Err ErrNodeLeaseHeld else Ok false
  | NodeRunning =>
      if match row_leaseExpiresAt row with Some e => Before now e | None => false end
      then Err ErrNodeLeaseHeld
      else if negb (Runtime_RetrySafe (row_record row))
              || notNull (Runtime_EffectCommittedAt (row_record row))
      then Err ErrNodeRecoveryRequired
      else Ok true
  | _ => Err ErrNodeNotClaimable
  end.

Definition Claim (env : TxEnv) (executionID : ExecutionID) (planRevision : Z) (nodeID : NodeID)
    (owner : string) (leaseDuration : Duration) (db : DB) : result NodeLease * DB :=
  match validateLeaseIdentity executionID planRevision nodeID owner leaseDuration with
  | Err e => (Err e, db)
  | Ok _ =>
      withScopedTx env (λ principal db,
        now ← databaseNow env;
        row ← loadNodeRuntime env principal executionID planRevision nodeID db;
        let record := row_record row in
        reclaim ← claimable row now;
        db ← (if reclaim : bool
              then abandonAttemptTx env principal executionID planRevision nodeID
                     (Runtime_AttemptNumber record) (Runtime_LeaseFence record) now db
              else Ok db);
        token ← newLeaseToken env 0;
        attemptID ← newAttemptID env 1;
        let expiresAt := Add now leaseDuration in
        let attemptNumber := add64 (Runtime_AttemptNumber record) 1 in
        let fence := add64 (Runtime_LeaseFence record) 1 in
        r ← update_node env "claim execution node"
              (scope_of principal, (executionID, planRevision, nodeID)) (λ _, true)
              (set_claimed attemptNumber owner token fence now expiresAt) db;
        db ← requireOneNodeRow env "claim execution node" ErrNodeLeaseLost r;
        db ← insertPendingAttemptTx env principal attemptID executionID planRevision nodeID
               attemptNumber fence owner (Runtime_IdempotencyKey record) now db;
        Ok (mkNodeLease executionID planRevision nodeID attemptID owner token fence attemptNumber
              now now expiresAt, db)) db
  end.

Definition lease_with (lease : NodeLease) (heartbeat expires : Time) : NodeLease :=
  {| Lease_ExecutionRef := Lease_ExecutionRef lease; Lease_PlanRevision := Lease_PlanRevision lease;
     Lease_NodeRef := Lease_NodeRef lease; Lease_AttemptRef := Lease_AttemptRef lease;
     Lease_OwnerWorkerID := Lease_OwnerWorkerID lease; Lease_Token := Lease_Token lease;
     Lease_Fence := Lease_Fence lease; Lease_AttemptNumber := Lease_AttemptNumber lease;
     Lease_ClaimedAt := Lease_ClaimedAt lease; Lease_HeartbeatAt := heartbeat;
     Lease_ExpiresAt := expires |}.

Definition Renew (env : TxEnv) (lease : NodeLease) (leaseDuration : Duration) (db : DB)
    : result NodeLease * DB :=
  match validateHeldLease lease leaseDuration with
  | Err e => (Err e, db)
  | Ok _ =>
      withScopedTx env (λ principal db,
        now ← databaseNow env;
        let expiresAt := Add now leaseDuration in
        r ← update_node env "renew execution node lease" (lease_key principal lease)
              (lease_cond lease now) (set_renewed now expiresAt) db;
        db ← requireOneNodeRow env "renew execution node lease" ErrNodeLeaseLost r;
        Ok (lease_with lease now expiresAt, db)) db
  end.

Definition StartAttempt (env : TxEnv) (lease : NodeLease) (binding : AttemptBinding) (db : DB)
    : result AttemptRecord * DB :=
  if blank (Lease_AttemptRef lease)
  then (Err (Errorw "%w: lease attempt reference is required" [] ErrAttemptBindingInvalid), db)
  else match validateAttemptBinding binding with
  | Err e => (Err e, db)
  | Ok _ =>
      withScopedTx env (λ principal db,
        now ← databaseNow env;
        runtime ← loadNodeRuntime env principal (Lease_ExecutionRef lease) (Lease_PlanRevision lease)
                    (Lease_NodeRef lease) db;
        if negb (leaseOwnsRow runtime lease now) then Err ErrNodeLeaseLost
        else
          _ ← int4_param "start execution attempt" (Lease_AttemptNumber lease);
          r ← update_attempts env "start execution attempt" (scope_of principal)
                (λ id r, lease_attempt_matches lease id r && (a_status r ==? AttemptPending))
                (set_started binding now) db;
          db ← requireOneAttemptRow env "start execution attempt" r;
          record ← loadAttemptTx env principal (Lease_AttemptRef lease) db;
          Ok (record, db)) db
  end.

Definition MarkEffectStarted (env : TxEnv) (lease : NodeLease) (db : DB) : result unit * DB :=
  match validateLeaseAttempt lease with
  | Err e => (Err e, db)
  | Ok _ =>
      withScopedTx env (λ principal db,
        now ← databaseNow env;
        r ← update_node env "mark node effect started" (lease_key principal lease)
              (λ r, lease_cond lease now r && isNull (n_effect_started_at r))
              (set_effect_started now) db;
        db ← requireOneNodeRow env "mark node effect started" ErrNodeLeaseLost r;
        db ← updateAttemptEffectStartedTx env principal lease now db;
        Ok (tt, db)) db
  end.

Definition MarkEffectCommitted (env : TxEnv) (lease : NodeLease) (db : DB) : result unit * DB :=
  match validateLeaseAttempt lease with
  | Err e => (Err e, db)
  | Ok _ =>
      withScopedTx env (λ principal db,
        now ← databaseNow env;
        r ← update_node env "mark node effect committed" (lease_key principal lease)
              (λ r, lease_cond lease now r && notNull (n_effect_started_at r)
                    && isNull (n_effect_committed_at r))
              (set_effect_committed now) db;
        db ← requireOneNodeRow env "mark node effect committed" ErrNodeLeaseLost r;
        db ← updateAttemptEffectCommittedTx env principal lease now db;
        Ok (tt, db)) db
  end.

Definition ReleaseBeforeEffect (env : TxEnv) (lease : NodeLease) (db : DB) : result unit * DB :=
  match validateLeaseAttempt lease with
  | Err e => (Err e, db)
  | Ok _ =>
      withScopedTx env (λ principal db,
        now ← databaseNow env;
        r ← update_node env "release execution node lease" (lease_key principal lease)
              (λ r, lease_cond lease now r && isNull (n_effect_started_at r))
              (set_unleased NodeReady now) db;
        db ← requireOneNodeRow env "release execution node lease" ErrNodeLeaseLost r;
        db ← abandonAttemptTx env principal (Lease_ExecutionRef lease) (Lease_PlanRevision lease)
               (Lease_NodeRef lease) (Lease_AttemptNumber lease) (Lease_Fence lease) now db;
        Ok (tt, db)) db
  end.

Definition Complete (env : TxEnv) (lease : NodeLease) (terminal : NodeState)
    (completion : AttemptCompletion) (db : DB) : result unit * DB :=
  match validateLeaseAttempt lease with
  | Err e => (Err e, db)
  | Ok _ =>
  match validateAttemptCompletion terminal completion with
  | Err e => (Err e, db)
  | Ok _ =>
      withScopedTx env (λ principal db,
        now ← databaseNow env;
        row ← loadNodeRuntime env principal (Lease_ExecutionRef lease) (Lease_PlanRevision lease)
                (Lease_NodeRef lease) db;
        if negb (leaseOwnsRow row lease now) then Err ErrNodeLeaseLost
        else if (terminal ==? NodeSucceeded) && isMutation (Runtime_EffectClass (row_record row))
                && isNull (Runtime_EffectCommittedAt (row_record row))
        then Err ErrNodeEffectNotCommitted
        else
          db ← completeAttemptTx env principal lease completion now db;
          r ← update_node env "complete execution node" (lease_key principal lease)
                (lease_cond lease now) (set_unleased terminal now) db;
          db ← requireOneNodeRow env "complete execution node" ErrNodeLeaseLost r;
          Ok (tt, db)) db
  end end.

Definition RequeueFailed (env : TxEnv) (executionID : ExecutionID) (planRevision : Z) (nodeID : NodeID)
    (db : DB) : result unit * DB :=
  if (executionID ==? "") || (planRevision <? 1)%Z || (nodeID ==? "")
  then (Err (Errorf "execution, positive plan revision and node are required" []), db)
  else withScopedTx env (λ principal db,
    now ← databaseNow env;
    row ← loadNodeRuntime env principal executionID planRevision nodeID db;
    if Runtime_State (row_record row) !=? NodeFailed then Err ErrNodeNotClaimable
    else if negb (Runtime_RetrySafe (row_record row)) || isMutation (Runtime_EffectClass (row_record row))
    then Err ErrNodeRecoveryRequired
    else
      r ← update_node env "requeue failed execution node"
            (scope_of principal, (executionID, planRevision, nodeID))
            (λ r, n_state r ==? NodeFailed) (set_unleased NodeReady now) db;
      db ← requireOneNodeRow env "requeue failed execution node" ErrNodeNotClaimable r;
      Ok (tt, db)) db.

Definition Get (env : TxEnv) (executionID : ExecutionID) (planRevision : Z) (nodeID : NodeID) (db : DB)
    : result (NodeRuntimeRecord * option NodeLease) * DB :=
  withScopedTx env (λ principal db,
    row ← loadNodeRuntime env principal executionID planRevision nodeID db;
    let record := row_record row in
    match row_leaseToken row with
    | None => Ok ((record, None), db)
    | Some token =>
        attemptID ← loadCurrentAttemptIDTx env principal executionID planRevision nodeID
                      (Runtime_AttemptNumber record) (Runtime_LeaseFence record) db;
        Ok ((record,
             Some (mkNodeLease executionID planRevision nodeID attemptID
                     (default "" (row_leaseOwner row)) token (Runtime_LeaseFence record)
                     (Runtime_AttemptNumber record) (default 0%Z (row_claimedAt row))
                     (default 0%Z (row_heartbeatAt row)) (default 0%Z (row_leaseExpiresAt row)))), db)
    end) db.

Definition GetAttempt (env : TxEnv) (attemptID : AttemptID) (db : DB) : result AttemptRecord * DB :=
  if attemptID ==? "" then (Err (Errorf "attempt id is required" []), db)
  else withScopedTx env (λ principal db,
    record ← loadAttemptTx env principal attemptID db; Ok (record, db)) db.

Definition number_le (a b : AttemptID * AttemptRow) : Prop :=
  (a_attempt_number a.2 ≤ a_attempt_number b.2)%Z.
#[export] Instance number_le_dec a b : Decision (number_le a b) := decide (_ ≤ _)%Z.

Definition ListAttempts (env : TxEnv) (executionID : ExecutionID) (planRevision : Z) (nodeID : NodeID)
    (db : DB) : result (list AttemptRecord) * DB :=
  if (executionID ==? "") || (planRevision <? 1)%Z || (nodeID ==? "")
  then (Err (Errorf "execution, positive plan revision and node are required" []), db)
  else withScopedTx env (λ principal db,
    _ ← exec_stmt env "list execution attempts";
    _ ← fault env "scan execution attempts";
    Ok ((λ a, scanAttempt a.1 a.2)
          <$> merge_sort number_le
                (node_attempts (scope_of principal) (executionID, planRevision, nodeID) (attempts db)),
        db)) db.

End store.
End LeaseStore.
