(* ===== verification/LeaseSpec.v ===== *)
(** * LeaseSpec: the abstract lease protocol

    What the lease store promises, without SQL, transactions or faults: a step
    relation on the two tables, one rule per kind of change.  [LeaseRefine]
    proves that every operation of [LeaseStore] either leaves the tables alone
    or takes one of these steps; the invariants and the safety theorems are
    proved about the steps. *)
From S2P Require Import Prelude ExecTypes LeaseSchema LeaseStore.

Module LeaseSpec.
Import LeaseSchema LeaseStore.

(** The rows a lease operation touches: the node [k] with row [n], and the open
    attempt [id] with row [a] that carries the node's number and fence. *)
Record current (db : DB) (k : NodeKey) (n : NodeRow) (id : AttemptID) (a : AttemptRow) : Prop := {
  cur_node : nodes db !! k = Some n;
  cur_attempt : attempts db !! (k.1, id) = Some a;
  cur_ref : a_ref a = k.2;
  cur_number : a_attempt_number a = n_attempt_number n;
  cur_fence : a_lease_fence a = n_lease_fence n;
  cur_open : open_status (a_status a) = true
}.

Definition put (db : DB) (k : NodeKey) (n : NodeRow) (id : AttemptID) (a : AttemptRow) : DB :=
  mkDB (<[k := n]> (nodes db)) (<[(k.1, id) := a]> (attempts db)).

(** What happened to node [k]; the claim says under which fence. *)
Inductive event : Type :=
| EvRegister (k : NodeKey)
| EvClaim (k : NodeKey) (fence number : Z) (id : AttemptID)
| EvRenew (k : NodeKey)
| EvStart (k : NodeKey) (id : AttemptID)
| EvEffectStarted (k : NodeKey) (id : AttemptID)
| EvEffectCommitted (k : NodeKey) (id : AttemptID)
| EvRelease (k : NodeKey) (id : AttemptID)
| EvComplete (k : NodeKey) (id : AttemptID) (terminal : NodeState) (completion : AttemptCompletion)
| EvRequeue (k : NodeKey).

Definition event_key (e : event) : NodeKey :=
  match e with
  | EvRegister k | EvClaim k _ _ _ | EvRenew k | EvStart k _ | EvEffectStarted k _
  | EvEffectCommitted k _ | EvRelease k _ | EvComplete k _ _ _ | EvRequeue k => k
  end.

(** A node and its new pending attempt under the next number and fence. *)
Definition claimed (pg_ts : Time → Time) (n : NodeRow) (owner token : string) (now expires : Time)
    : NodeRow :=
  set_claimed pg_ts (n_attempt_number n + 1) owner token (n_lease_fence n + 1) now expires n.
Definition claim_attempt (k : NodeKey) (n : NodeRow) (owner : string) (now : Time) : AttemptRow :=
  pendingAttempt k.2 (n_attempt_number n + 1) (n_lease_fence n + 1) owner
    (default "" (n_idempotency_key n)) now.

Inductive lstep (pg_ts : Time → Time) : event → DB → DB → Prop :=
| step_register db k record now :
    nodes db !! k = None →
    node_checks k (registeredRow record now) = true →
    lstep pg_ts (EvRegister k) db (mkDB (<[k := registeredRow record now]> (nodes db)) (attempts db))
| step_claim db k n id owner token now expires :
    nodes db !! k = Some n → n_state n = NodeReady →
    attempts db !! (k.1, id) = None →
    node_checks k (claimed pg_ts n owner token now expires) = true →
    attempt_checks (claim_attempt k n owner now) = true →
    lstep pg_ts (EvClaim k (n_lease_fence n + 1) (n_attempt_number n + 1) id) db
      (put db k (claimed pg_ts n owner token now expires) id (claim_attempt k n owner now))
| step_reclaim db k n old a id owner token now expires e :
    current db k n old a → n_state n = NodeRunning →
    n_retry_safe n = true → n_effect_committed_at n = None →
    n_lease_expires_at n = Some e → (e ≤ now)%Z →
    old ≠ id → attempts db !! (k.1, id) = None →
    attempt_checks (set_abandoned now a) = true →
    node_checks k (claimed pg_ts n owner token now expires) = true →
    attempt_checks (claim_attempt k n owner now) = true →
    lstep pg_ts (EvClaim k (n_lease_fence n + 1) (n_attempt_number n + 1) id) db
      (put (put db k (set_unleased NodeReady now n) old (set_abandoned now a))
         k (claimed pg_ts n owner token now expires) id (claim_attempt k n owner now))
| step_renew db k n id a now expires :
    current db k n id a → n_state n = NodeRunning →
    node_checks k (set_renewed pg_ts now expires n) = true →
    lstep pg_ts (EvRenew k) db (put db k (set_renewed pg_ts now expires n) id a)
| step_start db k n id a binding now :
    current db k n id a → n_state n = NodeRunning → a_status a = AttemptPending →
    attempt_checks (set_started binding now a) = true →
    lstep pg_ts (EvStart k id) db (put db k n id (set_started binding now a))
| step_effect_started db k n id a now :
    current db k n id a → n_state n = NodeRunning → a_status a = AttemptRunning →
    n_effect_started_at n = None →
    node_checks k (set_effect_started now n) = true →
    attempt_checks (set_attempt_effect_started now a) = true →
    lstep pg_ts (EvEffectStarted k id) db
      (put db k (set_effect_started now n) id (set_attempt_effect_started now a))
| step_effect_committed db k n id a now :
    current db k n id a → n_state n = NodeRunning → a_status a = AttemptRunning →
    n_effect_started_at n ≠ None → n_effect_committed_at n = None →
    node_checks k (set_effect_committed now n) = true →
    attempt_checks (set_attempt_effect_committed now a) = true →
    lstep pg_ts (EvEffectCommitted k id) db
      (put db k (set_effect_committed now n) id (set_attempt_effect_committed now a))
| step_release db k n id a now :
    current db k n id a → n_state n = NodeRunning → n_effect_started_at n = None →
    node_checks k (set_unleased NodeReady now n) = true →
    attempt_checks (set_abandoned now a) = true →
    lstep pg_ts (EvRelease k id) db
      (put db k (set_unleased NodeReady now n) id (set_abandoned now a))
| step_complete db k n id a terminal completion cost now :
    current db k n id a → n_state n = NodeRunning →
    validateAttemptCompletion terminal completion = Ok tt →
    (a_status a = AttemptRunning ∨ Completion_Status completion = AttemptCancelled) →
    (terminal = NodeSucceeded → isMutation (n_effect_class n) = true →
       n_effect_committed_at n ≠ None) →
    node_checks k (set_unleased terminal now n) = true →
    attempt_checks (set_completed completion cost now a) = true →
    lstep pg_ts (EvComplete k id terminal completion) db
      (put db k (set_unleased terminal now n) id (set_completed completion cost now a))
| step_requeue db k n now :
    nodes db !! k = Some n → n_state n = NodeFailed →
    n_retry_safe n = true → isMutation (n_effect_class n) = false →
    node_checks k (set_unleased NodeReady now n) = true →
    lstep pg_ts (EvRequeue k) db (mkDB (<[k := set_unleased NodeReady now n]> (nodes db)) (attempts db)).

(** Histories of the protocol from the empty tables. *)
Inductive reachable (pg_ts : Time → Time) : list event → DB → Prop :=
| reachable_empty : reachable pg_ts [] emptyDB
| reachable_step evs e db db' :
    reachable pg_ts evs db → lstep pg_ts e db db' → reachable pg_ts (evs ++ [e]) db'.

(** ** The invariant *)

Record Inv (db : DB) : Prop := {
  inv_nodes : map_Forall (λ k n, node_checks k n = true) (nodes db);
  inv_attempts : map_Forall (λ _ a, attempt_checks a = true) (attempts db);
  (** every attempt belongs to a node and is not newer than it *)
  inv_owned : ∀ sc id a, attempts db !! (sc, id) = Some a →
    ∃ n, nodes db !! (sc, a_ref a) = Some n
         ∧ (a_attempt_number a ≤ n_attempt_number n)%Z ∧ (a_lease_fence a ≤ n_lease_fence n)%Z;
  (** numbers and fences are unique within a node *)
  inv_unique : ∀ sc id1 id2 a1 a2,
    attempts db !! (sc, id1) = Some a1 → attempts db !! (sc, id2) = Some a2 →
    a_ref a1 = a_ref a2 →
    a_attempt_number a1 = a_attempt_number a2 ∨ a_lease_fence a1 = a_lease_fence a2 → id1 = id2;
  (** an open attempt is the current attempt of a RUNNING node *)
  inv_open : ∀ sc id a n,
    attempts db !! (sc, id) = Some a → nodes db !! (sc, a_ref a) = Some n →
    open_status (a_status a) = true →
    n_state n = NodeRunning ∧ a_attempt_number a = n_attempt_number n
    ∧ a_lease_fence a = n_lease_fence n;
  (** a RUNNING node has its attempt, held by the same owner, and the two
      agree on the effect's progress *)
  inv_running : ∀ k n, nodes db !! k = Some n → n_state n = NodeRunning →
    ∃ id a, current db k n id a ∧ n_lease_owner n = Some (a_lease_owner a)
      ∧ a_effect_started_at a = n_effect_started_at n
      ∧ a_effect_committed_at a = n_effect_committed_at n;
  (** where a retry could repeat an effect, only the current attempt has begun
      (respectively committed) one, and a READY node has not *)
  inv_started : ∀ k n, nodes db !! k = Some n → n_retry_safe n = false →
    (n_state n = NodeReady → n_effect_started_at n = None)
    ∧ ∀ id a, attempts db !! (k.1, id) = Some a → a_ref a = k.2 →
        a_effect_started_at a ≠ None →
        a_lease_fence a = n_lease_fence n ∧ n_effect_started_at n ≠ None;
  inv_committed : ∀ k n, nodes db !! k = Some n → isMutation (n_effect_class n) = true →
    (n_state n = NodeReady → n_effect_committed_at n = None)
    ∧ ∀ id a, attempts db !! (k.1, id) = Some a → a_ref a = k.2 →
        a_effect_committed_at a ≠ None →
        a_lease_fence a = n_lease_fence n ∧ n_effect_committed_at n ≠ None
}.

Lemma Inv_empty : Inv emptyDB.
Proof. split; try apply map_Forall_empty; intros *; rewrite ?lookup_empty; naive_solver. Qed.

(** The current attempt of a node is unique. *)
Lemma current_unique db k n id a id' a' :
  Inv db → current db k n id a → attempts db !! (k.1, id') = Some a' → a_ref a' = k.2 →
  a_lease_fence a' = n_lease_fence n → id' = id ∧ a' = a.
Proof.
  intros HI Hc Ha' Hr Hf. assert (id' = id) as ->.
  { eapply (inv_unique db HI); [exact Ha'|apply Hc|by rewrite (cur_ref _ _ _ _ _ Hc)|].
    right. by rewrite (cur_fence _ _ _ _ _ Hc). }
  split; [done|]. pose proof (cur_attempt _ _ _ _ _ Hc). congruence.
Qed.

End LeaseSpec.

(** * LeaseInv: the lease protocol keeps its invariant

    Every step of [LeaseSpec.lstep] preserves [LeaseSpec.Inv].  The steps have
    four shapes: a new node; a change of a node together with its current
    attempt; a claim of a node without one; and a requeue. *)

Module LeaseInv.
Import LeaseSchema LeaseStore LeaseSpec.

(** Read a lookup in an updated table: at the key, or elsewhere. *)
Ltac at_key H :=
  let E := fresh "E" in
  apply lookup_insert_Some in H as [[E H]|[E H]]; simplify_eq/=.

Lemma keyed {A B} (k : A * B) : k = (k.1, k.2).
Proof. by destruct k. Qed.

Lemma Inv_new_node db k n :
  Inv db → nodes db !! k = None → node_checks k n = true →
  n_state n ≠ NodeRunning → n_effect_started_at n = None → n_effect_committed_at n = None →
  Inv (mkDB (<[k := n]> (nodes db)) (attempts db)).
Proof.
  intros [Hn Ha Hown Huniq Hopen Hrun Hst Hco] Hk Hc Hs He1 He2.
  assert (∀ id a, attempts db !! (k.1, id) = Some a → a_ref a = k.2 → False) as Hnone.
  { intros id a Hl Hr. destruct (Hown _ _ _ Hl) as (m & Hm & _).
    rewrite Hr, <- (keyed k) in Hm. rewrite Hm in Hk. done. }
  split; simpl; try done.
  - by apply map_Forall_insert_2.
  - intros sc id a Hl. destruct (Hown _ _ _ Hl) as (m & Hm & ?). exists m.
    rewrite lookup_insert_ne; [done|]. intros ->. by apply (Hnone id a).
  - intros sc id a m Hl Hm Ho. at_key Hm; [exfalso; by eapply Hnone|eauto].
  - intros k' m Hm Hr. at_key Hm. destruct (Hrun _ _ Hm Hr) as (id & a & [] & ?).
    exists id, a. split; [|done]. split; simpl; try done. by rewrite lookup_insert_ne.
  - intros k' m Hm Hr. at_key Hm; [|eauto]. split; [done|]. intros id a Hl Hr'. exfalso. eauto.
  - intros k' m Hm Hr. at_key Hm; [|eauto]. split; [done|]. intros id a Hl Hr'. exfalso. eauto.
Qed.

Lemma current_ne db k n id a k' n' id' a' :
  current db k n id a → current db k' n' id' a' → k' ≠ k → (k'.1, id') ≠ (k.1, id).
Proof.
  intros H H' Hne [= E1 E2]. subst id'. apply Hne.
  pose proof (cur_attempt _ _ _ _ _ H) as Ha. pose proof (cur_attempt _ _ _ _ _ H') as Ha'.
  rewrite E1 in Ha'. simplify_eq. rewrite (keyed k), (keyed k'), E1.
  by rewrite <- (cur_ref _ _ _ _ _ H), <- (cur_ref _ _ _ _ _ H').
Qed.

Lemma current_put_other db k n id a n' a' k' m id' b :
  current db k n id a → current db k' m id' b → k' ≠ k → current (put db k n' id a') k' m id' b.
Proof.
  intros H H' Hne. pose proof (current_ne _ _ _ _ _ _ _ _ _ H H' Hne) as Hne'.
  destruct H'. split; simpl; try done; by rewrite lookup_insert_ne.
Qed.

Lemma Inv_current db k n id a n' a' :
  Inv db → current db k n id a →
  node_checks k n' = true → attempt_checks a' = true →
  n_attempt_number n' = n_attempt_number n → n_lease_fence n' = n_lease_fence n →
  n_retry_safe n' = n_retry_safe n → n_effect_class n' = n_effect_class n →
  a_ref a' = a_ref a → a_attempt_number a' = a_attempt_number a → a_lease_fence a' = a_lease_fence a →
  (open_status (a_status a') = true → n_state n' = NodeRunning) →
  (n_state n' = NodeRunning →
     open_status (a_status a') = true ∧ n_lease_owner n' = Some (a_lease_owner a')
     ∧ a_effect_started_at a' = n_effect_started_at n'
     ∧ a_effect_committed_at a' = n_effect_committed_at n') →
  (n_retry_safe n = false →
     (n_state n' = NodeReady → n_effect_started_at n' = None)
     ∧ (a_effect_started_at a' ≠ None → n_effect_started_at n' ≠ None)) →
  (isMutation (n_effect_class n) = true →
     (n_state n' = NodeReady → n_effect_committed_at n' = None)
     ∧ (a_effect_committed_at a' ≠ None → n_effect_committed_at n' ≠ None)) →
  Inv (put db k n' id a').
Proof.
  intros HI Hc Hcn Hca Hnum Hfen Hrs Hec Hr Han Haf Ho Hrun' Hst' Hco'.
  pose proof HI as [Hn Ha Hown Huniq Hopen Hrun Hst Hco].
  pose proof Hc as [Ck Ca Cr Cn Cf Co].
  assert (∀ id0 b, attempts db !! (k.1, id0) = Some b → a_ref b = k.2 →
          a_lease_fence b = n_lease_fence n → id0 = id) as Hcur.
  { intros id0 b Hl Hb Hf. by destruct (current_unique _ _ _ _ _ _ _ HI Hc Hl Hb Hf). }
  split; simpl.
  - by apply map_Forall_insert_2.
  - by apply map_Forall_insert_2.
  - intros sc id0 b Hl. at_key Hl.
    + exists n'. rewrite Hr, Cr, <- keyed, lookup_insert_eq. split; [done|]. lia.
    + destruct (Hown _ _ _ Hl) as (m & Hm & ? & ?).
      destruct (decide (k = (sc, a_ref b))) as [->|]; [|exists m; by rewrite lookup_insert_ne].
      exists n'. rewrite lookup_insert_eq. simplify_eq. split; [done|]. lia.
  - intros sc id1 id2 a1 a2 H1 H2 He Hor. at_key H1; at_key H2; try done.
    + eapply (Huniq _ _ _ a a2); try done; [congruence|]. by rewrite <- Han, <- Haf.
    + eapply (Huniq _ _ _ a1 a); try done; [congruence|]. by rewrite <- Han, <- Haf.
    + eapply (Huniq sc id1 id2); eauto.
  - intros sc id0 b m Hl Hm Hb. at_key Hl.
    + rewrite Hr, Cr, <- keyed, lookup_insert_eq in Hm. simplify_eq. split_and!; [auto|congruence..].
    + at_key Hm; [|eauto].
      exfalso. destruct (Hopen _ _ _ _ Hl Ck Hb) as (_ & _ & Hf). apply E.
      simpl. f_equal. symmetry. by eapply Hcur.
  - intros k' m Hm Hs. at_key Hm.
    + destruct (Hrun' Hs) as (? & ? & ? & ?). exists id, a'. split_and!; try done.
      split; simpl; rewrite ?lookup_insert_eq; congruence.
    + destruct (Hrun _ _ Hm Hs) as (id0 & b & Hb & ?). exists id0, b. split; [|done].
      by eapply current_put_other.
  - intros k' m Hm Hs. at_key Hm.
    + rewrite Hrs in Hs. destruct (Hst' Hs) as [? Hx]. split; [done|].
      intros id0 b Hl Hb Hbs. at_key Hl; [split; [congruence|auto]|].
      exfalso. destruct (Hst _ n Ck Hs) as [_ Hy]. destruct (Hy _ _ Hl Hb Hbs) as [Hf _].
      apply E. f_equal. symmetry. by eapply Hcur.
    + destruct (Hst _ _ Hm Hs) as [? Hy]. split; [done|]. intros id0 b Hl Hb Hbs.
      at_key Hl; [|eauto]. exfalso. apply E. by apply injective_projections; congruence.
  - intros k' m Hm Hs. at_key Hm.
    + rewrite Hec in Hs. destruct (Hco' Hs) as [? Hx]. split; [done|].
      intros id0 b Hl Hb Hbs. at_key Hl; [split; [congruence|auto]|].
      exfalso. destruct (Hco _ n Ck Hs) as [_ Hy]. destruct (Hy _ _ Hl Hb Hbs) as [Hf _].
      apply E. f_equal. symmetry. by eapply Hcur.
    + destruct (Hco _ _ Hm Hs) as [? Hy]. split; [done|]. intros id0 b Hl Hb Hbs.
      at_key Hl; [|eauto]. exfalso. apply E. by apply injective_projections; congruence.
Qed.

(** A READY node has no open attempt. *)
Lemma ready_no_open db k n id a :
  Inv db → nodes db !! k = Some n → n_state n ≠ NodeRunning →
  attempts db !! (k.1, id) = Some a → a_ref a = k.2 → open_status (a_status a) = false.
Proof.
  intros HI Hk Hs Hl Hr. apply not_true_iff_false. intros Ho. apply Hs.
  eapply (inv_open db HI k.1 id a); [done| |done]. by rewrite Hr, <- keyed.
Qed.

Lemma Inv_claim db k n id n' a' :
  Inv db → nodes db !! k = Some n → n_state n = NodeReady → attempts db !! (k.1, id) = None →
  node_checks k n' = true → attempt_checks a' = true →
  n_state n' = NodeRunning → n_attempt_number n' = (n_attempt_number n + 1)%Z →
  n_lease_fence n' = (n_lease_fence n + 1)%Z →
  n_retry_safe n' = n_retry_safe n → n_effect_class n' = n_effect_class n →
  n_effect_started_at n' = None → n_effect_committed_at n' = None →
  a_ref a' = k.2 → a_attempt_number a' = n_attempt_number n' → a_lease_fence a' = n_lease_fence n' →
  a_status a' = AttemptPending → n_lease_owner n' = Some (a_lease_owner a') →
  a_effect_started_at a' = None → a_effect_committed_at a' = None →
  Inv (put db k n' id a').
Proof.
  intros HI Hk Hs Hnone Hcn Hca Hs' Hnum Hfen Hrs Hec He1 He2 Hr Han Haf Hst' Hown' Hae1 Hae2.
  pose proof HI as [Hn Ha Hown Huniq Hopen Hrun Hst Hco].
  assert (∀ id0 b, attempts db !! (k.1, id0) = Some b → a_ref b = k.2 →
    (a_attempt_number b < n_attempt_number n')%Z ∧ (a_lease_fence b < n_lease_fence n')%Z) as Hold.
  { intros id0 b Hl Hb. destruct (Hown _ _ _ Hl) as (m & Hm & ? & ?).
    rewrite Hb, <- (keyed k), Hk in Hm. simplify_eq. lia. }
  split; simpl.
  - by apply map_Forall_insert_2.
  - by apply map_Forall_insert_2.
  - intros sc id0 b Hl. at_key Hl.
    + exists n'. rewrite Hr, <- keyed, lookup_insert_eq. split; [done|]. lia.
    + destruct (Hown _ _ _ Hl) as (m & Hm & ? & ?).
      destruct (decide (k = (sc, a_ref b))) as [->|]; [|exists m; by rewrite lookup_insert_ne].
      exists n'. rewrite lookup_insert_eq. simplify_eq. split; [done|]. lia.
  - intros sc id1 id2 a1 a2 H1 H2 He Hor. at_key H1; at_key H2; try done.
    + destruct (Hold _ _ H2); [congruence|]. lia.
    + destruct (Hold _ _ H1); [congruence|]. lia.
    + eapply (Huniq sc id1 id2); eauto.
  - intros sc id0 b m Hl Hm Hb. at_key Hl.
    + rewrite Hr, <- keyed, lookup_insert_eq in Hm. simplify_eq. done.
    + at_key Hm; [|eauto]. exfalso.
      pose proof (ready_no_open db (sc, a_ref b) n id0 b HI Hk) as Hx. simpl in Hx.
      rewrite Hs in Hx. rewrite Hx in Hb; done.
  - intros k' m Hm Hs0. at_key Hm.
    + exists id, a'. split_and!; try done; [|congruence..].
      split; simpl; rewrite ?lookup_insert_eq, ?Hst'; done.
    + destruct (Hrun _ _ Hm Hs0) as (id0 & b & Hb & ?). exists id0, b. split; [|done].
      assert ((k'.1, id0) ≠ (k.1, id)).
      { intros [= E1 E2]. pose proof (cur_attempt _ _ _ _ _ Hb). congruence. }
      destruct Hb. split; simpl; try done; by rewrite lookup_insert_ne.
  - intros k' m Hm Hs0. at_key Hm.
    + split; [done|]. intros id0 b Hl Hb Hbs. exfalso. at_key Hl.
      rewrite Hrs in Hs0. destruct (Hst _ n Hk Hs0) as [Hz Hy].
      destruct (Hy _ _ Hl Hb Hbs) as [_ Hf]. auto.
    + destruct (Hst _ _ Hm Hs0) as [? Hy]. split; [done|]. intros id0 b Hl Hb Hbs.
      at_key Hl; eauto.
  - intros k' m Hm Hs0. at_key Hm.
    + split; [done|]. intros id0 b Hl Hb Hbs. exfalso. at_key Hl.
      rewrite Hec in Hs0. destruct (Hco _ n Hk Hs0) as [Hz Hy].
      destruct (Hy _ _ Hl Hb Hbs) as [_ Hf]. auto.
    + destruct (Hco _ _ Hm Hs0) as [? Hy]. split; [done|]. intros id0 b Hl Hb Hbs.
      at_key Hl; eauto.
Qed.

Lemma Inv_requeue db k n n' :
  Inv db → nodes db !! k = Some n → n_state n ≠ NodeRunning → n_state n' ≠ NodeRunning →
  node_checks k n' = true →
  n_attempt_number n' = n_attempt_number n → n_lease_fence n' = n_lease_fence n →
  n_retry_safe n' = n_retry_safe n → n_effect_class n' = n_effect_class n →
  n_retry_safe n = true → isMutation (n_effect_class n) = false →
  Inv (mkDB (<[k := n']> (nodes db)) (attempts db)).
Proof.
  intros HI Hk Hs Hs' Hcn Hnum Hfen Hrs Hec Hsafe Hmut.
  pose proof HI as [Hn Ha Hown Huniq Hopen Hrun Hst Hco].
  split; simpl; try done.
  - by apply map_Forall_insert_2.
  - intros sc id b Hl. destruct (Hown _ _ _ Hl) as (m & Hm & ? & ?).
    destruct (decide (k = (sc, a_ref b))) as [->|]; [|exists m; by rewrite lookup_insert_ne].
    exists n'. rewrite lookup_insert_eq. simplify_eq. split; [done|]. lia.
  - intros sc id b m Hl Hm Hb. at_key Hm; [|eauto]. exfalso.
    pose proof (ready_no_open db (sc, a_ref b) n id b HI Hk Hs Hl eq_refl). congruence.
  - intros k' m Hm Hs0. at_key Hm. destruct (Hrun _ _ Hm Hs0) as (id & b & [] & ?).
    exists id, b. split; [|done]. split; simpl; try done. by rewrite lookup_insert_ne.
  - intros k' m Hm Hs0. at_key Hm; [congruence|eauto].
  - intros k' m Hm Hs0. at_key Hm; [congruence|eauto].
Qed.

(** ** Constraint bookkeeping *)

Lemma node_checks_unleased k n s now :
  node_checks k n = true → known_state s = true → s ≠ NodeRunning →
  node_checks k (set_unleased s now n) = true.
Proof.
  unfold node_checks. intros H Hs Hne. rewrite !andb_true_iff in *. destruct_and!.
  split_and!; try done. by destruct s.
Qed.

(** ** The steps *)

Lemma running_attempt db k n id a :
  Inv db → current db k n id a → n_state n = NodeRunning →
  n_lease_owner n = Some (a_lease_owner a) ∧ a_effect_started_at a = n_effect_started_at n
  ∧ a_effect_committed_at a = n_effect_committed_at n.
Proof.
  intros HI Hc Hs. destruct (inv_running db HI k n (cur_node _ _ _ _ _ Hc) Hs) as (id' & a' & Hc' & ?).
  destruct (current_unique db k n id' a' id a HI Hc') as [-> ->]; [apply Hc..|done].
Qed.

Lemma validateAttemptCompletion_Ok terminal completion :
  validateAttemptCompletion terminal completion = Ok tt →
  (terminal = NodeSucceeded ∧ Completion_Status completion = AttemptSucceeded)
  ∨ (terminal = NodeFailed ∧ Completion_Status completion = AttemptFailed)
  ∨ (terminal = NodeCancelled ∧ Completion_Status completion = AttemptCancelled).
Proof.
  unfold validateAttemptCompletion. intros H.
  cbv zeta in H. destruct (negb (AttemptCompletion_Terminal _) || _); [done|].
  match type of H with (if negb ?m then _ else _) = _ => destruct m eqn:Hm; [|done] end.
  rewrite !orb_true_iff, !andb_true_iff, !bool_decide_eq_true in Hm. tauto.
Qed.

Lemma completion_closes terminal completion :
  validateAttemptCompletion terminal completion = Ok tt →
  terminal ≠ NodeRunning ∧ terminal ≠ NodeReady ∧ open_status (Completion_Status completion) = false.
Proof.
  intros [[-> ->]|[[-> ->]|[-> ->]]]%validateAttemptCompletion_Ok; done.
Qed.

(** Taking the lapsed lease away, the first half of a reclaim. *)
Lemma Inv_lapse db k n id a now :
  current db k n id a → n_state n = NodeRunning → n_retry_safe n = true → n_effect_committed_at n = None →
  attempt_checks (set_abandoned now a) = true → Inv db →
  Inv (put db k (set_unleased NodeReady now n) id (set_abandoned now a)).
Proof.
  intros Hcur Hs Hsafe Hco Hcab HI. destruct (running_attempt _ _ _ _ _ HI Hcur Hs) as (_ & He1 & He2).
  apply (Inv_current db k n id a); try done.
  - apply node_checks_unleased; try done. by eapply (inv_nodes db HI k n), Hcur.
  - simpl. by rewrite Hsafe.
  - simpl. split; [done|]. by rewrite He2, Hco.
Qed.

Lemma Inv_release db k n id a now :
  current db k n id a → n_state n = NodeRunning → n_effect_started_at n = None →
  node_checks k (set_unleased NodeReady now n) = true → attempt_checks (set_abandoned now a) = true →
  Inv db → Inv (put db k (set_unleased NodeReady now n) id (set_abandoned now a)).
Proof.
  intros Hcur Hs Hes Hcn Hca HI. destruct (running_attempt _ _ _ _ _ HI Hcur Hs) as (Ho & He1 & He2).
  apply (Inv_current db k n id a); try done; simpl.
  - rewrite He1. done.
  - rewrite He2. split; [|done]. intros _.
    pose proof (inv_nodes db HI k n (cur_node _ _ _ _ _ Hcur)) as Hck. simpl in Hck.
    unfold node_checks in Hck. rewrite !andb_true_iff in Hck. destruct_and!.
    rewrite Hes in *. by destruct (n_effect_committed_at n).
Qed.

Lemma lstep_Inv pg_ts e db db' : lstep pg_ts e db db' → Inv db → Inv db'.
Proof.
  intros Hstep HI. destruct Hstep as
    [db k rec now Hk Hc
    |db k n id owner token now expires Hk Hs Hnone Hcn Hca
    |db k n old a id owner token now expires e Hcur Hs Hsafe Hco He Hexp Hne Hnone Hcab Hcn Hca
    |db k n id a now expires Hcur Hs Hcn
    |db k n id a b now Hcur Hs Hst Hca
    |db k n id a now Hcur Hs Hst Hes Hcn Hca
    |db k n id a now Hcur Hs Hst Hes Hec Hcn Hca
    |db k n id a now Hcur Hs Hes Hcn Hca
    |db k n id a terminal completion cost now Hcur Hs Hval Hst Hmut Hcn Hca
    |db k n now Hk Hs Hsafe Hmut Hcn].
  - apply Inv_new_node; try done. intros Hr. unfold node_checks, lease_state_contract in Hc.
    rewrite Hr in Hc. simpl in Hc. by rewrite !andb_false_r in Hc.
  - by apply (Inv_claim db k n).
  - pose proof (Inv_lapse db k n old a now Hcur Hs Hsafe Hco Hcab HI) as HI'.
    eapply (Inv_claim _ k (set_unleased NodeReady now n)); try done.
    + simpl. apply lookup_insert_eq.
    + simpl. rewrite lookup_insert_ne by congruence. done.
  - destruct (running_attempt _ _ _ _ _ HI Hcur Hs) as (Ho & He1 & He2).
    apply (Inv_current db k n id a); try done.
    + eapply (inv_attempts db HI), Hcur.
    + simpl. intros _. split_and!; try done. apply Hcur.
    + simpl. rewrite Hs, He1. done.
    + simpl. rewrite Hs, He2. done.
  - destruct (running_attempt _ _ _ _ _ HI Hcur Hs) as (Ho & He1 & He2).
    apply (Inv_current db k n id a); try done.
    + eapply (inv_nodes db HI k n), Hcur.
    + simpl. rewrite Hs, He1. done.
    + simpl. rewrite Hs, He2. done.
  - destruct (running_attempt _ _ _ _ _ HI Hcur Hs) as (Ho & He1 & He2).
    apply (Inv_current db k n id a); try done; simpl.
    + intros _. split_and!; try done. apply Hcur.
    + rewrite Hs. done.
    + rewrite Hs, He2. done.
  - destruct (running_attempt _ _ _ _ _ HI Hcur Hs) as (Ho & He1 & He2).
    apply (Inv_current db k n id a); try done; simpl.
    + intros _. split_and!; try done. apply Hcur.
    + rewrite Hs, He1. done.
    + rewrite Hs. done.
  - by apply Inv_release.
  - destruct (running_attempt _ _ _ _ _ HI Hcur Hs) as (Ho & He1 & He2).
    destruct (completion_closes _ _ Hval) as (Ht1 & Ht2 & Ht3).
    apply (Inv_current db k n id a); try done; simpl.
    + by rewrite Ht3.
    + by rewrite He1.
    + by rewrite He2.
  - apply (Inv_requeue db k n); try done. by rewrite Hs.
Qed.

Lemma reachable_Inv pg_ts evs db : reachable pg_ts evs db → Inv db.
Proof. induction 1; [apply Inv_empty|]. by eapply lstep_Inv. Qed.

End LeaseInv.
