(* ===== verification/LeaseRefine.v ===== *)
(** * LeaseRefine: the store implements the lease protocol

    Each operation of [LeaseStore], run on tables that satisfy the invariant,
    either leaves them as they are or takes the step of [LeaseSpec] it stands
    for, and says what its result is.  [stutters] is the first case: the
    operation reports an error and nothing changed. *)
From S2P Require Import Prelude Identity ExecTypes LeaseSchema LeaseStore LeaseSpec.

Module LeaseRefine.
Import LeaseSchema LeaseStore LeaseSpec LeaseInv.

Definition stutters {A} (r : result A * DB) (db : DB) : Prop := ∃ e, r = (Err e, db).

(** The step was taken: the operation reports [a], or an error if it could not
    learn the outcome of COMMIT. *)
Definition reports {A} (env : TxEnv) (r : result A) (a : A) : Prop :=
  r = Ok a ∨ ((∃ e, r = Err e) ∧ ∃ e, env_commit env = CommitUnknown e).


(** The node an operation of [env]'s principal addresses. *)
Definition node_key (env : TxEnv) (executionID : ExecutionID) (planRevision : Z) (nodeID : NodeID)
    (k : NodeKey) : Prop :=
  ∃ p, Identity.requireScopedPrincipal (env_ctx env) = Ok p
       ∧ k = (scope_of p, (executionID, planRevision, nodeID)).

Lemma withScopedTx_refines {A} env (fn : TxBody A) db :
  stutters (withScopedTx env fn db) db
  ∨ ∃ p a db', Identity.requireScopedPrincipal (env_ctx env) = Ok p ∧ fn p db = Ok (a, db')
      ∧ snd (withScopedTx env fn db) = db' ∧ reports env (fst (withScopedTx env fn db)) a.
Proof.
  unfold withScopedTx, stutters, reports. destruct (env_db env); simpl; [|eauto].
  destruct (Identity.requireScopedPrincipal _) as [p|]; [|eauto].
  destruct (env_begin env); [eauto|]. destruct (exec_stmt _ _); [|eauto].
  destruct (fn p db) as [[x db']|] eqn:Hf; [|eauto].
  destruct (env_commit env) eqn:?; [right|eauto|right]; exists p, x, db'; split_and!; simpl; eauto 6.
Qed.

(** ** Statements inside a transaction *)

Lemma requireOneNodeRow_Ok env label e r db' :
  requireOneNodeRow env label e r = Ok db' → r.1 = 1 ∧ r.2 = db'.
Proof.
  unfold requireOneNodeRow, RowsAffected. intros H. bind_inv H n Hn. bind_inv Hn u Hu.
  simplify_eq. case_bool_decide; simpl in H; naive_solver.
Qed.

Lemma requireOneAttemptRow_Ok env label r db' :
  requireOneAttemptRow env label r = Ok db' → r.1 = 1 ∧ r.2 = db'.
Proof.
  unfold requireOneAttemptRow, RowsAffected. intros H. bind_inv H n Hn. bind_inv Hn u Hu.
  simplify_eq. case_bool_decide; simpl in H; naive_solver.
Qed.

(** A node statement that updated its row. *)
Lemma node_updated env label e k cond set db r db' :
  update_node env label k cond set db = Ok r → requireOneNodeRow env label e r = Ok db' →
  ∃ n, nodes db !! k = Some n ∧ cond n = true ∧ node_checks k (set n) = true
       ∧ db' = mkDB (<[k := set n]> (nodes db)) (attempts db).
Proof.
  intros Hu [H1 H2]%requireOneNodeRow_Ok. destruct r as [m db0]. simpl in *. subst.
  apply update_node_Ok in Hu as [[? _]|[_ ?]]; [done|]. done.
Qed.

Lemma attempt_updated env label scope cond set db r db' :
  update_attempts env label scope cond set db = Ok r → requireOneAttemptRow env label r = Ok db' →
  ∃ id a, attempts db !! (scope, id) = Some a ∧ cond id a = true ∧ attempt_checks (set a) = true
          ∧ db' = mkDB (nodes db) (<[(scope, id) := set a]> (attempts db)).
Proof.
  intros Hu [H1 H2]%requireOneAttemptRow_Ok. destruct r as [m db0]. simpl in *. subst.
  by apply update_attempts_one in Hu.
Qed.

Lemma lease_cond_true lease now n :
  lease_cond lease now n = true →
  n_state n = NodeRunning ∧ n_lease_owner n = Some (Lease_OwnerWorkerID lease)
  ∧ n_lease_token n = Some (Lease_Token lease) ∧ n_lease_fence n = Lease_Fence lease
  ∧ ∃ e, n_lease_expires_at n = Some e ∧ (now < e)%Z.
Proof.
  unfold lease_cond. rewrite !andb_true_iff, !bool_decide_eq_true, Z.eqb_eq.
  intros ((((? & ?) & ?) & ?) & Hx). split_and!; try done.
  destruct (n_lease_expires_at n) as [e|]; [|done]. exists e. split; [done|]. by apply Z.ltb_lt.
Qed.

Lemma leaseOwnsRow_true ex rev nd n lease now :
  leaseOwnsRow (scanNode ex rev nd n) lease now = true →
  lease_cond lease now n = true ∧ n_attempt_number n = Lease_AttemptNumber lease.
Proof.
  unfold leaseOwnsRow, lease_cond. simpl.
  rewrite !andb_true_iff, !bool_decide_eq_true, !Z.eqb_eq. unfold Before. tauto.
Qed.

Lemma attempt_ref_matches_true ex rev nd num fence a :
  attempt_ref_matches ex rev nd num fence a = true →
  a_ref a = (ex, rev, nd) ∧ a_attempt_number a = num ∧ a_lease_fence a = fence.
Proof.
  unfold attempt_ref_matches. rewrite !andb_true_iff, bool_decide_eq_true, !Z.eqb_eq. tauto.
Qed.

Lemma lease_attempt_matches_true lease id a :
  lease_attempt_matches lease id a = true →
  id = Lease_AttemptRef lease
  ∧ a_ref a = (Lease_ExecutionRef lease, Lease_PlanRevision lease, Lease_NodeRef lease)
  ∧ a_attempt_number a = Lease_AttemptNumber lease ∧ a_lease_fence a = Lease_Fence lease.
Proof.
  unfold lease_attempt_matches. rewrite andb_true_iff, bool_decide_eq_true.
  intros [? ?%attempt_ref_matches_true]. done.
Qed.

Lemma loadNodeRuntime_Ok env p ex rev nd db row :
  loadNodeRuntime env p ex rev nd db = Ok row →
  ∃ n, nodes db !! (scope_of p, (ex, rev, nd)) = Some n ∧ row = scanNode ex rev nd n.
Proof.
  unfold loadNodeRuntime. intros H. bind_inv H u Hu. case_match; [|done]. simplify_eq. eauto.
Qed.

Lemma abandonAttemptTx_Ok env p ex rev nd num fence now db db' :
  abandonAttemptTx env p ex rev nd num fence now db = Ok db' →
  ∃ id a, attempts db !! (scope_of p, id) = Some a ∧ a_ref a = (ex, rev, nd)
    ∧ a_attempt_number a = num ∧ a_lease_fence a = fence ∧ open_status (a_status a) = true
    ∧ attempt_checks (set_abandoned now a) = true
    ∧ db' = mkDB (nodes db) (<[(scope_of p, id) := set_abandoned now a]> (attempts db)).
Proof.
  unfold abandonAttemptTx. intros H. bind_inv H u Hu. bind_inv H r Hr.
  destruct (attempt_updated _ _ _ _ _ _ _ _ Hr H) as (id & a & Ha & Hc & Hk & ->).
  apply andb_true_iff in Hc as [(? & ? & ?)%attempt_ref_matches_true ?]. eauto 10.
Qed.

(** An open attempt that carries the node's fence is its current attempt. *)
Lemma open_current db k n id a :
  Inv db → nodes db !! k = Some n → attempts db !! (k.1, id) = Some a → a_ref a = k.2 →
  open_status (a_status a) = true → current db k n id a.
Proof.
  intros HI Hk Ha Hr Ho.
  destruct (inv_open db HI k.1 id a n Ha) as (_ & ? & ?); [by rewrite Hr, <- keyed|done|].
  by split.
Qed.

Lemma claim_number k n n' :
  node_checks k n = true → node_checks k n' = true →
  n_attempt_number n' = add64 (n_attempt_number n) 1 → n_lease_fence n' = add64 (n_lease_fence n) 1 →
  add64 (n_attempt_number n) 1 = (n_attempt_number n + 1)%Z
  ∧ add64 (n_lease_fence n) 1 = (n_lease_fence n + 1)%Z.
Proof.
  unfold node_checks, fits_int4, fits_int8. rewrite !andb_true_iff, !Z.leb_le.
  intros H H' Hn Hf. rewrite Hn, Hf in H'. destruct_and!. split.
  - apply add64_small. unfold in_int64, int_min, int_max. lia.
  - destruct (decide (n_lease_fence n = int_max)) as [E|].
    + exfalso. rewrite E in *. assert (add64 int_max 1 = int_min) as Hm by reflexivity.
      rewrite Hm in *. unfold int_min in *. lia.
    + apply add64_small. unfold in_int64, int_min, int_max in *. lia.
Qed.

(** ** Operations *)

Section operations.
Variable pg_ts : Time → Time.
Variable pg_cost : float64 → result float64.

(** [m] returned [r] and left [db']: it stuttered, or it took a step on [k] and
    reports a result satisfying [R]. *)
Definition refines {A} (env : TxEnv) (m : result A * DB) (db : DB)
    (R : A → event → DB → Prop) : Prop :=
  stutters m db ∨ ∃ a e, lstep pg_ts e db (snd m) ∧ reports env (fst m) a ∧ R a e (snd m).

Ltac open_tx m :=
  match goal with
  | |- refines ?env (withScopedTx ?env ?fn ?db) ?db _ =>
      let Hst := fresh "Hst" in
      destruct (withScopedTx_refines env fn db)
        as [Hst|(p & m & db' & Hp & Hfn & Hsnd & Hrep)]; [by left|right];
      rewrite Hsnd; clear Hsnd
  end.

Lemma Register_refines env record db :
  Inv db →
  refines env (Register env record db) db (λ _ e _,
    ∃ k, node_key env (Runtime_ExecutionRef record) (Runtime_PlanRevision record)
           (Runtime_NodeRef record) k ∧ e = EvRegister k).
Proof.
  intros HI. unfold Register. destruct (validateNodeRuntimeRecord record) eqn:Hv; [|by left; eexists].
  open_tx v. bind_inv Hfn u Hu.
  set (k := (scope_of p, (Runtime_ExecutionRef record, Runtime_PlanRevision record,
                          Runtime_NodeRef record))) in *.
  destruct (node_checks k _) eqn:Hc; simpl in Hfn; [|done].
  destruct (nodes db !! k) eqn:Hk; bind_inv Hfn cnt Hn; unfold RowsAffected in Hn;
    bind_inv Hn u' Hu'; simplify_eq/=.
  exists tt, (EvRegister k).
  split_and!; [by apply step_register|done|]. exists k. split; [by exists p|done].
Qed.

Lemma claimable_Ok ex rev nd n now reclaim :
  claimable (scanNode ex rev nd n) now = Ok reclaim →
  if reclaim
  then n_state n = NodeRunning ∧ n_retry_safe n = true ∧ n_effect_committed_at n = None
       ∧ (∀ e, n_lease_expires_at n = Some e → (e ≤ now)%Z)
  else n_state n = NodeReady ∧ n_lease_token n = None.
Proof.
  unfold claimable, NodeRuntimeRecord_Terminal, notNull, isNull, Before. simpl.
  destruct (n_state n) eqn:Hs; try done; intros H; go_inv H; go_props; split_and!; try done; intros;
    simplify_eq; go_props; try lia; repeat case_match; done.
Qed.

Lemma Claim_refines env ex rev nd owner d db :
  Inv db →
  refines env (Claim pg_ts env ex rev nd owner d db) db (λ lease e db',
    ∃ k n n', node_key env ex rev nd k ∧ nodes db !! k = Some n ∧ nodes db' !! k = Some n'
    ∧ e = EvClaim k (Lease_Fence lease) (Lease_AttemptNumber lease) (Lease_AttemptRef lease)
    ∧ Lease_Fence lease = (n_lease_fence n + 1)%Z
    ∧ Lease_AttemptNumber lease = (n_attempt_number n + 1)%Z
    ∧ (Lease_ExecutionRef lease, Lease_PlanRevision lease, Lease_NodeRef lease) = k.2
    ∧ n_lease_owner n' = Some owner ∧ Lease_OwnerWorkerID lease = owner
    ∧ n_lease_token n' = Some (Lease_Token lease)
    ∧ n_lease_expires_at n' = Some (pg_ts (Lease_ExpiresAt lease))
    ∧ env_clock env = Ok (Lease_ClaimedAt lease)
    ∧ n_claimed_at n' = Some (Lease_ClaimedAt lease) ∧ n_heartbeat_at n' = Some (Lease_HeartbeatAt lease)
    ∧ (n_state n = NodeReady
       ∨ (n_state n = NodeRunning ∧ n_retry_safe n = true ∧ n_effect_committed_at n = None
          ∧ ∃ x, n_lease_expires_at n = Some x ∧ (x ≤ Lease_ClaimedAt lease)%Z))).
Proof.
  intros HI. unfold Claim. destruct (validateLeaseIdentity _ _ _ _ _) as [[]|] eqn:Hv; [|by left; eexists].
  open_tx lease. bind_inv Hfn now Hnow. bind_inv Hfn row Hrow.
  apply loadNodeRuntime_Ok in Hrow as (n & Hk & ->).
  set (k := (scope_of p, (ex, rev, nd))) in *.
  bind_inv Hfn reclaim Hre. apply claimable_Ok in Hre.
  bind_inv Hfn db1 Hab. bind_inv Hfn token Htok. bind_inv Hfn aid Hid.
  bind_inv Hfn r Hr. bind_inv Hfn db2 Hdb2. bind_inv Hfn db3 Hins. simplify_eq.
  destruct (node_updated _ _ _ _ _ _ _ _ _ Hr Hdb2) as (m & Hm & _ & Hcn & ->).
  apply insert_attempt_Ok in Hins as (Hnone & Hca & ->). simpl in Hnone, Hca |- *.
  assert (nodes db1 = nodes db) as Hn1.
  { destruct reclaim; [apply abandonAttemptTx_Ok in Hab as (?&?&?&?&?&?&?&?&->); done|by simplify_eq]. }
  rewrite Hn1, Hk in Hm. simplify_eq.
  pose proof (inv_nodes db HI k m Hk) as Hckn. simpl in Hckn.
  destruct (claim_number k m _ Hckn Hcn) as [E1 E2]; [done..|].
  unfold databaseNow in Hnow. destruct (env_clock env) as [c|]; [simplify_eq|done].
  rewrite Hn1. simpl in *. rewrite E1, E2 in *.
  eexists _, (EvClaim k (n_lease_fence m + 1) (n_attempt_number m + 1) aid).
  split; [|split; [exact Hrep|]].
  - destruct reclaim.
    + destruct Hre as (Hs & Hsafe & Hco & Hexp).
      apply abandonAttemptTx_Ok in Hab as (old & a & Ha & Href & Hnum & Hfen & Hop & Hcab & ->).
      simpl in *.
      assert (current db k m old a) as Hcur by by split.
      assert (old ≠ aid) as Hne.
      { intros ->. by rewrite lookup_insert_eq in Hnone. }
      rewrite lookup_insert_ne in Hnone by congruence.
      unfold node_checks in Hckn. rewrite !andb_true_iff in Hckn. destruct_and!.
      unfold lease_state_contract in *. rewrite Hs in *.
      destruct (n_claimed_at m), (n_lease_expires_at m) as [e|] eqn:He; try (by rewrite ?andb_false_r in *).
      pose proof (step_reclaim pg_ts db k m old a aid owner token now (Add now d) e) as Hstep.
      unfold put in Hstep. simpl in Hstep. rewrite insert_insert_eq in Hstep.
      apply Hstep; auto.
    + simplify_eq. destruct Hre as (Hs & _).
      apply (step_claim pg_ts db1 k m aid owner token now (Add now d)); try done.
  - exists k, m. eexists. rewrite lookup_insert_eq.
    split_and!; try done; [by exists p|].
    destruct reclaim; [right|by left; destruct Hre]. destruct Hre as (Hs & Hsafe & Hco & Hexp).
    split_and!; try done. unfold node_checks in Hckn. rewrite !andb_true_iff in Hckn. destruct_and!.
    unfold lease_state_contract in *. rewrite Hs in *.
    destruct (n_claimed_at m), (n_lease_expires_at m) as [e|] eqn:He; try (by rewrite ?andb_false_r in *).
    eauto.
Qed.

(** The lease is valid when the transaction reads the clock: the node is
    RUNNING under this owner, token and fence, and not expired. *)
Definition held (env : TxEnv) (lease : NodeLease) (db : DB) (k : NodeKey) (n : NodeRow) : Prop :=
  node_key env (Lease_ExecutionRef lease) (Lease_PlanRevision lease) (Lease_NodeRef lease) k
  ∧ nodes db !! k = Some n ∧ ∃ now, env_clock env = Ok now ∧ lease_cond lease now n = true.

Lemma databaseNow_Ok env now : databaseNow env = Ok now → env_clock env = Ok now.
Proof. unfold databaseNow. by destruct (env_clock env). Qed.

Lemma held_intro env p lease db n now :
  Identity.requireScopedPrincipal (env_ctx env) = Ok p → databaseNow env = Ok now →
  nodes db !! lease_key p lease = Some n → lease_cond lease now n = true →
  held env lease db (lease_key p lease) n.
Proof. intros ? ?%databaseNow_Ok ? ?. split; [by exists p|]. eauto. Qed.

Lemma Renew_refines env lease d db :
  Inv db →
  refines env (Renew pg_ts env lease d db) db (λ lease' e _,
    ∃ k n, held env lease db k n ∧ e = EvRenew k
    ∧ ∃ now, env_clock env = Ok now ∧ lease' = lease_with lease now (Add now d)).
Proof.
  intros HI. unfold Renew. destruct (validateHeldLease _ _) as [[]|]; [|by left; eexists].
  open_tx lease'. bind_inv Hfn now Hnow. bind_inv Hfn r Hr. bind_inv Hfn db1 Hdb1. simplify_eq.
  destruct (node_updated _ _ _ _ _ _ _ _ _ Hr Hdb1) as (n & Hk & Hc & Hck & ->).
  pose proof (lease_cond_true _ _ _ Hc) as (Hs & _).
  destruct (inv_running db HI _ _ Hk Hs) as (aid & a & Hcur & _).
  eexists _, (EvRenew (lease_key p lease)). split; [|split; [exact Hrep|]].
  - pose proof (step_renew pg_ts db _ n aid a now (Add now d) Hcur Hs Hck) as Hstep.
    unfold put in Hstep. rewrite (insert_id (attempts db)) in Hstep by apply Hcur. done.
  - exists (lease_key p lease), n. split; [by eapply held_intro|].
    split; [done|]. exists now. split; [by apply databaseNow_Ok|done].
Qed.

Lemma StartAttempt_refines env lease binding db :
  Inv db →
  refines env (StartAttempt env lease binding db) db (λ _ e _,
    ∃ k n, held env lease db k n ∧ n_attempt_number n = Lease_AttemptNumber lease
           ∧ e = EvStart k (Lease_AttemptRef lease)).
Proof.
  intros HI. unfold StartAttempt. destruct (blank _); [by left; eexists|].
  destruct (validateAttemptBinding _) as [[]|]; [|by left; eexists].
  open_tx rec. bind_inv Hfn now Hnow. bind_inv Hfn row Hrow.
  apply loadNodeRuntime_Ok in Hrow as (n & Hk & ->).
  destruct (leaseOwnsRow _ _ _) eqn:Hown; simpl in Hfn; [|done].
  apply leaseOwnsRow_true in Hown as [Hc Hnum].
  bind_inv Hfn u Hu. bind_inv Hfn r Hr. bind_inv Hfn db1 Hdb1. bind_inv Hfn rec' Hrec. simplify_eq.
  destruct (attempt_updated _ _ _ _ _ _ _ _ Hr Hdb1) as (aid & a & Ha & Hca & Hck & ->).
  apply andb_true_iff in Hca as [(-> & Href & Han & Haf)%lease_attempt_matches_true Hst].
  apply bool_decide_eq_true in Hst. fold (lease_key p lease) in Hk.
  pose proof (lease_cond_true _ _ _ Hc) as (Hs & _ & _ & Hf & _).
  assert (current db (lease_key p lease) n (Lease_AttemptRef lease) a) as Hcur.
  { apply open_current; try done. by rewrite Hst. }
  eexists _, (EvStart (lease_key p lease) (Lease_AttemptRef lease)). split; [|split; [exact Hrep|]].
  - pose proof (step_start pg_ts db _ n _ a binding now Hcur Hs Hst Hck) as Hstep.
    unfold put in Hstep. rewrite (insert_id (nodes db)) in Hstep by apply Hcur. done.
  - exists (lease_key p lease), n. split_and!; try done. by eapply held_intro.
Qed.

Lemma MarkEffectStarted_refines env lease db :
  Inv db →
  refines env (MarkEffectStarted env lease db) db (λ _ e _,
    ∃ k n, held env lease db k n ∧ e = EvEffectStarted k (Lease_AttemptRef lease)).
Proof.
  intros HI. unfold MarkEffectStarted. destruct (validateLeaseAttempt _) as [[]|]; [|by left; eexists].
  open_tx v. bind_inv Hfn now Hnow. bind_inv Hfn r Hr. bind_inv Hfn db1 Hdb1. bind_inv Hfn db2 Hup.
  simplify_eq.
  destruct (node_updated _ _ _ _ _ _ _ _ _ Hr Hdb1) as (n & Hk & Hc & Hck & ->).
  unfold updateAttemptEffectStartedTx in Hup. bind_inv Hup u Hu. bind_inv Hup r2 Hr2.
  destruct (attempt_updated _ _ _ _ _ _ _ _ Hr2 Hup) as (aid & a & Ha & Hca & Hcka & ->). simpl in *.
  apply andb_true_iff in Hc as [Hc Hes].
  rewrite !andb_true_iff in Hca. destruct Hca as [[(-> & Href & Han & Haf)%lease_attempt_matches_true Hst] _].
  apply bool_decide_eq_true in Hst.
  pose proof (lease_cond_true _ _ _ Hc) as (Hs & _).
  assert (current db (lease_key p lease) n (Lease_AttemptRef lease) a) as Hcur.
  { apply open_current; try done. by rewrite Hst. }
  eexists _, (EvEffectStarted (lease_key p lease) (Lease_AttemptRef lease)).
  split; [|split; [exact Hrep|]].
  - apply step_effect_started; try done. by destruct (n_effect_started_at n).
  - exists (lease_key p lease), n. split; [by eapply held_intro|done].
Qed.

Lemma MarkEffectCommitted_refines env lease db :
  Inv db →
  refines env (MarkEffectCommitted env lease db) db (λ _ e _,
    ∃ k n, held env lease db k n ∧ e = EvEffectCommitted k (Lease_AttemptRef lease)).
Proof.
  intros HI. unfold MarkEffectCommitted. destruct (validateLeaseAttempt _) as [[]|]; [|by left; eexists].
  open_tx v. bind_inv Hfn now Hnow. bind_inv Hfn r Hr. bind_inv Hfn db1 Hdb1. bind_inv Hfn db2 Hup.
  simplify_eq.
  destruct (node_updated _ _ _ _ _ _ _ _ _ Hr Hdb1) as (n & Hk & Hc & Hck & ->).
  unfold updateAttemptEffectCommittedTx in Hup. bind_inv Hup u Hu. bind_inv Hup r2 Hr2.
  destruct (attempt_updated _ _ _ _ _ _ _ _ Hr2 Hup) as (aid & a & Ha & Hca & Hcka & ->). simpl in *.
  rewrite !andb_true_iff in Hc. destruct Hc as [[Hc Hes] Hec].
  rewrite !andb_true_iff in Hca.
  destruct Hca as [[[(-> & Href & Han & Haf)%lease_attempt_matches_true Hst] _] _].
  apply bool_decide_eq_true in Hst.
  pose proof (lease_cond_true _ _ _ Hc) as (Hs & _).
  assert (current db (lease_key p lease) n (Lease_AttemptRef lease) a) as Hcur.
  { apply open_current; try done. by rewrite Hst. }
  eexists _, (EvEffectCommitted (lease_key p lease) (Lease_AttemptRef lease)).
  split; [|split; [exact Hrep|]].
  - apply step_effect_committed; try done.
    + by destruct (n_effect_started_at n).
    + by destruct (n_effect_committed_at n).
  - exists (lease_key p lease), n. split; [by eapply held_intro|done].
Qed.

Lemma ReleaseBeforeEffect_refines env lease db :
  Inv db →
  refines env (ReleaseBeforeEffect env lease db) db (λ _ e _,
    ∃ k n id, held env lease db k n ∧ n_effect_started_at n = None ∧ e = EvRelease k id).
Proof.
  intros HI. unfold ReleaseBeforeEffect. destruct (validateLeaseAttempt _) as [[]|]; [|by left; eexists].
  open_tx v. bind_inv Hfn now Hnow. bind_inv Hfn r Hr. bind_inv Hfn db1 Hdb1. bind_inv Hfn db2 Hab.
  simplify_eq.
  destruct (node_updated _ _ _ _ _ _ _ _ _ Hr Hdb1) as (n & Hk & Hc & Hck & ->).
  apply abandonAttemptTx_Ok in Hab as (aid & a & Ha & Href & Han & Haf & Hop & Hcka & ->). simpl in *.
  apply andb_true_iff in Hc as [Hc Hes].
  pose proof (lease_cond_true _ _ _ Hc) as (Hs & _).
  assert (n_effect_started_at n = None) as He by (by destruct (n_effect_started_at n)).
  assert (current db (lease_key p lease) n aid a) as Hcur by by apply open_current.
  eexists _, (EvRelease (lease_key p lease) aid).
  split; [|split; [exact Hrep|]].
  - by apply step_release.
  - exists (lease_key p lease), n, aid. split; [by eapply held_intro|done].
Qed.

Lemma Complete_refines env lease terminal completion db :
  Inv db →
  refines env (Complete pg_cost env lease terminal completion db) db (λ _ e _,
    ∃ k n, held env lease db k n ∧ n_attempt_number n = Lease_AttemptNumber lease
    ∧ validateAttemptCompletion terminal completion = Ok tt
    ∧ e = EvComplete k (Lease_AttemptRef lease) terminal completion).
Proof.
  intros HI. unfold Complete. destruct (validateLeaseAttempt _) as [[]|]; [|by left; eexists].
  destruct (validateAttemptCompletion _ _) as [[]|] eqn:Hv; [|by left; eexists].
  open_tx v. bind_inv Hfn now Hnow. bind_inv Hfn row Hrow.
  apply loadNodeRuntime_Ok in Hrow as (n & Hk & ->). fold (lease_key p lease) in Hk.
  destruct (leaseOwnsRow _ _ _) eqn:Hown; simpl in Hfn; [|done].
  apply leaseOwnsRow_true in Hown as [Hc Hnum].
  destruct (_ && _) eqn:Hguard; [done|].
  bind_inv Hfn db1 Hcomp. bind_inv Hfn r Hr. bind_inv Hfn db2 Hdb2. simplify_eq.
  unfold completeAttemptTx in Hcomp. bind_inv Hcomp u Hu. bind_inv Hcomp cost Hcost.
  bind_inv Hcomp r2 Hr2.
  destruct (attempt_updated _ _ _ _ _ _ _ _ Hr2 Hcomp) as (aid & a & Ha & Hca & Hcka & ->).
  destruct (node_updated _ _ _ _ _ _ _ _ _ Hr Hdb2) as (n' & Hk' & _ & Hck & ->). simpl in *.
  assert (n' = n) as -> by congruence.
  rewrite !andb_true_iff, orb_true_iff, andb_true_iff, !bool_decide_eq_true in Hca.
  destruct Hca as [(-> & Href & Han & Haf)%lease_attempt_matches_true Hst].
  pose proof (lease_cond_true _ _ _ Hc) as (Hs & _).
  assert (current db (lease_key p lease) n (Lease_AttemptRef lease) a) as Hcur.
  { apply open_current; try done. destruct Hst as [->|[_ ->]]; done. }
  eexists _, (EvComplete (lease_key p lease) (Lease_AttemptRef lease) terminal completion).
  split; [|split; [exact Hrep|]].
  - apply step_complete; try done.
    + destruct Hst as [?|[? ?]]; auto.
    + intros -> Hm Hn. rewrite Hm, Hn in Hguard. done.
  - exists (lease_key p lease), n. split; [by eapply held_intro|done].
Qed.

Lemma RequeueFailed_refines env ex rev nd db :
  Inv db →
  refines env (RequeueFailed env ex rev nd db) db (λ _ e _,
    ∃ k, node_key env ex rev nd k ∧ e = EvRequeue k).
Proof.
  intros HI. unfold RequeueFailed. destruct (_ || _); [by left; eexists|].
  open_tx v. bind_inv Hfn now Hnow. bind_inv Hfn row Hrow.
  apply loadNodeRuntime_Ok in Hrow as (n & Hk & ->). simpl in Hfn.
  destruct (bool_decide (n_state n = NodeFailed)) eqn:Hs; simpl in Hfn; [|done].
  apply bool_decide_eq_true in Hs.
  destruct (_ || _) eqn:Hg; [done|]. apply orb_false_iff in Hg as [Hg1%negb_false_iff Hg2].
  bind_inv Hfn r Hr. bind_inv Hfn db1 Hdb1. simplify_eq.
  destruct (node_updated _ _ _ _ _ _ _ _ _ Hr Hdb1) as (n' & Hk' & _ & Hck & ->). simplify_eq.
  eexists _, (EvRequeue (scope_of p, (ex, rev, nd))). split; [|split; [exact Hrep|]].
  - by apply step_requeue.
  - eexists. split; [by exists p|done].
Qed.

(** The queries change nothing. *)
Lemma read_only {A} env (fn : TxBody A) db :
  (∀ p a db', fn p db = Ok (a, db') → db' = db) → snd (withScopedTx env fn db) = db.
Proof.
  intros H. destruct (withScopedTx_refines env fn db) as [[e ->]|(p & a & db' & _ & Hfn & -> & _)];
    [done|eauto].
Qed.

Lemma Get_reads env ex rev nd db : snd (Get env ex rev nd db) = db.
Proof.
  apply read_only. intros p v db' Hfn. bind_inv Hfn row Hrow. simpl in Hfn.
  destruct (row_leaseToken row); [bind_inv Hfn aid Haid|]; congruence.
Qed.

Lemma GetAttempt_reads env id db : snd (GetAttempt env id db) = db.
Proof.
  unfold GetAttempt. case_bool_decide; [done|]. apply read_only. intros p v db' Hfn.
  bind_inv Hfn row Hrow. congruence.
Qed.

Lemma ListAttempts_reads env ex rev nd db : snd (ListAttempts env ex rev nd db) = db.
Proof.
  unfold ListAttempts. destruct (_ || _); [done|]. apply read_only. intros p v db' Hfn.
  bind_inv Hfn u Hu. bind_inv Hfn u' Hu'. congruence.
Qed.

End operations.
End LeaseRefine.
