(* ===== verification/LeaseSafety.v ===== *)
(** * LeaseSafety: what the durable lease store guarantees

    Histories of calls to the store by any workers, in any order, with any
    faults, and the theorems about them: the invariant holds throughout,
    superseded leases are fenced out, effects that may not be repeated are not,
    finished attempts are immutable, and scopes do not touch each other. *)
From stdpp Require Import vector.
From S2P Require Import Prelude Identity ExecTypes ExecState LeaseSchema LeaseStore LeaseSpec.
From S2P Require Import LeaseRefine.

Module LeaseSafety.
Import LeaseSchema LeaseStore LeaseSpec LeaseInv LeaseRefine.

(** ** Calls *)

Inductive call : Type :=
| CallRegister (record : NodeRuntimeRecord)
| CallClaim (executionID : ExecutionID) (planRevision : Z) (nodeID : NodeID) (owner : string) (d : Duration)
| CallRenew (lease : NodeLease) (d : Duration)
| CallStart (lease : NodeLease) (binding : AttemptBinding)
| CallEffectStarted (lease : NodeLease)
| CallEffectCommitted (lease : NodeLease)
| CallRelease (lease : NodeLease)
| CallComplete (lease : NodeLease) (terminal : NodeState) (completion : AttemptCompletion)
| CallRequeue (executionID : ExecutionID) (planRevision : Z) (nodeID : NodeID)
| CallGet (executionID : ExecutionID) (planRevision : Z) (nodeID : NodeID)
| CallGetAttempt (id : AttemptID)
| CallList (executionID : ExecutionID) (planRevision : Z) (nodeID : NodeID).

(** ** Lemmas about single steps *)

Lemma lstep_other_node pg_ts e db db' k :
  lstep pg_ts e db db' → k ≠ event_key e → nodes db' !! k = nodes db !! k.
Proof. destruct 1; simpl; intros; rewrite ?lookup_insert_ne; done. Qed.

Lemma lstep_other_scope pg_ts e db db' sc id :
  lstep pg_ts e db db' → sc ≠ (event_key e).1 → attempts db' !! (sc, id) = attempts db !! (sc, id).
Proof. destruct 1; simpl; intros; rewrite ?lookup_insert_ne; congruence. Qed.

(** What never changes about a node, and what only grows. *)
Definition grows (n n' : NodeRow) : Prop :=
  (n_lease_fence n ≤ n_lease_fence n')%Z ∧ (n_attempt_number n ≤ n_attempt_number n')%Z
  ∧ n_retry_safe n' = n_retry_safe n ∧ n_effect_class n' = n_effect_class n
  ∧ n_idempotency_key n' = n_idempotency_key n.

#[local] Instance grows_preorder : PreOrder grows.
Proof.
  split; [intros n; unfold grows; split_and!; done|]. intros x y z. unfold grows.
  intros (?&?&?&?&?) (?&?&?&?&?). split_and!; try lia; congruence.
Qed.

Ltac node_case Hcur Hk :=
  first [rewrite (cur_node _ _ _ _ _ Hcur) in Hk; injection Hk as <- | simplify_eq].

Lemma lstep_grows pg_ts e db db' k n :
  lstep pg_ts e db db' → nodes db !! k = Some n → ∃ n', nodes db' !! k = Some n' ∧ grows n n'.
Proof.
  intros Hstep Hk. destruct (decide (k = event_key e)) as [->|Hne].
  2: { exists n. by rewrite (lstep_other_node _ _ _ _ _ Hstep). }
  destruct Hstep; simpl in *; try match goal with H : current _ _ _ _ _ |- _ => node_case H Hk end;
    simplify_eq; eexists; rewrite lookup_insert_eq; (split; [done|]);
    unfold grows; simpl; split_and!; try done; lia.
Qed.

(** A finished attempt never changes again. *)
Lemma lstep_closed pg_ts e db db' key a :
  lstep pg_ts e db db' → attempts db !! key = Some a → open_status (a_status a) = false →
  attempts db' !! key = Some a.
Proof.
  intros Hstep Ha Ho.
  assert (∀ k n id b, current db k n id b → key ≠ (k.1, id)) as Hcur.
  { intros k n id b [] ->. congruence. }
  destruct Hstep; simpl; try done;
    repeat match goal with
    | H : current _ _ _ _ _ |- _ => apply Hcur in H
    end; rewrite ?lookup_insert_ne; try done; congruence.
Qed.

Lemma lstep_attempt_stays pg_ts e db db' key :
  lstep pg_ts e db db' → is_Some (attempts db !! key) → is_Some (attempts db' !! key).
Proof. destruct 1; simpl; rewrite ?lookup_insert_is_Some'; auto. Qed.

(** The state changes the protocol makes. *)
Lemma lstep_state pg_ts e db db' k n n' :
  lstep pg_ts e db db' → nodes db !! k = Some n → nodes db' !! k = Some n' →
  n_state n' = n_state n
  ∨ ExecState.CanTransitionNode (n_state n) (n_state n') = true
  ∨ (n_state n = NodeRunning ∧ n_state n' = NodeReady ∧ n_effect_started_at n = None
     ∧ ∃ id, e = EvRelease k id).
Proof.
  intros Hstep Hk Hk'. destruct (decide (k = event_key e)) as [->|Hne].
  2: { left. rewrite (lstep_other_node _ _ _ _ _ Hstep) in Hk' by done. congruence. }
  destruct Hstep; simpl in *; rewrite lookup_insert_eq in Hk'; simplify_eq;
    try match goal with H : current _ _ _ _ _ |- _ => node_case H Hk end; simplify_eq; simpl.
  - right; left. by rewrite H0.
  - left. congruence.
  - by left.
  - by left.
  - by left.
  - by left.
  - right; right. eauto.
  - right; left. rewrite H0.
    match goal with H : validateAttemptCompletion _ _ = Ok tt |- _ =>
      apply validateAttemptCompletion_Ok in H as [[-> _]|[[-> _]|[-> _]]] end; done.
  - right; left. by rewrite H0.
Qed.

Section histories.
Variable pg_ts : Time → Time.
Variable pg_cost : float64 → result float64.

Definition run_call (env : TxEnv) (c : call) (db : DB) : DB :=
  match c with
  | CallRegister record => snd (Register env record db)
  | CallClaim ex rev nd owner d => snd (Claim pg_ts env ex rev nd owner d db)
  | CallRenew lease d => snd (Renew pg_ts env lease d db)
  | CallStart lease binding => snd (StartAttempt env lease binding db)
  | CallEffectStarted lease => snd (MarkEffectStarted env lease db)
  | CallEffectCommitted lease => snd (MarkEffectCommitted env lease db)
  | CallRelease lease => snd (ReleaseBeforeEffect env lease db)
  | CallComplete lease terminal completion => snd (Complete pg_cost env lease terminal completion db)
  | CallRequeue ex rev nd => snd (RequeueFailed env ex rev nd db)
  | CallGet ex rev nd => snd (Get env ex rev nd db)
  | CallGetAttempt id => snd (GetAttempt env id db)
  | CallList ex rev nd => snd (ListAttempts env ex rev nd db)
  end.

(** A history: each call with the environment of its transaction. *)
Definition run_history (h : list (TxEnv * call)) (db : DB) : DB :=
  foldl (λ db ec, run_call ec.1 ec.2 db) db h.


(** One call is no change or one step, on a node of the caller's scope. *)
Lemma run_call_step env c db :
  Inv db →
  run_call env c db = db
  ∨ ∃ e p, lstep pg_ts e db (run_call env c db)
           ∧ Identity.requireScopedPrincipal (env_ctx env) = Ok p
           ∧ (event_key e).1 = scope_of p
           ∧ (∀ k id, e = EvRelease k id → ∃ lease, c = CallRelease lease).
Proof.
  intros HI.
  assert (∀ A (m : result A * DB) R,
    refines pg_ts env m db R →
    (∀ a e db', R a e db' → (∃ ex rev nd, node_key env ex rev nd (event_key e))
       ∧ ∀ k id, e = EvRelease k id → ∃ lease, c = CallRelease lease) →
    snd m = db ∨ ∃ e p, lstep pg_ts e db (snd m)
      ∧ Identity.requireScopedPrincipal (env_ctx env) = Ok p ∧ (event_key e).1 = scope_of p
      ∧ ∀ k id, e = EvRelease k id → ∃ lease, c = CallRelease lease) as Hgen.
  { intros A m R [[e ->]|(a & e & Hs & _ & HR)] Hk; [by left|right].
    destruct (Hk _ _ _ HR) as ((ex & rev & nd & p & Hp & He) & Hr). exists e, p. by rewrite He. }
  unfold held in *. destruct c; simpl;
    [ eapply Hgen; [by apply Register_refines|]
    | eapply Hgen; [by apply Claim_refines|]
    | eapply Hgen; [by apply Renew_refines|]
    | eapply Hgen; [by apply StartAttempt_refines|]
    | eapply Hgen; [by apply MarkEffectStarted_refines|]
    | eapply Hgen; [by apply MarkEffectCommitted_refines|]
    | eapply Hgen; [by apply ReleaseBeforeEffect_refines|]
    | eapply Hgen; [by apply Complete_refines|]
    | eapply Hgen; [by apply RequeueFailed_refines|]
    | left; apply Get_reads | left; apply GetAttempt_reads | left; apply ListAttempts_reads ];
    intros ? e ? HR; unfold held in HR; destruct_and?;
    repeat match goal with H : ∃ _, _ |- _ => destruct H | H : _ ∧ _ |- _ => destruct H end;
    subst; (split; [by eauto|intros; simplify_eq; eauto]).
Qed.

Lemma run_call_Inv env c db : Inv db → Inv (run_call env c db).
Proof.
  intros HI. destruct (run_call_step env c db HI) as [->|(e & p & Hs & _)]; [done|].
  by eapply lstep_Inv.
Qed.

Lemma run_history_Inv h db : Inv db → Inv (run_history h db).
Proof.
  revert db. induction h as [|[env c] h IH]; intros db HI; [done|].
  apply IH. by apply run_call_Inv.
Qed.

Lemma run_history_grows h db k n :
  Inv db → nodes db !! k = Some n → ∃ n', nodes (run_history h db) !! k = Some n' ∧ grows n n'.
Proof.
  revert db n. induction h as [|[env c] h IH]; intros db n HI Hk; [by exists n|]. simpl.
  assert (∃ n1, nodes (run_call env c db) !! k = Some n1 ∧ grows n n1) as (n1 & Hk1 & Hg1).
  { destruct (run_call_step env c db HI) as [->|(e & p & Hs & _)]; [by exists n|].
    by eapply lstep_grows. }
  destruct (IH _ n1 (run_call_Inv env c db HI) Hk1) as (n2 & ? & ?). exists n2.
  split; [done|]. by transitivity n1.
Qed.

(** C21. Refinement: any history of calls to the store, starting with empty
    tables, whatever faults, clocks and commit outcomes it meets, leaves the
    tables in a state the abstract lease protocol reaches. *)
Theorem store_refines_protocol h :
  ∃ evs, reachable pg_ts evs (run_history h emptyDB).
Proof.
  unfold run_history. induction h as [|[env c] h [evs IH]] using rev_ind; [exists []; constructor|].
  rewrite foldl_app. simpl.
  destruct (run_call_step env c _ (reachable_Inv _ _ _ IH)) as [->|(e & p & Hs & _)]; [eauto|].
  exists (evs ++ [e]). by eapply reachable_step.
Qed.

(** C22. In every state the store can reach, a node is RUNNING exactly when it
    has an attempt that is not finished, that attempt is unique, and it carries
    the node's attempt number, fence, owner and effect progress. *)
Theorem running_iff_open_attempt h k n :
  let db := run_history h emptyDB in
  nodes db !! k = Some n →
  (n_state n = NodeRunning ↔
   ∃ id a, attempts db !! (k.1, id) = Some a ∧ a_ref a = k.2 ∧ open_status (a_status a) = true)
  ∧ ∀ id a, attempts db !! (k.1, id) = Some a → a_ref a = k.2 → open_status (a_status a) = true →
      a_attempt_number a = n_attempt_number n ∧ a_lease_fence a = n_lease_fence n
      ∧ n_lease_owner n = Some (a_lease_owner a)
      ∧ a_effect_started_at a = n_effect_started_at n
      ∧ a_effect_committed_at a = n_effect_committed_at n
      ∧ ∀ id' a', attempts db !! (k.1, id') = Some a' → a_ref a' = k.2 →
          open_status (a_status a') = true → id' = id.
Proof.
  intros db Hk. assert (Inv db) as HI by apply run_history_Inv, Inv_empty.
  assert (∀ id a, attempts db !! (k.1, id) = Some a → a_ref a = k.2 →
            open_status (a_status a) = true → n_state n = NodeRunning) as Hrun.
  { intros id a Ha Hr Ho. eapply (inv_open db HI k.1 id a); [done| |done]. by rewrite Hr, <- keyed. }
  split.
  - split.
    + intros Hs. destruct (inv_running db HI k n Hk Hs) as (id & a & [] & _). eauto.
    + intros (id & a & Ha & Hr & Ho). eauto.
  - intros id a Ha Hr Ho. pose proof (open_current db k n id a HI Hk Ha Hr Ho) as Hc.
    destruct (running_attempt db k n id a HI Hc (Hrun _ _ Ha Hr Ho)) as (? & ? & ?).
    split_and!; try done; try apply Hc.
    intros id' a' Ha' Hr' Ho'. pose proof (open_current db k n id' a' HI Hk Ha' Hr' Ho') as Hc'.
    eapply (current_unique db k n id a id' a'); try done. apply Hc'.
Qed.

Lemma run_history_attempt_stays h db key :
  Inv db → is_Some (attempts db !! key) → is_Some (attempts (run_history h db) !! key).
Proof.
  revert db. induction h as [|[env c] h IH]; intros db HI Hk; [done|]. simpl.
  apply IH; [by apply run_call_Inv|].
  destruct (run_call_step env c db HI) as [->|(e & p & Hs & _)]; [done|].
  by eapply lstep_attempt_stays.
Qed.

(** ** Fencing *)

(** Every operation that takes the lease reports an error and changes nothing. *)
Definition rejects_lease (env : TxEnv) (lease : NodeLease) (db : DB) : Prop :=
  (∀ d, stutters (Renew pg_ts env lease d db) db)
  ∧ (∀ b, stutters (StartAttempt env lease b db) db)
  ∧ stutters (MarkEffectStarted env lease db) db
  ∧ stutters (MarkEffectCommitted env lease db) db
  ∧ stutters (ReleaseBeforeEffect env lease db) db
  ∧ (∀ t c, stutters (Complete pg_cost env lease t c db) db).

Lemma not_held_rejected env lease db :
  Inv db → (∀ k n, ¬ held env lease db k n) → rejects_lease env lease db.
Proof.
  intros HI Hn. unfold rejects_lease.
  split_and!; intros;
    [ edestruct (Renew_refines pg_ts env lease d db HI) as [Hx|(?&?&_&_&?&?&?&_)]
    | edestruct (StartAttempt_refines pg_ts env lease b db HI) as [Hx|(?&?&_&_&?&?&?&_)]
    | edestruct (MarkEffectStarted_refines pg_ts env lease db HI) as [Hx|(?&?&_&_&?&?&?&_)]
    | edestruct (MarkEffectCommitted_refines pg_ts env lease db HI) as [Hx|(?&?&_&_&?&?&?&_)]
    | edestruct (ReleaseBeforeEffect_refines pg_ts env lease db HI) as [Hx|(?&?&_&_&?&?&?&?&_)]
    | edestruct (Complete_refines pg_ts pg_cost env lease t c db HI) as [Hx|(?&?&_&_&?&?&?&_)] ];
    try done; exfalso; by eapply Hn.
Qed.

Lemma Claim_Ok env ex rev nd owner d db lease db' :
  Inv db → Claim pg_ts env ex rev nd owner d db = (Ok lease, db') →
  ∃ k n n', node_key env ex rev nd k ∧ nodes db !! k = Some n ∧ nodes db' !! k = Some n'
    ∧ lstep pg_ts (EvClaim k (Lease_Fence lease) (Lease_AttemptNumber lease) (Lease_AttemptRef lease)) db db'
    ∧ Lease_Fence lease = (n_lease_fence n + 1)%Z
    ∧ Lease_AttemptNumber lease = (n_attempt_number n + 1)%Z
    ∧ (Lease_ExecutionRef lease, Lease_PlanRevision lease, Lease_NodeRef lease) = k.2
    ∧ n_lease_owner n' = Some owner ∧ Lease_OwnerWorkerID lease = owner
    ∧ n_lease_token n' = Some (Lease_Token lease)
    ∧ n_lease_expires_at n' = Some (pg_ts (Lease_ExpiresAt lease))
    ∧ env_clock env = Ok (Lease_ClaimedAt lease)
    ∧ n_claimed_at n' = Some (Lease_ClaimedAt lease) ∧ n_heartbeat_at n' = Some (Lease_HeartbeatAt lease)
    ∧ (n_state n = NodeReady
       ∨ (n_state n = NodeRunning ∧ n_retry_safe n = true ∧ n_effect_committed_at n = None
          ∧ ∃ x, n_lease_expires_at n = Some x ∧ (x ≤ Lease_ClaimedAt lease)%Z)).
Proof.
  intros HI Hc. destruct (Claim_refines pg_ts env ex rev nd owner d db HI)
    as [[e He]|(l & e & Hs & Hr & k & n & n' & H)]; [congruence|].
  rewrite Hc in Hs, Hr, H. simpl in *.
  assert (l = lease) as -> by (destruct Hr as [|[[? ?] _]]; congruence).
  destruct H as (? & ? & ? & -> & H). exists k, n, n'. done.
Qed.

Lemma claim_step_inv k fence number id db db' n :
  Inv db → lstep pg_ts (EvClaim k fence number id) db db' → nodes db !! k = Some n →
  ∃ n' a', nodes db' !! k = Some n' ∧ attempts db !! (k.1, id) = None
    ∧ attempts db' !! (k.1, id) = Some a' ∧ a_ref a' = k.2 ∧ a_status a' = AttemptPending
    ∧ a_attempt_number a' = number ∧ a_lease_fence a' = fence
    ∧ a_effect_started_at a' = None ∧ a_effect_committed_at a' = None
    ∧ n_state n' = NodeRunning ∧ n_lease_fence n' = fence ∧ n_attempt_number n' = number
    ∧ n_effect_started_at n' = None ∧ n_effect_committed_at n' = None
    ∧ n_lease_owner n' = Some (a_lease_owner a')
    ∧ ∀ old a, current db k n old a → n_state n = NodeRunning →
        ∃ now, attempts db' !! (k.1, old) = Some (set_abandoned now a).
Proof.
  intros HI Hs Hk. inversion Hs; subst; simpl.
  - match goal with H : nodes db !! k = Some ?m |- _ => assert (m = n) as -> by congruence end.
    eexists _, _. rewrite !lookup_insert_eq. split_and!; try done. congruence.
  - match goal with H : current db k ?m ?i ?b |- _ => rename H into Hcur;
      assert (m = n) as -> by (pose proof (cur_node _ _ _ _ _ Hcur); congruence) end.
    eexists _, _. rewrite !lookup_insert_eq. split_and!; try done.
    intros old' a' Hcur' _. exists now.
    destruct (current_unique _ _ _ _ _ old' a' HI Hcur) as [-> ->]; [apply Hcur'..|].
    rewrite lookup_insert_ne by congruence. by rewrite lookup_insert_eq.
Qed.

(** What a successful [Claim] does: it takes a node that is READY, or
    RUNNING under a lease that had expired on PostgreSQL's clock, is retry-safe
    and has committed no effect; the node becomes RUNNING under the next fence
    and attempt number with the caller's owner and the lease's token, its effect
    marks are cleared; a PENDING attempt that did not exist before carries the
    same number, fence and owner; and the attempt that is taken over is
    ABANDONED, all in the one step. *)
Theorem Claim_correct h env ex rev nd owner d lease db' :
  let db := run_history h emptyDB in
  Claim pg_ts env ex rev nd owner d db = (Ok lease, db') →
  ∃ k n n' a', node_key env ex rev nd k ∧ nodes db !! k = Some n ∧ nodes db' !! k = Some n'
  ∧ (n_state n = NodeReady
     ∨ (n_state n = NodeRunning ∧ n_retry_safe n = true ∧ n_effect_committed_at n = None
        ∧ ∃ x, n_lease_expires_at n = Some x ∧ (x ≤ Lease_ClaimedAt lease)%Z))
  ∧ env_clock env = Ok (Lease_ClaimedAt lease)
  ∧ n_state n' = NodeRunning ∧ n_lease_owner n' = Some owner
  ∧ n_lease_token n' = Some (Lease_Token lease)
  ∧ n_lease_fence n' = (n_lease_fence n + 1)%Z ∧ Lease_Fence lease = n_lease_fence n'
  ∧ n_attempt_number n' = (n_attempt_number n + 1)%Z ∧ Lease_AttemptNumber lease = n_attempt_number n'
  ∧ n_effect_started_at n' = None ∧ n_effect_committed_at n' = None
  ∧ attempts db !! (k.1, Lease_AttemptRef lease) = None
  ∧ attempts db' !! (k.1, Lease_AttemptRef lease) = Some a'
  ∧ a_ref a' = k.2 ∧ a_status a' = AttemptPending ∧ a_lease_owner a' = owner
  ∧ a_lease_fence a' = Lease_Fence lease ∧ a_attempt_number a' = Lease_AttemptNumber lease
  ∧ ∀ old a, current db k n old a → n_state n = NodeRunning →
      ∃ now, attempts db' !! (k.1, old) = Some (set_abandoned now a).
Proof.
  intros db Hc. assert (Inv db) as HI by apply run_history_Inv, Inv_empty.
  destruct (Claim_Ok _ _ _ _ _ _ _ _ _ HI Hc)
    as (k & n & n' & Hk & Hn & Hn' & Hs & Hf & Hnum & _ & Ho & _ & Ht & _ & Hclk & _ & _ & Hcond).
  destruct (claim_step_inv _ _ _ _ _ _ _ HI Hs Hn)
    as (m & a' & Hm & Hnone & Ha' & Hr & Hst & Han & Haf & _ & _ & Hms & Hmf & Hmn & Hme & Hmc & Hmo & Hab).
  rewrite Hn' in Hm. simplify_eq. exists k, n, m, a'. split_and!; try done; congruence.
Qed.

(** C4. Fencing: once a node has been claimed again, the earlier lease is dead
    for good.  The later claim has a strictly larger fence and attempt number
    and another attempt; and from then on, after any further history, every
    operation of the same tenant and project under the earlier lease (renew,
    start, mark an effect started or committed, release, complete) reports an
    error and leaves both tables exactly as they were. *)
Theorem superseded_lease_is_fenced_out h0 h1 h2 env1 env2 env p1 p2 p ex rev nd owner1 owner2 d1 d2
    lease1 lease2 db1 db3 :
  Claim pg_ts env1 ex rev nd owner1 d1 (run_history h0 emptyDB) = (Ok lease1, db1) →
  Claim pg_ts env2 ex rev nd owner2 d2 (run_history h1 db1) = (Ok lease2, db3) →
  Identity.requireScopedPrincipal (env_ctx env1) = Ok p1 →
  Identity.requireScopedPrincipal (env_ctx env2) = Ok p2 →
  Identity.requireScopedPrincipal (env_ctx env) = Ok p →
  scope_of p1 = scope_of p → scope_of p2 = scope_of p →
  (Lease_Fence lease1 < Lease_Fence lease2)%Z
  ∧ (Lease_AttemptNumber lease1 < Lease_AttemptNumber lease2)%Z
  ∧ Lease_AttemptRef lease1 ≠ Lease_AttemptRef lease2
  ∧ rejects_lease env lease1 (run_history h2 db3).
Proof.
  intros Hc1 Hc2 Hp1 Hp2 Hp Hs1 Hs2. set (db0 := run_history h0 emptyDB) in *.
  assert (Inv db0) as HI0 by apply run_history_Inv, Inv_empty.
  destruct (Claim_Ok _ _ _ _ _ _ _ _ _ HI0 Hc1) as (k1 & n0 & n1 & (q1 & Hq1 & ->) & Hn0 & Hn1 & St1 & Hf1 & Hu1 & Hr1 & _).
  destruct (claim_step_inv _ _ _ _ _ _ _ HI0 St1 Hn0)
    as (m1 & a1 & Hm1 & _ & Ha1 & _ & _ & _ & _ & _ & _ & _ & Hmf1 & Hmn1 & _).
  rewrite Hn1 in Hm1. injection Hm1 as <-.
  assert (q1 = p1) as -> by congruence. pose proof (lstep_Inv _ _ _ _ St1 HI0) as HI1.
  destruct (run_history_grows h1 db1 _ _ HI1 Hn1) as (n2 & Hn2 & Hg12 & Hg12' & _).
  pose proof (run_history_Inv h1 db1 HI1) as HI2.
  destruct (Claim_Ok _ _ _ _ _ _ _ _ _ HI2 Hc2) as (k2 & n2' & n3 & (q2 & Hq2 & ->) & Hn2' & Hn3 & St2 & Hf2 & Hu2 & _).
  assert (q2 = p2) as -> by congruence. rewrite Hs1 in *. rewrite Hs2 in *.
  rewrite Hn2 in Hn2'. injection Hn2' as <-.
  destruct (claim_step_inv _ _ _ _ _ _ _ HI2 St2 Hn2)
    as (m3 & a3 & Hm3 & Hnone & _ & _ & _ & _ & _ & _ & _ & _ & Hmf3 & _).
  rewrite Hn3 in Hm3. injection Hm3 as <-.
  split_and!; [lia|lia| |].
  - intros E. rewrite <- E in Hnone. simpl in Hnone.
    destruct (run_history_attempt_stays h1 db1 (scope_of p, Lease_AttemptRef lease1) HI1) as [? Hx].
    + simpl in Ha1. by rewrite Ha1.
    + congruence.
  - pose proof (lstep_Inv _ _ _ _ St2 HI2) as HI3.
    destruct (run_history_grows h2 db3 _ _ HI3 Hn3) as (n4 & Hn4 & Hg34 & _).
    apply not_held_rejected; [by apply run_history_Inv|].
    intros k n ((q & Hq & ->) & Hn & now & _ & Hcond). assert (q = p) as -> by congruence.
    simpl in Hr1. rewrite Hr1, Hn4 in Hn. injection Hn as <-.
    apply lease_cond_true in Hcond as (_ & _ & _ & Hf & _). lia.
Qed.

(** ** Effects *)

(** C1. A node that is not retry-safe begins its effect at most once: over any
    history, of all the attempts ever made at such a node (every
    non-idempotent mutation is one), at most one has its effect marked
    started, even across crashes, expired leases, releases and commits of
    unknown outcome. *)
Theorem effect_started_at_most_once h k n id1 id2 a1 a2 :
  let db := run_history h emptyDB in
  nodes db !! k = Some n → n_retry_safe n = false →
  attempts db !! (k.1, id1) = Some a1 → a_ref a1 = k.2 → a_effect_started_at a1 ≠ None →
  attempts db !! (k.1, id2) = Some a2 → a_ref a2 = k.2 → a_effect_started_at a2 ≠ None →
  id1 = id2.
Proof.
  intros db Hk Hrs H1 R1 E1 H2 R2 E2. assert (Inv db) as HI by apply run_history_Inv, Inv_empty.
  destruct (inv_started db HI k n Hk Hrs) as [_ Hs].
  destruct (Hs _ _ H1 R1 E1) as [F1 _]. destruct (Hs _ _ H2 R2 E2) as [F2 _].
  eapply (inv_unique db HI k.1); try done; [congruence|]. right. congruence.
Qed.

(** A mutation, idempotent or not, is committed at most once: over any
    history at most one attempt at a mutation node is marked committed. *)
Theorem effect_committed_at_most_once h k n id1 id2 a1 a2 :
  let db := run_history h emptyDB in
  nodes db !! k = Some n → isMutation (n_effect_class n) = true →
  attempts db !! (k.1, id1) = Some a1 → a_ref a1 = k.2 → a_effect_committed_at a1 ≠ None →
  attempts db !! (k.1, id2) = Some a2 → a_ref a2 = k.2 → a_effect_committed_at a2 ≠ None →
  id1 = id2.
Proof.
  intros db Hk Hmu H1 R1 E1 H2 R2 E2. assert (Inv db) as HI by apply run_history_Inv, Inv_empty.
  destruct (inv_committed db HI k n Hk Hmu) as [_ Hs].
  destruct (Hs _ _ H1 R1 E1) as [F1 _]. destruct (Hs _ _ H2 R2 E2) as [F2 _].
  eapply (inv_unique db HI k.1); try done; [congruence|]. right. congruence.
Qed.

Lemma Complete_Ok env lease terminal completion db db' :
  Inv db → Complete pg_cost env lease terminal completion db = (Ok tt, db') →
  ∃ k n, held env lease db k n ∧ validateAttemptCompletion terminal completion = Ok tt
    ∧ lstep pg_ts (EvComplete k (Lease_AttemptRef lease) terminal completion) db db'.
Proof.
  intros HI Hc. destruct (Complete_refines pg_ts pg_cost env lease terminal completion db HI)
    as [[e He]|(l & e & Hs & Hr & k & n & Hh & _ & Hv & ->)]; [congruence|].
  rewrite Hc in Hs. eauto.
Qed.

Lemma Complete_spec env lease terminal completion db db' :
  Inv db →
  Complete pg_cost env lease terminal completion db = (Ok tt, db') →
  ∃ k n n' a', held env lease db k n
  ∧ nodes db' !! k = Some n' ∧ attempts db' !! (k.1, Lease_AttemptRef lease) = Some a'
  ∧ n_state n' = terminal
  ∧ n_lease_owner n' = None ∧ n_lease_token n' = None ∧ n_lease_expires_at n' = None
  ∧ a_status a' = Completion_Status completion ∧ a_finished_at a' ≠ None
  ∧ ((terminal = NodeSucceeded ∧ a_status a' = AttemptSucceeded)
     ∨ (terminal = NodeFailed ∧ a_status a' = AttemptFailed)
     ∨ (terminal = NodeCancelled ∧ a_status a' = AttemptCancelled))
  ∧ (terminal = NodeFailed → ∃ c, a_error_class a' = Some c ∧ c ≠ ErrorClassZero)
  ∧ (terminal = NodeSucceeded → isMutation (n_effect_class n') = true →
       n_effect_committed_at n' ≠ None ∧ a_effect_committed_at a' ≠ None)
  ∧ ∀ env', env_ctx env' = env_ctx env → rejects_lease env' lease db'.
Proof.
  intros HI Hc.
  destruct (Complete_Ok _ _ _ _ _ _ HI Hc) as (k & n & Hh & Hv & Hs).
  pose proof (lstep_Inv _ _ _ _ Hs HI) as HI'.
  pose proof (validateAttemptCompletion_Ok _ _ Hv) as Hm.
  inversion Hs; subst.
  match goal with H : current db k ?m _ _ |- _ => rename H into Hcur; rename m into m0 end.
  assert (m0 = n) as ->.
  { destruct Hh as (_ & Hn & _). pose proof (cur_node _ _ _ _ _ Hcur). congruence. }
  destruct (running_attempt _ _ _ _ _ HI Hcur) as (_ & _ & Hco); [done|].
  exists k, n. eexists _, _. simpl. rewrite !lookup_insert_eq.
  split_and!; try done; simpl.
  - intros ->. destruct Hm as [[? _]|[[_ Hst]|[? _]]]; try done.
    match goal with Hk : attempt_checks _ = true |- _ => unfold attempt_checks in Hk; simpl in Hk;
      rewrite Hst, !andb_true_iff in Hk; destruct_and! end.
    simpl in *. destruct (NULLIF_class _) as [c|]; [|done]. exists c. split; [done|].
    match goal with Hk : negb _ = true |- _ => by apply negb_true_iff, bool_decide_eq_false in Hk end.
  - intros Ht Hmu. rewrite Hco. auto.
  - intros env' He. apply not_held_rejected; [done|].
    intros k' n' ((q & Hq & ->) & Hn' & now' & _ & Hcond).
    apply lease_cond_true in Hcond as (Hrun & _).
    destruct Hh as ((q0 & Hq0 & ->) & _). rewrite He in Hq. assert (q0 = q) as -> by congruence.
    simpl in Hn'. rewrite lookup_insert_eq in Hn'. injection Hn' as <-. simpl in Hrun. subst.
    destruct Hm as [[? _]|[[? _]|[? _]]]; done.
Qed.

(** What a successful [Complete] does: under a lease that was valid, node
    and attempt finish together in matching states (SUCCEEDED, FAILED or
    CANCELLED), the lease columns are cleared, the attempt is given its finish
    time; a FAILED attempt has a non-empty error class; a mutation is SUCCEEDED
    only with its effect committed, on the node and on the attempt; and from
    then on the same lease is rejected by every operation. *)
Theorem Complete_correct h env lease terminal completion db' :
  let db := run_history h emptyDB in
  Complete pg_cost env lease terminal completion db = (Ok tt, db') →
  ∃ k n n' a', held env lease db k n
  ∧ nodes db' !! k = Some n' ∧ attempts db' !! (k.1, Lease_AttemptRef lease) = Some a'
  ∧ n_state n' = terminal
  ∧ n_lease_owner n' = None ∧ n_lease_token n' = None ∧ n_lease_expires_at n' = None
  ∧ a_status a' = Completion_Status completion ∧ a_finished_at a' ≠ None
  ∧ ((terminal = NodeSucceeded ∧ a_status a' = AttemptSucceeded)
     ∨ (terminal = NodeFailed ∧ a_status a' = AttemptFailed)
     ∨ (terminal = NodeCancelled ∧ a_status a' = AttemptCancelled))
  ∧ (terminal = NodeFailed → ∃ c, a_error_class a' = Some c ∧ c ≠ ErrorClassZero)
  ∧ (terminal = NodeSucceeded → isMutation (n_effect_class n') = true →
       n_effect_committed_at n' ≠ None ∧ a_effect_committed_at a' ≠ None)
  ∧ ∀ env', env_ctx env' = env_ctx env → rejects_lease env' lease db'.
Proof. intros db Hc. apply Complete_spec; [apply run_history_Inv, Inv_empty|done]. Qed.

(** The attempt history is append-only: once an attempt is finished
    (SUCCEEDED, FAILED, CANCELLED or ABANDONED) its row is never changed or
    removed by any later history. *)
Theorem finished_attempt_is_immutable h h' key a :
  let db := run_history h emptyDB in
  attempts db !! key = Some a → open_status (a_status a) = false →
  attempts (run_history h' db) !! key = Some a.
Proof.
  intros db. assert (Inv db) as HI by apply run_history_Inv, Inv_empty. revert HI.
  generalize db. clear db. induction h' as [|[env c] h' IH]; intros db HI Ha Ho; [done|].
  simpl. apply IH; [by apply run_call_Inv| |done].
  destruct (run_call_step env c db HI) as [->|(e & p & Hs & _)]; [done|].
  by eapply lstep_closed.
Qed.

(** Isolation of tenants and projects: a call touches no row of any scope
    but that of the principal in its context (and none at all without a
    principal the guard accepts). *)
Theorem scope_isolation h env c sc :
  let db := run_history h emptyDB in
  (∀ p, Identity.requireScopedPrincipal (env_ctx env) = Ok p → scope_of p ≠ sc) →
  (∀ ref, nodes (run_call env c db) !! (sc, ref) = nodes db !! (sc, ref))
  ∧ ∀ id, attempts (run_call env c db) !! (sc, id) = attempts db !! (sc, id).
Proof.
  intros db Hsc. assert (Inv db) as HI by apply run_history_Inv, Inv_empty.
  destruct (run_call_step env c db HI) as [->|(e & p & Hs & Hp & He & _)]; [done|].
  specialize (Hsc p Hp). split.
  - intros ref. eapply lstep_other_node; [done|]. intros E. rewrite <- E in He. done.
  - intros id. eapply lstep_other_scope; [done|]. congruence.
Qed.

(** The store follows the node state machine of [state.go] with one
    exception: whatever a call does to an existing node, its state stays, moves
    along a transition [CanTransitionNode] allows, or goes from RUNNING back to
    READY, which [state.go] does not allow and which only [ReleaseBeforeEffect]
    does, before any effect has started. *)
Theorem node_state_changes h env c k n n' :
  let db := run_history h emptyDB in
  nodes db !! k = Some n → nodes (run_call env c db) !! k = Some n' →
  n_state n' = n_state n
  ∨ ExecState.CanTransitionNode (n_state n) (n_state n') = true
  ∨ (n_state n = NodeRunning ∧ n_state n' = NodeReady
     ∧ ExecState.CanTransitionNode NodeRunning NodeReady = false
     ∧ n_effect_started_at n = None ∧ ∃ lease, c = CallRelease lease).
Proof.
  intros db Hk Hk'. assert (Inv db) as HI by apply run_history_Inv, Inv_empty.
  destruct (run_call_step env c db HI) as [E|(e & p & Hs & _ & _ & Hr)].
  { left. rewrite E in Hk'. congruence. }
  destruct (lstep_state _ _ _ _ _ _ _ Hs Hk Hk') as [?|[?|(?&?&?&id&->)]]; auto.
  right; right. split_and!; try done. eauto.
Qed.

End histories.

(** ** A concrete history for the witnesses *)

Definition sample_principal : Identity.Principal :=
  {| Identity.Type_ := Identity.PrincipalUser; Identity.SubjectID := "alice";
     Identity.TenantID := "acme"; Identity.ProjectID := "ops"; Identity.Roles := [];
     Identity.Capabilities := []; Identity.AuthnMethod := "oidc"; Identity.Issuer := "idp";
     Identity.SessionID := ""; Identity.Purpose := "" |}.

(** A transaction without faults at time [now]; [seed] makes its random bytes. *)
Definition sample_env (now : Time) (seed : N) : TxEnv :=
  {| env_db := true; env_ctx := Some sample_principal; env_begin := None; env_fault := λ _, None;
     env_clock := Ok now; env_now := now;
     env_rand := λ i, Ok (vreplicate 16 (ascii_of_N (seed + N.of_nat i))); env_commit := Committed |}.

Definition keep_ts (t : Time) : Time := t.
Definition keep_cost (c : float64) : result float64 := Ok c.

Definition sample_record (effect : EffectClass) (retrySafe : bool) : NodeRuntimeRecord :=
  {| Runtime_ExecutionRef := "e1"; Runtime_PlanRevision := 1; Runtime_NodeRef := "n1";
     Runtime_State := NodeReady; Runtime_EffectClass := effect; Runtime_RetrySafe := retrySafe;
     Runtime_IdempotencyKey := "key-1"; Runtime_AttemptNumber := 0; Runtime_LeaseFence := 0;
     Runtime_EffectStartedAt := None; Runtime_EffectCommittedAt := None; Runtime_UpdatedAt := 0%Z |}.

Definition sample_binding : AttemptBinding :=
  {| Binding_TargetRef := "t1"; Binding_TargetRevision := 1; Binding_TargetSnapshot := "sha256:1";
     Binding_PolicyDecisionRef := "pd1"; Binding_BudgetReservationRef := "r1" |}.

Definition ok_completion : AttemptCompletion :=
  {| Completion_Status := AttemptSucceeded; Completion_ErrorClass := ErrorClassZero;
     Completion_Usage := UsageZero |}.

Definition lease_of (r : result NodeLease * DB) : NodeLease :=
  match fst r with
  | Ok l => l
  | Err _ => mkNodeLease "" 0 "" "" "" "" 0 0 0%Z 0%Z 0%Z
  end.

Abbreviation run_sample := (run_history keep_ts keep_cost).
Abbreviation claim_sample now seed owner := (Claim keep_ts (sample_env now seed) "e1" 1 "n1" owner 100%Z).

Definition registered (effect : EffectClass) (retrySafe : bool) : list (TxEnv * call) :=
  [(sample_env 1000%Z 0, CallRegister (sample_record effect retrySafe))].

(** A retry-safe node claimed by [w1], whose lease expires, and again by [w2]. *)
Definition lease_w1 : NodeLease :=
  lease_of (claim_sample 2000%Z 65 "w1" (run_sample (registered EffectReadOnly true) emptyDB)).
Definition db_w1 : DB := snd (claim_sample 2000%Z 65 "w1" (run_sample (registered EffectReadOnly true) emptyDB)).
Definition lease_w2 : NodeLease := lease_of (claim_sample 3000%Z 70 "w2" db_w1).
Definition db_w2 : DB := snd (claim_sample 3000%Z 70 "w2" db_w1).

Lemma claim_w1 : claim_sample 2000%Z 65 "w1" (run_sample (registered EffectReadOnly true) emptyDB)
  = (Ok lease_w1, db_w1).
Proof. vm_compute. reflexivity. Qed.
Lemma claim_w2 : claim_sample 3000%Z 70 "w2" (run_sample [] db_w1) = (Ok lease_w2, db_w2).
Proof. vm_compute. reflexivity. Qed.

Definition sample_key : NodeKey := (("acme", "ops"), ("e1", 1%Z, "n1")).

Lemma Claim_correct_witness :
  ∃ a', attempts db_w1 !! (sample_key.1, Lease_AttemptRef lease_w1) = Some a' ∧ a_status a' = AttemptPending.
Proof.
  destruct (Claim_correct keep_ts keep_cost (registered EffectReadOnly true) (sample_env 2000%Z 65)
    "e1" 1 "n1" "w1" 100%Z lease_w1 db_w1 claim_w1)
    as (k & n & n' & a' & (p & Hp & ->) & _ & _ & _ & _ & _ & _ & _ & _ & _ & _ & _ & _ & _ & _ & Ha & _ & Hs & _).
  exists a'. split; [|exact Hs]. rewrite <- Ha. vm_compute in Hp. injection Hp as <-. reflexivity.
Defined.

Lemma superseded_lease_is_fenced_out_witness :
  rejects_lease keep_ts keep_cost (sample_env 3001%Z 0) lease_w1 (run_sample [] db_w2).
Proof.
  apply (superseded_lease_is_fenced_out keep_ts keep_cost (registered EffectReadOnly true) [] []
    (sample_env 2000%Z 65) (sample_env 3000%Z 70) (sample_env 3001%Z 0)
    sample_principal sample_principal sample_principal
    "e1" 1 "n1" "w1" "w2" 100%Z 100%Z lease_w1 lease_w2 db_w1 db_w2);
    first [exact claim_w1|exact claim_w2|vm_compute; reflexivity].
Defined.

(** A non-idempotent mutation: claimed, started, its effect started. *)
Definition once_lease : NodeLease :=
  lease_of (claim_sample 2000%Z 65 "w1" (run_sample (registered EffectNonIdempotentMutation false) emptyDB)).
Definition once_history : list (TxEnv * call) :=
  registered EffectNonIdempotentMutation false ++
  [(sample_env 2000%Z 65, CallClaim "e1" 1 "n1" "w1" 100%Z);
   (sample_env 2001%Z 0, CallStart once_lease sample_binding);
   (sample_env 2002%Z 0, CallEffectStarted once_lease);
   (sample_env 2003%Z 0, CallEffectCommitted once_lease)].
Definition once_db : DB := run_sample once_history emptyDB.

Definition the_node (db : DB) : NodeRow :=
  match nodes db !! sample_key with Some n => n | None => registeredRow (sample_record EffectPure true) 0%Z end.
Definition the_attempt (db : DB) (id : AttemptID) : AttemptRow :=
  match attempts db !! (sample_key.1, id) with
  | Some a => a
  | None => pendingAttempt ("", 0%Z, "") 0 0 "" "" 0%Z
  end.

Lemma effect_started_at_most_once_witness :
  a_effect_started_at (the_attempt once_db (Lease_AttemptRef once_lease)) ≠ None
  ∧ ∀ id a, attempts once_db !! (sample_key.1, id) = Some a → a_ref a = sample_key.2 →
      a_effect_started_at a ≠ None → id = Lease_AttemptRef once_lease.
Proof.
  split; [vm_compute; discriminate|]. intros id a Ha Hr He.
  apply (effect_started_at_most_once keep_ts keep_cost once_history sample_key (the_node once_db)
    id (Lease_AttemptRef once_lease) a (the_attempt once_db (Lease_AttemptRef once_lease)));
    first [assumption|vm_compute; reflexivity|vm_compute; discriminate].
Defined.

Lemma effect_committed_at_most_once_witness :
  a_effect_committed_at (the_attempt once_db (Lease_AttemptRef once_lease)) ≠ None
  ∧ ∀ id a, attempts once_db !! (sample_key.1, id) = Some a → a_ref a = sample_key.2 →
      a_effect_committed_at a ≠ None → id = Lease_AttemptRef once_lease.
Proof.
  split; [vm_compute; discriminate|]. intros id a Ha Hr He.
  apply (effect_committed_at_most_once keep_ts keep_cost once_history sample_key (the_node once_db)
    id (Lease_AttemptRef once_lease) a (the_attempt once_db (Lease_AttemptRef once_lease)));
    first [assumption|vm_compute; reflexivity|vm_compute; discriminate].
Defined.

Definition done_db : DB :=
  snd (Complete keep_cost (sample_env 2004%Z 0) once_lease NodeSucceeded ok_completion once_db).

Lemma Complete_correct_witness :
  rejects_lease keep_ts keep_cost (sample_env 2005%Z 0) once_lease done_db.
Proof.
  destruct (Complete_correct keep_ts keep_cost once_history (sample_env 2004%Z 0) once_lease NodeSucceeded
    ok_completion done_db) as (k & n & n' & a' & _ & _ & _ & _ & _ & _ & _ & _ & _ & _ & _ & _ & H).
  - vm_compute. reflexivity.
  - apply H. reflexivity.
Defined.

Lemma running_iff_open_attempt_witness :
  n_state (the_node once_db) = NodeRunning ↔
  ∃ id a, attempts once_db !! (sample_key.1, id) = Some a ∧ a_ref a = sample_key.2
          ∧ open_status (a_status a) = true.
Proof.
  apply (running_iff_open_attempt keep_ts keep_cost once_history sample_key (the_node once_db)).
  vm_compute. reflexivity.
Defined.

Lemma finished_attempt_is_immutable_witness :
  attempts (run_sample [(sample_env 3001%Z 0, CallRelease lease_w2)]
      (run_sample (registered EffectReadOnly true ++
         [(sample_env 2000%Z 65, CallClaim "e1" 1 "n1" "w1" 100%Z);
          (sample_env 3000%Z 70, CallClaim "e1" 1 "n1" "w2" 100%Z)]) emptyDB))
    !! (sample_key.1, Lease_AttemptRef lease_w1)
  = Some (the_attempt db_w2 (Lease_AttemptRef lease_w1)).
Proof.
  apply (finished_attempt_is_immutable keep_ts keep_cost); vm_compute; reflexivity.
Defined.

Lemma scope_isolation_witness :
  attempts (run_call keep_ts keep_cost (sample_env 2000%Z 65) (CallClaim "e1" 1 "n1" "w1" 100%Z)
              (run_sample (registered EffectReadOnly true) emptyDB)) !! (("other", "ops"), "a1")
  = attempts (run_sample (registered EffectReadOnly true) emptyDB) !! (("other", "ops"), "a1").
Proof.
  apply (scope_isolation keep_ts keep_cost (registered EffectReadOnly true) (sample_env 2000%Z 65)
    (CallClaim "e1" 1 "n1" "w1" 100%Z) ("other", "ops")).
  intros p Hp. vm_compute in Hp. injection Hp as <-. vm_compute. discriminate.
Defined.

Definition claimed_history : list (TxEnv * call) :=
  registered EffectReadOnly true ++ [(sample_env 2000%Z 65, CallClaim "e1" 1 "n1" "w1" 100%Z)].

Lemma node_state_changes_witness :
  ExecState.CanTransitionNode NodeRunning NodeReady = false.
Proof.
  destruct (node_state_changes keep_ts keep_cost claimed_history (sample_env 2001%Z 0)
    (CallRelease lease_w1) sample_key (the_node (run_sample claimed_history emptyDB))
    (the_node (run_call keep_ts keep_cost (sample_env 2001%Z 0) (CallRelease lease_w1)
                 (run_sample claimed_history emptyDB)))) as [H|[H|(_ & _ & H & _)]].
  - vm_compute. reflexivity.
  - vm_compute. reflexivity.
  - vm_compute in H. discriminate H.
  - vm_compute in H. discriminate H.
  - exact H.
Defined.

End LeaseSafety.
