(* ===== verification/LeaseLive.v ===== *)
(** * LeaseLive: the lease store makes progress

    Where no statement fails and the caller is authorised, a claimable node is
    claimed, and what [Claim] returned is what [Get] reads back. *)
From stdpp Require Import vector.
From S2P Require Import Prelude Identity ExecTypes LeaseSchema LeaseStore LeaseSpec.
From S2P Require Import LeaseRefine LeaseSafety.

Module LeaseLive.
Import LeaseSchema LeaseStore LeaseSpec LeaseInv LeaseRefine LeaseSafety.

(** A transaction of an accepted principal in which nothing fails. *)
Record healthy (env : TxEnv) (p : Identity.Principal) : Prop := {
  healthy_db : env_db env = true;
  healthy_ctx : Identity.requireScopedPrincipal (env_ctx env) = Ok p;
  healthy_begin : env_begin env = None;
  healthy_fault : ∀ label, env_fault env label = None;
  healthy_commit : env_commit env = Committed
}.

Section healthy.
Context {env : TxEnv} {p : Identity.Principal} (Henv : healthy env p).

Lemma healthy_stmt label : exec_stmt env label = Ok tt.
Proof. unfold exec_stmt. by rewrite (healthy_fault _ _ Henv). Qed.

Lemma healthy_rows label n : RowsAffected env label n = Ok n.
Proof. unfold RowsAffected, fault. by rewrite (healthy_fault _ _ Henv). Qed.

Lemma healthy_tx {A} (fn : TxBody A) db a db' :
  fn p db = Ok (a, db') → withScopedTx env fn db = (Ok a, db').
Proof.
  intros Hf. unfold withScopedTx. destruct Henv as [-> -> -> ? ->]. simpl.
  by rewrite healthy_stmt, Hf.
Qed.

Lemma healthy_load ex rev nd db n :
  nodes db !! (scope_of p, (ex, rev, nd)) = Some n →
  loadNodeRuntime env p ex rev nd db = Ok (scanNode ex rev nd n).
Proof. intros Hn. unfold loadNodeRuntime. rewrite healthy_stmt. simpl. by rewrite Hn. Qed.


(** The current attempt of a node is abandoned. *)
Lemma healthy_abandon ex rev nd db n id a now :
  Inv db → current db (scope_of p, (ex, rev, nd)) n id a →
  abandonAttemptTx env p ex rev nd (n_attempt_number n) (n_lease_fence n) now db
  = Ok (mkDB (nodes db) (<[(scope_of p, id) := set_abandoned now a]> (attempts db))).
Proof.
  intros HI Hc. pose proof Hc as [Ck Ca Cr Cn Cf Co]. unfold abandonAttemptTx.
  pose proof (inv_attempts db HI _ _ Ca) as Hka. simpl in Hka.
  assert (fits_int4 (n_attempt_number n) = true) as Hfit.
  { rewrite <- Cn. unfold attempt_checks in Hka. rewrite !andb_true_iff in Hka. by destruct_and!. }
  unfold int4_param. rewrite Hfit. simpl.
  rewrite (update_attempts_hit env _ (scope_of p) _ _ db id a); try done.
  - simpl. unfold requireOneAttemptRow. by rewrite healthy_rows.
  - apply healthy_stmt.
  - unfold attempt_ref_matches. simpl in Cr. rewrite Cr, Cn, Cf, Co.
    by rewrite bool_decide_eq_true_2, !Z.eqb_refl.
  - intros id' b Hb [(Hr & _ & Hf)%attempt_ref_matches_true _]%andb_true_iff.
    by destruct (current_unique _ _ _ _ _ _ _ HI Hc Hb Hr Hf).
  - unfold attempt_checks in *. rewrite !andb_true_iff in *. destruct_and!. split_and!; try done.
Qed.

End healthy.

(** ** Claiming *)

Lemma add64_succ z : (0 ≤ z < int_max)%Z → add64 z 1 = (z + 1)%Z.
Proof. intros. apply add64_small. unfold in_int64, int_min, int_max in *. lia. Qed.

Lemma fits_int4_succ z : (0 ≤ z < 2147483647)%Z → fits_int4 (z + 1) = true.
Proof. intros. unfold fits_int4. apply andb_true_iff. rewrite !Z.leb_le. lia. Qed.

Lemma claimed_checks pg_ts k n owner token now d :
  node_checks k n = true → (n_attempt_number n < 2147483647)%Z → (n_lease_fence n < int_max)%Z →
  (now < pg_ts (Add now d))%Z →
  node_checks k (claimed pg_ts n owner token now (Add now d)) = true.
Proof.
  unfold node_checks, claimed. intros H Hn Hf Ht. simpl. rewrite !andb_true_iff, !Z.leb_le in *.
  destruct_and!. split_and!; try done; try lia.
  - apply fits_int4_succ. lia.
  - unfold fits_int8. rewrite andb_true_iff, !Z.leb_le. unfold int_min, int_max in *. lia.
  - unfold lease_state_contract. simpl. by apply Z.ltb_lt.
Qed.

Lemma pending_checks k n owner now :
  node_checks k n = true → (n_attempt_number n < 2147483647)%Z → (n_lease_fence n < int_max)%Z →
  attempt_checks (claim_attempt k n owner now) = true.
Proof.
  unfold node_checks, attempt_checks, claim_attempt. intros H Hn Hf. simpl.
  rewrite !andb_true_iff, !Z.leb_le in *. destruct_and!. split_and!; try done; try lia.
  apply fits_int4_succ. lia.
Qed.

(** What [Claim] accepts. *)
Definition takes (n : NodeRow) (now : Time) : Prop :=
  n_state n = NodeReady
  ∨ (n_state n = NodeRunning ∧ n_retry_safe n = true ∧ n_effect_committed_at n = None
     ∧ ∃ x, n_lease_expires_at n = Some x ∧ (x ≤ now)%Z).

Lemma takes_claimable k ex rev nd n now :
  node_checks k n = true → takes n now →
  claimable (scanNode ex rev nd n) now = Ok (bool_decide (n_state n = NodeRunning)).
Proof.
  intros Hk. unfold claimable, NodeRuntimeRecord_Terminal, Before. simpl.
  intros [Hs|(Hs & -> & -> & x & -> & Hx)]; rewrite Hs; simpl.
  - unfold node_checks, lease_state_contract in Hk. rewrite Hs, !andb_true_iff in Hk. destruct_and!.
    by destruct (n_lease_token n).
  - destruct (Z.ltb_spec now x); [lia|done].
Qed.

Lemma Claim_healthy pg_ts env p ex rev nd owner d db n now b0 b1 :
  Inv db → healthy env p → env_clock env = Ok now → env_rand env 0 = Ok b0 → env_rand env 1 = Ok b1 →
  validateLeaseIdentity ex rev nd owner d = Ok tt →
  nodes db !! (scope_of p, (ex, rev, nd)) = Some n → takes n now →
  (n_attempt_number n < 2147483647)%Z → (n_lease_fence n < int_max)%Z →
  (now < pg_ts (Add now d))%Z →
  let id := "att_" +:+ EncodeToString (vec_to_list b1) in
  let token := EncodeToString (vec_to_list b0) in
  attempts db !! (scope_of p, id) = None →
  ∃ db', Claim pg_ts env ex rev nd owner d db =
    (Ok (mkNodeLease ex rev nd id owner token (n_lease_fence n + 1) (n_attempt_number n + 1)
           now now (Add now d)), db')
  ∧ nodes db' !! (scope_of p, (ex, rev, nd)) = Some (claimed pg_ts n owner token now (Add now d)).
Proof.
  intros HI He Hclk Hb0 Hb1 Hv Hn Htk Hnum Hfen Hexp id token Hfresh.
  set (k := (scope_of p, (ex, rev, nd))) in *.
  pose proof (inv_nodes db HI k n Hn) as Hkn. simpl in Hkn.
  assert (0 ≤ n_attempt_number n ∧ 0 ≤ n_lease_fence n)%Z as [Hn0 Hf0].
  { unfold node_checks in Hkn. rewrite !andb_true_iff in Hkn. destruct_and!. go_props. done. }
  assert (add64 (n_attempt_number n) 1 = n_attempt_number n + 1)%Z as E1
    by (apply add64_succ; unfold int_max; lia).
  assert (add64 (n_lease_fence n) 1 = n_lease_fence n + 1)%Z as E2 by (apply add64_succ; lia).
  (* the database after the takeover, if there is one *)
  assert (∃ at1, (if bool_decide (n_state n = NodeRunning)
                  then abandonAttemptTx env p ex rev nd (n_attempt_number n) (n_lease_fence n) now db
                  else Ok db) = Ok (mkDB (nodes db) at1)
          ∧ at1 !! (scope_of p, id) = None
          ∧ ∀ i r, at1 !! (scope_of p, i) = Some r → a_ref r = (ex, rev, nd) →
              (a_attempt_number r ≤ n_attempt_number n ∧ a_lease_fence r ≤ n_lease_fence n)%Z)
    as (at1 & Hab & Hnone & Hold).
  { assert (∀ i r, attempts db !! (scope_of p, i) = Some r → a_ref r = (ex, rev, nd) →
      (a_attempt_number r ≤ n_attempt_number n ∧ a_lease_fence r ≤ n_lease_fence n)%Z) as Hown.
    { intros i r Hi Hr. destruct (inv_owned db HI _ _ _ Hi) as (m & Hm & ?).
      rewrite Hr in Hm. fold k in Hm. rewrite Hn in Hm. by simplify_eq. }
    case_bool_decide as Hs.
    - destruct (inv_running db HI k n Hn Hs) as (old & a & Hcur & _).
      rewrite (healthy_abandon He _ _ _ _ _ _ _ _ HI Hcur).
      eexists. split; [done|]. pose proof (cur_attempt _ _ _ _ _ Hcur) as Ha. simpl in Ha. split.
      + rewrite lookup_insert_ne; [done|]. intros [= ->]. congruence.
      + intros i r Hi Hr. at_key Hi; [|eauto]. eapply Hown; [exact Ha|apply Hcur].
    - exists (attempts db). split; [by destruct db|done]. }
  unfold Claim. rewrite Hv.
  eexists. split.
  - apply (healthy_tx He). unfold databaseNow. rewrite Hclk. simpl.
    rewrite (healthy_load He _ _ _ _ _ Hn). simpl.
    rewrite (takes_claimable k _ _ _ _ _ Hkn Htk). simpl. rewrite Hab. simpl.
    unfold newAttemptID, newLeaseToken. rewrite Hb0, Hb1. simpl. rewrite E1, E2.
    fold k id token. unfold update_node. rewrite (healthy_stmt He). simpl. rewrite Hn.
    pose proof (claimed_checks pg_ts k n owner token now d Hkn Hnum Hfen Hexp) as Hcc.
    unfold claimed in Hcc. rewrite Hcc. simpl.
    unfold requireOneNodeRow. simpl. rewrite (healthy_rows He). simpl.
    unfold insertPendingAttemptTx. rewrite insert_attempt_fresh; simpl.
    + reflexivity.
    + apply (healthy_stmt He).
    + done.
    + by apply (pending_checks k n owner now).
    + intros i r Hi Hr. destruct (Hold i r Hi Hr). lia.
  - simpl. apply lookup_insert_eq.
Qed.

Lemma EncodeToString_nonempty (b : vec ascii 16) : EncodeToString (vec_to_list b) ≠ "".
Proof. by inv_vec b. Qed.

Lemma validateLeaseIdentity_duration ex rev nd owner d :
  validateLeaseIdentity ex rev nd owner d = Ok tt → (0 < d)%Z.
Proof. unfold validateLeaseIdentity. intros H. go_inv H. go_props. done. Qed.

(** A claim that should succeed does: when nothing fails, the principal is
    accepted, the arguments are valid, the node is READY (or RUNNING with an
    expired lease, retry-safe and uncommitted), the counters have room, the
    generated attempt id is new and the stored expiry lies after now, [Claim]
    returns a lease with the next fence and attempt number. *)
Theorem Claim_succeeds pg_ts pg_cost h env p ex rev nd owner d n now b0 b1 :
  let db := run_history pg_ts pg_cost h emptyDB in
  healthy env p → env_clock env = Ok now → env_rand env 0 = Ok b0 → env_rand env 1 = Ok b1 →
  validateLeaseIdentity ex rev nd owner d = Ok tt →
  nodes db !! (scope_of p, (ex, rev, nd)) = Some n → takes n now →
  (n_attempt_number n < 2147483647)%Z → (n_lease_fence n < int_max)%Z →
  (now < pg_ts (Add now d))%Z →
  attempts db !! (scope_of p, "att_" +:+ EncodeToString (vec_to_list b1)) = None →
  ∃ lease db', Claim pg_ts env ex rev nd owner d db = (Ok lease, db')
  ∧ Lease_Fence lease = (n_lease_fence n + 1)%Z
  ∧ Lease_AttemptNumber lease = (n_attempt_number n + 1)%Z
  ∧ NodeLease_ActiveAt lease now = true.
Proof.
  intros db He Hclk Hb0 Hb1 Hv Hn Htk Hnum Hfen Hexp Hfresh.
  assert (Inv db) as HI by apply run_history_Inv, Inv_empty.
  destruct (Claim_healthy pg_ts env p ex rev nd owner d db n now b0 b1) as (db' & Hc & _); try done.
  eexists _, db'. split; [exact Hc|]. split_and!; try done.
  unfold NodeLease_ActiveAt, Before. simpl.
  pose proof (inv_nodes db HI _ n Hn) as Hkn. simpl in Hkn. unfold node_checks in Hkn.
  rewrite !andb_true_iff in Hkn. destruct_and!. go_props.
  rewrite Z.ltb_irrefl, (bool_decide_eq_false_2 _ (EncodeToString_nonempty b0)). simpl.
  apply validateLeaseIdentity_duration in Hv. unfold Add.
  apply andb_true_iff. rewrite andb_true_r, !Z.ltb_lt. lia.
Qed.

Definition fresh_history : list (TxEnv * call) := registered EffectReadOnly true.

Lemma sample_healthy now seed : healthy (sample_env now seed) sample_principal.
Proof. split; reflexivity. Qed.

Lemma Claim_succeeds_witness :
  ∃ lease db', Claim keep_ts (sample_env 2000%Z 65) "e1" 1 "n1" "w1" 100%Z
                 (run_history keep_ts keep_cost fresh_history emptyDB) = (Ok lease, db')
               ∧ Lease_Fence lease = 1%Z.
Proof.
  destruct (Claim_succeeds keep_ts keep_cost fresh_history (sample_env 2000%Z 65) sample_principal
    "e1" 1 "n1" "w1" 100%Z (the_node (run_history keep_ts keep_cost fresh_history emptyDB)) 2000%Z
    (vreplicate 16 "A"%char) (vreplicate 16 "B"%char)) as (lease & db' & Hc & Hf & _);
    try (apply sample_healthy); try (vm_compute; reflexivity).
  - left. vm_compute. reflexivity.
  - exists lease, db'. split; [exact Hc|]. rewrite Hf. vm_compute. reflexivity.
Defined.

(** ** Reading a lease back *)

Lemma elem_of_node_attempts scope ref m id a :
  (id, a) ∈ node_attempts scope ref m ↔ m !! (scope, id) = Some a ∧ a_ref a = ref.
Proof.
  unfold node_attempts. rewrite list_elem_of_omap. split.
  - intros ([[sc i] r] & Hin & Hs). apply elem_of_map_to_list in Hin.
    destruct (_ && _) eqn:Hg; [|done]. go_props. simplify_eq/=. done.
  - intros [Hm Hr]. exists ((scope, id), a). split; [by apply elem_of_map_to_list|]. simpl.
    by rewrite !bool_decide_eq_true_2.
Qed.

Lemma find_only {A B} (f : A * B → bool) l a b :
  (a, b) ∈ l → f (a, b) = true → (∀ x, x ∈ l → f x = true → x.1 = a) →
  ∃ b', List.find f l = Some (a, b').
Proof.
  intros Hin Hf Hu. destruct (List.find f l) as [[a' b']|] eqn:Hfi.
  - apply List.find_some in Hfi as [Hi Hx]. apply list_elem_of_In in Hi.
    pose proof (Hu _ Hi Hx) as E. simpl in E. subst. eauto.
  - exfalso. apply list_elem_of_In in Hin. apply (List.find_none _ _ Hfi) in Hin. congruence.
Qed.

Lemma healthy_current_attempt env p ex rev nd db n id a :
  healthy env p → Inv db → current db (scope_of p, (ex, rev, nd)) n id a →
  loadCurrentAttemptIDTx env p ex rev nd (n_attempt_number n) (n_lease_fence n) db = Ok id.
Proof.
  intros He HI Hc. pose proof Hc as [Ck Ca Cr Cn Cf Co]. unfold loadCurrentAttemptIDTx.
  rewrite (healthy_stmt He). simpl.
  pose proof (inv_attempts db HI _ _ Ca) as Hka. simpl in Hka.
  assert (fits_int4 (n_attempt_number n) = true) as Hfit.
  { rewrite <- Cn. unfold attempt_checks in Hka. rewrite !andb_true_iff in Hka. by destruct_and!. }
  unfold int4_param. rewrite Hfit. simpl.
  edestruct (find_only (λ kv : AttemptID * AttemptRow, (a_attempt_number kv.2 =? n_attempt_number n)%Z
      && (a_lease_fence kv.2 =? n_lease_fence n)%Z)
    (node_attempts (scope_of p) (ex, rev, nd) (attempts db)) id a) as [b' Hb'].
  - by apply elem_of_node_attempts.
  - simpl. by rewrite Cn, Cf, !Z.eqb_refl.
  - intros [i r] [Hi Hr]%elem_of_node_attempts Hx. simpl in *. apply andb_true_iff in Hx as [_ Hx].
    apply Z.eqb_eq in Hx. by destruct (current_unique _ _ _ _ _ _ _ HI Hc Hi Hr Hx).
  - by rewrite Hb'.
Qed.

(** Round trip: right after a successful [Claim], [Get] by a principal of
    the same scope (in a transaction without faults) reports the node RUNNING
    and returns the very lease that was claimed, with the expiry as PostgreSQL
    stored it. *)
Theorem Claim_Get_roundtrip pg_ts pg_cost h env env' p p' ex rev nd owner d lease db' :
  Claim pg_ts env ex rev nd owner d (run_history pg_ts pg_cost h emptyDB) = (Ok lease, db') →
  Identity.requireScopedPrincipal (env_ctx env) = Ok p → healthy env' p' → scope_of p' = scope_of p →
  ∃ record, Get env' ex rev nd db' =
    (Ok (record, Some (lease_with lease (Lease_HeartbeatAt lease) (pg_ts (Lease_ExpiresAt lease)))), db')
  ∧ Runtime_State record = NodeRunning ∧ Runtime_LeaseFence record = Lease_Fence lease
  ∧ Runtime_AttemptNumber record = Lease_AttemptNumber lease
  ∧ Runtime_EffectStartedAt record = None.
Proof.
  intros Hc Hp He Hsc. set (db := run_history pg_ts pg_cost h emptyDB) in *.
  assert (Inv db) as HI by apply run_history_Inv, Inv_empty.
  destruct (Claim_Ok pg_ts _ _ _ _ _ _ _ _ _ HI Hc)
    as (k & n & n' & (q & Hq & ->) & Hn & Hn' & Hs & Hf & Hnum & Href & Ho & Ho' & Ht & Hx & _ & Hcl & Hhb & _).
  assert (q = p) as -> by congruence.
  destruct (claim_step_inv pg_ts _ _ _ _ _ _ _ HI Hs Hn)
    as (m & a' & Hm & _ & Ha' & Hr & Hst & Han & Haf & _ & _ & Hms & Hmf & Hmn & Hme & _).
  rewrite Hn' in Hm. injection Hm as <-. pose proof (lstep_Inv _ _ _ _ Hs HI) as HI'.
  simpl in *. rewrite <- Hsc in *. injection Href as E1 E2 E3.
  assert (current db' (scope_of p', (ex, rev, nd)) n' (Lease_AttemptRef lease) a') as Hcur.
  { split; simpl; try done; try congruence. by rewrite Hst. }
  eexists. unfold Get. split.
  - apply (healthy_tx He). rewrite (healthy_load He _ _ _ _ _ Hn'). simpl. rewrite Ht.
    rewrite (healthy_current_attempt env' p' ex rev nd db' n' _ a' He HI' Hcur). simpl.
    rewrite Ho, Hx, Hcl, Hhb. unfold lease_with. simpl. rewrite Ho', Hmf, Hmn, E1, E2, E3. reflexivity.
  - done.
Qed.

End LeaseLive.
