(* ===== verification/Worker.v ===== *)
(** * Worker: the persistent worker

    [src/execution/persistent_worker.go].  The interfaces the worker is given
    ([AttemptExecutionCoordinator], [BudgetCoordinator], [TargetInvoker]) are
    type classes over a world [W] that their operations may change; the worker
    is written and its protocol theorems are proved against the interfaces.
    [WorkerSystem] instantiates them with the lease store and the budget
    ledger. *)
From S2P Require Import Prelude ExecTypes ExecPlan Budget Supervisor Runner.

Module Worker.
Import Budget Supervisor Runner.

Definition ErrPersistentWorkerConfig : error :=
  Sentinel "ErrPersistentWorkerConfig" "persistent worker configuration is invalid".
Definition ErrPreparedNodeInvalid : error :=
  Sentinel "ErrPreparedNodeInvalid" "prepared node is invalid".
Definition ErrEffectResolutionRequired : error :=
  Sentinel "ErrEffectResolutionRequired" "mutation effect requires recovery resolution".

(** ** Interfaces *)

Class AttemptExecutionCoordinator (W : Type) : Type := {
  co_Claim : ExecutionID → Z → NodeID → string → Duration → W → result NodeLease * W;
  co_StartAttempt : NodeLease → AttemptBinding → W → result AttemptRecord * W;
  co_MarkEffectStarted : NodeLease → W → result unit * W;
  co_MarkEffectCommitted : NodeLease → W → result unit * W;
  co_ReleaseBeforeEffect : NodeLease → W → result unit * W;
  co_Complete : NodeLease → NodeState → AttemptCompletion → W → result unit * W
}.

Class BudgetCoordinator (W : Type) : Type := {
  bc_Reserve : string → ExecutionID → NodeID → BudgetEstimate → W → result BudgetReservation * W;
  bc_Settle : string → BudgetEstimate → W → result unit * W;
  bc_Release : string → W → result unit * W
}.

Class TargetInvoker (W : Type) : Type := {
  ti_Invoke : Execution → ExecutionNode → ExecutionTarget → W → (InvocationResult * option error) * W
}.

(** The worker's configuration; the booleans are [field != nil]. *)
Record PersistentWorker : Type := mkPersistentWorker {
  w_workerID : string;
  w_leaseTTL : Duration;
  w_has_coordinator : bool;
  w_has_budget : bool;
  w_has_invoker : bool
}.

Record WorkerExecutionResult : Type := mkWorkerExecutionResult {
  Worker_Lease : NodeLease;
  Worker_ReservationRef : string;
  Worker_Invocation : InvocationResult
}.

Definition NodeLeaseZero : NodeLease := mkNodeLease "" 0 "" "" "" "" 0 0 0%Z 0%Z 0%Z.
Definition WorkerExecutionResultZero : WorkerExecutionResult :=
  mkWorkerExecutionResult NodeLeaseZero "" InvocationResultZero.

(** [w.validate]; [None] is a nil worker. *)
Definition validate (w : option PersistentWorker) (execution : Execution) (candidate : PreparedNode)
    : result unit :=
  let invalid msg := Err (Errorw msg [] ErrPreparedNodeInvalid) in
  let policy := Prepared_Policy candidate in
  let target := Prepared_Target candidate in
  let revision := PlanRef_Revision (Execution_PlanRef execution) in
  match w with
  | None => Err ErrPersistentWorkerConfig
  | Some w =>
      if blank (w_workerID w) || (w_leaseTTL w <=? 0)%Z || negb (w_has_coordinator w)
         || negb (w_has_budget w) || negb (w_has_invoker w)
      then Err ErrPersistentWorkerConfig
      else if (Execution_ID execution ==? "") || (revision <? 1)%Z
              || (Node_ID (Prepared_Node candidate) ==? "")
      then invalid "%w: execution, plan revision and node are required"
      else if (Policy_ID policy ==? "") || (Policy_Decision policy !=? PolicyAllow)
      then invalid "%w: an ALLOW policy decision with id is required"
      else if (Policy_ExecutionRef policy !=? "") && (Policy_ExecutionRef policy !=? Execution_ID execution)
      then invalid "%w: policy execution mismatch"
      else if (0 <? Policy_PlanRevision policy)%Z && negb (Policy_PlanRevision policy =? revision)%Z
      then invalid "%w: policy plan revision mismatch"
      else if (Policy_NodeRef policy !=? "")
              && (Policy_NodeRef policy !=? Node_ID (Prepared_Node candidate))
      then invalid "%w: policy node mismatch"
      else if (Target_ID target ==? "") || (Target_Revision target <? 1)%Z
              || blank (Snapshot_Digest (Target_Snapshot target))
      then invalid "%w: target id, revision and immutable snapshot digest are required"
      else Ok tt
  end.

(** [errors.Join(e, rest..)] with a first error that is not nil. *)
Definition join (e : error) (rest : list (option error)) : option error :=
  errors_Join (Some e :: rest).

Definition reservationRef (lease : NodeLease) : string := "attempt/" +:+ Lease_AttemptRef lease.

Definition succeeded (usage : Usage) : AttemptCompletion :=
  {| Completion_Status := AttemptSucceeded; Completion_ErrorClass := ErrorClassZero;
     Completion_Usage := usage |}.
Definition failed (class : ErrorClass) (usage : Usage) : AttemptCompletion :=
  {| Completion_Status := AttemptFailed; Completion_ErrorClass := class; Completion_Usage := usage |}.

Definition bindingFor (candidate : PreparedNode) (reservation : BudgetReservation) : AttemptBinding :=
  {| Binding_TargetRef := Target_ID (Prepared_Target candidate);
     Binding_TargetRevision := Target_Revision (Prepared_Target candidate);
     Binding_TargetSnapshot := Snapshot_Digest (Target_Snapshot (Prepared_Target candidate));
     Binding_PolicyDecisionRef := Policy_ID (Prepared_Policy candidate);
     Binding_BudgetReservationRef := Reservation_ID reservation |}.

(** [BudgetEstimate{NodeAttempts: 1}]. *)
Definition oneAttempt : BudgetEstimate :=
  {| Estimate_Cost := f_zero; Estimate_NodeAttempts := 1; Estimate_FrontierCalls := 0;
     Estimate_ToolCalls := 0 |}.


Section worker.
Context {W : Type} `{!AttemptExecutionCoordinator W} `{!BudgetCoordinator W} `{!TargetInvoker W}.

Definition finishReadOnly (lease : NodeLease) (result : WorkerExecutionResult) (invokeErr : option error)
    (w : W) : (WorkerExecutionResult * option error) * W :=
  let usage := Result_Usage (Worker_Invocation result) in
  match invokeErr with
  | None =>
      match co_Complete lease NodeSucceeded (succeeded usage) w with
      | (Err e, w) => ((result, Some e), w)
      | (Ok _, w) => ((result, None), w)
      end
  | Some ie =>
      match co_Complete lease NodeFailed (failed (classifyInvocationError invokeErr) usage) w with
      | (Err e, w) => ((result, join ie [Some e]), w)
      | (Ok _, w) => ((result, Some ie), w)
      end
  end.

Definition finishMutation (lease : NodeLease) (candidate : PreparedNode) (result : WorkerExecutionResult)
    (invokeErr : option error) (w : W) : (WorkerExecutionResult * option error) * W :=
  let usage := Result_Usage (Worker_Invocation result) in
  match Result_EffectDisposition (Worker_Invocation result) with
  | EffectDispositionCommitted =>
      match co_MarkEffectCommitted lease w with
      | (Err e, w) => ((result, join ErrEffectResolutionRequired [Some e]), w)
      | (Ok _, w) =>
          match invokeErr with
          | Some ie => ((result, join ErrEffectResolutionRequired [Some ie]), w)
          | None =>
              match co_Complete lease NodeSucceeded (succeeded usage) w with
              | (Err e, w) => ((result, Some e), w)
              | (Ok _, w) => ((result, None), w)
              end
          end
      end
  | EffectDispositionNotApplied =>
      match invokeErr with
      | None =>
          ((result, Some (Errorw "%w: target reported NOT_APPLIED without an invocation error" []
                            ErrEffectResolutionRequired)), w)
      | Some ie =>
          match co_Complete lease NodeFailed (failed (classifyInvocationError invokeErr) usage) w with
          | (Err e, w) => ((result, join ie [Some e]), w)
          | (Ok _, w) => ((result, Some ie), w)
          end
      end
  | EffectDispositionUnknown | EffectDispositionNotApplicable =>
      match invokeErr with
      | Some ie => ((result, join ErrEffectResolutionRequired [Some ie]), w)
      | None => ((result, Some ErrEffectResolutionRequired), w)
      end
  | EffectDispositionOther s =>
      ((result, Some (Errorw "%w: unknown effect disposition %q for node %s"
                        [AStr s; AStr (Node_ID (Prepared_Node candidate))]
                        ErrEffectResolutionRequired)), w)
  end.

Definition Execute (worker : option PersistentWorker) (execution : Execution) (candidate : PreparedNode)
    (w : W) : (WorkerExecutionResult * option error) * W :=
  match validate worker execution candidate, worker with
  | Err e, _ => ((WorkerExecutionResultZero, Some e), w)
  | Ok _, None => ((WorkerExecutionResultZero, Some ErrPersistentWorkerConfig), w)
  | Ok _, Some cfg =>
  let node := Node_ID (Prepared_Node candidate) in
  match co_Claim (Execution_ID execution) (PlanRef_Revision (Execution_PlanRef execution)) node
          (w_workerID cfg) (w_leaseTTL cfg) w with
  | (Err e, w) => ((WorkerExecutionResultZero, Some e), w)
  | (Ok lease, w) =>
  match bc_Reserve (reservationRef lease) (Execution_ID execution) node (Prepared_Estimate candidate) w with
  | (Err e, w) =>
      let '(cleanup, w) := co_ReleaseBeforeEffect lease w in
      ((mkWorkerExecutionResult lease "" InvocationResultZero, join e [err_of cleanup]), w)
  | (Ok reservation, w) =>
  let result := mkWorkerExecutionResult lease (Reservation_ID reservation) InvocationResultZero in
  match co_StartAttempt lease (bindingFor candidate reservation) w with
  | (Err e, w) =>
      let '(budgetErr, w) := bc_Release (Reservation_ID reservation) w in
      let '(leaseErr, w) := co_ReleaseBeforeEffect lease w in
      ((result, join e [err_of budgetErr; err_of leaseErr]), w)
  | (Ok _, w) =>
  let mutation := isMutation (Effect_Class (Node_Effect (Prepared_Node candidate))) in
  let '(marked, w) := if mutation then co_MarkEffectStarted lease w else (Ok tt, w) in
  match marked with
  | Err e =>
      let '(settleErr, w) := bc_Settle (Reservation_ID reservation) oneAttempt w in
      let '(completeErr, w) := co_Complete lease NodeFailed (failed ErrorUnknown UsageZero) w in
      ((result, join e [err_of settleErr; err_of completeErr]), w)
  | Ok _ =>
  let '((invocation, invokeErr), w) :=
    ti_Invoke execution (Prepared_Node candidate) (Prepared_Target candidate) w in
  let result := mkWorkerExecutionResult lease (Reservation_ID reservation) invocation in
  match bc_Settle (Reservation_ID reservation)
          (actualBudgetForInvocation (Prepared_Target candidate) (Result_Usage invocation)) w with
  | (Err e, w) => ((result, Some (Errorw "settle attempt budget: %w" [] e)), w)
  | (Ok _, w) =>
      if mutation then finishMutation lease candidate result invokeErr w
      else finishReadOnly lease result invokeErr w
  end end end end end end.

End worker.

(** ** Observing the worker *)

(** A call the worker made: its arguments, and the answer or whether it
    succeeded. *)
Inductive event : Type :=
| EvClaim (execution : ExecutionID) (revision : Z) (node : NodeID) (owner : string) (ttl : Duration) (r : result NodeLease)
| EvReserve (id : string) (execution : ExecutionID) (node : NodeID) (estimate : BudgetEstimate) (r : result BudgetReservation)
| EvStart (lease : NodeLease) (binding : AttemptBinding) (ok : bool)
| EvEffectStarted (lease : NodeLease) (ok : bool)
| EvInvoke (execution : Execution) (node : ExecutionNode) (target : ExecutionTarget) (invocation : InvocationResult)
    (err : option error)
| EvSettle (id : string) (actual : BudgetEstimate) (ok : bool)
| EvReleaseBudget (id : string) (ok : bool)
| EvEffectCommitted (ok : bool)
| EvReleaseLease (ok : bool)
| EvComplete (terminal : NodeState) (completion : AttemptCompletion) (ok : bool).

(** Any implementation of the interfaces, with the calls recorded. *)
Section traced.
Context {W : Type} `{!AttemptExecutionCoordinator W} `{!BudgetCoordinator W} `{!TargetInvoker W}.

Definition answered {A} (ev : result A → event) (r : result A * W) (log : list event) : result A * (W * list event) :=
  (fst r, (snd r, log ++ [ev (fst r)])).
Definition logged {A} (ev : bool → event) : result A * W → list event → result A * (W * list event) :=
  answered (λ r, ev (is_ok r)).

#[export] Instance traced_coordinator : AttemptExecutionCoordinator (W * list event) := {|
  co_Claim ex rev nd owner d w := answered (EvClaim ex rev nd owner d) (co_Claim ex rev nd owner d w.1) w.2;
  co_StartAttempt lease b w := logged (EvStart lease b) (co_StartAttempt lease b w.1) w.2;
  co_MarkEffectStarted lease w := logged (EvEffectStarted lease) (co_MarkEffectStarted lease w.1) w.2;
  co_MarkEffectCommitted lease w := logged EvEffectCommitted (co_MarkEffectCommitted lease w.1) w.2;
  co_ReleaseBeforeEffect lease w := logged EvReleaseLease (co_ReleaseBeforeEffect lease w.1) w.2;
  co_Complete lease t c w := logged (EvComplete t c) (co_Complete lease t c w.1) w.2
|}.

#[export] Instance traced_budget : BudgetCoordinator (W * list event) := {|
  bc_Reserve id ex nd est w := answered (EvReserve id ex nd est) (bc_Reserve id ex nd est w.1) w.2;
  bc_Settle id a w := logged (EvSettle id a) (bc_Settle id a w.1) w.2;
  bc_Release id w := logged (EvReleaseBudget id) (bc_Release id w.1) w.2
|}.

#[export] Instance traced_invoker : TargetInvoker (W * list event) := {|
  ti_Invoke ex nd t w :=
    let '((r, e), w') := ti_Invoke ex nd t w.1 in ((r, e), (w', w.2 ++ [EvInvoke ex nd t r e]))
|}.

(** The calls of one [Execute], in order. *)
Definition trace (worker : option PersistentWorker) (execution : Execution) (candidate : PreparedNode)
    (w : W) : list event :=
  snd (snd (Execute worker execution candidate (w, []))).

Definition outcome_err (worker : option PersistentWorker) (execution : Execution)
    (candidate : PreparedNode) (w : W) : option error :=
  snd (fst (Execute worker execution candidate (w, []))).

End traced.

(** ** The worker's protocol, against any implementation *)

Definition mutates (candidate : PreparedNode) : bool :=
  isMutation (Effect_Class (Node_Effect (Prepared_Node candidate))).

(** Follow every path through [Execute]. *)
Ltac tidy := cbn -[isMutation validate classifyInvocationError reservationRef bindingFor
                   actualBudgetForInvocation oneAttempt] in *.
Ltac each_path :=
  unfold trace, outcome_err, Execute, finishMutation, finishReadOnly, mutates, join, errors_Join in *;
  repeat (tidy;
    match goal with
    | |- context [validate ?a ?b ?c] => destruct (validate a b c) as [[]|?] eqn:?
    | |- context [match ?x with Some _ => _ | None => _ end] => is_var x; destruct x
    | |- context [isMutation ?x] => destruct (isMutation x) eqn:?
    | |- context [co_Claim ?a ?b ?c ?d ?e ?f] => destruct (co_Claim a b c d e f) as [[?|?] ?] eqn:?
    | |- context [bc_Reserve ?a ?b ?c ?d ?e] => destruct (bc_Reserve a b c d e) as [[?|?] ?] eqn:?
    | |- context [co_StartAttempt ?a ?b ?c] => destruct (co_StartAttempt a b c) as [[?|?] ?] eqn:?
    | |- context [co_MarkEffectStarted ?a ?b] => destruct (co_MarkEffectStarted a b) as [[?|?] ?] eqn:?
    | |- context [bc_Release ?a ?b] => destruct (bc_Release a b) as [[?|?] ?] eqn:?
    | |- context [co_ReleaseBeforeEffect ?a ?b] => destruct (co_ReleaseBeforeEffect a b) as [[?|?] ?] eqn:?
    | |- context [ti_Invoke ?a ?b ?c ?d] => destruct (ti_Invoke a b c d) as [[? [?|]] ?] eqn:?
    | |- context [bc_Settle ?a ?b ?c] => destruct (bc_Settle a b c) as [[?|?] ?] eqn:?
    | |- context [Result_EffectDisposition ?x] => destruct (Result_EffectDisposition x) eqn:?
    | |- context [co_MarkEffectCommitted ?a ?b] => destruct (co_MarkEffectCommitted a b) as [[?|?] ?] eqn:?
    | |- context [co_Complete ?a ?b ?c ?d] => destruct (co_Complete a b c d) as [[?|?] ?] eqn:?
    end); tidy.

Lemma validate_policy worker execution candidate :
  validate worker execution candidate = Ok tt →
  Policy_Decision (Prepared_Policy candidate) = PolicyAllow ∧ Policy_ID (Prepared_Policy candidate) ≠ "".
Proof. unfold validate. intros H. destruct worker; [|done]. go_inv H; go_props; done. Qed.

Section protocol.
Context {W : Type} `{!AttemptExecutionCoordinator W} `{!BudgetCoordinator W} `{!TargetInvoker W}.

(** The calls that must have succeeded before the target is invoked: the
    configured worker claims the prepared node of the execution, reserves what the
    node is estimated to need, starts the attempt with the prepared target, the
    policy decision and the reservation and, for a mutation, announces the
    effect. *)
Definition authority (cfg : PersistentWorker) (execution : Execution) (candidate : PreparedNode) (lease : NodeLease)
    (reservation : BudgetReservation) : list event :=
  let node := Node_ID (Prepared_Node candidate) in
  let target := Prepared_Target candidate in
  [EvClaim (Execution_ID execution) (PlanRef_Revision (Execution_PlanRef execution)) node (w_workerID cfg) (w_leaseTTL cfg) (Ok lease);
   EvReserve ("attempt/" +:+ Lease_AttemptRef lease) (Execution_ID execution) node (Prepared_Estimate candidate) (Ok reservation);
   EvStart lease {| Binding_TargetRef := Target_ID target; Binding_TargetRevision := Target_Revision target;
     Binding_TargetSnapshot := Snapshot_Digest (Target_Snapshot target);
     Binding_PolicyDecisionRef := Policy_ID (Prepared_Policy candidate);
     Binding_BudgetReservationRef := Reservation_ID reservation |} true]
  ++ match Effect_Class (Node_Effect (Prepared_Node candidate)) with
     | EffectIdempotentMutation | EffectNonIdempotentMutation => [EvEffectStarted lease true]
     | _ => []
     end.

Lemma authority_mutates cfg execution candidate lease reservation :
  authority cfg execution candidate lease reservation
  = [EvClaim (Execution_ID execution) (PlanRef_Revision (Execution_PlanRef execution)) (Node_ID (Prepared_Node candidate))
       (w_workerID cfg) (w_leaseTTL cfg) (Ok lease);
     EvReserve (reservationRef lease) (Execution_ID execution) (Node_ID (Prepared_Node candidate)) (Prepared_Estimate candidate)
       (Ok reservation);
     EvStart lease (bindingFor candidate reservation) true]
    ++ (if mutates candidate then [EvEffectStarted lease true] else []).
Proof. unfold authority, mutates, isMutation. by destruct (Effect_Class _). Qed.

Definition is_invoke (e : event) : bool := match e with EvInvoke _ _ _ _ _ => true | _ => false end.
Definition closes_budget (e : event) : bool :=
  match e with EvSettle _ _ _ | EvReleaseBudget _ _ => true | _ => false end.
Definition reserves (e : event) : bool :=
  match e with EvReserve _ _ _ _ (Ok _) => true | _ => false end.

Lemma authority_no_invoke cfg execution candidate lease b :
  Forall (λ ev, is_invoke ev = false) (authority cfg execution candidate lease b).
Proof. rewrite authority_mutates. destruct (mutates candidate); repeat constructor. Qed.

Lemma no_invoke_split tr l1 x n t r e l2 :
  tr = l1 ++ EvInvoke x n t r e :: l2 → ¬ Forall (λ ev, is_invoke ev = false) tr.
Proof. intros -> [_ [H _]%Forall_cons]%Forall_app. done. Qed.

Lemma invoke_split p x n t r e q l1 x' n' t' r' e' l2 :
  p ++ EvInvoke x n t r e :: q = l1 ++ EvInvoke x' n' t' r' e' :: l2 →
  Forall (λ ev, is_invoke ev = false) p → Forall (λ ev, is_invoke ev = false) q →
  l1 = p ∧ (x', n', t') = (x, n, t) ∧ r' = r ∧ e' = e ∧ q = l2.
Proof.
  revert l1. induction p as [|y p IH]; intros [|z l1] H Hp Hq; simplify_eq/=.
  - done.
  - exfalso. by eapply no_invoke_split.
  - by apply Forall_cons in Hp as [? _].
  - apply Forall_cons in Hp as [_ Hp].
    match goal with E : _ = _ |- _ => destruct (IH _ E Hp Hq) as (-> & ? & ? & ? & ?) end. done.
Qed.

(** The shapes a run can have. [finish mut r e tail err]: after an invocation
    that returned [r] and [e] and was settled, the worker makes the calls [tail]
    and returns [err]. *)
Inductive finish (mut : bool) (r : InvocationResult) : option error → list event → option error → Prop :=
| finish_read_ok ok err :
    mut = false → (ok = true ↔ err = None) →
    finish mut r None [EvComplete NodeSucceeded (succeeded (Result_Usage r)) ok] err
| finish_read_failed e ok err :
    mut = false →
    finish mut r (Some e)
      [EvComplete NodeFailed (failed (classifyInvocationError (Some e)) (Result_Usage r)) ok] (Some err)
| finish_committed ok err :
    mut = true → Result_EffectDisposition r = EffectDispositionCommitted → (ok = true ↔ err = None) →
    finish mut r None
      [EvEffectCommitted true; EvComplete NodeSucceeded (succeeded (Result_Usage r)) ok] err
| finish_unresolved e l err :
    mut = true → (l = [] ∨ ∃ ok, l = [EvEffectCommitted ok]) →
    errors_Is err "ErrEffectResolutionRequired" = true →
    finish mut r e l (Some err)
| finish_not_applied e ok err :
    mut = true → Result_EffectDisposition r = EffectDispositionNotApplied →
    finish mut r (Some e)
      [EvComplete NodeFailed (failed (classifyInvocationError (Some e)) (Result_Usage r)) ok] (Some err).

Inductive run_shape (worker : option PersistentWorker) (execution : Execution) (candidate : PreparedNode)
    : list event → option error → Prop :=
| shape_invalid e : run_shape worker execution candidate [] (Some e)
| shape_no_claim x v n o d er e : run_shape worker execution candidate [EvClaim x v n o d (Err er)] (Some e)
| shape_no_budget x v n o d lease id x' n' est er ok e :
    run_shape worker execution candidate
      [EvClaim x v n o d (Ok lease); EvReserve id x' n' est (Err er); EvReleaseLease ok] (Some e)
| shape_no_start x v n o d lease id x' n' est res lease' b rid ok1 ok2 e :
    run_shape worker execution candidate
      [EvClaim x v n o d (Ok lease); EvReserve id x' n' est (Ok res); EvStart lease' b false; EvReleaseBudget rid ok1;
       EvReleaseLease ok2] (Some e)
| shape_no_mark x v n o d lease id x' n' est res lease' b lease'' rid ok1 ok2 e :
    mutates candidate = true →
    run_shape worker execution candidate
      [EvClaim x v n o d (Ok lease); EvReserve id x' n' est (Ok res); EvStart lease' b true; EvEffectStarted lease'' false;
       EvSettle rid oneAttempt ok1; EvComplete NodeFailed (failed ErrorUnknown UsageZero) ok2] (Some e)
| shape_unsettled cfg lease reservation r ie act e :
    worker = Some cfg →
    run_shape worker execution candidate
      (authority cfg execution candidate lease reservation
       ++ [EvInvoke execution (Prepared_Node candidate) (Prepared_Target candidate) r ie;
           EvSettle (Reservation_ID reservation) act false]) (Some e)
| shape_invoked cfg lease reservation r ie act tail err :
    worker = Some cfg → finish (mutates candidate) r ie tail err →
    run_shape worker execution candidate
      (authority cfg execution candidate lease reservation
       ++ EvInvoke execution (Prepared_Node candidate) (Prepared_Target candidate) r ie
       :: EvSettle (Reservation_ID reservation) act true :: tail) err.

Lemma trace_shape worker execution candidate (w : W) :
  run_shape worker execution candidate (trace worker execution candidate w) (outcome_err worker execution candidate w).
Proof.
  set (prefix cfg lease reservation :=
    [EvClaim (Execution_ID execution) (PlanRef_Revision (Execution_PlanRef execution)) (Node_ID (Prepared_Node candidate))
       (w_workerID cfg) (w_leaseTTL cfg) (Ok lease);
     EvReserve (reservationRef lease) (Execution_ID execution) (Node_ID (Prepared_Node candidate)) (Prepared_Estimate candidate)
       (Ok reservation);
     EvStart lease (bindingFor candidate reservation) true]).
  assert (∀ m cfg lease reservation r ie act tail err,
    mutates candidate = m →
    finish m r ie tail err →
    run_shape (Some cfg) execution candidate (prefix cfg lease reservation ++ (if m then [EvEffectStarted lease true] else [])
       ++ EvInvoke execution (Prepared_Node candidate) (Prepared_Target candidate) r ie
       :: EvSettle (Reservation_ID reservation) act true :: tail) err) as Hinv.
  { intros m cfg lease reservation r ie act tail err <- Hf.
    pose proof (shape_invoked (Some cfg) execution candidate cfg lease reservation r ie act tail err eq_refl Hf) as Hs.
    rewrite authority_mutates in Hs. by rewrite <- app_assoc in Hs. }
  assert (∀ m cfg lease reservation r ie act e,
    mutates candidate = m →
    run_shape (Some cfg) execution candidate (prefix cfg lease reservation ++ (if m then [EvEffectStarted lease true] else [])
       ++ [EvInvoke execution (Prepared_Node candidate) (Prepared_Target candidate) r ie;
           EvSettle (Reservation_ID reservation) act false]) (Some e)) as Hset.
  { intros m cfg lease reservation r ie act e <-.
    pose proof (shape_unsettled (Some cfg) execution candidate cfg lease reservation r ie act e eq_refl) as Hs.
    rewrite authority_mutates in Hs. by rewrite <- app_assoc in Hs. }
  unfold prefix in *. clear prefix.
  each_path;
    first [ solve [constructor; done]
          | solve [apply (Hset true); done] | solve [apply (Hset false); done]
          | apply (Hinv true); [done|] | apply (Hinv false); [done|] ];
    first [ solve [constructor; done]
          | solve [apply finish_unresolved; [done|by eauto|reflexivity]] ].
Qed.

(** The policy decision allows this node of this plan revision to run. *)
Definition allows (policy : PolicyDecisionRecord) (execution : Execution) (node : ExecutionNode) : Prop :=
  Policy_ID policy ≠ "" ∧ Policy_Decision policy = PolicyAllow
  ∧ (Policy_ExecutionRef policy = "" ∨ Policy_ExecutionRef policy = Execution_ID execution)
  ∧ (Policy_PlanRevision policy ≤ 0 ∨ Policy_PlanRevision policy = PlanRef_Revision (Execution_PlanRef execution))%Z
  ∧ (Policy_NodeRef policy = "" ∨ Policy_NodeRef policy = Node_ID node).

Lemma validate_allows worker execution candidate :
  validate worker execution candidate = Ok tt → allows (Prepared_Policy candidate) execution (Prepared_Node candidate).
Proof.
  unfold validate, allows. intros H. destruct worker; [|done]. repeat (case_match; [done|]).
  repeat match goal with H : _ || _ = false |- _ => apply orb_false_iff in H as [] end.
  repeat match goal with H : _ && _ = false |- _ => apply andb_false_iff in H end.
  split_and!; go_props; try done; (repeat match goal with H : _ ∨ _ |- _ => destruct H end); go_props; auto with lia.
Qed.

(** C13. The target is invoked only with full authority, and at most once.  In any
    run of [Execute], over any implementation of the coordinator, the budget and
    the target, whatever is invoked is the prepared node of the given execution
    on the prepared target.  Before it come exactly these calls, all successful,
    in this order: Claim of that node of the execution's plan revision, by the
    worker with its id and its lease time; Reserve of the node's estimate for
    the execution under the id of the lease's attempt; StartAttempt with the lease
    just claimed, the prepared target with its revision and snapshot, the policy
    decision and the reservation just made; and, if the node is a mutation,
    MarkEffectStarted.  The policy decision is an ALLOW with an id that names no
    other execution, plan revision or node; and no second invocation follows. *)
Theorem invocation_is_authorized worker execution candidate (w : W) l1 x n t r e l2 :
  trace worker execution candidate w = l1 ++ EvInvoke x n t r e :: l2 →
  x = execution ∧ n = Prepared_Node candidate ∧ t = Prepared_Target candidate
  ∧ (∃ cfg lease reservation, worker = Some cfg ∧ l1 = authority cfg execution candidate lease reservation)
  ∧ allows (Prepared_Policy candidate) execution (Prepared_Node candidate)
  ∧ Forall (λ ev, is_invoke ev = false) l2.
Proof.
  intros H. destruct (validate worker execution candidate) as [[]|] eqn:Hv.
  2: { exfalso. revert H. unfold trace, Execute. rewrite Hv. simpl. by destruct l1. }
  apply validate_allows in Hv.
  pose proof (trace_shape worker execution candidate w) as Hs. rewrite H in Hs.
  remember (l1 ++ EvInvoke x n t r e :: l2) as tr eqn:Htr. clear H.
  destruct Hs as [| | | | |cfg lease res r' ie act err Hw|cfg lease res r' ie act tail err Hw Hf];
    try (exfalso; by apply (no_invoke_split _ _ _ _ _ _ _ _ Htr); repeat constructor).
  - apply invoke_split in Htr as (-> & [= -> -> ->] & _ & _ & <-); [|apply authority_no_invoke|repeat constructor].
    split_and!; [done..|eauto 10|done|repeat constructor].
  - apply invoke_split in Htr as (-> & [= -> -> ->] & _ & _ & <-);
      [split_and!; [done..|eauto 10|done|] | apply authority_no_invoke |];
      constructor; try done; destruct Hf; repeat constructor;
      match goal with H : _ ∨ _ |- _ => destruct H as [->|[? ->]]; repeat constructor end.
Qed.

(** Every reservation the worker obtains is closed by exactly one call: in
    any run there are exactly as many calls of Settle or Release as successful
    calls of Reserve, and at most one of either. *)
Theorem reservation_closed_by_one_call worker execution candidate (w : W) :
  let tr := trace worker execution candidate w in
  length (filter (λ e, closes_budget e = true) tr) = length (filter (λ e, reserves e = true) tr)
  ∧ length (filter (λ e, reserves e = true) tr) ≤ 1.
Proof.
  intros tr. pose proof (trace_shape worker execution candidate w) as Hs. fold tr in Hs.
  destruct Hs as [| | | | |cfg lease res r ie act e Hw|cfg lease res r ie act tail err Hw Hf]; rewrite ?authority_mutates in *;
    [split; [reflexivity|simpl; lia]..|destruct (mutates candidate); split; reflexivity|].
  destruct Hf as [| | |e l err Hm Hl He|]; destruct (mutates candidate); try (split; reflexivity);
    destruct Hl as [->|[? ->]]; split; reflexivity.
Qed.

(** A node is completed only on evidence.  SUCCEEDED is reported only after
    an invocation without error whose budget was settled and, for a mutation,
    only when the target proved the effect COMMITTED and that was recorded
    first.  FAILED always carries an error class and, for a mutation, is
    reported only when the effect cannot have happened: the target was never
    invoked, or it failed and proved NOT_APPLIED. *)
Theorem completion_has_evidence worker execution candidate (w : W) terminal completion ok :
  let tr := trace worker execution candidate w in
  EvComplete terminal completion ok ∈ tr →
  (terminal = NodeSucceeded ∧ Completion_Status completion = AttemptSucceeded
   ∧ ∃ x n t r id actual, EvInvoke x n t r None ∈ tr ∧ EvSettle id actual true ∈ tr
     ∧ (mutates candidate = true →
          Result_EffectDisposition r = EffectDispositionCommitted ∧ EvEffectCommitted true ∈ tr))
  ∨ (terminal = NodeFailed ∧ Completion_Status completion = AttemptFailed
     ∧ Completion_ErrorClass completion ≠ ErrorClassZero
     ∧ (mutates candidate = true →
          Forall (λ ev, is_invoke ev = false) tr
          ∨ ∃ x n t r e, EvInvoke x n t r (Some e) ∈ tr
                   ∧ Result_EffectDisposition r = EffectDispositionNotApplied)).
Proof.
  intros tr. pose proof (trace_shape worker execution candidate w) as Hs. fold tr in Hs.
  pose proof classify_nonzero as Hcl.
  destruct Hs as [| | | | | |cfg lease res r ie act tail err Hw Hf]; rewrite ?authority_mutates;
    try (destruct (mutates candidate) eqn:Hmut; set_solver).
  - intros Hin. right. assert (terminal = NodeFailed ∧ completion = failed ErrorUnknown UsageZero)
      as [-> ->] by set_solver. split_and!; [done..|]. intros _. left. repeat constructor.
  - destruct Hf as [ok' err Hm Hok|e ok' err Hm|ok' err Hm Hd Hok|e l err Hm Hl He|e ok' err Hm Hd];
      rewrite Hm; intros Hin.
    + left. assert (terminal = NodeSucceeded ∧ completion = succeeded (Result_Usage r))
        as [-> ->] by set_solver. split_and!; try done. exists execution, (Prepared_Node candidate), (Prepared_Target candidate). exists r, (Reservation_ID res), act. set_solver.
    + right. assert (terminal = NodeFailed
        ∧ completion = failed (classifyInvocationError (Some e)) (Result_Usage r))
        as [-> ->] by set_solver. split_and!; try done. apply Hcl.
    + left. assert (terminal = NodeSucceeded ∧ completion = succeeded (Result_Usage r))
        as [-> ->] by set_solver. split_and!; try done. exists execution, (Prepared_Node candidate), (Prepared_Target candidate). exists r, (Reservation_ID res), act. set_solver.
    + exfalso. destruct Hl as [->|[? ->]]; set_solver.
    + right. assert (terminal = NodeFailed
        ∧ completion = failed (classifyInvocationError (Some e)) (Result_Usage r))
        as [-> ->] by set_solver. split_and!; try done; [apply Hcl|]. intros _. right.
      exists execution, (Prepared_Node candidate), (Prepared_Target candidate). exists r, e. set_solver.
Qed.

(** C40. What [Execute] reports.  It returns no error exactly when its last call
    was a successful completion of the node as SUCCEEDED; and whenever a
    mutation was invoked and settled but neither proved COMMITTED without
    error nor proved NOT_APPLIED with one, the error is (or wraps)
    [ErrEffectResolutionRequired] and the worker neither completes the node nor
    gives the lease back. *)
Theorem Execute_reports worker execution candidate (w : W) :
  let tr := trace worker execution candidate w in
  let err := outcome_err worker execution candidate w in
  (err = None ↔ ∃ completion, last tr = Some (EvComplete NodeSucceeded completion true))
  ∧ ∀ x n t r ie id actual,
      EvInvoke x n t r ie ∈ tr → EvSettle id actual true ∈ tr → mutates candidate = true →
      ¬ (Result_EffectDisposition r = EffectDispositionCommitted ∧ ie = None) →
      ¬ (Result_EffectDisposition r = EffectDispositionNotApplied ∧ ie ≠ None) →
      (∃ e, err = Some e ∧ errors_Is e "ErrEffectResolutionRequired" = true)
      ∧ (∀ ok, EvReleaseLease ok ∉ tr) ∧ ∀ t c ok, EvComplete t c ok ∉ tr.
Proof.
  intros tr err. pose proof (trace_shape worker execution candidate w) as Hs. fold tr err in Hs.
  destruct Hs as [| | | | |cfg lease res r ie act e Hw|cfg lease res r ie act tail err' Hw Hf].
  1-5: split; [split; [done|intros [c [=]]]|set_solver].
  - split; [split; [done|intros [c Hc]; rewrite last_app in Hc; done]|].
    rewrite authority_mutates. intros; destruct (mutates candidate); set_solver.
  - assert (last (authority cfg execution candidate lease res
              ++ EvInvoke execution (Prepared_Node candidate) (Prepared_Target candidate) r ie
              :: EvSettle (Reservation_ID res) act true :: tail)
            = last (EvSettle (Reservation_ID res) act true :: tail)) as Hlast.
    { rewrite last_app. change (last (EvInvoke execution (Prepared_Node candidate) (Prepared_Target candidate) r ie :: EvSettle (Reservation_ID res) act true :: tail))
        with (last (EvSettle (Reservation_ID res) act true :: tail)).
      destruct (last _) eqn:E; [done|]. by apply last_None in E. }
    rewrite Hlast. clear Hlast. split.
    + destruct Hf as [ok' err Hm Hok|e ok' err Hm|ok' err Hm Hd Hok|e l err Hm Hl He|e ok' err Hm Hd];
        simpl; [destruct ok'; naive_solver|naive_solver|destruct ok'; naive_solver| |naive_solver].
      destruct Hl as [->|[? ->]]; naive_solver.
    + intros x n t r' ie' id actual Hin _ Hmut Hn1 Hn2. rewrite authority_mutates in *. rewrite Hmut in *.
      assert (r' = r ∧ ie' = ie) as [-> ->].
      { destruct Hf as [| | |e l err Hm [->|[? ->]] He|]; set_solver. }
      destruct Hf as [| |ok' err Hm Hd Hok|e l err Hm Hl He|e ok' err Hm Hd]; try naive_solver.
      split; [eauto|]. destruct Hl as [->|[? ->]]; set_solver.
Qed.

End protocol.

(** ** How the world evolves during a run *)

(** Every operation of the interfaces moves the world along [R]. *)
Class Evolves (W : Type) `{!AttemptExecutionCoordinator W, !BudgetCoordinator W, !TargetInvoker W}
    (R : W → W → Prop) : Prop := {
  ev_preorder :: PreOrder R;
  ev_Claim ex rev nd owner d w : R w (snd (co_Claim ex rev nd owner d w));
  ev_StartAttempt lease b w : R w (snd (co_StartAttempt lease b w));
  ev_MarkEffectStarted lease w : R w (snd (co_MarkEffectStarted lease w));
  ev_MarkEffectCommitted lease w : R w (snd (co_MarkEffectCommitted lease w));
  ev_ReleaseBeforeEffect lease w : R w (snd (co_ReleaseBeforeEffect lease w));
  ev_Complete lease t c w : R w (snd (co_Complete lease t c w));
  ev_Reserve id ex nd est w : R w (snd (bc_Reserve id ex nd est w));
  ev_Settle id a w : R w (snd (bc_Settle id a w));
  ev_Release id w : R w (snd (bc_Release id w));
  ev_Invoke ex nd t w : R w (snd (ti_Invoke ex nd t w))
}.

Section evolution.
Context {W : Type} `{!AttemptExecutionCoordinator W} `{!BudgetCoordinator W} `{!TargetInvoker W}.
Context (R : W → W → Prop) `{!Evolves W R}.

Ltac evolve_calls :=
  repeat match goal with
  | E : co_Claim ?a ?b ?c ?d ?e ?w = _ |- _ => pose proof (ev_Claim a b c d e w); rewrite E in *; clear E
  | E : co_StartAttempt ?a ?b ?w = _ |- _ => pose proof (ev_StartAttempt a b w); rewrite E in *; clear E
  | E : co_MarkEffectStarted ?a ?w = _ |- _ => pose proof (ev_MarkEffectStarted a w); rewrite E in *; clear E
  | E : co_MarkEffectCommitted ?a ?w = _ |- _ =>
      pose proof (ev_MarkEffectCommitted a w); rewrite E in *; clear E
  | E : co_ReleaseBeforeEffect ?a ?w = _ |- _ =>
      pose proof (ev_ReleaseBeforeEffect a w); rewrite E in *; clear E
  | E : co_Complete ?a ?b ?c ?w = _ |- _ => pose proof (ev_Complete a b c w); rewrite E in *; clear E
  | E : bc_Reserve ?a ?b ?c ?d ?w = _ |- _ => pose proof (ev_Reserve a b c d w); rewrite E in *; clear E
  | E : bc_Settle ?a ?b ?w = _ |- _ => pose proof (ev_Settle a b w); rewrite E in *; clear E
  | E : bc_Release ?a ?w = _ |- _ => pose proof (ev_Release a w); rewrite E in *; clear E
  | E : ti_Invoke ?a ?b ?c ?w = _ |- _ => pose proof (ev_Invoke a b c w); rewrite E in *; clear E
  end; simpl in *.

Ltac chain := first [reflexivity | eassumption
  | match goal with H : R ?x ?y |- R ?x _ => transitivity y; [exact H|clear H; chain] end].

Lemma Execute_evolves worker execution candidate w :
  R w (snd (Execute worker execution candidate w)).
Proof. each_path; evolve_calls; chain. Qed.

(** A run without error: its claim, its reservation, the settlement and the
    completion that ends it. *)
Lemma Execute_success worker execution candidate w result w' :
  Execute worker execution candidate w = ((result, None), w') →
  ∃ cfg lease w1 reservation w2 w3 actual w4 w5 completion,
    worker = Some cfg ∧ validate worker execution candidate = Ok tt
    ∧ co_Claim (Execution_ID execution) (PlanRef_Revision (Execution_PlanRef execution))
        (Node_ID (Prepared_Node candidate)) (w_workerID cfg) (w_leaseTTL cfg) w = (Ok lease, w1)
    ∧ bc_Reserve (reservationRef lease) (Execution_ID execution) (Node_ID (Prepared_Node candidate))
        (Prepared_Estimate candidate) w1 = (Ok reservation, w2)
    ∧ R w2 w3 ∧ bc_Settle (Reservation_ID reservation) actual w3 = (Ok tt, w4)
    ∧ R w4 w5 ∧ co_Complete lease NodeSucceeded completion w5 = (Ok tt, w')
    ∧ Completion_Status completion = AttemptSucceeded
    ∧ Worker_Lease result = lease ∧ Worker_ReservationRef result = Reservation_ID reservation.
Proof.
  each_path; intros [= <- <-];
    repeat match goal with u : unit |- _ => destruct u end;
    eexists _, _, _, _, _, _, _, _, _, _;
    (split_and!; [reflexivity|reflexivity|eassumption|eassumption| |eassumption| |eassumption
      |reflexivity|reflexivity|reflexivity]);
    evolve_calls; chain.
Qed.

End evolution.

End Worker.
