(* ===== verification/WorkerSystem.v ===== *)
(** * WorkerSystem: workers over the lease store and the budget ledger

    [PersistentWorker] with [PostgresExecutionNodeLeases] as its coordinator and
    [BudgetLedgerCoordinator] as its budget.  The world holds the database and
    the ledger.  Between any two calls of the worker, other workers may run any
    calls on the database and any operations on the ledger: [others] and
    [otherBudget] give the interference before the worker's [i]-th call, and
    [envs] the environment (faults, clock, random bytes, commit outcome) of the
    call itself.  The target is [invoke]. *)
From stdpp Require Import vector.
From S2P Require Import Prelude Identity ExecTypes ExecPlan Budget Supervisor Runner.
From S2P Require Import LeaseSchema LeaseStore LeaseSpec LeaseRefine LeaseSafety Worker.

Module WorkerSystem.
Import Supervisor Runner Worker.

Record World : Type := mkWorld {
  w_db : LeaseSchema.DB;
  w_ledger : Budget.BudgetLedger;
  w_tick : nat
}.

Section system.
Variable pg_ts : Time → Time.
Variable pg_cost : float64 → result float64.
Variable envs : nat → LeaseSchema.TxEnv.
Variable others : nat → list (LeaseSchema.TxEnv * LeaseSafety.call).
Variable otherBudget : nat → list Budget.op.
Variable invoke : nat → Execution → ExecutionNode → ExecutionTarget → InvocationResult * option error.

Abbreviation run_history := (LeaseSafety.run_history pg_ts pg_cost).

(** The world as the next call of the worker finds it. *)
Definition interfered (w : World) : World :=
  mkWorld (run_history (others (w_tick w)) (w_db w)) (Budget.run (otherBudget (w_tick w)) (w_ledger w))
    (w_tick w).

Definition on_db {A} (op : LeaseSchema.TxEnv → LeaseSchema.DB → result A * LeaseSchema.DB) (w : World)
    : result A * World :=
  let w := interfered w in
  let '(r, db) := op (envs (w_tick w)) (w_db w) in
  (r, mkWorld db (w_ledger w) (S (w_tick w))).

Definition on_ledger {A} (op : Budget.BudgetLedger → result A * Budget.BudgetLedger) (w : World)
    : result A * World :=
  let w := interfered w in
  let '(r, l) := op (w_ledger w) in (r, mkWorld (w_db w) l (S (w_tick w))).

#[export] Instance store_coordinator : AttemptExecutionCoordinator World := {|
  co_Claim ex rev nd owner d := on_db (λ env, LeaseStore.Claim pg_ts env ex rev nd owner d);
  co_StartAttempt lease b := on_db (λ env, LeaseStore.StartAttempt env lease b);
  co_MarkEffectStarted lease := on_db (λ env, LeaseStore.MarkEffectStarted env lease);
  co_MarkEffectCommitted lease := on_db (λ env, LeaseStore.MarkEffectCommitted env lease);
  co_ReleaseBeforeEffect lease := on_db (λ env, LeaseStore.ReleaseBeforeEffect env lease);
  co_Complete lease t c := on_db (λ env, LeaseStore.Complete pg_cost env lease t c)
|}.

#[export] Instance ledger_coordinator : BudgetCoordinator World := {|
  bc_Reserve id ex nd est := on_ledger (Budget.Reserve id ex nd est);
  bc_Settle id a := on_ledger (Budget.Settle id a);
  bc_Release id := on_ledger (Budget.Release id)
|}.

#[export] Instance target_invoker : TargetInvoker World := {|
  ti_Invoke ex nd t w :=
    let w := interfered w in
    (invoke (w_tick w) ex nd t, mkWorld (w_db w) (w_ledger w) (S (w_tick w)))
|}.

(** [w'] follows [w] by calls to the store and operations on the ledger. *)
Definition follows (w w' : World) : Prop :=
  (∃ h, w_db w' = run_history h (w_db w)) ∧ ∃ ops, w_ledger w' = Budget.run ops (w_ledger w).

Lemma run_history_app h1 h2 db : run_history (h1 ++ h2) db = run_history h2 (run_history h1 db).
Proof. apply foldl_app. Qed.

#[export] Instance follows_preorder : PreOrder follows.
Proof.
  split.
  - intros w. split; [by exists []|by exists []].
  - intros x y z [[h1 H1] [o1 O1]] [[h2 H2] [o2 O2]]. split.
    + exists (h1 ++ h2). by rewrite run_history_app, <- H1.
    + exists (o1 ++ o2). by rewrite Budget.run_app, <- O1.
Qed.

Lemma on_db_follows {A} (op : LeaseSchema.TxEnv → LeaseSchema.DB → result A * LeaseSchema.DB)
    (c : LeaseSafety.call) w :
  (∀ env db, snd (op env db) = LeaseSafety.run_call pg_ts pg_cost env c db) →
  follows w (snd (on_db op w)).
Proof.
  intros Hop. unfold on_db. pose proof (Hop (envs (w_tick w)) (w_db (interfered w))) as Hx. simpl in Hx |- *.
  destruct (op _ _) as [r db]. simpl in *. split; simpl.
  - exists (others (w_tick w) ++ [(envs (w_tick w), c)]). by rewrite run_history_app.
  - by exists (otherBudget (w_tick w)).
Qed.

Lemma on_ledger_follows {A} (op : Budget.BudgetLedger → result A * Budget.BudgetLedger) (o : Budget.op) w :
  (∀ l, snd (op l) = Budget.run_op o l) → follows w (snd (on_ledger op w)).
Proof.
  intros Hop. unfold on_ledger. pose proof (Hop (w_ledger (interfered w))) as Hx. simpl in Hx |- *.
  destruct (op _) as [r l]. simpl in *. split; simpl.
  - by exists (others (w_tick w)).
  - exists (otherBudget (w_tick w) ++ [o]). by rewrite Budget.run_app.
Qed.

#[export] Instance system_evolves : Evolves World follows.
Proof.
  split; [apply _|..]; intros; simpl.
  - apply (on_db_follows _ (LeaseSafety.CallClaim ex rev nd owner d)). done.
  - apply (on_db_follows _ (LeaseSafety.CallStart lease b)). done.
  - apply (on_db_follows _ (LeaseSafety.CallEffectStarted lease)). done.
  - apply (on_db_follows _ (LeaseSafety.CallEffectCommitted lease)). done.
  - apply (on_db_follows _ (LeaseSafety.CallRelease lease)). done.
  - apply (on_db_follows _ (LeaseSafety.CallComplete lease t c)). done.
  - apply (on_ledger_follows _ (Budget.OpReserve id ex nd est)). done.
  - apply (on_ledger_follows _ (Budget.OpSettle id a)). done.
  - apply (on_ledger_follows _ (Budget.OpRelease id)). done.
  - split; [by exists (others (w_tick w))|by exists (otherBudget (w_tick w))].
Qed.

(** What a successful call of the worker did to the database or the ledger. *)
Lemma on_db_Ok {A} (op : LeaseSchema.TxEnv → LeaseSchema.DB → result A * LeaseSchema.DB) w a w' :
  on_db op w = (Ok a, w') →
  op (envs (w_tick w)) (run_history (others (w_tick w)) (w_db w)) = (Ok a, w_db w')
  ∧ w_ledger w' = Budget.run (otherBudget (w_tick w)) (w_ledger w).
Proof. unfold on_db. simpl. destruct (op _ _). intros [= -> <-]. done. Qed.

Lemma on_ledger_Ok {A} (op : Budget.BudgetLedger → result A * Budget.BudgetLedger) w a w' :
  on_ledger op w = (Ok a, w') →
  op (Budget.run (otherBudget (w_tick w)) (w_ledger w)) = (Ok a, w_ledger w')
  ∧ w_db w' = run_history (others (w_tick w)) (w_db w).
Proof. unfold on_ledger. simpl. destruct (op _). intros [= -> <-]. done. Qed.

Lemma follows_claim ex rev nd owner d w r w' :
  co_Claim ex rev nd owner d w = (r, w') → follows w w'.
Proof. intros H. pose proof (ev_Claim (R := follows) ex rev nd owner d w) as Hx. by rewrite H in Hx. Qed.
Lemma follows_reserve id ex nd est w r w' : bc_Reserve id ex nd est w = (r, w') → follows w w'.
Proof. intros H. pose proof (ev_Reserve (R := follows) id ex nd est w) as Hx. by rewrite H in Hx. Qed.
Lemma follows_settle id a w r w' : bc_Settle id a w = (r, w') → follows w w'.
Proof. intros H. pose proof (ev_Settle (R := follows) id a w) as Hx. by rewrite H in Hx. Qed.

(** A worker does nothing the store's theorems do not cover: whatever it
    meets, one [Execute] interleaved with other workers changes the database
    only by calls to the store and the ledger only by ledger operations. *)
Theorem worker_runs_are_histories worker execution candidate w :
  follows w (snd (Execute worker execution candidate w)).
Proof. apply Execute_evolves, system_evolves. Qed.

(** C19. End to end: when [Execute] returns no error, with any interference by
    other workers between its calls, then at its end the node is SUCCEEDED in
    the database, its attempt (the one named in the returned lease) is
    SUCCEEDED, for a mutation the effect is committed on both, the lease is
    spent (every later use of it is rejected), and the budget reservation is
    closed for good. *)
Theorem Execute_success_is_durable h ctx worker execution candidate (w : World) result (w' : World) p :
  w_db w = run_history h LeaseSchema.emptyDB →
  (∀ i, LeaseSchema.env_ctx (envs i) = ctx) → Identity.requireScopedPrincipal ctx = Ok p →
  Execute worker execution candidate w = ((result, None), w') →
  let k := (LeaseSchema.scope_of p,
            (Execution_ID execution, PlanRef_Revision (Execution_PlanRef execution),
             Node_ID (Prepared_Node candidate))) in
  let lease := Worker_Lease result in
  ∃ n a, LeaseSchema.nodes (w_db w') !! k = Some n ∧ LeaseSchema.n_state n = NodeSucceeded
  ∧ LeaseSchema.attempts (w_db w') !! (k.1, Lease_AttemptRef lease) = Some a
  ∧ LeaseSchema.a_status a = AttemptSucceeded
  ∧ (isMutation (LeaseSchema.n_effect_class n) = true →
       LeaseSchema.n_effect_committed_at n ≠ None ∧ LeaseSchema.a_effect_committed_at a ≠ None)
  ∧ (∀ i, LeaseSafety.rejects_lease pg_ts pg_cost (envs i) lease (w_db w'))
  ∧ Budget.is_closed (Worker_ReservationRef result) (w_ledger w').
Proof.
  intros Hw Hctx Hp He k lease.
  destruct (Execute_success follows _ _ _ _ _ _ He) as (cfg & l & w1 & res & w2 & w3 & act & w4 & w5 & comp
    & _ & _ & Hclaim & Hres & H23 & Hset & H45 & Hcomp & Hst & Hl & Hr).
  assert (follows w w5) as [[h5 Hh5] _].
  { transitivity w1; [by eapply follows_claim|]. transitivity w2; [by eapply follows_reserve|].
    transitivity w3; [done|]. transitivity w4; [by eapply follows_settle|done]. }
  simpl in Hclaim, Hset, Hcomp. apply on_db_Ok in Hclaim as [Hclaim _].
  assert (LeaseSpec.Inv (w_db w)) as HI.
  { rewrite Hw. apply LeaseSafety.run_history_Inv, LeaseSpec.Inv_empty. }
  pose proof (LeaseSafety.run_history_Inv pg_ts pg_cost (others (w_tick w)) _ HI) as HI0.
  destruct (LeaseSafety.Claim_Ok pg_ts _ _ _ _ _ _ _ _ _ HI0 Hclaim)
    as (k0 & _ & _ & (q & Hq & Hk0) & _ & _ & _ & _ & _ & Href & _).
  apply on_db_Ok in Hcomp as [Hcomp Hled].
  assert (LeaseSpec.Inv (run_history (others (w_tick w5)) (w_db w5))) as HI5.
  { apply LeaseSafety.run_history_Inv. rewrite Hh5. by apply LeaseSafety.run_history_Inv. }
  destruct (LeaseSafety.Complete_spec pg_ts pg_cost _ _ _ _ _ _ HI5 Hcomp)
    as (k1 & n & n' & a' & ((q1 & Hq1 & Hk1) & _) & Hn' & Ha' & Hs' & _ & _ & _ & Hst' & _ & _ & _ & Hmut & Hrej).
  assert (k1 = k) as ->.
  { rewrite Hk1. unfold k. assert (q1 = p) as -> by (rewrite Hctx in Hq1; congruence).
    rewrite Hk0 in Href. simpl in Href. by rewrite Href. }
  exists n', a'. unfold lease. rewrite Hl, Hr. split_and!; try done.
  - congruence.
  - by intros Hm; apply Hmut.
  - intros i. apply Hrej. by rewrite !Hctx.
  - apply on_ledger_Ok in Hset as [Hset _]. apply Budget.Settle_closes in Hset.
    rewrite Hled. apply Budget.is_closed_run. destruct H45 as [_ [ops ->]]. by apply Budget.is_closed_run.
Qed.

End system.

(** ** A concrete run for the witnesses *)

Import LeaseSafety.

Definition sample_worker : option PersistentWorker :=
  Some (mkPersistentWorker "w1" 100%Z true true true).

Definition sample_candidate : PreparedNode :=
  mkPreparedNode (ExecPlan.sample_node "n1" [] ExecPlan.mutate_effect) sample_target
    (sample_policy "n1" PolicyAllow) (Budget.est_of 1).

Definition sample_envs (i : nat) : LeaseSchema.TxEnv := sample_env (2000 + Z.of_nat i)%Z 65.

Definition sample_invoke (_ : nat) (_ : Execution) (_ : ExecutionNode) (_ : ExecutionTarget)
    : InvocationResult * option error :=
  (mkInvocationResult UsageZero [] EffectDispositionCommitted, None).

(** The node is registered; another worker reads it before every call. *)
Definition sample_others (_ : nat) : list (LeaseSchema.TxEnv * call) :=
  [(sample_env 1500%Z 0, CallGet "e1" 1 "n1")].

Definition sample_world : World :=
  mkWorld (LeaseSafety.run_history keep_ts keep_cost (registered EffectNonIdempotentMutation false)
             LeaseSchema.emptyDB)
    sample_ledger 0.

#[local] Instance sample_coordinator : AttemptExecutionCoordinator World :=
  store_coordinator keep_ts keep_cost sample_envs sample_others (λ _, []).
#[local] Instance sample_budget : BudgetCoordinator World :=
  ledger_coordinator keep_ts keep_cost sample_others (λ _, []).
#[local] Instance sample_target_invoker : TargetInvoker World :=
  target_invoker keep_ts keep_cost sample_others (λ _, []) sample_invoke.

Definition sample_run : (WorkerExecutionResult * option error) * World :=
  Execute sample_worker sample_execution sample_candidate sample_world.

Lemma Execute_success_is_durable_witness :
  ∃ n a, LeaseSchema.nodes (w_db (snd sample_run)) !! sample_key = Some n
  ∧ LeaseSchema.n_state n = NodeSucceeded
  ∧ LeaseSchema.attempts (w_db (snd sample_run))
      !! (sample_key.1, Lease_AttemptRef (Worker_Lease (fst (fst sample_run)))) = Some a
  ∧ LeaseSchema.a_status a = AttemptSucceeded.
Proof.
  destruct (Execute_success_is_durable keep_ts keep_cost sample_envs sample_others (λ _, []) sample_invoke
    (registered EffectNonIdempotentMutation false) (Some sample_principal) sample_worker sample_execution
    sample_candidate sample_world (fst (fst sample_run)) (snd sample_run) sample_principal)
    as (n & a & Hn & Hs & Ha & Hst & _);
    [reflexivity|reflexivity|vm_compute; reflexivity|vm_compute; reflexivity|].
  exists n, a. split_and!; [exact Hn|exact Hs|exact Ha|exact Hst].
Defined.

Definition sample_trace : list event := trace sample_worker sample_execution sample_candidate sample_world.

Lemma invocation_is_authorized_witness :
  ∃ cfg lease reservation, sample_worker = Some cfg
    ∧ take 4 sample_trace = authority cfg sample_execution sample_candidate lease reservation.
Proof.
  destruct (invocation_is_authorized sample_worker sample_execution sample_candidate sample_world
    (take 4 sample_trace) sample_execution (Prepared_Node sample_candidate) sample_target
    (fst (sample_invoke 0 sample_execution (Prepared_Node sample_candidate) sample_target))
    None (drop 5 sample_trace)) as (_ & _ & _ & H & _); [vm_compute; reflexivity|exact H].
Defined.

Lemma completion_has_evidence_witness :
  ∃ x n t r, EvInvoke x n t r None ∈ sample_trace ∧ Result_EffectDisposition r = EffectDispositionCommitted.
Proof.
  destruct (completion_has_evidence sample_worker sample_execution sample_candidate sample_world
    NodeSucceeded (succeeded UsageZero) true) as [(_ & _ & x & n & t & r & _ & _ & Hr & _ & Hm)|(H & _)].
  - vm_compute. repeat (first [apply list_elem_of_here | apply list_elem_of_further]).
  - exists x, n, t, r. split; [exact Hr|]. apply Hm. reflexivity.
  - discriminate H.
Defined.

Lemma Execute_reports_witness :
  outcome_err sample_worker sample_execution sample_candidate sample_world = None
  ↔ ∃ completion, last sample_trace = Some (EvComplete NodeSucceeded completion true).
Proof. apply (Execute_reports sample_worker sample_execution sample_candidate sample_world). Defined.

End WorkerSystem.
