(* ===== verification/CircuitBreaker.v ===== *)
(** * CircuitBreaker: stopping calls to a failing key

    [src/internal/circuitbreaker/breaker.go].  The breaker is written against
    the [Store] interface; the class [StoreLaws] says what it relies on (a
    successful [Put] replaces the snapshot of its key, a failed one changes
    nothing, [Get] reads it), the breaker's lemmas are proved against the class,
    and [MemoryStore] is shown to be an instance.  [b.now()] is the clock
    reading handed to each call. *)
From S2P Require Import Prelude.

Module CircuitBreaker.

Inductive State : Type := StateClosed | StateOpen | StateHalfOpen | StateOther (s : string).

#[export] Instance State_eq_dec : EqDecision State.
Proof. solve_decision. Defined.

Record Snapshot : Type := mkSnapshot {
  Snap_Key : string;
  Snap_State : State;
  Snap_ConsecutiveFailures : Z;
  Snap_OpenedAt : option Time;
  Snap_LastFailureAt : option Time;
  Snap_LastSuccessAt : option Time;
  Snap_UpdatedAt : Time
}.

(** ** The store *)
Class Store (S : Type) : Type := {
  Get : string → S → result Snapshot * S;
  Put : Snapshot → S → result unit * S
}.

(** [view] is what the store holds for each key. *)
Class StoreLaws (S : Type) `{Store S} (view : S → string → Snapshot) : Prop := {
  Get_view k s k' : view (snd (Get k s)) k' = view s k';
  Get_Ok k s x : fst (Get k s) = Ok x → x = view s k;
  Put_Ok x s k : fst (Put x s) = Ok tt →
    view (snd (Put x s)) k = if k ==? Snap_Key x then x else view s k;
  Put_Err x s e k : fst (Put x s) = Err e → view (snd (Put x s)) k = view s k
}.

(** A store none of whose calls fails. *)
Class Reliable (S : Type) `{Store S} : Prop := {
  Get_never_fails k s : ∃ x, fst (Get k s) = Ok x;
  Put_never_fails x s : fst (Put x s) = Ok tt
}.

Definition closedSnapshot (key : string) : Snapshot := mkSnapshot key StateClosed 0 None None None 0%Z.

Definition MemoryStore : Type := gmap string Snapshot.
Definition NewMemoryStore : MemoryStore := ∅.

Definition Memory_Get (key : string) (s : MemoryStore) : result Snapshot * MemoryStore :=
  match s !! key with
  | None => (Ok (closedSnapshot key), s)
  | Some snapshot => (Ok snapshot, s)
  end.

Definition Memory_Put (snapshot : Snapshot) (s : MemoryStore) : result unit * MemoryStore :=
  (Ok tt, <[Snap_Key snapshot := snapshot]> s).

#[export] Instance MemoryStore_Store : Store MemoryStore := {| Get := Memory_Get; Put := Memory_Put |}.

Definition memory_view (s : MemoryStore) (k : string) : Snapshot := default (closedSnapshot k) (s !! k).

#[export] Instance MemoryStore_laws : StoreLaws MemoryStore memory_view.
Proof.
  split; simpl; unfold Memory_Get, Memory_Put, memory_view, MemoryStore in *; simpl; intros.
  - by destruct (s !! k).
  - destruct (s !! k); simpl in *; congruence.
  - case_bool_decide as Hk.
    + subst k. by rewrite lookup_insert_eq.
    + by rewrite lookup_insert_ne by congruence.
  - done.
Qed.

#[export] Instance MemoryStore_reliable : Reliable MemoryStore.
Proof. split; simpl; [|done]. intros k s. unfold Memory_Get. destruct (s !! k); eauto. Qed.

(** ** The breaker *)
Record Breaker : Type := mkBreaker { failureThreshold : Z; cooldown : Duration }.

Definition New (threshold : Z) (cool : Duration) : Breaker :=
  {| failureThreshold := if (threshold <=? 0)%Z then 3%Z else threshold;
     cooldown := if (cool <=? 0)%Z then Minute else cool |}.

Section breaker.
Context {S : Type} `{Store S}.
Variable b : Breaker.

Definition Allow (key : string) (now : Time) (s : S) : result (bool * Snapshot) * S :=
  if key ==? "" then (Err (Errorf "circuit-breaker key is required" []), s)
  else match Get key s with
  | (Err e, s) => (Err e, s)
  | (Ok snapshot, s) =>
      if (Snap_State snapshot ==? StateOpen)
         && match Snap_OpenedAt snapshot with
            | None => false
            | Some openedAt => (cooldown b <=? Sub now openedAt)%Z
            end
      then
        let snapshot := mkSnapshot (Snap_Key snapshot) StateHalfOpen (Snap_ConsecutiveFailures snapshot)
                          (Snap_OpenedAt snapshot) (Snap_LastFailureAt snapshot)
                          (Snap_LastSuccessAt snapshot) now in
        match Put snapshot s with
        | (Err e, s) => (Err e, s)
        | (Ok _, s) => (Ok (Snap_State snapshot !=? StateOpen, snapshot), s)
        end
      else (Ok (Snap_State snapshot !=? StateOpen, snapshot), s)
  end.

Definition Success (key : string) (now : Time) (s : S) : result unit * S :=
  match Get key s with
  | (Err e, s) => (Err e, s)
  | (Ok snapshot, s) =>
      Put (mkSnapshot key StateClosed 0 None (Snap_LastFailureAt snapshot) (Some now) now) s
  end.

Definition Failure (key : string) (now : Time) (s : S) : result Snapshot * S :=
  match Get key s with
  | (Err e, s) => (Err e, s)
  | (Ok snapshot, s) =>
      let failures := add64 (Snap_ConsecutiveFailures snapshot) 1 in
      let snapshot :=
        if (Snap_State snapshot ==? StateHalfOpen) || (failureThreshold b <=? failures)%Z
        then mkSnapshot key StateOpen failures (Some now) (Some now) (Snap_LastSuccessAt snapshot) now
        else mkSnapshot key (Snap_State snapshot) failures (Snap_OpenedAt snapshot) (Some now)
               (Snap_LastSuccessAt snapshot) now in
      match Put snapshot s with
      | (Err e, s) => (Err e, s)
      | (Ok _, s) => (Ok snapshot, s)
      end
  end.

(** ** Histories *)
Inductive call : Type := CAllow (key : string) | CSuccess (key : string) | CFailure (key : string).
Inductive reply : Type := Allowed (ok : bool) | Done | Failed (e : error).

Definition perform (c : call) (now : Time) (s : S) : reply * S :=
  match c with
  | CAllow key => let '(r, s) := Allow key now s in
                  (match r with Ok (ok, _) => Allowed ok | Err e => Failed e end, s)
  | CSuccess key => let '(r, s) := Success key now s in
                    (match r with Ok _ => Done | Err e => Failed e end, s)
  | CFailure key => let '(r, s) := Failure key now s in
                    (match r with Ok _ => Done | Err e => Failed e end, s)
  end.

Fixpoint run (calls : list (call * Time)) (s : S) : list (call * Time * reply) * S :=
  match calls with
  | [] => ([], s)
  | (c, now) :: rest =>
      let '(r, s) := perform c now s in
      let '(log, s) := run rest s in ((c, now, r) :: log, s)
  end.
End breaker.

(** The reference: the failures of [key] recorded since its last recorded
    success, and the time of the latest of them. *)
Definition streak_step (key : string) (acc : Z * option Time) (e : call * Time * reply) : Z * option Time :=
  match e with
  | (CSuccess k, _, Done) => if k ==? key then (0%Z, None) else acc
  | (CFailure k, now, Done) => if k ==? key then ((fst acc + 1)%Z, Some now) else acc
  | _ => acc
  end.
Definition streak (key : string) (log : list (call * Time * reply)) : Z * option Time :=
  foldl (streak_step key) (0%Z, None) log.

(** Calls are stopped while the streak has reached the threshold and the
    cooldown since its latest failure has not passed. *)
Definition stopped (b : Breaker) (st : Z * option Time) (now : Time) : bool :=
  (failureThreshold b <=? fst st)%Z
  && match snd st with Some t => (now - t <? cooldown b)%Z | None => false end.

(** ** The snapshot of a key follows its streak *)
Section follows.
Context (b : Breaker).
Hypothesis threshold_pos : (0 < failureThreshold b)%Z.
Hypothesis cooldown_pos : (0 < cooldown b ≤ int_max)%Z.

Definition snapshot_ok (key : string) (st : Z * option Time) (now : Time) (x : Snapshot) : Prop :=
  Snap_Key x = key ∧ Snap_ConsecutiveFailures x = fst st ∧ (0 ≤ fst st)%Z
  ∧ if (failureThreshold b <=? fst st)%Z
    then ∃ t, snd st = Some t ∧ Snap_OpenedAt x = Some t ∧ (t ≤ now)%Z
              ∧ (Snap_State x = StateOpen ∨ Snap_State x = StateHalfOpen ∧ (cooldown b ≤ now - t)%Z)
    else Snap_State x = StateClosed.

Lemma snapshot_ok_later key st now now' x :
  (now ≤ now')%Z → snapshot_ok key st now x → snapshot_ok key st now' x.
Proof.
  intros Hle (? & ? & ? & Hs). split_and!; [done..|].
  destruct (_ <=? _)%Z; [|done]. destruct Hs as (t & ? & ? & ? & [?|[? ?]]); exists t; split_and!;
    try done; [lia|by left|lia|right; split; [done|lia]].
Qed.

Lemma Sub_ge (now t : Time) d : (int_min < d ≤ int_max)%Z → (d <=? Sub now t)%Z = (d <=? now - t)%Z.
Proof. unfold Sub, int_min, int_max. intros. destruct (Z.leb_spec d (now - t)), (Z.leb_spec d (Z.max (-9223372036854775808) (Z.min 9223372036854775807 (now - t)))); lia. Qed.

Lemma Allow_decides key st now x :
  snapshot_ok key st now x →
  let reopen := (Snap_State x ==? StateOpen)
         && match Snap_OpenedAt x with
            | None => false
            | Some openedAt => (cooldown b <=? Sub now openedAt)%Z
            end in
  (if reopen then true else Snap_State x !=? StateOpen) = negb (stopped b st now)
  ∧ (reopen = true → (failureThreshold b ≤ fst st)%Z
       ∧ ∃ t, snd st = Some t ∧ Snap_OpenedAt x = Some t ∧ (t ≤ now)%Z ∧ (cooldown b ≤ now - t)%Z).
Proof.
  intros (_ & _ & _ & Hs) reopen. subst reopen. unfold stopped.
  destruct (Z.leb_spec (failureThreshold b) (fst st)); simpl.
  - destruct Hs as (t & -> & -> & Ht & Hst). rewrite Sub_ge by (unfold int_min, int_max in *; lia).
    destruct Hst as [->|[-> Hc]]; simpl.
    + destruct (Z.leb_spec (cooldown b) (now - t)), (Z.ltb_spec (now - t) (cooldown b)); simpl;
        try lia; split; eauto 10; done.
    + destruct (Z.ltb_spec (now - t) (cooldown b)); [lia|]. by split.
  - by rewrite Hs.
Qed.

Context {S : Type} `{Store S} (view : S → string → Snapshot) `{!StoreLaws S view}.

Definition follows (log : list (call * Time * reply)) (now : Time) (s : S) : Prop :=
  ∀ key, snapshot_ok key (streak key log) now (view s key).

Lemma streak_snoc key log e : streak key (log ++ [e]) = streak_step key (streak key log) e.
Proof. unfold streak. by rewrite foldl_app. Qed.

Lemma Get_cases k s :
  (∃ e s', Get k s = (Err e, s') ∧ ∀ k', view s' k' = view s k')
  ∨ (∃ s', Get k s = (Ok (view s k), s') ∧ ∀ k', view s' k' = view s k').
Proof.
  pose proof (Get_view k s) as Hv. pose proof (Get_Ok k s) as Ho.
  destruct (Get k s) as [[x|e] s']; simpl in *; [right|left]; eauto.
  rewrite <- (Ho x eq_refl). eauto.
Qed.

Lemma Put_cases x s :
  (∃ e s', Put x s = (Err e, s') ∧ ∀ k', view s' k' = view s k')
  ∨ (∃ s', Put x s = (Ok tt, s') ∧ view s' (Snap_Key x) = x ∧ ∀ k', k' ≠ Snap_Key x → view s' k' = view s k').
Proof.
  pose proof (λ k, Put_Ok x s k) as Ho. pose proof (λ e k, Put_Err x s e k) as He.
  destruct (Put x s) as [[[]|e] s']; simpl in *; [right|left].
  - exists s'. split_and!; [done|by rewrite Ho, bool_decide_true|].
    intros k' Hk. by rewrite Ho, bool_decide_false.
  - eauto 10.
Qed.

(** What a call does to the log and to the store, one lemma per shape: nothing,
    or one key's snapshot is replaced. *)
Lemma unchanged_follows log now s s' e :
  follows log now s → (∀ k, view s' k = view s k) → (∀ k st, streak_step k st e = st) →
  follows (log ++ [e]) now s'.
Proof. intros Hn Hv He k. rewrite streak_snoc, He, Hv. apply Hn. Qed.

Lemma update_follows log now s s' e x :
  follows log now s → view s' (Snap_Key x) = x → (∀ k, k ≠ Snap_Key x → view s' k = view s k) →
  (∀ k st, k ≠ Snap_Key x → streak_step k st e = st) →
  snapshot_ok (Snap_Key x) (streak_step (Snap_Key x) (streak (Snap_Key x) log) e) now x →
  follows (log ++ [e]) now s'.
Proof.
  intros Hn Hx Hv He Hok k. rewrite streak_snoc.
  destruct (decide (k = Snap_Key x)) as [->|Hk]; [by rewrite Hx|].
  rewrite He, Hv by done. apply Hn.
Qed.

Lemma Allow_follows log key now s :
  follows log now s →
  let r := perform b (CAllow key) now s in
  follows (log ++ [(CAllow key, now, fst r)]) now (snd r)
  ∧ (∀ ok, fst r = Allowed ok → ok = negb (stopped b (streak key log) now)).
Proof.
  intros Hn. simpl. unfold Allow. case_bool_decide; simpl; [by split; [eapply unchanged_follows|]|].
  destruct (Get_cases key s) as [(e & s1 & -> & Hv)|(s1 & -> & Hv)]; simpl;
    [by split; [eapply unchanged_follows|]|].
  pose proof (Allow_decides key _ now _ (Hn key)) as [Hd Hr].
  destruct (_ && _); simpl; [|split; [by eapply unchanged_follows|naive_solver]].
  set (x := mkSnapshot _ StateHalfOpen _ _ _ _ _).
  destruct (Put_cases x s1) as [(e & s2 & -> & Hv2)|(s2 & -> & Hx & Hv2)]; simpl.
  { split; [|done]. eapply unchanged_follows; [done| |done]. intros k. by rewrite Hv2. }
  split; [|naive_solver]. eapply (update_follows _ _ s _ _ x); [done..| |done|].
  { intros k Hk. by rewrite Hv2, Hv. }
  destruct (Hn key) as (Hkey & Hcf & Hge & _). simpl. rewrite Hkey.
  destruct (Hr eq_refl) as [Hth (t & ? & ? & ? & ?)]. split_and!; simpl; [done..|].
  rewrite (proj2 (Z.leb_le _ _) Hth). exists t. split_and!; try done. by right.
Qed.

Lemma Success_follows log key now s :
  follows log now s →
  let r := perform b (CSuccess key) now s in
  follows (log ++ [(CSuccess key, now, fst r)]) now (snd r).
Proof.
  intros Hn. simpl. unfold Success.
  destruct (Get_cases key s) as [(e & s1 & -> & Hv)|(s1 & -> & Hv)]; simpl; [by eapply unchanged_follows|].
  set (x := mkSnapshot _ _ _ _ _ _ _).
  destruct (Put_cases x s1) as [(e & s2 & -> & Hv2)|(s2 & -> & Hx & Hv2)]; simpl.
  { eapply unchanged_follows; [done| |done]. intros k. by rewrite Hv2. }
  eapply (update_follows _ _ s _ _ x); [done..| | |].
  - intros k Hk. by rewrite Hv2, Hv.
  - intros k st Hk. simpl in *. by rewrite bool_decide_false.
  - simpl. rewrite bool_decide_true by done. split_and!; simpl; try done.
    by rewrite (proj2 (Z.leb_gt _ _) threshold_pos).
Qed.

(** The snapshot [Failure] writes is the right one for the longer streak. *)
Lemma Failure_snapshot key st now x :
  snapshot_ok key st now x → (fst st < int_max)%Z →
  let failures := add64 (Snap_ConsecutiveFailures x) 1 in
  let x' := if (Snap_State x ==? StateHalfOpen) || (failureThreshold b <=? failures)%Z
            then mkSnapshot key StateOpen failures (Some now) (Some now) (Snap_LastSuccessAt x) now
            else mkSnapshot key (Snap_State x) failures (Snap_OpenedAt x) (Some now)
                   (Snap_LastSuccessAt x) now in
  Snap_Key x' = key ∧ snapshot_ok key ((fst st + 1)%Z, Some now) now x'.
Proof.
  intros (Hkey & Hcf & Hge & Hst) Hlt failures.
  assert (failures = fst st + 1)%Z as ->.
  { subst failures. rewrite Hcf. apply wrap64_id. unfold in_int64, int_min, int_max in *. lia. }
  destruct (Z.leb_spec (failureThreshold b) (fst st + 1)) as [Hc|Hc].
  - rewrite orb_true_r. split; [done|]. split_and!; simpl; try done; try lia.
    rewrite (proj2 (Z.leb_le _ _) Hc). exists now. split_and!; try done. by left.
  - rewrite (proj2 (Z.leb_gt (failureThreshold b) (fst st))) in Hst by lia. rewrite Hst.
    split; [done|]. split_and!; simpl; try done; try lia. by rewrite (proj2 (Z.leb_gt _ _) Hc).
Qed.

Lemma Failure_follows log key now s :
  follows log now s → (fst (streak key log) < int_max)%Z →
  let r := perform b (CFailure key) now s in
  follows (log ++ [(CFailure key, now, fst r)]) now (snd r).
Proof.
  intros Hn Hlt. simpl. unfold Failure.
  destruct (Get_cases key s) as [(e & s1 & -> & Hv)|(s1 & -> & Hv)]; simpl; [by eapply unchanged_follows|].
  pose proof (Failure_snapshot key _ now _ (Hn key) Hlt) as Hx'. simpl in Hx'.
  set (x := if _ : bool then _ else _) in *. clearbody x. destruct Hx' as [Hkx Hx'].
  destruct (Put_cases x s1) as [(e & s2 & -> & Hv2)|(s2 & -> & Hx & Hv2)]; simpl.
  { eapply unchanged_follows; [done| |done]. intros k. by rewrite Hv2. }
  eapply (update_follows _ _ s _ _ x); [done..| | |].
  - intros k Hk. by rewrite Hv2, Hv.
  - intros k st Hk. simpl. rewrite bool_decide_false by congruence. done.
  - rewrite Hkx. simpl. by rewrite bool_decide_true.
Qed.
Lemma perform_follows log c now s :
  follows log now s → (∀ key, (fst (streak key log) < int_max)%Z) →
  follows (log ++ [(c, now, fst (perform b c now s))]) now (snd (perform b c now s)).
Proof.
  intros Hn Hlt. destruct c.
  - by apply Allow_follows.
  - by apply Success_follows.
  - by apply Failure_follows.
Qed.

Lemma streak_le key log : (fst (streak key log) ≤ Z.of_nat (length log))%Z.
Proof.
  induction log as [|[[c t] r] log IH] using rev_ind; [done|].
  rewrite streak_snoc, length_app. simpl. destruct c, r; simpl; try lia; case_bool_decide; simpl; lia.
Qed.

(** The clock readings of a history do not go back. *)
Fixpoint clock_ok (t0 : Time) (calls : list (call * Time)) (now : Time) : Prop :=
  match calls with
  | [] => (t0 ≤ now)%Z
  | (_, t) :: rest => (t0 ≤ t)%Z ∧ clock_ok t rest now
  end.

Lemma run_follows calls log t0 now s :
  follows log t0 s → clock_ok t0 calls now →
  (Z.of_nat (length log) + Z.of_nat (length calls) ≤ int_max)%Z →
  follows (log ++ fst (run b calls s)) now (snd (run b calls s)).
Proof.
  revert log t0 s. induction calls as [|[c t] calls IH]; intros log t0 s Hf Hc Hlen; simpl in *.
  { rewrite app_nil_r. intros k. by eapply snapshot_ok_later. }
  destruct Hc as [Ht Hc].
  assert (follows (log ++ [(c, t, fst (perform b c t s))]) t (snd (perform b c t s))) as Hf'.
  { apply perform_follows.
    - intros k. by eapply snapshot_ok_later.
    - intros k. pose proof (streak_le k log). lia. }
  destruct (perform b c t s) as [r s1]. simpl in *.
  specialize (IH _ t s1 Hf' Hc). rewrite length_app in IH. simpl in IH.
  destruct (run b calls s1) as [log' s2]. simpl in *.
  rewrite <- app_assoc in IH. apply IH. lia.
Qed.

(** On a store whose calls do not fail, [Allow] answers. *)
Lemma Allow_answers `{!Reliable S} key now s :
  key ≠ "" → ∃ ok, fst (perform b (CAllow key) now s) = Allowed ok.
Proof.
  intros Hk. simpl. unfold Allow. rewrite bool_decide_false by done.
  destruct (Get_never_fails key s) as [x Hx]. destruct (Get key s) as [r s1]. simpl in Hx. subst r.
  destruct (_ && _); simpl; [|eauto].
  set (x' := mkSnapshot _ StateHalfOpen _ _ _ _ _).
  pose proof (Put_never_fails x' s1) as Hp. destruct (Put x' s1) as [r s2]. simpl in Hp. subst r. eauto.
Qed.
End follows.

Lemma New_positive threshold cool :
  (cool ≤ int_max)%Z →
  (0 < failureThreshold (New threshold cool))%Z ∧ (0 < cooldown (New threshold cool) ≤ int_max)%Z.
Proof.
  unfold New, Minute, int_max. simpl. intros.
  destruct (Z.leb_spec threshold 0), (Z.leb_spec cool 0); lia.
Qed.

(** The circuit breaker: after any sequence of [Allow], [Success] and
    [Failure] calls for any keys, made with a clock that does not go back, the
    next [Allow] of a key answers, and it says no exactly when the failures of
    that key since its last success have reached the threshold and the cooldown
    since the latest of them has not passed.  Calls for other keys never
    matter. *)
Theorem breaker_correct threshold cool calls key t0 now :
  (cool ≤ int_max)%Z → (Z.of_nat (length calls) ≤ int_max)%Z → clock_ok t0 calls now → key ≠ "" →
  let b := New threshold cool in
  let '(log, s) := run b calls NewMemoryStore in
  fst (perform b (CAllow key) now s) = Allowed (negb (stopped b (streak key log) now)).
Proof.
  intros Hcool Hlen Hclock Hkey b.
  destruct (New_positive threshold cool Hcool) as [Hth Hcd].
  fold b in Hth, Hcd. clearbody b.
  assert (follows b memory_view [] t0 NewMemoryStore) as H0.
  { intros k. split_and!; try done. change (fst (streak k [])) with 0%Z.
    by rewrite (proj2 (Z.leb_gt _ _) Hth). }
  pose proof (run_follows b Hth Hcd memory_view calls [] t0 now _ H0 Hclock Hlen) as Hf.
  destruct (run b calls NewMemoryStore) as [log s]. simpl in Hf.
  destruct (Allow_answers b key now s Hkey) as [ok Hok]. rewrite Hok. f_equal.
  eapply (Allow_follows b Hcd memory_view); eauto.
Qed.

Definition sample_calls : list (call * Time) :=
  [(CFailure "m", 1); (CFailure "m", 2); (CAllow "m", 3); (CFailure "n", 4); (CFailure "m", 5)]%Z.

Lemma breaker_correct_witness :
  let b := New 3 10%Z in
  let '(log, s) := run b sample_calls NewMemoryStore in
  fst (perform b (CAllow "m") 14%Z s) = Allowed (negb (stopped b (streak "m" log) 14%Z))
  ∧ stopped b (streak "m" log) 14%Z = true.
Proof.
  split; [|reflexivity].
  apply (breaker_correct 3 10%Z sample_calls "m" 1%Z 14%Z); [done..| |done].
  repeat split; vm_compute; discriminate.
Defined.

End CircuitBreaker.
