(* ===== verification/Admission.v ===== *)
(** * Admission: which model versions may be routed to

    [src/internal/admission/admission.go]: evidence records about immutable
    model versions, appended once and never changed, and [Service.Check], which
    admits a model on the latest decisive record.  Go ranges over a map in an
    unspecified order: [range] lists the records in the order of that
    iteration, any permutation of them, and the results hold for all of them. *)
From S2P Require Import Prelude Domain.

Module Admission.
Import Domain.

Inductive Status : Type :=
| StatusCollected | StatusReviewed | StatusApproved | StatusRestricted | StatusRejected | StatusRevoked
| StatusOther (s : string).

#[export] Instance Status_eq_dec : EqDecision Status.
Proof. solve_decision. Defined.

Record Evidence : Type := mkEvidence {
  Ev_ID : string;
  Ev_ModelID : string;
  Ev_ModelVersion : string;
  Ev_Status : Status;
  Ev_LicenseID : string;
  Ev_LicenseTextRef : string;
  Ev_SourceRef : string;
  Ev_UpstreamModels : list string;
  Ev_DatasetRefs : list string;
  Ev_CommercialUseAllowed : bool;
  Ev_HostedServiceAllowed : bool;
  Ev_RedistributionAllowed : bool;
  Ev_NoticeRequired : bool;
  Ev_NoticeRef : string;
  Ev_ArtifactDigest : string;
  Ev_ArtifactSignature : string;
  Ev_SecurityScanRef : string;
  Ev_Reviewer : string;
  Ev_ReviewedAt : option Time;
  Ev_EvidenceDigest : string;
  Ev_CreatedAt : Time
}.

#[export] Instance Evidence_eq_dec : EqDecision Evidence.
Proof. solve_decision. Defined.

Record Decision : Type := mkDecision { Allowed : bool; EvidenceID : string; Reasons : list string }.

(** ** The stores *)

(** What [Service] needs of a store. *)
Class Store (S : Type) : Type := {
  Append : Evidence → S → result unit * S;
  Get : string → S → result Evidence;
  ListByModel : string → string → S → result (list Evidence)
}.

Definition MemoryStore : Type := gmap string Evidence.
Definition NewMemoryStore : MemoryStore := ∅.

Section memory.
Variable range : MemoryStore → list Evidence.

Definition Memory_Append (evidence : Evidence) (s : MemoryStore) : result unit * MemoryStore :=
  match s !! Ev_ID evidence with
  | Some _ => (Err (Errorf "admission evidence already exists" []), s)
  | None => (Ok tt, <[Ev_ID evidence := evidence]> s)
  end.

Definition Memory_Get (id : string) (s : MemoryStore) : result Evidence :=
  match s !! id with
  | None => Err (Errorf "admission evidence not found" [])
  | Some evidence => Ok evidence
  end.

Definition earlier (a b : Evidence) : bool := Before (Ev_CreatedAt a) (Ev_CreatedAt b).

Definition Memory_ListByModel (modelID modelVersion : string) (s : MemoryStore) : result (list Evidence) :=
  Ok (SliceStable earlier
        (filter (λ e, Ev_ModelID e = modelID ∧ Ev_ModelVersion e = modelVersion) (range s))).

Definition MemoryStore_Store : Store MemoryStore :=
  {| Append := Memory_Append; Get := Memory_Get; ListByModel := Memory_ListByModel |}.
End memory.

(** ** validateEvidence *)
Definition require (value reason : string) : list string := if value ==? "" then [reason] else [].

Definition validateEvidence (model : Model) (evidence : Evidence) : list string :=
  require (Ev_LicenseID evidence) "license identifier is missing"
  ++ require (Ev_LicenseTextRef evidence) "authoritative license text reference is missing"
  ++ require (Ev_SourceRef evidence) "model source reference is missing"
  ++ require (Ev_Reviewer evidence) "evidence reviewer is missing"
  ++ require (Ev_EvidenceDigest evidence) "evidence digest is missing"
  ++ (match Ev_ReviewedAt evidence with None => ["evidence review time is missing"] | Some _ => [] end)
  ++ (if Ev_CommercialUseAllowed evidence then [] else ["commercial use is not allowed"])
  ++ (if (Model_DeploymentMode model ==? DeploymentPublicAPI)
         || (Model_DeploymentMode model ==? DeploymentEnterpriseAPI)
         || (Model_DeploymentMode model ==? DeploymentPrivateEndpoint)
      then if Ev_HostedServiceAllowed evidence then [] else ["hosted-service use is not allowed"]
      else [])
  ++ (if (Model_DeploymentMode model ==? DeploymentSelfHosted)
         || (Model_DeploymentMode model ==? DeploymentLocal)
      then require (Ev_ArtifactDigest evidence) "self-hosted artifact digest is missing"
           ++ require (Ev_ArtifactSignature evidence) "self-hosted artifact signature is missing"
           ++ require (Ev_SecurityScanRef evidence) "self-hosted security scan evidence is missing"
      else [])
  ++ (if Ev_NoticeRequired evidence && (Ev_NoticeRef evidence ==? "")
      then ["required attribution or notice evidence is missing"] else []).

(** ** The service *)
Section service.
Context {S : Type} `{Store S}.

Definition Service_Append (now : Time) (evidence : Evidence) (s : S) : result unit * S :=
  if (Ev_ID evidence ==? "") || (Ev_ModelID evidence ==? "") || (Ev_ModelVersion evidence ==? "")
     || (Ev_EvidenceDigest evidence ==? "")
  then (Err (Errorf "evidence ID, model identity and evidence digest are required" []), s)
  else
    let created := if IsZero (Ev_CreatedAt evidence) then now else Ev_CreatedAt evidence in
    Append {| Ev_ID := Ev_ID evidence; Ev_ModelID := Ev_ModelID evidence;
              Ev_ModelVersion := Ev_ModelVersion evidence; Ev_Status := Ev_Status evidence;
              Ev_LicenseID := Ev_LicenseID evidence; Ev_LicenseTextRef := Ev_LicenseTextRef evidence;
              Ev_SourceRef := Ev_SourceRef evidence; Ev_UpstreamModels := Ev_UpstreamModels evidence;
              Ev_DatasetRefs := Ev_DatasetRefs evidence;
              Ev_CommercialUseAllowed := Ev_CommercialUseAllowed evidence;
              Ev_HostedServiceAllowed := Ev_HostedServiceAllowed evidence;
              Ev_RedistributionAllowed := Ev_RedistributionAllowed evidence;
              Ev_NoticeRequired := Ev_NoticeRequired evidence; Ev_NoticeRef := Ev_NoticeRef evidence;
              Ev_ArtifactDigest := Ev_ArtifactDigest evidence;
              Ev_ArtifactSignature := Ev_ArtifactSignature evidence;
              Ev_SecurityScanRef := Ev_SecurityScanRef evidence; Ev_Reviewer := Ev_Reviewer evidence;
              Ev_ReviewedAt := Ev_ReviewedAt evidence; Ev_EvidenceDigest := Ev_EvidenceDigest evidence;
              Ev_CreatedAt := created |} s.

Definition Service_List (modelID modelVersion : string) (s : S) : result (list Evidence) :=
  ListByModel modelID modelVersion s.

(** The records from the last to the first: [newest_first] is the list reversed. *)
Fixpoint check_loop (model : Model) (newest_first : list Evidence) : Decision :=
  match newest_first with
  | [] => mkDecision false "" ["no approved evidence record exists for the immutable model version"]
  | evidence :: older =>
      if Ev_Status evidence ==? StatusRevoked
      then mkDecision false (Ev_ID evidence) ["latest model evidence is revoked"]
      else if (Ev_Status evidence !=? StatusApproved) && (Ev_Status evidence !=? StatusRestricted)
      then check_loop model older
      else let reasons := validateEvidence model evidence in
           mkDecision (Nat.eqb (length reasons) 0) (Ev_ID evidence) reasons
  end.

Definition Check (model : Model) (s : S) : result Decision :=
  if Model_ApprovalStatus model !=? ApprovalApproved
  then Ok (mkDecision false "" ["model approval status is not approved"])
  else match ListByModel (Model_ID model) (Model_Version model) s with
  | Err e => Err e
  | Ok records => Ok (check_loop model (reverse records))
  end.
End service.

(** ** What admission promises *)

(** The evidence covers what the model's deployment mode needs. *)
Definition sufficient (model : Model) (e : Evidence) : Prop :=
  Ev_LicenseID e ≠ "" ∧ Ev_LicenseTextRef e ≠ "" ∧ Ev_SourceRef e ≠ "" ∧ Ev_Reviewer e ≠ ""
  ∧ Ev_EvidenceDigest e ≠ "" ∧ Ev_ReviewedAt e ≠ None ∧ Ev_CommercialUseAllowed e = true
  ∧ (Model_DeploymentMode model ∈ [DeploymentPublicAPI; DeploymentEnterpriseAPI; DeploymentPrivateEndpoint] →
     Ev_HostedServiceAllowed e = true)
  ∧ (Model_DeploymentMode model ∈ [DeploymentSelfHosted; DeploymentLocal] →
     Ev_ArtifactDigest e ≠ "" ∧ Ev_ArtifactSignature e ≠ "" ∧ Ev_SecurityScanRef e ≠ "")
  ∧ (Ev_NoticeRequired e = true → Ev_NoticeRef e ≠ "").

Lemma require_nil v r : require v r = [] ↔ v ≠ "".
Proof. unfold require. case_bool_decide; naive_solver. Qed.

Lemma guard_nil {A} (c : bool) (l : list A) : (if c then l else []) = [] ↔ (c = true → l = []).
Proof. destruct c; naive_solver. Qed.

Lemma unless_nil {A} (c : bool) (x : A) : (if c then [] else [x]) = [] ↔ c = true.
Proof. by destruct c. Qed.

Lemma reviewed_nil (o : option Time) (r : string) :
  match o with None => [r] | Some _ => [] end = [] ↔ o ≠ None.
Proof. by destruct o. Qed.

Lemma validateEvidence_nil model e : validateEvidence model e = [] ↔ sufficient model e.
Proof.
  unfold validateEvidence, sufficient.
  rewrite !app_nil, !guard_nil, !app_nil, !require_nil, !unless_nil, reviewed_nil.
  rewrite !orb_true_iff, andb_true_iff, !bool_decide_eq_true, !elem_of_cons, !elem_of_nil.
  assert (∀ r : string, [r] = [] ↔ False) as Hcons by naive_solver. rewrite Hcons. tauto.
Qed.

(** The records that decide: a revocation, an approval or a restriction. *)
Definition decisive (e : Evidence) : Prop :=
  Ev_Status e = StatusRevoked ∨ Ev_Status e = StatusApproved ∨ Ev_Status e = StatusRestricted.

Definition about (model : Model) (e : Evidence) : Prop :=
  Ev_ModelID e = Model_ID model ∧ Ev_ModelVersion e = Model_Version model.

(** The loop decides on the first decisive record it meets. *)
Lemma check_loop_spec model l :
  (Forall (λ e, ¬ decisive e) l ∧ Allowed (check_loop model l) = false)
  ∨ ∃ l1 e l2, l = l1 ++ e :: l2 ∧ Forall (λ e, ¬ decisive e) l1 ∧ decisive e
      ∧ EvidenceID (check_loop model l) = Ev_ID e
      ∧ (Allowed (check_loop model l) = true ↔ Ev_Status e ≠ StatusRevoked ∧ sufficient model e).
Proof.
  induction l as [|e l IH]; [by left|]. simpl.
  destruct (decide (Ev_Status e = StatusRevoked)) as [Hr|Hr].
  { right. exists [], e, l. rewrite bool_decide_true by done. unfold decisive. simpl. naive_solver. }
  rewrite bool_decide_false by done. destruct (_ && _) eqn:Hc.
  - rewrite andb_true_iff, !negb_true_iff, !bool_decide_eq_false in Hc.
    assert (¬ decisive e) as Hd by (unfold decisive; tauto).
    destruct IH as [[? ?]|(l1 & e' & l2 & -> & ? & ?)]; [left; auto|].
    right. exists (e :: l1), e', l2. auto.
  - right. exists [], e, l. rewrite andb_false_iff, !negb_false_iff, !bool_decide_eq_true in Hc.
    split_and!; [done..|unfold decisive; tauto|done|]. simpl.
    rewrite Nat.eqb_eq, length_zero_iff_nil, validateEvidence_nil. tauto.
Qed.

Lemma Memory_ListByModel_spec range (s : MemoryStore) model :
  range s ≡ₚ (map_to_list s).*2 →
  ∃ records, Memory_ListByModel range (Model_ID model) (Model_Version model) s = Ok records
    ∧ StronglySorted (λ x y, (Ev_CreatedAt x ≤ Ev_CreatedAt y)%Z) records
    ∧ (∀ e, e ∈ records ↔ (∃ id, s !! id = Some e) ∧ about model e).
Proof.
  intros Hr. eexists. split; [done|]. split.
  - assert (∀ x y, earlier y x = false ↔ (Ev_CreatedAt x ≤ Ev_CreatedAt y)%Z) as He.
    { intros. unfold earlier, Before. rewrite Z.ltb_ge. done. }
    match goal with |- StronglySorted _ (SliceStable _ ?l) => assert (StronglySorted
      (λ x y, earlier y x = false) (SliceStable earlier l)) as Hs; [|induction Hs as [|x l' _ IH Hf]] end.
    + apply SliceStable_sorted; intros x y.
      * unfold earlier, Before. rewrite Z.ltb_lt, Z.ltb_ge. lia.
      * intros z. rewrite !He. lia.
    + constructor.
    + constructor; [done|]. eapply Forall_impl; [done|]. by intros y ?%He.
  - intros e. rewrite SliceStable_Permutation, list_elem_of_filter, Hr, list_elem_of_fmap. unfold about. split.
    + intros [? ([id e'] & -> & Hin)]. apply elem_of_map_to_list in Hin. eauto.
    + intros [[id Hid] ?]. split; [done|]. exists (id, e). split; [done|]. by apply elem_of_map_to_list.
Qed.

(** In a list sorted by time, the first decisive record from the end is the
    latest decisive one. *)
Lemma first_decisive_latest records l1 e l2 e' :
  StronglySorted (λ x y, (Ev_CreatedAt x ≤ Ev_CreatedAt y)%Z) records →
  reverse records = l1 ++ e :: l2 → Forall (λ e, ¬ decisive e) l1 →
  e' ∈ reverse records → decisive e' → (Ev_CreatedAt e' ≤ Ev_CreatedAt e)%Z.
Proof.
  intros Hs Hsplit Hf He' Hd'. rewrite Hsplit in He'. rewrite Forall_forall in Hf.
  apply elem_of_app in He' as [He'|He']; [by destruct (Hf e')|].
  apply elem_of_cons in He' as [->|He']; [done|].
  rewrite <- (reverse_involutive records), Hsplit, reverse_app, reverse_cons, <- app_assoc in Hs.
  apply StronglySorted_app in Hs as (Hs & _ & _). apply Hs.
  - by apply elem_of_reverse.
  - by left.
Qed.

(** [e] is on file for the model. *)
Definition on_file (s : MemoryStore) (model : Model) (e : Evidence) : Prop :=
  (∃ id, s !! id = Some e) ∧ about model e.

(** Model admission: [Check] on the memory store always answers, whatever
    order the map is iterated in.  It admits only an approved model, on a
    record on file for exactly that model version that is an approval or a
    restriction, carries every piece of evidence the deployment mode requires
    and is not older than any revocation, approval or restriction of it; and it
    does admit when the one latest of those records is such a record.  A
    revocation that is the latest of them is never overridden. *)
Theorem Check_correct range (s : MemoryStore) model :
  range s ≡ₚ (map_to_list s).*2 →
  ∃ d, @Check _ (MemoryStore_Store range) model s = Ok d
  ∧ (Allowed d = true →
     Model_ApprovalStatus model = ApprovalApproved
     ∧ ∃ e, on_file s model e ∧ EvidenceID d = Ev_ID e ∧ sufficient model e
       ∧ (Ev_Status e = StatusApproved ∨ Ev_Status e = StatusRestricted)
       ∧ ∀ e', on_file s model e' → decisive e' → (Ev_CreatedAt e' ≤ Ev_CreatedAt e)%Z)
  ∧ (∀ e, Model_ApprovalStatus model = ApprovalApproved → on_file s model e → decisive e →
     (∀ e', on_file s model e' → decisive e' → e' ≠ e → (Ev_CreatedAt e' < Ev_CreatedAt e)%Z) →
     EvidenceID d = Ev_ID e ∧ (Allowed d = true ↔ Ev_Status e ≠ StatusRevoked ∧ sufficient model e)).
Proof.
  intros Hr. destruct (Memory_ListByModel_spec range s model Hr) as (records & Hl & Hs & Hin).
  unfold Check. cbn [ListByModel MemoryStore_Store]. rewrite Hl. case_bool_decide as Ha; simpl; [|eexists; naive_solver].
  eexists. split; [done|].
  assert (∀ e, e ∈ reverse records ↔ on_file s model e) as Hin'.
  { intros e. by rewrite elem_of_reverse, Hin. }
  destruct (check_loop_spec model (reverse records)) as [[Hf Hn]|(l1 & e & l2 & Hsplit & Hf & Hd & Hid & Hal)].
  { rewrite Hn. split; [done|]. intros e _ He Hd. rewrite Forall_forall in Hf.
    by destruct (Hf e); [apply Hin'|]. }
  assert (∀ e', on_file s model e' → decisive e' → (Ev_CreatedAt e' ≤ Ev_CreatedAt e)%Z) as Hmax.
  { intros e' He'%Hin' Hd'. by eapply (first_decisive_latest records l1 e l2). }
  assert (on_file s model e) as He by (apply Hin'; rewrite Hsplit; set_solver).
  split.
  - intros Hall. split; [done|]. apply Hal in Hall as [Hrev Hsuf]. exists e.
    split_and!; try done. by destruct Hd as [?|Hd].
  - intros e' _ He' Hd' Hlast. destruct (decide (e = e')) as [<-|Hne].
    + done.
    + specialize (Hlast e He Hd Hne). specialize (Hmax e' He' Hd'). lia.
Qed.

Definition sample_model : Model :=
  {| Model_ID := "m"; Model_Name := "m"; Model_Version := "1"; Model_Provider := "p";
     Model_Endpoint := ""; Model_DeploymentMode := DeploymentLocal; Model_Lifecycle := ModelActive;
     Model_Capabilities := []; Model_Pricing := Build_PricingProfile "USD" f_zero f_zero f_zero f_zero;
     Model_Health := HealthHealthy; Model_HealthCheckedAt := None; Model_P95LatencyMS := 0%Z;
     Model_ErrorRate := f_zero; Model_QuotaRemaining := 0%Z; Model_CapacityAvailable := 0%Z;
     Model_QueueDepth := 0%Z; Model_ServiceTiers := []; Model_InferenceEfforts := [];
     Model_EvaluationVersion := ""; Model_License := "";
     Model_LicenseEvidence := Build_LicenseEvidence "" "" "" true true true false "" None;
     Model_Provenance := Build_ModelProvenance "" [] [] [] ""; Model_ArtifactDigest := "";
     Model_ApprovalStatus := ApprovalApproved; Model_RiskLevel := ""; Model_DataResidency := "";
     Model_CreatedAt := 1%Z; Model_UpdatedAt := 1%Z |}.

Definition sample_evidence (id : string) (st : Status) (at_ : Time) : Evidence :=
  mkEvidence id "m" "1" st "apache-2.0" "ref" "src" [] [] true false false false "" "sha" "sig" "scan"
    "alice" (Some 3%Z) "digest" at_.

Definition sample_range (s : MemoryStore) : list Evidence := (map_to_list s).*2.

Definition sample_store : MemoryStore :=
  snd (@Service_Append _ (MemoryStore_Store sample_range) 9%Z (sample_evidence "e2" StatusApproved 0%Z)
    (snd (@Service_Append _ (MemoryStore_Store sample_range) 8%Z (sample_evidence "e1" StatusRevoked 5%Z)
       NewMemoryStore))).

Lemma Check_correct_witness :
  ∃ d, @Check _ (MemoryStore_Store sample_range) sample_model sample_store = Ok d ∧ Allowed d = true
    ∧ EvidenceID d = "e2" ∧ Model_ApprovalStatus sample_model = ApprovalApproved.
Proof.
  destruct (Check_correct sample_range sample_store sample_model ltac:(reflexivity)) as (d & Hd & Ha & _).
  exists d. assert (Ok d = Ok (mkDecision true "e2" [])) as [= ->] by (rewrite <- Hd; vm_compute; reflexivity).
  split_and!; [done..|]. by apply Ha.
Defined.

End Admission.
