(* ===== verification/OutboxStore.v ===== *)
(** * OutboxStore: the project-scoped outbox table

    [src/internal/repository/postgres_outbox.go] over the table
    [outbox_messages] of [src/db/migrations/007_task_event_outbox_idempotency.sql]
    and [008_outbox_dispatch_leases.sql].  The assumptions on PostgreSQL are
    those of [LeaseSchema]: atomic transactions, row-level security by tenant
    and project, constraints checked on every write, any statement and any
    COMMIT may fail.  The environment also says which rows a concurrent
    transaction holds locked (SKIP LOCKED passes them over), the order in which
    UPDATE .. RETURNING lists its rows, and the collation of [outbox_id].  Every
    time parameter reaches the table through [pg_ts], PostgreSQL's rounding. *)
From stdpp Require Import vector.
From S2P Require Import Prelude Json Identity Domain LeaseSchema.

Module OutboxStore.
Import Domain LeaseSchema.

Definition ErrOutboxLeaseLost : error :=
  Sentinel "ErrOutboxLeaseLost" "outbox delivery lease is not owned by dispatcher".

Record LeasedOutboxMessage : Type := mkLeasedOutboxMessage {
  Leased_Message : OutboxMessage;
  Leased_LeaseOwner : string;
  Leased_LeaseExpiresAt : Time;
  Leased_LastError : string
}.

(** A row: the message's columns (a NULL [task_id] is the empty string every
    query coalesces it to) and the lease's. *)
Record OutboxRow : Type := mkOutboxRow {
  o_message : OutboxMessage;
  o_lease_owner : option string;
  o_lease_expires_at : option Time;
  o_last_error : option string
}.

(** The primary key is [outbox_id] alone; tenant and project are columns. *)
Abbreviation Table := (gmap string OutboxRow) (only parsing).

Record OutboxEnv : Type := mkOutboxEnv {
  oe_tx : TxEnv;
  oe_locked : string → bool;
  oe_returning : list string → list string;
  oe_collation : string → string → bool
}.

(** RLS: what the transaction's scope can see. *)
Definition visible (scope : ScopeKey) (row : OutboxRow) : bool :=
  (Outbox_TenantID (o_message row) ==? fst scope) && (Outbox_ProjectID (o_message row) ==? snd scope).

(** The CHECK constraints of the table, and the width of [attempts]. *)
Definition outbox_checks (row : OutboxRow) : bool :=
  fits_int4 (Outbox_Attempts (o_message row)) && (0 <=? Outbox_Attempts (o_message row))%Z
  && match Outbox_Status (o_message row) with
     | OutboxDelivering =>
         match o_lease_owner row with Some owner => owner !=? "" | None => false end
         && notNull (o_lease_expires_at row)
     | OutboxPending | OutboxDelivered | OutboxDeadLetter =>
         isNull (o_lease_owner row) && isNull (o_lease_expires_at row)
     | OutboxStatusOther _ => false
     end.

(** The columns the statements below write. *)
Definition set_delivery (status : OutboxStatus) (attempts : Z) (available : Time) (delivered : option Time)
    (owner : option string) (expires : option Time) (last_error : option string) (row : OutboxRow)
    : OutboxRow :=
  let m := o_message row in
  {| o_message :=
       {| Outbox_OutboxID := Outbox_OutboxID m; Outbox_TenantID := Outbox_TenantID m;
          Outbox_ProjectID := Outbox_ProjectID m; Outbox_TaskID := Outbox_TaskID m;
          Outbox_AggregateType := Outbox_AggregateType m; Outbox_AggregateID := Outbox_AggregateID m;
          Outbox_EventType := Outbox_EventType m; Outbox_Payload := Outbox_Payload m;
          Outbox_Destination := Outbox_Destination m; Outbox_IdempotencyKey := Outbox_IdempotencyKey m;
          Outbox_Status := status; Outbox_Attempts := attempts; Outbox_AvailableAt := available;
          Outbox_CreatedAt := Outbox_CreatedAt m; Outbox_DeliveredAt := delivered |};
     o_lease_owner := owner; o_lease_expires_at := expires; o_last_error := last_error |}.

Definition TableBody (A : Type) : Type := Identity.Principal → Table → result (A * Table).

Definition withScopedTx {A} (env : OutboxEnv) (fn : TableBody A) (db : Table) : result A * Table :=
  let tx := oe_tx env in
  if negb (env_db tx) then (Err (Errorf "database is required" []), db)
  else match Identity.requireScopedPrincipal (env_ctx tx) with
  | Err e => (Err e, db)
  | Ok principal =>
      match env_begin tx with
      | Some e => (Err (Errorw "begin scoped outbox transaction: %w" [] e), db)
      | None =>
          match exec_stmt tx "set outbox transaction scope" with
          | Err e => (Err e, db)
          | Ok _ =>
              match fn principal db with
              | Err e => (Err e, db)
              | Ok (a, db') =>
                  match env_commit tx with
                  | Committed => (Ok a, db')
                  | CommitFailed e => (Err (Errorw "commit scoped outbox transaction: %w" [] e), db)
                  | CommitUnknown e => (Err (Errorw "commit scoped outbox transaction: %w" [] e), db')
                  end
              end
          end
      end
  end.

(** ** Lease *)

(** [(status = 'pending' AND available_at <= now) OR
     (status = 'delivering' AND lease_expires_at <= now)] *)
Definition leasable (now : Time) (row : OutboxRow) : bool :=
  match Outbox_Status (o_message row) with
  | OutboxPending => (Outbox_AvailableAt (o_message row) <=? now)%Z
  | OutboxDelivering =>
      match o_lease_expires_at row with Some t => (t <=? now)%Z | None => false end
  | _ => false
  end.

(** [ORDER BY available_at, created_at, outbox_id]. *)
Definition dispatch_before (env : OutboxEnv) (a b : string * OutboxRow) : bool :=
  let ma := o_message (snd a) in
  let mb := o_message (snd b) in
  if (Outbox_AvailableAt ma =? Outbox_AvailableAt mb)%Z
  then if (Outbox_CreatedAt ma =? Outbox_CreatedAt mb)%Z
       then oe_collation env (fst a) (fst b)
       else (Outbox_CreatedAt ma <? Outbox_CreatedAt mb)%Z
  else (Outbox_AvailableAt ma <? Outbox_AvailableAt mb)%Z.

(** The common table expression [candidates]. *)
Definition candidates (env : OutboxEnv) (scope : ScopeKey) (now : Time) (limit : Z) (db : Table)
    : list string :=
  (take (Z.to_nat limit)
    (SliceStable (dispatch_before env)
      (filter (λ kv, visible scope kv.2 && leasable now kv.2 && negb (oe_locked env kv.1) = true)
        (map_to_list db)))).*1.

Definition set_leased (owner : string) (expires : Time) (row : OutboxRow) : OutboxRow :=
  set_delivery OutboxDelivering (Outbox_Attempts (o_message row) + 1)
    (Outbox_AvailableAt (o_message row)) (Outbox_DeliveredAt (o_message row))
    (Some owner) (Some expires) (o_last_error row) row.

Definition lease_rows (owner : string) (expires : Time) (ids : list string) (db : Table) : Table :=
  map_imap (λ id row, Some (if bool_decide (id ∈ ids) then set_leased owner expires row else row)) db.

Definition scanLeasedOutbox (env : OutboxEnv) (row : OutboxRow) : result LeasedOutboxMessage :=
  _ ← exec_stmt (oe_tx env) "scan leased outbox message";
  match o_lease_owner row, o_lease_expires_at row with
  | Some owner, Some expires =>
      if negb (Json.Valid (Outbox_Payload (o_message row)))
      then Err (Errorf "outbox %q contains invalid JSON payload"
                  [AStr (Outbox_OutboxID (o_message row))])
      else Ok (mkLeasedOutboxMessage (o_message row) owner expires (default "" (o_last_error row)))
  | _, _ => Err (violation "scan leased outbox message")
  end.

Section store.
Variable pg_ts : Time → Time.

(** The list Go returns beside an error is not modelled: every caller drops it. *)
Definition Lease (env : OutboxEnv) (owner : string) (limit : Z) (now : Time) (leaseDuration : Duration)
    (db : Table) : result (list LeasedOutboxMessage) * Table :=
  let owner := TrimSpace owner in
  if negb (env_db (oe_tx env)) then (Err (Errorf "database is required" []), db)
  else if (owner ==? "") || (limit <? 1)%Z || (leaseDuration <=? 0)%Z || IsZero now
  then (Err (Errorf "lease owner, positive limit, current time and lease duration are required" []), db)
  else
    let limit := if (1000 <? limit)%Z then 1000%Z else limit in
    let leaseExpiresAt := Add now leaseDuration in
    withScopedTx env (λ principal db,
      _ ← exec_stmt (oe_tx env) "lease outbox messages";
      let ids := candidates env (scope_of principal) (pg_ts now) limit db in
      let db' := lease_rows owner (pg_ts leaseExpiresAt) ids db in
      if negb (forallb (λ id, match db' !! id with Some row => outbox_checks row | None => false end) ids)
      then Err (violation "lease outbox messages")
      else
        leased ← mapM (λ row, scanLeasedOutbox env row) (omap (λ id, db' !! id) (oe_returning env ids));
        _ ← fault (oe_tx env) "lease outbox messages rows";
        Ok (leased, db')) db.

(** ** MarkDelivered and FailDelivery *)

(** [UPDATE outbox_messages SET .. WHERE outbox_id=id AND status='delivering' AND lease_owner=owner]. *)
Definition held_by (owner : string) (row : OutboxRow) : bool :=
  (Outbox_Status (o_message row) ==? OutboxDelivering) && (o_lease_owner row ==? Some owner).

Definition update_held (env : OutboxEnv) (label : string) (scope : ScopeKey) (id owner : string)
    (set : OutboxRow → OutboxRow) (db : Table) : result (nat * Table) :=
  _ ← exec_stmt (oe_tx env) label;
  match db !! id with
  | None => Ok (0, db)
  | Some row =>
      if visible scope row && held_by owner row then
        if outbox_checks (set row) then Ok (1, <[id := set row]> db) else Err (violation label)
      else Ok (0, db)
  end.

Definition requireOneOutboxRow (env : OutboxEnv) (label : string) (affected : nat) : result unit :=
  n ← RowsAffected (oe_tx env) label affected;
  if Nat.eqb n 1 then Ok tt else Err ErrOutboxLeaseLost.

Definition set_delivered (at_ : Time) (row : OutboxRow) : OutboxRow :=
  set_delivery OutboxDelivered (Outbox_Attempts (o_message row)) (Outbox_AvailableAt (o_message row))
    (Some at_) None None None row.

Definition MarkDelivered (env : OutboxEnv) (outboxID owner : string) (deliveredAt : Time) (db : Table)
    : result unit * Table :=
  if blank outboxID || blank owner || IsZero deliveredAt
  then (Err (Errorf "outbox id, lease owner and delivered time are required" []), db)
  else withScopedTx env (λ principal db,
    r ← update_held env "mark outbox delivered" (scope_of principal) outboxID owner
          (set_delivered (pg_ts deliveredAt)) db;
    _ ← requireOneOutboxRow env "mark outbox delivered" (fst r);
    Ok (tt, snd r)) db.

Definition set_failed (status : OutboxStatus) (available : Time) (reason : string) (row : OutboxRow)
    : OutboxRow :=
  set_delivery status (Outbox_Attempts (o_message row)) available (Outbox_DeliveredAt (o_message row))
    None None (NULLIF reason) row.

Definition FailDelivery (env : OutboxEnv) (outboxID owner : string) (now nextAvailableAt : Time)
    (maxAttempts : Z) (reason : string) (db : Table) : result OutboxStatus * Table :=
  if blank outboxID || blank owner || IsZero now || IsZero nextAvailableAt || (maxAttempts <? 1)%Z
  then (Err (Errorf "outbox id, lease owner, times and positive max attempts are required" []), db)
  else withScopedTx env (λ principal db,
    _ ← exec_stmt (oe_tx env) "load leased outbox message";
    match db !! outboxID with
    | None => Err ErrOutboxLeaseLost
    | Some row =>
        if negb (visible (scope_of principal) row && held_by owner row) then Err ErrOutboxLeaseLost
        else
          let dead := (maxAttempts <=? Outbox_Attempts (o_message row))%Z in
          let finalStatus := if dead then OutboxDeadLetter else OutboxPending in
          let availableAt := if dead then now else nextAvailableAt in
          r ← update_held env "record outbox delivery failure" (scope_of principal) outboxID owner
                (set_failed finalStatus (pg_ts availableAt) (TrimSpace reason)) db;
          _ ← requireOneOutboxRow env "record outbox delivery failure" (fst r);
          Ok (finalStatus, snd r)
    end) db.

(** ** What each call does *)

Lemma outboxTx_cases {A} env (fn : TableBody A) db :
  (snd (withScopedTx env fn db) = db ∧ ∃ e, fst (withScopedTx env fn db) = Err e)
  ∨ ∃ p a db', Identity.requireScopedPrincipal (env_ctx (oe_tx env)) = Ok p ∧ fn p db = Ok (a, db')
      ∧ snd (withScopedTx env fn db) = db'
      ∧ (fst (withScopedTx env fn db) = Ok a ∨ ∃ e, fst (withScopedTx env fn db) = Err e).
Proof.
  unfold withScopedTx. destruct (env_db _); simpl; [|eauto].
  destruct (Identity.requireScopedPrincipal _) as [p|]; simpl; [|eauto].
  destruct (env_begin _); simpl; [eauto|]. destruct (exec_stmt _ _) as [u|]; simpl; [|eauto].
  destruct (fn p db) as [[a db']|] eqn:E; simpl; [|eauto].
  destruct (env_commit _); simpl; [right|left|right]; eauto 10.
Qed.

Lemma mapM_Ok {A B} (f : A → result B) l k : mapM f l = Ok k → Forall2 (λ x y, f x = Ok y) l k.
Proof.
  revert k. induction l as [|x l IH]; simpl; intros k H.
  { change (Ok [] = Ok k) in H. simplify_eq. constructor. }
  bind_inv H y Hy. bind_inv H ys Hys. change (Ok (y :: ys) = Ok k) in H. simplify_eq.
  constructor; auto.
Qed.

Lemma lookup_lease_rows owner expires ids db id :
  lease_rows owner expires ids db !! id =
  (λ row, if bool_decide (id ∈ ids) then set_leased owner expires row else row) <$> db !! id.
Proof. unfold lease_rows. rewrite map_lookup_imap. by destruct (db !! id). Qed.

(** The rows the candidates query may pick, and those it must pick. *)
Definition eligible (env : OutboxEnv) (scope : ScopeKey) (now : Time) (db : Table) (id : string) : Prop :=
  ∃ row, db !! id = Some row ∧ visible scope row = true ∧ leasable now row = true ∧ oe_locked env id = false.

Lemma candidates_spec env scope now limit db :
  NoDup (candidates env scope now limit db)
  ∧ (length (candidates env scope now limit db) ≤ Z.to_nat limit)
  ∧ (∀ id, id ∈ candidates env scope now limit db → eligible env scope now db id)
  ∧ (length (candidates env scope now limit db) = Z.to_nat limit
     ∨ ∀ id, eligible env scope now db id → id ∈ candidates env scope now limit db).
Proof.
  unfold candidates. set (picked := filter _ (map_to_list db)).
  pose proof (SliceStable_Permutation (dispatch_before env) picked) as Hl.
  set (l := SliceStable (dispatch_before env) picked) in *.
  assert (NoDup l.*1) as Hnd.
  { rewrite Hl. eapply sublist_NoDup; [apply (NoDup_fst_map_to_list db)|].
    apply fmap_sublist, sublist_filter. }
  assert (∀ id, id ∈ l.*1 ↔ eligible env scope now db id) as Hin.
  { intros id. rewrite list_elem_of_fmap. unfold eligible. split.
    - intros ([id' row] & -> & Hx). rewrite Hl in Hx. unfold picked in Hx. rewrite list_elem_of_filter, elem_of_map_to_list in Hx.
      destruct Hx as [Hp Hx]. simpl in *. go_props. eauto 10.
    - intros (row & Hrow & Hv & Hle & Hlk). exists (id, row). split; [done|].
      rewrite Hl. unfold picked. rewrite list_elem_of_filter, elem_of_map_to_list. split; [|done]. simpl. by rewrite Hv, Hle, Hlk. }
  rewrite !fmap_take.
  split_and!.
  - eapply sublist_NoDup; [exact Hnd|]. apply sublist_take.
  - rewrite length_take. lia.
  - intros id Hid. apply Hin. revert Hid. apply subseteq_take.
  - rewrite length_take. destruct (decide (Z.to_nat limit ≤ length l.*1)) as [Hle|Hgt]; [left; lia|right].
    intros id Hid. rewrite take_ge by lia. by apply Hin.
Qed.

(** The key of a row is its [outbox_id], and the constraints hold. *)
Definition table_ok (db : Table) : Prop :=
  map_Forall (λ id row, Outbox_OutboxID (o_message row) = id ∧ outbox_checks row = true) db.

(** What one call may do to a row. *)
Inductive row_step : OutboxRow → OutboxRow → Prop :=
| rs_lease owner expires row :
    Outbox_Status (o_message row) = OutboxPending ∨ Outbox_Status (o_message row) = OutboxDelivering →
    row_step row (set_leased owner expires row)
| rs_delivered owner at_ row : held_by owner row = true → row_step row (set_delivered at_ row)
| rs_failed owner status available reason row :
    held_by owner row = true → status = OutboxPending ∨ status = OutboxDeadLetter →
    row_step row (set_failed status available reason row).

Lemma leasable_status now row :
  leasable now row = true →
  Outbox_Status (o_message row) = OutboxPending ∨ Outbox_Status (o_message row) = OutboxDelivering.
Proof. unfold leasable. destruct (Outbox_Status _); intros; auto; done. Qed.

(** The effect of a [Lease] on the table, whether or not it is reported. *)
Lemma Lease_cases env owner limit now d db :
  (snd (Lease env owner limit now d db) = db ∧ ∃ e, fst (Lease env owner limit now d db) = Err e)
  ∨ ∃ p, let ids := candidates env (scope_of p) (pg_ts now) (Z.min limit 1000) db in
      let db' := lease_rows (TrimSpace owner) (pg_ts (Add now d)) ids db in
      (1 ≤ limit)%Z ∧ TrimSpace owner ≠ ""
      ∧ Identity.requireScopedPrincipal (env_ctx (oe_tx env)) = Ok p
      ∧ snd (Lease env owner limit now d db) = db'
      ∧ (∀ id row, id ∈ ids → db' !! id = Some row → outbox_checks row = true)
      ∧ ((∃ items, fst (Lease env owner limit now d db) = Ok items
           ∧ Forall2 (λ row item, scanLeasedOutbox env row = Ok item)
               (omap (λ id, db' !! id) (oe_returning env ids)) items)
         ∨ ∃ e, fst (Lease env owner limit now d db) = Err e).
Proof.
  unfold Lease. destruct (env_db _); simpl; [|eauto].
  destruct (_ || _) eqn:Hargs; simpl; [eauto|]. go_props.
  set (lim := if (1000 <? limit)%Z then 1000%Z else limit).
  assert (lim = Z.min limit 1000) as -> by (unfold lim; destruct (Z.ltb_spec 1000 limit); lia).
  match goal with |- context [withScopedTx env ?f db] =>
    destruct (outboxTx_cases env f db) as [?|(p & items & db' & Hp & Hb & -> & Hr)]; [by left|] end.
  right. exists p. bind_inv Hb u Hu. destruct (forallb _ _) eqn:Hchk; simpl in Hb; [|done].
  bind_inv Hb leased Hl. bind_inv Hb u' Hu'. simplify_eq.
  split_and!; [lia|done..| |].
  - intros id row Hid Hrow. rewrite forallb_forall in Hchk.
    specialize (Hchk id). rewrite <- list_elem_of_In in Hchk. specialize (Hchk Hid). by rewrite Hrow in Hchk.
  - destruct Hr as [->|[e ->]]; [left|right; eauto]. eexists. split; [done|]. by apply mapM_Ok.
Qed.

(** The single-row updates. *)
Lemma update_held_Ok env label scope id owner set db n db' :
  update_held env label scope id owner set db = Ok (n, db') →
  (n = 0 ∧ db' = db)
  ∨ ∃ row, n = 1 ∧ db !! id = Some row ∧ visible scope row = true ∧ held_by owner row = true
      ∧ outbox_checks (set row) = true ∧ db' = <[id := set row]> db.
Proof.
  unfold update_held. intros H. bind_inv H u Hu. destruct (db !! id) as [row|] eqn:E; [|left; by simplify_eq].
  destruct (_ && _) eqn:Hc; [|left; by simplify_eq].
  destruct (outbox_checks (set row)) eqn:Hk; [|done]. simplify_eq. go_props. right. eauto 10.
Qed.

Lemma MarkDelivered_cases env id owner at_ db :
  (snd (MarkDelivered env id owner at_ db) = db ∧ ∃ e, fst (MarkDelivered env id owner at_ db) = Err e)
  ∨ ∃ p row, Identity.requireScopedPrincipal (env_ctx (oe_tx env)) = Ok p
      ∧ db !! id = Some row ∧ visible (scope_of p) row = true ∧ held_by owner row = true
      ∧ outbox_checks (set_delivered (pg_ts at_) row) = true
      ∧ snd (MarkDelivered env id owner at_ db) = <[id := set_delivered (pg_ts at_) row]> db.
Proof.
  unfold MarkDelivered. destruct (_ || _); simpl; [eauto|].
  match goal with |- context [withScopedTx env ?f db] =>
    destruct (outboxTx_cases env f db) as [?|(p & a & db' & Hp & Hb & -> & Hr)]; [by left|] end.
  bind_inv Hb r Hu. destruct r as [n db1]. bind_inv Hb u Hone. simplify_eq.
  apply update_held_Ok in Hu as [[-> ->]|(row & -> & ? & ? & ? & ? & ->)]; [|right; eauto 10].
  unfold requireOneOutboxRow in Hone. bind_inv Hone m Hm. unfold RowsAffected in Hm. bind_inv Hm w Hw.
  by simplify_eq.
Qed.

Lemma FailDelivery_cases env id owner now next maxa reason db :
  let r := FailDelivery env id owner now next maxa reason db in
  (snd r = db ∧ ∃ e, fst r = Err e)
  ∨ ∃ p row, Identity.requireScopedPrincipal (env_ctx (oe_tx env)) = Ok p
      ∧ db !! id = Some row ∧ visible (scope_of p) row = true ∧ held_by owner row = true
      ∧ let dead := (maxa <=? Outbox_Attempts (o_message row))%Z in
        let status := if dead then OutboxDeadLetter else OutboxPending in
        let row' := set_failed status (pg_ts (if dead then now else next)) (TrimSpace reason) row in
        outbox_checks row' = true ∧ snd r = <[id := row']> db
        ∧ (fst r = Ok status ∨ ∃ e, fst r = Err e).
Proof.
  simpl. unfold FailDelivery. destruct (_ || _); simpl; [eauto|].
  match goal with |- context [withScopedTx env ?f db] =>
    destruct (outboxTx_cases env f db) as [?|(p & a & db' & Hp & Hb & -> & Hr)]; [by left|] end.
  bind_inv Hb u0 Hu0. destruct (db !! id) as [row|] eqn:Hrow; [|done].
  destruct (negb _) eqn:Hheld; [done|]. go_props.
  bind_inv Hb r Hu. destruct r as [n db1]. bind_inv Hb u Hone. simplify_eq.
  apply update_held_Ok in Hu as [[-> ->]|(row' & -> & ? & ? & ? & ? & ->)].
  - unfold requireOneOutboxRow in Hone. bind_inv Hone m Hm. unfold RowsAffected in Hm. bind_inv Hm w Hw.
    by simplify_eq.
  - simplify_eq. right. exists p, row. split_and!; done.
Qed.

(** ** Histories of calls, by any dispatchers in any scopes *)
Inductive call : Type :=
| CallLease (owner : string) (limit : Z) (now : Time) (d : Duration)
| CallDelivered (id owner : string) (at_ : Time)
| CallFail (id owner : string) (now next : Time) (maxa : Z) (reason : string).

Definition run_call (env : OutboxEnv) (c : call) (db : Table) : Table :=
  match c with
  | CallLease owner limit now d => snd (Lease env owner limit now d db)
  | CallDelivered id owner at_ => snd (MarkDelivered env id owner at_ db)
  | CallFail id owner now next maxa reason => snd (FailDelivery env id owner now next maxa reason db)
  end.

Definition run_history (h : list (OutboxEnv * call)) (db : Table) : Table :=
  foldl (λ db ec, run_call ec.1 ec.2 db) db h.

(** One call relates each row to the row after it: unchanged, or one step, taken
    inside the caller's scope and leaving a row that satisfies the constraints. *)
Definition acknowledges (id : string) (c : call) : Prop :=
  match c with CallDelivered id' _ _ => id' = id | _ => False end.

Definition row_after (env : OutboxEnv) (c : call) (id : string) (row row' : OutboxRow) : Prop :=
  row' = row
  ∨ row_step row row' ∧ outbox_checks row' = true
    ∧ (Outbox_Status (o_message row') = OutboxDelivered → acknowledges id c)
    ∧ ∃ p, Identity.requireScopedPrincipal (env_ctx (oe_tx env)) = Ok p ∧ visible (scope_of p) row = true.

Definition rows_after (env : OutboxEnv) (c : call) (db db' : Table) : Prop :=
  ∀ id, match db !! id with
        | Some row => ∃ row', db' !! id = Some row' ∧ row_after env c id row row'
        | None => db' !! id = None
        end.

Lemma rows_after_refl env c db : rows_after env c db db.
Proof. intros id. destruct (db !! id); [|done]. eexists. split; [done|]. by left. Qed.

Lemma rows_after_insert env c db id row row' :
  db !! id = Some row → row_after env c id row row' → rows_after env c db (<[id := row']> db).
Proof.
  intros Hrow Ha id'. destruct (decide (id' = id)) as [->|Hne].
  - rewrite Hrow, lookup_insert_eq. eauto.
  - rewrite lookup_insert_ne by done. apply rows_after_refl.
Qed.

Lemma run_call_rows env c db : rows_after env c db (run_call env c db).
Proof.
  destruct c as [owner limit now d|id owner at_|id owner now next maxa reason]; simpl.
  - destruct (Lease_cases env owner limit now d db) as [[-> _]|(p & _ & _ & Hp & -> & Hck & _)];
      [apply rows_after_refl|].
    intros id. rewrite lookup_lease_rows. destruct (db !! id) as [row|] eqn:Hrow; simpl; [|done].
    eexists. split; [done|]. case_bool_decide as Hid; [|by left]. right.
    destruct (candidates_spec env (scope_of p) (pg_ts now) (Z.min limit 1000) db) as (_ & _ & Hc & _).
    destruct (Hc id Hid) as (row0 & Hrow0 & Hv & Hl & _).
    simplify_eq. split_and!.
    + constructor. by eapply leasable_status.
    + apply (Hck id); [done|]. by rewrite lookup_lease_rows, Hrow, bool_decide_true.
    + done.
    + eauto.
  - destruct (MarkDelivered_cases env id owner at_ db) as [[-> _]|(p & row & Hp & Hrow & Hv & Hh & Hck & ->)];
      [apply rows_after_refl|].
    eapply rows_after_insert; [done|]. right. split_and!; [by econstructor|done|done|eauto].
  - destruct (FailDelivery_cases env id owner now next maxa reason db)
      as [[-> _]|(p & row & Hp & Hrow & Hv & Hh & Hck & -> & _)]; [apply rows_after_refl|].
    eapply rows_after_insert; [done|]. right. split_and!; [|done| |eauto].
    + econstructor; [done|]. destruct (_ <=? _)%Z; auto.
    + simpl. by destruct (_ <=? _)%Z.
Qed.

(** What survives every step of a row. *)
Definition same_message (row row' : OutboxRow) : Prop :=
  let m := o_message row in let m' := o_message row' in
  Outbox_OutboxID m' = Outbox_OutboxID m ∧ Outbox_TenantID m' = Outbox_TenantID m
  ∧ Outbox_ProjectID m' = Outbox_ProjectID m ∧ Outbox_EventType m' = Outbox_EventType m
  ∧ Outbox_Payload m' = Outbox_Payload m ∧ Outbox_Destination m' = Outbox_Destination m
  ∧ Outbox_IdempotencyKey m' = Outbox_IdempotencyKey m ∧ Outbox_CreatedAt m' = Outbox_CreatedAt m.

Definition final (row : OutboxRow) : Prop :=
  Outbox_Status (o_message row) = OutboxDelivered ∨ Outbox_Status (o_message row) = OutboxDeadLetter.

Lemma row_step_facts row row' :
  row_step row row' →
  same_message row row' ∧ ¬ final row
  ∧ (Outbox_Attempts (o_message row) ≤ Outbox_Attempts (o_message row') ≤ Outbox_Attempts (o_message row) + 1)%Z.
Proof.
  assert (∀ owner, held_by owner row = true → ¬ final row) as Hh.
  { unfold held_by, final. intros owner H. go_props. intros [E|E]; congruence. }
  destruct 1 as [owner expires row Hs|owner at_ row Ho|owner status available reason row Ho Hs];
    (split_and!; [by split_and!| |simpl; lia..]).
  - unfold final. intros [E|E]; destruct Hs; congruence.
  - by eapply Hh.
  - by eapply Hh.
Qed.

(** The relation the histories maintain. *)
Definition row_evolves (h : list (OutboxEnv * call)) (id : string) (row row' : OutboxRow) : Prop :=
  same_message row row' ∧ outbox_checks row' = true ∧ (final row → row' = row)
  ∧ (Outbox_Attempts (o_message row) ≤ Outbox_Attempts (o_message row')
     ≤ Outbox_Attempts (o_message row) + Z.of_nat (length h))%Z
  ∧ (Outbox_Status (o_message row') = OutboxDelivered →
     Outbox_Status (o_message row) = OutboxDelivered ∨ ∃ ec, ec ∈ h ∧ acknowledges id ec.2)
  ∧ ((∀ ec p, ec ∈ h → Identity.requireScopedPrincipal (env_ctx (oe_tx ec.1)) = Ok p →
        visible (scope_of p) row = false) → row' = row).

Lemma visible_same scope row row' : same_message row row' → visible scope row' = visible scope row.
Proof. unfold visible. intros (_ & -> & -> & _). done. Qed.

Lemma row_evolves_snoc h env c id row row1 row2 :
  row_evolves h id row row1 → row_after env c id row1 row2 → row_evolves (h ++ [(env, c)]) id row row2.
Proof.
  intros (Hm & Hck & Hf & Ha & Hd & Hv) Hr. unfold row_evolves.
  rewrite length_app. simpl. destruct Hr as [->|(Hs & Hck' & Hack & p & Hp & Hvis)].
  { split_and!; try done; [lia|lia|set_solver|]. intros Hall. apply Hv. set_solver. }
  destruct (row_step_facts _ _ Hs) as (Hm' & Hnf & Ha'). split_and!; try done; try lia.
  - unfold same_message in *. naive_solver congruence.
  - intros Hfin. destruct Hnf. by rewrite (Hf Hfin).
  - intros Hdel. right. exists (env, c). split; [set_solver|]. by apply Hack.
  - intros Hall. exfalso. rewrite (visible_same _ _ _ Hm) in Hvis.
    rewrite (Hall (env, c) p) in Hvis; [done|set_solver|done].
Qed.

(** The life of an outbox message: whatever leases, acknowledgements and
    failure reports any dispatchers make, in any scopes, with any statement or
    COMMIT failing, no message is lost or invented and its content and
    idempotency key never change; the table's constraints keep holding; a
    delivered or dead-lettered message never changes again; a message becomes
    delivered only if an acknowledgement of that very message was made; its
    attempt counter never goes down and rises by at most one per call; and
    calls from other tenants or projects leave it untouched. *)
Theorem outbox_message_lifecycle h db :
  table_ok db →
  let db' := run_history h db in
  dom db' = dom db
  ∧ ∀ id row, db !! id = Some row → ∃ row', db' !! id = Some row' ∧ row_evolves h id row row'.
Proof.
  intros Hok. simpl.
  assert (∀ id, match db !! id with
                | Some row => ∃ row', run_history h db !! id = Some row' ∧ row_evolves h id row row'
                | None => run_history h db !! id = None end) as Hrows.
  { induction h as [|[env c] h IH] using rev_ind; intros id.
    - simpl. destruct (db !! id) as [row|] eqn:E; [|done]. exists row. split; [done|].
      destruct (Hok id row E). split_and!; try done; try lia. by left.
    - unfold run_history. rewrite foldl_app. simpl. fold (run_history h db).
      specialize (IH id). pose proof (run_call_rows env c (run_history h db) id) as Hc.
      destruct (db !! id) as [row|]; [|by rewrite IH in Hc].
      destruct IH as (row1 & H1 & Hev). rewrite H1 in Hc. destruct Hc as (row2 & H2 & Ha).
      exists row2. split; [done|]. by eapply row_evolves_snoc. }
  split.
  - apply set_eq. intros id. rewrite !elem_of_dom. specialize (Hrows id).
    destruct (db !! id); [destruct Hrows as (row' & -> & _)|rewrite Hrows]; done.
  - intros id row Hrow. specialize (Hrows id). by rewrite Hrow in Hrows.
Qed.

(** The leased items are the leased rows, each as the table now holds it. *)
Definition item_of (db' : Table) (id : string) (item : LeasedOutboxMessage) : Prop :=
  ∃ row, db' !! id = Some row ∧ Leased_Message item = o_message row
    ∧ o_lease_owner row = Some (Leased_LeaseOwner item).

Lemma scanned_items env (db' : Table) ids items :
  Forall2 (λ row item, scanLeasedOutbox env row = Ok item) (omap (λ id, db' !! id) ids) items →
  Forall (λ id, is_Some (db' !! id)) ids → Forall2 (item_of db') ids items.
Proof.
  revert items. induction ids as [|id ids IH]; intros items H Hsome; simpl in H.
  { inversion H. constructor. }
  inversion Hsome as [|? ? [row Hrow] Hsome']; subst. rewrite Hrow in H.
  inversion H as [|? item ? items' Hs Hr]; subst. constructor; [|by apply IH].
  exists row. unfold scanLeasedOutbox in Hs. bind_inv Hs u Hu.
  destruct (o_lease_owner row), (o_lease_expires_at row); try done.
  destruct (negb _); [done|]. by simplify_eq.
Qed.

Lemma item_of_leased owner expires ids db id item :
  table_ok db → id ∈ ids → item_of (lease_rows owner expires ids db) id item →
  ∃ row, db !! id = Some row ∧ Outbox_OutboxID (Leased_Message item) = id
    ∧ lease_rows owner expires ids db !! id = Some (set_leased owner expires row)
    ∧ Leased_Message item = o_message (set_leased owner expires row) ∧ Leased_LeaseOwner item = owner.
Proof.
  intros Hok Hid (row' & Hrow' & Hm & Ho). rewrite lookup_lease_rows in Hrow' |- *.
  destruct (db !! id) as [row|] eqn:E; [|done]. simpl in *. rewrite bool_decide_true in * by done.
  simplify_eq/=. exists row. rewrite Hm. destruct (Hok id row E). by split_and!.
Qed.

Lemma leased_ids owner expires cands db ids items :
  table_ok db → Forall (.∈ cands) ids → Forall2 (item_of (lease_rows owner expires cands db)) ids items →
  (λ item, Outbox_OutboxID (Leased_Message item)) <$> items = ids.
Proof.
  intros Hok Hsub Hf. induction Hf as [|id item ids items Hitem _ IH]; [done|].
  inversion_clear Hsub as [|? ? Hid Hids]. rewrite fmap_cons, IH by done. f_equal.
  by destruct (item_of_leased _ _ _ _ _ _ Hok Hid Hitem) as (? & _ & ? & _).
Qed.

(** Leasing: the messages [Lease] returns are distinct, at most the limit
    (itself capped at 1000), all in the caller's scope, and each was due at the
    caller's clock: pending and available, or held by a lease that had expired;
    so a message under a running lease is never handed to a second dispatcher.
    Each returned message is now held by the caller until [now + d] with its
    attempt counted, no other row changes, and a due message that no concurrent
    transaction holds is left out only when the limit is reached. *)
Theorem Lease_correct env owner limit now d db items db' :
  Lease env owner limit now d db = (Ok items, db') → (∀ l, oe_returning env l ≡ₚ l) → table_ok db →
  let ids := (λ item, Outbox_OutboxID (Leased_Message item)) <$> items in
  ∃ p, Identity.requireScopedPrincipal (env_ctx (oe_tx env)) = Ok p
  ∧ NoDup ids ∧ (Z.of_nat (length ids) ≤ Z.min limit 1000)%Z
  ∧ Forall (λ item, ∃ row, let id := Outbox_OutboxID (Leased_Message item) in
      db !! id = Some row ∧ visible (scope_of p) row = true ∧ leasable (pg_ts now) row = true
      ∧ db' !! id = Some (set_leased (TrimSpace owner) (pg_ts (Add now d)) row)
      ∧ Leased_Message item = o_message (set_leased (TrimSpace owner) (pg_ts (Add now d)) row)
      ∧ Leased_LeaseOwner item = TrimSpace owner) items
  ∧ (∀ id, id ∉ ids → db' !! id = db !! id)
  ∧ (Z.of_nat (length ids) = Z.min limit 1000
     ∨ ∀ id, eligible env (scope_of p) (pg_ts now) db id → id ∈ ids).
Proof.
  intros Hlease Hperm Hok ids0.
  destruct (Lease_cases env owner limit now d db) as [[_ [e He]]|(p & Hlim & _ & Hp & Hdb & _ & Hr)];
    rewrite Hlease in *; [done|]. simpl in *. subst db'.
  destruct Hr as [(items' & [= <-] & Hf)|[e ?]]; [|done].
  pose proof (candidates_spec env (scope_of p) (pg_ts now) (Z.min limit 1000) db) as (Hnd & Hlen & Hin & Hall).
  set (cands := candidates _ _ _ _ _) in *. set (db' := lease_rows _ _ _ _) in *.
  apply scanned_items in Hf.
  2:{ apply Forall_forall. intros id Hid. rewrite Hperm in Hid. destruct (Hin id Hid) as (row & Hrow & _).
      unfold db'. rewrite lookup_lease_rows, Hrow. eauto. }
  assert (ids0 = oe_returning env cands) as Hids.
  { apply (leased_ids (TrimSpace owner) (pg_ts (Add now d)) cands db); [done| |done].
    apply Forall_forall. intros id. by rewrite Hperm. }
  rewrite Hids. exists p. rewrite Hperm. split_and!; [done|done|lia| | |].
  - eapply Forall2_Forall_r; [exact Hf|]. apply Forall_forall. intros id Hid item Hitem.
    rewrite Hperm in Hid. destruct (item_of_leased _ _ _ _ _ _ Hok Hid Hitem) as (row & Hrow & -> & Hl & Hm & Ho).
    destruct (Hin id Hid) as (row0 & ? & ? & ? & _). simplify_eq. eauto 10.
  - intros id Hid. rewrite Hperm in Hid. unfold db'. rewrite lookup_lease_rows, bool_decide_false by done.
    by destruct (db !! id).
  - destruct Hall as [Hl|Hl]; [left; lia|right]. intros id Hid. rewrite Hperm. by apply Hl.
Qed.

End store.
(** ** A concrete outbox *)
Definition sample_principal : Identity.Principal :=
  {| Identity.Type_ := Identity.PrincipalUser; Identity.SubjectID := "alice"; Identity.TenantID := "acme";
     Identity.ProjectID := "ops"; Identity.Roles := []; Identity.Capabilities := [];
     Identity.AuthnMethod := "oidc"; Identity.Issuer := "idp"; Identity.SessionID := "";
     Identity.Purpose := "" |}.

Definition sample_env : OutboxEnv :=
  mkOutboxEnv
    {| env_db := true; env_ctx := Some sample_principal; env_begin := None; env_fault := λ _, None;
       env_clock := Ok 100%Z; env_now := 100%Z; env_rand := λ _, Ok (vreplicate 16 "000"%char);
       env_commit := Committed |}
    (λ _, false) (λ l, l) String.ltb.

Definition sample_row (id destination : string) (available : Time) : OutboxRow :=
  mkOutboxRow (mkOutboxMessage id "acme" "ops" "t1" "task" "t1" "TaskCompleted" "{}" destination id
                 OutboxPending 0 available 10%Z None) None None None.

Definition sample_table : Table :=
  <["m1" := sample_row "m1" "hook" 50%Z]> (<["m2" := sample_row "m2" "queue" 40%Z]>
    (<["m3" := sample_row "m3" "hook" 400%Z]> ∅)).

Lemma sample_table_ok : table_ok sample_table.
Proof.
  repeat (apply map_Forall_insert_2; [split; reflexivity|]). apply map_Forall_empty.
Qed.

Definition sample_lease := Lease (λ t, t) sample_env " d1 " 5 100%Z 30%Z sample_table.
Definition sample_items : list LeasedOutboxMessage :=
  match fst sample_lease with Ok items => items | Err _ => [] end.

Lemma Lease_correct_witness :
  (λ item, Outbox_OutboxID (Leased_Message item)) <$> sample_items = ["m2"; "m1"]
  ∧ ∀ id, id ∉ ["m2"; "m1"] → snd sample_lease !! id = sample_table !! id.
Proof.
  split; [vm_compute; reflexivity|].
  destruct (Lease_correct (λ t, t) sample_env " d1 " 5 100%Z 30%Z sample_table sample_items
    (snd sample_lease)) as (p & _ & _ & _ & _ & Hother & _);
    [vm_compute; reflexivity|done|apply sample_table_ok|].
  exact Hother.
Defined.

Definition sample_history : list (OutboxEnv * call) :=
  [(sample_env, CallLease " d1 " 5 100%Z 30%Z); (sample_env, CallDelivered "m1" "d1" 101%Z);
   (sample_env, CallFail "m2" "d1" 102%Z 110%Z 3 "refused"); (sample_env, CallDelivered "m2" "d1" 103%Z)].

Lemma outbox_message_lifecycle_witness :
  dom (run_history (λ t, t) sample_history sample_table) = dom sample_table
  ∧ (Outbox_Status ∘ o_message) <$> run_history (λ t, t) sample_history sample_table !! "m1" = Some OutboxDelivered
  ∧ (Outbox_Status ∘ o_message) <$> run_history (λ t, t) sample_history sample_table !! "m2" = Some OutboxPending.
Proof.
  split; [|split; vm_compute; reflexivity].
  exact (proj1 (outbox_message_lifecycle (λ t, t) sample_history sample_table sample_table_ok)).
Defined.

End OutboxStore.
