(* ===== verification/Outbox.v ===== *)
(** * Outbox: the dispatcher

    [src/internal/outbox/dispatcher.go].  The dispatcher is written against the
    [Store] interface and delivery adapters; here they act on a world [W], as
    does the clock.  [OutboxStore] implements the store.  [err.Error()] of an
    adapter's error is the parameter [Error_text]. *)
From S2P Require Import Prelude Identity Domain LeaseSchema OutboxStore.

Module Outbox.
Import Domain OutboxStore.

Definition ErrDestinationNotConfigured : error :=
  Sentinel "ErrDestinationNotConfigured" "outbox destination is not configured".

Class Store (W : Type) : Type := {
  st_Lease : string → Z → Time → Duration → W → result (list LeasedOutboxMessage) * W;
  st_MarkDelivered : string → string → Time → W → result unit * W;
  st_FailDelivery : string → string → Time → Time → Z → string → W → result OutboxStatus * W;
  st_now : W → Time * W
}.

(** [DeliveryAdapter.Deliver]. *)
Definition DeliveryAdapter (W : Type) : Type := OutboxMessage → W → option error * W.

Record DispatchResult : Type := mkDispatchResult {
  Leased : Z; Delivered : Z; Retried : Z; DeadLetter : Z; Failed : Z
}.
Definition DispatchResultZero : DispatchResult := mkDispatchResult 0 0 0 0 0.

Record Dispatcher (W : Type) : Type := mkDispatcher {
  owner : string;
  leaseDuration : Duration;
  maxAttempts : Z;
  baseBackoff : Duration;
  adapters : gmap string (DeliveryAdapter W)
}.
Arguments mkDispatcher {W} _ _ _ _ _.
Arguments owner {W} _. Arguments leaseDuration {W} _. Arguments maxAttempts {W} _.
Arguments baseBackoff {W} _. Arguments adapters {W} _.

(** [store_given] is [store != nil]. *)
Definition NewDispatcher {W} (store_given : bool) (owner_ : string) (lease : Duration) (max : Z)
    (base : Duration) : result (Dispatcher W) :=
  let owner_ := TrimSpace owner_ in
  if negb store_given || (owner_ ==? "") || (lease <=? 0)%Z || (max <? 1)%Z || (base <=? 0)%Z
  then Err (Errorf "store, owner, positive lease duration, max attempts and backoff are required" [])
  else Ok (mkDispatcher owner_ lease max base ∅).

Definition Register {W} (destination : string) (adapter : option (DeliveryAdapter W)) (d : Dispatcher W)
    : result unit * Dispatcher W :=
  let destination := TrimSpace destination in
  match adapter with
  | Some adapter =>
      if destination ==? "" then (Err (Errorf "destination and adapter are required" []), d)
      else match adapters d !! destination with
      | Some _ => (Err (Errorf "destination %q is already registered" [AStr destination]), d)
      | None => (Ok tt, mkDispatcher (owner d) (leaseDuration d) (maxAttempts d) (baseBackoff d)
                          (<[destination := adapter]> (adapters d)))
      end
  | None => (Err (Errorf "destination and adapter are required" []), d)
  end.

(** ** backoff *)
Definition maxBackoff : Duration := (5 * Minute)%Z.

(** [for i := 1; i < attempt && backoff < 5*time.Minute; i++ { backoff *= 2 }]:
    [n] is [attempt - i]. *)
Fixpoint backoff_loop (n : nat) (backoff : Duration) : Duration :=
  match n with
  | O => backoff
  | S n => if (backoff <? maxBackoff)%Z then backoff_loop n (mul64 backoff 2) else backoff
  end.

Definition backoff {W} (d : Dispatcher W) (attempt : Z) : Duration :=
  let attempt := if (attempt <? 1)%Z then 1%Z else attempt in
  let b := backoff_loop (Z.to_nat (attempt - 1)) (baseBackoff d) in
  if (maxBackoff <? b)%Z then maxBackoff else b.

(** ** DispatchOnce *)

(** [errors.Join(joined, err)] for a non-nil [err]. *)
Definition joinErr (joined : option error) (err : error) : option error :=
  errors_Join [joined; Some err].

Definition incDelivered (r : DispatchResult) : DispatchResult :=
  mkDispatchResult (Leased r) (Delivered r + 1) (Retried r) (DeadLetter r) (Failed r).
Definition incRetried (r : DispatchResult) : DispatchResult :=
  mkDispatchResult (Leased r) (Delivered r) (Retried r + 1) (DeadLetter r) (Failed r).
Definition incDeadLetter (r : DispatchResult) : DispatchResult :=
  mkDispatchResult (Leased r) (Delivered r) (Retried r) (DeadLetter r + 1) (Failed r).
Definition incFailed (r : DispatchResult) : DispatchResult :=
  mkDispatchResult (Leased r) (Delivered r) (Retried r) (DeadLetter r) (Failed r + 1).

Section dispatch.
Context {W : Type} `{Store W}.
Variable Error_text : error → string.

Fixpoint dispatch_loop (d : Dispatcher W) (now : Time) (items : list LeasedOutboxMessage)
    (result : DispatchResult) (joined : option error) (w : W) : DispatchResult * option error * W :=
  match items with
  | [] => (result, joined, w)
  | item :: rest =>
      let m := Leased_Message item in
      match adapters d !! Outbox_Destination m with
      | None =>
          match st_FailDelivery (Outbox_OutboxID m) (owner d) now now (Outbox_Attempts m)
                  (Error_text ErrDestinationNotConfigured) w with
          | (Err failErr, w) => dispatch_loop d now rest (incFailed result) (joinErr joined failErr) w
          | (Ok status, w) =>
              dispatch_loop d now rest
                (if status ==? OutboxDeadLetter then incDeadLetter result else result)
                (joinErr joined (Errorw "%w: %s" [AStr (Outbox_Destination m)] ErrDestinationNotConfigured)) w
          end
      | Some adapter =>
          match adapter m w with
          | (Some deliverErr, w) =>
              let next := Add now (backoff d (Outbox_Attempts m)) in
              match st_FailDelivery (Outbox_OutboxID m) (owner d) now next (maxAttempts d)
                      (Error_text deliverErr) w with
              | (Err failErr, w) => dispatch_loop d now rest (incFailed result) (joinErr joined failErr) w
              | (Ok status, w) =>
                  dispatch_loop d now rest
                    (if status ==? OutboxDeadLetter then incDeadLetter result else incRetried result)
                    joined w
              end
          | (None, w) =>
              let '(at_, w) := st_now w in
              match st_MarkDelivered (Outbox_OutboxID m) (owner d) at_ w with
              | (Err err, w) => dispatch_loop d now rest (incFailed result) (joinErr joined err) w
              | (Ok _, w) => dispatch_loop d now rest (incDelivered result) joined w
              end
          end
      end
  end.

(** [None] is a nil dispatcher or one without a store. *)
Definition DispatchOnce (d : option (Dispatcher W)) (limit : Z) (w : W)
    : DispatchResult * option error * W :=
  match d with
  | None => (DispatchResultZero, Some (Errorf "dispatcher is not configured" []), w)
  | Some d =>
      let '(now, w) := st_now w in
      match st_Lease (owner d) limit now (leaseDuration d) w with
      | (Err e, w) => (DispatchResultZero, Some e, w)
      | (Ok leased, w) =>
          dispatch_loop d now leased (mkDispatchResult (Z.of_nat (length leased)) 0 0 0 0) None w
      end
  end.
End dispatch.

(** ** The backoff is the capped power of two *)
Lemma backoff_loop_spec n b :
  (0 < b)%Z →
  Z.min (backoff_loop n b) maxBackoff = Z.min (b * 2 ^ Z.of_nat n) maxBackoff.
Proof.
  revert b. induction n as [|n IH]; intros b Hb; [simpl; f_equal; lia|].
  cbn [backoff_loop]. rewrite Nat2Z.inj_succ, Z.pow_succ_r by lia.
  assert (0 < 2 ^ Z.of_nat n)%Z by (apply Z.pow_pos_nonneg; lia).
  destruct (Z.ltb_spec b maxBackoff) as [Hlt|Hge].
  - assert (mul64 b 2 = b * 2)%Z as ->.
    { apply wrap64_id. unfold in_int64, maxBackoff, Minute, int_min, int_max in *. lia. }
    rewrite IH by lia. f_equal. lia.
  - rewrite !Z.min_r by nia. done.
Qed.

(** Retry backoff: the delay before the next delivery attempt is the base
    backoff doubled for every attempt already made, capped at five minutes; it
    is always positive and at most the cap, and the doubling never overflows a
    64-bit duration, however many attempts there were. *)
Theorem backoff_correct {W} (d : Dispatcher W) attempt :
  (0 < baseBackoff d)%Z →
  backoff d attempt = Z.min (baseBackoff d * 2 ^ (Z.max attempt 1 - 1)) (5 * Minute)
  ∧ (0 < backoff d attempt ≤ 5 * Minute)%Z.
Proof.
  intros Hb. unfold backoff.
  replace (if (attempt <? 1)%Z then 1%Z else attempt) with (Z.max attempt 1)
    by (destruct (Z.ltb_spec attempt 1); lia).
  pose proof (backoff_loop_spec (Z.to_nat (Z.max attempt 1 - 1)) _ Hb) as Hs.
  rewrite Z2Nat.id in Hs by lia. fold maxBackoff.
  set (l := backoff_loop _ _) in *. set (x := (2 ^ (Z.max attempt 1 - 1))%Z) in *.
  assert (0 < x)%Z by (apply Z.pow_pos_nonneg; lia).
  assert ((if (maxBackoff <? l)%Z then maxBackoff else l) = Z.min l maxBackoff) as ->
    by (destruct (Z.ltb_spec maxBackoff l); lia).
  rewrite Hs. split; [done|]. unfold maxBackoff, Minute in *. nia.
Qed.

Lemma backoff_correct_witness :
  backoff (mkDispatcher (W := unit) "d" 1%Z 5 (2 * Second)%Z ∅) 4 = (16 * Second)%Z
  ∧ (0 < backoff (mkDispatcher (W := unit) "d" 1%Z 5 (2 * Second)%Z ∅) 4 ≤ 5 * Minute)%Z.
Proof.
  split; [reflexivity|].
  apply (backoff_correct (mkDispatcher (W := unit) "d" 1%Z 5 (2 * Second)%Z ∅) 4). done.
Defined.

(** ** What a dispatcher does, as a trace *)
Inductive event : Type :=
| EvLease (r : result (list LeasedOutboxMessage))
| EvDeliver (adapter : string) (m : OutboxMessage) (r : option error)
| EvDelivered (id owner : string) (r : result unit)
| EvFail (id owner : string) (now next : Time) (max : Z) (reason : string) (r : result OutboxStatus).

(** The world with a log of the calls made on it. *)
Definition logged {W A} (ev : A → event) (op : W → A * W) (wl : W * list event) : A * (W * list event) :=
  let '(a, w) := op (fst wl) in (a, (w, snd wl ++ [ev a])).

#[export] Instance traced_store {W} `{Store W} : Store (W * list event) := {|
  st_Lease o limit now d := logged EvLease (st_Lease o limit now d);
  st_MarkDelivered id o at_ := logged (EvDelivered id o) (st_MarkDelivered id o at_);
  st_FailDelivery id o now next max reason :=
    logged (EvFail id o now next max reason) (st_FailDelivery id o now next max reason);
  st_now wl := let '(t, w) := st_now (fst wl) in (t, (w, snd wl))
|}.

(** An adapter is named by the destination it is registered for. *)
Definition traced_adapter {W} (name : string) (a : DeliveryAdapter W) : DeliveryAdapter (W * list event) :=
  λ m, logged (EvDeliver name m) (a m).

Definition traced {W} (d : Dispatcher W) : Dispatcher (W * list event) :=
  mkDispatcher (owner d) (leaseDuration d) (maxAttempts d) (baseBackoff d) 
    (map_imap (λ name a, Some (traced_adapter name a)) (adapters d)).

(** What became of one leased message. *)
Inductive fate : Type := FDelivered | FRetried | FDeadLetter | FUnrecorded | FUnroutable.

(** The calls made for one message, and the fate they record. *)
Inductive settles {W} (Error_text : error → string) (d : Dispatcher W) (now : Time) (m : OutboxMessage)
    : list event → fate → Prop :=
| settles_delivered :
    is_Some (adapters d !! Outbox_Destination m) →
    settles Error_text d now m
      [EvDeliver (Outbox_Destination m) m None; EvDelivered (Outbox_OutboxID m) (owner d) (Ok tt)] FDelivered
| settles_unacknowledged e :
    is_Some (adapters d !! Outbox_Destination m) →
    settles Error_text d now m
      [EvDeliver (Outbox_Destination m) m None; EvDelivered (Outbox_OutboxID m) (owner d) (Err e)] FUnrecorded
| settles_refused e r :
    is_Some (adapters d !! Outbox_Destination m) →
    settles Error_text d now m
      [EvDeliver (Outbox_Destination m) m (Some e);
       EvFail (Outbox_OutboxID m) (owner d) now (Add now (backoff d (Outbox_Attempts m))) (maxAttempts d)
         (Error_text e) r]
      (match r with Ok OutboxDeadLetter => FDeadLetter | Ok _ => FRetried | Err _ => FUnrecorded end)
| settles_unroutable r :
    adapters d !! Outbox_Destination m = None →
    settles Error_text d now m
      [EvFail (Outbox_OutboxID m) (owner d) now now (Outbox_Attempts m)
         (Error_text ErrDestinationNotConfigured) r]
      (match r with Ok OutboxDeadLetter => FDeadLetter | Ok _ => FUnroutable | Err _ => FUnrecorded end).

#[export] Instance fate_eq_dec : EqDecision fate.
Proof. solve_decision. Defined.

Definition count (f : fate) (fs : list fate) : Z := Z.of_nat (length (filter (λ x, x = f) fs)).

Definition tally (result : DispatchResult) (fs : list fate) : DispatchResult :=
  mkDispatchResult (Leased result) (Delivered result + count FDelivered fs)
    (Retried result + count FRetried fs) (DeadLetter result + count FDeadLetter fs)
    (Failed result + count FUnrecorded fs).

Lemma count_cons f x fs : count f (x :: fs) = ((if decide (x = f) then 1 else 0) + count f fs)%Z.
Proof. unfold count. rewrite filter_cons. destruct (decide (x = f)); simpl length; lia. Qed.

Lemma count_nil f : count f [] = 0%Z.
Proof. done. Qed.

Lemma tally_nil r : tally r [] = r.
Proof. destruct r. unfold tally, count. simpl. f_equal; lia. Qed.

Lemma tally_cons r f fs : tally (tally r [f]) fs = tally r (f :: fs).
Proof. unfold tally. simpl. rewrite !count_cons, !count_nil. f_equal; lia. Qed.

Lemma tally_one r f :
  tally r [f] = match f with
                | FDelivered => incDelivered r | FRetried => incRetried r | FDeadLetter => incDeadLetter r
                | FUnrecorded => incFailed r | FUnroutable => r
                end.
Proof. destruct r, f; unfold tally, count; simpl; unfold incDelivered, incRetried, incDeadLetter, incFailed;
  simpl; f_equal; lia. Qed.

Section traces.
Context {W : Type} `{Store W} (Error_text : error → string).

(** One message: its calls, and the tally they add. *)
Lemma dispatch_step (d : Dispatcher W) now item items result joined w log :
  ∃ evs f joined' w', settles Error_text d now (Leased_Message item) evs f
    ∧ (joined' = None ↔ joined = None ∧ f ≠ FUnrecorded ∧ is_Some (adapters d !! Outbox_Destination (Leased_Message item)))
    ∧ dispatch_loop Error_text (traced d) now (item :: items) result joined (w, log) =
      dispatch_loop Error_text (traced d) now items (tally result [f]) joined' (w', log ++ evs).
Proof.
  assert (∀ e, joinErr joined e ≠ None) as Hj by (intros e; unfold joinErr, errors_Join; by destruct joined).
  cbn [dispatch_loop]. unfold traced at 1. cbn [adapters]. rewrite map_lookup_imap.
  set (m := Leased_Message item). destruct (adapters d !! Outbox_Destination m) as [a|] eqn:Ha; simpl.
  - unfold traced_adapter, logged. simpl. destruct (a m w) as [[e|] w1]; simpl.
    + destruct (st_FailDelivery _ _ _ _ _ _ w1) as [r w2] eqn:Hf. simpl.
      eexists _, _, (match r with Ok _ => joined | Err e' => joinErr joined e' end), w2.
      split; [apply (settles_refused _ _ _ _ e r); rewrite Ha; eauto|].
      rewrite <- app_assoc. destruct r as [status|e']; simpl; rewrite tally_one.
      * split; [|by destruct status]. destruct status; naive_solver eauto.
      * split; [|done]. naive_solver.
    + destruct (st_now w1) as [t w2]. simpl. destruct (st_MarkDelivered _ _ _ w2) as [[[]|e] w3]; simpl.
      * eexists _, FDelivered, joined, w3. rewrite tally_one, <- app_assoc.
        split; [apply settles_delivered; rewrite Ha; eauto|]. naive_solver eauto.
      * eexists _, FUnrecorded, (joinErr joined e), w3. rewrite tally_one, <- app_assoc.
        split; [apply settles_unacknowledged; rewrite Ha; eauto|]. naive_solver.
  - unfold logged. simpl. destruct (st_FailDelivery _ _ _ _ _ _ w) as [r w1] eqn:Hf. simpl.
    destruct r as [status|e']; simpl.
    + eexists _, _, _, w1. split; [by apply (settles_unroutable _ _ _ _ (Ok status))|].
      rewrite tally_one. split; [|by destruct status]. naive_solver.
    + eexists _, _, _, w1. split; [by apply (settles_unroutable _ _ _ _ (Err e'))|].
      rewrite tally_one. split; [|done]. naive_solver.
Qed.

(** Every leased message is settled, in order, by its own calls and nothing else. *)
Lemma dispatch_loop_settles (d : Dispatcher W) now items result joined w log :
  let '(result', joined', (_, log')) := dispatch_loop Error_text (traced d) now items result joined (w, log) in
  ∃ parts, log' = log ++ concat (parts.*1) ∧ result' = tally result parts.*2
    ∧ Forall2 (λ item part, settles Error_text d now (Leased_Message item) part.1 part.2) items parts
    ∧ (joined' = None ↔ joined = None ∧ (FUnrecorded ∉ parts.*2)
         ∧ Forall (λ item, is_Some (adapters d !! Outbox_Destination (Leased_Message item))) items).
Proof.
  revert result joined w log. induction items as [|item items IH]; intros result joined w log.
  { simpl. exists []. simpl. rewrite app_nil_r, tally_nil. split_and!; [done|done|constructor|].
    split; [|tauto]. intros ->. split_and!; [done|set_solver|constructor]. }
  destruct (dispatch_step d now item items result joined w log) as (evs & f & j' & w' & Hs & Hj & ->).
  specialize (IH (tally result [f]) j' w' (log ++ evs)).
  destruct (dispatch_loop _ _ _ _ _ _ _) as [[r' j''] [w'' log']].
  destruct IH as (parts & -> & -> & Hp & Hn). exists ((evs, f) :: parts). simpl.
  rewrite <- app_assoc, tally_cons. split_and!; [done|done|by constructor|].
  rewrite Hn, Hj, Forall_cons, not_elem_of_cons. naive_solver.
Qed.
End traces.

Lemma DispatchOnce_trace {W} `{Store W} Error_text (d : Dispatcher W) limit w :
  let '(result, err, (_, log)) := DispatchOnce Error_text (Some (traced d)) limit (w, []) in
  (∃ e, log = [EvLease (Err e)] ∧ result = DispatchResultZero ∧ err = Some e)
  ∨ ∃ now items parts,
      now = fst (st_now w) ∧ fst (st_Lease (owner d) limit now (leaseDuration d) (snd (st_now w))) = Ok items
      ∧ log = EvLease (Ok items) :: concat (parts.*1)
      ∧ Forall2 (λ item part, settles Error_text d now (Leased_Message item) part.1 part.2) items parts
      ∧ result = mkDispatchResult (Z.of_nat (length items)) (count FDelivered parts.*2)
                   (count FRetried parts.*2) (count FDeadLetter parts.*2) (count FUnrecorded parts.*2)
      ∧ (err = None ↔ (FUnrecorded ∉ parts.*2)
           ∧ Forall (λ item, is_Some (adapters d !! Outbox_Destination (Leased_Message item))) items).
Proof.
  unfold DispatchOnce. cbn [st_now traced_store fst snd]. destruct (st_now w) as [now w1]. cbn [fst snd].
  cbn [st_Lease traced_store owner traced leaseDuration]. unfold logged. cbn [fst snd].
  destruct (st_Lease (owner d) limit now (leaseDuration d) w1) as [[items|e] w2] eqn:Hl0; simpl; [|eauto].
  pose proof (dispatch_loop_settles Error_text d now items
    (mkDispatchResult (Z.of_nat (length items)) 0 0 0 0) None w2 [EvLease (Ok items)]) as Hl.
  destruct (dispatch_loop _ _ _ _ _ _ _) as [[r j] [w3 log]].
  destruct Hl as (parts & -> & -> & Hp & Hn). right. exists now, items, parts.
  rewrite Hl0. split_and!; [done|done|done|done|done|]. rewrite Hn. tauto.
Qed.

(** Dispatching: in one [DispatchOnce] over any store, any adapters and any
    clock, every leased message is settled exactly once and in order, by its
    own calls and no others: an accepted message is acknowledged, a refused one
    is reported failed with the backoff of its attempt count, one without an
    adapter is reported with its own attempt count as the limit; so a message
    is acknowledged only after its adapter accepted it.  The counters are
    exactly the numbers of messages that met each fate, and the returned error
    is nil exactly when every message had an adapter and every outcome was
    recorded. *)
Theorem DispatchOnce_settles {W} `{Store W} Error_text (d : Dispatcher W) limit w :
  let '(result, err, (_, log)) := DispatchOnce Error_text (Some (traced d)) limit (w, []) in
  (∃ e, log = [EvLease (Err e)] ∧ result = DispatchResultZero ∧ err = Some e)
  ∨ ∃ now items parts,
      log = EvLease (Ok items) :: concat (parts.*1)
      ∧ Forall2 (λ item part, settles Error_text d now (Leased_Message item) part.1 part.2) items parts
      ∧ result = mkDispatchResult (Z.of_nat (length items)) (count FDelivered parts.*2)
                   (count FRetried parts.*2) (count FDeadLetter parts.*2) (count FUnrecorded parts.*2)
      ∧ (err = None ↔ (FUnrecorded ∉ parts.*2)
           ∧ Forall (λ item, is_Some (adapters d !! Outbox_Destination (Leased_Message item))) items).
Proof.
  pose proof (DispatchOnce_trace Error_text d limit w) as Hs. destruct (DispatchOnce _ _ _ _) as [[result err] [w' log]].
  destruct Hs as [?|(now & items & parts & _ & _ & Hs)]; [by left|right]. by exists now, items, parts.
Qed.

(** ** The dispatcher over the table *)

(** A property kept by every store call and every adapter is kept by a dispatch. *)
Section preserved.
Context {W : Type} `{Store W} (Error_text : error → string) (d : Dispatcher W) (P : W → Prop).
Hypothesis now_P : ∀ w, P w → P (snd (st_now w)).
Hypothesis Lease_P : ∀ o limit now dur w, P w → P (snd (st_Lease o limit now dur w)).
Hypothesis Mark_P : ∀ id o at_ w, P w → P (snd (st_MarkDelivered id o at_ w)).
Hypothesis Fail_P : ∀ id o now next max reason w, P w → P (snd (st_FailDelivery id o now next max reason w)).
Hypothesis adapter_P : ∀ dest a m w, adapters d !! dest = Some a → P w → P (snd (a m w)).

Lemma dispatch_loop_preserves now items result joined w :
  P w → P (snd (dispatch_loop Error_text d now items result joined w)).
Proof.
  revert result joined w. induction items as [|item items IH]; intros result joined w Hw; simpl; [done|].
  destruct (adapters d !! _) as [a|] eqn:Ha.
  - pose proof (adapter_P _ a (Leased_Message item) w Ha Hw) as H1.
    destruct (a _ w) as [[e|] w1]; simpl in H1.
    + match goal with |- context [st_FailDelivery ?i ?o ?n ?x ?m ?r w1] =>
        pose proof (Fail_P i o n x m r w1 H1) as H2; destruct (st_FailDelivery i o n x m r w1) as [[st|e'] w2] end;
      by apply IH.
    + pose proof (now_P w1 H1) as H2. destruct (st_now w1) as [t w2]. simpl in H2.
      match goal with |- context [st_MarkDelivered ?i ?o ?t w2] =>
        pose proof (Mark_P i o t w2 H2) as H3; destruct (st_MarkDelivered i o t w2) as [[[]|e'] w3] end;
      by apply IH.
  - match goal with |- context [st_FailDelivery ?i ?o ?n ?x ?m ?r w] =>
      pose proof (Fail_P i o n x m r w Hw) as H2; destruct (st_FailDelivery i o n x m r w) as [[st|e'] w2] end;
    by apply IH.
Qed.

Lemma DispatchOnce_preserves limit w : P w → P (snd (DispatchOnce Error_text (Some d) limit w)).
Proof.
  intros Hw. simpl. pose proof (now_P w Hw) as H1. destruct (st_now w) as [now w1]. simpl in H1.
  pose proof (Lease_P (owner d) limit now (leaseDuration d) w1 H1) as H2.
  destruct (st_Lease _ _ _ _ w1) as [[items|e] w2]; [|done]. by apply dispatch_loop_preserves.
Qed.
End preserved.

(** The world of a dispatcher over PostgreSQL: the table, and a count of the
    calls made so far, which selects the environment and the clock reading of
    the next one. *)
Record PgWorld : Type := mkPgWorld { pg_table : Table; pg_tick : nat }.

Section pg.
Variable pg_ts : Time → Time.
Variable envs : nat → OutboxEnv.
Variable clock : nat → Time.

Definition on_table {A} (op : OutboxEnv → Table → result A * Table) (w : PgWorld) : result A * PgWorld :=
  let '(r, t) := op (envs (pg_tick w)) (pg_table w) in (r, mkPgWorld t (S (pg_tick w))).

#[export] Instance pg_store : Store PgWorld := {|
  st_Lease o limit now d := on_table (λ env, OutboxStore.Lease pg_ts env o limit now d);
  st_MarkDelivered id o at_ := on_table (λ env, OutboxStore.MarkDelivered pg_ts env id o at_);
  st_FailDelivery id o now next max reason :=
    on_table (λ env, OutboxStore.FailDelivery pg_ts env id o now next max reason);
  st_now w := (clock (pg_tick w), mkPgWorld (pg_table w) (S (pg_tick w)))
|}.

Definition delivered (db : Table) (id : string) : Prop :=
  ∃ row, db !! id = Some row ∧ Outbox_Status (o_message row) = OutboxDelivered.

(** Every message delivered since [db] has an acknowledgement in the log. *)
Definition acknowledged (db : Table) (wl : PgWorld * list event) : Prop :=
  ∀ id, delivered (pg_table (fst wl)) id → delivered db id ∨ ∃ o r, EvDelivered id o r ∈ snd wl.

(** A store call delivers no message but the one it acknowledges. *)
Lemma run_call_delivered env c db id :
  delivered (run_call pg_ts env c db) id → delivered db id ∨ acknowledges id c.
Proof.
  intros (row' & Hrow' & Hs). pose proof (run_call_rows pg_ts env c db id) as Hc.
  destruct (db !! id) as [row|] eqn:E; [|congruence].
  destruct Hc as (row1 & H1 & [Hsame|(_ & _ & Hack & _)]); [left|right; apply Hack; congruence].
  exists row. split; [done|]. congruence.
Qed.

Lemma logged_acknowledged {A} db (ev : result A → event) (op : OutboxEnv → Table → result A * Table) c wl :
  (∀ env t, snd (op env t) = run_call pg_ts env c t) →
  (∀ id r, acknowledges id c → ∃ o r', ev r = EvDelivered id o r') →
  acknowledged db wl → acknowledged db (snd (logged ev (on_table op) wl)).
Proof.
  intros Hop Hev Hack id. destruct wl as [w log]. unfold logged, on_table. simpl.
  pose proof (Hop (envs (pg_tick w)) (pg_table w)) as Hx. destruct (op _ _) as [r t]. simpl in *. subst t.
  intros [Hd|Hd]%run_call_delivered.
  - destruct (Hack id Hd) as [?|(o & r' & Hin)]; [by left|]. right. exists o, r'. set_solver.
  - destruct (Hev id r Hd) as (o & r' & ->). right. exists o, r'. set_solver.
Qed.

Lemma DispatchOnce_acknowledged Error_text (d : Dispatcher PgWorld) limit w :
  (∀ dest a m w, adapters d !! dest = Some a → pg_table (snd (a m w)) = pg_table w) →
  acknowledged (pg_table w) (snd (DispatchOnce Error_text (Some (traced d)) limit (w, []))).
Proof.
  intros Had. apply DispatchOnce_preserves.
  - intros [w0 log] H0. done.
  - intros o lim now dur wl. apply (logged_acknowledged _ _ _ (CallLease o lim now dur)); done.
  - intros id o at_ wl. apply (logged_acknowledged _ _ _ (CallDelivered id o at_)); [done|].
    intros id' r ->. eauto.
  - intros id o now next max reason wl.
    apply (logged_acknowledged _ _ _ (CallFail id o now next max reason)); done.
  - intros dest a m [w0 log] Ha H0 id. unfold traced in Ha. simpl in Ha. rewrite map_lookup_imap in Ha.
    destruct (adapters d !! dest) as [a0|] eqn:E; simplify_eq/=.
    unfold traced_adapter, logged. simpl. pose proof (Had dest a0 m w0 E) as Ht.
    destruct (a0 m w0) as [r w1]. simpl in *. rewrite Ht. intros Hd.
    destruct (H0 id Hd) as [?|(o & r' & Hin)]; [by left|]. right. exists o, r'. set_solver.
  - intros id Hd. by left.
Qed.

(** An acknowledgement in the trace follows an accepted delivery. *)
Lemma acknowledged_accepted {W} Error_text (d : Dispatcher W) now items parts id o r :
  Forall2 (λ item part, settles Error_text d now (Leased_Message item) part.1 part.2) items parts →
  EvDelivered id o r ∈ concat (parts.*1) →
  ∃ item l1 l2, item ∈ items ∧ Outbox_OutboxID (Leased_Message item) = id
    ∧ is_Some (adapters d !! Outbox_Destination (Leased_Message item)) ∧ o = owner d
    ∧ concat (parts.*1) = l1 ++ [EvDeliver (Outbox_Destination (Leased_Message item)) (Leased_Message item) None;
                                 EvDelivered id o r] ++ l2.
Proof.
  induction 1 as [|item part items parts Hs _ IH]; simpl; [by intros ?%not_elem_of_nil|].
  rewrite elem_of_app. intros [Hin|Hin].
  - exists item, [], (concat parts.*1). destruct Hs; rewrite ?elem_of_cons, ?elem_of_nil in Hin; destruct_or! Hin; try done;
      simplify_eq; split_and!; try done; apply list_elem_of_here.
  - destruct (IH Hin) as (it & l1 & l2 & ? & ? & ? & ? & Hc). exists it, (part.1 ++ l1), l2.
    split; [by apply list_elem_of_further|]. do 3 (split; [done|]). etransitivity; [exact (f_equal (app part.1) Hc)|]. by rewrite <- app_assoc.
Qed.

(** A row that may be leased is pending and due, or its lease has expired. *)
Lemma leasable_due now row :
  leasable now row = true →
  Outbox_Status (o_message row) = OutboxPending ∧ (Outbox_AvailableAt (o_message row) ≤ now)%Z
  ∨ Outbox_Status (o_message row) = OutboxDelivering ∧ ∃ t, o_lease_expires_at row = Some t ∧ (t ≤ now)%Z.
Proof.
  unfold leasable. destruct (Outbox_Status _); try done; [intros ?%Z.leb_le; by left|].
  destruct (o_lease_expires_at row) as [t|]; [|done]. intros ?%Z.leb_le. right. eauto.
Qed.

(** What the first step of a dispatch hands out: the row, due, with one more attempt. *)
Lemma leased_row (d : Dispatcher PgWorld) limit w now items item :
  (∀ n ids, oe_returning (envs n) ids ≡ₚ ids) → table_ok (pg_table w) → now = fst (st_now w) →
  fst (st_Lease (owner d) limit now (leaseDuration d) (snd (st_now w))) = Ok items → item ∈ items →
  let m := Leased_Message item in
  ∃ row, pg_table w !! Outbox_OutboxID m = Some row ∧ leasable (pg_ts (clock (pg_tick w))) row = true
    ∧ Outbox_OutboxID (o_message row) = Outbox_OutboxID m
    ∧ m = o_message (set_leased (TrimSpace (owner d)) (pg_ts (Add now (leaseDuration d))) row).
Proof.
  intros Hret Hok -> Hl Hi. cbn [st_now st_Lease pg_store fst snd] in Hl. unfold on_table in Hl. cbn [pg_table pg_tick] in Hl.
  destruct (Lease _ _ _ _ _ _ _) as [res db'] eqn:E. simpl in Hl. subst res.
  destruct (Lease_correct _ _ _ _ _ _ _ _ _ E (Hret _) Hok) as (p & _ & _ & _ & Hf & _).
  rewrite Forall_forall in Hf. destruct (Hf item Hi) as (row & Hrow & _ & Hle & _ & Hm & _).
  exists row. split_and!; [done|done|by apply Hok in Hrow as [? _]|done].
Qed.

(** C39. No false acknowledgement: when a dispatcher runs over an outbox table whose
    rows are kept under their [outbox_id] and satisfy its CHECK constraints,
    with any faults, commit outcomes and clock, an UPDATE that returns the rows it
    changed in any order, and adapters that leave the table alone, every message
    that is delivered afterwards and was not before was in the table, pending and
    due or with a lease that had expired; it was handed in that run to the adapter
    registered for its destination with the id, tenant, project, task, aggregate,
    event type, payload, destination, idempotency key, times and one more attempt
    than the table held; that adapter accepted it, and the acknowledgement by this
    dispatcher came directly after. *)
Theorem delivered_was_accepted Error_text (d : Dispatcher PgWorld) limit w :
  (∀ dest a m w, adapters d !! dest = Some a → pg_table (snd (a m w)) = pg_table w) →
  (∀ n ids, oe_returning (envs n) ids ≡ₚ ids) → table_ok (pg_table w) →
  let '(_, _, (w', log)) := DispatchOnce Error_text (Some (traced d)) limit (w, []) in
  ∀ id, delivered (pg_table w') id → ¬ delivered (pg_table w) id →
  ∃ row m, pg_table w !! id = Some row
    ∧ (let now := pg_ts (clock (pg_tick w)) in
       Outbox_Status (o_message row) = OutboxPending ∧ (Outbox_AvailableAt (o_message row) ≤ now)%Z
       ∨ Outbox_Status (o_message row) = OutboxDelivering ∧ ∃ t, o_lease_expires_at row = Some t ∧ (t ≤ now)%Z)
    ∧ m = mkOutboxMessage id (Outbox_TenantID (o_message row)) (Outbox_ProjectID (o_message row))
            (Outbox_TaskID (o_message row)) (Outbox_AggregateType (o_message row)) (Outbox_AggregateID (o_message row))
            (Outbox_EventType (o_message row)) (Outbox_Payload (o_message row)) (Outbox_Destination (o_message row))
            (Outbox_IdempotencyKey (o_message row)) OutboxDelivering (Outbox_Attempts (o_message row) + 1)
            (Outbox_AvailableAt (o_message row)) (Outbox_CreatedAt (o_message row)) (Outbox_DeliveredAt (o_message row))
    ∧ is_Some (adapters d !! Outbox_Destination (o_message row))
    ∧ ∃ before after r,
        log = before ++ [EvDeliver (Outbox_Destination (o_message row)) m None; EvDelivered id (owner d) r] ++ after.
Proof.
  intros Had Hret Hok. pose proof (DispatchOnce_trace Error_text d limit w) as Hs.
  pose proof (DispatchOnce_acknowledged Error_text d limit w Had) as Hk.
  destruct (DispatchOnce _ _ _ _) as [[result err] [w' log]]. simpl in Hk.
  intros id Hd Hnd. destruct (Hk id Hd) as [?|(o & r & Hin)]; [done|].
  destruct Hs as [(e & -> & _)|(now & items & parts & Hnow & Hitems & -> & Hp & _)]; [set_solver|].
  apply elem_of_cons in Hin as [?|Hin]; [done|].
  destruct (acknowledged_accepted _ _ _ _ _ _ _ _ Hp Hin) as (item & l1 & l2 & Hi & <- & Ha & -> & ->).
  destruct (leased_row d limit w now items item Hret Hok Hnow Hitems Hi) as (row & Hrow & Hdue & Hid & Hm).
  assert (Outbox_Destination (Leased_Message item) = Outbox_Destination (o_message row)) as Hdest by by rewrite Hm.
  rewrite Hdest in Ha |- *. exists row, (Leased_Message item). split; [done|]. split; [by apply leasable_due|].
  split; [|split; [done|]].
  - rewrite Hm at 1. rewrite <- Hid. done.
  - by exists (EvLease (Ok items) :: l1), l2, r.
Qed.
End pg.

(** ** A concrete dispatch: one adapter accepts, one destination has none *)
Definition sample_dispatcher : Dispatcher PgWorld :=
  mkDispatcher "d1" 30%Z 3 (2 * Second)%Z {[ "hook" := λ _ w, (None, w) ]}.
Definition sample_world : PgWorld := mkPgWorld sample_table 0.
Definition sample_text (e : error) : string := match e with Sentinel _ t => t | _ => "error" end.
Definition sample_dispatch : DispatchResult * option error * (PgWorld * list event) :=
  @DispatchOnce _ (@traced_store _ (pg_store (λ t, t) (λ _, sample_env) (λ _, 100%Z))) sample_text
    (Some (traced sample_dispatcher)) 5 (sample_world, []).

Lemma delivered_was_accepted_witness :
  fst (fst sample_dispatch) = mkDispatchResult 2 1 0 1 0
  ∧ ∃ before after r,
      snd (snd sample_dispatch)
      = before ++ [EvDeliver "hook" (mkOutboxMessage "m1" "acme" "ops" "t1" "task" "t1" "TaskCompleted" "{}" "hook" "m1"
                                       OutboxDelivering 1 50%Z 10%Z None) None;
                   EvDelivered "m1" "d1" r] ++ after.
Proof.
  split; [vm_compute; reflexivity|].
  assert (delivered (pg_table (fst (snd sample_dispatch))) "m1") as Hd.
  { unfold delivered. destruct (pg_table (fst (snd sample_dispatch)) !! "m1") as [row|] eqn:E;
      vm_compute in E; [|discriminate]. injection E as <-. eexists. split; reflexivity. }
  assert (¬ delivered (pg_table sample_world) "m1") as Hn.
  { intros (row & Hrow & Hs). vm_compute in Hrow. injection Hrow as <-. discriminate. }
  pose proof (delivered_was_accepted (λ t, t) (λ _, sample_env) (λ _, 100%Z) sample_text sample_dispatcher
    5 sample_world) as Hw.
  unfold sample_dispatch in *. destruct (DispatchOnce _ _ _ _) as [[r e] [w' log]].
  destruct (Hw ltac:(intros dest a m w Ha; unfold sample_dispatcher in Ha; cbn [adapters] in Ha;
    apply lookup_singleton_Some in Ha as [_ <-]; reflexivity) ltac:(reflexivity) sample_table_ok "m1" Hd Hn)
    as (row & m & Hrow & _ & -> & _ & Hlog). vm_compute in Hrow. injection Hrow as <-. exact Hlog.
Defined.

End Outbox.
