(* ===== verification/RouteTypes.v ===== *)
(** * RouteTypes: routing decisions and cost events

    The rest of [src/internal/domain/types.go]: route classes, candidates and
    decisions, and cost events, shared by the router, the task command store,
    the model runtime and the cost ledger. *)
From S2P Require Import Prelude Domain.

Module RouteTypes.
Import Domain.

Inductive RouteClass : Type :=
| RouteDeterministic | RouteEfficient | RouteSpecialist | RouteFlagship | RouteClassOther (s : string).
Inductive CostComponent : Type :=
| CostModelInput | CostModelOutput | CostModelCache | CostServiceTier | CostTool | CostWorkflow
| CostSandbox | CostStorage | CostNetwork | CostRetry | CostEvaluation | CostHumanReview
| CostComponentOther (s : string).

#[export] Instance RouteClass_eq_dec : EqDecision RouteClass.
Proof. solve_decision. Defined.
#[export] Instance CostComponent_eq_dec : EqDecision CostComponent.
Proof. solve_decision. Defined.
#[export] Instance InferenceEffort_eq_dec : EqDecision InferenceEffort.
Proof. solve_decision. Defined.
#[export] Instance ServiceTier_eq_dec : EqDecision ServiceTier.
Proof. solve_decision. Defined.

Record RouteCandidate : Type := mkRouteCandidate {
  Candidate_ModelID : string;
  Candidate_ModelVersion : string;
  Candidate_DeploymentID : string;
  Candidate_RouteClass : RouteClass;
  Candidate_InferenceEffort : InferenceEffort;
  Candidate_ServiceTier : ServiceTier;
  Candidate_EstimatedCost : float64;
  Candidate_Score : float64;
  Candidate_RejectionReasons : list string
}.

Record RouteDecision : Type := mkRouteDecision {
  Decision_ID : string;
  Decision_TaskID : string;
  Decision_Selected : RouteCandidate;
  Decision_Candidates : list RouteCandidate;
  Decision_Reason : string;
  Decision_FallbackChain : list RouteCandidate;
  Decision_EvidenceVersion : string;
  Decision_PolicyVersion : string;
  Decision_CreatedAt : Time
}.

Record CostEvent : Type := mkCostEvent {
  Cost_ID : string;
  Cost_TaskID : string;
  Cost_TraceID : string;
  Cost_Component : CostComponent;
  Cost_Provider : string;
  Cost_ModelID : string;
  Cost_ModelVersion : string;
  Cost_DeploymentID : string;
  Cost_Quantity : float64;
  Cost_Unit : string;
  Cost_UnitPrice : float64;
  Cost_Amount : float64;
  Cost_Currency : string;
  Cost_Attempt : Z;
  Cost_Metadata : list (string * string);
  Cost_CreatedAt : Time
}.

(** [router.Request]. *)
Record RouteRequest : Type := mkRouteRequest {
  Req_TaskID : string;
  Req_RouteClass : RouteClass;
  Req_RequiredCapabilities : list string;
  Req_InferenceEffort : InferenceEffort;
  Req_ServiceTier : ServiceTier;
  Req_EstimatedInputTokens : Z;
  Req_EstimatedOutputTokens : Z;
  Req_Budget : float64;
  Req_Currency : string;
  Req_DataResidency : string;
  Req_EvidenceVersion : string;
  Req_PolicyVersion : string;
  Req_AllowDegraded : bool;
  Req_RequireFreshSignals : bool;
  Req_SignalMaxAge : Duration
}.

(** The zero values, where Go's enumerations are the empty string. *)
Definition RouteClassZero : RouteClass := RouteClassOther "".
Definition EffortZero : InferenceEffort := EffortOther "".
Definition TierZero : ServiceTier := TierOther "".
Definition RouteCandidateZero : RouteCandidate :=
  mkRouteCandidate "" "" "" RouteClassZero EffortZero TierZero f_zero f_zero [].

Definition RouteDecisionZero : RouteDecision := mkRouteDecision "" "" RouteCandidateZero [] "" [] "" "" 0%Z.

#[export] Instance RouteCandidate_eq_dec : EqDecision RouteCandidate.
Proof. solve_decision. Defined.

End RouteTypes.
