(* ===== verification/TaskSchema.v ===== *)
(** * TaskSchema: the tables of the task command kernel

    The tables [tasks], [task_events], [outbox_messages], [idempotency_records]
    and [route_decisions] of [src/db/migrations] 001, 002 and 005 to 008, with
    their keys, CHECK, UNIQUE and FOREIGN KEY constraints, and the statements
    the command store of [src/internal/repository] runs on them.

    The assumptions on PostgreSQL are those of [LeaseSchema]: transactions are
    atomic, row-level security confines a transaction to its tenant and
    project, constraints are checked on every write, and any statement, and
    any COMMIT, may fail.  Every command first inserts or locks its idempotency
    record and then locks its task ([FOR UPDATE]), so commands on one key and
    on one task are serial and each is one step.  [pg_ts] rounds a time to the
    resolution of TIMESTAMPTZ and [pg_jsonb] is what JSONB makes of a text (an
    error when it rejects it); both are parameters.  The trigger that copies
    pricing evidence of a route decision writes tables of its own; here it can
    only make the insertion fail. *)
From S2P Require Import Prelude Identity Domain RouteTypes LeaseSchema OutboxStore.

Module TaskSchema.
Import Domain RouteTypes LeaseSchema.

#[export] Instance IdempotencyStatus_eq_dec : EqDecision IdempotencyStatus.
Proof. solve_decision. Defined.

Definition ErrNotFound : error := Sentinel "repository.ErrNotFound" "resource not found".
Definition ErrVersionConflict : error := Sentinel "repository.ErrVersionConflict" "resource version conflict".

(** ** Rows; a row of [tasks], [task_events] and [outbox_messages] is the record
    its columns hold (a NULL text column reads as the empty string) *)
Abbreviation IdemKey := (string * string * (string * string))%type (only parsing).

Record IdemRow : Type := mkIdemRow {
  i_request_digest : string;
  i_status : IdempotencyStatus;
  i_resource_id : option string;
  i_response_code : option Z;
  i_response_digest : option string;
  i_response_payload : option string;  (** the text of the JSONB value *)
  i_created_at : Time;
  i_expires_at : Time
}.

Record RouteRow : Type := mkRouteRow {
  r_task_id : string;
  r_selected : string;
  r_candidates : string;
  r_reason : string;
  r_fallback_chain : string;
  r_evidence_version : string;
  r_policy_version : string;
  r_created_at : Time
}.

Record DB : Type := mkDB {
  tasks : gmap string Task;
  events : gmap string TaskEvent;
  outbox : gmap string OutboxStore.OutboxRow;
  idem : gmap IdemKey IdemRow;
  routes : gmap string RouteRow
}.

Definition emptyDB : DB := mkDB ∅ ∅ ∅ ∅ ∅.

Definition set_tasks (f : gmap string Task) (db : DB) : DB :=
  mkDB f (events db) (outbox db) (idem db) (routes db).
Definition set_events (f : gmap string TaskEvent) (db : DB) : DB :=
  mkDB (tasks db) f (outbox db) (idem db) (routes db).
Definition set_outbox (f : gmap string OutboxStore.OutboxRow) (db : DB) : DB :=
  mkDB (tasks db) (events db) f (idem db) (routes db).
Definition set_idem (f : gmap IdemKey IdemRow) (db : DB) : DB :=
  mkDB (tasks db) (events db) (outbox db) f (routes db).
Definition set_routes (f : gmap string RouteRow) (db : DB) : DB :=
  mkDB (tasks db) (events db) (outbox db) (idem db) f.

Definition key_of (r : IdempotencyRecord) : IdemKey :=
  (Idem_TenantID r, Idem_ProjectID r, (Idem_Operation r, Idem_Key r)).

(** ** Constraints *)

(** [tasks_version_positive_check], [tasks_status_contract_check], BIGINT. *)
Definition task_checks (t : Task) : bool :=
  (1 <=? Task_Version t)%Z && fits_int8 (Task_Version t)
  && match Task_Status t with TaskStatusOther _ => false | _ => true end.

(** The policies compare the row's tenant and project with the transaction's. *)
Definition in_scope (scope : ScopeKey) (tenant project : string) : bool :=
  (tenant ==? scope.1) && (project ==? scope.2).

Definition event_checks (e : TaskEvent) : bool :=
  (1 <=? Event_Sequence e)%Z && fits_int8 (Event_Sequence e)
  && (1 <=? Event_SchemaVersion e)%Z && fits_int4 (Event_SchemaVersion e).

(** [task_events_task_sequence_unique]. *)
Definition same_slot (e : TaskEvent) (kv : string * TaskEvent) : bool :=
  (Event_TaskID kv.2 ==? Event_TaskID e) && (Event_Sequence kv.2 =? Event_Sequence e)%Z.

(** [outbox_delivery_idempotency_unique]. *)
Definition same_delivery (m : OutboxMessage) (kv : string * OutboxStore.OutboxRow) : bool :=
  let m' := OutboxStore.o_message kv.2 in
  (Outbox_TenantID m' ==? Outbox_TenantID m) && (Outbox_ProjectID m' ==? Outbox_ProjectID m)
  && (Outbox_Destination m' ==? Outbox_Destination m)
  && (Outbox_IdempotencyKey m' ==? Outbox_IdempotencyKey m).

Definition idem_checks (r : IdemRow) : bool :=
  match i_status r with IdempotencyStatusOther _ => false | _ => true end
  && match i_response_code r with Some c => fits_int4 c | None => true end
  && (i_created_at r <? i_expires_at r)%Z.

(** ** The environment of a command: the transaction's, and [time.Now()] *)
Record TaskEnv : Type := mkTaskEnv { te_tx : TxEnv; te_now : Time }.

Section statements.
Variable pg_ts : Time → Time.
Variable pg_jsonb : string → result string.

Definition jsonb_param (label text : string) : result string :=
  match pg_jsonb text with
  | Ok t => Ok t
  | Err e => Err (Errorw (label +:+ ": %w") [] e)
  end.

(** [SELECT .. FROM tasks WHERE id=$1 [FOR UPDATE]]; [None] is [sql.ErrNoRows]. *)
Definition select_task (env : TaskEnv) (label : string) (scope : ScopeKey) (id : string) (db : DB)
    : result (option Task) :=
  _ ← exec_stmt (te_tx env) label;
  Ok (match tasks db !! id with
      | Some t => if in_scope scope (Task_TenantID t) (Task_ProjectID t) then Some t else None
      | None => None
      end).

(** The times of a task as the table holds them. *)
Definition stored_task (t : Task) : Task :=
  {| Task_ID := Task_ID t; Task_TenantID := Task_TenantID t; Task_ProjectID := Task_ProjectID t;
     Task_CreatedBy := Task_CreatedBy t; Task_AgentID := Task_AgentID t; Task_Input := Task_Input t;
     Task_Status := Task_Status t; Task_Version := Task_Version t; Task_Result := Task_Result t;
     Task_Cost := Task_Cost t; Task_EstimatedCost := Task_EstimatedCost t;
     Task_ActualCost := Task_ActualCost t; Task_Currency := Task_Currency t;
     Task_RouteDecisionID := Task_RouteDecisionID t; Task_TraceID := Task_TraceID t;
     Task_CreatedAt := pg_ts (Task_CreatedAt t); Task_UpdatedAt := pg_ts (Task_UpdatedAt t);
     Task_CompletedAt := pg_ts <$> Task_CompletedAt t |}.

Definition insert_task (env : TaskEnv) (label : string) (scope : ScopeKey) (t : Task) (db : DB)
    : result DB :=
  _ ← exec_stmt (te_tx env) label;
  if notNull (tasks db !! Task_ID t) || negb (task_checks t)
     || negb (in_scope scope (Task_TenantID t) (Task_ProjectID t))
  then Err (violation label)
  else Ok (set_tasks (<[Task_ID t := stored_task t]> (tasks db)) db).

(** [SET agent_id=.., .., completed_at=.., version=version+inc]: the columns the
    projection update writes; identity and creation time are not among them. *)
Definition projected (t : Task) (inc : Z) (row : Task) : Task :=
  {| Task_ID := Task_ID row; Task_TenantID := Task_TenantID row; Task_ProjectID := Task_ProjectID row;
     Task_CreatedBy := Task_CreatedBy row; Task_AgentID := Task_AgentID t; Task_Input := Task_Input t;
     Task_Status := Task_Status t; Task_Version := (Task_Version row + inc)%Z; Task_Result := Task_Result t;
     Task_Cost := Task_Cost t; Task_EstimatedCost := Task_EstimatedCost t;
     Task_ActualCost := Task_ActualCost t; Task_Currency := Task_Currency t;
     Task_RouteDecisionID := Task_RouteDecisionID t; Task_TraceID := Task_TraceID t;
     Task_CreatedAt := Task_CreatedAt row; Task_UpdatedAt := pg_ts (Task_UpdatedAt t);
     Task_CompletedAt := pg_ts <$> Task_CompletedAt t |}.

(** [UPDATE tasks SET .. WHERE id=.. AND cond RETURNING version]; [None] when no
    row was updated. *)
Definition update_task (env : TaskEnv) (label : string) (scope : ScopeKey) (id : string)
    (cond : Task → bool) (set : Task → Task) (db : DB) : result (option (Z * DB)) :=
  r ← select_task env label scope id db;
  match r with
  | None => Ok None
  | Some row =>
      if cond row then
        if task_checks (set row)
        then Ok (Some (Task_Version (set row), set_tasks (<[id := set row]> (tasks db)) db))
        else Err (violation label)
      else Ok None
  end.

(** The events of a task the transaction sees. *)
Definition task_events (scope : ScopeKey) (task : string) (db : DB) : list TaskEvent :=
  filter (λ e, in_scope scope (Event_TenantID e) (Event_ProjectID e) && (Event_TaskID e ==? task) = true)
    (map_to_list (events db)).*2.

(** [SELECT COALESCE(MAX(sequence), 0) + 1 FROM task_events WHERE task_id=$1]. *)
Definition next_sequence (env : TaskEnv) (label : string) (scope : ScopeKey) (task : string) (db : DB)
    : result Z :=
  _ ← exec_stmt (te_tx env) label;
  let next := (foldr Z.max 0 (Event_Sequence <$> task_events scope task db) + 1)%Z in
  if fits_int8 next then Ok next else Err (violation label).

Definition stored_event (payload : string) (e : TaskEvent) : TaskEvent :=
  {| Event_EventID := Event_EventID e; Event_TenantID := Event_TenantID e;
     Event_ProjectID := Event_ProjectID e; Event_TaskID := Event_TaskID e;
     Event_Sequence := Event_Sequence e; Event_EventType := Event_EventType e;
     Event_Actor := Event_Actor e; Event_Payload := payload; Event_RequestID := Event_RequestID e;
     Event_TraceID := Event_TraceID e; Event_SchemaVersion := Event_SchemaVersion e;
     Event_OccurredAt := pg_ts (Event_OccurredAt e); Event_CreatedAt := pg_ts (Event_CreatedAt e) |}.

(** [INSERT INTO task_events]; the foreign key sees tasks of every scope. *)
Definition insert_event (env : TaskEnv) (label : string) (scope : ScopeKey) (e : TaskEvent) (db : DB)
    : result DB :=
  _ ← exec_stmt (te_tx env) label;
  payload ← jsonb_param label (Event_Payload e);
  if notNull (events db !! Event_EventID e) || existsb (same_slot e) (map_to_list (events db))
     || negb (event_checks e) || isNull (tasks db !! Event_TaskID e)
     || negb (in_scope scope (Event_TenantID e) (Event_ProjectID e))
  then Err (violation label)
  else Ok (set_events (<[Event_EventID e := stored_event payload e]> (events db)) db).

Definition stored_message (payload : string) (m : OutboxMessage) : OutboxStore.OutboxRow :=
  {| OutboxStore.o_message :=
       {| Outbox_OutboxID := Outbox_OutboxID m; Outbox_TenantID := Outbox_TenantID m;
          Outbox_ProjectID := Outbox_ProjectID m; Outbox_TaskID := Outbox_TaskID m;
          Outbox_AggregateType := Outbox_AggregateType m; Outbox_AggregateID := Outbox_AggregateID m;
          Outbox_EventType := Outbox_EventType m; Outbox_Payload := payload;
          Outbox_Destination := Outbox_Destination m; Outbox_IdempotencyKey := Outbox_IdempotencyKey m;
          Outbox_Status := Outbox_Status m; Outbox_Attempts := Outbox_Attempts m;
          Outbox_AvailableAt := pg_ts (Outbox_AvailableAt m); Outbox_CreatedAt := pg_ts (Outbox_CreatedAt m);
          Outbox_DeliveredAt := pg_ts <$> Outbox_DeliveredAt m |};
     OutboxStore.o_lease_owner := None; OutboxStore.o_lease_expires_at := None;
     OutboxStore.o_last_error := None |}.

Definition insertOutboxMessage (env : TaskEnv) (scope : ScopeKey) (m : OutboxMessage) (db : DB)
    : result DB :=
  let label := "append outbox message" in
  _ ← exec_stmt (te_tx env) label;
  payload ← jsonb_param label (Outbox_Payload m);
  let row := stored_message payload m in
  if notNull (outbox db !! Outbox_OutboxID m) || existsb (same_delivery m) (map_to_list (outbox db))
     || negb (OutboxStore.outbox_checks row)
     || ((Outbox_TaskID m !=? "") && isNull (tasks db !! Outbox_TaskID m))
     || negb (in_scope scope (Outbox_TenantID m) (Outbox_ProjectID m))
  then Err (violation label)
  else Ok (set_outbox (<[Outbox_OutboxID m := row]> (outbox db)) db).

Definition insert_route (env : TaskEnv) (label : string) (id : string) (row : RouteRow) (db : DB)
    : result DB :=
  _ ← exec_stmt (te_tx env) label;
  if notNull (routes db !! id) then Err (violation label)
  else Ok (set_routes (<[id := row]> (routes db)) db).

End statements.

(** ** One command, one transaction *)

(** Begin, set the scope, run the body, commit; the body names the text its
    commit error is wrapped with. *)
Definition runTx {A} (env : TaskEnv) (begin_label scope_label : string)
    (body : DB → result (A * string * DB)) (db : DB) : result A * DB :=
  match env_begin (te_tx env) with
  | Some e => (Err (Errorw (begin_label +:+ ": %w") [] e), db)
  | None =>
      match exec_stmt (te_tx env) scope_label with
      | Err e => (Err e, db)
      | Ok _ =>
          match body db with
          | Err e => (Err e, db)
          | Ok (a, commit_label, db') =>
              match env_commit (te_tx env) with
              | Committed => (Ok a, db')
              | CommitFailed e => (Err (Errorw (commit_label +:+ ": %w") [] e), db)
              | CommitUnknown e => (Err (Errorw (commit_label +:+ ": %w") [] e), db')
              end
          end
      end
  end.

(** A transaction either leaves the database, with an error, or leaves what its
    body made of it; its value is returned only then. *)
Lemma runTx_cases {A} env bl sl (body : DB → result (A * string * DB)) db :
  (snd (runTx env bl sl body db) = db ∧ ∃ e, fst (runTx env bl sl body db) = Err e)
  ∨ ∃ a c db', body db = Ok (a, c, db') ∧ snd (runTx env bl sl body db) = db'
      ∧ (fst (runTx env bl sl body db) = Ok a ∨ ∃ e, fst (runTx env bl sl body db) = Err e).
Proof.
  unfold runTx. destruct (env_begin _); simpl; [eauto|]. destruct (exec_stmt _ _) as [u|]; simpl; [|eauto].
  destruct (body db) as [[[a c] db']|] eqn:E; simpl; [|eauto].
  destruct (env_commit _); simpl; [right|left|right]; eauto 10.
Qed.

(** ** Lemmas about statements *)

Lemma in_scope_true scope a b : in_scope scope a b = true ↔ scope = (a, b).
Proof.
  unfold in_scope. rewrite andb_true_iff, !bool_decide_eq_true. destruct scope; simpl.
  split; [intros [-> ->]|intros [= -> ->]]; done.
Qed.

Lemma select_task_Ok env label scope id db r :
  select_task env label scope id db = Ok r →
  match r with
  | Some t => tasks db !! id = Some t ∧ scope = (Task_TenantID t, Task_ProjectID t)
  | None => ∀ t, tasks db !! id = Some t → scope ≠ (Task_TenantID t, Task_ProjectID t)
  end.
Proof.
  unfold select_task. intros H. bind_inv H u Hu. simplify_eq.
  destruct (tasks db !! id) as [t|] eqn:E; [|done]. destruct (in_scope scope _ _) eqn:Hs.
  - apply in_scope_true in Hs. done.
  - intros t' [= <-] He. apply in_scope_true in He. congruence.
Qed.

Lemma update_task_Ok env label scope id cond set db v db' :
  update_task env label scope id cond set db = Ok (Some (v, db')) →
  ∃ row, tasks db !! id = Some row ∧ scope = (Task_TenantID row, Task_ProjectID row)
  ∧ cond row = true ∧ task_checks (set row) = true ∧ v = Task_Version (set row)
  ∧ db' = set_tasks (<[id := set row]> (tasks db)) db.
Proof.
  unfold update_task. intros H. bind_inv H r Hr. apply select_task_Ok in Hr.
  destruct r as [row|]; [|done]. destruct (cond row) eqn:?; [|done].
  destruct (task_checks _) eqn:?; [|done]. injection H as <- <-. exists row. naive_solver.
Qed.

Lemma insert_task_Ok pg_ts env label scope t db db' :
  insert_task pg_ts env label scope t db = Ok db' →
  tasks db !! Task_ID t = None ∧ task_checks t = true
  ∧ scope = (Task_TenantID t, Task_ProjectID t)
  ∧ db' = set_tasks (<[Task_ID t := stored_task pg_ts t]> (tasks db)) db.
Proof.
  unfold insert_task. intros H. bind_inv H u Hu. case_match eqn:E; [done|]. injection H as <-.
  go_props. split_and!; try done; [|by apply in_scope_true].
  unfold notNull, isNull in *. by destruct (_ !! _).
Qed.

Lemma same_slot_false e eid e' :
  same_slot e (eid, e') = false → Event_TaskID e' = Event_TaskID e → Event_Sequence e' ≠ Event_Sequence e.
Proof. unfold same_slot. simpl. intros H Ht Hs. go_props. destruct H as [H|H]; go_props; done. Qed.

Lemma insert_event_Ok pg_ts pg_jsonb env label scope e db db' :
  insert_event pg_ts pg_jsonb env label scope e db = Ok db' →
  ∃ payload, pg_jsonb (Event_Payload e) = Ok payload
  ∧ events db !! Event_EventID e = None ∧ event_checks e = true
  ∧ (∀ eid e', events db !! eid = Some e' → Event_TaskID e' = Event_TaskID e →
       Event_Sequence e' ≠ Event_Sequence e)
  ∧ (∃ t, tasks db !! Event_TaskID e = Some t)
  ∧ scope = (Event_TenantID e, Event_ProjectID e)
  ∧ db' = set_events (<[Event_EventID e := stored_event pg_ts payload e]> (events db)) db.
Proof.
  unfold insert_event, jsonb_param. intros H. bind_inv H u Hu. bind_inv H payload Hp.
  destruct (pg_jsonb (Event_Payload e)) as [payload'|] eqn:Hj; [|done]. injection Hp as <-.
  case_match eqn:E; [done|]. injection H as <-. go_props. exists payload'. split_and!; try done.
  - unfold notNull, isNull in *. by destruct (_ !! _).
  - intros eid e' He' Ht. apply (same_slot_false _ eid); [|done].
    match goal with Hx : existsb _ _ = false |- _ => rename Hx into Hex end.
    destruct (same_slot e (eid, e')) eqn:Hs; [|done].
    assert (existsb (same_slot e) (map_to_list (events db)) = true); [|congruence].
    apply existsb_exists. exists (eid, e'). split; [|done].
    by apply list_elem_of_In, elem_of_map_to_list.
  - destruct (tasks db !! Event_TaskID e); [eauto|done].
  - by apply in_scope_true.
Qed.

Lemma insertOutboxMessage_Ok pg_ts pg_jsonb env scope m db db' :
  insertOutboxMessage pg_ts pg_jsonb env scope m db = Ok db' →
  ∃ payload, pg_jsonb (Outbox_Payload m) = Ok payload
  ∧ outbox db !! Outbox_OutboxID m = None
  ∧ OutboxStore.outbox_checks (stored_message pg_ts payload m) = true
  ∧ scope = (Outbox_TenantID m, Outbox_ProjectID m)
  ∧ db' = set_outbox (<[Outbox_OutboxID m := stored_message pg_ts payload m]> (outbox db)) db.
Proof.
  unfold insertOutboxMessage, jsonb_param. intros H. bind_inv H u Hu. bind_inv H payload Hp.
  destruct (pg_jsonb (Outbox_Payload m)) as [payload'|] eqn:Hj; [|done]. injection Hp as <-.
  case_match eqn:E; [done|]. injection H as <-. repeat (apply orb_false_iff in E as [E ?]).
  go_props. exists payload'. split_and!; try done.
  - unfold notNull, isNull in *. by destruct (_ !! _).
  - by apply in_scope_true.
Qed.

Lemma insert_route_Ok env label id row db db' :
  insert_route env label id row db = Ok db' →
  routes db !! id = None ∧ db' = set_routes (<[id := row]> (routes db)) db.
Proof.
  unfold insert_route. intros H. bind_inv H u Hu. unfold notNull, isNull in H.
  destruct (routes db !! id) eqn:E; [done|]. injection H as <-. done.
Qed.

(** The largest of a list of sequence numbers. *)
Lemma max_sequence_spec (l : list Z) :
  (0 ≤ foldr Z.max 0 l)%Z ∧ (∀ z, z ∈ l → (z ≤ foldr Z.max 0 l)%Z)
  ∧ (foldr Z.max 0%Z l = 0%Z ∨ foldr Z.max 0%Z l ∈ l).
Proof.
  induction l as [|x l (IH1 & IH2 & IH3)]; simpl; [split_and!; [lia|set_solver|by left]|].
  split_and!; [lia| |].
  - intros z [->|Hz]%elem_of_cons; [lia|]. specialize (IH2 z Hz). lia.
  - destruct (Z.max_spec x (foldr Z.max 0%Z l)) as [[? ->]|[? ->]]; [|right; set_solver].
    destruct IH3 as [->|?]; [by left|right; set_solver].
Qed.

Lemma next_sequence_Ok env label scope task db n :
  next_sequence env label scope task db = Ok n →
  (1 ≤ n)%Z ∧ (∀ e, e ∈ task_events scope task db → (Event_Sequence e < n)%Z)
  ∧ (n = 1%Z ∨ ∃ e, e ∈ task_events scope task db ∧ Event_Sequence e = (n - 1)%Z).
Proof.
  unfold next_sequence. intros H. bind_inv H u Hu. case_match; [|done]. injection H as <-.
  pose proof (max_sequence_spec (Event_Sequence <$> task_events scope task db)) as (H1 & H2 & H3).
  split_and!; [lia| |].
  - intros e He. assert (Event_Sequence e ∈ Event_Sequence <$> task_events scope task db) as Hin
      by (apply list_elem_of_fmap; eauto). apply H2 in Hin. lia.
  - destruct H3 as [->|Hin]; [by left|right]. apply list_elem_of_fmap in Hin as (e & He & Hin).
    exists e. split; [done|]. lia.
Qed.

Lemma elem_of_task_events scope task db e :
  e ∈ task_events scope task db ↔
  ∃ eid, events db !! eid = Some e ∧ scope = (Event_TenantID e, Event_ProjectID e) ∧ Event_TaskID e = task.
Proof.
  unfold task_events. rewrite list_elem_of_filter, andb_true_iff, in_scope_true, bool_decide_eq_true.
  rewrite list_elem_of_fmap. split.
  - intros ((? & ?) & [eid e'] & -> & Hin%elem_of_map_to_list). eauto.
  - intros (eid & He & Hs & Ht). split; [done|]. exists (eid, e). by rewrite elem_of_map_to_list.
Qed.

End TaskSchema.
