(* ===== verification/TaskStore.v ===== *)
(** * TaskStore: the task command kernel

    [ScopedPostgresTaskCommands] of [src/internal/repository]: one SQL
    transaction per command, holding the task's projection, its event, the
    outbox messages and the command's idempotency record
    ([postgres_task_commands.go], [postgres_task_creates.go],
    [postgres_route_commands.go], [postgres_route_selection.go],
    [postgres_model_execution_commands.go], [postgres_idempotency_lookup.go]).

    What [encoding/json] writes for routing results is a parameter ([Codec]):
    the store only keeps the text and hands it back.  [loadIdempotency] and
    [loadIdempotencyForUpdate] are one query, with and without the lock. *)
From S2P Require Import Prelude Identity Domain RouteTypes ExecTypes LeaseSchema OutboxStore TaskSchema.

Module TaskStore.
Import Domain RouteTypes LeaseSchema TaskSchema.

Definition ErrIdempotencyConflict : error :=
  Sentinel "ErrIdempotencyConflict" "idempotency key conflicts with a different request".
Definition ErrIdempotencyInProgress : error :=
  Sentinel "ErrIdempotencyInProgress" "idempotent command is already in progress".

Record TaskCommandCommit : Type := mkTaskCommandCommit {
  Commit_Task : Task;
  Commit_Transition : TaskTransition;
  Commit_Event : TaskEvent;
  Commit_Outbox : list OutboxMessage;
  Commit_Idempotency : IdempotencyRecord
}.

Record TaskCommandCommitResult : Type := mkTaskCommandCommitResult {
  Result_Task : option Task;
  Result_Event : option TaskEvent;
  Result_Outbox : list OutboxMessage;
  Result_Idempotency : IdempotencyRecord;
  Result_Replayed : bool
}.

Record TaskCreateCommit : Type := mkTaskCreateCommit {
  Create_Task : Task;
  Create_Event : TaskEvent;
  Create_Outbox : list OutboxMessage;
  Create_Idempotency : IdempotencyRecord
}.

Record RouteTaskCommandCommit : Type := mkRouteTaskCommandCommit {
  Route_Task : Task;
  Route_Transition : TaskTransition;
  Route_Decision : RouteDecision;
  Route_Event : TaskEvent;
  Route_Outbox : list OutboxMessage;
  Route_Idempotency : IdempotencyRecord
}.

Record RouteTaskCommandResult : Type := mkRouteTaskCommandResult {
  RouteResult_Task : Task;
  RouteResult_Decision : RouteDecision;
  RouteResult_Event : option TaskEvent;
  RouteResult_Outbox : list OutboxMessage;
  RouteResult_Idempotency : IdempotencyRecord;
  RouteResult_Replayed : bool
}.

Record ModelExecutionBeginCommit : Type := mkModelExecutionBeginCommit {
  Begin_Task : Task;
  Begin_Transition : option TaskTransition;
  Begin_Event : option TaskEvent;
  Begin_Idempotency : IdempotencyRecord
}.

Record ModelExecutionBeginResult : Type := mkModelExecutionBeginResult {
  BeginResult_Task : option Task;
  BeginResult_Event : option TaskEvent;
  BeginResult_Idempotency : IdempotencyRecord;
  BeginResult_Replayed : bool
}.

Record ModelExecutionFinalizeCommit : Type := mkModelExecutionFinalizeCommit {
  Finalize_Task : Task;
  Finalize_Transitions : list TaskTransition;
  Finalize_Events : list TaskEvent;
  Finalize_Idempotency : IdempotencyRecord
}.

Record ModelExecutionFinalizeResult : Type := mkModelExecutionFinalizeResult {
  FinalizeResult_Task : Task;
  FinalizeResult_Events : list TaskEvent;
  FinalizeResult_Idempotency : IdempotencyRecord
}.

Record IdempotencyLookup : Type := mkIdempotencyLookup {
  Lookup_TenantID : string;
  Lookup_ProjectID : string;
  Lookup_Operation : string;
  Lookup_Key : string;
  Lookup_RequestDigest : string
}.

(** The payload of a route selection's idempotency record. *)
Record routeSelectionReplayPayload : Type := mkSelectionPayload {
  Payload_Plan : PlanRevisionRef;
  Payload_Node : NodeID;
  Payload_Decision : RouteDecision;
  Payload_Policy : PolicyDecisionRecord;
  Payload_Target : ExecutionTarget
}.

Record RouteSelectionCommit : Type := mkRouteSelectionCommit {
  Selection_Task : Task;
  Selection_Payload : routeSelectionReplayPayload;
  Selection_Event : TaskEvent;
  Selection_Idempotency : IdempotencyRecord
}.

Record RouteSelectionResult : Type := mkRouteSelectionResult {
  SelectionResult_Task : option Task;
  SelectionResult_Payload : routeSelectionReplayPayload;
  SelectionResult_Event : option TaskEvent;
  SelectionResult_Idempotency : IdempotencyRecord;
  SelectionResult_Replayed : bool
}.

(** [json.Marshal] and [json.Unmarshal] on what the store encodes. *)
Record Codec : Type := mkCodec {
  marshal_candidate : RouteCandidate → result string;
  marshal_candidates : list RouteCandidate → result string;
  marshal_decision : RouteDecision → result string;
  unmarshal_decision : string → result RouteDecision;
  marshal_selection : routeSelectionReplayPayload → result string;
  unmarshal_selection : string → result routeSelectionReplayPayload
}.

(** ** Field updates *)
Definition set_task_version (t : Task) (v : Z) : Task :=
  mkTask (Task_ID t) (Task_TenantID t) (Task_ProjectID t) (Task_CreatedBy t) (Task_AgentID t)
    (Task_Input t) (Task_Status t) v (Task_Result t) (Task_Cost t) (Task_EstimatedCost t)
    (Task_ActualCost t) (Task_Currency t) (Task_RouteDecisionID t) (Task_TraceID t) (Task_CreatedAt t)
    (Task_UpdatedAt t) (Task_CompletedAt t).
Definition set_task_owner (t : Task) (p : Identity.Principal) : Task :=
  mkTask (Task_ID t) (Identity.TenantID p) (Identity.ProjectID p) (Identity.SubjectID p) (Task_AgentID t)
    (Task_Input t) (Task_Status t) (Task_Version t) (Task_Result t) (Task_Cost t) (Task_EstimatedCost t)
    (Task_ActualCost t) (Task_Currency t) (Task_RouteDecisionID t) (Task_TraceID t) (Task_CreatedAt t)
    (Task_UpdatedAt t) (Task_CompletedAt t).
Definition set_task_route (t : Task) (d : RouteDecision) : Task :=
  mkTask (Task_ID t) (Task_TenantID t) (Task_ProjectID t) (Task_CreatedBy t) (Task_AgentID t)
    (Task_Input t) (Task_Status t) (Task_Version t) (Task_Result t) (Task_Cost t)
    (Candidate_EstimatedCost (Decision_Selected d)) (Task_ActualCost t) (Task_Currency t) (Decision_ID d)
    (Task_TraceID t) (Task_CreatedAt t) (Task_UpdatedAt t) (Task_CompletedAt t).
Definition set_task_updated (t : Task) (at_ : Time) : Task :=
  mkTask (Task_ID t) (Task_TenantID t) (Task_ProjectID t) (Task_CreatedBy t) (Task_AgentID t)
    (Task_Input t) (Task_Status t) (Task_Version t) (Task_Result t) (Task_Cost t) (Task_EstimatedCost t)
    (Task_ActualCost t) (Task_Currency t) (Task_RouteDecisionID t) (Task_TraceID t) (Task_CreatedAt t)
    at_ (Task_CompletedAt t).
Definition set_event_type (e : TaskEvent) (ty : string) : TaskEvent :=
  mkTaskEvent (Event_EventID e) (Event_TenantID e) (Event_ProjectID e) (Event_TaskID e) (Event_Sequence e)
    ty (Event_Actor e) (Event_Payload e) (Event_RequestID e) (Event_TraceID e) (Event_SchemaVersion e)
    (Event_OccurredAt e) (Event_CreatedAt e).
Definition set_resource (r : IdempotencyRecord) (id : string) : IdempotencyRecord :=
  mkIdempotencyRecord (Idem_TenantID r) (Idem_ProjectID r) (Idem_Operation r) (Idem_Key r)
    (Idem_RequestDigest r) (Idem_Status r) id (Idem_ResponseCode r) (Idem_ResponseDigest r)
    (Idem_ResponsePayload r) (Idem_CreatedAt r) (Idem_ExpiresAt r).
Definition set_response (r : IdempotencyRecord) (code : Z) (payload : string) : IdempotencyRecord :=
  mkIdempotencyRecord (Idem_TenantID r) (Idem_ProjectID r) (Idem_Operation r) (Idem_Key r)
    (Idem_RequestDigest r) (Idem_Status r) (Idem_ResourceID r) code (Idem_ResponseDigest r)
    payload (Idem_CreatedAt r) (Idem_ExpiresAt r).
Definition set_decision_task (d : RouteDecision) (task : string) (at_ : Time) : RouteDecision :=
  mkRouteDecision (Decision_ID d) task (Decision_Selected d) (Decision_Candidates d) (Decision_Reason d)
    (Decision_FallbackChain d) (Decision_EvidenceVersion d) (Decision_PolicyVersion d) at_.
Definition IdempotencyRecordZero : IdempotencyRecord :=
  mkIdempotencyRecord "" "" "" "" "" (IdempotencyStatusOther "") "" 0 "" "" 0%Z 0%Z.

Definition IdempotencyStatus_string (s : IdempotencyStatus) : string :=
  match s with
  | IdempotencyInProgress => "in_progress" | IdempotencyCompleted => "completed"
  | IdempotencyFailedRetryable => "failed_retryable" | IdempotencyFailedFinal => "failed_final"
  | IdempotencyStatusOther s => s
  end.

(** A field's default where it is zero. *)
Definition or_string (s d : string) : string := if s ==? "" then d else s.
Definition or_time (t d : Time) : Time := if IsZero t then d else t.

(** The event as it is inserted: identity from the task, the allocated sequence
    and trace, and defaults for what the caller left zero. *)
Definition fill_event (e : TaskEvent) (task : Task) (sequence : Z) (trace : string) (occurred now : Time)
    : TaskEvent :=
  mkTaskEvent (Event_EventID e) (Task_TenantID task) (Task_ProjectID task) (Task_ID task) sequence
    (Event_EventType e) (Event_Actor e) (Event_Payload e) (Event_RequestID e) trace
    (if (Event_SchemaVersion e =? 0)%Z then 1%Z else Event_SchemaVersion e)
    (or_time (Event_OccurredAt e) occurred) (or_time (Event_CreatedAt e) now).

Definition prepareTaskOutboxMessage (m : OutboxMessage) (task : Task) (now : Time) : OutboxMessage :=
  mkOutboxMessage (Outbox_OutboxID m) (or_string (Outbox_TenantID m) (Task_TenantID task))
    (or_string (Outbox_ProjectID m) (Task_ProjectID task))
    (if (Outbox_TaskID m ==? "") && (Outbox_AggregateType m ==? "Task") && (Outbox_AggregateID m ==? Task_ID task)
     then Task_ID task else Outbox_TaskID m)
    (Outbox_AggregateType m) (Outbox_AggregateID m) (Outbox_EventType m) (Outbox_Payload m)
    (Outbox_Destination m) (Outbox_IdempotencyKey m)
    (if Outbox_Status m ==? OutboxStatusOther "" then OutboxPending else Outbox_Status m)
    (Outbox_Attempts m) (or_time (Outbox_AvailableAt m) now) (or_time (Outbox_CreatedAt m) now)
    (Outbox_DeliveredAt m).

Definition validateTaskCreation (task : Task) : result unit :=
  if blank (Task_ID task) || blank (Task_Input task) || blank (Task_TraceID task)
  then Err (Errorf "task id, input and trace id are required" [])
  else if (Task_TenantID task ==? "") || (Task_ProjectID task ==? "") || (Task_CreatedBy task ==? "")
  then Err (Errorf "task tenant, project and creator identity are required" [])
  else if (Task_Status task !=? TaskCreated) || negb (Task_Version task =? 1)%Z
  then Err (Errorf "new task must start at CREATED with version 1" [])
  else if IsZero (Task_CreatedAt task) || IsZero (Task_UpdatedAt task)
  then Err (Errorf "task creation timestamps are required" [])
  else match Task_CompletedAt task with
       | Some _ => Err (Errorf "new task cannot have completed_at" [])
       | None => Ok tt
       end.

(** [strings.TrimSpace(actor) == "" || .. || at.IsZero()]. *)
Definition incomplete_evidence (tr : TaskTransition) : bool :=
  blank (Transition_Actor tr) || blank (Transition_Cause tr) || IsZero (Transition_At tr).

(** The record's scope is the principal's. *)
Definition scope_mismatch (p : Identity.Principal) (tenant project : string) : bool :=
  (tenant !=? Identity.TenantID p) || (project !=? Identity.ProjectID p).

(** The guard shared by the command transactions. *)
Definition requireCommandScope (env : TaskEnv) (r : IdempotencyRecord) : result Identity.Principal :=
  p ← Identity.requireScopedPrincipal (env_ctx (te_tx env));
  if scope_mismatch p (Idem_TenantID r) (Idem_ProjectID r)
  then Err (Errorf "idempotency scope must match authenticated principal" [])
  else Ok p.

(** A guard that ends the command. *)
Definition guard (b : bool) (e : error) : result unit := if b then Err e else Ok tt.

Section store.
Variable pg_ts : Time → Time.
Variable pg_jsonb : string → result string.
Variable J : Codec.

(** ** Idempotency records *)

(** The record a row reads as; a JSON [null] payload reads as none. *)
Definition scan_idem (k : IdemKey) (row : IdemRow) : IdempotencyRecord :=
  let text := default "null" (i_response_payload row) in
  mkIdempotencyRecord k.1.1 k.1.2 k.2.1 k.2.2 (i_request_digest row) (i_status row)
    (default "" (i_resource_id row)) (default 0%Z (i_response_code row))
    (default "" (i_response_digest row)) (if text ==? "null" then "" else text)
    (i_created_at row) (i_expires_at row).

(** [None] is [sql.ErrNoRows]. *)
Definition loadIdempotency (env : TaskEnv) (k : IdemKey) (db : DB) : result (option IdempotencyRecord) :=
  _ ← fault (te_tx env) "load idempotency record";
  Ok (scan_idem k <$> idem db !! k).

Definition loadIdempotencyForUpdate (env : TaskEnv) (key : IdempotencyRecord) (db : DB)
    : result IdempotencyRecord :=
  match loadIdempotency env (key_of key) db with
  | Err e => Err (Errorw "load idempotency record: %w" [] e)
  | Ok None => Err (Errorw "load idempotency record: %w" [] (Sentinel "sql.ErrNoRows" "sql: no rows in result set"))
  | Ok (Some r) => Ok r
  end.

Definition reserved_row (desired : IdempotencyRecord) : IdemRow :=
  mkIdemRow (Idem_RequestDigest desired) IdempotencyInProgress None None None None
    (pg_ts (Idem_CreatedAt desired)) (pg_ts (Idem_ExpiresAt desired)).

Definition reacquired_row (row : IdemRow) : IdemRow :=
  mkIdemRow (i_request_digest row) IdempotencyInProgress None None None None
    (i_created_at row) (i_expires_at row).

(** Whether to replay, the existing record when so, and the database.  The
    table's constraints are checked on the proposed row before the conflict. *)
Definition reserveIdempotency (env : TaskEnv) (desired : IdempotencyRecord) (db : DB)
    : result (option IdempotencyRecord * DB) :=
  let k := key_of desired in
  _ ← exec_stmt (te_tx env) "reserve idempotency record";
  _ ← guard (negb (idem_checks (reserved_row desired))) (violation "reserve idempotency record");
  match idem db !! k with
  | None => Ok (None, set_idem (<[k := reserved_row desired]> (idem db)) db)
  | Some row =>
      existing ← loadIdempotencyForUpdate env desired db;
      if Idem_RequestDigest existing !=? Idem_RequestDigest desired then Err ErrIdempotencyConflict
      else match Idem_Status existing with
      | IdempotencyCompleted | IdempotencyFailedFinal => Ok (Some existing, db)
      | IdempotencyInProgress => Err ErrIdempotencyInProgress
      | IdempotencyFailedRetryable =>
          _ ← exec_stmt (te_tx env) "reacquire retryable idempotency record";
          Ok (None, set_idem (<[k := reacquired_row row]> (idem db)) db)
      | IdempotencyStatusOther _ as s =>
          Err (Errorf "unsupported idempotency status %q" [AStr (IdempotencyStatus_string s)])
      end
  end.

Definition completed_row (r : IdempotencyRecord) (payload : option string) (row : IdemRow) : IdemRow :=
  mkIdemRow (i_request_digest row) (Idem_Status r) (NULLIF (Idem_ResourceID r))
    (if (Idem_ResponseCode r =? 0)%Z then None else Some (Idem_ResponseCode r))
    (NULLIF (Idem_ResponseDigest r)) payload (i_created_at row) (i_expires_at row).

Definition completeIdempotency (env : TaskEnv) (r : IdempotencyRecord) (db : DB) : result DB :=
  let label := "complete idempotency record" in
  _ ← exec_stmt (te_tx env) label;
  payload ← (if Idem_ResponsePayload r ==? "" then Ok None
             else t ← jsonb_param pg_jsonb label (Idem_ResponsePayload r); Ok (Some t));
  match idem db !! key_of r with
  | Some row =>
      if i_request_digest row ==? Idem_RequestDigest r then
        if idem_checks (completed_row r payload row) then
          match fault (te_tx env) "complete idempotency record rows affected" with
          | Err e => Err (Errorw "read idempotency completion rows: %w" [] e)
          | Ok _ => Ok (set_idem (<[key_of r := completed_row r payload row]> (idem db)) db)
          end
        else Err (violation label)
      else Err (Errorf "complete idempotency record affected %d rows" [AInt 0])
  | None => Err (Errorf "complete idempotency record affected %d rows" [AInt 0])
  end.

(** ** Shared steps of the transactions *)

(** [SELECT .. FOR UPDATE], [ErrNotFound] unless the principal owns it. *)
Definition lock_task (env : TaskEnv) (label : string) (p : Identity.Principal) (id : string) (db : DB)
    : result Task :=
  r ← select_task env label (scope_of p) id db;
  match r with
  | None => Err ErrNotFound
  | Some current =>
      if negb (Identity.OwnsProject p (Task_TenantID current) (Task_ProjectID current))
      then Err ErrNotFound else Ok current
  end.

Definition identity_changed (current t : Task) : bool :=
  (Task_TenantID current !=? Task_TenantID t) || (Task_ProjectID current !=? Task_ProjectID t)
  || (Task_CreatedBy current !=? Task_CreatedBy t).

Definition immutable_identity : error :=
  Errorf "task tenant, project and creator identity are immutable" [].

(** The projection update of [command.Task], adding [inc] to the version. *)
Definition project_task (env : TaskEnv) (label : string) (p : Identity.Principal) (t : Task) (inc : Z) (db : DB)
    : result (Z * DB) :=
  r ← update_task env label (scope_of p) (Task_ID t) (λ row, (Task_Version row =? Task_Version t)%Z)
        (projected pg_ts t inc) db;
  match r with
  | None => Err ErrVersionConflict
  | Some vd => Ok vd
  end.

Definition append_event (env : TaskEnv) (label : string) (p : Identity.Principal) (e : TaskEvent) (db : DB)
    : result DB :=
  _ ← ValidateTaskEvent e;
  insert_event pg_ts pg_jsonb env label (scope_of p) e db.

(** The loop over [command.Outbox], which is updated in place. *)
Fixpoint outbox_loop (env : TaskEnv) (p : Identity.Principal) (task : Task) (mismatch : string)
    (messages : list OutboxMessage) (db : DB) : result (list OutboxMessage * DB) :=
  match messages with
  | [] => Ok ([], db)
  | m :: rest =>
      let m := prepareTaskOutboxMessage m task (te_now env) in
      _ ← guard ((Outbox_TenantID m !=? Task_TenantID task) || (Outbox_ProjectID m !=? Task_ProjectID task))
            (Errorf "outbox scope must match task scope" []);
      _ ← guard ((Outbox_TaskID m !=? "") && (Outbox_TaskID m !=? Task_ID task)) (Errorf mismatch []);
      _ ← ValidateOutboxMessage m;
      db ← insertOutboxMessage pg_ts pg_jsonb env (scope_of p) m db;
      r ← outbox_loop env p task mismatch rest db;
      Ok (m :: r.1, r.2)
  end.

Definition insertRouteDecisionTx (env : TaskEnv) (d : RouteDecision) (db : DB) : result DB :=
  let wrap (format : string) (r : result string) : result string :=
    match r with Ok s => Ok s | Err e => Err (Errorw format [] e) end in
  let label := "persist route decision in task transaction" in
  selected ← wrap "encode selected route candidate: %w" (marshal_candidate J (Decision_Selected d));
  candidates ← wrap "encode route candidates: %w" (marshal_candidates J (Decision_Candidates d));
  fallback ← wrap "encode route fallback chain: %w" (marshal_candidates J (Decision_FallbackChain d));
  selected ← jsonb_param pg_jsonb label selected;
  candidates ← jsonb_param pg_jsonb label candidates;
  fallback ← jsonb_param pg_jsonb label fallback;
  insert_route env label (Decision_ID d)
    (mkRouteRow (Decision_TaskID d) selected candidates (Decision_Reason d) fallback
       (Decision_EvidenceVersion d) (Decision_PolicyVersion d) (pg_ts (Decision_CreatedAt d))) db.

(** ** CreateTask *)

Definition createTaskTx (env : TaskEnv) (p : Identity.Principal) (command : TaskCreateCommit) (db : DB)
    : result (TaskCommandCommitResult * string * DB) :=
  let task := Create_Task command in
  r ← reserveIdempotency env (Create_Idempotency command) db;
  let '(replay, db) := r in
  match replay with
  | Some existing =>
      if (Idem_Status existing !=? IdempotencyCompleted) || (Idem_ResourceID existing ==? "")
      then Err (Errorf "completed task creation replay is missing resource identity" [])
      else
        t ← select_task env "load task for idempotency replay" (scope_of p) (Idem_ResourceID existing) db;
        match t with
        | None => Err (Errorf "idempotency replay references missing task %q" [AStr (Idem_ResourceID existing)])
        | Some t =>
            Ok (mkTaskCommandCommitResult (Some t) None [] existing true,
                "commit task creation replay transaction", db)
        end
  | None =>
      db ← insert_task pg_ts env "create task projection in command transaction" (scope_of p) task db;
      let event := set_event_type (Create_Event command)
                     (or_string (Event_EventType (Create_Event command)) "TaskCreated") in
      _ ← guard (Event_EventType event !=? "TaskCreated") (Errorf "task creation must append TaskCreated" []);
      let event := fill_event event task 1 (Task_TraceID task) (Task_CreatedAt task) (te_now env) in
      db ← append_event env "append TaskCreated event" p event db;
      o ← outbox_loop env p task "outbox task id must match command task" (Create_Outbox command) db;
      let '(messages, db) := o in
      let record := set_resource (Create_Idempotency command) (Task_ID task) in
      db ← completeIdempotency env record db;
      Ok (mkTaskCommandCommitResult (Some task) (Some event) messages record false,
          "commit task creation transaction", db)
  end.

Definition CreateTask (env : TaskEnv) (command : TaskCreateCommit) (db : DB)
    : result TaskCommandCommitResult * DB :=
  let pre :=
    _ ← guard (negb (env_db (te_tx env))) (Errorf "database is required" []);
    _ ← ValidateIdempotencyRecord (Create_Idempotency command);
    _ ← guard (Idem_Status (Create_Idempotency command) !=? IdempotencyCompleted)
          (Errorf "successful task creation requires completed idempotency status" []);
    p ← requireCommandScope env (Create_Idempotency command);
    let task := Create_Task command in
    _ ← guard ((Task_TenantID task !=? "") && (Task_TenantID task !=? Identity.TenantID p))
          (Errorf "task tenant identity does not match principal" []);
    _ ← guard ((Task_ProjectID task !=? "") && (Task_ProjectID task !=? Identity.ProjectID p))
          (Errorf "task project identity does not match principal" []);
    _ ← guard ((Task_CreatedBy task !=? "") && (Task_CreatedBy task !=? Identity.SubjectID p))
          (Errorf "task creator identity does not match principal" []);
    let task := set_task_owner task p in
    _ ← validateTaskCreation task;
    Ok (p, mkTaskCreateCommit task (Create_Event command) (Create_Outbox command) (Create_Idempotency command)) in
  match pre with
  | Err e => (Err e, db)
  | Ok (p, command) =>
      runTx env "begin task creation transaction" "set task creation transaction scope"
        (createTaskTx env p command) db
  end.

(** ** CommitTransition *)

Definition commitTransitionTx (env : TaskEnv) (p : Identity.Principal) (command : TaskCommandCommit) (db : DB)
    : result (TaskCommandCommitResult * string * DB) :=
  let task := Commit_Task command in
  let transition := Commit_Transition command in
  r ← reserveIdempotency env (Commit_Idempotency command) db;
  let '(replay, db) := r in
  match replay with
  | Some existing =>
      Ok (mkTaskCommandCommitResult None None [] existing true, "commit idempotency replay transaction", db)
  | None =>
      current ← lock_task env "lock scoped task for command" p (Task_ID task) db;
      _ ← guard (identity_changed current task) immutable_identity;
      _ ← guard (negb (Task_Version task =? Task_Version current)%Z) ErrVersionConflict;
      _ ← guard ((Transition_From transition !=? Task_Status current)
                 || (Transition_To transition !=? Task_Status task))
            (Errorf "task transition evidence does not match persisted state" []);
      _ ← guard (incomplete_evidence transition) (Errorf "task transition evidence is incomplete" []);
      let '(canonical, ok) := CanonicalTaskStateEvent (Task_Status task) in
      _ ← guard (negb ok || (Event_EventType (Commit_Event command) !=? canonical))
            (Errorf "canonical event mismatch for task state %s" [AStr (TaskStatus_string (Task_Status task))]);
      sequence ← next_sequence env "allocate task event sequence" (scope_of p) (Task_ID current) db;
      u ← project_task env "update task projection in command transaction" p task 1 db;
      let '(version, db) := u in
      let task := set_task_version task version in
      let event := fill_event (Commit_Event command) current sequence (Task_TraceID task)
                     (Transition_At transition) (te_now env) in
      db ← append_event env "append task event" p event db;
      o ← outbox_loop env p current "outbox task id must match command task" (Commit_Outbox command) db;
      let '(messages, db) := o in
      let record := set_resource (Commit_Idempotency command)
                      (or_string (Idem_ResourceID (Commit_Idempotency command)) (Task_ID current)) in
      db ← completeIdempotency env record db;
      Ok (mkTaskCommandCommitResult (Some task) (Some event) messages record false,
          "commit task command transaction", db)
  end.

Definition CommitTransition (env : TaskEnv) (command : TaskCommandCommit) (db : DB)
    : result TaskCommandCommitResult * DB :=
  let pre :=
    _ ← guard (negb (env_db (te_tx env))) (Errorf "database is required" []);
    _ ← ValidateIdempotencyRecord (Commit_Idempotency command);
    _ ← guard (Idem_Status (Commit_Idempotency command) ==? IdempotencyInProgress)
          (Errorf "final idempotency status must not be in_progress" []);
    requireCommandScope env (Commit_Idempotency command) in
  match pre with
  | Err e => (Err e, db)
  | Ok p =>
      runTx env "begin task command transaction" "set task command transaction scope"
        (commitTransitionTx env p command) db
  end.

(** ** CommitRouteTransition *)

Definition replayRouteCommand (env : TaskEnv) (p : Identity.Principal) (record : IdempotencyRecord) (db : DB)
    : result RouteTaskCommandResult :=
  if (Idem_Status record !=? IdempotencyCompleted) || (Idem_ResourceID record ==? "")
  then Err (Errorf "completed route replay is missing task resource identity" [])
  else if Idem_ResponsePayload record ==? ""
  then Err (Errorf "completed route replay is missing durable response payload" [])
  else match unmarshal_decision J (Idem_ResponsePayload record) with
  | Err e => Err (Errorw "decode durable route replay result: %w" [] e)
  | Ok decision =>
      t ← select_task env "load task for route replay" (scope_of p) (Idem_ResourceID record) db;
      match t with
      | None => Err (Errorf "route replay references missing task %q" [AStr (Idem_ResourceID record)])
      | Some t => Ok (mkRouteTaskCommandResult t decision None [] record true)
      end
  end.

Definition commitRouteTx (env : TaskEnv) (p : Identity.Principal) (command : RouteTaskCommandCommit) (db : DB)
    : result (RouteTaskCommandResult * string * DB) :=
  let task := Route_Task command in
  let transition := Route_Transition command in
  r ← reserveIdempotency env (Route_Idempotency command) db;
  let '(replay, db) := r in
  match replay with
  | Some existing =>
      result ← replayRouteCommand env p existing db;
      Ok (result, "commit route replay transaction", db)
  | None =>
      current ← lock_task env "lock scoped task for route command" p (Task_ID task) db;
      _ ← guard (identity_changed current task) immutable_identity;
      _ ← guard (negb (Task_Version task =? Task_Version current)%Z) ErrVersionConflict;
      _ ← guard ((Task_Status current !=? TaskPlanning) || (Transition_From transition !=? TaskPlanning)
                 || (Transition_To transition !=? TaskRouting) || (Task_Status task !=? TaskRouting))
            (Errorf "route command requires PLANNING -> ROUTING transition" []);
      _ ← guard (incomplete_evidence transition) (Errorf "task transition evidence is incomplete" []);
      let decision := Route_Decision command in
      _ ← guard (blank (Decision_ID decision)) (Errorf "route decision id is required" []);
      _ ← guard ((Decision_TaskID decision !=? "") && (Decision_TaskID decision !=? Task_ID current))
            (Errorf "route decision task id must match command task" []);
      let decision := set_decision_task decision (Task_ID current)
                        (or_time (Decision_CreatedAt decision) (Transition_At transition)) in
      let task := set_task_route task decision in
      sequence ← next_sequence env "allocate route TaskEvent sequence" (scope_of p) (Task_ID current) db;
      db ← insertRouteDecisionTx env decision db;
      u ← project_task env "update task projection in route transaction" p task 1 db;
      let '(version, db) := u in
      let task := set_task_version task version in
      let event := set_event_type (Route_Event command)
                     (or_string (Event_EventType (Route_Event command)) "TaskRoutingStarted") in
      _ ← guard (Event_EventType event !=? "TaskRoutingStarted")
            (Errorf "route command must append TaskRoutingStarted" []);
      let event := fill_event event current sequence (Task_TraceID task) (Transition_At transition) (te_now env) in
      db ← append_event env "append route TaskEvent" p event db;
      o ← outbox_loop env p current "outbox task id must match route command task" (Route_Outbox command) db;
      let '(messages, db) := o in
      payload ← match marshal_decision J decision with
                | Ok s => Ok s
                | Err e => Err (Errorw "encode durable route result: %w" [] e)
                end;
      let code := Idem_ResponseCode (Route_Idempotency command) in
      let record := set_response (set_resource (Route_Idempotency command) (Task_ID current))
                      (if (code =? 0)%Z then 201%Z else code) payload in
      db ← completeIdempotency env record db;
      Ok (mkRouteTaskCommandResult task decision (Some event) messages record false,
          "commit route command transaction", db)
  end.

Definition CommitRouteTransition (env : TaskEnv) (command : RouteTaskCommandCommit) (db : DB)
    : result RouteTaskCommandResult * DB :=
  let pre :=
    _ ← guard (negb (env_db (te_tx env))) (Errorf "database is required" []);
    _ ← ValidateIdempotencyRecord (Route_Idempotency command);
    _ ← guard (Idem_Status (Route_Idempotency command) !=? IdempotencyCompleted)
          (Errorf "successful route command requires completed idempotency status" []);
    requireCommandScope env (Route_Idempotency command) in
  match pre with
  | Err e => (Err e, db)
  | Ok p =>
      runTx env "begin route command transaction" "set route command transaction scope"
        (commitRouteTx env p command) db
  end.

(** ** CommitRouteSelection *)

(** [UPDATE tasks SET route_decision_id, estimated_cost, updated_at, version=version+1]. *)
Definition selected_row (d : RouteDecision) (updatedAt : Time) (row : Task) : Task :=
  set_task_version (set_task_updated (set_task_route row d) (pg_ts updatedAt)) (Task_Version row + 1).

Definition missing_target (x : routeSelectionReplayPayload) : bool :=
  (Target_ID (Payload_Target x) ==? "") || (Snapshot_Digest (Target_Snapshot (Payload_Target x)) ==? "").

Definition replayRouteSelection (env : TaskEnv) (p : Identity.Principal) (record : IdempotencyRecord) (db : DB)
    : result RouteSelectionResult :=
  if (Idem_Status record !=? IdempotencyCompleted) || (Idem_ResourceID record ==? "")
     || (Idem_ResponsePayload record ==? "")
  then Err (Errorf "completed route selection replay is incomplete" [])
  else match unmarshal_selection J (Idem_ResponsePayload record) with
  | Err e => Err (Errorw "decode route selection replay: %w" [] e)
  | Ok payload =>
      _ ← guard (missing_target payload)
            (Errorf "route selection replay is missing frozen target evidence" []);
      t ← select_task env "load task for route selection replay" (scope_of p) (Idem_ResourceID record) db;
      match t with
      | None => Err (Errorf "route selection replay references missing task %q" [AStr (Idem_ResourceID record)])
      | Some t => Ok (mkRouteSelectionResult (Some t) payload None record true)
      end
  end.

Definition commitSelectionTx (env : TaskEnv) (p : Identity.Principal) (command : RouteSelectionCommit) (db : DB)
    : result (RouteSelectionResult * string * DB) :=
  let task := Selection_Task command in
  let decision := Payload_Decision (Selection_Payload command) in
  r ← reserveIdempotency env (Selection_Idempotency command) db;
  let '(replay, db) := r in
  match replay with
  | Some existing =>
      result ← replayRouteSelection env p existing db;
      Ok (result, "commit route selection replay", db)
  | None =>
      current ← lock_task env "lock task for route selection" p (Task_ID task) db;
      _ ← guard ((Task_Status current !=? TaskRouting) || (Task_Status task !=? TaskRouting))
            (Errorf "route selection requires TaskStatus=ROUTING" []);
      _ ← guard (negb (Task_Version task =? Task_Version current)%Z) ErrVersionConflict;
      _ ← guard (identity_changed current task) immutable_identity;
      _ ← guard (Decision_TaskID decision !=? Task_ID current)
            (Errorf "route decision task id must match command task" []);
      _ ← guard (IsZero (Decision_CreatedAt decision)) (Errorf "route decision created time is required" []);
      db ← insertRouteDecisionTx env decision db;
      let updatedAt := or_time (Task_UpdatedAt task) (te_now env) in
      u ← update_task env "update task route selection projection" (scope_of p) (Task_ID current)
            (λ row, (Task_Version row =? Task_Version current)%Z && (Task_Status row ==? TaskRouting))
            (selected_row decision updatedAt) db;
      match u with
      | None => Err ErrVersionConflict
      | Some (version, db) =>
      let task := set_task_version (set_task_updated (set_task_route current decision) updatedAt) version in
      sequence ← next_sequence env "allocate route selection TaskEvent sequence" (scope_of p) (Task_ID current) db;
      let event := set_event_type (Selection_Event command)
                     (or_string (Event_EventType (Selection_Event command)) "TaskRouteSelected") in
      _ ← guard (Event_EventType event !=? "TaskRouteSelected")
            (Errorf "route selection must append TaskRouteSelected" []);
      let event := fill_event event current sequence (Task_TraceID current) (Decision_CreatedAt decision) (te_now env) in
      db ← append_event env "append route selection TaskEvent" p event db;
      payload ← match marshal_selection J (Selection_Payload command) with
                | Ok s => Ok s
                | Err e => Err (Errorw "encode route selection result: %w" [] e)
                end;
      let code := Idem_ResponseCode (Selection_Idempotency command) in
      let record := set_response (set_resource (Selection_Idempotency command) (Task_ID current))
                      (if (code =? 0)%Z then 200%Z else code) payload in
      db ← completeIdempotency env record db;
      Ok (mkRouteSelectionResult (Some task) (Selection_Payload command) (Some event) record false,
          "commit route selection transaction", db)
      end
  end.

Definition CommitRouteSelection (env : TaskEnv) (command : RouteSelectionCommit) (db : DB)
    : result RouteSelectionResult * DB :=
  let decision := Payload_Decision (Selection_Payload command) in
  let pre :=
    _ ← guard (negb (env_db (te_tx env))) (Errorf "database is required" []);
    _ ← ValidateIdempotencyRecord (Selection_Idempotency command);
    _ ← guard (Idem_Status (Selection_Idempotency command) !=? IdempotencyCompleted)
          (Errorf "successful route selection requires completed idempotency status" []);
    _ ← guard (blank (Decision_ID decision) || blank (Decision_TaskID decision))
          (Errorf "route decision id and task id are required" []);
    _ ← guard (missing_target (Selection_Payload command))
          (Errorf "frozen execution target identity and digest are required" []);
    requireCommandScope env (Selection_Idempotency command) in
  match pre with
  | Err e => (Err e, db)
  | Ok p =>
      runTx env "begin route selection transaction" "set route selection transaction scope"
        (commitSelectionTx env p command) db
  end.

(** ** Model execution *)

Definition beginModelTx (env : TaskEnv) (p : Identity.Principal) (command : ModelExecutionBeginCommit) (db : DB)
    : result (ModelExecutionBeginResult * string * DB) :=
  let task := Begin_Task command in
  r ← reserveIdempotency env (Begin_Idempotency command) db;
  let '(replay, db) := r in
  match replay with
  | Some existing =>
      Ok (mkModelExecutionBeginResult None None existing true, "commit model execution replay transaction", db)
  | None =>
      current ← lock_task env "lock task for model execution" p (Task_ID task) db;
      _ ← guard (identity_changed current task) immutable_identity;
      _ ← guard (negb (Task_Version task =? Task_Version current)%Z) ErrVersionConflict;
      let commit_label := "commit model execution begin transaction" in
      match Task_Status current with
      | TaskRouting =>
          match Begin_Transition command, Begin_Event command with
          | Some transition, Some event =>
              _ ← guard ((Transition_From transition !=? TaskRouting) || (Transition_To transition !=? TaskExecuting)
                         || (Task_Status task !=? TaskExecuting))
                    (Errorf "model execution begin must transition ROUTING to EXECUTING" []);
              _ ← guard (incomplete_evidence transition)
                    (Errorf "model execution transition evidence is incomplete" []);
              _ ← guard (Event_EventType event !=? "TaskExecutionStarted")
                    (Errorf "model execution begin requires TaskExecutionStarted" []);
              sequence ← next_sequence env "allocate model execution event sequence" (scope_of p)
                           (Task_ID current) db;
              u ← project_task env "update task to executing" p task 1 db;
              let '(version, db) := u in
              let task := set_task_version task version in
              let event := fill_event event current sequence (Task_TraceID task)
                             (Transition_At transition) (te_now env) in
              db ← append_event env "append task event" p event db;
              Ok (mkModelExecutionBeginResult (Some task) (Some event) (Begin_Idempotency command) false,
                  commit_label, db)
          | _, _ => Err (Errorf "first model execution attempt requires transition and event evidence" [])
          end
      | TaskExecuting =>
          match Begin_Transition command, Begin_Event command with
          | None, None =>
              Ok (mkModelExecutionBeginResult (Some current) None (Begin_Idempotency command) false,
                  commit_label, db)
          | _, _ =>
              Err (Errorf "model execution retry must not append a duplicate execution-start transition" [])
          end
      | s => Err (Errorw "%w: cannot begin model execution from %s" [AStr (TaskStatus_string s)]
                    ErrInvalidTaskTransition)
      end
  end.

Definition BeginModelExecution (env : TaskEnv) (command : ModelExecutionBeginCommit) (db : DB)
    : result ModelExecutionBeginResult * DB :=
  let pre :=
    _ ← guard (negb (env_db (te_tx env))) (Errorf "database is required" []);
    _ ← ValidateIdempotencyRecord (Begin_Idempotency command);
    _ ← guard (Idem_Status (Begin_Idempotency command) !=? IdempotencyInProgress)
          (Errorf "model execution begin requires in_progress idempotency status" []);
    requireCommandScope env (Begin_Idempotency command) in
  match pre with
  | Err e => (Err e, db)
  | Ok p =>
      runTx env "begin model execution command transaction" "set model execution transaction scope"
        (beginModelTx env p command) db
  end.

(** The record is reserved by this very request and still in progress. *)
Definition loadReserved (env : TaskEnv) (record : IdempotencyRecord) (db : DB) : result unit :=
  reserved ← loadIdempotencyForUpdate env record db;
  _ ← guard (Idem_RequestDigest reserved !=? Idem_RequestDigest record) ErrIdempotencyConflict;
  guard (Idem_Status reserved !=? IdempotencyInProgress)
    (Errorf "model execution command is not in progress" []).

(** The loop that checks the chain of transitions; returns where it ends. *)
Fixpoint check_chain (expectedFrom : TaskStatus) (transitions : list TaskTransition) (events : list TaskEvent)
    : result TaskStatus :=
  match transitions, events with
  | transition :: transitions, event :: events =>
      _ ← guard (Transition_From transition !=? expectedFrom)
            (Errorf "model finalization transition chain is discontinuous" []);
      _ ← guard (incomplete_evidence transition)
            (Errorf "model finalization transition evidence is incomplete" []);
      let '(canonical, ok) := CanonicalTaskStateEvent (Transition_To transition) in
      _ ← guard (negb ok || (Event_EventType event !=? canonical))
            (Errorf "canonical model finalization event mismatch for %s"
               [AStr (TaskStatus_string (Transition_To transition))]);
      check_chain (Transition_To transition) transitions events
  | _, _ => Ok expectedFrom
  end.

(** The two ways a model execution may end. *)
Definition check_final (command : ModelExecutionFinalizeCommit) : result unit :=
  let tos := Transition_To <$> Finalize_Transitions command in
  match Task_Status (Finalize_Task command) with
  | TaskCompleted =>
      guard ((tos !=? [TaskValidating; TaskCompleted])
             || (Idem_Status (Finalize_Idempotency command) !=? IdempotencyCompleted))
        (Errorf "successful model execution must finalize EXECUTING -> VALIDATING -> COMPLETED" [])
  | TaskFailed =>
      guard ((tos !=? [TaskFailed]) || (Idem_Status (Finalize_Idempotency command) !=? IdempotencyFailedFinal))
        (Errorf "failed model execution must finalize EXECUTING -> FAILED" [])
  | s => Err (Errorf "unsupported model execution final status %s" [AStr (TaskStatus_string s)])
  end.

Fixpoint append_events (env : TaskEnv) (p : Identity.Principal) (current : Task) (trace : string)
    (sequence : Z) (transitions : list TaskTransition) (events : list TaskEvent) (db : DB)
    : result (list TaskEvent * DB) :=
  match transitions, events with
  | transition :: transitions, event :: events =>
      let event := fill_event event current sequence trace (Transition_At transition) (te_now env) in
      db ← append_event env "append task event" p event db;
      r ← append_events env p current trace (sequence + 1) transitions events db;
      Ok (event :: r.1, r.2)
  | _, _ => Ok ([], db)
  end.

Definition finalizeModelTx (env : TaskEnv) (p : Identity.Principal) (command : ModelExecutionFinalizeCommit)
    (db : DB) : result (ModelExecutionFinalizeResult * string * DB) :=
  let task := Finalize_Task command in
  let transitions := Finalize_Transitions command in
  _ ← loadReserved env (Finalize_Idempotency command) db;
  current ← lock_task env "lock task for model finalization" p (Task_ID task) db;
  _ ← guard (Task_Status current !=? TaskExecuting)
        (Errorw "%w: model execution can only finalize from EXECUTING" [] ErrInvalidTaskTransition);
  _ ← guard (identity_changed current task) immutable_identity;
  _ ← guard (negb (Task_Version task =? Task_Version current)%Z) ErrVersionConflict;
  _ ← guard (negb (Nat.eqb (length transitions) (length (Finalize_Events command)))
             || Nat.eqb (length transitions) 0)
        (Errorf "model finalization requires matching transition and event evidence" []);
  last ← check_chain (Task_Status current) transitions (Finalize_Events command);
  _ ← guard (last !=? Task_Status task)
        (Errorf "model finalization transition chain does not match final task status" []);
  _ ← check_final command;
  sequence ← next_sequence env "allocate model finalization event sequence" (scope_of p) (Task_ID current) db;
  u ← project_task env "update final model execution task projection" p task
        (Z.of_nat (length transitions)) db;
  let '(version, db) := u in
  let task := set_task_version task version in
  a ← append_events env p current (Task_TraceID task) sequence transitions (Finalize_Events command) db;
  let '(persisted, db) := a in
  let record := set_resource (Finalize_Idempotency command)
                  (or_string (Idem_ResourceID (Finalize_Idempotency command)) (Task_ID current)) in
  db ← completeIdempotency env record db;
  Ok (mkModelExecutionFinalizeResult task persisted record,
      "commit model execution finalization transaction", db).

Definition FinalizeModelExecution (env : TaskEnv) (command : ModelExecutionFinalizeCommit) (db : DB)
    : result ModelExecutionFinalizeResult * DB :=
  let status := Idem_Status (Finalize_Idempotency command) in
  let pre :=
    _ ← guard (negb (env_db (te_tx env))) (Errorf "database is required" []);
    _ ← ValidateIdempotencyRecord (Finalize_Idempotency command);
    _ ← guard ((status !=? IdempotencyCompleted) && (status !=? IdempotencyFailedFinal))
          (Errorf "model execution finalization requires completed or failed_final idempotency status" []);
    requireCommandScope env (Finalize_Idempotency command) in
  match pre with
  | Err e => (Err e, db)
  | Ok p =>
      runTx env "begin model execution finalization transaction" "set model finalization transaction scope"
        (finalizeModelTx env p command) db
  end.

(** Unlike the other commands this one does not ask a system principal for the
    task capability. *)
Definition MarkModelExecutionRetryable (env : TaskEnv) (record : IdempotencyRecord) (db : DB)
    : result unit * DB :=
  let pre :=
    _ ← guard (negb (env_db (te_tx env))) (Errorf "database is required" []);
    _ ← ValidateIdempotencyRecord record;
    _ ← guard (Idem_Status record !=? IdempotencyFailedRetryable)
          (Errorf "retryable model execution result requires failed_retryable idempotency status" []);
    p ← Identity.RequireProject (env_ctx (te_tx env));
    guard (scope_mismatch p (Idem_TenantID record) (Idem_ProjectID record))
      (Errorf "idempotency scope must match authenticated principal" []) in
  match pre with
  | Err e => (Err e, db)
  | Ok _ =>
      runTx env "begin retryable model result transaction" "set retryable model result transaction scope"
        (λ db,
           _ ← loadReserved env record db;
           db ← completeIdempotency env record db;
           Ok (tt, "commit retryable model result transaction", db)) db
  end.

(** ** Lookups *)

(** The record, and whether it is a final result to replay. *)
Definition ResolveIdempotency (env : TaskEnv) (lookup : IdempotencyLookup) (db : DB)
    : result (IdempotencyRecord * bool) * DB :=
  let pre :=
    _ ← guard (negb (env_db (te_tx env))) (Errorf "database is required" []);
    _ ← guard (blank (Lookup_Operation lookup) || blank (Lookup_Key lookup) || blank (Lookup_RequestDigest lookup))
          (Errorf "operation, idempotency key and request digest are required" []);
    p ← Identity.requireScopedPrincipal (env_ctx (te_tx env));
    _ ← guard (scope_mismatch p (Lookup_TenantID lookup) (Lookup_ProjectID lookup))
          (Errorf "idempotency lookup scope must match authenticated principal" []);
    Ok p in
  match pre with
  | Err e => (Err e, db)
  | Ok p =>
      let k := (Identity.TenantID p, Identity.ProjectID p, (Lookup_Operation lookup, Lookup_Key lookup)) in
      let '(r, db) :=
        runTx env "begin idempotency lookup transaction" "set idempotency lookup scope"
          (λ db,
             found ← loadIdempotency env k db;
             match found with
             | None => Ok (None, "commit empty idempotency lookup", db)
             | Some record =>
                 _ ← guard (Idem_RequestDigest record !=? Lookup_RequestDigest lookup) ErrIdempotencyConflict;
                 Ok (Some record, "commit idempotency lookup", db)
             end) db in
      (match r with
       | Err e => Err e
       | Ok None => Ok (IdempotencyRecordZero, false)
       | Ok (Some record) =>
           match Idem_Status record with
           | IdempotencyCompleted | IdempotencyFailedFinal => Ok (record, true)
           | IdempotencyInProgress => Err ErrIdempotencyInProgress
           | IdempotencyFailedRetryable => Ok (record, false)
           | IdempotencyStatusOther _ as s =>
               Err (Errorf "unsupported idempotency status %q" [AStr (IdempotencyStatus_string s)])
           end
       end, db)
  end.

(** The [bool] Go returns beside an error is not modelled: no caller reads it. *)
Definition ResolveRouteSelection (env : TaskEnv) (lookup : IdempotencyLookup) (db : DB)
    : result (option RouteSelectionResult) * DB :=
  let '(r, db) := ResolveIdempotency env lookup db in
  (match r with
   | Err e => Err e
   | Ok (_, false) => Ok None
   | Ok (record, true) =>
       if (Idem_Status record !=? IdempotencyCompleted) || (Idem_ResourceID record ==? "")
          || (Idem_ResponsePayload record ==? "")
       then Err (Errorf "completed route selection replay is incomplete" [])
       else match unmarshal_selection J (Idem_ResponsePayload record) with
       | Err e => Err (Errorw "decode route selection replay: %w" [] e)
       | Ok payload =>
           _ ← guard ((Decision_ID (Payload_Decision payload) ==? "")
                      || (Decision_TaskID (Payload_Decision payload) !=? Idem_ResourceID record))
                 (Errorf "route selection replay decision lineage is invalid" []);
           _ ← guard (missing_target payload)
                 (Errorf "route selection replay is missing frozen target evidence" []);
           Ok (Some (mkRouteSelectionResult None payload None record true))
       end
   end, db).

End store.
End TaskStore.
