(* ===== verification/TaskLog.v ===== *)
(** * TaskLog: the event log of a task and the steps commands take

    The abstract specification of the command kernel.  A command either leaves
    the database as it was or takes one step: it writes the task and appends
    the events that account for the write, adds outbox messages and route
    decisions, and moves its own idempotency record.  [replay] is the reference
    definition of a task's status: what its event log says. *)
From S2P Require Import Prelude Identity Domain RouteTypes LeaseSchema OutboxStore TaskSchema TaskStore.

Module TaskLog.
Import Domain RouteTypes LeaseSchema TaskSchema TaskStore.

(** ** Replaying a log *)

(** The state an event records; [TaskRouteSelected] is recorded within ROUTING,
    and the first event is [TaskCreated]. *)
Definition replay_event (s : option TaskStatus) (ty : string) : option TaskStatus :=
  if ty ==? "TaskCreated" then Some TaskCreated
  else match s with
  | None => None
  | Some s =>
      if ty ==? "TaskRouteSelected" then if s ==? TaskRouting then Some TaskRouting else None
      else if ty ==? "TaskPlanningStarted" then Some TaskPlanning
      else if ty ==? "TaskRoutingStarted" then Some TaskRouting
      else if ty ==? "TaskExecutionStarted" then Some TaskExecuting
      else if ty ==? "TaskApprovalRequested" then Some TaskWaitingApproval
      else if ty ==? "TaskValidationStarted" then Some TaskValidating
      else if ty ==? "TaskCompleted" then Some TaskCompleted
      else if ty ==? "TaskFailed" then Some TaskFailed
      else if ty ==? "TaskCancelled" then Some TaskCancelled
      else if ty ==? "TaskExpired" then Some TaskExpired
      else None
  end.

Definition replay (log : list TaskEvent) : option TaskStatus :=
  foldl replay_event None (Event_EventType <$> log).

Lemma replay_canonical s to ty :
  CanonicalTaskStateEvent to = (ty, true) → replay_event (Some s) ty = Some to.
Proof. by destruct to; intros [= <-]. Qed.

(** ** Steps *)

Definition owner (t : Task) : ScopeKey := (Task_TenantID t, Task_ProjectID t).

Definition same_identity (t t' : Task) : Prop :=
  Task_ID t' = Task_ID t ∧ owner t' = owner t ∧ Task_CreatedBy t' = Task_CreatedBy t
  ∧ Task_CreatedAt t' = Task_CreatedAt t.

Lemma same_identity_refl t : same_identity t t.
Proof. done. Qed.

(** The events [es] belong to [t] and are numbered from [n]. *)
Definition numbered (t : Task) (n : Z) (es : list TaskEvent) : Prop :=
  ∀ i e, es !! i = Some e →
    Event_TaskID e = Task_ID t ∧ (Event_TenantID e, Event_ProjectID e) = owner t
    ∧ Event_Sequence e = (n + Z.of_nat i)%Z.

Definition insert_events (es : list TaskEvent) (m : gmap string TaskEvent) : gmap string TaskEvent :=
  foldl (λ m e, <[Event_EventID e := e]> m) m es.

Definition fresh_events (es : list TaskEvent) (m : gmap string TaskEvent) : Prop :=
  NoDup (Event_EventID <$> es) ∧ ∀ e, e ∈ es → m !! Event_EventID e = None.

(** [n] is one more than the largest sequence the task has. *)
Definition next_free (db : DB) (t : Task) (n : Z) : Prop :=
  (∀ e, e ∈ task_events (owner t) (Task_ID t) db → (Event_Sequence e < n)%Z)
  ∧ (n = 1%Z ∨ ∃ e, e ∈ task_events (owner t) (Task_ID t) db ∧ Event_Sequence e = (n - 1)%Z).

(** The task written, if any, is one of [scope]. *)
Inductive task_write (scope : ScopeKey) (db : DB) : gmap string Task → gmap string TaskEvent → Prop :=
| write_none : task_write scope db (tasks db) (events db)
| write_create t e :
    owner t = scope → tasks db !! Task_ID t = None → Task_Version t = 1%Z → Task_Status t = TaskCreated →
    numbered t 1 [e] → Event_EventType e = "TaskCreated" → events db !! Event_EventID e = None →
    task_write scope db (<[Task_ID t := t]> (tasks db)) (<[Event_EventID e := e]> (events db))
| write_advance t t' n es :
    owner t = scope → tasks db !! Task_ID t = Some t → same_identity t t' → es ≠ [] →
    Task_Version t' = (Task_Version t + Z.of_nat (length es))%Z →
    next_free db t n → numbered t n es → fresh_events es (events db) →
    foldl replay_event (Some (Task_Status t)) (Event_EventType <$> es) = Some (Task_Status t') →
    task_write scope db (<[Task_ID t := t']> (tasks db)) (insert_events es (events db)).

(** Messages are only added, in [scope] and as the table's constraints want them. *)
Definition outbox_grows (scope : ScopeKey) (o o' : gmap string OutboxStore.OutboxRow) : Prop :=
  ∀ id, o' !! id = o !! id
        ∨ (o !! id = None ∧ ∃ row, o' !! id = Some row ∧ Outbox_OutboxID (OutboxStore.o_message row) = id
           ∧ OutboxStore.outbox_checks row = true ∧ OutboxStore.visible scope row = true).

Definition is_final (s : IdempotencyStatus) : bool :=
  match s with IdempotencyCompleted | IdempotencyFailedFinal => true | _ => false end.

(** How the record of a key may move. *)
Definition idem_moves (k : IdemKey) (db db' : DB) : Prop :=
  ∃ row', idem db' = <[k := row']> (idem db)
  ∧ match idem db !! k with
    | None => True
    | Some row =>
        is_final (i_status row) = false ∧ i_request_digest row' = i_request_digest row
        ∧ i_created_at row' = i_created_at row ∧ i_expires_at row' = i_expires_at row
    end.

Definition tstep (scope : ScopeKey) (k : IdemKey) (db db' : DB) : Prop :=
  k.1 = scope ∧ task_write scope db (tasks db') (events db')
  ∧ outbox_grows scope (outbox db) (outbox db') ∧ routes db ⊆ routes db' ∧ idem_moves k db db'.

(** ** Lookup in inserted events *)

Lemma lookup_insert_events es m eid e :
  fresh_events es m →
  insert_events es m !! eid = Some e ↔ m !! eid = Some e ∨ (e ∈ es ∧ Event_EventID e = eid).
Proof.
  revert m. induction es as [|x es IH]; intros m [Hnd Hf]; simpl; [set_solver|].
  rewrite fmap_cons, NoDup_cons in Hnd. destruct Hnd as [Hx Hnd].
  rewrite IH.
  - rewrite lookup_insert_Some, elem_of_cons. split.
    + intros [[[<- <-]|[? ?]]|[? ?]]; auto.
    + intros [Hm|[[->|Hin] Hid]]; auto. left. right. split; [|done]. intros <-.
      rewrite Hf in Hm; [done|]. set_solver.
  - split; [done|]. intros y Hy. rewrite lookup_insert_ne; [apply Hf; set_solver|].
    intros Heq. apply Hx. rewrite Heq. apply list_elem_of_fmap. eauto.
Qed.

(** ** The invariant *)

(** The log of a task: all its events, in order. *)
Definition task_log (db : DB) (t : Task) (log : list TaskEvent) : Prop :=
  Task_Version t = Z.of_nat (length log)
  ∧ (∀ e, e ∈ log ↔ ∃ eid, events db !! eid = Some e ∧ Event_TaskID e = Task_ID t)
  ∧ (∀ i e, log !! i = Some e → Event_Sequence e = (Z.of_nat i + 1)%Z)
  ∧ replay log = Some (Task_Status t).

Record Inv (db : DB) : Prop := {
  inv_task : ∀ id t, tasks db !! id = Some t → Task_ID t = id ∧ ∃ log, task_log db t log;
  inv_event : ∀ eid e, events db !! eid = Some e →
    Event_EventID e = eid
    ∧ ∃ t, tasks db !! Event_TaskID e = Some t ∧ (Event_TenantID e, Event_ProjectID e) = owner t;
  inv_outbox : OutboxStore.table_ok (outbox db)
}.

Lemma taskInv_empty : Inv emptyDB.
Proof. split; simpl; intros; by rewrite ?lookup_empty in *. Qed.

Lemma task_log_in_scope db t log e :
  Inv db → tasks db !! Task_ID t = Some t → task_log db t log →
  e ∈ log ↔ e ∈ task_events (owner t) (Task_ID t) db.
Proof.
  intros HI Ht (_ & Hin & _). rewrite Hin, elem_of_task_events. split.
  - intros (eid & He & Htid). exists eid. split_and!; [done| |done].
    destruct (inv_event db HI _ _ He) as (_ & t' & Ht' & Hs). rewrite Htid, Ht in Ht'. by simplify_eq.
  - intros (eid & ? & ? & ?). eauto.
Qed.

(** The next free sequence is one more than the version. *)
Lemma next_free_version db t log n :
  Inv db → tasks db !! Task_ID t = Some t → task_log db t log → next_free db t n →
  n = (Z.of_nat (length log) + 1)%Z.
Proof.
  intros HI Ht Hlog [Hlt Hn]. pose proof Hlog as (_ & _ & Hseq & Hrep).
  assert (∀ e, e ∈ log → (Event_Sequence e < n)%Z) as Hlt'
    by (intros e He; apply Hlt; by rewrite <- task_log_in_scope).
  destruct (decide (log = [])) as [->|Hne]; [done|].
  destruct (last log) as [e|] eqn:Hl; [|by apply last_None in Hl].
  rewrite last_lookup in Hl. pose proof (Hseq _ _ Hl) as Hs.
  pose proof (Hlt' e (list_elem_of_lookup_2 _ _ _ Hl)) as H1.
  assert (length log ≠ 0) by (by destruct log).
  assert (Z.of_nat (length log) < n)%Z as Hlen by lia.
  destruct Hn as [->|(e' & He' & Hs')]; [lia|].
  rewrite <- (task_log_in_scope db t log) in He' by done.
  apply list_elem_of_lookup in He' as [i Hi]. pose proof (lookup_lt_Some _ _ _ Hi).
  apply Hseq in Hi. lia.
Qed.

Lemma task_log_other db db' t log :
  (∀ eid e, Event_TaskID e = Task_ID t → events db' !! eid = Some e ↔ events db !! eid = Some e) →
  task_log db t log → task_log db' t log.
Proof.
  intros Hev (H1 & H2 & H3 & H4). split_and!; try done. intros e. rewrite H2.
  split; intros (eid & He & Ht); exists eid; split; try done; by apply Hev.
Qed.

Lemma Inv_create db db' t e :
  Inv db → tasks db !! Task_ID t = None → Task_Version t = 1%Z → Task_Status t = TaskCreated →
  numbered t 1 [e] → Event_EventType e = "TaskCreated" → events db !! Event_EventID e = None →
  tasks db' = <[Task_ID t := t]> (tasks db) → events db' = <[Event_EventID e := e]> (events db) →
  OutboxStore.table_ok (outbox db') → Inv db'.
Proof.
  intros HI Hnone Hv Hst Hnum Hty Hfresh Ht' He' Ho.
  destruct (Hnum 0 e eq_refl) as (Htid & Hsc & Hseq).
  assert (∀ eid x, events db !! eid = Some x → Event_TaskID x ≠ Task_ID t) as Hold.
  { intros eid x Hx Heq. destruct (inv_event db HI _ _ Hx) as (_ & y & Hy & _). congruence. }
  split; [| |done].
  - intros id u Hu. rewrite Ht' in Hu. apply lookup_insert_Some in Hu as [[<- <-]|[Hne Hu]].
    + split; [done|]. exists [e]. split_and!; [done| | |by unfold replay; simpl; rewrite Hty, Hst].
      * intros x. rewrite list_elem_of_singleton, He'. split.
        { intros ->. exists (Event_EventID e). by rewrite lookup_insert_eq. }
        intros (eid & [[_ <-]|[_ Hx]]%lookup_insert_Some & Hxt); [done|]. by apply Hold in Hx.
      * intros [|i] x Hx; [|done]. simpl in Hx. simplify_eq. lia.
    + destruct (inv_task db HI _ _ Hu) as (Hid & log & Hlog). split; [done|]. exists log.
      eapply task_log_other; [|exact Hlog]. intros eid x Hx. rewrite He', lookup_insert_Some. split.
      * intros [[<- <-]|[_ ?]]; [congruence|done].
      * intros Hx'. right. split; [|done]. intros <-. congruence.
  - intros eid x Hx. rewrite He' in Hx. apply lookup_insert_Some in Hx as [[<- <-]|[Hne Hx]].
    + split; [done|]. exists t. rewrite Htid, Ht', lookup_insert_eq. done.
    + destruct (inv_event db HI _ _ Hx) as (Hid & u & Hu & Hsu). split; [done|]. exists u.
      rewrite Ht', lookup_insert_ne; [done|]. intros Heq. by apply (Hold _ _ Hx).
Qed.

(** Appending the events to the log. *)
Lemma task_log_advance db t t' n es log :
  Inv db → tasks db !! Task_ID t = Some t → same_identity t t' →
  Task_Version t' = (Task_Version t + Z.of_nat (length es))%Z →
  next_free db t n → numbered t n es → fresh_events es (events db) →
  foldl replay_event (Some (Task_Status t)) (Event_EventType <$> es) = Some (Task_Status t') →
  task_log db t log →
  ∀ db', events db' = insert_events es (events db) → task_log db' t' (log ++ es).
Proof.
  intros HI Ht (Hid & _ & _) Hv Hnf Hnum Hfr Hrep Hlog db' He'.
  pose proof (next_free_version _ _ _ _ HI Ht Hlog Hnf) as ->.
  destruct Hlog as (H1 & H2 & H3 & H4). split_and!.
  - rewrite length_app. lia.
  - intros e. rewrite elem_of_app, H2, He', Hid. setoid_rewrite (lookup_insert_events es _ _ _ Hfr).
    split.
    + intros [(eid & ? & ?)|Hin]; [eauto|]. exists (Event_EventID e). split; [auto|].
      apply list_elem_of_lookup in Hin as [i Hi]. by apply Hnum in Hi as (? & _).
    + intros (eid & [?|[? _]] & ?); eauto.
  - intros i e Hi. apply lookup_app_Some in Hi as [Hi|[Hle Hi]]; [by apply H3|].
    apply Hnum in Hi as (_ & _ & ->). lia.
  - unfold replay in *. rewrite fmap_app, foldl_app, H4. done.
Qed.

Lemma Inv_advance db db' t t' n es :
  Inv db → tasks db !! Task_ID t = Some t → same_identity t t' →
  Task_Version t' = (Task_Version t + Z.of_nat (length es))%Z →
  next_free db t n → numbered t n es → fresh_events es (events db) →
  foldl replay_event (Some (Task_Status t)) (Event_EventType <$> es) = Some (Task_Status t') →
  tasks db' = <[Task_ID t := t']> (tasks db) → events db' = insert_events es (events db) →
  OutboxStore.table_ok (outbox db') → Inv db'.
Proof.
  intros HI Ht Hid Hv Hnf Hnum Hfr Hrep Ht' He' Ho.
  assert (∀ e, e ∈ es → Event_TaskID e = Task_ID t ∧ (Event_TenantID e, Event_ProjectID e) = owner t) as Hes.
  { intros e [i Hi]%list_elem_of_lookup. by apply Hnum in Hi as (? & ? & _). }
  split; [| |done].
  - intros id u Hu. rewrite Ht' in Hu. apply lookup_insert_Some in Hu as [[<- <-]|[Hne Hu]].
    + split; [apply Hid|]. destruct (inv_task db HI _ _ Ht) as (_ & log & Hlog). exists (log ++ es).
      by eapply task_log_advance.
    + destruct (inv_task db HI _ _ Hu) as (Huid & log & Hlog). split; [done|]. exists log.
      eapply task_log_other; [|exact Hlog]. intros eid x Hx. rewrite He', lookup_insert_events by done.
      split; [intros [?|[Hin _]]; [done|]|by left]. apply Hes in Hin as [Hxt _]. congruence.
  - intros eid x Hx. rewrite He', lookup_insert_events in Hx by done. destruct Hx as [Hx|[Hin <-]].
    + destruct (inv_event db HI _ _ Hx) as (Heid & u & Hu & Hsu). split; [done|].
      rewrite Ht'. destruct (decide (Event_TaskID x = Task_ID t)) as [Heq|Hne].
      * exists t'. rewrite Heq, lookup_insert_eq. split; [done|].
        rewrite Heq, Ht in Hu. simplify_eq. rewrite Hsu. symmetry. apply Hid.
      * exists u. by rewrite lookup_insert_ne by done.
    + split; [done|]. exists t'. apply Hes in Hin as [-> Hso]. rewrite Ht', lookup_insert_eq.
      split; [done|]. rewrite Hso. symmetry. apply Hid.
Qed.

Lemma outbox_grows_ok scope o o' : outbox_grows scope o o' → OutboxStore.table_ok o → OutboxStore.table_ok o'.
Proof.
  intros Hg Hok id row Hrow. destruct (Hg id) as [Heq|(_ & row' & Hrow' & ? & ? & _)].
  - apply Hok. by rewrite <- Heq.
  - rewrite Hrow' in Hrow. by simplify_eq.
Qed.

(** Every step keeps the invariant. *)
Lemma tstep_Inv scope k db db' : tstep scope k db db' → Inv db → Inv db'.
Proof.
  intros (_ & Hw & Hg & _) HI. pose proof (outbox_grows_ok _ _ _ Hg (inv_outbox db HI)) as Ho.
  inversion Hw as [Ht He|t e ? ? ? ? ? ? ? Ht He|t t' n es ? ? ? ? ? ? ? ? ? Ht He].
  - destruct HI as [I1 I2 _]. split; [| |done].
    + intros id u Hu. rewrite <- Ht in Hu. destruct (I1 _ _ Hu) as (? & log & Hlog). split; [done|].
      exists log. eapply task_log_other; [|exact Hlog]. intros. by rewrite <- He.
    + rewrite <- Ht, <- He. done.
  - eapply Inv_create; eauto.
  - eapply Inv_advance; eauto.
Qed.

(** ** What never changes *)

Lemma tstep_event scope k db db' eid e :
  tstep scope k db db' → events db !! eid = Some e → events db' !! eid = Some e.
Proof.
  intros (_ & Hw & _) He. inversion Hw as [|t x ? ? ? ? ? ? Hf|t t' n es ? ? ? ? ? ? ? Hfr]; [done| |].
  - apply lookup_insert_Some. right. split; [|done]. intros <-. congruence.
  - apply lookup_insert_events; auto.
Qed.

Lemma tstep_task scope k db db' id t :
  tstep scope k db db' → Inv db → tasks db !! id = Some t →
  ∃ t', tasks db' !! id = Some t' ∧ same_identity t t' ∧ (t' = t ∨ (Task_Version t < Task_Version t')%Z).
Proof.
  intros (_ & Hw & _) HI Ht. inversion Hw as [|u x ? Hn|u u' n es ? Hu Hid Hne Hv].
  - exists t. by auto using same_identity_refl.
  - exists t. rewrite lookup_insert_ne by congruence. by auto using same_identity_refl.
  - destruct (decide (Task_ID u = id)) as [<-|Hdiff].
    + rewrite Ht in Hu. simplify_eq. exists u'. rewrite lookup_insert_eq. split_and!; try done.
      right. rewrite Hv. destruct es; [done|simpl; lia].
    + exists t. rewrite lookup_insert_ne by done. by auto using same_identity_refl.
Qed.

Lemma tstep_idem_other scope k k' db db' : tstep scope k db db' → k' ≠ k → idem db' !! k' = idem db !! k'.
Proof. intros (_ & _ & _ & _ & row' & -> & _) Hne. by rewrite lookup_insert_ne. Qed.

(** A final record does not move: no step is taken on its key. *)
Lemma tstep_final scope k db db' row :
  tstep scope k db db' → idem db !! k = Some row → is_final (i_status row) = false.
Proof. intros (_ & _ & _ & _ & row' & _ & H) Hk. rewrite Hk in H. apply H. Qed.

(** Only rows of [scope] are written. *)
Definition confined (scope : ScopeKey) (db db' : DB) : Prop :=
  (∀ id, tasks db' !! id ≠ tasks db !! id → ∃ t', tasks db' !! id = Some t' ∧ owner t' = scope)
  ∧ (∀ id, events db' !! id ≠ events db !! id →
       ∃ e, events db' !! id = Some e ∧ (Event_TenantID e, Event_ProjectID e) = scope)
  ∧ (∀ id, outbox db' !! id ≠ outbox db !! id →
       ∃ row, outbox db' !! id = Some row ∧ OutboxStore.visible scope row = true)
  ∧ ∀ k, idem db' !! k ≠ idem db !! k → k.1 = scope.

Lemma tstep_confined scope k db db' : tstep scope k db db' → confined scope db db'.
Proof.
  intros (Hk & Hw & Hg & _ & row' & Hi & _). unfold confined. split_and!.
  - intros id Hne. inversion Hw as [Ht He|t e Hs ? ? ? ? ? ? Ht He|t t' n es Hs ? Hid ? ? ? ? ? ? Ht He].
    + by rewrite Ht in Hne.
    + rewrite <- Ht in *. destruct (decide (Task_ID t = id)) as [<-|?]; [|by rewrite lookup_insert_ne in Hne].
      exists t. by rewrite lookup_insert_eq.
    + rewrite <- Ht in *. destruct (decide (Task_ID t = id)) as [<-|?]; [|by rewrite lookup_insert_ne in Hne].
      exists t'. rewrite lookup_insert_eq. split; [done|]. rewrite <- Hs. apply Hid.
  - intros id Hne. inversion Hw as [Ht He|t e Hs ? ? ? Hn ? ? Ht He|t t' n es Hs ? ? ? ? ? Hn Hf ? Ht He].
    + by rewrite He in Hne.
    + rewrite <- He in *. destruct (decide (Event_EventID e = id)) as [<-|?]; [|by rewrite lookup_insert_ne in Hne].
      exists e. rewrite lookup_insert_eq. split; [done|]. rewrite <- Hs. by apply (Hn 0 e).
    + rewrite <- He in *. destruct (insert_events es (events db) !! id) as [e|] eqn:E.
      * apply lookup_insert_events in E as [E|[Hin _]]; [congruence| |done]. exists e. split; [done|].
        rewrite <- Hs. apply list_elem_of_lookup in Hin as [i Hin]. by apply Hn in Hin as (_ & ? & _).
      * destruct (events db !! id) as [e|] eqn:E'; [|done].
        assert (insert_events es (events db) !! id = Some e); [|congruence].
        apply lookup_insert_events; auto.
  - intros id Hne. destruct (Hg id) as [?|(_ & row & ? & _ & _ & ?)]; [done|eauto].
  - intros k' Hne. destruct (decide (k' = k)) as [->|?]; [done|]. by rewrite Hi, lookup_insert_ne in Hne.
Qed.

End TaskLog.
