(* ===== verification/TaskRefine.v ===== *)
(** * TaskRefine: every command of the kernel takes at most one step

    What each statement sequence of [TaskStore] does when it succeeds, and that
    the whole command refines [TaskLog]'s steps: it leaves the database, or it
    takes the one step its idempotency key allows. *)
From S2P Require Import Prelude Identity Domain ExecTypes LeaseSchema OutboxStore RouteTypes TaskSchema TaskStore TaskLog.

Module TaskRefine.
Import Domain RouteTypes LeaseSchema TaskSchema TaskStore TaskLog.

Lemma guard_Ok b e u : guard b e = Ok u → b = false.
Proof. by destruct b. Qed.

(** Peel the guards off [H : (_ ← guard b e; ..) = Ok _]. *)
Ltac peel H :=
  repeat match type of H with
  | (mbind _ (guard _ _)) = Ok _ =>
      let u := fresh "u" in let Hg := fresh "Hg" in
      apply bind_Ok in H as (u & Hg & H); apply guard_Ok in Hg; clear u
  end.

Section refine.
Variable pg_ts : Time → Time.
Variable pg_jsonb : string → result string.
Variable J : Codec.

(** ** Idempotency records *)

Lemma load_Ok env r db rec :
  loadIdempotencyForUpdate env r db = Ok rec →
  ∃ row, idem db !! key_of r = Some row ∧ rec = scan_idem (key_of r) row.
Proof.
  unfold loadIdempotencyForUpdate, loadIdempotency, fault, mbind, result_bind.
  destruct (env_fault _ _); [done|]. destruct (idem db !! key_of r) as [row|] eqn:E; simpl; [|done].
  intros [= <-]. eauto.
Qed.

(** Replay: the record is final and was made by the same request. *)
Lemma reserve_replay env d db existing db' :
  reserveIdempotency pg_ts env d db = Ok (Some existing, db') →
  db' = db ∧ ∃ row, idem db !! key_of d = Some row ∧ existing = scan_idem (key_of d) row
  ∧ i_request_digest row = Idem_RequestDigest d ∧ is_final (i_status row) = true.
Proof.
  unfold reserveIdempotency. intros H. bind_inv H u Hu. peel H.
  destruct (idem db !! key_of d) as [row|] eqn:E; [|done].
  bind_inv H old Hex. apply load_Ok in Hex as (row' & Hr & ->). simplify_eq.
  case_match eqn:Hd; [done|]. go_props. simpl in *.
  destruct (i_status row) eqn:Hst; simplify_eq; try done; try (by bind_inv H v Hv);
    (split; [done|]; exists row; split_and!; [done..|by rewrite Hst]).
Qed.

(** Reserving: a new record, or one released by a retryable failure. *)
Lemma reserve_new env d db db' :
  reserveIdempotency pg_ts env d db = Ok (None, db') →
  ∃ row', db' = set_idem (<[key_of d := row']> (idem db)) db
  ∧ i_status row' = IdempotencyInProgress ∧ i_request_digest row' = Idem_RequestDigest d
  ∧ match idem db !! key_of d with
    | None => True
    | Some row => i_status row = IdempotencyFailedRetryable ∧ i_request_digest row = Idem_RequestDigest d
                  ∧ i_created_at row' = i_created_at row ∧ i_expires_at row' = i_expires_at row
    end.
Proof.
  unfold reserveIdempotency. intros H. bind_inv H u Hu. peel H.
  destruct (idem db !! key_of d) as [row|] eqn:E.
  - bind_inv H old Hex. apply load_Ok in Hex as (row' & Hr & ->). simplify_eq.
    case_match eqn:Hd; [done|]. go_props. simpl in *.
    destruct (i_status row) eqn:Hst; simplify_eq; try done. bind_inv H v Hv. injection H as <-.
    exists (reacquired_row row). split_and!; try done.
  - injection H as <-. eauto 10.
Qed.

Lemma complete_Ok env r db db' :
  completeIdempotency pg_jsonb env r db = Ok db' →
  ∃ row payload, idem db !! key_of r = Some row ∧ i_request_digest row = Idem_RequestDigest r
  ∧ (if Idem_ResponsePayload r ==? "" then payload = None
     else ∃ text, pg_jsonb (Idem_ResponsePayload r) = Ok text ∧ payload = Some text)
  ∧ db' = set_idem (<[key_of r := completed_row r payload row]> (idem db)) db.
Proof.
  unfold completeIdempotency. intros H. bind_inv H u Hu. bind_inv H payload Hp.
  destruct (idem db !! key_of r) as [row|] eqn:E; [|done]. case_match eqn:Hd; [|done].
  case_match; [|done]. case_match; [|done]. injection H as <-. go_props. exists row, payload.
  split_and!; try done. case_match; [by simplify_eq|]. bind_inv Hp t Ht. simplify_eq.
  unfold jsonb_param in Ht. case_match; simplify_eq. eauto.
Qed.

(** Reserve, then complete the same key: one move of its record. *)
Lemma moves_once k (m : gmap _ IdemRow) row1 row2 db db' :
  m = <[k := row1]> (idem db) → idem db' = <[k := row2]> m →
  i_request_digest row2 = i_request_digest row1 → i_created_at row2 = i_created_at row1 →
  i_expires_at row2 = i_expires_at row1 →
  match idem db !! k with
  | None => True
  | Some row => i_status row = IdempotencyFailedRetryable ∧ i_request_digest row = i_request_digest row1
                ∧ i_created_at row1 = i_created_at row ∧ i_expires_at row1 = i_expires_at row
  end → idem_moves k db db'.
Proof.
  intros -> Hdb' Hd Hc He H. exists row2. rewrite Hdb', insert_insert_eq. split; [done|].
  destruct (idem db !! k) as [row|]; [|done]. destruct H as (-> & ? & ? & ?). split_and!; [done|congruence..].
Qed.

(** ** Tasks, events and messages *)

Lemma lock_task_Ok env label p id db current :
  lock_task env label p id db = Ok current →
  tasks db !! id = Some current ∧ scope_of p = owner current.
Proof.
  unfold lock_task. intros H. bind_inv H r Hr. apply select_task_Ok in Hr.
  destruct r as [t|]; [|done]. case_match; [done|]. by injection H as <-.
Qed.

Lemma project_task_Ok env label p t inc db v db' :
  project_task pg_ts env label p t inc db = Ok (v, db') →
  ∃ row, tasks db !! Task_ID t = Some row ∧ Task_Version row = Task_Version t
  ∧ task_checks (projected pg_ts t inc row) = true ∧ v = (Task_Version row + inc)%Z
  ∧ db' = set_tasks (<[Task_ID t := projected pg_ts t inc row]> (tasks db)) db.
Proof.
  unfold project_task. intros H. bind_inv H r Hr. destruct r as [[v' d']|]; simplify_eq.
  apply update_task_Ok in Hr as (row & Hrow & _ & Hc & Hk & -> & ->). go_props. eauto 10.
Qed.

Lemma projected_identity t inc row : same_identity row (projected pg_ts t inc row).
Proof. done. Qed.

Lemma append_event_Ok env label p e db db' :
  append_event pg_ts pg_jsonb env label p e db = Ok db' →
  ∃ payload, events db !! Event_EventID e = None ∧ pg_jsonb (Event_Payload e) = Ok payload
  ∧ db' = set_events (<[Event_EventID e := stored_event pg_ts payload e]> (events db)) db.
Proof.
  unfold append_event. intros H. bind_inv H u Hu. apply insert_event_Ok in H as (payload & ? & ? & _ & _ & _ & _ & ->).
  eauto.
Qed.

Lemma outbox_loop_Ok env p task mis ms db out db' :
  scope_of p = owner task →
  outbox_loop pg_ts pg_jsonb env p task mis ms db = Ok (out, db') →
  db' = set_outbox (outbox db') db ∧ outbox_grows (owner task) (outbox db) (outbox db')
  ∧ out = (λ m, prepareTaskOutboxMessage m task (te_now env)) <$> ms
  ∧ Forall (λ m, ∃ payload, pg_jsonb (Outbox_Payload m) = Ok payload
                 ∧ outbox db' !! Outbox_OutboxID m = Some (stored_message pg_ts payload m)) out.
Proof.
  intros Hsc. revert db out. induction ms as [|m ms IH]; intros db out H; simpl in H.
  { simplify_eq. split_and!; [by destruct db'|intros id; by left|done|constructor]. }
  peel H. bind_inv H u Hv. bind_inv H db1 H1. bind_inv H r Hr. destruct r as [out1 db2]. simpl in H.
  injection H as <- <-. set (m' := prepareTaskOutboxMessage m task (te_now env)) in *.
  apply insertOutboxMessage_Ok in H1 as (payload & Hp & Hn & Hck & _ & ->).
  apply IH in Hr as (Hdb & Hgr & Hout & Hall).
  assert (∀ id, id ≠ Outbox_OutboxID m' → outbox (set_outbox (<[Outbox_OutboxID m' := stored_message pg_ts payload m']> (outbox db)) db) !! id = outbox db !! id) as Hne
    by (intros id ?; simpl; by rewrite lookup_insert_ne).
  assert (outbox db2 !! Outbox_OutboxID m' = Some (stored_message pg_ts payload m')) as Hm'.
  { destruct (Hgr (Outbox_OutboxID m')) as [->|[Hnone _]]; [apply lookup_insert_eq|].
    simpl in Hnone. by rewrite lookup_insert_eq in Hnone. }
  split_and!.
  - rewrite Hdb. by destruct db2.
  - intros id. destruct (decide (id = Outbox_OutboxID m')) as [->|Hid].
    + right. split; [done|]. exists (stored_message pg_ts payload m'). split_and!; [done..|].
      unfold OutboxStore.visible. simpl. go_props.
      repeat match goal with E : Outbox_TenantID m' = _ |- _ => rewrite E; clear E
                           | E : Outbox_ProjectID m' = _ |- _ => rewrite E; clear E end.
      rewrite !bool_decide_eq_true_2 by done. done.
    + destruct (Hgr id) as [->|(Hnone & row & ? & ? & ? & ?)]; rewrite ?Hne in * by done; [by left|].
      right. eauto 10.
  - by rewrite Hout.
  - constructor; [eauto|done].
Qed.

(** ** Steps from the pieces *)

(** One event after the current log, as [fill_event] numbers it. *)
Lemma fill_event_numbered e t n trace occ now payload :
  numbered t n [stored_event pg_ts payload (fill_event e t n trace occ now)].
Proof. intros [|i] x Hx; [|done]. injection Hx as <-. split_and!; [done..|simpl; lia]. Qed.

Lemma fresh_one e m : m !! Event_EventID e = None → fresh_events [e] m.
Proof. intros H. split; [apply NoDup_singleton|]. intros x ->%list_elem_of_singleton. done. Qed.

Lemma next_sequence_free env label p t db db1 n :
  scope_of p = owner t → events db1 = events db →
  next_sequence env label (scope_of p) (Task_ID t) db1 = Ok n → next_free db t n.
Proof.
  intros Hs He H. apply next_sequence_Ok in H as (_ & H1 & H2). rewrite Hs in H1, H2.
  assert (task_events (owner t) (Task_ID t) db1 = task_events (owner t) (Task_ID t) db) as Heq
    by (unfold task_events; by rewrite He).
  rewrite Heq in H1, H2. done.
Qed.

Lemma requireCommandScope_Ok env r p :
  requireCommandScope env r = Ok p →
  Identity.requireScopedPrincipal (env_ctx (te_tx env)) = Ok p ∧ (key_of r).1 = scope_of p.
Proof.
  unfold requireCommandScope. intros H. bind_inv H q Hq. case_match eqn:E; [done|]. injection H as <-.
  unfold scope_mismatch in E. go_props. split; [done|]. unfold scope_of. simpl. congruence.
Qed.

(** ** The outcomes of a command *)

(** The final record of the key, made by the same request, is handed back. *)
Definition replays (k : IdemKey) (digest : string) (db : DB) (rec : IdempotencyRecord) : Prop :=
  ∃ row, idem db !! k = Some row ∧ rec = scan_idem k row ∧ i_request_digest row = digest
         ∧ is_final (i_status row) = true.

(** The record of the key holds the result [rec]. *)
Definition completed (k : IdemKey) (rec : IdempotencyRecord) (db : DB) : Prop :=
  ∃ row payload, idem db !! k = Some (completed_row rec payload row)
  ∧ i_request_digest row = Idem_RequestDigest rec
  ∧ (if Idem_ResponsePayload rec ==? "" then payload = None
     else ∃ text, pg_jsonb (Idem_ResponsePayload rec) = Ok text ∧ payload = Some text).

Lemma moved_complete env d rec db db1 db2 db3 row1 :
  key_of rec = key_of d → Idem_RequestDigest rec = Idem_RequestDigest d →
  db1 = set_idem (<[key_of d := row1]> (idem db)) db → i_request_digest row1 = Idem_RequestDigest d →
  match idem db !! key_of d with
  | None => True
  | Some row => i_status row = IdempotencyFailedRetryable ∧ i_request_digest row = Idem_RequestDigest d
                ∧ i_created_at row1 = i_created_at row ∧ i_expires_at row1 = i_expires_at row
  end →
  idem db2 = idem db1 → completeIdempotency pg_jsonb env rec db2 = Ok db3 →
  idem_moves (key_of d) db db3 ∧ completed (key_of d) rec db3
  ∧ tasks db3 = tasks db2 ∧ events db3 = events db2 ∧ outbox db3 = outbox db2 ∧ routes db3 = routes db2.
Proof.
  intros Hk Hdg -> Hd1 Hold Hi2 H. apply complete_Ok in H as (row & payload & Hrow & Hdr & Hp & ->).
  rewrite Hk, Hi2 in Hrow. simpl in Hrow. rewrite lookup_insert_eq in Hrow. injection Hrow as <-.
  split_and!; try done.
  - eapply (moves_once _ (idem db2) row1 (completed_row rec payload row1)); simpl; rewrite ?Hk; try done.
    destruct (idem db !! key_of d); [|done]. rewrite Hd1. done.
  - exists row1, payload. simpl. rewrite Hk, lookup_insert_eq. done.
Qed.


(** The key is free: unknown, or released after a retryable failure. *)
Definition available (k : IdemKey) (digest : string) (db : DB) : Prop :=
  match idem db !! k with
  | None => True
  | Some row => i_status row = IdempotencyFailedRetryable ∧ i_request_digest row = digest
  end.

(** A step of the request [d], which found its key free. *)
Definition cstep (scope : ScopeKey) (d : IdempotencyRecord) (db db' : DB) : Prop :=
  tstep scope (key_of d) db db' ∧ available (key_of d) (Idem_RequestDigest d) db.

(** Reserve, write, complete: one step. *)
Lemma step_complete env p d rec db db1 db2 db3 row1 :
  (key_of d).1 = scope_of p → key_of rec = key_of d → Idem_RequestDigest rec = Idem_RequestDigest d →
  db1 = set_idem (<[key_of d := row1]> (idem db)) db → i_request_digest row1 = Idem_RequestDigest d →
  match idem db !! key_of d with
  | None => True
  | Some row => i_status row = IdempotencyFailedRetryable ∧ i_request_digest row = Idem_RequestDigest d
                ∧ i_created_at row1 = i_created_at row ∧ i_expires_at row1 = i_expires_at row
  end →
  task_write (scope_of p) db (tasks db2) (events db2) → outbox_grows (scope_of p) (outbox db) (outbox db2) →
  routes db ⊆ routes db2 → idem db2 = idem db1 →
  completeIdempotency pg_jsonb env rec db2 = Ok db3 →
  cstep (scope_of p) d db db3 ∧ completed (key_of d) rec db3
  ∧ tasks db3 = tasks db2 ∧ events db3 = events db2 ∧ outbox db3 = outbox db2 ∧ routes db3 = routes db2.
Proof.
  intros Hs Hk Hdg H1 Hd1 Hold Hw Hg Hr Hi H.
  apply (moved_complete env d rec db db1 db2 db3 row1) in H as (? & ? & Ht & He & Ho & Hrt); try done.
  split_and!; try done. split; [split_and!; [done| | | |done]; by rewrite ?Ht, ?He, ?Ho, ?Hrt|].
  unfold available. destruct (idem db !! _); [|done]. by destruct Hold as (? & ? & _).
Qed.

(** The messages are in the outbox. *)
Definition enqueued (ms : list OutboxMessage) (db : DB) : Prop :=
  Forall (λ m, ∃ payload, pg_jsonb (Outbox_Payload m) = Ok payload
               ∧ outbox db !! Outbox_OutboxID m = Some (stored_message pg_ts payload m)) ms.

(** The event is in the log. *)
Definition recorded (e : TaskEvent) (db : DB) : Prop :=
  ∃ payload, pg_jsonb (Event_Payload e) = Ok payload
  ∧ events db !! Event_EventID e = Some (stored_event pg_ts payload e).

(** What a successful creation has done. *)
Definition created (env : TaskEnv) (command : TaskCreateCommit) (r : TaskCommandCommitResult) (db db' : DB) : Prop :=
  let task := Create_Task command in
  Result_Task r = Some task ∧ tasks db !! Task_ID task = None
  ∧ tasks db' !! Task_ID task = Some (stored_task pg_ts task)
  ∧ (∃ e, Result_Event r = Some e ∧ Event_EventType e = "TaskCreated" ∧ Event_Sequence e = 1%Z ∧ recorded e db')
  ∧ Result_Outbox r = (λ m, prepareTaskOutboxMessage m task (te_now env)) <$> Create_Outbox command
  ∧ enqueued (Result_Outbox r) db'
  ∧ Result_Idempotency r = set_resource (Create_Idempotency command) (Task_ID task)
  ∧ completed (key_of (Create_Idempotency command)) (Result_Idempotency r) db'.

Lemma createTaskTx_Ok env p command db r c db' :
  let k := key_of (Create_Idempotency command) in
  k.1 = scope_of p → owner (Create_Task command) = scope_of p → validateTaskCreation (Create_Task command) = Ok tt →
  createTaskTx pg_ts pg_jsonb env p command db = Ok (r, c, db') →
  (Result_Replayed r = true ∧ db' = db
   ∧ replays k (Idem_RequestDigest (Create_Idempotency command)) db (Result_Idempotency r)
   ∧ ∃ t, Result_Task r = Some t ∧ tasks db !! Idem_ResourceID (Result_Idempotency r) = Some t ∧ owner t = scope_of p)
  ∨ (Result_Replayed r = false ∧ cstep (scope_of p) (Create_Idempotency command) db db' ∧ created env command r db db').
Proof.
  intros k Hk Hown Hval H. unfold createTaskTx in H. bind_inv H res Hres. destruct res as [[existing|] db1].
  - apply reserve_replay in Hres as (-> & row & Hrow & -> & Hd & Hf). case_match eqn:E; [done|]. go_props.
    bind_inv H t Ht. apply select_task_Ok in Ht. destruct t as [t|]; [|done]. injection H as <- <- <-.
    left. destruct Ht as [Ht Hs]. split_and!; try done; [by exists row|]. exists t. done.
  - right. apply reserve_new in Hres as (row1 & Hdb1 & Hst1 & Hd1 & Hold).
    bind_inv H db2 H2. apply insert_task_Ok in H2 as (Hnone & _ & _ & ->). peel H. go_props.
    bind_inv H db3 H3. apply append_event_Ok in H3 as (payload & Hfresh & Hpl & ->).
    bind_inv H o Ho. destruct o as [ms db4]. apply outbox_loop_Ok in Ho as (Hdb4 & Hgrow & Hms & Hall); [|done].
    bind_inv H db5 H5. injection H as <- <- <-. subst db1. simpl in *.
    assert (Task_Version (Create_Task command) = 1%Z ∧ Task_Status (Create_Task command) = TaskCreated) as [Hv Hs].
    { revert Hval. unfold validateTaskCreation. intros Hval. go_inv Hval. go_props. done. }
    eapply (step_complete _ p (Create_Idempotency command) _ db _ db4 _ row1) in H5 as (Hstep & Hcomp & Ht5 & He5 & Ho5 & Hr5); try done.
    + split_and!; [done..|]. unfold created. simpl. rewrite Ht5, Hdb4. simpl. rewrite lookup_insert_eq.
      split_and!; try done.
      * eexists. split_and!; [done..|]. exists payload. rewrite He5, Hdb4. simpl. by rewrite lookup_insert_eq.
      * unfold enqueued. by rewrite Ho5.
    + rewrite Hdb4. simpl. match goal with |- task_write _ _ _ (<[_ := ?e]> _) =>
        apply (write_create (scope_of p) db (stored_task pg_ts (Create_Task command)) e); simpl; try done end.
      intros [|i] x Hx; [by injection Hx as <-|done].
    + by rewrite <- Hown.
    + by rewrite Hdb4.
    + by rewrite Hdb4.
Qed.

(** The task locked by a command is the one its id names. *)
Lemma locked env label p id db db1 current :
  Inv db → tasks db1 = tasks db → lock_task env label p id db1 = Ok current →
  tasks db !! Task_ID current = Some current ∧ Task_ID current = id ∧ owner current = scope_of p.
Proof.
  intros HI Ht H. apply lock_task_Ok in H as [Hc Hs]. rewrite Ht in Hc.
  destruct (inv_task db HI _ _ Hc) as [Hid _]. rewrite Hid. done.
Qed.

(** The write of a command that moves a task by one event. *)
Lemma one_event_write p current t' db n e trace occ now payload :
  owner current = scope_of p → tasks db !! Task_ID current = Some current → same_identity current t' →
  Task_Version t' = (Task_Version current + 1)%Z →
  next_free db current n → events db !! Event_EventID e = None →
  replay_event (Some (Task_Status current)) (Event_EventType e) = Some (Task_Status t') →
  task_write (scope_of p) db (<[Task_ID current := t']> (tasks db))
    (<[Event_EventID e := stored_event pg_ts payload (fill_event e current n trace occ now)]> (events db)).
Proof.
  intros Hown Hcur Hid Hv Hnf Hfresh Hrep.
  eapply (write_advance (scope_of p) db current t' n
    [stored_event pg_ts payload (fill_event e current n trace occ now)]); try done.
  - apply fill_event_numbered.
  - by apply fresh_one.
Qed.

(** The projection update of the task just locked. *)
Lemma project_current env label p t inc db1 db2 v current :
  tasks db1 !! Task_ID current = Some current → Task_ID current = Task_ID t →
  project_task pg_ts env label p t inc db1 = Ok (v, db2) →
  v = (Task_Version current + inc)%Z
  ∧ db2 = set_tasks (<[Task_ID current := projected pg_ts t inc current]> (tasks db1)) db1.
Proof.
  intros Hc Hid H. apply project_task_Ok in H as (row & Hrow & _ & _ & -> & ->).
  rewrite <- Hid, Hc in Hrow. simplify_eq. by rewrite Hid.
Qed.

(** What a successful transition has done. *)
Definition transitioned (command : TaskCommandCommit) (r : TaskCommandCommitResult) (db db' : DB) : Prop :=
  let task := Commit_Task command in
  (∃ current, tasks db !! Task_ID task = Some current ∧ Task_Version current = Task_Version task
     ∧ Task_Status current = Transition_From (Commit_Transition command)
     ∧ Task_Status task = Transition_To (Commit_Transition command)
     ∧ tasks db' !! Task_ID task = Some (projected pg_ts task 1 current))
  ∧ (∃ e, Result_Event r = Some e ∧ CanonicalTaskStateEvent (Task_Status task) = (Event_EventType e, true)
       ∧ recorded e db')
  ∧ enqueued (Result_Outbox r) db'
  ∧ completed (key_of (Commit_Idempotency command)) (Result_Idempotency r) db'.

Lemma commitTransitionTx_Ok env p command db r c db' :
  let k := key_of (Commit_Idempotency command) in
  Inv db → k.1 = scope_of p → commitTransitionTx pg_ts pg_jsonb env p command db = Ok (r, c, db') →
  (Result_Replayed r = true ∧ db' = db
   ∧ replays k (Idem_RequestDigest (Commit_Idempotency command)) db (Result_Idempotency r))
  ∨ (Result_Replayed r = false ∧ cstep (scope_of p) (Commit_Idempotency command) db db' ∧ transitioned command r db db').
Proof.
  intros k HI Hk H. unfold commitTransitionTx in H. bind_inv H res Hres. destruct res as [[existing|] db1].
  { apply reserve_replay in Hres as (-> & row & Hrow & -> & Hd & Hf). injection H as <- <- <-.
    left. split_and!; try done. by exists row. }
  right. apply reserve_new in Hres as (row1 & -> & Hst1 & Hd1 & Hold).
  bind_inv H current Hcur. apply (locked _ _ _ _ db) in Hcur as (Hcur & Hid & Hown); [|done|done].
  peel H. destruct (CanonicalTaskStateEvent _) as [canonical ok] eqn:Hcan. peel H.
  go_props. subst ok. bind_inv H n Hn. eapply (next_sequence_free _ _ _ _ db) in Hn; [|done|done].
  bind_inv H u Hu. destruct u as [v db2]. apply (project_current _ _ _ _ _ _ _ _ current) in Hu as [-> ->]; [|done|done].
  bind_inv H db3 Hev. apply append_event_Ok in Hev as (payload & Hfresh & Hpl & ->).
  bind_inv H o Ho. destruct o as [ms db4]. apply outbox_loop_Ok in Ho as (Hdb4 & Hgrow & Hms & Hall); [|done].
  bind_inv H db5 Hfin. injection H as <- <- <-. simpl in *.
  eapply (step_complete _ p (Commit_Idempotency command) _ db _ db4 _ row1) in Hfin as (Hstep & Hcomp & Ht5 & He5 & Ho5 & Hr5); try done.
  - split_and!; [done..|]. unfold transitioned. simpl. split_and!; [| | |done].
    + exists current. rewrite <- Hid, Ht5, Hdb4. simpl. rewrite lookup_insert_eq. split_and!; congruence.
    + eexists. split_and!; [done|simpl; congruence|]. exists payload. rewrite He5, Hdb4. simpl.
      by rewrite lookup_insert_eq.
    + unfold enqueued. by rewrite Ho5.
  - rewrite Hdb4. simpl. 
    match goal with |- context [fill_event ?e] => apply (one_event_write _ _ _ _ _ e) end; try done. simpl. apply replay_canonical. congruence.
  - by rewrite <- Hown.
  - by rewrite Hdb4.
  - by rewrite Hdb4.
Qed.

End refine.
End TaskRefine.

(** * TaskRefineModel: the route and model commands as steps

    [TaskRefine] for the commands that route a task and run its model:
    [commitRouteTx], [commitSelectionTx], [beginModelTx], [finalizeModelTx] and
    the release of a retryable failure. *)

Module TaskRefineModel.
Import Domain RouteTypes LeaseSchema TaskSchema TaskStore TaskLog TaskRefine.

Section refine.
Variable pg_ts : Time → Time.
Variable pg_jsonb : string → result string.
Variable J : Codec.

Abbreviation completed := (completed pg_jsonb).
Abbreviation enqueued := (enqueued pg_ts pg_jsonb).
Abbreviation recorded := (recorded pg_ts pg_jsonb).

(** ** Routing *)

Lemma insertRouteDecisionTx_Ok env d db db' :
  insertRouteDecisionTx pg_ts pg_jsonb J env d db = Ok db' →
  ∃ row, routes db !! Decision_ID d = None ∧ r_task_id row = Decision_TaskID d
  ∧ db' = set_routes (<[Decision_ID d := row]> (routes db)) db.
Proof.
  unfold insertRouteDecisionTx. intros H.
  do 6 (let x := fresh "x" in let Hx := fresh "Hx" in apply bind_Ok in H as (x & Hx & H)).
  apply insert_route_Ok in H as [? ->]. eexists. split_and!; [done| |reflexivity]; done.
Qed.

Lemma outbox_grows_refl scope o : outbox_grows scope o o.
Proof. intros id. by left. Qed.

(** What a successful route command has done. *)
Definition routed (command : RouteTaskCommandCommit) (r : RouteTaskCommandResult) (db db' : DB) : Prop :=
  let task := Route_Task command in
  let d := RouteResult_Decision r in
  (∃ current, tasks db !! Task_ID task = Some current ∧ Task_Status current = TaskPlanning
     ∧ Task_Version current = Task_Version task
     ∧ tasks db' !! Task_ID task = Some (projected pg_ts (set_task_route task d) 1 current))
  ∧ Task_Status task = TaskRouting
  ∧ Decision_ID d = Decision_ID (Route_Decision command) ∧ Decision_TaskID d = Task_ID task
  ∧ routes db !! Decision_ID d = None
  ∧ (∃ row, routes db' !! Decision_ID d = Some row ∧ r_task_id row = Task_ID task)
  ∧ (∃ e, RouteResult_Event r = Some e ∧ Event_EventType e = "TaskRoutingStarted" ∧ recorded e db')
  ∧ enqueued (RouteResult_Outbox r) db'
  ∧ Idem_Status (RouteResult_Idempotency r) = Idem_Status (Route_Idempotency command)
  ∧ Idem_ResourceID (RouteResult_Idempotency r) = Task_ID task
  ∧ marshal_decision J d = Ok (Idem_ResponsePayload (RouteResult_Idempotency r))
  ∧ completed (key_of (Route_Idempotency command)) (RouteResult_Idempotency r) db'.

Lemma commitRouteTx_Ok env p command db r c db' :
  let k := key_of (Route_Idempotency command) in
  Inv db → k.1 = scope_of p → commitRouteTx pg_ts pg_jsonb J env p command db = Ok (r, c, db') →
  (RouteResult_Replayed r = true ∧ db' = db
   ∧ replays k (Idem_RequestDigest (Route_Idempotency command)) db (RouteResult_Idempotency r)
   ∧ Idem_ResponsePayload (RouteResult_Idempotency r) ≠ ""
   ∧ unmarshal_decision J (Idem_ResponsePayload (RouteResult_Idempotency r)) = Ok (RouteResult_Decision r))
  ∨ (RouteResult_Replayed r = false ∧ cstep (scope_of p) (Route_Idempotency command) db db' ∧ routed command r db db').
Proof.
  intros k HI Hk H. unfold commitRouteTx in H. bind_inv H res Hres. destruct res as [[existing|] db1].
  { apply reserve_replay in Hres as (-> & row & Hrow & -> & Hd & Hf). bind_inv H rr Hrr.
    injection H as <- <- <-. unfold replayRouteCommand in Hrr. do 2 (case_match; [done|]).
    case_match eqn:Hun; [|done]. bind_inv Hrr t Ht. case_match; [|done]. injection Hrr as <-.
    go_props. left. split_and!; try done. by exists row. }
  right. apply reserve_new in Hres as (row1 & -> & Hst1 & Hd1 & Hold).
  bind_inv H current Hcur. apply (locked _ _ _ _ db) in Hcur as (Hcur & Hid & Hown); [|done|done].
  peel H. bind_inv H n Hn. eapply (next_sequence_free _ _ _ _ db) in Hn; [|done|done].
  bind_inv H db2 Hrt. apply insertRouteDecisionTx_Ok in Hrt as (rrow & Hrn & Hrtask & ->).
  bind_inv H u Hu. destruct u as [v db3].
  apply (project_current _ _ _ _ _ _ _ _ _ current) in Hu as [-> ->]; [|done|done].
  peel H. go_props.
  bind_inv H db4 Hev. apply append_event_Ok in Hev as (payload & Hfresh & Hpl & ->).
  bind_inv H o Ho. destruct o as [ms db5]. apply outbox_loop_Ok in Ho as (Hdb5 & Hgrow & Hms & Hall); [|done].
  bind_inv H text Hm. destruct (marshal_decision J _) as [text'|] eqn:Hmar; [|done]. injection Hm as ->.
  bind_inv H db6 Hfin. injection H as <- <- <-. simpl in *.
  eapply (step_complete _ _ p (Route_Idempotency command) _ db _ db5 _ row1) in Hfin
    as (Hstep & Hcomp & Ht5 & He5 & Ho5 & Hr5); try done.
  - split_and!; [done..|]. unfold routed. simpl. rewrite Hr5, Ht5, Hdb5. simpl.
    rewrite <- Hid, !lookup_insert_eq. split_and!; try done.
    + exists current. split_and!; congruence.
    + eauto.
    + eexists. split_and!; [done..|]. exists payload. rewrite He5, Hdb5. simpl. by rewrite lookup_insert_eq.
    + unfold enqueued. by rewrite Ho5.
  - rewrite Hdb5. simpl.
    match goal with |- context [fill_event ?e] => apply (one_event_write _ _ _ _ _ _ e) end; try done.
    simpl. rewrite (replay_canonical _ TaskRouting) by (simpl; congruence). congruence.
  - by rewrite <- Hown.
  - rewrite Hdb5. simpl. by apply insert_subseteq.
  - by rewrite Hdb5.
Qed.

(** What a successful selection has done. *)
Definition selected (command : RouteSelectionCommit) (r : RouteSelectionResult) (db db' : DB) : Prop :=
  let d := Payload_Decision (Selection_Payload command) in
  (∃ current updatedAt, tasks db !! Task_ID (Selection_Task command) = Some current
     ∧ Task_Status current = TaskRouting ∧ Task_Version current = Task_Version (Selection_Task command)
     ∧ tasks db' !! Task_ID (Selection_Task command) = Some (selected_row pg_ts d updatedAt current))
  ∧ Decision_TaskID d = Task_ID (Selection_Task command)
  ∧ routes db !! Decision_ID d = None
  ∧ (∃ row, routes db' !! Decision_ID d = Some row ∧ r_task_id row = Task_ID (Selection_Task command))
  ∧ (∃ e, SelectionResult_Event r = Some e ∧ Event_EventType e = "TaskRouteSelected" ∧ recorded e db')
  ∧ SelectionResult_Payload r = Selection_Payload command
  ∧ Idem_Status (SelectionResult_Idempotency r) = Idem_Status (Selection_Idempotency command)
  ∧ Idem_ResourceID (SelectionResult_Idempotency r) = Task_ID (Selection_Task command)
  ∧ marshal_selection J (Selection_Payload command) = Ok (Idem_ResponsePayload (SelectionResult_Idempotency r))
  ∧ completed (key_of (Selection_Idempotency command)) (SelectionResult_Idempotency r) db'.

Lemma commitSelectionTx_Ok env p command db r c db' :
  let k := key_of (Selection_Idempotency command) in
  Inv db → k.1 = scope_of p → commitSelectionTx pg_ts pg_jsonb J env p command db = Ok (r, c, db') →
  (SelectionResult_Replayed r = true ∧ db' = db
   ∧ replays k (Idem_RequestDigest (Selection_Idempotency command)) db (SelectionResult_Idempotency r)
   ∧ Idem_ResponsePayload (SelectionResult_Idempotency r) ≠ ""
   ∧ unmarshal_selection J (Idem_ResponsePayload (SelectionResult_Idempotency r)) = Ok (SelectionResult_Payload r))
  ∨ (SelectionResult_Replayed r = false ∧ cstep (scope_of p) (Selection_Idempotency command) db db' ∧ selected command r db db').
Proof.
  intros k HI Hk H. unfold commitSelectionTx in H. bind_inv H res Hres. destruct res as [[existing|] db1].
  { apply reserve_replay in Hres as (-> & row & Hrow & -> & Hd & Hf). bind_inv H rr Hrr.
    injection H as <- <- <-. unfold replayRouteSelection in Hrr. case_match; [done|].
    case_match eqn:Hun; [|done]. peel Hrr. bind_inv Hrr t Ht. case_match; [|done]. injection Hrr as <-.
    go_props. left. split_and!; try done. by exists row. }
  right. apply reserve_new in Hres as (row1 & -> & Hst1 & Hd1 & Hold).
  bind_inv H current Hcur. apply (locked _ _ _ _ db) in Hcur as (Hcur & Hid & Hown); [|done|done].
  peel H. bind_inv H db2 Hrt. apply insertRouteDecisionTx_Ok in Hrt as (rrow & Hrn & Hrtask & ->).
  bind_inv H u Hu. destruct u as [[v db3]|]; [|done].
  apply update_task_Ok in Hu as (row & Hrow & _ & _ & _ & -> & ->). simpl in Hrow.
  rewrite Hcur in Hrow. injection Hrow as <-.
  bind_inv H n Hn. eapply (next_sequence_free _ _ _ _ db) in Hn; [|done|done]. peel H. go_props.
  bind_inv H db4 Hev. apply append_event_Ok in Hev as (payload & Hfresh & Hpl & ->).
  bind_inv H text Hm. destruct (marshal_selection J _) as [text'|] eqn:Hmar; [|done]. injection Hm as ->.
  bind_inv H db6 Hfin. injection H as <- <- <-. simpl in *.
  eapply (step_complete _ _ p (Selection_Idempotency command) _ db _ _ _ row1) in Hfin
    as (Hstep & Hcomp & Ht5 & He5 & Ho5 & Hr5); try done; simpl in *.
  - split_and!; [done..|]. unfold selected. simpl. rewrite Hr5, Ht5. simpl.
    rewrite <- Hid, !lookup_insert_eq. split_and!; try done.
    + eexists current, _. split_and!; try done; congruence.
    + exists rrow. split; [done|congruence].
    + eexists. split_and!; [done..|]. exists payload. rewrite He5. simpl. by rewrite lookup_insert_eq.
  - match goal with |- context [fill_event ?e] => apply (one_event_write _ _ _ _ _ _ e) end; try done.
    simpl. match goal with E : or_string _ _ = _ |- _ => rewrite E end.
    match goal with E : Task_Status current = _ |- _ => by rewrite E end.
  - apply outbox_grows_refl.
  - by apply insert_subseteq.
Qed.

(** ** Running the model *)

(** The record of the key is reserved by the request. *)
Definition reserved (k : IdemKey) (digest : string) (db : DB) : Prop :=
  ∃ row, idem db !! k = Some row ∧ i_status row = IdempotencyInProgress ∧ i_request_digest row = digest.

(** What a successful begin has done. *)
Definition begun (command : ModelExecutionBeginCommit) (r : ModelExecutionBeginResult) (db db' : DB) : Prop :=
  let task := Begin_Task command in
  let k := key_of (Begin_Idempotency command) in
  let digest := Idem_RequestDigest (Begin_Idempotency command) in
  reserved k digest db'
  ∧ (∃ current, tasks db !! Task_ID task = Some current ∧ Task_Version current = Task_Version task
     ∧ ((Task_Status current = TaskRouting ∧ Task_Status task = TaskExecuting
         ∧ tasks db' !! Task_ID task = Some (projected pg_ts task 1 current)
         ∧ ∃ e, BeginResult_Event r = Some e ∧ Event_EventType e = "TaskExecutionStarted" ∧ recorded e db')
        ∨ (Task_Status current = TaskExecuting ∧ BeginResult_Event r = None
           ∧ tasks db' = tasks db ∧ events db' = events db))).

Lemma beginModelTx_Ok env p command db r c db' :
  let k := key_of (Begin_Idempotency command) in
  Inv db → k.1 = scope_of p → beginModelTx pg_ts pg_jsonb env p command db = Ok (r, c, db') →
  (BeginResult_Replayed r = true ∧ db' = db
   ∧ replays k (Idem_RequestDigest (Begin_Idempotency command)) db (BeginResult_Idempotency r))
  ∨ (BeginResult_Replayed r = false ∧ cstep (scope_of p) (Begin_Idempotency command) db db' ∧ begun command r db db').
Proof.
  intros k HI Hk H. unfold beginModelTx in H. bind_inv H res Hres. destruct res as [[existing|] db1].
  { apply reserve_replay in Hres as (-> & row & Hrow & -> & Hd & Hf). injection H as <- <- <-.
    left. split_and!; try done. by exists row. }
  right. apply reserve_new in Hres as (row1 & -> & Hst1 & Hd1 & Hold).
  assert (available k (Idem_RequestDigest (Begin_Idempotency command)) db) as Hav.
  { unfold available. subst k. destruct (idem db !! _); [|done]. by destruct Hold as (? & ? & _). }
  assert (∀ db2, idem db2 = <[k := row1]> (idem db) → idem_moves k db db2) as Hmv.
  { intros db2 E. exists row1. split; [done|]. subst k. destruct (idem db !! _); [|done].
    destruct Hold as (-> & ? & ? & ?). split_and!; [done|congruence..]. }
  assert (∀ db2, idem db2 = <[k := row1]> (idem db) →
            reserved k (Idem_RequestDigest (Begin_Idempotency command)) db2) as Hrs.
  { intros db2 E. exists row1. by rewrite E, lookup_insert_eq. }
  bind_inv H current Hcur. apply (locked _ _ _ _ db) in Hcur as (Hcur & Hid & Hown); [|done|done].
  peel H. destruct (Task_Status current) eqn:Hst; try done.
  - destruct (Begin_Transition command) as [tr|], (Begin_Event command) as [ev|]; try done.
    peel H. go_props. bind_inv H n Hn. eapply (next_sequence_free _ _ _ _ db) in Hn; [|done|done].
    bind_inv H u Hu. destruct u as [v db2].
    apply (project_current _ _ _ _ _ _ _ _ _ current) in Hu as [-> ->]; [|done|done].
    bind_inv H db3 Hev. apply append_event_Ok in Hev as (payload & Hfresh & Hpl & ->).
    injection H as <- <- <-. simpl in *. split_and!; [done| |].
    + split; [|done]. split_and!; simpl; [done| |apply outbox_grows_refl|done|by apply Hmv].
      apply one_event_write; try done. simpl.
      rewrite (replay_canonical _ TaskExecuting) by (simpl; congruence). congruence.
    + split; [by apply Hrs|]. exists current. simpl. rewrite <- Hid.
      split_and!; [done|congruence|]. left. rewrite lookup_insert_eq. split_and!; try done.
      eexists. split_and!; [done..|]. exists payload. simpl. by rewrite lookup_insert_eq.
  - destruct (Begin_Transition command) as [tr|], (Begin_Event command) as [ev|]; try done.
    go_props. injection H as <- <- <-. simpl in *. split_and!; [done| |].
    + split; [|done]. split_and!; simpl; [done|constructor|apply outbox_grows_refl|done|by apply Hmv].
    + split; [by apply Hrs|]. exists current. rewrite <- Hid. split_and!; [done|congruence|]. right. done.
Qed.

Lemma loadReserved_Ok env record db u :
  loadReserved env record db = Ok u → reserved (key_of record) (Idem_RequestDigest record) db.
Proof.
  unfold loadReserved. intros H. bind_inv H rec Hrec. apply load_Ok in Hrec as (row & Hrow & ->).
  peel H. apply guard_Ok in H. go_props. exists row. done.
Qed.

(** Completing a reserved record: one move, and the result is held. *)
Lemma complete_reserved env record db db1 db2 :
  reserved (key_of record) (Idem_RequestDigest record) db → idem db1 = idem db →
  completeIdempotency pg_jsonb env record db1 = Ok db2 →
  idem_moves (key_of record) db db2 ∧ completed (key_of record) record db2
  ∧ tasks db2 = tasks db1 ∧ events db2 = events db1 ∧ outbox db2 = outbox db1 ∧ routes db2 = routes db1.
Proof.
  intros (row & Hrow & Hst & Hd) Hi H. apply complete_Ok in H as (row' & payload & Hrow' & Hd' & Hp & ->).
  rewrite Hi, Hrow in Hrow'. injection Hrow' as <-. simpl. split_and!; try done.
  - exists (completed_row record payload row). simpl. rewrite Hi, Hrow, Hst. done.
  - exists row, payload. simpl. by rewrite lookup_insert_eq.
Qed.

(** The chain of transitions replays to where it ends. *)
Lemma check_chain_replay from trs es to :
  length trs = length es → check_chain from trs es = Ok to →
  foldl replay_event (Some from) (Event_EventType <$> es) = Some to.
Proof.
  revert from es. induction trs as [|tr trs IH]; intros from [|e es] Hlen H; simpl in *; try done.
  { by injection H as ->. }
  peel H. destruct (CanonicalTaskStateEvent _) as [canonical ok] eqn:Hcan. peel H. go_props. subst ok.
  rewrite (replay_canonical from (Transition_To tr)) by congruence. apply IH; [congruence|done].
Qed.

(** The events of the chain, numbered one after the other. *)
Lemma append_events_Ok env p current trace n trs es db out db' :
  length trs = length es →
  append_events pg_ts pg_jsonb env p current trace n trs es db = Ok (out, db') →
  ∃ stored, length stored = length es ∧ db' = set_events (insert_events stored (events db)) db
  ∧ numbered current n stored ∧ fresh_events stored (events db)
  ∧ (Event_EventType <$> stored) = (Event_EventType <$> es)
  ∧ length out = length es ∧ Forall (λ e, recorded e db') out.
Proof.
  revert n es db out. induction trs as [|tr trs IH]; intros n [|e es] db out Hlen H; simpl in *; try done.
  { injection H as <- <-. exists []. split_and!; try done; [by destruct db|]. split; [constructor|]. set_solver. }
  bind_inv H db1 Hev. apply append_event_Ok in Hev as (payload & Hfresh & Hpl & ->). bind_inv H r Hr.
  destruct r as [out1 db2]. injection H as <- <-. simpl in *.
  apply IH in Hr as (stored & Hl & -> & Hnum & [Hnd Hfr] & Hty & Hlo & Hall); [|congruence]. simpl in *.
  set (s := stored_event pg_ts payload (fill_event e current n trace (Transition_At tr) (te_now env))) in *.
  assert (fresh_events (s :: stored) (events db)) as Hfr'.
  { split; simpl.
    - constructor; [|done]. intros Hin. apply list_elem_of_fmap in Hin as (x & Hx & Hin).
      apply Hfr in Hin. rewrite <- Hx in Hin. simpl in Hin. by rewrite lookup_insert_eq in Hin.
    - intros x [->|Hin]%elem_of_cons; [done|]. apply Hfr in Hin. by apply lookup_insert_None in Hin as [? _]. }
  exists (s :: stored). split_and!; [simpl; congruence|done| |done|by rewrite !fmap_cons, Hty|simpl; congruence|].
  - intros [|i] x Hx; simpl in Hx; [injection Hx as <-; split_and!; simpl; try done; lia|].
    apply Hnum in Hx as (? & ? & ->). split_and!; try done. lia.
  - constructor; [|done]. exists payload. split; [done|]. simpl.
    apply (lookup_insert_events (s :: stored)); [done|]. right. split; [set_solver|done].
Qed.

(** What a successful finalization has done. *)
Definition finalized (command : ModelExecutionFinalizeCommit) (r : ModelExecutionFinalizeResult) (db db' : DB) : Prop :=
  let task := Finalize_Task command in
  let k := key_of (Finalize_Idempotency command) in
  reserved k (Idem_RequestDigest (Finalize_Idempotency command)) db
  ∧ completed k (FinalizeResult_Idempotency r) db'
  ∧ Idem_Status (FinalizeResult_Idempotency r) = Idem_Status (Finalize_Idempotency command)
  ∧ (∃ current, tasks db !! Task_ID task = Some current ∧ Task_Status current = TaskExecuting
     ∧ Task_Version current = Task_Version task
     ∧ tasks db' !! Task_ID task
       = Some (projected pg_ts task (Z.of_nat (length (Finalize_Transitions command))) current))
  ∧ ((Task_Status task = TaskCompleted ∧ length (Finalize_Transitions command) = 2
      ∧ Idem_Status (Finalize_Idempotency command) = IdempotencyCompleted)
     ∨ (Task_Status task = TaskFailed ∧ length (Finalize_Transitions command) = 1
        ∧ Idem_Status (Finalize_Idempotency command) = IdempotencyFailedFinal))
  ∧ length (FinalizeResult_Events r) = length (Finalize_Transitions command)
  ∧ Forall (λ e, recorded e db') (FinalizeResult_Events r).

Lemma check_final_Ok command u :
  check_final command = Ok u →
  (Task_Status (Finalize_Task command) = TaskCompleted ∧ length (Finalize_Transitions command) = 2
   ∧ Idem_Status (Finalize_Idempotency command) = IdempotencyCompleted)
  ∨ (Task_Status (Finalize_Task command) = TaskFailed ∧ length (Finalize_Transitions command) = 1
     ∧ Idem_Status (Finalize_Idempotency command) = IdempotencyFailedFinal).
Proof.
  unfold check_final. intros H. destruct (Task_Status (Finalize_Task command)); try done;
    apply guard_Ok in H; go_props; [left|right]; rewrite <- (length_fmap Transition_To).
  all: repeat match goal with E : _ <$> _ = _ |- _ => rewrite E; clear E end; done.
Qed.

Lemma finalizeModelTx_Ok env p command db r c db' :
  let k := key_of (Finalize_Idempotency command) in
  Inv db → k.1 = scope_of p → finalizeModelTx pg_ts pg_jsonb env p command db = Ok (r, c, db') →
  tstep (scope_of p) k db db' ∧ finalized command r db db'.
Proof.
  intros k HI Hk H. unfold finalizeModelTx in H. bind_inv H u Hu. apply loadReserved_Ok in Hu.
  bind_inv H current Hcur. apply (locked _ _ _ _ db) in Hcur as (Hcur & Hid & Hown); [|done|done].
  peel H. bind_inv H to Hch. peel H. bind_inv H uf Hcf. apply check_final_Ok in Hcf.
  bind_inv H n Hn. eapply (next_sequence_free _ _ _ _ db) in Hn; [|done|done].
  bind_inv H w Hw. destruct w as [v db2].
  apply (project_current _ _ _ _ _ _ _ _ _ current) in Hw as [-> ->]; [|done|done].
  go_props. match goal with E : Nat.eqb (length _) (length _) = true |- _ => apply Nat.eqb_eq in E as Hlen end.
  bind_inv H a Ha. destruct a as [out db3].
  apply append_events_Ok in Ha as (stored & Hl & -> & Hnum & Hfr & Hty & Hlo & Hall); [|done].
  bind_inv H db4 Hfin. injection H as <- <- <-. simpl in *.
  apply (complete_reserved _ _ db) in Hfin as (Hmv & Hcomp & Ht & He & Ho & Hr); [|done|done]. simpl in *.
  apply check_chain_replay in Hch; [|done]. split.
  - split_and!; rewrite ?Ht, ?He, ?Ho, ?Hr; simpl; [done| |apply outbox_grows_refl|done|done].
    eapply (write_advance (scope_of p) db current); try done.
    + intros ->. simpl in Hl. rewrite <- Hl in Hlen. by rewrite Hlen in *.
    + simpl. lia.
    + rewrite Hty, Hch. simpl. congruence.
  - split_and!; try done; simpl.
    + exists current. rewrite Ht, <- Hid. simpl. rewrite lookup_insert_eq. split_and!; congruence.
    + congruence.
    + eapply Forall_impl; [exact Hall|]. intros e (payload & ? & Hlk). exists payload. by rewrite He.
Qed.

(** The release of a retryable failure. *)
Lemma retryableTx_Ok env record p db u c db' :
  (key_of record).1 = scope_of p →
  (_ ← loadReserved env record db;
   db ← completeIdempotency pg_jsonb env record db;
   Ok (tt, "commit retryable model result transaction", db)) = Ok (u, c, db') →
  tstep (scope_of p) (key_of record) db db' ∧ reserved (key_of record) (Idem_RequestDigest record) db
  ∧ completed (key_of record) record db'.
Proof.
  intros Hk H. bind_inv H v Hv. apply loadReserved_Ok in Hv. bind_inv H db1 Hc. injection H as <- <- <-.
  apply (complete_reserved _ _ db) in Hc as (Hmv & Hcomp & Ht & He & Ho & Hr); [|done|done].
  split_and!; try done. split_and!; rewrite ?Ht, ?He, ?Ho, ?Hr; [done|constructor|apply outbox_grows_refl|done|done].
Qed.

End refine.
End TaskRefineModel.
