(* ===== verification/TaskHistory.v ===== *)
(** * TaskHistory: histories of the command kernel

    Any sequence of commands, lookups and dispatcher calls, by any principals,
    with any faults, on one database.  Each leaves the database or takes a step
    of [TaskLog]; from that follow the properties of whole histories: a task is
    what its event log says, events and identities are never rewritten, a final
    command record is frozen and replayed, and a model command is begun once. *)
From S2P Require Import Prelude Identity Domain RouteTypes ExecTypes LeaseSchema OutboxStore.
From S2P Require Import TaskSchema TaskStore TaskLog TaskRefine.

Module TaskHistory.
Import Domain RouteTypes LeaseSchema TaskSchema TaskStore TaskLog TaskRefine TaskRefineModel.

Inductive call : Type :=
| CallCreate (command : TaskCreateCommit)
| CallTransition (command : TaskCommandCommit)
| CallRoute (command : RouteTaskCommandCommit)
| CallSelection (command : RouteSelectionCommit)
| CallBegin (command : ModelExecutionBeginCommit)
| CallFinalize (command : ModelExecutionFinalizeCommit)
| CallRetryable (record : IdempotencyRecord)
| CallResolve (lookup : IdempotencyLookup)
| CallResolveSelection (lookup : IdempotencyLookup)
| CallDispatch (env : OutboxStore.OutboxEnv) (c : OutboxStore.call).

(** The idempotency record a command carries. *)
Definition call_record (c : call) : option IdempotencyRecord :=
  match c with
  | CallCreate command => Some (Create_Idempotency command)
  | CallTransition command => Some (Commit_Idempotency command)
  | CallRoute command => Some (Route_Idempotency command)
  | CallSelection command => Some (Selection_Idempotency command)
  | CallBegin command => Some (Begin_Idempotency command)
  | CallFinalize command => Some (Finalize_Idempotency command)
  | CallRetryable record => Some record
  | _ => None
  end.

(** The one call that frees a key in progress. *)
Definition releases (k : IdemKey) (c : call) : Prop :=
  match c with CallRetryable record => key_of record = k | _ => False end.

(** ** Commands as transactions *)

(** What came back: the body's value, or an error although the commit took effect. *)
Definition reply {A} (res : result A) (a : A) : Prop := res = Ok a ∨ ∃ e, res = Err e.

Lemma reply_Ok {A} (a b : A) : reply (Ok a) b → a = b.
Proof. by intros [[= ->]|[e He]]. Qed.

Lemma command_cases {A P} env bl sl (pre : result P) (body : P → DB → result (A * string * DB)) db :
  let res := match pre with Err e => (Err e, db) | Ok p => runTx env bl sl (body p) db end in
  (res.2 = db ∧ ∃ e, res.1 = Err e)
  ∨ ∃ p a c, pre = Ok p ∧ body p db = Ok (a, c, res.2) ∧ reply res.1 a.
Proof.
  destruct pre as [p|e]; simpl; [|left; eauto].
  destruct (runTx_cases env bl sl (body p) db) as [?|(a & c & db' & Hb & <- & Hr)]; [by left|].
  right. exists p, a, c. done.
Qed.

Section history.
Variable pg_ts : Time → Time.
Variable pg_jsonb : string → result string.
Variable J : Codec.

Definition run_call (env : TaskEnv) (c : call) (db : DB) : DB :=
  match c with
  | CallCreate command => snd (CreateTask pg_ts pg_jsonb env command db)
  | CallTransition command => snd (CommitTransition pg_ts pg_jsonb env command db)
  | CallRoute command => snd (CommitRouteTransition pg_ts pg_jsonb J env command db)
  | CallSelection command => snd (CommitRouteSelection pg_ts pg_jsonb J env command db)
  | CallBegin command => snd (BeginModelExecution pg_ts pg_jsonb env command db)
  | CallFinalize command => snd (FinalizeModelExecution pg_ts pg_jsonb env command db)
  | CallRetryable record => snd (MarkModelExecutionRetryable pg_jsonb env record db)
  | CallResolve lookup => snd (ResolveIdempotency env lookup db)
  | CallResolveSelection lookup => snd (ResolveRouteSelection J env lookup db)
  | CallDispatch oenv c => set_outbox (OutboxStore.run_call pg_ts oenv c (outbox db)) db
  end.

Definition run_history (h : list (TaskEnv * call)) (db : DB) : DB :=
  foldl (λ db ec, run_call ec.1 ec.2 db) db h.

Lemma task_history_app h1 h2 db : run_history (h1 ++ h2) db = run_history h2 (run_history h1 db).
Proof. apply foldl_app. Qed.

(** ** Each command *)

Abbreviation command_scope env p := (Identity.RequireProject (env_ctx (te_tx env)) = Ok p).

Lemma scope_Ok env r p :
  requireCommandScope env r = Ok p → command_scope env p ∧ (key_of r).1 = scope_of p.
Proof.
  intros H. apply requireCommandScope_Ok in H as [H ?]. by apply Identity.requireScopedPrincipal_Ok in H.
Qed.

(** The command [CreateTask] builds from its argument and the principal. *)
Definition owned_command (p : Identity.Principal) (command : TaskCreateCommit) : TaskCreateCommit :=
  mkTaskCreateCommit (set_task_owner (Create_Task command) p) (Create_Event command)
    (Create_Outbox command) (Create_Idempotency command).

Lemma CreateTask_cases env command db :
  let res := CreateTask pg_ts pg_jsonb env command db in
  let d := Create_Idempotency command in
  (res.2 = db ∧ ∃ e, res.1 = Err e)
  ∨ ∃ p r, command_scope env p ∧ Idem_Status d = IdempotencyCompleted ∧ reply res.1 r
    ∧ ((Result_Replayed r = true ∧ res.2 = db
        ∧ replays (key_of d) (Idem_RequestDigest d) db (Result_Idempotency r)
        ∧ ∃ t, Result_Task r = Some t ∧ tasks db !! Idem_ResourceID (Result_Idempotency r) = Some t
               ∧ owner t = scope_of p)
       ∨ (Result_Replayed r = false ∧ cstep (scope_of p) d db res.2
          ∧ created pg_ts pg_jsonb env (owned_command p command) r db res.2)).
Proof.
  intros res d. subst res. unfold CreateTask.
  match goal with |- context [match ?pre with Err _ => _ | Ok _ => _ end] => set (pr := pre) end.
  pose proof (command_cases env "begin task creation transaction" "set task creation transaction scope" pr
    (λ pc, createTaskTx pg_ts pg_jsonb env pc.1 pc.2) db) as H.
  assert (∀ pc, pr = Ok pc → command_scope env pc.1 ∧ (key_of d).1 = scope_of pc.1
            ∧ pc.2 = owned_command pc.1 command ∧ Idem_Status d = IdempotencyCompleted
            ∧ validateTaskCreation (Create_Task pc.2) = Ok tt) as Hpre.
  { intros pc Hpc. subst pr. peel Hpc. bind_inv Hpc u Hv. peel Hpc. bind_inv Hpc p Hp. peel Hpc.
    bind_inv Hpc w Hw. injection Hpc as <-. apply scope_Ok in Hp as [? ?]. destruct w. go_props. done. }
  clearbody pr. destruct pr as [[p c]|e]; [|left; eauto]. simpl in *.
  destruct (Hpre _ eq_refl) as (Hp & Hk & Hc & Hst & Hval). simpl in Hc. subst c.
  destruct H as [?|(pc & r & lbl & [= <-] & Hb & Hr)]; [by left|]. right. exists p, r. split_and!; [done..|].
  exact (createTaskTx_Ok _ _ env p (owned_command p command) db r lbl _ Hk eq_refl Hval Hb).
Qed.

Lemma CommitTransition_cases env command db :
  let res := CommitTransition pg_ts pg_jsonb env command db in
  let d := Commit_Idempotency command in
  Inv db →
  (res.2 = db ∧ ∃ e, res.1 = Err e)
  ∨ ∃ p r, command_scope env p ∧ reply res.1 r
    ∧ ((Result_Replayed r = true ∧ res.2 = db
        ∧ replays (key_of d) (Idem_RequestDigest d) db (Result_Idempotency r))
       ∨ (Result_Replayed r = false ∧ cstep (scope_of p) d db res.2
          ∧ transitioned pg_ts pg_jsonb command r db res.2)).
Proof.
  intros res d HI. subst res. unfold CommitTransition.
  match goal with |- context [match ?pre with Err _ => _ | Ok _ => _ end] => set (pr := pre) end.
  destruct (command_cases env "begin task command transaction" "set task command transaction scope"
    pr (λ p, commitTransitionTx pg_ts pg_jsonb env p command) db)
    as [?|(p & r & c & Hpr & Hb & Hr)]; [by left|]. right.
  subst pr. peel Hpr. bind_inv Hpr u Hu. peel Hpr. apply scope_Ok in Hpr as [Hp Hk]. go_props. exists p, r. split_and!; try done.
  by apply commitTransitionTx_Ok in Hb.
Qed.

Lemma CommitRouteTransition_cases env command db :
  let res := CommitRouteTransition pg_ts pg_jsonb J env command db in
  let d := Route_Idempotency command in
  Inv db →
  (res.2 = db ∧ ∃ e, res.1 = Err e)
  ∨ ∃ p r, command_scope env p ∧ reply res.1 r ∧ Idem_Status d = IdempotencyCompleted
    ∧ ((RouteResult_Replayed r = true ∧ res.2 = db
        ∧ replays (key_of d) (Idem_RequestDigest d) db (RouteResult_Idempotency r)
        ∧ Idem_ResponsePayload (RouteResult_Idempotency r) ≠ ""
        ∧ unmarshal_decision J (Idem_ResponsePayload (RouteResult_Idempotency r)) = Ok (RouteResult_Decision r))
       ∨ (RouteResult_Replayed r = false ∧ cstep (scope_of p) d db res.2
          ∧ routed pg_ts pg_jsonb J command r db res.2)).
Proof.
  intros res d HI. subst res. unfold CommitRouteTransition.
  match goal with |- context [match ?pre with Err _ => _ | Ok _ => _ end] => set (pr := pre) end.
  destruct (command_cases env "begin route command transaction" "set route command transaction scope"
    pr (λ p, commitRouteTx pg_ts pg_jsonb J env p command) db)
    as [?|(p & r & c & Hpr & Hb & Hr)]; [by left|]. right.
  subst pr. peel Hpr. bind_inv Hpr u Hu. peel Hpr. apply scope_Ok in Hpr as [Hp Hk]. go_props. exists p, r. split_and!; try done.
  by apply commitRouteTx_Ok in Hb.
Qed.

Lemma CommitRouteSelection_cases env command db :
  let res := CommitRouteSelection pg_ts pg_jsonb J env command db in
  let d := Selection_Idempotency command in
  Inv db →
  (res.2 = db ∧ ∃ e, res.1 = Err e)
  ∨ ∃ p r, command_scope env p ∧ reply res.1 r ∧ Idem_Status d = IdempotencyCompleted
    ∧ ((SelectionResult_Replayed r = true ∧ res.2 = db
        ∧ replays (key_of d) (Idem_RequestDigest d) db (SelectionResult_Idempotency r)
        ∧ Idem_ResponsePayload (SelectionResult_Idempotency r) ≠ ""
        ∧ unmarshal_selection J (Idem_ResponsePayload (SelectionResult_Idempotency r)) = Ok (SelectionResult_Payload r))
       ∨ (SelectionResult_Replayed r = false ∧ cstep (scope_of p) d db res.2
          ∧ selected pg_ts pg_jsonb J command r db res.2)).
Proof.
  intros res d HI. subst res. unfold CommitRouteSelection.
  match goal with |- context [match ?pre with Err _ => _ | Ok _ => _ end] => set (pr := pre) end.
  destruct (command_cases env "begin route selection transaction" "set route selection transaction scope"
    pr (λ p, commitSelectionTx pg_ts pg_jsonb J env p command) db)
    as [?|(p & r & c & Hpr & Hb & Hr)]; [by left|]. right.
  subst pr. peel Hpr. bind_inv Hpr u Hu. peel Hpr. apply scope_Ok in Hpr as [Hp Hk]. go_props. exists p, r. split_and!; try done.
  by apply commitSelectionTx_Ok in Hb.
Qed.

Lemma BeginModelExecution_cases env command db :
  let res := BeginModelExecution pg_ts pg_jsonb env command db in
  let d := Begin_Idempotency command in
  Inv db →
  (res.2 = db ∧ ∃ e, res.1 = Err e)
  ∨ ∃ p r, command_scope env p ∧ reply res.1 r ∧ Idem_Status d = IdempotencyInProgress
    ∧ ((BeginResult_Replayed r = true ∧ res.2 = db
        ∧ replays (key_of d) (Idem_RequestDigest d) db (BeginResult_Idempotency r))
       ∨ (BeginResult_Replayed r = false ∧ cstep (scope_of p) d db res.2
          ∧ begun pg_ts pg_jsonb command r db res.2)).
Proof.
  intros res d HI. subst res. unfold BeginModelExecution.
  match goal with |- context [match ?pre with Err _ => _ | Ok _ => _ end] => set (pr := pre) end.
  destruct (command_cases env "begin model execution command transaction" "set model execution transaction scope"
    pr (λ p, beginModelTx pg_ts pg_jsonb env p command) db)
    as [?|(p & r & c & Hpr & Hb & Hr)]; [by left|]. right.
  subst pr. peel Hpr. bind_inv Hpr u Hu. peel Hpr. apply scope_Ok in Hpr as [Hp Hk]. go_props. exists p, r. split_and!; try done.
  by apply beginModelTx_Ok in Hb.
Qed.

Lemma FinalizeModelExecution_cases env command db :
  let res := FinalizeModelExecution pg_ts pg_jsonb env command db in
  let d := Finalize_Idempotency command in
  Inv db →
  (res.2 = db ∧ ∃ e, res.1 = Err e)
  ∨ ∃ p r, command_scope env p ∧ reply res.1 r ∧ is_final (Idem_Status d) = true
    ∧ tstep (scope_of p) (key_of d) db res.2 ∧ finalized pg_ts pg_jsonb command r db res.2.
Proof.
  intros res d HI. subst res. unfold FinalizeModelExecution.
  match goal with |- context [match ?pre with Err _ => _ | Ok _ => _ end] => set (pr := pre) end.
  destruct (command_cases env "begin model execution finalization transaction" "set model finalization transaction scope"
    pr (λ p, finalizeModelTx pg_ts pg_jsonb env p command) db)
    as [?|(p & r & c & Hpr & Hb & Hr)]; [by left|]. right.
  subst pr. peel Hpr. bind_inv Hpr u Hu. peel Hpr. apply scope_Ok in Hpr as [Hp Hk]. exists p, r.
  apply finalizeModelTx_Ok in Hb as [? ?]; [|done|done]. split_and!; try done. subst d.
  by destruct (Idem_Status (Finalize_Idempotency command)).
Qed.

Lemma MarkModelExecutionRetryable_cases env record db :
  let res := MarkModelExecutionRetryable pg_jsonb env record db in
  (res.2 = db ∧ ∃ e, res.1 = Err e)
  ∨ ∃ p, command_scope env p ∧ Idem_Status record = IdempotencyFailedRetryable
    ∧ tstep (scope_of p) (key_of record) db res.2
    ∧ reserved (key_of record) (Idem_RequestDigest record) db ∧ completed pg_jsonb (key_of record) record res.2.
Proof.
  intros res. subst res. unfold MarkModelExecutionRetryable.
  match goal with |- context [match ?pre with Err _ => _ | Ok _ => _ end] => set (pr := pre) end.
  destruct (command_cases env "begin retryable model result transaction" "set retryable model result transaction scope"
    pr (λ _ db, _ ← loadReserved env record db;
      db ← completeIdempotency pg_jsonb env record db;
      Ok (tt, "commit retryable model result transaction", db)) db)
    as [?|(w & r & c & Hpr & Hb & Hr)]; [by left|]. right.
  subst pr. peel Hpr. bind_inv Hpr u Hu. peel Hpr. bind_inv Hpr p Hp. apply guard_Ok in Hpr.
  unfold scope_mismatch in Hpr. go_props. exists p.
  apply (retryableTx_Ok _ _ _ p) in Hb as (? & ? & ?); [|unfold scope_of; simpl; congruence]. done.
Qed.

(** Lookups do not write. *)
Lemma ResolveIdempotency_db env lookup db : snd (ResolveIdempotency env lookup db) = db.
Proof.
  unfold ResolveIdempotency. case_match; [|done].
  match goal with |- context [runTx env ?bl ?sl ?body db] =>
    destruct (runTx_cases env bl sl body db) as [[Hdb _]|(x & c & db' & Hb & Hdb & _)];
    destruct (runTx env bl sl body db) as [r db1]; simpl in *; subst db1; [done|] end.
  bind_inv Hb found Hf. destruct found; [|by injection Hb as _ _ <-]. peel Hb. by injection Hb as _ _ <-.
Qed.

(** ** Every call *)

(** A call by a principal: nothing, one step on the call's key, or the
    dispatcher's work on the outbox. *)
Inductive call_step (env : TaskEnv) (c : call) (db : DB) : DB → Prop :=
| call_nothing : call_step env c db db
| call_command p d db' :
    command_scope env p → call_record c = Some d → tstep (scope_of p) (key_of d) db db' →
    (available (key_of d) (Idem_RequestDigest d) db
     ∨ (reserved (key_of d) (Idem_RequestDigest d) db
        ∧ ∃ row, idem db' !! key_of d = Some row
          ∧ (is_final (i_status row) = true
             ∨ (releases (key_of d) c ∧ i_status row = IdempotencyFailedRetryable)))) →
    call_step env c db db'
| call_dispatch oenv oc :
    c = CallDispatch oenv oc → call_step env c db (set_outbox (OutboxStore.run_call pg_ts oenv oc (outbox db)) db).

Lemma task_call_step env c db : Inv db → call_step env c db (run_call env c db).
Proof.
  intros HI. destruct c as [command|command|command|command|command|command|record|lookup|lookup|oenv oc]; simpl.
  - destruct (CreateTask_cases env command db) as [[-> _]|(p & r & Hp & _ & _ & [(_ & -> & _)|(_ & [? ?] & _)])];
      [constructor..|eapply call_command; eauto].
  - destruct (CommitTransition_cases env command db HI) as [[-> _]|(p & r & Hp & _ & [(_ & -> & _)|(_ & [? ?] & _)])];
      [constructor..|eapply call_command; eauto].
  - destruct (CommitRouteTransition_cases env command db HI) as [[-> _]|(p & r & Hp & _ & _ & [(_ & -> & _)|(_ & [? ?] & _)])];
      [constructor..|eapply call_command; eauto].
  - destruct (CommitRouteSelection_cases env command db HI) as [[-> _]|(p & r & Hp & _ & _ & [(_ & -> & _)|(_ & [? ?] & _)])];
      [constructor..|eapply call_command; eauto].
  - destruct (BeginModelExecution_cases env command db HI) as [[-> _]|(p & r & Hp & _ & _ & [(_ & -> & _)|(_ & [? ?] & _)])];
      [constructor..|eapply call_command; eauto].
  - destruct (FinalizeModelExecution_cases env command db HI) as [[-> _]|(p & r & Hp & _ & Hf & Ht & Hfin)];
      [constructor|]. eapply call_command; eauto. right. destruct Hfin as (? & (row & payload & Hrow & _) & Hst & _).
    split; [done|]. eexists. split; [exact Hrow|]. left. simpl. by rewrite Hst.
  - destruct (MarkModelExecutionRetryable_cases env record db) as [[-> _]|(p & Hp & Hst & Ht & Hres & row & payload & Hrow & _)];
      [constructor|]. eapply call_command; eauto. right. split; [done|]. eexists. split; [exact Hrow|].
    right. split; [done|]. by rewrite <- Hst.
  - rewrite ResolveIdempotency_db. constructor.
  - unfold ResolveRouteSelection. pose proof (ResolveIdempotency_db env lookup db) as Hdb.
    destruct (ResolveIdempotency env lookup db) as [r db1]. simpl in *. subst. constructor.
  - by apply call_dispatch.
Qed.

Lemma call_step_Inv env c db db' : call_step env c db db' → Inv db → Inv db'.
Proof.
  intros Hs HI. destruct Hs as [|p d db' _ _ Ht _|oenv oc ->]; [done|by eapply tstep_Inv|].
  destruct HI as [H1 H2 H3]. split; [done|done|]. simpl. intros id row Hrow.
  pose proof (OutboxStore.run_call_rows pg_ts oenv oc (outbox db) id) as Hr.
  destruct (outbox db !! id) as [row0|] eqn:E; [|congruence]. destruct Hr as (row' & Hrow' & Ha).
  rewrite Hrow in Hrow'. injection Hrow' as <-. destruct (H3 id row0 E) as [Hid Hck].
  destruct Ha as [->|(Hst & ? & _)]; [done|]. split; [|done]. by destruct Hst.
Qed.

Lemma task_call_Inv env c db : Inv db → Inv (run_call env c db).
Proof. intros HI. eapply call_step_Inv; [by apply task_call_step|done]. Qed.

Lemma task_history_Inv h db : Inv db → Inv (run_history h db).
Proof.
  revert db. induction h as [|[env c] h IH]; intros db HI; [done|]. simpl. apply IH. by apply task_call_Inv.
Qed.

(** A relation every call preserves relates the ends of a history. *)
Lemma run_history_ind (R : DB → DB → Prop) h db :
  Inv db → (∀ db, R db db) → (∀ a b c, R a b → R b c → R a c) →
  (∀ env c db, (env, c) ∈ h → Inv db → R db (run_call env c db)) → R db (run_history h db).
Proof.
  intros HI Hrefl Htrans Hstep. revert db HI.
  induction h as [|[env c] h IH]; intros db HI; simpl; [done|].
  apply (Htrans _ (run_call env c db)); [apply Hstep; [set_solver|done]|].
  apply IH; [|by apply task_call_Inv]. intros. apply Hstep; [set_solver|done].
Qed.

(** ** Final records *)

Lemma run_call_final env c db k row :
  Inv db → idem db !! k = Some row → is_final (i_status row) = true → idem (run_call env c db) !! k = Some row.
Proof.
  intros HI Hk Hf. destruct (task_call_step env c db HI) as [|p d db' _ _ Ht _|]; [done| |done].
  destruct (decide (k = key_of d)) as [->|Hne]; [|by rewrite (tstep_idem_other _ _ _ _ _ Ht Hne)].
  pose proof (tstep_final _ _ _ _ _ Ht Hk). congruence.
Qed.

Lemma run_history_final h db k row :
  Inv db → idem db !! k = Some row → is_final (i_status row) = true → idem (run_history h db) !! k = Some row.
Proof.
  intros HI Hk Hf. revert db HI Hk. induction h as [|[env c] h IH]; intros db HI Hk; simpl; [done|].
  apply IH; [by apply task_call_Inv|by apply run_call_final].
Qed.

(** No step is taken on a final key. *)
Lemma run_call_frozen env c d db row :
  Inv db → call_record c = Some d → idem db !! key_of d = Some row → is_final (i_status row) = true →
  run_call env c db = db.
Proof.
  intros HI Hd Hk Hf. destruct (task_call_step env c db HI) as [|p d' db' _ Hd' Ht _|oenv oc ->]; [done| |done].
  rewrite Hd in Hd'. injection Hd' as <-. pose proof (tstep_final _ _ _ _ _ Ht Hk). congruence.
Qed.

(** What a command answers: the record it reports and whether it is a replay. *)
Definition call_answer (env : TaskEnv) (c : call) (db : DB) : result (IdempotencyRecord * bool) :=
  match c with
  | CallCreate command =>
      r ← fst (CreateTask pg_ts pg_jsonb env command db); Ok (Result_Idempotency r, Result_Replayed r)
  | CallTransition command =>
      r ← fst (CommitTransition pg_ts pg_jsonb env command db); Ok (Result_Idempotency r, Result_Replayed r)
  | CallRoute command =>
      r ← fst (CommitRouteTransition pg_ts pg_jsonb J env command db);
      Ok (RouteResult_Idempotency r, RouteResult_Replayed r)
  | CallSelection command =>
      r ← fst (CommitRouteSelection pg_ts pg_jsonb J env command db);
      Ok (SelectionResult_Idempotency r, SelectionResult_Replayed r)
  | CallBegin command =>
      r ← fst (BeginModelExecution pg_ts pg_jsonb env command db);
      Ok (BeginResult_Idempotency r, BeginResult_Replayed r)
  | CallFinalize command =>
      r ← fst (FinalizeModelExecution pg_ts pg_jsonb env command db);
      Ok (FinalizeResult_Idempotency r, false)
  | CallRetryable record =>
      _ ← fst (MarkModelExecutionRetryable pg_jsonb env record db); Ok (record, false)
  | _ => Err (Errorf "not a command" [])
  end.

(** An answer that is not a replay comes from a key that was not final; a
    replay hands back the stored record of the same request. *)
Lemma call_answer_Ok env c db d rec replayed :
  Inv db → call_record c = Some d → call_answer env c db = Ok (rec, replayed) →
  if replayed then run_call env c db = db ∧ replays (key_of d) (Idem_RequestDigest d) db rec
  else ∃ p, command_scope env p ∧ tstep (scope_of p) (key_of d) db (run_call env c db).
Proof.
  intros HI Hd H. destruct c as [command|command|command|command|command|command|record|lookup|lookup|oenv oc];
    simpl in Hd; simplify_eq; simpl in H |- *; bind_inv H r Hr; injection H as <- <-.
  - destruct (CreateTask_cases env command db)
      as [[_ [e He]]|(p & x & Hp & _ & Hx & [(Ht & -> & Hx2 & _)|(Ht & [? _] & _)])];
      [congruence|rewrite Hr in Hx; apply reply_Ok in Hx as ->; rewrite Ht; by eauto..].
  - destruct (CommitTransition_cases env command db HI)
      as [[_ [e He]]|(p & x & Hp & Hx & [(Ht & -> & Hx2)|(Ht & [? _] & _)])];
      [congruence|rewrite Hr in Hx; apply reply_Ok in Hx as ->; rewrite Ht; by eauto..].
  - destruct (CommitRouteTransition_cases env command db HI)
      as [[_ [e He]]|(p & x & Hp & Hx & _ & [(Ht & -> & Hx2 & _)|(Ht & [? _] & _)])];
      [congruence|rewrite Hr in Hx; apply reply_Ok in Hx as ->; rewrite Ht; by eauto..].
  - destruct (CommitRouteSelection_cases env command db HI)
      as [[_ [e He]]|(p & x & Hp & Hx & _ & [(Ht & -> & Hx2 & _)|(Ht & [? _] & _)])];
      [congruence|rewrite Hr in Hx; apply reply_Ok in Hx as ->; rewrite Ht; by eauto..].
  - destruct (BeginModelExecution_cases env command db HI)
      as [[_ [e He]]|(p & x & Hp & Hx & _ & [(Ht & -> & Hx2)|(Ht & [? _] & _)])];
      [congruence|rewrite Hr in Hx; apply reply_Ok in Hx as ->; rewrite Ht; by eauto..].
  - destruct (FinalizeModelExecution_cases env command db HI) as [[_ [e He]]|(p & x & Hp & _ & _ & ? & _)];
      [congruence|eauto].
  - destruct (MarkModelExecutionRetryable_cases env d db) as [[_ [e He]]|(p & Hp & _ & ? & _)];
      [congruence|eauto].
Qed.

(** ** Keys taken by a model command *)

(** A retryable failure freed the key. *)
Definition released (k : IdemKey) (db db' : DB) : bool :=
  match idem db !! k, idem db' !! k with
  | Some row, Some row' =>
      (i_status row ==? IdempotencyInProgress) && (i_status row' ==? IdempotencyFailedRetryable)
  | _, _ => false
  end.

Definition taken (k : IdemKey) (db : DB) : Prop :=
  ∃ row, idem db !! k = Some row ∧ (i_status row = IdempotencyInProgress ∨ is_final (i_status row) = true).

(** A taken key stays taken, unless the call releases it. *)
Lemma run_call_taken_or env c db k :
  Inv db → taken k db →
  taken k (run_call env c db) ∨ (releases k c ∧ released k db (run_call env c db) = true).
Proof.
  intros HI (row & Hrow & Hst).
  destruct (task_call_step env c db HI) as [|p d db' _ _ Ht Hd|]; [left; by exists row| |left; by exists row].
  destruct (decide (k = key_of d)) as [->|Hne].
  2: { left. exists row. by rewrite (tstep_idem_other _ _ _ _ _ Ht Hne). }
  destruct Hd as [Hav|[(row0 & Hrow0 & Hst0 & _) (row' & Hrow' & [?|[Hrel Hst']])]]; [|left; exists row'; by auto|].
  - unfold available in Hav. rewrite Hrow in Hav. destruct Hav as [Hav _]. rewrite Hav in Hst. by destruct Hst.
  - right. split; [done|]. unfold released. rewrite Hrow0, Hrow', Hst0, Hst'. done.
Qed.

Lemma run_call_taken env c db k : Inv db → taken k db → ¬ releases k c → taken k (run_call env c db).
Proof. intros HI Ht Hr. by destruct (run_call_taken_or env c db k HI Ht) as [?|[? _]]. Qed.

Lemma run_history_taken h db k :
  Inv db → taken k db → Forall (λ ec, ¬ releases k ec.2) h → taken k (run_history h db).
Proof.
  intros HI Ht Hh. revert db HI Ht. induction Hh as [|[env c] h Hc Hh IH]; intros db HI Ht; simpl; [done|].
  apply IH; [by apply task_call_Inv|by apply run_call_taken].
Qed.

Lemma releases_dec k c : releases k c ∨ ¬ releases k c.
Proof. destruct c as [| | | | | |r| | |]; simpl; auto. destruct (decide (key_of r = k)); auto. Qed.

Lemma no_release k (h : list (TaskEnv * call)) :
  (∃ env c, (env, c) ∈ h ∧ releases k c) ∨ Forall (λ ec, ¬ releases k ec.2) h.
Proof.
  induction h as [|[env c] h [(env' & c' & Hin & Hr)|Hall]]; [by right|left; exists env', c'; set_solver|].
  destruct (releases_dec k c); [left; exists env, c; set_solver|right; by constructor].
Qed.

(** The record a completed command leaves. *)
Lemma completed_final k rec db :
  completed pg_jsonb k rec db → is_final (Idem_Status rec) = true →
  ∃ row, idem db !! k = Some row ∧ is_final (i_status row) = true
  ∧ i_request_digest row = Idem_RequestDigest rec ∧ Idem_ResourceID (scan_idem k row) = Idem_ResourceID rec
  ∧ (Idem_ResponsePayload (scan_idem k row) ≠ "" →
     pg_jsonb (Idem_ResponsePayload rec) = Ok (Idem_ResponsePayload (scan_idem k row))).
Proof.
  intros (row & payload & Hrow & Hd & Hp) Hf. eexists. split; [exact Hrow|]. split_and!; simpl; try done.
  - unfold NULLIF. destruct (Idem_ResourceID rec ==? "") eqn:E; [go_props; by rewrite E|done].
  - destruct (Idem_ResponsePayload rec ==? "") eqn:E; [by subst|]. destruct Hp as (text & Hpg & ->). simpl.
    by destruct (text ==? _).
Qed.

End history.
End TaskHistory.
