(* ===== verification/TaskSafety.v ===== *)
(** * TaskSafety: what the command kernel guarantees

    The theorems on histories of commands, with a concrete run of a task from
    creation to completion for each. *)
From S2P Require Import Prelude Identity Domain RouteTypes ExecTypes LeaseSchema OutboxStore.
From S2P Require Import TaskSchema TaskStore TaskLog TaskRefine TaskHistory.

Module TaskSafety.
Import Domain RouteTypes LeaseSchema TaskSchema TaskStore TaskLog TaskRefine TaskRefineModel TaskHistory.

Section safety.
Variable pg_ts : Time → Time.
Variable pg_jsonb : string → result string.
Variable J : Codec.

(** The database after [h], and after one call. *)
Definition run (h : list (TaskEnv * call)) (db : DB) : DB := run_history pg_ts pg_jsonb J h db.
Definition do_call (env : TaskEnv) (c : call) (db : DB) : DB := run_call pg_ts pg_jsonb J env c db.

Lemma task_reachable_Inv h : Inv (run_history pg_ts pg_jsonb J h emptyDB).
Proof. apply task_history_Inv, taskInv_empty. Qed.

(** C3. A task is its event log.  After any history of commands, lookups and
    dispatcher calls, a stored task's events are exactly those numbered 1 to its
    version, all in its own tenant and project, and replaying them gives its
    status: neither a failed transaction, a replayed request nor a concurrent
    writer leaves a gap, a duplicate or a status no event accounts for. *)
Theorem task_is_its_log h id t :
  tasks (run h emptyDB) !! id = Some t →
  ∃ log, (∀ e, e ∈ log ↔ ∃ eid, events (run h emptyDB) !! eid = Some e ∧ Event_TaskID e = id)
  ∧ Task_Version t = Z.of_nat (length log)
  ∧ (∀ i e, log !! i = Some e →
       Event_Sequence e = (Z.of_nat i + 1)%Z ∧ (Event_TenantID e, Event_ProjectID e) = owner t)
  ∧ replay log = Some (Task_Status t).
Proof. cbv beta delta [run].
  intros Ht. pose proof (task_reachable_Inv h) as HI. destruct (inv_task _ HI _ _ Ht) as (Hid & log & Hv & Hin & Hseq & Hr).
  rewrite Hid in Hin. exists log. split_and!; try done. intros i e Hi. split; [by apply Hseq|].
  apply list_elem_of_lookup_2, Hin in Hi as (eid & He & Htid).
  destruct (inv_event _ HI _ _ He) as (_ & t' & Ht' & ->). congruence.
Qed.

(** The log is append-only and identities are immutable.  Whatever happens
    after a state is reached, its events stay as they were, and each of its tasks
    keeps its id, tenant, project, creator and creation time, and either is
    untouched or has a larger version. *)
Theorem log_is_append_only h h' :
  let db := run h emptyDB in
  let db' := run h' db in
  (∀ eid e, events db !! eid = Some e → events db' !! eid = Some e)
  ∧ (∀ id t, tasks db !! id = Some t →
       ∃ t', tasks db' !! id = Some t' ∧ same_identity t t' ∧ (t' = t ∨ (Task_Version t < Task_Version t')%Z)).
Proof. cbv beta delta [run].
  intros db db'. pose proof (task_reachable_Inv h) as HI. fold db in HI. split.
  - apply (run_history_ind pg_ts pg_jsonb J (λ a b, ∀ eid e, events a !! eid = Some e → events b !! eid = Some e));
      [done|auto..|]. intros env c a _ Ha eid e He.
    destruct (task_call_step pg_ts pg_jsonb J env c a Ha) as [|p d b _ _ Ht _|]; [done| |done].
    by eapply tstep_event.
  - apply (run_history_ind pg_ts pg_jsonb J (λ a b, ∀ id t, tasks a !! id = Some t →
       ∃ t', tasks b !! id = Some t' ∧ same_identity t t' ∧ (t' = t ∨ (Task_Version t < Task_Version t')%Z)));
      [done|eauto using same_identity_refl| |].
    + intros a b c H1 H2 id t Ht. destruct (H1 _ _ Ht) as (t1 & Ht1 & (? & ? & ? & ?) & Hv1).
      destruct (H2 _ _ Ht1) as (t2 & Ht2 & (? & ? & ? & ?) & Hv2). exists t2.
      split_and!; [done|split_and!; congruence|]. destruct Hv1 as [->|], Hv2 as [->|]; auto. right. lia.
    + intros env c a _ Ha id t Hid.
      destruct (task_call_step pg_ts pg_jsonb J env c a Ha) as [|p d b _ _ Ht _|];
        [by eauto using same_identity_refl|by eapply tstep_task|by eauto using same_identity_refl].
Qed.

(** C20. A finished command is final.  Once the record of an idempotency key is
    completed or failed for good, no history changes it; every later command on
    that key, of whatever kind, leaves the whole database as it is and can only
    fail or hand back the stored record as a replay, and that only to a request
    with the same digest. *)
Theorem finished_command_is_final h h' k row :
  idem (run h emptyDB) !! k = Some row → is_final (i_status row) = true →
  let db := run h' (run h emptyDB) in
  idem db !! k = Some row
  ∧ ∀ env c d, call_record c = Some d → key_of d = k →
      do_call env c db = db
      ∧ ∀ answer, call_answer pg_ts pg_jsonb J env c db = Ok answer →
          answer = (scan_idem k row, true) ∧ Idem_RequestDigest d = i_request_digest row.
Proof. cbv beta delta [run do_call].
  intros Hk Hf db. pose proof (task_reachable_Inv h) as HI.
  assert (idem db !! k = Some row) as Hrow by by apply run_history_final. split; [done|].
  intros env c d Hd <-. assert (Inv db) as HI' by by apply task_history_Inv.
  split; [by eapply run_call_frozen|]. intros [rec replayed] Ha.
  apply (call_answer_Ok pg_ts pg_jsonb J env c db d) in Ha; [|done|done]. destruct replayed.
  - destruct Ha as (_ & row' & Hrow' & -> & ? & _). rewrite Hrow in Hrow'. by injection Hrow' as <-.
  - destruct Ha as (p & _ & Ht). pose proof (tstep_final _ _ _ _ _ Ht Hrow). congruence.
Qed.

(** A model command is begun once.  If one begin of a key was granted, and
    later another is granted on the same key (neither as a replay), then between
    the two the key was released by a recorded retryable failure. *)
Theorem model_command_begun_once h env1 c1 r1 h' env2 c2 r2 :
  let db := run h emptyDB in
  let db1 := snd (BeginModelExecution pg_ts pg_jsonb env1 c1 db) in
  let k := key_of (Begin_Idempotency c1) in
  fst (BeginModelExecution pg_ts pg_jsonb env1 c1 db) = Ok r1 → BeginResult_Replayed r1 = false →
  fst (BeginModelExecution pg_ts pg_jsonb env2 c2 (run h' db1)) = Ok r2 → BeginResult_Replayed r2 = false →
  key_of (Begin_Idempotency c2) = k →
  ∃ env record, (env, CallRetryable record) ∈ h' ∧ key_of record = k.
Proof. cbv beta delta [run].
  intros db db1 k H1 Hr1 H2 Hr2 Hk. pose proof (task_reachable_Inv h) as HI. fold db in HI.
  assert (Inv db1) as HI1 by exact (task_call_Inv pg_ts pg_jsonb J env1 (CallBegin c1) db HI).
  assert (taken k db1) as Ht.
  { destruct (BeginModelExecution_cases pg_ts pg_jsonb env1 c1 db HI)
      as [[_ [e He]]|(p & x & _ & Hx & _ & [(Ht & _)|(_ & _ & (row & Hrow & ? & _) & _)])].
    - congruence.
    - rewrite H1 in Hx. apply reply_Ok in Hx as ->. congruence.
    - exists row. auto. }
  destruct (no_release k h') as [(env & c & Hin & Hrel)|Hall].
  { destruct c; try done. eauto. }
  apply (run_history_taken pg_ts pg_jsonb J h' db1 k) in Ht as (row & Hrow & Hst); [|done|done].
  assert (Inv (run_history pg_ts pg_jsonb J h' db1)) as HI2 by by apply task_history_Inv.
  destruct (BeginModelExecution_cases pg_ts pg_jsonb env2 c2 (run_history pg_ts pg_jsonb J h' db1) HI2)
    as [[_ [e He]]|(p & x & _ & Hx & _ & [(Ht2 & _)|(_ & [_ Hav] & _)])].
  - congruence.
  - rewrite H2 in Hx. apply reply_Ok in Hx as ->. congruence.
  - unfold available in Hav. rewrite Hk, Hrow in Hav. destruct Hav as [Hav _]. rewrite Hav in Hst. by destruct Hst.
Qed.

(** Route decisions survive the store.  A route command that committed a
    decision and a later one on the same key, after any history, answer with the
    same decision, read back through JSON and JSONB, provided decoding what
    JSONB made of the decision's encoding gives the decision. *)
Theorem route_decision_roundtrip h env1 c1 r1 h' env2 c2 r2 :
  let db := run h emptyDB in
  let res1 := CommitRouteTransition pg_ts pg_jsonb J env1 c1 db in
  let res2 := CommitRouteTransition pg_ts pg_jsonb J env2 c2 (run h' (snd res1)) in
  (∀ text stored, marshal_decision J (RouteResult_Decision r1) = Ok text → pg_jsonb text = Ok stored →
     unmarshal_decision J stored = Ok (RouteResult_Decision r1)) →
  fst res1 = Ok r1 → RouteResult_Replayed r1 = false → fst res2 = Ok r2 →
  key_of (Route_Idempotency c2) = key_of (Route_Idempotency c1) →
  RouteResult_Replayed r2 = true ∧ RouteResult_Decision r2 = RouteResult_Decision r1
  ∧ snd res2 = run h' (snd res1).
Proof. cbv beta delta [run].
  intros db res1 res2 Hcodec H1 Hr1 H2 Hk. pose proof (task_reachable_Inv h) as HI. fold db in HI.
  assert (Inv (snd res1)) as HI1 by exact (task_call_Inv pg_ts pg_jsonb J env1 (CallRoute c1) db HI).
  pose proof (CommitRouteTransition_cases pg_ts pg_jsonb J env1 c1 db HI) as Hc1. fold res1 in Hc1.
  destruct Hc1 as [[_ [e He]]|(p & x & _ & Hx & Hst & [(Ht & _)|(_ & _ & Hrt)])]; [congruence|..];
    rewrite H1 in Hx; apply reply_Ok in Hx as <-; [congruence|].
  destruct Hrt as (_ & _ & _ & _ & _ & _ & _ & _ & Hst1 & _ & Hm & Hcomp).
  apply completed_final in Hcomp as (row & Hrow & Hf & _ & _ & Hpl); [|by rewrite Hst1, Hst].
  apply (run_history_final pg_ts pg_jsonb J h') in Hrow; [|done|done].
  assert (Inv (run_history pg_ts pg_jsonb J h' (snd res1))) as HI2 by by apply task_history_Inv.
  pose proof (CommitRouteTransition_cases pg_ts pg_jsonb J env2 c2 (run_history pg_ts pg_jsonb J h' (snd res1)) HI2) as Hc2. fold res2 in Hc2.
  destruct Hc2 as [[_ [e He]]|(p2 & y & _ & Hy & _ & [(Ht & Hdb & Hrep & Hne & Hun)|(_ & [_ Hav] & _)])];
    [congruence|..]; rewrite H2 in Hy; apply reply_Ok in Hy as <-.
  - split_and!; [done| |done]. destruct Hrep as (row' & Hrow' & Hid & _ & _).
    rewrite Hk, Hrow in Hrow'. injection Hrow' as <-. rewrite Hk in Hid. rewrite Hid in Hun, Hne.
    rewrite (Hcodec _ _ Hm (Hpl Hne)) in Hun. congruence.
  - unfold available in Hav. rewrite Hk, Hrow in Hav. destruct Hav as [Hav _]. by rewrite Hav in Hf.
Qed.

(** A task is created once.  A creation that was not a replay stored the
    task at version 1 with its [TaskCreated] event and its messages, all of them
    and together; any later successful creation on the same key, after any
    history, is a replay that changes nothing and answers with that very task. *)
Theorem task_created_once h env1 c1 r1 h' env2 c2 r2 :
  let db := run h emptyDB in
  let res1 := CreateTask pg_ts pg_jsonb env1 c1 db in
  let res2 := CreateTask pg_ts pg_jsonb env2 c2 (run h' (snd res1)) in
  fst res1 = Ok r1 → Result_Replayed r1 = false → fst res2 = Ok r2 →
  key_of (Create_Idempotency c2) = key_of (Create_Idempotency c1) →
  (∃ p, Identity.RequireProject (env_ctx (te_tx env1)) = Ok p
     ∧ created pg_ts pg_jsonb env1 (owned_command p c1) r1 db (snd res1))
  ∧ Result_Replayed r2 = true ∧ snd res2 = run h' (snd res1)
  ∧ ∃ t2, Result_Task r2 = Some t2 ∧ Task_ID t2 = Task_ID (Create_Task c1)
    ∧ tasks (run h' (snd res1)) !! Task_ID (Create_Task c1) = Some t2.
Proof. cbv beta delta [run].
  intros db res1 res2 H1 Hr1 H2 Hk. pose proof (task_reachable_Inv h) as HI. fold db in HI.
  assert (Inv (snd res1)) as HI1 by exact (task_call_Inv pg_ts pg_jsonb J env1 (CallCreate c1) db HI).
  pose proof (CreateTask_cases pg_ts pg_jsonb env1 c1 db) as Hc1. fold res1 in Hc1.
  destruct Hc1 as [[_ [e He]]|(p & x & Hp & Hst & Hx & [(Ht & _)|(_ & _ & Hcr)])]; [congruence|..];
    rewrite H1 in Hx; apply reply_Ok in Hx as <-; [congruence|].
  split; [by exists p|]. destruct Hcr as (_ & _ & _ & _ & _ & _ & Hid & Hcomp).
  apply completed_final in Hcomp as (row & Hrow & Hf & _ & Hres & _); [|by rewrite Hid; simpl; rewrite Hst].
  apply (run_history_final pg_ts pg_jsonb J h') in Hrow; [|done|done]. simpl in Hrow, Hres.
  assert (Inv (run_history pg_ts pg_jsonb J h' (snd res1))) as HI2 by by apply task_history_Inv.
  pose proof (CreateTask_cases pg_ts pg_jsonb env2 c2 (run_history pg_ts pg_jsonb J h' (snd res1))) as Hc2. fold res2 in Hc2.
  destruct Hc2 as [[_ [e He]]|(p2 & y & _ & _ & Hy & [(Ht & Hdb & Hrep & t2 & Ht2 & Hlk & _)|(_ & [_ Hav] & _)])];
    [congruence|..]; rewrite H2 in Hy; apply reply_Ok in Hy as <-.
  - split_and!; [done..|]. destruct Hrep as (row' & Hrow' & Hscan & _ & _).
    rewrite Hk, Hrow in Hrow'. injection Hrow' as <-. rewrite Hk in Hscan.
    rewrite Hscan in Hlk. simpl in Hlk. rewrite Hres, Hid in Hlk. simpl in Hlk. exists t2.
    split_and!; [done| |done]. by apply (inv_task _ HI2) in Hlk as [? _].
  - unfold available in Hav. rewrite Hk, Hrow in Hav. destruct Hav as [Hav _]. by rewrite Hav in Hf.
Qed.

(** Commands stay in their scope.  Whatever command a principal issues, in
    any reachable state, the tasks, events, messages and command records it
    changes are of the principal's own tenant and project; without an
    authenticated principal nothing changes. *)
Theorem commands_stay_in_scope h env c d :
  let db := run h emptyDB in
  call_record c = Some d →
  match Identity.RequireProject (env_ctx (te_tx env)) with
  | Ok p => confined (scope_of p) db (do_call env c db)
  | Err _ => do_call env c db = db
  end.
Proof. cbv beta delta [run do_call].
  intros db Hd. pose proof (task_reachable_Inv h) as HI. fold db in HI.
  destruct (task_call_step pg_ts pg_jsonb J env c db HI) as [|p d' db' Hp _ Ht _|oenv oc ->]; [| |done].
  - case_match; [|done]. by unfold confined.
  - rewrite Hp. by eapply tstep_confined.
Qed.

End safety.

(** ** A task from creation to completion *)

Definition keep_ts (t : Time) : Time := t.
Definition sample_decision (task : string) : RouteDecision :=
  mkRouteDecision "r1" task RouteCandidateZero [] "cheapest" [] "e1" "p1" 20%Z.

(** A codec that knows one decision. *)
Definition sample_codec : Codec := {|
  marshal_candidate _ := Ok "{}"; marshal_candidates _ := Ok "[]";
  marshal_decision _ := Ok "{}"; unmarshal_decision _ := Ok (sample_decision "t1");
  marshal_selection _ := Err (Errorf "unused" []); unmarshal_selection _ := Err (Errorf "unused" [])
|}.

Definition sample_tenv : TaskEnv := mkTaskEnv (OutboxStore.oe_tx OutboxStore.sample_env) 50%Z.

Definition sample_idem (operation key : string) (s : IdempotencyStatus) : IdempotencyRecord :=
  mkIdempotencyRecord "acme" "ops" operation key ("digest-" +:+ key) s "" 0 "" "" 10%Z 1000%Z.

Definition sample_task (s : TaskStatus) (v : Z) : Task :=
  mkTask "t1" "acme" "ops" "alice" "a1" "input" s v "" f_zero f_zero f_zero "USD" "" "trace" 10%Z 10%Z None.

Definition sample_event (id ty : string) : TaskEvent :=
  mkTaskEvent id "" "" "" 0 ty (Build_TaskEventActor "user" "alice") "{}" "" "" 0 0%Z 0%Z.

Definition sample_move (from to : TaskStatus) : TaskTransition := mkTaskTransition from to "alice" "test" 20%Z.

Definition sample_message : OutboxMessage :=
  mkOutboxMessage "m1" "" "" "" "Task" "t1" "TaskCreated" "{}" "hook" "m1" (OutboxStatusOther "") 0 0%Z 0%Z None.

Definition sample_create : TaskCreateCommit :=
  mkTaskCreateCommit (sample_task TaskCreated 1) (sample_event "e1" "") [sample_message]
    (sample_idem "create" "k1" IdempotencyCompleted).
Definition sample_plan : TaskCommandCommit :=
  mkTaskCommandCommit (sample_task TaskPlanning 1) (sample_move TaskCreated TaskPlanning)
    (sample_event "e2" "TaskPlanningStarted") [] (sample_idem "plan" "k2" IdempotencyCompleted).
Definition sample_route : RouteTaskCommandCommit :=
  mkRouteTaskCommandCommit (sample_task TaskRouting 2) (sample_move TaskPlanning TaskRouting)
    (sample_decision "") (sample_event "e3" "") [] (sample_idem "route" "k3" IdempotencyCompleted).
Definition sample_begin : ModelExecutionBeginCommit :=
  mkModelExecutionBeginCommit (sample_task TaskExecuting 3) (Some (sample_move TaskRouting TaskExecuting))
    (Some (sample_event "e4" "TaskExecutionStarted")) (sample_idem "execute" "k4" IdempotencyInProgress).
Definition sample_begin_again : ModelExecutionBeginCommit :=
  mkModelExecutionBeginCommit (sample_task TaskExecuting 4) None None (sample_idem "execute" "k4" IdempotencyInProgress).
Definition sample_release : IdempotencyRecord := sample_idem "execute" "k4" IdempotencyFailedRetryable.
Definition sample_finalize : ModelExecutionFinalizeCommit :=
  mkModelExecutionFinalizeCommit (sample_task TaskCompleted 4)
    [sample_move TaskExecuting TaskValidating; sample_move TaskValidating TaskCompleted]
    [sample_event "e5" "TaskValidationStarted"; sample_event "e6" "TaskCompleted"]
    (sample_idem "execute" "k4" IdempotencyCompleted).

Definition sample_until_route : list (TaskEnv * call) :=
  [(sample_tenv, CallCreate sample_create); (sample_tenv, CallTransition sample_plan)].
Definition sample_until_begin : list (TaskEnv * call) :=
  sample_until_route ++ [(sample_tenv, CallRoute sample_route)].
Definition sample_run : list (TaskEnv * call) :=
  sample_until_begin
  ++ [(sample_tenv, CallBegin sample_begin); (sample_tenv, CallRetryable sample_release);
      (sample_tenv, CallBegin sample_begin_again); (sample_tenv, CallFinalize sample_finalize);
      (sample_tenv, CallCreate sample_create)].

Abbreviation sample_after h db := (run keep_ts Ok sample_codec h db).
Abbreviation sample_db h := (sample_after h emptyDB).

Lemma task_is_its_log_witness :
  ∃ t, tasks (sample_db sample_run) !! "t1" = Some t ∧ Task_Status t = TaskCompleted
  ∧ ∃ log, replay log = Some TaskCompleted ∧ length log = 6.
Proof.
  destruct (tasks (sample_db sample_run) !! "t1") as [t|] eqn:E; [|vm_compute in E; discriminate].
  pose proof (task_is_its_log keep_ts Ok sample_codec sample_run "t1" t E) as (log & _ & Hv & _ & Hr).
  vm_compute in E. injection E as <-. exists (sample_task TaskCompleted 6). simpl in *. split_and!; try done.
  exists log. split; [done|lia].
Defined.

(** The completed execution stays completed, and a stray begin is answered from it. *)
Lemma finished_command_is_final_witness :
  let k := key_of sample_release in
  let db := sample_after [(sample_tenv, CallBegin sample_begin)] (sample_db sample_run) in
  ∃ row, idem db !! k = Some row ∧ i_status row = IdempotencyCompleted
  ∧ call_answer keep_ts Ok sample_codec sample_tenv (CallBegin sample_begin) db = Ok (scan_idem k row, true)
  ∧ do_call keep_ts Ok sample_codec sample_tenv (CallBegin sample_begin) db = db.
Proof.
  intros k db. destruct (idem (sample_db sample_run) !! k) as [row|] eqn:E; [|vm_compute in E; discriminate].
  assert (i_status row = IdempotencyCompleted) as Hs by (vm_compute in E; by injection E as <-).
  destruct (finished_command_is_final keep_ts Ok sample_codec sample_run [(sample_tenv, CallBegin sample_begin)]
    k row E) as [Hk H]; [by rewrite Hs|]. fold db in Hk, H.
  destruct (H sample_tenv (CallBegin sample_begin) _ eq_refl eq_refl) as [Hdb Ha].
  exists row. split; [exact Hk|]. split; [exact Hs|]. split; [|exact Hdb].
  destruct (call_answer keep_ts Ok sample_codec sample_tenv (CallBegin sample_begin) db)
    as [answer|] eqn:Hc; [|vm_compute in Hc; discriminate].
  destruct (Ha answer eq_refl) as [-> _]. reflexivity.
Defined.

Definition sample_begun (c : ModelExecutionBeginCommit) (db : DB) : ModelExecutionBeginResult :=
  match fst (BeginModelExecution keep_ts Ok sample_tenv c db) with
  | Ok r => r
  | Err _ => mkModelExecutionBeginResult None None IdempotencyRecordZero true
  end.

Lemma model_command_begun_once_witness :
  let db1 := snd (BeginModelExecution keep_ts Ok sample_tenv sample_begin (sample_db sample_until_begin)) in
  let released := [(sample_tenv, CallRetryable sample_release)] in
  BeginResult_Replayed (sample_begun sample_begin_again (run keep_ts Ok sample_codec released db1)) = false
  ∧ ∃ env record, (env, CallRetryable record) ∈ released ∧ key_of record = key_of sample_release.
Proof.
  intros db1 released. split; [vm_compute; reflexivity|].
  refine (model_command_begun_once keep_ts Ok sample_codec sample_until_begin sample_tenv sample_begin
    (sample_begun sample_begin (sample_db sample_until_begin)) released sample_tenv sample_begin_again
    (sample_begun sample_begin_again (run keep_ts Ok sample_codec released db1)) _ _ _ _ _);
    vm_compute; reflexivity.
Defined.

Abbreviation sample_routed db := (CommitRouteTransition keep_ts Ok sample_codec sample_tenv sample_route db).

Lemma route_decision_roundtrip_witness :
  ∃ r1 r2, fst (sample_routed (sample_db sample_until_route)) = Ok r1
  ∧ fst (sample_routed (sample_after [] (snd (sample_routed (sample_db sample_until_route))))) = Ok r2
  ∧ RouteResult_Replayed r2 = true ∧ RouteResult_Decision r2 = RouteResult_Decision r1.
Proof.
  destruct (fst (sample_routed (sample_db sample_until_route))) as [r1|] eqn:E1; [|vm_compute in E1; discriminate].
  destruct (fst (sample_routed (sample_after [] (snd (sample_routed (sample_db sample_until_route)))))) as [r2|] eqn:E2;
    [|vm_compute in E2; discriminate].
  assert (RouteResult_Decision r1 = sample_decision "t1" ∧ RouteResult_Replayed r1 = false) as [Hd Hr]
    by (vm_compute in E1; injection E1 as <-; split; reflexivity).
  exists r1, r2. destruct (route_decision_roundtrip keep_ts Ok sample_codec sample_until_route sample_tenv
    sample_route r1 [] sample_tenv sample_route r2) as (H1 & H2 & _);
    [intros; rewrite Hd; reflexivity|exact E1|exact Hr|exact E2|reflexivity|].
  split; [reflexivity|]. split; [reflexivity|]. split; [exact H1|exact H2].
Defined.

Abbreviation sample_created db := (CreateTask keep_ts Ok sample_tenv sample_create db).

Lemma task_created_once_witness :
  ∃ r1 r2 t2, fst (sample_created (sample_db [])) = Ok r1 ∧ Result_Replayed r1 = false
  ∧ fst (sample_created (sample_after [] (snd (sample_created (sample_db []))))) = Ok r2 ∧ Result_Replayed r2 = true
  ∧ Result_Task r2 = Some t2 ∧ Task_ID t2 = "t1".
Proof.
  destruct (fst (sample_created (sample_db []))) as [r1|] eqn:E1; [|vm_compute in E1; discriminate].
  destruct (fst (sample_created (sample_after [] (snd (sample_created (sample_db [])))))) as [r2|] eqn:E2; [|vm_compute in E2; discriminate].
  assert (Result_Replayed r1 = false) as Hr by (vm_compute in E1; injection E1 as <-; reflexivity).
  destruct (task_created_once keep_ts Ok sample_codec [] sample_tenv sample_create r1 [] sample_tenv
    sample_create r2) as (_ & H1 & _ & t2 & H2 & H3 & _); [exact E1|exact Hr|exact E2|reflexivity|].
  exists r1, r2, t2. split; [reflexivity|]. split; [exact Hr|]. split; [reflexivity|]. split; [exact H1|].
  split; [exact H2|exact H3].
Defined.

Lemma commands_stay_in_scope_witness :
  confined ("acme", "ops") (sample_db sample_until_route)
    (do_call keep_ts Ok sample_codec sample_tenv (CallRoute sample_route) (sample_db sample_until_route)).
Proof.
  exact (commands_stay_in_scope keep_ts Ok sample_codec sample_until_route sample_tenv (CallRoute sample_route)
    (Route_Idempotency sample_route) eq_refl).
Defined.

(** While one model command runs, a second command under another key begins on
    the same task: the store asks only that the task is executing. *)
Definition sample_begin_other : ModelExecutionBeginCommit :=
  mkModelExecutionBeginCommit (sample_task TaskExecuting 4) None None (sample_idem "execute" "k9" IdempotencyInProgress).

Example other_key_begins_on_executing_task :
  let db1 := snd (BeginModelExecution keep_ts Ok sample_tenv sample_begin (sample_db sample_until_begin)) in
  BeginResult_Replayed (sample_begun sample_begin (sample_db sample_until_begin)) = false
  ∧ BeginResult_Replayed (sample_begun sample_begin_other db1) = false.
Proof. vm_compute. split; reflexivity. Qed.

End TaskSafety.
