(* ===== verification/GoStrings.v ===== *)
(** * GoStrings: the string and path functions the policy code uses

    Byte-level models of [strings.ToLower], [strings.ToUpper], [strings.Contains],
    [strings.HasPrefix], [strings.Trim], [filepath.Clean], [strconv.Itoa] of Go's standard
    library.  The source compares lowered and uppered strings only with ASCII
    words, and the case functions below are faithful for that: an ASCII letter is
    mapped, and so is each of the four runes whose image is an ASCII letter
    (U+0130 and U+212A when lowered, U+0131 and U+017F when uppered; no byte of
    another rune can be mistaken for one of them); every other byte at 0x80 and
    above stays at 0x80 and above, as every byte of the image of its rune is. *)
From stdpp Require Import pretty.
From S2P Require Import Prelude.

Definition in_range (lo hi : N) (a : ascii) : bool := ((lo <=? code a) && (code a <=? hi))%N.
Definition is_upper (a : ascii) : bool := in_range 65 90 a.
Definition is_lower (a : ascii) : bool := in_range 97 122 a.
Definition is_digit (a : ascii) : bool := in_range 48 57 a.

Definition lower_ascii (a : ascii) : ascii := if is_upper a then ascii_of_N (code a + 32) else a.
Definition upper_ascii (a : ascii) : ascii := if is_lower a then ascii_of_N (code a - 32) else a.

Fixpoint lower_bytes (l : list ascii) : list ascii :=
  match l with
  | a :: ((b :: l2) as l1) =>
      if ((code a =? 196) && (code b =? 176))%N then "i"%char :: lower_bytes l2
      else match l2 with
           | c :: l3 =>
               if ((code a =? 226) && (code b =? 132) && (code c =? 170))%N
               then "k"%char :: lower_bytes l3 else lower_ascii a :: lower_bytes l1
           | [] => lower_ascii a :: lower_bytes l1
           end
  | [a] => [lower_ascii a]
  | [] => []
  end.

Fixpoint upper_bytes (l : list ascii) : list ascii :=
  match l with
  | a :: ((b :: l2) as l1) =>
      if ((code a =? 196) && (code b =? 177))%N then "I"%char :: upper_bytes l2
      else if ((code a =? 197) && (code b =? 191))%N then "S"%char :: upper_bytes l2
      else upper_ascii a :: upper_bytes l1
  | [a] => [upper_ascii a]
  | [] => []
  end.

Definition ToLower (s : string) : string := of_bytes (lower_bytes (bytes s)).
Definition ToUpper (s : string) : string := of_bytes (upper_bytes (bytes s)).

(** ** Searching *)
Fixpoint starts_with (p l : list ascii) : bool :=
  match p, l with
  | [], _ => true
  | a :: p, b :: l => (a ==? b) && starts_with p l
  | _ :: _, [] => false
  end.

Fixpoint contains (p l : list ascii) : bool :=
  starts_with p l || match l with [] => false | _ :: l => contains p l end.

Definition HasPrefix (s prefix : string) : bool := starts_with (bytes prefix) (bytes s).
Definition Contains (s sub : string) : bool := contains (bytes sub) (bytes s).

Lemma starts_with_spec p l : starts_with p l = true ↔ ∃ q, l = p ++ q.
Proof.
  revert l. induction p as [|a p IH]; intros l; simpl; [naive_solver|].
  destruct l as [|b l]; [naive_solver|]. rewrite andb_true_iff, bool_decide_eq_true, IH. naive_solver.
Qed.

Lemma contains_spec p l : contains p l = true ↔ ∃ l1 l2, l = l1 ++ p ++ l2.
Proof.
  induction l as [|a l IH]; simpl; rewrite orb_true_iff, starts_with_spec.
  - split; [intros [[q Hq]|]; [by exists [], q|done]|].
    intros (l1 & l2 & Hl). destruct l1, p; simplify_eq/=. left. by exists [].
  - rewrite IH. split.
    + intros [[q ->]|(l1 & l2 & ->)]; [by exists [], q|by exists (a :: l1), l2].
    + intros ([|b l1] & l2 & Hl); simplify_eq/=; [left; eauto|right; eauto].
Qed.

(** ** [strings.Trim(s, "-")] *)
Definition trim_char_left (c : ascii) : list ascii → list ascii :=
  fix go l := match l with a :: l' => if a ==? c then go l' else l | [] => [] end.
Definition trim_char (c : ascii) (l : list ascii) : list ascii :=
  reverse (trim_char_left c (reverse (trim_char_left c l))).

(** ** [filepath.Clean] (Unix): components are resolved from left to right *)
Fixpoint split_slash (cur : list ascii) (l : list ascii) : list (list ascii) :=
  match l with
  | [] => [reverse cur]
  | a :: l => if a ==? "/"%char then reverse cur :: split_slash [] l else split_slash (a :: cur) l
  end.

(** The components kept so far, last first. *)
Definition clean_step (rooted : bool) (kept : list (list ascii)) (c : list ascii) : list (list ascii) :=
  if (c ==? []) || (c ==? ["."%char]) then kept
  else if c ==? ["."%char; "."%char] then
    match kept with
    | top :: rest => if top ==? ["."%char; "."%char] then c :: kept else rest
    | [] => if rooted then [] else [c]
    end
  else c :: kept.

Fixpoint join_slash (cs : list (list ascii)) : list ascii :=
  match cs with
  | [] => []
  | [c] => c
  | c :: cs => c ++ "/"%char :: join_slash cs
  end.

Definition Clean (path : string) : string :=
  match bytes path with
  | [] => "."
  | a :: l =>
      let rooted := a ==? "/"%char in
      let kept := foldl (clean_step rooted) [] (split_slash [] (a :: l)) in
      if rooted then of_bytes ("/"%char :: join_slash (reverse kept))
      else match kept with
           | [] => "."
           | _ => of_bytes (join_slash (reverse kept))
           end
  end.

Example Clean_ex1 : Clean "/workspace//a/./b/../c/" = "/workspace/a/c". Proof. reflexivity. Qed.
Example Clean_ex2 : Clean "/workspace/../../etc" = "/etc". Proof. reflexivity. Qed.
Example Clean_ex3 : Clean "../a/../../b" = "../../b". Proof. reflexivity. Qed.
Example ToLower_ex : ToLower "Tenant_ADMIN" = "tenant_admin". Proof. reflexivity. Qed.
Example ToUpper_ex : Contains (ToUpper "my_acceſs_token") "TOKEN" = true. Proof. reflexivity. Qed.

(** ** Numbers *)

(** [strconv.Itoa], [%d]: decimal, with a minus sign. *)
Definition Itoa (z : Z) : string := pretty z.

(** [t.UnixNano()]: nanoseconds since 1970, at 64 bits. *)
Definition UnixNano (t : Time) : Z := wrap64 (t - 62135596800000000000).

Lemma Itoa_inj z z' : Itoa z = Itoa z' → z = z'.
Proof. intros H. by apply (inj pretty) in H. Qed.

(** ** A string with a graphic ASCII character is not blank *)
Definition graphic (a : ascii) : bool := (33 <=? code a)%N && (code a <? 128)%N.

Lemma trim_front_graphic sp2 sp3 x l :
  (∀ a b, sp2 a b = true → graphic a = false ∧ graphic b = false) →
  (∀ a b c, sp3 a b c = true → graphic a = false ∧ graphic b = false ∧ graphic c = false) →
  graphic x = true → x ∈ l → x ∈ trim_front sp2 sp3 l.
Proof.
  intros H2 H3 Hx. remember (length l) as n eqn:Hn. assert (length l ≤ n) as Hle by lia. clear Hn.
  revert l Hle. induction n as [|n IH]; intros [|a l1] Hle; simpl in Hle |- *; try done; try lia.
  intros Hin. destruct (space1 a) eqn:Ha.
  { apply IH; [lia|]. apply elem_of_cons in Hin as [->|]; [|done].
    unfold graphic, space1 in *. rewrite orb_true_iff, !andb_true_iff, !N.leb_le, N.eqb_eq in Ha.
    rewrite andb_true_iff, N.leb_le, N.ltb_lt in Hx. lia. }
  destruct l1 as [|b l2]; [done|]. destruct (sp2 a b) eqn:Hab.
  { destruct (H2 _ _ Hab). simpl in Hle. apply IH; [lia|]. rewrite !elem_of_cons in Hin.
    destruct Hin as [->|[->|]]; [congruence..|done]. }
  destruct l2 as [|c l3]; [done|]. destruct (sp3 a b c) eqn:Habc; [|done].
  destruct (H3 _ _ _ Habc) as (? & ? & ?). simpl in Hle. apply IH; [lia|]. rewrite !elem_of_cons in Hin.
  destruct Hin as [->|[->|[->|]]]; [congruence..|done].
Qed.

Lemma space2_graphic a b : space2 a b = true → graphic a = false ∧ graphic b = false.
Proof.
  unfold space2, graphic. rewrite !andb_true_iff, !andb_false_iff, !orb_true_iff, !N.eqb_eq, !N.ltb_ge. lia.
Qed.

Lemma space3_graphic a b c : space3 a b c = true → graphic a = false ∧ graphic b = false ∧ graphic c = false.
Proof.
  unfold space3, graphic.
  rewrite !orb_true_iff, !andb_true_iff, !orb_true_iff, !andb_true_iff, !andb_false_iff, !N.eqb_eq, !N.ltb_ge, !N.leb_le. lia.
Qed.

Lemma blank_graphic s x : x ∈ bytes s → graphic x = true → blank s = false.
Proof.
  intros Hin Hx. unfold blank. apply bool_decide_eq_false. intros H.
  assert (x ∈ bytes (TrimSpace s)) as Hx'; [|rewrite H in Hx'; by apply not_elem_of_nil in Hx'].
  unfold TrimSpace, trim_right, trim_left. rewrite bytes_of_bytes. apply elem_of_reverse. apply trim_front_graphic; [| |done|].
  - intros a b Hab. destruct (space2_graphic _ _ Hab). done.
  - intros a b c Habc. destruct (space3_graphic _ _ _ Habc) as (? & ? & ?). done.
  - apply elem_of_reverse. apply trim_front_graphic; [apply space2_graphic|apply space3_graphic|done|done].
Qed.

Lemma blank_prefix a s : graphic a = true → blank (String a s) = false.
Proof. intros Ha. apply blank_graphic with a; [apply list_elem_of_here|done]. Qed.
