(* ===== verification/GoText.v ===== *)
(** * GoText: splitting, base64 and numbers in text

    What the API boundary uses of [strings], [encoding/base64], [strconv],
    [math] and [time]: splitting on a byte and on white space, trimming, the
    unpadded URL alphabet of base64, decimal integers and floats, and
    [time.Unix].  Everything works on bytes; a rune that is a space is
    recognised by its UTF-8 encoding as in the prelude, and since the first byte
    of such an encoding never occurs inside another rune, scanning byte by byte
    finds the same separators as scanning rune by rune. *)
From stdpp Require Import pretty.
From S2P Require Import Prelude GoStrings.

(** ** Splitting *)

(** [strings.Split(s, sep)] for a separator of one byte: the empty string gives
    one empty part. *)
Fixpoint split_byte (sep : ascii) (cur l : list ascii) : list string :=
  match l with
  | [] => [of_bytes (reverse cur)]
  | a :: l => if a ==? sep then of_bytes (reverse cur) :: split_byte sep [] l else split_byte sep (a :: cur) l
  end.
Definition Split (s : string) (sep : ascii) : list string := split_byte sep [] (bytes s).

(** The parts read since the last separator, if there are any. *)
Definition emit (cur : list ascii) (rest : list string) : list string :=
  match cur with [] => rest | _ => of_bytes (reverse cur) :: rest end.

(** [strings.Fields]. *)
Fixpoint fields (cur l : list ascii) : list string :=
  match l with
  | [] => emit cur []
  | a :: l1 =>
      if space1 a then emit cur (fields [] l1) else
      match l1 with
      | [] => fields (a :: cur) l1
      | b :: l2 =>
          if space2 a b then emit cur (fields [] l2) else
          match l2 with
          | [] => fields (a :: cur) l1
          | c :: l3 => if space3 a b c then emit cur (fields [] l3) else fields (a :: cur) l1
          end
      end
  end.
Definition Fields (s : string) : list string := fields [] (bytes s).

(** [strings.FieldsFunc] for separators of one byte. *)
Fixpoint fields_func (f : ascii → bool) (cur l : list ascii) : list string :=
  match l with
  | [] => emit cur []
  | a :: l => if f a then emit cur (fields_func f [] l) else fields_func f (a :: cur) l
  end.
Definition FieldsFunc (s : string) (f : ascii → bool) : list string := fields_func f [] (bytes s).

(** [strings.Trim(s, "c")], [strings.TrimPrefix], [strings.TrimSuffix]. *)
Definition Trim (s : string) (c : ascii) : string := of_bytes (trim_char c (bytes s)).
Definition TrimPrefix (s prefix : string) : string :=
  if HasPrefix s prefix then of_bytes (drop (String.length prefix) (bytes s)) else s.
Definition HasSuffix (s suffix : string) : bool := starts_with (reverse (bytes suffix)) (reverse (bytes s)).
Definition TrimSuffix (s suffix : string) : string :=
  if HasSuffix s suffix then of_bytes (take (String.length s - String.length suffix) (bytes s)) else s.

(** [strings.EqualFold(s, t)] when [t] is an ASCII word without the letters k and
    s, which alone fold with a rune outside ASCII. *)
Definition EqualFold (s t : string) : bool := (lower_ascii <$> bytes s) ==? (lower_ascii <$> bytes t).

Example Split_ex : Split "a//b/" "/" = ["a"; ""; "b"; ""]. Proof. reflexivity. Qed.
Example Split_empty : Split "" "/" = [""]. Proof. reflexivity. Qed.
Example Fields_ex : Fields "  Bearer   abc " = ["Bearer"; "abc"]. Proof. reflexivity. Qed.
Example TrimSuffix_ex : TrimSuffix "https://issuer/" "/" = "https://issuer". Proof. reflexivity. Qed.
Example EqualFold_ex : EqualFold "bEARer" "Bearer" = true. Proof. reflexivity. Qed.

(** ** base64.RawURLEncoding *)

Definition sextet_char (n : N) : ascii :=
  ascii_of_N (if n <? 26 then n + 65 else if n <? 52 then n + 71 else if n <? 62 then n - 4
              else if n =? 62 then 45 else 95)%N.

Definition char_sextet (a : ascii) : option N :=
  (if is_upper a then Some (code a - 65) else if is_lower a then Some (code a - 71)
   else if is_digit a then Some (code a + 4) else if code a =? 45 then Some 62
   else if code a =? 95 then Some 63 else None)%N.

Fixpoint to_sextets (l : list N) : list N :=
  (match l with
   | x :: y :: z :: l => x / 4 :: x mod 4 * 16 + y / 16 :: y mod 16 * 4 + z / 64 :: z mod 64 :: to_sextets l
   | [x; y] => [x / 4; x mod 4 * 16 + y / 16; y mod 16 * 4]
   | [x] => [x / 4; x mod 4 * 16]
   | [] => []
   end)%N.

(** The decoder is not strict: bits after the last whole byte are dropped. *)
Fixpoint of_sextets (l : list N) : option (list N) :=
  (match l with
   | a :: b :: c :: d :: l =>
       rest ← of_sextets l;
       Some (a * 4 + b / 16 :: b mod 16 * 16 + c / 4 :: c mod 4 * 64 + d :: rest)
   | [a; b; c] => Some [a * 4 + b / 16; b mod 16 * 16 + c / 4]
   | [a; b] => Some [a * 4 + b / 16]
   | [_] => None
   | [] => Some []
   end)%N.

Definition EncodeToString (s : string) : string := of_bytes (sextet_char <$> to_sextets (code <$> bytes s)).

(** Carriage returns and line feeds are skipped wherever they are. *)
Definition line_break (a : ascii) : bool := ((code a =? 10) || (code a =? 13))%N.

Definition DecodeString (s : string) : option string :=
  sextets ← mapM char_sextet (filter (λ a, line_break a = false) (bytes s));
  octets ← of_sextets sextets;
  Some (of_bytes (ascii_of_N <$> octets)).

Example Encode_ex : EncodeToString "v1:50" = "djE6NTA". Proof. reflexivity. Qed.
Example Decode_ex : DecodeString "djE6NTA" = Some "v1:50". Proof. reflexivity. Qed.
Example Decode_loose : DecodeString "djE6NTB" = Some "v1:50". Proof. reflexivity. Qed.
Example Decode_short : DecodeString "djE6N" = None. Proof. reflexivity. Qed.

Lemma char_sextet_char n : (n < 64)%N → char_sextet (sextet_char n) = Some n ∧ line_break (sextet_char n) = false.
Proof.
  intros Hn.
  assert (forallb (λ n, bool_decide (char_sextet (sextet_char n) = Some n ∧ line_break (sextet_char n) = false))
            (N.of_nat <$> seq 0 64) = true) as H by done.
  rewrite forallb_forall in H. apply (bool_decide_eq_true_1 _), H.
  rewrite <- list_elem_of_In. apply list_elem_of_fmap. exists (N.to_nat n). rewrite elem_of_seq. lia.
Qed.

(** Lists in steps of three. *)
Lemma three_ind {A} (P : list A → Prop) :
  P [] → (∀ x, P [x]) → (∀ x y, P [x; y]) → (∀ x y z l, P l → P (x :: y :: z :: l)) → ∀ l, P l.
Proof.
  intros H0 H1 H2 H3. fix IH 1. intros [|x [|y [|z l]]]; [done|apply H1|apply H2|apply H3, IH].
Qed.

Definition octet (n : N) : Prop := (n < 256)%N.

Ltac octets :=
  repeat match goal with H : Forall octet (_ :: _) |- _ => apply Forall_cons in H as [? H] end; unfold octet in *;
  zify; Z.to_euclidean_division_equations; lia.

Lemma to_sextets_small l : Forall octet l → Forall (λ n, (n < 64)%N) (to_sextets l).
Proof.
  induction l as [|x|x y|x y z l IH] using three_ind; intros Hl; simpl; repeat constructor; try (by octets).
  apply IH. by do 3 apply Forall_inv_tail in Hl.
Qed.

Lemma of_to_sextets l : Forall octet l → of_sextets (to_sextets l) = Some l.
Proof.
  induction l as [|x|x y|x y z l IH] using three_ind; intros Hl; simpl; [done|repeat f_equal; octets..|].
  rewrite IH by (by do 3 apply Forall_inv_tail in Hl). simpl. repeat f_equal; octets.
Qed.

Lemma code_octet l : Forall octet (code <$> l).
Proof. apply Forall_fmap, Forall_true. intros a. apply N_ascii_bounded. Qed.

Lemma mapM_sextets l :
  Forall (λ n, (n < 64)%N) l → mapM char_sextet (filter (λ a, line_break a = false) (sextet_char <$> l)) = Some l.
Proof.
  induction 1 as [|n l Hn _ IH]; [done|]. destruct (char_sextet_char n Hn) as [Hc Hb].
  rewrite fmap_cons, filter_cons_True by done. simpl. by rewrite Hc, IH.
Qed.

(** Decoding gives back what was encoded. *)
Lemma Decode_Encode s : DecodeString (EncodeToString s) = Some s.
Proof.
  unfold DecodeString, EncodeToString. rewrite bytes_of_bytes, mapM_sextets by apply to_sextets_small, code_octet.
  simpl. rewrite of_to_sextets by apply code_octet. simpl. f_equal. rewrite <- list_fmap_compose.
  rewrite <- (of_bytes_bytes s) at 2. f_equal. rewrite <- (list_fmap_id (bytes s)) at 2.
  apply list_fmap_ext. intros _ a _. apply ascii_N_embedding.
Qed.

(** ** Decimal integers: [strconv.Atoi] *)

Definition digit (a : ascii) : Z := (Z.of_N (code a) - 48)%Z.

Fixpoint digits_value (acc : Z) (l : list ascii) : option Z :=
  match l with
  | [] => Some acc
  | a :: l => if is_digit a then digits_value (acc * 10 + digit a)%Z l else None
  end.

Definition unsigned_value (l : list ascii) : option Z := match l with [] => None | _ => digits_value 0 l end.

Definition Atoi (s : string) : option Z :=
  z ← match bytes s with
      | "-"%char :: l => Z.opp <$> unsigned_value l
      | "+"%char :: l => unsigned_value l
      | l => unsigned_value l
      end;
  if fits_int8 z then Some z else None.

Lemma pretty_N_char_digit n : (n < 10)%N → is_digit (pretty_N_char n) = true ∧ digit (pretty_N_char n) = Z.of_N n.
Proof.
  intros Hn. assert (n ∈ N.of_nat <$> seq 0 10) as Hin.
  { apply list_elem_of_fmap. exists (N.to_nat n). rewrite elem_of_seq. lia. }
  simpl in Hin. rewrite !elem_of_cons, elem_of_nil in Hin. by destruct_or!; subst.
Qed.

Lemma digits_value_go x s : digits_value 0 (bytes (pretty_N_go x s)) = digits_value (Z.of_N x) (bytes s).
Proof.
  revert s. induction (N.lt_wf_0 x) as [x _ IH]. intros s.
  destruct (decide (x = 0)%N) as [->|Hx]; [by rewrite pretty_N_go_0|].
  rewrite pretty_N_go_step by lia. rewrite IH by (apply N.div_lt; lia). simpl.
  destruct (pretty_N_char_digit (x mod 10)) as [-> ->]; [apply N.mod_lt; lia|].
  f_equal. pose proof (N.div_mod x 10). lia.
Qed.

Lemma pretty_N_value n : unsigned_value (bytes (pretty n)) = Some (Z.of_N n).
Proof.
  unfold pretty, pretty_N. case_decide; [by subst|].
  pose proof (digits_value_go n "") as H0. unfold unsigned_value.
  destruct (bytes (pretty_N_go n "")) eqn:E; [|by rewrite H0].
  simpl in H0. destruct n; simplify_eq/=.
Qed.

(** Reading back what [strconv.Itoa] wrote. *)
Lemma Atoi_Itoa z : (0 ≤ z ≤ int_max)%Z → Atoi (Itoa z) = Some z.
Proof.
  intros Hz. unfold Atoi, Itoa.
  assert (pretty z = pretty (Z.to_N z)) as -> by (destruct z; simpl; [done|done|lia]).
  pose proof (pretty_N_value (Z.to_N z)) as Hv. rewrite Z2N.id in Hv by lia.
  assert (∀ a l, bytes (pretty (Z.to_N z)) = a :: l → a ≠ "-"%char ∧ a ≠ "+"%char) as Hne.
  { intros a l E. rewrite E in Hv. simpl in Hv. destruct (is_digit a) eqn:Ha; [|done].
    split; intros ->; done. }
  assert (∀ r : option Z, r = Some z → (z ← r; if fits_int8 z then Some z else None) = Some z) as Hk.
  { intros r ->. simpl. unfold fits_int8. rewrite (proj2 (Z.leb_le int_min z)), (proj2 (Z.leb_le z int_max)); [done|lia|].
    unfold int_min. lia. }
  apply Hk. destruct (bytes (pretty (Z.to_N z))) as [|a l]; [done|]. destruct (Hne a l eq_refl) as [H1 H2].
  rewrite <- Hv. destruct a as [[] [] [] [] [] [] [] []]; done.
Qed.

(** ** Floats in text and as times *)

(** [strconv.ParseFloat(s, 64)] on the text of a JSON number: the nearest
    float64; an error when it overflows.  Like the source of [strconv], an
    exponent stops growing once it has reached 10000. *)
Fixpoint read_digits (acc : Z) (count : Z) (l : list ascii) : Z * Z * list ascii :=
  match l with
  | a :: l' => if is_digit a then read_digits (acc * 10 + digit a) (count + 1) l' else (acc, count, l)
  | [] => (acc, count, [])
  end%Z.

Fixpoint read_exponent (acc : Z) (l : list ascii) : option Z :=
  match l with
  | [] => Some acc
  | a :: l => if is_digit a then read_exponent (if acc <? 10000 then acc * 10 + digit a else acc)%Z l else None
  end.

(** The float64 nearest to [m * 10 ^ e], for [m >= 0]. *)
Definition f_decimal (m e : Z) : float64 :=
  if (m =? 0)%Z then f_zero
  else if (0 <=? e)%Z then f_int (m * 10 ^ e)
  else
    let s := (64 - 4 * e)%Z in
    let num := (m * 2 ^ s)%Z in
    let den := (10 ^ (- e))%Z in
    let sticky := if (num mod den =? 0)%Z then 0%Z else 1%Z in
    binary_normalize f64_prec f64_emax (2 * (num / den) + sticky) (- (s + 1)) false.

Definition f_finite (x : float64) : bool := match x with S754_zero _ | S754_finite _ _ _ => true | _ => false end.

Definition ParseFloat (s : string) : option float64 :=
  let '(neg, l) := match bytes s with "-"%char :: l => (true, l) | l => (false, l) end in
  let '(m, n, l) := read_digits 0 0 l in
  let '(m, frac, l) := match l with "."%char :: l => read_digits m 0 l | _ => (m, 0%Z, l) end in
  if (n + frac =? 0)%Z then None else
  exponent ← match l with
             | [] => Some 0%Z
             | a :: l =>
                 if (a ==? "e"%char) || (a ==? "E"%char) then
                   match l with
                   | "-"%char :: l => match l with [] => None | _ => Z.opp <$> read_exponent 0 l end
                   | "+"%char :: l => match l with [] => None | _ => read_exponent 0 l end
                   | [] => None
                   | l => read_exponent 0 l
                   end
                 else None
             end;
  let x := f_decimal m (exponent - frac) in
  if f_finite x then Some (if neg then SFopp x else x) else None.

(** The integer part of a float, rounding toward zero. *)
Definition f_trunc (x : float64) : Z :=
  match x with
  | S754_finite s m e =>
      let z := if (0 <=? e)%Z then (Z.pos m * 2 ^ e)%Z else (Z.pos m / 2 ^ (- e))%Z in
      if s then (- z)%Z else z
  | _ => 0%Z
  end.

Example ParseFloat_int : ParseFloat "1767225600" = Some (f_int 1767225600). Proof. reflexivity. Qed.
Example ParseFloat_frac : ParseFloat "-12.5e-1" = Some (SFopp (f_div (f_int 5) (f_int 4))). Proof. vm_compute. reflexivity. Qed.
Example ParseFloat_tenth : ParseFloat "0.1" = Some (f_div (f_int 1) (f_int 10)). Proof. vm_compute. reflexivity. Qed.
Example ParseFloat_range : ParseFloat "1e400" = None. Proof. vm_compute. reflexivity. Qed.

(** [time.Unix(sec, nsec)]: nanoseconds outside a second are carried over, and
    the seconds since year 1 wrap at 64 bits. *)
Definition Unix (sec nsec : Z) : Time :=
  let sec := if (nsec <? 0)%Z || (1000000000 <=? nsec)%Z then add64 sec (nsec / 1000000000)%Z else sec in
  (add64 sec 62135596800 * 1000000000 + nsec mod 1000000000)%Z.

(** [t.Add(d)] with its bounds: the seconds stop at the ends of int64. *)
Definition AddTime (t : Time) (d : Duration) : Time :=
  let u := (t + d)%Z in
  if (int_max <? u / 1000000000)%Z then (int_max * 1000000000 + u mod 1000000000)%Z
  else if (u / 1000000000 <? int_min)%Z then (- int_max * 1000000000 + u mod 1000000000)%Z
  else u.

(** ** Text without spaces *)

Lemma space1_graphic a : graphic a = true → space1 a = false.
Proof.
  unfold graphic, space1. rewrite andb_true_iff, N.leb_le, N.ltb_lt. intros Ha. apply orb_false_iff.
  split; [apply andb_false_iff; right; apply N.leb_gt; lia|apply N.eqb_neq; lia].
Qed.

Lemma TrimSpace_graphic s : Forall (λ a, graphic a = true) (bytes s) → TrimSpace s = s.
Proof.
  intros Hs.
  assert (∀ sp2 sp3 l, (∀ a b, graphic a = true → sp2 a b = false) → (∀ a b c, graphic a = true → sp3 a b c = false) →
            Forall (λ a, graphic a = true) l → trim_front sp2 sp3 l = l) as Hfront.
  { intros sp2 sp3 [|a [|b [|c l]]] H2 H3 Hl; simpl; [done|..]; apply Forall_inv in Hl;
      rewrite (space1_graphic a Hl), ?(H2 a _ Hl), ?(H3 a _ _ Hl); done. }
  unfold TrimSpace, trim_right, trim_left. rewrite (Hfront _ _ (bytes s)); [| | |done].
  - rewrite (Hfront _ _ (reverse (bytes s))); [by rewrite reverse_involutive, of_bytes_bytes| | |by apply Forall_reverse].
    + intros a b Ha. destruct (space2 b a) eqn:E; [|done]. apply space2_graphic in E as [? ?]. congruence.
    + intros a b c Ha. destruct (space3 c b a) eqn:E; [|done]. apply space3_graphic in E as (? & ? & ?). congruence.
  - intros a b Ha. destruct (space2 a b) eqn:E; [|done]. apply space2_graphic in E as [? ?]. congruence.
  - intros a b c Ha. destruct (space3 a b c) eqn:E; [|done]. apply space3_graphic in E as (? & ? & ?). congruence.
Qed.

Lemma Encode_graphic s : Forall (λ a, graphic a = true) (bytes (EncodeToString s)).
Proof.
  unfold EncodeToString. rewrite bytes_of_bytes. apply Forall_fmap.
  eapply Forall_impl; [apply to_sextets_small, code_octet|]. intros n Hn. simpl in *.
  assert (forallb (λ n, graphic (sextet_char n)) (N.of_nat <$> seq 0 64) = true) as H by done.
  rewrite forallb_forall in H. apply H. rewrite <- list_elem_of_In. apply list_elem_of_fmap. exists (N.to_nat n).
  rewrite elem_of_seq. lia.
Qed.

Lemma digits_graphic acc l z : digits_value acc l = Some z → Forall (λ a, graphic a = true) l.
Proof.
  revert acc. induction l as [|a l IH]; intros acc; simpl; [constructor|]. destruct (is_digit a) eqn:Ha; [|done].
  intros H. constructor; [|by eapply IH]. revert Ha. unfold is_digit, in_range, graphic.
  rewrite !andb_true_iff, !N.leb_le, N.ltb_lt. lia.
Qed.

Lemma Itoa_graphic z : Forall (λ a, graphic a = true) (bytes (Itoa z)).
Proof.
  assert (∀ n : N, Forall (λ a, graphic a = true) (bytes (pretty n))) as Hn.
  { intros n. pose proof (pretty_N_value n) as H. unfold unsigned_value in H.
    destruct (bytes (pretty n)) as [|a l] eqn:E; [constructor|]. rewrite <- E in H |- *. by eapply digits_graphic. }
  unfold Itoa. destruct z as [|p|p]; [apply (Hn 0%N)|apply (Hn (N.pos p))|]. constructor; [done|apply (Hn (N.pos p))].
Qed.

Lemma bytes_app s t : bytes (s +:+ t) = bytes s ++ bytes t.
Proof. induction s as [|a s IH]; [done|]. simpl. by f_equal. Qed.

Lemma HasPrefix_app s t : HasPrefix (s +:+ t) s = true.
Proof. unfold HasPrefix. rewrite bytes_app. apply starts_with_spec. by eexists. Qed.

Lemma TrimPrefix_app s t : TrimPrefix (s +:+ t) s = t.
Proof.
  unfold TrimPrefix. rewrite HasPrefix_app, bytes_app.
  replace (String.length s) with (length (bytes s)) by (induction s; simpl; congruence).
  by rewrite drop_app_length, of_bytes_bytes.
Qed.

(** * Paths: splitting and trimming a path

    [strings.Split] and [strings.Trim] as the router and the access table use
    them on a path: a string is the join of its parts, and trimming the
    separators at both ends of a joined list of nonempty parts leaves the join. *)

Module Paths.
Section paths.
Variable sep : ascii.

Fixpoint join (parts : list string) : list ascii :=
  match parts with
  | [] => []
  | [part] => bytes part
  | part :: parts => bytes part ++ sep :: join parts
  end.

(** No separator inside. *)
Definition solid (part : string) : Prop := sep ∉ bytes part.

Lemma join_cons part parts : parts ≠ [] → join (part :: parts) = bytes part ++ sep :: join parts.
Proof. by destruct parts. Qed.

Lemma split_byte_ne cur l : split_byte sep cur l ≠ [].
Proof. revert cur. induction l as [|a l IH]; intros cur; simpl; [done|]. by case_bool_decide. Qed.

Lemma split_byte_join cur l : sep ∉ cur →
  join (split_byte sep cur l) = reverse cur ++ l ∧ Forall solid (split_byte sep cur l).
Proof.
  revert cur. induction l as [|a l IH]; intros cur Hcur; simpl.
  { rewrite bytes_of_bytes, app_nil_r. split; [done|]. repeat constructor. unfold solid.
    by rewrite bytes_of_bytes, elem_of_reverse. }
  case_bool_decide as Ha.
  - subst. destruct (IH [] (not_elem_of_nil _)) as [Hj Hs].
    rewrite join_cons, bytes_of_bytes, Hj by apply split_byte_ne. split; [done|]. constructor; [|done].
    unfold solid. by rewrite bytes_of_bytes, elem_of_reverse.
  - destruct (IH (a :: cur)) as [Hj Hs]; [by apply not_elem_of_cons|]. split; [|done].
    by rewrite Hj, reverse_cons, <- app_assoc.
Qed.

Lemma Split_join s : join (Split s sep) = bytes s ∧ Forall solid (Split s sep).
Proof. apply (split_byte_join [] (bytes s)), not_elem_of_nil. Qed.

Lemma split_byte_app cur p l : sep ∉ p → split_byte sep cur (p ++ l) = split_byte sep (reverse p ++ cur) l.
Proof.
  revert cur. induction p as [|a p IH]; intros cur Hp; simpl; [done|]. apply not_elem_of_cons in Hp as [Ha Hp].
  rewrite bool_decide_false by done. rewrite IH by done. by rewrite reverse_cons, <- app_assoc.
Qed.

Lemma split_byte_seps j cur : split_byte sep cur (replicate j sep) = of_bytes (reverse cur) :: replicate j "".
Proof.
  revert cur. induction j as [|j IH]; intros cur; simpl; [done|]. rewrite bool_decide_true by done. f_equal. apply IH.
Qed.

(** Splitting a join, with separators after it. *)
Lemma split_join parts j : parts ≠ [] → Forall solid parts →
  split_byte sep [] (join parts ++ replicate j sep) = parts ++ replicate j "".
Proof.
  induction parts as [|part [|part' parts] IH]; intros Hne Hs; [done|..]; apply Forall_cons in Hs as [Hp Hs].
  - simpl. rewrite split_byte_app, app_nil_r, split_byte_seps, reverse_involutive, of_bytes_bytes by done. done.
  - rewrite join_cons, <- app_assoc, split_byte_app, app_nil_r by done. simpl app at 1. simpl split_byte.
    rewrite bool_decide_true, reverse_involutive, of_bytes_bytes by done. simpl. f_equal. by apply IH.
Qed.

Lemma trim_left_seps l : ∃ i, l = replicate i sep ++ trim_char_left sep l.
Proof.
  induction l as [|a l [i IH]]; [by exists 0|]. simpl. case_bool_decide; [|by exists 0].
  exists (S i). simpl. congruence.
Qed.

Lemma Trim_seps s : ∃ i j, bytes s = replicate i sep ++ bytes (Trim s sep) ++ replicate j sep.
Proof.
  unfold Trim, trim_char. rewrite bytes_of_bytes.
  destruct (trim_left_seps (bytes s)) as [i Hi]. exists i.
  destruct (trim_left_seps (reverse (trim_char_left sep (bytes s)))) as [j Hj]. exists j.
  apply (f_equal reverse) in Hj. rewrite reverse_involutive, reverse_app, reverse_replicate in Hj. by rewrite <- Hj, <- Hi.
Qed.

Lemma trim_left_replicate j l : trim_char_left sep (replicate j sep ++ l) = trim_char_left sep l.
Proof. induction j as [|j IH]; [done|]. simpl. by rewrite bool_decide_true. Qed.

Lemma trim_left_solid l : head l ≠ Some sep → trim_char_left sep l = l.
Proof. destruct l as [|a l]; [done|]. simpl. intros H. rewrite bool_decide_false; congruence. Qed.

Lemma trim_char_core l j : head l ≠ Some sep → last l ≠ Some sep → l ≠ [] →
  trim_char sep (l ++ replicate j sep) = l.
Proof.
  intros Hh Hl Hne. unfold trim_char. rewrite (trim_left_solid (l ++ _)) by (by destruct l).
  rewrite reverse_app, reverse_replicate, trim_left_replicate, trim_left_solid, reverse_involutive; [done|].
  by rewrite head_reverse.
Qed.

Lemma trim_char_only j : trim_char sep (replicate j sep) = [].
Proof.
  unfold trim_char. rewrite <- (app_nil_r (replicate j sep)), trim_left_replicate. done.
Qed.

Lemma solid_head part l : solid part → part ≠ "" → head (bytes part ++ l) ≠ Some sep ∧ bytes part ≠ [].
Proof.
  unfold solid. destruct part as [|a part]; [done|]. simpl. intros Ha _. split; [|done]. intros [= ->].
  apply Ha, list_elem_of_here.
Qed.

Lemma solid_last part l : solid part → part ≠ "" → last (l ++ bytes part) ≠ Some sep.
Proof.
  intros Hs Hne. rewrite last_app. destruct (last (bytes part)) as [b|] eqn:Hb.
  - intros [= ->]. by apply Hs, last_Some_elem_of.
  - apply last_None in Hb. by destruct part.
Qed.

Lemma join_ends parts : parts ≠ [] → Forall (λ p, solid p ∧ p ≠ "") parts →
  head (join parts) ≠ Some sep ∧ last (join parts) ≠ Some sep ∧ join parts ≠ [].
Proof.
  induction parts as [|part [|part' parts] IH]; intros Hne Hs; [done|..]; apply Forall_cons in Hs as [[Hp Hnep] Hs].
  - simpl. destruct (solid_head part [] Hp Hnep) as [H1 H2]. rewrite app_nil_r in H1.
    split; [done|split; [|done]]. apply (solid_last part [] Hp Hnep).
  - rewrite join_cons by done. destruct (solid_head part (sep :: join (part' :: parts)) Hp Hnep) as [H1 H2].
    destruct IH as (_ & H3 & H4); [done..|]. split; [done|]. split; [|by destruct (bytes part)].
    rewrite last_app, last_cons. destruct (last (join (part' :: parts))) as [b|] eqn:Hb; [done|].
    by apply last_None in Hb.
Qed.

Lemma Trim_join parts j s : parts ≠ [] → Forall (λ p, solid p ∧ p ≠ "") parts →
  bytes s = join parts ++ replicate j sep → Split (Trim s sep) sep = parts.
Proof.
  intros Hne Hs Hb. unfold Trim. rewrite Hb. destruct (join_ends parts Hne Hs) as (H1 & H2 & H3).
  rewrite trim_char_core by done. unfold Split. rewrite bytes_of_bytes. rewrite <- (app_nil_r (join parts)).
  change (@nil ascii) with (replicate 0 sep) at 2. rewrite split_join; [by rewrite app_nil_r|done|].
  eapply Forall_impl; [exact Hs|]. by intros p [].
Qed.
End paths.
End Paths.
