(* ===== verification/Programs.v ===== *)
(** * Programs: code that asks its environment

    A Go function that calls stores, clocks and services through interfaces is
    written as a program: it makes one request at a time and goes on with the
    answer.  A theorem about all answers holds for every implementation behind
    the interfaces and for whatever happens between two requests. *)
From S2P Require Import Prelude.

Module Programs.

(** [E X] is a request whose answer is an [X]. *)
Inductive prog (E : Type → Set) (A : Type) : Type :=
| Ret (a : A)
| Do {X : Type} (e : E X) (k : X → prog E A).
Arguments Ret {E A} a.
Arguments Do {E A X} e k.

Section programs.
Context {E : Type → Set}.

Fixpoint bind {A B} (p : prog E A) (f : A → prog E B) : prog E B :=
  match p with
  | Ret a => f a
  | Do e k => Do e (λ x, bind (k x) f)
  end.

#[global] Instance prog_ret : MRet (prog E) := @Ret E.
#[global] Instance prog_bind : MBind (prog E) := λ A B f p, bind p f.

Definition ask {X} (e : E X) : prog E X := Do e Ret.

(** [if err != nil { return wrap(err) }]. *)
Definition try {A B} (p : prog E (result A)) (wrap : error → error) (k : A → prog E (result B)) : prog E (result B) :=
  r ← p;
  match r with Ok a => k a | Err e => Ret (Err (wrap e)) end.

(** A request with its answer, and the runs of a program, finished or not: every
    sequence of answers. *)
Inductive exchange : Type :=
| Asked {X : Type} (e : E X) (x : X).

Inductive asks {A} : prog E A → list exchange → prog E A → Prop :=
| asks_nil p : asks p [] p
| asks_Do {X} (e : E X) (x : X) k t p : asks (k x) t p → asks (Do e k) (Asked e x :: t) p.

Lemma asks_inv {A} (p p' : prog E A) t :
  asks p t p' →
  match p with
  | Ret a => t = [] ∧ p' = Ret a
  | Do e k => t = [] ∧ p' = Do e k ∨ ∃ x t', t = Asked e x :: t' ∧ asks (k x) t' p'
  end.
Proof. destruct 1 as [[a|X e k]|X e x k t p H]; [done|by left|right; eauto]. Qed.

Lemma asks_snoc {A X} (p : prog E A) t (e : E X) k x : asks p t (Do e k) → asks p (t ++ [Asked e x]) (k x).
Proof.
  intros H. remember (Do e k) as q eqn:Hq. induction H as [p|Y e' y k' t p H IH]; subst; simpl; constructor; [constructor|].
  by apply IH.
Qed.

(** A run to the end; [asks p t (Do e k)] is a run after which [e] is asked. *)
Definition returns {A} (p : prog E A) (t : list exchange) (a : A) : Prop := asks p t (Ret a).

Lemma asks_bind {A B} (p : prog E A) (f : A → prog E B) t q :
  asks (p ≫= f) t q →
  (∃ p', asks p t p') ∨ ∃ a t1 t2, t = t1 ++ t2 ∧ returns p t1 a ∧ asks (f a) t2 q.
Proof.
  revert t. induction p as [a|X e k IH]; intros t H; [right; exists a, [], t; by repeat constructor|].
  apply asks_inv in H as [[-> _]|(x & t' & -> & H)]; [left; eexists; constructor|].
  destruct (IH x t' H) as [[p' Hp]|(a & t1 & t2 & -> & H1 & H2)]; [left; eexists; by constructor|right].
  exists a, (Asked e x :: t1), t2. split; [done|]. split; [by constructor|done].
Qed.

Lemma asks_bind_returns {A B} (p : prog E A) (f : A → prog E B) t a t2 q :
  returns p t a → asks (f a) t2 q → asks (p ≫= f) (t ++ t2) q.
Proof.
  intros H Hf. unfold returns in H. remember (Ret a) as p' eqn:Hp'.
  induction H as [p|X e x k t p H IH]; subst; [done|]. constructor. by apply IH.
Qed.

(** The run that [answer] determines: to the end or to the first request it does
    not answer. *)
Fixpoint follow {A} (answer : ∀ X, E X → option X) (p : prog E A) : list exchange * prog E A :=
  match p with
  | Ret a => ([], Ret a)
  | @Do _ _ X e k =>
      match answer X e with
      | None => ([], Do e k)
      | Some x => let '(t, p') := follow answer (k x) in (Asked e x :: t, p')
      end
  end.

Lemma follow_asks {A} answer (p : prog E A) : asks p (fst (follow answer p)) (snd (follow answer p)).
Proof.
  induction p as [a|X e k IH]; simpl; [constructor|]. destruct (answer X e) as [x|]; [|constructor].
  specialize (IH x). destruct (follow answer (k x)) as [t p']. by constructor.
Qed.

Lemma follow_answers {A} answer (p : prog E A) :
  Forall (λ y, match y with Asked e x => answer _ e = Some x end) (fst (follow answer p)).
Proof.
  induction p as [a|X e k IH]; simpl; [constructor|]. destruct (answer X e) as [x|] eqn:He; [|constructor].
  specialize (IH x). destruct (follow answer (k x)) as [t p']. by constructor.
Qed.

(** ** Proving that every run asks and returns what it may

    [P h e] says that the request [e] may be made after the exchanges [h]; [wp h p Q]
    that from there [p] makes no other requests, and returns only what [Q] allows. *)
Section wp.
Variable P : ∀ {X}, list exchange → E X → Prop.

Fixpoint wp {A} (h : list exchange) (p : prog E A) (Q : list exchange → A → Prop) : Prop :=
  match p with
  | Ret a => Q h a
  | Do e k => P h e ∧ ∀ x, wp (h ++ [Asked e x]) (k x) Q
  end.

Lemma wp_Do {A X} h (e : E X) (k : X → prog E A) Q :
  P h e → (∀ x, wp (h ++ [Asked e x]) (k x) Q) → wp h (Do e k) Q.
Proof. done. Qed.

Lemma wp_bind {A B} h (p : prog E A) (f : A → prog E B) Q :
  wp h (p ≫= f) Q ↔ wp h p (λ h a, wp h (f a) Q).
Proof.
  revert h. induction p as [a|X e k IH]; intros h; simpl; [done|].
  split; intros [H1 H2]; (split; [done|]); intros x; by apply IH.
Qed.

Lemma wp_mono {A} h (p : prog E A) (Q Q' : list exchange → A → Prop) :
  (∀ h a, Q h a → Q' h a) → wp h p Q → wp h p Q'.
Proof.
  intros HQ. revert h. induction p as [a|X e k IH]; intros h; simpl; [apply HQ|].
  intros [H1 H2]. split; [done|]. intros x. by apply IH.
Qed.

Lemma wp_try {A B} h (p : prog E (result A)) wrap (k : A → prog E (result B)) (Q : list exchange → result B → Prop) :
  wp h p (λ h r, match r with Ok a => wp h (k a) Q | Err e => Q h (Err (wrap e)) end) → wp h (try p wrap k) Q.
Proof. intros Hp. unfold try. apply wp_bind. eapply wp_mono; [|exact Hp]. by intros h' [a|e]. Qed.

Lemma wp_asks {A} h (p p' : prog E A) t Q : wp h p Q → asks p t p' → wp (h ++ t) p' Q.
Proof.
  intros Hp Ht. revert h Hp. induction Ht as [p|X e x k t p Ht IH]; intros h Hp; [by rewrite app_nil_r|].
  destruct Hp as [_ Hk]. replace (h ++ Asked e x :: t) with ((h ++ [Asked e x]) ++ t) by (by rewrite <- app_assoc).
  by apply IH.
Qed.

Lemma wp_request {A} (p : prog E A) t X (e : E X) k Q : wp [] p Q → asks p t (Do e k) → P t e.
Proof. intros Hp Ht. exact (proj1 (wp_asks _ _ _ _ _ Hp Ht)). Qed.

Lemma wp_returns {A} (p : prog E A) t a Q : wp [] p Q → returns p t a → Q t a.
Proof. intros Hp Ht. exact (wp_asks _ _ _ _ _ Hp Ht). Qed.
End wp.
End programs.

Arguments exchange : clear implicits.
Arguments Asked {E X} e x.
Arguments wp {E} P {A} h p Q.

(** ** Programs in a larger environment *)
Section translate.
Context {E F : Type → Set} (f : ∀ X, E X → F X).

Fixpoint translate {A} (p : prog E A) : prog F A :=
  match p with
  | Ret a => Ret a
  | Do e k => Do (f _ e) (λ x, translate (k x))
  end.

Definition translated (x : exchange E) : exchange F := match x with Asked e a => Asked (f _ e) a end.

Lemma translate_returns {A} (p : prog E A) t a : returns p t a → returns (translate p) (translated <$> t) a.
Proof.
  intros H. unfold returns in *. remember (Ret a) as p' eqn:Hp'.
  induction H as [p|X e x k t p H IH]; subst; constructor. by apply IH.
Qed.

Lemma wp_translate (P : ∀ X, list (exchange F) → F X → Prop) {A} h (p : prog E A) Q :
  (∀ X h (e : E X), P X h (f X e)) → (∀ t a, returns p t a → Q (h ++ (translated <$> t)) a) → wp P h (translate p) Q.
Proof.
  intros HP. revert h. induction p as [a|X e k IH]; intros h HQ; simpl.
  - rewrite <- (app_nil_r h). apply (HQ []). constructor.
  - split; [done|]. intros x. apply IH. intros t a Ht. rewrite <- app_assoc. apply (HQ (Asked e x :: t)). by constructor.
Qed.
End translate.

(** An exchange of a history that is written out. *)
Ltac mem :=
  lazymatch goal with
  | |- _ ∈ _ ++ _ => apply elem_of_app; first [left; solve [mem]|right; solve [mem]]
  | |- _ ∈ _ :: _ => first [apply list_elem_of_here|apply list_elem_of_further; mem]
  | |- _ => assumption
  end.

End Programs.
