(* ===== verification/TaskRepository.v ===== *)
(** * TaskRepository: the task repositories and their tenant scope

    [src/internal/repository/memory.go] (tasks), [postgres_scoped_tasks.go] and
    the wrapper every server puts around one of them,
    [src/internal/tenantrepo/tasks.go].  The wrapper is a program over the
    repository it wraps, so that other requests can run between its calls.  The
    order in which a map is visited, and what sort.Slice or ORDER BY do with rows
    of the same time, are parameters. *)
From S2P Require Import Prelude Identity Domain LeaseSchema OutboxStore TaskSchema TaskStore Programs.

Module TaskRepository.
Export Programs.
Import Domain LeaseSchema TaskSchema.
Import TaskStore(set_task_version, set_task_owner, identity_changed, immutable_identity).

Definition ErrDurableTaskCommandRequired : error :=
  Sentinel "repository.ErrDurableTaskCommandRequired" "durable task mutation requires the R6 TaskCommandStore".

(** ** domain.TaskRepository, as calls *)
Inductive Base : Type → Set :=
| List : Base (result (list Task))
| Get (id : string) : Base (result Task)
| Create (t : Task) : Base (result Task)
| Update (t : Task) : Base (result Task).

(** [if task.Version == 0], [if task.Status == ""]. *)
Definition with_status (t : Task) (s : TaskStatus) : Task :=
  mkTask (Task_ID t) (Task_TenantID t) (Task_ProjectID t) (Task_CreatedBy t) (Task_AgentID t) (Task_Input t) s
    (Task_Version t) (Task_Result t) (Task_Cost t) (Task_EstimatedCost t) (Task_ActualCost t) (Task_Currency t)
    (Task_RouteDecisionID t) (Task_TraceID t) (Task_CreatedAt t) (Task_UpdatedAt t) (Task_CompletedAt t).
Definition with_defaults (t : Task) : Task :=
  let t := if (Task_Version t =? 0)%Z then set_task_version t 1 else t in
  match Task_Status t with TaskStatusOther "" => with_status t TaskCreated | _ => t end.

Definition by_creation (a b : Task) : bool := Before (Task_CreatedAt a) (Task_CreatedAt b).

(** ** MemoryTasks *)
Section memory.
(** [range] over the map, followed by [sort.Slice] on the creation time. *)
Variable visit : gmap string Task → list Task.
Variable sort_Slice : (Task → Task → bool) → list Task → list Task.

Definition MemoryTasks : Type := gmap string Task.
Definition NewMemoryTasks : MemoryTasks := ∅.

Definition Memory_List (m : MemoryTasks) : result (list Task) := Ok (sort_Slice by_creation (visit m)).
Definition Memory_Get (id : string) (m : MemoryTasks) : result Task :=
  match m !! id with Some t => Ok t | None => Err ErrNotFound end.
Definition Memory_Create (t : Task) (m : MemoryTasks) : result Task * MemoryTasks :=
  match m !! Task_ID t with
  | Some _ => (Err (Errorf "task already exists" []), m)
  | None => let t := with_defaults t in (Ok t, <[Task_ID t := t]> m)
  end.
Definition Memory_Update (t : Task) (m : MemoryTasks) : result Task * MemoryTasks :=
  match m !! Task_ID t with
  | None => (Err ErrNotFound, m)
  | Some current =>
      if (Task_Version t !=? Task_Version current) then (Err ErrVersionConflict, m)
      else let t := set_task_version t (add64 (Task_Version t) 1) in (Ok t, <[Task_ID t := t]> m)
  end.

Definition Memory_call {X} (e : Base X) (m : MemoryTasks) : X * MemoryTasks :=
  match e in Base X return X * MemoryTasks with
  | List => (Memory_List m, m)
  | Get id => (Memory_Get id m, m)
  | Create t => Memory_Create t m
  | Update t => Memory_Update t m
  end.
End memory.

(** ** ScopedPostgresTasks *)
Section postgres.
Variable pg_ts : Time → Time.
(** The rows a query returns, ordered by creation time. *)
Variable order_by : (Task → Task → bool) → gmap string Task → list Task.

Definition withProjectTx {A} (env : TaskEnv) (fn : Identity.Principal → DB → result (A * DB)) (db : DB) : result A * DB :=
  match Identity.requireScopedPrincipal (env_ctx (te_tx env)) with
  | Err e => (Err e, db)
  | Ok principal =>
      match env_begin (te_tx env) with
      | Some e => (Err (Errorw "begin scoped task transaction: %w" [] e), db)
      | None =>
          match exec_stmt (te_tx env) "set task transaction scope" with
          | Err e => (Err e, db)
          | Ok _ =>
              match fn principal db with
              | Err e => (Err e, db)
              | Ok (a, db') =>
                  match env_commit (te_tx env) with
                  | Committed => (Ok a, db')
                  | CommitFailed e => (Err (Errorw "commit scoped task transaction: %w" [] e), db)
                  | CommitUnknown e => (Err (Errorw "commit scoped task transaction: %w" [] e), db')
                  end
              end
          end
      end
  end.

(** The rows the policies show to a transaction. *)
Definition visible (p : Identity.Principal) (db : DB) : gmap string Task :=
  filter (λ kv, in_scope (scope_of p) (Task_TenantID kv.2) (Task_ProjectID kv.2) = true) (tasks db).

Definition Postgres_List (env : TaskEnv) (db : DB) : result (list Task) * DB :=
  withProjectTx env (λ p db,
    _ ← exec_stmt (te_tx env) "list scoped tasks";
    _ ← exec_stmt (te_tx env) "iterate scoped tasks";
    Ok (order_by by_creation (visible p db), db)) db.

Definition Postgres_Get (env : TaskEnv) (id : string) (db : DB) : result Task * DB :=
  withProjectTx env (λ p db,
    found ← select_task env "get scoped task" (scope_of p) id db;
    match found with None => Err ErrNotFound | Some task => Ok (task, db) end) db.

Definition Postgres_Create (env : TaskEnv) (t : Task) (db : DB) : result Task * DB :=
  let t := with_defaults t in
  withProjectTx env (λ p db,
    if (Task_TenantID t !=? Identity.TenantID p) || (Task_ProjectID t !=? Identity.ProjectID p)
       || (Task_CreatedBy t !=? Identity.SubjectID p)
    then Err (Errorf "task identity must match authenticated principal" [])
    else db ← insert_task pg_ts env "create scoped task" (scope_of p) t db; Ok (t, db)) db.

Definition Postgres_Update (env : TaskEnv) (t : Task) (db : DB) : result Task * DB :=
  withProjectTx env (λ p db,
    found ← select_task env "load scoped task for update" (scope_of p) (Task_ID t) db;
    match found with
    | None => Err ErrNotFound
    | Some current =>
        if identity_changed current t then Err immutable_identity
        else if negb (Identity.OwnsProject p (Task_TenantID current) (Task_ProjectID current)) then Err ErrNotFound
        else if Task_Version t !=? Task_Version current then Err ErrVersionConflict
        else
          updated ← update_task env "update scoped task" (scope_of p) (Task_ID t)
                      (λ row, Task_Version row ==? Task_Version t) (projected pg_ts t 1) db;
          match updated with
          | None => Err ErrVersionConflict
          | Some (version, db) => Ok (set_task_version t version, db)
          end
    end) db.

Definition Postgres_call (env : TaskEnv) {X} (e : Base X) (db : DB) : X * DB :=
  match e in Base X return X * DB with
  | List => Postgres_List env db
  | Get id => Postgres_Get env id db
  | Create t => Postgres_Create env t db
  | Update t => Postgres_Update env t db
  end.

(** ** Roles and the administrative repository *)

(** What the query on [pg_roles] answers: the role, rolsuper, rolbypassrls. *)
Definition ValidateRuntimeDatabaseRole (db : bool) (role : result (string * bool * bool)) : result unit :=
  if negb db then Err (Errorf "database is required" []) else
  match role with
  | Err e => Err (Errorw "inspect PostgreSQL runtime role: %w" [] e)
  | Ok (name, superuser, bypassRLS) =>
      if superuser || bypassRLS
      then Err (Errorf "runtime PostgreSQL role %q must not be superuser or BYPASSRLS" [AStr name]) else Ok tt
  end.

Definition OpenAdminPostgresTasks (dsn : string) (open ping : option error) (role : result (string * bool * bool)) : result unit :=
  if dsn ==? "" then Err (Errorf "admin database URL is required" []) else
  match open, ping, role with
  | Some e, _, _ => Err (Errorw "open admin PostgreSQL: %w" [] e)
  | None, Some e, _ => Err (Errorw "ping admin PostgreSQL: %w" [] e)
  | None, None, Err e => Err (Errorw "inspect admin PostgreSQL role: %w" [] e)
  | None, None, Ok (name, superuser, bypassRLS) =>
      if negb superuser && negb bypassRLS
      then Err (Errorf "admin PostgreSQL role %q must be an independently managed RLS-bypass role" [AStr name]) else Ok tt
  end.

Definition Admin_Get (env : TaskEnv) (id : string) (db : DB) : result Task :=
  _ ← Identity.RequireSystemCapability (env_ctx (te_tx env)) Identity.CapabilityDatabaseAdmin;
  _ ← exec_stmt (te_tx env) "admin get task";
  match tasks db !! id with Some t => Ok t | None => Err ErrNotFound end.

Definition Admin_List (env : TaskEnv) (db : DB) : result (list Task) :=
  _ ← Identity.RequireSystemCapability (env_ctx (te_tx env)) Identity.CapabilityDatabaseAdmin;
  _ ← exec_stmt (te_tx env) "admin list tasks";
  _ ← fault (te_tx env) "admin list rows";
  Ok (order_by by_creation (tasks db)).
End postgres.

(** ** tenantrepo.ScopedTasks *)
Section scoped.
(** Whether the wrapped repository provides durable commands. *)
Variable requiresDurableCommands : bool.
Variable ctx : Identity.Context.

Abbreviation request e := (ask (e : Base _)).

(** [requireProjectPrincipal], and what is done with it. *)
Definition withPrincipal {A} (k : Identity.Principal → prog Base (result A)) : prog Base (result A) :=
  match Identity.requireScopedPrincipal ctx with Err e => Ret (Err e) | Ok p => k p end.

Definition owns (p : Identity.Principal) (t : Task) : bool := Identity.OwnsProject p (Task_TenantID t) (Task_ProjectID t).

Definition Scoped_List : prog Base (result (list Task)) :=
  withPrincipal (λ p, try (request List) id (λ items, Ret (Ok (filter (λ t, owns p t = true) items)))).

Definition Scoped_Get (taskID : string) : prog Base (result Task) :=
  withPrincipal (λ p, try (request (Get taskID)) id (λ task, Ret (if owns p task then Ok task else Err ErrNotFound))).

Definition Scoped_Create (t : Task) : prog Base (result Task) :=
  if requiresDurableCommands then Ret (Err ErrDurableTaskCommandRequired) else
  withPrincipal (λ p,
  if (Task_TenantID t !=? "") && (Task_TenantID t !=? Identity.TenantID p)
  then Ret (Err (Errorf "task tenant identity does not match principal" []))
  else if (Task_ProjectID t !=? "") && (Task_ProjectID t !=? Identity.ProjectID p)
  then Ret (Err (Errorf "task project identity does not match principal" []))
  else if (Task_CreatedBy t !=? "") && (Task_CreatedBy t !=? Identity.SubjectID p)
  then Ret (Err (Errorf "task creator identity does not match principal" []))
  else request (Create (set_task_owner t p))).

Definition Scoped_Update (t : Task) : prog Base (result Task) :=
  if requiresDurableCommands then Ret (Err ErrDurableTaskCommandRequired) else
  withPrincipal (λ p, try (request (Get (Task_ID t))) id (λ current,
  if negb (owns p current) then Ret (Err ErrNotFound)
  else if identity_changed current t then Ret (Err immutable_identity)
  else request (Update t))).

(** [IsNotFoundOrIdentityError]. *)
Definition IsNotFoundOrIdentityError (err : error) : bool :=
  errors_Is err "repository.ErrNotFound" || errors_Is err "identity.ErrPrincipalRequired"
  || errors_Is err "identity.ErrTenantRequired" || errors_Is err "identity.ErrProjectRequired".
End scoped.
End TaskRepository.

(** * TaskRepositorySpec: tenant scope and lost updates

    What a task repository promises ([Lawful]), that the in-memory and the
    PostgreSQL repository keep it, and what the tenant wrapper guarantees over
    any repository that does: any number of requests run at once, their calls to
    the repository in any order. *)

Module TaskRepositorySpec.
Import Domain LeaseSchema TaskSchema TaskRepository.

Definition owner (t : Task) : string * string * string := (Task_TenantID t, Task_ProjectID t, Task_CreatedBy t).

(** A version that can be incremented in 64 bits. *)
Definition counts (v : Z) : Prop := (int_min ≤ v < int_max)%Z.

(** ** The promise of a repository

    [step ctx e w x w'] is a call that answers [x]; [rows] are the tasks by id.
    A call that fails may still have been carried out. *)
Class Lawful {W} (rows : W → gmap string Task) (step : ∀ {X}, Identity.Context → Base X → W → X → W → Prop) : Prop := {
  law_list ctx w r w' : step ctx List w r w' → rows w' = rows w;
  law_get ctx id w r w' : step ctx (Get id) w r w' → rows w' = rows w ∧ ∀ t, r = Ok t → rows w !! id = Some t;
  law_create ctx t w r w' : step ctx (Create t) w r w' →
    rows w' = rows w
    ∨ ∃ row, rows w !! Task_ID t = None ∧ owner row = owner t ∧ rows w' = <[Task_ID t := row]> (rows w);
  law_created ctx t w t' w' : step ctx (Create t) w (Ok t') w' → owner t' = owner t;
  law_updated ctx t w t' w' : step ctx (Update t) w (Ok t') w' → owner t' = owner t;
  law_update ctx t w r w' : step ctx (Update t) w r w' →
    rows w' = rows w ∧ (∃ e, r = Err e)
    ∨ ∃ old row, rows w !! Task_ID t = Some old ∧ Task_Version t = Task_Version old
      ∧ (owner old = owner t → owner row = owner t) ∧ rows w' = <[Task_ID t := row]> (rows w)
      ∧ (Task_Version row = (Task_Version old + 1)%Z ∨ ~ counts (Task_Version old) ∧ ∃ t', r = Ok t')
}.

Section memory.
Variable visit : gmap string Task → list Task.
Variable sort_Slice : (Task → Task → bool) → list Task → list Task.

Definition memory_step X (ctx : Identity.Context) (e : Base X) (m : MemoryTasks) (x : X) (m' : MemoryTasks) : Prop :=
  Memory_call visit sort_Slice e m = (x, m').

Lemma with_defaults_owner t : owner (with_defaults t) = owner t ∧ Task_ID (with_defaults t) = Task_ID t.
Proof. unfold with_defaults. destruct (_ =? _)%Z; simpl; destruct (Task_Status t) as [| | | | | | | | | |[|]]; done. Qed.

Lemma next_version v : counts v → add64 v 1 = (v + 1)%Z.
Proof. intros [Hl Hh]. unfold add64, wrap64, two64. unfold int_min, int_max in *. rewrite Z.mod_small by lia. lia. Qed.

#[export] Instance memory_lawful : Lawful (λ m : MemoryTasks, m) memory_step.
Proof.
  split; unfold memory_step; simpl.
  - intros ctx w r w' H. by injection H.
  - intros ctx id w r w' H. injection H as <- <-. split; [done|]. unfold Memory_Get. intros t Ht.
    destruct (w !! id) eqn:E; simplify_eq; exact E.
  - intros ctx t w r w'. unfold Memory_Create. destruct (with_defaults_owner t) as [Ho Hid].
    destruct (w !! Task_ID t) eqn:Ht; intros [= <- <-]; [by left|right]. exists (with_defaults t). by rewrite Hid.
  - intros ctx t w t' w'. unfold Memory_Create. destruct (w !! Task_ID t); intros [= <- _]. apply with_defaults_owner.
  - intros ctx t w t' w'. unfold Memory_Update. destruct (w !! Task_ID t) as [old|]; [|done]. by case_bool_decide; intros [= <- _].
  - intros ctx t w r w'. unfold Memory_Update. destruct (w !! Task_ID t) as [old|] eqn:Ht; [|intros [= <- <-]; left; eauto].
    case_bool_decide as Hv; intros [= <- <-]; [right|left; eauto].
    exists old, (TaskStore.set_task_version t (add64 (Task_Version t) 1)). rewrite <- Hv. repeat (split; [done|]).
    destruct (decide (int_min ≤ Task_Version t < int_max)%Z) as [Hc|Hc]; [left; by apply next_version|right; eauto].
Qed.
End memory.

Section postgres.
Variable pg_ts : Time → Time.
Variable order_by : (Task → Task → bool) → gmap string Task → list Task.

(** A call in any environment with the caller's context. *)
Definition postgres_step X (ctx : Identity.Context) (e : Base X) (db : DB) (x : X) (db' : DB) : Prop :=
  ∃ env, env_ctx (te_tx env) = ctx ∧ Postgres_call pg_ts order_by env e db = (x, db').

(** Nothing happened, or the body did; only then is there an answer. *)
Lemma withProjectTx_inv {A} env (fn : Identity.Principal → DB → result (A * DB)) db r db' :
  withProjectTx env fn db = (r, db') →
  db' = db ∧ (∃ e, r = Err e) ∨ ∃ p a, fn p db = Ok (a, db') ∧ (r = Ok a ∨ ∃ e, r = Err e).
Proof.
  unfold withProjectTx. destruct (Identity.requireScopedPrincipal _) as [p|e]; [|intros [= <- <-]; eauto].
  destruct (env_begin _); [intros [= <- <-]; eauto|]. destruct (exec_stmt _ _); [|intros [= <- <-]; eauto].
  destruct (fn p db) as [[a1 db1]|e] eqn:Hf; [|intros [= <- <-]; eauto].
  destruct (env_commit _) as [|e|e]; intros [= <- <-]; [right|left|right]; eauto 10.
Qed.

#[export] Instance postgres_lawful : Lawful tasks postgres_step.
Proof.
  split; intros ctx.
  - intros w r w' (env & _ & H). apply withProjectTx_inv in H as [[-> _]|(p & a & Hf & _)]; [done|].
    bind_inv Hf u1 H1. bind_inv Hf u2 H2. by injection Hf as _ <-.
  - intros id w r w' (env & _ & H). apply withProjectTx_inv in H as [[-> [e ->]]|(p & a & Hf & Hr)]; [done|].
    bind_inv Hf found Hs. apply select_task_Ok in Hs. destruct found as [t|]; [|done]. injection Hf as <- <-.
    split; [done|]. destruct Hs as [Hs _]. intros t' Ht. destruct Hr as [->|[e ->]]; by simplify_eq.
  - intros t w r w' (env & _ & H). apply withProjectTx_inv in H as [[-> _]|(p & a & Hf & _)]; [by left|].
    destruct (_ || _)%bool; [done|]. bind_inv Hf db Hi. injection Hf as _ <-.
    apply insert_task_Ok in Hi as (Hnone & _ & _ & ->). destruct (with_defaults_owner t) as [Ho Hid].
    right. exists (stored_task pg_ts (with_defaults t)). rewrite Hid in *. done.
  - intros t w t' w' (env & _ & H). apply withProjectTx_inv in H as [[_ [e [=]]]|(p & a & Hf & [[= <-]|[e [=]]])].
    destruct (_ || _)%bool; [done|]. bind_inv Hf db Hi. injection Hf as <- _. apply with_defaults_owner.
  - intros t w t' w' (env & _ & H). apply withProjectTx_inv in H as [[_ [e [=]]]|(p & a & Hf & [[= <-]|[e [=]]])].
    bind_inv Hf found Hs. destruct found as [current|]; [|done]. destruct (TaskStore.identity_changed _ _); [done|].
    destruct (negb _); [done|]. destruct (negb _); [done|]. bind_inv Hf updated Hu.
    destruct updated as [[version db1]|]; [|done]. by injection Hf as <- _.
  - intros t w r w' (env & _ & H). apply withProjectTx_inv in H as [[-> [e ->]]|(p & a & Hf & Hr)]; [left; eauto|].
    bind_inv Hf found Hs. apply select_task_Ok in Hs. destruct found as [current|]; [|done]. destruct Hs as [Hs _].
    destruct (TaskStore.identity_changed _ _) eqn:Hid; [done|]. destruct (negb _); [done|].
    case_bool_decide as Hv; [|done]. cbn [negb] in Hf. bind_inv Hf updated Hu.
    destruct updated as [[version db1]|]; [|done]. injection Hf as _ <-.
    apply update_task_Ok in Hu as (row & Hrow & _ & _ & _ & _ & ->). assert (row = current) as -> by congruence.
    right. exists current, (projected pg_ts t 1 current). repeat (split; [done|]). by left.
Qed.
End postgres.

(** ** Requests over one repository *)

Inductive Op : Type :=
| OList
| OGet (id : string)
| OCreate (t : Task)
| OUpdate (t : Task).

Inductive Answer : Type :=
| AList (r : result (list Task))
| ATask (r : result Task).

(** The wrapper's program for a request. *)
Definition serve (durable : bool) (ctx : Identity.Context) (op : Op) : prog Base Answer :=
  match op with
  | OList => r ← Scoped_List ctx; Ret (AList r)
  | OGet id => r ← Scoped_Get ctx id; Ret (ATask r)
  | OCreate t => r ← Scoped_Create durable ctx t; Ret (ATask r)
  | OUpdate t => r ← Scoped_Update durable ctx t; Ret (ATask r)
  end.

Section requests.
Variable durable : bool.
Variable ctx : Identity.Context.

(** The principal a request acts for. *)
Abbreviation acts_for p := (Identity.requireScopedPrincipal ctx = Ok p).

(** What a request may write: a task of its own, or one it has read and owns,
    without changing whose it is; nothing where commands are durable. *)
Definition may_write {X} (h : list (exchange Base)) (e : Base X) : Prop :=
  match e with
  | List | Get _ => True
  | Create t => durable = false ∧ ∃ p, acts_for p ∧ owner t = (Identity.TenantID p, Identity.ProjectID p, Identity.SubjectID p)
  | Update t =>
      durable = false
      ∧ ∃ p current, acts_for p ∧ Asked (Get (Task_ID t)) (Ok current) ∈ h ∧ owns p current = true ∧ owner t = owner current
  end.

(** The caller's own tenant and project, and a task there. *)
Definition in_project (t : Task) : Prop :=
  ∃ q, ctx = Some q ∧ TrimSpace (Identity.TenantID q) ≠ "" ∧ TrimSpace (Identity.ProjectID q) ≠ ""
    ∧ TrimSpace (Task_TenantID t) = TrimSpace (Identity.TenantID q)
    ∧ TrimSpace (Task_ProjectID t) = TrimSpace (Identity.ProjectID q).

Definition made_by (t : Task) : Prop :=
  ∃ q, ctx = Some q ∧ Task_TenantID t = TrimSpace (Identity.TenantID q) ∧ Task_ProjectID t = TrimSpace (Identity.ProjectID q)
    ∧ Task_CreatedBy t = TrimSpace (Identity.SubjectID q).

(** The tasks in an answer, whatever was asked, are of the caller's project. *)
Definition may_see (a : Answer) : Prop :=
  match a with
  | AList (Ok items) => Forall in_project items
  | ATask (Ok t) => in_project t
  | AList (Err _) | ATask (Err _) => True
  end.

(** Writing a task answers one with the same owner. *)
Definition honest (h : list (exchange Base)) : Prop :=
  ∀ t t', Asked (Create t) (Ok t') ∈ h ∨ Asked (Update t) (Ok t') ∈ h → owner t' = owner t.

Lemma acts_for_caller p : acts_for p →
  ∃ q, ctx = Some q ∧ Identity.TenantID p = TrimSpace (Identity.TenantID q) ∧ Identity.ProjectID p = TrimSpace (Identity.ProjectID q)
    ∧ Identity.SubjectID p = TrimSpace (Identity.SubjectID q) ∧ Identity.TenantID p ≠ "" ∧ Identity.ProjectID p ≠ "".
Proof.
  intros Hp. apply Identity.requireScopedPrincipal_Ok, Identity.RequireProject_Ok in Hp as (Hp & Ht & Hpr).
  apply Identity.PrincipalFromContext_Some in Hp as (_ & _ & q & -> & ->). by exists q.
Qed.

Lemma owns_in_project p t : acts_for p → owns p t = true → in_project t.
Proof.
  intros (q & Hq & H1 & H2 & _ & H3 & H4)%acts_for_caller Ho. unfold owns, Identity.OwnsProject in Ho.
  rewrite !bool_decide_eq_false_2 in Ho by done. simpl in Ho. rewrite andb_true_iff, !bool_decide_eq_true in Ho.
  destruct Ho as [E1 E2]. exists q. split_and!; congruence.
Qed.

Lemma own_in_project p t :
  acts_for p → owner t = (Identity.TenantID p, Identity.ProjectID p, Identity.SubjectID p) → in_project t ∧ made_by t.
Proof.
  intros (q & Hq & H1 & H2 & H0 & H3 & H4)%acts_for_caller [= E1 E2 E3].
  split; exists q; rewrite ?E1, ?E2, ?H1, ?H2, ?TrimSpace_idem; split_and!; congruence.
Qed.

Lemma in_project_owner t t' : owner t' = owner t → in_project t → in_project t'.
Proof. intros [= E1 E2 E3] (q & H). exists q. by rewrite E1, E2. Qed.

Lemma identity_kept current t : TaskStore.identity_changed current t = false → owner t = owner current.
Proof. unfold TaskStore.identity_changed, owner. intros H. go_props. congruence. Qed.

Lemma serve_safe op : wp (@may_write) [] (serve durable ctx op) (λ h a, honest h → may_see a).
Proof.
  destruct op as [|id|t|t]; apply wp_bind;
    unfold Scoped_List, Scoped_Get, Scoped_Create, Scoped_Update, withPrincipal; (try (destruct durable eqn:Hd; [done|]));
    (destruct (Identity.requireScopedPrincipal ctx) as [p|e] eqn:Hp; [|done]).
  - apply wp_try, wp_Do; [done|]. intros [items|e]; [|done]. intros _. apply Forall_forall.
    intros t [Ht _]%list_elem_of_filter. by eapply owns_in_project.
  - apply wp_try, wp_Do; [done|]. intros [task|e]; [|done]. cbn [wp]. intros _. destruct (owns p task) eqn:Ho; [|done].
    by eapply owns_in_project.
  - repeat (destruct (_ && _)%bool; [done|]). apply wp_Do; [split; [done|]; by exists p|].
    intros [t'|e]; [|done]. intros Hh. cbn [may_see]. eapply in_project_owner; [apply (Hh (TaskStore.set_task_owner t p)); left; mem|].
    by eapply own_in_project.
  - apply wp_try, wp_Do; [done|]. intros [current|e]; [|done]. cbn [wp]. destruct (owns p current) eqn:Ho; cbn [negb]; [|done].
    destruct (TaskStore.identity_changed current t) eqn:Hi; [done|]. apply identity_kept in Hi. apply wp_Do.
    + split; [done|]. exists p, current. split; [done|]. split; [simpl; mem|done].
    + intros [t'|e]; [|done]. intros Hh. cbn [may_see].
      eapply in_project_owner; [|by eapply owns_in_project; [exact Hp|exact Ho]].
      rewrite <- Hi. apply Hh. right. mem.
Qed.
End requests.

Record Thread : Type := mkThread {
  th_ctx : Identity.Context;
  th_op : Op;
  th_history : list (exchange Base);
  th_prog : prog Base Answer
}.

(** The acknowledged updates: the task and the version each was made from. *)
Definition acknowledged {X} (e : Base X) : X → list (string * Z) :=
  match e in Base X return X → list (string * Z) with
  | Update t => λ r, match r with Ok _ => [(Task_ID t, Task_Version t)] | Err _ => [] end
  | _ => λ _, []
  end.

Section system.
Context {W : Type} (rows : W → gmap string Task) (base : ∀ X, Identity.Context → Base X → W → X → W → Prop).
Context {laws : Lawful rows base}.
Variable durable : bool.

Record Sys : Type := mkSys { sys_world : W; sys_threads : list Thread; sys_updates : list (string * Z) }.

(** A new request, or the next call of one. *)
Inductive step : Sys → Sys → Prop :=
| step_new ctx op w ts log : step (mkSys w ts log) (mkSys w (ts ++ [mkThread ctx op [] (serve durable ctx op)]) log)
| step_call i ctx op h X (e : Base X) k x w w' ts log :
    ts !! i = Some (mkThread ctx op h (Do e k)) → base X ctx e w x w' →
    step (mkSys w ts log)
      (mkSys w' (<[i := mkThread ctx op (h ++ [Asked e x]) (k x)]> ts) (log ++ acknowledged e x)).

(** What was read is still owned by the one who owned it. *)
Definition remembers (m : gmap string Task) (h : list (exchange Base)) : Prop :=
  ∀ id t, Asked (Get id) (Ok t) ∈ h → ∃ t', m !! id = Some t' ∧ owner t' = owner t.

Definition thread_ok (m : gmap string Task) (th : Thread) : Prop :=
  asks (serve durable (th_ctx th) (th_op th)) (th_history th) (th_prog th) ∧ remembers m (th_history th)
  ∧ honest (th_history th).

(** One call on the rows: the owners stay, and a row that changes was updated, by
    a request that may write it, from the version it had. *)
Record moved (ctx : Identity.Context) (m m' : gmap string Task) : Prop := {
  moved_rows id t : m !! id = Some t → ∃ t', m' !! id = Some t' ∧ owner t' = owner t
    ∧ (t' = t ∨ durable = false ∧ in_project ctx t);
  moved_new id t' : m !! id = None → m' !! id = Some t' →
    durable = false ∧ made_by ctx t'
}.

Lemma moved_refl ctx m : moved ctx m m.
Proof. split; [eauto|]. intros id t' Hn Hs. congruence. Qed.

Lemma owns_owner p t t' : owner t = owner t' → owns p t = owns p t'.
Proof. unfold owner, owns. by intros [= -> ->]. Qed.

Lemma call_moved ctx h X (e : Base X) w x w' :
  may_write durable ctx h e → remembers (rows w) h → base X ctx e w x w' → moved ctx (rows w) (rows w').
Proof.
  intros Hmay Hrem Hb. destruct e as [|id|t|t].
  - rewrite (@law_list _ _ _ laws _ _ _ _ Hb). apply moved_refl.
  - destruct (@law_get _ _ _ laws _ _ _ _ _ Hb) as [-> _]. apply moved_refl.
  - destruct (@law_create _ _ _ laws _ _ _ _ _ Hb) as [->|(row & Hnone & Ho & ->)]; [apply moved_refl|].
    destruct Hmay as (Hd & p & Hp & How). split.
    + intros id t0 Ht0. exists t0. rewrite lookup_insert_ne by congruence. eauto.
    + intros id t' Hn. destruct (decide (Task_ID t = id)) as [<-|Hne].
      * rewrite lookup_insert_eq. intros [= <-]. split; [done|]. eapply own_in_project; [done|congruence].
      * rewrite lookup_insert_ne by done. congruence.
  - destruct (@law_update _ _ _ laws _ _ _ _ _ Hb) as [[-> _]|(old & row & Hold & _ & Hrow & -> & _)]; [apply moved_refl|].
    destruct Hmay as (Hd & p & current & Hp & Hread & Howns & Ho).
    destruct (Hrem _ _ Hread) as (t1 & Ht1 & Ho1). assert (t1 = old) as -> by congruence. split.
    + intros id t0 Ht0. destruct (decide (Task_ID t = id)) as [<-|Hne].
      * exists row. rewrite lookup_insert_eq. assert (t0 = old) as -> by congruence. split; [done|].
        split; [rewrite Hrow; congruence|]. right. split; [done|].
        eapply owns_in_project; [done|]. by rewrite (owns_owner p old current).
      * exists t0. rewrite lookup_insert_ne by done. eauto.
    + intros id t' Hn. destruct (decide (Task_ID t = id)) as [<-|Hne]; [congruence|]. rewrite lookup_insert_ne by done. congruence.
Qed.

Lemma remembers_moved ctx m m' h : moved ctx m m' → remembers m h → remembers m' h.
Proof.
  intros [Hm _] Hr id t Hin. destruct (Hr id t Hin) as (t1 & H1 & Ho1). destruct (Hm id t1 H1) as (t2 & H2 & Ho2 & _).
  exists t2. split; [done|congruence].
Qed.

(** The answers of a look-up. *)
Definition reads (m : gmap string Task) (y : exchange Base) : Prop :=
  match y with
  | Asked e x => match e in Base X return X → Prop with Get id => λ r, ∀ t, r = Ok t → m !! id = Some t | _ => λ _, True end x
  end.

Lemma call_reads ctx X (e : Base X) w x w' : base X ctx e w x w' → reads (rows w) (Asked e x).
Proof. intros Hb. destruct e; simpl; try done. by apply (@law_get _ _ _ laws _ _ _ _ _ Hb). Qed.

Lemma remembers_snoc m m' ctx h X (e : Base X) x :
  moved ctx m m' → remembers m h → reads m (Asked e x) → remembers m' (h ++ [Asked e x]).
Proof.
  intros Hm Hr Hreads id t Hin. apply elem_of_app in Hin as [Hin|Hin]; [by eapply remembers_moved|].
  apply list_elem_of_singleton in Hin. assert (reads m (Asked (Get id) (Ok t))) as Hget by (by rewrite Hin).
  specialize (Hget t eq_refl). destruct (moved_rows _ _ _ Hm _ _ Hget) as (t' & Ht' & Ho & _). eauto.
Qed.

(** The answers of a write. *)
Definition keeps_owner (y : exchange Base) : Prop :=
  match y with
  | Asked e x =>
      match e in Base X return X → Prop with
      | Create t | Update t => λ r, ∀ t', r = Ok t' → owner t' = owner t
      | _ => λ _, True
      end x
  end.

Lemma call_keeps_owner ctx X (e : Base X) w x w' : base X ctx e w x w' → keeps_owner (Asked e x).
Proof.
  intros Hb. destruct e; simpl; try done; intros t' ->;
    [by eapply (@law_created _ _ _ laws)|by eapply (@law_updated _ _ _ laws)].
Qed.

Lemma honest_snoc h X (e : Base X) x : honest h → keeps_owner (Asked e x) → honest (h ++ [Asked e x]).
Proof.
  intros Hh Hk t t' [Hin|Hin]; apply elem_of_app in Hin as [Hin|Hin%list_elem_of_singleton]; try (apply Hh; tauto).
  - assert (keeps_owner (Asked (Create t) (Ok t'))) as H by (by rewrite Hin). by apply H.
  - assert (keeps_owner (Asked (Update t) (Ok t'))) as H by (by rewrite Hin). by apply H.
Qed.

Definition inv (s : Sys) : Prop := Forall (thread_ok (rows (sys_world s))) (sys_threads s).

Lemma thread_may_write ctx op h X (e : Base X) k :
  asks (serve durable ctx op) h (Do e k) → may_write durable ctx h e.
Proof. intros H. exact (wp_request (@may_write durable ctx) _ _ _ _ _ _ (serve_safe durable ctx op) H). Qed.

Lemma repo_step_inv s s' : step s s' → inv s → inv s'.
Proof.
  intros [ctx op w ts log|i ctx op h X e k x w w' ts log Hi Hb] Hinv; unfold inv in *; simpl in *.
  - apply Forall_app. split; [done|]. constructor; [|constructor]. split; [apply asks_nil|]. simpl.
    split; [by intros id t H%not_elem_of_nil|]. intros t t' [H|H]; by apply not_elem_of_nil in H.
  - pose proof (proj1 (Forall_lookup _ _) Hinv _ _ Hi) as (Hasks & Hrem & Hhon). simpl in *.
    pose proof (call_moved _ _ _ _ _ _ _ (thread_may_write _ _ _ _ _ _ Hasks) Hrem Hb) as Hm.
    apply Forall_insert.
    + eapply Forall_impl; [exact Hinv|]. intros th (H1 & H2 & H3). split; [done|]. split; [by eapply remembers_moved|done].
    + split; [exact (asks_snoc _ _ _ _ _ Hasks)|]. simpl. split; [eapply remembers_snoc; [done|done|by eapply call_reads]|].
      apply honest_snoc; [done|by eapply call_keeps_owner].
Qed.

Lemma repo_reachable_inv s s' : rtc step s s' → inv s → inv s'.
Proof. induction 1 as [|s s1 s2 H _ IH]; [done|]. intros Hs. apply IH. by eapply repo_step_inv. Qed.

Lemma step_moved s s' :
  inv s → step s s' → ∃ th, th ∈ sys_threads s' ∧ moved (th_ctx th) (rows (sys_world s)) (rows (sys_world s')).
Proof.
  intros Hinv Hstep. revert Hinv. destruct Hstep as [ctx op w ts log|i ctx op h X e k x w w' ts log Hi Hb];
    intros Hinv; unfold inv in *; simpl in *.
  - eexists. split; [apply elem_of_app; right; apply list_elem_of_here|]. apply moved_refl.
  - pose proof (proj1 (Forall_lookup _ _) Hinv _ _ Hi) as (Hasks & Hrem & _). simpl in *. eexists. split.
    + apply list_elem_of_lookup. exists i. apply list_lookup_insert_eq. by eapply lookup_lt_Some.
    + exact (call_moved _ _ _ _ _ _ _ (thread_may_write _ _ _ _ _ _ Hasks) Hrem Hb).
Qed.

Lemma finished_may_see s th a :
  inv s → th ∈ sys_threads s → th_prog th = Ret a → may_see (th_ctx th) a.
Proof.
  intros Hinv Hin Ha. destruct (proj1 (Forall_forall _ _) Hinv _ Hin) as (Hasks & _ & Hh). rewrite Ha in Hasks.
  exact (wp_returns (@may_write durable (th_ctx th)) _ _ _ _ (serve_safe durable (th_ctx th) (th_op th)) Hasks Hh).
Qed.

(** The step from [s] to [s'] keeps every task with its project. *)
Definition scoped_step (s s' : Sys) : Prop :=
  (∃ th, th ∈ sys_threads s' ∧ moved (th_ctx th) (rows (sys_world s)) (rows (sys_world s')))
  ∧ ∀ th a, th ∈ sys_threads s' → th_prog th = Ret a → may_see (th_ctx th) a.

Lemma reachable_scoped w s s' : rtc step (mkSys w [] []) s → step s s' → scoped_step s s'.
Proof.
  intros Hs Hstep. assert (inv s) as Hinv by (apply (repo_reachable_inv _ _ Hs); constructor). split.
  - by apply step_moved.
  - intros th a. apply finished_may_see. by eapply repo_step_inv.
Qed.

(** *** Acknowledged updates *)








End system.

(** ** The two repositories behind the wrapper *)
Section repositories.
Variable visit : gmap string Task → list Task.
Variable sort_Slice : (Task → Task → bool) → list Task → list Task.
Variable pg_ts : Time → Time.
Variable order_by : (Task → Task → bool) → gmap string Task → list Task.
Variable durable : bool.

Abbreviation in_memory := (step (memory_step visit sort_Slice) durable).
Abbreviation in_postgres := (step (postgres_step pg_ts order_by) durable).


(** C12. Tasks stay with their project.  Let requests of any callers run through
    the tenant wrapper, interleaved in any way, over the in-memory or the
    PostgreSQL repository, from any tasks.  Each step leaves every task with its
    tenant, project and creator, changes only tasks of the project of the caller
    of a request that was made, and adds only tasks with that caller as tenant,
    project and creator; where mutations are left to the durable commands it
    changes and adds none.  And the answer of every finished request, whatever it
    asked for, has only tasks of its caller's project. *)
Theorem tasks_stay_with_their_project :
  (∀ m s s', rtc in_memory (mkSys m [] []) s → in_memory s s' → scoped_step (λ m, m) durable s s')
  ∧ (∀ db s s', rtc in_postgres (mkSys db [] []) s → in_postgres s s' → scoped_step tasks durable s s').
Proof. split; intros w s s'; apply reachable_scoped; apply _. Qed.
End repositories.

(** ** A run

    Two members of a project update the same version of a task at once, over the
    in-memory repository. *)
Section example.
Definition member (name : string) : Identity.Context :=
  Some (Identity.mkPrincipal Identity.PrincipalUser name "acme" "lab" [] [] "oidc" "" "" "").
Definition draft (v : Z) (s : TaskStatus) : Task :=
  mkTask "t-1" "acme" "lab" "alice" "agent" "say hello" s v "" f_zero f_zero f_zero "" "" "trace-1" 5 5 None.

Definition pile (m : gmap string Task) : list Task := snd <$> map_to_list m.
Abbreviation sample_step := (step (memory_step pile (λ _ l, l)) false).
Definition first_read : exchange Base := Asked (Get "t-1") (Ok (draft 1 TaskCreated)).
Definition accepted : result Task := Ok (draft 2 TaskPlanning).

Definition before : @Sys MemoryTasks := mkSys {["t-1" := draft 1 TaskCreated]} [] [].
Definition both_read : @Sys MemoryTasks :=
  mkSys {["t-1" := draft 1 TaskCreated]}
    [mkThread (member "alice") (OUpdate (draft 1 TaskPlanning)) [first_read]
       (r ← ask (Update (draft 1 TaskPlanning)); Ret (ATask r));
     mkThread (member "bob") (OUpdate (draft 1 TaskPlanning)) [first_read]
       (r ← ask (Update (draft 1 TaskPlanning)); Ret (ATask r))] [].
Definition one_wrote : @Sys MemoryTasks :=
  mkSys {["t-1" := draft 2 TaskPlanning]}
    [mkThread (member "alice") (OUpdate (draft 1 TaskPlanning)) [first_read; Asked (Update (draft 1 TaskPlanning)) accepted]
       (Ret (ATask accepted));
     mkThread (member "bob") (OUpdate (draft 1 TaskPlanning)) [first_read]
       (r ← ask (Update (draft 1 TaskPlanning)); Ret (ATask r))] [("t-1", 1%Z)].
Definition both_done : @Sys MemoryTasks :=
  mkSys {["t-1" := draft 2 TaskPlanning]}
    [mkThread (member "alice") (OUpdate (draft 1 TaskPlanning)) [first_read; Asked (Update (draft 1 TaskPlanning)) accepted]
       (Ret (ATask accepted));
     mkThread (member "bob") (OUpdate (draft 1 TaskPlanning))
       [first_read; Asked (Update (draft 1 TaskPlanning)) (Err ErrVersionConflict)]
       (Ret (ATask (Err ErrVersionConflict)))] [("t-1", 1%Z)].

Lemma run_reads : rtc sample_step before both_read.
Proof.
  eapply rtc_l; [apply (step_new _ _ (member "alice") (OUpdate (draft 1 TaskPlanning)))|].
  eapply rtc_l; [apply (step_new _ _ (member "bob") (OUpdate (draft 1 TaskPlanning)))|].
  eapply rtc_l; [eapply (step_call _ _ 0 _ _ _ _ _ _ (Ok (draft 1 TaskCreated))); reflexivity|].
  eapply rtc_l; [eapply (step_call _ _ 1 _ _ _ _ _ _ (Ok (draft 1 TaskCreated))); reflexivity|].
  apply rtc_refl.
Qed.

Lemma step_to (s s1 s2 : @Sys MemoryTasks) : sample_step s s1 → s1 = s2 → sample_step s s2.
Proof. by intros H <-. Qed.

Lemma run_write : sample_step both_read one_wrote.
Proof. eapply step_to; [eapply (step_call _ _ 0 _ _ _ _ _ _ accepted); reflexivity|reflexivity]. Qed.

Lemma run_conflict : sample_step one_wrote both_done.
Proof. eapply step_to; [eapply (step_call _ _ 1 _ _ _ _ _ _ (Err ErrVersionConflict)); reflexivity|reflexivity]. Qed.

(** Alice's update over PostgreSQL. *)
Definition connection : TaskEnv :=
  mkTaskEnv (mkTxEnv true (member "alice") None (λ _, None) (Ok 50%Z) 50 (λ _, Err ErrNotFound) Committed) 50.
Abbreviation pg_step := (step (postgres_step id (λ _, pile)) false).
Definition pg_tasks (t : Task) : DB := mkDB {["t-1" := t]} ∅ ∅ ∅ ∅.
Definition alice_reads : @Sys DB :=
  mkSys (pg_tasks (draft 1 TaskCreated))
    [mkThread (member "alice") (OUpdate (draft 1 TaskPlanning)) [first_read]
       (r ← ask (Update (draft 1 TaskPlanning)); Ret (ATask r))] [].
Definition alice_wrote : @Sys DB :=
  mkSys (pg_tasks (draft 2 TaskPlanning))
    [mkThread (member "alice") (OUpdate (draft 1 TaskPlanning)) [first_read; Asked (Update (draft 1 TaskPlanning)) accepted]
       (Ret (ATask accepted))] [("t-1", 1%Z)].

Lemma pg_step_to (s s1 s2 : @Sys DB) : pg_step s s1 → s1 = s2 → pg_step s s2.
Proof. by intros H <-. Qed.

Lemma pg_reads : rtc pg_step (mkSys (pg_tasks (draft 1 TaskCreated)) [] []) alice_reads.
Proof.
  eapply rtc_l; [apply (step_new _ _ (member "alice") (OUpdate (draft 1 TaskPlanning)))|]. apply rtc_once.
  eapply pg_step_to; [eapply (step_call _ _ 0 _ _ _ _ _ _ (Ok (draft 1 TaskCreated)));
    [reflexivity|exists connection; split; [reflexivity|vm_compute; reflexivity]]|reflexivity].
Qed.

Lemma pg_writes : pg_step alice_reads alice_wrote.
Proof.
  eapply pg_step_to; [eapply (step_call _ _ 0 _ _ _ _ _ _ accepted);
    [reflexivity|exists connection; split; [reflexivity|vm_compute; reflexivity]]|reflexivity].
Qed.

Lemma tasks_stay_with_their_project_witness :
  scoped_step (λ m : MemoryTasks, m) false one_wrote both_done ∧ scoped_step tasks false alice_reads alice_wrote.
Proof.
  destruct (tasks_stay_with_their_project pile (λ _ l, l) id (λ _, pile) false) as [Hm Hp]. split.
  - apply (Hm {["t-1" := draft 1 TaskCreated]}); [eapply rtc_r; [apply run_reads|apply run_write]|apply run_conflict].
  - exact (Hp _ _ _ pg_reads pg_writes).
Defined.


End example.
End TaskRepositorySpec.
