(* ===== verification/Order.v ===== *)
(** * Order: comparing float64 values, and what a stable sort selects

    Go's comparisons of floats, the order they are on values other than NaN, the
    sign of sums and products, and [sort.SliceStable] under a comparison that
    orders only the values at hand. *)
From S2P Require Import Prelude.

(** ** Comparisons *)
Definition f_le (x y : float64) : bool := SFleb x y.
Definition f_eq (x y : float64) : bool := SFeqb x y.
Definition is_nan (x : float64) : bool := match x with S754_nan => true | _ => false end.

(** Floats other than NaN, ordered by class, exponent and mantissa. *)
Definition rank (x : float64) : Z * Z * Z :=
  match x with
  | S754_zero _ | S754_nan => (0, 0, 0)%Z
  | S754_infinity s => ((if s then -2 else 2), 0, 0)%Z
  | S754_finite s m e => if s then (-1, - e, Z.neg m)%Z else (1, e, Z.pos m)%Z
  end.

Definition rank_lt (a b : Z * Z * Z) : Prop :=
  (a.1.1 < b.1.1 ∨ (a.1.1 = b.1.1 ∧ (a.1.2 < b.1.2 ∨ (a.1.2 = b.1.2 ∧ a.2 < b.2))))%Z.

Lemma SFcompare_rank x y :
  is_nan x = false → is_nan y = false →
  match SFcompare x y with
  | Some Lt => rank_lt (rank x) (rank y)
  | Some Eq => rank x = rank y
  | Some Gt => rank_lt (rank y) (rank x)
  | None => False
  end.
Proof.
  intros Hx Hy.
  destruct x as [sx|sx| |sx mx ex], y as [sy|sy| |sy my ey]; try done; try destruct sx; try destruct sy;
    unfold rank_lt; simpl; try lia; try (f_equal; lia); try done.
  - destruct (Z.compare_spec ex ey) as [->| |]; simpl; try lia.
    pose proof (Pos.compare_spec mx my) as H. unfold Pos.compare in H.
    destruct H as [->| |]; simpl; try lia; done.
  - destruct (Z.compare_spec ex ey) as [->| |]; simpl; try lia.
    pose proof (Pos.compare_spec mx my) as H. unfold Pos.compare in H.
    destruct H as [->| |]; simpl; try lia; done.
Qed.

Lemma f_lt_rank x y : is_nan x = false → is_nan y = false → f_lt x y = true ↔ rank_lt (rank x) (rank y).
Proof.
  intros Hx Hy. pose proof (SFcompare_rank x y Hx Hy) as H. unfold f_lt, SFltb.
  destruct (SFcompare x y) as [[]|]; [|done| |done]; (split; [done|]).
  - rewrite H. unfold rank_lt. lia.
  - intros H'. unfold rank_lt in *. lia.
Qed.

Lemma f_eq_rank x y : is_nan x = false → is_nan y = false → f_eq x y = true ↔ rank x = rank y.
Proof.
  intros Hx Hy. pose proof (SFcompare_rank x y Hx Hy) as H. unfold f_eq, SFeqb.
  destruct (SFcompare x y) as [[]|]; [done| | |done]; (split; [done|]).
  - intros E. rewrite E in H. unfold rank_lt in H. lia.
  - intros E. rewrite E in H. unfold rank_lt in H. lia.
Qed.

(** ** Signs *)

(** Not below zero: also NaN, which no comparison holds of. *)
Definition nonneg (x : float64) : bool := negb (f_lt x f_zero).

Lemma nonneg_round_aux m e l : nonneg (binary_round_aux f64_prec f64_emax false m e l) = true.
Proof.
  unfold binary_round_aux. destruct (shr_fexp _ _ _ _ _) as [mrs e1]. destruct (shr_fexp _ _ _ _ _) as [mrs2 e2].
  destruct (shr_m mrs2); [done| |done]. by destruct (e2 <=? _)%Z.
Qed.

Lemma nonneg_round m e : nonneg (binary_round f64_prec f64_emax false m e) = true.
Proof. unfold binary_round. destruct (shl_align _ _ _). apply nonneg_round_aux. Qed.

Lemma nonneg_int z : (0 ≤ z)%Z → nonneg (f_int z) = true.
Proof. intros Hz. unfold f_int, binary_normalize. destruct z; [done|apply nonneg_round|lia]. Qed.

Lemma nonneg_add x y : nonneg x = true → nonneg y = true → nonneg (f_add x y) = true.
Proof.
  unfold f_add. intros Hx Hy.
  destruct x as [sx|sx| |sx mx ex], y as [sy|sy| |sy my ey]; try done; try destruct sx; try destruct sy; try done.
  unfold SFadd, binary_normalize. simpl. apply nonneg_round.
Qed.

Lemma nonneg_mul x y : nonneg x = true → nonneg y = true → nonneg (f_mul x y) = true.
Proof.
  unfold f_mul. intros Hx Hy.
  destruct x as [sx|sx| |sx mx ex], y as [sy|sy| |sy my ey]; try done; try destruct sx; try destruct sy; try done.
  unfold SFmul. apply nonneg_round_aux.
Qed.

Lemma nonneg_div x y : nonneg x = true → nonneg y = true → f_lt f_zero y = true → nonneg (f_div x y) = true.
Proof.
  unfold f_div. intros Hx Hy Hp.
  destruct x as [sx|sx| |sx mx ex], y as [sy|sy| |sy my ey]; try done; try destruct sx; try destruct sy; try done.
  unfold SFdiv. destruct (SFdiv_core_binary _ _ _ _ _ _) as [[mz ez] lz]. apply nonneg_round_aux.
Qed.

(** ** [a < b] on strings: by bytes, a prefix first *)
Fixpoint bytes_lt (a b : list ascii) : bool :=
  match a, b with
  | _, [] => false
  | [], _ :: _ => true
  | x :: a, y :: b => (code x <? code y)%N || ((code x =? code y)%N && bytes_lt a b)
  end.
Definition str_lt (a b : string) : bool := bytes_lt (bytes a) (bytes b).

Lemma bytes_lt_asym a b : bytes_lt a b = true → bytes_lt b a = false.
Proof.
  revert b. induction a as [|x a IH]; intros [|y b]; simpl; try done. intros [H|[H1 H2]%andb_true_iff]%orb_true_iff.
  - apply N.ltb_lt in H. destruct (N.ltb_spec (code y) (code x)), (N.eqb_spec (code y) (code x)); simpl; try done; lia.
  - apply N.eqb_eq in H1. rewrite H1, N.ltb_irrefl, N.eqb_refl. simpl. by apply IH.
Qed.

(** [¬ (b < a)] is transitive. *)
Lemma bytes_le_trans a b c : bytes_lt b a = false → bytes_lt c b = false → bytes_lt c a = false.
Proof.
  revert b c. induction a as [|x a IH]; intros [|y b] [|z c]; simpl; try done.
  rewrite !orb_false_iff, !andb_false_iff, !N.ltb_ge, !N.eqb_neq. intros [H1 H2] [H3 H4].
  split; [lia|]. destruct H2 as [H2|H2]; [left; lia|]. destruct H4 as [H4|H4]; [left; lia|]. right. by eapply IH.
Qed.

Lemma bytes_lt_total a b : bytes_lt a b = false → bytes_lt b a = false → a = b.
Proof.
  revert b. induction a as [|x a IH]; intros [|y b]; simpl; try done. rewrite !orb_false_iff, !andb_false_iff, !N.ltb_ge, !N.eqb_neq.
  intros [Hx Ha] [Hy Hb]. assert (code x = code y) as E by lia.
  assert (x = y) as -> by (rewrite <- (ascii_N_embedding x), <- (ascii_N_embedding y); by f_equal).
  f_equal. apply IH; [by destruct Ha|by destruct Hb].
Qed.

(** ** Stable sorting by a comparison that orders the elements *)
Section stable.
Context {A : Type} (less : A → A → bool).

(** [less] is a strict weak order on the elements that satisfy [P]. *)
Record weak_order (P : A → Prop) : Prop := {
  wo_asym : ∀ x y, P x → P y → less x y = true → less y x = false;
  wo_trans : ∀ x y z, P x → P y → P z → less y x = false → less z y = false → less z x = false
}.

Context (P : A → Prop) (Hwo : weak_order P).

Lemma Forall_SliceStable l : Forall P l → Forall P (SliceStable less l).
Proof. by rewrite SliceStable_Permutation. Qed.

Lemma SliceStable_sorted_on l :
  Forall P l → StronglySorted (λ x y, less y x = false) (SliceStable less l).
Proof.
  induction 1 as [|x l Hx Hl IH]; simpl; [constructor|]. apply Forall_SliceStable in Hl.
  induction IH as [|y l' Hs IH' Hf]; simpl; [repeat constructor|]. inversion_clear Hl as [|? ? Hy Hl'].
  destruct (less y x) eqn:E.
  - constructor; [by apply IH'|]. rewrite insert_stable_Permutation. constructor; [by apply (wo_asym P Hwo)|done].
  - constructor; [by constructor|]. constructor; [done|]. rewrite !Forall_forall in *.
    intros z Hz. eapply (wo_trans P Hwo); eauto.
Qed.

(** The first element is the earliest of the best ones. *)
Lemma SliceStable_head l x rest :
  Forall P l → SliceStable less l = x :: rest →
  ∃ l1 l2, l = l1 ++ x :: l2 ∧ Forall (λ y, less x y = true) l1 ∧ Forall (λ y, less y x = false) l2.
Proof.
  intros Hl. revert x rest. induction Hl as [|y l Hy Hl IH]; intros x rest H; simpl in H; [done|].
  pose proof (SliceStable_sorted_on l Hl) as Hs. pose proof (Forall_SliceStable l Hl) as HP.
  pose proof (SliceStable_Permutation less l) as Hp.
  destruct (SliceStable less l) as [|z rest'] eqn:E; simpl in H.
  - injection H as <- <-. symmetry in Hp. apply Permutation_nil_r in Hp as ->. exists [], []. auto.
  - inversion_clear Hs as [|? ? _ Hf]. inversion_clear HP as [|? ? Hz HP'].
    destruct (IH z rest' eq_refl) as (l1 & l2 & -> & H1 & H2). destruct (less z y) eqn:Hzy.
    + injection H as <- <-. exists (y :: l1), l2. split_and!; [done|by constructor|done].
    + injection H as <- <-. exists [], (l1 ++ z :: l2). split_and!; [done|constructor|].
      rewrite <- Hp. constructor; [done|]. rewrite Forall_forall in *. intros w Hw.
      apply (wo_trans P Hwo) with z; eauto.
Qed.
End stable.
