(* ===== verification/Pricing.v ===== *)
(** * Pricing: deployments, pricing policies and quotes

    [src/internal/domain]: deployment.go, deployment_event.go,
    deployment_transition.go, pricing_policy.go, pricing_quote.go,
    route_pricing_evidence.go; [src/internal/repository]: the in-memory pricing
    policies.  Unicode case folding ([strings.EqualFold]) is a parameter. *)
From S2P Require Import Prelude Domain RouteTypes Order TaskSchema.

Module Pricing.
Import Domain RouteTypes.

(** ** Deployments *)
#[export] Instance HealthStatus_eq_dec : EqDecision HealthStatus.
Proof. solve_decision. Defined.
Inductive DeploymentLifecycle : Type :=
| DeploymentDiscovered | DeploymentReady | DeploymentDegraded | DeploymentDraining | DeploymentRetired
| DeploymentBlocked | DeploymentLifecycleOther (s : string).
#[export] Instance DeploymentLifecycle_eq_dec : EqDecision DeploymentLifecycle.
Proof. solve_decision. Defined.

Definition DeploymentLifecycle_string (l : DeploymentLifecycle) : string :=
  match l with
  | DeploymentDiscovered => "discovered" | DeploymentReady => "ready" | DeploymentDegraded => "degraded"
  | DeploymentDraining => "draining" | DeploymentRetired => "retired" | DeploymentBlocked => "blocked"
  | DeploymentLifecycleOther s => s
  end.

Record Deployment : Type := mkDeployment {
  Deployment_ID : string;
  Deployment_ModelVersionID : string;
  Deployment_ModelID : string;
  Deployment_ModelVersion : string;
  Deployment_Provider : string;
  Deployment_Endpoint : string;
  Deployment_Mode : DeploymentMode;
  Deployment_Region : string;
  Deployment_DataResidency : string;
  Deployment_Runtime : string;
  Deployment_Quantization : string;
  Deployment_PricingPolicyRef : string;
  Deployment_Pricing : PricingProfile;
  Deployment_Health : HealthStatus;
  Deployment_HealthCheckedAt : option Time;
  Deployment_P95LatencyMS : Z;
  Deployment_ErrorRate : float64;
  Deployment_QuotaRemaining : Z;
  Deployment_CapacityAvailable : Z;
  Deployment_QueueDepth : Z;
  Deployment_ServiceTiers : list ServiceTier;
  Deployment_InferenceEfforts : list InferenceEffort;
  Deployment_Lifecycle : DeploymentLifecycle;
  Deployment_RoutingEligible : bool;
  Deployment_Owner : string;
  Deployment_PolicyRef : string;
  Deployment_ReplacementIDs : list string;
  Deployment_CreatedAt : Time;
  Deployment_UpdatedAt : Time
}.

(** [now.Sub( *checked ) > maxAge] of a signal that may be missing. *)
Definition stale (checked : option Time) (now : Time) (maxAge : Duration) : bool :=
  match checked with None => true | Some t => (maxAge <? Sub now t)%Z end.

Definition IsRoutingEligible (d : Deployment) (now : Time) (maxSignalAge : Duration) : bool :=
  if negb (Deployment_RoutingEligible d) then false
  else if (Deployment_Lifecycle d !=? DeploymentReady) && (Deployment_Lifecycle d !=? DeploymentDegraded) then false
  else if Deployment_Health d ==? HealthUnhealthy then false
  else if (0 <? maxSignalAge)%Z && stale (Deployment_HealthCheckedAt d) now maxSignalAge then false
  else true.

(** The [allowed] table. *)
Definition deploymentTargets (from : DeploymentLifecycle) : list DeploymentLifecycle :=
  match from with
  | DeploymentDiscovered => [DeploymentReady; DeploymentBlocked; DeploymentRetired]
  | DeploymentReady => [DeploymentDegraded; DeploymentDraining; DeploymentBlocked; DeploymentRetired]
  | DeploymentDegraded => [DeploymentReady; DeploymentDraining; DeploymentBlocked; DeploymentRetired]
  | DeploymentDraining => [DeploymentReady; DeploymentBlocked; DeploymentRetired]
  | _ => []
  end.

Definition ValidateDeploymentTransition (from to : DeploymentLifecycle) : result unit :=
  if existsb (λ t, t ==? to) (deploymentTargets from) then Ok tt
  else Err (Errorf "invalid deployment lifecycle transition: %s -> %s"
              [AStr (DeploymentLifecycle_string from); AStr (DeploymentLifecycle_string to)]).

Record DeploymentLifecycleEvent : Type := mkDeploymentLifecycleEvent {
  DepEvent_ID : string;
  DepEvent_DeploymentID : string;
  DepEvent_From : DeploymentLifecycle;
  DepEvent_To : DeploymentLifecycle;
  DepEvent_AnnouncedAt : option Time;
  DepEvent_EffectiveAt : Time;
  DepEvent_EvidenceRef : string;
  DepEvent_ReplacementIDs : list string;
  DepEvent_QuotaRemaining : option Z;
  DepEvent_RateLimitRef : string;
  DepEvent_RoutingEligible : bool;
  DepEvent_MigrationState : string;
  DepEvent_CreatedAt : Time
}.

Definition ValidateLifecycleEvent (e : DeploymentLifecycleEvent) : result unit :=
  if (DepEvent_ID e ==? "") || (DepEvent_DeploymentID e ==? "")
  then Err (Errorf "deployment lifecycle event ID and deployment ID are required" [])
  else if IsZero (DepEvent_EffectiveAt e) then Err (Errorf "deployment lifecycle effective time is required" [])
  else if match DepEvent_AnnouncedAt e with Some t => After t (DepEvent_EffectiveAt e) | None => false end
  then Err (Errorf "deployment lifecycle announcement cannot follow effective time" [])
  else ValidateDeploymentTransition (DepEvent_From e) (DepEvent_To e).

(** ** Pricing policies *)
Record PricingContextBand : Type := mkBand {
  Band_MinTokens : Z;
  Band_MaxTokens : Z;
  Band_InputPerMillion : option float64;
  Band_OutputPerMillion : option float64;
  Band_CacheHitPerMillion : option float64;
  Band_CacheMissPerMillion : option float64
}.
Record CapacityPricing : Type := mkCapacity {
  Capacity_Mode : string; Capacity_Unit : string; Capacity_UnitPrice : float64; Capacity_FixedPrice : float64
}.
Record SelfHostedAllocation : Type := mkSelfHosted {
  SelfHosted_GPUHourPrice : float64;
  SelfHosted_CPUCoreHourPrice : float64;
  SelfHosted_MemoryGBHourPrice : float64;
  SelfHosted_StorageGBHourPrice : float64
}.
Record PricingPolicy : Type := mkPricingPolicy {
  Policy_ID : string;
  Policy_Version : string;
  Policy_DeploymentID : string;
  Policy_Currency : string;
  Policy_Region : string;
  Policy_InputPerMillion : float64;
  Policy_OutputPerMillion : float64;
  Policy_CacheHitPerMillion : float64;
  Policy_CacheMissPerMillion : float64;
  Policy_ContextBands : list PricingContextBand;
  Policy_BatchFactor : float64;
  Policy_AsyncFactor : float64;
  Policy_ServiceTierFactors : list (ServiceTier * float64);
  Policy_InferenceEffortFactors : list (InferenceEffort * float64);
  Policy_Capacity : CapacityPricing;
  Policy_SelfHosted : SelfHostedAllocation;
  Policy_EffectiveFrom : Time;
  Policy_EffectiveTo : option Time;
  Policy_EvidenceRef : string;
  Policy_Digest : string;
  Policy_CreatedAt : Time
}.

Definition Ref (p : PricingPolicy) : string := Policy_ID p +:+ "@" +:+ Policy_Version p.

Definition ValidatePolicy (p : PricingPolicy) : result unit :=
  if (Policy_ID p ==? "") || (Policy_Version p ==? "") || (Policy_DeploymentID p ==? "")
  then Err (Errorf "pricing policy ID, version and deployment ID are required" [])
  else if (Policy_Currency p ==? "") || IsZero (Policy_EffectiveFrom p)
  then Err (Errorf "pricing policy currency and effective time are required" [])
  else if match Policy_EffectiveTo p with Some t => negb (After t (Policy_EffectiveFrom p)) | None => false end
  then Err (Errorf "pricing policy effective end must follow effective start" [])
  else Ok tt.

(** [!at.Before(from) && (to == nil || at.Before( *to ))]. *)
Definition effective (p : PricingPolicy) (at_ : Time) : bool :=
  negb (Before at_ (Policy_EffectiveFrom p))
  && match Policy_EffectiveTo p with None => true | Some t => Before at_ t end.

(** ** Quotes *)
Record PricingUsageEstimate : Type := mkUsageEstimate {
  Usage_InputTokens : Z;
  Usage_OutputTokens : Z;
  Usage_CacheHitInputTokens : Z;
  Usage_ContextTokens : Z;
  Usage_Region : string;
  Usage_Batch : bool;
  Usage_Async : bool;
  Usage_ServiceTier : ServiceTier;
  Usage_InferenceEffort : InferenceEffort;
  Usage_CapacityUnits : float64;
  Usage_GPUHours : float64;
  Usage_CPUCoreHours : float64;
  Usage_MemoryGBHours : float64;
  Usage_StorageGBHours : float64
}.
Record PricingQuoteComponent : Type := mkQuoteComponent {
  Component_Name : string;
  Component_Quantity : float64;
  Component_Unit : string;
  Component_UnitPrice : float64;
  Component_Factor : float64;
  Component_Amount : float64
}.
Record PricingQuote : Type := mkPricingQuote {
  Quote_PolicyID : string;
  Quote_PolicyVersion : string;
  Quote_PolicyDigest : string;
  Quote_DeploymentID : string;
  Quote_Currency : string;
  Quote_Components : list PricingQuoteComponent;
  Quote_Total : float64;
  Quote_QuotedAt : Time
}.

(** The four prices per million tokens. *)
Record Rates : Type := mkRates { Rate_Input : float64; Rate_Output : float64; Rate_Hit : float64; Rate_Miss : float64 }.

Definition base_rates (p : PricingPolicy) : Rates :=
  mkRates (Policy_InputPerMillion p) (Policy_OutputPerMillion p) (Policy_CacheHitPerMillion p)
    (if f_eq (Policy_CacheMissPerMillion p) f_zero then Policy_InputPerMillion p else Policy_CacheMissPerMillion p).

Definition outside_band (tokens : Z) (b : PricingContextBand) : bool :=
  (tokens <? Band_MinTokens b)%Z || ((0 <? Band_MaxTokens b)%Z && (Band_MaxTokens b <? tokens)%Z).

Definition band_rates (b : PricingContextBand) (r : Rates) : Rates :=
  let input := default (Rate_Input r) (Band_InputPerMillion b) in
  mkRates input (default (Rate_Output r) (Band_OutputPerMillion b)) (default (Rate_Hit r) (Band_CacheHitPerMillion b))
    (match Band_CacheMissPerMillion b with
     | Some miss => miss
     | None => match Band_InputPerMillion b with None => Rate_Miss r | Some _ => input end
     end).

(** The first band that holds the context changes the prices. *)
Fixpoint rates_loop (tokens : Z) (bands : list PricingContextBand) (r : Rates) : Rates :=
  match bands with
  | [] => r
  | b :: bands => if outside_band tokens b then rates_loop tokens bands r else band_rates b r
  end.

(** A lookup in a Go map of floats: zero when the key is missing. *)
Fixpoint factor_at {K} `{EqDecision K} (k : K) (m : list (K * float64)) : float64 :=
  match m with
  | [] => f_zero
  | (k', v) :: m => if k ==? k' then v else factor_at k m
  end.

Definition times (use : bool) (value factor : float64) : float64 :=
  if use && f_gt value f_zero then f_mul factor value else factor.

Definition quote_factor (p : PricingPolicy) (u : PricingUsageEstimate) : float64 :=
  times true (factor_at (Usage_InferenceEffort u) (Policy_InferenceEffortFactors p))
    (times true (factor_at (Usage_ServiceTier u) (Policy_ServiceTierFactors p))
       (times (Usage_Async u) (Policy_AsyncFactor p)
          (times (Usage_Batch u) (Policy_BatchFactor p) (f_int 1)))).

(** The closure [add]. *)
Definition add_component (name : string) (quantity : float64) (unit : string) (unitPrice factor : float64)
    : list PricingQuoteComponent :=
  if f_eq quantity f_zero && f_eq unitPrice f_zero then []
  else [mkQuoteComponent name quantity unit unitPrice factor (f_mul (f_mul quantity unitPrice) factor)].

Definition millions (tokens : Z) : float64 := f_div (f_int tokens) (f_int 1000000).

Definition quote_components (p : PricingPolicy) (u : PricingUsageEstimate) : list PricingQuoteComponent :=
  let r := rates_loop (Usage_ContextTokens u) (Policy_ContextBands p) (base_rates p) in
  let factor := quote_factor p u in
  let one := f_int 1 in
  let capacity := Policy_Capacity p in
  let hosted := Policy_SelfHosted p in
  add_component "input-cache-miss" (millions (sub64 (Usage_InputTokens u) (Usage_CacheHitInputTokens u)))
    "million-token" (Rate_Miss r) factor
  ++ add_component "input-cache-hit" (millions (Usage_CacheHitInputTokens u)) "million-token" (Rate_Hit r) factor
  ++ add_component "output" (millions (Usage_OutputTokens u)) "million-token" (Rate_Output r) factor
  ++ add_component "capacity" (Usage_CapacityUnits u) (Capacity_Unit capacity) (Capacity_UnitPrice capacity) one
  ++ (if negb (f_eq (Capacity_FixedPrice capacity) f_zero)
      then add_component "capacity-fixed" one "allocation" (Capacity_FixedPrice capacity) one else [])
  ++ add_component "self-hosted-gpu" (Usage_GPUHours u) "gpu-hour" (SelfHosted_GPUHourPrice hosted) one
  ++ add_component "self-hosted-cpu" (Usage_CPUCoreHours u) "cpu-core-hour" (SelfHosted_CPUCoreHourPrice hosted) one
  ++ add_component "self-hosted-memory" (Usage_MemoryGBHours u) "memory-gb-hour" (SelfHosted_MemoryGBHourPrice hosted) one
  ++ add_component "self-hosted-storage" (Usage_StorageGBHours u) "storage-gb-hour"
       (SelfHosted_StorageGBHourPrice hosted) one.

Definition total (components : list PricingQuoteComponent) : float64 :=
  foldl (λ t c, f_add t (Component_Amount c)) f_zero components.

Record RoutePricingEvidence : Type := mkRoutePricingEvidence {
  Evidence_RouteDecisionID : string;
  Evidence_DeploymentID : string;
  Evidence_PolicyID : string;
  Evidence_PolicyVersion : string;
  Evidence_PolicyDigest : string;
  Evidence_Quote : PricingQuote;
  Evidence_Selected : bool;
  Evidence_CreatedAt : Time
}.

Definition ValidateEvidence (e : RoutePricingEvidence) : result unit :=
  let q := Evidence_Quote e in
  if (Evidence_RouteDecisionID e ==? "") || (Evidence_DeploymentID e ==? "")
  then Err (Errorf "route decision ID and deployment ID are required" [])
  else if (Evidence_PolicyID e ==? "") || (Evidence_PolicyVersion e ==? "")
  then Err (Errorf "pricing policy ID and version are required" [])
  else if (Quote_DeploymentID q !=? Evidence_DeploymentID e) || (Quote_PolicyID q !=? Evidence_PolicyID e)
          || (Quote_PolicyVersion q !=? Evidence_PolicyVersion e)
  then Err (Errorf "pricing quote identity must match route pricing evidence" [])
  else if IsZero (Quote_QuotedAt q) || IsZero (Evidence_CreatedAt e)
  then Err (Errorf "pricing quote and evidence timestamps are required" [])
  else Ok tt.

Section quoting.
Variable EqualFold : string → string → bool.

Definition QuotePricing (p : PricingPolicy) (u : PricingUsageEstimate) (at_ : Time) : result PricingQuote :=
  _ ← ValidatePolicy p;
  if Before at_ (Policy_EffectiveFrom p)
     || match Policy_EffectiveTo p with Some t => negb (Before at_ t) | None => false end
  then Err (Errorf "pricing policy %s is not effective at quote time" [AStr (Ref p)])
  else if (Policy_Region p !=? "") && (Usage_Region u !=? "") && negb (EqualFold (Policy_Region p) (Usage_Region u))
  then Err (Errorf "pricing policy region %s does not match %s" [AStr (Policy_Region p); AStr (Usage_Region u)])
  else if (Usage_CacheHitInputTokens u <? 0)%Z || (Usage_InputTokens u <? Usage_CacheHitInputTokens u)%Z
  then Err (Errorf "cached input tokens must be within input token count" [])
  else
    let components := quote_components p u in
    Ok (mkPricingQuote (Policy_ID p) (Policy_Version p) (Policy_Digest p) (Policy_DeploymentID p)
          (Policy_Currency p) components (total components) at_).

(** ** What a quote promises *)

(** When a policy can price a workload. *)
Definition quotable (p : PricingPolicy) (u : PricingUsageEstimate) (at_ : Time) : Prop :=
  (Policy_ID p ≠ "" ∧ Policy_Version p ≠ "" ∧ Policy_DeploymentID p ≠ "" ∧ Policy_Currency p ≠ ""
   ∧ Policy_EffectiveFrom p ≠ 0%Z)
  ∧ (Policy_EffectiveFrom p ≤ at_)%Z ∧ (∀ t, Policy_EffectiveTo p = Some t → (at_ < t)%Z)
  ∧ (Policy_Region p ≠ "" → Usage_Region u ≠ "" → EqualFold (Policy_Region p) (Usage_Region u) = true)
  ∧ (0 ≤ Usage_CacheHitInputTokens u ≤ Usage_InputTokens u)%Z.

Lemma ValidatePolicy_Ok p :
  ValidatePolicy p = Ok tt ↔
  (Policy_ID p ≠ "" ∧ Policy_Version p ≠ "" ∧ Policy_DeploymentID p ≠ "" ∧ Policy_Currency p ≠ ""
   ∧ Policy_EffectiveFrom p ≠ 0%Z) ∧ (∀ t, Policy_EffectiveTo p = Some t → (Policy_EffectiveFrom p < t)%Z).
Proof.
  unfold ValidatePolicy, IsZero, After. repeat case_bool_decide; simpl; try (split; [done|tauto]).
  destruct (Z.eqb_spec (Policy_EffectiveFrom p) 0); simpl; [split; [done|tauto]|].
  destruct (Policy_EffectiveTo p) as [t|]; [|split; [intros _; split; [done|congruence]|done]].
  destruct (Z.ltb_spec (Policy_EffectiveFrom p) t); simpl; split; try done.
  - intros _. split; [done|]. intros t' [= <-]. done.
  - intros [_ Ht]. specialize (Ht t eq_refl). lia.
Qed.

Lemma QuotePricing_cases p u at_ :
  match QuotePricing p u at_ with
  | Ok q => quotable p u at_
      ∧ q = mkPricingQuote (Policy_ID p) (Policy_Version p) (Policy_Digest p) (Policy_DeploymentID p)
              (Policy_Currency p) (quote_components p u) (total (quote_components p u)) at_
  | Err _ => ¬ quotable p u at_
  end.
Proof.
  unfold QuotePricing. destruct (ValidatePolicy p) as [[]|e] eqn:Hv; simpl.
  2: { intros (Hid & H1 & H2 & _). enough (ValidatePolicy p = Ok tt) by congruence. apply ValidatePolicy_Ok.
       split; [done|]. intros t Ht. specialize (H2 t Ht). lia. }
  apply ValidatePolicy_Ok in Hv as [Hid Hto]. unfold Before.
  destruct (Z.ltb_spec at_ (Policy_EffectiveFrom p)); simpl; [intros (_ & ? & _); lia|].
  destruct (match Policy_EffectiveTo p with Some t => negb (at_ <? t)%Z | None => false end) eqn:He.
  { intros (_ & _ & Ht & _). destruct (Policy_EffectiveTo p) as [t|]; [|done]. specialize (Ht t eq_refl).
    apply negb_true_iff, Z.ltb_ge in He. lia. }
  destruct (_ && _ && _) eqn:Hr.
  { apply andb_true_iff in Hr as [[H1 H2]%andb_true_iff H3]. go_props. intros (_ & _ & _ & H4 & _).
    rewrite H4 in H3 by done. done. }
  destruct (Z.ltb_spec (Usage_CacheHitInputTokens u) 0); simpl; [intros (_ & _ & _ & _ & ?); lia|].
  destruct (Z.ltb_spec (Usage_InputTokens u) (Usage_CacheHitInputTokens u)); [intros (_ & _ & _ & _ & ?); lia|].
  split; [|done]. split_and!; try done; try tauto.
  - intros t Ht. rewrite Ht in He. apply negb_false_iff, Z.ltb_lt in He. done.
  - intros Hreg1 Hreg2. rewrite !(bool_decide_eq_false_2 (_ = "")) in Hr by done. simpl in Hr.
    by apply negb_false_iff in Hr.
Qed.

(** Prices, factors and amounts that are not below zero. *)
Definition rates_nonneg (r : Rates) : Prop :=
  nonneg (Rate_Input r) = true ∧ nonneg (Rate_Output r) = true ∧ nonneg (Rate_Hit r) = true
  ∧ nonneg (Rate_Miss r) = true.
Definition opt_nonneg (x : option float64) : Prop := ∀ v, x = Some v → nonneg v = true.
Definition band_nonneg (b : PricingContextBand) : Prop :=
  opt_nonneg (Band_InputPerMillion b) ∧ opt_nonneg (Band_OutputPerMillion b)
  ∧ opt_nonneg (Band_CacheHitPerMillion b) ∧ opt_nonneg (Band_CacheMissPerMillion b).
Record prices_nonneg (p : PricingPolicy) : Prop := {
  pn_base : rates_nonneg (base_rates p);
  pn_bands : Forall band_nonneg (Policy_ContextBands p);
  pn_capacity : nonneg (Capacity_UnitPrice (Policy_Capacity p)) = true ∧ nonneg (Capacity_FixedPrice (Policy_Capacity p)) = true;
  pn_hosted : nonneg (SelfHosted_GPUHourPrice (Policy_SelfHosted p)) = true
    ∧ nonneg (SelfHosted_CPUCoreHourPrice (Policy_SelfHosted p)) = true
    ∧ nonneg (SelfHosted_MemoryGBHourPrice (Policy_SelfHosted p)) = true
    ∧ nonneg (SelfHosted_StorageGBHourPrice (Policy_SelfHosted p)) = true
}.
Record usage_nonneg (u : PricingUsageEstimate) : Prop := {
  un_output : (0 ≤ Usage_OutputTokens u)%Z;
  un_input : (Usage_InputTokens u ≤ int_max)%Z;
  un_rest : nonneg (Usage_CapacityUnits u) = true ∧ nonneg (Usage_GPUHours u) = true
    ∧ nonneg (Usage_CPUCoreHours u) = true ∧ nonneg (Usage_MemoryGBHours u) = true
    ∧ nonneg (Usage_StorageGBHours u) = true
}.

Lemma total_foldl cs : total cs = foldl f_add f_zero (Component_Amount <$> cs).
Proof. unfold total. generalize f_zero. induction cs as [|c cs IH]; intros t; simpl; [done|]. apply IH. Qed.

Lemma opt_nonneg_default x d : opt_nonneg x → nonneg d = true → nonneg (default d x) = true.
Proof. intros Hx Hd. destruct x; simpl; [by apply Hx|done]. Qed.

Lemma rates_loop_nonneg tokens bands r :
  Forall band_nonneg bands → rates_nonneg r → rates_nonneg (rates_loop tokens bands r).
Proof.
  induction 1 as [|b bands (H1 & H2 & H3 & H4) _ IH]; intros Hr; simpl; [done|].
  destruct (outside_band tokens b); [by apply IH|]. destruct Hr as (? & ? & ? & ?).
  split_and!; simpl; try by apply opt_nonneg_default. destruct (Band_CacheMissPerMillion b) eqn:E; [by apply H4|].
  destruct (Band_InputPerMillion b) eqn:E2; simpl; [by apply H1|done].
Qed.

Lemma times_nonneg use value factor : nonneg factor = true → nonneg (times use value factor) = true.
Proof.
  intros Hf. unfold times. destruct (use && f_gt value f_zero) eqn:E; [|done]. apply andb_true_iff in E as [_ E].
  apply nonneg_mul; [done|]. unfold nonneg. destruct value as [| | |[] ? ?]; try done. by destruct s.
Qed.

Lemma quote_factor_nonneg p u : nonneg (quote_factor p u) = true.
Proof. unfold quote_factor. by repeat apply times_nonneg. Qed.

Lemma millions_nonneg z : (0 ≤ z)%Z → nonneg (millions z) = true.
Proof. intros. apply nonneg_div; [by apply nonneg_int|done|done]. Qed.

Lemma add_component_nonneg name q unit price factor :
  nonneg q = true → nonneg price = true → nonneg factor = true →
  Forall (λ c, nonneg (Component_Amount c) = true) (add_component name q unit price factor).
Proof.
  intros. unfold add_component. destruct (_ && _); constructor; [|constructor]. simpl. by repeat apply nonneg_mul.
Qed.

Lemma total_nonneg cs t :
  Forall (λ c, nonneg (Component_Amount c) = true) cs → nonneg t = true →
  nonneg (foldl (λ t c, f_add t (Component_Amount c)) t cs) = true.
Proof.
  intros Hc. revert t. induction Hc as [|c cs H _ IH]; intros t Ht; simpl; [done|]. apply IH. by apply nonneg_add.
Qed.

(** A quote prices exactly the workloads its policy covers.  A quote is given
    if and only if the policy is complete, in force at that moment, for the right
    region, and the cached tokens are among the input tokens; it carries the
    policy's identity and currency, each amount is quantity times price times
    factor, and the total is the sum of the amounts in order. *)
Theorem QuotePricing_correct p u at_ :
  (quotable p u at_ ↔ ∃ q, QuotePricing p u at_ = Ok q)
  ∧ ∀ q, QuotePricing p u at_ = Ok q →
      (Quote_PolicyID q, Quote_PolicyVersion q, Quote_DeploymentID q, Quote_Currency q, Quote_QuotedAt q)
      = (Policy_ID p, Policy_Version p, Policy_DeploymentID p, Policy_Currency p, at_)
      ∧ Forall (λ c, Component_Amount c
                     = f_mul (f_mul (Component_Quantity c) (Component_UnitPrice c)) (Component_Factor c))
          (Quote_Components q)
      ∧ Quote_Total q = foldl f_add f_zero (Component_Amount <$> Quote_Components q).
Proof.
  pose proof (QuotePricing_cases p u at_) as H. destruct (QuotePricing p u at_) as [q0|e].
  - destruct H as [Hq ->]. split; [split; eauto|]. intros q [= <-]. simpl. split; [done|]. split.
    + unfold quote_components. repeat apply Forall_app_2; try (case_match; [|done]);
        unfold add_component; by case_match; repeat constructor.
    + apply total_foldl.
  - split; [split; [done|by intros [q Hq]]|]. intros q Hq. done.
Qed.

(** A quote is not negative.  With prices and quantities that are not below
    zero, whatever the bands, factors and region, no amount and no total of a
    quote is below zero: rounding, overflow and the cached-token split never
    turn a charge into a credit. *)
Theorem quote_is_not_negative p u at_ q :
  prices_nonneg p → usage_nonneg u → QuotePricing p u at_ = Ok q →
  f_lt (Quote_Total q) f_zero = false
  ∧ Forall (λ c, f_lt (Component_Amount c) f_zero = false) (Quote_Components q).
Proof.
  intros Hp Hu Hq. pose proof (QuotePricing_cases p u at_) as H. rewrite Hq in H. destruct H as [Hable ->]. simpl.
  destruct Hp as [Hb Hbands [Hc1 Hc2] (Hg & Hcpu & Hm & Hs)], Hu as [Ho Hi (Hcap & Hgh & Hch & Hmh & Hsh)].
  destruct Hable as (_ & _ & _ & _ & Hcache).
  pose proof (rates_loop_nonneg (Usage_ContextTokens u) _ _ Hbands Hb) as (Hr1 & Hr2 & Hr3 & Hr4).
  assert (0 ≤ sub64 (Usage_InputTokens u) (Usage_CacheHitInputTokens u))%Z as Hmiss.
  { unfold sub64. rewrite wrap64_id; [lia|]. unfold in_int64, int_min, int_max in *. lia. }
  assert (Forall (λ c, nonneg (Component_Amount c) = true) (quote_components p u)) as Hall.
  { unfold quote_components. cbv zeta. repeat apply Forall_app_2; try (case_match; [|done]);
      apply add_component_nonneg; try done; try apply quote_factor_nonneg; apply millions_nonneg; lia. }
  split.
  - apply negb_true_iff. by apply (total_nonneg (quote_components p u) f_zero).
  - eapply Forall_impl; [exact Hall|]. intros c Hc. by apply negb_true_iff.
Qed.

End quoting.

(** ** The policy store *)

(** [domain.PricingPolicyRepository], what routing and reconciliation read. *)
Class PricingPolicyRepository (R : Type) : Type := {
  pr_Get : string → string → R → result PricingPolicy;
  pr_Resolve : string → Time → R → result PricingPolicy
}.

(** What they rely on: a resolved policy is the deployment's, is in force, and
    can be fetched again under its identity. *)
Class PricingPolicyLaws (R : Type) `{PricingPolicyRepository R} : Prop := {
  resolve_sound : ∀ d at_ r p, pr_Resolve d at_ r = Ok p →
    Policy_DeploymentID p = d ∧ effective p at_ = true ∧ pr_Get (Policy_ID p) (Policy_Version p) r = Ok p
}.

Definition MemoryPricingPolicies : Type := gmap string PricingPolicy.
Definition NewMemoryPricingPolicies : MemoryPricingPolicies := ∅.

Definition Memory_Create (item : PricingPolicy) (r : MemoryPricingPolicies)
    : result PricingPolicy * MemoryPricingPolicies :=
  match ValidatePolicy item with
  | Err e => (Err e, r)
  | Ok _ =>
      match r !! Ref item with
      | Some _ => (Err (Errorf "pricing policy version already exists" []), r)
      | None => (Ok item, <[Ref item := item]> r)
      end
  end.

Definition Memory_Get (id version : string) (r : MemoryPricingPolicies) : result PricingPolicy :=
  match r !! (id +:+ "@" +:+ version) with Some p => Ok p | None => Err TaskSchema.ErrNotFound end.

(** The comparison of [sortPolicies]: the later start first, then the larger version. *)
Definition newer (a b : PricingPolicy) : bool :=
  if (Policy_EffectiveFrom a =? Policy_EffectiveFrom b)%Z then str_lt (Policy_Version b) (Policy_Version a)
  else After (Policy_EffectiveFrom a) (Policy_EffectiveFrom b).
Definition sortPolicies (items : list PricingPolicy) : list PricingPolicy := SliceStable newer items.

(** [items] lists the values of the map in the order the runtime visits them. *)
Definition visits (items : list PricingPolicy) (r : MemoryPricingPolicies) : Prop := items ≡ₚ (map_to_list r).*2.

Definition Memory_ListByDeployment (items : list PricingPolicy) (deploymentID : string) : list PricingPolicy :=
  sortPolicies (filter (λ p, Policy_DeploymentID p = deploymentID) items).

Definition Memory_Resolve (items : list PricingPolicy) (deploymentID : string) (at_ : Time) : result PricingPolicy :=
  match find (λ p, effective p at_) (Memory_ListByDeployment items deploymentID) with
  | Some p => Ok p
  | None => Err TaskSchema.ErrNotFound
  end.

(** Every stored policy is under its own reference, as [Create] puts it. *)
Definition keyed (r : MemoryPricingPolicies) : Prop := map_Forall (λ k p, k = Ref p ∧ ValidatePolicy p = Ok tt) r.

Lemma Memory_Create_keyed item r : keyed r → keyed (Memory_Create item r).2.
Proof.
  intros Hr. unfold Memory_Create. destruct (ValidatePolicy item) as [[]|] eqn:Hv; [|done].
  destruct (r !! Ref item) eqn:E; [done|]. by apply map_Forall_insert_2.
Qed.

(** A version once created is never replaced. *)
Lemma Memory_Create_Get item r id version p :
  Memory_Get id version r = Ok p → Memory_Get id version (Memory_Create item r).2 = Ok p.
Proof.
  unfold Memory_Get, Memory_Create, MemoryPricingPolicies in *. intros Hp. destruct (ValidatePolicy item); [|done].
  destruct (r !! Ref item) as [q|] eqn:E; [done|]. cbn [snd].
  destruct (decide (id +:+ "@" +:+ version = Ref item)) as [Heq|Hne]; [|by rewrite lookup_insert_ne].
  by rewrite Heq, E in Hp.
Qed.

Lemma newer_order : weak_order newer (λ _, True).
Proof.
  unfold newer, After, str_lt. split.
  - intros x y _ _. rewrite (Z.eqb_sym (Policy_EffectiveFrom y)).
    destruct (Z.eqb_spec (Policy_EffectiveFrom x) (Policy_EffectiveFrom y)); [apply bytes_lt_asym|].
    rewrite Z.ltb_lt, Z.ltb_ge. lia.
  - intros x y z _ _ _.
    destruct (Z.eqb_spec (Policy_EffectiveFrom y) (Policy_EffectiveFrom x)) as [E1|E1],
      (Z.eqb_spec (Policy_EffectiveFrom z) (Policy_EffectiveFrom y)) as [E2|E2],
      (Z.eqb_spec (Policy_EffectiveFrom z) (Policy_EffectiveFrom x)) as [E3|E3]; rewrite ?Z.ltb_ge; try lia.
    intros H1 H2. by eapply bytes_le_trans.
Qed.

Lemma find_first {A} (f : A → bool) l x :
  find f l = Some x → ∃ l1 l2, l = l1 ++ x :: l2 ∧ f x = true ∧ Forall (λ y, f y = false) l1.
Proof.
  induction l as [|y l IH]; simpl; [done|]. destruct (f y) eqn:E.
  - intros [= <-]. exists [], l. auto.
  - intros H. destruct (IH H) as (l1 & l2 & -> & Hx & Hl). exists (y :: l1), l2. auto.
Qed.

Lemma elem_of_list_by items d p :
  p ∈ Memory_ListByDeployment items d ↔ p ∈ items ∧ Policy_DeploymentID p = d.
Proof.
  unfold Memory_ListByDeployment, sortPolicies. rewrite SliceStable_Permutation, list_elem_of_filter. tauto.
Qed.

Lemma elem_of_visits items r p : visits items r → p ∈ items ↔ ∃ k, r !! k = Some p.
Proof.
  intros Hv. rewrite Hv, list_elem_of_fmap. split.
  - intros ([k p'] & -> & H%elem_of_map_to_list). eauto.
  - intros [k Hk]. exists (k, p). split; [done|]. by apply elem_of_map_to_list.
Qed.

Lemma Memory_Resolve_spec items r d at_ :
  keyed r → visits items r →
  match Memory_Resolve items d at_ with
  | Ok p => Policy_DeploymentID p = d ∧ effective p at_ = true
      ∧ Memory_Get (Policy_ID p) (Policy_Version p) r = Ok p
      ∧ ∀ k p', r !! k = Some p' → Policy_DeploymentID p' = d → effective p' at_ = true → newer p' p = false
  | Err _ => ∀ k p', r !! k = Some p' → Policy_DeploymentID p' = d → effective p' at_ = false
  end.
Proof.
  intros Hk Hv. unfold Memory_Resolve.
  assert (∀ k p, r !! k = Some p → Policy_DeploymentID p = d → p ∈ Memory_ListByDeployment items d) as Hin.
  { intros k p Hp Hd. apply elem_of_list_by. split; [|done]. apply (elem_of_visits items r); eauto. }
  destruct (find _ _) as [p|] eqn:Hf.
  - apply find_first in Hf as (l1 & l2 & Hl & He & Hl1).
    assert (p ∈ Memory_ListByDeployment items d) as Hp by (rewrite Hl; set_solver).
    apply elem_of_list_by in Hp as [Hp Hd]. apply (elem_of_visits items r) in Hp as [k Hp]; [|done].
    destruct (Hk _ _ Hp) as [Hkey _]. simpl in Hkey. split_and!; try done.
    + unfold Memory_Get. fold (Ref p). by rewrite <- Hkey, Hp.
    + intros k' p' Hp' Hd' He'. specialize (Hin _ _ Hp' Hd').
      assert (StronglySorted (λ x y, newer y x = false) (Memory_ListByDeployment items d)) as Hs
        by (apply (SliceStable_sorted_on newer _ newer_order); by apply Forall_true).
      rewrite Hl in Hin, Hs. apply elem_of_app in Hin as [Hin|Hin].
      * rewrite Forall_forall in Hl1. specialize (Hl1 _ Hin). simpl in Hl1. congruence.
      * apply StronglySorted_app in Hs as (_ & _ & Hs). inversion_clear Hs as [|? ? _ Hall].
        apply elem_of_cons in Hin as [->|Hin]; [|rewrite Forall_forall in Hall; by apply Hall].
        destruct (newer p p) eqn:E; [|done]. pose proof (wo_asym _ _ newer_order p p I I E). congruence.
  - intros k p' Hp' Hd. pose proof (find_none _ _ Hf p') as Hn. simpl in Hn. apply Hn.
    apply list_elem_of_In. by eapply Hin.
Qed.

(** The memory store, restricted to the states [Create] reaches, is a repository;
    [order] is the order in which its map is visited. *)
Section memory_repository.
Variable order : MemoryPricingPolicies → list PricingPolicy.
Hypothesis order_visits : ∀ r, visits (order r) r.

Definition Memory_policies : PricingPolicyRepository { r : MemoryPricingPolicies | keyed r } := {|
  pr_Get id version r := Memory_Get id version (`r);
  pr_Resolve d at_ r := Memory_Resolve (order (`r)) d at_
|}.

Lemma Memory_policies_laws : @PricingPolicyLaws _ Memory_policies.
Proof.
  split. intros d at_ [r Hr] p Hp. pose proof (Memory_Resolve_spec (order r) r d at_ Hr (order_visits r)) as H.
  simpl in Hp. rewrite Hp in H. tauto.
Qed.
End memory_repository.

(** The policy in force is resolved.  Whatever order the map is visited in, a
    price is resolved exactly when the deployment has a policy in force at that
    moment; the one returned is stored, in force, and no other policy of the
    deployment in force starts later, or at the same time with a larger version. *)
Theorem Resolve_correct items r d at_ :
  keyed r → visits items r →
  match Memory_Resolve items d at_ with
  | Ok p => Policy_DeploymentID p = d ∧ effective p at_ = true
      ∧ Memory_Get (Policy_ID p) (Policy_Version p) r = Ok p
      ∧ ∀ k p', r !! k = Some p' → Policy_DeploymentID p' = d → effective p' at_ = true → newer p' p = false
  | Err _ => ∀ k p', r !! k = Some p' → Policy_DeploymentID p' = d → effective p' at_ = false
  end.
Proof. apply Memory_Resolve_spec. Qed.

End Pricing.
