(* ===== verification/Router.v ===== *)
(** * Router: choosing a model or a deployment for a task

    [src/internal/router]: router.go, plan.go, deployment_candidates.go,
    deployment_select.go, deployment_plan.go, pricing_quote_candidate.go,
    pricing_evidence.go, route_pricing_evidence.go, the bindings and the
    model-version adapter; [src/internal/domain/model_version*.go].

    A router is a pointer: deployments, model versions and pricing policies are
    bound to its address in global maps, so the addresses are part of the model.
    Unicode case folding, the stable sort on incomparable scores and the decimal
    form of a cost are parameters. *)
From S2P Require Import Prelude Domain Admission RouteTypes GoStrings Order Pricing.

Module Router.
Import Domain RouteTypes Pricing.

#[export] Instance ModelLifecycle_eq_dec : EqDecision ModelLifecycle.
Proof. solve_decision. Defined.

(** ** Model versions *)
Record ModelVersion : Type := mkModelVersion {
  Version_ID : string;
  Version_Name : string;
  Version_Version : string;
  Version_Lifecycle : ModelLifecycle;
  Version_Capabilities : list string;
  Version_EvaluationVersion : string;
  Version_License : string;
  Version_LicenseEvidence : LicenseEvidence;
  Version_Provenance : ModelProvenance;
  Version_ArtifactDigest : string;
  Version_ApprovalStatus : ApprovalStatus;
  Version_RiskLevel : string;
  Version_CreatedAt : Time;
  Version_UpdatedAt : Time
}.

Definition ModelVersionFromLegacy (m : Model) : ModelVersion :=
  mkModelVersion (Model_ID m) (Model_Name m) (Model_Version m) (Model_Lifecycle m) (Model_Capabilities m)
    (Model_EvaluationVersion m) (Model_License m) (Model_LicenseEvidence m) (Model_Provenance m)
    (Model_ArtifactDigest m) (Model_ApprovalStatus m) (Model_RiskLevel m) (Model_CreatedAt m) (Model_UpdatedAt m).

Definition PricingZero : PricingProfile := Build_PricingProfile "" f_zero f_zero f_zero f_zero.

Definition LegacyModel (v : ModelVersion) (mode : DeploymentMode) : Model := {|
  Model_ID := Version_ID v; Model_Name := Version_Name v; Model_Version := Version_Version v;
  Model_Provider := ""; Model_Endpoint := ""; Model_DeploymentMode := mode;
  Model_Lifecycle := Version_Lifecycle v; Model_Capabilities := Version_Capabilities v;
  Model_Pricing := PricingZero; Model_Health := HealthOther ""; Model_HealthCheckedAt := None;
  Model_P95LatencyMS := 0; Model_ErrorRate := f_zero; Model_QuotaRemaining := 0; Model_CapacityAvailable := 0;
  Model_QueueDepth := 0; Model_ServiceTiers := []; Model_InferenceEfforts := [];
  Model_EvaluationVersion := Version_EvaluationVersion v; Model_License := Version_License v;
  Model_LicenseEvidence := Version_LicenseEvidence v; Model_Provenance := Version_Provenance v;
  Model_ArtifactDigest := Version_ArtifactDigest v; Model_ApprovalStatus := Version_ApprovalStatus v;
  Model_RiskLevel := Version_RiskLevel v; Model_DataResidency := "";
  Model_CreatedAt := Version_CreatedAt v; Model_UpdatedAt := Version_UpdatedAt v
|}.

(** [modelVersionAdapter.List]. *)
Definition adapter_List (versions : result (list ModelVersion)) : result (list Model) :=
  items ← versions; Ok (map (λ v, LegacyModel v (DeploymentModeOther "")) items).

(** ** Candidates *)
Definition candidate_with (c : RouteCandidate) (cost score : float64) (reasons : list string) : RouteCandidate :=
  mkRouteCandidate (Candidate_ModelID c) (Candidate_ModelVersion c) (Candidate_DeploymentID c)
    (Candidate_RouteClass c) (Candidate_InferenceEffort c) (Candidate_ServiceTier c) cost score reasons.

(** [candidate.RejectionReasons = append(candidate.RejectionReasons, ..)]. *)
Definition reject (c : RouteCandidate) (reasons : list string) : RouteCandidate :=
  candidate_with c (Candidate_EstimatedCost c) (Candidate_Score c) (Candidate_RejectionReasons c ++ reasons).

Definition set_request (req : RouteRequest) (class : RouteClass) (currency : string) (maxAge : Duration) : RouteRequest :=
  mkRouteRequest (Req_TaskID req) class (Req_RequiredCapabilities req) (Req_InferenceEffort req) (Req_ServiceTier req)
    (Req_EstimatedInputTokens req) (Req_EstimatedOutputTokens req) (Req_Budget req) currency (Req_DataResidency req)
    (Req_EvidenceVersion req) (Req_PolicyVersion req) (Req_AllowDegraded req) (Req_RequireFreshSignals req) maxAge.

Definition or_class (c : RouteClass) : RouteClass := if c ==? RouteClassZero then RouteEfficient else c.
Definition or_max_age (d : Duration) : Duration := if (d <=? 0)%Z then (5 * Minute)%Z else d.

Definition when (b : bool) (reason : string) : list string := if b then [reason] else [].

Definition estimateCost (pricing : PricingProfile) (inputTokens outputTokens : Z) : float64 :=
  let cost := f_add (f_mul (millions inputTokens) (Pricing_InputPerMillion pricing))
                (f_mul (millions outputTokens) (Pricing_OutputPerMillion pricing)) in
  let factor := Pricing_ServiceTierFactor pricing in
  f_mul cost (if f_le factor f_zero then f_int 1 else factor).

(** The comparison both selections give to the stable sort: [eligible[i]] goes
    before [eligible[j]]. *)
Definition better (a b : RouteCandidate) : bool :=
  if f_eq (Candidate_Score a) (Candidate_Score b) then f_lt (Candidate_EstimatedCost a) (Candidate_EstimatedCost b)
  else f_gt (Candidate_Score a) (Candidate_Score b).

(** ** The router *)
Definition ptr : Set := positive.

(** [domain.DeploymentRepository], what routing reads of it. *)
Record Deployments : Type := mkDeployments {
  dep_ListByModel : string → string → result (list Deployment);
  dep_ListByModelVersion : string → result (list Deployment);
  dep_Get : string → result Deployment
}.

Section router.
Variable EqualFold : string → string → bool.
(** [sort.SliceStable]; what it does with incomparable scores is its own affair. *)
Variable sort_SliceStable : (RouteCandidate → RouteCandidate → bool) → list RouteCandidate → list RouteCandidate.
(** [fmt.Sprintf("%.6f", cost)]. *)
Variable format_cost : float64 → string.
Context {S : Type} `{Admission.Store S}.
Context {R : Type} `{PricingPolicyRepository R}.

Record RouterState : Type := mkRouter {
  r_models : result (list Model);                                 (** [r.models.List] *)
  r_decisions : option (RouteDecision → result RouteDecision);    (** [r.decisions.Create] *)
  r_admission : option S;
  r_now : Time
}.

(** The three global maps from routers to what is bound to them. *)
Record Bindings : Type := mkBindings {
  b_deployments : gmap ptr Deployments;
  b_versions : gmap ptr (result (list ModelVersion));
  b_pricing : gmap ptr R
}.

(** [With..(repo)]: a nil repository removes the binding. *)
Definition bind_repo {A} (r : ptr) (repo : option A) (m : gmap ptr A) : gmap ptr A :=
  match repo with None => delete r m | Some repo => <[r := repo]> m end.
Definition WithDeployments (r : ptr) (repo : option Deployments) (b : Bindings) : Bindings :=
  mkBindings (bind_repo r repo (b_deployments b)) (b_versions b) (b_pricing b).
Definition WithModelVersions (r : ptr) (repo : option (result (list ModelVersion))) (b : Bindings) : Bindings :=
  mkBindings (b_deployments b) (bind_repo r repo (b_versions b)) (b_pricing b).
Definition WithPricingPolicies (r : ptr) (repo : option R) (b : Bindings) : Bindings :=
  mkBindings (b_deployments b) (b_versions b) (bind_repo r repo (b_pricing b)).

Definition containsFold (items : list string) (target : string) : bool :=
  existsb (λ item, EqualFold item target) items.
Definition containsEffort (items : list InferenceEffort) (target : InferenceEffort) : bool :=
  existsb (λ item, item ==? target) items.
Definition containsTier (items : list ServiceTier) (target : ServiceTier) : bool :=
  existsb (λ item, item ==? target) items.
Definition hasSpecialistCapability (available required : list string) : bool :=
  existsb (λ c, containsFold available c) required.

Definition score (model : Model) (req : RouteRequest) (estimatedCost : float64) : float64 :=
  let s := f_int 50 in
  let s := match Model_Health model with
           | HealthHealthy => f_add s (f_int 20)
           | HealthDegraded => f_add s (f_int 5)
           | _ => s
           end in
  let s := if (0 <? Model_CapacityAvailable model)%Z then f_add s (f_int 10) else s in
  let s := if (0 <? Model_P95LatencyMS model)%Z
           then f_sub s (f_div (f_int (Model_P95LatencyMS model)) (f_int 1000)) else s in
  let s := f_sub s estimatedCost in
  if (Req_RouteClass req ==? RouteSpecialist)
     && hasSpecialistCapability (Model_Capabilities model) (Req_RequiredCapabilities req)
  then f_add s (f_int 15) else s.

Definition lifecycle_unroutable (model : Model) (req : RouteRequest) : bool :=
  (Model_Lifecycle model !=? ModelActive)
  && negb (Req_AllowDegraded req && (Model_Lifecycle model ==? ModelDegraded)).

Definition missing_capabilities (model : Model) (req : RouteRequest) : list string :=
  concat (map (λ c, when (negb (containsFold (Model_Capabilities model) c)) ("missing capability: " +:+ c))
            (Req_RequiredCapabilities req)).

(** [req.DataResidency != "" && d != "" && !strings.EqualFold(..)]. *)
Definition wrong_residency (req : RouteRequest) (d : string) : bool :=
  (Req_DataResidency req !=? "") && (d !=? "") && negb (EqualFold (Req_DataResidency req) d).
Definition unsupported_effort (req : RouteRequest) (efforts : list InferenceEffort) : bool :=
  (Req_InferenceEffort req !=? EffortZero) && negb (Nat.eqb (length efforts) 0)
  && negb (containsEffort efforts (Req_InferenceEffort req)).
Definition unsupported_tier (req : RouteRequest) (tiers : list ServiceTier) : bool :=
  (Req_ServiceTier req !=? TierZero) && negb (Nat.eqb (length tiers) 0) && negb (containsTier tiers (Req_ServiceTier req)).
Definition over_budget (req : RouteRequest) (cost : float64) : bool :=
  f_gt (Req_Budget req) f_zero && f_gt cost (Req_Budget req).
Definition checked {A} (x : option A) : bool := match x with Some _ => true | None => false end.

Definition evaluate (model : Model) (req : RouteRequest) (now : Time) : RouteCandidate :=
  let cost := estimateCost (Model_Pricing model) (Req_EstimatedInputTokens req) (Req_EstimatedOutputTokens req) in
  mkRouteCandidate (Model_ID model) (Model_Version model) "" (Req_RouteClass req) (Req_InferenceEffort req)
    (Req_ServiceTier req) cost (score model req cost)
    (when (lifecycle_unroutable model req) "model lifecycle is not routable"
     ++ when (Model_ApprovalStatus model !=? ApprovalApproved) "model version is not approved"
     ++ when (Model_Health model ==? HealthUnhealthy) "model endpoint is unhealthy"
     ++ when (Req_RequireFreshSignals req && stale (Model_HealthCheckedAt model) now (Req_SignalMaxAge req))
          "runtime health and capacity signals are stale"
     ++ when (checked (Model_HealthCheckedAt model) && (Model_CapacityAvailable model =? 0)%Z)
          "model has no reported available capacity"
     ++ when (checked (Model_HealthCheckedAt model) && (Model_QuotaRemaining model =? 0)%Z)
          "provider quota is exhausted"
     ++ when (wrong_residency req (Model_DataResidency model)) "data-residency requirement is not satisfied"
     ++ missing_capabilities model req
     ++ when (unsupported_effort req (Model_InferenceEfforts model)) "requested inference effort is unsupported"
     ++ when (unsupported_tier req (Model_ServiceTiers model)) "requested service tier is unsupported"
     ++ when (over_budget req cost) "estimated model cost exceeds task budget").

(** [if r.admission != nil { .. }]: the reasons a disallowed model is given. *)
Definition with_admission (r : RouterState) (model : Model) (candidate : RouteCandidate) : result RouteCandidate :=
  match r_admission r with
  | None => Ok candidate
  | Some service =>
      d ← Admission.Check model service;
      Ok (if Admission.Allowed d then candidate else reject candidate (Admission.Reasons d))
  end.

Fixpoint decide_loop (r : RouterState) (req : RouteRequest) (now : Time) (models : list Model)
    : result (list RouteCandidate) :=
  match models with
  | [] => Ok []
  | model :: rest =>
      match with_admission r model (evaluate model req now) with
      | Err e => Err (Errorw "check model admission for %s: %w" [AStr (Model_ID model)] e)
      | Ok candidate => tail ← decide_loop r req now rest; Ok (candidate :: tail)
      end
  end.

Definition no_reasons (c : RouteCandidate) : bool := Nat.eqb (length (Candidate_RejectionReasons c)) 0.

Definition persist (r : RouterState) (decision : RouteDecision) : result RouteDecision :=
  match r_decisions r with None => Ok decision | Some create => create decision end.

Definition route_id (now : Time) : string := "route-" +:+ Itoa (UnixNano now).

Definition Decide (r : RouterState) (req : RouteRequest) : result RouteDecision :=
  if Req_TaskID req ==? "" then Err (Errorf "task ID is required" []) else
  let req := set_request req (or_class (Req_RouteClass req))
               (if Req_Currency req ==? "" then "USD" else Req_Currency req) (or_max_age (Req_SignalMaxAge req)) in
  let now := r_now r in
  if Req_RouteClass req ==? RouteDeterministic then
    persist r (mkRouteDecision (route_id now) (Req_TaskID req)
      (mkRouteCandidate "" "" "" RouteDeterministic EffortZero TierZero f_zero (f_int 100) []) []
      "task classified for deterministic execution without a model call" [] (Req_EvidenceVersion req)
      (Req_PolicyVersion req) now)
  else match r_models r with
  | Err e => Err (Errorw "list route models: %w" [] e)
  | Ok models =>
      candidates ← decide_loop r req now models;
      match sort_SliceStable better (List.filter no_reasons candidates) with
      | [] => Err (Errorf "no policy-compliant model capacity is available" [])
      | selected :: fallback =>
          persist r (mkRouteDecision (route_id now) (Req_TaskID req) selected candidates
            ("selected " +:+ Candidate_ModelID selected +:+ "@" +:+ Candidate_ModelVersion selected +:+
             " by capability, admission evidence, health, capacity and estimated task cost")
            fallback (Req_EvidenceVersion req) (Req_PolicyVersion req) now)
      end
  end.

(** ** Deployments *)

(** The profile of a deployment that has none of its own is the model's. *)
Definition deployment_pricing (model : Model) (deployment : Deployment) : PricingProfile :=
  let p := Deployment_Pricing deployment in
  if (Pricing_Currency p ==? "") && f_eq (Pricing_InputPerMillion p) f_zero && f_eq (Pricing_OutputPerMillion p) f_zero
     && f_eq (Pricing_CachedPerMillion p) f_zero && f_eq (Pricing_ServiceTierFactor p) f_zero
  then Model_Pricing model else p.

Definition deployment_score (d : Deployment) (cost : float64) : float64 :=
  let s := f_sub (f_int 50) cost in
  let s := if Deployment_Health d ==? HealthHealthy then f_add s (f_int 20) else s in
  let s := if (0 <? Deployment_CapacityAvailable d)%Z then f_add s (f_int 10) else s in
  if (0 <? Deployment_P95LatencyMS d)%Z then f_sub s (f_div (f_int (Deployment_P95LatencyMS d)) (f_int 1000)) else s.

Definition DeploymentCandidate (model : Model) (deployment : Deployment) (req : RouteRequest) (now : Time)
    : RouteCandidate :=
  let maxAge := if Req_RequireFreshSignals req then Req_SignalMaxAge req else 0%Z in
  let cost := estimateCost (deployment_pricing model deployment) (Req_EstimatedInputTokens req)
                (Req_EstimatedOutputTokens req) in
  mkRouteCandidate (Model_ID model) (Model_Version model) (Deployment_ID deployment) (Req_RouteClass req)
    (Req_InferenceEffort req) (Req_ServiceTier req) cost (deployment_score deployment cost)
    (when (lifecycle_unroutable model req) "model lifecycle is not routable"
     ++ when (Model_ApprovalStatus model !=? ApprovalApproved) "model version is not approved"
     ++ missing_capabilities model req
     ++ when (negb (IsRoutingEligible deployment now maxAge)) "deployment is not eligible"
     ++ when ((Deployment_Lifecycle deployment ==? DeploymentDegraded) && negb (Req_AllowDegraded req))
          "degraded deployment is not allowed"
     ++ when (checked (Deployment_HealthCheckedAt deployment) && (Deployment_CapacityAvailable deployment =? 0)%Z)
          "deployment has no available capacity"
     ++ when (checked (Deployment_HealthCheckedAt deployment) && (Deployment_QuotaRemaining deployment =? 0)%Z)
          "deployment quota is unavailable"
     ++ when (wrong_residency req (Deployment_DataResidency deployment)) "data residency does not match"
     ++ when (unsupported_effort req (Deployment_InferenceEfforts deployment)) "inference effort is unsupported"
     ++ when (unsupported_tier req (Deployment_ServiceTiers deployment)) "service tier is unsupported"
     ++ when (over_budget req cost) "estimated cost exceeds budget").

(** [domain.PricingUsageEstimate{..}] of a request. *)
Definition request_usage (req : RouteRequest) (region : string) : PricingUsageEstimate :=
  mkUsageEstimate (Req_EstimatedInputTokens req) (Req_EstimatedOutputTokens req) 0
    (add64 (Req_EstimatedInputTokens req) (Req_EstimatedOutputTokens req)) region
    (Req_ServiceTier req ==? TierBatch) false (Req_ServiceTier req) (Req_InferenceEffort req)
    f_zero f_zero f_zero f_zero f_zero.

(** The second result, the policy's reference, is dropped by the caller. *)
Definition quoteCandidate (repo : R) (candidate : RouteCandidate) (deployment : Deployment) (req : RouteRequest)
    (at_ : Time) : RouteCandidate :=
  if Candidate_DeploymentID candidate ==? "" then candidate
  else match pr_Resolve (Candidate_DeploymentID candidate) at_ repo with
  | Err _ => reject candidate ["effective pricing policy is unavailable"]
  | Ok policy =>
      match QuotePricing EqualFold policy (request_usage req (Deployment_Region deployment)) at_ with
      | Err _ => reject candidate ["pricing policy cannot quote requested workload"]
      | Ok quote =>
          let total := Quote_Total quote in
          candidate_with candidate total
            (f_add (Candidate_Score candidate) (f_sub (Candidate_EstimatedCost candidate) total))
            (Candidate_RejectionReasons candidate ++ when (over_budget req total) "estimated cost exceeds budget")
      end
  end.

Definition set_mode (m : Model) (mode : DeploymentMode) : Model := {|
  Model_ID := Model_ID m; Model_Name := Model_Name m; Model_Version := Model_Version m;
  Model_Provider := Model_Provider m; Model_Endpoint := Model_Endpoint m; Model_DeploymentMode := mode;
  Model_Lifecycle := Model_Lifecycle m; Model_Capabilities := Model_Capabilities m; Model_Pricing := Model_Pricing m;
  Model_Health := Model_Health m; Model_HealthCheckedAt := Model_HealthCheckedAt m;
  Model_P95LatencyMS := Model_P95LatencyMS m; Model_ErrorRate := Model_ErrorRate m;
  Model_QuotaRemaining := Model_QuotaRemaining m; Model_CapacityAvailable := Model_CapacityAvailable m;
  Model_QueueDepth := Model_QueueDepth m; Model_ServiceTiers := Model_ServiceTiers m;
  Model_InferenceEfforts := Model_InferenceEfforts m; Model_EvaluationVersion := Model_EvaluationVersion m;
  Model_License := Model_License m; Model_LicenseEvidence := Model_LicenseEvidence m;
  Model_Provenance := Model_Provenance m; Model_ArtifactDigest := Model_ArtifactDigest m;
  Model_ApprovalStatus := Model_ApprovalStatus m; Model_RiskLevel := Model_RiskLevel m;
  Model_DataResidency := Model_DataResidency m; Model_CreatedAt := Model_CreatedAt m; Model_UpdatedAt := Model_UpdatedAt m
|}.

(** One candidate: evaluated, priced by its policy, checked for admission. *)
Definition plan_candidate (r : RouterState) (pricing : option R) (req : RouteRequest) (now : Time) (model : Model)
    (item : Deployment) : result RouteCandidate :=
  let candidate := DeploymentCandidate model item req now in
  let candidate := match pricing with None => candidate | Some repo => quoteCandidate repo candidate item req now end in
  with_admission r (set_mode model (Deployment_Mode item)) candidate.

(** The deployments of a model: by version id, or by model and version. *)
Definition model_deployments (deployments : Deployments) (model : Model) : result (list Deployment) :=
  items ← dep_ListByModelVersion deployments (Model_ID model);
  if Nat.eqb (length items) 0 then dep_ListByModel deployments (Model_ID model) (Model_Version model) else Ok items.

Fixpoint plan_loop (r : RouterState) (pricing : option R) (req : RouteRequest) (now : Time) (deployments : Deployments)
    (models : list Model) : result (list RouteCandidate) :=
  match models with
  | [] => Ok []
  | model :: rest =>
      items ← model_deployments deployments model;
      candidates ← mapM (plan_candidate r pricing req now model) items;
      tail ← plan_loop r pricing req now deployments rest;
      Ok (candidates ++ tail)
  end.

Definition deployable (c : RouteCandidate) : bool := (Candidate_DeploymentID c !=? "") && no_reasons c.

Definition SelectDeploymentCandidate (items : list RouteCandidate) : result (RouteCandidate * list RouteCandidate) :=
  match sort_SliceStable better (List.filter deployable items) with
  | [] => Err (Errorf "no eligible deployment candidate" [])
  | selected :: fallback => Ok (selected, fallback)
  end.

Definition pricingEvidenceRef (pricing : option R) (deploymentID : string) (at_ : Time) : string :=
  match pricing with
  | None => ""
  | Some repo =>
      if deploymentID ==? "" then ""
      else match pr_Resolve deploymentID at_ repo with
      | Err _ => ""
      | Ok p => Policy_ID p +:+ "@" +:+ Policy_Version p
                +:+ (if Policy_Digest p ==? "" then "" else "#" +:+ Policy_Digest p)
      end
  end.

Definition without_decisions (r : RouterState) : RouterState :=
  mkRouter (r_models r) None (r_admission r) (r_now r).

(** [r.PlanWithDeployments] of the router at address [self]. *)
Definition PlanWithDeployments (b : Bindings) (self : ptr) (r : RouterState) (req : RouteRequest)
    (deployments : option Deployments) : result RouteDecision :=
  match deployments with
  | None => Decide (without_decisions r) req
  | Some deployments =>
      if Req_RouteClass req ==? RouteDeterministic then Decide (without_decisions r) req
      else if Req_TaskID req ==? "" then Err (Errorf "task ID is required" []) else
      let req := set_request req (or_class (Req_RouteClass req)) (Req_Currency req) (or_max_age (Req_SignalMaxAge req)) in
      let now := r_now r in
      models ← r_models r;
      let pricing := b_pricing b !! self in
      candidates ← plan_loop r pricing req now deployments models;
      sf ← SelectDeploymentCandidate candidates;
      let '(selected, fallback) := sf in
      let reason := "selected deployment " +:+ Candidate_DeploymentID selected +:+ " for " +:+
                    Candidate_ModelID selected +:+ "@" +:+ Candidate_ModelVersion selected in
      let ref := pricingEvidenceRef pricing (Candidate_DeploymentID selected) now in
      Ok (mkRouteDecision (route_id now) (Req_TaskID req) selected candidates
            (if ref ==? "" then reason
             else reason +:+ " using pricing policy " +:+ ref +:+ " with estimated task cost " +:+
                  format_cost (Candidate_EstimatedCost selected))
            fallback (Req_EvidenceVersion req) (Req_PolicyVersion req) now)
  end.

(** [r.Plan]: [planner] is the address of the local copy [planner := *r]. *)
Definition Plan (b : Bindings) (self : option (ptr * RouterState)) (planner : ptr) (req : RouteRequest)
    : result RouteDecision :=
  match self with
  | None => Err (Errorf "router is required" [])
  | Some (self, r) =>
      match b_deployments b !! self with
      | Some deployments =>
          match b_versions b !! self with
          | Some versions =>
              PlanWithDeployments b planner (mkRouter (adapter_List versions) None (r_admission r) (r_now r)) req
                (Some deployments)
          | None => PlanWithDeployments b self r req (Some deployments)
          end
      | None => Decide (without_decisions r) req
      end
  end.

(** ** The pricing evidence of a decision *)
Fixpoint evidence_loop (deployments : Deployments) (pricing : R) (decision : RouteDecision) (req : RouteRequest)
    (at_ : Time) (candidates : list RouteCandidate) : result (list RoutePricingEvidence) :=
  match candidates with
  | [] => Ok []
  | c :: rest =>
      let selected := Candidate_DeploymentID c ==? Candidate_DeploymentID (Decision_Selected decision) in
      let skip (format : string) (e : error) :=
        if selected then Err (Errorw format [] e)
        else evidence_loop deployments pricing decision req at_ rest in
      if (Candidate_DeploymentID c ==? "") || negb (no_reasons c)
      then evidence_loop deployments pricing decision req at_ rest
      else match dep_Get deployments (Candidate_DeploymentID c) with
      | Err e => skip "load selected deployment pricing evidence: %w" e
      | Ok deployment =>
          match pr_Resolve (Candidate_DeploymentID c) at_ pricing with
          | Err e => skip "resolve selected deployment pricing evidence: %w" e
          | Ok policy =>
              match QuotePricing EqualFold policy (request_usage req (Deployment_Region deployment)) at_ with
              | Err e => skip "quote selected deployment pricing evidence: %w" e
              | Ok quote =>
                  let item := mkRoutePricingEvidence (Decision_ID decision) (Candidate_DeploymentID c)
                                (Policy_ID policy) (Policy_Version policy) (Policy_Digest policy) quote selected at_ in
                  _ ← ValidateEvidence item;
                  tail ← evidence_loop deployments pricing decision req at_ rest;
                  Ok (item :: tail)
              end
          end
      end
  end.

Definition PricingEvidence (b : Bindings) (self : ptr) (decision : RouteDecision) (req : RouteRequest)
    : result (list RoutePricingEvidence) :=
  match b_deployments b !! self, b_pricing b !! self with
  | Some deployments, Some pricing =>
      if IsZero (Decision_CreatedAt decision)
      then Err (Errorf "route decision creation time is required for pricing replay evidence" [])
      else evidence_loop deployments pricing decision req (Decision_CreatedAt decision) (Decision_Candidates decision)
  | _, _ => Ok []
  end.

End router.
End Router.

(** * RouterSpec: what a routing decision guarantees

    Which models and deployments are eligible, stated apart from the router, and
    the theorems that its decisions list every candidate, pick only eligible
    ones and put the best first. *)

Module RouterSpec.
Import Domain RouteTypes Pricing Router.

(** ** The order of candidates *)
Definition comparable (c : RouteCandidate) : Prop :=
  is_nan (Candidate_Score c) = false ∧ is_nan (Candidate_EstimatedCost c) = false.

(** What [sort.SliceStable] promises: some order of its input and, where the
    comparison is an order, the stable one. *)
Class StableSort (sort : (RouteCandidate → RouteCandidate → bool) → list RouteCandidate → list RouteCandidate) : Prop := {
  sort_perm : ∀ less l, sort less l ≡ₚ l;
  sort_stable : ∀ less P l, weak_order less P → Forall P l → sort less l = SliceStable less l
}.

#[export] Instance SliceStable_StableSort : StableSort SliceStable.
Proof. split; [intros; apply SliceStable_Permutation|done]. Qed.

Lemma rank_lt_irrefl a : ¬ rank_lt a a.
Proof. unfold rank_lt. lia. Qed.
Lemma rank_lt_trans a b c : rank_lt a b → rank_lt b c → rank_lt a c.
Proof. unfold rank_lt. lia. Qed.
Lemma rank_lt_total a b : rank_lt a b ∨ a = b ∨ rank_lt b a.
Proof.
  destruct a as [[a1 a2] a3], b as [[b1 b2] b3]. unfold rank_lt. simpl.
  destruct (Z.lt_total a1 b1) as [|[->|]]; [tauto| |tauto].
  destruct (Z.lt_total a2 b2) as [|[->|]]; [tauto| |tauto].
  destruct (Z.lt_total a3 b3) as [|[->|]]; tauto.
Qed.

Lemma better_rank x y :
  comparable x → comparable y →
  better x y = true ↔
  rank_lt (rank (Candidate_Score y)) (rank (Candidate_Score x))
  ∨ (rank (Candidate_Score x) = rank (Candidate_Score y)
     ∧ rank_lt (rank (Candidate_EstimatedCost x)) (rank (Candidate_EstimatedCost y))).
Proof.
  intros [Hx1 Hx2] [Hy1 Hy2]. unfold better, f_gt. pose proof (f_eq_rank _ _ Hx1 Hy1) as He.
  destruct (f_eq _ _) eqn:E; rewrite f_lt_rank by done.
  - assert (rank (Candidate_Score x) = rank (Candidate_Score y)) as -> by by apply He.
    pose proof (rank_lt_irrefl (rank (Candidate_Score y))). tauto.
  - assert (rank (Candidate_Score x) ≠ rank (Candidate_Score y)) by (intros H; by apply He in H). tauto.
Qed.

Lemma better_order : weak_order better comparable.
Proof.
  split.
  - intros x y Hx Hy H. apply not_true_iff_false. rewrite better_rank in H |- * by done. intros H'.
    destruct H as [H|[E H]], H' as [H'|[E' H']]; try rewrite E in *; try rewrite E' in *;
      eapply rank_lt_irrefl; first [eassumption|eapply rank_lt_trans; eassumption].
  - intros x y z Hx Hy Hz H1 H2. apply not_true_iff_false in H1, H2. apply not_true_iff_false.
    rewrite better_rank in H1, H2 |- * by done.
    generalize dependent (rank (Candidate_Score x)). generalize dependent (rank (Candidate_Score y)).
    generalize dependent (rank (Candidate_Score z)). generalize dependent (rank (Candidate_EstimatedCost x)).
    generalize dependent (rank (Candidate_EstimatedCost y)). generalize dependent (rank (Candidate_EstimatedCost z)).
    intros cz cy cx sz sy H2 sx H1 H3.
    destruct (rank_lt_total sx sy) as [A|[->|A]]; [tauto| |].
    + destruct (rank_lt_total sy sz) as [B|[->|B]]; [tauto| |].
      * destruct H3 as [H3|[_ H3]]; [by apply rank_lt_irrefl in H3|].
        destruct (rank_lt_total cy cx) as [C|[->|C]]; [tauto| |]; [tauto|].
        apply H2. right. split; [done|]. by eapply rank_lt_trans.
      * destruct H3 as [H3|[-> _]]; eapply rank_lt_irrefl; [eapply rank_lt_trans; eassumption|eassumption].
    + destruct (rank_lt_total sy sz) as [B|[->|B]]; [tauto| |].
      * destruct H3 as [H3|[-> _]]; eapply rank_lt_irrefl; [eapply rank_lt_trans; eassumption|eassumption].
      * destruct H3 as [H3|[-> _]]; eapply rank_lt_irrefl; [|eapply rank_lt_trans; eassumption].
        eapply rank_lt_trans; [exact H3|]. by eapply rank_lt_trans.
Qed.

(** [a] is the better choice: a higher score or, with the same score, a lower cost. *)
Definition beats (a b : RouteCandidate) : Prop :=
  f_lt (Candidate_Score b) (Candidate_Score a) = true
  ∨ (f_eq (Candidate_Score a) (Candidate_Score b) = true
     ∧ f_lt (Candidate_EstimatedCost a) (Candidate_EstimatedCost b) = true).

Lemma better_beats a b : comparable a → comparable b → better a b = true ↔ beats a b.
Proof.
  intros Ha Hb. rewrite better_rank by done. destruct Ha as [Ha1 Ha2], Hb as [Hb1 Hb2]. unfold beats.
  rewrite f_eq_rank, !f_lt_rank by done. done.
Qed.

(** The head of a ranking is the earliest of the best; the rest follows in order. *)
Definition ranked (eligible : list RouteCandidate) (selected : RouteCandidate) (fallback : list RouteCandidate) : Prop :=
  selected :: fallback ≡ₚ eligible
  ∧ (Forall comparable eligible →
     (∃ before after, eligible = before ++ selected :: after
        ∧ Forall (beats selected) before ∧ Forall (λ c, ¬ beats c selected) after)
     ∧ StronglySorted (λ a b, ¬ beats b a) (selected :: fallback)).

Lemma StronglySorted_impl_Forall {A} (P : A → Prop) (Q Q' : A → A → Prop) l :
  (∀ a b, P a → P b → Q a b → Q' a b) → Forall P l → StronglySorted Q l → StronglySorted Q' l.
Proof.
  intros HQ Hl Hs. induction Hs as [|a l Hs IH Ha]; [constructor|]. apply Forall_cons in Hl as [Pa Hl].
  constructor; [by apply IH|]. rewrite Forall_forall in Ha, Hl |- *. eauto.
Qed.

Lemma sorted_ranked sort `{!StableSort sort} eligible selected fallback :
  sort better eligible = selected :: fallback → ranked eligible selected fallback.
Proof.
  intros H. pose proof (sort_perm better eligible) as Hp. rewrite H in Hp. split; [done|]. intros Hc.
  rewrite (sort_stable better comparable) in H by (done || apply better_order).
  assert (Forall comparable (selected :: fallback)) as Hc' by by rewrite Hp.
  pose proof (proj1 (Forall_cons _ _ _) Hc') as [Hsel _]. split.
  - destruct (SliceStable_head better comparable better_order _ _ _ Hc H) as (before & after & -> & Hb & Ha).
    exists before, after. apply Forall_app in Hc as [Hcb [_ Hca]%Forall_cons]. rewrite !Forall_forall in *.
    split_and!; [done|..]; intros c Hin.
    + apply better_beats; auto.
    + rewrite <- better_beats by auto. by rewrite Ha.
  - assert (StronglySorted (λ a b, better b a = false) (selected :: fallback)) as Hs.
    { rewrite <- H. by apply (SliceStable_sorted_on better comparable better_order). }
    revert Hs. apply (StronglySorted_impl_Forall comparable); [|done]. intros a b Ca Cb E. rewrite <- better_beats by done.
    by rewrite E.
Qed.

Lemma sort_nil sort `{!StableSort sort} less l : sort less l = [] ↔ l = [].
Proof.
  pose proof (sort_perm less l) as Hp. split; intros H; [rewrite H in Hp|].
  - symmetry in Hp. by apply Permutation_nil_r in Hp.
  - subst l. by apply Permutation_nil_r in Hp.
Qed.

(** ** Eligibility *)
Section spec.
Variable EqualFold : string → string → bool.
Context {S : Type} `{Admission.Store S}.
Context {R : Type} `{PricingPolicyRepository R}.

(** Requirements a model and a deployment have in common. *)
Definition lifecycle_routable (model : Model) (req : RouteRequest) : Prop :=
  Model_Lifecycle model = ModelActive ∨ (Req_AllowDegraded req = true ∧ Model_Lifecycle model = ModelDegraded).
Definition has_capabilities (model : Model) (req : RouteRequest) : Prop :=
  ∀ c, c ∈ Req_RequiredCapabilities req → ∃ c', c' ∈ Model_Capabilities model ∧ EqualFold c' c = true.
Definition residency_ok (req : RouteRequest) (d : string) : Prop :=
  Req_DataResidency req ≠ "" → d ≠ "" → EqualFold (Req_DataResidency req) d = true.
Definition effort_ok (req : RouteRequest) (efforts : list InferenceEffort) : Prop :=
  Req_InferenceEffort req ≠ EffortZero → efforts ≠ [] → Req_InferenceEffort req ∈ efforts.
Definition tier_ok (req : RouteRequest) (tiers : list ServiceTier) : Prop :=
  Req_ServiceTier req ≠ TierZero → tiers ≠ [] → Req_ServiceTier req ∈ tiers.
Definition within_budget (req : RouteRequest) (cost : float64) : Prop :=
  f_gt (Req_Budget req) f_zero = true → f_gt cost (Req_Budget req) = false.
Definition fresh (checkedAt : option Time) (now : Time) (maxAge : Duration) : Prop :=
  ∃ t, checkedAt = Some t ∧ (Sub now t ≤ maxAge)%Z.
Definition has_room (checkedAt : option Time) (capacity quota : Z) : Prop :=
  checkedAt ≠ None → capacity ≠ 0%Z ∧ quota ≠ 0%Z.

(** What the tokens of the request cost at a price list. *)
Definition token_cost (p : PricingProfile) (req : RouteRequest) : float64 :=
  f_mul (f_add (f_mul (f_div (f_int (Req_EstimatedInputTokens req)) (f_int 1000000)) (Pricing_InputPerMillion p))
               (f_mul (f_div (f_int (Req_EstimatedOutputTokens req)) (f_int 1000000)) (Pricing_OutputPerMillion p)))
    (if f_le (Pricing_ServiceTierFactor p) f_zero then f_int 1 else Pricing_ServiceTierFactor p).

(** A price list that says nothing. *)
Definition no_prices (p : PricingProfile) : Prop :=
  Pricing_Currency p = "" ∧ f_eq (Pricing_InputPerMillion p) f_zero = true ∧ f_eq (Pricing_OutputPerMillion p) f_zero = true
  ∧ f_eq (Pricing_CachedPerMillion p) f_zero = true ∧ f_eq (Pricing_ServiceTierFactor p) f_zero = true.

(** What a deployment costs by its own price list, or the model's if it has none. *)
Definition list_cost (m : Model) (d : Deployment) (req : RouteRequest) (cost : float64) : Prop :=
  (no_prices (Deployment_Pricing d) ∧ cost = token_cost (Model_Pricing m) req)
  ∨ (¬ no_prices (Deployment_Pricing d) ∧ cost = token_cost (Deployment_Pricing d) req).

(** The merits of a deployment of that cost. *)
Definition merits (d : Deployment) (cost : float64) : float64 :=
  let s := f_sub (f_int 50) cost in
  let s := match Deployment_Health d with HealthHealthy => f_add s (f_int 20) | _ => s end in
  let s := if (0 <? Deployment_CapacityAvailable d)%Z then f_add s (f_int 10) else s in
  if (0 <? Deployment_P95LatencyMS d)%Z then f_sub s (f_div (f_int (Deployment_P95LatencyMS d)) (f_int 1000)) else s.

Definition routable (model : Model) (req : RouteRequest) (now : Time) : Prop :=
  lifecycle_routable model req ∧ Model_ApprovalStatus model = ApprovalApproved ∧ Model_Health model ≠ HealthUnhealthy
  ∧ (Req_RequireFreshSignals req = true → fresh (Model_HealthCheckedAt model) now (Req_SignalMaxAge req))
  ∧ has_room (Model_HealthCheckedAt model) (Model_CapacityAvailable model) (Model_QuotaRemaining model)
  ∧ residency_ok req (Model_DataResidency model) ∧ has_capabilities model req
  ∧ effort_ok req (Model_InferenceEfforts model) ∧ tier_ok req (Model_ServiceTiers model)
  ∧ within_budget req (token_cost (Model_Pricing model) req).

Definition deployment_routable (model : Model) (d : Deployment) (req : RouteRequest) (now : Time) : Prop :=
  lifecycle_routable model req ∧ Model_ApprovalStatus model = ApprovalApproved ∧ has_capabilities model req
  ∧ Deployment_RoutingEligible d = true
  ∧ (Deployment_Lifecycle d = DeploymentReady ∨ (Deployment_Lifecycle d = DeploymentDegraded ∧ Req_AllowDegraded req = true))
  ∧ Deployment_Health d ≠ HealthUnhealthy
  ∧ (Req_RequireFreshSignals req = true → fresh (Deployment_HealthCheckedAt d) now (Req_SignalMaxAge req))
  ∧ has_room (Deployment_HealthCheckedAt d) (Deployment_CapacityAvailable d) (Deployment_QuotaRemaining d)
  ∧ residency_ok req (Deployment_DataResidency d)
  ∧ effort_ok req (Deployment_InferenceEfforts d) ∧ tier_ok req (Deployment_ServiceTiers d)
  ∧ ∃ cost, list_cost model d req cost ∧ within_budget req cost.

Lemma deployment_list_cost m d req cost :
  list_cost m d req cost ↔
  cost = estimateCost (deployment_pricing m d) (Req_EstimatedInputTokens req) (Req_EstimatedOutputTokens req).
Proof.
  unfold list_cost, deployment_pricing. match goal with |- context [if ?b then _ else _] => destruct b eqn:E end.
  - rewrite !andb_true_iff, bool_decide_eq_true in E. unfold no_prices. split; [|left; split; [tauto|done]].
    intros [[_ ->]|[Hn _]]; [done|]. exfalso. apply Hn. tauto.
  - assert (¬ no_prices (Deployment_Pricing d)) as Hn.
    { intros (H1 & H2 & H3 & H4 & H5). rewrite H2, H3, H4, H5, bool_decide_eq_true_2 in E by done. done. }
    split; [|by right]. intros [[Hy _]|[_ ->]]; [done|done].
Qed.

Lemma within_list_cost m d req :
  (∃ cost, list_cost m d req cost ∧ within_budget req cost) ↔
  within_budget req (estimateCost (deployment_pricing m d) (Req_EstimatedInputTokens req) (Req_EstimatedOutputTokens req)).
Proof. setoid_rewrite deployment_list_cost. naive_solver. Qed.

Lemma merits_score d cost : deployment_score d cost = merits d cost.
Proof. unfold deployment_score, merits. by destruct (Deployment_Health d). Qed.

Lemma when_nil b reason : when b reason = [] ↔ b = false.
Proof. by destruct b. Qed.

Lemma lifecycle_unroutable_false model req : lifecycle_unroutable model req = false ↔ lifecycle_routable model req.
Proof.
  unfold lifecycle_unroutable, lifecycle_routable. destruct (Req_AllowDegraded req); repeat case_bool_decide; naive_solver.
Qed.

Lemma missing_capabilities_nil model req : missing_capabilities EqualFold model req = [] ↔ has_capabilities model req.
Proof.
  unfold missing_capabilities, has_capabilities. induction (Req_RequiredCapabilities req) as [|c cs IH]; simpl.
  - split; [|done]. intros _ c Hc. by apply not_elem_of_nil in Hc.
  - rewrite app_nil, IH, when_nil, negb_false_iff. unfold containsFold. rewrite existsb_exists. split.
    + intros [(c' & Hin & Hf) Hcs] c0 [->|Hc0]%elem_of_cons; [exists c'; by rewrite list_elem_of_In|by apply Hcs].
    + intros Hall. split; [|set_solver]. destruct (Hall c) as (c' & Hin & Hf); [set_solver|].
      exists c'. by rewrite <- list_elem_of_In.
Qed.

Lemma wrong_residency_false req d : wrong_residency EqualFold req d = false ↔ residency_ok req d.
Proof.
  unfold wrong_residency, residency_ok. destruct (EqualFold _ _); repeat case_bool_decide; simpl; naive_solver.
Qed.

Lemma existsb_eq {A} `{EqDecision A} (x : A) l : existsb (λ y, y ==? x) l = true ↔ x ∈ l.
Proof.
  rewrite existsb_exists. split; [|intros Hx; exists x; rewrite <- list_elem_of_In; by case_bool_decide].
  intros (y & Hy & E). apply bool_decide_eq_true in E as ->. by apply list_elem_of_In.
Qed.

Lemma supported_iff {A} `{EqDecision A} (x zero : A) l :
  (x !=? zero) && negb (Nat.eqb (length l) 0) && negb (existsb (λ y, y ==? x) l) = false
  ↔ (x ≠ zero → l ≠ [] → x ∈ l).
Proof.
  destruct (existsb _ l) eqn:E; [apply existsb_eq in E|apply not_true_iff_false in E; rewrite existsb_eq in E];
    case_bool_decide; destruct l; simpl; naive_solver.
Qed.

Lemma over_budget_false req cost : over_budget req cost = false ↔ within_budget req cost.
Proof. unfold over_budget, within_budget. destruct (f_gt (Req_Budget req) _), (f_gt cost _); naive_solver. Qed.

Lemma stale_false c now maxAge : stale c now maxAge = false ↔ fresh c now maxAge.
Proof.
  unfold stale, fresh. destruct c as [t|]; [|naive_solver]. rewrite Z.ltb_ge. naive_solver.
Qed.

Lemma fresh_needed b c now maxAge : b && stale c now maxAge = false ↔ (b = true → fresh c now maxAge).
Proof. rewrite <- stale_false. destruct b; simpl; naive_solver. Qed.

Lemma has_room_iff c capacity quota :
  has_room c capacity quota ↔ checked c && (capacity =? 0)%Z = false ∧ checked c && (quota =? 0)%Z = false.
Proof.
  unfold has_room. destruct c; simpl; [|naive_solver]. rewrite !Z.eqb_neq. split; [auto|done].
Qed.

Lemma no_reasons_nil c : no_reasons c = true ↔ Candidate_RejectionReasons c = [].
Proof. unfold no_reasons. destruct (Candidate_RejectionReasons c); simpl; split; congruence. Qed.

Lemma evaluate_routable model req now : no_reasons (evaluate EqualFold model req now) = true ↔ routable model req now.
Proof.
  rewrite no_reasons_nil. unfold routable. cbn [evaluate Candidate_RejectionReasons].
  rewrite !app_nil, !when_nil, lifecycle_unroutable_false, missing_capabilities_nil, wrong_residency_false,
    over_budget_false, fresh_needed, has_room_iff.
  unfold unsupported_effort, unsupported_tier. rewrite !supported_iff. unfold effort_ok, tier_ok.
  rewrite bool_decide_eq_false, negb_false_iff, bool_decide_eq_true. tauto.
Qed.

Lemma fresh_deployment req c now :
  (0 < Req_SignalMaxAge req)%Z →
  let maxAge := if Req_RequireFreshSignals req then Req_SignalMaxAge req else 0%Z in
  (0 <? maxAge)%Z && stale c now maxAge = false
  ↔ (Req_RequireFreshSignals req = true → fresh c now (Req_SignalMaxAge req)).
Proof.
  intros Hpos maxAge. subst maxAge. rewrite <- stale_false. destruct (Req_RequireFreshSignals req); simpl; [|naive_solver].
  destruct (Z.ltb_spec 0 (Req_SignalMaxAge req)); [|lia]. simpl. naive_solver.
Qed.

Lemma IsRoutingEligible_true d now maxAge :
  IsRoutingEligible d now maxAge = true ↔
  Deployment_RoutingEligible d = true
  ∧ (Deployment_Lifecycle d = DeploymentReady ∨ Deployment_Lifecycle d = DeploymentDegraded)
  ∧ Deployment_Health d ≠ HealthUnhealthy ∧ (0 <? maxAge)%Z && stale (Deployment_HealthCheckedAt d) now maxAge = false.
Proof.
  unfold IsRoutingEligible. destruct (Deployment_RoutingEligible d), ((0 <? maxAge)%Z && _);
    repeat case_bool_decide; simpl; naive_solver.
Qed.

Lemma DeploymentCandidate_routable model d req now :
  (0 < Req_SignalMaxAge req)%Z →
  no_reasons (DeploymentCandidate EqualFold model d req now) = true ↔ deployment_routable model d req now.
Proof.
  intros Hpos. rewrite no_reasons_nil. unfold deployment_routable. rewrite within_list_cost.
  cbn [DeploymentCandidate Candidate_RejectionReasons].
  rewrite !app_nil, !when_nil, lifecycle_unroutable_false, missing_capabilities_nil, wrong_residency_false,
    over_budget_false, has_room_iff.
  unfold unsupported_effort, unsupported_tier. rewrite !supported_iff. unfold effort_ok, tier_ok.
  rewrite !negb_false_iff, bool_decide_eq_true, IsRoutingEligible_true, fresh_deployment by done.
  assert ((Deployment_Lifecycle d ==? DeploymentDegraded) && negb (Req_AllowDegraded req) = false
          ↔ (Deployment_Lifecycle d = DeploymentDegraded → Req_AllowDegraded req = true)) as ->
    by (destruct (Req_AllowDegraded req); case_bool_decide; naive_solver).
  assert (((Deployment_Lifecycle d = DeploymentReady ∨ Deployment_Lifecycle d = DeploymentDegraded)
           ∧ (Deployment_Lifecycle d = DeploymentDegraded → Req_AllowDegraded req = true))
          ↔ (Deployment_Lifecycle d = DeploymentReady
             ∨ (Deployment_Lifecycle d = DeploymentDegraded ∧ Req_AllowDegraded req = true))) as Hlife
    by (destruct (Deployment_Lifecycle d); naive_solver).
  generalize dependent (Deployment_Lifecycle d). intros l Hlife. tauto.
Qed.

(** ** Admission *)

(** The admission service, where there is one, allows the model. *)
Definition admitted (r : RouterState) (model : Model) : Prop :=
  match r_admission r with
  | None => True
  | Some service => ∃ d, Admission.Check model service = Ok d ∧ Admission.Allowed d = true
  end.
Definition admission_answers (r : RouterState) (model : Model) : Prop :=
  match r_admission r with None => True | Some service => ∃ d, Admission.Check model service = Ok d end.

(** The model is admitted in the mode of the deployment: admission looks at its
    identity, its approval and the mode. *)
Definition admitted_as (r : RouterState) (model : Model) (mode : DeploymentMode) : Prop :=
  ∃ m, (Model_ID m, Model_Version m, Model_ApprovalStatus m, Model_DeploymentMode m)
       = (Model_ID model, Model_Version model, Model_ApprovalStatus model, mode)
  ∧ admitted r m.

Lemma check_loop_mode m m' records :
  Model_DeploymentMode m = Model_DeploymentMode m' → Admission.check_loop m records = Admission.check_loop m' records.
Proof.
  intros E. induction records as [|e records IH]; simpl; [done|]. rewrite IH. unfold Admission.validateEvidence. by rewrite E.
Qed.

Lemma Check_ext m m' (service : S) :
  (Model_ID m, Model_Version m, Model_ApprovalStatus m, Model_DeploymentMode m)
  = (Model_ID m', Model_Version m', Model_ApprovalStatus m', Model_DeploymentMode m') →
  Admission.Check m service = Admission.Check m' service.
Proof.
  intros [= E1 E2 E3 E4]. unfold Admission.Check. rewrite E1, E2, E3. case_match; [done|]. destruct (Admission.ListByModel _ _ _); [|done].
  simpl. by rewrite (check_loop_mode m m').
Qed.

Lemma admitted_set_mode r m mode : admitted r (set_mode m mode) ↔ admitted_as r m mode.
Proof.
  unfold admitted_as. split; [by exists (set_mode m mode)|]. intros (m' & E & Ha). unfold admitted in *.
  destruct (r_admission r) as [service|]; [|done]. by rewrite (Check_ext (set_mode m mode) m').
Qed.

Lemma check_loop_reasons model records :
  Admission.Allowed (Admission.check_loop model records) = false → Admission.Reasons (Admission.check_loop model records) ≠ [].
Proof.
  induction records as [|e records IH]; simpl; [done|]. case_bool_decide; [done|]. destruct (negb _ && negb _); [done|].
  simpl. by destruct (Admission.validateEvidence model e).
Qed.

Lemma Check_reasons model (service : S) d :
  Admission.Check model service = Ok d → Admission.Allowed d = false → Admission.Reasons d ≠ [].
Proof.
  unfold Admission.Check. case_bool_decide; simpl; [|by intros [= <-]]. destruct (Admission.ListByModel _ _ _); [|done].
  intros [= <-]. apply check_loop_reasons.
Qed.

(** Two candidates that differ at most in what rejected them. *)
Definition same_candidate (c c' : RouteCandidate) : Prop :=
  candidate_with c (Candidate_EstimatedCost c) (Candidate_Score c) []
  = candidate_with c' (Candidate_EstimatedCost c') (Candidate_Score c') [].

Lemma no_reasons_reject c reasons :
  reasons ≠ [] → no_reasons (reject c reasons) = false.
Proof.
  intros Hr. apply not_true_iff_false. rewrite no_reasons_nil. simpl. rewrite app_nil. tauto.
Qed.

Lemma with_admission_cases r model c :
  match with_admission r model c with
  | Ok c' => same_candidate c c' ∧ (no_reasons c' = true ↔ no_reasons c = true ∧ admitted r model)
  | Err _ => ¬ admission_answers r model
  end.
Proof.
  unfold with_admission, admitted, admission_answers. destruct (r_admission r) as [service|]; [|naive_solver].
  destruct (Admission.Check model service) as [d|] eqn:Hd; simpl; [|naive_solver].
  destruct (Admission.Allowed d) eqn:Ha; [naive_solver|]. split; [done|].
  rewrite no_reasons_reject by by eapply Check_reasons. naive_solver.
Qed.

(** ** Models *)

(** [c] is the router's verdict on [model]. *)
Definition judged (r : RouterState) (req : RouteRequest) (now : Time) (model : Model) (c : RouteCandidate) : Prop :=
  same_candidate (evaluate EqualFold model req now) c
  ∧ (no_reasons c = true ↔ routable model req now ∧ admitted r model).

Lemma decide_loop_cases r req now models :
  match decide_loop EqualFold r req now models with
  | Ok cs => Forall2 (judged r req now) models cs
  | Err _ => ∃ m, m ∈ models ∧ ¬ admission_answers r m
  end.
Proof.
  induction models as [|m models IH]; simpl; [constructor|].
  pose proof (with_admission_cases r m (evaluate EqualFold m req now)) as Hm.
  destruct (with_admission r m _) as [c|e]; [|exists m; set_solver].
  destruct (decide_loop _ _ _ _ models) as [cs|e]; simpl; [|destruct IH as (m' & ? & ?); exists m'; set_solver].
  constructor; [|done]. destruct Hm as [? Hm]. split; [done|]. by rewrite Hm, evaluate_routable.
Qed.

(** ** Deployments *)

(** What the policy in force quotes for the request at a deployment. *)
Definition policy_quote (repo : R) (d : Deployment) (req : RouteRequest) (now : Time) (q : PricingQuote) : Prop :=
  ∃ policy, pr_Resolve (Deployment_ID d) now repo = Ok policy
  ∧ QuotePricing EqualFold policy
      {| Usage_InputTokens := Req_EstimatedInputTokens req; Usage_OutputTokens := Req_EstimatedOutputTokens req;
         Usage_CacheHitInputTokens := 0;
         Usage_ContextTokens := add64 (Req_EstimatedInputTokens req) (Req_EstimatedOutputTokens req);
         Usage_Region := Deployment_Region d; Usage_Batch := bool_decide (Req_ServiceTier req = TierBatch);
         Usage_Async := false; Usage_ServiceTier := Req_ServiceTier req;
         Usage_InferenceEffort := Req_InferenceEffort req; Usage_CapacityUnits := f_zero; Usage_GPUHours := f_zero;
         Usage_CPUCoreHours := f_zero; Usage_MemoryGBHours := f_zero; Usage_StorageGBHours := f_zero |} now = Ok q.

(** With a policy store, the price of a deployment must be quoted and within budget. *)
Definition priced (pricing : option R) (d : Deployment) (req : RouteRequest) (now : Time) : Prop :=
  match pricing with
  | None => True
  | Some repo => ∃ q, policy_quote repo d req now q ∧ within_budget req (Quote_Total q)
  end.

(** The cost and the score of a candidate.  Without a quote they are by the price
    list; with one, the cost is the quote's total and the score changes by the
    difference. *)
Definition valued (pricing : option R) (m : Model) (d : Deployment) (req : RouteRequest) (now : Time) (cost score : float64) : Prop :=
  ∃ estimate, list_cost m d req estimate
  ∧ match pricing with
    | Some repo =>
        (∃ q, policy_quote repo d req now q ∧ cost = Quote_Total q
              ∧ score = f_add (merits d estimate) (f_sub estimate (Quote_Total q)))
        ∨ ((∀ q, ¬ policy_quote repo d req now q) ∧ cost = estimate ∧ score = merits d estimate)
    | None => cost = estimate ∧ score = merits d estimate
    end.

(** [c] is the router's verdict on deployment [md.2] of model [md.1]. *)
Definition judged_deployment (r : RouterState) (pricing : option R) (req : RouteRequest) (now : Time)
    (md : Model * Deployment) (c : RouteCandidate) : Prop :=
  (Candidate_ModelID c, Candidate_ModelVersion c, Candidate_DeploymentID c)
  = (Model_ID md.1, Model_Version md.1, Deployment_ID md.2)
  ∧ (Deployment_ID md.2 ≠ "" →
     valued pricing md.1 md.2 req now (Candidate_EstimatedCost c) (Candidate_Score c)
     ∧ (Candidate_RejectionReasons c = [] ↔ deployment_routable md.1 md.2 req now ∧ priced pricing md.2 req now
                              ∧ admitted_as r md.1 (Deployment_Mode md.2))).

Lemma quoteCandidate_cases repo m d req now :
  Deployment_ID d ≠ "" →
  let c := DeploymentCandidate EqualFold m d req now in
  let c' := quoteCandidate EqualFold repo c d req now in
  valued (Some repo) m d req now (Candidate_EstimatedCost c') (Candidate_Score c')
  ∧ (no_reasons c' = true ↔ no_reasons c = true ∧ priced (Some repo) d req now).
Proof.
  intros Hne c c'. set (estimate := estimateCost (deployment_pricing m d) (Req_EstimatedInputTokens req) (Req_EstimatedOutputTokens req)).
  assert (list_cost m d req estimate) as He by by apply deployment_list_cost.
  assert (Candidate_EstimatedCost c = estimate ∧ Candidate_Score c = merits d estimate) as [Hc Hsc]
    by (split; [done|apply merits_score]).
  unfold valued, priced, policy_quote. subst c'. unfold quoteCandidate. change (Candidate_DeploymentID c) with (Deployment_ID d).
  rewrite (bool_decide_eq_false_2 (Deployment_ID d = "")) by done.
  destruct (pr_Resolve (Deployment_ID d) now repo) as [policy|e] eqn:Hp; simpl.
  2: { rewrite no_reasons_reject by done. split; [|naive_solver]. exists estimate. split; [done|]. right. naive_solver. }
  destruct (QuotePricing EqualFold policy (request_usage req (Deployment_Region d)) now) as [q|e] eqn:Hq; simpl.
  2: { rewrite no_reasons_reject by done. unfold request_usage in Hq.
       split; [|split; [done|]; intros [_ (q & (policy' & [= <-] & Hq') & _)]; congruence]. exists estimate. split; [done|].
       right. split; [|done]. intros q (policy' & [= <-] & Hq'). congruence. }
  unfold request_usage in Hq. split.
  - exists estimate. split; [done|]. left. exists q. split; [by exists policy|]. rewrite <- Hsc, <- Hc. done.
  - rewrite !no_reasons_nil. cbn [candidate_with Candidate_RejectionReasons].
    rewrite app_nil, when_nil, over_budget_false. split.
    + intros [N1 N2]. split; [done|]. exists q. split; [by exists policy|done].
    + intros [N1 (q' & (policy' & [= <-] & Hq') & N2)]. split; [done|]. assert (q' = q) as <- by congruence. done.
Qed.

Lemma same_candidate_ids c c' :
  same_candidate c c' →
  (Candidate_ModelID c, Candidate_ModelVersion c, Candidate_DeploymentID c, Candidate_EstimatedCost c, Candidate_Score c)
  = (Candidate_ModelID c', Candidate_ModelVersion c', Candidate_DeploymentID c', Candidate_EstimatedCost c', Candidate_Score c').
Proof. unfold same_candidate, candidate_with. congruence. Qed.

Lemma quoteCandidate_ids repo c d req now :
  let c' := quoteCandidate EqualFold repo c d req now in
  (Candidate_ModelID c', Candidate_ModelVersion c', Candidate_DeploymentID c')
  = (Candidate_ModelID c, Candidate_ModelVersion c, Candidate_DeploymentID c).
Proof.
  unfold quoteCandidate. case_bool_decide; [done|]. destruct (pr_Resolve _ _ _); [|done]. by destruct (QuotePricing _ _ _ _).
Qed.

Lemma plan_candidate_cases r pricing req now m d :
  (0 < Req_SignalMaxAge req)%Z →
  match plan_candidate EqualFold r pricing req now m d with
  | Ok c => judged_deployment r pricing req now (m, d) c
  | Err _ => ¬ admission_answers r (set_mode m (Deployment_Mode d))
  end.
Proof.
  intros Hpos. unfold plan_candidate.
  set (c0 := match pricing with None => _ | Some _ => _ end).
  pose proof (with_admission_cases r (set_mode m (Deployment_Mode d)) c0) as Ha.
  destruct (with_admission r _ c0) as [c|e]; [|done]. destruct Ha as [Hs Hn]. apply same_candidate_ids in Hs.
  injection Hs as H1 H2 H3 H4 H5.
  assert ((Candidate_ModelID c0, Candidate_ModelVersion c0, Candidate_DeploymentID c0)
          = (Model_ID m, Model_Version m, Deployment_ID d)) as Hids
    by (subst c0; destruct pricing; [by rewrite quoteCandidate_ids|done]).
  injection Hids as I1 I2 I3. split; [simpl; congruence|]. intros Hne. simpl in Hne |- *.
  rewrite <- no_reasons_nil, Hn, <- H4, <- H5, admitted_set_mode. subst c0. destruct pricing as [repo|]; simpl.
  - destruct (quoteCandidate_cases repo m d req now Hne) as [Hcost Hq].
    split; [exact Hcost|]. rewrite Hq, DeploymentCandidate_routable by done. simpl. tauto.
  - split; [|rewrite DeploymentCandidate_routable by done; tauto]. exists (Candidate_EstimatedCost (DeploymentCandidate EqualFold m d req now)).
    split; [by apply deployment_list_cost|]. split; [done|apply merits_score].
Qed.

Lemma plan_candidates_cases r pricing req now m ds :
  (0 < Req_SignalMaxAge req)%Z →
  match mapM (plan_candidate EqualFold r pricing req now m) ds with
  | Ok cs => Forall2 (judged_deployment r pricing req now) (pair m <$> ds) cs
  | Err _ => ∃ d, d ∈ ds ∧ ¬ admission_answers r (set_mode m (Deployment_Mode d))
  end.
Proof.
  intros Hpos. induction ds as [|d ds IH]; simpl; [constructor|].
  pose proof (plan_candidate_cases r pricing req now m d Hpos) as Hd.
  destruct (plan_candidate _ _ _ _ _ _ _) as [c|e]; simpl; [|exists d; set_solver].
  destruct (mapM _ ds) as [cs|e]; simpl; [by constructor|]. destruct IH as (d' & ? & ?). exists d'. set_solver.
Qed.

(** The deployments of a model version by its id or, if there are none, by the
    model and its version. *)
Definition deployments_of (deployments : Deployments) (m : Model) (ds : list Deployment) : Prop :=
  (dep_ListByModelVersion deployments (Model_ID m) = Ok ds ∧ ds ≠ [])
  ∨ (dep_ListByModelVersion deployments (Model_ID m) = Ok [] ∧ dep_ListByModel deployments (Model_ID m) (Model_Version m) = Ok ds).

Lemma model_deployments_of deployments m ds : model_deployments deployments m = Ok ds → deployments_of deployments m ds.
Proof.
  unfold model_deployments, deployments_of. destruct (dep_ListByModelVersion _ _) as [[|d l]|e]; simpl; [by right| |done].
  intros [= <-]. by left.
Qed.

(** The deployments the repository lists for each model, in order. *)
Definition listed (deployments : Deployments) (models : list Model) (pairs : list (Model * Deployment)) : Prop :=
  ∃ items, Forall2 (deployments_of deployments) models items
  ∧ pairs = concat (zip_with (λ m ds, pair m <$> ds) models items).

Lemma plan_loop_cases r pricing req now deployments models :
  (0 < Req_SignalMaxAge req)%Z →
  match plan_loop EqualFold r pricing req now deployments models with
  | Ok cs => ∃ pairs, listed deployments models pairs ∧ Forall2 (judged_deployment r pricing req now) pairs cs
  | Err _ => (∃ m e, m ∈ models ∧ model_deployments deployments m = Err e)
      ∨ ∃ m ds d, m ∈ models ∧ model_deployments deployments m = Ok ds ∧ d ∈ ds
                  ∧ ¬ admission_answers r (set_mode m (Deployment_Mode d))
  end.
Proof.
  intros Hpos. induction models as [|m models IH]; simpl.
  { exists []. split; [exists []; split; [constructor|done]|constructor]. }
  destruct (model_deployments deployments m) as [ds|e] eqn:Hm; simpl; [|left; exists m, e; set_solver].
  pose proof (plan_candidates_cases r pricing req now m ds Hpos) as Hds.
  destruct (mapM _ ds) as [cs|e]; simpl; [|destruct Hds as (d & ? & ?); right; exists m, ds, d; set_solver].
  destruct (plan_loop _ _ _ _ _ _ models) as [tail|e]; simpl.
  - destruct IH as (pairs & (items & Hi & ->) & Ht). eexists.
    split; [exists (ds :: items); split; [by constructor; [apply model_deployments_of|]|done]|].
    simpl. by apply Forall2_app.
  - destruct IH as [(m' & e' & ? & ?)|(m' & ds' & d & ? & ?)]; [left; exists m', e'|right; exists m', ds', d]; set_solver.
Qed.

(** ** Decisions *)
Variable sort_SliceStable : (RouteCandidate → RouteCandidate → bool) → list RouteCandidate → list RouteCandidate.
Context `{!StableSort sort_SliceStable}.
Variable format_cost : float64 → string.

(** The request with its defaults. *)
Definition defaults (req : RouteRequest) (currency : string) : RouteRequest :=
  mkRouteRequest (Req_TaskID req) (match Req_RouteClass req with RouteClassOther "" => RouteEfficient | class => class end)
    (Req_RequiredCapabilities req) (Req_InferenceEffort req) (Req_ServiceTier req) (Req_EstimatedInputTokens req)
    (Req_EstimatedOutputTokens req) (Req_Budget req) currency (Req_DataResidency req) (Req_EvidenceVersion req)
    (Req_PolicyVersion req) (Req_AllowDegraded req) (Req_RequireFreshSignals req)
    (if (Req_SignalMaxAge req <=? 0)%Z then 5 * Minute else Req_SignalMaxAge req)%Z.

Lemma set_defaults req currency :
  set_request req (or_class (Req_RouteClass req)) currency (or_max_age (Req_SignalMaxAge req)) = defaults req currency.
Proof. unfold defaults, set_request, or_class. by destruct (Req_RouteClass req) as [| | | |[|]]. Qed.

Lemma or_max_age_pos d : (0 < or_max_age d)%Z.
Proof. unfold or_max_age. destruct (Z.leb_spec d 0); [done|lia]. Qed.

Lemma or_class_not c : c ≠ RouteDeterministic → (or_class c ==? RouteDeterministic) = false.
Proof. intros Hc. unfold or_class. repeat case_bool_decide; naive_solver. Qed.

Lemma filter_nil_Forall {A} (f : A → bool) l : List.filter f l = [] ↔ Forall (λ x, f x = false) l.
Proof.
  induction l as [|x l IH]; simpl; [by split|]. destruct (f x) eqn:E.
  - split; [done|]. intros H1. inversion_clear H1. congruence.
  - rewrite IH. split; [by constructor|]. intros H1. by inversion_clear H1.
Qed.

Lemma filter_deployable cs :
  List.filter deployable cs = filter (λ c, Candidate_DeploymentID c ≠ "" ∧ Candidate_RejectionReasons c = []) cs.
Proof.
  induction cs as [|c cs IH]; [done|]. simpl. rewrite IH. destruct (deployable c) eqn:E; unfold deployable in E.
  - apply andb_true_iff in E as [E1 E2]. rewrite filter_cons_True; [done|]. rewrite no_reasons_nil in E2. by go_props.
  - rewrite filter_cons_False; [done|]. intros [H1 H2]. rewrite <- no_reasons_nil in H2. rewrite H2, andb_true_r in E. by go_props.
Qed.

(** A route goes to an eligible model, the best one first.  A decision lists
    a verdict on every model in the order listed; the selected model and the
    fallback chain are exactly the models that pass every check of lifecycle,
    approval, health, fresh signals, capacity, quota, residency, capabilities,
    effort, tier, budget and admission; the selected one is the earliest with the
    best score and then the lowest cost, and the chain continues in that order.
    An error means the models could not be listed, admission did not answer for
    one, or none is eligible. *)
Theorem Decide_correct r req :
  r_decisions r = None → Req_TaskID req ≠ "" → Req_RouteClass req ≠ RouteDeterministic →
  let req' := defaults req (if Req_Currency req ==? "" then "USD" else Req_Currency req) in
  match Decide EqualFold sort_SliceStable r req with
  | Ok d => ∃ models, r_models r = Ok models
      ∧ Forall2 (judged r req' (r_now r)) models (Decision_Candidates d)
      ∧ ranked (List.filter no_reasons (Decision_Candidates d)) (Decision_Selected d) (Decision_FallbackChain d)
      ∧ (Decision_TaskID d, Decision_CreatedAt d) = (Req_TaskID req, r_now r)
  | Err _ => ∀ models, r_models r = Ok models → (∀ m, m ∈ models → admission_answers r m) →
      ∀ m, m ∈ models → ¬ (routable m req' (r_now r) ∧ admitted r m)
  end.
Proof.
  intros Hd Ht Hc req'. unfold Decide. rewrite bool_decide_eq_false_2 by done. rewrite set_defaults. fold req'. cbv zeta.
  replace (Req_RouteClass req') with (or_class (Req_RouteClass req)) by (unfold req'; by rewrite <- set_defaults).
  rewrite or_class_not by done.
  destruct (r_models r) as [models|e] eqn:Hm; [|intros models [=]].
  pose proof (decide_loop_cases r req' (r_now r) models) as Hl.
  destruct (decide_loop _ _ _ _ _) as [cs|e]; simpl.
  2: { intros models' [= <-] Hall. destruct Hl as (m & Hin & Hno). by destruct (Hno (Hall m Hin)). }
  unfold persist. rewrite Hd. destruct (sort_SliceStable better (List.filter no_reasons cs)) as [|selected fallback] eqn:Hs.
  - intros models' [= <-] _ m Hin Hok. apply sort_nil, filter_nil_Forall in Hs; [|done].
    apply list_elem_of_lookup_1 in Hin as [i Hi]. destruct (Forall2_lookup_l _ _ _ _ _ Hl Hi) as (c & Hci & _ & Hj).
    rewrite Forall_lookup in Hs. specialize (Hs _ _ Hci). simpl in Hs. apply Hj in Hok. congruence.
  - exists models. split_and!; try done. by apply (sorted_ranked sort_SliceStable).
Qed.

(** C15. A task is routed to an eligible deployment.  Suppose the router plans a
    task that is not deterministic with deployments bound, and a decision comes
    out; the library's sort is stable.  The decision has one candidate for every
    deployment of every model, in the order listed.  A candidate of a deployment
    with an id costs what the policy in force quotes for the request or, if there
    is no policy store or no quote, what the price list comes to, and its score is
    50 less that estimate, plus 20 for good health and 10 for capacity, less the
    latency in seconds, corrected by what the quote differs from the estimate; it
    has no rejection reasons exactly if the deployment passes every check, is
    quoted within the budget where there is a policy store, and is admitted in its
    own mode.  The selected candidate and the fallback chain are exactly the
    candidates with a deployment id and no rejection reasons.  If their scores and
    costs are numbers, the selected one has the highest score and among those the
    lowest cost, is the first such candidate, and the chain goes on in that order. *)
Theorem PlanWithDeployments_correct b self r req deployments d :
  Req_RouteClass req ≠ RouteDeterministic →
  PlanWithDeployments EqualFold sort_SliceStable format_cost b self r req (Some deployments) = Ok d →
  let req' := defaults req (Req_Currency req) in
  let pricing := b_pricing b !! self in
  (∃ models pairs, r_models r = Ok models ∧ listed deployments models pairs
   ∧ Forall2 (judged_deployment r pricing req' (r_now r)) pairs (Decision_Candidates d))
  ∧ ranked (filter (λ c, Candidate_DeploymentID c ≠ "" ∧ Candidate_RejectionReasons c = []) (Decision_Candidates d))
      (Decision_Selected d) (Decision_FallbackChain d)
  ∧ (Decision_TaskID d, Decision_CreatedAt d) = (Req_TaskID req, r_now r).
Proof.
  intros Hc Hp req' pricing. unfold PlanWithDeployments in Hp. rewrite bool_decide_eq_false_2 in Hp by done.
  destruct (Req_TaskID req ==? "") eqn:Ht; [done|]. rewrite set_defaults in Hp. fold req' in Hp.
  bind_inv Hp models Hm. bind_inv Hp cs Hcs. bind_inv Hp sf Hsf. destruct sf as [selected fallback].
  unfold SelectDeploymentCandidate in Hsf.
  destruct (sort_SliceStable better (List.filter deployable cs)) as [|x l] eqn:Hs; [done|]. simplify_eq. simpl.
  pose proof (plan_loop_cases r pricing req' (r_now r) deployments models) as Hl.
  unfold pricing in Hl. rewrite Hcs in Hl. destruct Hl as (pairs & Hpairs & Hj); [apply or_max_age_pos|].
  split_and!; [by eauto| |done]. rewrite <- filter_deployable. by apply (sorted_ranked sort_SliceStable).
Qed.

(** The copy loses the pricing policies.  [Plan] of a router with deployments
    and model versions bound plans with a local copy of the router, whose address
    is not bound to anything: whatever pricing policies are bound to the router,
    the decision is the one made without any. *)
Theorem Plan_ignores_pricing_policies b self r planner req deployments versions :
  b_deployments b !! self = Some deployments → b_versions b !! self = Some versions →
  b_pricing b !! planner = None →
  ∀ repo, planner ≠ self →
  Plan EqualFold sort_SliceStable format_cost (WithPricingPolicies self repo b) (Some (self, r)) planner req
  = Plan EqualFold sort_SliceStable format_cost (WithPricingPolicies self None b) (Some (self, r)) planner req.
Proof.
  intros Hd Hv Hp repo Hne. unfold Plan, WithPricingPolicies. simpl. rewrite Hd, Hv.
  unfold PlanWithDeployments. simpl. destruct repo as [repo|]; simpl; [|done].
  by rewrite lookup_insert_ne, lookup_delete_ne by done.
Qed.

End spec.
End RouterSpec.
