(* ===== verification/ModelSchema.v ===== *)
(** * ModelSchema: the structured outputs of models

    The data types of [src/model/schema/schema.go].  The values a change or a
    patch holds are of Go's [any], the parameter [V]: an output is itself such a
    value in the response of a provider. *)
From S2P Require Import Prelude.

Module ModelSchema.

Record ModelRef : Type := mkModelRef { Model_Provider : string; Model_Name : string }.
Record ConfidenceHint : Type := mkConfidenceHint { Confidence_Level : string; Confidence_Notes : list string }.

Record CommonMetadata : Type := mkCommonMetadata {
  Meta_SchemaVersion : string;
  Meta_Kind : string;
  Meta_RequestID : string;
  Meta_TaskType : string;
  Meta_CreatedBy : string;
  Meta_Model : option ModelRef;
  Meta_Confidence : option ConfidenceHint;
  Meta_Warnings : list string
}.

Record ResourceRef : Type := mkResourceRef {
  Resource_APIVersion : string; Resource_Kind : string; Resource_Namespace : string; Resource_Name : string
}.

Record RollbackSummary : Type := mkRollbackSummary { Rollback_Summary : string }.
Record ValidationExpectations : Type := mkValidationExpectations { Validation_Expected : list string }.
Record SourcePlanRef : Type := mkSourcePlanRef { SourcePlan_RequestID : string }.
Record PatchSafety : Type := mkPatchSafety { DirectExecutionAllowed : bool; RequiresPR : bool }.

Section outputs.
Variable V : Set.

Record PlannedChange : Set := mkPlannedChange {
  Change_Field : string; Change_From : V; Change_To : V; Change_Reason : string
}.

Record ChangePlan : Set := mkChangePlan {
  Plan_Meta : CommonMetadata;
  Plan_Intent : string;
  Plan_Target : ResourceRef;
  Plan_OperationType : string;
  Plan_Environment : string;
  Plan_RiskHint : string;
  Plan_Changes : list PlannedChange;
  Plan_Rollback : RollbackSummary;
  Plan_Validation : ValidationExpectations
}.

Record YamlPatchProposal : Set := mkYamlPatchProposal {
  Patch_Meta : CommonMetadata;
  Patch_Resource : ResourceRef;
  Patch_PatchType : string;
  Patch_Patch : list (string * V);
  Patch_SourcePlanRef : option SourcePlanRef;
  Patch_Safety : PatchSafety
}.

Record RollbackStep : Type := mkRollbackStep { Step_Order : Z; Step_Action : string }.

Record RollbackPlan : Set := mkRollbackPlan {
  Undo_Meta : CommonMetadata;
  Undo_Target : ResourceRef;
  Undo_OperationType : string;
  Undo_RollbackType : string;
  Undo_Summary : string;
  Undo_Steps : list RollbackStep;
  Undo_Patch : list (string * V);
  Undo_Validation : ValidationExpectations
}.
End outputs.

Arguments mkPlannedChange {V}.
Arguments Change_Field {V}.
Arguments Change_From {V}.
Arguments Change_To {V}.
Arguments Change_Reason {V}.
Arguments mkChangePlan {V}.
Arguments Plan_Meta {V}.
Arguments Plan_Intent {V}.
Arguments Plan_Target {V}.
Arguments Plan_OperationType {V}.
Arguments Plan_Environment {V}.
Arguments Plan_RiskHint {V}.
Arguments Plan_Changes {V}.
Arguments Plan_Rollback {V}.
Arguments Plan_Validation {V}.
Arguments mkYamlPatchProposal {V}.
Arguments Patch_Meta {V}.
Arguments Patch_Resource {V}.
Arguments Patch_PatchType {V}.
Arguments Patch_Patch {V}.
Arguments Patch_SourcePlanRef {V}.
Arguments Patch_Safety {V}.
Arguments mkRollbackPlan {V}.
Arguments Undo_Meta {V}.
Arguments Undo_Target {V}.
Arguments Undo_OperationType {V}.
Arguments Undo_RollbackType {V}.
Arguments Undo_Summary {V}.
Arguments Undo_Steps {V}.
Arguments Undo_Patch {V}.
Arguments Undo_Validation {V}.

Record PolicyResultRef : Type := mkPolicyResultRef {
  PolicyRef_RiskLevel : string;
  PolicyRef_ApprovalRequired : bool;
  PolicyRef_PolicyName : string;
  PolicyRef_MatchedRule : string;
  PolicyRef_Result : string;
  PolicyRef_Reason : string
}.
Record Explanation : Type := mkExplanation { Explanation_Summary : string; Explanation_Reasons : list string }.
Record RiskExplanation : Type := mkRiskExplanation {
  Risk_Meta : CommonMetadata;
  Risk_PolicyResult : PolicyResultRef;
  Risk_Explanation : Explanation;
  Risk_ReviewerNotes : list string
}.

Record ConditionSummary : Type := mkConditionSummary {
  Cond_Type : string; Cond_Status : string; Cond_Reason : string; Cond_Message : string
}.
Record ObservedState : Type := mkObservedState {
  Observed_Phase : string;
  Observed_DesiredReplicas : Z;
  Observed_ReadyReplicas : Z;
  Observed_Conditions : list ConditionSummary
}.
Record EvidenceItem : Type := mkEvidenceItem { Evidence_Source : string; Evidence_Value : string }.
Record ValidationReport : Type := mkValidationReport {
  Report_Meta : CommonMetadata;
  Report_OperationRef : ResourceRef;
  Report_Target : ResourceRef;
  Report_ObservedState : ObservedState;
  Report_Result : string;
  Report_Summary : string;
  Report_Evidence : list EvidenceItem
}.

Record StateSummary : Type := mkStateSummary {
  State_Meta : CommonMetadata; State_Target : ResourceRef; State_Summary : string; State_Observations : list string
}.
Record FailureExplanation : Type := mkFailureExplanation { Failure_Summary : string; Failure_RequiredFixes : list string }.
Record PolicyFailureExplanation : Type := mkPolicyFailureExplanation {
  PolicyFailure_Meta : CommonMetadata; PolicyFailure_Result : PolicyResultRef; PolicyFailure_Explanation : FailureExplanation
}.

Definition SchemaVersionV1Alpha1 : string := "ai.infra/v1alpha1".
Definition KindChangePlan : string := "ChangePlan".
Definition KindYamlPatchProposal : string := "YamlPatchProposal".
Definition KindRiskExplanation : string := "RiskExplanation".
Definition KindRollbackPlan : string := "RollbackPlan".
Definition KindValidationReport : string := "ValidationReport".

Definition EditableFieldAllowlist : list string :=
  ["ManagedCluster.spec.workers[].replicas"; "spec.workers[name=gpu-workers].replicas"].
Definition ForbiddenPatchFields : list string :=
  ["status"; "metadata.finalizers"; "metadata.ownerReferences"; "spec.bmcSecretRef"; "spec.credentials"; "spec.secretRef"].

End ModelSchema.
