(* ===== verification/ModelTypes.v ===== *)
(** * ModelTypes: the requests and responses of model providers

    The data types of [src/model/provider/provider.go] the model runtime passes
    on, and Go's [any]: what encoding/json decodes, the integers of a Go literal,
    and the structured outputs of a provider, as values and as pointers.  A slice
    of any element type is an array here; a map is the list of its entries in the
    order it is visited. *)
From S2P Require Import Prelude Domain ModelSchema.

Module ModelTypes.

Inductive any : Set :=
| AnyNil
| AnyBool (b : bool)
| AnyNumber (f : float64)
| AnyString (s : string)
| AnyArray (l : list any)
| AnyObject (l : list (string * any))
| AnyInt (z : Z)
| AnyInt32 (z : Z)
| AnyInt64 (z : Z)
| AnyFloat32 (f : float64)
| AnyPlan (p : ModelSchema.ChangePlan any)
| AnyPlanPtr (p : option (ModelSchema.ChangePlan any))
| AnyPatch (p : ModelSchema.YamlPatchProposal any)
| AnyPatchPtr (p : option (ModelSchema.YamlPatchProposal any))
| AnyRollback (p : ModelSchema.RollbackPlan any)
| AnyRollbackPtr (p : option (ModelSchema.RollbackPlan any))
| AnyReport (r : ModelSchema.ValidationReport)
| AnyReportPtr (r : option ModelSchema.ValidationReport)
| AnyRisk (e : ModelSchema.RiskExplanation)
| AnyRiskPtr (e : option ModelSchema.RiskExplanation)
| AnyOther (ty : string).

Definition float32 : Set := float64.

Inductive TaskType : Type :=
| TaskGeneratePlan | TaskGeneratePatch | TaskExplainRisk | TaskGenerateRollback
| TaskGenerateValidationReport | TaskSummarizeState | TaskRepairYAML | TaskExplainPolicyFailure
| TaskTypeOther (s : string).

Record ResourceRef : Type := mkResourceRef {
  Ref_APIVersion : string; Ref_Kind : string; Ref_Namespace : string; Ref_Name : string
}.

Record ConditionSummary : Type := mkConditionSummary {
  Cond_Type : string; Cond_Status : string; Cond_Reason : string; Cond_Message : string
}.

Record SanitizedResourceSnapshot : Type := mkSanitizedResourceSnapshot {
  Sanitized_Ref : ResourceRef;
  Sanitized_Spec : list (string * any);
  Sanitized_Status : list (string * any);
  Sanitized_Conditions : list ConditionSummary
}.

Record PolicyResultSnapshot : Type := mkPolicyResultSnapshot {
  PolicyResult_Result : string;
  PolicyResult_RiskLevel : string;
  PolicyResult_ApprovalRequired : bool;
  PolicyResult_PolicyName : string;
  PolicyResult_MatchedRule : string;
  PolicyResult_Reason : string
}.

Record ModelContext : Type := mkModelContext {
  Context_ResourceRefs : list ResourceRef;
  Context_ResourceSnapshots : list SanitizedResourceSnapshot;
  Context_PolicyResult : option PolicyResultSnapshot;
  Context_GitDiffSummary : string;
  Context_RunbookSnippets : list string;
  Context_PriorPRSummaries : list string;
  Context_UserIntent : string
}.

Record OutputSchemaRef : Type := mkOutputSchemaRef { Schema_Name : string; Schema_Version : string }.
Record SafetyPolicyRef : Type := mkSafetyPolicyRef { Safety_Name : string; Safety_Version : string }.

Record ProviderRequest : Type := mkProviderRequest {
  Request_RequestID : string;
  Request_TaskType : TaskType;
  Request_UserID : string;
  Request_RiskHint : string;
  Request_SystemPrompt : string;
  Request_Instruction : string;
  Request_Context : ModelContext;
  Request_OutputSchema : OutputSchemaRef;
  Request_SafetyPolicy : SafetyPolicyRef;
  Request_MaxOutputTokens : Z;
  Request_Temperature : float32
}.

Record TokenUsage : Type := mkTokenUsage {
  Usage_InputTokens : Z; Usage_OutputTokens : Z; Usage_TotalTokens : Z
}.

Record SafetySignal : Type := mkSafetySignal {
  Signal_Type : string; Signal_Level : string; Signal_Message : string
}.

Record ProviderResponse : Type := mkProviderResponse {
  Response_RequestID : string;
  Response_ProviderName : string;
  Response_ModelName : string;
  Response_TaskType : TaskType;
  Response_RawText : string;
  Response_Structured : any;
  Response_FinishReason : string;
  Response_TokenUsage : TokenUsage;
  Response_LatencyMs : Z;
  Response_SafetySignals : list SafetySignal;
  Response_ValidationHints : list string
}.

(** [ProviderErrorCode]; the error itself is [ProviderErr] of the prelude. *)
Definition ErrProviderUnavailable : string := "ProviderUnavailable".
Definition ErrProviderTimeout : string := "ProviderTimeout".
Definition ErrRateLimited : string := "RateLimited".

(** [request.RequestID = id]. *)
Definition set_request_id (r : ProviderRequest) (id : string) : ProviderRequest :=
  mkProviderRequest id (Request_TaskType r) (Request_UserID r) (Request_RiskHint r) (Request_SystemPrompt r)
    (Request_Instruction r) (Request_Context r) (Request_OutputSchema r) (Request_SafetyPolicy r)
    (Request_MaxOutputTokens r) (Request_Temperature r).

End ModelTypes.
