(* ===== verification/CostLedger.v ===== *)
(** * CostLedger: charging model usage to a task

    [src/internal/cost/ledger.go].  The ledger writes to a
    [CostEventRepository], here a class whose laws say what a successful and a
    failed [Append] do; [MemoryCostEvents] of [src/internal/repository/memory.go]
    is an instance.  Amounts are IEEE 754 doubles, summed in the order the
    repository lists the events. *)
From S2P Require Import Prelude Domain RouteTypes ModelTypes GoStrings.

Module CostLedger.
Import Domain RouteTypes ModelTypes.

(** ** The repository *)
Class CostEventRepository (R : Type) : Type := {
  Append : CostEvent → R → result CostEvent * R;
  ListByTask : string → R → result (list CostEvent)
}.

(** [held] is what the repository holds, in the order of the appends. *)
Class CostEventLaws (R : Type) `{CostEventRepository R} (held : R → list CostEvent) : Prop := {
  Append_Ok e r e' : fst (Append e r) = Ok e' → held (snd (Append e r)) = held r ++ [e'];
  Append_Err e r x : fst (Append e r) = Err x → held (snd (Append e r)) = held r;
  Append_keeps e r e' : fst (Append e r) = Ok e' → Cost_TaskID e' = Cost_TaskID e ∧ Cost_Amount e' = Cost_Amount e
                        ∧ Cost_Currency e' = Cost_Currency e;
  ListByTask_Ok task r l : ListByTask task r = Ok l →
    l ≡ₚ filter (λ e, Cost_TaskID e = task) (held r) ∧ Sorted (λ a b, (Cost_CreatedAt a ≤ Cost_CreatedAt b)%Z) l
}.

(** The in-memory repository; [sort_Slice] orders a slice by the creation time,
    equal times in any order. *)
Section memory.
Variable sort_Slice : list CostEvent → list CostEvent.

Definition MemoryCostEvents : Type := list CostEvent.
Definition NewMemoryCostEvents : MemoryCostEvents := [].
Definition Memory_Append (e : CostEvent) (r : MemoryCostEvents) : result CostEvent * MemoryCostEvents :=
  (Ok e, r ++ [e]).
Definition Memory_ListByTask (task : string) (r : MemoryCostEvents) : result (list CostEvent) :=
  Ok (sort_Slice (filter (λ e, Cost_TaskID e = task) r)).

Definition Memory_repository : CostEventRepository MemoryCostEvents :=
  {| Append := Memory_Append; ListByTask := Memory_ListByTask |}.

Hypothesis sort_perm : ∀ l, sort_Slice l ≡ₚ l.
Hypothesis sort_sorted : ∀ l, Sorted (λ a b, (Cost_CreatedAt a ≤ Cost_CreatedAt b)%Z) (sort_Slice l).

Lemma Memory_laws : @CostEventLaws MemoryCostEvents Memory_repository (λ r, r).
Proof.
  split; simpl; intros.
  - by simplify_eq.
  - by simplify_eq.
  - by simplify_eq.
  - unfold Memory_ListByTask in *. simplify_eq. split; [apply sort_perm|apply sort_sorted].
Qed.
End memory.

(** ** The ledger *)
Record ModelUsage : Type := mkModelUsage {
  ModelUsage_TaskID : string;
  ModelUsage_TraceID : string;
  ModelUsage_Provider : string;
  ModelUsage_ModelID : string;
  ModelUsage_ModelVersion : string;
  ModelUsage_DeploymentID : string;
  ModelUsage_Pricing : PricingProfile;
  ModelUsage_Usage : TokenUsage;
  ModelUsage_Attempt : Z;
  ModelUsage_ServiceTier : ServiceTier
}.

Definition deploymentMetadata (id : string) : list (string * string) :=
  if id ==? "" then [] else [("deployment_id", id)].

Definition newEvent (now : Time) (usage : ModelUsage) (component : CostComponent) (quantity : float64)
    (unit_ : string) (unitPrice : float64) (currency : string) : CostEvent :=
  {| Cost_ID := "cost-" +:+ Itoa (UnixNano now); Cost_TaskID := ModelUsage_TaskID usage;
     Cost_TraceID := ModelUsage_TraceID usage; Cost_Component := component;
     Cost_Provider := ModelUsage_Provider usage; Cost_ModelID := ModelUsage_ModelID usage;
     Cost_ModelVersion := ModelUsage_ModelVersion usage; Cost_DeploymentID := ModelUsage_DeploymentID usage;
     Cost_Quantity := quantity; Cost_Unit := unit_; Cost_UnitPrice := unitPrice;
     Cost_Amount := f_mul quantity unitPrice; Cost_Currency := currency;
     Cost_Attempt := ModelUsage_Attempt usage; Cost_Metadata := deploymentMetadata (ModelUsage_DeploymentID usage);
     Cost_CreatedAt := now |}.

Definition ServiceTier_string (t : ServiceTier) : string :=
  match t with
  | TierStandard => "standard" | TierPriority => "priority" | TierBatch => "batch"
  | TierProvisioned => "provisioned" | TierOther s => s
  end.

Definition million : float64 := f_int 1000000.
Definition f_one : float64 := f_int 1.

(** The events one usage gives rise to: input, output and, when a service tier
    is asked for at a factor above 1, the premium on both. *)
Definition usage_events (now : Time) (usage : ModelUsage) : list CostEvent :=
  let pricing := ModelUsage_Pricing usage in
  let currency := if Pricing_Currency pricing ==? "" then "USD" else Pricing_Currency pricing in
  let input := newEvent now usage CostModelInput (f_int (Usage_InputTokens (ModelUsage_Usage usage))) "token"
                 (f_div (Pricing_InputPerMillion pricing) million) currency in
  let output := newEvent (Add now 1) usage CostModelOutput (f_int (Usage_OutputTokens (ModelUsage_Usage usage)))
                  "token" (f_div (Pricing_OutputPerMillion pricing) million) currency in
  if (ModelUsage_ServiceTier usage !=? TierZero) && f_gt (Pricing_ServiceTierFactor pricing) f_one then
    let premium := f_mul (f_add (Cost_Amount input) (Cost_Amount output))
                     (f_sub (Pricing_ServiceTierFactor pricing) f_one) in
    [input; output;
     {| Cost_ID := "cost-" +:+ Itoa (UnixNano (Add now 2)); Cost_TaskID := ModelUsage_TaskID usage;
        Cost_TraceID := ModelUsage_TraceID usage; Cost_Component := CostServiceTier;
        Cost_Provider := ModelUsage_Provider usage; Cost_ModelID := ModelUsage_ModelID usage;
        Cost_ModelVersion := ModelUsage_ModelVersion usage; Cost_DeploymentID := ModelUsage_DeploymentID usage;
        Cost_Quantity := f_one; Cost_Unit := ServiceTier_string (ModelUsage_ServiceTier usage);
        Cost_UnitPrice := premium; Cost_Amount := premium; Cost_Currency := currency;
        Cost_Attempt := ModelUsage_Attempt usage;
        Cost_Metadata := deploymentMetadata (ModelUsage_DeploymentID usage); Cost_CreatedAt := Add now 2 |}]
  else [input; output].

Section ledger.
Context {R : Type} `{CostEventRepository R}.

(** The loop over [events]: an error, labelled, leaves the events already appended. *)
Fixpoint append_loop (label : string) (events : list CostEvent) (r : R) : result (list CostEvent) * R :=
  match events with
  | [] => (Ok [], r)
  | event :: rest =>
      match Append event r with
      | (Err e, r) => (Err (Errorw label [] e), r)
      | (Ok persisted, r) =>
          match append_loop label rest r with
          | (Err e, r) => (Err e, r)
          | (Ok l, r) => (Ok (persisted :: l), r)
          end
      end
  end.

(** [l.events] may be nil. *)
Definition RecordModelUsage (now : Time) (usage : ModelUsage) (events : option R)
    : result (list CostEvent) * option R :=
  if (ModelUsage_TaskID usage ==? "") || (ModelUsage_TraceID usage ==? "")
  then (Err (Errorf "task ID and trace ID are required" []), events)
  else match events with
  | None => (Ok (usage_events now usage), None)
  | Some r => let '(res, r) := append_loop "append cost event: %w" (usage_events now usage) r in (res, Some r)
  end.

Fixpoint aggregate_loop (events : list CostEvent) (total : float64) (currency : string)
    : result (float64 * string) :=
  match events with
  | [] => Ok (total, currency)
  | event :: rest =>
      let currency := if currency ==? "" then Cost_Currency event else currency in
      if (Cost_Currency event !=? "") && (currency !=? Cost_Currency event)
      then Err (Errorf "mixed currencies require explicit conversion" [])
      else aggregate_loop rest (f_add total (Cost_Amount event)) currency
  end.

Definition AggregateTask (task : string) (events : option R) : result (float64 * string) :=
  match events with
  | None => Err (Errorf "cost event repository is required" [])
  | Some r =>
      l ← ListByTask task r;
      aggregate_loop l f_zero ""
  end.

End ledger.

(** ** What the ledger guarantees *)

(** The currencies events name, in order. *)
Definition currencies (events : list CostEvent) : list string :=
  filter (λ c, c ≠ "") (Cost_Currency <$> events).

(** A one-line specification of the loop. *)
Definition aggregate (events : list CostEvent) : result (float64 * string) :=
  match currencies events with
  | [] => Ok (foldl f_add f_zero (Cost_Amount <$> events), "")
  | c :: cs =>
      if forallb (λ c', c' ==? c) cs then Ok (foldl f_add f_zero (Cost_Amount <$> events), c)
      else Err (Errorf "mixed currencies require explicit conversion" [])
  end.

Lemma aggregate_loop_currency events total c :
  c ≠ "" →
  aggregate_loop events total c
  = if forallb (λ c', c' ==? c) (currencies events) then Ok (foldl f_add total (Cost_Amount <$> events), c)
    else Err (Errorf "mixed currencies require explicit conversion" []).
Proof.
  intros Hc. revert total. induction events as [|e es IH]; intros total; simpl; [done|].
  rewrite (bool_decide_eq_false_2 (c = "")) by done. unfold currencies in *. simpl.
  destruct (decide (Cost_Currency e = "")) as [He|He].
  - rewrite He, filter_cons_False by (by intros ?). rewrite (bool_decide_eq_true_2 ("" = "")) by done. simpl. apply IH.
  - rewrite filter_cons_True by done. rewrite (bool_decide_eq_false_2 (Cost_Currency e = "")) by done. simpl.
    destruct (decide (Cost_Currency e = c)) as [->|Hne].
    + rewrite !bool_decide_eq_true_2 by done. simpl. apply IH.
    + rewrite (bool_decide_eq_false_2 (c = _)) by congruence.
      rewrite (bool_decide_eq_false_2 (_ = c)) by done. done.
Qed.

Lemma aggregate_loop_correct events : aggregate_loop events f_zero "" = aggregate events.
Proof.
  unfold aggregate. generalize f_zero. induction events as [|e es IH]; intros total; simpl; [done|].
  unfold currencies in *. simpl. destruct (decide (Cost_Currency e = "")) as [He|He].
  - rewrite He, filter_cons_False by (by intros ?). simpl. apply IH.
  - rewrite filter_cons_True by done. rewrite !(bool_decide_eq_false_2 (Cost_Currency e = "")) by done.
    rewrite (bool_decide_eq_true_2 (Cost_Currency e = Cost_Currency e)) by done. simpl.
    by rewrite aggregate_loop_currency.
Qed.

Section theorems.
Context {R : Type} `{CostEventRepository R} {held : R → list CostEvent} `{!CostEventLaws R held}.

(** What the loop appended: everything, or the events before the one that failed. *)
Lemma append_loop_spec label events r :
  ∃ stored, held (snd (append_loop label events r)) = held r ++ stored
  ∧ Forall2 (λ e s, Cost_TaskID s = Cost_TaskID e ∧ Cost_Amount s = Cost_Amount e
                    ∧ Cost_Currency s = Cost_Currency e) (take (length stored) events) stored
  ∧ match fst (append_loop label events r) with
    | Ok l => l = stored ∧ length stored = length events
    | Err _ => length stored < length events
    end.
Proof.
  revert r. induction events as [|e es IH]; intros r; simpl.
  { exists []. rewrite app_nil_r. repeat split; constructor. }
  destruct (Append e r) as [[e'|x] r1] eqn:E; simpl.
  - pose proof (Append_Ok (held := held) e r e') as Hok. rewrite E in Hok. specialize (Hok eq_refl). simpl in Hok.
    pose proof (Append_keeps (held := held) e r e') as Hk. rewrite E in Hk. specialize (Hk eq_refl).
    destruct (IH r1) as (stored & Hh & Hf & Hr). exists (e' :: stored).
    assert (held (snd (append_loop label es r1)) = held r ++ e' :: stored) as Hh'
      by (rewrite Hh, Hok, <- app_assoc; done).
    destruct (append_loop label es r1) as [[l|x] r2]; simpl in *; split_and!; try done; try (by constructor).
    + by destruct Hr as [-> _].
    + by destruct Hr as [_ ->].
    + lia.
  - pose proof (Append_Err (held := held) e r x) as Herr. rewrite E in Herr. specialize (Herr eq_refl). simpl in Herr.
    exists []. simpl. rewrite app_nil_r. split_and!; [done|constructor|lia].
Qed.

(** What a task costs.  The total the ledger reports for a task is the sum,
    in order of time, of the amounts of exactly the task's recorded events, in
    the one currency they name; events in two currencies are an error and never
    added up. *)
Theorem AggregateTask_correct task r total currency :
  AggregateTask task (Some r) = Ok (total, currency) →
  ∃ events, events ≡ₚ filter (λ e, Cost_TaskID e = task) (held r)
  ∧ Sorted (λ a b, (Cost_CreatedAt a ≤ Cost_CreatedAt b)%Z) events
  ∧ total = foldl f_add f_zero (Cost_Amount <$> events)
  ∧ (∀ e, e ∈ held r → Cost_TaskID e = task → Cost_Currency e = "" ∨ Cost_Currency e = currency).
Proof.
  unfold AggregateTask. intros Ha. bind_inv Ha l Hl.
  apply (ListByTask_Ok (held := held)) in Hl as [Hp Hs]. rewrite aggregate_loop_correct in Ha.
  exists l. assert (∀ e, e ∈ held r → Cost_TaskID e = task → e ∈ l) as Hin.
  { intros e He Ht. rewrite Hp. apply list_elem_of_filter. done. }
  unfold aggregate in Ha. destruct (currencies l) as [|c cs] eqn:Hc.
  - simplify_eq. split_and!; try done. intros e He Ht. left. destruct (decide (Cost_Currency e = "")); [done|].
    assert (Cost_Currency e ∈ currencies l) as Hx; [|rewrite Hc in Hx; set_solver].
    apply list_elem_of_filter. split; [done|]. apply list_elem_of_fmap. eauto.
  - destruct (forallb _ cs) eqn:Hf; [|done]. simplify_eq. split_and!; try done. intros e He Ht.
    destruct (decide (Cost_Currency e = "")); [by left|]. right.
    assert (Cost_Currency e ∈ currencies l) as Hx.
    { apply list_elem_of_filter. split; [done|]. apply list_elem_of_fmap. eauto. }
    rewrite Hc in Hx. apply elem_of_cons in Hx as [->|Hx]; [done|].
    apply Is_true_eq_left, forallb_True in Hf. rewrite Forall_forall in Hf. apply Hf in Hx.
    by apply bool_decide_unpack in Hx.
Qed.

(** A usage is charged whole or the failure shows.  Recording a usage appends
    its events, for the tokens in, the tokens out and any tier premium, all to
    the task, in that order; on an error it has appended only the events before
    the one the repository refused. *)
Theorem RecordModelUsage_correct now usage r :
  ModelUsage_TaskID usage ≠ "" → ModelUsage_TraceID usage ≠ "" →
  let res := RecordModelUsage now usage (Some r) in
  let events := usage_events now usage in
  ∃ r' stored, snd res = Some r' ∧ held r' = held r ++ stored
  ∧ Forall (λ e, Cost_TaskID e = ModelUsage_TaskID usage) stored
  ∧ Cost_Amount <$> stored = Cost_Amount <$> take (length stored) events
  ∧ match fst res with
    | Ok l => l = stored ∧ length stored = length events
    | Err _ => length stored < length events
    end.
Proof.
  intros Ht Htr. unfold RecordModelUsage. rewrite !bool_decide_eq_false_2 by done. simpl.
  destruct (append_loop_spec "append cost event: %w" (usage_events now usage) r) as (stored & Hh & Hf & Hr).
  destruct (append_loop "append cost event: %w" (usage_events now usage) r) as [res r']. simpl in *. exists r', stored.
  assert (Forall (λ e, Cost_TaskID e = ModelUsage_TaskID usage) (usage_events now usage)) as Hall.
  { unfold usage_events. cbv zeta. destruct (andb _ _); repeat constructor. }
  split_and!; try done.
  - apply (Forall_take _ (length stored)) in Hall. eapply Forall2_Forall_r; [exact Hf|].
    eapply Forall_impl; [exact Hall|]. simpl. intros e He s (-> & _). done.
  - symmetry. apply list_eq_Forall2, Forall2_fmap. eapply Forall2_impl; [exact Hf|]. by intros e s (_ & -> & _).
Qed.

End theorems.

(** ** A concrete ledger *)
Definition sample_pricing : PricingProfile :=
  {| Pricing_Currency := "EUR"; Pricing_InputPerMillion := f_int 2; Pricing_OutputPerMillion := f_int 4;
     Pricing_CachedPerMillion := f_zero; Pricing_ServiceTierFactor := f_int 3 |}.
Definition sample_usage : ModelUsage :=
  mkModelUsage "t1" "trace" "p" "m" "v1" "" sample_pricing (mkTokenUsage 1000000 500000 1500000) 1 TierPriority.

Definition by_time (a b : CostEvent) : Prop := (Cost_CreatedAt a ≤ Cost_CreatedAt b)%Z.
#[export] Instance by_time_dec a b : Decision (by_time a b) := Z_le_dec _ _.
#[export] Instance by_time_total : Total by_time.
Proof. intros a b. unfold by_time. lia. Qed.
Definition sample_repository : CostEventRepository MemoryCostEvents := Memory_repository (merge_sort by_time).

Lemma sample_laws : @CostEventLaws MemoryCostEvents sample_repository (λ r, r).
Proof.
  apply Memory_laws; intros l; [apply merge_sort_Permutation|].
  apply (Sorted_merge_sort by_time).
Qed.

Definition sample_recorded := @RecordModelUsage _ sample_repository 5%Z sample_usage (Some []).

Lemma RecordModelUsage_correct_witness :
  ∃ r', snd sample_recorded = Some r' ∧ length r' = 3.
Proof.
  destruct (@RecordModelUsage_correct _ sample_repository _ sample_laws 5%Z sample_usage [])
    as (r' & stored & Hr & Hh & _ & _ & Hres); [done..|].
  exists r'. split; [exact Hr|]. simpl in Hh. rewrite Hh. vm_compute in Hres. apply Hres.
Defined.

Lemma AggregateTask_correct_witness :
  ∃ r, snd sample_recorded = Some r
  ∧ @AggregateTask _ sample_repository "t1" (Some r) = Ok (f_int 12, "EUR")
  ∧ ∀ e, e ∈ r → Cost_TaskID e = "t1" → Cost_Currency e = "" ∨ Cost_Currency e = "EUR".
Proof.
  destruct (snd sample_recorded) as [r|] eqn:E; [|vm_compute in E; discriminate]. exists r.
  assert (@AggregateTask _ sample_repository "t1" (Some r) = Ok (f_int 12, "EUR")) as Ha
    by (vm_compute in E; injection E as <-; vm_compute; reflexivity).
  destruct (@AggregateTask_correct _ sample_repository _ sample_laws "t1" r _ _ Ha) as (_ & _ & _ & _ & H).
  split; [reflexivity|]. split; [exact Ha|exact H].
Defined.

End CostLedger.
