(* ===== verification/Reconcile.v ===== *)
(** * Reconcile: charging what was quoted

    [src/internal/cost/pricing_reconciliation.go]: usage is charged under the
    pricing policy version the route was decided with, named by the route's
    pricing evidence.  The theorem composes it with the router's evidence, the
    policy store and the ledger. *)
From S2P Require Import Prelude Domain Admission RouteTypes GoStrings Order Pricing Router ModelTypes CostLedger.

Module Reconcile.
Import Domain RouteTypes ModelTypes Pricing Router RouterSpec CostLedger.

Definition pricingCostComponent (name : string) : CostComponent :=
  if name ==? "input-cache-hit" then CostModelCache
  else if name ==? "output" then CostModelOutput
  else if (name ==? "capacity") || (name ==? "capacity-fixed") then CostServiceTier
  else CostModelInput.

(** [domain.PricingUsageEstimate{..}] of a recorded usage. *)
Definition usage_estimate (usage : ModelUsage) (region : string) (effort : InferenceEffort) : PricingUsageEstimate :=
  mkUsageEstimate (ModelTypes.Usage_InputTokens (ModelUsage_Usage usage)) (ModelTypes.Usage_OutputTokens (ModelUsage_Usage usage)) 0
    (ModelTypes.Usage_TotalTokens (ModelUsage_Usage usage)) region (ModelUsage_ServiceTier usage ==? TierBatch) false
    (ModelUsage_ServiceTier usage) effort f_zero f_zero f_zero f_zero f_zero.

(** The cost event of one component, the [index]-th. *)
Definition component_event (now : Time) (usage : ModelUsage) (evidence : RoutePricingEvidence) (currency : string)
    (index : nat) (c : PricingQuoteComponent) : CostEvent :=
  let at_ := Add now (Z.of_nat index) in
  {| Cost_ID := "cost-" +:+ Itoa (UnixNano at_);
     Cost_TaskID := ModelUsage_TaskID usage;
     Cost_TraceID := ModelUsage_TraceID usage;
     Cost_Component := pricingCostComponent (Component_Name c);
     Cost_Provider := ModelUsage_Provider usage;
     Cost_ModelID := ModelUsage_ModelID usage;
     Cost_ModelVersion := ModelUsage_ModelVersion usage;
     Cost_DeploymentID := ModelUsage_DeploymentID usage;
     Cost_Quantity := Component_Quantity c;
     Cost_Unit := Component_Unit c;
     Cost_UnitPrice := f_mul (Component_UnitPrice c) (Component_Factor c);
     Cost_Amount := Component_Amount c;
     Cost_Currency := currency;
     Cost_Attempt := ModelUsage_Attempt usage;
     Cost_Metadata :=
       [("deployment_id", ModelUsage_DeploymentID usage); ("route_decision_id", Evidence_RouteDecisionID evidence);
        ("pricing_policy_id", Evidence_PolicyID evidence); ("pricing_policy_version", Evidence_PolicyVersion evidence);
        ("pricing_policy_digest", Evidence_PolicyDigest evidence); ("pricing_component", Component_Name c)];
     Cost_CreatedAt := at_ |}.

Section reconcile.
Variable EqualFold : string → string → bool.
Context {P : Type} `{PricingPolicyRepository P}.
Context {R : Type} `{CostEventRepository R}.

Definition RecordReconciledModelUsage (now : Time) (usage : ModelUsage) (evidence : RoutePricingEvidence)
    (policies : option P) (effort : InferenceEffort) (events : option R) : result (list CostEvent) * option R :=
  let prepared :=
    match policies with
    | None => Err (Errorf "pricing policy repository is required" [])
    | Some policies =>
        _ ← ValidateEvidence evidence;
        match pr_Get (Evidence_PolicyID evidence) (Evidence_PolicyVersion evidence) policies with
        | Err e => Err (Errorw "load route-time pricing policy: %w" [] e)
        | Ok policy =>
            match QuotePricing EqualFold policy (usage_estimate usage (Policy_Region policy) effort)
                    (Quote_QuotedAt (Evidence_Quote evidence)) with
            | Err e => Err (Errorw "reconcile route-time pricing policy: %w" [] e)
            | Ok quote => Ok (imap (component_event now usage evidence (Quote_Currency quote)) (Quote_Components quote))
            end
        end
    end in
  match prepared, events with
  | Err e, _ => (Err e, events)
  | Ok l, None => (Ok l, None)
  | Ok l, Some r => let '(res, r) := append_loop "append reconciled cost event: %w" l r in (res, Some r)
  end.

(** ** The evidence of a route *)

(** What an evidence item records. *)
Definition evidenced (repo : P) (decision : RouteDecision) (req : RouteRequest) (at_ : Time) (item : RoutePricingEvidence)
    : Prop :=
  ∃ region policy,
    pr_Resolve (Evidence_DeploymentID item) at_ repo = Ok policy
    ∧ QuotePricing EqualFold policy (request_usage req region) at_ = Ok (Evidence_Quote item)
    ∧ (Evidence_PolicyID item, Evidence_PolicyVersion item, Evidence_RouteDecisionID item)
      = (Policy_ID policy, Policy_Version policy, Decision_ID decision)
    ∧ ValidateEvidence item = Ok tt.

Lemma evidence_loop_sound deployments repo decision req at_ candidates items :
  evidence_loop EqualFold deployments repo decision req at_ candidates = Ok items →
  Forall (evidenced repo decision req at_) items.
Proof.
  revert items. induction candidates as [|c cs IH]; intros items Hl; simpl in Hl; [by simplify_eq|].
  destruct (_ || _); [by apply IH|].
  destruct (dep_Get deployments _) as [d|]; [|by destruct (_ ==? _); [|apply IH]].
  destruct (pr_Resolve _ _ _) as [policy|] eqn:Hr; [|by destruct (_ ==? _); [|apply IH]].
  destruct (QuotePricing _ _ _ _) as [q|] eqn:Hq; [|by destruct (_ ==? _); [|apply IH]].
  destruct (ValidateEvidence _) as [[]|] eqn:Hv; [|done]. simpl in Hl.
  destruct (evidence_loop _ _ _ _ _ _ cs) as [tail|] eqn:Htail; [|done]. injection Hl as <-.
  constructor; [|by apply IH]. exists (Deployment_Region d), policy. done.
Qed.

(** The usage a route was estimated for. *)
Definition as_estimated (usage : ModelUsage) (req : RouteRequest) : Prop :=
  ModelTypes.Usage_InputTokens (ModelUsage_Usage usage) = Req_EstimatedInputTokens req
  ∧ ModelTypes.Usage_OutputTokens (ModelUsage_Usage usage) = Req_EstimatedOutputTokens req
  ∧ ModelTypes.Usage_TotalTokens (ModelUsage_Usage usage)
    = add64 (Req_EstimatedInputTokens req) (Req_EstimatedOutputTokens req)
  ∧ ModelUsage_ServiceTier usage = Req_ServiceTier req.

(** Only the region check depends on the region. *)
Lemma quote_components_as_estimated policy usage req region region' :
  as_estimated usage req →
  quote_components policy (usage_estimate usage region (Req_InferenceEffort req))
  = quote_components policy (request_usage req region').
Proof.
  intros (H1 & H2 & H3 & H4). unfold quote_components, usage_estimate, request_usage, quote_factor. simpl.
  by rewrite H1, H2, H3, H4.
Qed.

Context `{!PricingPolicyLaws P} {held : R → list CostEvent} `{!CostEventLaws R held}.
Hypothesis EqualFold_refl : ∀ s, EqualFold s s = true.

(** The evidence prices the estimated usage as it did at routing time. *)
Lemma requote repo later decision req at_ item usage :
  evidenced repo decision req at_ item →
  (∀ id v p, pr_Get id v repo = Ok p → pr_Get id v later = Ok p) →
  as_estimated usage req →
  ∃ policy q, pr_Get (Evidence_PolicyID item) (Evidence_PolicyVersion item) later = Ok policy
  ∧ QuotePricing EqualFold policy (usage_estimate usage (Policy_Region policy) (Req_InferenceEffort req))
      (Quote_QuotedAt (Evidence_Quote item)) = Ok q
  ∧ Quote_Components q = Quote_Components (Evidence_Quote item) ∧ Quote_Currency q = Quote_Currency (Evidence_Quote item).
Proof.
  intros (region & policy & Hres & Hq & [= -> -> _] & _) Hlater Hest.
  destruct (resolve_sound _ _ _ _ Hres) as (_ & _ & Hget).
  pose proof (QuotePricing_cases EqualFold policy (request_usage req region) at_) as Hc. rewrite Hq in Hc.
  destruct Hc as [(Hid & Hfrom & Hto & _ & Hcache) ->]. simpl.
  pose proof (QuotePricing_cases EqualFold policy
    (usage_estimate usage (Policy_Region policy) (Req_InferenceEffort req)) at_) as Hc'.
  exists policy. destruct (QuotePricing _ policy (usage_estimate _ _ _) at_) as [q|e].
  - destruct Hc' as [_ ->]. eexists. split; [by apply Hlater|]. split; [done|]. simpl.
    by rewrite (quote_components_as_estimated _ _ _ _ region Hest).
  - exfalso. apply Hc'. split_and!; try done; try tauto. simpl. destruct Hest as (-> & _). simpl in Hcache. lia.
Qed.

Lemma component_events now usage evidence currency cs :
  let l := imap (component_event now usage evidence currency) cs in
  length l = length cs ∧ Cost_Amount <$> l = Component_Amount <$> cs
  ∧ Forall (λ e, Cost_TaskID e = ModelUsage_TaskID usage ∧ Cost_Currency e = currency) l.
Proof.
  intros l. subst l. split_and!; [apply length_imap| |].
  - rewrite fmap_imap. apply list_eq. intros i. rewrite list_lookup_imap, list_lookup_fmap. by destruct (cs !! i).
  - apply Forall_lookup. intros i e He. rewrite list_lookup_imap in He. destruct (cs !! i); by simplify_eq/=.
Qed.

(** What was quoted is what is charged.  Take the pricing evidence of a route
    decision, and a policy store to which versions may have been added since.  If
    the usage is the estimated one, reconciling it charges the components of the
    route-time quote, in its currency, to the task: the amounts recorded add up
    to exactly the quoted total, whatever policies are in force by then; on an
    error of the ledger only a prefix of them is recorded. *)
Theorem reconciled_cost_is_quoted b self repo decision req items item later now usage r :
  b_pricing b !! self = Some repo →
  PricingEvidence EqualFold b self decision req = Ok items → item ∈ items →
  (∀ id v p, pr_Get id v repo = Ok p → pr_Get id v later = Ok p) →
  as_estimated usage req →
  let quote := Evidence_Quote item in
  let res := RecordReconciledModelUsage now usage item (Some later) (Req_InferenceEffort req) (Some r) in
  ∃ r' stored, snd res = Some r' ∧ held r' = held r ++ stored
  ∧ Forall (λ e, Cost_TaskID e = ModelUsage_TaskID usage ∧ Cost_Currency e = Quote_Currency quote) stored
  ∧ Cost_Amount <$> stored = Component_Amount <$> take (length stored) (Quote_Components quote)
  ∧ match fst res with
    | Ok l => l = stored ∧ foldl f_add f_zero (Cost_Amount <$> stored) = Quote_Total quote
    | Err _ => length stored < length (Quote_Components quote)
    end.
Proof.
  intros Hb Hev Hin Hlater Hest quote res. unfold PricingEvidence in Hev. rewrite Hb in Hev.
  destruct (b_deployments b !! self) as [deployments|]; [|simplify_eq; by apply not_elem_of_nil in Hin].
  destruct (IsZero _); [done|]. apply evidence_loop_sound in Hev. rewrite Forall_forall in Hev.
  specialize (Hev _ Hin). destruct (requote _ _ _ _ _ _ _ Hev Hlater Hest) as (policy & q & Hget & Hq & Hcomp & Hcur).
  destruct Hev as (region & policy0 & _ & Hquote & _ & Hval).
  subst res. unfold RecordReconciledModelUsage. rewrite Hval. cbn [mbind result_bind]. rewrite Hget, Hq.
  destruct (component_events now usage item (Quote_Currency q) (Quote_Components q)) as (Hlen & Ham & Htask).
  set (l := imap _ _) in *.
  destruct (append_loop_spec "append reconciled cost event: %w" l r) as (stored & Hh & Hf & Hr).
  destruct (append_loop _ l r) as [res r']. simpl in *. exists r', stored. unfold quote. rewrite <- Hcomp, <- Hcur.
  assert (Cost_Amount <$> stored = Component_Amount <$> take (length stored) (Quote_Components q)) as Hamt.
  { rewrite fmap_take, <- Ham, <- fmap_take. symmetry. apply list_eq_Forall2, Forall2_fmap.
    eapply Forall2_impl; [exact Hf|]. by intros e s (_ & -> & _). }
  split_and!; try done.
  - apply (Forall_take _ (length stored)) in Htask. eapply Forall2_Forall_r; [exact Hf|].
    eapply Forall_impl; [exact Htask|]. simpl. intros e [Ht Hc] s (-> & _ & ->). done.
  - destruct res as [l'|e].
    + destruct Hr as [-> Hl]. split; [done|]. rewrite Hamt, take_ge by lia.
      pose proof (QuotePricing_cases EqualFold policy0 (request_usage req region) (Decision_CreatedAt decision)) as Hc.
      rewrite Hquote in Hc. destruct Hc as [_ Hc]. rewrite Hcomp, Hc. simpl. by rewrite total_foldl.
    + by rewrite <- Hlen.
Qed.

End reconcile.
End Reconcile.

(** * RouteExamples: a concrete route and its price

    One model with two deployments and a policy for each, used to run the
    routing and pricing theorems. *)

Module RouteExamples.
Import Domain RouteTypes ModelTypes Pricing Router RouterSpec CostLedger Reconcile.

(** Case folding of ASCII words. *)
Definition fold_ascii (a b : string) : bool := ToLower a ==? ToLower b.
Lemma fold_ascii_refl s : fold_ascii s s = true.
Proof. unfold fold_ascii. by case_bool_decide. Qed.

Definition sample_deployment (id : string) : Deployment :=
  mkDeployment id "m" "m" "1" "p" "" DeploymentSelfHosted "eu" "" "" "" ""
    (Build_PricingProfile "USD" (f_int 3) (f_int 6) f_zero f_zero) HealthHealthy (Some 90%Z) 0 f_zero 10 10 0 [] []
    DeploymentReady true "" "" [] 1%Z 1%Z.

Definition sample_policy (id deployment : string) (input output : Z) : PricingPolicy :=
  mkPricingPolicy id "v1" deployment "USD" "EU" (f_int input) (f_int output) f_zero f_zero
    [mkBand 1000000 0 (Some (f_int (input + 1))) None None None] f_zero f_zero [(TierBatch, f_int 2)] []
    (mkCapacity "" "" f_zero f_zero) (mkSelfHosted f_zero f_zero f_zero f_zero) 10%Z None "" "digest" 5%Z.

(** Two policies are created; the second deployment is the cheaper one. *)
Definition sample_policies : MemoryPricingPolicies :=
  snd (Memory_Create (sample_policy "cheap" "d2" 1 2)
    (snd (Memory_Create (sample_policy "dear" "d1" 10 20) NewMemoryPricingPolicies))).

Lemma sample_policies_keyed : keyed sample_policies.
Proof. do 2 apply Memory_Create_keyed. apply map_Forall_empty. Qed.

Definition sample_order (r : MemoryPricingPolicies) : list PricingPolicy := (map_to_list r).*2.
Definition sample_policy_repository := Memory_policies sample_order.
Definition sample_repo : { r : MemoryPricingPolicies | keyed r } := exist _ sample_policies sample_policies_keyed.
Lemma sample_policy_laws : @PricingPolicyLaws _ sample_policy_repository.
Proof. apply Memory_policies_laws. intros r. unfold visits, sample_order. reflexivity. Qed.

Definition sample_deployments : Deployments := mkDeployments
  (λ _ _, Ok []) (λ id, Ok (if id ==? "m" then [sample_deployment "d1"; sample_deployment "d2"] else []))
  (λ id, Ok (sample_deployment id)).

Definition sample_route_request : RouteRequest :=
  mkRouteRequest "t1" RouteEfficient [] EffortZero TierZero 500000 500000 (f_int 50) "" "" "e1" "p1" false true 0%Z.

(** The same, satisfied by a model without fresh signals. *)
Definition sample_route_request' : RouteRequest :=
  mkRouteRequest "t1" RouteEfficient [] EffortZero TierZero 500000 500000 (f_int 50) "" "" "e1" "p1" false false 0%Z.

(** Routers over the memory evidence store of [Admission]. *)
Abbreviation sample_store_class := (Admission.MemoryStore_Store Admission.sample_range).
Definition sample_router : @RouterState Admission.MemoryStore :=
  mkRouter (Ok [Admission.sample_model]) None None 100%Z.
Abbreviation sample_bindings pricing :=
  (mkBindings (R:={ r : MemoryPricingPolicies | keyed r }) {[ 1%positive := sample_deployments ]}
    {[ 1%positive := Ok [ModelVersionFromLegacy Admission.sample_model] ]} pricing).

Abbreviation sample_plan b self :=
  (@PlanWithDeployments fold_ascii SliceStable (λ _, "cost") _ sample_store_class _ sample_policy_repository
    b self sample_router sample_route_request (Some sample_deployments)).

Definition sample_decision : RouteDecision :=
  match sample_plan (sample_bindings {[ 1%positive := sample_repo ]}) 1%positive with
  | Ok d => d
  | Err _ => RouteDecisionZero
  end.

Lemma sample_decision_eq : sample_plan (sample_bindings {[ 1%positive := sample_repo ]}) 1%positive = Ok sample_decision.
Proof. vm_compute. reflexivity. Qed.

Example sample_selects_cheapest : Candidate_DeploymentID (Decision_Selected sample_decision) = "d2".
Proof. vm_compute. reflexivity. Qed.

(** ** The theorems, run *)

Lemma Decide_correct_witness :
  ∃ d, @Decide fold_ascii SliceStable _ sample_store_class sample_router sample_route_request' = Ok d
  ∧ Candidate_ModelID (Decision_Selected d) = "m"
  ∧ ranked (List.filter no_reasons (Decision_Candidates d)) (Decision_Selected d) (Decision_FallbackChain d).
Proof.
  pose proof (@Decide_correct fold_ascii _ sample_store_class SliceStable _ sample_router sample_route_request'
    eq_refl ltac:(discriminate) ltac:(discriminate)) as Ht. cbv zeta in Ht.
  destruct (@Decide fold_ascii SliceStable _ sample_store_class sample_router sample_route_request') as [d|e] eqn:E;
    [|vm_compute in E; discriminate].
  destruct Ht as (models & _ & _ & Hr & _). exists d. split; [reflexivity|]. split; [|exact Hr].
  vm_compute in E. injection E as <-. reflexivity.
Defined.

Lemma PlanWithDeployments_correct_witness :
  Candidate_DeploymentID (Decision_Selected sample_decision) = "d2"
  ∧ ranked (filter (λ c, Candidate_DeploymentID c ≠ "" ∧ Candidate_RejectionReasons c = []) (Decision_Candidates sample_decision)) (Decision_Selected sample_decision)
      (Decision_FallbackChain sample_decision).
Proof.
  split; [vm_compute; reflexivity|].
  destruct (@PlanWithDeployments_correct fold_ascii _ sample_store_class _ sample_policy_repository SliceStable _
    (λ _, "cost") (sample_bindings {[ 1%positive := sample_repo ]}) 1%positive sample_router sample_route_request
    sample_deployments sample_decision ltac:(discriminate) sample_decision_eq) as (_ & Hr & _). exact Hr.
Defined.

(** [Plan] on the same router, with its local copy at address 2, picks the other
    deployment: it ranks by the profiles, which are equal. *)
Abbreviation sample_plan_copy pricing :=
  (@Plan fold_ascii SliceStable (λ _, "cost") _ sample_store_class _ sample_policy_repository
    (WithPricingPolicies 1%positive pricing (sample_bindings ∅)) (Some (1%positive, sample_router)) 2%positive
    sample_route_request).

Lemma Plan_ignores_pricing_policies_witness :
  sample_plan_copy (Some sample_repo) = sample_plan_copy None
  ∧ match sample_plan_copy None with
    | Ok d => Candidate_DeploymentID (Decision_Selected d) = "d1"
    | Err _ => False
    end.
Proof.
  split; [|vm_compute; reflexivity].
  exact (@Plan_ignores_pricing_policies fold_ascii _ sample_store_class _ sample_policy_repository SliceStable
    (λ _, "cost") (sample_bindings ∅) 1%positive sample_router 2%positive sample_route_request sample_deployments
    (Ok [ModelVersionFromLegacy Admission.sample_model]) eq_refl eq_refl eq_refl (Some sample_repo)
    ltac:(discriminate)).
Defined.

Lemma Resolve_correct_witness :
  ∃ p, Memory_Resolve (sample_order sample_policies) "d2" 100%Z = Ok p ∧ Policy_ID p = "cheap"
  ∧ effective p 100%Z = true.
Proof.
  pose proof (Resolve_correct (sample_order sample_policies) sample_policies "d2" 100%Z sample_policies_keyed
    (reflexivity _)) as Ht.
  destruct (Memory_Resolve (sample_order sample_policies) "d2" 100%Z) as [p|e] eqn:E; [|vm_compute in E; discriminate].
  destruct Ht as (_ & He & _). exists p. split; [reflexivity|]. split; [|exact He].
  vm_compute in E. injection E as <-. reflexivity.
Defined.

Definition sample_quote : PricingQuote :=
  match QuotePricing fold_ascii (sample_policy "cheap" "d2" 1 2) (request_usage sample_route_request "eu") 100%Z with
  | Ok q => q
  | Err _ => mkPricingQuote "" "" "" "" "" [] f_zero 0%Z
  end.

Lemma quote_is_not_negative_witness :
  length (Quote_Components sample_quote) = 2 ∧ f_lt (Quote_Total sample_quote) f_zero = false.
Proof.
  split; [vm_compute; reflexivity|].
  refine (proj1 (quote_is_not_negative fold_ascii (sample_policy "cheap" "d2" 1 2)
    (request_usage sample_route_request "eu") 100%Z sample_quote _ _ _)).
  - split; [split_and!; reflexivity| |split; reflexivity|split_and!; reflexivity].
    apply Forall_singleton. split_and!; intros v Hv; simpl in Hv; try discriminate. injection Hv as <-. reflexivity.
  - split; [discriminate|discriminate|split_and!; reflexivity].
  - vm_compute. reflexivity.
Defined.

Lemma QuotePricing_correct_witness :
  Quote_Total sample_quote = foldl f_add f_zero (Component_Amount <$> Quote_Components sample_quote).
Proof.
  refine (proj2 (proj2 (proj2 (QuotePricing_correct fold_ascii (sample_policy "cheap" "d2" 1 2)
    (request_usage sample_route_request "eu") 100%Z) sample_quote _))).
  vm_compute. reflexivity.
Defined.

(** A dearer policy for the same deployment, created after the route. *)
Definition sample_later : { r : MemoryPricingPolicies | keyed r } :=
  exist _ (snd (Memory_Create (sample_policy "raised" "d2" 100 200) sample_policies))
    (Memory_Create_keyed _ _ sample_policies_keyed).

Definition sample_items : list RoutePricingEvidence :=
  match @PricingEvidence fold_ascii _ sample_policy_repository (sample_bindings {[ 1%positive := sample_repo ]})
          1%positive sample_decision sample_route_request with
  | Ok l => l
  | Err _ => []
  end.

Definition sample_item : RoutePricingEvidence :=
  default (mkRoutePricingEvidence "" "" "" "" "" sample_quote false 0%Z) (last sample_items).

Definition sample_metered : ModelUsage :=
  mkModelUsage "t1" "trace" "p" "m" "1" "d2" CostLedger.sample_pricing (mkTokenUsage 500000 500000 1000000) 1 TierZero.

Abbreviation sample_reconciled :=
  (@RecordReconciledModelUsage fold_ascii _ sample_policy_repository _ CostLedger.sample_repository 200%Z sample_metered
    sample_item (Some sample_later) (Req_InferenceEffort sample_route_request) (Some [])).

Lemma reconciled_cost_is_quoted_witness :
  ∃ l, fst sample_reconciled = Ok l ∧ length l = 2 ∧ Evidence_PolicyID sample_item = "cheap"
  ∧ foldl f_add f_zero (Cost_Amount <$> l) = Quote_Total (Evidence_Quote sample_item).
Proof.
  destruct (@reconciled_cost_is_quoted fold_ascii _ sample_policy_repository _ CostLedger.sample_repository
    sample_policy_laws (λ r, r) CostLedger.sample_laws fold_ascii_refl
    (sample_bindings {[ 1%positive := sample_repo ]}) 1%positive sample_repo sample_decision sample_route_request
    sample_items sample_item sample_later 200%Z sample_metered []) as (r' & stored & _ & _ & _ & _ & Hres).
  - reflexivity.
  - vm_compute. reflexivity.
  - apply list_elem_of_lookup. exists 1. vm_compute. reflexivity.
  - intros id v p Hp. by apply Memory_Create_Get.
  - repeat split.
  - cbv zeta in Hres. match type of Hres with match ?x with _ => _ end => destruct x as [l|e] eqn:E end;
      [|vm_compute in E; discriminate].
    destruct Hres as [-> Hsum]. exists stored. split; [exact E|]. split; [|split; [vm_compute; reflexivity|exact Hsum]].
    vm_compute in E. injection E as <-. reflexivity.
Defined.

End RouteExamples.
