(* ===== verification/ModelRuntime.v ===== *)
(** * ModelRuntime: calling models along a route

    [src/internal/modelruntime/executor.go]: the selected candidate, then its
    fallbacks in order, each behind its circuit breaker, until one answers or
    fails for good.  The breaker is [CircuitBreaker]'s over any store, the
    ledger [CostLedger]'s over any repository.  What an attempt reads from
    outside (clock, random bytes, the registries and the provider's answer) is
    one [AttemptEnv], given per attempt number; a provider that reports no error
    returns a response.  Failures to append a trace event are ignored, as in the
    code. *)
From S2P Require Import Prelude Domain RouteTypes ModelTypes GoStrings CircuitBreaker CostLedger.
From S2P Require Import LeaseStore Admission.

Module ModelRuntime.
Import Domain RouteTypes ModelTypes CostLedger.

(** ** The in-memory provider registry; a nil provider is [None] *)
Definition MemoryProviderRegistry (P : Type) : Type := gmap string P.
Definition Registry_Get {P} (key : string) (r : MemoryProviderRegistry P) : result P :=
  match r !! key with
  | None => Err (Errorf "provider for %s is not registered" [AStr key])
  | Some item => Ok item
  end.
Definition Registry_Put {P} (key : string) (item : option P) (r : MemoryProviderRegistry P)
    : result unit * MemoryProviderRegistry P :=
  match item with
  | Some item =>
      if key ==? "" then (Err (Errorf "provider key and provider are required" []), r)
      else (Ok tt, <[key := item]> r)
  | None => (Err (Errorf "provider key and provider are required" []), r)
  end.

(** ** Trace events ([src/internal/trace/store.go]) *)
Inductive TraceStatus : Type := StatusStarted | StatusOK | StatusError | StatusSkipped | StatusOther (s : string).

Record TraceEvent : Type := mkTraceEvent {
  Trace_ID : string;
  Trace_TraceID : string;
  Trace_TaskID : string;
  Trace_SpanID : string;
  Trace_ParentSpanID : string;
  Trace_Name : string;
  Trace_Kind : string;
  Trace_Status : TraceStatus;
  Trace_Message : string;
  Trace_Attributes : list (string * string);
  Trace_InputDigest : string;
  Trace_OutputDigest : string;
  Trace_StartedAt : Time;
  Trace_EndedAt : option Time
}.

(** ** Data *)
Record Attempt : Type := mkAttempt {
  Attempt_OperationID : string;
  Attempt_AttemptID : string;
  Attempt_ModelID : string;
  Attempt_ModelVersion : string;
  Attempt_DeploymentID : string;
  Attempt_Status : string;
  Attempt_ErrorCode : string;
  Attempt_ErrorMessage : string;
  Attempt_Retryable : bool;
  Attempt_CircuitState : CircuitBreaker.State;
  Attempt_LatencyMS : Z;
  Attempt_StartedAt : Time;
  Attempt_CompletedAt : Time
}.

Record Result : Type := mkResult {
  Result_Candidate : RouteCandidate;
  Result_Response : option ProviderResponse;
  Result_Attempts : list Attempt;
  Result_Fallback : bool
}.
Definition ResultZero : Result := mkResult RouteCandidateZero None [] false.

(** Fields set one after the other. *)
Definition at_status (a : Attempt) (status : string) : Attempt :=
  mkAttempt (Attempt_OperationID a) (Attempt_AttemptID a) (Attempt_ModelID a) (Attempt_ModelVersion a)
    (Attempt_DeploymentID a) status (Attempt_ErrorCode a) (Attempt_ErrorMessage a) (Attempt_Retryable a)
    (Attempt_CircuitState a) (Attempt_LatencyMS a) (Attempt_StartedAt a) (Attempt_CompletedAt a).
Definition at_error (a : Attempt) (code message : string) (retryable : bool) : Attempt :=
  mkAttempt (Attempt_OperationID a) (Attempt_AttemptID a) (Attempt_ModelID a) (Attempt_ModelVersion a)
    (Attempt_DeploymentID a) (Attempt_Status a) code message retryable (Attempt_CircuitState a)
    (Attempt_LatencyMS a) (Attempt_StartedAt a) (Attempt_CompletedAt a).
Definition at_circuit (a : Attempt) (s : CircuitBreaker.State) : Attempt :=
  mkAttempt (Attempt_OperationID a) (Attempt_AttemptID a) (Attempt_ModelID a) (Attempt_ModelVersion a)
    (Attempt_DeploymentID a) (Attempt_Status a) (Attempt_ErrorCode a) (Attempt_ErrorMessage a)
    (Attempt_Retryable a) s (Attempt_LatencyMS a) (Attempt_StartedAt a) (Attempt_CompletedAt a).
Definition at_completed (a : Attempt) (latency : Z) (completed : Time) : Attempt :=
  mkAttempt (Attempt_OperationID a) (Attempt_AttemptID a) (Attempt_ModelID a) (Attempt_ModelVersion a)
    (Attempt_DeploymentID a) (Attempt_Status a) (Attempt_ErrorCode a) (Attempt_ErrorMessage a)
    (Attempt_Retryable a) (Attempt_CircuitState a) latency (Attempt_StartedAt a) completed.

(** [string(x)] of the enumerations a trace event names. *)
Definition RouteClass_string (c : RouteClass) : string :=
  match c with
  | RouteDeterministic => "deterministic" | RouteEfficient => "efficient" | RouteSpecialist => "specialist"
  | RouteFlagship => "flagship" | RouteClassOther s => s
  end.
Definition InferenceEffort_string (e : InferenceEffort) : string :=
  match e with
  | EffortMinimal => "minimal" | EffortLow => "low" | EffortMedium => "medium" | EffortHigh => "high"
  | EffortOther s => s
  end.
Definition State_string (s : CircuitBreaker.State) : string :=
  match s with
  | CircuitBreaker.StateClosed => "closed" | CircuitBreaker.StateOpen => "open"
  | CircuitBreaker.StateHalfOpen => "half-open" | CircuitBreaker.StateOther s => s
  end.

(** ** Errors *)

Definition classify (err : error) : string * bool :=
  match errors_AsProvider err with
  | Some (code, _, retryable) =>
      (code, retryable || (code ==? ErrProviderUnavailable) || (code ==? ErrProviderTimeout)
             || (code ==? ErrRateLimited))
  | None =>
      if errors_Is err "context.DeadlineExceeded" then (ErrProviderTimeout, true) else ("", false)
  end.

(** ** One attempt *)

(** What one attempt reads from outside. *)
Record AttemptEnv (P : Type) : Type := mkAttemptEnv {
  ae_started : Time;                                     (** the first [e.now()] *)
  ae_completed : Time;                                   (** the [e.now()] that completes it *)
  ae_entropy : result (list ascii);                      (** [rand.Read] of 12 bytes *)
  ae_allow_at : Time;                                    (** the breaker's clock in [Allow] *)
  ae_report_at : Time;                                   (** and in [Success] or [Failure] *)
  ae_provider : string → result P;                       (** [e.providers.Get] *)
  ae_generate : P → ProviderRequest → result ProviderResponse;
  ae_model : string → result Model;                      (** [e.models.Get] *)
  ae_cost_at : Time;                                     (** the ledger's clock *)
  ae_trace_id : string;
  ae_span_id : string
}.
Arguments ae_started {P}. Arguments ae_completed {P}. Arguments ae_entropy {P}. Arguments ae_allow_at {P}.
Arguments ae_report_at {P}. Arguments ae_provider {P}. Arguments ae_generate {P}. Arguments ae_model {P}.
Arguments ae_cost_at {P}. Arguments ae_trace_id {P}. Arguments ae_span_id {P}.

Definition newPhysicalAttemptID {P} (env : AttemptEnv P) (operationID : string) (attemptNumber : Z) (started : Time)
    : string :=
  match ae_entropy env with
  | Ok bytes => operationID +:+ ":attempt:" +:+ LeaseStore.EncodeToString bytes
  | Err _ => operationID +:+ ":attempt:" +:+ Itoa (UnixNano started) +:+ ":" +:+ Itoa attemptNumber
  end.

Section runtime.
Context {S : Type} `{CircuitBreaker.Store S}.
Context {R : Type} `{CostEventRepository R}.
Context {P : Type}.
Variable breaker : CircuitBreaker.Breaker.
(** [err.Error()]. *)
Variable error_text : error → string.

(** [e.costs] (the ledger, nil when absent, and its repository, which may be nil
    too), [e.traces] (nil when absent) and, to state what the code does, the
    provider calls made: the attempt and the key the provider was found under. *)
Record World : Type := mkWorld {
  w_breaker : S;
  w_costs : option (option R);
  w_traces : option (list TraceEvent);
  w_calls : list (Z * string)
}.
Definition set_breaker (s : S) (w : World) : World := mkWorld s (w_costs w) (w_traces w) (w_calls w).
Definition set_costs (c : option (option R)) (w : World) : World := mkWorld (w_breaker w) c (w_traces w) (w_calls w).

Definition appendTrace (env : AttemptEnv P) (taskID traceID : string) (candidate : RouteCandidate) (a : Attempt)
    (message : string) (w : World) : World :=
  match w_traces w with
  | None => w
  | Some events =>
      let status := if Attempt_Status a ==? "SUCCEEDED" then StatusOK
                    else if Attempt_Status a ==? "SKIPPED_OPEN_CIRCUIT" then StatusSkipped else StatusError in
      let attributes :=
        [("model.operation_id", Attempt_OperationID a); ("model.attempt_id", Attempt_AttemptID a);
         ("model.id", Candidate_ModelID candidate); ("model.version", Candidate_ModelVersion candidate);
         ("route.class", RouteClass_string (Candidate_RouteClass candidate));
         ("service.tier", ServiceTier_string (Candidate_ServiceTier candidate));
         ("inference.effort", InferenceEffort_string (Candidate_InferenceEffort candidate));
         ("attempt.status", Attempt_Status a); ("circuit.state", State_string (Attempt_CircuitState a))]
        ++ (if Candidate_DeploymentID candidate ==? "" then []
            else [("deployment.id", Candidate_DeploymentID candidate)]) in
      mkWorld (w_breaker w) (w_costs w)
        (Some (events ++ [mkTraceEvent (ae_trace_id env) traceID taskID (ae_span_id env) "" "model.generate"
                            "MODEL_CALL" status message attributes "" "" (Attempt_StartedAt a)
                            (Some (Attempt_CompletedAt a))])) (w_calls w)
  end.

(** [providerKey], then the model's key when the deployment has no provider of
    its own; the key that was found. *)
Definition find_provider (env : AttemptEnv P) (candidate : RouteCandidate) : result (P * string) :=
  let key := if Candidate_DeploymentID candidate ==? "" then Candidate_ModelID candidate
             else Candidate_DeploymentID candidate in
  match ae_provider env key with
  | Ok p => Ok (p, key)
  | Err e =>
      if Candidate_DeploymentID candidate ==? "" then Err e
      else match ae_provider env (Candidate_ModelID candidate) with
           | Ok p => Ok (p, Candidate_ModelID candidate)
           | Err e => Err e
           end
  end.

Definition breakerKey (candidate : RouteCandidate) : string :=
  if Candidate_DeploymentID candidate ==? ""
  then Candidate_ModelID candidate +:+ "@" +:+ Candidate_ModelVersion candidate
  else Candidate_DeploymentID candidate.

(** [cost.ModelUsage{..}] of an answered attempt. *)
Definition attempt_usage (taskID traceID : string) (candidate : RouteCandidate) (model : Model)
    (response : ProviderResponse) (attemptNumber : Z) : ModelUsage :=
  mkModelUsage taskID traceID (Model_Provider model) (Model_ID model) (Model_Version model)
    (Candidate_DeploymentID candidate) (Model_Pricing model) (Response_TokenUsage response) attemptNumber
    (Candidate_ServiceTier candidate).

(** After the provider answered: report to the breaker, charge the usage. *)
Definition settle (env : AttemptEnv P) (taskID traceID : string) (candidate : RouteCandidate) (attemptNumber : Z)
    (attempt : Attempt) (response : ProviderResponse) (w : World)
    : (Attempt * option ProviderResponse * bool * option error) * World :=
  let '(r, s) := CircuitBreaker.Success (breakerKey candidate) (ae_report_at env) (w_breaker w) in
  let w := set_breaker s w in
  match r with
  | Err e => ((attempt, None, false, Some e), w)
  | Ok _ =>
      let attempt := at_circuit (at_status attempt "SUCCEEDED") CircuitBreaker.StateClosed in
      match w_costs w with
      | None =>
          ((attempt, Some response, false, None), appendTrace env taskID traceID candidate attempt "" w)
      | Some events =>
          match ae_model env (Candidate_ModelID candidate) with
          | Err e => ((attempt, None, false, Some e), w)
          | Ok model =>
              let '(c, events) := RecordModelUsage (ae_cost_at env)
                                    (attempt_usage taskID traceID candidate model response attemptNumber) events in
              let w := set_costs (Some events) w in
              match c with
              | Err e => ((attempt, None, false, Some e), w)
              | Ok _ =>
                  ((attempt, Some response, false, None), appendTrace env taskID traceID candidate attempt "" w)
              end
          end
      end
  end.

(** After the provider failed. *)
Definition fail (env : AttemptEnv P) (taskID traceID : string) (candidate : RouteCandidate) (attempt : Attempt)
    (e : error) (w : World) : (Attempt * option ProviderResponse * bool * option error) * World :=
  let '(code, retryable) := classify e in
  let attempt := at_error (at_status attempt "FAILED") code (error_text e) retryable in
  if retryable then
    let '(r, s) := CircuitBreaker.Failure breaker (breakerKey candidate) (ae_report_at env) (w_breaker w) in
    let w := set_breaker s w in
    match r with
    | Err be => ((attempt, None, false, Some be), w)
    | Ok snapshot =>
        let attempt := at_circuit attempt (CircuitBreaker.Snap_State snapshot) in
        ((attempt, None, retryable, Some e), appendTrace env taskID traceID candidate attempt (error_text e) w)
    end
  else ((attempt, None, retryable, Some e), appendTrace env taskID traceID candidate attempt (error_text e) w).

(** The attempt, the response, whether to go on to the next candidate, and the error. *)
Definition executeCandidate (env : AttemptEnv P) (taskID traceID : string) (candidate : RouteCandidate)
    (request : ProviderRequest) (attemptNumber : Z) (w : World)
    : (Attempt * option ProviderResponse * bool * option error) * World :=
  let started := ae_started env in
  let operationID := if Request_RequestID request ==? "" then taskID else Request_RequestID request in
  let attempt := mkAttempt operationID (newPhysicalAttemptID env operationID attemptNumber started)
                   (Candidate_ModelID candidate) (Candidate_ModelVersion candidate)
                   (Candidate_DeploymentID candidate) "STARTED" "" "" false
                   (CircuitBreaker.StateOther "") 0 started 0%Z in
  let '(allow, s) := CircuitBreaker.Allow breaker (breakerKey candidate) (ae_allow_at env) (w_breaker w) in
  let w := set_breaker s w in
  match allow with
  | Err e => ((attempt, None, false, Some e), w)
  | Ok (allowed, snapshot) =>
      let attempt := at_circuit attempt (CircuitBreaker.Snap_State snapshot) in
      if negb allowed then
        let attempt := at_completed (at_error (at_status attempt "SKIPPED_OPEN_CIRCUIT") "" "" true) 0
                         (ae_completed env) in
        ((attempt, None, true, Some (Errorf "circuit breaker is open for %s" [AStr (breakerKey candidate)])),
         appendTrace env taskID traceID candidate attempt "circuit breaker is open" w)
      else match find_provider env candidate with
      | Err e =>
          let attempt := at_completed (at_error (at_status attempt "FAILED") "" (error_text e) false) 0
                           (ae_completed env) in
          ((attempt, None, false, Some e), appendTrace env taskID traceID candidate attempt (error_text e) w)
      | Ok (adapter, key) =>
          let w := mkWorld (w_breaker w) (w_costs w) (w_traces w) (w_calls w ++ [(attemptNumber, key)]) in
          let attempt := at_completed attempt (Milliseconds (Sub (ae_completed env) started)) (ae_completed env) in
          match ae_generate env adapter request with
          | Err e => fail env taskID traceID candidate attempt e w
          | Ok response => settle env taskID traceID candidate attemptNumber attempt response w
          end
      end
  end.

(** ** The route *)

(** The loop from candidate [index] on, with the attempts and the last error so far. *)
Fixpoint execute_loop (envs : Z → AttemptEnv P) (taskID traceID : string) (request : ProviderRequest)
    (candidates : list RouteCandidate) (index : Z) (attempts : list Attempt) (lastErr : option error) (w : World)
    : (Result * option error) * World :=
  match candidates with
  | [] =>
      let lastErr := match lastErr with None => Errorf "no executable route candidate" [] | Some e => e end in
      ((mkResult RouteCandidateZero None attempts (1 <? Z.of_nat (length attempts))%Z, Some lastErr), w)
  | candidate :: rest =>
      let '((attempt, response, retryable, err), w) :=
        executeCandidate (envs (index + 1)%Z) taskID traceID candidate request (index + 1) w in
      let attempts := attempts ++ [attempt] in
      match err with
      | None => ((mkResult candidate response attempts (0 <? index)%Z, None), w)
      | Some e =>
          if negb retryable then ((mkResult candidate None attempts (0 <? index)%Z, Some e), w)
          else execute_loop envs taskID traceID request rest (index + 1) attempts (Some e) w
      end
  end.

Definition Execute (envs : Z → AttemptEnv P) (taskID traceID : string) (decision : RouteDecision)
    (request : ProviderRequest) (w : World) : (Result * option error) * World :=
  if (taskID ==? "") || (traceID ==? "")
  then ((ResultZero, Some (Errorf "task ID and trace ID are required" [])), w)
  else if Candidate_RouteClass (Decision_Selected decision) ==? RouteDeterministic
  then ((mkResult (Decision_Selected decision) None [] false, None), w)
  else execute_loop envs taskID traceID request
         (Decision_Selected decision :: Decision_FallbackChain decision) 0 [] None w.

(** ** What an attempt may do

    The store of the breaker is seen through [view], the repository of the ledger
    through [held]. *)
Context {view : S → string → CircuitBreaker.Snapshot} `{!CircuitBreaker.StoreLaws S view}.
Context {held : R → list CostEvent} `{!CostEventLaws R held}.

Abbreviation views := (string → CircuitBreaker.Snapshot) (only parsing).

(** Snapshots are kept under their own keys. *)
Definition keyed (v : views) : Prop := ∀ key, CircuitBreaker.Snap_Key (v key) = key.
Definition same (v v' : views) : Prop := ∀ key, v' key = v key.
(** Only the snapshot of [key] changes, to one that satisfies [Q]. *)
Definition changes (v v' : views) (key : string) (Q : CircuitBreaker.Snapshot → Prop) : Prop :=
  Q (v' key) ∧ CircuitBreaker.Snap_Key (v' key) = key ∧ ∀ k, k ≠ key → v' k = v k.

(** The circuit of a candidate: its deployment, or its model and version. *)
Definition circuit (c : RouteCandidate) (key : string) : Prop :=
  Candidate_DeploymentID c ≠ "" ∧ key = Candidate_DeploymentID c
  ∨ Candidate_DeploymentID c = "" ∧ key = Candidate_ModelID c +:+ "@" +:+ Candidate_ModelVersion c.

(** It is open and its cooldown has not passed. *)
Definition blocked (x : CircuitBreaker.Snapshot) (now : Time) : Prop :=
  CircuitBreaker.Snap_State x = CircuitBreaker.StateOpen
  ∧ ∀ t, CircuitBreaker.Snap_OpenedAt x = Some t → (Sub now t < CircuitBreaker.cooldown breaker)%Z.
(** It lets a call pass: it is not open, or becomes half open after the cooldown. *)
Definition passes (v v' : views) (key : string) (now : Time) : Prop :=
  CircuitBreaker.Snap_State (v key) ≠ CircuitBreaker.StateOpen ∧ same v v'
  ∨ CircuitBreaker.Snap_State (v key) = CircuitBreaker.StateOpen
    ∧ (∃ t, CircuitBreaker.Snap_OpenedAt (v key) = Some t ∧ (CircuitBreaker.cooldown breaker ≤ Sub now t)%Z)
    ∧ changes v v' key (λ x, CircuitBreaker.Snap_State x = CircuitBreaker.StateHalfOpen
        ∧ CircuitBreaker.Snap_ConsecutiveFailures x = CircuitBreaker.Snap_ConsecutiveFailures (v key)).
(** A failure is counted; it opens a half-open circuit, and any at the threshold. *)
Definition counts_failure (v v' : views) (key : string) (now : Time) : Prop :=
  let failures := add64 (CircuitBreaker.Snap_ConsecutiveFailures (v key)) 1 in
  changes v v' key (λ x, CircuitBreaker.Snap_ConsecutiveFailures x = failures
    ∧ (CircuitBreaker.Snap_State (v key) = CircuitBreaker.StateHalfOpen ∨ (CircuitBreaker.failureThreshold breaker ≤ failures)%Z →
       CircuitBreaker.Snap_State x = CircuitBreaker.StateOpen ∧ CircuitBreaker.Snap_OpenedAt x = Some now)
    ∧ (CircuitBreaker.Snap_State (v key) ≠ CircuitBreaker.StateHalfOpen → (failures < CircuitBreaker.failureThreshold breaker)%Z →
       CircuitBreaker.Snap_State x = CircuitBreaker.Snap_State (v key)
       ∧ CircuitBreaker.Snap_OpenedAt x = CircuitBreaker.Snap_OpenedAt (v key))).
(** A success closes it. *)
Definition closes (v v' : views) (key : string) : Prop :=
  changes v v' key (λ x, CircuitBreaker.Snap_State x = CircuitBreaker.StateClosed
    ∧ CircuitBreaker.Snap_ConsecutiveFailures x = 0%Z ∧ CircuitBreaker.Snap_OpenedAt x = None).
(** An error of the store of the breaker. *)
Definition store_error (e : error) : Prop :=
  (∃ key s, fst (CircuitBreaker.Get key s) = Err e) ∨ (∃ x s, fst (CircuitBreaker.Put x s) = Err e).

(** The provider of a candidate: the one registered for its deployment, or else for its model. *)
Definition provided (env : AttemptEnv P) (c : RouteCandidate) (p : P) (key : string) : Prop :=
  Candidate_DeploymentID c ≠ "" ∧ key = Candidate_DeploymentID c ∧ ae_provider env key = Ok p
  ∨ (Candidate_DeploymentID c = "" ∨ ∃ e, ae_provider env (Candidate_DeploymentID c) = Err e)
    ∧ key = Candidate_ModelID c ∧ ae_provider env key = Ok p.
Definition unprovided (env : AttemptEnv P) (c : RouteCandidate) (e : error) : Prop :=
  (Candidate_DeploymentID c = "" ∨ ∃ e', ae_provider env (Candidate_DeploymentID c) = Err e')
  ∧ ae_provider env (Candidate_ModelID c) = Err e.

(** The failures that are worth trying the next candidate. *)
Definition transient (e : error) : Prop :=
  (∃ code message retryable, errors_AsProvider e = Some (code, message, retryable)
     ∧ (retryable = true ∨ code ∈ [ErrProviderUnavailable; ErrProviderTimeout; ErrRateLimited]))
  ∨ errors_AsProvider e = None ∧ errors_Is e "context.DeadlineExceeded" = true.

(** What an answer costs: the tokens in and out at the prices of the model, and the
    premium of a service tier whose factor is above one. *)
Definition charges (model : Model) (c : RouteCandidate) (usage : TokenUsage) : list float64 :=
  let price := Model_Pricing model in
  let input := f_mul (f_int (Usage_InputTokens usage)) (f_div (Pricing_InputPerMillion price) (f_int 1000000)) in
  let output := f_mul (f_int (Usage_OutputTokens usage)) (f_div (Pricing_OutputPerMillion price) (f_int 1000000)) in
  let factor := Pricing_ServiceTierFactor price in
  [input; output]
  ++ (if decide (Candidate_ServiceTier c ≠ TierZero ∧ f_gt factor (f_int 1) = true)
      then [f_mul (f_add input output) (f_sub factor (f_int 1))] else []).

(** Without a ledger nothing is charged; with one, the model is looked up and its
    charges are appended for the task, if the ledger has a repository. *)
Definition charged (env : AttemptEnv P) (taskID : string) (c : RouteCandidate) (response : ProviderResponse)
    (costs costs' : option (option R)) : Prop :=
  costs = None ∧ costs' = None
  ∨ ∃ model, ae_model env (Candidate_ModelID c) = Ok model
    ∧ (costs = Some None ∧ costs' = Some None
       ∨ ∃ r r' events, costs = Some (Some r) ∧ costs' = Some (Some r') ∧ held r' = held r ++ events
         ∧ Forall (λ e, Cost_TaskID e = taskID) events
         ∧ Cost_Amount <$> events = charges model c (Response_TokenUsage response)).
(** The model is unknown, or the repository refused one of the charges: those
    before it stay. *)
Definition uncharged (env : AttemptEnv P) (taskID : string) (c : RouteCandidate) (response : ProviderResponse)
    (costs costs' : option (option R)) : Prop :=
  costs ≠ None ∧ costs' = costs ∧ (∃ e, ae_model env (Candidate_ModelID c) = Err e)
  ∨ ∃ model r r' events, ae_model env (Candidate_ModelID c) = Ok model
    ∧ costs = Some (Some r) ∧ costs' = Some (Some r') ∧ held r' = held r ++ events
    ∧ Forall (λ e, Cost_TaskID e = taskID) events
    ∧ (∃ rest, rest ≠ [] ∧ charges model c (Response_TokenUsage response) = (Cost_Amount <$> events) ++ rest)
    ∧ ∃ event s e, fst (Append event s) = Err e.

(** How an attempt ends: with an answer, with an error that ends the call, or with
    one that passes it on to the next candidate. *)
Inductive ending : Type := Answered (response : ProviderResponse) | GivenUp (e : error) | PassedOn (e : error).

Definition labelled (taskID : string) (request : ProviderRequest) (c : RouteCandidate) (a : Attempt) (status : string) : Prop :=
  Attempt_OperationID a = (if decide (Request_RequestID request = "") then taskID else Request_RequestID request)
  ∧ Attempt_ModelID a = Candidate_ModelID c ∧ Attempt_ModelVersion a = Candidate_ModelVersion c
  ∧ Attempt_DeploymentID a = Candidate_DeploymentID c ∧ Attempt_Status a = status.

Inductive tried (env : AttemptEnv P) (taskID : string) (request : ProviderRequest) (n : Z) (c : RouteCandidate) (w : World)
    : Attempt → ending → World → Prop :=
| tried_blocked key a e w' :
    circuit c key → blocked (view (w_breaker w) key) (ae_allow_at env) →
    labelled taskID request c a "SKIPPED_OPEN_CIRCUIT" →
    same (view (w_breaker w)) (view (w_breaker w')) → w_calls w' = w_calls w → w_costs w' = w_costs w →
    tried env taskID request n c w a (PassedOn e) w'
| tried_unguarded a e w' :
    store_error e → labelled taskID request c a "STARTED" →
    same (view (w_breaker w)) (view (w_breaker w')) → w_calls w' = w_calls w → w_costs w' = w_costs w →
    tried env taskID request n c w a (GivenUp e) w'
| tried_unprovided key a e w' :
    circuit c key → passes (view (w_breaker w)) (view (w_breaker w')) key (ae_allow_at env) → unprovided env c e →
    labelled taskID request c a "FAILED" → w_calls w' = w_calls w → w_costs w' = w_costs w →
    tried env taskID request n c w a (GivenUp e) w'
| tried_refused key v p name a e out w' :
    circuit c key → passes (view (w_breaker w)) v key (ae_allow_at env) → provided env c p name →
    ae_generate env p request = Err e → w_calls w' = w_calls w ++ [(n, name)] → w_costs w' = w_costs w →
    labelled taskID request c a "FAILED" →
    (transient e ∧ counts_failure v (view (w_breaker w')) key (ae_report_at env) ∧ out = PassedOn e
     ∨ (∃ e', transient e ∧ store_error e' ∧ same v (view (w_breaker w')) ∧ out = GivenUp e')
     ∨ ¬ transient e ∧ same v (view (w_breaker w')) ∧ out = GivenUp e) →
    tried env taskID request n c w a out w'
| tried_answered key v p name response a out w' :
    circuit c key → passes (view (w_breaker w)) v key (ae_allow_at env) → provided env c p name →
    ae_generate env p request = Ok response → w_calls w' = w_calls w ++ [(n, name)] →
    (closes v (view (w_breaker w')) key ∧ labelled taskID request c a "SUCCEEDED"
       ∧ charged env taskID c response (w_costs w) (w_costs w') ∧ out = Answered response
     ∨ (∃ e, closes v (view (w_breaker w')) key ∧ labelled taskID request c a "SUCCEEDED"
          ∧ uncharged env taskID c response (w_costs w) (w_costs w') ∧ out = GivenUp e)
     ∨ (∃ e, store_error e ∧ labelled taskID request c a "STARTED" ∧ same v (view (w_breaker w'))
          ∧ w_costs w' = w_costs w ∧ out = GivenUp e)) →
    tried env taskID request n c w a out w'.

(** The candidates in order, numbered from [n] on, until one answers or gives up,
    or none is left: the attempts, the candidate that ended it and how. *)
Inductive followed (envs : Z → AttemptEnv P) (taskID : string) (request : ProviderRequest)
    : Z → list RouteCandidate → World → list Attempt → RouteCandidate → ending → World → Prop :=
| followed_answered n c rest w a response w' :
    tried (envs n) taskID request n c w a (Answered response) w' →
    followed envs taskID request n (c :: rest) w [a] c (Answered response) w'
| followed_given_up n c rest w a e w' :
    tried (envs n) taskID request n c w a (GivenUp e) w' →
    followed envs taskID request n (c :: rest) w [a] c (GivenUp e) w'
| followed_last n c w a e w' :
    tried (envs n) taskID request n c w a (PassedOn e) w' →
    followed envs taskID request n [c] w [a] RouteCandidateZero (GivenUp e) w'
| followed_next n c c' rest w a e w1 attempts last_ out w' :
    tried (envs n) taskID request n c w a (PassedOn e) w1 →
    followed envs taskID request (n + 1) (c' :: rest) w1 attempts last_ out w' →
    followed envs taskID request n (c :: c' :: rest) w (a :: attempts) last_ out w'.

(** ** The breaker *)

Lemma circuit_key c : circuit c (breakerKey c) ∧ breakerKey c ≠ "".
Proof.
  unfold circuit, breakerKey. case_bool_decide as Hd; [|split; [left; done|done]].
  split; [right; done|]. by destruct (Candidate_ModelID c).
Qed.

Lemma changes_keyed v v' key Q : keyed v → changes v v' key Q → keyed v'.
Proof. intros Hv (_ & Hk & Ho) k. destruct (decide (k = key)) as [-> | Hne]; [done|]. by rewrite Ho. Qed.
Lemma same_keyed v v' : keyed v → same v v' → keyed v'.
Proof. intros Hv Hs k. by rewrite Hs. Qed.
Lemma passes_keyed v v' key now : keyed v → passes v v' key now → keyed v'.
Proof. intros Hv [[_ Hs]|(_ & _ & Hc)]; [by eapply same_keyed|by eapply changes_keyed]. Qed.

Lemma Allow_passes key now s :
  key ≠ "" → keyed (view s) →
  let '(r, s') := CircuitBreaker.Allow breaker key now s in
  match r with
  | Ok (true, _) => passes (view s) (view s') key now
  | Ok (false, _) => blocked (view s key) now ∧ same (view s) (view s')
  | Err e => store_error e ∧ same (view s) (view s')
  end.
Proof.
  intros Hk Hkeyed. unfold CircuitBreaker.Allow. rewrite bool_decide_false by done.
  destruct (CircuitBreaker.Get_cases view key s) as [(e & s1 & E & Hv)|(s1 & E & Hv)]; rewrite E.
  { split; [|done]. left. exists key, s. by rewrite E. }
  destruct (CircuitBreaker.Snap_State (view s key) ==? CircuitBreaker.StateOpen) eqn:Ho; cbn [andb].
  2: { apply bool_decide_eq_false in Ho. by left. }
  apply bool_decide_eq_true in Ho.
  destruct (CircuitBreaker.Snap_OpenedAt (view s key)) as [t|] eqn:Ht.
  2: { split; [|done]. split; [done|]. by rewrite Ht. }
  destruct (Z.leb_spec (CircuitBreaker.cooldown breaker) (Sub now t)) as [Hc|Hc].
  2: { split; [|done]. split; [done|]. rewrite Ht. intros t' [= <-]. done. }
  set (x := CircuitBreaker.mkSnapshot _ _ _ _ _ _ _).
  destruct (CircuitBreaker.Put_cases view x s1) as [(e & s2 & E2 & Hv2)|(s2 & E2 & Hx & Hv2)]; rewrite E2; cbn [x].
  { split; [right; exists x, s1; by rewrite E2|]. intros k. by rewrite Hv2. }
  cbn. right. split; [done|]. split; [eauto|]. assert (CircuitBreaker.Snap_Key x = key) as Hxk by apply Hkeyed.
  rewrite Hxk in Hx, Hv2. split; [by rewrite Hx|]. split; [by rewrite Hx|]. intros k Hne. by rewrite Hv2, Hv.
Qed.

Lemma Success_closes key now s :
  let '(r, s') := CircuitBreaker.Success key now s in
  match r with Ok _ => closes (view s) (view s') key | Err e => store_error e ∧ same (view s) (view s') end.
Proof.
  unfold CircuitBreaker.Success.
  destruct (CircuitBreaker.Get_cases view key s) as [(e & s1 & E & Hv)|(s1 & E & Hv)]; rewrite E.
  { split; [|done]. left. exists key, s. by rewrite E. }
  set (x := CircuitBreaker.mkSnapshot _ _ _ _ _ _ _).
  destruct (CircuitBreaker.Put_cases view x s1) as [(e & s2 & E2 & Hv2)|(s2 & E2 & Hx & Hv2)]; rewrite E2.
  { split; [right; exists x, s1; by rewrite E2|]. intros k. by rewrite Hv2. }
  change (CircuitBreaker.Snap_Key x) with key in Hx, Hv2. unfold closes, changes. rewrite Hx. split; [done|]. split; [done|].
  intros k Hne. by rewrite Hv2, Hv.
Qed.

Lemma Failure_counts key now s :
  let '(r, s') := CircuitBreaker.Failure breaker key now s in
  match r with Ok _ => counts_failure (view s) (view s') key now | Err e => store_error e ∧ same (view s) (view s') end.
Proof.
  unfold CircuitBreaker.Failure.
  destruct (CircuitBreaker.Get_cases view key s) as [(e & s1 & E & Hv)|(s1 & E & Hv)]; rewrite E.
  { split; [|done]. left. exists key, s. by rewrite E. }
  unfold counts_failure. set (failures := add64 _ 1). cbv zeta.
  set (x := if _ : bool then CircuitBreaker.mkSnapshot _ _ _ _ _ _ _ else _).
  assert (CircuitBreaker.Snap_Key x = key) as Hxk by (unfold x; by destruct (_ || _)).
  destruct (CircuitBreaker.Put_cases view x s1) as [(e & s2 & E2 & Hv2)|(s2 & E2 & Hx & Hv2)]; rewrite E2.
  { split; [right; exists x, s1; by rewrite E2|]. intros k. by rewrite Hv2. }
  rewrite Hxk in Hx, Hv2. unfold changes. rewrite Hx. split; [|split; [done|intros k Hne; by rewrite Hv2, Hv]].
  unfold x. destruct (_ || _) eqn:Hd; split; try done.
  - apply orb_true_iff in Hd. rewrite bool_decide_eq_true, Z.leb_le in Hd. split; [done|]. intros Hh Hlt. destruct Hd; [done|lia].
  - apply orb_false_iff in Hd. rewrite bool_decide_eq_false, Z.leb_gt in Hd. destruct Hd. split; [|done]. intros [?|?]; [done|lia].
Qed.

(** ** The ledger *)

Lemma usage_amounts now taskID traceID c model response n :
  Cost_Amount <$> usage_events now (attempt_usage taskID traceID c model response n) = charges model c (Response_TokenUsage response).
Proof.
  unfold usage_events, charges, attempt_usage. cbv zeta. cbn [ModelUsage_ServiceTier ModelUsage_Pricing ModelUsage_Usage].
  destruct (decide _) as [[Ht Hf]|Hn].
  - rewrite bool_decide_false by done. unfold f_one. rewrite Hf. done.
  - destruct (bool_decide (Candidate_ServiceTier c = TierZero)) eqn:Ht; [done|]. apply bool_decide_eq_false in Ht.
    unfold f_one. destruct (f_gt _ _) eqn:Hf; [|done]. exfalso. by apply Hn.
Qed.

Lemma append_loop_err label events (r : R) e :
  fst (append_loop label events r) = Err e → ∃ event s e', fst (Append event s) = Err e'.
Proof.
  revert r. induction events as [|x events IH]; intros r; simpl; [done|].
  destruct (Append x r) as [[y|e'] r1] eqn:E; [|intros _; exists x, r, e'; by rewrite E].
  specialize (IH r1). by destruct (append_loop label events r1) as [[l|e1] r2].
Qed.

Lemma usage_charged env taskID traceID c model response n costs :
  taskID ≠ "" → traceID ≠ "" → ae_model env (Candidate_ModelID c) = Ok model →
  let '(r, costs') := RecordModelUsage (ae_cost_at env) (attempt_usage taskID traceID c model response n) costs in
  match r with
  | Ok _ => charged env taskID c response (Some costs) (Some costs')
  | Err _ => uncharged env taskID c response (Some costs) (Some costs')
  end.
Proof.
  intros Ht Htr Hm. set (usage := attempt_usage taskID traceID c model response n).
  pose proof (usage_amounts (ae_cost_at env) taskID traceID c model response n) as Ha. fold usage in Ha.
  destruct costs as [r|].
  2: { unfold RecordModelUsage. rewrite !bool_decide_eq_false_2 by done. right. exists model. split; [done|]. by left. }
  destruct (RecordModelUsage_correct (held := held) (ae_cost_at env) usage r Ht Htr) as (r' & events & Hr & Hh & Hall & Hamt & Hres).
  assert (∀ e, fst (RecordModelUsage (ae_cost_at env) usage (Some r)) = Err e → ∃ event s e', fst (Append event s) = Err e') as Herr.
  { intros e. unfold RecordModelUsage. rewrite !bool_decide_eq_false_2 by done. cbn [orb].
    pose proof (append_loop_err "append cost event: %w" (usage_events (ae_cost_at env) usage) r e) as Hl.
    destruct (append_loop _ _ _) as [res r1]. exact Hl. }
  destruct (RecordModelUsage _ _ _) as [res costs']. cbn [fst snd] in *. subst costs'. destruct res as [l|e].
  - right. exists model. split; [done|]. right. exists r, r', events. destruct Hres as [_ Hlen].
    split_and!; [done..|]. rewrite Hamt, <- Ha. by rewrite take_ge by (rewrite Hlen; lia).
  - right. exists model, r, r', events. split_and!; [done..| |by eapply Herr].
    exists (drop (length events) (Cost_Amount <$> usage_events (ae_cost_at env) usage)). rewrite <- Ha, Hamt. split.
    + intros Hd. apply (f_equal length) in Hd. rewrite length_drop, length_fmap in Hd. cbn in Hd. lia.
    + rewrite fmap_take. by rewrite take_drop.
Qed.

(** ** One attempt *)

Lemma appendTrace_keeps env t tr c a m w :
  w_breaker (appendTrace env t tr c a m w) = w_breaker w ∧ w_costs (appendTrace env t tr c a m w) = w_costs w
  ∧ w_calls (appendTrace env t tr c a m w) = w_calls w.
Proof. unfold appendTrace. by destruct (w_traces w). Qed.

(** The trace event changes nothing else. *)
Ltac traced :=
  match goal with |- context [appendTrace ?a1 ?a2 ?a3 ?a4 ?a5 ?a6 ?a7] =>
    destruct (appendTrace_keeps a1 a2 a3 a4 a5 a6 a7) as (Hb' & Hc' & Hk');
    generalize dependent (appendTrace a1 a2 a3 a4 a5 a6 a7); intros w' Hb' Hc' Hk'; cbn in Hb', Hc', Hk' end.

Definition ended (response : option ProviderResponse) (retryable : bool) (err : option error) (out : ending) : Prop :=
  match out with
  | Answered r => err = None ∧ response = Some r
  | GivenUp e => err = Some e ∧ response = None ∧ retryable = false
  | PassedOn e => err = Some e ∧ response = None ∧ retryable = true
  end.

Lemma classify_transient e : snd (classify e) = true ↔ transient e.
Proof.
  unfold classify, transient. destruct (errors_AsProvider e) as [[[code message] retryable]|].
  - cbn [snd]. rewrite !orb_true_iff, !bool_decide_eq_true. split.
    + intros Hor. left. exists code, message, retryable. split; [done|]. set_solver.
    + intros [(? & ? & ? & [= <- <- <-] & Hor)|[? _]]; [|done]. set_solver.
  - destruct (errors_Is _ _); cbn; (split; [|intros [(? & ? & ? & ? & _)|[_ ?]]; done]); [by right|done].
Qed.

Lemma find_provider_provided env c :
  match find_provider env c with Ok (p, key) => provided env c p key | Err e => unprovided env c e end.
Proof.
  unfold find_provider, provided, unprovided. case_bool_decide as Hd.
  - destruct (ae_provider env (Candidate_ModelID c)) eqn:E; [right|]; split; eauto.
  - destruct (ae_provider env (Candidate_DeploymentID c)) eqn:E; [by left|].
    destruct (ae_provider env (Candidate_ModelID c)) eqn:E2; [right|]; split; eauto.
Qed.

Lemma fail_tried env taskID traceID request n c w0 v p name a e w :
  keyed v → passes (view (w_breaker w0)) v (breakerKey c) (ae_allow_at env) → provided env c p name → ae_generate env p request = Err e →
  view (w_breaker w) = v → w_calls w = w_calls w0 ++ [(n, name)] → w_costs w = w_costs w0 → labelled taskID request c a "STARTED" →
  let '((a', response, retryable, err), w') := fail env taskID traceID c a e w in
  ∃ out, tried env taskID request n c w0 a' out w' ∧ ended response retryable err out ∧ keyed (view (w_breaker w')).
Proof.
  intros Hv Hpass Hp Hg Hw Hcalls Hcosts Ha. destruct (circuit_key c) as [Hkey _]. unfold fail.
  pose proof (classify_transient e) as Ht. destruct (classify e) as [code retryable]. cbn in Ht.
  assert (∀ x r, labelled taskID request c (at_circuit (at_error (at_status a "FAILED") code (error_text e) r) x) "FAILED") as Hl
    by (intros; destruct Ha as (? & ? & ? & ? & _); by split_and!).
  destruct retryable.
  - pose proof (Failure_counts (breakerKey c) (ae_report_at env) (w_breaker w)) as Hf. rewrite Hw in Hf.
    destruct (CircuitBreaker.Failure _ _ _ _) as [[x|be] s]; cbn in Hf.
    + traced. exists (PassedOn e). split; [|split; [done|rewrite Hb'; by eapply changes_keyed]].
      eapply tried_refused; [done..|by rewrite Hk'|by rewrite Hc'|apply Hl|]. left. rewrite Hb'. split; [by apply Ht|done].
    + destruct Hf as [Hs Hsame]. exists (GivenUp be). split; [|split; [done|by eapply same_keyed]].
      eapply tried_refused; [done..|apply (Hl (Attempt_CircuitState a))|]. right. left. exists be. split; [by apply Ht|]. done.
  - traced. exists (GivenUp e). split; [|split; [done|rewrite Hb', Hw; done]].
    eapply tried_refused; [done..|by rewrite Hk'|by rewrite Hc'|apply (Hl (Attempt_CircuitState a))|]. right. right.
    split; [intros ?%Ht; done|]. rewrite Hb', Hw. done.
Qed.

Lemma settle_tried env taskID traceID request n c w0 v p name a res w :
  taskID ≠ "" → traceID ≠ "" →
  keyed v → passes (view (w_breaker w0)) v (breakerKey c) (ae_allow_at env) → provided env c p name → ae_generate env p request = Ok res →
  view (w_breaker w) = v → w_calls w = w_calls w0 ++ [(n, name)] → w_costs w = w_costs w0 → labelled taskID request c a "STARTED" →
  let '((a', response, retryable, err), w') := settle env taskID traceID c n a res w in
  ∃ out, tried env taskID request n c w0 a' out w' ∧ ended response retryable err out ∧ keyed (view (w_breaker w')).
Proof.
  intros Ht Htr Hv Hpass Hp Hg Hw Hcalls Hcosts Ha. destruct (circuit_key c) as [Hkey _]. unfold settle.
  pose proof (Success_closes (breakerKey c) (ae_report_at env) (w_breaker w)) as Hf. rewrite Hw in Hf.
  destruct (CircuitBreaker.Success _ _ _) as [[u|e] s]; cbn in Hf.
  2: { destruct Hf as [Hs Hsame]. exists (GivenUp e). split; [|split; [done|by eapply same_keyed]].
       eapply tried_answered; [done..|]. right. right. exists e. done. }
  assert (labelled taskID request c (at_circuit (at_status a "SUCCEEDED") CircuitBreaker.StateClosed) "SUCCEEDED") as Hl
    by (destruct Ha as (? & ? & ? & ? & _); by split_and!).
  assert (keyed (view s)) as Hks by (by eapply changes_keyed).
  cbn [w_costs set_breaker]. rewrite Hcosts. destruct (w_costs w0) as [costs|] eqn:Hc0.
  2: { traced. exists (Answered res). split; [|split; [done|by rewrite Hb']].
       eapply tried_answered; [done..|by rewrite Hk'|]. left. rewrite Hb', Hc0. split_and!; [done..| |done]. left. by rewrite Hc'. }
  destruct (ae_model env (Candidate_ModelID c)) as [model|e] eqn:Hm.
  2: { exists (GivenUp e). split; [|done]. eapply tried_answered; [done..|]. right. left. exists e. split_and!; [done..| |done].
       left. rewrite Hc0. split_and!; [done|done|by exists e]. }
  pose proof (usage_charged env taskID traceID c model res n costs Ht Htr Hm) as Hu.
  destruct (RecordModelUsage _ _ _) as [[l|e] costs'].
  - traced. exists (Answered res). split; [|split; [done|by rewrite Hb']].
    eapply tried_answered; [done..|by rewrite Hk'|]. left. rewrite Hb', Hc0. split_and!; [done..| |done]. by rewrite Hc'.
  - exists (GivenUp e). split; [|done]. eapply tried_answered; [done..|]. right. left. exists e. rewrite Hc0. done.
Qed.

(** The attempt carries the names of its candidate. *)
Ltac label := unfold labelled; cbn; split_and!; [by repeat (case_bool_decide || case_decide)|done..].

Lemma executeCandidate_tried env taskID traceID request n c w :
  taskID ≠ "" → traceID ≠ "" → keyed (view (w_breaker w)) →
  let '((a, response, retryable, err), w') := executeCandidate env taskID traceID c request n w in
  ∃ out, tried env taskID request n c w a out w' ∧ ended response retryable err out ∧ keyed (view (w_breaker w')).
Proof.
  intros Ht Htr Hv. destruct (circuit_key c) as [Hkey Hne]. unfold executeCandidate.
  pose proof (Allow_passes (breakerKey c) (ae_allow_at env) (w_breaker w) Hne Hv) as Hal.
  destruct (CircuitBreaker.Allow _ _ _ _) as [[[allowed snapshot]|e] s].
  2: { destruct Hal as [Hs Hsame]. exists (GivenUp e). split; [|split; [done|by eapply same_keyed]].
       apply tried_unguarded; try done. label. }
  destruct allowed; cbn [negb].
  2: { destruct Hal as [Hbl Hsame]. traced. eexists (PassedOn _). split; [|split; [done|rewrite Hb'; by eapply same_keyed]].
       eapply tried_blocked; try done; [|by rewrite Hb']. label. }
  pose proof (passes_keyed _ _ _ _ Hv Hal) as Hks. pose proof (find_provider_provided env c) as Hp.
  destruct (find_provider env c) as [[p name]|e].
  2: { traced. exists (GivenUp e). split; [|split; [done|by rewrite Hb']].
       eapply tried_unprovided; try done; [by rewrite Hb'|]. label. }
  destruct (ae_generate env p request) as [res|e] eqn:Hg.
  - eapply settle_tried; try done. label.
  - eapply fail_tried; try done. label.
Qed.

(** ** The route *)

Lemma execute_loop_followed envs taskID traceID request candidates index attempts lastErr w :
  taskID ≠ "" → traceID ≠ "" → keyed (view (w_breaker w)) → candidates ≠ [] →
  let '((res, err), w') := execute_loop envs taskID traceID request candidates index attempts lastErr w in
  ∃ tried_ out, Result_Attempts res = attempts ++ tried_
    ∧ followed envs taskID request (index + 1) candidates w tried_ (Result_Candidate res) out w'
    ∧ ended (Result_Response res) false err out.
Proof.
  intros Ht Htr. revert index attempts lastErr w. induction candidates as [|c cs IH]; intros index attempts lastErr w Hv Hne; [done|].
  cbn [execute_loop].
  pose proof (executeCandidate_tried (envs (index + 1)%Z) taskID traceID request (index + 1) c w Ht Htr Hv) as Ho.
  destruct (executeCandidate _ _ _ _ _ _ _) as [[[[a response] retryable] err] w1]. destruct Ho as (out & Htried & Hend & Hv1).
  destruct out as [r|e|e]; cbn in Hend; destruct_and?; subst.
  - exists [a], (Answered r). split_and!; [done|by apply followed_answered|done].
  - exists [a], (GivenUp e). split_and!; [done|by apply followed_given_up|done].
  - cbn [negb]. destruct cs as [|c' cs].
    + exists [a], (GivenUp e). split_and!; [done|by apply followed_last|done].
    + specialize (IH (index + 1)%Z (attempts ++ [a]) (Some e) w1 Hv1 ltac:(done)).
      destruct (execute_loop _ _ _ _ _ _ _ _ _) as [[res err'] w']. destruct IH as (more & out & Ha & Hf & He).
      exists (a :: more), out. split_and!; [by rewrite Ha, <- app_assoc|by eapply followed_next|done].
Qed.

Lemma execute_loop_fallback envs taskID traceID request candidates index attempts lastErr w :
  index = Z.of_nat (length attempts) →
  let '((res, err), w') := execute_loop envs taskID traceID request candidates index attempts lastErr w in
  Result_Fallback res = (1 <? Z.of_nat (length (Result_Attempts res)))%Z.
Proof.
  revert index attempts lastErr w. induction candidates as [|c cs IH]; intros index attempts lastErr w Hi; simpl; [done|].
  destruct (executeCandidate _ _ _ _ _ _ _) as [[[[a response] retryable] err] w1].
  assert ((0 <? index) = (1 <? Z.of_nat (length (attempts ++ [a]))))%Z as Hf
    by (rewrite length_app; simpl; destruct (Z.ltb_spec 0 index), (Z.ltb_spec 1 (Z.of_nat (length attempts + 1))); lia).
  destruct err as [e|]; [|done]. destruct retryable; [|done]. simpl.
  apply IH. rewrite length_app. simpl. lia.
Qed.

(** C37. A model call follows its route.  For a call with a task and a trace whose
    selected candidate is not deterministic, over a store of circuits and a
    repository of costs that keep their laws, the circuits being kept under their
    own keys: the candidates are tried in order, the selected one first, until one
    answers, one fails for good, or none is left.  A candidate whose circuit (that
    of its deployment, or of its model and version) is open and has not cooled
    down is passed over without a call.  Otherwise the provider registered for its
    deployment, or else for its model, is called once with the request; a
    transient failure (a provider error marked retryable, unavailable, timed out
    or rate limited, or an exceeded deadline) is counted by the circuit, charges
    nothing and passes on to the next candidate; any other failure ends the call
    and charges nothing.  An answer closes the circuit, is charged to the task at
    the prices of the model (tokens in, tokens out, tier premium) if there is a
    ledger, and is what the call returns; an answer that cannot be charged is not
    returned.  The other errors that end a call are those of the store of
    circuits.  The fallback flag says whether there was more than one attempt. *)
Theorem Execute_correct envs taskID traceID decision request w res err w' :
  taskID ≠ "" → traceID ≠ "" → Candidate_RouteClass (Decision_Selected decision) ≠ RouteDeterministic →
  keyed (view (w_breaker w)) →
  Execute envs taskID traceID decision request w = ((res, err), w') →
  Result_Fallback res = (1 <? Z.of_nat (length (Result_Attempts res)))%Z
  ∧ ∃ out, followed envs taskID request 1 (Decision_Selected decision :: Decision_FallbackChain decision) w
             (Result_Attempts res) (Result_Candidate res) out w'
    ∧ match out with
      | Answered response => err = None ∧ Result_Response res = Some response
      | GivenUp e | PassedOn e => err = Some e ∧ Result_Response res = None
      end.
Proof.
  intros Ht Htr Hd Hk Hrun. unfold Execute in Hrun.
  rewrite !(bool_decide_eq_false_2 (_ = "")), (bool_decide_eq_false_2 (_ = RouteDeterministic)) in Hrun by done.
  cbn [orb] in Hrun.
  set (candidates := Decision_Selected decision :: Decision_FallbackChain decision) in *.
  pose proof (execute_loop_followed envs taskID traceID request candidates 0 [] None w Ht Htr Hk ltac:(done)) as Ho.
  pose proof (execute_loop_fallback envs taskID traceID request candidates 0 [] None w eq_refl) as Hf.
  rewrite Hrun in Ho, Hf. destruct Ho as (attempts & out & Ha & Hfol & He). cbn in Ha. subst attempts.
  split; [done|]. exists out. split; [done|]. destruct out; cbn in He; naive_solver.
Qed.

End runtime.

(** ** A concrete route: the selected provider is rate limited, the fallback answers *)
Definition sample_candidate (model deployment : string) : RouteCandidate :=
  mkRouteCandidate model "1" deployment RouteEfficient EffortZero TierZero f_zero f_zero [].
Definition sample_route : RouteDecision :=
  mkRouteDecision "r1" "t1" (sample_candidate "m1" "d1") [] "" [sample_candidate "m2" ""; sample_candidate "m3" ""]
    "" "" 1%Z.
Definition sample_response : ProviderResponse :=
  mkProviderResponse "" "p" "m2" TaskSummarizeState "text" AnyNil "stop" (mkTokenUsage 10 20 30) 5 [] [].
Definition sample_request : ProviderRequest :=
  mkProviderRequest "op" TaskSummarizeState "" "" "" "go" (mkModelContext [] [] None "" [] [] "")
    (mkOutputSchemaRef "" "") (mkSafetyPolicyRef "" "") 0 f_zero.

Definition sample_registry : MemoryProviderRegistry (result ProviderResponse) :=
  <["d1" := Err (ProviderErr ErrRateLimited "slow down" false)]> (<["m2" := Ok sample_response]> ∅).

Definition sample_attempt_env (n : Z) : AttemptEnv (result ProviderResponse) :=
  mkAttemptEnv _ (100 + n)%Z (200 + n)%Z (Ok []) (100 + n)%Z (200 + n)%Z
    (λ key, Registry_Get key sample_registry) (λ p _, p) (λ _, Ok Admission.sample_model) 300%Z "te" "sp".

Abbreviation sample_execute := (@Execute _ CircuitBreaker.MemoryStore_Store _ CostLedger.sample_repository _ (CircuitBreaker.New 3 Minute) (λ _, "error")
  sample_attempt_env "t1" "trace" sample_route sample_request
  (mkWorld CircuitBreaker.NewMemoryStore (Some (Some NewMemoryCostEvents)) (Some []) [])).

Lemma pairs_eta {A B C} (x : A * B * C) : x = ((x.1.1, x.1.2), x.2).
Proof. by destruct x as [[? ?] ?]. Qed.

Lemma Execute_correct_witness :
  sample_execute.1.2 = None ∧ Result_Response sample_execute.1.1 = Some sample_response
  ∧ w_calls sample_execute.2 = [(1%Z, "d1"); (2%Z, "m2")] ∧ length (Result_Attempts sample_execute.1.1) = 2
  ∧ Result_Fallback sample_execute.1.1 = true.
Proof.
  destruct (@Execute_correct _ CircuitBreaker.MemoryStore_Store _ CostLedger.sample_repository _ (CircuitBreaker.New 3 Minute) (λ _, "error")
    CircuitBreaker.memory_view CircuitBreaker.MemoryStore_laws (λ r, r) CostLedger.sample_laws
    sample_attempt_env "t1" "trace" sample_route sample_request
    (mkWorld CircuitBreaker.NewMemoryStore (Some (Some NewMemoryCostEvents)) (Some []) []) _ _ _
    ltac:(done) ltac:(done) ltac:(done) ltac:(intros key; reflexivity) (pairs_eta sample_execute)) as (Hf & out & Hfol & Hout).
  split; [vm_compute; reflexivity|]. split; [vm_compute; reflexivity|]. split; [vm_compute; reflexivity|].
  split; [vm_compute; reflexivity|]. rewrite Hf. vm_compute. reflexivity.
Defined.

End ModelRuntime.
