(* ===== verification/ControlPlane.v ===== *)
(** * ControlPlane: the public task commands

    [src/internal/controlplane]: task_commands.go, task_route_commands.go,
    task_model_commands.go and the task operations of service.go.  A command is
    a program: it asks its environment, one request at a time, for the clock,
    fresh ids, the command store, the repositories, the router and the model
    runtime, and goes on with the answers.  Programs of concurrent requests can
    therefore be interleaved request by request ([ControlSystem]).  JSON
    encoders, SHA-256 and [err.Error()] are parameters. *)
From S2P Require Import Prelude Programs Identity Domain RouteTypes ModelTypes GoStrings ExecTypes LeaseSchema LeaseStore.
From S2P Require Import TaskSchema TaskStore CircuitBreaker CostLedger ModelRuntime.

Module ControlPlane.
Export Programs.
Import Domain RouteTypes ModelTypes TaskSchema TaskStore.
Import ModelRuntime(TraceEvent, mkTraceEvent, TraceStatus, StatusOK, StatusError, RouteClass_string).

(** ** Programs *)

(** What a command asks for. *)
Inductive Ev : Type → Type :=
| ENow : Ev Time                                              (** [time.Now()] *)
| ENewID (prefix : string) : Ev string                        (** [trace.NewID] *)
| ECreate (c : TaskCreateCommit) : Ev (result TaskCommandCommitResult)
| ETransition (c : TaskCommandCommit) : Ev (result TaskCommandCommitResult)
| ERoute (c : RouteTaskCommandCommit) : Ev (result RouteTaskCommandResult)
| EBegin (c : ModelExecutionBeginCommit) : Ev (result ModelExecutionBeginResult)
| EFinalize (c : ModelExecutionFinalizeCommit) : Ev (result ModelExecutionFinalizeResult)
| ERetryable (r : IdempotencyRecord) : Ev (result unit)
| EResolve (l : IdempotencyLookup) : Ev (result (IdempotencyRecord * bool))
| EGetTask (id : string) : Ev (result Task)
| ECreateTask (t : Task) : Ev (result Task)                   (** [tasks.Create], without the command store *)
| EUpdateTask (t : Task) : Ev (result Task)                   (** [tasks.Update] *)
| EGetRoute (id : string) : Ev (result RouteDecision)
| EPlan (r : RouteRequest) : Ev (result RouteDecision)        (** [router.Plan] *)
| EDecide (r : RouteRequest) : Ev (result RouteDecision)      (** [router.Decide] *)
| ERun (task trace : string) (d : RouteDecision) (r : ProviderRequest) : Ev (ModelRuntime.Result * option error)
| EAggregate (task : string) : Ev (result (float64 * string)) (** [costLedger.AggregateTask] *)
| EStart (task : string) : Ev (option error)                  (** [engine.Start] *)
| ETrace (e : TraceEvent) : Ev unit.                          (** [traces.Append], its error dropped *)

Abbreviation prog := (Programs.prog Ev).

(** [(T, error)] where the value counts even beside an error. *)
Abbreviation reply T := (T * option error)%type (only parsing).

(** [if err != nil { return zero, err }]. *)
Definition or_fail {A T} (zero : T) (r : result A) (k : A → prog (reply T)) : prog (reply T) :=
  match r with Ok a => k a | Err e => Ret (zero, Some e) end.

(** ** Data *)
Record CommandMetadata : Type := mkCommandMetadata {
  Meta_IdempotencyKey : string;
  Meta_RequestDigest : string;
  Meta_RequestID : string
}.

Definition ErrCommandMetadataRequired : error :=
  Sentinel "controlplane.ErrCommandMetadataRequired" "command idempotency metadata is required".

Definition Metadata_Validate (m : CommandMetadata) : result unit :=
  if blank (Meta_IdempotencyKey m) || blank (Meta_RequestDigest m)
  then Err ErrCommandMetadataRequired else Ok tt.

Definition TaskZero : Task :=
  mkTask "" "" "" "" "" "" (TaskStatusOther "") 0 "" f_zero f_zero f_zero "" "" "" 0%Z 0%Z None.

Record TaskCommandResult : Type := mkTaskCommandResult { TaskResult_Task : Task; TaskResult_Replayed : bool }.
Record RouteCommandResult : Type := mkRouteCommandResult {
  RouteCommand_Decision : RouteDecision; RouteCommand_Replayed : bool
}.
Record ModelCommandResult : Type := mkModelCommandResult {
  ModelCommand_Result : ModelRuntime.Result; ModelCommand_Replayed : bool
}.
Definition TaskCommandZero : TaskCommandResult := mkTaskCommandResult TaskZero false.
Definition RouteCommandZero : RouteCommandResult := mkRouteCommandResult RouteDecisionZero false.
Definition ModelCommandZero : ModelCommandResult := mkModelCommandResult ModelRuntime.ResultZero false.

Record storedModelCommandError : Type := mkStoredError {
  StoredError_Code : string; StoredError_Message : string; StoredError_Retryable : bool
}.
Record storedModelCommandResponse : Type := mkStoredResponse {
  Stored_Result : ModelRuntime.Result; Stored_Error : option storedModelCommandError
}.

(** [json.Marshal] and [json.Unmarshal] of what the commands encode. *)
Record Encoders : Type := mkEncoders {
  enc_created : Task → result string;
  enc_planning : TaskTransition → result string;
  enc_route : TaskTransition → RouteDecision → RouteRequest → result string;
  enc_begin : string → RouteDecision → result string;
  enc_failed : string → string → result string;
  enc_validation : string → result string;
  enc_completed : string → ModelRuntime.Result → result string;
  enc_response : storedModelCommandResponse → result string;
  dec_response : string → result storedModelCommandResponse;
  enc_provider : ProviderResponse → result string;
  dec_decision : string → result RouteDecision
}.

(** Which of the optional parts of the service are there. *)
Record Config : Type := mkConfig {
  has_commands : bool;   (** [s.taskCommandStore() != nil] *)
  has_router : bool;
  has_runtime : bool;
  has_ledger : bool;
  has_engine : bool
}.

Definition PrincipalType_string (t : Identity.PrincipalType) : string :=
  match t with
  | Identity.PrincipalUser => "user" | Identity.PrincipalServiceAccount => "service_account"
  | Identity.PrincipalSystem => "system" | Identity.PrincipalOther s => s
  end.

Definition principalTaskEventActor (p : Identity.Principal) : TaskEventActor :=
  Build_TaskEventActor (PrincipalType_string (Identity.Type_ p)) (Identity.SubjectID p).

Definition transitionActor (ctx : Identity.Context) : string :=
  match Identity.PrincipalFromContext ctx with
  | Some p => PrincipalType_string (Identity.Type_ p) +:+ ":" +:+ Identity.SubjectID p
  | None => "controlplane"
  end.

Definition workflowStartDeliveryKey (tenantID taskID : string) : string :=
  "workflow-start:" +:+ TrimSpace tenantID +:+ ":" +:+ TrimSpace taskID.
Definition routeCommandOperation (taskID : string) : string :=
  "POST /api/v1/tasks/" +:+ TrimSpace taskID +:+ "/route".
Definition modelCommandOperation (taskID : string) : string :=
  "POST /api/v1/tasks/" +:+ TrimSpace taskID +:+ "/model".

(** [task.Transition(..)] on a task the caller holds. *)
Definition move_task (task : Task) (to : TaskStatus) (actor cause : string) (at_ : Time)
    : result (TaskTransition * Task) :=
  match Transition (Some task) (mkTaskTransitionCommand to actor cause at_) with
  | (Ok tr, Some task) => Ok (tr, task)
  | (Ok tr, None) => Ok (tr, task)
  | (Err e, _) => Err e
  end.

Definition set_task_result (t : Task) (s : string) : Task :=
  mkTask (Task_ID t) (Task_TenantID t) (Task_ProjectID t) (Task_CreatedBy t) (Task_AgentID t) (Task_Input t)
    (Task_Status t) (Task_Version t) s (Task_Cost t) (Task_EstimatedCost t) (Task_ActualCost t) (Task_Currency t)
    (Task_RouteDecisionID t) (Task_TraceID t) (Task_CreatedAt t) (Task_UpdatedAt t) (Task_CompletedAt t).
Definition set_task_cost (t : Task) (total : float64) (currency : string) : Task :=
  mkTask (Task_ID t) (Task_TenantID t) (Task_ProjectID t) (Task_CreatedBy t) (Task_AgentID t) (Task_Input t)
    (Task_Status t) (Task_Version t) (Task_Result t) total (Task_EstimatedCost t) total
    (if currency ==? "" then Task_Currency t else currency)
    (Task_RouteDecisionID t) (Task_TraceID t) (Task_CreatedAt t) (Task_UpdatedAt t) (Task_CompletedAt t).

(** The event of a command, its record, as the commands build them. *)
Definition new_event (id type : string) (actor : TaskEventActor) (payload : string) (metadata : CommandMetadata)
    (at_ : Time) : TaskEvent :=
  mkTaskEvent id "" "" "" 0 type actor payload (TrimSpace (Meta_RequestID metadata)) "" 1 at_ at_.

Definition new_record (p : Identity.Principal) (operation key digest : string) (status : IdempotencyStatus)
    (resource : string) (code : Z) (now : Time) : IdempotencyRecord :=
  mkIdempotencyRecord (Identity.TenantID p) (Identity.ProjectID p) operation key digest status resource code "" ""
    now (Add now (24 * Hour)).

Definition new_lookup (p : Identity.Principal) (operation : string) (metadata : CommandMetadata) : IdempotencyLookup :=
  mkIdempotencyLookup (Identity.TenantID p) (Identity.ProjectID p) operation
    (TrimSpace (Meta_IdempotencyKey metadata)) (TrimSpace (Meta_RequestDigest metadata)).

(** [finalRecord := record; finalRecord.Status = ..; ..]. *)
Definition set_record (r : IdempotencyRecord) (status : IdempotencyStatus) (resource : string) (code : Z)
    (payload : string) : IdempotencyRecord :=
  mkIdempotencyRecord (Idem_TenantID r) (Idem_ProjectID r) (Idem_Operation r) (Idem_Key r) (Idem_RequestDigest r)
    status resource code (Idem_ResponseDigest r) payload (Idem_CreatedAt r) (Idem_ExpiresAt r).

Section commands.
Variable cfg : Config.
Variable J : Encoders.
Variable error_text : error → string.
(** [hex.EncodeToString(sha256.Sum256(s)[:12])]. *)
Variable sha256_12 : string → string.
Variable ctx : Identity.Context.

Definition appendTrace (name kind : string) (status : TraceStatus) (message : string) (task trace : string)
    (attributes : list (string * string)) (started : Time) (ended : option Time) : prog unit :=
  id ← ask (ENewID "trace-event");
  span ← ask (ENewID "span");
  ask (ETrace (mkTraceEvent id trace task span "" name kind status message attributes "" "" started ended)).

Definition transition_attributes (task : Task) (tr : TaskTransition) : list (string * string) :=
  [("task.from", TaskStatus_string (Transition_From tr)); ("task.to", TaskStatus_string (Transition_To tr));
   ("task.actor", Transition_Actor tr); ("task.cause", Transition_Cause tr);
   ("task.version", Itoa (Task_Version task))].

Definition appendTaskTransitionTrace (task : Task) (tr : TaskTransition) (idempotent : string) : prog unit :=
  appendTrace "task.transition" "TASK" StatusOK "" (Task_ID task) (Task_TraceID task)
    (transition_attributes task tr ++ [("command.idempotent", idempotent)]) (Transition_At tr) (Some (Transition_At tr)).

(** ** Without the command store: service.go *)

Definition new_task_params (now : Time) (input agentID : string) : NewTaskParams :=
  mkNewTaskParams ("task-" +:+ Itoa (UnixNano now)) agentID input ("trace-" +:+ Itoa (UnixNano now)) "USD" now.

Definition CreateTask (input agentID : string) : prog (reply Task) :=
  now ← ask ENow;
  or_fail TaskZero (NewTask (new_task_params now input agentID)) (λ task,
  r ← ask (ECreateTask task);
  or_fail TaskZero r (λ created,
  _ ← appendTrace "task.created" "TASK" StatusOK "" (Task_ID created) (Task_TraceID created)
        [("agent.id", agentID); ("task.status", TaskStatus_string (Task_Status created));
         ("task.version", Itoa (Task_Version created))] now (Some now);
  _ ← (if has_engine cfg then ask (EStart (Task_ID created)) else Ret None);
  Ret (created, None))).

Definition transitionTask (task : Task) (target : TaskStatus) (cause : string) : prog (reply Task) :=
  now ← ask ENow;
  or_fail TaskZero (move_task task target (transitionActor ctx) cause now) (λ '(tr, task),
  r ← ask (EUpdateTask task);
  or_fail TaskZero r (λ updated,
  _ ← appendTrace "task.transition" "TASK" StatusOK "" (Task_ID updated) (Task_TraceID updated)
        (transition_attributes updated tr) now (Some now);
  Ret (updated, None))).

Definition invalid_transition (format : string) (s : TaskStatus) : error :=
  Errorw format [AStr (TaskStatus_string s)] ErrInvalidTaskTransition.

Definition DecideRoute (request : RouteRequest) : prog (reply RouteDecision) :=
  if negb (has_router cfg) then Ret (RouteDecisionZero, Some (Errorf "routing is not configured" [])) else
  g ← ask (EGetTask (Req_TaskID request));
  or_fail RouteDecisionZero g (λ task,
  m ← match Task_Status task with
      | TaskCreated =>
          r ← transitionTask task TaskPlanning "prepare task plan";
          match r with
          | (task, None) => transitionTask task TaskRouting "request model route"
          | r => Ret r
          end
      | TaskPlanning => transitionTask task TaskRouting "request model route"
      | TaskRouting => Ret (task, None)
      | s => Ret (task, Some (invalid_transition "%w: cannot route task from %s" s))
      end;
  match m with
  | (_, Some e) => Ret (RouteDecisionZero, Some e)
  | (task, None) =>
      d ← ask (EDecide request);
      match d with
      | Err e =>
          now ← ask ENow;
          _ ← appendTrace "route.decision" "ROUTING" StatusError (error_text e) (Task_ID task) (Task_TraceID task)
                [] now None;
          Ret (RouteDecisionZero, Some e)
      | Ok decision =>
          now ← ask ENow;
          r ← ask (EUpdateTask (set_task_updated (set_task_route task decision) now));
          or_fail RouteDecisionZero r (λ task,
          now ← ask ENow;
          _ ← appendTrace "route.decision" "ROUTING" StatusOK "" (Task_ID task) (Task_TraceID task)
                [("route.id", Decision_ID decision);
                 ("route.class", RouteClass_string (Candidate_RouteClass (Decision_Selected decision)));
                 ("model.id", Candidate_ModelID (Decision_Selected decision));
                 ("model.version", Candidate_ModelVersion (Decision_Selected decision));
                 ("evidence.version", Decision_EvidenceVersion decision);
                 ("policy.version", Decision_PolicyVersion decision);
                 ("task.version", Itoa (Task_Version task))] now (Some now);
          Ret (decision, None))
      end
  end).

Definition encodeProviderResult (response : option ProviderResponse) : string :=
  match response with
  | None => ""
  | Some r => match enc_provider J r with Ok body => body | Err _ => Response_RawText r end
  end.

(** [if total, currency, err := costLedger.AggregateTask(..); err == nil { .. }]. *)
Definition with_cost (task : Task) : prog Task :=
  if has_ledger cfg then
    a ← ask (EAggregate (Task_ID task));
    Ret (match a with Ok (total, currency) => set_task_cost task total currency | Err _ => task end)
  else Ret task.

Definition ExecuteModel (taskID : string) (request : ProviderRequest) : prog (reply ModelRuntime.Result) :=
  let zero := ModelRuntime.ResultZero in
  if negb (has_runtime cfg) then Ret (zero, Some (Errorf "model runtime is not configured" [])) else
  g ← ask (EGetTask taskID);
  or_fail zero g (λ task,
  if Task_RouteDecisionID task ==? "" then Ret (zero, Some (Errorf "task does not have a route decision" [])) else
  d ← ask (EGetRoute (Task_RouteDecisionID task));
  or_fail zero d (λ decision,
  let request := if Request_RequestID request ==? "" then set_request_id request (Task_ID task) else request in
  m ← match Task_Status task with
      | TaskRouting => transitionTask task TaskExecuting "execute selected model deployment"
      | TaskExecuting => Ret (task, None)
      | s => Ret (task, Some (invalid_transition "%w: cannot execute model from %s" s))
      end;
  match m with
  | (_, Some e) => Ret (zero, Some e)
  | (task, None) =>
      x ← ask (ERun (Task_ID task) (Task_TraceID task) decision request);
      let '(result, executeErr) := x in
      let task := set_task_result task (match executeErr with
                                        | Some e => error_text e
                                        | None => encodeProviderResult (ModelRuntime.Result_Response result)
                                        end) in
      task ← with_cost task;
      match executeErr with
      | Some e =>
          r ← transitionTask task TaskFailed "model execution failed";
          Ret (result, match r.2 with Some te => Some te | None => Some e end)
      | None =>
          r ← transitionTask task TaskValidating "validate model execution result";
          match r with
          | (_, Some e) => Ret (result, Some e)
          | (task, None) =>
              r ← transitionTask task TaskCompleted "model execution result accepted";
              Ret (result, r.2)
          end
      end
  end)).

(** ** With the command store *)

Definition taskCreatedPayload (task : Task) : result string :=
  match enc_created J task with
  | Ok payload => Ok payload
  | Err e => Err (Errorw "encode TaskCreated payload: %w" [] e)
  end.

(** The message that starts the task's workflow. *)
Definition workflow_start (p : Identity.Principal) (outboxID : string) (task : Task) (payload : string) (now : Time)
    : OutboxMessage :=
  mkOutboxMessage outboxID "" "" "" "Task" (Task_ID task) "TaskCreated" payload "workflow.start"
    (workflowStartDeliveryKey (Identity.TenantID p) (Task_ID task)) OutboxPending 0 now now None.

Definition CreateTaskIdempotent (input agentID : string) (metadata : CommandMetadata)
    : prog (reply TaskCommandResult) :=
  or_fail TaskCommandZero (Metadata_Validate metadata) (λ _,
  if negb (has_commands cfg) then
    r ← CreateTask input agentID;
    Ret (mkTaskCommandResult r.1 false, r.2)
  else
  or_fail TaskCommandZero (Identity.RequireProject ctx) (λ principal,
  now ← ask ENow;
  or_fail TaskCommandZero (NewTask (new_task_params now input agentID)) (λ task,
  or_fail TaskCommandZero (taskCreatedPayload task) (λ payload,
  eventID ← ask (ENewID "task-event");
  outboxID ← ask (ENewID "outbox");
  r ← ask (ECreate (mkTaskCreateCommit task
        (new_event eventID "TaskCreated" (principalTaskEventActor principal) payload metadata now)
        [workflow_start principal outboxID task payload now]
        (new_record principal "POST /api/v1/tasks" (TrimSpace (Meta_IdempotencyKey metadata))
           (TrimSpace (Meta_RequestDigest metadata)) IdempotencyCompleted "" 202 now)));
  or_fail TaskCommandZero r (λ result,
  let created := default TaskZero (Result_Task result) in
  _ ← (if Result_Replayed result then Ret tt
       else appendTrace "task.created" "TASK" StatusOK "" (Task_ID created) (Task_TraceID created)
              [("agent.id", agentID); ("task.status", TaskStatus_string (Task_Status created));
               ("task.version", "1"); ("command.idempotent", "true")] now (Some now));
  Ret (mkTaskCommandResult created (Result_Replayed result), None)))))).

(** The result of an earlier command on the key, if it is final. *)
Definition resolveRouteReplay (p : Identity.Principal) (operation : string) (metadata : CommandMetadata)
    : prog (result (option RouteCommandResult)) :=
  r ← ask (EResolve (new_lookup p operation metadata));
  Ret (match r with
       | Err e => Err e
       | Ok (_, false) => Ok None
       | Ok (record, true) =>
           if (Idem_Status record !=? IdempotencyCompleted) || (Idem_ResponsePayload record ==? "")
           then Err (Errorf "route replay does not contain a completed response" [])
           else match dec_decision J (Idem_ResponsePayload record) with
                | Err e => Err (Errorw "decode route replay response: %w" [] e)
                | Ok decision => Ok (Some (mkRouteCommandResult decision true))
                end
       end).

Definition commitPlanningForRoute (principal : Identity.Principal) (task : Task) (metadata : CommandMetadata)
    : prog (reply Task) :=
  now ← ask ENow;
  or_fail TaskZero (move_task task TaskPlanning (transitionActor ctx) "prepare task plan" now) (λ '(tr, task),
  or_fail TaskZero (match enc_planning J tr with
                    | Ok x => Ok x
                    | Err e => Err (Errorw "encode planning TaskEvent payload: %w" [] e)
                    end) (λ payload,
  eventID ← ask (ENewID "task-event");
  r ← ask (ETransition (mkTaskCommandCommit task tr
        (new_event eventID "TaskPlanningStarted" (principalTaskEventActor principal) payload metadata now) []
        (new_record principal ("task:route:planning:" +:+ Task_ID task)
           (TrimSpace (Meta_IdempotencyKey metadata) +:+ ":planning") (TrimSpace (Meta_RequestDigest metadata))
           IdempotencyCompleted (Task_ID task) 200 now)));
  or_fail TaskZero r (λ result,
  if Result_Replayed result then
    g ← ask (EGetTask (Task_ID task));
    or_fail TaskZero g (λ task, Ret (task, None))
  else
    let committed := default TaskZero (Result_Task result) in
    _ ← appendTrace "task.transition" "TASK" StatusOK "" (Task_ID committed) (Task_TraceID committed)
          (transition_attributes committed tr) now (Some now);
    Ret (committed, None)))).

Definition DecideRouteIdempotent (request : RouteRequest) (metadata : CommandMetadata)
    : prog (reply RouteCommandResult) :=
  or_fail RouteCommandZero (Metadata_Validate metadata) (λ _,
  if negb (has_router cfg) then Ret (RouteCommandZero, Some (Errorf "routing is not configured" [])) else
  if negb (has_commands cfg) then
    r ← DecideRoute request;
    Ret (mkRouteCommandResult r.1 false, r.2)
  else
  or_fail RouteCommandZero (Identity.RequireProject ctx) (λ principal,
  let operation := routeCommandOperation (Req_TaskID request) in
  replay ← resolveRouteReplay principal operation metadata;
  or_fail RouteCommandZero replay (λ found,
  match found with
  | Some replay => Ret (replay, None)
  | None =>
  g ← ask (EGetTask (Req_TaskID request));
  or_fail RouteCommandZero g (λ task,
  m ← match Task_Status task with
      | TaskCreated =>
          r ← commitPlanningForRoute principal task metadata;
          Ret (match r with (task, None) => Ok (inl task) | (_, Some e) => Err e end)
      | TaskPlanning => Ret (Ok (inl task))
      | TaskRouting =>
          replay ← resolveRouteReplay principal operation metadata;
          Ret (match replay with
               | Err e => Err e
               | Ok (Some replay) => Ok (inr replay)
               | Ok None => Err (Errorw "%w: routing state has no matching durable command result" []
                                   ErrInvalidTaskTransition)
               end)
      | s => Ret (Err (invalid_transition "%w: cannot route task from %s" s))
      end;
  or_fail RouteCommandZero m (λ m,
  match m with
  | inr replay => Ret (replay, None)
  | inl task =>
  d ← ask (EPlan request);
  or_fail RouteCommandZero d (λ decision,
  now ← ask ENow;
  or_fail RouteCommandZero (move_task task TaskRouting (transitionActor ctx) "request model route" now) (λ '(tr, task),
  let task := set_task_route task decision in
  or_fail RouteCommandZero (match enc_route J tr decision request with
                            | Ok x => Ok x
                            | Err e => Err (Errorw "encode route TaskEvent payload: %w" [] e)
                            end) (λ payload,
  eventID ← ask (ENewID "task-event");
  r ← ask (ERoute (mkRouteTaskCommandCommit task tr decision
        (new_event eventID "TaskRoutingStarted" (principalTaskEventActor principal) payload metadata now) []
        (new_record principal operation (TrimSpace (Meta_IdempotencyKey metadata))
           (TrimSpace (Meta_RequestDigest metadata)) IdempotencyCompleted "" 201 now)));
  or_fail RouteCommandZero r (λ result,
  let routed := RouteResult_Task result in
  let d := RouteResult_Decision result in
  _ ← (if RouteResult_Replayed result then Ret tt
       else appendTrace "route.decision" "ROUTING" StatusOK "" (Task_ID routed) (Task_TraceID routed)
              [("route.id", Decision_ID d);
               ("route.class", RouteClass_string (Candidate_RouteClass (Decision_Selected d)));
               ("model.id", Candidate_ModelID (Decision_Selected d));
               ("model.version", Candidate_ModelVersion (Decision_Selected d));
               ("deployment.id", Candidate_DeploymentID (Decision_Selected d));
               ("evidence.version", Decision_EvidenceVersion d); ("policy.version", Decision_PolicyVersion d);
               ("task.version", Itoa (Task_Version routed)); ("command.idempotent", "true")] now (Some now));
  Ret (mkRouteCommandResult d (RouteResult_Replayed result), None)))))
  end))
  end))).

(** ** Running the model *)

(** The stored response and error of a finished model command. *)
Definition decodeStoredModelResponse (record : IdempotencyRecord) : result (reply ModelCommandResult) :=
  if Idem_ResponsePayload record ==? "" then Err (Errorf "model command replay does not contain a response" [])
  else match dec_response J (Idem_ResponsePayload record) with
  | Err e => Err (Errorw "decode model command replay: %w" [] e)
  | Ok stored =>
      Ok (mkModelCommandResult (Stored_Result stored) true,
          match Stored_Error stored with
          | None => None
          | Some e =>
              if StoredError_Code e ==? "" then Some (Errorf (StoredError_Message e) [])
              else Some (ProviderErr (StoredError_Code e) (StoredError_Message e) (StoredError_Retryable e))
          end)
  end.

Definition encodeStoredModelResponse (result : ModelRuntime.Result) (err : option error) : Prelude.result string :=
  let stored :=
    match err with
    | None => None
    | Some e =>
        match errors_AsProvider e with
        | Some (code, message, retryable) => Some (mkStoredError code message retryable)
        | None => Some (mkStoredError "" (error_text e) false)
        end
    end in
  match enc_response J (mkStoredResponse result stored) with
  | Ok body => Ok body
  | Err e => Err (Errorw "encode model command response: %w" [] e)
  end.

Definition modelExecutionRetryable (result : ModelRuntime.Result) (err : error) : bool :=
  if match last (ModelRuntime.Result_Attempts result) with
     | Some a => ModelRuntime.Attempt_Retryable a
     | None => false
     end then true
  else match errors_AsProvider err with
       | Some (code, _, retryable) =>
           retryable || (code ==? ErrProviderUnavailable) || (code ==? ErrProviderTimeout) || (code ==? ErrRateLimited)
       | None => errors_Is err "context.DeadlineExceeded"
       end.

Definition logicalModelOperationID (taskID key : string) : string :=
  "model-op-" +:+ sha256_12 (TrimSpace taskID +:+ "|" +:+ TrimSpace key).

Definition resolveModelReplay (p : Identity.Principal) (operation : string) (metadata : CommandMetadata)
    : prog (result (option (reply ModelCommandResult))) :=
  r ← ask (EResolve (new_lookup p operation metadata));
  Ret (match r with
       | Err e => Err e
       | Ok (_, false) => Ok None
       | Ok (record, true) =>
           match decodeStoredModelResponse record with
           | Err e => Err e
           | Ok decoded => Ok (Some decoded)
           end
       end).

(** The record the begin reserves; its final forms share its key and digest. *)
Definition model_record (p : Identity.Principal) (operation : string) (metadata : CommandMetadata) (now : Time)
    : IdempotencyRecord :=
  new_record p operation (TrimSpace (Meta_IdempotencyKey metadata)) (TrimSpace (Meta_RequestDigest metadata))
    IdempotencyInProgress "" 0 now.

(** After a retryable failure: release the command. *)
Definition release_model (record : IdempotencyRecord) (task : Task) (result : ModelRuntime.Result) (e : error)
    : prog (reply ModelCommandResult) :=
  let failed := mkModelCommandResult result false in
  or_fail failed (encodeStoredModelResponse result (Some e)) (λ stored,
  r ← ask (ERetryable (set_record record IdempotencyFailedRetryable (Task_ID task) 503 stored));
  or_fail failed r (λ _, Ret (failed, Some e))).

(** After a failure for good: the task fails. *)
Definition fail_model (principal : Identity.Principal) (metadata : CommandMetadata) (record : IdempotencyRecord)
    (operationID : string) (task : Task) (result : ModelRuntime.Result) (e : error)
    : prog (reply ModelCommandResult) :=
  let failed := mkModelCommandResult result false in
  let task := set_task_result task (error_text e) in
  failedAt ← ask ENow;
  or_fail failed (move_task task TaskFailed (transitionActor ctx) "model execution failed" failedAt) (λ '(tr, task),
  or_fail failed (enc_failed J operationID (error_text e)) (λ payload,
  or_fail failed (encodeStoredModelResponse result (Some e)) (λ stored,
  eventID ← ask (ENewID "task-event");
  r ← ask (EFinalize (mkModelExecutionFinalizeCommit task [tr]
        [new_event eventID "TaskFailed" (principalTaskEventActor principal) payload metadata failedAt]
        (set_record record IdempotencyFailedFinal (Task_ID task) 500 stored)));
  or_fail failed r (λ finalized,
  _ ← appendTaskTransitionTrace (FinalizeResult_Task finalized) tr "true";
  Ret (failed, Some e))))).

(** [payload, _ := json.Marshal(..)]. *)
Definition or_nil (r : result string) : string := match r with Ok s => s | Err _ => "" end.

(** After success: the task is validated and completed. *)
Definition complete_model (principal : Identity.Principal) (metadata : CommandMetadata) (record : IdempotencyRecord)
    (operationID : string) (task : Task) (result : ModelRuntime.Result) : prog (reply ModelCommandResult) :=
  let done_ := mkModelCommandResult result false in
  let task := set_task_result task (encodeProviderResult (ModelRuntime.Result_Response result)) in
  task ← with_cost task;
  validatingAt ← ask ENow;
  or_fail done_ (move_task task TaskValidating (transitionActor ctx) "validate model execution result" validatingAt)
    (λ '(validating, task),
  completedAt ← ask ENow;
  or_fail done_ (move_task task TaskCompleted (transitionActor ctx) "model execution result accepted" completedAt)
    (λ '(completed, task),
  or_fail done_ (encodeStoredModelResponse result None) (λ stored,
  validationID ← ask (ENewID "task-event");
  completedID ← ask (ENewID "task-event");
  let actor := principalTaskEventActor principal in
  r ← ask (EFinalize (mkModelExecutionFinalizeCommit task [validating; completed]
        [new_event validationID "TaskValidationStarted" actor (or_nil (enc_validation J operationID)) metadata
           validatingAt;
         new_event completedID "TaskCompleted" actor (or_nil (enc_completed J operationID result)) metadata
           completedAt]
        (set_record record IdempotencyCompleted (Task_ID task) 200 stored)));
  or_fail done_ r (λ finalized,
  _ ← appendTaskTransitionTrace (FinalizeResult_Task finalized) validating "true";
  _ ← appendTaskTransitionTrace (FinalizeResult_Task finalized) completed "true";
  Ret (done_, None))))).

(** Once the begin was granted: run the model outside the database, then record. *)
Definition run_model (principal : Identity.Principal) (metadata : CommandMetadata) (record : IdempotencyRecord)
    (decision : RouteDecision) (request : ProviderRequest) (task : Task) : prog (reply ModelCommandResult) :=
  x ← ask (ERun (Task_ID task) (Task_TraceID task) decision request);
  let '(result, executeErr) := x in
  match executeErr with
  | Some e =>
      if modelExecutionRetryable result e then release_model record task result e
      else fail_model principal metadata record (Request_RequestID request) task result e
  | None => complete_model principal metadata record (Request_RequestID request) task result
  end.

(** The commit of the begin: with the start of the execution, or of a retry. *)
Definition begin_commit (principal : Identity.Principal) (metadata : CommandMetadata) (record : IdempotencyRecord)
    (decision : RouteDecision) (operationID : string) (task : Task) (now : Time)
    : prog (result ModelExecutionBeginCommit) :=
  match Task_Status task with
  | TaskRouting =>
      match move_task task TaskExecuting (transitionActor ctx) "execute selected model deployment" now with
      | Err e => Ret (Err e)
      | Ok (tr, moved) =>
          match enc_begin J operationID decision with
          | Err e => Ret (Err (Errorw "encode model execution start event: %w" [] e))
          | Ok payload =>
              eventID ← ask (ENewID "task-event");
              Ret (Ok (mkModelExecutionBeginCommit moved (Some tr)
                     (Some (new_event eventID "TaskExecutionStarted" (principalTaskEventActor principal) payload
                              metadata now)) record))
          end
      end
  | TaskExecuting => Ret (Ok (mkModelExecutionBeginCommit task None None record))
  | s => Ret (Err (invalid_transition "%w: cannot execute model from %s" s))
  end.

Definition ExecuteModelIdempotent (taskID : string) (request : ProviderRequest) (metadata : CommandMetadata)
    : prog (reply ModelCommandResult) :=
  let zero := ModelCommandZero in
  or_fail zero (Metadata_Validate metadata) (λ _,
  if negb (has_runtime cfg) then Ret (zero, Some (Errorf "model runtime is not configured" [])) else
  if negb (has_commands cfg) then
    r ← ExecuteModel taskID request;
    Ret (mkModelCommandResult r.1 false, r.2)
  else
  or_fail zero (Identity.RequireProject ctx) (λ principal,
  let operation := modelCommandOperation taskID in
  replay ← resolveModelReplay principal operation metadata;
  or_fail zero replay (λ found,
  match found with
  | Some replayed => Ret replayed
  | None =>
  g ← ask (EGetTask taskID);
  or_fail zero g (λ task,
  if Task_RouteDecisionID task ==? "" then Ret (zero, Some (Errorf "task does not have a route decision" [])) else
  d ← ask (EGetRoute (Task_RouteDecisionID task));
  or_fail zero d (λ decision,
  let request := set_request_id request (logicalModelOperationID (Task_ID task) (Meta_IdempotencyKey metadata)) in
  now ← ask ENow;
  let record := model_record principal operation metadata now in
  c ← begin_commit principal metadata record decision (Request_RequestID request) task now;
  or_fail zero c (λ begin,
  b ← ask (EBegin begin);
  or_fail zero b (λ begun,
  if BeginResult_Replayed begun then
    or_fail zero (decodeStoredModelResponse (BeginResult_Idempotency begun)) (λ replayed,
      Ret (mkModelCommandResult (ModelCommand_Result replayed.1) true, replayed.2))
  else
    let task := default TaskZero (BeginResult_Task begun) in
    _ ← match Begin_Transition begin with
        | Some tr => appendTaskTransitionTrace task tr "true"
        | None => Ret tt
        end;
    run_model principal metadata record decision request task))))
  end))).

End commands.
End ControlPlane.
