(* ===== verification/ControlSystem.v ===== *)
(** * ControlSystem: concurrent requests on one database

    Any number of control-plane requests run at the same time, each one request
    to its environment at a time, interleaved with any other use of the command
    store.  Store requests act on the shared database as [TaskStore] says; the
    clock, ids, repositories, the router and the model runtime answer anything.
    The main theorem bounds how often a logical model command reaches the model
    runtime. *)
From S2P Require Import Prelude Identity Domain RouteTypes ModelTypes ExecTypes LeaseSchema OutboxStore.
From S2P Require Import TaskSchema TaskStore TaskLog TaskRefine TaskHistory TaskSafety ModelRuntime ControlPlane.

Module ControlSystem.
Import Domain RouteTypes ModelTypes TaskSchema TaskStore TaskLog TaskRefine TaskRefineModel TaskHistory ControlPlane.

(** ** Tokens: the right to run the model

    A granted begin gives a request the right to run the model once. *)

(** What a request may ask for, holding the token or not. *)
Definition permitted {X} (k : IdemKey) (token : bool) (e : Ev X) : Prop :=
  match e with
  | ERun _ _ _ _ => token = true
  | EBegin c => key_of (Begin_Idempotency c) = k ∧ token = false
  | ECreateTask _ | EUpdateTask _ => False
  | _ => True
  end.

Definition token_after {X} (token : bool) (e : Ev X) : X → bool :=
  match e in Ev X return X → bool with
  | ERun _ _ _ _ => λ _, false
  | EBegin _ => λ r, match r with Ok b => negb (BeginResult_Replayed b) | Err _ => token end
  | _ => λ _, token
  end.

(** [p] asks only for what it may, and returns [a] with token [t] only if [Q t a]. *)
Fixpoint wp {A} (k : IdemKey) (token : bool) (p : prog A) (Q : bool → A → Prop) : Prop :=
  match p with
  | Ret a => Q token a
  | Do e kont => permitted k token e ∧ ∀ r, wp k (token_after token e r) (kont r) Q
  end.

Lemma token_wp_bind {A B} k t (p : prog A) (f : A → prog B) Q :
  wp k t (bind p f) Q ↔ wp k t p (λ t a, wp k t (f a) Q).
Proof.
  revert t. induction p as [a|X e kont IH]; intros t; simpl; [done|].
  split; intros [Hp Hk]; (split; [done|]); intros r; by apply IH.
Qed.

Lemma token_wp_mono {A} k t (p : prog A) (Q Q' : bool → A → Prop) :
  wp k t p Q → (∀ t a, Q t a → Q' t a) → wp k t p Q'.
Proof.
  revert t. induction p as [a|X e kont IH]; intros t; simpl; [by auto|].
  intros [Hp Hk] HQ. split; [done|]. intros r. by apply IH; [apply Hk|].
Qed.

(** Pieces that do not touch the token. *)
Definition neutral {A} (p : prog A) : Prop := ∀ k t (Q : bool → A → Prop), (∀ a, Q t a) → wp k t p Q.

Lemma neutral_wp {A} (p : prog A) k t (Q : bool → A → Prop) : neutral p → (∀ a, Q t a) → wp k t p Q.
Proof. intros Hp HQ. by apply Hp. Qed.

Lemma neutral_Ret {A} (a : A) : neutral (Ret a).
Proof. intros k t Q HQ. apply HQ. Qed.

Lemma neutral_bind {A B} (p : prog A) (f : A → prog B) : neutral p → (∀ a, neutral (f a)) → neutral (p ≫= f).
Proof. intros Hp Hf k t Q HQ. apply token_wp_bind. apply Hp. intros a. by apply Hf. Qed.

Lemma neutral_or_fail {A T} (z : T) (r : result A) (f : A → prog (reply T)) :
  (∀ a, neutral (f a)) → neutral (or_fail z r f).
Proof. intros Hf. destruct r; simpl; [apply Hf|apply neutral_Ret]. Qed.

(** Requests that neither begin nor run, nor write behind the command store. *)
Definition plain {X} (e : Ev X) : bool :=
  match e with ERun _ _ _ _ | EBegin _ | ECreateTask _ | EUpdateTask _ => false | _ => true end.

Lemma neutral_ask {X} (e : Ev X) : plain e = true → neutral (ask e).
Proof. intros He k t Q HQ. destruct e; try done; simpl; split; try done; intros r; apply HQ. Qed.

(** One step into a program. *)
Ltac neutral_step :=
  match goal with
  | |- neutral (Ret _) => apply neutral_Ret
  | |- neutral (ask _) => apply neutral_ask; reflexivity
  | |- neutral (or_fail _ _ _) => apply neutral_or_fail; intros ?
  | |- neutral (_ ≫= _) => apply neutral_bind; [|intros ?]
  | |- neutral (match ?x with _ => _ end) => destruct x
  | |- neutral _ => solve [auto with neutral]
  end.
Ltac neutral := cbv zeta; repeat (neutral_step; cbv beta zeta).

Create HintDb neutral.

Section system.
Variable J : Encoders.
Variable error_text : error → string.
Variable sha256_12 : string → string.

Lemma neutral_appendTrace name kind st msg task trace attrs a b : neutral (appendTrace name kind st msg task trace attrs a b).
Proof. unfold appendTrace. neutral. Qed.

Lemma neutral_transitionTrace task tr s : neutral (appendTaskTransitionTrace task tr s).
Proof. apply neutral_appendTrace. Qed.

Lemma neutral_with_cost cfg task : neutral (with_cost cfg task).
Proof. unfold with_cost. neutral. Qed.

#[local] Hint Resolve neutral_appendTrace neutral_transitionTrace neutral_with_cost : neutral.

Lemma neutral_release record task result e : neutral (release_model J error_text record task result e).
Proof. unfold release_model. neutral. Qed.

Lemma neutral_fail ctx principal metadata record op task result e :
  neutral (fail_model J error_text ctx principal metadata record op task result e).
Proof. unfold fail_model. neutral. Qed.

Lemma neutral_complete cfg ctx principal metadata record op task result :
  neutral (complete_model cfg J error_text ctx principal metadata record op task result).
Proof. unfold complete_model. neutral. Qed.

Lemma neutral_begin_commit ctx principal metadata record d op task now :
  neutral (begin_commit J ctx principal metadata record d op task now).
Proof. unfold begin_commit. neutral. Qed.

Lemma neutral_resolveModelReplay p op metadata : neutral (resolveModelReplay J p op metadata).
Proof. unfold resolveModelReplay. neutral. Qed.

Lemma neutral_resolveRouteReplay p op metadata : neutral (resolveRouteReplay J p op metadata).
Proof. unfold resolveRouteReplay. neutral. Qed.

Lemma neutral_planning ctx principal task metadata : neutral (commitPlanningForRoute J ctx principal task metadata).
Proof. unfold commitPlanningForRoute. neutral. Qed.

#[local] Hint Resolve neutral_release neutral_fail neutral_complete neutral_begin_commit
  neutral_resolveModelReplay neutral_resolveRouteReplay neutral_planning : neutral.

Lemma neutral_create cfg ctx input agentID metadata :
  has_commands cfg = true → neutral (CreateTaskIdempotent cfg J ctx input agentID metadata).
Proof. intros Hc. unfold CreateTaskIdempotent. rewrite Hc. cbn [negb]. neutral. Qed.

Lemma neutral_route cfg ctx request metadata :
  has_commands cfg = true → neutral (DecideRouteIdempotent cfg J error_text ctx request metadata).
Proof. intros Hc. unfold DecideRouteIdempotent. rewrite Hc. cbn [negb]. neutral. Qed.

(** The run itself spends the token. *)
Lemma wp_run_model k cfg ctx principal metadata record d request task :
  wp k true (run_model cfg J error_text ctx principal metadata record d request task) (λ _ _, True).
Proof.
  unfold run_model. apply token_wp_bind. simpl. split; [done|]. intros [result [e|]].
  - case_match; apply neutral_wp; auto with neutral.
  - apply neutral_wp; auto with neutral.
Qed.

(** The key of a model command. *)
Definition model_key (ctx : Identity.Context) (taskID : string) (metadata : CommandMetadata) : IdemKey :=
  match Identity.RequireProject ctx with
  | Ok p => (Identity.TenantID p, Identity.ProjectID p,
             (modelCommandOperation taskID, TrimSpace (Meta_IdempotencyKey metadata)))
  | Err _ => ("", "", ("", ""))
  end.

Lemma begin_commit_record k t ctx principal metadata record d op task now :
  wp k t (begin_commit J ctx principal metadata record d op task now)
    (λ t' c, t' = t ∧ match c with Ok c => Begin_Idempotency c = record | Err _ => True end).
Proof.
  unfold begin_commit. destruct (Task_Status task); simpl; try done.
  destruct (move_task _ _ _ _ _) as [[tr moved]|]; simpl; [|done]. by destruct (enc_begin J op d).
Qed.

Lemma wp_execute cfg ctx taskID request metadata :
  has_commands cfg = true →
  wp (model_key ctx taskID metadata) false
    (ExecuteModelIdempotent cfg J error_text sha256_12 ctx taskID request metadata) (λ _ _, True).
Proof.
  intros Hc. unfold ExecuteModelIdempotent, model_key. rewrite Hc. cbv zeta.
  destruct (Metadata_Validate metadata); cbn [or_fail]; [|done].
  destruct (has_runtime cfg); cbn [negb]; [|done].
  destruct (Identity.RequireProject ctx) as [p|]; cbn [or_fail]; [|done]. set (k := (_, _, _)).
  apply token_wp_bind, neutral_wp; [apply neutral_resolveModelReplay|]. intros [[found|]|]; cbn [or_fail]; [done| |done].
  apply token_wp_bind, neutral_wp; [by apply neutral_ask|]. intros [task|]; cbn [or_fail]; [|done].
  destruct (Task_RouteDecisionID task ==? ""); [done|].
  apply token_wp_bind, neutral_wp; [by apply neutral_ask|]. intros [d|]; cbn [or_fail]; [|done].
  apply token_wp_bind, neutral_wp; [by apply neutral_ask|]. intros now. apply token_wp_bind.
  eapply token_wp_mono; [apply begin_commit_record|]. intros t [c|] [-> Hrec]; cbn [or_fail]; [|done].
  apply token_wp_bind. cbn in Hrec. split; [split; [by rewrite Hrec|done]|]. intros [b|]; cbn [or_fail]; [|done].
  cbn [token_after wp or_fail]. destruct (BeginResult_Replayed b); cbn [negb].
  - destruct (decodeStoredModelResponse J (BeginResult_Idempotency b)); exact I.
  - apply token_wp_bind, neutral_wp; [by neutral|]. intros _. apply wp_run_model.
Qed.

(** ** The system *)

(** A request of a service whose command store is configured. *)
Inductive request : Type :=
| ReqCreate (router runtime ledger engine : bool) (ctx : Identity.Context) (input agentID : string)
    (metadata : CommandMetadata)
| ReqRoute (router runtime ledger engine : bool) (ctx : Identity.Context) (route : RouteRequest)
    (metadata : CommandMetadata)
| ReqModel (router runtime ledger engine : bool) (ctx : Identity.Context) (taskID : string) (model : ProviderRequest)
    (metadata : CommandMetadata).

(** The answer goes back to the caller, who is not part of the system. *)
Definition request_prog (r : request) : prog unit :=
  match r with
  | ReqCreate ro ru le en ctx input agent metadata =>
      _ ← CreateTaskIdempotent (mkConfig true ro ru le en) J ctx input agent metadata; Ret tt
  | ReqRoute ro ru le en ctx route metadata =>
      _ ← DecideRouteIdempotent (mkConfig true ro ru le en) J error_text ctx route metadata; Ret tt
  | ReqModel ro ru le en ctx taskID model metadata =>
      _ ← ExecuteModelIdempotent (mkConfig true ro ru le en) J error_text sha256_12 ctx taskID model metadata; Ret tt
  end.

(** The logical model command a request carries out. *)
Definition request_key (r : request) : option IdemKey :=
  match r with
  | ReqModel _ _ _ _ ctx taskID _ metadata => Some (model_key ctx taskID metadata)
  | _ => None
  end.

Variable pg_ts : Time → Time.
Variable pg_jsonb : string → result string.
Variable C : Codec.

(** Store requests act as [TaskStore] says; [answer] answers the others, and
    [writes] is what writers other than the command store do. *)
Definition handle (env : TaskEnv) (answer : ∀ X, Ev X → X) (writes : DB → DB) {X} (e : Ev X) (db : DB) : X * DB :=
  match e in Ev X return X * DB with
  | ECreate c => TaskStore.CreateTask pg_ts pg_jsonb env c db
  | ETransition c => CommitTransition pg_ts pg_jsonb env c db
  | ERoute c => CommitRouteTransition pg_ts pg_jsonb C env c db
  | EBegin c => BeginModelExecution pg_ts pg_jsonb env c db
  | EFinalize c => FinalizeModelExecution pg_ts pg_jsonb env c db
  | ERetryable r => MarkModelExecutionRetryable pg_jsonb env r db
  | EResolve l => ResolveIdempotency env l db
  | ECreateTask t => (answer _ (ECreateTask t), writes db)
  | EUpdateTask t => (answer _ (EUpdateTask t), writes db)
  | e => (answer _ e, db)
  end.

Record Sys : Type := mkSys { Sys_db : DB; Sys_threads : list (request * prog unit) }.

Inductive move : Type :=
| Arrive (r : request)
| Advance (i : nat) (env : TaskEnv) (answer : ∀ X, Ev X → X) (writes : DB → DB)
| Crash (i : nat)
| Other (env : TaskEnv) (c : call).

Definition sys_step (s : Sys) (m : move) : Sys :=
  match m with
  | Arrive r => mkSys (Sys_db s) (Sys_threads s ++ [(r, request_prog r)])
  | Advance i env answer writes =>
      match Sys_threads s !! i with
      | Some (r, Do e kont) =>
          let '(x, db) := handle env answer writes e (Sys_db s) in mkSys db (<[i := (r, kont x)]> (Sys_threads s))
      | _ => s
      end
  | Crash i =>
      match Sys_threads s !! i with
      | Some (r, _) => mkSys (Sys_db s) (<[i := (r, Ret tt)]> (Sys_threads s))
      | None => s
      end
  | Other env c => mkSys (run_call pg_ts pg_jsonb C env c (Sys_db s)) (Sys_threads s)
  end.

Definition is_run {X} (e : Ev X) : bool := match e with ERun _ _ _ _ => true | _ => false end.

(** The move hands the model runtime an execution for [k]. *)
Definition ran (k : IdemKey) (s : Sys) (m : move) : bool :=
  match m with
  | Advance i _ _ _ =>
      match Sys_threads s !! i with
      | Some (r, @Do _ _ X e _) => @is_run X e && bool_decide (request_key r = Some k)
      | _ => false
      end
  | _ => false
  end.

Fixpoint runs (k : IdemKey) (s : Sys) (ms : list move) : nat :=
  match ms with [] => 0 | m :: ms => Nat.b2n (ran k s m) + runs k (sys_step s m) ms end.

Fixpoint releases_of (k : IdemKey) (s : Sys) (ms : list move) : nat :=
  match ms with
  | [] => 0
  | m :: ms => Nat.b2n (released k (Sys_db s) (Sys_db (sys_step s m))) + releases_of k (sys_step s m) ms
  end.

(** ** The bound *)

Definition takenb (k : IdemKey) (db : DB) : bool :=
  match idem db !! k with
  | Some row => (i_status row ==? IdempotencyInProgress) || is_final (i_status row)
  | None => false
  end.

Lemma takenb_spec k db : takenb k db = true ↔ taken k db.
Proof.
  unfold takenb, taken. split.
  - destruct (idem db !! k) as [row|]; [|done]. intros [H|H]%orb_true_iff; [apply bool_decide_eq_true in H|]; eauto.
  - intros (row & -> & [->|H]); [done|]. rewrite H. apply orb_true_r.
Qed.

(** The thread keeps to its token, which its key names. *)
Definition thread_ok (th : request * prog unit) (token : bool) : Prop :=
  wp (default ("", "", ("", "")) (request_key th.1)) token th.2 (λ _ _, True).

Definition holds_token (k : IdemKey) (th : request * prog unit) (token : bool) : nat :=
  Nat.b2n (bool_decide (request_key th.1 = Some k) && token).

Definition tokens (k : IdemKey) (s : Sys) (ts : list bool) : nat :=
  sum_list (zip_with (holds_token k) (Sys_threads s) ts).

Definition SysInv (s : Sys) (ts : list bool) : Prop := Inv (Sys_db s) ∧ Forall2 thread_ok (Sys_threads s) ts.

Lemma request_prog_ok r : thread_ok (r, request_prog r) false.
Proof.
  destruct r; unfold thread_ok; simpl; apply token_wp_bind.
  - apply neutral_wp; [by apply neutral_create|done].
  - apply neutral_wp; [by apply neutral_route|done].
  - eapply token_wp_mono; [by apply wp_execute|done].
Qed.

Lemma sum_list_insert (l : list nat) i x y :
  l !! i = Some x → sum_list (<[i := y]> l) + x = sum_list l + y.
Proof.
  revert i. induction l as [|z l IH]; intros [|i] H; simplify_eq/=; [lia|].
  specialize (IH _ H). unfold sum_list in *. lia.
Qed.

(** One thread changes its state and its token. *)
Lemma tokens_insert k db db' ths ts i r p p' t t' :
  ths !! i = Some (r, p) → ts !! i = Some t →
  tokens k (mkSys db' (<[i := (r, p')]> ths)) (<[i := t']> ts) + holds_token k (r, p) t
  = tokens k (mkSys db ths) ts + holds_token k (r, p) t'.
Proof.
  intros Hi Ht. unfold tokens. simpl. rewrite <- insert_zip_with. apply sum_list_insert.
  by rewrite lookup_zip_with, Hi, Ht.
Qed.

(** Calls of the command store do not lose a taken key unnoticed. *)
Lemma run_call_takenb k env c db :
  let db' := run_call pg_ts pg_jsonb C env c db in
  Inv db → Nat.b2n (takenb k db) ≤ Nat.b2n (released k db db') + Nat.b2n (takenb k db').
Proof.
  intros db' HI. destruct (takenb k db) eqn:E; simpl; [|lia]. apply takenb_spec in E.
  destruct (run_call_taken_or pg_ts pg_jsonb C env c db k HI E) as [H|[_ H]].
  - apply takenb_spec in H. unfold db'. rewrite H. simpl. lia.
  - unfold db'. rewrite H. simpl. lia.
Qed.

(** A permitted request acts on the database as a call, or not at all. *)
Lemma handle_call {X} k t (e : Ev X) env answer writes db :
  permitted k t e →
  (handle env answer writes e db).2 = db
  ∨ ∃ c, (handle env answer writes e db).2 = run_call pg_ts pg_jsonb C env c db.
Proof.
  intros Hp. destruct e; simpl in *; try (by left); try done; right.
  - by eexists (CallCreate _).
  - by eexists (CallTransition _).
  - by eexists (CallRoute _).
  - by eexists (CallBegin _).
  - by eexists (CallFinalize _).
  - by eexists (CallRetryable _).
  - by eexists (CallResolve _).
Qed.

Lemma released_refl k db : released k db db = false.
Proof. unfold released. destruct (idem db !! k) as [row|]; [|done]. by destruct (i_status row). Qed.

Lemma handle_takenb {X} k k' t (e : Ev X) env answer writes db :
  let db' := (handle env answer writes e db).2 in
  permitted k' t e → Inv db →
  Inv db' ∧ Nat.b2n (takenb k db) ≤ Nat.b2n (released k db db') + Nat.b2n (takenb k db').
Proof.
  intros db' Hp HI. unfold db'. destruct (handle_call k' t e env answer writes db Hp) as [->|[c ->]].
  - split; [done|lia].
  - split; [by apply task_call_Inv|by apply run_call_takenb].
Qed.

(** A granted begin takes a key that was free. *)
Lemma begin_takes env c db b :
  Inv db → (BeginModelExecution pg_ts pg_jsonb env c db).1 = Ok b → BeginResult_Replayed b = false →
  takenb (key_of (Begin_Idempotency c)) db = false
  ∧ takenb (key_of (Begin_Idempotency c)) (BeginModelExecution pg_ts pg_jsonb env c db).2 = true.
Proof.
  intros HI Hb Hr. destruct (BeginModelExecution_cases pg_ts pg_jsonb env c db HI)
    as [[_ [e He]]|(p & x & _ & Hx & _ & [(Ht & _)|(_ & [_ Hav] & Hbeg)])]; [congruence| |].
  - rewrite Hb in Hx. apply reply_Ok in Hx as ->. congruence.
  - destruct Hbeg as [(row & Hrow & Hst & _) _]. unfold takenb. rewrite Hrow, Hst. split; [|done].
    unfold available in Hav. destruct (idem db !! _) as [row0|]; [|done]. destruct Hav as [-> _]. done.
Qed.

(** The potential: what was run, plus the tokens out, against the keys taken. *)
Lemma handle_potential {X} k (r : request) (e : Ev X) kont t env answer writes db :
  let p : request * prog unit := (r, Do e kont) in
  let x := (handle env answer writes e db).1 in
  let db' := (handle env answer writes e db).2 in
  Inv db → thread_ok p t →
  Nat.b2n (ran k (mkSys db [p]) (Advance 0 env answer writes)) + holds_token k p (token_after t e x) + Nat.b2n (takenb k db)
  ≤ Nat.b2n (released k db db') + holds_token k p t + Nat.b2n (takenb k db').
Proof.
  intros p x db' HI [Hperm _]. simpl in Hperm.
  pose proof (handle_takenb k _ t e env answer writes db Hperm HI) as [_ Htaken]. fold db' in Htaken.
  destruct e; simpl in Hperm |- *; subst; try (fold db'; lia).
  - destruct Hperm as [Hkey ->]. subst x db'. simpl in *.
    destruct (BeginModelExecution _ _ _ _ _).1 as [b|] eqn:Hb; [|lia]. destruct (BeginResult_Replayed b) eqn:Hr; simpl; [lia|].
    destruct (begin_takes _ _ _ _ HI Hb Hr) as [H1 H2]. unfold holds_token. simpl.
    case_bool_decide as Hk; simpl; [|lia]. rewrite Hk in Hkey. simpl in Hkey. subst k. rewrite H1, H2. simpl. lia.
  - unfold holds_token. simpl. case_bool_decide; simpl; lia.
Qed.

Lemma step_potential k s ts m :
  SysInv s ts →
  ∃ ts', SysInv (sys_step s m) ts'
  ∧ Nat.b2n (ran k s m) + tokens k (sys_step s m) ts' + Nat.b2n (takenb k (Sys_db s))
    ≤ Nat.b2n (released k (Sys_db s) (Sys_db (sys_step s m))) + tokens k s ts + Nat.b2n (takenb k (Sys_db (sys_step s m))).
Proof.
  intros [HI Hth]. destruct s as [db ths]. simpl in HI, Hth. destruct m as [r|i env answer writes|i|env c]; simpl.
  - exists (ts ++ [false]). split; [split; [done|]; apply Forall2_app; [done|]; repeat constructor; apply request_prog_ok|].
    unfold tokens. simpl. rewrite zip_with_app by by eapply Forall2_length. rewrite sum_list_with_app || rewrite sum_list_app.
    simpl. unfold holds_token at 2. rewrite andb_false_r. simpl. lia.
  - destruct (ths !! i) as [[r p]|] eqn:Hi; [|exists ts; simpl; split; [done|lia]].
    destruct p as [a|X e kont]; [exists ts; simpl; split; [done|lia]|].
    destruct (Forall2_lookup_l _ _ _ _ _ Hth Hi) as (t & Ht & Hok).
    pose proof (handle_potential k r e kont t env answer writes db HI Hok) as Hpot. destruct Hok as [Hperm Hk].
    pose proof (handle_takenb k _ t e env answer writes db Hperm HI) as [HI' _].
    destruct (handle env answer writes e db) as [x db'] eqn:Hh. simpl in *.
    exists (<[i := token_after t e x]> ts). split; [split; [done|]; apply Forall2_insert; [done|apply Hk]|].
    pose proof (tokens_insert k db db' ths ts i r (Do e kont) (kont x) t (token_after t e x) Hi Ht).
    change (λ X, Ev X) with Ev in *. lia.
  - destruct (ths !! i) as [[r p]|] eqn:Hi; [|exists ts; simpl; split; [done|lia]].
    destruct (Forall2_lookup_l _ _ _ _ _ Hth Hi) as (t & Ht & _).
    exists (<[i := false]> ts). split; [split; [done|]; apply Forall2_insert; [done|exact I]|].
    pose proof (tokens_insert k db db ths ts i r p (Ret tt) t false Hi Ht) as Hins.
    unfold holds_token at 2 in Hins. rewrite andb_false_r in Hins. simpl in *. lia.
  - exists ts. split; [split; [by apply task_call_Inv|done]|].
    pose proof (run_call_takenb k env c db HI) as Hc. unfold tokens. simpl in *. lia.
Qed.

Lemma runs_potential k ms s ts :
  SysInv s ts → runs k s ms + Nat.b2n (takenb k (Sys_db s)) ≤ releases_of k s ms + tokens k s ts + 1.
Proof.
  revert s ts. induction ms as [|m ms IH]; intros s ts HI; simpl; [destruct (takenb _ _); simpl; lia|].
  destruct (step_potential k s ts m HI) as (ts' & HI' & Hp). specialize (IH _ _ HI'). lia.
Qed.

(** C2. A model command runs once per release.  Take any number of requests of
    the control plane, each one step at a time and in any order, interleaved with
    any other calls of the command store, with crashes anywhere and with any
    answers of the model runtime, the router, the clock and the repositories.  The
    executions that requests of one logical model command (scope, task and
    idempotency key) hand to the model runtime are at most one more than the
    recorded retryable failures that released its key: concurrent duplicates, lost
    answers and retries after a crash never run the model a second time. *)
Theorem model_runs_at_most_once_per_release k ms :
  runs k (mkSys emptyDB []) ms ≤ releases_of k (mkSys emptyDB []) ms + 1.
Proof.
  pose proof (runs_potential k ms (mkSys emptyDB []) []) as H.
  enough (SysInv (mkSys emptyDB []) []) as HI by (specialize (H HI); unfold tokens in H; simpl in H; lia).
  split; [apply taskInv_empty|constructor].
Qed.

End system.

(** ** Two requests of one command

    The first is released by a retryable failure, or dies while the model runs. *)
Definition sample_encoders : Encoders := {|
  enc_created _ := Ok "{}"; enc_planning _ := Ok "{}"; enc_route _ _ _ := Ok "{}"; enc_begin _ _ := Ok "{}";
  enc_failed _ _ := Ok "{}"; enc_validation _ := Ok "{}"; enc_completed _ _ := Ok "{}"; enc_response _ := Ok "{}";
  dec_response _ := Ok (mkStoredResponse ModelRuntime.ResultZero None); enc_provider _ := Ok "{}";
  dec_decision _ := Ok (TaskSafety.sample_decision "t1")
|}.

Definition sample_request : request :=
  ReqModel true true false false (LeaseSchema.env_ctx (te_tx TaskSafety.sample_tenv)) "t1" ModelRuntime.sample_request
    (mkCommandMetadata "key" "digest" "req").

Definition sample_answer (status : TaskStatus) (version : Z) (X : Type) (e : Ev X) : X :=
  match e in Ev X return X with
  | ENow => 20%Z
  | ENewID prefix => prefix
  | EGetTask id => Ok (set_task_route (TaskSafety.sample_task status version) (TaskSafety.sample_decision "t1"))
  | EGetRoute id => Ok (TaskSafety.sample_decision "t1")
  | ERun _ _ _ _ => (ModelRuntime.ResultZero, Some (ProviderErr ErrRateLimited "slow down" true))
  | EAggregate _ => Err (Errorf "no ledger" [])
  | EStart _ => None
  | ETrace _ => tt
  | _ => Err (Errorf "not asked" [])
  end.

Definition advance (i n : nat) (status : TaskStatus) (version : Z) : list move :=
  replicate n (Advance i TaskSafety.sample_tenv (sample_answer status version) id).

Definition sample_prefix : list move :=
  map (λ ec, Other ec.1 ec.2) TaskSafety.sample_until_begin ++ [Arrive sample_request; Arrive sample_request].

Definition sample_model_key : IdemKey := ("acme", "ops", ("POST /api/v1/tasks/t1/model", "key")).

Abbreviation sample_sys := (mkSys emptyDB []).
Abbreviation sample_runs ms :=
  (runs sample_encoders (λ _, "") id TaskSafety.keep_ts Ok TaskSafety.sample_codec sample_model_key sample_sys ms).
Abbreviation sample_releases ms :=
  (releases_of sample_encoders (λ _, "") id TaskSafety.keep_ts Ok TaskSafety.sample_codec sample_model_key sample_sys ms).

Example released_command_runs_again :
  let ms := sample_prefix ++ advance 0 11 TaskRouting 3 ++ advance 1 6 TaskExecuting 4 in
  sample_runs ms = 2 ∧ sample_releases ms = 1.
Proof. vm_compute. split; reflexivity. Qed.

Example crashed_command_does_not_run_again :
  let ms := sample_prefix ++ advance 0 10 TaskRouting 3 ++ [Crash 0] ++ advance 1 20 TaskExecuting 4 in
  sample_runs ms = 1 ∧ sample_releases ms = 0.
Proof. vm_compute. split; reflexivity. Qed.

End ControlSystem.
