(* ===== verification/Lifecycle.v ===== *)
(** * Lifecycle: the durable workflow of a task

    [src/internal/workflow/lifecycle.go] and the request checks of
    [service.go].  The workflow drives a task from CREATED to COMPLETED through
    activities: it loads the task, runs the step of its status, commits the
    transition at the version it loaded, and starts over, until the task is
    terminal or an activity fails.

    The activities are the interface [LifecycleActivities].  Temporal, which runs
    them, is not code of the repository: [ExecuteActivity] is a parameter, and
    [TemporalLaws] states its documented behaviour with the retry policy of the
    workflow (at most three attempts, an attempt's answer may be lost, anything
    may happen to the backend before and after an attempt).  [BackendLaws] says
    what the workflow relies on in a backend; the theorem is proved against it. *)
From S2P Require Import Prelude Domain.

Module Lifecycle.
Import Prelude Domain.

Definition TaskWorkflowSchemaVersion : Z := 1.
Definition TaskLifecycleVersion : string := "lifecycle-v1".
Definition TaskExecutionWorkflowType : string := "task-execution-v1".
Definition ActivityPlanStub : string := "aicloud.task.plan.stub.v1".
Definition ActivityRouteStub : string := "aicloud.task.route.stub.v1".
Definition ActivityExecuteStub : string := "aicloud.task.execute.stub.v1".
Definition ActivityValidateStub : string := "aicloud.task.validate.stub.v1".
Definition ErrorTypeStaleTaskVersion : string := "STALE_TASK_VERSION".
Definition ErrorTypeLifecycleBackendDisabled : string := "LIFECYCLE_BACKEND_NOT_CONFIGURED".

Definition ErrInvalidTaskWorkflowInput : error :=
  Sentinel "ErrInvalidTaskWorkflowInput" "invalid Task workflow input".
Definition ErrInvalidStartRequest : error := Sentinel "ErrInvalidStartRequest" "invalid workflow start request".
Definition ErrInvalidCancelRequest : error := Sentinel "ErrInvalidCancelRequest" "invalid workflow cancel request".

(** [temporal.NewNonRetryableApplicationError(_, errorType, cause)]; the message
    is never read. *)
Definition ApplicationError : string := "temporal.ApplicationError".
Definition NewNonRetryableApplicationError (errorType : string) (cause : option error) : error :=
  TypedErr ApplicationError errorType cause.

Definition isApplicationErrorType (err : error) (errorType : string) : bool :=
  match errors_As err ApplicationError with Some ty => ty ==? errorType | None => false end.

(** ** Requests *)

Record TaskWorkflowInput : Type := mkWorkflowInput {
  Input_SchemaVersion : Z;
  Input_TenantID : string;
  Input_ProjectID : string;
  Input_TaskID : string;
  Input_TraceID : string
}.

(** [TaskWorkflowInput.Validate]. *)
Definition ValidateInput (i : TaskWorkflowInput) : result unit :=
  if negb (Input_SchemaVersion i =? TaskWorkflowSchemaVersion)%Z
  then Err (Errorw "%w: unsupported schema version %d" [AInt (Input_SchemaVersion i)] ErrInvalidTaskWorkflowInput)
  else if blank (Input_TenantID i) then Err (Errorw "%w: tenant ID is required" [] ErrInvalidTaskWorkflowInput)
  else if blank (Input_ProjectID i) then Err (Errorw "%w: project ID is required" [] ErrInvalidTaskWorkflowInput)
  else if blank (Input_TaskID i) then Err (Errorw "%w: task ID is required" [] ErrInvalidTaskWorkflowInput)
  else if blank (Input_TraceID i) then Err (Errorw "%w: trace ID is required" [] ErrInvalidTaskWorkflowInput)
  else Ok tt.

Record StartRequest : Type := mkStartRequest {
  Start_TenantID : string;
  Start_ProjectID : string;
  Start_TaskID : string;
  Start_TraceID : string;
  Start_WorkflowType : string
}.

(** [StartRequest.Validate]. *)
Definition ValidateStart (r : StartRequest) : result unit :=
  if blank (Start_TenantID r) then Err (Errorw "%w: tenant ID is required" [] ErrInvalidStartRequest)
  else if blank (Start_ProjectID r) then Err (Errorw "%w: project ID is required" [] ErrInvalidStartRequest)
  else if blank (Start_TaskID r) then Err (Errorw "%w: task ID is required" [] ErrInvalidStartRequest)
  else if blank (Start_TraceID r) then Err (Errorw "%w: trace ID is required" [] ErrInvalidStartRequest)
  else
    let workflowType := TrimSpace (Start_WorkflowType r) in
    if workflowType ==? "" then Err (Errorw "%w: workflow type is required" [] ErrInvalidStartRequest)
    else if workflowType !=? TaskExecutionWorkflowType
    then Err (Errorw "%w: workflow type %q is unsupported" [AStr workflowType] ErrInvalidStartRequest)
    else Ok tt.

Record StartResult : Type := mkStartResult {
  StartResult_WorkflowID : string;
  StartResult_RunID : string;
  StartResult_AlreadyStarted : bool
}.

Record CancelRequest : Type := mkCancelRequest {
  Cancel_TenantID : string;
  Cancel_ProjectID : string;
  Cancel_TaskID : string;
  Cancel_TraceID : string;
  Cancel_Reason : string
}.

(** [CancelRequest.Validate]. *)
Definition ValidateCancel (r : CancelRequest) : result unit :=
  if blank (Cancel_TenantID r) then Err (Errorw "%w: tenant ID is required" [] ErrInvalidCancelRequest)
  else if blank (Cancel_ProjectID r) then Err (Errorw "%w: project ID is required" [] ErrInvalidCancelRequest)
  else if blank (Cancel_TaskID r) then Err (Errorw "%w: task ID is required" [] ErrInvalidCancelRequest)
  else if blank (Cancel_TraceID r) then Err (Errorw "%w: trace ID is required" [] ErrInvalidCancelRequest)
  else Ok tt.

Definition WorkflowID (taskID : string) : result string :=
  let taskID := TrimSpace taskID in
  if taskID ==? "" then Err (Errorw "%w: task ID is required" [] ErrInvalidStartRequest) else Ok ("task/" +:+ taskID).

(** [NoopDurableEngine.Start] and [Cancel]. *)
Definition Noop_Start (request : StartRequest) : result StartResult :=
  _ ← ValidateStart request;
  workflowID ← WorkflowID (Start_TaskID request);
  Ok (mkStartResult workflowID "" false).
Definition Noop_Cancel (request : CancelRequest) : result unit := ValidateCancel request.

(** ** Activities *)

Record TaskWorkflowResult : Type := mkWorkflowResult {
  Result_TaskID : string;
  Result_TraceID : string;
  Result_ObservedStatus : TaskStatus;
  Result_AlreadyTerminal : bool;
  Result_Steps : list string
}.

Record LoadTaskInput : Type := mkLoadTaskInput {
  Load_TenantID : string;
  Load_ProjectID : string;
  Load_TaskID : string;
  Load_TraceID : string
}.

Record TaskSnapshot : Type := mkTaskSnapshot {
  Snapshot_TaskID : string;
  Snapshot_TraceID : string;
  Snapshot_Status : TaskStatus;
  Snapshot_Version : Z;
  Snapshot_Terminal : bool
}.

Record TransitionTaskInput : Type := mkTransitionTaskInput {
  Trans_TenantID : string;
  Trans_ProjectID : string;
  Trans_TaskID : string;
  Trans_TraceID : string;
  Trans_ExpectedVersion : Z;
  Trans_To : TaskStatus;
  Trans_Cause : string;
  Trans_OperationKey : string
}.

Record StepInput : Type := mkStepInput {
  Step_TenantID : string;
  Step_ProjectID : string;
  Step_TaskID : string;
  Step_TraceID : string
}.

Class LifecycleActivities (W : Type) : Type := {
  LoadTask : LoadTaskInput → W → result TaskSnapshot * W;
  TransitionTask : TransitionTaskInput → W → result TaskSnapshot * W;
  PlanStub : StepInput → W → result unit * W;
  RouteStub : StepInput → W → result unit * W;
  ExecuteStub : StepInput → W → result unit * W;
  ValidateStub : StepInput → W → result unit * W
}.

Class Temporal (W : Type) : Type := {
  ExecuteActivity : ∀ {A : Type}, (W → result A * W) → W → result A * W
}.

Definition TransitionOperationKey (taskID : string) (to : TaskStatus) : string :=
  TrimSpace taskID +:+ ":transition:" +:+ TaskStatus_string to +:+ ":" +:+ TaskLifecycleVersion.

Definition isTerminalStatus (status : TaskStatus) : bool :=
  match status with
  | TaskCompleted | TaskFailed | TaskCancelled | TaskExpired => true
  | _ => false
  end.

(** The inputs the workflow hands to its activities. *)
Definition load_input (i : TaskWorkflowInput) : LoadTaskInput :=
  mkLoadTaskInput (Input_TenantID i) (Input_ProjectID i) (Input_TaskID i) (Input_TraceID i).
Definition step_input (i : TaskWorkflowInput) : StepInput :=
  mkStepInput (Input_TenantID i) (Input_ProjectID i) (Input_TaskID i) (Input_TraceID i).
Definition transition_input (i : TaskWorkflowInput) (version : Z) (to : TaskStatus) : TransitionTaskInput :=
  mkTransitionTaskInput (Input_TenantID i) (Input_ProjectID i) (Input_TaskID i) (Input_TraceID i) version to
    TaskLifecycleVersion (TransitionOperationKey (Input_TaskID i) to).

Definition observe (status : TaskStatus) (r : TaskWorkflowResult) : TaskWorkflowResult :=
  mkWorkflowResult (Result_TaskID r) (Result_TraceID r) status (Result_AlreadyTerminal r) (Result_Steps r).
Definition set_terminal (b : bool) (r : TaskWorkflowResult) : TaskWorkflowResult :=
  mkWorkflowResult (Result_TaskID r) (Result_TraceID r) (Result_ObservedStatus r) b (Result_Steps r).
Definition add_step (s : string) (r : TaskWorkflowResult) : TaskWorkflowResult :=
  mkWorkflowResult (Result_TaskID r) (Result_TraceID r) (Result_ObservedStatus r) (Result_AlreadyTerminal r)
    (Result_Steps r ++ [s]).

(** ** The workflow *)
Section workflow.
Context {W : Type} `{!LifecycleActivities W} `{!Temporal W}.

Definition loadTaskSnapshot (input : TaskWorkflowInput) (w : W) : result TaskSnapshot * W :=
  ExecuteActivity (LoadTask (load_input input)) w.

(** The second component of the answer is [applied]. *)
Definition transitionTask (input : TaskWorkflowInput) (snapshot : TaskSnapshot) (to : TaskStatus) (w : W)
    : result (TaskSnapshot * bool) * W :=
  match ExecuteActivity (TransitionTask (transition_input input (Snapshot_Version snapshot) to)) w with
  | (Ok next, w) => (Ok (next, true), w)
  | (Err err, w) =>
      if isApplicationErrorType err ErrorTypeStaleTaskVersion then
        let '(reloaded, w) := loadTaskSnapshot input w in
        ((s ← reloaded; Ok (s, false)), w)
      else (Err err, w)
  end.

(** The activity registered under a name, as [RegisterLifecycle] does. *)
Definition registered (activityName : string) (input : StepInput) (w : W) : result unit * W :=
  if activityName ==? ActivityPlanStub then PlanStub input w
  else if activityName ==? ActivityRouteStub then RouteStub input w
  else if activityName ==? ActivityExecuteStub then ExecuteStub input w
  else if activityName ==? ActivityValidateStub then ValidateStub input w
  else (Err (Errorf "unable to find activityType=%s" [AStr activityName]), w).

Definition executeStub (activityName : string) (input : TaskWorkflowInput) (w : W) : result unit * W :=
  ExecuteActivity (registered activityName (step_input input)) w.

(** The end of a case of the loop: commit the transition and record the evidence. *)
Definition advance (input : TaskWorkflowInput) (snapshot : TaskSnapshot) (to : TaskStatus)
    (result : TaskWorkflowResult) (w : W) : (TaskWorkflowResult * option error) * W :=
  match transitionTask input snapshot to w with
  | (Err err, w) => ((result, Some err), w)
  | (Ok (next, applied), w) =>
      let result := observe (Snapshot_Status next) result in
      ((if applied && (Snapshot_Status next ==? to) then add_step (TaskStatus_string to) result else result, None), w)
  end.

(** A case with a step before the transition. *)
Definition step_and_advance (activityName label : string) (input : TaskWorkflowInput) (snapshot : TaskSnapshot)
    (to : TaskStatus) (result : TaskWorkflowResult) (w : W) : (TaskWorkflowResult * option error) * W :=
  match executeStub activityName input w with
  | (Err err, w) => ((result, Some err), w)
  | (Ok _, w) => advance input snapshot to (add_step label result) w
  end.

(** The last case: after COMPLETED has been committed the task is loaded once
    more and the workflow returns; otherwise the loop continues. *)
Definition validate_and_complete (input : TaskWorkflowInput) (snapshot : TaskSnapshot)
    (result : TaskWorkflowResult) (w : W) : (TaskWorkflowResult * option error * bool) * W :=
  match executeStub ActivityValidateStub input w with
  | (Err err, w) => ((result, Some err, true), w)
  | (Ok _, w) =>
      let result := add_step "validate" result in
      match transitionTask input snapshot TaskCompleted w with
      | (Err err, w) => ((result, Some err, true), w)
      | (Ok (next, applied), w) =>
          let result := observe (Snapshot_Status next) result in
          if negb applied || (Snapshot_Status next !=? TaskCompleted) then ((result, None, false), w) else
          let result := add_step (TaskStatus_string TaskCompleted) result in
          match loadTaskSnapshot input w with
          | (Err err, w) => ((result, Some err, true), w)
          | (Ok finalSnapshot, w) =>
              ((set_terminal false (observe (Snapshot_Status finalSnapshot) result), None, true), w)
          end
      end
  end.

(** The [for] loop with at most [fuel] iterations; [None] when they are used up. *)
Fixpoint lifecycle_loop (fuel : nat) (input : TaskWorkflowInput) (result : TaskWorkflowResult) (w : W)
    : option ((TaskWorkflowResult * option error) * W) :=
  match fuel with
  | O => None
  | S fuel =>
      let continue (step : (TaskWorkflowResult * option error) * W) :=
        match step with
        | ((result, Some err), w) => Some ((result, Some err), w)
        | ((result, None), w) => lifecycle_loop fuel input result w
        end in
      match loadTaskSnapshot input w with
      | (Err err, w) => Some ((result, Some err), w)
      | (Ok snapshot, w) =>
          let result := observe (Snapshot_Status snapshot) result in
          if Snapshot_Terminal snapshot || isTerminalStatus (Snapshot_Status snapshot)
          then Some ((set_terminal true result, None), w)
          else match Snapshot_Status snapshot with
          | TaskCreated => continue (advance input snapshot TaskPlanning result w)
          | TaskPlanning => continue (step_and_advance ActivityPlanStub "plan" input snapshot TaskRouting result w)
          | TaskRouting => continue (step_and_advance ActivityRouteStub "route" input snapshot TaskExecuting result w)
          | TaskExecuting =>
              continue (step_and_advance ActivityExecuteStub "execute" input snapshot TaskValidating result w)
          | TaskValidating =>
              match validate_and_complete input snapshot result w with
              | ((result, err, true), w) => Some ((result, err), w)
              | ((result, _, false), w) => lifecycle_loop fuel input result w
              end
          | TaskWaitingApproval =>
              Some ((result, Some (NewNonRetryableApplicationError "WAITING_APPROVAL_NOT_IMPLEMENTED" None)), w)
          | _ => Some ((result, Some (NewNonRetryableApplicationError "UNSUPPORTED_TASK_STATUS" None)), w)
          end
      end
  end.

Definition TaskLifecycleWorkflow (fuel : nat) (input : TaskWorkflowInput) (w : W)
    : option ((TaskWorkflowResult * option error) * W) :=
  match ValidateInput input with
  | Err err =>
      Some ((mkWorkflowResult "" "" (TaskStatusOther "") false [],
             Some (NewNonRetryableApplicationError "INVALID_TASK_WORKFLOW_INPUT" (Some err))), w)
  | Ok _ =>
      lifecycle_loop fuel input
        (mkWorkflowResult (Input_TaskID input) (Input_TraceID input) (TaskStatusOther "") false []) w
  end.

End workflow.

(** ** What the workflow relies on *)

(** What [ExecuteActivity] answers, with [attempts] attempts left: [ext] relates
    the states of the backend before and after anything other than this activity. *)
Definition retryable (e : error) : Prop := ∀ ty cause, e ≠ TypedErr ApplicationError ty cause.

(** The failure a workflow sees is an application error of type stale only if
    that is what the activity returned. *)
Definition reports (e e' : error) : Prop :=
  isApplicationErrorType e' ErrorTypeStaleTaskVersion = true →
  ∃ cause, e = NewNonRetryableApplicationError ErrorTypeStaleTaskVersion cause.

Definition timeout (e : error) : Prop := isApplicationErrorType e ErrorTypeStaleTaskVersion = false.

Section ran.
Context {W : Type} (ext : W → W → Prop).

Inductive ran {A} (act : W → result A * W) : nat → W → result A → W → Prop :=
| ran_ok n w w1 a w2 w3 :
    ext w w1 → act w1 = (Ok a, w2) → ext w2 w3 → ran act (S n) w (Ok a) w3
| ran_failed n w w1 e w2 w3 e' :
    ext w w1 → act w1 = (Err e, w2) → ext w2 w3 → reports e e' → ran act (S n) w (Err e') w3
| ran_lost n w w1 r w2 w3 e' :
    ext w w1 → act w1 = (r, w2) → ext w2 w3 → timeout e' → ran act (S n) w (Err e') w3
| ran_not_started n w w1 e' :
    ext w w1 → timeout e' → ran act n w (Err e') w1
| ran_retried n w w1 r w2 res w3 :
    ext w w1 → act w1 = (r, w2) → (∀ e, r = Err e → retryable e) → ran act n w2 res w3 → ran act (S n) w res w3.
End ran.

Class TemporalLaws (W : Type) `{!Temporal W} (ext : W → W → Prop) : Prop := {
  ExecuteActivity_ran {A} (act : W → result A * W) w r w' : ExecuteActivity act w = (r, w') → ran ext act 3 w r w'
}.

(** The status from which the workflow commits a transition. *)
Definition next (s : TaskStatus) : option TaskStatus :=
  match s with
  | TaskCreated => Some TaskPlanning
  | TaskPlanning => Some TaskRouting
  | TaskRouting => Some TaskExecuting
  | TaskExecuting => Some TaskValidating
  | TaskValidating => Some TaskCompleted
  | _ => None
  end.

(** What the workflow needs to know of its task in a state of the backend: its
    status and version, and a bound on the changes still to come. *)
Record ghost (W : Type) : Type := mkGhost {
  status : W → TaskStatus;
  version : W → Z;
  potential : W → nat
}.
Arguments status {W}. Arguments version {W}. Arguments potential {W}.

Section laws.
Context {W : Type} `{!LifecycleActivities W} (g : ghost W).

(** From [w] to [w']: a terminal task keeps its status, and a change of status or
    version uses up potential. *)
Record later (w w' : W) : Prop := {
  later_potential : potential g w' ≤ potential g w;
  later_changed : (status g w' = status g w ∧ version g w' = version g w) ∨ potential g w' < potential g w;
  later_terminal : isTerminalStatus (status g w) = true → status g w' = status g w
}.

Class BackendLaws (ext : W → W → Prop) (inv : W → Prop) (i : TaskWorkflowInput) : Prop := {
  LoadTask_law w r w' : inv w → LoadTask (load_input i) w = (r, w') →
    inv w' ∧ later w w'
    ∧ ∀ s, r = Ok s → (Snapshot_Status s, Snapshot_Version s, Snapshot_Terminal s)
                      = (status g w', version g w', isTerminalStatus (status g w'));
  TransitionTask_law w v s0 to r w' : inv w → next s0 = Some to →
    TransitionTask (transition_input i v to) w = (r, w') →
    inv w' ∧ later w w'
    ∧ (∀ s, r = Ok s → isTerminalStatus (Snapshot_Status s) = true → status g w' = Snapshot_Status s)
    ∧ (version g w = v → status g w = s0 →
       is_ok r = true ∨ (∃ cause, r = Err (NewNonRetryableApplicationError ErrorTypeStaleTaskVersion cause)) →
       potential g w' < potential g w);
  step_law w name r w' : inv w → registered name (step_input i) w = (r, w') → inv w' ∧ later w w';
  ext_law w w' : inv w → ext w w' → inv w' ∧ later w w'
}.

#[export] Instance later_preorder : PreOrder later.
Proof.
  split.
  - split; auto.
  - intros w1 w2 w3 [P1 C1 T1] [P2 C2 T2]. split; [lia| |].
    + destruct C1 as [[E1 E2]|], C2 as [[E3 E4]|]; [left; split; congruence|right; lia..].
    + intros Ht. specialize (T1 Ht). rewrite <- T1. apply T2. by rewrite T1.
Qed.

Lemma isTerminalStatus_spec s : isTerminalStatus s = terminal_status s.
Proof. by destruct s. Qed.

Context `{!Temporal W} {ext : W → W → Prop} {inv : W → Prop} {i : TaskWorkflowInput}.
Context `{!BackendLaws ext inv i} `{!TemporalLaws W ext}.

(** What Temporal makes of an activity that keeps the invariant: an answer, or a
    stale version, is that of one execution in between. *)
Lemma ran_later {A} (act : W → result A * W) n w r w' :
  (∀ w r w', inv w → act w = (r, w') → inv w' ∧ later w w') →
  ran ext act n w r w' → inv w →
  inv w' ∧ later w w'
  ∧ (is_ok r = true ∨ isApplicationErrorType (default (Errorf "" []) (err_of r)) ErrorTypeStaleTaskVersion = true →
     ∃ w1 r1 w2, inv w1 ∧ later w w1 ∧ act w1 = (r1, w2) ∧ inv w2 ∧ later w1 w2 ∧ later w2 w' ∧ ext w2 w'
       ∧ (∀ a, r = Ok a → r1 = Ok a)
       ∧ (∀ e, r = Err e → ∃ cause, r1 = Err (NewNonRetryableApplicationError ErrorTypeStaleTaskVersion cause))).
Proof.
  intros Hact Hran. induction Hran as
    [n w w1 a w2 w3 X1 X2 X3|n w w1 e w2 w3 e' X1 X2 X3 X4|n w w1 r w2 w3 e' X1 X2 X3 X4|n w w1 e' X1 X2
    |n w w1 r w2 res w3 X1 X2 _ X3 IH]; intros Hi.
  - destruct (ext_law _ _ Hi X1) as [I1 L1], (Hact _ _ _ I1 X2) as [I2 L2], (ext_law _ _ I2 X3) as [I3 L3].
    split_and!; [done|by do 2 (etrans; [eassumption|])|]. intros _. exists w1, (Ok a), w2. split_and!; naive_solver.
  - destruct (ext_law _ _ Hi X1) as [I1 L1], (Hact _ _ _ I1 X2) as [I2 L2], (ext_law _ _ I2 X3) as [I3 L3].
    split_and!; [done|by do 2 (etrans; [eassumption|])|]. intros [Hs|Hs]; [done|]. destruct (X4 Hs) as [cause ->].
    eexists w1, _, w2. split_and!; try done; intros; simplify_eq; by eauto.
  - destruct (ext_law _ _ Hi X1) as [I1 L1], (Hact _ _ _ I1 X2) as [I2 L2], (ext_law _ _ I2 X3) as [I3 L3].
    split_and!; [done|by do 2 (etrans; [eassumption|])|]. unfold timeout in X4. simpl. intros [|]; congruence.
  - destruct (ext_law _ _ Hi X1) as [I1 L1]. split_and!; [done..|]. unfold timeout in X2. simpl. intros [|]; congruence.
  - destruct (ext_law _ _ Hi X1) as [I1 L1], (Hact _ _ _ I1 X2) as [I2 L2], (IH I2) as (I3 & L3 & H).
    split_and!; [done|by do 2 (etrans; [eassumption|])|]. intros Hr.
    destruct (H Hr) as (v1 & r1 & v2 & J1 & J2 & J3). exists v1, r1, v2. split; [done|].
    split; [by do 2 (etrans; [eassumption|])|done].
Qed.

(** The snapshot [s] shows the task as it is in [w]. *)
Definition shows (s : TaskSnapshot) (w : W) : Prop :=
  (Snapshot_Status s, Snapshot_Version s, Snapshot_Terminal s) = (status g w, version g w, isTerminalStatus (status g w)).

Lemma loadTaskSnapshot_spec w r w' :
  inv w → loadTaskSnapshot i w = (r, w') →
  inv w' ∧ later w w' ∧ ∀ s, r = Ok s → ∃ w1, later w w1 ∧ shows s w1 ∧ later w1 w'.
Proof.
  intros Hi H. unfold loadTaskSnapshot in H. apply ExecuteActivity_ran in H.
  destruct (ran_later _ _ _ _ _ (λ w r w' I E, conj (proj1 (LoadTask_law w r w' I E)) (proj1 (proj2 (LoadTask_law w r w' I E)))) H Hi)
    as (I1 & L1 & Hr).
  split_and!; [done..|]. intros s ->. destruct Hr as (w1 & r1 & w2 & J1 & K1 & J2 & _ & K2 & L2 & _ & Ha & _); [by left|].
  exists w2. split_and!; [by etrans| |done]. eapply LoadTask_law; eauto.
Qed.

Lemma executeStub_spec w name r w' : inv w → executeStub name i w = (r, w') → inv w' ∧ later w w'.
Proof.
  intros Hi H. unfold executeStub in H. apply ExecuteActivity_ran in H.
  destruct (ran_later _ _ _ _ _ (λ w r w' I E, step_law w name r w' I E) H Hi) as (I1 & L1 & _). done.
Qed.

(** A transition at the version loaded in [w0] that does not fail leaves less to
    do than there was at [w0]. *)
Lemma transitionTask_spec w0 w snapshot s0 to r w' :
  inv w → shows snapshot w0 → Snapshot_Status snapshot = s0 → next s0 = Some to → later w0 w →
  transitionTask i snapshot to w = (r, w') →
  inv w' ∧ later w w'
  ∧ ∀ nx applied, r = Ok (nx, applied) →
      potential g w' < potential g w0
      ∧ (applied = true → isTerminalStatus (Snapshot_Status nx) = true → status g w' = Snapshot_Status nx).
Proof.
  intros Hi Hshow Hs0 Hnext L0 H. unfold transitionTask in H. destruct (ExecuteActivity _ w) as [r1 w1] eqn:Hx.
  apply ExecuteActivity_ran in Hx.
  destruct (ran_later _ _ _ _ _ (λ w r w' I E, conj (proj1 (TransitionTask_law w _ s0 to r w' I Hnext E))
    (proj1 (proj2 (TransitionTask_law w _ s0 to r w' I Hnext E)))) Hx Hi) as (I1 & L1 & Hr).
  assert (is_ok r1 = true ∨ isApplicationErrorType (default (Errorf "" []) (err_of r1)) ErrorTypeStaleTaskVersion = true →
          potential g w1 < potential g w0) as Hless.
  { intros Hc. destruct (Hr Hc) as (v1 & r' & v2 & J1 & K1 & J2 & J3 & K2 & K3 & _ & Hok & Herr).
    destruct (TransitionTask_law v1 _ s0 to r' v2 J1 Hnext J2) as (_ & _ & _ & Hlt).
    pose proof (later_potential _ _ K2). pose proof (later_potential _ _ K3).
    destruct (later_changed _ _ (transitivity L0 K1)) as [[E1 E2]|]; [|lia].
    unfold shows in Hshow. injection Hshow as S1 S2 S3.
    enough (potential g v2 < potential g v1) by (pose proof (later_potential _ _ (transitivity L0 K1)); lia).
    apply Hlt; [congruence..|]. destruct r1 as [a|e]; [left; by rewrite (Hok a)|right; eauto]. }
  destruct r1 as [a|e]; [|simpl in *; destruct (isApplicationErrorType e _) eqn:Hst].
  - simplify_eq. split_and!; [done..|]. intros nx applied [= <- <-]. split; [by apply Hless; left|]. intros _ Ht.
    destruct Hr as (v1 & r' & v2 & J1 & K1 & J2 & J3 & K2 & K3 & _ & Hok & Herr); [by left|].
    destruct (TransitionTask_law v1 _ _ to r' v2 J1 Hnext J2) as (_ & _ & Hsn & _).
    rewrite (Hok a) in Hsn by done. specialize (Hsn a eq_refl Ht). rewrite <- Hsn.
    apply (later_terminal _ _ K3). by rewrite Hsn.
  - destruct (loadTaskSnapshot i w1) as [r2 w2] eqn:Hl. simplify_eq.
    destruct (loadTaskSnapshot_spec _ _ _ I1 Hl) as (I2 & L2 & _).
    split_and!; [done|by etrans|]. intros nx applied Hok. apply bind_Ok in Hok as (s & -> & [= <- <-]).
    split; [|done]. pose proof (later_potential _ _ L2). specialize (Hless (or_intror eq_refl)). lia.
  - by simplify_eq.
Qed.

Lemma advance_spec w0 w snapshot s0 to result res err w' :
  inv w → shows snapshot w0 → Snapshot_Status snapshot = s0 → next s0 = Some to → later w0 w →
  advance i snapshot to result w = ((res, err), w') →
  inv w' ∧ later w w' ∧ (err = None → potential g w' < potential g w0).
Proof.
  intros Hi Hshow Hs0 Hnext L0 H. unfold advance in H. destruct (transitionTask i snapshot to w) as [r w1] eqn:Ht.
  destruct (transitionTask_spec _ _ _ _ _ _ _ Hi Hshow Hs0 Hnext L0 Ht) as (I1 & L1 & Hr).
  destruct r as [[nx applied]|e]; simplify_eq; [|done]. split_and!; [done..|]. intros _. by apply (Hr nx applied).
Qed.

Lemma step_and_advance_spec w0 w snapshot s0 to name label result res err w' :
  inv w → shows snapshot w0 → Snapshot_Status snapshot = s0 → next s0 = Some to → later w0 w →
  step_and_advance name label i snapshot to result w = ((res, err), w') →
  inv w' ∧ later w w' ∧ (err = None → potential g w' < potential g w0).
Proof.
  intros Hi Hshow Hs0 Hnext L0 H. unfold step_and_advance in H. destruct (executeStub name i w) as [r w1] eqn:Hx.
  destruct (executeStub_spec _ _ _ _ Hi Hx) as [I1 L1]. destruct r as [u|e]; [|by simplify_eq].
  destruct (advance_spec _ _ _ _ _ _ _ _ _ I1 Hshow Hs0 Hnext (transitivity L0 L1) H) as (I2 & L2 & H2).
  split_and!; [done|by etrans|done].
Qed.

(** The report of a workflow that ended without an error in [w]. *)
Definition reported (res : TaskWorkflowResult) (w : W) : Prop :=
  isTerminalStatus (status g w) = true ∧ Result_ObservedStatus res = status g w
  ∧ (Result_AlreadyTerminal res = false → status g w = TaskCompleted ∧ last (Result_Steps res) = Some "COMPLETED").

Lemma shown_terminal s w w' :
  shows s w → later w w' → isTerminalStatus (Snapshot_Status s) = true → status g w' = Snapshot_Status s.
Proof.
  intros Hs L Ht. unfold shows in Hs. injection Hs as S1 S2 S3. rewrite S1 in *. by apply L.
Qed.

Lemma validate_and_complete_spec w0 w snapshot result res err stop w' :
  inv w → shows snapshot w0 → Snapshot_Status snapshot = TaskValidating → later w0 w →
  validate_and_complete i snapshot result w = ((res, err, stop), w') →
  inv w' ∧ later w w' ∧ (stop = false → potential g w' < potential g w0)
  ∧ (stop = true → err = None → reported res w').
Proof.
  intros Hi Hshow Hs0 L0 H. unfold validate_and_complete in H.
  destruct (executeStub _ i w) as [r w1] eqn:Hx. destruct (executeStub_spec _ _ _ _ Hi Hx) as [I1 L1].
  destruct r as [u|e]; [|by simplify_eq].
  destruct (transitionTask i snapshot TaskCompleted w1) as [r w2] eqn:Ht.
  destruct (transitionTask_spec _ _ _ _ TaskCompleted _ _ I1 Hshow Hs0 eq_refl (transitivity L0 L1) Ht) as (I2 & L2 & Hr).
  assert (later w w2) as L02 by (by etrans).
  destruct r as [[nx applied]|e]; [|by simplify_eq]. destruct (Hr nx applied eq_refl) as [Hlt Hst].
  destruct (negb applied || _) eqn:Hb; [by simplify_eq|].
  assert (applied = true ∧ Snapshot_Status nx = TaskCompleted) as [-> Hnx] by (by go_props).
  destruct (loadTaskSnapshot i w2) as [r w3] eqn:Hl.
  destruct (loadTaskSnapshot_spec _ _ _ I2 Hl) as (I3 & L3 & Hs). destruct r as [s|e]; simplify_eq.
  2: { split_and!; [done|by etrans|done..]. }
  specialize (Hst eq_refl). rewrite Hnx in Hst. specialize (Hst eq_refl).
  assert (status g w' = TaskCompleted) as Hfin by (rewrite <- Hst; apply (later_terminal _ _ L3); by rewrite Hst).
  split_and!; [done|by etrans|done|]. intros _ _. unfold reported. rewrite Hfin. simpl.
  destruct (Hs s eq_refl) as (w4 & L4 & Hsh & L5). split_and!; [done| |by rewrite last_snoc].
  unfold shows in Hsh. injection Hsh as -> _ _. rewrite (later_terminal _ _ L4); [done|by rewrite Hst].
Qed.

Lemma lifecycle_loop_spec fuel w result :
  inv w → potential g w < fuel →
  ∃ res err w', lifecycle_loop fuel i result w = Some ((res, err), w') ∧ inv w' ∧ later w w'
  ∧ (err = None → reported res w').
Proof.
  revert w result. induction fuel as [|fuel IH]; intros w result Hi Hf; [lia|]. simpl.
  destruct (loadTaskSnapshot i w) as [r w1] eqn:Hl. destruct (loadTaskSnapshot_spec _ _ _ Hi Hl) as (I1 & L1 & Hs).
  destruct r as [s|e]; [|eexists _, _, _; done]. destruct (Hs s eq_refl) as (w0 & K1 & Hsh & K2). clear Hs.
  assert (potential g w0 ≤ potential g w) as Hp0 by apply K1.
  set (result' := observe (Snapshot_Status s) result).
  assert (∀ step, (∀ res err w2, step = ((res, err), w2) →
             inv w2 ∧ later w1 w2 ∧ (err = None → potential g w2 < potential g w0)) →
    ∃ res err w', match step with
                  | ((result, Some err), w) => Some ((result, Some err), w)
                  | ((result, None), w) => lifecycle_loop fuel i result w
                  end = Some ((res, err), w') ∧ inv w' ∧ later w w' ∧ (err = None → reported res w')) as Hcont.
  { intros [[res err] w2] Hstep. destruct (Hstep _ _ _ eq_refl) as (I2 & L2 & Hlt).
    assert (later w w2) as L12 by exact (transitivity L1 L2). destruct err as [err|].
    - eexists _, _, _. split_and!; done.
    - destruct (IH w2 res I2) as (res' & err' & w' & -> & I3 & L3 & H3); [specialize (Hlt eq_refl); lia|].
      eexists _, _, _. split_and!; [done|done|exact (transitivity L12 L3)|done]. }
  destruct (Snapshot_Terminal s || isTerminalStatus (Snapshot_Status s)) eqn:Ht.
  - eexists _, _, _. split_and!; [done..|]. intros _. assert (isTerminalStatus (Snapshot_Status s) = true) as Ht'.
    { unfold shows in Hsh. injection Hsh as E1 E2 E3. rewrite E3, E1, orb_diag in Ht. congruence. }
    unfold reported. rewrite (shown_terminal _ _ _ Hsh K2 Ht'). done.
  - destruct (Snapshot_Status s) eqn:Hst; try (by eexists _, _, _; split_and!).
    + apply Hcont. intros ??? Hx. by apply (advance_spec _ _ _ _ _ _ _ _ _ I1 Hsh Hst eq_refl K2 Hx).
    + apply Hcont. intros ??? Hx. by apply (step_and_advance_spec _ _ _ _ _ _ _ _ _ _ _ I1 Hsh Hst eq_refl K2 Hx).
    + apply Hcont. intros ??? Hx. by apply (step_and_advance_spec _ _ _ _ _ _ _ _ _ _ _ I1 Hsh Hst eq_refl K2 Hx).
    + apply Hcont. intros ??? Hx. by apply (step_and_advance_spec _ _ _ _ _ _ _ _ _ _ _ I1 Hsh Hst eq_refl K2 Hx).
    + destruct (validate_and_complete i s result' w1) as [[[res err] stop] w2] eqn:Hv. clear Hcont.
      destruct (validate_and_complete_spec _ _ _ _ _ _ _ _ I1 Hsh Hst K2 Hv) as (I2 & L2 & Hlt & Hrep).
      assert (later w w2) as L12 by exact (transitivity L1 L2). destruct stop.
      * eexists _, _, _. split_and!; [done..|]. intros ->. by apply Hrep.
      * destruct (IH w2 res I2) as (res' & err' & w' & -> & I3 & L3 & H3); [specialize (Hlt eq_refl); lia|].
        eexists _, _, _. split_and!; [done|done|exact (transitivity L12 L3)|done].
Qed.

(** C23. The workflow of a task ends.  Take any backend that follows its laws, any
    number of lost answers and retries, and other clients that change the task
    while it runs.  The loop makes at most one iteration more than there are
    changes left to make to the task, so it returns; and when it returns without
    an error the task is terminal and the reported status is its status; a report
    that does not say the task was already terminal means it is COMPLETED, and
    the evidence ends with that step. *)
Theorem TaskLifecycleWorkflow_ends fuel w :
  inv w → potential g w < fuel →
  ∃ res err w', TaskLifecycleWorkflow fuel i w = Some ((res, err), w')
  ∧ (err = None →
     isTerminalStatus (status g w') = true ∧ Result_ObservedStatus res = status g w'
     ∧ (Result_AlreadyTerminal res = false →
        status g w' = TaskCompleted ∧ last (Result_Steps res) = Some (TaskStatus_string TaskCompleted))).
Proof.
  intros Hi Hf. unfold TaskLifecycleWorkflow. destruct (ValidateInput i) as [u|e]; [|by eexists _, _, _].
  destruct (lifecycle_loop_spec fuel w (mkWorkflowResult (Input_TaskID i) (Input_TraceID i) (TaskStatusOther "") false []) Hi Hf)
    as (res & err & w' & -> & _ & _ & H).
  eexists _, _, _. split; [done|]. apply H.
Qed.

End laws.
End Lifecycle.
