(* ===== verification/LifecycleMemory.v ===== *)
(** * LifecycleMemory: the backends of the task workflow

    [src/internal/workflow/lifecycle_activities.go]: the in-memory backend with
    its optimistic versions, operation keys and injected faults, and the backend
    that refuses everything.  The memory backend is shown to follow
    [BackendLaws] with other workflows running beside the one considered, and the
    workflow is run on it.  [sync.Mutex] makes every call atomic; [time.Now] is
    the next reading of an arbitrary clock. *)
From S2P Require Import Prelude GoText Domain Lifecycle.

Module LifecycleMemory.
Import Prelude Domain Lifecycle.

Definition ErrLifecycleTaskNotFound : error := Sentinel "ErrLifecycleTaskNotFound" "lifecycle Task not found".
Definition ErrLifecycleScope : error := Sentinel "ErrLifecycleScope" "lifecycle Task scope mismatch".
Definition ErrOperationKeyConflict : error := Sentinel "ErrOperationKeyConflict" "lifecycle operation key conflict".

Record transitionRecord : Type := mkTransitionRecord {
  Rec_To : TaskStatus;
  Rec_Snapshot : TaskSnapshot
}.

(** [m_reads] counts the readings of the clock so far. *)
Record MemoryLifecycleActivities : Type := mkMemory {
  m_tasks : gmap string Task;
  m_operations : gmap string transitionRecord;
  m_stepCalls : gmap string Z;
  m_stepFailures : gmap string Z;
  m_terminalOnStep : gmap string TaskStatus;
  m_staleOnceForKey : gmap string bool;
  m_reads : nat
}.

Definition NewMemoryLifecycleActivities (tasks : list Task) : MemoryLifecycleActivities :=
  mkMemory (foldl (λ m t, <[Task_ID t := t]> m) ∅ tasks) ∅ ∅ ∅ ∅ ∅ 0.

Definition set_tasks (f : gmap string Task → gmap string Task) (a : MemoryLifecycleActivities) :=
  mkMemory (f (m_tasks a)) (m_operations a) (m_stepCalls a) (m_stepFailures a) (m_terminalOnStep a)
    (m_staleOnceForKey a) (m_reads a).
Definition set_operations (f : gmap string transitionRecord → gmap string transitionRecord) (a : MemoryLifecycleActivities) :=
  mkMemory (m_tasks a) (f (m_operations a)) (m_stepCalls a) (m_stepFailures a) (m_terminalOnStep a)
    (m_staleOnceForKey a) (m_reads a).
Definition set_calls (f : gmap string Z → gmap string Z) (a : MemoryLifecycleActivities) :=
  mkMemory (m_tasks a) (m_operations a) (f (m_stepCalls a)) (m_stepFailures a) (m_terminalOnStep a)
    (m_staleOnceForKey a) (m_reads a).
Definition set_failures (f : gmap string Z → gmap string Z) (a : MemoryLifecycleActivities) :=
  mkMemory (m_tasks a) (m_operations a) (m_stepCalls a) (f (m_stepFailures a)) (m_terminalOnStep a)
    (m_staleOnceForKey a) (m_reads a).
Definition set_terminalOnStep (f : gmap string TaskStatus → gmap string TaskStatus) (a : MemoryLifecycleActivities) :=
  mkMemory (m_tasks a) (m_operations a) (m_stepCalls a) (m_stepFailures a) (f (m_terminalOnStep a))
    (m_staleOnceForKey a) (m_reads a).
Definition set_staleOnce (f : gmap string bool → gmap string bool) (a : MemoryLifecycleActivities) :=
  mkMemory (m_tasks a) (m_operations a) (m_stepCalls a) (m_stepFailures a) (m_terminalOnStep a)
    (f (m_staleOnceForKey a)) (m_reads a).
Definition read_clock (a : MemoryLifecycleActivities) : MemoryLifecycleActivities :=
  mkMemory (m_tasks a) (m_operations a) (m_stepCalls a) (m_stepFailures a) (m_terminalOnStep a)
    (m_staleOnceForKey a) (S (m_reads a)).

Definition bump_version (t : Task) : Task :=
  mkTask (Task_ID t) (Task_TenantID t) (Task_ProjectID t) (Task_CreatedBy t) (Task_AgentID t) (Task_Input t)
    (Task_Status t) (add64 (Task_Version t) 1) (Task_Result t) (Task_Cost t) (Task_EstimatedCost t) (Task_ActualCost t)
    (Task_Currency t) (Task_RouteDecisionID t) (Task_TraceID t) (Task_CreatedAt t) (Task_UpdatedAt t)
    (Task_CompletedAt t).

Definition snapshotFromTask (task : Task) : TaskSnapshot :=
  mkTaskSnapshot (Task_ID task) (Task_TraceID task) (Task_Status task) (Task_Version task) (IsTerminal task).

Definition taskForScope (tenantID projectID taskID traceID : string) (a : MemoryLifecycleActivities) : result Task :=
  match m_tasks a !! taskID with
  | None => Err ErrLifecycleTaskNotFound
  | Some task =>
      if (Task_TenantID task !=? tenantID) || (Task_ProjectID task !=? projectID) || (Task_TraceID task !=? traceID)
      then Err ErrLifecycleScope else Ok task
  end.

Definition Memory_LoadTask (input : LoadTaskInput) (a : MemoryLifecycleActivities)
    : result TaskSnapshot * MemoryLifecycleActivities :=
  ((task ← taskForScope (Load_TenantID input) (Load_ProjectID input) (Load_TaskID input) (Load_TraceID input) a;
    Ok (snapshotFromTask task)), a).

Definition stale_error : error := NewNonRetryableApplicationError ErrorTypeStaleTaskVersion None.

Section clock.
Variable clock : nat → Time.

Definition Memory_TransitionTask (input : TransitionTaskInput) (a : MemoryLifecycleActivities)
    : result TaskSnapshot * MemoryLifecycleActivities :=
  let key := Trans_OperationKey input in
  if blank key then (Err (Errorf "operation key is required" []), a) else
  match taskForScope (Trans_TenantID input) (Trans_ProjectID input) (Trans_TaskID input) (Trans_TraceID input) a with
  | Err err => (Err err, a)
  | Ok task =>
      match m_operations a !! key with
      | Some record =>
          if Rec_To record !=? Trans_To input
          then (Err (Errorw "%w: %s was recorded for %s, requested %s"
                       [AStr key; AStr (TaskStatus_string (Rec_To record)); AStr (TaskStatus_string (Trans_To input))]
                       ErrOperationKeyConflict), a)
          else (Ok (Rec_Snapshot record), a)
      | None =>
          if IsTerminal task then (Ok (snapshotFromTask task), a)
          else if default false (m_staleOnceForKey a !! key) then (Err stale_error, set_staleOnce (delete key) a)
          else if negb (Task_Version task =? Trans_ExpectedVersion input)%Z then (Err stale_error, a)
          else
            let at_ := clock (m_reads a) in
            let a := read_clock a in
            match Transition (Some task) (mkTaskTransitionCommand (Trans_To input)
                    ("workflow:" +:+ TaskExecutionWorkflowType) (Trans_Cause input) at_) with
            | (Ok _, Some task) =>
                let task := bump_version task in
                let snapshot := snapshotFromTask task in
                (Ok snapshot,
                 set_operations (<[key := mkTransitionRecord (Trans_To input) snapshot]>)
                   (set_tasks (<[Task_ID task := task]>) a))
            | (Ok _, None) => (Err ErrInvalidTaskTransition, a)
            | (Err err, _) => (Err err, a)
            end
      end
  end.

Definition runStep (activityName : string) (input : StepInput) (a : MemoryLifecycleActivities)
    : result unit * MemoryLifecycleActivities :=
  match taskForScope (Step_TenantID input) (Step_ProjectID input) (Step_TaskID input) (Step_TraceID input) a with
  | Err err => (Err err, a)
  | Ok task =>
      let a := set_calls (λ c, <[activityName := add64 (default 0%Z (c !! activityName)) 1]> c) a in
      let remaining := default 0%Z (m_stepFailures a !! activityName) in
      if (0 <? remaining)%Z then
        (Err (Errorf "transient %s failure" [AStr activityName]),
         set_failures (<[activityName := sub64 remaining 1]>) a)
      else match m_terminalOnStep a !! activityName with
      | None => (Ok tt, a)
      | Some terminalStatus =>
          let a := set_terminalOnStep (delete activityName) a in
          if IsTerminal task then (Ok tt, a) else
          let at_ := clock (m_reads a) in
          let a := read_clock a in
          match Transition (Some task) (mkTaskTransitionCommand terminalStatus "test:external"
                  "S3C terminal race fixture" at_) with
          | (Ok _, Some task) =>
              let task := bump_version task in
              (Ok tt, set_tasks (<[Task_ID task := task]>) a)
          | (Ok _, None) => (Err ErrInvalidTaskTransition, a)
          | (Err err, _) => (Err err, a)
          end
      end
  end.

#[export] Instance Memory_activities : LifecycleActivities MemoryLifecycleActivities := {|
  LoadTask := Memory_LoadTask;
  TransitionTask := Memory_TransitionTask;
  PlanStub := runStep ActivityPlanStub;
  RouteStub := runStep ActivityRouteStub;
  ExecuteStub := runStep ActivityExecuteStub;
  ValidateStub := runStep ActivityValidateStub
|}.
End clock.

Definition SetTransientFailures (activityName : string) (count : Z) : MemoryLifecycleActivities → MemoryLifecycleActivities :=
  set_failures (<[activityName := count]>).
Definition SetTerminalOnStep (activityName : string) (status : TaskStatus)
    : MemoryLifecycleActivities → MemoryLifecycleActivities :=
  set_terminalOnStep (<[activityName := status]>).
Definition SetStaleOnce (operationKey : string) : MemoryLifecycleActivities → MemoryLifecycleActivities :=
  set_staleOnce (<[operationKey := true]>).
Definition StepCalls (activityName : string) (a : MemoryLifecycleActivities) : Z :=
  default 0%Z (m_stepCalls a !! activityName).
Definition MemoryTask (taskID : string) (a : MemoryLifecycleActivities) : option Task := m_tasks a !! taskID.
Definition OperationCount (a : MemoryLifecycleActivities) : Z := Z.of_nat (size (m_operations a)).

(** ** The backend that refuses *)
Definition lifecycleBackendDisabledError : error :=
  NewNonRetryableApplicationError ErrorTypeLifecycleBackendDisabled None.

(** [FailClosedLifecycleActivities]; the state is whatever the process has. *)
Definition FailClosed_activities (W : Type) : LifecycleActivities W := {|
  LoadTask _ w := (Err lifecycleBackendDisabledError, w);
  TransitionTask _ w := (Err lifecycleBackendDisabledError, w);
  PlanStub _ w := (Err lifecycleBackendDisabledError, w);
  RouteStub _ w := (Err lifecycleBackendDisabledError, w);
  ExecuteStub _ w := (Err lifecycleBackendDisabledError, w);
  ValidateStub _ w := (Err lifecycleBackendDisabledError, w)
|}.

(** ** The memory backend follows the laws *)

(** How far a status is on the way to COMPLETED. *)
Definition stage (s : TaskStatus) : nat :=
  match s with
  | TaskCreated => 0 | TaskPlanning => 1 | TaskRouting => 2 | TaskExecuting | TaskWaitingApproval => 3
  | TaskValidating => 4 | TaskCompleted | TaskFailed | TaskCancelled | TaskExpired => 5 | TaskStatusOther _ => 0
  end.

(** How many transitions of the workflow a status still allows. *)
Definition distance (s : TaskStatus) : nat :=
  match s with
  | TaskCreated => 6 | TaskPlanning => 5 | TaskRouting => 4 | TaskWaitingApproval => 3 | TaskExecuting => 2
  | TaskValidating => 1 | _ => 0
  end.

Lemma CanTransition_stage t to : CanTransition t to = true → stage (Task_Status t) ≤ stage to.
Proof.
  unfold CanTransition, IsTerminal. intros H.
  destruct (Task_Status t), to; vm_compute in H |- *; try done; lia.
Qed.

Lemma next_stage s to : next s = Some to → stage s < stage to.
Proof. destruct s; simpl; intros; simplify_eq; simpl; lia. Qed.

Lemma CanTransition_next t s0 to :
  next s0 = Some to → CanTransition t to = true → distance to < distance (Task_Status t).
Proof.
  unfold CanTransition, IsTerminal. intros Hn H.
  destruct s0; simplify_eq/=; destruct (Task_Status t); vm_compute in H |- *; try done; lia.
Qed.

Lemma next_terminal s to : next s = Some to → isTerminalStatus to = true → to = TaskCompleted.
Proof. by destruct s; simpl; intros; simplify_eq. Qed.

Section string_suffix.
Lemma append_inj_l s t u : s +:+ t = s +:+ u → t = u.
Proof. induction s as [|a s IH]; [done|]. simpl. intros [= H]. auto. Qed.
End string_suffix.

(** The keys of two transitions of the workflow are equal only for the same
    target and the same task, up to the spaces around its id. *)
Lemma TransitionOperationKey_inj id id' s s' to to' :
  next s = Some to → next s' = Some to' → TransitionOperationKey id to = TransitionOperationKey id' to' →
  to = to' ∧ TrimSpace id = TrimSpace id'.
Proof.
  intros Hs Hs' H. unfold TransitionOperationKey in H.
  apply (f_equal (λ x, reverse (bytes x))) in H. rewrite !bytes_app, !reverse_app in H.
  destruct s; simplify_eq/=; destruct s'; simplify_eq/=;
    (split; [done|]); by rewrite <- (of_bytes_bytes (TrimSpace id)), H, of_bytes_bytes.
Qed.

Section laws.
Variable clock : nat → Time.
Variable i : TaskWorkflowInput.

Definition task_status (a : MemoryLifecycleActivities) : TaskStatus :=
  match m_tasks a !! Input_TaskID i with Some t => Task_Status t | None => TaskStatusOther "" end.
Definition task_version (a : MemoryLifecycleActivities) : Z :=
  match m_tasks a !! Input_TaskID i with Some t => Task_Version t | None => 0%Z end.

(** Every injected stale answer costs one more iteration, every injected change of
    the task at most the whole way. *)
Definition memory_ghost : ghost MemoryLifecycleActivities :=
  mkGhost _ task_status task_version
    (λ a, distance (task_status a) + size (m_staleOnceForKey a) + 7 * size (m_terminalOnStep a)).

(** Tasks are stored under their ids, and a transition recorded for the task has
    been made. *)
Record memory_inv (a : MemoryLifecycleActivities) : Prop := {
  inv_keyed k t : m_tasks a !! k = Some t → Task_ID t = k;
  inv_recorded s to record : next s = Some to →
    m_operations a !! TransitionOperationKey (Input_TaskID i) to = Some record →
    Rec_To record = to ∧ Snapshot_Status (Rec_Snapshot record) = to ∧ stage to ≤ stage (task_status a)
    ∧ (to = TaskCompleted → task_status a = TaskCompleted)
}.

(** The calls of the workflows of other tasks. *)
Inductive other : MemoryLifecycleActivities → MemoryLifecycleActivities → Prop :=
| other_transition j v s to r a a' :
    TrimSpace (Input_TaskID j) ≠ TrimSpace (Input_TaskID i) → next s = Some to →
    Memory_TransitionTask clock (transition_input j v to) a = (r, a') → other a a'
| other_step j name r a a' :
    TrimSpace (Input_TaskID j) ≠ TrimSpace (Input_TaskID i) →
    runStep clock name (step_input j) a = (r, a') → other a a'.

Lemma taskForScope_Ok tenant project id trace a t :
  taskForScope tenant project id trace a = Ok t → m_tasks a !! id = Some t.
Proof. unfold taskForScope. destruct (m_tasks a !! id); [|done]. destruct (_ || _); [done|]. by intros [= ->]. Qed.

Lemma Transition_ok_inv t c tr t' :
  Transition (Some t) c = (Ok tr, Some t') →
  CanTransition t (Command_To c) = true ∧ t' = moveTask t (Command_To c) (Command_At c).
Proof. intros H. destruct (Transition_cases t c) as [[e E]|(? & _ & _ & _ & _ & E)]; rewrite E in H; by simplify_eq. Qed.

Definition not_stale (e : error) : Prop := ∀ cause, e ≠ NewNonRetryableApplicationError ErrorTypeStaleTaskVersion cause.

Lemma Transition_err_inv t c e t' : Transition (Some t) c = (Err e, t') → not_stale e.
Proof. unfold Transition, not_stale. repeat case_match; intros; by simplify_eq. Qed.

(** The branches of [TransitionTask]. *)
Inductive transition_outcome (input : TransitionTaskInput) (a : MemoryLifecycleActivities)
    : result TaskSnapshot → MemoryLifecycleActivities → Prop :=
| out_error e : not_stale e → transition_outcome input a (Err e) a
| out_replayed record :
    m_operations a !! Trans_OperationKey input = Some record → Rec_To record = Trans_To input →
    transition_outcome input a (Ok (Rec_Snapshot record)) a
| out_terminal t :
    m_tasks a !! Trans_TaskID input = Some t → IsTerminal t = true →
    transition_outcome input a (Ok (snapshotFromTask t)) a
| out_injected :
    m_staleOnceForKey a !! Trans_OperationKey input = Some true →
    transition_outcome input a (Err stale_error) (set_staleOnce (delete (Trans_OperationKey input)) a)
| out_stale t :
    m_tasks a !! Trans_TaskID input = Some t → Task_Version t ≠ Trans_ExpectedVersion input →
    transition_outcome input a (Err stale_error) a
| out_refused e : not_stale e → transition_outcome input a (Err e) (read_clock a)
| out_moved t :
    m_tasks a !! Trans_TaskID input = Some t → CanTransition t (Trans_To input) = true →
    let t' := bump_version (moveTask t (Trans_To input) (clock (m_reads a))) in
    transition_outcome input a (Ok (snapshotFromTask t'))
      (set_operations (<[Trans_OperationKey input := mkTransitionRecord (Trans_To input) (snapshotFromTask t')]>)
         (set_tasks (<[Task_ID t := t']>) (read_clock a))).

Lemma Memory_TransitionTask_outcome input r a a' :
  Memory_TransitionTask clock input a = (r, a') → transition_outcome input a r a'.
Proof.
  unfold Memory_TransitionTask. intros H. destruct (blank _); [simplify_eq; by constructor|].
  destruct (taskForScope _ _ _ _ a) as [t|e] eqn:Ht.
  2: { simplify_eq. constructor. unfold taskForScope in Ht. repeat case_match; by simplify_eq. }
  apply taskForScope_Ok in Ht.
  destruct (m_operations a !! _) as [rec|] eqn:Ho.
  { destruct (Rec_To rec !=? _) eqn:Hto; simplify_eq; [by constructor|]. go_props. by constructor. }
  destruct (IsTerminal t) eqn:Hterm; [simplify_eq; by constructor|].
  destruct (default false _) eqn:Hst.
  { simplify_eq. constructor. by destruct (m_staleOnceForKey a !! _); simpl in *; subst. }
  destruct (negb _) eqn:Hv; [simplify_eq; go_props; by econstructor|].
  destruct (Transition _ _) as [[tr|e] t'] eqn:Htr; [|simplify_eq; constructor; by eapply Transition_err_inv].
  destruct t' as [t'|]; [|simplify_eq; by constructor]. apply Transition_ok_inv in Htr as [Hc ->]. simplify_eq.
  exact (out_moved input a t Ht Hc).
Qed.

(** The branches of a step: the task it is for may move, which uses up the fault
    injected for the step. *)
Inductive step_outcome (id : string) (a a' : MemoryLifecycleActivities) : Prop :=
| step_kept :
    m_tasks a' = m_tasks a → m_operations a' = m_operations a → m_staleOnceForKey a' = m_staleOnceForKey a →
    size (m_terminalOnStep a') ≤ size (m_terminalOnStep a) → step_outcome id a a'
| step_moved t to at_ :
    m_tasks a !! id = Some t → CanTransition t to = true →
    m_tasks a' = <[Task_ID t := bump_version (moveTask t to at_)]> (m_tasks a) →
    m_operations a' = m_operations a → m_staleOnceForKey a' = m_staleOnceForKey a →
    size (m_terminalOnStep a') < size (m_terminalOnStep a) → step_outcome id a a'.

Lemma delete_size {A} k (m : gmap string A) x : m !! k = Some x → size (delete k m) < size m.
Proof.
  intros Hk. rewrite map_size_delete_Some by eauto. assert (size m ≠ 0) by (apply map_size_ne_0_lookup; eauto). lia.
Qed.

Lemma runStep_outcome name input r a a' :
  runStep clock name input a = (r, a') → step_outcome (Step_TaskID input) a a'.
Proof.
  unfold runStep. intros H. destruct (taskForScope _ _ _ _ a) as [t|e] eqn:Ht; [|simplify_eq; by constructor].
  apply taskForScope_Ok in Ht. destruct (0 <? _)%Z; [simplify_eq; by constructor|].
  destruct (m_terminalOnStep _ !! name) as [to|] eqn:Hs; [|simplify_eq; by constructor].
  apply delete_size in Hs.
  destruct (IsTerminal t); [simplify_eq; constructor; try done; simpl in *; lia|].
  destruct (Transition _ _) as [[tr|e] t'] eqn:Htr; [|simplify_eq; constructor; try done; simpl in *; lia].
  destruct t' as [t'|]; [|simplify_eq; constructor; try done; simpl in *; lia].
  apply Transition_ok_inv in Htr as [Hc ->]. simplify_eq. by eapply step_moved.
Qed.

Abbreviation moved_task t to at_ := (bump_version (moveTask t to at_)).

(** Moving task [id] moves the workflow's task, or leaves it alone. *)
Lemma moved_status a tasks id t to at_ :
  memory_inv a → m_tasks a !! id = Some t → tasks = <[Task_ID t := moved_task t to at_]> (m_tasks a) →
  (∀ k t, tasks !! k = Some t → Task_ID t = k)
  ∧ ((id = Input_TaskID i ∧ task_status a = Task_Status t ∧ task_version a = Task_Version t
      ∧ tasks !! Input_TaskID i = Some (moved_task t to at_))
     ∨ (id ≠ Input_TaskID i ∧ tasks !! Input_TaskID i = m_tasks a !! Input_TaskID i)).
Proof.
  intros Hi Ht ->. assert (Task_ID t = id) as Hid by (by eapply inv_keyed). split.
  - intros k t'. destruct (decide (k = Task_ID t)) as [->|Hk].
    + rewrite lookup_insert_eq. by intros [= <-].
    + rewrite lookup_insert_ne by done. by apply inv_keyed.
  - destruct (decide (id = Input_TaskID i)) as [E|E]; [left|right].
    + unfold task_status, task_version. rewrite <- E, Ht, Hid, lookup_insert_eq. done.
    + split; [done|]. by rewrite lookup_insert_ne by congruence.
Qed.

Lemma CanTransition_live t to : CanTransition t to = true → isTerminalStatus (Task_Status t) = false.
Proof. unfold CanTransition, IsTerminal. by destruct (Task_Status t). Qed.

Lemma distance_bound s : distance s ≤ 6.
Proof. destruct s; simpl; lia. Qed.

(** A move keeps what is recorded of the task, and uses up [cost] of the faults. *)
Lemma move_preserves a a' id t to at_ :
  memory_inv a → m_tasks a !! id = Some t → CanTransition t to = true →
  m_tasks a' = <[Task_ID t := moved_task t to at_]> (m_tasks a) →
  (∀ s to' record, next s = Some to' →
     m_operations a' !! TransitionOperationKey (Input_TaskID i) to' = Some record →
     m_operations a !! TransitionOperationKey (Input_TaskID i) to' = Some record
     ∨ (id = Input_TaskID i ∧ to = to' ∧ Rec_To record = to' ∧ Snapshot_Status (Rec_Snapshot record) = to')) →
  size (m_staleOnceForKey a') ≤ size (m_staleOnceForKey a) →
  size (m_terminalOnStep a') < size (m_terminalOnStep a)
  ∨ (size (m_terminalOnStep a') = size (m_terminalOnStep a) ∧ distance to < distance (Task_Status t)) →
  memory_inv a' ∧ later memory_ghost a a'
  ∧ (id = Input_TaskID i → potential memory_ghost a' < potential memory_ghost a).
Proof.
  intros Hi Ht Hc Htasks Hops Hstale Hcost.
  destruct (moved_status a _ id t to at_ Hi Ht Htasks) as [Hkey Hown].
  pose proof (CanTransition_stage _ _ Hc) as Hstage. pose proof (CanTransition_live _ _ Hc) as Hlive.
  pose proof (distance_bound to). 
  assert (task_status a' = match m_tasks a' !! Input_TaskID i with Some t => Task_Status t | None => TaskStatusOther "" end) as Hs' by done.
  assert (task_version a' = match m_tasks a' !! Input_TaskID i with Some t => Task_Version t | None => 0%Z end) as Hv' by done.
  destruct Hown as [(-> & Hst & Hver & Hl)|(Hne & Hl)].
  - rewrite Hl in Hs'. simpl in Hs'. split_and!.
    + split; [exact Hkey|]. intros s to' record Hn Hr. rewrite Hs'.
      destruct (Hops _ _ _ Hn Hr) as [Hr'|(_ & <- & -> & ->)]; [|done].
      destruct (inv_recorded _ Hi _ _ _ Hn Hr') as (-> & -> & Hsg & Hcomp). rewrite Hst in *.
      split_and!; [done..|lia|]. intros ->. by rewrite Hcomp in Hlive.
    + split; simpl; rewrite Hs', Hst; [lia..|by rewrite Hlive].
    + intros _. simpl. rewrite Hs', Hst. lia.
  - assert (task_status a' = task_status a) as Es by (rewrite Hs', Hl; done).
    assert (task_version a' = task_version a) as Ev by (rewrite Hv', Hl; done).
    split_and!; [| |done].
    + split; [exact Hkey|]. intros s to' record Hn Hr. rewrite Es.
      destruct (Hops _ _ _ Hn Hr) as [Hr'|(E & _)]; [|done]. by apply (inv_recorded _ Hi s).
    + split; simpl; rewrite ?Es, ?Ev; [lia|by left|done].
Qed.

(** A call that moves no task. *)
Lemma kept_preserves a a' :
  memory_inv a → m_tasks a' = m_tasks a → m_operations a' = m_operations a →
  size (m_staleOnceForKey a') ≤ size (m_staleOnceForKey a) → size (m_terminalOnStep a') ≤ size (m_terminalOnStep a) →
  memory_inv a' ∧ later memory_ghost a a'.
Proof.
  intros Hi Ht Ho Hs Hc.
  assert (task_status a' = task_status a) as Es by (unfold task_status; by rewrite Ht).
  assert (task_version a' = task_version a) as Ev by (unfold task_version; by rewrite Ht).
  split; split.
  - rewrite Ht. apply Hi.
  - rewrite Ho, Es. apply Hi.
  - simpl. rewrite Es. lia.
  - left. simpl. by rewrite Es, Ev.
  - simpl. by rewrite Es.
Qed.

Lemma runStep_preserves name j r a a' :
  memory_inv a → runStep clock name (step_input j) a = (r, a') → memory_inv a' ∧ later memory_ghost a a'.
Proof.
  intros Hi H. apply runStep_outcome in H as [Ht Ho Hs Hc|t to at_ Ht Hc Ht' Ho Hs Hc'].
  - apply kept_preserves; rewrite ?Hs; auto.
  - edestruct (move_preserves a a') as (H1 & H2 & _); [eassumption..| | | |done]; rewrite ?Hs; auto.
    rewrite Ho. eauto.
Qed.

(** A transition of the workflow of this or of an unrelated task. *)
Lemma transition_preserves j v s to r a a' :
  memory_inv a → next s = Some to →
  Input_TaskID j = Input_TaskID i ∨ TrimSpace (Input_TaskID j) ≠ TrimSpace (Input_TaskID i) →
  Memory_TransitionTask clock (transition_input j v to) a = (r, a') →
  memory_inv a' ∧ later memory_ghost a a'.
Proof.
  intros Hi Hn Hid H. apply Memory_TransitionTask_outcome in H.
  destruct H as [e He|rec Hr Hto|t Ht Hterm|Hst|t Ht Hv|e He|t Ht Hc]; try by apply kept_preserves.
  - apply kept_preserves; try done. simpl. apply delete_size in Hst. simpl in Hst. lia.
  - edestruct (move_preserves a) as (H1 & H2 & _); [eassumption..| | | | |split; [exact H1|exact H2]]; simpl; [done| |done|].
    + intros s' to' record Hn' Hl.
      destruct (decide (TransitionOperationKey (Input_TaskID j) to = TransitionOperationKey (Input_TaskID i) to')) as [E|E].
      * destruct (TransitionOperationKey_inj _ _ _ _ _ _ Hn Hn' E) as [<- Htrim]. rewrite E, lookup_insert_eq in Hl.
        injection Hl as <-. right. split_and!; try done. by destruct Hid.
      * rewrite lookup_insert_ne in Hl by done. by left.
    + right. split; [done|]. by eapply CanTransition_next.
Qed.

(** A transition of the workflow itself. *)
Lemma own_transition v s to r a a' :
  memory_inv a → next s = Some to →
  Memory_TransitionTask clock (transition_input i v to) a = (r, a') →
  (∀ snap, r = Ok snap → isTerminalStatus (Snapshot_Status snap) = true → task_status a' = Snapshot_Status snap)
  ∧ (task_version a = v → task_status a = s →
     is_ok r = true ∨ (∃ cause, r = Err (NewNonRetryableApplicationError ErrorTypeStaleTaskVersion cause)) →
     potential memory_ghost a' < potential memory_ghost a).
Proof.
  intros Hi Hn H. apply Memory_TransitionTask_outcome in H.
  destruct H as [e He|rec Hr Hto|t Ht Hterm|Hst|t Ht Hv|e He|t Ht Hc]; simpl in *.
  - split; [done|]. intros _ _ [|[c [=]]]; [done|]. by destruct (He c).
  - destruct (inv_recorded _ Hi _ _ _ Hn Hr) as (Hto' & Hsn & Hsg & Hcomp). split.
    + intros snap [= <-] Hterm. rewrite Hsn in *. rewrite (next_terminal _ _ Hn Hterm) in *. auto.
    + intros _ Es _. rewrite Es in Hsg. pose proof (next_stage _ _ Hn). lia.
  - unfold task_status, task_version. rewrite Ht. split; [by intros snap [= <-]|].
    intros _ Es _. unfold IsTerminal in Hterm. rewrite Es in Hterm. by destruct s.
  - split; [done|]. intros _ _ _. apply delete_size in Hst. unfold task_status. simpl. lia.
  - split; [done|]. unfold task_version. rewrite Ht. intros Ev. done.
  - split; [done|]. intros _ _ [|[c [=]]]; [done|]. by destruct (He c).
  - split.
    + intros snap [= <-] _. unfold task_status. simpl. rewrite (inv_keyed _ Hi _ _ Ht), lookup_insert_eq. done.
    + intros _ _ _. assert (Task_ID t = Input_TaskID i) as Hk by (by eapply inv_keyed).
      unfold task_status. simpl. rewrite Hk, lookup_insert_eq, Ht. simpl.
      pose proof (CanTransition_next _ _ _ Hn Hc). lia.
Qed.

Lemma other_preserves a a' : memory_inv a → rtc other a a' → memory_inv a' ∧ later memory_ghost a a'.
Proof.
  intros Hi Hr. induction Hr as [a|a a1 a' Ho _ IH]; [by split|].
  assert (memory_inv a1 ∧ later memory_ghost a a1) as [I1 L1].
  { destruct Ho; [eapply transition_preserves; eauto|by eapply runStep_preserves]. }
  destruct (IH I1). split; [done|by etrans].
Qed.

(** The memory backend follows the laws, beside the workflows of other tasks. *)
Lemma Memory_backend_laws : @BackendLaws _ (Memory_activities clock) memory_ghost (rtc other) memory_inv i.
Proof.
  split.
  - intros a r a' Hi H. simpl in H. unfold Memory_LoadTask in H. simplify_eq. split_and!; [done..|].
    intros s Hs. apply bind_Ok in Hs as (t & Ht & [= <-]). apply taskForScope_Ok in Ht. simpl in *.
    unfold task_status, task_version. rewrite Ht. done.
  - intros a v s0 to r a' Hi Hn H. simpl in H.
    destruct (transition_preserves i v s0 to r a a' Hi Hn (or_introl eq_refl) H).
    destruct (own_transition v s0 to r a a' Hi Hn H). done.
  - intros a name r a' Hi H. unfold registered in H. simpl in H.
    repeat (destruct (name ==? _); [by eapply runStep_preserves|]). simplify_eq. by split.
  - apply other_preserves.
Qed.
End laws.

(** ** Runs

    [retrying] is Temporal with a reliable connection: an activity is executed up
    to three times, until it answers or fails for good; an error that is not an
    application error is turned into one that carries its type. *)
Definition is_application (e : error) : bool :=
  match e with TypedErr ty _ _ => ty ==? ApplicationError | _ => false end.

Definition failure (e : error) : error :=
  if is_application e then e else TypedErr ApplicationError "wrapError" (Some e).

Fixpoint attempt {W A} (n : nat) (act : W → result A * W) (w : W) : result A * W :=
  match act w, n with
  | (Ok a, w), _ => (Ok a, w)
  | (Err e, w), S (S _ as n') => if is_application e then (Err (failure e), w) else attempt n' act w
  | (Err e, w), _ => (Err (failure e), w)
  end.

Definition retrying (W : Type) : Temporal W := {| ExecuteActivity A act w := attempt 3 act w |}.

Lemma failure_reports e : reports e (failure e).
Proof.
  unfold reports, failure. destruct (is_application e) eqn:He; [|done].
  destruct e; try done. simpl in *. go_props. subst. unfold isApplicationErrorType. simpl.
  intros Hs. go_props. subst. by eexists.
Qed.

Lemma attempt_ran {W A} (ext : W → W → Prop) `{!Reflexive ext} n (act : W → result A * W) w r w' :
  attempt (S n) act w = (r, w') → ran ext act (S n) w r w'.
Proof.
  revert w. induction n as [|n IH]; intros w; simpl; destruct (act w) as [[a|e] w1] eqn:Hact; intros H.
  - simplify_eq. by eapply ran_ok.
  - simplify_eq. eapply ran_failed; [done..|apply failure_reports].
  - simplify_eq. by eapply ran_ok.
  - destruct (is_application e) eqn:He.
    + simplify_eq. eapply ran_failed; [done..|apply failure_reports].
    + eapply ran_retried; [done|exact Hact| |by apply IH]. intros e' [= <-] ty cause ->. done.
Qed.

Lemma retrying_laws W (ext : W → W → Prop) `{!Reflexive ext} : @TemporalLaws W (retrying W) ext.
Proof. split. intros A act w r w' H. by apply attempt_ran. Qed.

Definition sample_input : TaskWorkflowInput := mkWorkflowInput 1 "acme" "lab" "t-1" "trace-1".
Definition sample_task (id : string) : Task :=
  mkTask id "acme" "lab" "" "agent" "say hello" TaskCreated 1 "" f_zero f_zero f_zero "USD" "" "trace-1" 5 5 None.
Definition sample_clock (n : nat) : Time := (100 + Z.of_nat n)%Z.

Definition run (fuel : nat) (a : MemoryLifecycleActivities) :=
  @TaskLifecycleWorkflow _ (Memory_activities sample_clock) (retrying _) fuel sample_input a.
Definition summary (x : option ((TaskWorkflowResult * option error) * MemoryLifecycleActivities)) :=
  match x with
  | Some ((r, e), a) =>
      Some (Result_ObservedStatus r, Result_AlreadyTerminal r, Result_Steps r, bool_decide (e = None), OperationCount a)
  | None => None
  end.

(** A task runs to completion. *)
Example workflow_completes :
  summary (run 10 (NewMemoryLifecycleActivities [sample_task "t-1"]))
  = Some (TaskCompleted, false,
          ["PLANNING"; "plan"; "ROUTING"; "route"; "EXECUTING"; "execute"; "VALIDATING"; "validate"; "COMPLETED"], true, 5%Z).
Proof. vm_compute. reflexivity. Qed.

(** Two transient failures are retried, a third fails the workflow. *)
Example workflow_retries :
  summary (run 10 (SetTransientFailures ActivityRouteStub 2 (NewMemoryLifecycleActivities [sample_task "t-1"])))
  = summary (run 10 (NewMemoryLifecycleActivities [sample_task "t-1"]))
  ∧ summary (run 10 (SetTransientFailures ActivityRouteStub 3 (NewMemoryLifecycleActivities [sample_task "t-1"])))
    = Some (TaskRouting, false, ["PLANNING"; "plan"; "ROUTING"], false, 2%Z).
Proof. split; vm_compute; reflexivity. Qed.

(** A stale version repeats the step and claims the transition once. *)
Example workflow_stale :
  summary (run 10 (SetStaleOnce (TransitionOperationKey "t-1" TaskRouting) (NewMemoryLifecycleActivities [sample_task "t-1"])))
  = Some (TaskCompleted, false,
          ["PLANNING"; "plan"; "plan"; "ROUTING"; "route"; "EXECUTING"; "execute"; "VALIDATING"; "validate"; "COMPLETED"],
          true, 5%Z).
Proof. vm_compute. reflexivity. Qed.

(** A cancellation during a step ends the workflow. *)
Example workflow_cancelled :
  summary (run 10 (SetTerminalOnStep ActivityExecuteStub TaskCancelled (NewMemoryLifecycleActivities [sample_task "t-1"])))
  = Some (TaskCancelled, true, ["PLANNING"; "plan"; "ROUTING"; "route"; "EXECUTING"; "execute"], true, 3%Z).
Proof. vm_compute. reflexivity. Qed.

(** [TaskLifecycleWorkflow_ends] on the memory backend with every kind of fault. *)
Lemma TaskLifecycleWorkflow_ends_witness :
  let g := memory_ghost sample_input in
  let a := SetStaleOnce (TransitionOperationKey "t-1" TaskRouting)
             (SetTransientFailures ActivityRouteStub 2
                (SetTerminalOnStep ActivityExecuteStub TaskFailed (NewMemoryLifecycleActivities [sample_task "t-1"]))) in
  memory_inv sample_input a ∧ potential g a = 14
  ∧ ∃ res err a', run 15 a = Some ((res, err), a')
    ∧ (err = None →
       isTerminalStatus (status g a') = true ∧ Result_ObservedStatus res = status g a'
       ∧ (Result_AlreadyTerminal res = false →
          status g a' = TaskCompleted ∧ last (Result_Steps res) = Some (TaskStatus_string TaskCompleted))).
Proof.
  intros g a. assert (memory_inv sample_input a) as Hi.
  { split; [|done]. intros k t. unfold a. simpl. rewrite lookup_insert_Some. intros [[<- <-]|[_ Hk]]; [done|by rewrite lookup_empty in Hk]. }
  split_and!; [exact Hi|vm_compute; reflexivity|].
  apply (@TaskLifecycleWorkflow_ends _ (Memory_activities sample_clock) g (retrying _) (rtc (other sample_clock sample_input))
           (memory_inv sample_input) sample_input).
  - apply Memory_backend_laws.
  - apply retrying_laws. typeclasses eauto.
  - exact Hi.
  - vm_compute. lia.
Defined.

Definition spaced_input : TaskWorkflowInput := mkWorkflowInput 1 "acme" "lab" " t-1" "trace-1".
Definition after_first : MemoryLifecycleActivities :=
  match run 10 (NewMemoryLifecycleActivities [sample_task "t-1"; sample_task " t-1"]) with
  | Some (_, a) => a
  | None => NewMemoryLifecycleActivities []
  end.

(** Two tasks whose ids differ in surrounding spaces share their operation keys,
    because the keys trim the id and the task lookup does not: after one of them
    has run, the workflow of the other is told that its first transition was made
    and repeats it for ever. *)
Example trimmed_key_never_ends fuel :
  @TaskLifecycleWorkflow _ (Memory_activities sample_clock) (retrying _) fuel spaced_input after_first = None.
Proof.
  unfold TaskLifecycleWorkflow. change (ValidateInput spaced_input) with (Ok tt : result unit).
  generalize (mkWorkflowResult (Input_TaskID spaced_input) (Input_TraceID spaced_input) (TaskStatusOther "") false []).
  assert (@loadTaskSnapshot _ (Memory_activities sample_clock) (retrying _) spaced_input after_first
          = (Ok (snapshotFromTask (sample_task " t-1")), after_first)) as Hl by (vm_compute; reflexivity).
  assert (∃ nx, @transitionTask _ (Memory_activities sample_clock) (retrying _) spaced_input
                  (snapshotFromTask (sample_task " t-1")) TaskPlanning after_first = (Ok (nx, true), after_first))
    as [nx Ht] by (eexists; vm_compute; reflexivity).
  induction fuel as [|fuel IH]; intros r; [done|]. cbn [lifecycle_loop]. rewrite Hl. cbn -[lifecycle_loop advance].
  unfold advance. rewrite Ht. apply IH.
Qed.

End LifecycleMemory.
