(* ===== verification/Activities.v ===== *)
(** * Activities: the durable steps of the task workflow

    [src/internal/workflow]: planning_activity.go, routing_activity.go and
    execution_activity.go, with the conversions of [src/internal/executionbinding].
    An activity is a program over the stores, the policy gate, the router and the
    worker; its requests run under the context of the workflow's own principal.
    JSON encoders and SHA-256 are parameters, and so is the order in which the
    plan's validation visits its map. *)
From S2P Require Import Prelude Programs Identity Domain ExecTypes ExecPlan Budget Supervisor Runner Worker.
From S2P Require Import LeaseSchema LeaseStore RouteTypes TaskSchema TaskStore GoStrings Order Pricing ModelRuntime.
From S2P Require Import Lifecycle LifecycleMemory.

Module Activities.
Export Programs.
Import Domain RouteTypes TaskStore.
Import ExecPlan(validatePlan).
Import Lifecycle(StepInput, Step_TenantID, Step_ProjectID, Step_TaskID, Step_TraceID, NewNonRetryableApplicationError).
Import LifecycleMemory(ErrLifecycleScope).
Import Supervisor(PreparedNode, mkPreparedNode).
Import Budget(BudgetEstimate, mkBudgetEstimate).
Import Worker(WorkerExecutionResult).
Import Pricing(Deployment, Deployment_ID, Deployment_ModelID, Deployment_ModelVersion, Deployment_Provider,
  Deployment_Mode, Deployment_Region, Deployment_DataResidency, Deployment_Runtime, Deployment_Quantization,
  Deployment_Health, Deployment_HealthCheckedAt, Deployment_UpdatedAt).

Definition ExecutionActivityVersion : string := "ecp-execute-v1".
Definition RoutingActivityVersion : string := "ecp-route-v1".
Definition ErrorTypeExecutionBindingInconsistent : string := "EXECUTION_BINDING_INCONSISTENT".
Definition ErrorTypeExecutionRetryNotAllowed : string := "EXECUTION_RETRY_NOT_ALLOWED".
Definition ErrorTypeRoutePolicyDenied : string := "ROUTE_POLICY_DENIED".
Definition ErrorTypeRouteApprovalRequired : string := "ROUTE_POLICY_APPROVAL_REQUIRED".
Definition ErrorTypeRouteSelectionInconsistent : string := "ROUTE_SELECTION_INCONSISTENT".

Definition bindingInconsistentError : error := NewNonRetryableApplicationError ErrorTypeExecutionBindingInconsistent None.
Definition retryNotAllowedError : error := NewNonRetryableApplicationError ErrorTypeExecutionRetryNotAllowed None.

Definition HealthStatus_string (h : HealthStatus) : string :=
  match h with
  | HealthUnknown => "unknown" | HealthHealthy => "healthy" | HealthDegraded => "degraded"
  | HealthUnhealthy => "unhealthy" | HealthOther s => s
  end.
Definition DeploymentMode_string (m : DeploymentMode) : string :=
  match m with
  | DeploymentPublicAPI => "public-api" | DeploymentEnterpriseAPI => "enterprise-api"
  | DeploymentPrivateEndpoint => "private-endpoint" | DeploymentSelfHosted => "self-hosted"
  | DeploymentLocal => "local" | DeploymentModeOther s => s
  end.

Definition NodeState_string (s : NodeState) : string :=
  match s with
  | NodePending => "PENDING" | NodeReady => "READY" | NodeRunning => "RUNNING"
  | NodeWaitingApproval => "WAITING_APPROVAL" | NodeSucceeded => "SUCCEEDED" | NodeFailed => "FAILED"
  | NodeSkipped => "SKIPPED" | NodeBlocked => "BLOCKED" | NodeCancelled => "CANCELLED" | NodeStateOther s => s
  end.

#[export] Instance PlanRevisionRef_eq_dec : EqDecision PlanRevisionRef.
Proof. solve_decision. Defined.

(** ** Conversions *)

Record GoalSnapshotOptions : Type := mkGoalOptions {
  Options_GoalID : GoalID;
  Options_AcceptanceCriteria : list AcceptanceCriterion;
  Options_Constraints : GoalConstraints;
  Options_Budget : BudgetLimit
}.
Definition BudgetLimitZero : BudgetLimit := Build_BudgetLimit f_zero 0%Z 0 0 0.
Definition GoalSnapshotOptionsZero : GoalSnapshotOptions :=
  mkGoalOptions "" [] (Build_GoalConstraints false []) BudgetLimitZero.

Definition GoalSnapshotFromTask (task : Task) (options : GoalSnapshotOptions) : result Goal :=
  if blank (Task_ID task) then Err (Errorf "task id is required" []) else
  let objective := TrimSpace (Task_Input task) in
  if objective ==? "" then Err (Errorf "task input is required to build goal snapshot" []) else
  Ok {| Goal_ID := if Options_GoalID options ==? "" then "goal/" +:+ Task_ID task +:+ "/v1" else Options_GoalID options;
        Goal_TaskRef := Task_ID task;
        Goal_Objective := objective;
        Goal_AcceptanceCriteria := Options_AcceptanceCriteria options;
        Goal_Constraints := Options_Constraints options;
        Goal_Budget := Options_Budget options |}.

(** What the target digest is computed from. *)
Record TargetEvidence : Type := mkTargetEvidence {
  TE_RouteID : string;
  TE_EvidenceVersion : string;
  TE_PolicyVersion : string;
  TE_Candidate : RouteCandidate;
  TE_Deployment : option Deployment
}.

(** The event payload of a route selection. *)
Record SelectionEvidence : Type := mkSelectionEvidence {
  SE_RouteDecisionID : string;
  SE_PlanID : PlanID;
  SE_PlanRevision : Z;
  SE_NodeID : NodeID;
  SE_Policy : PolicyDecisionRecord;
  SE_Target : ExecutionTarget
}.

Record Encoders : Type := mkEncoders {
  enc_target : TargetEvidence → result string;
  enc_selection : SelectionEvidence → result string;
  sha256_hex : string → string
}.

Section conversions.
Variable J : Encoders.

Definition routeTargetDigest (value : TargetEvidence) : result string :=
  match enc_target J value with
  | Err e => Err (Errorw "encode execution target snapshot: %w" [] e)
  | Ok body => Ok ("sha256:" +:+ sha256_hex J body)
  end.

Definition targetFromDeployment (decision : RouteDecision) (deployment : Deployment) : result ExecutionTarget :=
  let selected := Decision_Selected decision in
  digest ← routeTargetDigest (mkTargetEvidence (Decision_ID decision) (Decision_EvidenceVersion decision)
             (Decision_PolicyVersion decision) selected (Some deployment));
  let observedAt := default (Deployment_UpdatedAt deployment) (Deployment_HealthCheckedAt deployment) in
  Ok {| Target_ID := "deployment/" +:+ Deployment_ID deployment;
        Target_Revision := 1;
        Target_Type := TargetModel;
        Target_Capabilities :=
          list_to_map [("provider", Deployment_Provider deployment); ("model.id", Candidate_ModelID selected);
            ("model.version", Candidate_ModelVersion selected); ("deployment.id", Deployment_ID deployment);
            ("deployment.mode", DeploymentMode_string (Deployment_Mode deployment));
            ("region", Deployment_Region deployment); ("runtime", Deployment_Runtime deployment);
            ("quantization", Deployment_Quantization deployment)];
        Target_Policy := Build_TargetPolicy (Deployment_DataResidency deployment) [];
        Target_Health := Build_TargetHealth (HealthStatus_string (Deployment_Health deployment)) observedAt;
        Target_Snapshot := Build_TargetSnapshot digest (DeploymentMode_string (Deployment_Mode deployment))
          (Candidate_ModelVersion selected) (Deployment_Runtime deployment) (Deployment_ID deployment) "" |}.

Definition targetFromModelRoute (decision : RouteDecision) : result ExecutionTarget :=
  let selected := Decision_Selected decision in
  digest ← routeTargetDigest (mkTargetEvidence (Decision_ID decision) (Decision_EvidenceVersion decision)
             (Decision_PolicyVersion decision) selected None);
  Ok {| Target_ID := "model/" +:+ Candidate_ModelID selected +:+ "@" +:+ Candidate_ModelVersion selected;
        Target_Revision := 1;
        Target_Type := TargetModel;
        Target_Capabilities :=
          list_to_map [("model.id", Candidate_ModelID selected); ("model.version", Candidate_ModelVersion selected);
            ("route.class", ModelRuntime.RouteClass_string (Candidate_RouteClass selected))];
        Target_Policy := Build_TargetPolicy "" [];
        Target_Health := Build_TargetHealth "" 0%Z;
        Target_Snapshot := Build_TargetSnapshot digest "" (Candidate_ModelVersion selected) "" "" "" |}.

Definition TargetFromRouteDecision (decision : RouteDecision) (deployment : option Deployment) : result ExecutionTarget :=
  if blank (Decision_ID decision) || blank (Decision_TaskID decision)
  then Err (Errorf "route decision id and task id are required" []) else
  let selected := Decision_Selected decision in
  if blank (Candidate_ModelID selected) || blank (Candidate_ModelVersion selected)
  then Err (Errorf "route decision does not select a model target" []) else
  if Candidate_DeploymentID selected !=? "" then
    match deployment with
    | None => Err (Errorf "selected deployment %q requires a deployment snapshot" [AStr (Candidate_DeploymentID selected)])
    | Some deployment =>
        if Deployment_ID deployment !=? Candidate_DeploymentID selected
        then Err (Errorf "deployment snapshot does not match selected deployment" [])
        else if (Deployment_ModelID deployment !=? "") && (Deployment_ModelID deployment !=? Candidate_ModelID selected)
        then Err (Errorf "deployment model does not match selected model" [])
        else if (Deployment_ModelVersion deployment !=? "")
                && (Deployment_ModelVersion deployment !=? Candidate_ModelVersion selected)
        then Err (Errorf "deployment model version does not match selected model version" [])
        else targetFromDeployment decision deployment
    end
  else targetFromModelRoute decision.
End conversions.

(** ** Requests *)

Inductive Req : Type → Set :=
| GetTask (id : string) : Req (result Task)
| GetGoal (id : GoalID) : Req (result Goal)
| CreateGoal (goal : Goal) : Req (result Goal)
| GetPlan (id : PlanID) (revision : Z) : Req (result ExecutionPlan)
| CreatePlan (plan : ExecutionPlan) : Req (result ExecutionPlan)
| ListPlansByTask (id : string) : Req (result (list ExecutionPlan))
| GetExecution (id : ExecutionID) : Req (result Execution)
| CreateExecution (item : Execution) : Req (result Execution)
| BuildPlan (task : Task) (goal : Goal) : Req (result ExecutionPlan)      (** [ExecutionPlanBuilder] *)
| Evaluate (task : Task) (goal : Goal) (plan : ExecutionPlan) (node : ExecutionNode) : Req (result PolicyDecisionRecord)
| BuildRequest (task : Task) (goal : Goal) (plan : ExecutionPlan) (node : ExecutionNode) : Req (result RouteRequest)
| PlanRoute (request : RouteRequest) : Req (result RouteDecision)
| GetDeployment (id : string) : Req (result Deployment)
| CommitSelection (commit : RouteSelectionCommit) : Req (result RouteSelectionResult)
| ResolveSelection (lookup : IdempotencyLookup) : Req (result (option RouteSelectionResult))
| Register (record : NodeRuntimeRecord) : Req (result unit)
| GetRuntime (id : ExecutionID) (revision : Z) (node : NodeID) : Req (result (NodeRuntimeRecord * option NodeLease))
| RequeueFailed (id : ExecutionID) (revision : Z) (node : NodeID) : Req (result unit)
| ListAttempts (id : ExecutionID) (revision : Z) (node : NodeID) : Req (result (list AttemptRecord))
| Execute (item : Execution) (candidate : PreparedNode) : Req (WorkerExecutionResult * option error)
| Now : Req Time
| NewID (prefix : string) : Req string.

(** A request and the context it is made under. *)
Inductive Ev (X : Type) : Set :=
| At (ctx : option Identity.Principal) (r : Req X).
Arguments At {X} ctx r.

Abbreviation prog := (Programs.prog Ev).

(** [executionWorkflowProjectContext]. *)
Definition executionWorkflowProjectContext (input : StepInput) : Identity.Context :=
  Identity.WithPrincipal None
    (Identity.mkPrincipal Identity.PrincipalSystem "temporal-task-lifecycle" (Step_TenantID input) (Step_ProjectID input)
       [] [Identity.CapabilityTaskSystemAccess] "internal_temporal" "aicloud" "" "task-lifecycle").

Definition wrapped (format : string) (e : error) : error := Errorw format [] e.

Definition incomplete (input : StepInput) : bool :=
  blank (Step_TenantID input) || blank (Step_ProjectID input) || blank (Step_TaskID input) || blank (Step_TraceID input).

Definition out_of_scope (task : Task) (input : StepInput) : bool :=
  (Task_TenantID task !=? Step_TenantID input) || (Task_ProjectID task !=? Step_ProjectID input)
  || (Task_TraceID task !=? Step_TraceID input).

Section activities.
Variable J : Encoders.
Variable order : ExecutionPlan → list NodeID.

(** ** Planning *)

Definition BaselineModelPlan (taskID : string) (goalID : GoalID) (now : Time) : ExecutionPlan :=
  {| Plan_ID := "plan/" +:+ taskID +:+ "/model/v1";
     Plan_GoalRef := goalID;
     Plan_Revision := 1;
     Plan_ParentRevision := 0;
     Plan_Nodes :=
       [{| Node_ID := "model/main"; Node_Type := NodeModel; Node_DependsOn := [];
           Node_CapabilityRequirement := Build_CapabilityRequirement [] "" "" "" "" false "" "";
           Node_Timeout := 0%Z;
           Node_RetryPolicy := Build_RetryPolicy 3 [ErrorTransient; ErrorTargetUnavailable; ErrorTimeout];
           Node_Effect := Build_EffectSpec EffectPure "" true;
           Node_VerificationRequired := true |}];
     Plan_CreatedAt := now |}.

(** [BaselineModelPlanBuilder.Build]. *)
Definition Baseline_Build (task : Task) (goal : Goal) (now : Time) : result ExecutionPlan :=
  if blank (Task_ID task) || (Goal_ID goal ==? "") || (Goal_TaskRef goal !=? Task_ID task)
  then Err (Errorf "task and goal lineage is required" []) else
  let plan := BaselineModelPlan (Task_ID task) (Goal_ID goal) now in
  _ ← validatePlan order plan;
  Ok plan.

Definition ensureGoal (ctx : Identity.Context) (goal : Goal) : prog (result Goal) :=
  existing ← ask (At ctx (GetGoal (Goal_ID goal)));
  match existing with
  | Ok existing => Ret (Ok existing)
  | Err err =>
      if negb (errors_Is err "repository.ErrNotFound")
      then Ret (Err (wrapped "load persisted execution goal: %w" err)) else
      created ← ask (At ctx (CreateGoal goal));
      match created with
      | Ok created => Ret (Ok created)
      | Err createErr =>
          again ← ask (At ctx (GetGoal (Goal_ID goal)));
          match again with
          | Ok existing => Ret (Ok existing)
          | Err _ => Ret (Err (wrapped "persist execution goal: %w" createErr))
          end
      end
  end.

Definition set_goal (p : ExecutionPlan) (goal : GoalID) : ExecutionPlan :=
  Build_ExecutionPlan (Plan_ID p) goal (Plan_Revision p) (Plan_ParentRevision p) (Plan_Nodes p) (Plan_CreatedAt p).

(** The end of [DurablePlanningActivity.Plan], from [a.ensureGoal] on. *)
Definition storePlan (ctx : Identity.Context) (task : Task) (goal : Goal) (plan : ExecutionPlan) : prog (result unit) :=
  try (ensureGoal ctx goal) id (λ persistedGoal,
  if (Goal_TaskRef persistedGoal !=? Task_ID task) || (Goal_Objective persistedGoal !=? Goal_Objective goal)
  then Ret (Err (Errorf "persisted goal does not match canonical Task intent" [])) else
  let plan := set_goal plan (Goal_ID persistedGoal) in
  created ← ask (At ctx (CreatePlan plan));
  match created with
  | Ok _ => Ret (Ok tt)
  | Err err =>
      again ← ask (At ctx (GetPlan (Plan_ID plan) (Plan_Revision plan)));
      match again with
      | Ok existing =>
          if Plan_GoalRef existing ==? Plan_GoalRef plan then Ret (Ok tt)
          else Ret (Err (wrapped "persist execution plan: %w" err))
      | Err _ => Ret (Err (wrapped "persist execution plan: %w" err))
      end
  end).

(** [DurablePlanningActivity.Plan]; [configured] says that no dependency is nil. *)
Definition Plan (configured : bool) (input : StepInput) : prog (result unit) :=
  if negb configured then Ret (Err (Errorf "durable planning activity is not fully configured" []))
  else if incomplete input
  then Ret (Err (Errorf "planning step requires tenant, project, task and trace identity" [])) else
  let ctx := executionWorkflowProjectContext input in
  try (ask (At ctx (GetTask (Step_TaskID input)))) (wrapped "load task for planning: %w") (λ task,
  if out_of_scope task input then Ret (Err ErrLifecycleScope) else
  match GoalSnapshotFromTask task GoalSnapshotOptionsZero with
  | Err err => Ret (Err err)
  | Ok goal =>
  try (ask (At ctx (BuildPlan task goal))) (wrapped "build execution plan: %w") (λ plan,
  found ← ask (At ctx (GetPlan (Plan_ID plan) (Plan_Revision plan)));
  match found with
  | Ok existing =>
      if Plan_GoalRef existing !=? Goal_ID goal then Ret (Err (Errorf "persisted plan goal lineage mismatch" []))
      else Ret (Ok tt)
  | Err getErr =>
      if negb (errors_Is getErr "repository.ErrNotFound")
      then Ret (Err (wrapped "load persisted execution plan: %w" getErr))
      else if Task_Status task !=? TaskPlanning
      then Ret (Err (Errorw "%w: cannot create execution plan from %s" [AStr (TaskStatus_string (Task_Status task))]
                       ErrInvalidTaskTransition)) else
      storePlan ctx task goal plan
  end)
  end).

(** ** Routing *)

(** [BaselineRoutingPolicy.Evaluate]. *)
Definition BaselineRoutingPolicy (task : Task) (goal : Goal) (plan : ExecutionPlan) (node : ExecutionNode)
    : result PolicyDecisionRecord :=
  if blank (Task_ID task) || (Goal_TaskRef goal !=? Task_ID task) || (Plan_GoalRef plan !=? Goal_ID goal)
  then Err (Errorf "routing policy lineage is invalid" []) else
  let d := (PolicyAllow, ["BASELINE_MODEL_ROUTE"]) in
  let d := if Node_Type node !=? NodeModel then (PolicyDeny, ["UNSUPPORTED_NODE_TYPE"]) else d in
  let d := if (Effect_Class (Node_Effect node) !=? EffectPure) && (Effect_Class (Node_Effect node) !=? EffectReadOnly)
           then (PolicyDeny, ["MUTATION_REQUIRES_EXPLICIT_POLICY"]) else d in
  Ok {| Policy_ID := "policy/" +:+ Task_ID task +:+ "/" +:+ Node_ID node +:+ "/route/v1";
        Policy_PolicySetRef := "ecp/baseline-routing";
        Policy_PolicyVersion := "v1";
        Policy_ExecutionRef := "";
        Policy_PlanRevision := Plan_Revision plan;
        Policy_NodeRef := Node_ID node;
        Policy_Principal := "system:temporal-task-lifecycle";
        Policy_Action := "route:model-target";
        Policy_Resource := Task_ID task +:+ "/" +:+ Node_ID node;
        Policy_RequestedScope := "";
        Policy_Decision := fst d;
        Policy_ReasonCodes := snd d;
        Policy_ExpiresAt := None |}.

(** [BaselineRouteRequestBuilder.Build]. *)
Definition BaselineRouteRequest (task : Task) (goal : Goal) (plan : ExecutionPlan) (node : ExecutionNode)
    : result RouteRequest :=
  if (Task_ID task ==? "") || (Plan_GoalRef plan !=? Goal_ID goal) || (Node_Type node !=? NodeModel)
  then Err (Errorf "model routing request lineage is invalid" []) else
  let currency := TrimSpace (Task_Currency task) in
  let currency := if currency ==? "" then "USD" else currency in
  let c := Node_CapabilityRequirement node in
  let required := Modality c ++ (if Coding c !=? "" then ["coding"] else [])
                  ++ (if Reasoning c !=? "" then ["reasoning"] else [])
                  ++ (if ToolCalling c !=? "" then ["tool-calling"] else []) in
  Ok (mkRouteRequest (Task_ID task) RouteEfficient required EffortZero TierZero 0 0 (MaxCost (Goal_Budget goal)) currency ""
        ("plan:" +:+ Plan_ID plan +:+ "@" +:+ Itoa (Plan_Revision plan)) "" false false 0%Z).

Definition newer_plan (candidate current : ExecutionPlan) : bool :=
  After (Plan_CreatedAt candidate) (Plan_CreatedAt current)
  || ((Plan_CreatedAt candidate =? Plan_CreatedAt current)%Z && (Plan_Revision current <? Plan_Revision candidate)%Z)
  || ((Plan_CreatedAt candidate =? Plan_CreatedAt current)%Z && (Plan_Revision candidate =? Plan_Revision current)%Z
      && Order.str_lt (Plan_ID current) (Plan_ID candidate)).

Definition latest (current : ExecutionPlan) (plans : list ExecutionPlan) : ExecutionPlan :=
  foldl (λ current candidate, if newer_plan candidate current then candidate else current) current plans.

Definition currentPlan (ctx : Identity.Context) (taskID : string) : prog (result ExecutionPlan) :=
  try (ask (At ctx (ListPlansByTask taskID))) (wrapped "list task execution plans: %w") (λ plans,
  match plans with
  | [] => Ret (Err (Errorf "task has no durable execution plan" []))
  | first :: rest =>
      let current := latest first rest in
      match validatePlan order current with
      | Err err => Ret (Err (wrapped "validate persisted execution plan: %w" err))
      | Ok _ => Ret (Ok current)
      end
  end).

Fixpoint selectModelNode (selected : option ExecutionNode) (nodes : list ExecutionNode) : result ExecutionNode :=
  match nodes with
  | [] => match selected with
          | None => Err (Errorf "execution plan has no model node to route" [])
          | Some node => Ok node
          end
  | node :: rest =>
      if Node_Type node !=? NodeModel then selectModelNode selected rest
      else match selected with
      | Some _ => Err (Errorf "task-level route activity cannot resolve multiple model nodes" [])
      | None => selectModelNode (Some node) rest
      end
  end.
Definition selectTaskRoutingNode (plan : ExecutionPlan) : result ExecutionNode := selectModelNode None (Plan_Nodes plan).

(** [strings.Join(parts, "\x00")]. *)
Definition nul : string := String (Ascii.ascii_of_nat 0) "".
Definition join_nul (parts : list string) : string :=
  match parts with [] => "" | first :: rest => foldl (λ acc s, acc +:+ nul +:+ s) first rest end.

Definition routeSelectionLookup (input : StepInput) : IdempotencyLookup :=
  let body := join_nul [RoutingActivityVersion; TrimSpace (Step_TenantID input); TrimSpace (Step_ProjectID input);
                        TrimSpace (Step_TaskID input); TrimSpace (Step_TraceID input)] in
  mkIdempotencyLookup (TrimSpace (Step_TenantID input)) (TrimSpace (Step_ProjectID input))
    ("workflow:task-route-select:" +:+ RoutingActivityVersion)
    (TrimSpace (Step_TaskID input) +:+ ":route:" +:+ RoutingActivityVersion)
    ("sha256:" +:+ sha256_hex J body).

(** A replayed selection must bind the task, a plan node, an ALLOW decision for
    that node and a target. *)
Definition bad_replay (taskID : string) (b : routeSelectionReplayPayload) : bool :=
  (Decision_TaskID (Payload_Decision b) !=? taskID) || (PlanRef_PlanID (Payload_Plan b) ==? "")
  || (PlanRef_Revision (Payload_Plan b) <? 1)%Z || (Payload_Node b ==? "") || (Policy_ID (Payload_Policy b) ==? "")
  || (Policy_Decision (Payload_Policy b) !=? PolicyAllow)
  || negb (Policy_PlanRevision (Payload_Policy b) =? PlanRef_Revision (Payload_Plan b))%Z
  || (Policy_NodeRef (Payload_Policy b) !=? Payload_Node b) || (Target_ID (Payload_Target b) ==? "")
  || (Snapshot_Digest (Target_Snapshot (Payload_Target b)) ==? "").

Definition same_binding (taskID : string) (planRef : PlanRevisionRef) (node : NodeID) (b : routeSelectionReplayPayload)
    : bool :=
  (Decision_TaskID (Payload_Decision b) ==? taskID) && (Payload_Plan b ==? planRef) && (Payload_Node b ==? node)
  && (Policy_ID (Payload_Policy b) !=? "") && (Policy_Decision (Payload_Policy b) ==? PolicyAllow).

Definition set_policy_version (r : RouteRequest) (v : string) : RouteRequest :=
  mkRouteRequest (Req_TaskID r) (Req_RouteClass r) (Req_RequiredCapabilities r) (Req_InferenceEffort r)
    (Req_ServiceTier r) (Req_EstimatedInputTokens r) (Req_EstimatedOutputTokens r) (Req_Budget r) (Req_Currency r)
    (Req_DataResidency r) (Req_EvidenceVersion r) v (Req_AllowDegraded r) (Req_RequireFreshSignals r) (Req_SignalMaxAge r).

Definition selection_event (id payload : string) (now : Time) : TaskEvent :=
  mkTaskEvent id "" "" "" 0 "TaskRouteSelected" (Build_TaskEventActor "system" "temporal-task-lifecycle") payload "" "" 1 now now.

Definition selection_record (l : IdempotencyLookup) (now : Time) : IdempotencyRecord :=
  mkIdempotencyRecord (Lookup_TenantID l) (Lookup_ProjectID l) (Lookup_Operation l) (Lookup_Key l)
    (Lookup_RequestDigest l) IdempotencyCompleted "" 0 "" "" now (Add now (24 * Hour)).

(** The deployment snapshot of the selected candidate. *)
Definition selectedDeployment (ctx : Identity.Context) (has_deployments : bool) (decision : RouteDecision)
    : prog (result (option Deployment)) :=
  let id := Candidate_DeploymentID (Decision_Selected decision) in
  if id ==? "" then Ret (Ok None)
  else if negb has_deployments then Ret (Err (Errorf "selected deployment requires deployment repository" []))
  else try (ask (At ctx (GetDeployment id))) (wrapped "load selected deployment snapshot: %w") (λ d, Ret (Ok (Some d))).

(** The end of [Route]: freeze the target and commit the selection. *)
Definition commitSelection (ctx : Identity.Context) (input : StepInput) (task : Task) (plan : ExecutionPlan)
    (node : ExecutionNode) (policy : PolicyDecisionRecord) (decision : RouteDecision) (target : ExecutionTarget)
    : prog (result unit) :=
  let lookup := routeSelectionLookup input in
  now ← ask (At ctx Now);
  match enc_selection J (mkSelectionEvidence (Decision_ID decision) (Plan_ID plan) (Plan_Revision plan) (Node_ID node) policy target) with
  | Err err => Ret (Err (wrapped "encode route selection event: %w" err))
  | Ok payload =>
      eventID ← ask (At ctx (NewID "task-event"));
      let planRef := Build_PlanRevisionRef (Plan_ID plan) (Plan_Revision plan) in
      result ← ask (At ctx (CommitSelection
        (mkRouteSelectionCommit (set_task_updated task now)
           (mkSelectionPayload planRef (Node_ID node) decision policy target)
           (selection_event eventID payload now) (selection_record lookup now))));
      match result with
      | Err err =>
          replay ← ask (At ctx (ResolveSelection lookup));
          match replay with
          | Ok (Some b) =>
              if same_binding (Task_ID task) planRef (Node_ID node) (SelectionResult_Payload b) then Ret (Ok tt)
              else Ret (Err (wrapped "commit route selection: %w" err))
          | _ => Ret (Err (wrapped "commit route selection: %w" err))
          end
      | Ok b =>
          if negb (same_binding (Task_ID task) planRef (Node_ID node) (SelectionResult_Payload b))
             || (Snapshot_Digest (Target_Snapshot (Payload_Target (SelectionResult_Payload b))) ==? "")
          then Ret (Err (NewNonRetryableApplicationError ErrorTypeRouteSelectionInconsistent None))
          else Ret (Ok tt)
      end
  end.

(** [DurableRoutingActivity.Route]. *)
Definition Route (configured has_deployments : bool) (input : StepInput) : prog (result unit) :=
  if negb configured then Ret (Err (Errorf "durable routing activity is not fully configured" []))
  else if incomplete input
  then Ret (Err (Errorf "routing step requires tenant, project, task and trace identity" [])) else
  let ctx := executionWorkflowProjectContext input in
  try (ask (At ctx (ResolveSelection (routeSelectionLookup input)))) id (λ replay,
  match replay with
  | Some b =>
      if bad_replay (Step_TaskID input) (SelectionResult_Payload b)
      then Ret (Err (NewNonRetryableApplicationError ErrorTypeRouteSelectionInconsistent None)) else Ret (Ok tt)
  | None =>
  try (ask (At ctx (GetTask (Step_TaskID input)))) (wrapped "load task for routing: %w") (λ task,
  if out_of_scope task input then Ret (Err ErrLifecycleScope)
  else if Task_Status task !=? TaskRouting
  then Ret (Err (Errorw "%w: cannot select route from %s" [AStr (TaskStatus_string (Task_Status task))] ErrInvalidTaskTransition))
  else if Task_RouteDecisionID task !=? ""
  then Ret (Err (NewNonRetryableApplicationError ErrorTypeRouteSelectionInconsistent None)) else
  try (currentPlan ctx (Task_ID task)) id (λ plan,
  try (ask (At ctx (GetGoal (Plan_GoalRef plan)))) (wrapped "load routing goal: %w") (λ goal,
  if Goal_TaskRef goal !=? Task_ID task then Ret (Err (Errorf "routing goal does not belong to task" [])) else
  match selectTaskRoutingNode plan with
  | Err err => Ret (Err err)
  | Ok node =>
  try (ask (At ctx (Evaluate task goal plan node))) (wrapped "evaluate routing policy: %w") (λ policy,
  match Policy_Decision policy with
  | PolicyDeny => Ret (Err (NewNonRetryableApplicationError ErrorTypeRoutePolicyDenied None))
  | PolicyRequireApproval => Ret (Err (NewNonRetryableApplicationError ErrorTypeRouteApprovalRequired None))
  | PolicyAllow =>
      try (ask (At ctx (BuildRequest task goal plan node))) (wrapped "build route request: %w") (λ request,
      try (ask (At ctx (PlanRoute (set_policy_version request (Policy_PolicyVersion policy))))) (wrapped "plan route: %w") (λ decision,
      if Decision_TaskID decision !=? Task_ID task
      then Ret (Err (Errorf "router returned decision for a different task" [])) else
      try (selectedDeployment ctx has_deployments decision) id (λ deployment,
      match TargetFromRouteDecision J decision deployment with
      | Err err => Ret (Err (wrapped "freeze execution target: %w" err))
      | Ok target => commitSelection ctx input task plan node policy decision target
      end)))
  | PolicyDecisionOther d => Ret (Err (Errorf "routing policy returned unknown decision %q" [AStr d]))
  end)
  end)))
  end).

(** ** Execution *)

Definition validExecutionBinding (taskID : string) (b : routeSelectionReplayPayload) : bool :=
  (Decision_TaskID (Payload_Decision b) ==? taskID) && (PlanRef_PlanID (Payload_Plan b) !=? "")
  && (0 <? PlanRef_Revision (Payload_Plan b))%Z && (Payload_Node b !=? "")
  && (Policy_ID (Payload_Policy b) !=? "") && (Policy_Decision (Payload_Policy b) ==? PolicyAllow)
  && (Policy_PlanRevision (Payload_Policy b) =? PlanRef_Revision (Payload_Plan b))%Z
  && (Policy_NodeRef (Payload_Policy b) ==? Payload_Node b)
  && (Target_ID (Payload_Target b) !=? "") && (0 <? Target_Revision (Payload_Target b))%Z
  && negb (blank (Snapshot_Digest (Target_Snapshot (Payload_Target b)))).

Definition preparedNodeFromFrozenBinding (node : ExecutionNode) (b : routeSelectionReplayPayload) : result PreparedNode :=
  if (Policy_NodeRef (Payload_Policy b) !=? Node_ID node)
     || negb (Policy_PlanRevision (Payload_Policy b) =? PlanRef_Revision (Payload_Plan b))%Z
  then Err (Errorf "frozen policy does not match plan node" [])
  else
    let cost := Candidate_EstimatedCost (Decision_Selected (Payload_Decision b)) in
    if f_lt cost f_zero then Err (Errorf "frozen route estimated cost cannot be negative" []) else
    let target := Payload_Target b in
    Ok (mkPreparedNode node target (Payload_Policy b)
          (mkBudgetEstimate cost 1 (if Target_Type target ==? TargetModel then 1 else 0)
             (if Target_Type target ==? TargetTool then 1 else 0))).

Definition nodeByID (plan : ExecutionPlan) (id : NodeID) : result ExecutionNode :=
  match List.find (λ node, Node_ID node ==? id) (Plan_Nodes plan) with
  | Some node => Ok node
  | None => Err (Errorf "frozen node %s is not present in plan %s@%d" [AStr id; AStr (Plan_ID plan); AInt (Plan_Revision plan)])
  end.

Definition retryClassAllowed (allowed : list ErrorClass) (actual : ErrorClass) : bool :=
  (actual !=? ErrorClassZero) && existsb (λ item, item ==? actual) allowed.

Definition isMutationNode (node : ExecutionNode) : bool := isMutation (Effect_Class (Node_Effect node)).

Definition execution_id (task : Task) (plan : ExecutionPlan) : ExecutionID :=
  "execution/" +:+ Task_ID task +:+ "/" +:+ Plan_ID plan +:+ "@" +:+ Itoa (Plan_Revision plan) +:+ "/" +:+ ExecutionActivityVersion.

Definition CountersZero : AccountingCounters := Build_AccountingCounters f_zero 0 0 0.

Definition new_execution (task : Task) (goal : Goal) (plan : ExecutionPlan) (now : Time) : Execution :=
  {| Execution_ID := execution_id task plan;
     Execution_TaskRef := Task_ID task;
     Execution_GoalRef := Goal_ID goal;
     Execution_PlanRef := Build_PlanRevisionRef (Plan_ID plan) (Plan_Revision plan);
     Execution_Identity := Build_ExecIdentity "system:temporal-task-lifecycle" (Task_TenantID task);
     Execution_PolicyContext := Build_PolicyContext "" "";
     Execution_Budget := Build_BudgetState (Goal_Budget goal) CountersZero CountersZero;
     Execution_Status := Build_ExecutionStatus ExecutionRunning [];
     Execution_Accounting := Build_Accounting f_zero f_zero 0%Z;
     Execution_CreatedAt := now;
     Execution_UpdatedAt := now |}.

Definition ensureExecution (ctx : Identity.Context) (task : Task) (goal : Goal) (plan : ExecutionPlan) (now : Time)
    : prog (result Execution) :=
  let id := execution_id task plan in
  existing ← ask (At ctx (GetExecution id));
  match existing with
  | Ok existing => Ret (Ok existing)
  | Err err =>
      if negb (errors_Is err "repository.ErrNotFound") then Ret (Err (wrapped "load durable Execution: %w" err)) else
      created ← ask (At ctx (CreateExecution (new_execution task goal plan now)));
      match created with
      | Ok created => Ret (Ok created)
      | Err createErr =>
          again ← ask (At ctx (GetExecution id));
          match again with
          | Ok existing => Ret (Ok existing)
          | Err _ => Ret (Err (wrapped "create durable Execution: %w" createErr))
          end
      end
  end.

Definition runtime_registration (item : Execution) (node : ExecutionNode) : NodeRuntimeRecord :=
  mkNodeRuntimeRecord (Execution_ID item) (PlanRef_Revision (Execution_PlanRef item)) (Node_ID node) NodeReady
    (Effect_Class (Node_Effect node)) (Effect_RetrySafe (Node_Effect node)) (Effect_IdempotencyKey (Node_Effect node))
    0 0 None None 0%Z.

Definition get_runtime (ctx : Identity.Context) (item : Execution) (node : ExecutionNode)
    : prog (result (NodeRuntimeRecord * option NodeLease)) :=
  ask (At ctx (GetRuntime (Execution_ID item) (PlanRef_Revision (Execution_PlanRef item)) (Node_ID node))).

Definition ensureRuntime (ctx : Identity.Context) (item : Execution) (node : ExecutionNode) : prog (result NodeRuntimeRecord) :=
  found ← get_runtime ctx item node;
  match found with
  | Ok (record, _) => Ret (Ok record)
  | Err err =>
      if negb (errors_Is err "ErrNodeRuntimeNotFound") then Ret (Err (wrapped "load execution node runtime: %w" err)) else
      registered ← ask (At ctx (Register (runtime_registration item node)));
      match registered with
      | Err e =>
          if negb (errors_Is e "ErrNodeRuntimeExists") then Ret (Err (wrapped "register execution node runtime: %w" e))
          else try (get_runtime ctx item node) (wrapped "reload execution node runtime: %w") (λ r, Ret (Ok (fst r)))
      | Ok _ => try (get_runtime ctx item node) (wrapped "reload execution node runtime: %w") (λ r, Ret (Ok (fst r)))
      end
  end.

Definition max_attempts (node : ExecutionNode) : Z :=
  if (MaxAttempts (Node_RetryPolicy node) <=? 0)%Z then 1 else MaxAttempts (Node_RetryPolicy node).

Definition prepareRetry (ctx : Identity.Context) (item : Execution) (node : ExecutionNode) : prog (result unit) :=
  let revision := PlanRef_Revision (Execution_PlanRef item) in
  try (ask (At ctx (ListAttempts (Execution_ID item) revision (Node_ID node)))) (wrapped "list execution attempts for retry: %w") (λ attempts,
  match last attempts with
  | None => Ret (Err retryNotAllowedError)
  | Some latest =>
      if (max_attempts node <=? Attempt_AttemptNumber (Record_Attempt latest))%Z then Ret (Err retryNotAllowedError)
      else if negb (Effect_RetrySafe (Node_Effect node)) || isMutationNode node then Ret (Err retryNotAllowedError)
      else if negb (retryClassAllowed (RetryOn (Node_RetryPolicy node)) (Attempt_ErrorClass (Record_Attempt latest)))
      then Ret (Err retryNotAllowedError)
      else try (ask (At ctx (RequeueFailed (Execution_ID item) revision (Node_ID node))))
             (wrapped "requeue failed execution node: %w") (λ _, Ret (Ok tt))
  end).

(** The end of [Execute]: hand the frozen candidate to the worker and require the
    node to have succeeded. *)
Definition runNode (ctx : Identity.Context) (item : Execution) (node : ExecutionNode) (b : routeSelectionReplayPayload)
    (runtime : NodeRuntimeRecord) : prog (result unit) :=
  if (Runtime_State runtime !=? NodeReady) && (Runtime_State runtime !=? NodeRunning)
  then Ret (Err (Errorf "execution node %s is not executable from state %s"
                   [AStr (Node_ID node); AStr (NodeState_string (Runtime_State runtime))])) else
  match preparedNodeFromFrozenBinding node b with
  | Err _ => Ret (Err bindingInconsistentError)
  | Ok candidate =>
      done ← ask (At ctx (Execute item candidate));
      match snd done with
      | Some err => Ret (Err err)
      | None =>
          try (get_runtime ctx item node) (wrapped "load completed execution node: %w") (λ completed,
          if Runtime_State (fst completed) !=? NodeSucceeded
          then Ret (Err (Errorf "worker returned success but node %s is %s"
                           [AStr (Node_ID node); AStr (NodeState_string (Runtime_State (fst completed)))]))
          else Ret (Ok tt))
      end
  end.

(** [DurableExecutionActivity.Execute]. *)
Definition ExecuteStep (configured : bool) (input : StepInput) : prog (result unit) :=
  if negb configured then Ret (Err (Errorf "durable execution activity is not fully configured" []))
  else if incomplete input
  then Ret (Err (Errorf "execution step requires tenant, project, task and trace identity" [])) else
  let ctx := executionWorkflowProjectContext input in
  try (ask (At ctx (GetTask (Step_TaskID input)))) (wrapped "load task for execution: %w") (λ task,
  if out_of_scope task input then Ret (Err ErrLifecycleScope)
  else if Task_Status task !=? TaskExecuting
  then Ret (Err (Errorw "%w: cannot execute from %s" [AStr (TaskStatus_string (Task_Status task))] ErrInvalidTaskTransition)) else
  try (ask (At ctx (ResolveSelection (routeSelectionLookup input)))) (wrapped "resolve frozen route selection: %w") (λ found,
  match found with
  | None => Ret (Err bindingInconsistentError)
  | Some selection =>
  let b := SelectionResult_Payload selection in
  if negb (validExecutionBinding (Task_ID task) b) then Ret (Err bindingInconsistentError) else
  try (ask (At ctx (GetPlan (PlanRef_PlanID (Payload_Plan b)) (PlanRef_Revision (Payload_Plan b)))))
      (wrapped "load frozen execution plan: %w") (λ plan,
  match validatePlan order plan with
  | Err err => Ret (Err (NewNonRetryableApplicationError ErrorTypeExecutionBindingInconsistent (Some err)))
  | Ok _ =>
  if (Plan_ID plan !=? PlanRef_PlanID (Payload_Plan b)) || negb (Plan_Revision plan =? PlanRef_Revision (Payload_Plan b))%Z
  then Ret (Err bindingInconsistentError) else
  match nodeByID plan (Payload_Node b) with
  | Err _ => Ret (Err bindingInconsistentError)
  | Ok node =>
  try (ask (At ctx (GetGoal (Plan_GoalRef plan)))) (wrapped "load execution goal: %w") (λ goal,
  if Goal_TaskRef goal !=? Task_ID task then Ret (Err bindingInconsistentError) else
  now ← ask (At ctx Now);
  try (ensureExecution ctx task goal plan now) id (λ item,
  if (Execution_TaskRef item !=? Task_ID task) || (Execution_GoalRef item !=? Goal_ID goal)
     || (Execution_PlanRef item !=? Payload_Plan b)
  then Ret (Err bindingInconsistentError) else
  try (ensureRuntime ctx item node) id (λ runtime,
  if Runtime_State runtime ==? NodeSucceeded then Ret (Ok tt)
  else if Runtime_State runtime ==? NodeFailed then
    try (prepareRetry ctx item node) id (λ _,
    try (get_runtime ctx item node) (wrapped "reload requeued execution node: %w") (λ r,
    runNode ctx item node b (fst r)))
  else runNode ctx item node b runtime)))
  end
  end)
  end)).

End activities.

(** ** The backends that replace one step of another *)
Section adapters.
Context {W : Type} (Base : Lifecycle.LifecycleActivities W) (activity : StepInput → W → result unit * W).

Definition PlanningLifecycleActivities : Lifecycle.LifecycleActivities W := {|
  Lifecycle.LoadTask := Lifecycle.LoadTask; Lifecycle.TransitionTask := Lifecycle.TransitionTask;
  Lifecycle.PlanStub := activity; Lifecycle.RouteStub := Lifecycle.RouteStub;
  Lifecycle.ExecuteStub := Lifecycle.ExecuteStub; Lifecycle.ValidateStub := Lifecycle.ValidateStub |}.

Definition RoutingLifecycleActivities : Lifecycle.LifecycleActivities W := {|
  Lifecycle.LoadTask := Lifecycle.LoadTask; Lifecycle.TransitionTask := Lifecycle.TransitionTask;
  Lifecycle.PlanStub := Lifecycle.PlanStub; Lifecycle.RouteStub := activity;
  Lifecycle.ExecuteStub := Lifecycle.ExecuteStub; Lifecycle.ValidateStub := Lifecycle.ValidateStub |}.

Definition ExecutionLifecycleActivities : Lifecycle.LifecycleActivities W := {|
  Lifecycle.LoadTask := Lifecycle.LoadTask; Lifecycle.TransitionTask := Lifecycle.TransitionTask;
  Lifecycle.PlanStub := Lifecycle.PlanStub; Lifecycle.RouteStub := Lifecycle.RouteStub;
  Lifecycle.ExecuteStub := activity; Lifecycle.ValidateStub := Lifecycle.ValidateStub |}.
End adapters.
End Activities.
