(* ===== verification/ActivitySpec.v ===== *)
(** * ActivitySpec: what the durable steps ask for and when they succeed

    The theorems hold for every answer of the stores, the gate, the router and
    the worker ([Programs.asks]), so for every implementation and for whatever
    other processes do between two requests; a run may also stop anywhere, as when
    the process crashes. *)
From S2P Require Import Prelude Identity Domain ExecTypes ExecPlan Budget Supervisor Runner LeaseSchema LeaseStore Worker.
From S2P Require Import RouteTypes TaskSchema TaskStore GoStrings Programs Order Pricing ModelRuntime Lifecycle LifecycleMemory Activities.

Module ActivitySpec.
Import Domain RouteTypes TaskStore Activities.
Import ExecPlan(well_formed, range_order, validatePlan, validatePlan_wf).
Import Lifecycle(StepInput, mkStepInput, Step_TenantID, Step_ProjectID, Step_TaskID, Step_TraceID).
Import Supervisor(PreparedNode, mkPreparedNode, Prepared_Node, Prepared_Target, Prepared_Policy, Prepared_Estimate).
Import Budget(mkBudgetEstimate, Estimate_Cost).
Import Worker(PersistentWorker, w_workerID, w_leaseTTL, w_has_coordinator, w_has_budget, w_has_invoker).

Abbreviation history := (list (exchange Ev)).

(** The requests with effects on nodes. *)
Definition is_execute (x : exchange Ev) : bool :=
  match x with Asked (At _ r) _ => match r with Execute _ _ => true | _ => false end end.
Definition is_active (x : exchange Ev) : bool :=
  match x with Asked (At _ r) _ => match r with Execute _ _ | RequeueFailed _ _ _ => true | _ => false end end.
Definition silent (t : history) : Prop := existsb is_active t = false.

Lemma silent_app t t' : silent (t ++ t') ↔ silent t ∧ silent t'.
Proof. unfold silent. rewrite existsb_app. apply orb_false_iff. Qed.

Lemma silent_execute t : silent t → existsb is_execute t = false.
Proof.
  unfold silent. induction t as [|[X [ctx r] x] t IH]; simpl; [done|].
  rewrite !orb_false_iff. intros [Hr Ht]. split; [by destruct r|by apply IH].
Qed.

(** A worker with everything it needs. *)
Definition ready (w : PersistentWorker) : bool :=
  negb (blank (w_workerID w)) && (0 <? w_leaseTTL w)%Z && w_has_coordinator w && w_has_budget w && w_has_invoker w.

Section execution.
Variable J : Encoders.
Variable order : ExecutionPlan → list NodeID.
Hypothesis order_visits : ∀ plan, range_order (order plan) (Plan_Nodes plan).
Variable input : StepInput.
Let ctx : option Identity.Principal := executionWorkflowProjectContext input.

Abbreviation answered h r x := (Asked (At ctx r) x ∈ h).

(** The binding that was frozen when the task was routed, as the exchanges [h]
    have shown it, and the plan, node and goal it names. *)
Record frozen (h : history) (task : Task) (b : routeSelectionReplayPayload) (plan : ExecutionPlan)
    (node : ExecutionNode) (goal : Goal) : Prop := {
  frozen_task : answered h (GetTask (Step_TaskID input)) (Ok task)
    ∧ (Task_TenantID task, Task_ProjectID task, Task_TraceID task)
      = (Step_TenantID input, Step_ProjectID input, Step_TraceID input)
    ∧ Task_Status task = TaskExecuting;
  frozen_binding : (∃ sel, answered h (ResolveSelection (routeSelectionLookup J input)) (Ok (Some sel))
                           ∧ SelectionResult_Payload sel = b)
    ∧ Decision_TaskID (Payload_Decision b) = Task_ID task
    ∧ Policy_ID (Payload_Policy b) ≠ "" ∧ Policy_Decision (Payload_Policy b) = PolicyAllow
    ∧ Policy_PlanRevision (Payload_Policy b) = PlanRef_Revision (Payload_Plan b)
    ∧ Policy_NodeRef (Payload_Policy b) = Payload_Node b
    ∧ Target_ID (Payload_Target b) ≠ "" ∧ (0 < Target_Revision (Payload_Target b))%Z
    ∧ blank (Snapshot_Digest (Target_Snapshot (Payload_Target b))) = false;
  frozen_plan : answered h (GetPlan (PlanRef_PlanID (Payload_Plan b)) (PlanRef_Revision (Payload_Plan b))) (Ok plan)
    ∧ well_formed plan ∧ Payload_Plan b = Build_PlanRevisionRef (Plan_ID plan) (Plan_Revision plan)
    ∧ node ∈ Plan_Nodes plan ∧ Node_ID node = Payload_Node b;
  frozen_goal : answered h (GetGoal (Plan_GoalRef plan)) (Ok goal) ∧ Goal_TaskRef goal = Task_ID task
}.

Definition belongs (item : Execution) (task : Task) (b : routeSelectionReplayPayload) (goal : Goal) : Prop :=
  Execution_TaskRef item = Task_ID task ∧ Execution_GoalRef item = Goal_ID goal ∧ Execution_PlanRef item = Payload_Plan b.

(** What the worker may be given. *)
Definition may_execute (h : history) (item : Execution) (candidate : PreparedNode) : Prop :=
  existsb is_execute h = false
  ∧ ∃ task b plan goal, frozen h task b plan (Prepared_Node candidate) goal ∧ belongs item task b goal
  ∧ (Prepared_Target candidate, Prepared_Policy candidate) = (Payload_Target b, Payload_Policy b)
  ∧ Estimate_Cost (Prepared_Estimate candidate) = Candidate_EstimatedCost (Decision_Selected (Payload_Decision b))
  ∧ f_lt (Estimate_Cost (Prepared_Estimate candidate)) f_zero = false
  ∧ ∃ runtime lease, last h = Some (Asked (At ctx (GetRuntime (Execution_ID item)
        (PlanRef_Revision (Execution_PlanRef item)) (Node_ID (Prepared_Node candidate)))) (Ok (runtime, lease)))
      ∧ (Runtime_State runtime = NodeReady ∨ Runtime_State runtime = NodeRunning).

(** When a failed node may be queued again. *)
Definition may_requeue (h : history) (id : ExecutionID) (revision : Z) (nodeID : NodeID) : Prop :=
  existsb is_active h = false
  ∧ ∃ task b plan node goal item, frozen h task b plan node goal ∧ belongs item task b goal
  ∧ (id, revision, nodeID) = (Execution_ID item, PlanRef_Revision (Execution_PlanRef item), Node_ID node)
  ∧ Effect_RetrySafe (Node_Effect node) = true ∧ isMutation (Effect_Class (Node_Effect node)) = false
  ∧ (∃ runtime lease, answered h (GetRuntime id revision nodeID) (Ok (runtime, lease)) ∧ Runtime_State runtime = NodeFailed)
  ∧ ∃ attempts latest, answered h (ListAttempts id revision nodeID) (Ok attempts) ∧ last attempts = Some latest
      ∧ (Attempt_AttemptNumber (Record_Attempt latest) < Z.max 1 (MaxAttempts (Node_RetryPolicy node)))%Z
      ∧ Attempt_ErrorClass (Record_Attempt latest) ∈ RetryOn (Node_RetryPolicy node).

Definition permitted {X} (h : history) (e : Ev X) : Prop :=
  match e with At c r => c = ctx ∧
    match r with
    | Execute item candidate => may_execute h item candidate
    | RequeueFailed id revision node => may_requeue h id revision node
    | _ => True
    end
  end.
Abbreviation safe := (wp (@permitted)).

Lemma try_safe {A B} h (p : prog (result A)) wrap (k : A → prog (result B)) (Q : history → result B → Prop) :
  (∀ h e, Q h (Err e)) → safe h p (λ h r, ∀ a, r = Ok a → safe h (k a) Q) → safe h (try p wrap k) Q.
Proof.
  intros HQ Hp. apply wp_try. eapply wp_mono; [|exact Hp].
  intros h' [a|e] Hr; simpl; [by apply Hr|by apply HQ].
Qed.

(** ** The parts of the step *)

Lemma ensureExecution_safe h task goal plan now (Q : history → result Execution → Prop) :
  (∀ t r, silent t → Q (h ++ t) r) → safe h (ensureExecution ctx task goal plan now) Q.
Proof.
  intros HQ. simpl. split; [done|]. intros [item|e]; simpl; [by apply HQ|].
  destruct (negb _); simpl; [by apply HQ|]. split; [done|]. intros [item|e2]; simpl.
  { rewrite <- app_assoc. by apply HQ. }
  split; [done|]. intros [item|e3]; simpl; rewrite <- !app_assoc; by apply HQ.
Qed.

Abbreviation runtime_of item node := (At ctx (GetRuntime (Execution_ID item) (PlanRef_Revision (Execution_PlanRef item)) (Node_ID node))).

Lemma ensureRuntime_safe h item node (Q : history → result NodeRuntimeRecord → Prop) :
  (∀ t r, silent t →
     (∀ runtime, r = Ok runtime → ∃ lease, last (h ++ t) = Some (Asked (runtime_of item node) (Ok (runtime, lease)))) →
     Q (h ++ t) r) →
  safe h (ensureRuntime ctx item node) Q.
Proof.
  intros HQ. simpl. split; [done|]. intros [[record lease]|e]; simpl.
  { apply HQ; [done|]. intros ? [= <-]. exists lease. by rewrite last_snoc. }
  destruct (negb _); simpl; [by apply HQ|]. split; [done|].
  assert (∀ x, safe (((h ++ [Asked (runtime_of item node) (Err e)]) ++ [Asked (At ctx (Register (runtime_registration item node))) x]))
    (try (get_runtime ctx item node) (wrapped "reload execution node runtime: %w") (λ r, Ret (Ok (fst r)))) Q) as Hreload.
  { intros x. simpl. split; [done|]. intros [[record lease]|e2]; simpl; rewrite <- !app_assoc; apply HQ; try done.
    intros ? [= <-]. exists lease. by rewrite !app_assoc, last_snoc. }
  intros [u|e2]; [apply Hreload|]. destruct (negb _); [|apply Hreload]. simpl. rewrite <- !app_assoc. by apply HQ.
Qed.

(** What a step that succeeded has seen last: the node of the frozen binding,
    SUCCEEDED. *)
Definition succeeded (h : history) (r : result unit) : Prop :=
  r = Ok tt →
  ∃ task b plan node goal item runtime lease, frozen h task b plan node goal ∧ belongs item task b goal
  ∧ last h = Some (Asked (runtime_of item node) (Ok (runtime, lease))) ∧ Runtime_State runtime = NodeSucceeded.

Lemma frozen_mono h t task b plan node goal : frozen h task b plan node goal → frozen (h ++ t) task b plan node goal.
Proof.
  intros [(? & ?) ((sel & ? & ?) & ?) (? & ?) (? & ?)]. split; (split; [|done]); try (apply elem_of_app; by left).
  exists sel. split; [apply elem_of_app; by left|done].
Qed.

Lemma runNode_safe h item node b runtime lease task plan goal :
  existsb is_execute h = false → frozen h task b plan node goal → belongs item task b goal →
  last h = Some (Asked (runtime_of item node) (Ok (runtime, lease))) →
  safe h (runNode ctx item node b runtime) succeeded.
Proof.
  intros Hex Hf Hb Hl. unfold runNode. destruct (_ && _) eqn:Hst; [done|].
  destruct (preparedNodeFromFrozenBinding node b) as [c|e] eqn:Hp; [|done].
  unfold preparedNodeFromFrozenBinding in Hp. destruct (_ || _); [done|]. destruct (f_lt _ _) eqn:Hc; [done|].
  injection Hp as <-. simpl. split; [split; [done|]|].
  - split; [done|]. exists task, b, plan, goal. split_and!; try done. exists runtime, lease. split; [done|].
    apply andb_false_iff in Hst. by destruct Hst; go_props; [left|right].
  - intros [res [err|]]; simpl; [done|]. split; [done|]. intros [[r l]|e]; simpl; [|done].
    destruct (Runtime_State r !=? NodeSucceeded) eqn:Hs; simpl; [done|]. intros _. exists task, b, plan, node, goal, item, r, l.
    split_and!; [by apply frozen_mono, frozen_mono|done|by rewrite last_snoc|by go_props].
Qed.

Lemma prepareRetry_safe h item node task b plan goal runtime lease (Q : history → result unit → Prop) :
  silent h → frozen h task b plan node goal → belongs item task b goal →
  answered h (GetRuntime (Execution_ID item) (PlanRef_Revision (Execution_PlanRef item)) (Node_ID node)) (Ok (runtime, lease)) →
  Runtime_State runtime = NodeFailed →
  (∀ t r, existsb is_execute t = false → Q (h ++ t) r) →
  safe h (prepareRetry ctx item node) Q.
Proof.
  intros Hs Hf Hb Hr Hst HQ. unfold prepareRetry. simpl. split; [done|]. intros [attempts|e]; simpl; [|by apply HQ].
  destruct (last attempts) as [latest|] eqn:Hla; simpl; [|by apply HQ].
  destruct (_ <=? _)%Z eqn:Hn; simpl; [by apply HQ|].
  destruct (_ || _) eqn:Hsafe; simpl; [by apply HQ|]. destruct (negb (retryClassAllowed _ _)) eqn:Hcl; simpl; [by apply HQ|].
  split; [split; [done|]|].
  - split; [by apply silent_app|]. exists task, b, plan, node, goal, item.
    unfold isMutationNode, retryClassAllowed, max_attempts in *. go_props.
    split_and!; try done; [by apply frozen_mono|exists runtime, lease; split; [mem|done]|].
    exists attempts, latest. split_and!; [mem|done| |].
    + destruct (MaxAttempts _ <=? 0)%Z eqn:E; go_props; lia.
    + match goal with H : existsb _ _ = true |- _ => apply existsb_exists in H as (c & Hin & Hc) end.
      go_props. subst. by apply list_elem_of_In.
  - intros [u|e]; simpl; rewrite <- app_assoc; by apply HQ.
Qed.

Lemma ExecuteStep_safe configured : safe [] (ExecuteStep J order configured input) succeeded.
Proof.
  assert (∀ h e, succeeded h (Err e)) as Herr by done.
  unfold ExecuteStep. destruct (negb configured); [done|]. destruct (incomplete input); [done|]. fold ctx.
  simpl. split; [done|]. intros [task|e]; [|done]. destruct (out_of_scope task input) eqn:Hsc; [done|].
  destruct (Task_Status task !=? TaskExecuting) eqn:Hts; [done|].
  simpl. split; [done|]. intros [[sel|]|e]; [|done..]. set (b := SelectionResult_Payload sel).
  destruct (validExecutionBinding (Task_ID task) b) eqn:Hvb; [|done].
  simpl. split; [done|]. intros [plan|e]; [|done]. destruct (validatePlan order plan) as [[]|e] eqn:Hvp; [|done].
  apply validatePlan_wf in Hvp; [|done].
  destruct (_ || _) eqn:Hpr; [done|]. destruct (nodeByID plan (Payload_Node b)) as [node|e] eqn:Hnd; [|done].
  simpl. split; [done|]. intros [goal|e]; [|done]. destruct (Goal_TaskRef goal !=? Task_ID task) eqn:Hg; [done|].
  apply wp_Do; [done|]. intros now.
  match goal with |- wp _ ?h _ _ => set (h0 := h) end.
  assert (silent h0) as Hs0 by done.
  assert (frozen h0 task b plan node goal) as Hf.
  { unfold out_of_scope, validExecutionBinding, nodeByID in *. go_props.
    destruct (List.find _ _) as [n|] eqn:Hfind; [|done]. apply find_some in Hfind as [Hin Hid]. injection Hnd as ->. go_props.
    split.
    - split_and!; [unfold h0; mem|congruence|done].
    - split_and!; try done. exists sel. split; [unfold h0; mem|done].
    - split_and!; [unfold h0; mem|done| |by apply list_elem_of_In|done].
      destruct (Payload_Plan b). simpl in *. congruence.
    - split; [unfold h0; mem|congruence]. }
  clearbody h0. apply try_safe; [done|]. apply ensureExecution_safe. intros t1 r Ht1 item ->.
  clear Hpr. destruct ((Execution_TaskRef item !=? _) || _ || _) eqn:Hbel; [done|].
  assert (belongs item task b goal) as Hb by (unfold belongs; go_props; done).
  apply try_safe; [done|]. apply ensureRuntime_safe. intros t2 r Ht2 Hlast runtime ->.
  destruct (Hlast runtime eq_refl) as [lease Hl].
  assert (frozen ((h0 ++ t1) ++ t2) task b plan node goal) as Hf' by by apply frozen_mono, frozen_mono.
  assert (silent ((h0 ++ t1) ++ t2)) as Hs' by by rewrite !silent_app.
  set (h1 := (h0 ++ t1) ++ t2) in *. clearbody h1.
  destruct (Runtime_State runtime ==? NodeSucceeded) eqn:Hok.
  { intros _. go_props. by exists task, b, plan, node, goal, item, runtime, lease. }
  destruct (Runtime_State runtime ==? NodeFailed) eqn:Hfail; [|by eapply runNode_safe; eauto using silent_execute].
  apply try_safe; [done|]. eapply prepareRetry_safe; [done..| |by go_props|].
  { apply last_Some_elem_of in Hl. exact Hl. }
  intros t3 r Ht3 u3 ->. apply try_safe; [done|]. simpl. split; [done|]. intros x [r l] ->.
  eapply runNode_safe; [|by apply frozen_mono, frozen_mono|done|by rewrite last_snoc].
  rewrite !existsb_app, Ht3. simpl. by rewrite (silent_execute _ Hs').
Qed.

Lemma accepted h task b plan goal item candidate w :
  frozen h task b plan (Prepared_Node candidate) goal → belongs item task b goal →
  (Prepared_Target candidate, Prepared_Policy candidate) = (Payload_Target b, Payload_Policy b) →
  ready w = true → Execution_ID item ≠ "" →
  Policy_ExecutionRef (Prepared_Policy candidate) = "" ∨ Policy_ExecutionRef (Prepared_Policy candidate) = Execution_ID item →
  Worker.validate (Some w) item candidate = Ok tt.
Proof.
  intros [_ (_ & _ & Hpid & Hpd & Hprev & Hpn & Ht1 & Ht2 & Ht3) (_ & Hwf & Hplan & Hin & Hnid) _] (_ & _ & Hpr) [= Htgt Hpol] Hw Hid Hex.
  unfold ready in Hw. go_props. unfold Worker.validate. rewrite Hpr, Htgt, Hpol in *.
  assert (1 ≤ Plan_Revision plan)%Z as Hrev by (destruct Hwf; lia).
  assert (Node_ID (Prepared_Node candidate) ≠ "") as Hnode.
  { destruct Hwf as [_ _ _ _ Hids _ _ _ _]. rewrite Forall_forall in Hids. by apply Hids. }
  repeat match goal with H : _ = true |- _ => rewrite H | H : _ = false |- _ => rewrite H end.
  rewrite Hplan in *. simpl in *. rewrite Hprev, Hpn, Hpd, Hnid, Z.eqb_refl.
  rewrite !bool_decide_eq_false_2 by congruence.
  repeat match goal with |- context [(?a <? ?b)%Z] => destruct (Z.ltb_spec a b); [lia|] | |- context [(?a <=? ?b)%Z] => destruct (Z.leb_spec a b); [lia|] end.
  rewrite (bool_decide_eq_false_2 (Target_ID _ = "")), (bool_decide_eq_true_2 (PolicyAllow = PolicyAllow)),
    (bool_decide_eq_true_2 (Payload_Node b = Payload_Node b)) by done. simpl.
  rewrite andb_false_r. destruct Hex as [E|E]; rewrite E; [done|].
  by rewrite (bool_decide_eq_true_2 (Execution_ID item = Execution_ID item)), andb_false_r by done.
Qed.

(** C8. The worker runs what was routed.  Whatever the stores answer, and wherever a
    run stops, the execution step hands a node to the worker at most once, and
    only the node, target, policy decision and cost of the binding frozen when
    this task was routed: the task is EXECUTING and in scope, the policy decision
    allowed exactly this node of this plan revision, the stored plan is a valid
    DAG that contains the node, goal and execution belong to the task and to that
    revision, and the node was last seen READY or RUNNING.  Moreover a worker that
    is set up does not refuse what it is handed, if the execution has an id and
    the policy decision names no execution or this one. *)
Theorem worker_runs_the_frozen_route configured t c item candidate k :
  asks (ExecuteStep J order configured input) t (Do (At c (Execute item candidate)) k) →
  c = ctx ∧ may_execute t item candidate
  ∧ ∀ w, ready w = true → Execution_ID item ≠ "" →
      Policy_ExecutionRef (Prepared_Policy candidate) = "" ∨ Policy_ExecutionRef (Prepared_Policy candidate) = Execution_ID item →
      Worker.validate (Some w) item candidate = Ok tt.
Proof.
  intros H. destruct (wp_request _ _ _ _ _ _ _ (ExecuteStep_safe configured) H) as [Hc Hm].
  split_and!; [done..|]. intros w Hw Hid Hpol. destruct Hm as (_ & task & b & plan & goal & Hf & Hb & Htp & _).
  eapply accepted; eauto.
Qed.

(** Only harmless failures are retried.  The execution step queues a node again
    at most once, before it runs anything, and only if the node was seen FAILED,
    its effect is safe to repeat and not a mutation, its last attempt is below the
    attempt limit of the frozen plan, and that attempt failed in a way the plan
    allows to retry. *)
Theorem only_safe_nodes_are_retried configured t c id revision node k :
  asks (ExecuteStep J order configured input) t (Do (At c (RequeueFailed id revision node)) k) →
  c = ctx ∧ may_requeue t id revision node.
Proof. intros H. exact (wp_request _ _ _ _ _ _ _ (ExecuteStep_safe configured) H). Qed.

(** The step succeeds only after the node did: when it returns no error, the
    last thing it saw is the node of the frozen binding in the state SUCCEEDED. *)
Theorem execution_success_was_seen configured t :
  returns (ExecuteStep J order configured input) t (Ok tt) →
  ∃ task b plan node goal item runtime lease, frozen t task b plan node goal ∧ belongs item task b goal
  ∧ last t = Some (Asked (runtime_of item node) (Ok (runtime, lease))) ∧ Runtime_State runtime = NodeSucceeded.
Proof. intros H. exact (wp_returns _ _ _ _ _ (ExecuteStep_safe configured) H eq_refl). Qed.

End execution.
(** ** Routing *)

Lemma newer_plan_order : Order.weak_order newer_plan (λ _, True).
Proof.
  split.
  - intros x y _ _. unfold newer_plan, After. rewrite !orb_true_iff, !andb_true_iff, !orb_false_iff, !andb_false_iff.
    rewrite !Z.ltb_lt, !Z.ltb_ge, !Z.eqb_eq, !Z.eqb_neq. intros [[?|[? ?]]|[[? ?] ?]]; split_and!; try lia.
    right. by apply Order.bytes_lt_asym.
  - intros x y z _ _ _. unfold newer_plan, After. rewrite !orb_false_iff, !andb_false_iff.
    rewrite !Z.ltb_ge, !Z.eqb_neq. intros [[H1 H2] H3] [[H4 H5] H6]. split_and!; try lia.
    destruct (decide (Plan_CreatedAt z = Plan_CreatedAt x ∧ Plan_Revision z = Plan_Revision x)); [right|lia].
    assert (Plan_CreatedAt z = Plan_CreatedAt y ∧ Plan_CreatedAt y = Plan_CreatedAt x) as [E1 E2] by lia.
    assert (Plan_Revision z = Plan_Revision y ∧ Plan_Revision y = Plan_Revision x) as [E3 E4] by lia.
    apply Order.bytes_le_trans with (bytes (Plan_ID y)); [destruct H6 as [[?|?]|?]; [lia..|done]|destruct H3 as [[?|?]|?]; [lia..|done]].
Qed.

(** The plan that is routed is one of those listed, and none of them is newer. *)
Lemma latest_max first rest :
  latest first rest ∈ first :: rest ∧ Forall (λ p, newer_plan p (latest first rest) = false) (first :: rest).
Proof.
  destruct newer_plan_order as [Hasym Htrans].
  assert (newer_plan first first = false) as Hirr.
  { destruct (newer_plan first first) eqn:E; [|done]. by rewrite (Hasym first first) in E. }
  unfold latest. revert first Hirr. induction rest as [|p rest IH]; intros first Hirr; simpl.
  { split; [apply list_elem_of_here|by repeat constructor]. }
  destruct (newer_plan p first) eqn:Hp.
  - assert (newer_plan p p = false) as Hirr'.
    { destruct (newer_plan p p) eqn:E; [|done]. by rewrite (Hasym p p) in E. }
    destruct (IH p Hirr') as [Hin Hall]. split; [by apply list_elem_of_further|]. constructor; [|done].
    inversion_clear Hall as [|? ? Hh Ht]. eapply Htrans; [done..| |exact (Hasym _ _ I I Hp)]. exact Hh.
  - destruct (IH first Hirr) as [Hin Hall]. inversion_clear Hall as [|? ? Hh Ht]. split.
    + apply elem_of_cons in Hin as [->|Hin]; [apply list_elem_of_here|do 2 apply list_elem_of_further; exact Hin].
    + constructor; [done|]. constructor; [|done]. eapply Htrans; [done..|exact Hh|exact Hp].
Qed.

Lemma selectModelNode_spec nodes selected node :
  selectModelNode selected nodes = Ok node →
  option_list selected ++ List.filter (λ n, Node_Type n ==? NodeModel) nodes = [node].
Proof.
  revert selected. induction nodes as [|n nodes IH]; intros selected; simpl.
  - destruct selected; by intros [= <-].
  - destruct (Node_Type n ==? NodeModel); simpl; [|apply IH]. destruct selected; [done|]. intros H. exact (IH _ H).
Qed.

Section routing.
Variable J : Encoders.
Variable order : ExecutionPlan → list NodeID.
Hypothesis order_visits : ∀ plan, range_order (order plan) (Plan_Nodes plan).
Variable input : StepInput.
Let ctx : option Identity.Principal := executionWorkflowProjectContext input.

Abbreviation answered h r x := (Asked (At ctx r) x ∈ h).
Abbreviation lookup := (routeSelectionLookup J input).

Definition is_commit (x : exchange Ev) : bool :=
  match x with Asked (At _ r) _ => match r with CommitSelection _ => true | _ => false end end.

(** The task, the plan, the node and the goal the route is for. *)
Record routed_for (h : history) (task : Task) (plan : ExecutionPlan) (node : ExecutionNode) (goal : Goal) : Prop := {
  routed_task : answered h (GetTask (Step_TaskID input)) (Ok task)
    ∧ (Task_TenantID task, Task_ProjectID task, Task_TraceID task)
      = (Step_TenantID input, Step_ProjectID input, Step_TraceID input)
    ∧ Task_Status task = TaskRouting ∧ Task_RouteDecisionID task = "";
  routed_plan : (∃ plans, answered h (ListPlansByTask (Task_ID task)) (Ok plans) ∧ plan ∈ plans
                          ∧ Forall (λ p, newer_plan p plan = false) plans)
    ∧ well_formed plan
    ∧ List.filter (λ n, Node_Type n ==? NodeModel) (Plan_Nodes plan) = [node];
  routed_goal : answered h (GetGoal (Plan_GoalRef plan)) (Ok goal) ∧ Goal_TaskRef goal = Task_ID task
}.

(** What may be committed as the selected route. *)
Definition may_commit (h : history) (commit : RouteSelectionCommit) : Prop :=
  existsb is_commit h = false ∧ answered h (ResolveSelection lookup) (Ok None)
  ∧ ∃ task plan node goal policy decision deployment target, routed_for h task plan node goal
  ∧ answered h (Evaluate task goal plan node) (Ok policy) ∧ Policy_Decision policy = PolicyAllow
  ∧ (∃ request, answered h (PlanRoute request) (Ok decision) ∧ Req_PolicyVersion request = Policy_PolicyVersion policy)
  ∧ Decision_TaskID decision = Task_ID task
  ∧ (if Candidate_DeploymentID (Decision_Selected decision) ==? "" then deployment = None
     else ∃ d, answered h (GetDeployment (Candidate_DeploymentID (Decision_Selected decision))) (Ok d) ∧ deployment = Some d)
  ∧ TargetFromRouteDecision J decision deployment = Ok target
  ∧ Selection_Payload commit
    = mkSelectionPayload (Build_PlanRevisionRef (Plan_ID plan) (Plan_Revision plan)) (Node_ID node) decision policy target
  ∧ ∃ now, Selection_Task commit = set_task_updated task now ∧ Selection_Idempotency commit = selection_record lookup now.

Definition may_ask {X} (h : history) (e : Ev X) : Prop :=
  match e with At c r => c = ctx ∧ match r with CommitSelection commit => may_commit h commit | _ => True end end.
Abbreviation safe := (wp (@may_ask)).

(** A step that succeeded has seen a selection of this task with an ALLOW decision. *)
Definition selected (h : history) (r : result unit) : Prop :=
  r = Ok tt →
  ∃ sel, (answered h (ResolveSelection lookup) (Ok (Some sel)) ∨ ∃ commit, answered h (CommitSelection commit) (Ok sel))
  ∧ Policy_ID (Payload_Policy (SelectionResult_Payload sel)) ≠ ""
  ∧ Policy_Decision (Payload_Policy (SelectionResult_Payload sel)) = PolicyAllow
  ∧ (Decision_TaskID (Payload_Decision (SelectionResult_Payload sel)) = Step_TaskID input
     ∨ ∃ task, answered h (GetTask (Step_TaskID input)) (Ok task)
               ∧ Decision_TaskID (Payload_Decision (SelectionResult_Payload sel)) = Task_ID task).

Lemma routed_mono h t task plan node goal : routed_for h task plan node goal → routed_for (h ++ t) task plan node goal.
Proof.
  intros [(? & ?) ((ps & ? & ?) & ?) (? & ?)]. split; (split; [|done]); try (apply elem_of_app; by left).
  exists ps. split; [apply elem_of_app; by left|done].
Qed.

Lemma commitSelection_safe h task plan node goal policy decision deployment target request :
  existsb is_commit h = false → answered h (ResolveSelection lookup) (Ok None) → routed_for h task plan node goal →
  answered h (Evaluate task goal plan node) (Ok policy) → Policy_Decision policy = PolicyAllow →
  answered h (PlanRoute request) (Ok decision) → Req_PolicyVersion request = Policy_PolicyVersion policy →
  Decision_TaskID decision = Task_ID task →
  (if Candidate_DeploymentID (Decision_Selected decision) ==? "" then deployment = None
   else ∃ d, answered h (GetDeployment (Candidate_DeploymentID (Decision_Selected decision))) (Ok d) ∧ deployment = Some d) →
  TargetFromRouteDecision J decision deployment = Ok target →
  safe h (commitSelection J ctx input task plan node policy decision target) selected.
Proof.
  intros Hc Hn Hr He Hp Hreq Hver Hd Hdep Ht. unfold commitSelection. simpl. split; [done|]. intros now.
  destruct (enc_selection J _) as [payload|e]; [|done]. simpl. split; [done|]. intros eventID. simpl.
  match goal with |- context [Asked (At ctx (CommitSelection ?c)) _] => set (commit := c) end.
  assert (∀ sel h', answered h' (GetTask (Step_TaskID input)) (Ok task) →
    (answered h' (ResolveSelection lookup) (Ok (Some sel)) ∨ ∃ commit, answered h' (CommitSelection commit) (Ok sel)) →
    same_binding (Task_ID task) (Build_PlanRevisionRef (Plan_ID plan) (Plan_Revision plan)) (Node_ID node)
      (SelectionResult_Payload sel) = true → selected h' (Ok tt)) as Hsel.
  { intros sel h' Htask Hans Hb _. unfold same_binding in Hb. go_props. exists sel. split_and!; try done.
    right. exists task. split; [done|congruence]. }
  assert (answered h (GetTask (Step_TaskID input)) (Ok task)) as Htask by apply Hr.
  split.
  - split; [done|]. split_and!; [by rewrite !existsb_app, Hc|mem|].
    exists task, plan, node, goal, policy, decision, deployment, target. split_and!; try done; try mem.
    + by apply routed_mono, routed_mono.
    + exists request. split; [mem|done].
    + destruct (_ ==? _); [done|]. destruct Hdep as (d & Hd1 & ->). exists d. split; [mem|done].
    + by exists now.
  - intros [sel|e]; simpl.
    + destruct (negb _ || _) eqn:Hb; [done|]. go_props. eapply Hsel; [mem|right; exists commit; mem|done].
    + split; [done|]. intros [[sel|]|e2]; simpl; [|done..]. destruct (same_binding _ _ _ _) eqn:Hb; [|done].
      eapply Hsel; [mem|left; mem|done].
Qed.

Lemma try_may_ask {A B} h (p : prog (result A)) wrap (k : A → prog (result B)) (Q : history → result B → Prop) :
  (∀ h e, Q h (Err e)) → safe h p (λ h r, ∀ a, r = Ok a → safe h (k a) Q) → safe h (try p wrap k) Q.
Proof.
  intros HQ Hp. unfold try. apply wp_bind. eapply wp_mono; [|exact Hp].
  intros h' [a|e] Hr; simpl; [by apply Hr|by apply HQ].
Qed.

Lemma Route_safe configured has_deployments : safe [] (Route J order configured has_deployments input) selected.
Proof.
  assert (∀ h e, selected h (Err e)) as Herr by done.
  unfold Route. destruct (negb configured); [done|]. destruct (incomplete input); [done|]. fold ctx.
  apply try_may_ask; [done|]. apply wp_Do; [done|]. intros r0 replay ->. simpl.
  destruct replay as [sel|].
  { destruct (bad_replay _ _) eqn:Hb; [done|]. intros _. unfold bad_replay in Hb. go_props.
    exists sel. split_and!; try done; [left; mem|by left]. }
  apply try_may_ask; [done|]. apply wp_Do; [done|]. intros r1 task ->.
  destruct (out_of_scope task input) eqn:Hsc; [done|]. destruct (Task_Status task !=? TaskRouting) eqn:Hts; [done|].
  destruct (Task_RouteDecisionID task !=? "") eqn:Hrd; [done|].
  apply try_may_ask; [done|]. unfold currentPlan. apply try_may_ask; [done|]. apply wp_Do; [done|]. intros r2 plans ->.
  destruct plans as [|first rest]; [done|]. destruct (validatePlan order (latest first rest)) as [[]|e] eqn:Hvp; [|done].
  apply validatePlan_wf in Hvp; [|done]. intros plan [= <-].
  destruct (latest_max first rest) as [Hin Hmax]. set (plan := latest first rest) in *. clearbody plan.
  apply try_may_ask; [done|]. apply wp_Do; [done|]. intros r3 goal ->.
  destruct (Goal_TaskRef goal !=? Task_ID task) eqn:Hg; [done|].
  destruct (selectTaskRoutingNode plan) as [node|e] eqn:Hnode; [|done]. apply selectModelNode_spec in Hnode. simpl in Hnode.
  match goal with |- wp _ ?h _ _ => set (h0 := h) end.
  assert (existsb is_commit h0 = false) as Hc0 by done.
  assert (answered h0 (ResolveSelection lookup) (Ok None)) as Hn0 by (unfold h0; mem).
  assert (routed_for h0 task plan node goal) as Hr0.
  { unfold out_of_scope in Hsc. go_props. split.
    - split_and!; [unfold h0; mem|congruence|done..].
    - split_and!; [|done..]. exists (first :: rest). split_and!; [unfold h0; mem|done..].
    - split; [unfold h0; mem|congruence]. }
  clearbody h0. apply try_may_ask; [done|]. apply wp_Do; [done|]. intros r4 policy ->.
  destruct (Policy_Decision policy) eqn:Hp; [|done..].
  apply try_may_ask; [done|]. apply wp_Do; [done|]. intros r5 request ->.
  apply try_may_ask; [done|]. apply wp_Do; [done|]. intros r6 decision ->.
  destruct (Decision_TaskID decision !=? Task_ID task) eqn:Hd; [done|].
  apply try_may_ask; [done|]. unfold selectedDeployment.
  destruct (Candidate_DeploymentID (Decision_Selected decision) ==? "") eqn:Hdid.
  - simpl. intros deployment [= <-]. destruct (TargetFromRouteDecision J decision None) as [target|e] eqn:Ht; [|done].
    eapply commitSelection_safe; try done; try mem;
      [by rewrite !existsb_app, Hc0|by do 3 apply routed_mono|reflexivity|by go_props|by rewrite Hdid].
  - destruct (negb has_deployments); [done|]. apply try_may_ask; [done|]. apply wp_Do; [done|]. intros r7 d ->.
    simpl. intros deployment [= <-]. destruct (TargetFromRouteDecision J decision (Some d)) as [target|e] eqn:Ht; [|done].
    eapply commitSelection_safe; try done; try mem;
      [by rewrite !existsb_app, Hc0|by do 4 apply routed_mono|reflexivity|by go_props|].
    rewrite Hdid. exists d. split; [mem|done].
Qed.


(** The routing step succeeds only with a selection of the task that a policy
    decision allows, resolved or committed by the store. *)
Theorem routing_success_was_selected configured has_deployments t :
  returns (Route J order configured has_deployments input) t (Ok tt) → selected t (Ok tt).
Proof. intros H. exact (wp_returns _ _ _ _ _ (Route_safe configured has_deployments) H). Qed.

End routing.

(** ** From routing to execution *)

Lemma TargetFromRouteDecision_complete J decision deployment target :
  TargetFromRouteDecision J decision deployment = Ok target →
  Target_ID target ≠ "" ∧ Target_Revision target = 1%Z ∧ Target_Type target = TargetModel
  ∧ blank (Snapshot_Digest (Target_Snapshot target)) = false
  ∧ Snapshot_ModelVersion (Target_Snapshot target) = Candidate_ModelVersion (Decision_Selected decision)
  ∧ Snapshot_DeploymentRef (Target_Snapshot target) = Candidate_DeploymentID (Decision_Selected decision).
Proof.
  unfold TargetFromRouteDecision. destruct (_ || _); [done|]. destruct (_ || _); [done|].
  destruct (Candidate_DeploymentID _ !=? "") eqn:Hd.
  - destruct deployment as [d|]; [|done]. destruct (Pricing.Deployment_ID d !=? _) eqn:Hid; [done|].
    destruct (_ && _); [done|]. destruct (_ && _); [done|].
    unfold targetFromDeployment, routeTargetDigest. destruct (enc_target J _); [|done]. simpl. intros [= <-]. simpl.
    split_and!; try done; [by apply blank_prefix|by go_props].
  - unfold targetFromModelRoute, routeTargetDigest. destruct (enc_target J _); [|done]. simpl. intros [= <-]. simpl.
    split_and!; try done; [by apply blank_prefix|by go_props].
Qed.

Lemma nodeByID_unique plan node :
  NoDup (Node_ID <$> Plan_Nodes plan) → node ∈ Plan_Nodes plan → nodeByID plan (Node_ID node) = Ok node.
Proof.
  unfold nodeByID. generalize (Errorf "frozen node %s is not present in plan %s@%d" [AStr (Node_ID node); AStr (Plan_ID plan); AInt (Plan_Revision plan)]).
  induction (Plan_Nodes plan) as [|n nodes IH]; intros e; [by intros _ ?%not_elem_of_nil|].
  simpl. rewrite NoDup_cons, elem_of_cons. intros [Hn Hnd] [<-|Hin].
  - by rewrite bool_decide_eq_true_2.
  - case_bool_decide as E; [|by apply IH]. exfalso. apply Hn. rewrite E. apply list_elem_of_fmap. eauto.
Qed.

(** What routing freezes, execution accepts.  Take the plan and its only model
    node, the decision of the baseline policy gate when it allows, a router
    decision for the task and the target made from it.  The selection that is
    committed passes the binding check of the execution step, its node is found in
    the plan and is not a mutation, and unless the estimated cost is negative the
    worker's candidate is that node with the frozen target and policy, one node
    attempt and one model call. *)
Theorem frozen_route_is_executable J task goal plan node policy decision deployment target :
  well_formed plan → List.filter (λ n, Node_Type n ==? NodeModel) (Plan_Nodes plan) = [node] →
  BaselineRoutingPolicy task goal plan node = Ok policy → Policy_Decision policy = PolicyAllow →
  Decision_TaskID decision = Task_ID task → TargetFromRouteDecision J decision deployment = Ok target →
  let b := mkSelectionPayload (Build_PlanRevisionRef (Plan_ID plan) (Plan_Revision plan)) (Node_ID node) decision policy target in
  let cost := Candidate_EstimatedCost (Decision_Selected decision) in
  validExecutionBinding (Task_ID task) b = true ∧ nodeByID plan (Payload_Node b) = Ok node ∧ isMutationNode node = false
  ∧ preparedNodeFromFrozenBinding node b
    = if f_lt cost f_zero then Err (Errorf "frozen route estimated cost cannot be negative" [])
      else Ok (mkPreparedNode node target policy (mkBudgetEstimate cost 1 1 0)).
Proof.
  intros Hwf Hnode Hpol Hallow Hd Ht b cost.
  apply TargetFromRouteDecision_complete in Ht as (H1 & H2 & H3 & H4 & _).
  assert (node ∈ Plan_Nodes plan ∧ Node_Type node = NodeModel) as [Hin Hty].
  { assert (In node [node]) as Hi by (by left). rewrite <- Hnode in Hi. apply filter_In in Hi as [Hi Hty].
    split; [by apply list_elem_of_In|by go_props]. }
  assert (Node_ID node ≠ "") as Hid.
  { destruct Hwf as [_ _ _ _ Hids _ _ _ _]. rewrite Forall_forall in Hids. by apply Hids. }
  unfold BaselineRoutingPolicy in Hpol. destruct (_ || _); [done|]. injection Hpol as <-. simpl in Hallow.
  assert (isMutationNode node = false) as Hm.
  { unfold isMutationNode, isMutation. destruct (Effect_Class (Node_Effect node)); try done; vm_compute in Hallow; done. }
  split_and!; [|apply nodeByID_unique; [by apply Hwf|done]|done|].
  - unfold validExecutionBinding. simpl. rewrite Hallow, H2, H4, Z.eqb_refl, !bool_decide_eq_true_2 by done.
    rewrite !bool_decide_eq_false_2 by (done || apply Hwf). simpl.
    rewrite (bool_decide_eq_true_2 (Node_ID node = Node_ID node)), (bool_decide_eq_false_2 (Target_ID target = "")) by done.
    assert (0 < Plan_Revision plan)%Z by apply Hwf. by destruct (Z.ltb_spec 0 (Plan_Revision plan)); [|lia].
  - unfold preparedNodeFromFrozenBinding. simpl. rewrite H3, Z.eqb_refl, bool_decide_eq_true_2 by done. simpl.
    fold cost. by destruct (f_lt cost f_zero).
Qed.

Lemma baseline_well_formed taskID goalID now : goalID ≠ "" → well_formed (BaselineModelPlan taskID goalID now).
Proof.
  intros Hg. split; simpl; try done.
  - by repeat constructor.
  - repeat constructor. apply not_elem_of_nil.
  - by repeat constructor.
  - apply Forall_singleton. simpl. split_and!; [constructor|apply not_elem_of_nil|by intros d ?%not_elem_of_nil].
  - intros v Hv.
    assert (∀ a c, ¬ ExecPlan.edge (ExecPlan.depsOf (Plan_Nodes (BaselineModelPlan taskID goalID now))) a c) as He.
    { intros a c. unfold ExecPlan.edge, ExecPlan.deps_at, ExecPlan.depsOf. simpl.
      destruct (decide (a = "model/main")) as [->|Hne]; [rewrite lookup_insert_eq|rewrite lookup_insert_ne, lookup_empty by done];
        apply not_elem_of_nil. }
    inversion Hv; by eapply He.
Qed.

(** The baseline path exists for every task.  For a task with an id and an input
    that are not blank, the goal snapshot is taken, the baseline plan for it is
    valid in whatever order its map is visited, has one model node, the baseline
    gate allows it, and a route request for the task is built from it. *)
Theorem baseline_path_exists order task now :
  (∀ plan, range_order (order plan) (Plan_Nodes plan)) →
  blank (Task_ID task) = false → blank (Task_Input task) = false →
  ∃ goal plan node policy request,
    GoalSnapshotFromTask task GoalSnapshotOptionsZero = Ok goal ∧ Goal_TaskRef goal = Task_ID task
    ∧ Baseline_Build order task goal now = Ok plan ∧ well_formed plan ∧ Plan_GoalRef plan = Goal_ID goal
    ∧ selectTaskRoutingNode plan = Ok node
    ∧ BaselineRoutingPolicy task goal plan node = Ok policy ∧ Policy_Decision policy = PolicyAllow
    ∧ BaselineRouteRequest task goal plan node = Ok request ∧ Req_TaskID request = Task_ID task.
Proof.
  intros Hord Hid Hin. unfold GoalSnapshotFromTask. rewrite Hid. unfold blank in Hin. rewrite Hin. simpl.
  set (goal := Build_Goal _ _ _ _ _ _). pose (plan := BaselineModelPlan (Task_ID task) (Goal_ID goal) now).
  assert (Goal_ID goal ≠ "") as Hg by done.
  assert (well_formed plan) as Hwf by by apply baseline_well_formed.
  assert (validatePlan order plan = Ok tt) as Hv.
  { by apply validatePlan_wf. }
  assert (Baseline_Build order task goal now = Ok plan) as Hb.
  { unfold Baseline_Build. rewrite Hid, (bool_decide_eq_false_2 (Goal_ID goal = "")) by done.
    rewrite (bool_decide_eq_true_2 (Goal_TaskRef goal = Task_ID task)) by done. cbn [orb negb]. fold plan. by rewrite Hv. }
  assert (Task_ID task ≠ "") as Ht by (intros E; by rewrite E in Hid).
  eexists goal, plan, _, _, _. split_and!; try done; unfold BaselineRoutingPolicy, BaselineRouteRequest.
  - rewrite Hid, !bool_decide_eq_true_2 by done. simpl. done.
  - done.
  - rewrite (bool_decide_eq_false_2 (Task_ID task = "")), !bool_decide_eq_true_2 by done. done.
  - done.
Qed.

(** ** The replaced backends *)

(** A backend in which one step was replaced by an activity that keeps the task
    still follows the laws the workflow needs, so the workflow ends over it too. *)
Section adapters.
Context {W : Type} (Base : Lifecycle.LifecycleActivities W) (g : Lifecycle.ghost W) (ext : W → W → Prop) (inv : W → Prop).
Context (i : Lifecycle.TaskWorkflowInput) (Hbase : @Lifecycle.BackendLaws W Base g ext inv i).
Context (activity : StepInput → W → result unit * W).
Hypothesis activity_law : ∀ w r w', inv w → activity (Lifecycle.step_input i) w = (r, w') → inv w' ∧ Lifecycle.later g w w'.

Lemma base_step (act : W → result unit * W) name w r w' :
  @Lifecycle.registered W Base name (Lifecycle.step_input i) = act → inv w → act w = (r, w') → inv w' ∧ Lifecycle.later g w w'.
Proof. intros <-. apply Hbase. Qed.

Ltac adapt :=
  pose proof Hbase as [HL HT _ HE]; split; [exact HL|exact HT| |exact HE];
  intros w name r w' Hi H; unfold Lifecycle.registered in H; simpl in H;
  destruct (name ==? Lifecycle.ActivityPlanStub);
    [first [by eapply activity_law|by apply (base_step _ Lifecycle.ActivityPlanStub) in H]|];
  destruct (name ==? Lifecycle.ActivityRouteStub);
    [first [by eapply activity_law|by apply (base_step _ Lifecycle.ActivityRouteStub) in H]|];
  destruct (name ==? Lifecycle.ActivityExecuteStub);
    [first [by eapply activity_law|by apply (base_step _ Lifecycle.ActivityExecuteStub) in H]|];
  destruct (name ==? Lifecycle.ActivityValidateStub);
    [by apply (base_step _ Lifecycle.ActivityValidateStub) in H|simplify_eq; split; [done|apply Lifecycle.later_preorder]].

Lemma planning_adapter_laws : @Lifecycle.BackendLaws W (PlanningLifecycleActivities Base activity) g ext inv i.
Proof. adapt. Qed.
Lemma routing_adapter_laws : @Lifecycle.BackendLaws W (RoutingLifecycleActivities Base activity) g ext inv i.
Proof. adapt. Qed.
Lemma execution_adapter_laws : @Lifecycle.BackendLaws W (ExecutionLifecycleActivities Base activity) g ext inv i.
Proof. adapt. Qed.
End adapters.

End ActivitySpec.

(** * ActivityExamples: the durable steps on concrete inputs

    One task is routed and executed; the theorems of [ActivitySpec] applied to
    the runs. *)

Module ActivityExamples.
Import Domain RouteTypes TaskStore Activities ActivitySpec.
Import Lifecycle(StepInput, mkStepInput).

Definition sample_order (plan : ExecutionPlan) : list NodeID := elements (dom (ExecPlan.depsOf (Plan_Nodes plan))).
Lemma sample_order_visits plan : ExecPlan.range_order (sample_order plan) (Plan_Nodes plan).
Proof. apply ExecPlan.range_order_exists. Qed.

Definition sample_encoders : Encoders := mkEncoders (λ _, Ok "{}") (λ _, Ok "{}") (λ s, "digest").
Definition sample_input : StepInput := mkStepInput "acme" "lab" "t-1" "trace-1".
Definition sample_task (status : TaskStatus) : Task :=
  mkTask "t-1" "acme" "lab" "" "agent" "say hello" status 2 "" f_zero f_zero f_zero "" "" "trace-1" 5 5 None.

Definition sample_goal : Goal :=
  Build_Goal "goal/t-1/v1" "t-1" "say hello" [] (Build_GoalConstraints false []) BudgetLimitZero.
Definition sample_plan : ExecutionPlan := BaselineModelPlan "t-1" "goal/t-1/v1" 50%Z.
Definition sample_node : ExecutionNode := default (ExecPlan.sample_node "" [] (Build_EffectSpec EffectPure "" true)) (head (Plan_Nodes sample_plan)).
Definition sample_decision : RouteDecision :=
  mkRouteDecision "route-1" "t-1" (mkRouteCandidate "m-1" "v1" "" RouteEfficient EffortZero TierZero (f_int 2) f_zero []) [] "cheapest" []
    "plan:plan/t-1/model/v1@1" "v1" 60%Z.

(** The policy decision and the target of the frozen binding. *)
Definition sample_policy : PolicyDecisionRecord :=
  match BaselineRoutingPolicy (sample_task TaskRouting) sample_goal sample_plan sample_node with
  | Ok p => p | Err _ => Supervisor.sample_policy "" PolicyDeny end.
Definition sample_target : ExecutionTarget :=
  match TargetFromRouteDecision sample_encoders sample_decision None with Ok t => t | Err _ => Supervisor.sample_target end.
Definition sample_payload : routeSelectionReplayPayload :=
  mkSelectionPayload (Build_PlanRevisionRef "plan/t-1/model/v1" 1) "model/main" sample_decision sample_policy sample_target.

Definition sample_runtime (state : NodeState) : NodeRuntimeRecord :=
  mkNodeRuntimeRecord "e" 1 "model/main" state EffectPure true "" 1 1 None None 70%Z.
Definition sample_attempt : AttemptRecord :=
  {| Record_Attempt := Build_ExecutionAttempt "a-1" "e" "model/main" "model/m-1@v1" 1 "sha256:digest" 1 AttemptFailed ErrorTimeout
                         UsageZero "" None None 70%Z (Some 80%Z);
     Record_PlanRevision := 1; Record_LeaseFence := 1; Record_LeaseOwner := "w"; Record_PolicyDecisionRef := "p";
     Record_BudgetReservationRef := "b"; Record_ClaimedAt := 70%Z; Record_CreatedAt := 70%Z; Record_UpdatedAt := 80%Z |}.

(** Stores that know the task, the plan and the goal, and the node in [state]; what
    they would have to change is not answered. *)
Definition sample_answer (status : TaskStatus) (selection : option RouteSelectionResult) (state : NodeState) (X : Type) (e : Ev X) : option X :=
  match e in Ev _ with
  | At _ r =>
      match r in Req X return option X with
      | GetTask _ => Some (Ok (sample_task status))
      | GetGoal _ => Some (Ok sample_goal)
      | GetPlan _ _ => Some (Ok sample_plan)
      | ListPlansByTask _ => Some (Ok [sample_plan])
      | GetExecution _ => Some (Err TaskSchema.ErrNotFound)
      | CreateExecution item => Some (Ok item)
      | Evaluate task goal plan node => Some (BaselineRoutingPolicy task goal plan node)
      | BuildRequest task goal plan node => Some (BaselineRouteRequest task goal plan node)
      | PlanRoute _ => Some (Ok sample_decision)
      | ResolveSelection _ => Some (Ok selection)
      | GetRuntime _ _ _ => Some (Ok (sample_runtime state, None))
      | ListAttempts _ _ _ => Some (Ok [sample_attempt])
      | Now => Some 60%Z
      | NewID prefix => Some prefix
      | _ => None
      end
  end.

(** The request at which a run stopped. *)
Definition stopped_at {A} (want : ∀ X, Req X → bool) (p : prog A) : bool :=
  match p with Do (At _ r) _ => want _ r | Ret _ => false end.

Definition sample_selection : RouteSelectionResult :=
  mkRouteSelectionResult None sample_payload None (selection_record (routeSelectionLookup sample_encoders sample_input) 60%Z) true.

Definition sample_execute (state : NodeState) : list (exchange Ev) * prog (result unit) :=
  follow (sample_answer TaskExecuting (Some sample_selection) state) (ExecuteStep sample_encoders sample_order true sample_input).

Definition wants_execute (X : Type) (r : Req X) : bool := match r with Execute _ _ => true | _ => false end.
Definition wants_requeue (X : Type) (r : Req X) : bool := match r with RequeueFailed _ _ _ => true | _ => false end.

Lemma stopped_execute {A} (p : prog A) :
  stopped_at wants_execute p = true → ∃ c item candidate k, p = Do (At c (Execute item candidate)) k.
Proof. destruct p as [a|X [c r] k]; simpl; [done|]. destruct r; simpl; try done. eauto. Qed.
Lemma stopped_requeue {A} (p : prog A) :
  stopped_at wants_requeue p = true → ∃ c id revision node k, p = Do (At c (RequeueFailed id revision node)) k.
Proof. destruct p as [a|X [c r] k]; simpl; [done|]. destruct r; simpl; try done. eauto 6. Qed.

Lemma sample_execute_asks state :
  asks (ExecuteStep sample_encoders sample_order true sample_input) (fst (sample_execute state)) (snd (sample_execute state)).
Proof. unfold sample_execute. apply follow_asks. Qed.

Lemma worker_runs_the_frozen_route_witness :
  ∃ t c item candidate k,
    asks (ExecuteStep sample_encoders sample_order true sample_input) t (Do (At c (Execute item candidate)) k)
    ∧ length t = 8 ∧ may_execute sample_encoders sample_input t item candidate.
Proof.
  pose proof (sample_execute_asks NodeReady) as H.
  assert (stopped_at wants_execute (snd (sample_execute NodeReady)) = true) as Hs
    by (vm_compute; reflexivity).
  assert (length (fst (sample_execute NodeReady)) = 8) as Hl by (vm_compute; reflexivity).
  destruct (stopped_execute _ Hs) as (c & item & candidate & k & E). rewrite E in H.
  exists (fst (sample_execute NodeReady)), c, item, candidate, k. split; [exact H|]. split; [exact Hl|].
  exact (proj1 (proj2 (worker_runs_the_frozen_route sample_encoders sample_order sample_order_visits sample_input true _ _ _ _ _ H))).
Defined.

Lemma only_safe_nodes_are_retried_witness :
  ∃ t c id revision node k,
    asks (ExecuteStep sample_encoders sample_order true sample_input) t (Do (At c (RequeueFailed id revision node)) k)
    ∧ may_requeue sample_encoders sample_input t id revision node.
Proof.
  pose proof (sample_execute_asks NodeFailed) as H.
  assert (stopped_at wants_requeue (snd (sample_execute NodeFailed)) = true) as Hs
    by (vm_compute; reflexivity).
  destruct (stopped_requeue _ Hs) as (c & id & revision & node & k & E). rewrite E in H.
  exists (fst (sample_execute NodeFailed)), c, id, revision, node, k. split; [exact H|].
  exact (proj2 (only_safe_nodes_are_retried sample_encoders sample_order sample_order_visits sample_input true _ _ _ _ _ _ H)).
Defined.

Lemma execution_success_was_seen_witness :
  ∃ task b plan node goal, frozen sample_encoders sample_input (fst (sample_execute NodeSucceeded)) task b plan node goal.
Proof.
  pose proof (sample_execute_asks NodeSucceeded) as H.
  replace (snd (sample_execute NodeSucceeded)) with (Ret (Ok tt) : prog (result unit)) in H by (vm_compute; reflexivity).
  destruct (execution_success_was_seen sample_encoders sample_order sample_order_visits sample_input true _ H)
    as (task & b & plan & node & goal & item & runtime & lease & Hf & _).
  exists task, b, plan, node, goal. exact Hf.
Defined.


Lemma frozen_route_is_executable_witness :
  validExecutionBinding "t-1" sample_payload = true
  ∧ preparedNodeFromFrozenBinding sample_node sample_payload
    = Ok (Supervisor.mkPreparedNode sample_node sample_target sample_policy (Budget.mkBudgetEstimate (f_int 2) 1 1 0)).
Proof.
  destruct (frozen_route_is_executable sample_encoders (sample_task TaskRouting) sample_goal sample_plan sample_node
    sample_policy sample_decision None sample_target (baseline_well_formed "t-1" "goal/t-1/v1" 50%Z ltac:(done))
    eq_refl eq_refl eq_refl eq_refl eq_refl) as (H1 & _ & _ & H2).
  split; [exact H1|exact H2].
Defined.

Lemma baseline_path_exists_witness :
  ∃ goal plan, GoalSnapshotFromTask (sample_task TaskPlanning) GoalSnapshotOptionsZero = Ok goal
    ∧ Baseline_Build sample_order (sample_task TaskPlanning) goal 50%Z = Ok plan ∧ ExecPlan.well_formed plan.
Proof.
  destruct (baseline_path_exists sample_order (sample_task TaskPlanning) 50%Z sample_order_visits eq_refl eq_refl)
    as (goal & plan & node & policy & request & H1 & _ & H2 & H3 & _).
  exists goal, plan. split; [exact H1|]. split; [exact H2|exact H3].
Defined.
End ActivityExamples.
