(* ===== verification/Lineage.v ===== *)
(** * Lineage: goals, plans and executions

    [src/internal/repository/postgres_execution_lineage.go] over the tables of
    [src/db/migrations/019_execution_control_plane.sql].  PostgreSQL is assumed
    as in [LeaseSchema]: transactions are atomic, row-level security hides other
    scopes, a write that breaks a constraint fails; any statement may fail, a
    failed COMMIT may or may not have been applied.  JSON codecs, what JSONB makes
    of a text, the rounding of timestamps and the collation of text are
    parameters. *)
From S2P Require Import Prelude Identity Domain ExecTypes ExecPlan LeaseSchema TaskSchema.

Module Lineage.
Import Domain.
Import LeaseSchema(TxEnv, env_db, env_ctx, env_begin, env_now, env_commit, exec_stmt, violation,
  Committed, CommitFailed, CommitUnknown).
Import TaskSchema(ErrNotFound, in_scope).
Import ExecPlan(validatePlan).

(** ** Tables; the columns of the primary key are in the map's key *)
Record GoalRow : Type := mkGoalRow {
  g_task_id : string;
  g_objective : string;
  g_acceptance_criteria : string;
  g_constraints : string;
  g_budget : string;
  g_created_at : Time
}.

Record PlanRow : Type := mkPlanRow {
  p_task_id : string;
  p_goal_id : GoalID;
  p_parent_revision : Z;
  p_plan_json : string;
  p_created_at : Time
}.

Record ExecutionRow : Type := mkExecutionRow {
  x_task_id : string;
  x_goal_id : GoalID;
  x_plan_id : PlanID;
  x_plan_revision : Z;
  x_principal : string;
  x_phase : ExecutionPhase;
  x_policy_context : string;
  x_budget_state : string;
  x_status_json : string;
  x_accounting : string;
  x_created_at : Time;
  x_updated_at : Time
}.

Abbreviation scope := (string * string)%type (only parsing).
Abbreviation GoalKey := (string * string * GoalID)%type (only parsing).
Abbreviation PlanKey := (string * string * (PlanID * Z))%type (only parsing).
Abbreviation ExecutionKey := (string * string * ExecutionID)%type (only parsing).

(** [tasks] is the table of the task store, which these operations only read. *)
Record DB : Type := mkDB {
  tasks : gmap string Task;
  goals : gmap GoalKey GoalRow;
  plans : gmap PlanKey PlanRow;
  executions : gmap ExecutionKey ExecutionRow
}.

Definition set_goals (f : gmap GoalKey GoalRow) (db : DB) : DB := mkDB (tasks db) f (plans db) (executions db).
Definition set_plans (f : gmap PlanKey PlanRow) (db : DB) : DB := mkDB (tasks db) (goals db) f (executions db).
Definition set_executions (f : gmap ExecutionKey ExecutionRow) (db : DB) : DB := mkDB (tasks db) (goals db) (plans db) f.

Definition scope_of (p : Identity.Principal) : scope := (Identity.TenantID p, Identity.ProjectID p).

(** ** Constraints *)

(** [length(btrim(x)) > 0]: not only spaces. *)
Definition btrim_nonempty (s : string) : bool := existsb (λ a, negb (code a =? 32)%N) (bytes s).

(** [executions_phase_contract]. *)
Definition phase_ok (p : ExecutionPhase) : bool := match p with ExecutionPhaseOther _ => false | _ => true end.

Definition goal_checks (r : GoalRow) : bool := btrim_nonempty (g_objective r).

Definition plan_checks (revision : Z) (r : PlanRow) : bool :=
  (1 <=? revision)%Z && fits_int8 revision && (0 <=? p_parent_revision r)%Z && fits_int8 (p_parent_revision r)
  && ((p_parent_revision r =? 0)%Z || (p_parent_revision r <? revision)%Z).

Definition execution_checks (r : ExecutionRow) : bool :=
  (1 <=? x_plan_revision r)%Z && fits_int8 (x_plan_revision r) && btrim_nonempty (x_principal r) && phase_ok (x_phase r)
  && (x_created_at r <=? x_updated_at r)%Z.

(** [json.Marshal] and [json.Unmarshal] of what the store encodes. *)
Record Codec : Type := mkCodec {
  marshal_criteria : list AcceptanceCriterion → result string;
  unmarshal_criteria : string → result (list AcceptanceCriterion);
  marshal_constraints : GoalConstraints → result string;
  unmarshal_constraints : string → result GoalConstraints;
  marshal_limit : BudgetLimit → result string;
  unmarshal_limit : string → result BudgetLimit;
  marshal_plan : ExecutionPlan → result string;
  unmarshal_plan : string → result ExecutionPlan;
  marshal_policy : PolicyContext → result string;
  unmarshal_policy : string → result PolicyContext;
  marshal_budget : BudgetState → result string;
  unmarshal_budget : string → result BudgetState;
  marshal_status : ExecutionStatus → result string;
  unmarshal_status : string → result ExecutionStatus;
  marshal_accounting : Accounting → result string;
  unmarshal_accounting : string → result Accounting
}.

(** [if err != nil { return fmt.Errorf(label + ": %w", err) }]. *)
Definition labelled {A} (label : string) (r : result A) : result A :=
  match r with Ok a => Ok a | Err e => Err (Errorw (label +:+ ": %w") [] e) end.

Definition PhaseZero : ExecutionPhase := ExecutionPhaseOther "".

#[export] Instance ExecutionPhase_eq_dec : EqDecision ExecutionPhase.
Proof. solve_decision. Defined.

Definition validateGoalLineage (goal : Goal) : result unit :=
  if (Goal_ID goal ==? "") || blank (Goal_TaskRef goal) || blank (Goal_Objective goal)
  then Err (Errorf "goal id, task ref and objective are required" []) else Ok tt.

Definition validateExecutionLineage (item : Execution) : result unit :=
  if (Execution_ID item ==? "") || blank (Execution_TaskRef item) || (Execution_GoalRef item ==? "")
     || (PlanRef_PlanID (Execution_PlanRef item) ==? "") || (PlanRef_Revision (Execution_PlanRef item) <? 1)%Z
  then Err (Errorf "execution id, task ref, goal ref and plan revision are required" [])
  else if Status_Phase (Execution_Status item) ==? PhaseZero then Err (Errorf "execution phase is required" [])
  else if IsZero (Execution_CreatedAt item) || IsZero (Execution_UpdatedAt item)
          || Before (Execution_UpdatedAt item) (Execution_CreatedAt item)
  then Err (Errorf "valid execution timestamps are required" []) else Ok tt.

Section store.
Variable pg_ts : Time → Time.
Variable pg_jsonb : string → result string.
Variable collate : string → string → bool.
Variable order : ExecutionPlan → list NodeID.
Variable J : Codec.

(** ** Transactions *)
Definition withProjectTx {A} (env : TxEnv) (fn : Identity.Principal → DB → result (A * DB)) (db : DB) : result A * DB :=
  if negb (env_db env) then (Err (Errorf "execution lineage database is required" []), db)
  else match Identity.requireScopedPrincipal (env_ctx env) with
  | Err e => (Err e, db)
  | Ok principal =>
      match env_begin env with
      | Some e => (Err (Errorw "begin scoped execution transaction: %w" [] e), db)
      | None =>
          match exec_stmt env "set execution transaction scope" with
          | Err e => (Err e, db)
          | Ok _ =>
              match fn principal db with
              | Err e => (Err e, db)
              | Ok (a, db') =>
                  match env_commit env with
                  | Committed => (Ok a, db')
                  | CommitFailed e => (Err (Errorw "commit scoped execution transaction: %w" [] e), db)
                  | CommitUnknown e => (Err (Errorw "commit scoped execution transaction: %w" [] e), db')
                  end
              end
          end
      end
  end.

(** A JSONB parameter. *)
Definition jsonb (label text : string) : result string := labelled label (pg_jsonb text).

Definition requireScopedTask (env : TxEnv) (p : Identity.Principal) (taskID : string) (db : DB) : result unit :=
  _ ← exec_stmt env "resolve scoped task";
  match tasks db !! taskID with
  | Some t => if in_scope (scope_of p) (Task_TenantID t) (Task_ProjectID t) then Ok tt else Err ErrNotFound
  | None => Err ErrNotFound
  end.

(** ** Goals *)

Definition insert_goal (env : TxEnv) (p : Identity.Principal) (id : GoalID) (row : GoalRow) (db : DB) : result DB :=
  let k := (scope_of p, id) in
  _ ← exec_stmt env "create execution goal";
  if bool_decide (is_Some (goals db !! k)) || negb (goal_checks row) || bool_decide (tasks db !! g_task_id row = None)
  then Err (violation "create execution goal")
  else Ok (set_goals (<[k := row]> (goals db)) db).

Definition CreateGoal (env : TxEnv) (goal : Goal) (db : DB) : result Goal * DB :=
  let encoded :=
    _ ← validateGoalLineage goal;
    criteria ← labelled "encode goal acceptance criteria" (marshal_criteria J (Goal_AcceptanceCriteria goal));
    constraints ← labelled "encode goal constraints" (marshal_constraints J (Goal_Constraints goal));
    budget ← labelled "encode goal budget" (marshal_limit J (Goal_Budget goal));
    Ok (criteria, constraints, budget) in
  match encoded with
  | Err e => (Err e, db)
  | Ok (criteria, constraints, budget) =>
      withProjectTx env (λ p db,
        _ ← requireScopedTask env p (Goal_TaskRef goal) db;
        criteria ← jsonb "create execution goal" criteria;
        constraints ← jsonb "create execution goal" constraints;
        budget ← jsonb "create execution goal" budget;
        db ← insert_goal env p (Goal_ID goal)
               (mkGoalRow (Goal_TaskRef goal) (Goal_Objective goal) criteria constraints budget (env_now env)) db;
        Ok (goal, db)) db
  end.

Definition decode_goal (id : GoalID) (row : GoalRow) : result Goal :=
  criteria ← labelled "decode goal acceptance criteria" (unmarshal_criteria J (g_acceptance_criteria row));
  constraints ← labelled "decode goal constraints" (unmarshal_constraints J (g_constraints row));
  budget ← labelled "decode goal budget" (unmarshal_limit J (g_budget row));
  Ok (Build_Goal id (g_task_id row) (g_objective row) criteria constraints budget).

Definition GetGoal (env : TxEnv) (id : GoalID) (db : DB) : result Goal * DB :=
  withProjectTx env (λ p db,
    _ ← exec_stmt env "get execution goal";
    match goals db !! (scope_of p, id) with
    | None => Err ErrNotFound
    | Some row => goal ← decode_goal id row; Ok (goal, db)
    end) db.

(** The rows of a task that the transaction sees. *)
Definition visible {K R : Type} `{Countable K} (task : R → string) (p : Identity.Principal) (taskID : string)
    (m : gmap (string * string * K) R) : list (K * R) :=
  (λ kv, (snd (fst kv), snd kv)) <$> filter (λ kv, fst (fst kv) = scope_of p ∧ task (snd kv) = taskID) (map_to_list m).

(** [ORDER BY created_at, id]. *)
Definition row_before {A} (at_ : A → Time) (a b : string * A) : bool :=
  (at_ (snd a) <? at_ (snd b))%Z || ((at_ (snd a) =? at_ (snd b))%Z && collate (fst a) (fst b)).

Definition ListGoalsByTask (env : TxEnv) (taskID : string) (db : DB) : result (list Goal) * DB :=
  withProjectTx env (λ p db,
    _ ← exec_stmt env "list execution goals";
    items ← mapM (λ kv, _ ← exec_stmt env "scan execution goal"; decode_goal (fst kv) (snd kv))
              (SliceStable (row_before g_created_at) (visible g_task_id p taskID (goals db)));
    _ ← exec_stmt env "execution goal rows";
    Ok (items, db)) db.

(** ** Plans *)

Definition insert_plan (env : TxEnv) (p : Identity.Principal) (id : PlanID) (revision : Z) (row : PlanRow) (db : DB)
    : result DB :=
  let k := (scope_of p, (id, revision)) in
  _ ← exec_stmt env "create execution plan";
  if bool_decide (is_Some (plans db !! k)) || negb (plan_checks revision row)
     || bool_decide (tasks db !! p_task_id row = None)
     || negb match goals db !! (scope_of p, p_goal_id row) with Some g => g_task_id g ==? p_task_id row | None => false end
  then Err (violation "create execution plan")
  else Ok (set_plans (<[k := row]> (plans db)) db).

Definition goal_task (env : TxEnv) (label : string) (p : Identity.Principal) (id : GoalID) (db : DB) : result string :=
  _ ← exec_stmt env label;
  match goals db !! (scope_of p, id) with Some g => Ok (g_task_id g) | None => Err ErrNotFound end.

Definition CreatePlan (env : TxEnv) (plan : ExecutionPlan) (db : DB) : result ExecutionPlan * DB :=
  let encoded :=
    _ ← validatePlan order plan;
    _ ← (if IsZero (Plan_CreatedAt plan) then Err (Errorf "plan created time is required" []) else Ok tt);
    labelled "encode execution plan" (marshal_plan J plan) in
  match encoded with
  | Err e => (Err e, db)
  | Ok body =>
      withProjectTx env (λ p db,
        taskID ← goal_task env "resolve plan goal" p (Plan_GoalRef plan) db;
        body ← jsonb "create execution plan" body;
        db ← insert_plan env p (Plan_ID plan) (Plan_Revision plan)
               (mkPlanRow taskID (Plan_GoalRef plan) (Plan_ParentRevision plan) body (pg_ts (Plan_CreatedAt plan))) db;
        Ok (plan, db)) db
  end.

Definition decode_plan (row : PlanRow) : result ExecutionPlan :=
  labelled "decode execution plan" (unmarshal_plan J (p_plan_json row)).

Definition GetPlan (env : TxEnv) (id : PlanID) (revision : Z) (db : DB) : result ExecutionPlan * DB :=
  withProjectTx env (λ p db,
    _ ← exec_stmt env "get execution plan";
    match plans db !! (scope_of p, (id, revision)) with
    | None => Err ErrNotFound
    | Some row => plan ← decode_plan row; Ok (plan, db)
    end) db.

(** [ORDER BY created_at, plan_id, revision]. *)
Definition plan_before (a b : (PlanID * Z) * PlanRow) : bool :=
  (p_created_at (snd a) <? p_created_at (snd b))%Z
  || ((p_created_at (snd a) =? p_created_at (snd b))%Z
      && (collate (fst (fst a)) (fst (fst b))
          || (negb (collate (fst (fst b)) (fst (fst a))) && (snd (fst a) <? snd (fst b))%Z))).

Definition ListPlansByTask (env : TxEnv) (taskID : string) (db : DB) : result (list ExecutionPlan) * DB :=
  withProjectTx env (λ p db,
    _ ← exec_stmt env "list execution plans";
    items ← mapM (λ kv, _ ← exec_stmt env "scan execution plan"; decode_plan (snd kv))
              (SliceStable plan_before (visible p_task_id p taskID (plans db)));
    _ ← exec_stmt env "execution plan rows";
    Ok (items, db)) db.

(** ** Executions *)

Definition insert_execution (env : TxEnv) (p : Identity.Principal) (id : ExecutionID) (row : ExecutionRow) (db : DB)
    : result DB :=
  let k := (scope_of p, id) in
  _ ← exec_stmt env "create execution";
  if bool_decide (is_Some (executions db !! k)) || negb (execution_checks row)
     || bool_decide (tasks db !! x_task_id row = None)
     || negb match goals db !! (scope_of p, x_goal_id row) with Some g => g_task_id g ==? x_task_id row | None => false end
     || negb match plans db !! (scope_of p, (x_plan_id row, x_plan_revision row)) with
             | Some r => (p_task_id r ==? x_task_id row) && (p_goal_id r ==? x_goal_id row) | None => false end
  then Err (violation "create execution")
  else Ok (set_executions (<[k := row]> (executions db)) db).

Definition set_identity (item : Execution) (i : ExecIdentity) : Execution :=
  Build_Execution (Execution_ID item) (Execution_TaskRef item) (Execution_GoalRef item) (Execution_PlanRef item) i
    (Execution_PolicyContext item) (Execution_Budget item) (Execution_Status item) (Execution_Accounting item)
    (Execution_CreatedAt item) (Execution_UpdatedAt item).

(** The identity with the caller's tenant and subject where it is empty. *)
Definition filled_identity (p : Identity.Principal) (i : ExecIdentity) : ExecIdentity :=
  Build_ExecIdentity (if Identity_Principal i ==? "" then Identity.SubjectID p else Identity_Principal i)
    (if Identity_Tenant i ==? "" then Identity.TenantID p else Identity_Tenant i).

Definition CreateExecution (env : TxEnv) (item : Execution) (db : DB) : result Execution * DB :=
  let encoded :=
    _ ← validateExecutionLineage item;
    policy ← labelled "encode execution policy context" (marshal_policy J (Execution_PolicyContext item));
    budget ← labelled "encode execution budget" (marshal_budget J (Execution_Budget item));
    status ← labelled "encode execution status" (marshal_status J (Execution_Status item));
    accounting ← labelled "encode execution accounting" (marshal_accounting J (Execution_Accounting item));
    Ok (policy, budget, status, accounting) in
  match encoded with
  | Err e => (Err e, db)
  | Ok (policy, budget, status, accounting) =>
      withProjectTx env (λ p db,
        let item := set_identity item (filled_identity p (Execution_Identity item)) in
        let ref := Execution_PlanRef item in
        _ ← (if Identity_Tenant (Execution_Identity item) !=? Identity.TenantID p
             then Err (Errorf "execution tenant must match authenticated tenant" []) else Ok tt);
        goalTaskID ← goal_task env "resolve execution goal" p (Execution_GoalRef item) db;
        _ ← (if goalTaskID !=? Execution_TaskRef item
             then Err (Errorf "execution task does not match goal task" []) else Ok tt);
        _ ← exec_stmt env "resolve execution plan";
        plan ← match plans db !! (scope_of p, (PlanRef_PlanID ref, PlanRef_Revision ref)) with
               | Some r => Ok r
               | None => Err ErrNotFound
               end;
        _ ← (if (p_goal_id plan !=? Execution_GoalRef item) || (p_task_id plan !=? Execution_TaskRef item)
             then Err (Errorf "execution plan lineage does not match task/goal" []) else Ok tt);
        policy ← jsonb "create execution" policy;
        budget ← jsonb "create execution" budget;
        status ← jsonb "create execution" status;
        accounting ← jsonb "create execution" accounting;
        db ← insert_execution env p (Execution_ID item)
               (mkExecutionRow (Execution_TaskRef item) (Execution_GoalRef item) (PlanRef_PlanID ref) (PlanRef_Revision ref)
                  (Identity_Principal (Execution_Identity item)) (Status_Phase (Execution_Status item))
                  policy budget status accounting (pg_ts (Execution_CreatedAt item)) (pg_ts (Execution_UpdatedAt item))) db;
        Ok (item, db)) db
  end.

(** [scanExecutionLineage], and the end of [GetExecution]. *)
Definition decode_execution (tenant : string) (id : ExecutionID) (row : ExecutionRow) : result Execution :=
  policy ← labelled "decode execution policy context" (unmarshal_policy J (x_policy_context row));
  budget ← labelled "decode execution budget" (unmarshal_budget J (x_budget_state row));
  status ← labelled "decode execution status" (unmarshal_status J (x_status_json row));
  let status := if Status_Phase status ==? PhaseZero then Build_ExecutionStatus (x_phase row) (Status_Conditions status)
                else status in
  accounting ← labelled "decode execution accounting" (unmarshal_accounting J (x_accounting row));
  Ok (Build_Execution id (x_task_id row) (x_goal_id row) (Build_PlanRevisionRef (x_plan_id row) (x_plan_revision row))
        (Build_ExecIdentity (x_principal row) tenant) policy budget status accounting (x_created_at row) (x_updated_at row)).

Definition GetExecution (env : TxEnv) (id : ExecutionID) (db : DB) : result Execution * DB :=
  withProjectTx env (λ p db,
    _ ← exec_stmt env "get execution";
    match executions db !! (scope_of p, id) with
    | None => Err ErrNotFound
    | Some row => item ← decode_execution (Identity.TenantID p) id row; Ok (item, db)
    end) db.

Definition ListExecutionsByTask (env : TxEnv) (taskID : string) (db : DB) : result (list Execution) * DB :=
  withProjectTx env (λ p db,
    _ ← exec_stmt env "list executions";
    items ← mapM (λ kv, _ ← exec_stmt env "scan execution"; decode_execution (Identity.TenantID p) (fst kv) (snd kv))
              (SliceStable (row_before x_created_at) (visible x_task_id p taskID (executions db)));
    _ ← exec_stmt env "execution rows";
    Ok (items, db)) db.

End store.
End Lineage.
