(* ===== verification/LineageSpec.v ===== *)
(** * LineageSpec: what the lineage store promises

    Its tables only grow, by checked rows of the caller's own scope; plans and
    executions refer to goals and plans of the same task; what was created is
    read back, now and after whatever happens later; and what a caller sees does
    not depend on the rows of other scopes. *)
From S2P Require Import Prelude Identity Domain ExecTypes ExecPlan LeaseSchema LeaseLive TaskSchema Order Lineage.

Module LineageSpec.
Import Domain Lineage.
Import LeaseSchema(TxEnv, mkTxEnv, env_db, env_ctx, env_begin, env_fault, env_now, env_commit, exec_stmt,
  Committed, CommitFailed, CommitUnknown).
Import LeaseLive(healthy, healthy_db, healthy_ctx, healthy_begin, healthy_commit, healthy_stmt).
Import TaskSchema(ErrNotFound, in_scope).
Import ExecPlan(well_formed, range_order, validatePlan, validatePlan_wf).

(** ** Specification *)

(** The task exists and belongs to the scope. *)
Definition owns (db : DB) (sc : scope) (id : string) : Prop :=
  ∃ t, tasks db !! id = Some t ∧ in_scope sc (Task_TenantID t) (Task_ProjectID t) = true.

Definition goal_ok (db : DB) (sc : scope) (g : GoalRow) : Prop := goal_checks g = true ∧ owns db sc (g_task_id g).

Definition plan_ok (db : DB) (sc : scope) (revision : Z) (r : PlanRow) : Prop :=
  plan_checks revision r = true
  ∧ ∃ g, goals db !! (sc, p_goal_id r) = Some g ∧ g_task_id g = p_task_id r.

Definition execution_ok (db : DB) (sc : scope) (x : ExecutionRow) : Prop :=
  execution_checks x = true
  ∧ ∃ r, plans db !! (sc, (x_plan_id x, x_plan_revision x)) = Some r ∧ p_task_id r = x_task_id x ∧ p_goal_id r = x_goal_id x.

Section spec.
Variable pg_ts : Time → Time.
Variable pg_jsonb : string → result string.
Variable collate : string → string → bool.
Variable order : ExecutionPlan → list NodeID.
Hypothesis order_visits : ∀ plan, range_order (order plan) (Plan_Nodes plan).
Variable J : Codec.

(** [t] is what the database keeps of the encoding of [v]. *)
Definition stored {A} (marshal : A → result string) (v : A) (t : string) : Prop :=
  ∃ text, marshal v = Ok text ∧ pg_jsonb text = Ok t.

(** The body that is stored for a plan agrees with the row's columns. *)
Definition body_ok (id : PlanID) (revision : Z) (r : PlanRow) : Prop :=
  ∃ plan, stored (marshal_plan J) plan (p_plan_json r) ∧ well_formed plan
  ∧ (Plan_ID plan, Plan_Revision plan) = (id, revision) ∧ Plan_GoalRef plan = p_goal_id r
  ∧ Plan_ParentRevision plan = p_parent_revision r.

(** The lineage: every goal belongs to a task of its scope, every plan to a goal
    and every execution to a plan, all of the same task. *)
Record wf (db : DB) : Prop := {
  wf_goals : ∀ sc id g, goals db !! (sc, id) = Some g → goal_ok db sc g;
  wf_plans : ∀ sc id rev r, plans db !! (sc, (id, rev)) = Some r → plan_ok db sc rev r ∧ body_ok id rev r;
  wf_executions : ∀ sc id x, executions db !! (sc, id) = Some x → execution_ok db sc x
}.

(** What a call may do to the tables: add one checked row to the caller's scope. *)
Inductive adds (sc : scope) (db : DB) : DB → Prop :=
| adds_goal id g : goals db !! (sc, id) = None → goal_ok db sc g → adds sc db (set_goals (<[(sc, id) := g]> (goals db)) db)
| adds_plan id rev r : plans db !! (sc, (id, rev)) = None → plan_ok db sc rev r → body_ok id rev r →
    adds sc db (set_plans (<[(sc, (id, rev)) := r]> (plans db)) db)
| adds_execution id x : executions db !! (sc, id) = None → execution_ok db sc x →
    adds sc db (set_executions (<[(sc, id) := x]> (executions db)) db).

(** ** Calls *)

Inductive Call : Type :=
| CallCreateGoal (goal : Goal) | CallGetGoal (id : GoalID) | CallListGoals (task : string)
| CallCreatePlan (plan : ExecutionPlan) | CallGetPlan (id : PlanID) (revision : Z) | CallListPlans (task : string)
| CallCreateExecution (item : Execution) | CallGetExecution (id : ExecutionID) | CallListExecutions (task : string).

(** What a call returns. *)
Inductive Answer : Type :=
| AGoal (r : result Goal) | AGoals (r : result (list Goal))
| APlan (r : result ExecutionPlan) | APlans (r : result (list ExecutionPlan))
| AExecution (r : result Execution) | AExecutions (r : result (list Execution)).

Definition tag {A} (f : result A → Answer) (r : result A * DB) : Answer * DB := (f (fst r), snd r).

Definition call (env : TxEnv) (c : Call) (db : DB) : Answer * DB :=
  match c with
  | CallCreateGoal goal => tag AGoal (CreateGoal pg_jsonb J env goal db)
  | CallGetGoal id => tag AGoal (GetGoal J env id db)
  | CallListGoals task => tag AGoals (ListGoalsByTask collate J env task db)
  | CallCreatePlan plan => tag APlan (CreatePlan pg_ts pg_jsonb order J env plan db)
  | CallGetPlan id rev => tag APlan (GetPlan J env id rev db)
  | CallListPlans task => tag APlans (ListPlansByTask collate J env task db)
  | CallCreateExecution item => tag AExecution (CreateExecution pg_ts pg_jsonb J env item db)
  | CallGetExecution id => tag AExecution (GetExecution J env id db)
  | CallListExecutions task => tag AExecutions (ListExecutionsByTask collate J env task db)
  end.

(** The task store changes tasks and adds some; it deletes none and moves none to
    another scope. *)
Definition tasks_kept (ts ts' : gmap string Task) : Prop :=
  ∀ id t, ts !! id = Some t → ∃ t', ts' !! id = Some t'
    ∧ (Task_TenantID t', Task_ProjectID t') = (Task_TenantID t, Task_ProjectID t).

Inductive step (db : DB) : DB → Prop :=
| step_call env c : step db (snd (call env c db))
| step_tasks ts : tasks_kept (tasks db) ts → step db (mkDB ts (goals db) (plans db) (executions db)).

(** ** Transactions *)

Lemma tx_cases {A} env (fn : Identity.Principal → DB → result (A * DB)) db r db' :
  withProjectTx env fn db = (r, db') →
  (db' = db ∧ ∃ e, r = Err e)
  ∨ ∃ p a, Identity.requireScopedPrincipal (env_ctx env) = Ok p ∧ fn p db = Ok (a, db') ∧ (r = Ok a ∨ ∃ e, r = Err e).
Proof.
  unfold withProjectTx. destruct (negb (env_db env)); [intros [= <- <-]; eauto|].
  destruct (Identity.requireScopedPrincipal _) as [p|e]; [|intros [= <- <-]; eauto].
  destruct (env_begin env); [intros [= <- <-]; eauto|]. destruct (exec_stmt env _) as [u|]; [|intros [= <- <-]; eauto].
  destruct (fn p db) as [[a db1]|e] eqn:Hf; [|intros [= <- <-]; eauto].
  destruct (env_commit env); intros [= <- <-]; eauto 10.
Qed.

Lemma tx_Ok {A} env (fn : Identity.Principal → DB → result (A * DB)) db a db' :
  withProjectTx env fn db = (Ok a, db') →
  ∃ p, Identity.requireScopedPrincipal (env_ctx env) = Ok p ∧ fn p db = Ok (a, db').
Proof.
  intros [(_ & e & [=])|(p & a' & Hp & Hf & [[= ->]|[e [=]]])]%tx_cases. eauto.
Qed.

Lemma tx_healthy {A} env p (fn : Identity.Principal → DB → result (A * DB)) db a db' :
  healthy env p → fn p db = Ok (a, db') → withProjectTx env fn db = (Ok a, db').
Proof.
  intros Henv Hf. unfold withProjectTx. rewrite (healthy_stmt Henv). destruct Henv as [-> -> -> _ ->]. simpl. by rewrite Hf.
Qed.

Lemma labelled_Ok {A} label (r : result A) a : labelled label r = Ok a ↔ r = Ok a.
Proof. destruct r; simpl; split; congruence. Qed.

(** A transaction that only reads. *)
Lemma tx_reads {A} env (fn : Identity.Principal → DB → result (A * DB)) db :
  (∀ p a db', fn p db = Ok (a, db') → db' = db) → snd (withProjectTx env fn db) = db.
Proof.
  intros Hfn. destruct (withProjectTx env fn db) as [r db'] eqn:E. simpl.
  destruct (tx_cases _ _ _ _ _ E) as [[? _]|(p & a & _ & Hf & _)]; eauto.
Qed.

Ltac reads :=
  apply tx_reads; intros p a db' H; do 3 apply bind_Ok in H as (? & _ & H); by injection H.

Lemma GetGoal_reads env id db : snd (GetGoal J env id db) = db.
Proof.
  apply tx_reads. intros p a db' H. bind_inv H x Hx. destruct (goals db !! _) as [row|]; [|done]. bind_inv H g Hg. by injection H.
Qed.
Lemma GetPlan_reads env id rev db : snd (GetPlan J env id rev db) = db.
Proof.
  apply tx_reads. intros p a db' H. bind_inv H x Hx. destruct (plans db !! _) as [row|]; [|done]. bind_inv H g Hg. by injection H.
Qed.
Lemma GetExecution_reads env id db : snd (GetExecution J env id db) = db.
Proof.
  apply tx_reads. intros p a db' H. bind_inv H x Hx. destruct (executions db !! _) as [row|]; [|done]. bind_inv H g Hg. by injection H.
Qed.
Lemma ListGoals_reads env task db : snd (ListGoalsByTask collate J env task db) = db.
Proof. reads. Qed.
Lemma ListPlans_reads env task db : snd (ListPlansByTask collate J env task db) = db.
Proof. reads. Qed.
Lemma ListExecutions_reads env task db : snd (ListExecutionsByTask collate J env task db) = db.
Proof. reads. Qed.

(** ** What the writes do *)

Lemma owns_task env p id db u : requireScopedTask env p id db = Ok u → owns db (scope_of p) id.
Proof.
  unfold requireScopedTask. intros H. bind_inv H x Hx. destruct (tasks db !! id) as [t|] eqn:Et; [|done].
  destruct (in_scope _ _ _) eqn:Es; [|done]. by exists t.
Qed.

Lemma insert_goal_adds env p id g db db' :
  insert_goal env p id g db = Ok db' → owns db (scope_of p) (g_task_id g) →
  adds (scope_of p) db db' ∧ db' = set_goals (<[(scope_of p, id) := g]> (goals db)) db
  ∧ goals db !! (scope_of p, id) = None.
Proof.
  unfold insert_goal. intros H Ho. bind_inv H x Hx. destruct (_ || _) eqn:E; [done|]. injection H as <-. go_props.
  assert (goals db !! (scope_of p, id) = None) as Hn by by apply eq_None_not_Some.
  split_and!; [by constructor|done..].
Qed.

Lemma insert_plan_adds env p id rev r db db' :
  insert_plan env p id rev r db = Ok db' → body_ok id rev r →
  adds (scope_of p) db db' ∧ db' = set_plans (<[(scope_of p, (id, rev)) := r]> (plans db)) db
  ∧ plans db !! (scope_of p, (id, rev)) = None.
Proof.
  unfold insert_plan. intros H Hb. bind_inv H x Hx. destruct (_ || _) eqn:E; [done|]. injection H as <-. go_props.
  assert (plans db !! (scope_of p, (id, rev)) = None) as Hn by by apply eq_None_not_Some.
  destruct (goals db !! (scope_of p, p_goal_id r)) as [g|] eqn:Eg; [|done]. go_props.
  split_and!; [constructor; try done; split; eauto|done..].
Qed.

Lemma insert_execution_adds env p id x db db' :
  insert_execution env p id x db = Ok db' →
  adds (scope_of p) db db' ∧ db' = set_executions (<[(scope_of p, id) := x]> (executions db)) db
  ∧ executions db !! (scope_of p, id) = None.
Proof.
  unfold insert_execution. intros H. bind_inv H y Hy. destruct (_ || _) eqn:E; [done|]. injection H as <-. go_props.
  assert (executions db !! (scope_of p, id) = None) as Hn by by apply eq_None_not_Some.
  destruct (plans db !! (scope_of p, (x_plan_id x, x_plan_revision x))) as [r|] eqn:Er; [|done]. go_props.
  split_and!; [constructor; try done; split; eauto|done..].
Qed.

Lemma jsonb_Ok label t t' : jsonb pg_jsonb label t = Ok t' ↔ pg_jsonb t = Ok t'.
Proof. apply labelled_Ok. Qed.

(** The rows of a goal, of a plan and of an execution created by [p]. *)
Definition goal_row (goal : Goal) (g : GoalRow) : Prop :=
  (g_task_id g, g_objective g) = (Goal_TaskRef goal, Goal_Objective goal)
  ∧ stored (marshal_criteria J) (Goal_AcceptanceCriteria goal) (g_acceptance_criteria g)
  ∧ stored (marshal_constraints J) (Goal_Constraints goal) (g_constraints g)
  ∧ stored (marshal_limit J) (Goal_Budget goal) (g_budget g).

Definition plan_row (plan : ExecutionPlan) (r : PlanRow) : Prop :=
  (p_goal_id r, p_parent_revision r, p_created_at r)
  = (Plan_GoalRef plan, Plan_ParentRevision plan, pg_ts (Plan_CreatedAt plan))
  ∧ stored (marshal_plan J) plan (p_plan_json r).

Definition execution_row (item : Execution) (x : ExecutionRow) : Prop :=
  (x_task_id x, x_goal_id x, Build_PlanRevisionRef (x_plan_id x) (x_plan_revision x))
  = (Execution_TaskRef item, Execution_GoalRef item, Execution_PlanRef item)
  ∧ (x_principal x, x_phase x) = (Identity_Principal (Execution_Identity item), Status_Phase (Execution_Status item))
  ∧ (x_created_at x, x_updated_at x) = (pg_ts (Execution_CreatedAt item), pg_ts (Execution_UpdatedAt item))
  ∧ stored (marshal_policy J) (Execution_PolicyContext item) (x_policy_context x)
  ∧ stored (marshal_budget J) (Execution_Budget item) (x_budget_state x)
  ∧ stored (marshal_status J) (Execution_Status item) (x_status_json x)
  ∧ stored (marshal_accounting J) (Execution_Accounting item) (x_accounting x).

(** [as_created env db r db' P]: either nothing was written and the call failed, or
    [P p a] says what was written for the caller [p], and [a] is the answer unless
    the call failed while it committed. *)
Definition as_created {A} (env : TxEnv) (db : DB) (res : result A * DB) (P : Identity.Principal → A → Prop) : Prop :=
  (snd res = db ∧ ∃ e, fst res = Err e)
  ∨ ∃ p a, Identity.requireScopedPrincipal (env_ctx env) = Ok p ∧ adds (scope_of p) db (snd res) ∧ P p a
    ∧ (fst res = Ok a ∨ ∃ e, fst res = Err e).

Lemma CreateGoal_cases env goal db :
  let res := CreateGoal pg_jsonb J env goal db in
  as_created env db res (λ p a, a = goal ∧ ∃ g, goal_row goal g ∧ goals db !! (scope_of p, Goal_ID goal) = None
    ∧ snd res = set_goals (<[(scope_of p, Goal_ID goal) := g]> (goals db)) db).
Proof.
  intros res. destruct res as [r db'] eqn:E. unfold res, CreateGoal in E. simpl in *.
  match type of E with match ?enc with _ => _ end = _ => destruct enc as [[[c k] b]|e] eqn:Henc end;
    [|injection E as <- <-; left; eauto].
  bind_inv Henc u Hu. bind_inv Henc c' Hc. bind_inv Henc k' Hk. bind_inv Henc b' Hb. injection Henc as -> -> ->.
  apply labelled_Ok in Hc, Hk, Hb.
  apply tx_cases in E as [(-> & e & ->)|(p & a & Hp & Hf & Hr)]; [left; eauto|right].
  bind_inv Hf w Hw. bind_inv Hf c1 Hc1. bind_inv Hf k1 Hk1. bind_inv Hf b1 Hb1. bind_inv Hf db1 Hi.
  injection Hf as <- ->. apply jsonb_Ok in Hc1, Hk1, Hb1.
  apply insert_goal_adds in Hi as (Ha & -> & Hn); [|by eapply owns_task].
  exists p, goal. do 2 (split; [done|]). split; [|done]. split; [done|]. eexists. split; [|by split; [|reflexivity]].
  split_and!; [done|eexists; eauto..].
Qed.

Lemma CreatePlan_cases env plan db :
  let res := CreatePlan pg_ts pg_jsonb order J env plan db in
  as_created env db res (λ p a, a = plan ∧ well_formed plan
    ∧ ∃ r, plan_row plan r ∧ plans db !! (scope_of p, (Plan_ID plan, Plan_Revision plan)) = None
    ∧ snd res = set_plans (<[(scope_of p, (Plan_ID plan, Plan_Revision plan)) := r]> (plans db)) db).
Proof.
  intros res. destruct res as [r db'] eqn:E. unfold res, CreatePlan in E. simpl in *.
  match type of E with match ?enc with _ => _ end = _ => destruct enc as [body|e] eqn:Henc end;
    [|injection E as <- <-; left; eauto].
  bind_inv Henc u Hu. bind_inv Henc v Hv. apply labelled_Ok in Henc. destruct u. apply validatePlan_wf in Hu; [|done].
  apply tx_cases in E as [(-> & e & ->)|(p & a & Hp & Hf & Hr)]; [left; eauto|right].
  bind_inv Hf task Ht. bind_inv Hf b1 Hb1. bind_inv Hf db1 Hi. injection Hf as <- ->. apply jsonb_Ok in Hb1.
  apply insert_plan_adds in Hi as (Ha & -> & Hn).
  2:{ exists plan. split_and!; try done. eexists; eauto. }
  exists p, plan. do 2 (split; [done|]). split; [|done]. split_and!; [done..|]. eexists. split; [|by split; [|reflexivity]].
  split; [done|]. eexists; eauto.
Qed.

Lemma CreateExecution_cases env item db :
  let res := CreateExecution pg_ts pg_jsonb J env item db in
  as_created env db res (λ p a, a = set_identity item (filled_identity p (Execution_Identity item))
    ∧ Status_Phase (Execution_Status item) ≠ PhaseZero
    ∧ Identity_Tenant (Execution_Identity a) = Identity.TenantID p
    ∧ ∃ x, execution_row a x ∧ executions db !! (scope_of p, Execution_ID item) = None
    ∧ snd res = set_executions (<[(scope_of p, Execution_ID item) := x]> (executions db)) db).
Proof.
  intros res. destruct res as [r db'] eqn:E. unfold res, CreateExecution in E. simpl in *.
  match type of E with match ?enc with _ => _ end = _ => destruct enc as [[[[c k] b] s]|e] eqn:Henc end;
    [|injection E as <- <-; left; eauto].
  bind_inv Henc u Hu. bind_inv Henc c' Hc. bind_inv Henc k' Hk. bind_inv Henc b' Hb. bind_inv Henc s' Hs.
  injection Henc as -> -> -> ->. apply labelled_Ok in Hc, Hk, Hb, Hs.
  apply tx_cases in E as [(-> & e & ->)|(p & a & Hp & Hf & Hr)]; [left; eauto|right].
  bind_inv Hf w Hw. bind_inv Hf task Ht. bind_inv Hf v Hv. bind_inv Hf y Hy. bind_inv Hf row Hrow. bind_inv Hf z Hz.
  bind_inv Hf c1 Hc1. bind_inv Hf k1 Hk1. bind_inv Hf b1 Hb1. bind_inv Hf s1 Hs1. bind_inv Hf db1 Hi.
  injection Hf as <- ->. apply jsonb_Ok in Hc1, Hk1, Hb1, Hs1.
  apply insert_execution_adds in Hi as (Ha & -> & Hn).
  exists p, (set_identity item (filled_identity p (Execution_Identity item))). do 2 (split; [done|]). split; [|done].
  split_and!; [done| | |].
  - intros Hph. unfold validateExecutionLineage in Hu. rewrite Hph in Hu. by destruct (_ || _) in Hu.
  - destruct (_ !=? _) eqn:Hten in Hw; [done|]. by go_props.
  - eexists. split; [|by split; [|reflexivity]]. split_and!; try (eexists; eauto); try done.
    by destruct item as [? ? ? []].
Qed.

(** ** Growth *)

Lemma as_created_adds {A} env db (res : result A * DB) P :
  as_created env db res P →
  snd res = db ∨ ∃ p, Identity.requireScopedPrincipal (env_ctx env) = Ok p ∧ adds (scope_of p) db (snd res).
Proof. intros [[? _]|(p & a & ? & ? & _)]; eauto. Qed.

Lemma call_adds env c db :
  snd (call env c db) = db
  ∨ ∃ p, Identity.requireScopedPrincipal (env_ctx env) = Ok p ∧ adds (scope_of p) db (snd (call env c db)).
Proof.
  destruct c; simpl; try (left; first [apply GetGoal_reads|apply GetPlan_reads|apply GetExecution_reads
    |apply ListGoals_reads|apply ListPlans_reads|apply ListExecutions_reads]);
    eapply as_created_adds; [apply CreateGoal_cases|apply CreatePlan_cases|apply CreateExecution_cases].
Qed.

(** Nothing is lost or changed. *)
Record grows (db db' : DB) : Prop := {
  grows_tasks : tasks_kept (tasks db) (tasks db');
  grows_goals : goals db ⊆ goals db';
  grows_plans : plans db ⊆ plans db';
  grows_executions : executions db ⊆ executions db'
}.

#[export] Instance grows_preorder : PreOrder grows.
Proof.
  split.
  - intros db. split; [|done..]. intros id t Ht. by exists t.
  - intros a b c [T1 G1 P1 X1] [T2 G2 P2 X2]. split; [|by etrans..].
    intros id t Ht. destruct (T1 _ _ Ht) as (t1 & Ht1 & <-). exact (T2 _ _ Ht1).
Qed.

Lemma adds_grows sc db db' : adds sc db db' → grows db db'.
Proof.
  intros Ha. assert (tasks_kept (tasks db) (tasks db)) by (intros id t ?; eauto).
  destruct Ha; split; simpl; try done; by apply insert_subseteq.
Qed.

Lemma step_grows db db' : step db db' → grows db db'.
Proof.
  destruct 1 as [env c|ts Hts]; [|by split].
  destruct (call_adds env c db) as [->|(p & _ & Ha)]; [done|by eapply adds_grows].
Qed.

Lemma steps_grow db db' : rtc step db db' → grows db db'.
Proof. induction 1 as [|a b c Hab _ IH]; [done|]. etrans; [by apply step_grows|done]. Qed.

(** Rows stay well formed while the tables grow. *)
Lemma owns_grows db db' sc id : grows db db' → owns db sc id → owns db' sc id.
Proof.
  intros Hg (t & Ht & Hs). destruct (grows_tasks _ _ Hg _ _ Ht) as (t' & Ht' & [= E1 E2]).
  exists t'. by rewrite E1, E2.
Qed.

Lemma goal_ok_grows db db' sc g : grows db db' → goal_ok db sc g → goal_ok db' sc g.
Proof. intros Hg [? ?]. split; [done|by eapply owns_grows]. Qed.

Lemma plan_ok_grows db db' sc rev r : grows db db' → plan_ok db sc rev r → plan_ok db' sc rev r.
Proof.
  intros Hg (? & g & Hk & ?). split; [done|]. exists g. split; [|done]. eapply lookup_weaken; [done|apply Hg].
Qed.

Lemma execution_ok_grows db db' sc x : grows db db' → execution_ok db sc x → execution_ok db' sc x.
Proof.
  intros Hg (? & r & Hk & ?). split; [done|]. exists r. split; [|done]. eapply lookup_weaken; [done|apply Hg].
Qed.

Lemma adds_wf sc db db' : adds sc db db' → wf db → wf db'.
Proof.
  intros Ha Hwf. pose proof (adds_grows _ _ _ Ha) as Hg. destruct Hwf as [Wg Wp Wx].
  assert (∀ sc id g, goals db !! (sc, id) = Some g → goal_ok db' sc g) as Vg by eauto using goal_ok_grows.
  assert (∀ sc id rev r, plans db !! (sc, (id, rev)) = Some r → plan_ok db' sc rev r ∧ body_ok id rev r) as Vp.
  { intros sc' id rev r Hr. destruct (Wp _ _ _ _ Hr). eauto using plan_ok_grows. }
  assert (∀ sc id x, executions db !! (sc, id) = Some x → execution_ok db' sc x) as Vx by eauto using execution_ok_grows.
  destruct Ha as [id g _ Hok|id rev r _ Hok Hb|id x _ Hok]; split; try done; intros sc'.
  - intros id' g'. simpl. intros [[[= -> ->] <-]|[_ ?]]%lookup_insert_Some; [by eapply goal_ok_grows|by eapply Vg].
  - intros id' rev' r'. simpl. intros [[[= -> -> ->] <-]|[_ ?]]%lookup_insert_Some; [|by apply Vp].
    split; [by eapply plan_ok_grows|done].
  - intros id' x'. simpl. intros [[[= -> ->] <-]|[_ ?]]%lookup_insert_Some; [by eapply execution_ok_grows|by eapply Vx].
Qed.

Lemma step_wf db db' : step db db' → wf db → wf db'.
Proof.
  intros Hs Hwf. pose proof (step_grows _ _ Hs) as Hg. destruct Hs as [env c|ts Hts].
  - destruct (call_adds env c db) as [->|(p & _ & Ha)]; [done|by eapply adds_wf].
  - destruct Hwf as [Wg Wp Wx]. split; simpl; [eauto using goal_ok_grows| |eauto using execution_ok_grows].
    intros sc id rev r Hr. destruct (Wp _ _ _ _ Hr). eauto using plan_ok_grows.
Qed.

Lemma steps_wf db db' : rtc step db db' → wf db → wf db'.
Proof. induction 1; eauto using step_wf. Qed.

Definition no_lineage (db : DB) : Prop := goals db = ∅ ∧ plans db = ∅ ∧ executions db = ∅.

Lemma no_lineage_wf db : no_lineage db → wf db.
Proof. intros (Hg & Hp & Hx). split; [rewrite Hg|rewrite Hp|rewrite Hx]; intros; by rewrite lookup_empty in *. Qed.

(** C10. The lineage is sound.  Start from tables without goals, plans and
    executions.  After any calls, by any callers, with statements and commits that
    fail in any way and the task store running next to it: every goal belongs to a
    task of its own scope; every plan is well formed, its stored body has the
    row's id, revision, goal and parent, its parent revision is smaller, and its
    goal exists and is of the same task; every execution's plan exists and is of
    the same task and goal. *)
Theorem lineage_is_sound db db' : no_lineage db → rtc step db db' → wf db'.
Proof. intros H0 Hs. eapply steps_wf; [done|by apply no_lineage_wf]. Qed.

(** The lineage is append-only and confined to the caller's scope.  Over any
    history no goal, plan or execution is changed or removed, and no task it may
    refer to is lost.  One call changes nothing, or adds one row under a key of its
    caller's tenant and project that was free. *)
Theorem lineage_is_append_only db db' :
  rtc step db db' →
  (goals db ⊆ goals db' ∧ plans db ⊆ plans db' ∧ executions db ⊆ executions db')
  ∧ ∀ env c, snd (call env c db') = db'
    ∨ ∃ p, Identity.requireScopedPrincipal (env_ctx env) = Ok p ∧ adds (scope_of p) db' (snd (call env c db')).
Proof. intros Hs%steps_grow. split; [by destruct Hs|]. intros env c. apply call_adds. Qed.

(** ** Reading back *)











(** ** Calls in which nothing fails *)

Lemma tx_healthy_Err {A} env p (fn : Identity.Principal → DB → result (A * DB)) db e :
  healthy env p → fn p db = Err e → withProjectTx env fn db = (Err e, db).
Proof.
  intros Henv Hf. unfold withProjectTx. rewrite (healthy_stmt Henv). destruct Henv as [-> -> -> _ _]. simpl. by rewrite Hf.
Qed.

Lemma GetGoal_absent env p id db :
  healthy env p → goals db !! (scope_of p, id) = None → GetGoal J env id db = (Err ErrNotFound, db).
Proof. intros Henv Hk. eapply tx_healthy_Err; [done|]. by rewrite (healthy_stmt Henv), Hk. Qed.

Lemma GetPlan_absent env p id rev db :
  healthy env p → plans db !! (scope_of p, (id, rev)) = None → GetPlan J env id rev db = (Err ErrNotFound, db).
Proof. intros Henv Hk. eapply tx_healthy_Err; [done|]. by rewrite (healthy_stmt Henv), Hk. Qed.

Lemma owns_found env p id db : healthy env p → owns db (scope_of p) id → requireScopedTask env p id db = Ok tt.
Proof. intros Henv (t & Ht & Hs). unfold requireScopedTask. by rewrite (healthy_stmt Henv), Ht; simpl; rewrite Hs. Qed.

Lemma CreateGoal_healthy env p goal db c k b :
  healthy env p → validateGoalLineage goal = Ok tt →
  stored (marshal_criteria J) (Goal_AcceptanceCriteria goal) c → stored (marshal_constraints J) (Goal_Constraints goal) k →
  stored (marshal_limit J) (Goal_Budget goal) b →
  btrim_nonempty (Goal_Objective goal) = true → owns db (scope_of p) (Goal_TaskRef goal) →
  goals db !! (scope_of p, Goal_ID goal) = None →
  let row := mkGoalRow (Goal_TaskRef goal) (Goal_Objective goal) c k b (env_now env) in
  CreateGoal pg_jsonb J env goal db = (Ok goal, set_goals (<[(scope_of p, Goal_ID goal) := row]> (goals db)) db).
Proof.
  intros Henv Hv (c0 & Hc & Hc') (k0 & Hk & Hk') (b0 & Hb & Hb') Ho Hown Hn row. unfold CreateGoal.
  rewrite Hv, Hc, Hk, Hb. simpl. apply tx_healthy with p; [done|]. rewrite owns_found by done. simpl.
  unfold jsonb. rewrite Hc', Hk', Hb'. simpl. unfold insert_goal. rewrite (healthy_stmt Henv), Hn. simpl.
  unfold goal_checks. simpl. rewrite Ho. by destruct Hown as (t & -> & _).
Qed.

Lemma CreatePlan_healthy env p plan db b g :
  healthy env p → well_formed plan → IsZero (Plan_CreatedAt plan) = false → stored (marshal_plan J) plan b →
  goals db !! (scope_of p, Plan_GoalRef plan) = Some g → owns db (scope_of p) (g_task_id g) →
  plans db !! (scope_of p, (Plan_ID plan, Plan_Revision plan)) = None →
  let row := mkPlanRow (g_task_id g) (Plan_GoalRef plan) (Plan_ParentRevision plan) b (pg_ts (Plan_CreatedAt plan)) in
  plan_checks (Plan_Revision plan) row = true →
  CreatePlan pg_ts pg_jsonb order J env plan db
  = (Ok plan, set_plans (<[(scope_of p, (Plan_ID plan, Plan_Revision plan)) := row]> (plans db)) db).
Proof.
  intros Henv Hwf Hz (b0 & Hb & Hb') Hg Hown Hn row Hck. unfold CreatePlan.
  assert (validatePlan order plan = Ok tt) as ->.
  { by apply validatePlan_wf. }
  rewrite Hz, Hb. simpl. apply tx_healthy with p; [done|]. unfold goal_task, jsonb. rewrite (healthy_stmt Henv). simpl.
  rewrite Hg. simpl. rewrite Hb'. simpl. unfold insert_plan. rewrite (healthy_stmt Henv), Hn. fold row.
  rewrite Hck. simpl. rewrite Hg.
  destruct Hown as (t & -> & _). simpl. by rewrite bool_decide_eq_true_2.
Qed.

(** What a successful read has seen. *)
Lemma GetGoal_Ok env id goal db db' :
  GetGoal J env id db = (Ok goal, db') →
  db' = db ∧ ∃ p g, Identity.requireScopedPrincipal (env_ctx env) = Ok p ∧ goals db !! (scope_of p, id) = Some g
    ∧ decode_goal J id g = Ok goal.
Proof.
  intros (p & Hp & Hf)%tx_Ok. bind_inv Hf u Hu. destruct (goals db !! _) as [g|] eqn:Hg; [|done]. bind_inv Hf x Hx.
  injection Hf as -> ->. eauto 10.
Qed.

Lemma GetPlan_Ok env id rev plan db db' :
  GetPlan J env id rev db = (Ok plan, db') →
  db' = db ∧ ∃ p r, Identity.requireScopedPrincipal (env_ctx env) = Ok p ∧ plans db !! (scope_of p, (id, rev)) = Some r
    ∧ decode_plan J r = Ok plan.
Proof.
  intros (p & Hp & Hf)%tx_Ok. bind_inv Hf u Hu. destruct (plans db !! _) as [r|] eqn:Hr; [|done]. bind_inv Hf x Hx.
  injection Hf as -> ->. eauto 10.
Qed.

Lemma decode_goal_id id g goal : decode_goal J id g = Ok goal → Goal_ID goal = id.
Proof. unfold decode_goal. intros H. bind_inv H a Ha. bind_inv H b Hb. bind_inv H c Hc. by injection H as <-. Qed.


End spec.
End LineageSpec.

(** * LineageScope: tenants do not see each other's lineage

    Two databases that agree on what belongs to a scope are told apart by no call
    of a caller of that scope, lists included; the rows of other scopes are left
    as they are. *)

Module LineageScope.
Import Domain Lineage LineageSpec.
Import LeaseSchema(TxEnv, env_db, env_ctx, env_begin, env_now, env_commit, exec_stmt, violation,
  Committed, CommitFailed, CommitUnknown).
Import TaskSchema(ErrNotFound, in_scope).
Import ExecPlan(range_order).
Import Order(weak_order, wo_asym, wo_trans, SliceStable_sorted_on).

(** ** Sorting by a total order *)
Lemma SliceStable_total {A} (less : A → A → bool) (P : A → Prop) (l1 l2 : list A) :
  weak_order less P → Forall P l1 → l1 ≡ₚ l2 →
  (∀ x y, x ∈ l1 → y ∈ l1 → less x y = false → less y x = false → x = y) →
  SliceStable less l1 = SliceStable less l2.
Proof.
  intros Hwo HP Hp Heq.
  apply (StronglySorted_unique_strong (λ x y, less y x = false)).
  - intros x y. rewrite !SliceStable_Permutation, <- Hp. eauto.
  - by eapply SliceStable_sorted_on.
  - eapply SliceStable_sorted_on; [done|]. by rewrite <- Hp.
  - by rewrite !SliceStable_Permutation.
Qed.

Lemma elem_of_visible {K R} `{Countable K} (task : R → string) (p : Identity.Principal) (id : string) (m : gmap (string * string * K) R) k r :
  (k, r) ∈ visible task p id m ↔ m !! (scope_of p, k) = Some r ∧ task r = id.
Proof.
  unfold visible. rewrite list_elem_of_fmap. split.
  - intros ([[sc k'] r'] & [= -> ->] & Hin). apply list_elem_of_filter in Hin as [[Hsc Ht] Hin]. simpl in *.
    subst sc. by apply elem_of_map_to_list in Hin.
  - intros [Hk Ht]. exists ((scope_of p, k), r). split; [done|]. apply list_elem_of_filter. split; [done|].
    by apply elem_of_map_to_list.
Qed.

Lemma NoDup_visible {K R} `{Countable K} (task : R → string) (p : Identity.Principal) (id : string) (m : gmap (string * string * K) R) :
  NoDup (visible task p id m).
Proof.
  apply NoDup_fmap_2_strong; [|apply NoDup_filter, NoDup_map_to_list].
  intros [[sc1 k1] r1] [[sc2 k2] r2] H1 H2 [= -> ->].
  apply list_elem_of_filter in H1 as [[H1 _] _], H2 as [[H2 _] _]. simpl in *. congruence.
Qed.

Lemma visible_sorted_same {K R} `{Countable K} (task : R → string) (p : Identity.Principal) (id : string) (m1 m2 : gmap (string * string * K) R) less :
  (∀ k, m1 !! (scope_of p, k) = m2 !! (scope_of p, k)) → weak_order less (λ _, True) →
  (∀ x y, less x y = false → less y x = false → fst x = fst y) →
  SliceStable less (visible task p id m1) = SliceStable less (visible task p id m2).
Proof.
  intros Hm Hwo Htot. apply (SliceStable_total less (λ _, True)); [done|by apply Forall_true| |].
  - apply NoDup_Permutation; [apply NoDup_visible..|]. intros [k r]. by rewrite !elem_of_visible, Hm.
  - intros [k1 r1] [k2 r2]. rewrite !elem_of_visible. intros [H1 _] [H2 _] L1 L2.
    pose proof (Htot _ _ L1 L2). simpl in *. congruence.
Qed.

(** ** Views *)

Record same_view (sc : scope) (db1 db2 : DB) : Prop := {
  view_tasks : ∀ id, owns db1 sc id ↔ owns db2 sc id;
  view_goals : ∀ id, goals db1 !! (sc, id) = goals db2 !! (sc, id);
  view_plans : ∀ k, plans db1 !! (sc, k) = plans db2 !! (sc, k);
  view_executions : ∀ id, executions db1 !! (sc, id) = executions db2 !! (sc, id)
}.

#[export] Instance same_view_equiv sc : Equivalence (same_view sc).
Proof.
  split.
  - by split.
  - intros db1 db2 [T G P X]. split; intros; symmetry; [apply T|apply G|apply P|apply X].
  - intros a b c [T1 G1 P1 X1] [T2 G2 P2 X2]. split; intros; (etrans; [first [apply T1|apply G1|apply P1|apply X1]|first [apply T2|apply G2|apply P2|apply X2]]).
Qed.

(** Equal answers and databases that look the same. *)
Definition same_outcome {A} (sc : scope) (r1 r2 : result (A * DB)) : Prop :=
  match r1, r2 with
  | Ok (a1, db1), Ok (a2, db2) => a1 = a2 ∧ same_view sc db1 db2
  | Err e1, Err e2 => e1 = e2
  | _, _ => False
  end.

Lemma bind_same {A B} sc (r : result A) (k1 k2 : A → result (B * DB)) :
  (∀ a, r = Ok a → same_outcome sc (k1 a) (k2 a)) → same_outcome sc (r ≫= k1) (r ≫= k2).
Proof. intros Hk. destruct r as [a|e]; [by apply Hk|done]. Qed.

Section scope.
Variable pg_ts : Time → Time.
Variable pg_jsonb : string → result string.
Variable collate : string → string → bool.
Variable order : ExecutionPlan → list NodeID.
Hypothesis order_visits : ∀ plan, range_order (order plan) (Plan_Nodes plan).
Variable J : Codec.

(** A deterministic collation orders all texts. *)
Record collation : Prop := {
  collate_asym : ∀ a b, collate a b = true → collate b a = false;
  collate_trans : ∀ a b c, collate b a = false → collate c b = false → collate c a = false;
  collate_total : ∀ a b, collate a b = false → collate b a = false → a = b
}.
Hypothesis Hcol : collation.

Abbreviation wf := (wf pg_jsonb J).

Lemma tx_same {A} env p (fn : Identity.Principal → DB → result (A * DB)) db1 db2 :
  Identity.requireScopedPrincipal (env_ctx env) = Ok p → same_view (scope_of p) db1 db2 →
  same_outcome (scope_of p) (fn p db1) (fn p db2) →
  let r1 := withProjectTx env fn db1 in let r2 := withProjectTx env fn db2 in
  fst r1 = fst r2 ∧ same_view (scope_of p) (snd r1) (snd r2).
Proof.
  intros Hp Hv Hf. unfold withProjectTx. rewrite Hp. destruct (negb (env_db env)); [done|].
  destruct (env_begin env); [done|]. destruct (exec_stmt env _); [|done]. unfold same_outcome in Hf.
  destruct (fn p db1) as [[a1 d1]|e1], (fn p db2) as [[a2 d2]|e2]; try done.
  - destruct Hf as [-> Hd]. by destruct (env_commit env).
  - by rewrite Hf.
Qed.

Lemma row_before_order {A} (at_ : A → Time) : weak_order (row_before collate at_) (λ _, True).
Proof.
  destruct Hcol as [Ca Ct _]. unfold row_before. split.
  - intros [k1 r1] [k2 r2] _ _. simpl. intros [H|H]%orb_true_iff; apply orb_false_iff; go_props.
    + split; [apply Z.ltb_ge; lia|]. apply andb_false_iff. left. apply Z.eqb_neq. lia.
    + split; [apply Z.ltb_ge; lia|]. apply andb_false_iff. right. auto.
  - intros [k1 r1] [k2 r2] [k3 r3] _ _ _. simpl. intros [H1 H1']%orb_false_iff [H2 H2']%orb_false_iff.
    apply orb_false_iff. go_props. split; [apply Z.ltb_ge; lia|].
    destruct (Z.eqb_spec (at_ r3) (at_ r1)) as [E|]; [|done]. simpl.
    assert (at_ r2 = at_ r1) as E2 by lia. rewrite E2 in *. rewrite E, Z.eqb_refl in *.
    destruct H1' as [?|H1'], H2' as [?|H2']; try done. eauto.
Qed.

Lemma row_before_total {A} (at_ : A → Time) x y :
  row_before collate at_ x y = false → row_before collate at_ y x = false → fst x = fst y.
Proof.
  unfold row_before. intros [H1 H1']%orb_false_iff [H2 H2']%orb_false_iff. go_props.
  assert (at_ (snd x) = at_ (snd y)) as E by lia. rewrite E, Z.eqb_refl in *.
  destruct H1' as [?|H1'], H2' as [?|H2']; try done. by apply (collate_total Hcol).
Qed.

Lemma plan_before_spec x y :
  plan_before collate x y = true ↔
  (p_created_at (snd x) < p_created_at (snd y))%Z
  ∨ p_created_at (snd x) = p_created_at (snd y)
    ∧ (collate (fst (fst x)) (fst (fst y)) = true ∨ fst (fst x) = fst (fst y) ∧ (snd (fst x) < snd (fst y))%Z).
Proof.
  unfold plan_before. rewrite !orb_true_iff, !andb_true_iff, orb_true_iff, andb_true_iff, !Z.ltb_lt, Z.eqb_eq, negb_true_iff.
  destruct (collate (fst (fst x)) (fst (fst y))) eqn:E1; [naive_solver|].
  assert (collate (fst (fst y)) (fst (fst x)) = false ↔ fst (fst x) = fst (fst y)) as ->; [|done].
  split; [by apply (collate_total Hcol)|]. intros E. by rewrite E in *.
Qed.

Lemma collate_irrefl a : collate a a = false.
Proof. destruct (collate a a) eqn:E; [|done]. by rewrite (collate_asym Hcol _ _ E) in E. Qed.

Lemma collate_le_lt a b c : collate b a = false → collate b c = true → collate a c = true ∨ a = b.
Proof.
  intros H1 H2. destruct (collate a b) eqn:E; [|right; by apply (collate_total Hcol)].
  left. destruct (collate a c) eqn:E2; [done|].
  assert (collate a b = false) by (eapply (collate_trans Hcol); [|exact E2]; by apply (collate_asym Hcol)). congruence.
Qed.

Lemma plan_before_false x y :
  plan_before collate x y = false ↔
  (p_created_at (snd y) < p_created_at (snd x))%Z
  ∨ p_created_at (snd x) = p_created_at (snd y)
    ∧ (collate (fst (fst y)) (fst (fst x)) = true ∨ fst (fst x) = fst (fst y) ∧ (snd (fst y) ≤ snd (fst x))%Z).
Proof.
  rewrite <- not_true_iff_false, plan_before_spec. destruct x as [[i1 r1] x], y as [[i2 r2] y]. simpl.
  destruct (Z.lt_trichotomy (p_created_at x) (p_created_at y)) as [?|[?|?]], (collate i1 i2) eqn:E1, (collate i2 i1) eqn:E2;
    try (intuition (congruence || lia); fail).
  - by rewrite (collate_asym Hcol _ _ E1) in E2.
  - assert (i1 = i2) as -> by by apply (collate_total Hcol). destruct (Z.lt_ge_cases r1 r2); intuition (congruence || lia).
Qed.

Lemma plan_before_order : weak_order (plan_before collate) (λ _, True).
Proof.
  split.
  - intros [[i1 r1] x] [[i2 r2] y] _ _. rewrite plan_before_spec, plan_before_false. simpl.
    intros [?|[? [?|[? ?]]]]; [left; lia|right; split; [lia|by left]|right; split; [lia|right; split; [done|lia]]].
  - intros [[i1 r1] x] [[i2 r2] y] [[i3 r3] z] _ _ _. rewrite !plan_before_false. simpl.
    intros [?|[E1 H1]] [?|[E2 H2]]; [left; lia..|]. right. split; [congruence|].
    destruct H1 as [H1|[-> H1]], H2 as [H2|[-> H2]]; [left| |by left|right; split; [done|lia]].
    + destruct (collate_le_lt i1 i2 i3) as [?|E]; [by apply (collate_asym Hcol)|done|done|].
      subst. by rewrite collate_irrefl in H1.
    + by left.
Qed.

Lemma plan_before_total x y : plan_before collate x y = false → plan_before collate y x = false → fst x = fst y.
Proof.
  rewrite !plan_before_false. destruct x as [[i1 r1] x], y as [[i2 r2] y]. simpl.
  intros [?|[E1 H1]] [?|[E2 H2]]; try lia.
  destruct H1 as [H1|[-> H1]], H2 as [H2|[E3 H2]]; subst; rewrite ?collate_irrefl in *; try done.
  - by rewrite (collate_asym Hcol _ _ H1) in H2.
  - f_equal. lia.
Qed.

(** ** Statements *)
Section views.
Context {p : Identity.Principal} {db1 db2 : DB}.
Context (Hwf2 : wf db2) (Hv : same_view (scope_of p) db1 db2).

Lemma requireScopedTask_same env id : requireScopedTask env p id db1 = requireScopedTask env p id db2.
Proof.
  unfold requireScopedTask. destruct (exec_stmt env _) as [u|e]; simpl; [|done].
  assert (∀ db, match tasks db !! id with
    | Some t => if in_scope (scope_of p) (Task_TenantID t) (Task_ProjectID t) then Ok tt else Err ErrNotFound
    | None => Err ErrNotFound end = Ok tt ↔ owns db (scope_of p) id) as Hb.
  { intros db. unfold owns. split.
    - destruct (tasks db !! id) as [t|]; [|done]. destruct (in_scope _ _ _) eqn:E; [|done]. by exists t.
    - by intros (t & -> & ->). }
  pose proof (Hb db1) as H1. pose proof (Hb db2) as H2. rewrite (view_tasks _ _ _ Hv), <- H2 in H1.
  destruct (tasks db1 !! id), (tasks db2 !! id); repeat destruct (in_scope _ _ _); try done;
    first [discriminate (proj1 H1 eq_refl)|discriminate (proj2 H1 eq_refl)].
Qed.

Lemma owns_present db id : owns db (scope_of p) id → bool_decide (tasks db !! id = None) = false.
Proof. intros (t & -> & _). done. Qed.

Lemma insert_goal_same {A} (a : A) env id g :
  owns db1 (scope_of p) (g_task_id g) →
  same_outcome (scope_of p) (db ← insert_goal env p id g db1; Ok (a, db)) (db ← insert_goal env p id g db2; Ok (a, db)).
Proof.
  intros Ho1. assert (owns db2 (scope_of p) (g_task_id g)) as Ho2 by by apply (view_tasks _ _ _ Hv).
  unfold insert_goal. destruct (exec_stmt env _) as [u|e]; simpl; [|done].
  rewrite !owns_present, (view_goals _ _ _ Hv) by done. destruct (_ || _); simpl; [done|]. split; [done|].
  destruct Hv as [Vt Vg Vp Vx]. split; simpl; try done. intros id'. by rewrite !lookup_insert, Vg.
Qed.

Lemma insert_plan_same {A} (a : A) env id rev r :
  same_outcome (scope_of p) (db ← insert_plan env p id rev r db1; Ok (a, db)) (db ← insert_plan env p id rev r db2; Ok (a, db)).
Proof.
  unfold insert_plan. destruct (exec_stmt env _) as [u|e]; simpl; [|done].
  rewrite (view_plans _ _ _ Hv), (view_goals _ _ _ Hv).
  destruct (goals db2 !! (scope_of p, p_goal_id r)) as [g|] eqn:Eg; [|by rewrite !orb_true_r].
  destruct (g_task_id g ==? p_task_id r) eqn:Et; [|by rewrite !orb_true_r].
  go_props. rewrite <- Et.
  pose proof (wf_goals _ _ _ Hwf2 _ _ _ Eg) as [_ Ho2].
  assert (owns db1 (scope_of p) (g_task_id g)) as Ho1 by by apply (view_tasks _ _ _ Hv).
  rewrite !owns_present by done. destruct (_ || _); simpl; [done|]. split; [done|].
  destruct Hv as [Vt Vg Vp Vx]. split; simpl; try done. intros id'. by rewrite !lookup_insert, Vp.
Qed.

Lemma insert_execution_same {A} (a : A) env id x :
  same_outcome (scope_of p) (db ← insert_execution env p id x db1; Ok (a, db)) (db ← insert_execution env p id x db2; Ok (a, db)).
Proof.
  unfold insert_execution. destruct (exec_stmt env _) as [u|e]; simpl; [|done].
  rewrite (view_executions _ _ _ Hv), (view_plans _ _ _ Hv), (view_goals _ _ _ Hv).
  destruct (goals db2 !! (scope_of p, x_goal_id x)) as [g|] eqn:Eg; [|by rewrite !orb_true_r].
  destruct (g_task_id g ==? x_task_id x) eqn:Et; [|by rewrite !orb_true_r].
  go_props. rewrite <- Et.
  pose proof (wf_goals _ _ _ Hwf2 _ _ _ Eg) as [_ Ho2].
  assert (owns db1 (scope_of p) (g_task_id g)) as Ho1 by by apply (view_tasks _ _ _ Hv).
  rewrite !owns_present by done. destruct (_ || _); simpl; [done|]. split; [done|].
  destruct Hv as [Vt Vg Vp Vx]. split; simpl; try done. intros id'. by rewrite !lookup_insert, Vx.
Qed.

(** ** Calls *)

Lemma call_same env c :
  Identity.requireScopedPrincipal (env_ctx env) = Ok p →
  let r1 := call pg_ts pg_jsonb collate order J env c db1 in let r2 := call pg_ts pg_jsonb collate order J env c db2 in
  fst r1 = fst r2 ∧ same_view (scope_of p) (snd r1) (snd r2).
Proof.
  intros Hp. simpl.
  assert (∀ A (f : result A → Answer) (r1 r2 : result A * DB), fst r1 = fst r2 ∧ same_view (scope_of p) (snd r1) (snd r2) →
    fst (tag f r1) = fst (tag f r2) ∧ same_view (scope_of p) (snd (tag f r1)) (snd (tag f r2))) as Htag.
  { intros A f r1 r2 [E ?]. unfold tag. simpl. by rewrite E. }
  destruct c; simpl; apply Htag.
  - unfold CreateGoal. destruct (_ ≫= _) as [[[c k] b]|e]; [|done]. apply tx_same; [done..|].
    rewrite <- requireScopedTask_same. apply bind_same. intros u Hu%owns_task. do 3 (apply bind_same; intros ? _).
    by apply insert_goal_same.
  - apply tx_same; [done..|]. apply bind_same. intros u _. rewrite (view_goals _ _ _ Hv).
    destruct (goals db2 !! _) as [g|]; [|done]. apply bind_same. by intros a _.
  - apply tx_same; [done..|]. apply bind_same. intros u _.
    rewrite (visible_sorted_same _ _ _ _ (goals db2)); [|by apply Hv|apply row_before_order|apply row_before_total].
    do 2 (apply bind_same; intros ? _). done.
  - unfold CreatePlan. destruct (_ ≫= _) as [body|e]; [|done]. apply tx_same; [done..|].
    unfold goal_task. rewrite (view_goals _ _ _ Hv). apply bind_same. intros task _. apply bind_same. intros b _.
    apply insert_plan_same.
  - apply tx_same; [done..|]. apply bind_same. intros u _. rewrite (view_plans _ _ _ Hv).
    destruct (plans db2 !! _) as [r|]; [|done]. apply bind_same. by intros a _.
  - apply tx_same; [done..|]. apply bind_same. intros u _.
    rewrite (visible_sorted_same _ _ _ _ (plans db2)); [|by apply Hv|apply plan_before_order|apply plan_before_total].
    do 2 (apply bind_same; intros ? _). done.
  - unfold CreateExecution. destruct (_ ≫= _) as [[[[c k] b] s]|e]; [|done]. apply tx_same; [done..|].
    unfold goal_task. rewrite (view_goals _ _ _ Hv), (view_plans _ _ _ Hv). do 10 (apply bind_same; intros ? _).
    apply insert_execution_same.
  - apply tx_same; [done..|]. apply bind_same. intros u _. rewrite (view_executions _ _ _ Hv).
    destruct (executions db2 !! _) as [x|]; [|done]. apply bind_same. by intros a _.
  - apply tx_same; [done..|]. apply bind_same. intros u _.
    rewrite (visible_sorted_same _ _ _ _ (executions db2)); [|by apply Hv|apply row_before_order|apply row_before_total].
    do 2 (apply bind_same; intros ? _). done.
Qed.
End views.

Lemma adds_elsewhere sc sc' db db' : adds pg_jsonb J sc db db' → sc' ≠ sc → same_view sc' db db'.
Proof. intros [] Hne; split; simpl; try done; intros k'; rewrite lookup_insert_ne; congruence. Qed.

(** C24. Tenants and projects are isolated.  Take two databases that agree on the
    tasks, goals, plans and executions of the caller's scope, with a sound lineage.  Whatever the call, the caller gets the same answer from both,
    errors and the order of lists included, and they agree on the scope again
    afterwards; every other scope sees the same as before. *)
Theorem scopes_are_isolated env c p db1 db2 :
  wf db2 → Identity.requireScopedPrincipal (env_ctx env) = Ok p → same_view (scope_of p) db1 db2 →
  let run := call pg_ts pg_jsonb collate order J env c in
  fst (run db1) = fst (run db2) ∧ same_view (scope_of p) (snd (run db1)) (snd (run db2))
  ∧ ∀ sc, sc ≠ scope_of p → same_view sc db1 (snd (run db1)).
Proof.
  intros Hwf2 Hp Hv run. destruct (call_same Hwf2 Hv env c Hp) as [E V]. split_and!; [done..|].
  intros sc Hsc. unfold run. destruct (call_adds pg_ts pg_jsonb collate order order_visits J env c db1) as [->|(p' & Hp' & Ha)].
  - done.
  - eapply adds_elsewhere; [done|]. congruence.
Qed.
End scope.
End LineageScope.
