(* ===== verification/PlanningSystem.v ===== *)
(** * PlanningSystem: the planning step over the lineage store

    The planning activity ([Activities.Plan]) with its lineage requests served by
    the store ([Lineage]), while any other callers use the store between two of
    its requests; everything else it asks for may be answered in any way. *)
From stdpp Require Import vector.
From S2P Require Import Prelude Identity Domain ExecTypes ExecPlan Supervisor LeaseSchema LeaseLive TaskSchema GoStrings Programs.
From S2P Require Import Order Lifecycle LifecycleMemory Activities ActivitySpec Lineage LineageSpec.

Module PlanningSystem.
Import Domain Activities.
Import LeaseSchema(TxEnv, mkTxEnv, env_db, env_ctx, env_begin, env_fault, env_now, env_commit, Committed).
Import LeaseLive(healthy).
Import ExecPlan(well_formed, range_order).
Import Lifecycle(StepInput, mkStepInput, Step_TenantID, Step_ProjectID, Step_TaskID, Step_TraceID).
Import Lineage(DB, mkDB, tasks, goals, plans, executions, GoalRow, PlanRow, g_task_id, g_objective, p_goal_id, p_task_id,
  p_plan_json, Codec, marshal_plan, unmarshal_plan, scope_of).
Import LineageSpec.

Section system.
Variable pg_ts : Time → Time.
Variable pg_jsonb : string → result string.
Variable collate : string → string → bool.
Variable order : ExecutionPlan → list NodeID.
Hypothesis order_visits : ∀ plan, range_order (order plan) (Plan_Nodes plan).
Variable J : Codec.

Abbreviation steps := (rtc (step pg_ts pg_jsonb collate order J)).
Abbreviation wf := (wf pg_jsonb J).

(** The store's operation behind a request. *)
Definition lineage {X} (r : Req X) : option (TxEnv → DB → X * DB) :=
  match r in Req X return option (TxEnv → DB → X * DB) with
  | GetGoal id => Some (λ env, Lineage.GetGoal J env id)
  | CreateGoal goal => Some (λ env, Lineage.CreateGoal pg_jsonb J env goal)
  | GetPlan id rev => Some (λ env, Lineage.GetPlan J env id rev)
  | CreatePlan plan => Some (λ env, Lineage.CreatePlan pg_ts pg_jsonb order J env plan)
  | ListPlansByTask id => Some (λ env, Lineage.ListPlansByTask collate J env id)
  | GetExecution id => Some (λ env, Lineage.GetExecution J env id)
  | CreateExecution item => Some (λ env, Lineage.CreateExecution pg_ts pg_jsonb J env item)
  | _ => None
  end.

(** [e] is answered with [x], in some state of the connection. *)
Definition served {X} (db : DB) (e : Ev X) (x : X) (db' : DB) : Prop :=
  match e with
  | At ctx r =>
      match lineage r with
      | Some f => ∃ env, env_ctx env = ctx ∧ f env db = (x, db')
      | None => db' = db
      end
  end.

#[local] Arguments served : simpl never.

(** A run from [db] to [db'], among other callers. *)
Inductive run {A} : prog A → DB → list (exchange Ev) → prog A → DB → Prop :=
| run_nil p db : run p db [] p db
| run_others p db db1 t p' db' : step pg_ts pg_jsonb collate order J db db1 → run p db1 t p' db' → run p db t p' db'
| run_ask {X} (e : Ev X) x k db db1 t p' db' :
    served db e x db1 → run (k x) db1 t p' db' → run (Do e k) db (Asked e x :: t) p' db'.

(** ** Proofs about runs

    [swp h db p Q]: when the exchanges were [h] and the database [db], whatever
    others do, [p] returns only with [Q]. *)
Fixpoint swp {A} (h : list (exchange Ev)) (db : DB) (p : prog A) (Q : list (exchange Ev) → A → DB → Prop) : Prop :=
  match p with
  | Ret a => ∀ db', grows db db' → wf db' → Q h a db'
  | Do e k => ∀ db1 x db2, grows db db1 → wf db1 → served db1 e x db2 → swp (h ++ [Asked e x]) db2 (k x) Q
  end.

Lemma swp_Do {A X} h db (e : Ev X) (k : X → prog A) Q :
  (∀ db1 x db2, grows db db1 → wf db1 → served db1 e x db2 → swp (h ++ [Asked e x]) db2 (k x) Q) → swp h db (Do e k) Q.
Proof. done. Qed.

Lemma served_step {X} db (e : Ev X) x db' : served db e x db' → db' = db ∨ step pg_ts pg_jsonb collate order J db db'.
Proof.
  destruct e as [ctx r]. unfold served.
  assert (∀ env c, snd (LineageSpec.call pg_ts pg_jsonb collate order J env c db) = db' →
    db' = db ∨ step pg_ts pg_jsonb collate order J db db') as Hc.
  { intros env c <-. right. constructor. }
  destruct r; simpl; try (by left); intros (env & _ & H); apply (f_equal snd) in H; simpl in H.
  - by apply (Hc env (LineageSpec.CallGetGoal id)).
  - by apply (Hc env (LineageSpec.CallCreateGoal goal)).
  - by apply (Hc env (LineageSpec.CallGetPlan id revision)).
  - by apply (Hc env (LineageSpec.CallCreatePlan plan)).
  - by apply (Hc env (LineageSpec.CallListPlans id)).
  - by apply (Hc env (LineageSpec.CallGetExecution id)).
  - by apply (Hc env (LineageSpec.CallCreateExecution item)).
Qed.

Lemma run_steps {A} (p p' : prog A) db t db' : run p db t p' db' → steps db db'.
Proof.
  induction 1 as [|? ? ? ? ? ? Hs _ IH|? ? ? ? ? ? ? ? ? Hx _ IH]; [done|by eapply rtc_l|].
  destruct (served_step _ _ _ _ Hx) as [->|Hs]; [done|by eapply rtc_l].
Qed.

Lemma served_wf {X} db (e : Ev X) x db' : served db e x db' → wf db → wf db'.
Proof. intros [->|Hs]%served_step; [done|by eapply LineageSpec.step_wf]. Qed.

Lemma served_grows {X} db (e : Ev X) x db' : served db e x db' → grows db db'.
Proof. intros [->|Hs]%served_step; [done|by eapply LineageSpec.step_grows]. Qed.

Lemma swp_grows {A} h db db' (p : prog A) Q : grows db db' → swp h db p Q → swp h db' p Q.
Proof.
  intros Hg. destruct p as [a|X e k]; simpl; intros Hp.
  - intros db2 Hg2. apply Hp. by etrans.
  - intros db1 x db2 Hg2. apply Hp. by etrans.
Qed.

Lemma swp_bind {A B} h db (p : prog A) (f : A → prog B) Q :
  wf db → swp h db p (λ h a db, swp h db (f a) Q) → swp h db (p ≫= f) Q.
Proof.
  revert h db. induction p as [a|X e k IH]; intros h db Hwf; simpl.
  - intros Hp. by apply Hp.
  - intros Hp db1 x db2 Hg Hwf1 Hs. apply IH; [by eapply served_wf|by eapply Hp].
Qed.

Lemma run_sound {A} (p p' : prog A) db t db' h Q :
  run p db t p' db' → wf db → swp h db p Q → wf db' ∧ swp (h ++ t) db' p' Q.
Proof.
  intros Hr. revert h. induction Hr as [p db|p db db1 t p' db' Hs _ IH|X e x k db db1 t p' db' Hx _ IH]; intros h Hwf Hp.
  - by rewrite app_nil_r.
  - apply IH; [by eapply LineageSpec.step_wf|]. eapply swp_grows; [|done]. by eapply LineageSpec.step_grows.
  - replace (h ++ Asked e x :: t) with ((h ++ [Asked e x]) ++ t) by (by rewrite <- app_assoc).
    apply IH; [by eapply served_wf|]. by eapply Hp.
Qed.

Lemma run_returns {A} (p : prog A) db t a db' Q :
  run p db t (Ret a) db' → wf db → swp [] db p Q → Q t a db'.
Proof. intros Hr Hwf Hp. destruct (run_sound _ _ _ _ _ [] Q Hr Hwf Hp) as [Hwf' H]. by apply H. Qed.

(** ** Planning *)
Section planning.
Variable input : StepInput.
Let ctx : option Identity.Principal := executionWorkflowProjectContext input.

(** The scope the workflow's principal works in. *)
Definition workflow_scope : string * string := (TrimSpace (Step_TenantID input), TrimSpace (Step_ProjectID input)).

Lemma workflow_scope_of p : Identity.requireScopedPrincipal ctx = Ok p → scope_of p = workflow_scope.
Proof.
  intros Hp. apply Identity.requireScopedPrincipal_Ok, Identity.RequireProject_Ok in Hp as [Hp _].
  apply Identity.PrincipalFromContext_Some in Hp as (_ & _ & q & Hq & ->). unfold ctx, executionWorkflowProjectContext in Hq.
  injection Hq as <-. unfold scope_of, workflow_scope. simpl. by rewrite !TrimSpace_idem.
Qed.

(** The row of the plan, for a goal of the scope that is stored for the same task. *)
Definition planned (db : DB) (id : PlanID) (revision : Z) (r : PlanRow) (g : GoalRow) : Prop :=
  plans db !! (workflow_scope, (id, revision)) = Some r ∧ body_ok pg_jsonb J id revision r
  ∧ goals db !! (workflow_scope, p_goal_id r) = Some g ∧ g_task_id g = p_task_id r ∧ owns db workflow_scope (g_task_id g).

(** The row holds the plan that was built, for the goal and the task. *)
Definition holds_new (task : Task) (goal : Goal) (plan : ExecutionPlan) (r : PlanRow) (g : GoalRow) : Prop :=
  stored pg_jsonb (marshal_plan J) (Build_ExecutionPlan (Plan_ID plan) (Goal_ID goal) (Plan_Revision plan)
    (Plan_ParentRevision plan) (Plan_Nodes plan) (Plan_CreatedAt plan)) (p_plan_json r)
  ∧ p_goal_id r = Goal_ID goal ∧ g_task_id g = Task_ID task ∧ g_objective g = Goal_Objective goal.

(** The row was there, and reads as a plan for the goal. *)
Definition holds_old (goal : Goal) (r : PlanRow) : Prop :=
  ∃ existing, unmarshal_plan J (p_plan_json r) = Ok existing ∧ Plan_GoalRef existing = Goal_ID goal.

Lemma planned_intro db id rev r :
  wf db → plans db !! (workflow_scope, (id, rev)) = Some r → ∃ g, planned db id rev r g.
Proof.
  intros Hwf Hr. destruct (wf_plans _ _ _ Hwf _ _ _ _ Hr) as [(_ & g & Hg & Ht) Hb].
  exists g. split_and!; try done. apply (wf_goals _ _ _ Hwf _ _ _ Hg).
Qed.

Lemma served_GetPlan db id rev plan db' :
  served db (At ctx (GetPlan id rev)) (Ok plan) db' → wf db →
  ∃ r g, planned db' id rev r g ∧ unmarshal_plan J (p_plan_json r) = Ok plan.
Proof.
  intros (env & Henv & (-> & p & r & Hp & Hr & Hd)%GetPlan_Ok) Hwf. rewrite Henv in Hp.
  rewrite (workflow_scope_of _ Hp) in Hr. unfold Lineage.decode_plan in Hd. apply labelled_Ok in Hd.
  destruct (planned_intro _ _ _ _ Hwf Hr) as [g Hg]. eauto.
Qed.

Lemma served_CreatePlan db plan a db' :
  served db (At ctx (CreatePlan plan)) (Ok a) db' → wf db →
  ∃ r g, planned db' (Plan_ID plan) (Plan_Revision plan) r g ∧ p_goal_id r = Plan_GoalRef plan
    ∧ stored pg_jsonb (marshal_plan J) plan (p_plan_json r).
Proof.
  intros Hs Hwf. pose proof (served_wf _ _ _ _ Hs Hwf) as Hwf'. destruct Hs as (env & Henv & Hc).
  pose proof (CreatePlan_cases pg_ts pg_jsonb order order_visits J env plan db) as Hcs. simpl in Hc. rewrite Hc in Hcs.
  destruct Hcs as [(_ & e & [=])|(p & a' & Hp & _ & (_ & _ & r & ([= Hg _ _] & Hst) & _ & Edb) & _)]. simpl in Edb.
  assert (plans db' !! (workflow_scope, (Plan_ID plan, Plan_Revision plan)) = Some r) as Hr.
  { rewrite Edb. rewrite Henv in Hp. rewrite (workflow_scope_of _ Hp). apply lookup_insert_eq. }
  destruct (planned_intro _ _ _ _ Hwf' Hr) as [g Hpl]. exists r, g. by split_and!.
Qed.

Lemma planned_grows db db' id rev r g : planned db id rev r g → grows db db' → planned db' id rev r g.
Proof.
  intros (Hr & ? & Hg & ? & ?) Hgr.
  split_and!; try done; [by eapply lookup_weaken, Hgr|by eapply lookup_weaken, Hgr|by eapply owns_grows].
Qed.

(** The goal that was read or stored: its row. *)
Definition goal_stored (db : DB) (id : GoalID) (goal : Goal) : Prop :=
  Goal_ID goal = id ∧ ∃ g, goals db !! (workflow_scope, id) = Some g
    ∧ g_task_id g = Goal_TaskRef goal ∧ g_objective g = Goal_Objective goal.

Lemma goal_stored_grows db db' id goal : grows db db' → goal_stored db id goal → goal_stored db' id goal.
Proof. intros Hgr (Hid & g & Hg & H). split; [done|]. exists g. split; [by eapply lookup_weaken, Hgr|done]. Qed.

Lemma served_GetGoal db id goal db' : served db (At ctx (GetGoal id)) (Ok goal) db' → goal_stored db' id goal.
Proof.
  intros (env & Henv & (-> & p & g & Hp & Hg & Hd)%GetGoal_Ok). rewrite Henv in Hp. rewrite (workflow_scope_of _ Hp) in Hg.
  unfold Lineage.decode_goal in Hd. bind_inv Hd a Ha. bind_inv Hd b Hb. bind_inv Hd c Hc. injection Hd as <-.
  split; [done|]. by exists g.
Qed.

Lemma served_CreateGoal db goal a db' :
  served db (At ctx (CreateGoal goal)) (Ok a) db' → goal_stored db' (Goal_ID goal) a.
Proof.
  intros (env & Henv & Hc). pose proof (CreateGoal_cases pg_jsonb J env goal db) as Hcs. simpl in Hc. rewrite Hc in Hcs.
  destruct Hcs as [(_ & e' & [=])|(p & a' & Hp & _ & (-> & g & ([= Ht Ho] & _) & _ & Edb) & [[= ->]|[e' [=]]])].
  split; [done|]. exists g. simpl in Edb. split_and!; try done. rewrite Edb. rewrite Henv in Hp. rewrite (workflow_scope_of _ Hp). apply lookup_insert_eq.
Qed.

Lemma ensureGoal_stores h db goal Q :
  wf db → (∀ h' r db', grows db db' → wf db' → h ⊆ h' → (∀ g, r = Ok g → goal_stored db' (Goal_ID goal) g) → Q h' r db') →
  swp h db (ensureGoal ctx goal) Q.
Proof.
  intros Hwf HQ. simpl. intros db1 x db2 Hg1 Hwf1 Hs1. pose proof (served_grows _ _ _ _ Hs1) as G1.
  destruct x as [g|e]; simpl.
  { intros db' Hg Hw. apply HQ; [by repeat (etrans; [done|])|done|set_solver|]. intros ? [= <-].
    eapply goal_stored_grows; [exact Hg|by eapply served_GetGoal]. }
  destruct (negb _); simpl.
  { intros db' Hg Hw. by apply HQ; [by repeat (etrans; [done|])|done|set_solver|]. }
  intros db3 x db4 Hg2 Hwf2 Hs2. pose proof (served_grows _ _ _ _ Hs2) as G2. destruct x as [g|e2]; simpl.
  { intros db' Hg Hw. apply HQ; [by repeat (etrans; [done|])|done|set_solver|]. intros ? [= <-].
    eapply goal_stored_grows; [exact Hg|by eapply served_CreateGoal]. }
  intros db5 x db6 Hg3 Hwf3 Hs3. pose proof (served_grows _ _ _ _ Hs3) as G3. destruct x as [g|e3]; simpl.
  { intros db' Hg Hw. apply HQ; [by repeat (etrans; [done|])|done|set_solver|]. intros ? [= <-].
    eapply goal_stored_grows; [exact Hg|by eapply served_GetGoal]. }
  intros db' Hg Hw. by apply HQ; [by repeat (etrans; [done|])|done|set_solver|].
Qed.

Abbreviation answered h r x := (Asked (At ctx r) x ∈ h).

(** The task is of the workflow's tenant, project and trace. *)
Definition own_task (task : Task) : Prop :=
  Task_TenantID task = Step_TenantID input ∧ Task_ProjectID task = Step_ProjectID input ∧ Task_TraceID task = Step_TraceID input.

(** The goal is the snapshot of the task. *)
Definition snapshot (task : Task) (goal : Goal) : Prop :=
  Goal_ID goal = "goal/" +:+ Task_ID task +:+ "/v1" ∧ Goal_TaskRef goal = Task_ID task
  ∧ Goal_Objective goal = TrimSpace (Task_Input task) ∧ Goal_Objective goal ≠ "".

Lemma GoalSnapshot_snapshot task goal : GoalSnapshotFromTask task GoalSnapshotOptionsZero = Ok goal → snapshot task goal.
Proof.
  unfold GoalSnapshotFromTask, snapshot. destruct (blank _); [done|]. case_bool_decide; [done|]. by intros [= <-].
Qed.

(** What a planning step that succeeded leaves. *)
Definition outcome (h : list (exchange Ev)) (db : DB) (task : Task) (goal : Goal) (plan : ExecutionPlan) (r : PlanRow) (g : GoalRow)
    : Prop :=
  answered h (GetTask (Step_TaskID input)) (Ok task) ∧ own_task task ∧ snapshot task goal
  ∧ answered h (BuildPlan task goal) (Ok plan)
  ∧ planned db (Plan_ID plan) (Plan_Revision plan) r g ∧ (holds_new task goal plan r g ∨ holds_old goal r).

Definition durable (h : list (exchange Ev)) (res : result unit) (db : DB) : Prop :=
  res = Ok tt → ∃ task goal plan r g, outcome h db task goal plan r g.

Lemma Plan_durable db configured : wf db → swp [] db (Plan configured input) durable.
Proof.
  intros Hwf. unfold Plan. destruct (negb configured); [done|]. destruct (incomplete input); [done|]. fold ctx.
  simpl. intros db1 [task|e] db2 _ Hwf1 Hs1; [|done].
  destruct (out_of_scope task input) eqn:Hsc; [done|].
  destruct (GoalSnapshotFromTask task GoalSnapshotOptionsZero) as [goal|e] eqn:Hgoal; [|done].
  apply GoalSnapshot_snapshot in Hgoal.
  simpl. intros db3 [plan|e] db4 Hg2 Hwf2 Hs2; [|done].
  assert (own_task task) as Hown by (unfold out_of_scope, own_task in *; go_props; done).
  assert (∀ h db r g, planned db (Plan_ID plan) (Plan_Revision plan) r g → holds_new task goal plan r g ∨ holds_old goal r →
    answered h (GetTask (Step_TaskID input)) (Ok task) → answered h (BuildPlan task goal) (Ok plan) →
    ∀ db', grows db db' → wf db' → durable h (Ok tt) db') as Hdone.
  { intros h db' r g Hp Hn Ht Hb db'' Hg _ _. exists task, goal, plan, r, g. split_and!; try done. by eapply planned_grows. }
  apply swp_Do. intros db5 [existing|e] db6 Hg3 Hwf3 Hs3.
  { simpl. destruct (Plan_GoalRef existing !=? Goal_ID goal) eqn:Hr; simpl; [done|]. go_props.
    destruct (served_GetPlan _ _ _ _ _ Hs3 Hwf3) as (r & g & Hp & Hd). eapply Hdone; [exact Hp| |set_solver..].
    right. by exists existing. }
  unfold ask. cbn [mbind prog_bind bind]. destruct (negb _); [done|]. destruct (Task_Status task !=? TaskPlanning); [done|].
  pose proof (served_wf _ _ _ _ Hs3 Hwf3) as Hwf4. unfold storePlan, try. apply swp_bind; [done|].
  apply ensureGoal_stores; [done|]. intros h' r db7 Hg4 Hwf5 Hh Hid.
  destruct r as [pg|e2]; simpl; [|done]. destruct (Hid pg eq_refl) as (Hpg & grow & Hgrow & Hgt & Hgo).
  destruct (_ || _) eqn:Hgm; simpl; [done|]. rewrite orb_false_iff, !negb_false_iff, !bool_decide_eq_true in Hgm.
  destruct Hgm as [Hm1 Hm2].
  intros db8 [a|e2] db9 Hg5 Hwf6 Hs4; simpl.
  { destruct (served_CreatePlan _ _ _ _ Hs4 Hwf6) as (r & g & Hp & Hpid & Hst). simpl in Hp, Hpid, Hst.
    eapply Hdone; [exact Hp| |set_solver..]. left. rewrite Hpg in Hpid. unfold holds_new. rewrite <- Hpg at 1.
    split_and!; [exact Hst|done|..].
    all: destruct Hp as (_ & _ & Hg & _); rewrite Hpid in Hg; pose proof (served_grows _ _ _ _ Hs4) as G;
      assert (goals db9 !! (workflow_scope, Goal_ID goal) = Some grow) as Hg'
        by (eapply lookup_weaken; [|apply G]; by eapply lookup_weaken, Hg5);
      rewrite Hg' in Hg; injection Hg as <-; congruence. }
  intros dba [existing|e3] dbb Hg6 Hwf7 Hs5; simpl; [|done].
  destruct (Plan_GoalRef existing ==? Goal_ID pg) eqn:Hr; simpl; [|done]. go_props.
  destruct (served_GetPlan _ _ _ _ _ Hs5 Hwf7) as (r & g & Hp & Hd). eapply Hdone; [exact Hp| |set_solver..].
  right. exists existing. split; [done|congruence].
Qed.
End planning.

(** C9. Planning is durable.  Start with empty lineage tables and let any callers
    use the store; then run the planning step of a workflow, while others go on
    using the store, with connections that fail in any way.  Suppose the step
    succeeds.  Then the task it was told under the workflow's task id has the
    workflow's tenant, project and trace, it took the snapshot of the task as the
    goal and had a plan built for them; and from that moment on and for good a row is stored in the workflow's scope under the id and revision of
    that plan.  The row's body is the encoding of a well formed plan with that id
    and revision for the row's goal, and that goal is stored in the scope for the
    row's task, which exists there.  Either the row holds the very plan that was
    built, nodes and all, with the snapshot as its goal, and the goal is stored
    for the task with the task's objective; or a plan was stored under that id
    and revision before, and what the row decodes to is a plan for the
    snapshot. *)
Theorem planning_is_durable input configured db0 db t db1 db2 :
  no_lineage db0 → steps db0 db → run (Plan configured input) db t (Ret (Ok tt)) db1 → steps db1 db2 →
  ∃ task goal plan r g,
    Asked (At (executionWorkflowProjectContext input) (GetTask (Step_TaskID input))) (Ok task) ∈ t
    ∧ own_task input task ∧ snapshot task goal
    ∧ Asked (At (executionWorkflowProjectContext input) (BuildPlan task goal)) (Ok plan) ∈ t
    ∧ planned input db2 (Plan_ID plan) (Plan_Revision plan) r g
    ∧ (holds_new task goal plan r g ∨ holds_old goal r).
Proof.
  intros H0 Hs0 Hrun Hsteps. apply steps_grow in Hsteps; [|done].
  assert (wf db) as Hwf by (eapply LineageSpec.steps_wf; [done..|by apply no_lineage_wf]).
  destruct (run_returns _ _ _ _ _ _ Hrun Hwf (Plan_durable input db configured Hwf) eq_refl)
    as (task & goal & plan & r & g & H1 & H2 & H3 & H4 & H5 & H6).
  exists task, goal, plan, r, g. split_and!; try done. by eapply planned_grows.
Qed.
End system.
End PlanningSystem.

(** * PlanningLive: planning completes, and once

    The planning step with the baseline plan builder over the lineage store, when
    nothing fails and nobody interferes: it stores the goal and the plan; and
    however often it is run again, whatever happened in between, it succeeds and
    changes nothing. *)

Module PlanningLive.
Import Domain Activities.
Import LeaseSchema(TxEnv, mkTxEnv, env_db, env_ctx, env_begin, env_fault, env_now, env_commit, Committed).
Import LeaseLive(healthy, healthy_ctx, healthy_stmt).
Import ExecPlan(well_formed, range_order).
Import Lifecycle(StepInput, mkStepInput, Step_TenantID, Step_ProjectID, Step_TaskID, Step_TraceID).
Import Lineage(DB, mkDB, tasks, goals, plans, executions, GoalRow, PlanRow, mkGoalRow, mkPlanRow, g_task_id, g_objective,
  p_goal_id, p_task_id, p_plan_json, Codec, mkCodec, marshal_criteria, marshal_constraints, marshal_limit, marshal_plan,
  unmarshal_plan, scope_of, btrim_nonempty, goal_checks, plan_checks).
Import LineageSpec PlanningSystem.



Section live.
Variable pg_ts : Time → Time.
Variable pg_jsonb : string → result string.
Variable collate : string → string → bool.
Variable order : ExecutionPlan → list NodeID.
Hypothesis order_visits : ∀ plan, range_order (order plan) (Plan_Nodes plan).
Variable J : Codec.

(** The task repository and the plan builder's clock. *)
Record World : Type := mkWorld { world_task : string → result Task; world_now : Time }.

Definition answer (w : World) {X} (r : Req X) : option X :=
  match r in Req X return option X with
  | GetTask id => Some (world_task w id)
  | BuildPlan task goal => Some (Baseline_Build order task goal (world_now w))
  | _ => None
  end.

(** The program run alone, over one connection per context. *)
Fixpoint alone {A} (connect : Identity.Context → TxEnv) (w : World) (p : prog A) (db : DB) : option (A * DB) :=
  match p with
  | Ret a => Some (a, db)
  | Do (At ctx r) k =>
      match lineage pg_ts pg_jsonb collate order J r with
      | Some f => let '(x, db') := f (connect ctx) db in alone connect w (k x) db'
      | None => x ← answer w r; alone connect w (k x) db
      end
  end.

(** It is one of the runs of [PlanningSystem.run]. *)
Lemma alone_run {A} connect w (p : prog A) db a db' :
  (∀ c, env_ctx (connect c) = c) → alone connect w p db = Some (a, db') →
  ∃ t, run pg_ts pg_jsonb collate order J p db t (Ret a) db'.
Proof.
  intros Hc. revert db. induction p as [a'|X [c r] k IH]; intros db; simpl.
  - intros [= -> ->]. exists []. constructor.
  - destruct (lineage pg_ts pg_jsonb collate order J r) as [f|] eqn:Hf.
    + destruct (f (connect c) db) as [x db1] eqn:Hx. intros (t & Ht)%IH. eexists. econstructor; [|exact Ht].
      unfold served. rewrite Hf. eauto.
    + destruct (answer w r) as [x|]; simpl; [|done]. intros (t & Ht)%IH. eexists. econstructor; [|exact Ht].
      unfold served. by rewrite Hf.
Qed.

Section step.
Variable input : StepInput.
Let ctx : Identity.Context := executionWorkflowProjectContext input.
Hypothesis complete : incomplete input = false.















End step.

End live.
End PlanningLive.

(** * LineageExamples: the lineage store and planning on concrete inputs

    A codec, an order of validation and a connection that satisfy what the
    theorems of [LineageSpec], [LineageScope], [PlanningSystem] and [PlanningLive]
    assume, and the theorems applied to them. *)

Module LineageExamples.
Import Domain Activities.
Import LeaseSchema(TxEnv, mkTxEnv, env_ctx, Committed).
Import LeaseLive(healthy, Build_healthy).
Import Lifecycle(StepInput, mkStepInput).
Import Lineage(DB, mkDB, tasks, goals, plans, executions, Codec, mkCodec, marshal_plan, unmarshal_plan, scope_of, set_goals, mkGoalRow).
Import ActivityExamples(sample_order, sample_order_visits).
Import LineageSpec LineageScope PlanningSystem PlanningLive.

Definition sample_step : StepInput := mkStepInput "acme" "lab" "t-1" "trace-1".
Definition sample_task (status : TaskStatus) : Task :=
  mkTask "t-1" "acme" "lab" "" "agent" " say hello " status 2 "" f_zero f_zero f_zero "USD" "" "trace-1" 5 5 None.

(** The execution that follows the sample plan. *)
Definition sample_execution : Execution :=
  let e := Supervisor.sample_execution in
  Build_Execution "e-1" "t-1" "goal/t-1/v1" (Build_PlanRevisionRef "plan/t-1/model/v1" 1) (Build_ExecIdentity "" "")
    (Execution_PolicyContext e) (Execution_Budget e) (Execution_Status e) (Execution_Accounting e) 10%Z 10%Z.

(** A plan is encoded by its goal; the other values have one encoding. *)
Definition sample_codec : Codec :=
  let e := sample_execution in
  mkCodec (λ _, Ok "[]") (λ _, Ok []) (λ _, Ok "{}") (λ _, Ok (Build_GoalConstraints false []))
    (λ _, Ok "{}") (λ _, Ok BudgetLimitZero) (λ p, Ok (Plan_GoalRef p)) (λ t, Ok (BaselineModelPlan "t-1" t 50%Z))
    (λ _, Ok "{}") (λ _, Ok (Execution_PolicyContext e)) (λ _, Ok "{}") (λ _, Ok (Execution_Budget e))
    (λ _, Ok "{}") (λ _, Ok (Execution_Status e)) (λ _, Ok "{}") (λ _, Ok (Execution_Accounting e)).
Definition sample_jsonb (t : string) : result string := Ok t.
Definition sample_ts (t : Time) : Time := t.

Definition sample_connect (c : Identity.Context) : TxEnv :=
  mkTxEnv true c None (λ _, None) (Ok 60%Z) 60%Z (λ _, Ok (vreplicate 16 "A"%char)) Committed.
Definition sample_world (status : TaskStatus) : World := mkWorld (λ _, Ok (sample_task status)) 50%Z.

Definition sample_db : DB := mkDB {["t-1" := sample_task TaskPlanning]} ∅ ∅ ∅.
Definition sample_alone (status : TaskStatus) (db : DB) : option (result unit * DB) :=
  alone sample_ts sample_jsonb Order.str_lt sample_order sample_codec sample_connect (sample_world status)
    (Plan true sample_step) db.
Definition sample_planned : DB := match sample_alone TaskPlanning sample_db with Some (_, db) => db | None => sample_db end.

Example sample_plans : sample_alone TaskPlanning sample_db = Some (Ok tt, sample_planned).
Proof. vm_compute. reflexivity. Qed.

(** Running it again, when the task has moved on, changes nothing. *)
Example sample_plans_again : sample_alone TaskRouting sample_planned = Some (Ok tt, sample_planned).
Proof. vm_compute. reflexivity. Qed.

(** Without a stored plan a task that has moved on is refused. *)
Example sample_too_late : sample_alone TaskRouting sample_db
  = Some (Err (Errorw "%w: cannot create execution plan from %s" [AStr "ROUTING"] ErrInvalidTaskTransition), sample_db).
Proof. vm_compute. reflexivity. Qed.

Definition sample_ctx : Identity.Context := executionWorkflowProjectContext sample_step.
Definition sample_principal : Identity.Principal :=
  match Identity.requireScopedPrincipal sample_ctx with Ok p => p | Err _ => Identity.mkPrincipal Identity.PrincipalUser "" "" "" [] [] "" "" "" "" end.

Lemma sample_accepted : Identity.requireScopedPrincipal sample_ctx = Ok sample_principal.
Proof. vm_compute. reflexivity. Qed.
Lemma sample_no_lineage : no_lineage sample_db.
Proof. done. Qed.

Abbreviation sample_steps := (rtc (step sample_ts sample_jsonb Order.str_lt sample_order sample_codec)).

Lemma sample_run : ∃ t, run sample_ts sample_jsonb Order.str_lt sample_order sample_codec (Plan true sample_step) sample_db t (Ret (Ok tt)) sample_planned.
Proof. apply alone_run with sample_connect (sample_world TaskPlanning); [done|apply sample_plans]. Qed.

Lemma planning_is_durable_witness :
  ∃ task goal plan r g, snapshot task goal ∧ planned sample_jsonb sample_codec sample_step sample_planned (Plan_ID plan) (Plan_Revision plan) r g
    ∧ (holds_new sample_jsonb sample_codec task goal plan r g ∨ holds_old sample_codec goal r).
Proof.
  destruct sample_run as [t Ht].
  destruct (planning_is_durable sample_ts sample_jsonb Order.str_lt sample_order sample_order_visits sample_codec sample_step true
    sample_db sample_db t sample_planned sample_planned sample_no_lineage (rtc_refl _ _) Ht (rtc_refl _ _))
    as (task & goal & plan & r & g & _ & _ & Hg & _ & Hp & Hn).
  by exists task, goal, plan, r, g.
Defined.



(** ** The store *)

Abbreviation sample_call := (call sample_ts sample_jsonb Order.str_lt sample_order sample_codec (sample_connect sample_ctx)).
Definition sample_created := sample_call (CallCreateExecution sample_execution) sample_planned.
Definition sample_full : DB := snd sample_created.

Example sample_creates : fst sample_created
  = AExecution (Ok (Lineage.set_identity sample_execution (Build_ExecIdentity "temporal-task-lifecycle" "acme"))).
Proof. vm_compute. reflexivity. Qed.

Lemma sample_history : sample_steps sample_db sample_full.
Proof.
  destruct sample_run as [t Ht]. apply rtc_r with sample_planned; [by eapply run_steps|]. apply step_call.
Qed.

Lemma lineage_is_sound_witness : wf sample_jsonb sample_codec sample_full.
Proof.
  exact (lineage_is_sound sample_ts sample_jsonb Order.str_lt sample_order sample_order_visits sample_codec
    sample_db sample_full sample_no_lineage sample_history).
Defined.

Lemma lineage_is_append_only_witness :
  goals sample_planned ⊆ goals sample_full ∧ plans sample_planned ⊆ plans sample_full ∧ size (executions sample_full) = 1.
Proof.
  assert (sample_steps sample_planned sample_full) as Hs by (apply rtc_once, step_call).
  destruct (lineage_is_append_only sample_ts sample_jsonb Order.str_lt sample_order sample_order_visits sample_codec
    sample_planned sample_full Hs) as [(Hg & Hp & _) _].
  split_and!; [done|done|vm_compute; reflexivity].
Defined.



(** ** Another tenant's rows are not seen *)

Lemma str_lt_collation : collation Order.str_lt.
Proof.
  split; unfold Order.str_lt.
  - intros a b. apply Order.bytes_lt_asym.
  - intros a b c. apply Order.bytes_le_trans.
  - intros a b H1 H2. apply Order.bytes_lt_total in H1; [|done].
    rewrite <- (String.string_of_list_ascii_of_string a), <- (String.string_of_list_ascii_of_string b). unfold bytes in H1. by rewrite H1.
Qed.

Definition sample_shared : DB :=
  set_goals (<[(("other", "lab"), "goal/t-1/v1") := mkGoalRow "t-9" "spy" "[]" "{}" "{}" 1%Z]> (goals sample_full)) sample_full.

Lemma sample_same_view : same_view (scope_of sample_principal) sample_shared sample_full.
Proof. split; try done. intros id. simpl. by rewrite lookup_insert_ne. Qed.

Lemma sample_full_wf : wf sample_jsonb sample_codec sample_full.
Proof. eapply steps_wf; [apply sample_order_visits|apply sample_history|by apply no_lineage_wf]. Qed.

Lemma scopes_are_isolated_witness :
  fst (sample_call (CallListGoals "t-1") sample_shared) = fst (sample_call (CallListGoals "t-1") sample_full)
  ∧ same_view ("other", "lab") sample_shared (snd (sample_call (CallListGoals "t-1") sample_shared)).
Proof.
  destruct (scopes_are_isolated sample_ts sample_jsonb Order.str_lt sample_order sample_order_visits sample_codec str_lt_collation
    (sample_connect sample_ctx) (CallListGoals "t-1") sample_principal sample_shared sample_full sample_full_wf sample_accepted
    sample_same_view) as (H1 & _ & H2).
  split; [exact H1|]. apply H2. done.
Defined.
End LineageExamples.
