(* ===== verification/Authn.v ===== *)
(** * Authn: bearer tokens verified against an OpenID Connect issuer

    [src/internal/authn/oidc.go] and [jwks.go].  The verifier is a program: it
    reads the clock, makes HTTP requests and reads and writes the key set that
    all requests share; the lock makes each such access atomic.  JSON decoding,
    [url.Parse], the SHA-2 functions, RSA signature verification and the
    conversion of a float outside int64 are parameters. *)
From S2P Require Import Prelude Programs GoStrings GoText Identity.

Module Authn.
Export Programs.

Definition ErrBearerRequired : error := Sentinel "authn.ErrBearerRequired" "bearer token is required".
Definition ErrTokenInvalid : error := Sentinel "authn.ErrTokenInvalid" "token is invalid".
Definition ErrTokenExpired : error := Sentinel "authn.ErrTokenExpired" "token is expired".
Definition ErrTokenNotYetValid : error := Sentinel "authn.ErrTokenNotYetValid" "token is not yet valid".

Definition defaultHTTPTimeout : Duration := (5 * Second)%Z.
Definition defaultJWKSCache : Duration := (5 * Minute)%Z.
Definition defaultClockSkew : Duration := (60 * Second)%Z.
Definition maxTokenBytes : Z := (16 * 1024)%Z.
Definition maxRedirects : nat := 10.
Definition maxMetadataBytes : Z := 1048576%Z.

(** ** Data *)

Record OIDCConfig : Type := mkOIDCConfig {
  cfg_Issuer : string;
  cfg_Audience : string;
  cfg_JWKSURL : string;
  cfg_AllowedAlgorithms : list string;
  cfg_TenantClaim : string;
  cfg_ProjectClaim : string;
  cfg_RolesClaim : string;
  cfg_CapabilitiesClaim : string;
  cfg_PrincipalTypeClaim : string;
  cfg_SessionClaim : string;
  cfg_ClockSkew : Duration;
  cfg_JWKSCacheTTL : Duration
}.

Record discoveryDocument : Type := mkDiscovery { doc_Issuer : string; doc_JWKSURI : string }.

Record jwtHeader : Type := mkHeader {
  header_Alg : string;
  header_Kid : string;
  header_Typ : string;
  header_Crit : list string
}.

Record jwk : Type := mkJwk {
  jwk_Kty : string;
  jwk_Kid : string;
  jwk_Use : string;
  jwk_Alg : string;
  jwk_N : string;
  jwk_E : string
}.

(** [rsa.PublicKey]. *)
Record PublicKey : Set := mkPublicKey { key_N : Z; key_E : Z }.

#[export] Instance PublicKey_eq_dec : EqDecision PublicKey.
Proof. solve_decision. Defined.

(** [net/url.URL], as far as the code reads it; [URL_Text] is the URL itself. *)
Record URL : Set := mkURL { URL_Scheme : string; URL_Host : string; URL_User : bool; URL_Text : string }.

(** A JSON value decoded with [UseNumber]: a number keeps its text.  [Null] is
    also the nil that reading a missing key gives. *)
Inductive Any : Type :=
| Null
| Bool (b : bool)
| Number (text : string)
| Str (s : string)
| Arr (items : list Any)
| Obj (fields : list (string * Any)).

Definition Claims : Type := gmap string Any.
Definition claim (claims : Claims) (name : string) : Any := default Null (claims !! name).

(** What the lock of [remoteKeySet] protects. *)
Record KeyCache : Set := mkKeyCache { keys : gmap string PublicKey; keysUntil : Time }.

(** [http.Response]: the status, and the body up to where reading it fails. *)
Record Response : Type := mkResponse { StatusCode : Z; Body : string; Body_err : option error }.

(** The server's answer to one request of [http.Client.Do]. *)
Inductive Hop : Type :=
| Redirect (to : URL) (r : Response)
| Final (r : Response).

Inductive Ev : Type → Set :=
| ERoundTrip (u : URL) : Ev (result Hop)
| ENow : Ev Time
| ELoad : Ev KeyCache
| EStore (c : KeyCache) : Ev unit.

Abbreviation prog := (Programs.prog Ev).

Inductive Hash : Type := SHA256 | SHA384 | SHA512.

(** ** The HTTP client *)

Definition RedirectPolicy : Type := option URL → list URL → option error.

Record Client : Type := mkClient { Timeout : Duration; CheckRedirect : option RedirectPolicy }.

(** [cloneHTTPClient]: the policy it installs and the copy. *)
Definition httpsOnly (previous : option RedirectPolicy) : RedirectPolicy := λ req via,
  match req with
  | None => Some (Errorf "OIDC metadata redirect must remain HTTPS" [])
  | Some url =>
      if URL_Scheme url !=? "https" then Some (Errorf "OIDC metadata redirect must remain HTTPS" [])
      else if maxRedirects <=? length via then Some (Errorf "OIDC metadata redirect limit exceeded" [])
      else match previous with Some policy => policy req via | None => None end
  end.

Definition cloneHTTPClient (client : option Client) : Client :=
  let copy := default (mkClient 0 None) client in
  mkClient (if (Timeout copy <=? 0)%Z then defaultHTTPTimeout else Timeout copy)
    (Some (httpsOnly (CheckRedirect copy))).

(** [net/http]'s own policy and its way to stop at the last response. *)
Definition defaultCheckRedirect : RedirectPolicy := λ _ via,
  if 10 <=? length via then Some (Errorf "stopped after 10 redirects" []) else None.
Definition ErrUseLastResponse : error := Sentinel "http.ErrUseLastResponse" "net/http: use last response".
Definition ErrFuel : error := Sentinel "fuel" "".

(** [http.Client.Do]: redirects are followed as long as the policy lets them.
    The result is the response and the URL it came from. *)
Fixpoint clientDo (fuel : nat) (client : Client) (via : list URL) (u : URL) : prog (result (URL * Response)) :=
  match fuel with
  | O => Ret (Err ErrFuel)
  | S fuel =>
      hop ← ask (ERoundTrip u);
      match hop with
      | Err e => Ret (Err e)
      | Ok (Final r) => Ret (Ok (u, r))
      | Ok (Redirect to r) =>
          let via := via ++ [u] in
          match default defaultCheckRedirect (CheckRedirect client) (Some to) via with
          | None => clientDo fuel client via to
          | Some e => if errors_Is e "http.ErrUseLastResponse" then Ret (Ok (u, r)) else Ret (Err e)
          end
      end
  end.

(** One more than the requests the policies allow. *)
Definition clientFuel : nat := 11.

(** [io.ReadAll(io.LimitReader(body, limit))]. *)
Definition readLimited (r : Response) (limit : Z) : result string :=
  if (limit <=? Z.of_nat (String.length (Body r)))%Z then Ok (of_bytes (take (Z.to_nat limit) (bytes (Body r))))
  else match Body_err r with Some e => Err e | None => Ok (Body r) end.

(** ** Keys *)

(** [strings.TrimSpace], skipping blanks and repetitions: the function of the
    same name in [identity] is the same code. *)
Definition normalizeStrings (values : list string) : list string := Identity.normalizeStrings values.

Definition contains (values : list string) (expected : string) : bool := bool_decide (expected ∈ values).

Definition supportedAlgorithm (alg : string) : bool := (alg ==? "RS256") || (alg ==? "RS384") || (alg ==? "RS512").

Definition hashForAlgorithm (alg : string) : option Hash :=
  if alg ==? "RS256" then Some SHA256 else if alg ==? "RS384" then Some SHA384
  else if alg ==? "RS512" then Some SHA512 else None.

(** [new(big.Int).SetBytes(b)] and [x.BitLen()]. *)
Definition SetBytes (b : string) : Z := foldl (λ acc a, acc * 256 + Z.of_N (code a))%Z 0%Z (bytes b).
Definition BitLen (z : Z) : Z := if (z =? 0)%Z then 0%Z else (Z.log2 (Z.abs z) + 1)%Z.

(** The loop over the bytes of the exponent. *)
Definition exponent (b : string) : Z :=
  foldl (λ acc a, Z.lor (Z.shiftl acc 8) (Z.of_N (code a)))%Z 0%Z (bytes b).

Definition rsaPublicKey (encodedN encodedE : string) : result PublicKey :=
  match DecodeString encodedN with
  | None | Some "" => Err (Errorf "invalid RSA modulus" [])
  | Some nBytes =>
      match DecodeString encodedE with
      | None | Some "" => Err (Errorf "invalid RSA exponent" [])
      | Some eBytes =>
          if 4 <? String.length eBytes then Err (Errorf "invalid RSA exponent" [])
          else if (exponent eBytes <? 3)%Z || Z.even (exponent eBytes) then Err (Errorf "invalid RSA exponent" [])
          else Ok (mkPublicKey (SetBytes nBytes) (exponent eBytes))
      end
  end.

(** The keys of a document: the loop of [refresh]. *)
Fixpoint acceptableKeys (algorithms : list string) (keys : gmap string PublicKey) (items : list jwk)
    : result (gmap string PublicKey) :=
  match items with
  | [] => Ok keys
  | item :: items =>
      if (jwk_Kty item !=? "RSA") || (jwk_Kid item ==? "") || ((jwk_Use item !=? "") && (jwk_Use item !=? "sig"))
      then acceptableKeys algorithms keys items
      else if (jwk_Alg item !=? "") && negb (contains algorithms (jwk_Alg item))
      then acceptableKeys algorithms keys items
      else match rsaPublicKey (jwk_N item) (jwk_E item) with
      | Err _ => acceptableKeys algorithms keys items
      | Ok key =>
          if (BitLen (key_N key) <? 2048)%Z then acceptableKeys algorithms keys items
          else if bool_decide (is_Some (keys !! jwk_Kid item))
          then Err (Errorf "duplicate JWKS kid %q" [AStr (jwk_Kid item)])
          else acceptableKeys algorithms (<[jwk_Kid item := key]> keys) items
      end
  end.

(** The immutable part of [remoteKeySet]. *)
Record remoteKeySet : Type := mkKeySet {
  set_client : Client;
  set_url : string;
  set_cacheTTL : Duration;
  set_algorithms : list string
}.

Definition newRemoteKeySet (client : Client) (rawURL : string) (cacheTTL : Duration) (algorithms : list string)
    : remoteKeySet := mkKeySet client rawURL cacheTTL algorithms.

(** The standard library's codecs and cryptography. *)
Record Std : Type := mkStd {
  url_Parse : string → option URL;
  decode_header : string → result jwtHeader;
  decode_claims : string → result Claims;
  decode_jwks : string → result (list jwk);
  decode_discovery : string → result discoveryDocument;
  Sum : Hash → string → string;
  VerifyPKCS1v15 : PublicKey → Hash → string → string → option error;
  float_overflow : float64 → Z
}.

Record OIDCVerifier : Type := mkVerifier { v_cfg : OIDCConfig; v_keys : remoteKeySet }.

Section verifier.
Variable S : Std.

(** ** jwks.go *)

Definition fetchJSON {A} (client : Client) (endpoint : string) (decode : string → result A) : prog (result A) :=
  match url_Parse S endpoint with
  | None => Ret (Err (Errorf "parse %q" [AStr endpoint]))
  | Some url =>
      try (clientDo clientFuel client [] url) id (λ '(last, resp),
      if URL_Scheme last !=? "https" then Ret (Err (Errorf "OIDC metadata redirect left HTTPS" []))
      else if (StatusCode resp !=? 200%Z) then Ret (Err (Errorf "unexpected HTTP status %d" [AInt (StatusCode resp)]))
      else match readLimited resp (maxMetadataBytes + 1) with
      | Err e => Ret (Err e)
      | Ok body =>
          if (maxMetadataBytes <? Z.of_nat (String.length body))%Z
          then Ret (Err (Errorf "OIDC metadata response is too large" []))
          else Ret (decode body)
      end)
  end.

Definition refresh (s : remoteKeySet) : prog (result unit) :=
  try (fetchJSON (set_client s) (set_url s) (decode_jwks S)) (λ e, Errorw "JWKS refresh failed: %w" [] e) (λ document,
  match acceptableKeys (set_algorithms s) ∅ document with
  | Err e => Ret (Err e)
  | Ok keys =>
      if bool_decide (keys = ∅) then Ret (Err (Errorf "JWKS contains no acceptable signing keys" []))
      else
        now ← ask ENow;
        _ ← ask (EStore (mkKeyCache keys (Add now (set_cacheTTL s))));
        Ret (Ok tt)
  end).

(** After the first look at the cache has not found a valid key. *)
Definition keyAfterRefresh (s : remoteKeySet) (kid : string) : prog (result PublicKey) :=
  try (refresh s) id (λ _,
  cache ← ask ELoad;
  match keys cache !! kid with
  | None => Ret (Err (Errorf "no matching signing key" []))
  | Some key => Ret (Ok key)
  end).

Definition keyFor (s : remoteKeySet) (kid : string) (forceRefresh : bool) : prog (result PublicKey) :=
  if forceRefresh then keyAfterRefresh s kid else
  cache ← ask ELoad;
  match keys cache !! kid with
  | None => keyAfterRefresh s kid
  | Some key =>
      now ← ask ENow;
      if Before now (keysUntil cache) then Ret (Ok key) else keyAfterRefresh s kid
  end.

Definition digestForAlgorithm (alg input : string) : option (Hash * string) :=
  match hashForAlgorithm alg with Some h => Some (h, Sum S h input) | None => None end.

Definition verify (s : remoteKeySet) (alg kid signingInput encodedSignature : string) : prog (result unit) :=
  match DecodeString encodedSignature with
  | None => Ret (Err ErrTokenInvalid)
  | Some signature =>
      try (keyFor s kid false) id (λ key,
      match digestForAlgorithm alg signingInput with
      | None => Ret (Err ErrTokenInvalid)
      | Some (hash, digest) =>
          match VerifyPKCS1v15 S key hash digest signature with
          | Some e => Ret (Err e)
          | None => Ret (Ok tt)
          end
      end)
  end.

(** ** oidc.go: configuration *)

Definition defaultClaimName (value fallback : string) : string :=
  let value := TrimSpace value in if value ==? "" then fallback else value.

Definition normalizeConfig (cfg : OIDCConfig) : OIDCConfig := {|
  cfg_Issuer := TrimSpace (cfg_Issuer cfg);
  cfg_Audience := TrimSpace (cfg_Audience cfg);
  cfg_JWKSURL := TrimSpace (cfg_JWKSURL cfg);
  cfg_AllowedAlgorithms := normalizeStrings (cfg_AllowedAlgorithms cfg);
  cfg_TenantClaim := defaultClaimName (cfg_TenantClaim cfg) "tenant_id";
  cfg_ProjectClaim := defaultClaimName (cfg_ProjectClaim cfg) "project_id";
  cfg_RolesClaim := defaultClaimName (cfg_RolesClaim cfg) "roles";
  cfg_CapabilitiesClaim := defaultClaimName (cfg_CapabilitiesClaim cfg) "capabilities";
  cfg_PrincipalTypeClaim := defaultClaimName (cfg_PrincipalTypeClaim cfg) "principal_type";
  cfg_SessionClaim := defaultClaimName (cfg_SessionClaim cfg) "sid";
  cfg_ClockSkew := if (cfg_ClockSkew cfg <=? 0)%Z then defaultClockSkew else cfg_ClockSkew cfg;
  cfg_JWKSCacheTTL := if (cfg_JWKSCacheTTL cfg <=? 0)%Z then defaultJWKSCache else cfg_JWKSCacheTTL cfg
|}.

Definition set_algs (cfg : OIDCConfig) (algs : list string) : OIDCConfig :=
  mkOIDCConfig (cfg_Issuer cfg) (cfg_Audience cfg) (cfg_JWKSURL cfg) algs (cfg_TenantClaim cfg) (cfg_ProjectClaim cfg)
    (cfg_RolesClaim cfg) (cfg_CapabilitiesClaim cfg) (cfg_PrincipalTypeClaim cfg) (cfg_SessionClaim cfg)
    (cfg_ClockSkew cfg) (cfg_JWKSCacheTTL cfg).

Definition validateHTTPSURL (name raw : string) : result unit :=
  match url_Parse S raw with
  | Some parsed =>
      if (URL_Scheme parsed !=? "https") || (URL_Host parsed ==? "") || URL_User parsed
      then Err (Errorf "%s must be an absolute HTTPS URL" [AStr name]) else Ok tt
  | None => Err (Errorf "%s must be an absolute HTTPS URL" [AStr name])
  end.

Definition discover (client : Client) (issuer : string) : prog (result discoveryDocument) :=
  let endpoint := TrimSuffix issuer "/" +:+ "/.well-known/openid-configuration" in
  try (fetchJSON client endpoint (decode_discovery S)) (λ e, Errorw "OIDC discovery failed: %w" [] e) (λ document,
  if (doc_Issuer document ==? "") || (doc_JWKSURI document ==? "")
  then Ret (Err (Errorf "OIDC discovery response is incomplete" []))
  else Ret (Ok document)).

Definition NewOIDCVerifier (cfg : OIDCConfig) (client : option Client) : prog (result OIDCVerifier) :=
  let cfg := normalizeConfig cfg in
  match validateHTTPSURL "issuer" (cfg_Issuer cfg) with
  | Err e => Ret (Err e)
  | Ok _ =>
  if cfg_Audience cfg ==? "" then Ret (Err (Errorf "audience is required" [])) else
  let cfg := match cfg_AllowedAlgorithms cfg with [] => set_algs cfg ["RS256"] | _ => cfg end in
  match list_find (λ alg, supportedAlgorithm alg = false) (cfg_AllowedAlgorithms cfg) with
  | Some (_, alg) => Ret (Err (Errorf "unsupported JWT signing algorithm %q" [AStr alg]))
  | None =>
      let httpClient := cloneHTTPClient client in
      try (if cfg_JWKSURL cfg ==? "" then
             try (discover httpClient (cfg_Issuer cfg)) id (λ discovered,
             if doc_Issuer discovered !=? cfg_Issuer cfg then Ret (Err (Errorf "OIDC discovery issuer mismatch" []))
             else Ret (Ok (doc_JWKSURI discovered)))
           else Ret (Ok (cfg_JWKSURL cfg))) id (λ jwksURL,
      match validateHTTPSURL "jwks_url" jwksURL with
      | Err e => Ret (Err e)
      | Ok _ =>
          let keys := newRemoteKeySet httpClient jwksURL (cfg_JWKSCacheTTL cfg) (cfg_AllowedAlgorithms cfg) in
          try (refresh keys) id (λ _, Ret (Ok (mkVerifier cfg keys)))
      end)
  end
  end.

(** ** oidc.go: tokens *)

Definition bearerToken (values : list string) : result string :=
  match values with
  | [value] =>
      match Fields value with
      | [scheme; token] =>
          if negb (EqualFold scheme "Bearer") || (token ==? "") then Err ErrBearerRequired
          else if (maxTokenBytes <? Z.of_nat (String.length token))%Z
          then Err (Errorw "%w: bearer token is too large" [] ErrTokenInvalid)
          else Ok token
      | _ => Err ErrBearerRequired
      end
  | _ => Err ErrBearerRequired
  end.

Definition claimString (claims : Claims) (name : string) : option string :=
  match claims !! name with Some (Str s) => Some (TrimSpace s) | _ => None end.

Definition any_string (a : Any) : option string := match a with Str s => Some s | _ => None end.

(** One exact audience, or a list without blank entries. *)
Definition claimAudienceList (value : Any) : option (list string) :=
  match value with
  | Str typed => let typed := TrimSpace typed in if typed ==? "" then None else Some [typed]
  | Arr typed =>
      items ← mapM (λ entry, s ← any_string entry; if TrimSpace s ==? "" then None else Some (TrimSpace s)) typed;
      match items with [] => None | _ => Some (normalizeStrings items) end
  | _ => None
  end.

Definition claimStringList (value : Any) : option (list string) :=
  match value with
  | Str typed => Some (normalizeStrings (FieldsFunc typed (λ r, (r ==? " "%char) || (r ==? ","%char))))
  | Arr typed => items ← mapM any_string typed; Some (normalizeStrings items)
  | _ => None
  end.

(** [int64(x)] for a float. *)
Definition int64_of (x : float64) : Z := if fits_int8 (f_trunc x) then f_trunc x else float_overflow S x.

(** A missing date is [Ok None]. *)
Definition numericDate (value : Any) : result (option Time) :=
  match value with
  | Null => Ok None
  | Number text =>
      match ParseFloat text with
      | None => Err (Errorf "invalid numeric date" [])
      | Some seconds =>
          if negb (f_finite seconds) then Err (Errorf "invalid numeric date" []) else
          let whole := f_trunc seconds in
          let fractional := f_sub seconds (f_int whole) in
          Ok (Some (Unix (int64_of seconds) (int64_of (f_mul fractional (f_int Second)))))
      end
  | _ => Err (Errorf "numeric date must be a JSON number" [])
  end.

(** The checks of the three dates at the time [now]. *)
Definition validateTimes (cfg : OIDCConfig) (claims : Claims) (now : Time) : result unit :=
  match numericDate (claim claims "exp") with
  | Err _ | Ok None => Err ErrTokenInvalid
  | Ok (Some expiry) =>
      if After now (AddTime expiry (cfg_ClockSkew cfg)) then Err ErrTokenExpired else
      match numericDate (claim claims "nbf") with
      | Err _ => Err ErrTokenInvalid
      | Ok nbf =>
          if match nbf with Some nbf => Before (AddTime now (cfg_ClockSkew cfg)) nbf | None => false end
          then Err ErrTokenNotYetValid else
          match numericDate (claim claims "iat") with
          | Err _ => Err ErrTokenInvalid
          | Ok None => Ok tt
          | Ok (Some iat) =>
              if After iat (AddTime now (cfg_ClockSkew cfg)) then Err ErrTokenNotYetValid
              else if Before expiry iat then Err ErrTokenInvalid else Ok tt
          end
      end
  end.

Definition validateClaims (cfg : OIDCConfig) (claims : Claims) : prog (result unit) :=
  if match claimString claims "iss" with Some issuer => issuer !=? cfg_Issuer cfg | None => true end
  then Ret (Err ErrTokenInvalid) else
  if match claimAudienceList (claim claims "aud") with
     | Some audiences => negb (contains audiences (cfg_Audience cfg)) | None => true end
  then Ret (Err ErrTokenInvalid) else
  if match claimString claims "sub" with Some subject => subject ==? "" | None => true end
  then Ret (Err ErrTokenInvalid) else
  now ← ask ENow;
  Ret (validateTimes cfg claims now).

(** The conversion [identity.PrincipalType(value)]. *)
Definition PrincipalType_of (value : string) : Identity.PrincipalType :=
  if value ==? "user" then Identity.PrincipalUser
  else if value ==? "service_account" then Identity.PrincipalServiceAccount
  else if value ==? "system" then Identity.PrincipalSystem
  else Identity.PrincipalOther value.

Definition principalFromClaims (cfg : OIDCConfig) (claims : Claims) : result Identity.Principal :=
  let text name := default "" (claimString claims name) in
  let principalType :=
    match claimString claims (cfg_PrincipalTypeClaim cfg) with
    | Some value => if value !=? "" then PrincipalType_of value else Identity.PrincipalUser
    | None => Identity.PrincipalUser
    end in
  let principal := {|
    Identity.Type_ := principalType;
    Identity.SubjectID := text "sub";
    Identity.TenantID := text (cfg_TenantClaim cfg);
    Identity.ProjectID := text (cfg_ProjectClaim cfg);
    Identity.Roles := default [] (claimStringList (claim claims (cfg_RolesClaim cfg)));
    Identity.Capabilities := default [] (claimStringList (claim claims (cfg_CapabilitiesClaim cfg)));
    Identity.AuthnMethod := "oidc_jwt";
    Identity.Issuer := cfg_Issuer cfg;
    Identity.SessionID := text (cfg_SessionClaim cfg);
    Identity.Purpose := ""
  |} in
  match principalType with
  | Identity.PrincipalSystem => Err (Errorf "external JWT cannot assert a system principal" [])
  | Identity.PrincipalOther _ => Err ErrTokenInvalid
  | _ =>
      match Identity.Validate principal with
      | Err e => Err (Errorw "verified JWT principal is invalid: %w" [] e)
      | Ok _ => Ok principal
      end
  end.

(** What the payload of a token whose signature is valid is worth. *)
Definition acceptClaims (cfg : OIDCConfig) (payload : string) : prog (result Identity.Principal) :=
  match DecodeString payload with
  | None => Ret (Err ErrTokenInvalid)
  | Some payloadBytes =>
      match decode_claims S payloadBytes with
      | Err _ => Ret (Err ErrTokenInvalid)
      | Ok claims => try (validateClaims cfg claims) id (λ _, Ret (principalFromClaims cfg claims))
      end
  end.

Definition verifyToken (v : OIDCVerifier) (raw : string) : prog (result Identity.Principal) :=
  match Split raw "." with
  | [h; p; sig] =>
      if (h ==? "") || (p ==? "") || (sig ==? "") then Ret (Err ErrTokenInvalid) else
      match DecodeString h with
      | None => Ret (Err ErrTokenInvalid)
      | Some headerBytes =>
          match decode_header S headerBytes with
          | Err _ => Ret (Err ErrTokenInvalid)
          | Ok header =>
              if (header_Kid header ==? "") || negb (bool_decide (header_Crit header = []))
                 || negb (contains (cfg_AllowedAlgorithms (v_cfg v)) (header_Alg header))
              then Ret (Err ErrTokenInvalid)
              else try (verify (v_keys v) (header_Alg header) (header_Kid header) (h +:+ "." +:+ p) sig)
                     (λ _, ErrTokenInvalid) (λ _, acceptClaims (v_cfg v) p)
          end
      end
  | _ => Ret (Err ErrTokenInvalid)
  end.

(** [Verify]: the values of the Authorization header; [None] is a nil request. *)
Definition Verify (v : OIDCVerifier) (authorization : option (list string)) : prog (result Identity.Principal) :=
  match authorization with
  | None => Ret (Err ErrBearerRequired)
  | Some values =>
      match bearerToken values with
      | Err e => Ret (Err e)
      | Ok raw => verifyToken v raw
      end
  end.

End verifier.
End Authn.
