(* ===== verification/AuthnSpec.v ===== *)
(** * AuthnSpec: what a verified token is worth

    The keys the verifier stores and uses, the requests it makes, the tokens it
    accepts; the verifier under any number of concurrent requests that share its
    key set. *)
From S2P Require Import Prelude Programs GoStrings GoText Identity Authn.

Module AuthnSpec.
Import Authn.

Abbreviation history := (list (exchange Ev)).

(** ** The HTTP client *)

Definition hop_response (hop : Hop) : Response := match hop with Redirect _ r => r | Final r => r end.

(** The server at [u] answered [r]. *)
Definition answered (h : history) (u : URL) (r : Response) : Prop :=
  ∃ hop, Asked (ERoundTrip u) (Ok hop) ∈ h ∧ hop_response hop = r.

Definition is_fetch (x : exchange Ev) : bool := match x with Asked e _ => match e with ERoundTrip _ => true | _ => false end end.

Lemma answered_mono h h' u r : h ⊆ h' → answered h u r → answered h' u r.
Proof. intros Hh (hop & Hin & Hr). exists hop. split; [by apply Hh|done]. Qed.

(** The server at [u] sent the client on to [u']. *)
Definition redirected (h : history) (u u' : URL) : Prop := ∃ r, Asked (ERoundTrip u) (Ok (Redirect u' r)) ∈ h.

Lemma redirected_mono h h' u u' : h ⊆ h' → rtc (redirected h) u u' → rtc (redirected h') u u'.
Proof. intros Hh. apply rtc_subrel. intros x y [r Hr]. exists r. by apply Hh. Qed.

(** The document named by [endpoint]: its server, or one that redirects led to
    from there, answered it over HTTPS, completely and within the size limit. *)
Definition served (S : Std) (h : history) (endpoint body : string) : Prop :=
  ∃ first u r, url_Parse S endpoint = Some first ∧ rtc (redirected h) first u ∧ answered h u r
    ∧ URL_Scheme u = "https" ∧ StatusCode r = 200%Z ∧ Body_err r = None
    ∧ (Z.of_nat (String.length (Body r)) ≤ maxMetadataBytes)%Z ∧ Body r = body.

Lemma served_mono S h h' endpoint body : h ⊆ h' → served S h endpoint body → served S h' endpoint body.
Proof.
  intros Hh (first & u & r & H1 & H2 & H3 & H). exists first, u, r. split; [done|]. split; [by eapply redirected_mono|].
  split; [by eapply answered_mono|done].
Qed.

(** What the requests of a program may be, when only the stored caches matter. *)
Definition stores_only (I : history → KeyCache → Prop) {X} (h : history) (e : Ev X) : Prop :=
  match e with EStore c => I h c | _ => True end.

Lemma clientDo_wp I fuel client via u h (Q : history → result (URL * Response) → Prop) :
  (∀ t r, Forall (λ x, is_fetch x = true) t → (∀ last resp, r = Ok (last, resp) → rtc (redirected (h ++ t)) u last ∧ answered (h ++ t) last resp) →
    Q (h ++ t) r) →
  wp (@stores_only I) h (clientDo fuel client via u) Q.
Proof.
  revert via u h Q. induction fuel as [|fuel IH]; intros via u h Q HQ; simpl.
  { replace h with (h ++ []) by apply app_nil_r. by apply HQ. }
  split; [done|]. intros hop.
  assert (∀ r, (∀ last resp, r = Ok (last, resp) → last = u ∧ answered (h ++ [Asked (ERoundTrip u) hop]) last resp) →
    Q (h ++ [Asked (ERoundTrip u) hop]) r) as Hend.
  { intros r Hr. apply HQ; [by repeat constructor|]. intros last resp Hl. by destruct (Hr _ _ Hl) as [-> ?]. }
  destruct hop as [[to resp|resp]|e].
  - destruct (default defaultCheckRedirect (CheckRedirect client) (Some to) (via ++ [u])) as [e|].
    + destruct (errors_Is _ _); simpl; apply Hend; [|done]. intros ? ? [= <- <-]. split; [done|].
      exists (Redirect to resp). split; [set_solver|done].
    + apply IH. intros t r Ht Hr. rewrite <- app_assoc in Hr |- *. apply HQ; [by constructor|].
      intros last resp' Hl. destruct (Hr _ _ Hl) as [Hto Hans]. split; [|done]. eapply rtc_l; [|exact Hto]. exists resp. set_solver.
  - simpl. apply Hend. intros ? ? [= <- <-]. split; [done|]. exists (Final resp). split; [set_solver|done].
  - simpl. by apply Hend.
Qed.

#[local] Arguments httpsOnly : simpl never.
#[local] Arguments Nat.leb : simpl never.

(** With the policy of [cloneHTTPClient], the fuel is enough: more makes no
    difference. *)
Lemma clientDo_fuel client n m via u t r :
  length via < maxRedirects → maxRedirects ≤ length via + n → maxRedirects ≤ length via + m →
  returns (clientDo n (cloneHTTPClient client) via u) t r → returns (clientDo m (cloneHTTPClient client) via u) t r.
Proof.
  revert m via u t. induction n as [|n IH]; intros m via u t Hv Hn Hm Hr; [lia|]. destruct m as [|m]; [lia|].
  unfold returns in *. apply asks_inv in Hr as [[_ ?]|(hop & t' & -> & Ht)]; [done|].
  constructor. destruct hop as [[to resp|resp]|e]; [|done..]. simpl in Ht |- *.
  unfold httpsOnly in *. destruct (URL_Scheme to !=? "https"); [done|].
  destruct (maxRedirects <=? length (via ++ [u])) eqn:Hlen; [done|].
  apply Nat.leb_gt in Hlen. rewrite length_app in Hlen. simpl in Hlen.
  destruct (CheckRedirect _) as [policy|]; [destruct (policy _ _) as [e|]; [done|]|];
    (eapply IH; [..|exact Ht]; rewrite ?length_app; simpl; lia).
Qed.

(** At most ten requests, all but the first to HTTPS URLs. *)
Definition https_request (x : exchange Ev) : Prop :=
  match x with Asked e _ => match e with ERoundTrip u => URL_Scheme u = "https" | _ => False end end.

Lemma clientDo_bounded client n via u t p :
  length via < maxRedirects → asks (clientDo n (cloneHTTPClient client) via u) t p →
  length via + length t ≤ maxRedirects
  ∧ match t with
    | [] => True
    | x :: t => (∃ r, x = Asked (ERoundTrip u) r) ∧ Forall https_request t
    end.
Proof.
  revert via u t. induction n as [|n IH]; intros via u t Hv Ht; apply asks_inv in Ht.
  { destruct Ht as [-> _]. simpl. lia. }
  destruct Ht as [[-> _]|(hop & t' & -> & Ht)]; [simpl; lia|].
  assert (∀ a, asks (Ret a) t' p → length via + length (Asked (ERoundTrip u) hop :: t') ≤ maxRedirects
                      ∧ (∃ r, Asked (ERoundTrip u) hop = Asked (ERoundTrip u) r) ∧ Forall https_request t') as Hend.
  { intros a Ha. apply asks_inv in Ha as [-> _]. simpl. split; [lia|]. split; [by eexists|constructor]. }
  destruct hop as [[to resp|resp]|e]; [|by eapply Hend..]. simpl in Ht. unfold httpsOnly in Ht.
  destruct (decide (URL_Scheme to = "https")) as [Hto|Hto];
    [rewrite bool_decide_true in Ht by done|rewrite bool_decide_false in Ht by done]; simpl in Ht; [|by eapply Hend].
  destruct (maxRedirects <=? length (via ++ [u])) eqn:Hlen; simpl in Ht; [by eapply Hend|]. apply Nat.leb_gt in Hlen.
  assert (asks (clientDo n (cloneHTTPClient client) (via ++ [u]) to) t' p →
    length via + length (Asked (ERoundTrip u) (Ok (Redirect to resp)) :: t') ≤ maxRedirects
    ∧ (∃ r, Asked (ERoundTrip u) (Ok (Redirect to resp)) = Asked (ERoundTrip u) r) ∧ Forall https_request t') as Hgo.
  { intros Ha. destruct (IH _ _ _ Hlen Ha) as [Hl Hf]. rewrite length_app in Hl. simpl in Hl |- *.
    split; [lia|]. split; [by eexists|]. destruct t' as [|x t']; [constructor|]. destruct Hf as [[r ->] Hf].
    by constructor. }
  destruct (CheckRedirect _) as [policy|]; [destruct (policy _ _) as [e|]|]; [|by apply Hgo..].
  destruct (errors_Is _ _); by eapply Hend.
Qed.

(** ** Keys *)

(** A key fit for verifying signatures. *)
Definition strong (key : PublicKey) : Prop :=
  (2048 ≤ BitLen (key_N key) ∧ 3 ≤ key_E key ∧ Z.odd (key_E key) = true)%Z.

(** An entry of a key document that may be used for signatures. *)
Definition usable (algorithms : list string) (item : jwk) : Prop :=
  jwk_Kty item = "RSA" ∧ jwk_Kid item ≠ "" ∧ (jwk_Use item = "" ∨ jwk_Use item = "sig")
  ∧ (jwk_Alg item = "" ∨ jwk_Alg item ∈ algorithms).

Lemma rsaPublicKey_Ok n e key : rsaPublicKey n e = Ok key → (3 ≤ key_E key ∧ Z.odd (key_E key) = true)%Z.
Proof.
  unfold rsaPublicKey. destruct (DecodeString n) as [[|a n']|]; [done| |done].
  destruct (DecodeString e) as [[|b e']|]; [done| |done]. destruct (4 <? _); [done|].
  destruct (_ <? 3)%Z eqn:H3; [done|]. destruct (Z.even _) eqn:He; [done|]. intros [= <-]. cbn [orb key_E].
  apply Z.ltb_ge in H3. by rewrite <- Z.negb_even, He.
Qed.

Lemma usable_tested algorithms item :
  (jwk_Kty item !=? "RSA") || (jwk_Kid item ==? "") || ((jwk_Use item !=? "") && (jwk_Use item !=? "sig")) = false →
  (jwk_Alg item !=? "") && negb (contains algorithms (jwk_Alg item)) = false → usable algorithms item.
Proof.
  unfold usable, contains.
  rewrite !orb_false_iff, !andb_false_iff, !negb_false_iff, !bool_decide_eq_true, bool_decide_eq_false. tauto.
Qed.

Lemma acceptableKeys_spec algorithms keys0 items keys kid key :
  acceptableKeys algorithms keys0 items = Ok keys → keys !! kid = Some key →
  keys0 !! kid = Some key
  ∨ ∃ item, item ∈ items ∧ usable algorithms item ∧ jwk_Kid item = kid
            ∧ rsaPublicKey (jwk_N item) (jwk_E item) = Ok key ∧ strong key.
Proof.
  revert keys0. induction items as [|item items IH]; intros keys0 H Hk; simpl in H; [simplify_eq; by left|].
  assert (∀ keys1, acceptableKeys algorithms keys1 items = Ok keys → keys1 !! kid = Some key ∨
    ∃ item', item' ∈ item :: items ∧ usable algorithms item' ∧ jwk_Kid item' = kid
            ∧ rsaPublicKey (jwk_N item') (jwk_E item') = Ok key ∧ strong key) as IH'.
  { intros keys1 H1. destruct (IH _ H1 Hk) as [|(item' & Hin & Hi)]; [by left|right]. exists item'.
    split; [by apply list_elem_of_further|done]. }
  match type of H with (if ?b then _ else _) = _ => destruct b eqn:E1 end; [by apply IH'|].
  match type of H with (if ?b then _ else _) = _ => destruct b eqn:E2 end; [by apply IH'|].
  destruct (rsaPublicKey _ _) as [key1|e] eqn:Er; [|by apply IH']. destruct (_ <? 2048)%Z eqn:Eb; [by apply IH'|].
  case_bool_decide as Edup; [done|]. destruct (IH' _ H) as [Hin|Hin]; [|by right].
  apply lookup_insert_Some in Hin as [[Hkid ->]|[_ Hin]]; [right|by left].
  exists item. apply Z.ltb_ge in Eb. pose proof (rsaPublicKey_Ok _ _ _ Er). pose proof (usable_tested _ _ E1 E2).
  split; [apply list_elem_of_here|done].
Qed.

Section keyset.
Variable S : Std.
Variable s : remoteKeySet.

(** The cache [c] holds the acceptable keys of the document at the URL of the key
    set, and it is valid for the configured time. *)
Definition fetched (h : history) (c : KeyCache) : Prop :=
  (∃ body document, served S h (set_url s) body
    ∧ decode_jwks S body = Ok document ∧ acceptableKeys (set_algorithms s) ∅ document = Ok (keys c))
  ∧ keys c ≠ ∅
  ∧ ∃ now, Asked ENow now ∈ h ∧ keysUntil c = Add now (set_cacheTTL s).

Lemma fetched_mono h h' c : h ⊆ h' → fetched h c → fetched h' c.
Proof.
  intros Hh ((body & doc & Hr & H) & Hne & now & Hnow & Hu). split; [|split; [done|exists now; split; [by apply Hh|done]]].
  exists body, doc. split; [by eapply served_mono|done].
Qed.

Lemma fetched_strong h c kid key : fetched h c → keys c !! kid = Some key → strong key.
Proof.
  intros ((body & doc & _ & _ & Hk) & _) Hkey.
  destruct (acceptableKeys_spec _ _ _ _ _ _ Hk Hkey) as [H|(item & _ & _ & _ & _ & H)]; [|done].
  by rewrite lookup_empty in H.
Qed.

(** The requests of [p] store only caches in [I], and fetched ones are. *)
Variable I : history → KeyCache → Prop.
Hypothesis I_fetched : ∀ h c, fetched h c → I h c.
Abbreviation safe := (wp (@stores_only I)).

Lemma readLimited_whole r body :
  readLimited r (maxMetadataBytes + 1) = Ok body → (Z.of_nat (String.length body) ≤ maxMetadataBytes)%Z →
  body = Body r ∧ Body_err r = None.
Proof.
  unfold readLimited. destruct (_ <=? _)%Z eqn:E.
  - intros [= <-] Hlen. apply Z.leb_le in E.
    assert (∀ l, String.length (of_bytes l) = length l) as Hl by (induction l; simpl; congruence).
    assert (length (bytes (Body r)) = String.length (Body r)) as Hb by (rewrite <- Hl, of_bytes_bytes; done).
    rewrite Hl, length_take, Hb in Hlen. unfold maxMetadataBytes in *. lia.
  - destruct (Body_err r) as [e|]; [done|]. by intros [= <-] _.
Qed.

Lemma fetchJSON_safe {A} h client endpoint (decode : string → result A) (Q : history → result A → Prop) :
  (∀ t r, (∀ a, r = Ok a → ∃ body, served S (h ++ t) endpoint body ∧ decode body = Ok a) → Q (h ++ t) r) →
  safe h (fetchJSON S client endpoint decode) Q.
Proof.
  intros HQ. unfold fetchJSON. destruct (url_Parse S endpoint) as [url|] eqn:Hurl.
  2: { simpl. replace h with (h ++ []) by apply app_nil_r. by apply HQ. }
  apply wp_try, clientDo_wp. intros t [[last resp]|e] _ Hans; [|by apply HQ].
  destruct (decide (URL_Scheme last = "https")) as [Hs|Hs];
    [rewrite bool_decide_true by done|rewrite bool_decide_false by done; by apply HQ].
  destruct (decide (StatusCode resp = 200%Z)) as [Hc|Hc];
    [rewrite bool_decide_true by done|rewrite bool_decide_false by done; by apply HQ]. cbn [negb].
  destruct (readLimited _ _) as [body|e] eqn:Hr; [|by apply HQ]. destruct (_ <? _)%Z eqn:Hl; [by apply HQ|].
  apply Z.ltb_ge in Hl. destruct (readLimited_whole _ _ Hr Hl) as [-> Hb].
  apply HQ. intros a Ha. destruct (Hans _ _ eq_refl) as [Hto Hresp]. exists (Body resp). split; [|done].
  by exists url, last, resp.
Qed.

Lemma refresh_safe h (Q : history → result unit → Prop) :
  (∀ t r, (r = Ok tt → ∃ c, last t = Some (Asked (EStore c) tt) ∧ fetched (h ++ t) c) → Q (h ++ t) r) →
  safe h (refresh S s) Q.
Proof.
  intros HQ. unfold refresh. apply wp_try, fetchJSON_safe. intros t [document|e] Hdoc; [|by apply HQ].
  destruct (acceptableKeys _ _ _) as [keys|e] eqn:Hk; [|by apply HQ].
  case_bool_decide as Hne; [by apply HQ|].
  apply wp_Do; [done|]. intros now. set (c := mkKeyCache keys (Add now (set_cacheTTL s))).
  assert (fetched ((h ++ t) ++ [Asked ENow now]) c) as Hc.
  { split; [|split; [done|exists now; split; [mem|done]]].
    destruct (Hdoc _ eq_refl) as (body & Hans & Hd). exists body, document.
    split; [by eapply served_mono; [|exact Hans]; set_solver|done]. }
  apply wp_Do; [by apply I_fetched|]. intros []. simpl. rewrite <- !app_assoc. apply HQ. intros _.
  exists c. split; [by rewrite last_app|]. eapply fetched_mono; [|exact Hc]. set_solver.
Qed.

(** [key] was read under [kid] from a cache that was still valid, or that had
    just been refreshed. *)
Definition trusted (h : history) (kid : string) (key : PublicKey) : Prop :=
  ∃ cache, Asked ELoad cache ∈ h ∧ keys cache !! kid = Some key
  ∧ ((∃ now, Asked ENow now ∈ h ∧ (now < keysUntil cache)%Z) ∨ ∃ c, Asked (EStore c) tt ∈ h).

Lemma trusted_mono h h' kid key : h ⊆ h' → trusted h kid key → trusted h' kid key.
Proof.
  intros Hh (cache & Hc & Hk & H). exists cache. split; [by apply Hh|]. split; [done|].
  destruct H as [(now & Hn & Ht)|(c & Hs)]; [left|right]; eexists; (split || idtac); eauto.
Qed.

Lemma keyAfterRefresh_safe h kid (Q : history → result PublicKey → Prop) :
  (∀ t r, (∀ key, r = Ok key → trusted (h ++ t) kid key) → Q (h ++ t) r) → safe h (keyAfterRefresh S s kid) Q.
Proof.
  intros HQ. unfold keyAfterRefresh. apply wp_try, refresh_safe. intros t [[]|e] Hs; [|by apply HQ].
  apply wp_Do; [done|]. intros cache. destruct (keys cache !! kid) as [key|] eqn:Hk; simpl; rewrite <- app_assoc;
    apply HQ; [|done].
  intros ? [= <-]. destruct (Hs eq_refl) as (c & Hc & _). exists cache. split; [mem|]. split; [done|]. right. exists c.
  apply elem_of_app. right. apply elem_of_app. left. by apply last_Some_elem_of.
Qed.

Lemma keyFor_safe h kid (Q : history → result PublicKey → Prop) :
  (∀ t r, (∀ key, r = Ok key → trusted (h ++ t) kid key) → Q (h ++ t) r) → safe h (keyFor S s kid false) Q.
Proof.
  intros HQ. unfold keyFor. apply wp_Do; [done|]. intros cache. cbn beta.
  destruct (keys cache !! kid) as [key|] eqn:Hk.
  2: { apply keyAfterRefresh_safe. intros t r Hr. rewrite <- app_assoc in Hr |- *. by apply HQ. }
  apply wp_Do; [done|]. intros now. destruct (Before now (keysUntil cache)) eqn:Hb; simpl.
  - rewrite <- app_assoc. apply HQ. intros ? [= <-]. exists cache. split; [mem|]. split; [done|]. left. exists now.
    split; [mem|]. by apply Z.ltb_lt.
  - apply keyAfterRefresh_safe. intros t r Hr. rewrite <- !app_assoc in Hr |- *. by apply HQ.
Qed.

(** [encoded] is a valid signature of [input] under the trusted key [key]. *)
Definition signed (h : history) (key : PublicKey) (alg kid input encoded : string) : Prop :=
  ∃ signature hash, DecodeString encoded = Some signature ∧ hashForAlgorithm alg = Some hash
  ∧ trusted h kid key ∧ VerifyPKCS1v15 S key hash (Sum S hash input) signature = None.

Lemma verify_safe h alg kid input encoded (Q : history → result unit → Prop) :
  (∀ t r, (r = Ok tt → ∃ key, signed (h ++ t) key alg kid input encoded) → Q (h ++ t) r) →
  safe h (verify S s alg kid input encoded) Q.
Proof.
  intros HQ. unfold verify. destruct (DecodeString encoded) as [signature|] eqn:Hsig.
  2: { simpl. replace h with (h ++ []) by apply app_nil_r. by apply HQ. }
  apply wp_try, keyFor_safe. intros t [key|e] Hkey; [|by apply HQ].
  unfold digestForAlgorithm. destruct (hashForAlgorithm alg) as [hash|] eqn:Hh; [|by apply HQ].
  destruct (VerifyPKCS1v15 _ _ _ _ _) as [e|] eqn:Hv; [by apply HQ|]. apply HQ. intros _.
  exists key, signature, hash. repeat (split; [done|]). split; [by apply Hkey|done].
Qed.
End keyset.

(** ** Claims *)

(** The claims name the verifier's issuer and audience and a subject, and the
    time [now] is within their dates, give or take the configured skew. *)
Record valid_claims (S : Std) (cfg : OIDCConfig) (claims : Claims) (now : Time) : Prop := {
  valid_issuer : claimString claims "iss" = Some (cfg_Issuer cfg);
  valid_audience : ∃ l, claimAudienceList (claim claims "aud") = Some l ∧ cfg_Audience cfg ∈ l;
  valid_subject : ∃ subject, claimString claims "sub" = Some subject ∧ subject ≠ "";
  valid_dates : ∃ expiry nbf iat, numericDate S (claim claims "exp") = Ok (Some expiry)
    ∧ numericDate S (claim claims "nbf") = Ok nbf ∧ numericDate S (claim claims "iat") = Ok iat
    ∧ (now ≤ AddTime expiry (cfg_ClockSkew cfg))%Z
    ∧ (∀ t, nbf = Some t → t ≤ AddTime now (cfg_ClockSkew cfg))%Z
    ∧ (∀ t, iat = Some t → t ≤ AddTime now (cfg_ClockSkew cfg) ∧ t ≤ expiry)%Z
}.

Lemma validateTimes_Ok S cfg claims now :
  validateTimes S cfg claims now = Ok tt ↔
  ∃ expiry nbf iat, numericDate S (claim claims "exp") = Ok (Some expiry)
    ∧ numericDate S (claim claims "nbf") = Ok nbf ∧ numericDate S (claim claims "iat") = Ok iat
    ∧ (now ≤ AddTime expiry (cfg_ClockSkew cfg))%Z
    ∧ (∀ t, nbf = Some t → t ≤ AddTime now (cfg_ClockSkew cfg))%Z
    ∧ (∀ t, iat = Some t → t ≤ AddTime now (cfg_ClockSkew cfg) ∧ t ≤ expiry)%Z.
Proof.
  unfold validateTimes, After, Before. split.
  - destruct (numericDate S (claim claims "exp")) as [[expiry|]|e]; [|done..].
    destruct (_ <? now)%Z eqn:H1; [done|]. destruct (numericDate S (claim claims "nbf")) as [nbf|e]; [|done].
    destruct (match nbf with Some _ => _ | None => _ end) eqn:H2; [done|].
    destruct (numericDate S (claim claims "iat")) as [[iat|]|e]; [| |done].
    + destruct (_ <? iat)%Z eqn:H3; [done|]. destruct (expiry <? iat)%Z eqn:H4; [done|]. intros _.
      exists expiry, nbf, (Some iat). go_props. repeat (split; [done|]).
      split; [intros t ->; by go_props|]. intros t [= <-]. lia.
    + intros _. exists expiry, nbf, None. go_props. repeat (split; [done|]).
      split; [intros t ->; by go_props|done].
  - intros (expiry & nbf & iat & -> & -> & -> & H1 & H2 & H3).
    rewrite (proj2 (Z.ltb_ge (AddTime expiry (cfg_ClockSkew cfg)) now)) by lia. cbn beta iota.
    assert (match nbf with Some nbf => (AddTime now (cfg_ClockSkew cfg) <? nbf)%Z | None => false end = false) as ->.
    { destruct nbf as [nbf|]; [|done]. apply Z.ltb_ge. by apply H2. }
    destruct iat as [iat|]; [|done]. destruct (H3 iat eq_refl) as [H4 H5].
    by rewrite (proj2 (Z.ltb_ge _ iat) H4), (proj2 (Z.ltb_ge _ iat) H5).
Qed.

Lemma validateClaims_wp {P : ∀ X, history → Ev X → Prop} S cfg claims h (Q : history → result unit → Prop) :
  (∀ h, P Time h ENow) →
  (∀ t r, (r = Ok tt → ∃ now, Asked ENow now ∈ t ∧ valid_claims S cfg claims now) → Q (h ++ t) r) →
  wp P h (validateClaims S cfg claims) Q.
Proof.
  intros HP HQ. assert (∀ e, Q h (Err e)) as Herr.
  { intros e. replace h with (h ++ []) by apply app_nil_r. by apply HQ. }
  unfold validateClaims. destruct (claimString claims "iss") as [issuer|] eqn:Hi; [|apply Herr].
  case_bool_decide as Hiss; [subst issuer|apply Herr]. cbn [negb].
  destruct (claimAudienceList _) as [l|] eqn:Ha; [|apply Herr]. unfold contains.
  case_bool_decide as Haud; [|apply Herr]. cbn [negb].
  destruct (claimString claims "sub") as [subject|] eqn:Hs; [|apply Herr].
  case_bool_decide as Hsub; [apply Herr|]. apply wp_Do; [done|]. intros now. simpl. apply HQ. intros Ht.
  exists now. split; [mem|]. split; [done|by exists l|by exists subject|by apply validateTimes_Ok].
Qed.

(** ** Tokens *)

(** What an accepted token proves about its principal. *)
Record genuine (S : Std) (v : OIDCVerifier) (h : history) (raw : string) (key : PublicKey) (p : Identity.Principal) : Prop := {
  token : ∃ head payload signature header claims now hb pb,
    Split raw "." = [head; payload; signature]
    ∧ DecodeString head = Some hb ∧ decode_header S hb = Ok header
    ∧ header_Kid header ≠ "" ∧ header_Crit header = [] ∧ header_Alg header ∈ cfg_AllowedAlgorithms (v_cfg v)
    ∧ signed S h key (header_Alg header) (header_Kid header) (head +:+ "." +:+ payload) signature
    ∧ DecodeString payload = Some pb ∧ decode_claims S pb = Ok claims
    ∧ Asked ENow now ∈ h ∧ valid_claims S (v_cfg v) claims now
    ∧ principalFromClaims (v_cfg v) claims = Ok p
}.

Lemma principalFromClaims_Ok cfg claims p :
  principalFromClaims cfg claims = Ok p →
  (Identity.Type_ p = Identity.PrincipalUser ∨ Identity.Type_ p = Identity.PrincipalServiceAccount)
  ∧ Identity.Validate p = Ok tt ∧ Identity.Issuer p = cfg_Issuer cfg ∧ Identity.AuthnMethod p = "oidc_jwt"
  ∧ Identity.SubjectID p = default "" (claimString claims "sub")
  ∧ Identity.TenantID p = default "" (claimString claims (cfg_TenantClaim cfg))
  ∧ Identity.ProjectID p = default "" (claimString claims (cfg_ProjectClaim cfg)).
Proof.
  unfold principalFromClaims.
  destruct (match claimString claims (cfg_PrincipalTypeClaim cfg) with Some _ => _ | None => _ end); [..|done|done];
    (destruct (Identity.Validate _) as [[]|e] eqn:Hv; [|done]); intros [= <-]; simpl; eauto 10.
Qed.

Section verifier.
Variable S : Std.
Variable v : OIDCVerifier.
Abbreviation safe := (wp (@stores_only (fetched S (v_keys v)))).

Lemma signed_mono h h' key alg kid input encoded :
  h ⊆ h' → signed S h key alg kid input encoded → signed S h' key alg kid input encoded.
Proof.
  intros Hh (signature & hash & H1 & H2 & H3 & H4). exists signature, hash. repeat (split; [done|]).
  split; [by eapply trusted_mono|done].
Qed.

Lemma verifyToken_safe h raw (Q : history → result Identity.Principal → Prop) :
  (∀ t r, (∀ p, r = Ok p → ∃ key, genuine S v (h ++ t) raw key p) → Q (h ++ t) r) → safe h (verifyToken S v raw) Q.
Proof.
  intros HQ. assert (∀ e, Q h (Err e)) as Herr.
  { intros e. replace h with (h ++ []) by apply app_nil_r. by apply HQ. }
  unfold verifyToken. destruct (Split raw ".") as [|head [|payload [|signature [|]]]] eqn:Hsplit; try apply Herr.
  destruct (_ || _ || _); [apply Herr|].
  destruct (DecodeString head) as [hb|] eqn:Hhb; [|apply Herr].
  destruct (decode_header S hb) as [header|e] eqn:Hheader; [|apply Herr].
  match goal with |- context [if ?b then _ else _] => destruct b eqn:Hb end; [apply Herr|].
  rewrite !orb_false_iff, !negb_false_iff, bool_decide_eq_false, !bool_decide_eq_true in Hb.
  destruct Hb as [[Hkid Hcrit] Halg]. apply bool_decide_eq_true in Halg.
  apply wp_try, verify_safe; [done|]. intros t [[]|e] Hsig; [|by apply HQ]. destruct (Hsig eq_refl) as [key Hkey].
  unfold acceptClaims. destruct (DecodeString payload) as [pb|] eqn:Hpb; [|by apply HQ].
  destruct (decode_claims S pb) as [claims|e] eqn:Hclaims; [|by apply HQ].
  apply wp_try. apply validateClaims_wp; [done|]. intros t' [[]|e] Hval; rewrite <- app_assoc; [|by apply HQ]. simpl.
  apply HQ. intros p Hp. destruct (Hval eq_refl) as (now & Hnow & Hv). exists key. split.
  exists head, payload, signature, header, claims, now, hb, pb. repeat (split; [done|]).
  split; [eapply signed_mono; [|exact Hkey]; set_solver|]. repeat (split; [done|]).
  split; [by rewrite !elem_of_app; right; right|done].
Qed.

Lemma Verify_safe h authorization (Q : history → result Identity.Principal → Prop) :
  (∀ t r, (∀ p, r = Ok p → ∃ values raw key, authorization = Some values ∧ bearerToken values = Ok raw
                                            ∧ genuine S v (h ++ t) raw key p) → Q (h ++ t) r) →
  safe h (Verify S v authorization) Q.
Proof.
  intros HQ. assert (∀ e, Q h (Err e)) as Herr.
  { intros e. replace h with (h ++ []) by apply app_nil_r. by apply HQ. }
  unfold Verify. destruct authorization as [values|]; [|apply Herr].
  destruct (bearerToken values) as [raw|e] eqn:Hraw; [|apply Herr].
  apply verifyToken_safe. intros t r Hr. apply HQ. intros p Hp. destruct (Hr p Hp) as [key Hkey].
  by exists values, raw, key.
Qed.
End verifier.

(** ** From the configuration to the principal

    What an accepted request proves, in terms of the configuration, of the
    documents the servers sent and of the claims as they were written. *)

(** [url] is an absolute HTTPS URL without user information. *)
Definition plain_https (S : Std) (url : string) : Prop :=
  ∃ u, url_Parse S url = Some u ∧ URL_Scheme u = "https" ∧ URL_Host u ≠ "" ∧ URL_User u = false.

(** The keys are at the configured URL; without one, at the URL that the
    issuer's own discovery document names. *)
Definition key_location (S : Std) (cfg : OIDCConfig) (h : history) (url : string) : Prop :=
  plain_https S url
  ∧ ((TrimSpace (cfg_JWKSURL cfg) ≠ "" ∧ url = TrimSpace (cfg_JWKSURL cfg))
     ∨ (TrimSpace (cfg_JWKSURL cfg) = "" ∧ ∃ body document,
          served S h (TrimSuffix (TrimSpace (cfg_Issuer cfg)) "/" +:+ "/.well-known/openid-configuration") body
          ∧ decode_discovery S body = Ok document
          ∧ doc_Issuer document = TrimSpace (cfg_Issuer cfg) ∧ doc_JWKSURI document = url)).

(** The configured algorithms, or RS256 when there are none. *)
Definition allowed (cfg : OIDCConfig) (alg : string) : Prop :=
  alg ∈ ["RS256"; "RS384"; "RS512"]
  ∧ (alg ∈ TrimSpace <$> cfg_AllowedAlgorithms cfg
     ∨ (alg = "RS256" ∧ ∀ a, a ∈ cfg_AllowedAlgorithms cfg → TrimSpace a = "")).

(** The document has the key [key] for signatures under [kid]. *)
Definition published (cfg : OIDCConfig) (document : list jwk) (kid : string) (key : PublicKey) : Prop :=
  ∃ item modulus exponent, item ∈ document ∧ jwk_Kty item = "RSA" ∧ jwk_Kid item = kid
    ∧ (jwk_Use item = "" ∨ jwk_Use item = "sig") ∧ (jwk_Alg item = "" ∨ allowed cfg (jwk_Alg item))
    ∧ DecodeString (jwk_N item) = Some modulus ∧ key_N key = SetBytes modulus
    ∧ DecodeString (jwk_E item) = Some exponent ∧ key_E key = SetBytes exponent ∧ strong key.

(** The claim [name] is a string that reads [text] without the spaces around it. *)
Definition says (claims : Claims) (name text : string) : Prop :=
  ∃ raw, claims !! name = Some (Str raw) ∧ TrimSpace raw = text.

(** The audience is the one string, or one of the strings. *)
Definition addressed (claims : Claims) (audience : string) : Prop :=
  says claims "aud" audience
  ∨ ∃ items raw, claims !! "aud" = Some (Arr items) ∧ Str raw ∈ items ∧ TrimSpace raw = audience.

(** The claim [name] is a finite number of seconds since 1970: the time [t]. *)
Definition dated (S : Std) (claims : Claims) (name : string) (t : Time) : Prop :=
  ∃ text x, claims !! name = Some (Number text) ∧ ParseFloat text = Some x ∧ f_finite x = true
    ∧ t = Unix (int64_of S x) (int64_of S (f_mul (f_sub x (f_int (f_trunc x))) (f_int Second))).

Definition undated (claims : Claims) (name : string) : Prop := claims !! name = None ∨ claims !! name = Some Null.

(** The claim [name] lists [entry]: in a string divided at spaces and commas or
    in a list of strings. *)
Definition lists (claims : Claims) (name entry : string) : Prop :=
  entry ≠ "" ∧ ∃ raw, TrimSpace raw = entry
  ∧ ((∃ text, claims !! name = Some (Str text) ∧ raw ∈ FieldsFunc text (λ r, (r ==? " "%char) || (r ==? ","%char)))
     ∨ ∃ items, claims !! name = Some (Arr items) ∧ Str raw ∈ items ∧ Forall (λ i, ∃ s, i = Str s) items).

(** The name a claim is configured to have. *)
Definition named (configured fallback name : string) : Prop :=
  (TrimSpace configured ≠ "" ∧ name = TrimSpace configured) ∨ (TrimSpace configured = "" ∧ name = fallback).

(** A text claim, or nothing when it is missing or is not a string. *)
Definition text_or_empty (claims : Claims) (name text : string) : Prop :=
  says claims name text ∨ (text = "" ∧ ∀ raw, claims !! name ≠ Some (Str raw)).

(** The tolerated difference between the clocks. *)
Definition tolerance (cfg : OIDCConfig) (skew : Duration) : Prop :=
  ((0 < cfg_ClockSkew cfg ∧ skew = cfg_ClockSkew cfg) ∨ (cfg_ClockSkew cfg ≤ 0 ∧ skew = 60 * Second))%Z.

(** The request's one Authorization value: the scheme and the token. *)
Definition bears (values : list string) (raw : string) : Prop :=
  ∃ value scheme, values = [value] ∧ Fields value = [scheme; raw] ∧ EqualFold scheme "Bearer" = true
    ∧ raw ≠ "" ∧ (Z.of_nat (String.length raw) ≤ 16384)%Z.

(** The claims, checked at the time [now], name [cfg]'s issuer and audience. *)
Record current (S : Std) (cfg : OIDCConfig) (claims : Claims) (now : Time) : Prop := {
  current_issuer : says claims "iss" (TrimSpace (cfg_Issuer cfg));
  current_audience : addressed claims (TrimSpace (cfg_Audience cfg)) ∧ TrimSpace (cfg_Audience cfg) ≠ "";
  current_dates : ∃ skew expiry, tolerance cfg skew ∧ dated S claims "exp" expiry ∧ (now ≤ AddTime expiry skew)%Z
    ∧ (undated claims "nbf" ∨ ∃ t, dated S claims "nbf" t ∧ (t ≤ AddTime now skew)%Z)
    ∧ (undated claims "iat" ∨ ∃ t, dated S claims "iat" t ∧ (t ≤ AddTime now skew)%Z ∧ (t ≤ expiry)%Z)
}.

(** The principal is what the claims say, and no more. *)
Record claimed (cfg : OIDCConfig) (claims : Claims) (p : Identity.Principal) : Prop := {
  claimed_type : ∃ name, named (cfg_PrincipalTypeClaim cfg) "principal_type" name
    ∧ ((Identity.Type_ p = Identity.PrincipalServiceAccount ∧ says claims name "service_account")
       ∨ (Identity.Type_ p = Identity.PrincipalUser
          ∧ (says claims name "user" ∨ text_or_empty claims name "")));
  claimed_subject : says claims "sub" (Identity.SubjectID p) ∧ Identity.SubjectID p ≠ "";
  claimed_tenant : ∃ name, named (cfg_TenantClaim cfg) "tenant_id" name
    ∧ says claims name (Identity.TenantID p) ∧ Identity.TenantID p ≠ "";
  claimed_project : ∃ name, named (cfg_ProjectClaim cfg) "project_id" name
    ∧ text_or_empty claims name (Identity.ProjectID p);
  claimed_roles : ∃ name, named (cfg_RolesClaim cfg) "roles" name
    ∧ ∀ r, r ∈ Identity.Roles p ↔ lists claims name r;
  claimed_capabilities : ∃ name, named (cfg_CapabilitiesClaim cfg) "capabilities" name
    ∧ ∀ r, r ∈ Identity.Capabilities p ↔ lists claims name r;
  claimed_issuer : Identity.Issuer p = TrimSpace (cfg_Issuer cfg)
}.

(** [key] is a key that the issuer publishes under [kid]: the thread with the
    history [h] read it from a cache filled within the configured time, or has
    just refreshed it. *)
Definition issued_key (S : Std) (cfg : OIDCConfig) (log h : history) (kid : string) (key : PublicKey) : Prop :=
  ∃ cache url body document filled ttl,
    Asked ELoad cache ∈ h ∧ keys cache !! kid = Some key
    ∧ key_location S cfg log url ∧ served S log url body ∧ decode_jwks S body = Ok document
    ∧ published cfg document kid key
    ∧ Asked ENow filled ∈ log
    ∧ ((0 < cfg_JWKSCacheTTL cfg ∧ ttl = cfg_JWKSCacheTTL cfg) ∨ (cfg_JWKSCacheTTL cfg ≤ 0 ∧ ttl = 5 * Minute))%Z
    ∧ ((∃ now, Asked ENow now ∈ h ∧ (now < Add filled ttl)%Z) ∨ ∃ c, Asked (EStore c) tt ∈ h).

(** The token [raw] is signed by the issuer of [cfg] and has these claims. *)
Definition issued (S : Std) (cfg : OIDCConfig) (log h : history) (raw : string) (claims : Claims) : Prop :=
  ∃ head payload sig hb pb header key hash signature,
    Split raw "." = [head; payload; sig]
    ∧ DecodeString head = Some hb ∧ decode_header S hb = Ok header ∧ header_Crit header = []
    ∧ header_Kid header ≠ "" ∧ allowed cfg (header_Alg header)
    ∧ (header_Alg header, hash) ∈ [("RS256", SHA256); ("RS384", SHA384); ("RS512", SHA512)]
    ∧ issued_key S cfg log h (header_Kid header) key
    ∧ DecodeString sig = Some signature
    ∧ VerifyPKCS1v15 S key hash (Sum S hash (head +:+ "." +:+ payload)) signature = None
    ∧ DecodeString payload = Some pb ∧ decode_claims S pb = Ok claims.

(** *** Lemmas *)

Lemma bearerToken_bears values raw : bearerToken values = Ok raw → bears values raw.
Proof.
  unfold bearerToken, bears. destruct values as [|value [|]]; try done.
  destruct (Fields value) as [|scheme [|tok [|]]] eqn:Hf; try done.
  destruct (EqualFold scheme "Bearer") eqn:He; [|done]. cbn [negb orb]. case_bool_decide as Hne; [done|].
  destruct (_ <? _)%Z eqn:Hl; [done|]. intros [= <-]. apply Z.ltb_ge in Hl. unfold maxTokenBytes in Hl.
  exists value, scheme. repeat (split; [done|]). lia.
Qed.

Lemma claimString_says claims name text : claimString claims name = Some text ↔ says claims name text.
Proof.
  unfold claimString, says. split.
  - destruct (claims !! name) as [[| | |raw| |]|]; try done. intros [= <-]. by exists raw.
  - by intros (raw & -> & <-).
Qed.

Lemma claimString_text claims name : text_or_empty claims name (default "" (claimString claims name)).
Proof.
  destruct (claimString claims name) as [text|] eqn:H; [left; by apply claimString_says|right]. split; [done|].
  intros raw Hraw. unfold claimString in H. by rewrite Hraw in H.
Qed.

Lemma normalizeStrings_loop_elem seen l x :
  x ∈ Identity.normalizeStrings_loop seen l → x ≠ "" ∧ ∃ raw, raw ∈ l ∧ TrimSpace raw = x.
Proof.
  revert seen. induction l as [|v l IH]; intros seen; simpl; [by intros ?%not_elem_of_nil|].
  assert (∀ seen', x ∈ Identity.normalizeStrings_loop seen' l → x ≠ "" ∧ ∃ raw, raw ∈ v :: l ∧ TrimSpace raw = x) as IH'.
  { intros seen' H. destruct (IH _ H) as (Hne & raw & Hin & Ht). split; [done|]. exists raw. split; [by right|done]. }
  case_bool_decide as Hne; [apply IH'|]. case_bool_decide; [apply IH'|].
  intros [->|Hx]%elem_of_cons; [|by eapply IH']. split; [done|]. exists v. split; [by left|done].
Qed.

Lemma normalizeStrings_loop_all seen l raw :
  raw ∈ l → TrimSpace raw ≠ "" → TrimSpace raw ∈ seen ∨ TrimSpace raw ∈ Identity.normalizeStrings_loop seen l.
Proof.
  revert seen. induction l as [|v l IH]; intros seen; simpl; [by intros ?%not_elem_of_nil|].
  intros [<-|H]%elem_of_cons Hne.
  - rewrite bool_decide_false by done. case_bool_decide; [by left|right; by left].
  - case_bool_decide; [by apply IH|]. case_bool_decide; [by apply IH|].
    destruct (IH ({[TrimSpace v]} ∪ seen) H Hne) as [[Heq%elem_of_singleton|Hs]%elem_of_union|Hin];
      [right; rewrite Heq; by left|by left|right; by right].
Qed.

Lemma elem_of_normalizeStrings l x : x ∈ normalizeStrings l ↔ x ≠ "" ∧ ∃ raw, raw ∈ l ∧ TrimSpace raw = x.
Proof.
  unfold normalizeStrings, Identity.normalizeStrings. split; [apply normalizeStrings_loop_elem|].
  intros (Hne & raw & Hin & <-). by destruct (normalizeStrings_loop_all ∅ l raw Hin Hne) as [?%not_elem_of_empty|].
Qed.

Lemma normalizeStrings_nil l : normalizeStrings l = [] → ∀ a, a ∈ l → TrimSpace a = "".
Proof.
  intros H a Ha. destruct (decide (TrimSpace a = "")) as [|Hne]; [done|].
  assert (TrimSpace a ∈ normalizeStrings l) as Hin by (apply elem_of_normalizeStrings; eauto).
  rewrite H in Hin. by apply not_elem_of_nil in Hin.
Qed.

Lemma defaultClaimName_named configured fallback : named configured fallback (defaultClaimName configured fallback).
Proof. unfold named, defaultClaimName. cbv zeta. case_bool_decide; [by right|by left]. Qed.

Lemma any_strings items l : mapM any_string items = Some l → Forall (λ i, ∃ s, i = Str s) items ∧ ∀ s, s ∈ l ↔ Str s ∈ items.
Proof.
  rewrite mapM_Some. induction 1 as [|i s items l Hi _ [IH1 IH2]]; [split; [done|]; set_solver|].
  destruct i; try done. simpl in Hi. simplify_eq. split; [constructor; [by eexists|done]|].
  intros s'. rewrite !elem_of_cons, IH2. naive_solver.
Qed.

Lemma claimStringList_lists claims name r :
  r ∈ default [] (claimStringList (claim claims name)) ↔ lists claims name r.
Proof.
  unfold claim, claimStringList, lists. destruct (claims !! name) as [[| | |text|items|]|]; simpl.
  1,2,3,6,7: split; [by intros ?%not_elem_of_nil|naive_solver].
  - rewrite elem_of_normalizeStrings. naive_solver.
  - destruct (mapM any_string items) as [l|] eqn:Hm; simpl.
    + destruct (any_strings _ _ Hm) as [Hall Hl]. rewrite elem_of_normalizeStrings. setoid_rewrite Hl. naive_solver.
    + split; [by intros ?%not_elem_of_nil|]. intros (_ & raw & _ & [(? & [=] & _)|(items' & [= <-] & _ & Hall)]).
      exfalso. apply eq_None_not_Some in Hm. apply Hm. clear Hm. induction Hall as [|i items [s ->] _ [l IH]]; simpl; [by eexists|].
      rewrite IH. by eexists.
Qed.

Lemma claimAudienceList_addressed claims l audience :
  claimAudienceList (claim claims "aud") = Some l → audience ∈ l → addressed claims audience.
Proof.
  unfold claim, claimAudienceList, addressed, says. destruct (claims !! "aud") as [[| | |raw|items|]|]; simpl; try done.
  - case_bool_decide; [done|]. intros [= <-] ->%list_elem_of_singleton. left. by exists raw.
  - destruct (mapM _ items) as [l'|] eqn:Hm; simpl; [|done]. intros Hl Hin. right.
    assert (audience ∈ normalizeStrings l') as Hin' by (by destruct l'; simplify_eq).
    apply elem_of_normalizeStrings in Hin' as (_ & s & Hs & Ht). apply mapM_Some in Hm.
    destruct (list_elem_of_lookup_1 _ _ Hs) as [i Hi]. destruct (Forall2_lookup_r _ _ _ _ _ Hm Hi) as (item & Hitem & He).
    destruct item as [| | |raw| |]; simpl in He; try done. case_bool_decide; simplify_eq.
    exists items, raw. split; [done|]. split; [by eapply list_elem_of_lookup_2|]. by rewrite TrimSpace_idem.
Qed.

Lemma numericDate_spec S claims name d :
  numericDate S (claim claims name) = Ok d →
  match d with None => undated claims name | Some t => dated S claims name t end.
Proof.
  unfold numericDate, claim, dated, undated. destruct (claims !! name) as [[| |text| | |]|]; simpl; try done.
  - intros [= <-]. by right.
  - destruct (ParseFloat text) as [x|] eqn:Hx; [|done]. destruct (f_finite x) eqn:Hf; [|done]. intros [= <-].
    by exists text, x.
  - intros [= <-]. by left.
Qed.

Lemma exponent_SetBytes b : exponent b = SetBytes b.
Proof.
  unfold exponent, SetBytes. generalize 0%Z. induction (bytes b) as [|a l IH]; intros acc; [done|]. simpl.
  rewrite IH. f_equal. rewrite Z.shiftl_mul_pow2 by lia. symmetry. apply Z.add_nocarry_lor.
  apply Z.bits_inj'. intros n Hn. rewrite Z.land_spec, Z.bits_0. change 256%Z with (2 ^ 8)%Z.
  destruct (decide (n < 8)%Z); [by rewrite Z.mul_pow2_bits_low|].
  rewrite (Z.bits_above_log2 (Z.of_N (code a)) n); [by rewrite andb_false_r|lia|].
  assert (code a < 256)%N by apply N_ascii_bounded. destruct (decide (code a = 0)%N) as [-> |]; [simpl; lia|]. apply Z.log2_lt_pow2; [lia|].
  eapply Z.lt_le_trans; [|apply (Z.pow_le_mono_r 2 8 n); lia]. lia.
Qed.

Lemma rsaPublicKey_bytes n e key :
  rsaPublicKey n e = Ok key → ∃ nb eb, DecodeString n = Some nb ∧ key_N key = SetBytes nb
    ∧ DecodeString e = Some eb ∧ key_E key = SetBytes eb.
Proof.
  unfold rsaPublicKey. destruct (DecodeString n) as [[|a n']|]; [done| |done].
  destruct (DecodeString e) as [[|b e']|]; [done| |done]. destruct (4 <? _); [done|].
  destruct (_ || _); [done|]. intros [= <-]. do 2 eexists. repeat (split; [done|]). apply exponent_SetBytes.
Qed.

(** What [NewOIDCVerifier] made of the configuration. *)
Record configured (S : Std) (cfg : OIDCConfig) (h : history) (v : OIDCVerifier) : Prop := {
  conf_cfg : v_cfg v = match cfg_AllowedAlgorithms (normalizeConfig cfg) with
                       | [] => set_algs (normalizeConfig cfg) ["RS256"]
                       | _ => normalizeConfig cfg
                       end;
  conf_audience : TrimSpace (cfg_Audience cfg) ≠ "";
  conf_algorithms : ∀ alg, alg ∈ cfg_AllowedAlgorithms (v_cfg v) → supportedAlgorithm alg = true;
  conf_set : set_algorithms (v_keys v) = cfg_AllowedAlgorithms (v_cfg v)
             ∧ set_cacheTTL (v_keys v) = cfg_JWKSCacheTTL (normalizeConfig cfg);
  conf_url : key_location S cfg h (set_url (v_keys v))
}.

Lemma key_location_mono S cfg h h' url : h ⊆ h' → key_location S cfg h url → key_location S cfg h' url.
Proof.
  intros Hh [H1 H2]. split; [done|]. destruct H2 as [H2|(H2 & body & doc & H3 & H4)]; [by left|right].
  split; [done|]. exists body, doc. split; [by eapply served_mono|done].
Qed.

Lemma configured_mono S cfg h h' v : h ⊆ h' → configured S cfg h v → configured S cfg h' v.
Proof. intros Hh []. split; try done. by eapply key_location_mono. Qed.

Lemma validateHTTPSURL_plain S name url : validateHTTPSURL S name url = Ok tt → plain_https S url.
Proof.
  unfold validateHTTPSURL, plain_https. destruct (url_Parse S url) as [u|]; [|done].
  destruct (_ || _) eqn:H; [done|]. rewrite !orb_false_iff, negb_false_iff, bool_decide_eq_true, bool_decide_eq_false in H.
  intros _. exists u. tauto.
Qed.

(** The verifier that [NewOIDCVerifier] returns has just stored the keys of its
    issuer. *)
Lemma NewOIDCVerifier_stores S cfg client t v :
  returns (NewOIDCVerifier S cfg client) t (Ok v) →
  configured S cfg t v ∧ ∃ c, last t = Some (Asked (EStore c) tt) ∧ fetched S (v_keys v) t c.
Proof.
  assert (wp (@stores_only (λ _ _, True)) [] (NewOIDCVerifier S cfg client) (λ t r, ∀ v, r = Ok v →
    configured S cfg t v ∧ ∃ c, last t = Some (Asked (EStore c) tt) ∧ fetched S (v_keys v) t c)) as Hwp.
  { unfold NewOIDCVerifier. destruct (validateHTTPSURL _ _ _) as [[]|e]; [|done]. case_bool_decide as Haud; [done|].
    destruct (list_find _ _) as [[i alg]|] eqn:Halgs; [done|]. apply wp_try. rewrite list_find_None, Forall_forall in Halgs.
    set (cfg' := match cfg_AllowedAlgorithms (normalizeConfig cfg) with [] => _ | _ => _ end) in *.
    assert (cfg_JWKSURL cfg' = TrimSpace (cfg_JWKSURL cfg) ∧ cfg_Issuer cfg' = TrimSpace (cfg_Issuer cfg)
            ∧ cfg_JWKSCacheTTL cfg' = cfg_JWKSCacheTTL (normalizeConfig cfg)) as (Hjw & Hiss & Httl)
      by (unfold cfg'; by destruct (cfg_AllowedAlgorithms (normalizeConfig cfg))).
    match goal with |- wp _ _ _ ?Q => set (K := Q);
      assert (∀ h r, (∀ url, r = Ok url → plain_https S url → key_location S cfg h url) → K h r) as HK; [|clearbody K] end.
    { intros h [url|e] Hurl; [|done]. unfold K. destruct (validateHTTPSURL _ _ _) as [[]|e] eqn:Hv; [|done].
      apply validateHTTPSURL_plain in Hv.
      apply wp_try, refresh_safe; [done|]. intros t' [[]|e] Hr; [|done]. intros v' [= <-]. split.
      - split; [done|done| |done|].
        + intros alg Ha. apply not_false_iff_true. by apply Halgs.
        + eapply key_location_mono; [|by apply Hurl]. set_solver.
      - destruct (Hr eq_refl) as (c & Hlast & Hf). exists c. split; [by rewrite last_app, Hlast|done]. }
    rewrite Hjw, Hiss. case_bool_decide as Hj.
    2: { apply HK. intros url [= <-] Hp. split; [done|by left]. }
    apply wp_try. unfold discover. apply wp_try. apply fetchJSON_safe.
    intros t' [document|e] Hdoc; [|by apply HK]. destruct (_ || _); [by apply HK|]. simpl.
    case_bool_decide as Hi; apply HK; [|done]. intros url [= <-] Hp. split; [done|right]. split; [done|].
    destruct (Hdoc _ eq_refl) as (body & Hs & Hd). by exists body, document. }
  intros Ht. exact (wp_returns _ _ _ _ _ Hwp Ht _ eq_refl).
Qed.

Lemma configured_allowed S cfg h v alg :
  configured S cfg h v → alg ∈ cfg_AllowedAlgorithms (v_cfg v) → allowed cfg alg.
Proof.
  intros Hc Ha. pose proof (conf_algorithms _ _ _ _ Hc _ Ha) as Hs. rewrite (conf_cfg _ _ _ _ Hc) in Ha. split.
  - unfold supportedAlgorithm in Hs. rewrite !orb_true_iff, !bool_decide_eq_true in Hs. set_solver.
  - cbn [normalizeConfig cfg_AllowedAlgorithms] in Ha. destruct (normalizeStrings _) as [|a l] eqn:Hn.
    + apply list_elem_of_singleton in Ha. right. split; [done|]. by apply normalizeStrings_nil.
    + change (alg ∈ normalizeStrings (cfg_AllowedAlgorithms cfg)) in Ha. apply elem_of_normalizeStrings in Ha as (_ & raw & Hraw & <-). left.
      by apply list_elem_of_fmap_2.
Qed.

Lemma fetched_published S cfg h0 v h c kid key :
  configured S cfg h0 v → fetched S (v_keys v) h c → keys c !! kid = Some key →
  ∃ body document, served S h (set_url (v_keys v)) body ∧ decode_jwks S body = Ok document
    ∧ published cfg document kid key.
Proof.
  intros Hc ((body & doc & Hs & Hd & Hk) & _) Hkey. exists body, doc. do 2 (split; [done|]).
  destruct (acceptableKeys_spec _ _ _ _ _ _ Hk Hkey) as [H|(item & Hin & (H1 & _ & H2 & H3) & H4 & H5 & H6)];
    [by rewrite lookup_empty in H|].
  destruct (rsaPublicKey_bytes _ _ _ H5) as (nb & eb & H7 & H8 & H9 & H10). exists item, nb, eb.
  repeat (split; [done|]). split; [|done]. destruct H3 as [H3|H3]; [by left|right].
  rewrite (proj1 (conf_set _ _ _ _ Hc)) in H3. by eapply configured_allowed.
Qed.

Lemma trusted_issued S cfg v log h kid key :
  configured S cfg log v → (∀ c, Asked ELoad c ∈ h → fetched S (v_keys v) log c) →
  trusted h kid key → issued_key S cfg log h kid key.
Proof.
  intros Hc Hload (cache & Hcache & Hkey & Hfresh). pose proof (Hload _ Hcache) as Hf.
  destruct (fetched_published _ _ _ _ _ _ _ _ Hc Hf Hkey) as (body & doc & Hs & Hd & Hp).
  destruct Hf as (_ & _ & filled & Hfilled & Hu). rewrite (proj2 (conf_set _ _ _ _ Hc)) in Hu.
  exists cache, (set_url (v_keys v)), body, doc, filled, (cfg_JWKSCacheTTL (normalizeConfig cfg)).
  do 2 (split; [done|]). split; [by apply conf_url|]. repeat (split; [done|]). split.
  - simpl. destruct (_ <=? 0)%Z eqn:E; [right|left]; by go_props.
  - by rewrite <- Hu.
Qed.

Lemma configured_claims S cfg h v :
  configured S cfg h v → ∃ algs, v_cfg v = set_algs (normalizeConfig cfg) algs.
Proof.
  intros Hc. rewrite (conf_cfg _ _ _ _ Hc). destruct (cfg_AllowedAlgorithms (normalizeConfig cfg)); [by eexists|].
  by exists (cfg_AllowedAlgorithms (normalizeConfig cfg)).
Qed.

Lemma valid_claims_current S cfg h v claims now :
  configured S cfg h v → valid_claims S (v_cfg v) claims now → current S cfg claims now.
Proof.
  intros Hc. destruct (configured_claims _ _ _ _ Hc) as [algs ->].
  intros [Hiss (l & Haud & Hl) _ (expiry & nbf & iat & He & Hn & Hi & H1 & H2 & H3)]. simpl in *. split.
  - by apply claimString_says.
  - split; [by eapply claimAudienceList_addressed|by eapply conf_audience].
  - apply numericDate_spec in He, Hn, Hi. eexists _, expiry. split; [|split; [exact He|split; [exact H1|split]]].
    + unfold tolerance. destruct (_ <=? 0)%Z eqn:E; [right|left]; by go_props.
    + destruct nbf as [t|]; [right; exists t; split; [done|by apply H2]|by left].
    + destruct iat as [t|]; [right; exists t; split; [done|by apply H3]|by left].
Qed.

Lemma principalFromClaims_claimed S cfg h v claims p :
  configured S cfg h v → principalFromClaims (v_cfg v) claims = Ok p → claimed cfg claims p.
Proof.
  intros Hc. destruct (configured_claims _ _ _ _ Hc) as [algs ->]. unfold principalFromClaims. simpl.
  set (ty := match claimString claims _ with Some _ => _ | None => _ end). intros H.
  assert (ty = Identity.PrincipalUser ∨ ty = Identity.PrincipalServiceAccount) as Hty by (clearbody ty; destruct ty; naive_solver).
  match type of H with context [Identity.Validate ?q] => set (pr := q) in H end.
  assert (p = pr ∧ Identity.Validate pr = Ok tt) as [-> Hv].
  { clearbody pr ty. destruct Hty as [-> | ->]; (destruct (Identity.Validate pr) as [[]|]; [by simplify_eq|done]). }
  unfold Identity.Validate in Hv. simpl in Hv. case_match eqn:E0; [done|].
  rewrite orb_false_iff, !bool_decide_eq_false in E0. destruct E0 as [Hsub _].
  assert (TrimSpace (Identity.TenantID pr) ≠ "") as Hten.
  { simpl. destruct Hty as [Hty|Hty]; rewrite Hty in Hv; case_bool_decide; done. }
  assert (∀ name, TrimSpace (default "" (claimString claims name)) ≠ "" →
    says claims name (default "" (claimString claims name)) ∧ default "" (claimString claims name) ≠ "") as Hsays.
  { intros name Hne. destruct (claimString claims name) as [text|] eqn:Hs; [|done]. apply claimString_says in Hs.
    split; [done|]. simpl in *. intros ->. done. }
  split; simpl.
  - eexists. split; [apply defaultClaimName_named|]. unfold ty in *.
    pose proof (claimString_says claims (defaultClaimName (cfg_PrincipalTypeClaim cfg) "principal_type")) as Hcs.
    pose proof (claimString_text claims (defaultClaimName (cfg_PrincipalTypeClaim cfg) "principal_type")) as Htx.
    destruct (claimString claims _) as [value|]; [|by right; split; [|right]]. simpl in Htx.
    case_bool_decide as Hvalue; cbn [negb] in *; [subst value; by right; split; [|right]|].
    unfold PrincipalType_of in *. case_bool_decide as E1; [subst; right; split; [done|]; left; by apply Hcs|].
    case_bool_decide as E2; [subst; left; split; [done|]; by apply Hcs|].
    case_bool_decide; destruct Hty as [Hty|Hty]; done.
  - by apply Hsays.
  - eexists. split; [apply defaultClaimName_named|]. by apply Hsays.
  - eexists. split; [apply defaultClaimName_named|]. apply claimString_text.
  - eexists. split; [apply defaultClaimName_named|]. intros r. apply claimStringList_lists.
  - eexists. split; [apply defaultClaimName_named|]. intros r. apply claimStringList_lists.
  - done.
Qed.

Lemma hashForAlgorithm_table alg hash :
  hashForAlgorithm alg = Some hash → (alg, hash) ∈ [("RS256", SHA256); ("RS384", SHA384); ("RS512", SHA512)].
Proof.
  unfold hashForAlgorithm. case_bool_decide; [intros [= <-]; subst; set_solver|].
  case_bool_decide; [intros [= <-]; subst; set_solver|]. case_bool_decide; [intros [= <-]; subst; set_solver|done].
Qed.

(** An accepted token in terms of the configuration. *)
Lemma genuine_issued S cfg v log h raw key p :
  configured S cfg log v → (∀ c, Asked ELoad c ∈ h → fetched S (v_keys v) log c) → genuine S v h raw key p →
  ∃ claims now, issued S cfg log h raw claims ∧ Asked ENow now ∈ h ∧ current S cfg claims now ∧ claimed cfg claims p.
Proof.
  intros Hc Hload [(head & payload & sig & header & claims & now & hb & pb & H1 & H2 & H3 & H4 & H5 & H6 & H7 & H8 & H9 & H10 & H11 & H12)].
  exists claims, now. split; [|split; [done|split; [by eapply valid_claims_current|by eapply principalFromClaims_claimed]]].
  destruct H7 as (signature & hash & Hsig & Hhash & Ht & Hver).
  exists head, payload, sig, hb, pb, header, key, hash, signature. repeat (split; [done|]).
  split; [by eapply configured_allowed|]. split.
  { by apply hashForAlgorithm_table. }
  split; [by eapply trusted_issued|]. done.
Qed.
End AuthnSpec.
