(* ===== verification/AuthnSystem.v ===== *)
(** * AuthnSystem: concurrent requests over one key set

    The server verifies any number of requests at once; they share the key set
    of the verifier.  A system is the cache, one thread per request and the log
    of everything that was asked; a step starts a request or answers the next
    question of one thread.  The theorems say what a request that was accepted
    had, what the outgoing requests are, and when a token is accepted. *)
From S2P Require Import Prelude Identity GoStrings GoText Programs Authn AuthnSpec.

Module AuthnSystem.
Import Authn AuthnSpec.




Section system.
Variable S : Std.
Variable v : OIDCVerifier.












Definition reply (c : KeyCache) (hop : result Hop) (now : Time) {X} (e : Ev X) : X * KeyCache :=
  match e in Ev X return X * KeyCache with
  | ERoundTrip _ => (hop, c)
  | ENow => (now, c)
  | ELoad => (c, c)
  | EStore new => (tt, new)
  end.




End system.

(** ** Theorems *)


(** Fetching a document makes at most ten requests, every one after the first
    to an HTTPS URL, and the bound on redirects is reached before the model's
    fuel: with more fuel the answer is the same. *)
Theorem metadata_fetches_are_bounded S client endpoint {A} (decode : string → result A) t p url n r :
  asks (fetchJSON S (cloneHTTPClient client) endpoint decode) t p → url_Parse S endpoint = Some url →
  length t ≤ maxRedirects
  ∧ match t with [] => True | x :: t => (∃ r, x = Asked (ERoundTrip url) r) ∧ Forall https_request t end
  ∧ (clientFuel ≤ n → returns (clientDo n (cloneHTTPClient client) [] url) t r ↔
                      returns (clientDo clientFuel (cloneHTTPClient client) [] url) t r).
Proof.
  intros Ht Hu. unfold fetchJSON in Ht. rewrite Hu in Ht.
  assert (∃ q, asks (clientDo clientFuel (cloneHTTPClient client) [] url) t q) as [q Hq].
  { apply asks_bind in Ht as [H|(a & t1 & t2 & -> & H1 & H2)]; [done|].
    assert (t2 = []) as ->; [|rewrite app_nil_r; by eexists].
    destruct a as [[last resp]|e]; [|by apply asks_inv in H2 as [-> _]].
    repeat (case_match || destruct (readLimited _ _)); by apply asks_inv in H2 as [-> _]. }
  apply clientDo_bounded in Hq; [|unfold maxRedirects; simpl; lia]. destruct Hq as [Hlen Hall].
  split; [done|]. split; [done|]. unfold clientFuel. intros Hn.
  split; apply clientDo_fuel; unfold maxRedirects; simpl; lia.
Qed.

(** A token's parts as the verifier reads them. *)
Record parsed (S : Std) (v : OIDCVerifier) (values : list string) (head payload signature : string) (header : jwtHeader)
    : Prop := {
  parsed_token : ∃ raw hb, bearerToken values = Ok raw ∧ Split raw "." = [head; payload; signature]
    ∧ DecodeString head = Some hb ∧ decode_header S hb = Ok header;
  parsed_whole : head ≠ "" ∧ payload ≠ "" ∧ signature ≠ "";
  parsed_header : header_Kid header ≠ "" ∧ header_Crit header = [] ∧ header_Alg header ∈ cfg_AllowedAlgorithms (v_cfg v);
  parsed_signature : is_Some (DecodeString signature)
}.

(** With such a token the verifier goes for the key. *)
Lemma Verify_parsed S v values head payload signature header :
  parsed S v values head payload signature header →
  Verify S v (Some values) =
    try (verify S (v_keys v) (header_Alg header) (header_Kid header) (head +:+ "." +:+ payload) signature)
      (λ _, ErrTokenInvalid) (λ _, acceptClaims S (v_cfg v) payload).
Proof.
  intros [(raw & hb & Hraw & Hsplit & Hhb & Hheader) (H1 & H2 & H3) (Hk & Hc & Ha) _].
  unfold Verify, verifyToken. rewrite Hraw, Hsplit, !bool_decide_false by done. cbn [orb].
  rewrite Hhb, Hheader, Hc, bool_decide_false, bool_decide_true by done. unfold contains.
  by rewrite bool_decide_true by done.
Qed.

(** A token signed under a key of a cache that is still valid, with claims
    that are valid when they are checked, is accepted, and nothing is fetched. *)
Theorem valid_tokens_are_accepted S v values head payload sig header signature hash cache key now1 now2 pb claims p :
  parsed S v values head payload sig header →
  keys cache !! header_Kid header = Some key → (now1 < keysUntil cache)%Z →
  DecodeString sig = Some signature → hashForAlgorithm (header_Alg header) = Some hash →
  VerifyPKCS1v15 S key hash (Sum S hash (head +:+ "." +:+ payload)) signature = None →
  DecodeString payload = Some pb → decode_claims S pb = Ok claims → valid_claims S (v_cfg v) claims now2 →
  principalFromClaims (v_cfg v) claims = Ok p →
  returns (Verify S v (Some values)) [Asked ELoad cache; Asked ENow now1; Asked ENow now2] (Ok p).
Proof.
  intros Hparsed Hkey Hnow Hsig Hhash Hver Hpb Hclaims [Hiss (l & Haud & Hl) (sub & Hsub & Hne) Hdates] Hp.
  apply validateTimes_Ok in Hdates. rewrite (Verify_parsed _ _ _ _ _ _ _ Hparsed).
  unfold returns, try, verify. rewrite Hsig. unfold try, keyFor. simpl. constructor. rewrite Hkey. simpl. constructor.
  unfold Before. rewrite (proj2 (Z.ltb_lt _ _) Hnow). simpl. unfold digestForAlgorithm. rewrite Hhash, Hver. simpl.
  unfold acceptClaims. rewrite Hpb, Hclaims. unfold try, validateClaims, contains.
  rewrite Hiss, Haud, Hsub, !bool_decide_true, bool_decide_false by done. simpl. constructor. rewrite Hdates. simpl.
  rewrite Hp. constructor.
Qed.

(** A token whose key id is not in the cache makes the verifier fetch the
    keys again, however fresh they are and whoever sent it: the signature has not
    been looked at. *)
Theorem unknown_kids_are_fetched S v values head payload sig header cache url :
  parsed S v values head payload sig header → keys cache !! header_Kid header = None →
  url_Parse S (set_url (v_keys v)) = Some url →
  ∃ k, asks (Verify S v (Some values)) [Asked ELoad cache] (Do (ERoundTrip url) k).
Proof.
  intros Hparsed Hkey Hurl. rewrite (Verify_parsed _ _ _ _ _ _ _ Hparsed).
  destruct Hparsed as [_ _ _ [signature Hsig]]. unfold try, verify. rewrite Hsig. unfold try, keyFor. simpl.
  eexists. constructor. rewrite Hkey. unfold keyAfterRefresh, refresh, fetchJSON, try. rewrite Hurl. simpl. constructor.
Qed.
End AuthnSystem.

(** * AuthnExamples: a verifier, a token and the theorems on them

    A verifier for the issuer https://issuer.example with one 2048-bit key, a
    token of a developer, and a run of two concurrent requests.  The codecs read
    the few texts that occur; a signature is valid when it is the key's exponent
    and the signed text. *)

Module AuthnExamples.
Import Authn AuthnSpec AuthnSystem.

Definition modulus : string := of_bytes ("g"%char :: replicate 341 "A"%char).
Definition item : jwk := mkJwk "RSA" "k1" "sig" "RS256" modulus "AQAB".
Definition the_key : PublicKey := mkPublicKey (2 ^ 2047) 65537.

Definition the_claims : Claims := list_to_map [
  ("iss", Str "https://issuer.example"); ("aud", Arr [Str "aicloud"; Str "other"]); ("sub", Str "dev-1");
  ("exp", Number "1767229200"); ("nbf", Number "1767225600.5"); ("tenant_id", Str "tenant-a");
  ("project_id", Str "project-a"); ("roles", Str "developer, viewer")].

Definition the_url (text : string) : URL := mkURL "https" "issuer.example" false text.

Definition std : Std := {|
  url_Parse := λ s, if HasPrefix s "https://" then Some (the_url s) else None;
  decode_header := λ s, if s ==? "header" then Ok (mkHeader "RS256" "k1" "JWT" [])
                        else if s ==? "other" then Ok (mkHeader "RS256" "k2" "JWT" []) else Err (Errorf "header" []);
  decode_claims := λ s, if s ==? "claims" then Ok the_claims else Err (Errorf "claims" []);
  decode_jwks := λ s, if s ==? "keys" then Ok [item] else Err (Errorf "keys" []);
  decode_discovery := λ s, Ok (mkDiscovery "https://issuer.example" "https://issuer.example/jwks");
  Sum := λ _ s, s;
  VerifyPKCS1v15 := λ key _ digest signature,
    if signature ==? ("65537:" +:+ digest) then None else Some (Errorf "verification error" []);
  float_overflow := λ _, int_min
|}.

Definition config : OIDCConfig :=
  mkOIDCConfig "https://issuer.example" "aicloud" "https://issuer.example/jwks" [] "" "" "" "" "" "" 0 0.

(** 2026-01-01T00:30:00Z. *)
Definition now : Time := ((1767225600 + 1800 + 62135596800) * Second)%Z.




Definition verifier : OIDCVerifier :=
  mkVerifier (set_algs (normalizeConfig config) ["RS256"])
    (mkKeySet (cloneHTTPClient None) "https://issuer.example/jwks" defaultJWKSCache ["RS256"]).

Definition the_cache : KeyCache := mkKeyCache {[ "k1" := the_key ]} (now + defaultJWKSCache)%Z.



(** ** The token *)

Definition enc_header : string := EncodeToString "header".
Definition enc_claims : string := EncodeToString "claims".
Definition enc_signature : string := EncodeToString ("65537:" +:+ enc_header +:+ "." +:+ enc_claims).
Definition token : string := enc_header +:+ "." +:+ enc_claims +:+ "." +:+ enc_signature.
(** The same token under another key id. *)
Definition enc_other : string := EncodeToString "other".
Definition stray : string := enc_other +:+ "." +:+ enc_claims +:+ "." +:+ enc_signature.

Definition developer : Identity.Principal :=
  Identity.mkPrincipal Identity.PrincipalUser "dev-1" "tenant-a" "project-a" ["developer"; "viewer"] [] "oidc_jwt"
    "https://issuer.example" "" "".

Definition header_of (kid : string) : jwtHeader := mkHeader "RS256" kid "JWT" [].

Lemma token_parsed : parsed std verifier ["bearer " +:+ token] enc_header enc_claims enc_signature (header_of "k1").
Proof.
  split.
  - exists token, "header". repeat split; vm_compute; reflexivity.
  - repeat split; vm_compute; discriminate.
  - split; [done|]. split; [done|]. apply list_elem_of_here.
  - eexists. vm_compute. reflexivity.
Qed.

Lemma stray_parsed : parsed std verifier ["Bearer " +:+ stray] enc_other enc_claims enc_signature (header_of "k2").
Proof.
  split.
  - exists stray, "other". repeat split; vm_compute; reflexivity.
  - repeat split; vm_compute; discriminate.
  - split; [done|]. split; [done|]. apply list_elem_of_here.
  - eexists. vm_compute. reflexivity.
Qed.

Lemma claims_valid : valid_claims std (v_cfg verifier) the_claims now.
Proof.
  split.
  - vm_compute. reflexivity.
  - exists ["aicloud"; "other"]. split; [vm_compute; reflexivity|apply list_elem_of_here].
  - exists "dev-1". split; [vm_compute; reflexivity|done].
  - apply validateTimes_Ok. vm_compute. reflexivity.
Qed.

(** ** Instances of the theorems *)

Lemma valid_tokens_are_accepted_witness :
  returns (Verify std verifier (Some ["bearer " +:+ token]))
    [Asked ELoad the_cache; Asked ENow now; Asked ENow now] (Ok developer).
Proof.
  apply (valid_tokens_are_accepted std verifier ["bearer " +:+ token] enc_header enc_claims enc_signature (header_of "k1")
    ("65537:" +:+ enc_header +:+ "." +:+ enc_claims) SHA256 the_cache the_key now now "claims" the_claims developer).
  - exact token_parsed.
  - reflexivity.
  - reflexivity.
  - vm_compute. reflexivity.
  - reflexivity.
  - vm_compute. reflexivity.
  - vm_compute. reflexivity.
  - reflexivity.
  - exact claims_valid.
  - vm_compute. reflexivity.
Defined.

Lemma unknown_kids_are_fetched_witness :
  ∃ k, asks (Verify std verifier (Some ["Bearer " +:+ stray])) [Asked ELoad the_cache]
         (Do (ERoundTrip (the_url "https://issuer.example/jwks")) k).
Proof.
  apply (unknown_kids_are_fetched std verifier ["Bearer " +:+ stray] enc_other enc_claims enc_signature (header_of "k2")); [exact stray_parsed|reflexivity|reflexivity].
Defined.

(** A server that redirects for ever. *)
Definition looping : ∀ X, Ev X → option X := λ X e,
  Some (fst (reply the_cache (Ok (Redirect (the_url "https://issuer.example/next") (mkResponse 302 "" None))) now e)).
Definition looped := follow looping (fetchJSON std (cloneHTTPClient None) "https://issuer.example/jwks" (decode_jwks std)).

Lemma metadata_fetches_are_bounded_witness :
  length looped.1 = 10 ∧ length looped.1 ≤ maxRedirects.
Proof.
  split; [vm_compute; reflexivity|].
  exact (proj1 (metadata_fetches_are_bounded std None "https://issuer.example/jwks" (decode_jwks std) looped.1 looped.2
    (the_url "https://issuer.example/jwks") clientFuel (Err ErrFuel)
    (follow_asks looping (fetchJSON std (cloneHTTPClient None) "https://issuer.example/jwks" (decode_jwks std))) eq_refl)).
Defined.



End AuthnExamples.
