(* ===== verification/Authorization.v ===== *)
(** * Authorization: roles and scopes

    [src/internal/authorization]: the RBAC evaluator (roles.go), the attribute
    policy on resource scopes (scope_policy.go) and their composition
    (service.go).  The attribute policy is an interface; [ScopePolicy] is the
    one implementation. *)
From S2P Require Import Prelude GoStrings Identity.

Module Authorization.
#[local] Existing Instance Identity.PrincipalType_eq_dec.

Inductive Action : Type :=
| ActionAny | ActionModelRead | ActionModelWrite | ActionModelAdmissionRead | ActionModelAdmissionWrite
| ActionToolRead | ActionToolExecute | ActionTaskRead | ActionTaskCreate | ActionTaskRoute
| ActionTaskModelExecute | ActionTaskRouteRead | ActionTaskCostRead | ActionTaskAuditRead
| ActionTaskTraceRead | ActionTaskEvaluationRead | ActionTaskEvaluationWrite | ActionOther (s : string).

(** [strings.TrimSpace(string(action)) == ""]. *)
Definition blankAction (a : Action) : bool := match a with ActionOther s => blank s | _ => false end.

Inductive Scope : Type := ScopeTenant | ScopeProject | ScopeOther (s : string).

Record Resource : Type := mkResource {
  Resource_Kind : string;
  Resource_ID : string;
  Resource_Scope : Scope;
  Resource_TenantID : string;
  Resource_ProjectID : string;
  Resource_Attributes : gmap string string
}.

Record Request : Type := mkRequest {
  Request_Principal : Identity.Principal;
  Request_Action : Action;
  Request_Resource : Resource
}.

Record Decision : Type := mkDecision {
  Allowed : bool;
  Reason : string;
  Layer : string;
  PolicyVersion : string;
  MatchedRole : string
}.

(** ** roles.go *)
Definition RoleTenantAdmin : string := "tenant_admin".
Definition RoleProjectAdmin : string := "project_admin".
Definition RoleDeveloper : string := "developer".
Definition RoleOperator : string := "operator".
Definition RoleReviewer : string := "reviewer".
Definition RoleViewer : string := "viewer".

Record RBAC : Type := mkRBAC { RBAC_Version : string }.
Definition BuiltinRBAC : RBAC := mkRBAC "builtin-rbac-v1".

Definition isReadAction (action : Action) : bool :=
  match action with
  | ActionModelRead | ActionModelAdmissionRead | ActionToolRead | ActionTaskRead | ActionTaskRouteRead
  | ActionTaskCostRead | ActionTaskAuditRead | ActionTaskTraceRead | ActionTaskEvaluationRead => true
  | _ => false
  end.

Definition roleAllows (role : string) (action : Action) : bool :=
  if role ==? RoleTenantAdmin then true
  else if isReadAction action
  then (role ==? RoleProjectAdmin) || (role ==? RoleDeveloper) || (role ==? RoleOperator)
       || (role ==? RoleReviewer) || (role ==? RoleViewer)
  else match action with
  | ActionTaskCreate | ActionTaskRoute | ActionTaskModelExecute | ActionToolExecute =>
      (role ==? RoleProjectAdmin) || (role ==? RoleDeveloper) || (role ==? RoleOperator)
  | ActionTaskEvaluationWrite => (role ==? RoleProjectAdmin) || (role ==? RoleReviewer)
  | _ => false
  end.

(** The loop over the principal's roles: the first that grants the action. *)
Fixpoint matchingRole (action : Action) (roles : list string) : option string :=
  match roles with
  | [] => None
  | value :: rest =>
      let role := ToLower (TrimSpace value) in
      if roleAllows role action then Some role else matchingRole action rest
  end.

(** [None] is a nil evaluator. *)
Definition RBAC_Evaluate (r : option RBAC) (req : Request) : Decision :=
  match r with
  | None => mkDecision false "role evaluator is not configured" "rbac" "builtin-rbac-v1" ""
  | Some r =>
      let version := if RBAC_Version r !=? "" then RBAC_Version r else "builtin-rbac-v1" in
      match matchingRole (Request_Action req) (Identity.Roles (Request_Principal req)) with
      | Some role => mkDecision true "role grants action" "rbac" version role
      | None => mkDecision false "role does not grant action" "rbac" version ""
      end
  end.

(** ** scope_policy.go *)
Record ScopePolicy : Type := mkScopePolicy { ScopePolicy_Version : string }.

Definition ScopePolicy_Evaluate (p : ScopePolicy) (request : Request) : result Decision :=
  let version := TrimSpace (ScopePolicy_Version p) in
  let version := if version ==? "" then "api-scope-v1" else version in
  let deny reason := Ok (mkDecision false reason "abac" version "") in
  let allow := Ok (mkDecision true "principal attributes satisfy resource scope" "abac" version "") in
  let principal := Request_Principal request in
  let resource := Request_Resource request in
  let tenant := TrimSpace (Resource_TenantID resource) in
  let project := TrimSpace (Resource_ProjectID resource) in
  if Identity.Type_ principal ==? Identity.PrincipalSystem
  then deny "system principals require a dedicated internal authorization path"
  else match Resource_Scope resource with
  | ScopeTenant =>
      if Identity.TenantID principal ==? "" then deny "tenant scope is required"
      else if (tenant !=? "") && (tenant !=? Identity.TenantID principal)
      then deny "principal tenant does not match resource tenant"
      else allow
  | ScopeProject =>
      if (Identity.TenantID principal ==? "") || (Identity.ProjectID principal ==? "")
      then deny "project scope is required"
      else if (tenant !=? "") && (tenant !=? Identity.TenantID principal)
      then deny "principal tenant does not match resource tenant"
      else if (project !=? "") && (project !=? Identity.ProjectID principal)
      then deny "principal project does not match resource project"
      else allow
  | ScopeOther s => Err (Errorf "unsupported authorization resource scope %q" [AStr s])
  end.

(** ** service.go *)
Definition AttributePolicy : Type := Request → result Decision.

Record Service : Type := mkService { rbac : option RBAC; policy : option AttributePolicy }.
Definition New (r : option RBAC) (p : option AttributePolicy) : Service := mkService r p.
Definition NewDefault : Service :=
  New (Some BuiltinRBAC) (Some (ScopePolicy_Evaluate (mkScopePolicy "api-scope-v1"))).

Fixpoint Join (items : list string) (sep : string) : string :=
  match items with
  | [] => ""
  | [x] => x
  | x :: rest => x +:+ sep +:+ Join rest sep
  end.

Definition joinVersions (values : list string) : string :=
  Join (filter (λ v, v ≠ "") (TrimSpace <$> values)) "+".

(** [None] is a nil service. *)
Definition Authorize (s : option Service) (request : Request) : result Decision :=
  match s with
  | Some {| rbac := Some r; policy := Some p |} =>
      match Identity.Validate (Request_Principal request) with
      | Err e => Err (Errorw "authorization principal is invalid: %w" [] e)
      | Ok _ =>
          if blankAction (Request_Action request)
          then Err (Errorf "authorization action is required" [])
          else if blank (Resource_Kind (Request_Resource request))
          then Err (Errorf "authorization resource kind is required" [])
          else
            let rbacDecision := RBAC_Evaluate (Some r) request in
            if negb (Allowed rbacDecision) then Ok rbacDecision
            else match p request with
            | Err e => Err e
            | Ok policyDecision =>
                if negb (Allowed policyDecision)
                then Ok (mkDecision (Allowed policyDecision) (Reason policyDecision) (Layer policyDecision)
                           (PolicyVersion policyDecision) (MatchedRole rbacDecision))
                else Ok (mkDecision true "RBAC and attribute policy allowed request" "composite"
                           (joinVersions [PolicyVersion rbacDecision; PolicyVersion policyDecision])
                           (MatchedRole rbacDecision))
            end
      end
  | _ => Err (Errorf "authorization service is not fully configured" [])
  end.

(** ** The access matrix *)

(** Which actions a role is meant to have: reading, executing work, writing
    evaluations, or everything. *)
Inductive may : string → Action → Prop :=
| may_all a : may RoleTenantAdmin a
| may_read r a :
    isReadAction a = true →
    r ∈ [RoleProjectAdmin; RoleDeveloper; RoleOperator; RoleReviewer; RoleViewer] → may r a
| may_work r a :
    r ∈ [RoleProjectAdmin; RoleDeveloper; RoleOperator] →
    a = ActionTaskCreate ∨ a = ActionTaskRoute ∨ a = ActionTaskModelExecute ∨ a = ActionToolExecute → may r a
| may_evaluate r : r ∈ [RoleProjectAdmin; RoleReviewer] → may r ActionTaskEvaluationWrite.

Lemma roleAllows_may role action : roleAllows role action = true ↔ may role action.
Proof.
  unfold roleAllows. split.
  - case_bool_decide as Ht; [subst; constructor|]. intros H.
    destruct (isReadAction action) eqn:Hr.
    + apply may_read; [done|]. rewrite !orb_true_iff, !bool_decide_eq_true in H. set_solver.
    + destruct action; try done; rewrite !orb_true_iff, ?bool_decide_eq_true in H;
        solve [apply may_work; [set_solver|tauto] | apply may_evaluate; set_solver].
  - destruct 1 as [a|r a Hr Hin|r a Hin Ha|r Hin]; [by rewrite bool_decide_true| | |].
    + rewrite Hr. case_bool_decide; [done|]. rewrite !orb_true_iff, !bool_decide_eq_true. set_solver.
    + case_bool_decide; [done|]. destruct Ha as [->|[->|[->| ->]]]; simpl;
        rewrite !orb_true_iff, !bool_decide_eq_true; set_solver.
    + case_bool_decide; [done|]. simpl. rewrite !orb_true_iff, !bool_decide_eq_true. set_solver.
Qed.

Lemma matchingRole_spec action roles :
  match matchingRole action roles with
  | Some role => may role action ∧ ∃ value, value ∈ roles ∧ role = ToLower (TrimSpace value)
  | None => ∀ value, value ∈ roles → ¬ may (ToLower (TrimSpace value)) action
  end.
Proof.
  induction roles as [|v roles IH]; simpl; [set_solver|].
  destruct (roleAllows _ _) eqn:E.
  - rewrite roleAllows_may in E. set_solver.
  - assert (¬ may (ToLower (TrimSpace v)) action) as Hn by (rewrite <- roleAllows_may; congruence).
    destruct (matchingRole action roles); set_solver.
Qed.

(** The resource is inside the principal's own tenant (and project). *)
Definition within (p : Identity.Principal) (r : Resource) : Prop :=
  Identity.TenantID p ≠ ""
  ∧ (TrimSpace (Resource_TenantID r) = "" ∨ TrimSpace (Resource_TenantID r) = Identity.TenantID p)
  ∧ match Resource_Scope r with
    | ScopeTenant => True
    | ScopeProject =>
        Identity.ProjectID p ≠ ""
        ∧ (TrimSpace (Resource_ProjectID r) = "" ∨ TrimSpace (Resource_ProjectID r) = Identity.ProjectID p)
    | ScopeOther _ => False
    end.

Definition known_scope (s : Scope) : Prop := s = ScopeTenant ∨ s = ScopeProject.

#[export] Instance known_scope_dec s : base.Decision (known_scope s).
Proof. destruct s; [left|left|right]; unfold known_scope; naive_solver. Defined.

Lemma ScopePolicy_spec p request :
  known_scope (Resource_Scope (Request_Resource request)) →
  ∃ d, ScopePolicy_Evaluate p request = Ok d
    ∧ (Allowed d = true ↔ Identity.Type_ (Request_Principal request) ≠ Identity.PrincipalSystem
                          ∧ within (Request_Principal request) (Request_Resource request)).
Proof.
  unfold ScopePolicy_Evaluate, within. intros Hk.
  destruct Hk as [-> | ->]; repeat (case_bool_decide; simpl); eexists; (split; [done|]); simpl;
    intuition congruence.
Qed.

(** Authorization, decided exactly: for a valid principal, a named action, a
    named resource kind and a known scope the default service always answers,
    and it allows the request if and only if one of the principal's roles
    (trimmed, in any case) grants the action in the access matrix, the
    principal is not a system principal, and the resource lies in the
    principal's own tenant and, for a project resource, its own project; the
    role reported is one that grants the action.  Any other request is refused
    with an error, never allowed. *)
Theorem Authorize_correct request :
  match Authorize (Some NewDefault) request with
  | Ok d =>
      (Allowed d = true ↔
         Identity.Type_ (Request_Principal request) ≠ Identity.PrincipalSystem
         ∧ within (Request_Principal request) (Request_Resource request)
         ∧ ∃ value, value ∈ Identity.Roles (Request_Principal request)
             ∧ may (ToLower (TrimSpace value)) (Request_Action request))
      ∧ (Allowed d = true → may (MatchedRole d) (Request_Action request))
  | Err _ =>
      (∃ e, Identity.Validate (Request_Principal request) = Err e) ∨ blankAction (Request_Action request) = true
      ∨ blank (Resource_Kind (Request_Resource request)) = true
      ∨ ¬ known_scope (Resource_Scope (Request_Resource request))
  end.
Proof.
  unfold Authorize, NewDefault, New.
  destruct (Identity.Validate _) as [u|e] eqn:Hv; [|eauto].
  destruct (blankAction _) eqn:Ha; [auto|]. destruct (blank _) eqn:Hk; [auto|].
  unfold RBAC_Evaluate. pose proof (matchingRole_spec (Request_Action request)
    (Identity.Roles (Request_Principal request))) as Hm.
  destruct (matchingRole _ _) as [role|]; simpl; [|naive_solver].
  destruct Hm as (Hmay & value & Hin & ->).
  destruct (known_scope_dec (Resource_Scope (Request_Resource request))) as [Hs|Hs].
  - destruct (ScopePolicy_spec (mkScopePolicy "api-scope-v1") request Hs) as (d & -> & Hd).
    destruct (Allowed d) eqn:Hal; simpl; rewrite ?Hal; (split; [|done]).
    + split; [|done]. intros _. destruct Hd as [[? ?] _]; [done|]. eauto.
    + split; [done|]. intros (? & ? & _). by apply Hd.
  - unfold ScopePolicy_Evaluate. case_bool_decide as Ht; simpl; [naive_solver|].
    unfold known_scope in Hs. destruct (Resource_Scope _); naive_solver.
Qed.

Definition sample_request (type : Identity.PrincipalType) (roles : list string) (project : string) : Request :=
  mkRequest {| Identity.Type_ := type; Identity.SubjectID := "alice"; Identity.TenantID := "acme";
               Identity.ProjectID := "ops"; Identity.Roles := roles; Identity.Capabilities := [];
               Identity.AuthnMethod := "oidc"; Identity.Issuer := "idp"; Identity.SessionID := "";
               Identity.Purpose := "api" |}
    ActionToolExecute (mkResource "tool" "shell" ScopeProject "acme" project ∅).

Example developer_allowed :
  Authorize (Some NewDefault) (sample_request Identity.PrincipalUser ["guest"; " Developer "] "ops")
  = Ok (mkDecision true "RBAC and attribute policy allowed request" "composite"
          "builtin-rbac-v1+api-scope-v1" "developer").
Proof. reflexivity. Qed.

Example other_project_denied :
  match Authorize (Some NewDefault) (sample_request Identity.PrincipalUser ["tenant_admin"] "web") with
  | Ok d => Allowed d | Err _ => true end = false.
Proof. reflexivity. Qed.

End Authorization.
