(* ===== verification/Http.v ===== *)
(** * Http: requests, responses and the outer middleware of the API

    [src/internal/httpapi]: request_context.go and error_envelope.go, with the
    writers of server.go.  A handler takes the request and the response as it
    stands and returns the response; it is a program over an arbitrary set of
    requests [E] to its environment, so that the middleware composes with any
    handler.  JSON encoding, the text of an error and random bytes are
    parameters. *)
From S2P Require Import Prelude Programs GoStrings GoText Identity Authorization.

Module Http.
Export Programs.

(** ** Headers: [net/http.Header] *)

Definition Header : Set := gmap string (list string).

Fixpoint canonical (upper : bool) (l : list ascii) : list ascii :=
  match l with
  | [] => []
  | a :: l => (if upper then upper_ascii a else lower_ascii a) :: canonical (a ==? "-"%char) l
  end.
(** [http.CanonicalHeaderKey] for a name made of letters, digits and hyphens. *)
Definition CanonicalHeaderKey (name : string) : string := of_bytes (canonical true (bytes name)).

Definition Values (h : Header) (name : string) : list string := default [] (h !! CanonicalHeaderKey name).
Definition Get (h : Header) (name : string) : string := default "" (head (Values h name)).
Definition Set_ (h : Header) (name value : string) : Header := <[CanonicalHeaderKey name := [value]]> h.

Example canonical_ex : CanonicalHeaderKey "X-AICloud-Tenant-ID" = "X-Aicloud-Tenant-Id". Proof. reflexivity. Qed.

(** ** Requests and responses *)

Record RequestMetadata : Set := mkMetadata { Meta_RequestID : string; Meta_TraceID : string }.

(** [http.Request]: the decoded path ([r.URL.Path]) and the path as it was sent
    ([r.URL.EscapedPath()]), the parsed query, and what the middleware has put in
    the context. *)
Record Request : Set := mkRequest {
  Req_Method : string;
  Req_Path : string;
  Req_EscapedPath : string;
  Req_Query : gmap string (list string);
  Req_Header : Header;
  Req_Body : string;
  Req_Principal : option Identity.Principal;
  Req_Metadata : option RequestMetadata;
  Req_Decision : option Authorization.Decision
}.

Definition with_header (r : Request) (h : Header) : Request :=
  mkRequest (Req_Method r) (Req_Path r) (Req_EscapedPath r) (Req_Query r) h (Req_Body r) (Req_Principal r)
    (Req_Metadata r) (Req_Decision r).
Definition with_principal (r : Request) (p : option Identity.Principal) : Request :=
  mkRequest (Req_Method r) (Req_Path r) (Req_EscapedPath r) (Req_Query r) (Req_Header r) (Req_Body r) p
    (Req_Metadata r) (Req_Decision r).
Definition with_metadata (r : Request) (m : RequestMetadata) : Request :=
  mkRequest (Req_Method r) (Req_Path r) (Req_EscapedPath r) (Req_Query r) (Req_Header r) (Req_Body r) (Req_Principal r)
    (Some m) (Req_Decision r).
Definition with_decision (r : Request) (d : Authorization.Decision) : Request :=
  mkRequest (Req_Method r) (Req_Path r) (Req_EscapedPath r) (Req_Query r) (Req_Header r) (Req_Body r) (Req_Principal r)
    (Req_Metadata r) (Some d).

(** An [http.ResponseWriter]: the status is fixed by the first write. *)
Record Response : Set := mkResponse { Resp_Header : Header; Resp_Status : option Z; Resp_Body : string }.

Definition fresh : Response := mkResponse ∅ None "".

Definition set_header (w : Response) (name value : string) : Response :=
  mkResponse (Set_ (Resp_Header w) name value) (Resp_Status w) (Resp_Body w).
Definition WriteHeader (w : Response) (status : Z) : Response :=
  mkResponse (Resp_Header w) (Some (default status (Resp_Status w))) (Resp_Body w).
Definition Write (w : Response) (payload : string) : Response :=
  let w := WriteHeader w 200 in mkResponse (Resp_Header w) (Resp_Status w) (Resp_Body w +:+ payload).

(** [writeJSON]; [body] is what [json.Encoder.Encode] writes, nothing when it fails. *)
Definition writeJSON (w : Response) (status : Z) (body : string) : Response :=
  Write (WriteHeader (set_header w "Content-Type" "application/json") status) body.

(** ** Correlation ids *)

Definition RequestIDHeader : string := "X-Request-ID".
Definition TraceIDHeader : string := "X-Trace-ID".

Definition correlation_char (a : ascii) : bool :=
  is_lower a || is_upper a || is_digit a || (a ==? "-"%char) || (a ==? "_"%char) || (a ==? "."%char) || (a ==? ":"%char).

Definition normalizeCorrelationID (value : string) : string :=
  let value := TrimSpace value in
  if (value ==? "") || (128 <? Z.of_nat (String.length value))%Z then ""
  else if forallb correlation_char (bytes value) then value else "".

Definition hex_digit (n : N) : ascii := ascii_of_N (if n <? 10 then n + 48 else n + 87)%N.
(** [hex.EncodeToString]. *)
Definition hex (s : string) : string :=
  of_bytes (flat_map (λ a, [hex_digit (code a / 16); hex_digit (code a mod 16)]%N) (bytes s)).

(** [raw] is what [rand.Read] gave, [None] when it failed. *)
Definition newCorrelationID (prefix : string) (raw : option string) : string :=
  match raw with Some raw => prefix +:+ "-" +:+ hex raw | None => prefix +:+ "-unavailable" end.

Definition RequestMetadataFromContext (m : option RequestMetadata) : RequestMetadata :=
  let m := default (mkMetadata "" "") m in
  mkMetadata (normalizeCorrelationID (Meta_RequestID m)) (normalizeCorrelationID (Meta_TraceID m)).

(** ** Errors *)

Record APIError : Type := mkAPIError {
  Err_Code : string;
  Err_Message : string;
  Err_RequestID : string;
  Err_TraceID : string;
  Err_Retryable : bool
}.

Definition defaultAPIErrorCode (status : Z) : string :=
  (if status =? 400 then "INVALID_REQUEST" else if status =? 401 then "UNAUTHENTICATED"
   else if status =? 403 then "FORBIDDEN" else if status =? 404 then "NOT_FOUND"
   else if status =? 409 then "CONFLICT" else if status =? 405 then "METHOD_NOT_ALLOWED"
   else if status =? 429 then "RATE_LIMITED" else if status =? 503 then "SERVICE_UNAVAILABLE"
   else if 500 <=? status then "INTERNAL_ERROR" else "REQUEST_FAILED")%Z.

Definition defaultRetryable (status : Z) : bool := ((status =? 429) || (status =? 503) || (500 <=? status))%Z.

Section middleware.
Context {E : Type → Set}.
(** [rand.Read] of 16 bytes. *)
Variable rand : prog E (option string).
(** What [json.Encoder] writes for an error envelope. *)
Variable enc_error : APIError → string.

Definition Handler : Type := Request → Response → prog E Response.

(** The id in the header, or a new one. *)
Definition ensureID (w : Response) (header prefix : string) : prog E (string * Response) :=
  let id := normalizeCorrelationID (Get (Resp_Header w) header) in
  if id ==? "" then raw ← rand; let id := newCorrelationID prefix raw in Ret (id, set_header w header id)
  else Ret (id, w).

Definition writeAPIError (w : Response) (status : Z) (code message : string) (retryable : bool) : prog E Response :=
  '(requestID, w) ← ensureID w RequestIDHeader "req";
  '(traceID, w) ← ensureID w TraceIDHeader "trace";
  Ret (writeJSON w status (enc_error (mkAPIError code message requestID traceID retryable))).

(** [value], the request's header, or a new id. *)
Definition chooseID (value : string) (r : Request) (header prefix : string) : prog E string :=
  let value := if value ==? "" then normalizeCorrelationID (Get (Req_Header r) header) else value in
  if value ==? "" then raw ← rand; Ret (newCorrelationID prefix raw) else Ret value.

Definition WithRequestMetadata (next : Handler) : Handler := λ r w,
  let metadata := RequestMetadataFromContext (Req_Metadata r) in
  requestID ← chooseID (Meta_RequestID metadata) r RequestIDHeader "req";
  traceID ← chooseID (Meta_TraceID metadata) r TraceIDHeader "trace";
  let w := set_header (set_header w RequestIDHeader requestID) TraceIDHeader traceID in
  let r := with_header r (Set_ (Set_ (Req_Header r) RequestIDHeader requestID) TraceIDHeader traceID) in
  next (with_metadata r (mkMetadata requestID traceID)) w.
End middleware.

Arguments Handler : clear implicits.
End Http.
