(* ===== verification/Access.v ===== *)
(** * Access: authentication and authorization of API requests

    [src/internal/httpapi]: tenant_middleware.go (the verifier interface, the
    trusted ingress and the authentication middleware), access.go,
    access_routes.go, access_tasks.go and access_models.go (which action on which
    resource a request asks for, and the authorization middleware). *)
From S2P Require Import Prelude Identity GoStrings GoText Programs Authn AuthnSpec Authorization Http.

Module Access.
Import Http.
#[local] Existing Instance Identity.PrincipalType_eq_dec.

(** ** tenant_middleware.go *)

Definition splitHeaderList (value : string) : list string :=
  filter (λ part, part ≠ "") (TrimSpace <$> Split value ",").

Definition or_default (value fallback : string) : string := if value ==? "" then fallback else value.

(** [TrustedIngressVerifier.Verify]. *)
Definition TrustedIngress_Verify (r : Request) : result Identity.Principal :=
  let field name := TrimSpace (Get (Req_Header r) name) in
  let value := field "X-AICloud-Principal-Type" in
  let principalType := if value ==? "" then Identity.PrincipalUser else Authn.PrincipalType_of value in
  match principalType with
  | Identity.PrincipalSystem => Err (Errorf "system principal is not accepted from external ingress" [])
  | Identity.PrincipalOther _ => Err (Errorf "unsupported principal type" [])
  | _ =>
      let principal := {|
        Identity.Type_ := principalType;
        Identity.SubjectID := field "X-AICloud-Subject-ID";
        Identity.TenantID := field "X-AICloud-Tenant-ID";
        Identity.ProjectID := field "X-AICloud-Project-ID";
        Identity.Roles := splitHeaderList (Get (Req_Header r) "X-AICloud-Roles");
        Identity.Capabilities := splitHeaderList (Get (Req_Header r) "X-AICloud-Capabilities");
        Identity.AuthnMethod := or_default (field "X-AICloud-Authn-Method") "trusted_ingress";
        Identity.Issuer := or_default (field "X-AICloud-Issuer") "trusted-ingress";
        Identity.SessionID := field "X-AICloud-Session-ID";
        Identity.Purpose := ""
      |} in
      match Identity.Validate principal with
      | Err _ => Err (Errorf "authenticated principal context is invalid" [])
      | Ok _ => Ok principal
      end
  end.

(** ** Which access a request asks for *)

Definition MethodGet : string := "GET".
Definition MethodPost : string := "POST".
Definition MethodPut : string := "PUT".

(** The zero [Action], which stands for no action, and the test for it. *)
Definition no_action : Authorization.Action := Authorization.ActionOther "".
Definition is_no_action (a : Authorization.Action) : bool :=
  match a with Authorization.ActionOther s => s ==? "" | _ => false end.

Definition tenantAccessResource (principal : Identity.Principal) (kind id : string) : Authorization.Resource :=
  Authorization.mkResource kind id Authorization.ScopeTenant (Identity.TenantID principal) "" ∅.

Definition projectAccessResource (principal : Identity.Principal) (kind id : string) : Authorization.Resource :=
  Authorization.mkResource kind id Authorization.ScopeProject (Identity.TenantID principal) (Identity.ProjectID principal) ∅.

Definition set_attributes (r : Authorization.Resource) (a : gmap string string) : Authorization.Resource :=
  Authorization.mkResource (Authorization.Resource_Kind r) (Authorization.Resource_ID r) (Authorization.Resource_Scope r)
    (Authorization.Resource_TenantID r) (Authorization.Resource_ProjectID r) a.

(** The request, the methods named so far, and the action of the method; the loop
    of [accessRequest]. *)
Fixpoint methodLoop (method : string) (methods : list string) (allowed : list (string * Authorization.Action))
    : Authorization.Action * list string :=
  match allowed with
  | [] => (no_action, methods)
  | (m, action) :: rest =>
      let methods := methods ++ [m] in
      if method ==? m then (action, methods) else methodLoop method methods rest
  end.

Definition accessRequest (r : Request) (principal : Identity.Principal) (resource : Authorization.Resource)
    (allowed : list (string * Authorization.Action)) : option (Authorization.Request * list string) :=
  let '(action, methods) := methodLoop (Req_Method r) [] allowed in
  Some (Authorization.mkRequest principal action resource, methods).

Definition resolveModelAccess (r : Request) (principal : Identity.Principal) (parts : list string)
    : option (Authorization.Request * list string) :=
  match parts with
  | _ :: _ :: collection :: rest =>
      if collection !=? "models" then None else
      match rest with
      | [] => accessRequest r principal (tenantAccessResource principal "model" "")
                [(MethodGet, Authorization.ActionModelRead); (MethodPost, Authorization.ActionModelWrite)]
      | [id] =>
          if id ==? "" then None
          else accessRequest r principal (tenantAccessResource principal "model" id)
                 [(MethodGet, Authorization.ActionModelRead); (MethodPut, Authorization.ActionModelWrite)]
      | [id; name] =>
          if (id ==? "") || (name !=? "admission") then None
          else accessRequest r principal (tenantAccessResource principal "model_admission" id)
                 [(MethodGet, Authorization.ActionModelAdmissionRead); (MethodPost, Authorization.ActionModelAdmissionWrite)]
      | _ => None
      end
  | _ => None
  end.

(** The methods of a task's subresources. *)
Definition taskSubresource (name : string) : option (list (string * Authorization.Action)) :=
  if name ==? "route" then Some [(MethodPost, Authorization.ActionTaskRoute)]
  else if name ==? "routes" then Some [(MethodGet, Authorization.ActionTaskRouteRead)]
  else if name ==? "costs" then Some [(MethodGet, Authorization.ActionTaskCostRead)]
  else if name ==? "audit" then Some [(MethodGet, Authorization.ActionTaskAuditRead)]
  else if name ==? "model" then Some [(MethodPost, Authorization.ActionTaskModelExecute)]
  else if name ==? "trace" then Some [(MethodGet, Authorization.ActionTaskTraceRead)]
  else if name ==? "evaluations"
  then Some [(MethodGet, Authorization.ActionTaskEvaluationRead); (MethodPost, Authorization.ActionTaskEvaluationWrite)]
  else None.

Definition resolveTaskAccess (r : Request) (principal : Identity.Principal) (parts : list string)
    : option (Authorization.Request * list string) :=
  match parts with
  | _ :: _ :: collection :: rest =>
      if collection !=? "tasks" then None else
      match rest with
      | [] => accessRequest r principal (projectAccessResource principal "task" "")
                [(MethodGet, Authorization.ActionTaskRead); (MethodPost, Authorization.ActionTaskCreate)]
      | taskID :: rest =>
          if taskID ==? "" then None else
          match rest with
          | [] => accessRequest r principal (projectAccessResource principal "task" taskID)
                    [(MethodGet, Authorization.ActionTaskRead)]
          | [name] =>
              match taskSubresource name with
              | Some allowed => accessRequest r principal (projectAccessResource principal "task" taskID) allowed
              | None => None
              end
          | [name; tool] =>
              if (name !=? "tools") || (tool ==? "") then None
              else accessRequest r principal
                     (set_attributes (projectAccessResource principal "tool" tool) {[ "task_id" := taskID ]})
                     [(MethodPost, Authorization.ActionToolExecute)]
          | _ => None
          end
      end
  | _ => None
  end.

Definition pathParts (path : string) : list string := Split (Trim path "/") "/".

Definition resolveAPIAccess (r : Request) (principal : Identity.Principal)
    : option (Authorization.Request * list string) :=
  let parts := pathParts (Req_Path r) in
  match parts with
  | api :: version :: collection :: rest =>
      if (api !=? "api") || (version !=? "v1") then None else
      match resolveModelAccess r principal parts with
      | Some a => Some a
      | None =>
          match resolveTaskAccess r principal parts with
          | Some a => Some a
          | None =>
              match rest with
              | [] =>
                  if collection !=? "tools" then None
                  else accessRequest r principal (tenantAccessResource principal "tool" "")
                         [(MethodGet, Authorization.ActionToolRead)]
              | _ => None
              end
          end
      end
  | _ => None
  end.

(** ** The middleware *)

Section middleware.
Context {E : Type → Set}.
Variable rand : prog E (option string).
Variable enc_error : APIError → string.
Variable error_text : error → string.

Abbreviation writeAPIError := (writeAPIError rand enc_error).

Definition Verifier : Type := Request → prog E (result Identity.Principal).

(** [None] is a nil verifier. *)
Definition WithPrincipalVerifier (verifier : option Verifier) (next : Handler E) : Handler E := λ r w,
  if negb (HasPrefix (Req_Path r) "/api/") then next r w else
  match verifier with
  | None => writeAPIError w 500 "AUTHENTICATION_NOT_CONFIGURED" "authentication verifier is not configured" false
  | Some verify =>
      verified ← verify r;
      match verified with
      | Err err => writeAPIError w 401 "UNAUTHENTICATED" (error_text err) false
      | Ok principal =>
          match Identity.Validate principal with
          | Err _ => writeAPIError w 401 "UNAUTHENTICATED" "authenticated principal context is invalid" false
          | Ok _ =>
              if HasPrefix (Req_Path r) "/api/v1/tasks" && (Identity.ProjectID principal ==? "")
              then writeAPIError w 400 "PROJECT_CONTEXT_REQUIRED" "project context is required for task APIs" false
              else next (with_principal r (Identity.WithPrincipal (Req_Principal r) principal)) w
          end
      end
  end.

(** [authorization.Authorizer]; [None] is nil. *)
Definition Authorizer : Type := Authorization.Request → result Authorization.Decision.

Definition WithAuthorization (authorizer : option Authorizer) (next : Handler E) : Handler E := λ r w,
  if negb (HasPrefix (Req_Path r) "/api/") then next r w else
  match Identity.RequirePrincipal (Req_Principal r) with
  | Err _ => writeAPIError w 401 "UNAUTHENTICATED" "authenticated principal is required" false
  | Ok principal =>
      match resolveAPIAccess r principal with
      | None => writeAPIError w 404 "NOT_FOUND" "API resource not found" false
      | Some (request, methods) =>
          if is_no_action (Authorization.Request_Action request) then
            writeAPIError (set_header w "Allow" (Authorization.Join methods ", ")) 405 "METHOD_NOT_ALLOWED"
              "method is not allowed" false
          else match authorizer with
          | None => writeAPIError w 500 "AUTHORIZATION_NOT_CONFIGURED" "authorization service is not configured" false
          | Some authorize =>
              match authorize request with
              | Err _ => writeAPIError w 503 "AUTHORIZATION_UNAVAILABLE" "authorization evaluation failed" true
              | Ok decision =>
                  if negb (Authorization.Allowed decision)
                  then writeAPIError w 403 "FORBIDDEN" "request is not authorized" false
                  else next (with_decision r decision) w
              end
          end
      end
  end.

(** [main]: the chain in front of the business handlers. *)
Definition apiHandler (verifier : option Verifier) (authorizer : option Authorizer) (business : Handler E) : Handler E :=
  WithRequestMetadata rand (WithPrincipalVerifier verifier (WithAuthorization authorizer business)).
End middleware.

Arguments Verifier : clear implicits.
End Access.

(** * AccessSpec: the API table and the closed boundary

    The public routes as a table with the action and the resource of each, the
    proof that [resolveAPIAccess] is that table, and the theorem that a business
    handler sees a request under /api/ only after it was authenticated and the
    access the table asks for was allowed. *)

Module AccessSpec.
Import Http Access.

(** ** The table *)

(** A resource of the principal's own tenant, and of its own project there. *)
Abbreviation tenant kind id := (λ p,
  {| Authorization.Resource_Kind := kind; Authorization.Resource_ID := id;
     Authorization.Resource_Scope := Authorization.ScopeTenant; Authorization.Resource_TenantID := Identity.TenantID p;
     Authorization.Resource_ProjectID := EmptyString; Authorization.Resource_Attributes := ∅ |}).
Abbreviation project kind id attributes := (λ p,
  {| Authorization.Resource_Kind := kind; Authorization.Resource_ID := id;
     Authorization.Resource_Scope := Authorization.ScopeProject; Authorization.Resource_TenantID := Identity.TenantID p;
     Authorization.Resource_ProjectID := Identity.ProjectID p; Authorization.Resource_Attributes := attributes |}).

(** What comes after /api/v1, the method, the action, and the resource for a
    principal. *)
Inductive route : list string → string → Authorization.Action → (Identity.Principal → Authorization.Resource) → Prop :=
| models_list : route ["models"] "GET" Authorization.ActionModelRead (tenant "model" "")
| models_create : route ["models"] "POST" Authorization.ActionModelWrite (tenant "model" "")
| model_get id : id ≠ "" → route ["models"; id] "GET" Authorization.ActionModelRead (tenant "model" id)
| model_put id : id ≠ "" → route ["models"; id] "PUT" Authorization.ActionModelWrite (tenant "model" id)
| admission_get id : id ≠ "" →
    route ["models"; id; "admission"] "GET" Authorization.ActionModelAdmissionRead (tenant "model_admission" id)
| admission_post id : id ≠ "" →
    route ["models"; id; "admission"] "POST" Authorization.ActionModelAdmissionWrite (tenant "model_admission" id)
| tools_list : route ["tools"] "GET" Authorization.ActionToolRead (tenant "tool" "")
| tasks_list : route ["tasks"] "GET" Authorization.ActionTaskRead (project "task" "" ∅)
| tasks_create : route ["tasks"] "POST" Authorization.ActionTaskCreate (project "task" "" ∅)
| task_get id : id ≠ "" → route ["tasks"; id] "GET" Authorization.ActionTaskRead (project "task" id ∅)
| task_route id : id ≠ "" → route ["tasks"; id; "route"] "POST" Authorization.ActionTaskRoute (project "task" id ∅)
| task_routes id : id ≠ "" → route ["tasks"; id; "routes"] "GET" Authorization.ActionTaskRouteRead (project "task" id ∅)
| task_costs id : id ≠ "" → route ["tasks"; id; "costs"] "GET" Authorization.ActionTaskCostRead (project "task" id ∅)
| task_audit id : id ≠ "" → route ["tasks"; id; "audit"] "GET" Authorization.ActionTaskAuditRead (project "task" id ∅)
| task_model id : id ≠ "" → route ["tasks"; id; "model"] "POST" Authorization.ActionTaskModelExecute (project "task" id ∅)
| task_trace id : id ≠ "" → route ["tasks"; id; "trace"] "GET" Authorization.ActionTaskTraceRead (project "task" id ∅)
| task_evaluations id : id ≠ "" →
    route ["tasks"; id; "evaluations"] "GET" Authorization.ActionTaskEvaluationRead (project "task" id ∅)
| task_evaluate id : id ≠ "" →
    route ["tasks"; id; "evaluations"] "POST" Authorization.ActionTaskEvaluationWrite (project "task" id ∅)
| task_tool id tool : id ≠ "" → tool ≠ "" →
    route ["tasks"; id; "tools"; tool] "POST" Authorization.ActionToolExecute
      (project "tool" tool {[ "task_id" := id ]}).

Lemma methodLoop_action method methods allowed action ms :
  methodLoop method methods allowed = (action, ms) → is_no_action action = false → (method, action) ∈ allowed.
Proof.
  revert methods. induction allowed as [|[m a] allowed IH]; intros methods; simpl; [by intros [= <- <-]|].
  case_bool_decide as Hm; [intros [= <- <-] _; subst; apply list_elem_of_here|].
  intros H Ha. apply list_elem_of_further. by eapply IH.
Qed.

Lemma accessRequest_Some r p resource allowed request ms :
  accessRequest r p resource allowed = Some (request, ms) → is_no_action (Authorization.Request_Action request) = false →
  (Req_Method r, Authorization.Request_Action request) ∈ allowed
  ∧ Authorization.Request_Principal request = p ∧ Authorization.Request_Resource request = resource.
Proof.
  unfold accessRequest. destruct (methodLoop _ _ _) as [action methods] eqn:E. intros [= <- <-] Ha.
  split; [by eapply methodLoop_action|done].
Qed.

(** The entries of a list of methods, one by one. *)
Ltac method_cases H :=
  lazymatch type of H with
  | _ ∈ [] => by apply not_elem_of_nil in H
  | _ ∈ _ :: _ => apply elem_of_cons in H as [H|H]; [injection H as ? ?|method_cases H]
  end.

(** Follow the branches of the resolver down to an [accessRequest]. *)
Ltac resolve_test H x y :=
  destruct (decide (x = y)); [rewrite (bool_decide_true (x = y)) in H by assumption
                             |rewrite (bool_decide_false (x = y)) in H by assumption]; cbn [negb orb] in H; cbv beta iota in H.
Ltac resolve_branches H :=
  repeat match type of H with
  | match ?l with [] => _ | _ :: _ => _ end = _ => destruct l
  | (if negb (@bool_decide (?x = ?y) _) || _ then _ else _) = _ => resolve_test H x y
  | (if @bool_decide (?x = ?y) _ || _ then _ else _) = _ => resolve_test H x y
  | (if negb (@bool_decide (?x = ?y) _) then _ else _) = _ => resolve_test H x y
  | (if @bool_decide (?x = ?y) _ then _ else _) = _ => resolve_test H x y
  end.

(** A resolved access whose method is allowed is an entry of the table. *)
Definition entry (r : Request) (p : Identity.Principal) (request : Authorization.Request) (rest : list string) : Prop :=
  ∃ resource, route rest (Req_Method r) (Authorization.Request_Action request) resource
  ∧ Authorization.Request_Principal request = p ∧ Authorization.Request_Resource request = resource p.

Ltac entry H Ha :=
  apply accessRequest_Some in H as (H & ? & ?); [|exact Ha];
  method_cases H; subst; eexists;
  (split; [repeat match goal with
           | E : Req_Method _ = ?x |- _ => rewrite E
           | E : Authorization.Request_Action _ = _ |- _ => rewrite E
           end; once (by constructor)|simpl; by split]).

Lemma resolveModelAccess_entry r p a b rest request ms :
  resolveModelAccess r p (a :: b :: rest) = Some (request, ms) →
  is_no_action (Authorization.Request_Action request) = false → entry r p request rest.
Proof.
  intros H Ha. unfold resolveModelAccess in H. resolve_branches H; try done; subst; entry H Ha.
Qed.

Lemma resolveTaskAccess_entry r p a b rest request ms :
  resolveTaskAccess r p (a :: b :: rest) = Some (request, ms) →
  is_no_action (Authorization.Request_Action request) = false → entry r p request rest.
Proof.
  intros H Ha. unfold resolveTaskAccess in H.
  resolve_branches H; try done; subst; try (entry H Ha).
  destruct (taskSubresource _) as [allowed|] eqn:Hs; [|done]. unfold taskSubresource in Hs.
  resolve_branches Hs; simplify_eq; subst; entry H Ha.
Qed.

Lemma resolveAPIAccess_entry r p request ms :
  resolveAPIAccess r p = Some (request, ms) → is_no_action (Authorization.Request_Action request) = false →
  ∃ rest, pathParts (Req_Path r) = "api" :: "v1" :: rest ∧ entry r p request rest.
Proof.
  unfold resolveAPIAccess. destruct (pathParts _) as [|api [|version [|collection rest]]]; [done..|]. intros H Ha.
  resolve_test H api "api"; [|done]. resolve_test H version "v1"; [|done]. subst. eexists. split; [done|].
  destruct (resolveModelAccess _ _ _) as [[request' ms']|] eqn:Hm; simplify_eq.
  { by eapply resolveModelAccess_entry. }
  destruct (resolveTaskAccess _ _ _) as [[request' ms']|] eqn:Ht; simplify_eq.
  { by eapply resolveTaskAccess_entry. }
  destruct rest; [|done]. resolve_test H collection "tools"; [|done]. subst. entry H Ha.
Qed.

(** Decide the tests of the resolver on the strings of the table. *)
Ltac decide_tests :=
  repeat (first [rewrite (bool_decide_true (_ = _)) by (done || congruence)
                |rewrite (bool_decide_false (_ = _)) by (done || congruence)]; cbn [negb orb andb]).

Lemma entry_resolves r p request rest :
  pathParts (Req_Path r) = "api" :: "v1" :: rest → entry r p request rest →
  ∃ ms, resolveAPIAccess r p = Some (request, ms) ∧ is_no_action (Authorization.Request_Action request) = false.
Proof.
  intros Hparts (resource & Hroute & Hp & Hres). destruct request as [p' a res]. simpl in *. subst.
  unfold resolveAPIAccess. rewrite Hparts. remember (Req_Method r) as m eqn:Hm.
  destruct Hroute; unfold resolveModelAccess, resolveTaskAccess, taskSubresource, accessRequest;
    decide_tests; rewrite <- Hm; simpl; decide_tests; eexists; done.
Qed.

(** C28. The routes of the API are exactly the table: a request is resolved to an
    access with an action if and only if its path, split at its slashes, is
    api/v1 followed by an entry of the table with the request's method.  Then the
    action is the entry's, the principal is the caller's, and the resource has the
    entry's kind and id: those of models and the list of tools are in tenant scope
    with the principal's tenant and no project, those of tasks and of a task's
    tools in project scope with the principal's tenant and project. *)
Theorem resolveAPIAccess_is_the_table r p request :
  (∃ ms, resolveAPIAccess r p = Some (request, ms) ∧ Authorization.Request_Action request ≠ Authorization.ActionOther "")
  ↔ ∃ rest, Split (Trim (Req_Path r) "/") "/" = "api" :: "v1" :: rest ∧ entry r p request rest.
Proof.
  assert (Authorization.Request_Action request ≠ Authorization.ActionOther ""
          ↔ is_no_action (Authorization.Request_Action request) = false) as Hno.
  { unfold is_no_action. destruct (Authorization.Request_Action request); try (by split).
    rewrite bool_decide_eq_false. naive_solver. }
  setoid_rewrite Hno. split; [intros (ms & H & Ha); by eapply resolveAPIAccess_entry|].
  intros (rest & Hparts & He). by eapply entry_resolves.
Qed.
End AccessSpec.
