(* ===== verification/Boundary.v ===== *)
(** * Boundary: no business request without authentication and authorization

    The chain of [src/cmd/api-server/main.go] with the OIDC verifier and the
    default authorizer, in front of a business handler that may do anything.
    Random bytes, the network, the clock, the shared key set and the business
    handler itself are requests to the environment. *)
From S2P Require Import Prelude Identity GoStrings GoText Programs Authn AuthnSpec AuthnSystem Authorization Http Access.

Module Boundary.
Import AuthnSpec(stores_only, fetched, Verify_safe, principalFromClaims_Ok).
Import Http Access AccessSpec.

(** Random bytes, and the business handler. *)
Inductive Base : Type → Set :=
| ERand : Base (option string)
| EServe (r : Request) (w : Response) : Base Response.

Inductive Ev (X : Type) : Set :=
| OfAuthn (e : Authn.Ev X)
| OfBase (e : Base X).
Arguments OfAuthn {X} e.
Arguments OfBase {X} e.

Abbreviation history := (list (exchange Ev)).

Definition rand : prog Ev (option string) := ask (OfBase ERand).
Definition serve : Handler Ev := λ r w, ask (OfBase (EServe r w)).

Section boundary.
Variable S : Authn.Std.
Variable v : Authn.OIDCVerifier.
Variable enc_error : APIError → string.
Variable error_text : error → string.

(** [OIDCVerifier] as a [PrincipalVerifier]. *)
Definition oidc : Verifier Ev := λ r,
  translate (@OfAuthn) (Authn.Verify S v (Some (Values (Req_Header r) "Authorization"))).

Definition server : Handler Ev :=
  apiHandler rand enc_error error_text (Some oidc) (Some (Authorization.Authorize (Some Authorization.NewDefault))) serve.

(** The same request but for its headers and context. *)
Definition same (r r' : Request) : Prop :=
  (Req_Method r', Req_Path r', Req_EscapedPath r', Req_Query r', Req_Body r')
  = (Req_Method r, Req_Path r, Req_EscapedPath r, Req_Query r, Req_Body r).

(** The request [r'] that the business handler is given for [r] after [h]. *)
Record cleared (r : Request) (h : history) (r' : Request) : Prop := {
  same_request : same r r';
  authenticated : ∃ p t h1 h2,
    h = h1 ++ (translated (@OfAuthn) <$> t) ++ h2
    ∧ returns (Authn.Verify S v (Some (Values (Req_Header r) "Authorization"))) t (Ok p)
    ∧ Req_Principal r' = Some (Identity.normalize p);
  authorized : ∃ p rest action resource,
    Req_Principal r' = Some p ∧ pathParts (Req_Path r) = "api" :: "v1" :: rest
    ∧ route rest (Req_Method r) action resource
    ∧ Identity.Type_ p ≠ Identity.PrincipalSystem ∧ Authorization.within p (resource p)
    ∧ ∃ value, value ∈ Identity.Roles p ∧ Authorization.may (ToLower (TrimSpace value)) action;
  scoped : HasPrefix (Req_Path r) "/api/v1/tasks" = true → ∃ p, Req_Principal r' = Some p ∧ Identity.ProjectID p ≠ ""
}.

Definition permitted (r : Request) {X} (h : history) (e : Ev X) : Prop :=
  match e with OfBase (EServe r' _) => same r r' ∧ (HasPrefix (Req_Path r) "/api/" = true → cleared r h r') | _ => True end.
Abbreviation safe r := (wp (@permitted r)).

Lemma ensureID_safe r h w header prefix (Q : history → string * Response → Prop) :
  (∀ h a, Q h a) → safe r h (ensureID rand w header prefix) Q.
Proof. intros HQ. unfold ensureID. case_bool_decide; simpl; [|done]. split; [done|]. intros raw. apply HQ. Qed.

Lemma chooseID_safe r h value r1 header prefix (Q : history → string → Prop) :
  (∀ h a, Q h a) → safe r h (chooseID rand value r1 header prefix) Q.
Proof.
  intros HQ. unfold chooseID. generalize (if value ==? "" then normalizeCorrelationID (Get (Req_Header r1) header) else value).
  intros x. case_bool_decide; [|apply HQ]. apply wp_Do; [exact I|]. intros raw. apply HQ.
Qed.

Lemma writeAPIError_safe r h w status code message retryable :
  safe r h (writeAPIError rand enc_error w status code message retryable) (λ _ _, True).
Proof.
  unfold writeAPIError. apply wp_bind, ensureID_safe. intros h1 [id1 w1].
  apply wp_bind, ensureID_safe. by intros h2 [id2 w2].
Qed.

Lemma Authorize_allows request d :
  Authorization.Authorize (Some Authorization.NewDefault) request = Ok d → Authorization.Allowed d = true →
  Authorization.known_scope (Authorization.Resource_Scope (Authorization.Request_Resource request)) →
  let p := Authorization.Request_Principal request in
  Identity.Type_ p ≠ Identity.PrincipalSystem ∧ Authorization.within p (Authorization.Request_Resource request)
  ∧ ∃ value, value ∈ Identity.Roles p ∧ Authorization.may (ToLower (TrimSpace value)) (Authorization.Request_Action request).
Proof.
  intros H Hd Hk. unfold Authorization.Authorize, Authorization.NewDefault, Authorization.New in H.
  destruct (Identity.Validate _); [|done]. destruct (Authorization.blankAction _); [done|]. destruct (blank _); [done|].
  unfold Authorization.RBAC_Evaluate in H.
  pose proof (Authorization.matchingRole_spec (Authorization.Request_Action request)
    (Identity.Roles (Authorization.Request_Principal request))) as Hm.
  destruct (Authorization.matchingRole _ _) as [role|]; simpl in H; [|by simplify_eq].
  destruct Hm as (Hmay & value & Hin & ->).
  destruct (Authorization.ScopePolicy_spec (Authorization.mkScopePolicy "api-scope-v1") request Hk) as (d' & Hs & Hiff).
  rewrite Hs in H. destruct (Authorization.Allowed d') eqn:Ha; simpl in H; simplify_eq; simpl in Hd.
  destruct (proj1 Hiff eq_refl). eauto.
Qed.

Lemma route_scope rest method action resource p :
  route rest method action resource → Authorization.known_scope (Authorization.Resource_Scope (resource p)).
Proof. destruct 1; simpl; (by left) || by right. Qed.

(** Setting other headers does not touch the credentials. *)
Lemma Values_Set h name value other :
  CanonicalHeaderKey name ≠ CanonicalHeaderKey other → Values (Set_ h name value) other = Values h other.
Proof. intros H. unfold Values, Set_. f_equal. by apply (lookup_insert_ne (M := gmap string)). Qed.

(** The verifier's principals are trimmed. *)
Lemma Verify_trimmed values t p :
  returns (Authn.Verify S v values) t (Ok p) → TrimSpace (Identity.ProjectID p) = Identity.ProjectID p.
Proof.
  assert (wp (@stores_only (fetched S (Authn.v_keys v))) [] (Authn.Verify S v values)
    (λ _ r, ∀ p, r = Ok p → TrimSpace (Identity.ProjectID p) = Identity.ProjectID p)) as Hw.
  { apply Verify_safe. intros h r Hr q ->. destruct (Hr q eq_refl) as (? & raw & key & _ & _ & Hg).
    destruct Hg as [(? & ? & ? & ? & claims & ? & ? & ? & _ & _ & _ & _ & _ & _ & _ & _ & _ & _ & _ & Hp)].
    apply principalFromClaims_Ok in Hp as (_ & _ & _ & _ & _ & _ & ->). unfold Authn.claimString.
    destruct (claims !! _) as [[]|]; try done. simpl. apply TrimSpace_idem. }
  intros Ht. by apply (wp_returns _ _ _ _ _ Hw Ht).
Qed.

Lemma WithAuthorization_safe r h r1 w p t h1 h2 :
  same r r1 →
  h = h1 ++ (translated (@OfAuthn) <$> t) ++ h2 →
  returns (Authn.Verify S v (Some (Values (Req_Header r) "Authorization"))) t (Ok p) →
  Req_Principal r1 = Some (Identity.normalize p) →
  (HasPrefix (Req_Path r) "/api/v1/tasks" = true → Identity.ProjectID (Identity.normalize p) ≠ "") →
  safe r h (WithAuthorization rand enc_error (Some (Authorization.Authorize (Some Authorization.NewDefault))) serve r1 w)
    (λ _ _, True).
Proof.
  intros Hsame Hh Ht Hp Hproject. unfold WithAuthorization. pose proof Hsame as Hsame1. injection Hsame1 as Hm Hpath He Hq Hb.
  destruct (HasPrefix (Req_Path r1) "/api/") eqn:Hapi; cbn [negb].
  2: { apply wp_Do; [|done]. split; [done|congruence]. }
  destruct (Identity.RequirePrincipal _) as [p1|e] eqn:Hreq; [|apply writeAPIError_safe].
  assert (p1 = Identity.normalize p) as ->.
  { unfold Identity.RequirePrincipal in Hreq. destruct (Identity.PrincipalFromContext _) as [p2|] eqn:Hctx; [|done].
    apply Identity.PrincipalFromContext_Some in Hctx as (_ & _ & q & Hq1 & ->).
    rewrite Hp in Hq1. simplify_eq. apply Identity.normalize_idem. }
  destruct (resolveAPIAccess _ _) as [[request ms]|] eqn:Hres; [|apply writeAPIError_safe].
  destruct (is_no_action _) eqn:Hact; [apply writeAPIError_safe|].
  destruct (Authorization.Authorize _ _) as [d|e] eqn:Hauth; [|apply writeAPIError_safe].
  destruct (Authorization.Allowed d) eqn:Hd; cbn [negb]; [|apply writeAPIError_safe].
  apply wp_Do; [|done]. split; [done|]. intros _. destruct (resolveAPIAccess_entry _ _ _ _ Hres Hact) as (rest & Hparts & Hentry).
  destruct Hentry as (resource & Hroute & Hrp & Hrr). rewrite Hpath in Hparts.
  destruct (Authorize_allows _ _ Hauth Hd) as (Hty & Hwithin & Hmay); [rewrite Hrr; by eapply route_scope|].
  rewrite Hrp, Hrr in *. rewrite Hm in Hroute. split.
  - done.
  - exists p, t, h1, h2. by rewrite <- Hp.
  - exists (Identity.normalize p), rest, (Authorization.Request_Action request), resource. by rewrite <- Hp.
  - intros Htask. exists (Identity.normalize p). split; [by rewrite <- Hp|by apply Hproject].
Qed.

Lemma server_safe r w : safe r [] (server r w) (λ _ _, True).
Proof.
  unfold server, apiHandler, WithRequestMetadata. apply wp_bind, chooseID_safe. intros h id.
  apply wp_bind, chooseID_safe.
  intros h' id'. clear h. rename h' into h. unfold WithPrincipalVerifier. cbn [Req_Path with_metadata with_header].
  destruct (HasPrefix (Req_Path r) "/api/") eqn:Hapi; cbn [negb].
  2: { unfold WithAuthorization. simpl. rewrite Hapi. simpl. split; [split; [done|congruence]|done]. }
  apply wp_bind. unfold oidc. apply wp_translate; [done|]. intros t [p|e] Ht; [|apply writeAPIError_safe].
  destruct (Identity.Validate p) as [[]|e]; [|apply writeAPIError_safe].
  destruct (HasPrefix (Req_Path r) "/api/v1/tasks" && _) eqn:Hproj; [apply writeAPIError_safe|].
  eapply (WithAuthorization_safe r _ _ _ p t h []); [done|by rewrite app_nil_r| |done|].
  - simpl in Ht. by rewrite !Values_Set in Ht by done.
  - intros Htask. rewrite Htask in Hproj. simpl in Hproj. apply bool_decide_eq_false in Hproj. simpl.
    by rewrite (Verify_trimmed _ _ _ Ht).
Qed.

(** ** Requests that may pass do *)

Lemma within_own p rest method action resource :
  route rest method action resource → Identity.TenantID p ≠ "" →
  (Authorization.Resource_Scope (resource p) = Authorization.ScopeProject → Identity.ProjectID p ≠ "") →
  Identity.normalize p = p → Authorization.within p (resource p).
Proof.
  intros Hr Ht Hp Hn.
  assert (TrimSpace (Identity.TenantID p) = Identity.TenantID p ∧ TrimSpace (Identity.ProjectID p) = Identity.ProjectID p)
    as [H1 H2] by (destruct p; simpl in *; by injection Hn).
  unfold Authorization.within. destruct Hr; simpl in *; rewrite ?H1, ?H2; auto 10.
Qed.

Lemma Authorize_grants p action resource value :
  Identity.Validate p = Ok tt → Authorization.blankAction action = false →
  blank (Authorization.Resource_Kind resource) = false → Authorization.known_scope (Authorization.Resource_Scope resource) →
  Identity.Type_ p ≠ Identity.PrincipalSystem → Authorization.within p resource →
  value ∈ Identity.Roles p → Authorization.may (ToLower (TrimSpace value)) action →
  ∃ d, Authorization.Authorize (Some Authorization.NewDefault) (Authorization.mkRequest p action resource) = Ok d
       ∧ Authorization.Allowed d = true.
Proof.
  intros Hv Ha Hk Hs Hty Hw Hin Hmay. unfold Authorization.Authorize, Authorization.NewDefault, Authorization.New.
  cbn [Authorization.Request_Principal Authorization.Request_Action Authorization.Request_Resource]. rewrite Hv, Ha, Hk.
  unfold Authorization.RBAC_Evaluate. pose proof (Authorization.matchingRole_spec action (Identity.Roles p)) as Hm.
  cbn [Authorization.Request_Principal Authorization.Request_Action].
  destruct (Authorization.matchingRole _ _) as [role|]; [|by destruct (Hm value Hin)]. cbn [Authorization.Allowed negb].
  destruct (Authorization.ScopePolicy_spec (Authorization.mkScopePolicy "api-scope-v1")
    (Authorization.mkRequest p action resource) Hs) as (d & -> & Hd).
  rewrite (proj2 Hd) by done. by eexists.
Qed.

Lemma route_named rest method action resource p :
  route rest method action resource →
  Authorization.blankAction action = false ∧ blank (Authorization.Resource_Kind (resource p)) = false.
Proof. by destruct 1. Qed.

Lemma chooseID_returns value r header prefix : ∃ t id, returns (chooseID rand value r header prefix) t id.
Proof.
  unfold chooseID. generalize (if value ==? "" then normalizeCorrelationID (Get (Req_Header r) header) else value).
  intros x. case_bool_decide; [|by exists [], x; constructor].
  exists [Asked (OfBase ERand) None]. eexists. repeat constructor.
Qed.

(** The principal a request is served for. *)
Record entitled (r : Request) (t : list (exchange Authn.Ev)) (p : Identity.Principal) : Prop := {
  ent_verified : returns (Authn.Verify S v (Some (Values (Req_Header r) "Authorization"))) t (Ok p);
  ent_valid : Identity.Validate p = Ok tt ∧ Identity.Type_ p ≠ Identity.PrincipalSystem;
  ent_api : HasPrefix (Req_Path r) "/api/" = true;
  ent_project : HasPrefix (Req_Path r) "/api/v1/tasks" = true → Identity.ProjectID p ≠ "";
  ent_route : ∃ rest action resource value, pathParts (Req_Path r) = "api" :: "v1" :: rest
    ∧ route rest (Req_Method r) action resource
    ∧ (Authorization.Resource_Scope (resource p) = Authorization.ScopeProject → Identity.ProjectID (Identity.normalize p) ≠ "")
    ∧ value ∈ Identity.Roles (Identity.normalize p) ∧ Authorization.may (ToLower (TrimSpace value)) action
}.

Lemma Validate_tenant p : Identity.Validate p = Ok tt → Identity.Type_ p ≠ Identity.PrincipalSystem →
  Identity.TenantID (Identity.normalize p) ≠ "".
Proof.
  unfold Identity.Validate. cbn [Identity.Type_ Identity.normalize].
  destruct (_ || _); [done|]. destruct (Identity.Type_ p); try done; by case_bool_decide.
Qed.

Lemma WithAuthorization_serves r r1 w t p :
  entitled r t p → Req_Method r1 = Req_Method r → Req_Path r1 = Req_Path r →
  Req_Principal r1 = Some (Identity.normalize p) →
  ∃ r' k, asks (WithAuthorization rand enc_error (Some (Authorization.Authorize (Some Authorization.NewDefault))) serve r1 w)
    [] (Do (OfBase (EServe r' w)) k).
Proof.
  intros [_ [Hval Hty] Hapi _ (rest & action & resource & value & Hparts & Hroute & Hproj & Hin & Hmay)] Hm Hpath Hp.
  unfold WithAuthorization. rewrite Hpath, Hapi, Hp. cbn [negb].
  unfold Identity.RequirePrincipal, Identity.PrincipalFromContext.
  rewrite Identity.normalize_idem, Identity.Validate_normalize, Hval.
  set (q := Identity.normalize p) in *.
  destruct (entry_resolves r1 q (Authorization.mkRequest q action (resource q)) rest) as (ms & -> & Hact).
  { by rewrite Hpath. }
  { exists resource. rewrite Hm. done. }
  rewrite Hact. destruct (route_named _ _ _ _ q Hroute) as [Hb Hk].
  destruct (Authorize_grants q action (resource q) value) as (d & -> & ->); try done.
  - unfold q. by rewrite Identity.Validate_normalize.
  - by eapply route_scope.
  - eapply within_own; [done|by apply Validate_tenant| |apply Identity.normalize_idem].
    intros Hs. apply Hproj. destruct Hroute; done.
  - eexists _, _. constructor.
Qed.

Lemma server_serves r w t p :
  entitled r t p → ∃ t' r' w' k, asks (server r w) t' (Do (OfBase (EServe r' w')) k).
Proof.
  intros He. unfold server, apiHandler, WithRequestMetadata.
  destruct (chooseID_returns (Meta_RequestID (RequestMetadataFromContext (Req_Metadata r))) r RequestIDHeader "req") as (t1 & id1 & H1).
  destruct (chooseID_returns (Meta_TraceID (RequestMetadataFromContext (Req_Metadata r))) r TraceIDHeader "trace") as (t2 & id2 & H2).
  edestruct (WithAuthorization_serves r) as (r' & k & Hk); [exact He|..].
  4: { exists (t1 ++ t2 ++ (translated (@OfAuthn) <$> t) ++ []), r'. eexists _, k.
    eapply asks_bind_returns; [exact H1|]. eapply asks_bind_returns; [exact H2|].
    unfold WithPrincipalVerifier. cbn [Req_Path with_metadata with_header]. rewrite (ent_api _ _ _ He). cbn [negb].
    eapply asks_bind_returns.
    - apply translate_returns. simpl. rewrite !Values_Set by done. apply He.
    - cbn beta iota. destruct (ent_valid _ _ _ He) as [-> _].
      rewrite (proj2 (andb_false_iff _ _)); [exact Hk|].
      destruct (HasPrefix (Req_Path r) "/api/v1/tasks") eqn:Hpre; [right|by left].
      apply bool_decide_eq_false, (ent_project _ _ _ He), Hpre. }
  all: reflexivity.
Qed.
End boundary.

(** C7. The business handlers see a request under /api/ only if it was
    authenticated and authorized: its bearer token was verified with the answer
    [p], the handler gets that principal, the path and the method are an entry of
    the API table, the principal is no system principal, its roles grant the
    action of the entry and the resource is in its tenant and project, and for a
    task it has a project.  The request itself is passed on unchanged. *)
Theorem business_requests_are_cleared S v enc_error error_text r w t r' w' k :
  asks (server S v enc_error error_text r w) t (Do (OfBase (EServe r' w')) k) →
  HasPrefix (Req_Path r) "/api/" = true → cleared S v r t r'.
Proof.
  intros Ht. apply (wp_request (@permitted S v r) _ _ _ _ _ _ (server_safe S v enc_error error_text r w) Ht).
Qed.

(** C29. A request that may pass does: with a verified principal whose roles grant
    the action of the entry its path and method name, in its own tenant and
    project, the business handler is reached. *)
Theorem entitled_requests_are_served S v enc_error error_text r w t p :
  entitled S v r t p →
  ∃ t' r' w' k, asks (server S v enc_error error_text r w) t' (Do (OfBase (EServe r' w')) k).
Proof. apply server_serves. Qed.
End Boundary.

(** * BoundaryExamples: a request through the chain

    A developer creates a task with the token of [AuthnExamples]; the theorems
    of [Boundary] on that request. *)

Module BoundaryExamples.
Import Http Access AccessSpec Boundary.
Import AuthnExamples(std, verifier, the_cache, now, token, developer).

Definition create : Request :=
  mkRequest "POST" "/api/v1/tasks" "/api/v1/tasks" ∅ {[ "Authorization" := ["Bearer " +:+ token] ]} "{}" None None None.

Definition encode (e : APIError) : string := Err_Code e.
Definition text (e : error) : string := "error".

Definition answer : ∀ X, Ev X → option X := λ X e,
  match e with
  | OfAuthn e => Some (fst (AuthnSystem.reply the_cache (Err (Errorf "no network" [])) now e))
  | OfBase e => match e in Base X return option X with ERand => Some (Some "0123456789abcdef") | EServe _ _ => None end
  end.

Definition run := follow answer (server std verifier encode text create fresh).

Definition served : Request :=
  match run.2 with Do (OfBase (EServe r _)) _ => r | _ => create end.
Definition response : Response :=
  match run.2 with Do (OfBase (EServe _ w)) _ => w | _ => fresh end.

Lemma run_serves : run.2 = Do (OfBase (EServe served response)) Ret.
Proof. vm_compute. reflexivity. Qed.

Lemma business_requests_are_cleared_witness :
  Req_Principal served = Some developer ∧ cleared std verifier create run.1 served.
Proof.
  split; [vm_compute; reflexivity|].
  apply (business_requests_are_cleared std verifier encode text create fresh run.1 served response Ret); [|reflexivity].
  rewrite <- run_serves. exact (follow_asks answer (server std verifier encode text create fresh)).
Defined.

(** The verifier with the cache at hand and no network. *)
Definition offline : ∀ X, Authn.Ev X → option X := λ X e,
  Some (fst (AuthnSystem.reply the_cache (Err (Errorf "no network" [])) now e)).
Definition request := Authn.Verify std verifier (Some (Values (Req_Header create) "Authorization")).
Definition verified := follow offline request.

Lemma verified_run :
  verified = ([Asked Authn.ELoad the_cache; Asked Authn.ENow now; Asked Authn.ENow now], Ret (Ok developer)).
Proof. vm_compute. reflexivity. Qed.

Lemma developer_entitled :
  entitled std verifier create [Asked Authn.ELoad the_cache; Asked Authn.ENow now; Asked Authn.ENow now] developer.
Proof.
  split.
  - unfold returns. pose proof (follow_asks offline request) as H. change (follow offline request) with verified in H.
    rewrite verified_run in H. exact H.
  - done.
  - reflexivity.
  - done.
  - exists ["tasks"], Authorization.ActionTaskCreate, (λ p, projectAccessResource p "task" ""), "developer".
    split; [reflexivity|]. split; [apply tasks_create|]. split; [done|].
    split; [apply list_elem_of_here|]. apply Authorization.may_work; [set_solver|by left].
Qed.

Lemma entitled_requests_are_served_witness :
  ∃ t' r' w' k, asks (server std verifier encode text create fresh) t' (Do (OfBase (EServe r' w')) k).
Proof. exact (entitled_requests_are_served std verifier encode text create fresh _ developer developer_entitled). Defined.
End BoundaryExamples.
