(* ===== verification/Pages.v ===== *)
(** * Pages: the response contract and pagination

    [src/internal/httpapi/response_contract.go]: responses of the business
    handlers are buffered, legacy errors become error envelopes, lists are cut
    into pages with an opaque token for the next one, and a task read carries its
    version.  JSON is a parameter ([Codec]). *)
From S2P Require Import Prelude Programs GoStrings GoText Identity Authorization Http Access.

Module Pages.
Import Http.
Import Access(MethodGet, pathParts).

Definition DefaultPageSize : Z := 50.
Definition MaxPageSize : Z := 200.
Definition ResourceVersionHeader : string := "X-Resource-Version".

Definition errPageOffset : error := Sentinel "errPageOffset" "page offset exceeds collection size".

(** ** Tokens *)

Definition encodePageToken (offset : Z) : string := EncodeToString ("v1:" +:+ Itoa offset).

Definition decodePageToken (token : string) : result Z :=
  match DecodeString token with
  | None => Err (Errorf "illegal base64 data" [])
  | Some value =>
      if negb (HasPrefix value "v1:") then Err (Errorf "unsupported token version" [])
      else match Atoi (TrimPrefix value "v1:") with
      | None => Err (Errorf "invalid offset" [])
      | Some offset => if (offset <? 0)%Z then Err (Errorf "invalid offset" []) else Ok offset
      end
  end.

(** ** Which responses are paged *)

Record paginationSpec : Type := mkSpec { PageSize : Z; Offset : Z }.

Definition isPaginatedPath (path : string) : bool :=
  if (path ==? "/api/v1/models") || (path ==? "/api/v1/tools") || (path ==? "/api/v1/tasks") then true
  else match pathParts path with
  | [api; version; collection; id; name] =>
      if (api !=? "api") || (version !=? "v1") || (collection !=? "tasks") || (id ==? "") then false
      else (name ==? "routes") || (name ==? "costs") || (name ==? "audit") || (name ==? "trace") || (name ==? "evaluations")
  | _ => false
  end.

(** [r.URL.Query().Get(name)]. *)
Definition Query (r : Request) (name : string) : string := default "" (head (default [] (Req_Query r !! name))).

(** [Ok None] is a request that is not paged. *)
Definition paginationRequest (r : Request) : result (option paginationSpec) :=
  if (Req_Method r !=? MethodGet) || negb (isPaginatedPath (Req_Path r)) then Ok None else
  let value := TrimSpace (Query r "pageSize") in
  size ← (if value ==? "" then Ok DefaultPageSize
          else match Atoi value with
          | Some parsed =>
              if (parsed <? 1)%Z || (MaxPageSize <? parsed)%Z
              then Err (Errorf "pageSize must be between 1 and %d" [AInt MaxPageSize]) else Ok parsed
          | None => Err (Errorf "pageSize must be between 1 and %d" [AInt MaxPageSize])
          end);
  let token := TrimSpace (Query r "pageToken") in
  if token ==? "" then Ok (Some (mkSpec size 0))
  else match decodePageToken token with
  | Err _ => Err (Errorf "pageToken is invalid" [])
  | Ok offset => Ok (Some (mkSpec size offset))
  end.

Definition isDirectTaskRead (r : Request) : bool :=
  if Req_Method r !=? MethodGet then false
  else match pathParts (Req_Path r) with
  | [api; version; collection; id] => (api ==? "api") && (version ==? "v1") && (collection ==? "tasks") && (id !=? "")
  | _ => false
  end.

(** ** Pages *)

(** The items of a page and the token of the next one, empty on the last. *)
Record Page : Type := mkPage { Items : list string; NextPageToken : string }.

(** [paginateJSON] after the list has been decoded. *)
Definition paginate (items : list string) (spec : paginationSpec) : result Page :=
  let len := Z.of_nat (length items) in
  if (len <? Offset spec)%Z then Err errPageOffset else
  let end_ := add64 (Offset spec) (PageSize spec) in
  let end_ := if (len <? end_)%Z then len else end_ in
  let page := take (Z.to_nat (end_ - Offset spec)) (drop (Z.to_nat (Offset spec)) items) in
  Ok (mkPage page (if (end_ <? len)%Z then encodePageToken end_ else "")).

(** What JSON reads and writes here: a list of raw values, a page, the raw
    "error" field of an object ("" when there is none), a string, the id and the
    version of a task. *)
Record Codec : Type := mkCodec {
  decode_items : string → result (list string);
  encode_page : Page → result string;
  decode_error : string → option string;
  decode_string : string → option string;
  decode_task : string → option (string * Z)
}.

(** The code, the message and whether to retry. *)
Definition normalizeLegacyError (C : Codec) (status : Z) (body : string) : option (string * string * bool) :=
  raw ← decode_error C body;
  match bytes raw with
  | [] => None
  | a :: _ =>
      if a ==? "{"%char then None else
      message ← decode_string C raw;
      let code := if (message ==? "IDEMPOTENCY_CONFLICT") || (message ==? "IDEMPOTENCY_IN_PROGRESS") then message
                  else defaultAPIErrorCode status in
      Some (code, message, defaultRetryable status)
  end.

Definition paginateJSON (C : Codec) (body : string) (spec : paginationSpec) : result string :=
  items ← decode_items C body;
  page ← paginate items spec;
  encode_page C page.

Definition quoted (s : string) : string := String (ascii_of_N 34) s +:+ String (ascii_of_N 34) EmptyString.

Definition setTaskResourceVersionHeaders (C : Codec) (w : Response) (body : string) : Response :=
  match decode_task C body with
  | Some (id, version) =>
      if (id ==? "") || (version <? 1)%Z then w
      else set_header (set_header w ResourceVersionHeader (Itoa version)) "ETag"
             (quoted ("task:" +:+ id +:+ ":v" +:+ Itoa version))
  | None => w
  end.

(** [mergeHeaders]: the handler's headers replace those of the same name. *)
Definition mergeHeaders (destination source : Header) : Header := (source : gmap string (list string)) ∪ destination.

Section contract.
Context {E : Type → Set}.
Variable rand : prog E (option string).
Variable enc_error : APIError → string.
Variable error_text : error → string.
Variable C : Codec.

Abbreviation writeAPIError := (writeAPIError rand enc_error).

(** The end of the handler: version headers, status, body. *)
Definition finish (r : Request) (w : Response) (status : Z) (body : string) : Response :=
  let w := if isDirectTaskRead r && (status =? 200)%Z then setTaskResourceVersionHeaders C w body else w in
  Write (WriteHeader w status) body.

Definition WithAPIResponseContract (next : Handler E) : Handler E := λ r w,
  match paginationRequest r with
  | Err err => writeAPIError w 400 "INVALID_REQUEST" (error_text err) false
  | Ok pagination =>
      buffered ← next r fresh;
      let status := default 200%Z (Resp_Status buffered) in
      let body := Resp_Body buffered in
      let w := mkResponse (mergeHeaders (Resp_Header w) (Resp_Header buffered)) (Resp_Status w) (Resp_Body w) in
      match (if (400 <=? status)%Z then normalizeLegacyError C status body else None) with
      | Some (code, message, retryable) => writeAPIError w status code message retryable
      | None =>
          match pagination with
          | Some spec =>
              if (200 <=? status)%Z && (status <? 300)%Z then
                match paginateJSON C body spec with
                | Err err =>
                    if errors_Is err "errPageOffset"
                    then writeAPIError w 400 "INVALID_REQUEST" "pageToken does not identify a valid page" false
                    else writeAPIError w 500 "INTERNAL_ERROR" "list response does not satisfy pagination contract" false
                | Ok body => Ret (finish r w status body)
                end
              else Ret (finish r w status body)
          | None => Ret (finish r w status body)
          end
      end
  end.
End contract.

(** ** Tokens are read back *)

Lemma decode_encodePageToken n : (0 ≤ n ≤ int_max)%Z → decodePageToken (encodePageToken n) = Ok n.
Proof.
  intros Hn. unfold decodePageToken, encodePageToken. rewrite Decode_Encode, HasPrefix_app, TrimPrefix_app. cbn [negb].
  rewrite Atoi_Itoa by done. by rewrite (proj2 (Z.ltb_ge n 0)) by lia.
Qed.

Lemma encodePageToken_trimmed n : TrimSpace (encodePageToken n) = encodePageToken n.
Proof. apply TrimSpace_graphic, Encode_graphic. Qed.

Lemma encodePageToken_ne n : encodePageToken n ≠ "".
Proof. intros H. pose proof (Decode_Encode ("v1:" +:+ Itoa n)) as E. unfold encodePageToken in H. by rewrite H in E. Qed.

(** ** A client that follows the tokens *)

Definition list_request (path : string) (size : Z) (token : string) : Request :=
  mkRequest "GET" path path {[ "pageSize" := [Itoa size]; "pageToken" := [token] ]} ∅ "" None None None.

(** The pages a client gets for the list [items] from the one [token] names on. *)
Fixpoint walk (fuel : nat) (path : string) (items : list string) (size : Z) (token : string) : option (list (list string)) :=
  match fuel with
  | O => None
  | S fuel =>
      match paginationRequest (list_request path size token) with
      | Ok (Some spec) =>
          match paginate items spec with
          | Ok page =>
              if NextPageToken page ==? "" then Some [Items page]
              else pages ← walk fuel path items size (NextPageToken page); Some (Items page :: pages)
          | Err _ => None
          end
      | _ => None
      end
  end.

Lemma list_request_size path size token : Query (list_request path size token) "pageSize" = Itoa size.
Proof. reflexivity. Qed.
Lemma list_request_token path size token : Query (list_request path size token) "pageToken" = token.
Proof. reflexivity. Qed.

Lemma list_request_spec path size token offset :
  isPaginatedPath path = true → (1 ≤ size ≤ MaxPageSize)%Z → (0 ≤ offset ≤ int_max)%Z →
  token = (if (offset =? 0)%Z then "" else encodePageToken offset) →
  paginationRequest (list_request path size token) = Ok (Some (mkSpec size offset)).
Proof.
  intros Hpath Hsize Ho ->. unfold MaxPageSize in Hsize. unfold paginationRequest.
  rewrite list_request_size, list_request_token. cbn [Req_Method Req_Path list_request].
  rewrite Hpath, (bool_decide_true ("GET" = MethodGet)) by done. cbn [negb orb].
  rewrite (TrimSpace_graphic (Itoa size)) by apply Itoa_graphic. rewrite (bool_decide_false (Itoa size = "")).
  2: { intros E. pose proof (Atoi_Itoa size) as H. rewrite E in H. specialize (H ltac:(unfold int_max; lia)). done. }
  rewrite Atoi_Itoa by (unfold int_max; lia).
  rewrite (proj2 (Z.ltb_ge size 1)), (proj2 (Z.ltb_ge MaxPageSize size)) by (unfold MaxPageSize; lia). simpl.
  destruct (offset =? 0)%Z eqn:E; simpl.
  - apply Z.eqb_eq in E. by subst.
  - rewrite encodePageToken_trimmed, bool_decide_false by apply encodePageToken_ne. by rewrite decode_encodePageToken.
Qed.

Lemma paginate_spec items size offset :
  (1 ≤ size ≤ MaxPageSize)%Z → (0 ≤ offset ≤ Z.of_nat (length items))%Z →
  (Z.of_nat (length items) ≤ int_max - MaxPageSize)%Z →
  let next := (offset + size)%Z in
  paginate items (mkSpec size offset) =
    Ok (mkPage (take (Z.to_nat size) (drop (Z.to_nat offset) items))
          (if (next <? Z.of_nat (length items))%Z then encodePageToken next else "")).
Proof.
  intros Hs Ho Hl. unfold MaxPageSize in *. unfold paginate. cbn [Offset PageSize].
  rewrite (proj2 (Z.ltb_ge _ offset)) by lia. unfold add64.
  rewrite wrap64_id by (unfold in_int64, int_min, int_max in *; lia).
  destruct (Z.ltb_spec (Z.of_nat (length items)) (offset + size)) as [Hlt|Hge].
  - rewrite (proj2 (Z.ltb_ge _ _)), (proj2 (Z.ltb_ge (offset + size) _)) by lia. f_equal. f_equal.
    rewrite !take_ge by (rewrite length_drop; lia). done.
  - f_equal. f_equal. f_equal. lia.
Qed.

Lemma walk_from fuel path items size offset :
  isPaginatedPath path = true → (1 ≤ size ≤ MaxPageSize)%Z → (0 ≤ offset ≤ Z.of_nat (length items))%Z →
  (Z.of_nat (length items) ≤ int_max - MaxPageSize)%Z → length items - Z.to_nat offset < fuel →
  ∃ pages, walk fuel path items size (if (offset =? 0)%Z then "" else encodePageToken offset) = Some pages
    ∧ concat pages = drop (Z.to_nat offset) items ∧ Forall (λ p, length p ≤ Z.to_nat size) pages.
Proof.
  intros Hpath Hs. revert offset. induction fuel as [|fuel IH]; intros offset Ho Hl Hf; [lia|]. simpl.
  rewrite (list_request_spec path size _ offset); [|done|done|unfold MaxPageSize in *; lia|done].
  rewrite paginate_spec by done. cbn [NextPageToken Items].
  destruct (Z.ltb_spec (offset + size) (Z.of_nat (length items))) as [Hlt|Hge].
  - rewrite bool_decide_false by apply encodePageToken_ne.
    destruct (IH (offset + size)%Z) as (pages & Hw & Hc & Hall); [lia|done|lia|].
    rewrite (proj2 (Z.eqb_neq (offset + size) 0)) in Hw by lia. rewrite Hw. eexists. split; [done|].
    split; [|constructor; [rewrite length_take; lia|done]]. simpl. rewrite Hc.
    replace (Z.to_nat (offset + size)) with (Z.to_nat offset + Z.to_nat size) by lia.
    by rewrite <- drop_drop, take_drop.
  - rewrite bool_decide_true by done. eexists. split; [done|].
    split; [|constructor; [rewrite length_take; lia|constructor]]. simpl. rewrite app_nil_r. apply take_ge.
    rewrite length_drop. lia.
Qed.

(** C30. Following the page tokens from the first page of a list ends, after at
    most one page per item and one more, and the pages, none longer than asked
    for, are the list in order: every item once. *)
Theorem pages_cover_the_list path items size :
  isPaginatedPath path = true → (1 ≤ size ≤ MaxPageSize)%Z → (Z.of_nat (length items) ≤ int_max - MaxPageSize)%Z →
  ∃ pages, walk (S (length items)) path items size "" = Some pages
    ∧ concat pages = items ∧ Forall (λ p, length p ≤ Z.to_nat size) pages.
Proof. intros Hp Hs Hl. apply (walk_from _ path items size 0); [done|done|lia|done|simpl; lia]. Qed.

Lemma pages_cover_the_list_witness :
  ∃ pages, walk 6 "/api/v1/tasks/t1/costs" ["a"; "b"; "c"; "d"; "e"] 2 "" = Some pages
    ∧ concat pages = ["a"; "b"; "c"; "d"; "e"] ∧ Forall (λ p, length p ≤ 2) pages.
Proof.
  apply (pages_cover_the_list "/api/v1/tasks/t1/costs" ["a"; "b"; "c"; "d"; "e"] 2); [reflexivity|unfold MaxPageSize; lia|].
  simpl. unfold MaxPageSize, int_max. lia.
Defined.

Example three_pages : walk 6 "/api/v1/models" ["a"; "b"; "c"; "d"; "e"] 2 "" = Some [["a"; "b"]; ["c"; "d"]; ["e"]].
Proof. vm_compute. reflexivity. Qed.
End Pages.
