(* ===== verification/Sandbox.v ===== *)
(** * Sandbox: planning the Kubernetes job of a tool call

    [src/internal/sandbox/sandbox.go]: validation of a sandbox request, the job
    and network policy planned for it, and the planning executor.  A
    [map[string]any] is an association list of [value]s.  Go ranges over the
    environment map in an unspecified order: [range] lists it, any permutation
    of it.  [Timeout.Seconds()] is converted to int64 and the timeout is at most
    an hour, where the float64 is exact enough that the conversion is the
    integer part. *)
From S2P Require Import Prelude GoStrings.

Module Sandbox.

Definition ErrInvalidRequest : error := Sentinel "sandbox.ErrInvalidRequest" "invalid sandbox request".

Inductive NetworkMode : Type := NetworkDenyAll | NetworkAllowList | NetworkModeOther (s : string).

#[export] Instance NetworkMode_eq_dec : EqDecision NetworkMode.
Proof. solve_decision. Defined.

Record Limits : Type := mkLimits {
  CPU : string;
  Memory : string;
  Timeout : Duration;
  Network : NetworkMode;
  AllowedHosts : list string;
  ReadOnlyRootFS : bool;
  WorkspacePath : string;
  WorkspaceWrite : bool
}.

Record Request : Type := mkRequest {
  TaskID : string;
  TraceID : string;
  ToolID : string;
  Image : string;
  Command : list string;
  Environment : gmap string string;
  CredentialLeaseID : string;
  Request_Limits : Limits
}.

(** A value of a [map[string]any] tree. *)
Inductive value : Type :=
| VStr (s : string)
| VInt (z : Z)
| VBool (b : bool)
| VList (l : list value)
| VMap (m : list (string * value)).

Record Plan : Type := mkPlan {
  Namespace : string;
  ServiceAccount : string;
  Job : value;
  NetworkPolicy : value
}.

Record Result : Type := mkResult {
  Status : string;
  ExitCode : Z;
  Stdout : string;
  Stderr : string;
  Artifacts : gmap string string;
  Result_Plan : option Plan;
  StartedAt : Time;
  CompletedAt : Time
}.

(** ** validate *)
Definition secretLike (key : string) : bool :=
  let upper := ToUpper key in
  Contains upper "SECRET" || Contains upper "TOKEN" || Contains upper "PASSWORD" || Contains upper "KEY".

Definition validate (request : Request) : result unit :=
  let limits := Request_Limits request in
  let invalid msg := Err (Errorw msg [] ErrInvalidRequest) in
  if (TaskID request ==? "") || (TraceID request ==? "") || (ToolID request ==? "")
     || (Image request ==? "") || (Command request ==? [])
  then Err ErrInvalidRequest
  else if (Timeout limits <=? 0)%Z || (Hour <? Timeout limits)%Z
  then invalid "%w: timeout must be between 1 second and 1 hour"
  else if (CPU limits ==? "") || (Memory limits ==? "")
  then invalid "%w: CPU and memory limits are required"
  else
    let mode := if Network limits ==? NetworkModeOther "" then NetworkDenyAll else Network limits in
    if (mode !=? NetworkDenyAll) && (mode !=? NetworkAllowList)
    then invalid "%w: unsupported network mode"
    else if (mode ==? NetworkAllowList) && (AllowedHosts limits ==? [])
    then invalid "%w: allow-list network mode requires allowed hosts"
    else if (WorkspacePath limits !=? "")
            && (negb (HasPrefix (Clean (WorkspacePath limits)) "/workspace")
                || Contains (Clean (WorkspacePath limits)) "..")
    then invalid "%w: workspace must remain under /workspace"
    else if existsb (λ kv, secretLike (fst kv)) (map_to_list (Environment request))
    then invalid "%w: raw secret-like environment variables are prohibited"
    else Ok tt.

(** ** dnsName *)
Definition dns_char (a : ascii) : bool := is_lower a || is_digit a || (a ==? "-"%char).

(** [invalidDNS.ReplaceAllString(value, "-")]: a run of other characters becomes
    one hyphen; [inrun] says whether the run's hyphen is already written. *)
Fixpoint squash (inrun : bool) (l : list ascii) : list ascii :=
  match l with
  | [] => []
  | a :: l =>
      if dns_char a then a :: squash false l
      else if inrun then squash true l else "-"%char :: squash true l
  end.

Definition dnsName (s : string) : string :=
  let v := trim_char "-"%char (squash false (lower_bytes (bytes s))) in
  let v := if Nat.ltb 40 (length v) then take 40 v else v in
  match v with [] => "task" | _ => of_bytes v end.

(** ** Plan *)
Definition safeEnvironment (env : list (string * string)) : value :=
  VList ((λ kv, VMap [("name", VStr (fst kv)); ("value", VStr (snd kv))]) <$> env).

Definition networkEgress (limits : Limits) : value :=
  if Network limits !=? NetworkAllowList then VList []
  else VList [VMap [
    ("to", VList [VMap [("namespaceSelector",
              VMap [("matchLabels", VMap [("aicloud.dev/egress-proxy", VStr "true")])])]]);
    ("ports", VList [VMap [("protocol", VStr "TCP"); ("port", VInt 443)]])]].

Section planner.
Variable range : gmap string string → list (string * string).

Definition container (request : Request) : value :=
  let limits := Request_Limits request in
  let resources := VMap [("cpu", VStr (CPU limits)); ("memory", VStr (Memory limits))] in
  VMap [("name", VStr "tool"); ("image", VStr (Image request));
        ("command", VList (VStr <$> Command request));
        ("env", safeEnvironment (range (Environment request)));
        ("securityContext",
          VMap [("allowPrivilegeEscalation", VBool false); ("privileged", VBool false);
                ("readOnlyRootFilesystem", VBool (ReadOnlyRootFS limits));
                ("capabilities", VMap [("drop", VList [VStr "ALL"])])]);
        ("resources", VMap [("requests", resources); ("limits", resources)])].

Definition Planner_Plan (request : Request) : result Plan :=
  match validate request with
  | Err e => Err e
  | Ok _ =>
      let name := dnsName (TaskID request) in
      let namespace := "aicloud-task-" +:+ name in
      let serviceAccount := "sandbox-" +:+ name in
      let deadline := Z.quot (Timeout (Request_Limits request)) Second in
      let job := VMap [
        ("apiVersion", VStr "batch/v1"); ("kind", VStr "Job");
        ("metadata", VMap [("name", VStr ("tool-" +:+ name)); ("namespace", VStr namespace);
           ("labels", VMap [("aicloud.dev/task-id", VStr (TaskID request));
                            ("aicloud.dev/tool-id", VStr (ToolID request))])]);
        ("spec", VMap [
           ("backoffLimit", VInt 0); ("activeDeadlineSeconds", VInt deadline);
           ("ttlSecondsAfterFinished", VInt 300);
           ("template", VMap [
              ("metadata", VMap [("labels", VMap [("aicloud.dev/task-id", VStr (TaskID request))])]);
              ("spec", VMap [
                 ("restartPolicy", VStr "Never"); ("serviceAccountName", VStr serviceAccount);
                 ("automountServiceAccountToken", VBool false);
                 ("securityContext", VMap [("runAsNonRoot", VBool true);
                    ("seccompProfile", VMap [("type", VStr "RuntimeDefault")])]);
                 ("containers", VList [container request])])])])] in
      let networkPolicy := VMap [
        ("apiVersion", VStr "networking.k8s.io/v1"); ("kind", VStr "NetworkPolicy");
        ("metadata", VMap [("name", VStr "sandbox-network"); ("namespace", VStr namespace)]);
        ("spec", VMap [
           ("podSelector", VMap []);
           ("policyTypes", VList [VStr "Ingress"; VStr "Egress"]);
           ("ingress", VList []);
           ("egress", networkEgress (Request_Limits request))])] in
      Ok (mkPlan namespace serviceAccount job networkPolicy)
  end.

Definition PlanningExecutor_Execute (now : Time) (request : Request) : result Result :=
  match Planner_Plan request with
  | Err e => Err e
  | Ok plan => Ok (mkResult "PLANNED" 0 "" "" ∅ (Some plan) now now)
  end.
End planner.

(** ** Names of Kubernetes objects *)
Lemma squash_chars r l : Forall (λ a, dns_char a = true) (squash r l).
Proof.
  revert r. induction l as [|a l IH]; intros r; simpl; [constructor|].
  destruct (dns_char a) eqn:E; [by constructor|]. destruct r; [done|]. by constructor.
Qed.

Lemma trim_char_left_suffix c l : ∃ p, l = p ++ trim_char_left c l.
Proof.
  induction l as [|a l [p IH]]; simpl; [by exists []|].
  case_bool_decide; [exists (a :: p); simpl; by f_equal|by exists []].
Qed.

Lemma trim_char_left_head c l : head (trim_char_left c l) ≠ Some c.
Proof. induction l as [|a l IH]; simpl; [done|]. case_bool_decide; [done|]. simpl. congruence. Qed.

(** What [trim_char] leaves is a part of its argument that does not start with
    the trimmed character. *)
Lemma trim_char_part c l : ∃ p q, l = p ++ trim_char c l ++ q.
Proof.
  destruct (trim_char_left_suffix c l) as [p Hp].
  destruct (trim_char_left_suffix c (reverse (trim_char_left c l))) as [q Hq].
  exists p, (reverse q). unfold trim_char. rewrite Hp at 1. f_equal.
  rewrite <- reverse_app, <- Hq. by rewrite reverse_involutive.
Qed.

Lemma trim_char_head c l : head (trim_char c l) ≠ Some c.
Proof.
  pose proof (trim_char_left_head c l) as Hh.
  destruct (trim_char_left_suffix c (reverse (trim_char_left c l))) as [q Hq].
  assert (trim_char_left c l = trim_char c l ++ reverse q) as E.
  { unfold trim_char. rewrite <- reverse_app, <- Hq. by rewrite reverse_involutive. }
  rewrite E in Hh. by destruct (trim_char c l).
Qed.

Lemma dnsName_valid s :
  let n := bytes (dnsName s) in
  (1 ≤ length n ≤ 40) ∧ Forall (λ a, dns_char a = true) n ∧ head n ≠ Some "-"%char.
Proof.
  unfold dnsName. set (t := trim_char _ _).
  assert (Forall (λ a, dns_char a = true) t) as Ht.
  { destruct (trim_char_part "-"%char (squash false (lower_bytes (bytes s)))) as (p & q & Hpq).
    pose proof (squash_chars false (lower_bytes (bytes s))) as H. fold t in Hpq.
    rewrite Hpq in H. by apply Forall_app in H as [_ [? _]%Forall_app]. }
  pose proof (trim_char_head "-"%char (squash false (lower_bytes (bytes s)))) as Hh. fold t in Hh.
  set (v := if Nat.ltb 40 (length t) then take 40 t else t).
  assert (length v ≤ 40 ∧ Forall (λ a, dns_char a = true) v ∧ head v ≠ Some "-"%char) as (Hl & Hf & Hv).
  { unfold v. destruct (Nat.ltb_spec 40 (length t)); [|by split_and!].
    split_and!; [rewrite length_take; lia|by apply Forall_take|]. by destruct t. }
  destruct v as [|a v]; simpl; [repeat constructor; done|].
  rewrite bytes_of_bytes. split_and!; [simpl; lia|done..].
Qed.

(** Distinct tasks can be given the same namespace, and a name cut at 40 bytes
    may end in a hyphen. *)
Example dnsName_collision : dnsName "team_a/1" = dnsName "team.a-1". Proof. reflexivity. Qed.
Example dnsName_trailing_hyphen :
  dnsName "aaaaaaaaaaaaaaaaaaaaaaaaaaaaaaaaaaaaaaa-bbbb" = "aaaaaaaaaaaaaaaaaaaaaaaaaaaaaaaaaaaaaaa-".
Proof. reflexivity. Qed.

(** ** What a plan guarantees *)

(** The value at a path of map keys; "0" enters the first element of a list. *)
Fixpoint assoc (k : string) (m : list (string * value)) : option value :=
  match m with
  | [] => None
  | (k', v) :: m => if k ==? k' then Some v else assoc k m
  end.
Fixpoint at_path (path : list string) (v : value) : option value :=
  match path with
  | [] => Some v
  | k :: path =>
      match v with
      | VMap m => match assoc k m with Some v => at_path path v | None => None end
      | VList (v :: _) => if k ==? "0" then at_path path v else None
      | _ => None
      end
  end.

Definition pod : list string := ["spec"; "template"; "spec"].
Definition tool : list string := pod ++ ["containers"; "0"].

(** The names the container's environment defines. *)
Definition env_names (v : value) : list (option value) :=
  match v with VList l => at_path ["name"] <$> l | _ => [] end.

(** Letters of any case spell the word, whatever surrounds it. *)
Definition mentions (word key : string) : Prop := ∃ l1 l2, upper_bytes (bytes key) = l1 ++ bytes word ++ l2.

Definition confined (request : Request) (plan : Plan) : Prop :=
  let limits := Request_Limits request in
  (** the pod runs unprivileged, with no token and no capability *)
  at_path (tool ++ ["securityContext"; "privileged"]) (Job plan) = Some (VBool false)
  ∧ at_path (tool ++ ["securityContext"; "allowPrivilegeEscalation"]) (Job plan) = Some (VBool false)
  ∧ at_path (tool ++ ["securityContext"; "capabilities"; "drop"]) (Job plan) = Some (VList [VStr "ALL"])
  ∧ at_path (pod ++ ["securityContext"; "runAsNonRoot"]) (Job plan) = Some (VBool true)
  ∧ at_path (pod ++ ["automountServiceAccountToken"]) (Job plan) = Some (VBool false)
  (** it has CPU and memory limits and a deadline of at most an hour, and is not retried *)
  ∧ at_path (tool ++ ["resources"; "limits"; "cpu"]) (Job plan) = Some (VStr (CPU limits)) ∧ CPU limits ≠ ""
  ∧ at_path (tool ++ ["resources"; "limits"; "memory"]) (Job plan) = Some (VStr (Memory limits))
  ∧ Memory limits ≠ ""
  ∧ (∃ z, at_path ["spec"; "activeDeadlineSeconds"] (Job plan) = Some (VInt z) ∧ (0 ≤ z ≤ 3600)%Z
          ∧ (z * Second ≤ Timeout limits < (z + 1) * Second)%Z)
  ∧ at_path ["spec"; "backoffLimit"] (Job plan) = Some (VInt 0)
  (** no ingress, and no egress at all unless hosts were listed: then only to the proxy *)
  ∧ at_path ["spec"; "ingress"] (NetworkPolicy plan) = Some (VList [])
  ∧ (at_path ["spec"; "egress"] (NetworkPolicy plan) = Some (VList [])
     ∨ Network limits = NetworkAllowList ∧ AllowedHosts limits ≠ []
       ∧ at_path ["spec"; "egress"; "0"; "to"; "0"; "namespaceSelector"; "matchLabels"] (NetworkPolicy plan)
         = Some (VMap [("aicloud.dev/egress-proxy", VStr "true")]))
  (** no environment variable has a secret-like name *)
  ∧ (∃ env, at_path (tool ++ ["env"]) (Job plan) = Some env
      ∧ ∀ n, n ∈ env_names env → ∃ key, n = Some (VStr key) ∧ key ∈ dom (Environment request)
          ∧ ∀ word, word ∈ ["SECRET"; "TOKEN"; "PASSWORD"; "KEY"] → ¬ mentions word key)
  (** and everything is in a namespace of a legal name *)
  ∧ (∃ n, Namespace plan = "aicloud-task-" +:+ n ∧ (1 ≤ length (bytes n) ≤ 40)
      ∧ Forall (λ a, dns_char a = true) (bytes n) ∧ head (bytes n) ≠ Some "-"%char).

Lemma secretLike_false key :
  secretLike key = false → ∀ word, word ∈ ["SECRET"; "TOKEN"; "PASSWORD"; "KEY"] → ¬ mentions word key.
Proof.
  unfold secretLike, Contains. rewrite !orb_false_iff. unfold ToUpper. rewrite bytes_of_bytes.
  intros H word Hw Hm. apply contains_spec in Hm.
  rewrite !elem_of_cons, elem_of_nil in Hw. destruct Hw as [->|[->|[->|[->|[]]]]]; intuition congruence.
Qed.

(** What a request must satisfy: it names its task, its trace, its tool, an image
    and a command; it has CPU and memory limits and a timeout of at most an hour;
    the network is shut, or open to listed hosts; the workspace, if any, stays
    under [/workspace]; and no variable has a secret-like name. *)
Definition admissible (request : Request) : Prop :=
  let limits := Request_Limits request in
  TaskID request ≠ "" ∧ TraceID request ≠ "" ∧ ToolID request ≠ "" ∧ Image request ≠ "" ∧ Command request ≠ []
  ∧ CPU limits ≠ "" ∧ Memory limits ≠ "" ∧ (0 < Timeout limits ≤ Hour)%Z
  ∧ (Network limits = NetworkModeOther "" ∨ Network limits = NetworkDenyAll
     ∨ Network limits = NetworkAllowList ∧ AllowedHosts limits ≠ [])
  ∧ (WorkspacePath limits = "" ∨ HasPrefix (Clean (WorkspacePath limits)) "/workspace" = true
       ∧ Contains (Clean (WorkspacePath limits)) ".." = false)
  ∧ ∀ key word, key ∈ dom (Environment request) → word ∈ ["SECRET"; "TOKEN"; "PASSWORD"; "KEY"] → ¬ mentions word key.

Lemma validate_Ok request :
  validate request = Ok tt →
  let limits := Request_Limits request in
  CPU limits ≠ "" ∧ Memory limits ≠ "" ∧ (0 < Timeout limits ≤ Hour)%Z
  ∧ (Network limits = NetworkAllowList → AllowedHosts limits ≠ [])
  ∧ (WorkspacePath limits ≠ "" → HasPrefix (Clean (WorkspacePath limits)) "/workspace" = true
       ∧ Contains (Clean (WorkspacePath limits)) ".." = false)
  ∧ ∀ key v, Environment request !! key = Some v → secretLike key = false.
Proof.
  unfold validate. intros H.
  destruct (_ || _) in H; [done|]. destruct (_ || _) eqn:Ht in H; [done|].
  destruct (_ || _) eqn:Hc in H; [done|]. destruct (_ && _) in H; [done|].
  destruct (_ && _) eqn:Hn in H; [done|]. destruct (_ && _) eqn:Hw in H; [done|].
  destruct (existsb _ _) eqn:He in H; [done|]. clear H.
  rewrite orb_false_iff, Z.leb_gt, Z.ltb_ge in Ht.
  rewrite orb_false_iff, !bool_decide_eq_false in Hc.
  split_and!; [tauto|tauto|lia|lia| | |].
  - intros Hm. rewrite Hm in Hn. simpl in Hn. by apply bool_decide_eq_false in Hn.
  - intros Hne. rewrite bool_decide_false in Hw by done. simpl in Hw.
    by rewrite orb_false_iff, negb_false_iff in Hw.
  - intros key v Hkey. destruct (secretLike key) eqn:Hs; [|done].
    assert (existsb (λ kv : string * string, secretLike kv.1) (map_to_list (Environment request)) = true)
      as Ht'; [|congruence].
    apply existsb_exists. exists (key, v). rewrite <- list_elem_of_In, elem_of_map_to_list. done.
Qed.

Lemma validate_admissible request : validate request = Ok tt → admissible request.
Proof.
  intros H. destruct (validate_Ok request H) as (Hc & Hm & Ht & Hh & Hw & He). unfold validate in H.
  destruct (_ || _) eqn:Hid in H; [done|]. rewrite !orb_false_iff, !bool_decide_eq_false in Hid.
  destruct Hid as ((((? & ?) & ?) & ?) & ?). do 2 (destruct (_ || _) in H; [done|]).
  destruct (_ && _) eqn:Hn in H; [done|]. clear H. unfold admissible. do 8 (split; [done|]). split_and!.
  - destruct (Network (Request_Limits request)) as [| |o] eqn:E; [auto|auto|].
    destruct (decide (o = "")) as [-> | Ho]; [auto|]. exfalso. rewrite (bool_decide_false (NetworkModeOther o = NetworkModeOther "")) in Hn by congruence.
    done.
  - destruct (decide (WorkspacePath (Request_Limits request) = "")); [by left|right]. by apply Hw.
  - intros key word Hkey Hword. apply elem_of_dom in Hkey as [v Hv]. eapply secretLike_false; [by eapply He|done].
Qed.

(** Confinement: every plan the planner makes, for whatever request it
    accepts, runs the tool unprivileged, without privilege escalation,
    capabilities or a service-account token, as non-root, with CPU and memory
    limits, with a deadline of at most an hour that is the requested timeout in
    whole seconds, without retries; ingress is closed, egress is closed unless
    hosts were allow-listed and then goes only to the egress proxy; no
    environment variable whose name mentions SECRET, TOKEN, PASSWORD or KEY in
    any case reaches it; and its namespace has a legal name. *)
Theorem Plan_is_confined range request plan :
  Planner_Plan range request = Ok plan →
  range (Environment request) ≡ₚ map_to_list (Environment request) →
  confined request plan.
Proof.
  unfold Planner_Plan. intros H Hr. destruct (validate request) as [[]|] eqn:Hv; [|done].
  apply validate_Ok in Hv as (Hcpu & Hmem & Ht & Hn & _ & He). simplify_eq.
  unfold confined. cbn [Job NetworkPolicy Namespace].
  split_and!; try reflexivity; try done.
  - exists (Z.quot (Timeout (Request_Limits request)) Second). split; [done|].
    unfold Second, Hour in *. rewrite Z.quot_div_nonneg by lia.
    pose proof (Z.div_mod (Timeout (Request_Limits request)) 1000000000 ltac:(lia)).
    pose proof (Z.mod_pos_bound (Timeout (Request_Limits request)) 1000000000 ltac:(lia)). lia.
  - unfold networkEgress. case_bool_decide as Hm; simpl; [right|left; done]. auto.
  - eexists. split; [reflexivity|]. simpl. intros n Hin.
    rewrite list_elem_of_fmap in Hin. destruct Hin as (v & -> & Hin).
    rewrite list_elem_of_fmap in Hin. destruct Hin as ([key val] & -> & Hin). simpl.
    rewrite Hr, elem_of_map_to_list in Hin. exists key. split_and!; [done|by apply elem_of_dom|].
    apply secretLike_false. by eapply He.
  - exists (dnsName (TaskID request)). split; [done|]. apply dnsName_valid.
Qed.

(** The workspace check is on a string prefix, not on a path component. *)
Example workspace_sibling_accepted :
  HasPrefix (Clean "/workspace-other/data") "/workspace" && negb (Contains (Clean "/workspace-other/data") "..")
  = true.
Proof. reflexivity. Qed.

Definition sample_request : Request :=
  mkRequest "Task_1" "tr1" "shell" "img" ["sh"] {["PATH" := "/bin"]} "lease1"
    (mkLimits "1" "1Gi" (30 * Second)%Z NetworkAllowList ["api.example.com"] true "/workspace/a" false).
Definition sample_plan : Plan :=
  match Planner_Plan map_to_list sample_request with
  | Ok p => p | Err _ => mkPlan "" "" (VMap []) (VMap []) end.

Lemma Plan_is_confined_witness :
  Namespace sample_plan = "aicloud-task-task-1" ∧ confined sample_request sample_plan.
Proof.
  split; [reflexivity|].
  apply (Plan_is_confined map_to_list sample_request sample_plan); [vm_compute; reflexivity|reflexivity].
Defined.

End Sandbox.
