(* ===== verification/Credentials.v ===== *)
(** * Credentials: short-lived credential leases for tools

    [src/internal/credentials/broker.go], the in-memory broker.  [b.now()] and
    the random bytes of [randomID] are inputs of each call; ids are not assumed
    to be fresh. *)
From stdpp Require Import vector.
From S2P Require Import Prelude LeaseStore.

Module Credentials.

Definition ErrInvalidLease : error := Sentinel "ErrInvalidLease" "credential lease is invalid".

Record Request : Type := mkRequest {
  Request_TaskID : string;
  Request_ToolID : string;
  Request_Permission : string;
  Request_TTL : Duration
}.

Record Lease : Type := mkLease {
  Lease_ID : string;
  Lease_TaskID : string;
  Lease_ToolID : string;
  Lease_Permission : string;
  Lease_SecretRef : string;
  Lease_IssuedAt : Time;
  Lease_ExpiresAt : Time;
  Lease_Revoked : bool
}.

Definition MemoryBroker : Type := gmap string Lease.
Definition NewMemoryBroker : MemoryBroker := ∅.

Definition randomID (random : result (vec ascii 16)) : result string :=
  match random with Err e => Err e | Ok data => Ok (LeaseStore.EncodeToString data) end.

(** The TTL granted for the one requested. *)
Definition grantedTTL (ttl : Duration) : Duration :=
  if (ttl <=? 0)%Z || (15 * Minute <? ttl)%Z then (5 * Minute)%Z else ttl.

Definition Issue (now : Time) (random : result (vec ascii 16)) (request : Request) (b : MemoryBroker)
    : result Lease * MemoryBroker :=
  if (Request_TaskID request ==? "") || (Request_ToolID request ==? "") || (Request_Permission request ==? "")
  then (Err ErrInvalidLease, b)
  else match randomID random with
  | Err e => (Err e, b)
  | Ok id =>
      let lease := {| Lease_ID := id; Lease_TaskID := Request_TaskID request;
                      Lease_ToolID := Request_ToolID request;
                      Lease_Permission := Request_Permission request;
                      Lease_SecretRef := "lease://" +:+ id; Lease_IssuedAt := now;
                      Lease_ExpiresAt := Add now (grantedTTL (Request_TTL request));
                      Lease_Revoked := false |} in
      (Ok lease, <[id := lease]> b)
  end.

Definition Validate (now : Time) (leaseID taskID toolID : string) (b : MemoryBroker) : result Lease :=
  match b !! leaseID with
  | None => Err ErrInvalidLease
  | Some lease =>
      if Lease_Revoked lease || (Lease_TaskID lease !=? taskID) || (Lease_ToolID lease !=? toolID)
         || negb (After (Lease_ExpiresAt lease) now)
      then Err ErrInvalidLease
      else Ok lease
  end.

Definition set_Revoked (l : Lease) : Lease :=
  mkLease (Lease_ID l) (Lease_TaskID l) (Lease_ToolID l) (Lease_Permission l) (Lease_SecretRef l)
    (Lease_IssuedAt l) (Lease_ExpiresAt l) true.

Definition Revoke (leaseID : string) (b : MemoryBroker) : result unit * MemoryBroker :=
  match b !! leaseID with
  | None => (Err ErrInvalidLease, b)
  | Some lease => (Ok tt, <[leaseID := set_Revoked lease]> b)
  end.

(** ** Histories *)
Inductive op : Type :=
| OpIssue (now : Time) (random : result (vec ascii 16)) (request : Request)
| OpRevoke (id : string).

Definition run_op (o : op) (b : MemoryBroker) : MemoryBroker :=
  match o with
  | OpIssue now random request => snd (Issue now random request b)
  | OpRevoke id => snd (Revoke id b)
  end.
Definition run (ops : list op) (b : MemoryBroker) : MemoryBroker := foldl (λ b o, run_op o b) b ops.

(** The id an operation issues, if it issues one. *)
Definition issues (o : op) : option string :=
  match o with
  | OpIssue now random request => match fst (Issue now random request ∅) with Ok l => Some (Lease_ID l) | Err _ => None end
  | OpRevoke _ => None
  end.

Definition issued_by (o : op) (l : Lease) : Prop :=
  match o with
  | OpIssue now random request =>
      randomID random = Ok (Lease_ID l) ∧ Lease_TaskID l = Request_TaskID request
      ∧ Lease_ToolID l = Request_ToolID request ∧ Lease_Permission l = Request_Permission request
      ∧ Request_TaskID request ≠ "" ∧ Request_ToolID request ≠ "" ∧ Request_Permission request ≠ ""
      ∧ Lease_IssuedAt l = now ∧ Lease_ExpiresAt l = Add now (grantedTTL (Request_TTL request))
  | OpRevoke _ => False
  end.

Lemma Issue_cases now random request b :
  (issues (OpIssue now random request) = None ∧ snd (Issue now random request b) = b)
  ∨ ∃ l, issues (OpIssue now random request) = Some (Lease_ID l) ∧ Lease_Revoked l = false
      ∧ issued_by (OpIssue now random request) l
      ∧ Issue now random request b = (Ok l, <[Lease_ID l := l]> b).
Proof.
  unfold issues, issued_by, Issue. destruct (_ || _) eqn:Hc; [by left|].
  destruct (randomID random) as [id|e]; [|by left]. right. go_props.
  exists (mkLease id (Request_TaskID request) (Request_ToolID request) (Request_Permission request)
    ("lease://" +:+ id) now (Add now (grantedTTL (Request_TTL request))) false).
  split_and!; simpl; done.
Qed.

(** Where a stored lease comes from: its latest issue, and whether it was
    revoked since. *)
Lemma run_stored ops id l :
  run ops NewMemoryBroker !! id = Some l →
  ∃ h1 o h2, ops = h1 ++ o :: h2 ∧ issued_by o l ∧ Lease_ID l = id
    ∧ (∀ o', o' ∈ h2 → issues o' ≠ Some id)
    ∧ (Lease_Revoked l = true ↔ OpRevoke id ∈ h2).
Proof.
  revert l. induction ops as [|o ops IH] using rev_ind; intros l; [done|].
  unfold run. rewrite foldl_app. simpl. fold (run ops NewMemoryBroker).
  assert (∀ l0, run ops NewMemoryBroker !! id = Some l0 → issues o ≠ Some id → o ≠ OpRevoke id →
    ∃ h1 o0 h2, ops ++ [o] = h1 ++ o0 :: h2 ∧ issued_by o0 l0 ∧ Lease_ID l0 = id
      ∧ (∀ o', o' ∈ h2 → issues o' ≠ Some id) ∧ (Lease_Revoked l0 = true ↔ OpRevoke id ∈ h2)) as Hskip.
  { intros l0 Hl0 Hi Hr. destruct (IH l0 Hl0) as (h1 & o0 & h2 & -> & Hb & Hid & Hn & Hrev).
    exists h1, o0, (h2 ++ [o]). rewrite <- app_assoc. split_and!; [done..| |]; set_solver. }
  destruct o as [now random request|rid]; simpl.
  - destruct (Issue_cases now random request (run ops NewMemoryBroker))
      as [[Hi ->]|(l' & Hi & Hrv & Hb & ->)]; simpl.
    { intros Hl. apply Hskip; [done|congruence|done]. }
    unfold MemoryBroker in *. destruct (decide (id = Lease_ID l')) as [->|Hne].
    + rewrite lookup_insert_eq. intros [= <-]. exists ops, (OpIssue now random request), [].
      split_and!; [done|done|done|set_solver|]. rewrite Hrv. set_solver.
    + rewrite lookup_insert_ne by done. intros Hl. apply Hskip; [done|congruence|done].
  - unfold Revoke. destruct (run ops NewMemoryBroker !! rid) as [lr|] eqn:Er; simpl.
    2:{ intros Hl. apply Hskip; [done|done|congruence]. }
    unfold MemoryBroker in *. destruct (decide (id = rid)) as [<-|Hne].
    2:{ rewrite lookup_insert_ne by done. intros Hl. apply Hskip; [done|done|congruence]. }
    rewrite lookup_insert_eq. intros [= <-].
    destruct (IH lr Er) as (h1 & o0 & h2 & -> & Hb & Hid & Hn & Hrev).
    exists h1, o0, (h2 ++ [OpRevoke id]). rewrite <- app_assoc. split_and!; [done|by destruct o0|done| |]; set_solver.
Qed.

(** Credential leases: whatever has been issued and revoked, a lease id
    validates only for the task and the tool it was last issued for, with a
    permission that was named, strictly before its expiry, which is at most
    fifteen minutes after its issue, and only if it was not revoked since; so a
    revoked credential stays dead however often it is presented. *)
Theorem valid_credential_was_issued ops now id task tool l :
  Validate now id task tool (run ops NewMemoryBroker) = Ok l →
  ∃ h1 t random request h2,
    ops = h1 ++ OpIssue t random request :: h2
    ∧ randomID random = Ok id ∧ Request_TaskID request = task ∧ Request_ToolID request = tool
    ∧ Lease_Permission l = Request_Permission request ∧ Request_Permission request ≠ ""
    ∧ (t < Lease_ExpiresAt l ≤ t + 15 * Minute)%Z ∧ (now < Lease_ExpiresAt l)%Z
    ∧ OpRevoke id ∉ h2.
Proof.
  unfold Validate. destruct (run ops NewMemoryBroker !! id) as [l'|] eqn:E; [|done].
  destruct (_ || _) eqn:Hc; [done|]. intros [= ->]. go_props.
  destruct (run_stored ops id l E) as (h1 & o & h2 & -> & Hb & Hid & _ & Hrev).
  destruct o as [t random request|]; [|done].
  destruct Hb as (Hr & Ht & Hto & Hp & _ & _ & Hpn & _ & Hexp).
  exists h1, t, random, request, h2.
  assert (0 < grantedTTL (Request_TTL request) ≤ 15 * Minute)%Z as Hg.
  { unfold grantedTTL, Minute. destruct (Z.leb_spec (Request_TTL request) 0), (Z.ltb_spec (15 * 60000000000) (Request_TTL request)); simpl; lia. }
  unfold Add, After in *. rewrite Hexp in *. split_and!; try congruence; try lia.
  rewrite <- Hrev. congruence.
Qed.

Definition sample_random : result (vec ascii 16) := Ok (vreplicate 16 "A"%char).
Definition sample_id : string := match randomID sample_random with Ok id => id | Err _ => "" end.
Definition sample_ops : list op :=
  [OpIssue 10%Z sample_random (mkRequest "t1" "shell" "exec" 0%Z); OpRevoke sample_id;
   OpIssue 20%Z sample_random (mkRequest "t2" "shell" "exec" (99 * Minute)%Z)].
Definition sample_lease : Lease :=
  match Validate 30%Z sample_id "t2" "shell" (run sample_ops NewMemoryBroker) with
  | Ok l => l | Err _ => mkLease "" "" "" "" "" 0%Z 0%Z true end.

Lemma valid_credential_was_issued_witness :
  Lease_ExpiresAt sample_lease = (20 + 5 * Minute)%Z
  ∧ ∃ h1 t random request h2, sample_ops = h1 ++ OpIssue t random request :: h2 ∧ OpRevoke sample_id ∉ h2.
Proof.
  split; [vm_compute; reflexivity|].
  destruct (valid_credential_was_issued sample_ops 30%Z sample_id "t2" "shell" sample_lease)
    as (h1 & t & random & request & h2 & ? & _ & _ & _ & _ & _ & _ & _ & ?);
    [vm_compute; reflexivity|]. eauto 10.
Defined.

End Credentials.
