(* ===== verification/ToolGateway.v ===== *)
(** * ToolGateway: policy, approval, credential and sandbox around a tool call

    [src/internal/toolgateway/gateway.go] with the stores it calls:
    [src/internal/approval/store.go], [src/internal/audit/store.go] and the
    decision type of [src/internal/policy/service.go].  The service's
    dependencies are interfaces; here they act on a world [W].  The digests
    (SHA-256 of the JSON encoding) and [err.Error()] are parameters. *)
From stdpp Require Import pretty vector.
From S2P Require Import Prelude GoStrings Sandbox Credentials.

Module ToolGateway.

Definition ErrDenied : error := Sentinel "ErrDenied" "tool invocation denied".
Definition ErrApprovalRequired : error := Sentinel "ErrApprovalRequired" "tool invocation requires approval".
Definition ErrToolNotFound : error := Sentinel "ErrToolNotFound" "tool not found".
Definition ErrApprovalNotFound : error := Sentinel "approval.ErrApprovalNotFound" "approval not found".

(** [policy.Decision]. *)
Record PolicyDecision : Type := mkPolicyDecision {
  Policy_Allowed : bool;
  Policy_RequiresApproval : bool;
  Policy_Reason : string;
  Policy_PolicyVersion : string;
  Policy_MatchedRule : string
}.

(** ** The approval store *)
Record ApprovalRecord : Type := mkApprovalRecord {
  Approval_ID : string;
  Approval_TaskID : string;
  Approval_ToolID : string;
  Approval_Action : string;
  Approval_ApprovedBy : string;
  Approval_ApprovedAt : Time;
  Approval_ExpiresAt : Time;
  Approval_Revoked : bool
}.

Definition ApprovalStore : Type := gmap string ApprovalRecord.
Definition Approval_Get (id : string) (s : ApprovalStore) : result ApprovalRecord :=
  match s !! id with None => Err ErrApprovalNotFound | Some r => Ok r end.
Definition Approval_Put (record : ApprovalRecord) (s : ApprovalStore) : result unit * ApprovalStore :=
  (Ok tt, <[Approval_ID record := record]> s).
Definition Approval_Validate (now : Time) (approvalID taskID toolID action : string) (s : ApprovalStore)
    : result ApprovalRecord :=
  match Approval_Get approvalID s with
  | Err e => Err e
  | Ok record =>
      if Approval_Revoked record || (Approval_TaskID record !=? taskID) || (Approval_ToolID record !=? toolID)
         || (Approval_Action record !=? action) || negb (After (Approval_ExpiresAt record) now)
      then Err ErrApprovalNotFound
      else Ok record
  end.

(** ** The audit store *)
Record AuditEvent : Type := mkAuditEvent {
  Audit_ID : string;
  Audit_TaskID : string;
  Audit_TraceID : string;
  Audit_AgentID : string;
  Audit_ToolID : string;
  Audit_Action : string;
  Audit_PolicyAllowed : bool;
  Audit_PolicyVersion : string;
  Audit_MatchedRule : string;
  Audit_ApprovalID : string;
  Audit_CredentialLease : string;
  Audit_InputDigest : string;
  Audit_ResultDigest : string;
  Audit_Status : string;
  Audit_Reason : string;
  Audit_Metadata : gmap string string;
  Audit_CreatedAt : Time
}.

Definition AuditStore : Type := list AuditEvent.
Definition Audit_Append (event : AuditEvent) (s : AuditStore) : result unit * AuditStore :=
  (Ok tt, s ++ [event]).

(** ** Tools *)
Record Definition_ : Type := mkDefinition {
  Def_ID : string;
  Def_Version : string;
  Def_Image : string;
  Def_Command : list string;
  Def_RiskLevel : string;
  Def_Permission : string;
  Def_CredentialTTL : Duration;
  Def_CPU : string;
  Def_Memory : string;
  Def_Timeout : Duration;
  Def_NetworkMode : Sandbox.NetworkMode;
  Def_AllowedHosts : list string;
  Def_WorkspaceWrite : bool
}.

Definition MemoryRegistry : Type := gmap string Definition_.
Definition NewMemoryRegistry (definitions : list Definition_) : MemoryRegistry :=
  foldl (λ m d, <[Def_ID d := d]> m) ∅ definitions.
Definition Registry_Get (id : string) (r : MemoryRegistry) : result Definition_ :=
  match r !! id with None => Err ErrToolNotFound | Some d => Ok d end.
Definition Registry_Put (d : Definition_) (r : MemoryRegistry) : result unit * MemoryRegistry :=
  if (Def_ID d ==? "") || (Def_Image d ==? "") || (Def_Command d ==? []) || (Def_Permission d ==? "")
  then (Err (Errorf "invalid tool definition" []), r)
  else (Ok tt, <[Def_ID d := d]> r).

(** ** Requests and results *)
Record Request : Type := mkRequest {
  TaskID : string;
  TraceID : string;
  AgentID : string;
  ToolID : string;
  Action : string;
  Arguments : list string;
  Environment : gmap string string;
  ApprovalID : string;
  WorkspacePath : string
}.

Definition PolicyDecisionZero : PolicyDecision := mkPolicyDecision false false "" "" "".
Definition SandboxResultZero : Sandbox.Result := Sandbox.mkResult "" 0 "" "" ∅ None 0%Z 0%Z.

Record Result : Type := mkResult {
  Result_ToolID : string;
  Result_Policy : PolicyDecision;
  Result_ApprovalID : string;
  Result_CredentialID : string;
  Result_SandboxResult : Sandbox.Result
}.
Definition ResultZero : Result := mkResult "" PolicyDecisionZero "" "" SandboxResultZero.

(** ** The service *)
Class Deps (W : Type) : Type := {
  reg_Get : string → W → result Definition_ * W;
  pol_Evaluate : string → string → string → W → result PolicyDecision * W;
  app_Validate : string → string → string → string → W → result ApprovalRecord * W;
  cred_Issue : Credentials.Request → W → result Credentials.Lease * W;
  cred_Revoke : string → W → result unit * W;
  sb_Execute : Sandbox.Request → W → result Sandbox.Result * W;
  aud_Append : AuditEvent → W → result unit * W;
  svc_now : W → Time * W
}.

(** Which dependencies are set. *)
Record Service : Type := mkService {
  has_registry : bool; has_policy : bool; has_approvals : bool; has_credentials : bool;
  has_sandbox : bool; has_audit : bool
}.

(** [t.UnixNano()]: nanoseconds since 1970, at 64 bits. *)
Definition UnixNano (t : Time) : Z := wrap64 (t - 62135596800 * 1000000000).

Definition sandboxRequest (request : Request) (d : Definition_) (leaseID : string) : Sandbox.Request :=
  {| Sandbox.TaskID := TaskID request; Sandbox.TraceID := TraceID request; Sandbox.ToolID := ToolID request;
     Sandbox.Image := Def_Image d; Sandbox.Command := Def_Command d ++ Arguments request;
     Sandbox.Environment := Environment request; Sandbox.CredentialLeaseID := leaseID;
     Sandbox.Request_Limits :=
       {| Sandbox.CPU := Def_CPU d; Sandbox.Memory := Def_Memory d; Sandbox.Timeout := Def_Timeout d;
          Sandbox.Network := Def_NetworkMode d; Sandbox.AllowedHosts := Def_AllowedHosts d;
          Sandbox.ReadOnlyRootFS := true; Sandbox.WorkspacePath := WorkspacePath request;
          Sandbox.WorkspaceWrite := Def_WorkspaceWrite d |} |}.

Definition credentialRequest (request : Request) (d : Definition_) : Credentials.Request :=
  Credentials.mkRequest (TaskID request) (ToolID request) (Def_Permission d) (Def_CredentialTTL d).

Section service.
Context {W : Type} `{Deps W}.
Variable Error_text : error → string.
Variable digest_request : Request → string.
Variable digest_result : Result → string.
Variable range : gmap string string → list (string * string).

Definition auditEvent (now : Time) (request : Request) (d : Definition_) (decision : PolicyDecision)
    (status reason approvalID leaseID : string) (result : option Result) : AuditEvent :=
  {| Audit_ID := "audit-" +:+ pretty (UnixNano now); Audit_TaskID := TaskID request;
     Audit_TraceID := TraceID request; Audit_AgentID := AgentID request; Audit_ToolID := Def_ID d;
     Audit_Action := Action request; Audit_PolicyAllowed := Policy_Allowed decision;
     Audit_PolicyVersion := Policy_PolicyVersion decision; Audit_MatchedRule := Policy_MatchedRule decision;
     Audit_ApprovalID := approvalID; Audit_CredentialLease := leaseID;
     Audit_InputDigest := digest_request request;
     Audit_ResultDigest := match result with None => "" | Some r => digest_result r end;
     Audit_Status := status; Audit_Reason := reason; Audit_Metadata := ∅; Audit_CreatedAt := now |}.

Definition appendAudit (s : Service) (request : Request) (d : Definition_) (decision : PolicyDecision)
    (status reason approvalID leaseID : string) (result : option Result) (w : W) : W :=
  if negb (has_audit s) then w
  else let '(now, w) := svc_now w in
       snd (aud_Append (auditEvent now request d decision status reason approvalID leaseID result) w).

(** From the sandbox plan on: the policy and the approval have been checked. *)
Definition executeTool (s : Service) (request : Request) (d : Definition_) (decision : PolicyDecision) (w : W)
    : (Result * option error) * W :=
  match Sandbox.Planner_Plan range (sandboxRequest request d "") with
  | Err e =>
      ((ResultZero, Some e),
       appendAudit s request d decision "DENIED" (Error_text e) (ApprovalID request) "" None w)
  | Ok _ =>
      match cred_Issue (credentialRequest request d) w with
      | (Err e, w) => ((ResultZero, Some e), w)
      | (Ok lease, w) =>
          let id := Credentials.Lease_ID lease in
          let '(out, w) :=
            match sb_Execute (sandboxRequest request d id) w with
            | (Err e, w) =>
                ((ResultZero, Some e),
                 appendAudit s request d decision "FAILED" (Error_text e) (ApprovalID request) id None w)
            | (Ok sandboxResult, w) =>
                let result := mkResult (ToolID request) decision (ApprovalID request) id sandboxResult in
                ((result, None),
                 appendAudit s request d decision (Sandbox.Status sandboxResult) "" (ApprovalID request) id
                   (Some result) w)
            end in
          (** the deferred [Revoke] *)
          (out, snd (cred_Revoke id w))
      end
  end.

Definition Execute (s : Service) (request : Request) (w : W) : (Result * option error) * W :=
  if (TaskID request ==? "") || (TraceID request ==? "") || (AgentID request ==? "")
     || (ToolID request ==? "") || (Action request ==? "")
  then ((ResultZero, Some (Errorf "invalid tool request" [])), w)
  else if negb (has_registry s && has_policy s && has_approvals s && has_credentials s && has_sandbox s)
  then ((ResultZero, Some (Errorf "tool gateway dependencies are incomplete" [])), w)
  else match reg_Get (ToolID request) w with
  | (Err e, w) => ((ResultZero, Some e), w)
  | (Ok d, w) =>
      match pol_Evaluate (AgentID request) (Action request) (ToolID request) w with
      | (Err e, w) => ((ResultZero, Some e), w)
      | (Ok decision, w) =>
          let refused := mkResult (ToolID request) decision "" "" SandboxResultZero in
          if negb (Policy_Allowed decision)
          then ((refused, Some ErrDenied),
                appendAudit s request d decision "DENIED" (Policy_Reason decision) "" "" None w)
          else if Policy_RequiresApproval decision then
            if ApprovalID request ==? ""
            then ((refused, Some ErrApprovalRequired),
                  appendAudit s request d decision "WAITING_APPROVAL" "approval is required" "" "" None w)
            else match app_Validate (ApprovalID request) (TaskID request) (ToolID request) (Action request) w with
            | (Err _, w) =>
                ((refused, Some ErrApprovalRequired),
                 appendAudit s request d decision "DENIED" "approval is invalid" "" "" None w)
            | (Ok _, w) => executeTool s request d decision w
            end
          else executeTool s request d decision w
      end
  end.
End service.

(** ** What a call does, as a trace *)
Inductive event : Type :=
| EvRegistry (id : string) (r : result Definition_)
| EvPolicy (agent action tool : string) (r : result PolicyDecision)
| EvApproval (id task tool action : string) (r : result ApprovalRecord)
| EvIssue (req : Credentials.Request) (r : result Credentials.Lease)
| EvSandbox (req : Sandbox.Request) (r : result Sandbox.Result)
| EvAudit (e : AuditEvent)
| EvRevoke (id : string).

Definition logged {W A} (ev : A → event) (op : W → A * W) (wl : W * list event) : A * (W * list event) :=
  let '(a, w) := op (fst wl) in (a, (w, snd wl ++ [ev a])).

#[export] Instance traced_deps {W} `{Deps W} : Deps (W * list event) := {|
  reg_Get id := logged (EvRegistry id) (reg_Get id);
  pol_Evaluate agent action tool := logged (EvPolicy agent action tool) (pol_Evaluate agent action tool);
  app_Validate id task tool action := logged (EvApproval id task tool action) (app_Validate id task tool action);
  cred_Issue req := logged (EvIssue req) (cred_Issue req);
  cred_Revoke id := logged (λ _, EvRevoke id) (cred_Revoke id);
  sb_Execute req := logged (EvSandbox req) (sb_Execute req);
  aud_Append e := logged (λ _, EvAudit e) (aud_Append e);
  svc_now wl := let '(t, w) := svc_now (fst wl) in (t, (w, snd wl))
|}.

(** The calls that clear a request for execution. *)
Inductive cleared (request : Request) : list event → Definition_ → PolicyDecision → Prop :=
| cleared_allowed d dec :
    Policy_Allowed dec = true → Policy_RequiresApproval dec = false →
    cleared request [EvRegistry (ToolID request) (Ok d);
                     EvPolicy (AgentID request) (Action request) (ToolID request) (Ok dec)] d dec
| cleared_approved d dec rec :
    Policy_Allowed dec = true → Policy_RequiresApproval dec = true → ApprovalID request ≠ "" →
    cleared request [EvRegistry (ToolID request) (Ok d);
                     EvPolicy (AgentID request) (Action request) (ToolID request) (Ok dec);
                     EvApproval (ApprovalID request) (TaskID request) (ToolID request) (Action request) (Ok rec)]
      d dec.

(** At most one audit event, and which: about this request, tool and decision,
    with this status and credential. *)
Definition audited (s : Service) (request : Request) (d : Definition_) (dec : PolicyDecision)
    (status lease : string) (l : list event) : Prop :=
  if has_audit s
  then ∃ ev, l = [EvAudit ev] ∧ Audit_TaskID ev = TaskID request ∧ Audit_AgentID ev = AgentID request
        ∧ Audit_Action ev = Action request ∧ Audit_ToolID ev = Def_ID d
        ∧ Audit_PolicyAllowed ev = Policy_Allowed dec ∧ Audit_Status ev = status
        ∧ Audit_CredentialLease ev = lease
  else l = [].

(** Every way a call can go. *)
Inductive run_shape (s : Service) (request : Request) : list event → Result * option error → Prop :=
| sh_invalid res e : run_shape s request [] (res, Some e)
| sh_unknown res e : run_shape s request [EvRegistry (ToolID request) (Err e)] (res, Some e)
| sh_undecided res d e :
    run_shape s request
      [EvRegistry (ToolID request) (Ok d);
       EvPolicy (AgentID request) (Action request) (ToolID request) (Err e)] (res, Some e)
| sh_denied res d dec audits :
    Policy_Allowed dec = false → audited s request d dec "DENIED" "" audits →
    run_shape s request
      ([EvRegistry (ToolID request) (Ok d);
        EvPolicy (AgentID request) (Action request) (ToolID request) (Ok dec)] ++ audits) (res, Some ErrDenied)
| sh_waiting res d dec audits :
    Policy_RequiresApproval dec = true → ApprovalID request = "" →
    audited s request d dec "WAITING_APPROVAL" "" audits →
    run_shape s request
      ([EvRegistry (ToolID request) (Ok d);
        EvPolicy (AgentID request) (Action request) (ToolID request) (Ok dec)] ++ audits)
      (res, Some ErrApprovalRequired)
| sh_unapproved res d dec e audits :
    Policy_RequiresApproval dec = true → audited s request d dec "DENIED" "" audits →
    run_shape s request
      ([EvRegistry (ToolID request) (Ok d);
        EvPolicy (AgentID request) (Action request) (ToolID request) (Ok dec);
        EvApproval (ApprovalID request) (TaskID request) (ToolID request) (Action request) (Err e)] ++ audits)
      (res, Some ErrApprovalRequired)
| sh_unplanned res pre d dec e audits :
    cleared request pre d dec → audited s request d dec "DENIED" "" audits →
    run_shape s request (pre ++ audits) (res, Some e)
| sh_unissued res pre d dec e :
    cleared request pre d dec → run_shape s request (pre ++ [EvIssue (credentialRequest request d) (Err e)]) (res, Some e)
| sh_ran pre d dec lease r audits :
    cleared request pre d dec → Sandbox.validate (sandboxRequest request d "") = Ok tt →
    audited s request d dec (match r with Ok res => Sandbox.Status res | Err _ => "FAILED" end)
      (Credentials.Lease_ID lease) audits →
    run_shape s request
      (pre ++ [EvIssue (credentialRequest request d) (Ok lease);
               EvSandbox (sandboxRequest request d (Credentials.Lease_ID lease)) r]
           ++ audits ++ [EvRevoke (Credentials.Lease_ID lease)])
      (match r with
       | Ok res => (mkResult (ToolID request) dec (ApprovalID request) (Credentials.Lease_ID lease) res, None)
       | Err e => (ResultZero, Some e)
       end).

Section traces.
Context {W : Type} `{Deps W}.
Variable Error_text : error → string.
Variable digest_request : Request → string.
Variable digest_result : Result → string.
Variable range : gmap string string → list (string * string).

Lemma appendAudit_traced s request d dec status reason approvalID leaseID result w log :
  ∃ w' audits, appendAudit digest_request digest_result s request d dec status reason approvalID leaseID result (w, log)
    = (w', log ++ audits) ∧ audited s request d dec status leaseID audits.
Proof.
  unfold appendAudit, audited. destruct (has_audit s); simpl.
  - destruct (svc_now w) as [now w1]. unfold logged. simpl. destruct (aud_Append _ w1) as [r w2]. simpl.
    eexists _, _. split; [done|]. eexists. by split_and!.
  - exists w, []. by rewrite app_nil_r.
Qed.

Lemma executeTool_shape s request d dec w pre :
  cleared request pre d dec →
  let '(out, (_, log)) :=
    executeTool Error_text digest_request digest_result range s request d dec (w, pre) in
  run_shape s request log out.
Proof.
  intros Hc. unfold executeTool.
  destruct (Sandbox.Planner_Plan range (sandboxRequest request d "")) as [pl|e] eqn:Hp.
  2:{ destruct (appendAudit_traced s request d dec "DENIED" (Error_text e) (ApprovalID request) "" None w pre)
        as (w' & audits & -> & Ha). by eapply sh_unplanned. }
  assert (Sandbox.validate (sandboxRequest request d "") = Ok tt) as Hv.
  { unfold Sandbox.Planner_Plan in Hp. destruct (Sandbox.validate _) as [[]|]; done. }
  cbn [cred_Issue traced_deps]. unfold logged at 1. cbn [fst snd].
  destruct (cred_Issue (credentialRequest request d) w) as [[lease|e] w1]; [|by eapply sh_unissued].
  cbn [sb_Execute traced_deps]. unfold logged at 1. cbn [fst snd].
  set (id := Credentials.Lease_ID lease).
  destruct (sb_Execute (sandboxRequest request d id) w1) as [[res|e] w2].
  - set (result := mkResult _ _ _ _ _).
    destruct (appendAudit_traced s request d dec (Sandbox.Status res) "" (ApprovalID request) id (Some result)
      w2 ((pre ++ [EvIssue (credentialRequest request d) (Ok lease)]) ++ [EvSandbox (sandboxRequest request d id) (Ok res)]))
      as (w3 & audits & -> & Ha). cbn. unfold logged. cbn [fst snd].
    destruct (cred_Revoke id w3) as [r w4]. simpl. rewrite <- !app_assoc. by apply (sh_ran _ _ _ _ dec lease (Ok res)).
  - destruct (appendAudit_traced s request d dec "FAILED" (Error_text e) (ApprovalID request) id None
      w2 ((pre ++ [EvIssue (credentialRequest request d) (Ok lease)]) ++ [EvSandbox (sandboxRequest request d id) (Err e)]))
      as (w3 & audits & -> & Ha). cbn. unfold logged. cbn [fst snd].
    destruct (cred_Revoke id w3) as [r w4]. simpl. rewrite <- !app_assoc. by apply (sh_ran _ _ _ _ dec lease (Err e)).
Qed.

Lemma Execute_shape s request w :
  let '(out, (_, log)) := Execute Error_text digest_request digest_result range s request (w, []) in
  run_shape s request log out.
Proof.
  unfold Execute. destruct (_ || _); [constructor|]. destruct (negb _); [constructor|].
  cbn [reg_Get traced_deps]. unfold logged at 1. cbn [fst snd].
  destruct (reg_Get (ToolID request) w) as [[d|e] w1]; [|constructor].
  cbn [pol_Evaluate traced_deps]. unfold logged at 1. cbn [fst snd].
  destruct (pol_Evaluate _ _ _ w1) as [[dec|e] w2]; [|constructor]. simpl app.
  destruct (Policy_Allowed dec) eqn:Hal; simpl negb; cbn match.
  2:{ match goal with |- context [appendAudit _ _ _ _ _ _ ?st ?re ?a ?l ?r (w2, ?log)] =>
        destruct (appendAudit_traced s request d dec st re a l r w2 log) as (w3 & audits & -> & Ha) end.
      by apply (sh_denied _ _ _ _ dec). }
  destruct (Policy_RequiresApproval dec) eqn:Hap; [|apply executeTool_shape; by constructor].
  case_bool_decide as Hid.
  { match goal with |- context [appendAudit _ _ _ _ _ _ ?st ?re ?a ?l ?r (w2, ?log)] =>
      destruct (appendAudit_traced s request d dec st re a l r w2 log) as (w3 & audits & -> & Ha) end.
    by apply (sh_waiting _ _ _ _ dec). }
  cbn [app_Validate traced_deps]. unfold logged at 1. cbn [fst snd].
  destruct (app_Validate _ _ _ _ w2) as [[rec|e] w3]; [apply executeTool_shape; by constructor|]. simpl app.
  match goal with |- context [appendAudit _ _ _ _ _ _ ?st ?re ?a ?l ?r (w3, ?log)] =>
    destruct (appendAudit_traced s request d dec st re a l r w3 log) as (w4 & audits & -> & Ha) end.
  by apply (sh_unapproved _ _ _ _ dec).
Qed.
Definition is_audit (e : event) : bool := match e with EvAudit _ => true | _ => false end.


Lemma cleared_policy request pre d dec :
  cleared request pre d dec →
  (∀ dec', EvPolicy (AgentID request) (Action request) (ToolID request) (Ok dec') ∈ pre → dec' = dec)
  ∧ filter (λ e, is_audit e = true) pre = [].
Proof. destruct 1; set_solver. Qed.




(** Decisions are on record: with an audit log configured, every call that
    obtained a policy decision appends exactly one audit event, about this task,
    agent, action and decision, whatever the outcome (denied, waiting for
    approval, refused by the planner, failed or run), with the single exception
    of a call whose credential could not be issued, which appends none. *)
Theorem tool_decisions_are_audited s request w :
  has_audit s = true →
  let '(_, (_, log)) := Execute Error_text digest_request digest_result range s request (w, []) in
  ∀ dec, EvPolicy (AgentID request) (Action request) (ToolID request) (Ok dec) ∈ log →
  (∃ ev, filter (λ e, is_audit e = true) log = [EvAudit ev]
     ∧ Audit_TaskID ev = TaskID request ∧ Audit_AgentID ev = AgentID request
     ∧ Audit_Action ev = Action request ∧ Audit_PolicyAllowed ev = Policy_Allowed dec)
  ∨ ∃ req e, EvIssue req (Err e) ∈ log ∧ filter (λ e, is_audit e = true) log = [].
Proof.
  intros Haud. pose proof (Execute_shape s request w) as Hs.
  destruct (Execute _ _ _ _ _ _ _) as [[res err] [w' log]]. intros dec Hin.
  destruct Hs as [| | |res' d dec' audits _ Hx|res' d dec' audits _ _ Hx|res' d dec' e audits _ Hx|res' pre d dec' e audits Hc Hx
                 |res' pre d dec' e Hc|pre d dec' lease r audits Hc Hv Hx].
  1-3: set_solver.
  all: try (unfold audited in Hx; rewrite Haud in Hx; destruct Hx as (ev & -> & Ht & Hag & Hac & _ & Hp & _)).
  1-3: left; exists ev; split; [done|]; split_and!; try done; rewrite Hp;
    rewrite !elem_of_app, !elem_of_cons, !elem_of_nil in Hin; destruct_or! Hin; by simplify_eq.
  all: destruct (cleared_policy _ _ _ _ Hc) as [Hdec Hnone].
  all: rewrite !elem_of_app, !elem_of_cons, ?elem_of_app, ?elem_of_cons, !elem_of_nil in Hin.
  - left. exists ev. rewrite filter_app, Hnone. split_and!; try done. rewrite Hp.
    destruct_or! Hin; [|done]. by rewrite (Hdec _ Hin).
  - right. exists (credentialRequest request d), e. rewrite filter_app, Hnone. set_solver.
  - left. exists ev. rewrite !filter_app, Hnone. split_and!; try done. rewrite Hp.
    destruct_or! Hin; try done. by rewrite (Hdec _ Hin).
Qed.

End traces.

(** ** The in-memory stores behind the interfaces *)
Record MemoryWorld : Type := mkMemoryWorld {
  mw_registry : MemoryRegistry;
  mw_approvals : ApprovalStore;
  mw_broker : Credentials.MemoryBroker;
  mw_audit : AuditStore;
  mw_tick : nat
}.

Section memory.
Variable policy : string → string → string → result PolicyDecision.
Variable clock : nat → Time.
Variable random : nat → result (vec ascii 16).
Variable range : gmap string string → list (string * string).

Definition tick (w : MemoryWorld) : MemoryWorld :=
  mkMemoryWorld (mw_registry w) (mw_approvals w) (mw_broker w) (mw_audit w) (S (mw_tick w)).

#[export] Instance memory_deps : Deps MemoryWorld := {|
  reg_Get id w := (Registry_Get id (mw_registry w), w);
  pol_Evaluate agent action tool w := (policy agent action tool, w);
  app_Validate id task tool action w :=
    (Approval_Validate (clock (mw_tick w)) id task tool action (mw_approvals w), tick w);
  cred_Issue req w :=
    let '(r, b) := Credentials.Issue (clock (mw_tick w)) (random (mw_tick w)) req (mw_broker w) in
    (r, mkMemoryWorld (mw_registry w) (mw_approvals w) b (mw_audit w) (S (mw_tick w)));
  cred_Revoke id w :=
    let '(r, b) := Credentials.Revoke id (mw_broker w) in
    (r, mkMemoryWorld (mw_registry w) (mw_approvals w) b (mw_audit w) (mw_tick w));
  sb_Execute req w := (Sandbox.PlanningExecutor_Execute range (clock (mw_tick w)) req, tick w);
  aud_Append e w :=
    let '(r, a) := Audit_Append e (mw_audit w) in
    (r, mkMemoryWorld (mw_registry w) (mw_approvals w) (mw_broker w) a (mw_tick w));
  svc_now w := (clock (mw_tick w), tick w)
|}.
End memory.

Definition sample_tool : Definition_ :=
  mkDefinition "shell" "1" "img" ["sh"; "-c"] "high" "exec" 0%Z "1" "1Gi" (60 * Second)%Z
    Sandbox.NetworkDenyAll [] false.
Definition sample_request : Request :=
  mkRequest "t1" "tr1" "agent" "shell" "run" ["ls"] ∅ "ap1" "/workspace".
Definition sample_world : MemoryWorld :=
  mkMemoryWorld (snd (Registry_Put sample_tool (NewMemoryRegistry [])))
    (snd (Approval_Put (mkApprovalRecord "ap1" "t1" "shell" "run" "alice" 1%Z 1000%Z false) ∅)) ∅ [] 0.
Definition sample_policy (agent action tool : string) : result PolicyDecision :=
  Ok (mkPolicyDecision true true "ok" "v1" "r1").
Definition sample_execute : (Result * option error) * (MemoryWorld * list event) :=
  @Execute _ (@traced_deps _ (memory_deps sample_policy (λ n, 100 + Z.of_nat n)%Z (λ _, Credentials.sample_random)
                                map_to_list))
    (λ _, "error") (λ _, "in") (λ _, "out") map_to_list (mkService true true true true true true)
    sample_request (sample_world, []).

Lemma tool_decisions_are_audited_witness :
  snd (fst sample_execute) = None
  ∧ ((∃ ev, filter (λ e, is_audit e = true) (snd (snd sample_execute)) = [EvAudit ev]
        ∧ Audit_TaskID ev = "t1" ∧ Audit_PolicyAllowed ev = true)
     ∨ ∃ req e, EvIssue req (Err e) ∈ snd (snd sample_execute)).
Proof.
  split; [vm_compute; reflexivity|].
  pose proof (@tool_decisions_are_audited _
    (memory_deps sample_policy (λ n, 100 + Z.of_nat n)%Z (λ _, Credentials.sample_random) map_to_list)
    (λ _, "error") (λ _, "in") (λ _, "out") map_to_list (mkService true true true true true true)
    sample_request sample_world eq_refl) as Hw.
  assert (EvPolicy "agent" "run" "shell" (Ok (mkPolicyDecision true true "ok" "v1" "r1"))
          ∈ snd (snd sample_execute)) as Hin.
  { vm_compute. right. left. }
  unfold sample_execute in *. destruct (@Execute _ _ _ _ _ _ _ _ _) as [[r e] [w log]].
  destruct (Hw _ Hin) as [(ev & ? & ? & ? & ? & ?)|(req & e' & ? & ?)]; [left|right]; eauto.
Defined.

End ToolGateway.
