(* ===== verification/Evaluation.v ===== *)
(** * Evaluation: evaluation runs and the quality gate

    [src/internal/evaluation/evaluation.go]: configurations and their canonical
    digest, the gate over metrics and thresholds, runs and the in-memory store.
    JSON and SHA-256 are parameters; the orders in which maps are visited are
    parameters too. *)
From S2P Require Import Prelude GoStrings GoText Order Http.

Module Evaluation.

Record Config : Type := mkConfig {
  Config_ModelID : string;
  Config_ModelVersion : string;
  Config_Provider : string;
  Config_EndpointID : string;
  Config_PromptVersion : string;
  Config_WorkflowVersion : string;
  Config_ToolVersions : gmap string string;
  Config_PermissionVersion : string;
  Config_TokenBudget : Z;
  Config_TimeBudgetMS : Z;
  Config_RetryPolicyVersion : string;
  Config_CompactionVersion : string;
  Config_SandboxProfile : string;
  Config_DatasetID : string;
  Config_DatasetVersion : string;
  Config_EvaluatorID : string;
  Config_EvaluatorVersion : string;
  Config_Parameters : gmap string string
}.

Record Metrics : Type := mkMetrics {
  QualityScore : float64;
  SafetyScore : float64;
  ReliabilityScore : float64;
  LatencyP95MS : Z;
  CostPerSuccessfulTask : float64;
  HumanInterventionRate : float64;
  TaskSuccessRate : float64
}.

Record Thresholds : Type := mkThresholds {
  MinimumQuality : float64;
  MinimumSafety : float64;
  MinimumReliability : float64;
  MaximumLatencyP95MS : Z;
  MaximumCostPerSuccess : float64;
  MaximumHumanIntervention : float64;
  MinimumTaskSuccessRate : float64
}.

Record GateResult : Type := mkGateResult { Passed : bool; Gate_Reasons : list string }.

Record Run : Type := mkRun {
  Run_ID : string;
  Run_TaskID : string;
  Run_TraceID : string;
  Run_Config : Config;
  Run_ConfigDigest : string;
  Run_RawOutputDigest : string;
  Run_Metrics : Metrics;
  Run_Thresholds : Thresholds;
  Run_Gate : GateResult;
  Run_CreatedAt : Time
}.

(** ** The gate *)

Definition when (b : bool) (reason : string) : list string := if b then [reason] else [].

Definition EvaluateGate (m : Metrics) (t : Thresholds) : GateResult :=
  let reasons :=
    when (f_lt (QualityScore m) (MinimumQuality t)) "quality score below threshold"
    ++ when (f_lt (SafetyScore m) (MinimumSafety t)) "safety score below threshold"
    ++ when (f_lt (ReliabilityScore m) (MinimumReliability t)) "reliability score below threshold"
    ++ when ((0 <? MaximumLatencyP95MS t)%Z && (MaximumLatencyP95MS t <? LatencyP95MS m)%Z) "latency exceeds threshold"
    ++ when (f_gt (MaximumCostPerSuccess t) f_zero && f_gt (CostPerSuccessfulTask m) (MaximumCostPerSuccess t))
         "cost per successful task exceeds threshold"
    ++ when (f_gt (MaximumHumanIntervention t) f_zero && f_gt (HumanInterventionRate m) (MaximumHumanIntervention t))
         "human intervention rate exceeds threshold"
    ++ when (f_lt (TaskSuccessRate m) (MinimumTaskSuccessRate t)) "task success rate below threshold" in
  mkGateResult (bool_decide (reasons = [])) reasons.

(** ** Configurations *)

(** The map of [ValidateConfig], as the list of its entries. *)
Definition required (c : Config) : list (string * string) :=
  [("model ID", Config_ModelID c); ("model version", Config_ModelVersion c); ("provider", Config_Provider c);
   ("prompt version", Config_PromptVersion c); ("workflow version", Config_WorkflowVersion c);
   ("retry policy version", Config_RetryPolicyVersion c); ("sandbox profile", Config_SandboxProfile c);
   ("dataset ID", Config_DatasetID c); ("dataset version", Config_DatasetVersion c);
   ("evaluator ID", Config_EvaluatorID c); ("evaluator version", Config_EvaluatorVersion c)].

(** The loop over the entries in the order they are visited. *)
Fixpoint missing (entries : list (string * string)) : option string :=
  match entries with
  | [] => None
  | (name, value) :: rest => if value ==? "" then Some name else missing rest
  end.

Record canonicalEvaluationConfig : Type := mkCanonical {
  canonical_ModelID : string;
  canonical_ModelVersion : string;
  canonical_Provider : string;
  canonical_EndpointID : string;
  canonical_PromptVersion : string;
  canonical_WorkflowVersion : string;
  canonical_ToolVersions : list (string * string);
  canonical_PermissionVersion : string;
  canonical_TokenBudget : Z;
  canonical_TimeBudgetMS : Z;
  canonical_RetryPolicyVersion : string;
  canonical_CompactionVersion : string;
  canonical_SandboxProfile : string;
  canonical_DatasetID : string;
  canonical_DatasetVersion : string;
  canonical_EvaluatorID : string;
  canonical_EvaluatorVersion : string;
  canonical_Parameters : list (string * string)
}.

(** [sort.Strings]. *)
Definition sort_strings (l : list string) : list string := SliceStable str_lt l.

Definition stringsafe (value : string) : string :=
  if 20 <? String.length value then of_bytes (drop (String.length value - 20) (bytes value)) else value.

Section evaluation.
(** The order in which the required fields and the keys of a map are visited. *)
Variable visit : list (string * string) → list (string * string).
Variable range : gmap string string → list string.
(** [json.Marshal] of a canonical configuration and [sha256.Sum256]. *)
Variable marshal : canonicalEvaluationConfig → result string.
Variable sha256 : string → string.

Definition ValidateConfig (c : Config) : result unit :=
  match missing (visit (required c)) with
  | Some name => Err (Errorf "%s is required" [AStr name])
  | None =>
      if (Config_TokenBudget c <=? 0)%Z || (Config_TimeBudgetMS c <=? 0)%Z
      then Err (Errorf "positive token and time budgets are required" []) else Ok tt
  end.

Definition sortedKV (values : gmap string string) : list (string * string) :=
  (λ key, (key, default "" (values !! key))) <$> sort_strings (range values).

Definition canonicalConfig (c : Config) : canonicalEvaluationConfig :=
  mkCanonical (Config_ModelID c) (Config_ModelVersion c) (Config_Provider c) (Config_EndpointID c) (Config_PromptVersion c)
    (Config_WorkflowVersion c) (sortedKV (Config_ToolVersions c)) (Config_PermissionVersion c) (Config_TokenBudget c)
    (Config_TimeBudgetMS c) (Config_RetryPolicyVersion c) (Config_CompactionVersion c) (Config_SandboxProfile c)
    (Config_DatasetID c) (Config_DatasetVersion c) (Config_EvaluatorID c) (Config_EvaluatorVersion c)
    (sortedKV (Config_Parameters c)).

Definition DigestConfig (c : Config) : result string :=
  match marshal (canonicalConfig c) with
  | Err e => Err (Errorw "encode evaluation config: %w" [] e)
  | Ok body => Ok ("sha256:" +:+ Http.hex (sha256 body))
  end.

Definition NewRun (taskID traceID : string) (config : Config) (metrics : Metrics) (thresholds : Thresholds)
    (rawOutput : string) (now : Time) : result Run :=
  if (taskID ==? "") || (traceID ==? "") then Err (Errorf "task ID and trace ID are required" []) else
  _ ← ValidateConfig config;
  configDigest ← DigestConfig config;
  let rawDigest := if rawOutput ==? "" then "" else "sha256:" +:+ Http.hex (sha256 rawOutput) in
  Ok (mkRun ("eval-" +:+ stringsafe configDigest) taskID traceID config configDigest rawDigest metrics thresholds
        (EvaluateGate metrics thresholds) now).

(** ** The in-memory store *)

Definition MemoryStore : Type := gmap string Run.
Definition NewMemoryStore : MemoryStore := ∅.

Definition Append (run : Run) (s : MemoryStore) : result unit * MemoryStore :=
  match s !! Run_ID run with
  | Some _ => (Err (Errorf "evaluation run already exists" []), s)
  | None => (Ok tt, <[Run_ID run := run]> s)
  end.

(** [runs] is the order in which the map is visited. *)
Definition ListByTask (runs : MemoryStore → list Run) (taskID : string) (s : MemoryStore) : list Run :=
  SliceStable (λ a b, Before (Run_CreatedAt a) (Run_CreatedAt b)) (filter (λ run, Run_TaskID run = taskID) (runs s)).

Definition Get (id : string) (s : MemoryStore) : result Run :=
  match s !! id with
  | None => Err (Errorf "evaluation run not found" [])
  | Some run => Ok run
  end.
End evaluation.

(** ** What the gate decides *)

(** The metrics meet the thresholds; a maximum that is not positive asks nothing. *)
Definition meets (m : Metrics) (t : Thresholds) : Prop :=
  f_lt (QualityScore m) (MinimumQuality t) = false ∧ f_lt (SafetyScore m) (MinimumSafety t) = false
  ∧ f_lt (ReliabilityScore m) (MinimumReliability t) = false
  ∧ (0 < MaximumLatencyP95MS t → LatencyP95MS m ≤ MaximumLatencyP95MS t)%Z
  ∧ (f_gt (MaximumCostPerSuccess t) f_zero = true → f_gt (CostPerSuccessfulTask m) (MaximumCostPerSuccess t) = false)
  ∧ (f_gt (MaximumHumanIntervention t) f_zero = true → f_gt (HumanInterventionRate m) (MaximumHumanIntervention t) = false)
  ∧ f_lt (TaskSuccessRate m) (MinimumTaskSuccessRate t) = false.

Lemma gate_when_nil b r : when b r = [] ↔ b = false.
Proof. by destruct b. Qed.

Lemma implies_false a b : (a && b) = false ↔ (a = true → b = false).
Proof. destruct a, b; naive_solver. Qed.

(** The gate passes exactly the metrics that meet the thresholds. *)
Lemma EvaluateGate_spec m t : Passed (EvaluateGate m t) = true ↔ meets m t.
Proof.
  unfold EvaluateGate, meets. cbn [Passed]. rewrite bool_decide_eq_true, !app_nil, !gate_when_nil, !implies_false, Z.ltb_lt, Z.ltb_ge. tauto.
Qed.

(** A score that is not a number passes. *)
Example nan_score_passes t :
  f_lt f_zero (MinimumSafety t) = true → f_lt f_nan (MinimumSafety t) = false.
Proof. done. Qed.

(** ** The digest does not depend on the order of a map *)

Lemma sort_strings_canonical l l' : l ≡ₚ l' → sort_strings l = sort_strings l'.
Proof.
  assert (∀ l, StronglySorted (λ x y, str_lt y x = false) (sort_strings l)) as Hs.
  { intros k. apply SliceStable_sorted.
    - intros x y. apply bytes_lt_asym.
    - intros x y z H1 H2. by eapply bytes_le_trans. }
  intros Hp. apply (StronglySorted_unique_strong (λ x y, str_lt y x = false)); [|done|done|].
  - intros x y _ _ H1 H2. rewrite <- (of_bytes_bytes x), <- (of_bytes_bytes y). f_equal. by apply bytes_lt_total.
  - unfold sort_strings. by rewrite !SliceStable_Permutation.
Qed.

Lemma sortedKV_canonical range range' values :
  range values ≡ₚ range' values → sortedKV range values = sortedKV range' values.
Proof. intros H. unfold sortedKV. by rewrite (sort_strings_canonical _ _ H). Qed.

(** Two servers that visit the maps in different orders digest a configuration
    alike. *)
Theorem digest_is_canonical range range' marshal sha256 config :
  (∀ values, range values ≡ₚ range' values) →
  DigestConfig range marshal sha256 config = DigestConfig range' marshal sha256 config.
Proof.
  intros H. unfold DigestConfig, canonicalConfig. by rewrite !(sortedKV_canonical range range') by done.
Qed.

(** Of two runs with one configuration only the first is stored, whatever their
    tasks and results: the id of a run is made of its configuration alone. *)
Theorem configuration_is_evaluated_once visit range marshal sha256 s taskID traceID config m t raw now run
    taskID' traceID' m' t' raw' now' run' s1 :
  NewRun visit range marshal sha256 taskID traceID config m t raw now = Ok run →
  NewRun visit range marshal sha256 taskID' traceID' config m' t' raw' now' = Ok run' →
  Append run s = (Ok tt, s1) → Append run' s1 = (Err (Errorf "evaluation run already exists" []), s1).
Proof.
  unfold NewRun. destruct (_ || _); [done|]. destruct (_ || _); [done|]. simpl.
  destruct (ValidateConfig visit config) as [[]|]; [|done]. simpl.
  destruct (DigestConfig range marshal sha256 config) as [digest|]; [|done]. simpl. intros [= <-] [= <-].
  unfold Append. simpl. destruct (s !! _); [done|]. intros [= <-].
  match goal with |- context [lookup ?k (insert ?k ?v ?m)] =>
    rewrite (lookup_insert_eq (M := gmap string) m k v : lookup k (insert k v m) = Some v) end. done.
Qed.
End Evaluation.
