(* ===== verification/ControlEvidence.v ===== *)
(** * ControlEvidence: models, tools, evaluations and evidence in the control plane

    [src/internal/modelservice/service.go] and the operations of
    [src/internal/controlplane/service.go] that [ControlPlane] leaves out: the
    model registry, admission evidence, tool execution, evaluations, traces and
    the listings.  An operation is a program over the repositories and services
    it delegates to; [error_text] is [err.Error()]. *)
From S2P Require Import Prelude Programs Identity Domain RouteTypes GoStrings Admission ModelRuntime Sandbox ToolGateway Evaluation.

Module ControlEvidence.
Export Programs.
Import Domain RouteTypes.
Import ModelRuntime(TraceEvent, mkTraceEvent, TraceStatus, StatusOK, StatusError).

Inductive Req : Type → Set :=
| Now : Req Time
| NewID (prefix : string) : Req string
| ModelsList : Req (result (list Model))
| ModelsGet (id : string) : Req (result Model)
| ModelsCreate (m : Model) : Req (result Model)
| ModelsUpdate (m : Model) : Req (result Model)
| TasksList : Req (result (list Task))
| TasksGet (id : string) : Req (result Task)
| AdmissionAppend (e : Admission.Evidence) : Req (result unit)
| AdmissionList (model version : string) : Req (result (list Admission.Evidence))
| AdmissionCheck (m : Model) : Req (result Admission.Decision)
| RoutesList (task : string) : Req (result (list RouteDecision))
| CostsList (task : string) : Req (result (list CostEvent))
| ToolsList : Req (result (list ToolGateway.Definition_))
| ToolsExecute (r : ToolGateway.Request) : Req (ToolGateway.Result * option error)
| AuditList (task : string) : Req (result (list ToolGateway.AuditEvent))
| EvaluationsAppend (r : Evaluation.Run) : Req (result unit)
| EvaluationsList (task : string) : Req (result (list Evaluation.Run))
| TraceList (task : string) : Req (result (list TraceEvent))
| TraceAppend (e : TraceEvent) : Req (result unit).

Inductive Ev (X : Type) : Set :=
| At (ctx : option Identity.Principal) (r : Req X).
Arguments At {X} ctx r.

Abbreviation prog := (Programs.prog Ev).

(** Which dependencies are set. *)
Record Deps : Type := mkDeps {
  has_admission : bool; has_routes : bool; has_costs : bool; has_tools : bool; has_audit : bool;
  has_evaluations : bool; has_traces : bool
}.

Definition set_ID (m : Model) (id : string) : Model :=
  Build_Model id (Model_Name m) (Model_Version m) (Model_Provider m) (Model_Endpoint m) (Model_DeploymentMode m)
    (Model_Lifecycle m) (Model_Capabilities m) (Model_Pricing m) (Model_Health m) (Model_HealthCheckedAt m)
    (Model_P95LatencyMS m) (Model_ErrorRate m) (Model_QuotaRemaining m) (Model_CapacityAvailable m) (Model_QueueDepth m)
    (Model_ServiceTiers m) (Model_InferenceEfforts m) (Model_EvaluationVersion m) (Model_License m)
    (Model_LicenseEvidence m) (Model_Provenance m) (Model_ArtifactDigest m) (Model_ApprovalStatus m) (Model_RiskLevel m)
    (Model_DataResidency m) (Model_CreatedAt m) (Model_UpdatedAt m).

Definition set_created (m : Model) (created : Time) : Model :=
  Build_Model (Model_ID m) (Model_Name m) (Model_Version m) (Model_Provider m) (Model_Endpoint m) (Model_DeploymentMode m)
    (Model_Lifecycle m) (Model_Capabilities m) (Model_Pricing m) (Model_Health m) (Model_HealthCheckedAt m)
    (Model_P95LatencyMS m) (Model_ErrorRate m) (Model_QuotaRemaining m) (Model_CapacityAvailable m) (Model_QueueDepth m)
    (Model_ServiceTiers m) (Model_InferenceEfforts m) (Model_EvaluationVersion m) (Model_License m)
    (Model_LicenseEvidence m) (Model_Provenance m) (Model_ArtifactDigest m) (Model_ApprovalStatus m) (Model_RiskLevel m)
    (Model_DataResidency m) created (Model_UpdatedAt m).

(** ** modelservice *)

Definition default_currency (p : PricingProfile) : PricingProfile :=
  if Pricing_Currency p ==? "" then
    Build_PricingProfile "USD" (Pricing_InputPerMillion p) (Pricing_OutputPerMillion p) (Pricing_CachedPerMillion p)
      (Pricing_ServiceTierFactor p)
  else p.

Definition applyDefaults (m : Model) (now : Time) : Model := {|
  Model_ID := Model_ID m;
  Model_Name := Model_Name m;
  Model_Version := if Model_Version m ==? "" then "v1" else Model_Version m;
  Model_Provider := Model_Provider m;
  Model_Endpoint := Model_Endpoint m;
  Model_DeploymentMode := Model_DeploymentMode m;
  Model_Lifecycle := match Model_Lifecycle m with ModelLifecycleOther "" => ModelDraft | l => l end;
  Model_Capabilities := Model_Capabilities m;
  Model_Pricing := default_currency (Model_Pricing m);
  Model_Health := match Model_Health m with HealthOther "" => HealthUnknown | h => h end;
  Model_HealthCheckedAt := Model_HealthCheckedAt m;
  Model_P95LatencyMS := Model_P95LatencyMS m;
  Model_ErrorRate := Model_ErrorRate m;
  Model_QuotaRemaining := Model_QuotaRemaining m;
  Model_CapacityAvailable := Model_CapacityAvailable m;
  Model_QueueDepth := Model_QueueDepth m;
  Model_ServiceTiers := Model_ServiceTiers m;
  Model_InferenceEfforts := Model_InferenceEfforts m;
  Model_EvaluationVersion := Model_EvaluationVersion m;
  Model_License := Model_License m;
  Model_LicenseEvidence := Model_LicenseEvidence m;
  Model_Provenance := Model_Provenance m;
  Model_ArtifactDigest := Model_ArtifactDigest m;
  Model_ApprovalStatus := match Model_ApprovalStatus m with ApprovalOther "" => ApprovalDiscovered | a => a end;
  Model_RiskLevel := Model_RiskLevel m;
  Model_DataResidency := Model_DataResidency m;
  Model_CreatedAt := if IsZero (Model_CreatedAt m) then now else Model_CreatedAt m;
  Model_UpdatedAt := now
|}.

Section service.
Variable cfg : Deps.
Variable error_text : error → string.
(** The evaluation package's codecs and map orders. *)
Variable visit : list (string * string) → list (string * string).
Variable range : gmap string string → list string.
Variable marshal : Evaluation.canonicalEvaluationConfig → result string.
Variable sha256 : string → string.
Variable ctx : option Identity.Principal.

Abbreviation request r := (ask (At ctx r)).

(** Nothing is done without the dependency [set]. *)
Definition configured {A} (set : bool) (message : string) (p : prog (result A)) : prog (result A) :=
  if set then p else Ret (Err (Errorf message [])).

(** [modelservice.Service.Create] and [Update]. *)
Definition CreateModel (m : Model) : prog (result Model) :=
  now ← request Now;
  request (ModelsCreate (applyDefaults m now)).

Definition UpdateModel (m : Model) : prog (result Model) :=
  try (request (ModelsGet (Model_ID m))) id (λ current,
  let m := if IsZero (Model_CreatedAt m) then set_created m (Model_CreatedAt current) else m in
  now ← request Now;
  request (ModelsUpdate (applyDefaults m now))).

Definition ListModels : prog (result (list Model)) := request ModelsList.
Definition GetModel (id : string) : prog (result Model) := request (ModelsGet id).

(** ** Admission *)

Definition set_model (e : Admission.Evidence) (m : Model) (created : Time) : Admission.Evidence :=
  Admission.mkEvidence (Admission.Ev_ID e) (Model_ID m) (Model_Version m) (Admission.Ev_Status e) (Admission.Ev_LicenseID e)
    (Admission.Ev_LicenseTextRef e) (Admission.Ev_SourceRef e) (Admission.Ev_UpstreamModels e) (Admission.Ev_DatasetRefs e)
    (Admission.Ev_CommercialUseAllowed e) (Admission.Ev_HostedServiceAllowed e) (Admission.Ev_RedistributionAllowed e)
    (Admission.Ev_NoticeRequired e) (Admission.Ev_NoticeRef e) (Admission.Ev_ArtifactDigest e)
    (Admission.Ev_ArtifactSignature e) (Admission.Ev_SecurityScanRef e) (Admission.Ev_Reviewer e)
    (Admission.Ev_ReviewedAt e) (Admission.Ev_EvidenceDigest e) created.

Definition AppendAdmissionEvidence (modelID : string) (evidence : Admission.Evidence) : prog (result Admission.Evidence) :=
  configured (has_admission cfg) "model admission is not configured" (
  try (request (ModelsGet modelID)) id (λ model,
  created ← (if IsZero (Admission.Ev_CreatedAt evidence) then request Now else Ret (Admission.Ev_CreatedAt evidence));
  let evidence := set_model evidence model created in
  try (request (AdmissionAppend evidence)) id (λ _, Ret (Ok evidence)))).

Definition ListAdmissionEvidence (modelID : string) : prog (result (list Admission.Evidence)) :=
  configured (has_admission cfg) "model admission is not configured" (
  try (request (ModelsGet modelID)) id (λ model, request (AdmissionList (Model_ID model) (Model_Version model)))).

Definition CheckModelAdmission (modelID : string) : prog (result Admission.Decision) :=
  configured (has_admission cfg) "model admission is not configured" (
  try (request (ModelsGet modelID)) id (λ model, request (AdmissionCheck model))).

(** ** Listings *)

Definition ListTasks : prog (result (list Task)) := request TasksList.
Definition GetTask (id : string) : prog (result Task) := request (TasksGet id).
Definition ListRouteDecisions (taskID : string) : prog (result (list RouteDecision)) :=
  configured (has_routes cfg) "route decision repository is not configured" (request (RoutesList taskID)).
Definition ListCostEvents (taskID : string) : prog (result (list CostEvent)) :=
  configured (has_costs cfg) "cost event repository is not configured" (request (CostsList taskID)).
Definition ListTools : prog (result (list ToolGateway.Definition_)) :=
  configured (has_tools cfg) "Tool Gateway is not configured" (request ToolsList).
Definition ListToolAudit (taskID : string) : prog (result (list ToolGateway.AuditEvent)) :=
  configured (has_audit cfg) "audit store is not configured" (request (AuditList taskID)).
Definition ListEvaluations (taskID : string) : prog (result (list Evaluation.Run)) :=
  configured (has_evaluations cfg) "evaluation store is not configured" (request (EvaluationsList taskID)).
Definition ListTrace (taskID : string) : prog (result (list TraceEvent)) :=
  configured (has_traces cfg) "trace store is not configured" (
  try (request (TasksGet taskID)) id (λ _, request (TraceList taskID))).

(** ** Tools and evaluations *)

(** [appendTrace]; the ids are drawn whether or not there is a store. *)
Definition appendTrace (task : Task) (name kind : string) (status : TraceStatus) (message : string)
    (attributes : list (string * string)) (started : Time) (ended : option Time) : prog unit :=
  id ← request (NewID "trace-event");
  span ← request (NewID "span");
  if has_traces cfg then
    _ ← request (TraceAppend (mkTraceEvent id (Task_TraceID task) (Task_ID task) span "" name kind status message
                                attributes "" "" started ended));
    Ret tt
  else Ret tt.

Definition tool_request (task : Task) (r : ToolGateway.Request) : ToolGateway.Request :=
  ToolGateway.mkRequest (Task_ID task) (Task_TraceID task)
    (if ToolGateway.AgentID r ==? "" then Task_AgentID task else ToolGateway.AgentID r) (ToolGateway.ToolID r)
    (ToolGateway.Action r) (ToolGateway.Arguments r) (ToolGateway.Environment r) (ToolGateway.ApprovalID r)
    (ToolGateway.WorkspacePath r).

Definition ExecuteTool (taskID : string) (r : ToolGateway.Request) : prog (ToolGateway.Result * option error) :=
  if negb (has_tools cfg) then Ret (ToolGateway.ResultZero, Some (Errorf "Tool Gateway is not configured" [])) else
  got ← request (TasksGet taskID);
  match got with
  | Err e => Ret (ToolGateway.ResultZero, Some e)
  | Ok task =>
      let r := tool_request task r in
      started ← request Now;
      '(result, executeErr) ← request (ToolsExecute r);
      ended ← request Now;
      let '(status, message) :=
        match executeErr with Some e => (StatusError, error_text e) | None => (StatusOK, "") end in
      _ ← appendTrace task "tool.execute" "TOOL_CALL" status message
            [("tool.id", ToolGateway.ToolID r); ("tool.action", ToolGateway.Action r);
             ("sandbox.status", Sandbox.Status (ToolGateway.Result_SandboxResult result))] started (Some ended);
      Ret (result, executeErr)
  end.

Definition CreateEvaluation (taskID : string) (config : Evaluation.Config) (metrics : Evaluation.Metrics)
    (thresholds : Evaluation.Thresholds) (rawOutput : string) : prog (result Evaluation.Run) :=
  configured (has_evaluations cfg) "evaluation store is not configured" (
  try (request (TasksGet taskID)) id (λ task,
  created ← request Now;
  match Evaluation.NewRun visit range marshal sha256 (Task_ID task) (Task_TraceID task) config metrics thresholds
          rawOutput created with
  | Err e => Ret (Err e)
  | Ok run =>
      try (request (EvaluationsAppend run)) id (λ _,
      now ← request Now;
      let passed := Evaluation.Passed (Evaluation.Run_Gate run) in
      _ ← appendTrace task "evaluation.run" "EVALUATION" (if passed then StatusOK else StatusError) ""
            [("evaluation.id", Evaluation.Run_ID run); ("evaluation.config_digest", Evaluation.Run_ConfigDigest run);
             ("evaluation.gate_passed", if passed then "true" else "false");
             ("dataset.version", Evaluation.Config_DatasetVersion config);
             ("evaluator.version", Evaluation.Config_EvaluatorVersion config)] now (Some now);
      Ret (Ok run))
  end)).

(** ** Evidence belongs to the task or the model that was found *)

(** [id] was found as [task], under the caller's context. *)
Definition found (h : list (exchange Ev)) (id : string) (task : Task) : Prop := Asked (At ctx (TasksGet id)) (Ok task) ∈ h.
Definition found_model (h : list (exchange Ev)) (id : string) (m : Model) : Prop := Asked (At ctx (ModelsGet id)) (Ok m) ∈ h.

(** What a caller asks for. *)
Inductive Job : Type :=
| ToolJob (r : ToolGateway.Request)
| EvaluationJob (config : Evaluation.Config) (metrics : Evaluation.Metrics) (thresholds : Evaluation.Thresholds)
    (rawOutput : string)
| EvidenceJob (evidence : Admission.Evidence).

(** What may be written for the task or model [id] on behalf of [job]. *)
Definition about (job : Job) (id : string) {X} (h : list (exchange Ev)) (e : Ev X) : Prop :=
  let '(At c r) := e in
  c = ctx ∧
  match r with
  | ToolsExecute q =>
      ∃ task r, job = ToolJob r ∧ found h id task
      ∧ ToolGateway.TaskID q = Task_ID task ∧ ToolGateway.TraceID q = Task_TraceID task
      ∧ (ToolGateway.AgentID r = "" → ToolGateway.AgentID q = Task_AgentID task)
      ∧ (ToolGateway.AgentID r ≠ "" → ToolGateway.AgentID q = ToolGateway.AgentID r)
      ∧ (ToolGateway.ToolID q, ToolGateway.Action q, ToolGateway.Arguments q, ToolGateway.Environment q,
         ToolGateway.ApprovalID q, ToolGateway.WorkspacePath q)
        = (ToolGateway.ToolID r, ToolGateway.Action r, ToolGateway.Arguments r, ToolGateway.Environment r,
           ToolGateway.ApprovalID r, ToolGateway.WorkspacePath r)
  | EvaluationsAppend run =>
      ∃ task config metrics thresholds raw, job = EvaluationJob config metrics thresholds raw ∧ found h id task
      ∧ Evaluation.Run_TaskID run = Task_ID task ∧ Evaluation.Run_TraceID run = Task_TraceID task
      ∧ (Evaluation.Run_Config run, Evaluation.Run_Metrics run, Evaluation.Run_Thresholds run) = (config, metrics, thresholds)
      ∧ (Evaluation.Passed (Evaluation.Run_Gate run) = true ↔ Evaluation.meets metrics thresholds)
  | TraceAppend e =>
      ∃ task, found h id task ∧ ModelRuntime.Trace_TaskID e = Task_ID task ∧ ModelRuntime.Trace_TraceID e = Task_TraceID task
  | AdmissionAppend e =>
      ∃ m evidence created, job = EvidenceJob evidence ∧ found_model h id m
      ∧ e = {| Admission.Ev_ID := Admission.Ev_ID evidence; Admission.Ev_ModelID := Model_ID m;
               Admission.Ev_ModelVersion := Model_Version m; Admission.Ev_Status := Admission.Ev_Status evidence;
               Admission.Ev_LicenseID := Admission.Ev_LicenseID evidence;
               Admission.Ev_LicenseTextRef := Admission.Ev_LicenseTextRef evidence;
               Admission.Ev_SourceRef := Admission.Ev_SourceRef evidence;
               Admission.Ev_UpstreamModels := Admission.Ev_UpstreamModels evidence;
               Admission.Ev_DatasetRefs := Admission.Ev_DatasetRefs evidence;
               Admission.Ev_CommercialUseAllowed := Admission.Ev_CommercialUseAllowed evidence;
               Admission.Ev_HostedServiceAllowed := Admission.Ev_HostedServiceAllowed evidence;
               Admission.Ev_RedistributionAllowed := Admission.Ev_RedistributionAllowed evidence;
               Admission.Ev_NoticeRequired := Admission.Ev_NoticeRequired evidence;
               Admission.Ev_NoticeRef := Admission.Ev_NoticeRef evidence;
               Admission.Ev_ArtifactDigest := Admission.Ev_ArtifactDigest evidence;
               Admission.Ev_ArtifactSignature := Admission.Ev_ArtifactSignature evidence;
               Admission.Ev_SecurityScanRef := Admission.Ev_SecurityScanRef evidence;
               Admission.Ev_Reviewer := Admission.Ev_Reviewer evidence;
               Admission.Ev_ReviewedAt := Admission.Ev_ReviewedAt evidence;
               Admission.Ev_EvidenceDigest := Admission.Ev_EvidenceDigest evidence; Admission.Ev_CreatedAt := created |}
  | ModelsCreate _ | ModelsUpdate _ => False
  | _ => True
  end.
Abbreviation safe job id := (wp (@about job id)).

Lemma NewRun_Ok taskID traceID config metrics thresholds raw now run :
  Evaluation.NewRun visit range marshal sha256 taskID traceID config metrics thresholds raw now = Ok run →
  Evaluation.Run_TaskID run = taskID ∧ Evaluation.Run_TraceID run = traceID
  ∧ (Evaluation.Run_Config run, Evaluation.Run_Metrics run, Evaluation.Run_Thresholds run) = (config, metrics, thresholds)
  ∧ (Evaluation.Passed (Evaluation.Run_Gate run) = true ↔ Evaluation.meets metrics thresholds).
Proof.
  unfold Evaluation.NewRun. destruct (_ || _)%bool; [done|]. intros H. bind_inv H u Hu. bind_inv H d Hd.
  injection H as <-. split_and!; [done..|]. apply Evaluation.EvaluateGate_spec.
Qed.

Lemma appendTrace_safe job id h task name kind status message attributes started ended (Q : list (exchange Ev) → unit → Prop) :
  found h id task → (∀ h a, Q h a) → safe job id h (appendTrace task name kind status message attributes started ended) Q.
Proof.
  intros Hf HQ. apply wp_Do; [done|]. intros event. apply wp_Do; [done|]. intros span.
  destruct (has_traces cfg); [|apply HQ]. apply wp_Do; [|intros r; apply HQ].
  split; [done|]. exists task. split; [|done]. unfold found. mem.
Qed.

Lemma ExecuteTool_safe taskID r : safe (ToolJob r) taskID [] (ExecuteTool taskID r) (λ _ _, True).
Proof.
  unfold ExecuteTool. destruct (negb _); [done|]. apply wp_Do; [done|]. intros [task|e]; [|done].
  apply wp_Do; [done|]. intros started. apply wp_Do.
  { split; [done|]. exists task, r. split; [done|]. split; [unfold found; mem|]. split_and!; try done; simpl; by case_bool_decide. }
  intros [result err]. apply wp_Do; [done|]. intros ended. destruct err; apply wp_bind;
    (apply (appendTrace_safe _ taskID _ task); [unfold found; mem|done]).
Qed.

Lemma CreateEvaluation_safe taskID config metrics thresholds raw :
  safe (EvaluationJob config metrics thresholds raw) taskID [] (CreateEvaluation taskID config metrics thresholds raw) (λ _ _, True).
Proof.
  unfold CreateEvaluation, configured. destruct (has_evaluations cfg); [|done]. apply wp_try, wp_Do; [done|].
  intros [task|e]; [|done]. apply wp_Do; [done|]. intros created.
  destruct (Evaluation.NewRun _ _ _ _ _ _ _ _ _ _ _) as [run|e] eqn:Hrun; [|done].
  apply NewRun_Ok in Hrun as (Ht & Htr & Hg). apply wp_try, wp_Do.
  { split; [done|]. exists task, config, metrics, thresholds, raw. split; [done|]. split; [unfold found; mem|done]. }
  intros [u|e]; [|done]. apply wp_Do; [done|]. intros now. apply wp_bind, (appendTrace_safe _ taskID _ task); [unfold found; mem|done].
Qed.

Lemma AppendAdmissionEvidence_safe modelID evidence : safe (EvidenceJob evidence) modelID [] (AppendAdmissionEvidence modelID evidence) (λ _ _, True).
Proof.
  unfold AppendAdmissionEvidence, configured. destruct (has_admission cfg); [|done]. apply wp_try, wp_Do; [done|].
  intros [m|e]; [|done].
  assert (∀ h created, found_model h modelID m →
    safe (EvidenceJob evidence) modelID h (try (request (AdmissionAppend (set_model evidence m created))) id (λ _, Ret (Ok (set_model evidence m created))))
      (λ _ _, True)) as Happend.
  { intros h created Hm. apply wp_try, wp_Do; [|by intros [u|e]]. split; [done|]. by exists m, evidence, created. }
  destruct (IsZero _); [apply wp_Do; [done|]; intros created|]; apply Happend; unfold found_model; mem.
Qed.
End service.

(** The next request of the job is [e], after the exchanges [t]. *)
Definition asks_for cfg error_text visit range marshal sha256 ctx (job : Job) (subject : string) (t : list (exchange Ev)) {X} (e : Ev X)
    : Prop :=
  match job with
  | ToolJob r => ∃ k, asks (ExecuteTool cfg error_text ctx subject r) t (Do e k)
  | EvaluationJob config metrics thresholds raw =>
      ∃ k, asks (CreateEvaluation cfg visit range marshal sha256 ctx subject config metrics thresholds raw) t (Do e k)
  | EvidenceJob evidence => ∃ k, asks (AppendAdmissionEvidence cfg ctx subject evidence) t (Do e k)
  end.

(** C31. Evidence belongs to its subject.  Executing a tool, creating an evaluation
    and appending admission evidence ask for everything under the caller's
    context, and write only for the task or the model that was found under the
    id that was given.  A tool is executed with the id and the trace of that
    task, whatever the request said, with the request's agent or, if it names
    none, the task's, and with the tool, action, arguments, environment,
    approval and workspace of the request.  An evaluation is stored with the id
    and the trace of the task, with the configuration, metrics and thresholds
    that were given, and with a gate that is passed exactly if the metrics meet
    the thresholds.  A trace event has the id and the trace of the task.
    Admission evidence is stored with the id and the version of the model, and
    is as it was given in all but these and its creation time. *)
Theorem evidence_belongs_to_its_subject cfg error_text visit range marshal sha256 ctx job subject t X (e : Ev X) :
  asks_for cfg error_text visit range marshal sha256 ctx job subject t e → about ctx job subject t e.
Proof.
  destruct job as [r|config metrics thresholds raw|evidence]; intros [k H]; (eapply (wp_request (@about ctx _ subject)); [|exact H]).
  - apply ExecuteTool_safe.
  - apply CreateEvaluation_safe.
  - apply AppendAdmissionEvidence_safe.
Qed.

Definition sample_task : Task :=
  mkTask "t-1" "acme" "lab" "" "agent" "say hello" TaskCreated 2 "" f_zero f_zero f_zero "" "" "trace-1" 5 5 None.
Definition sample_request : ToolGateway.Request := ToolGateway.mkRequest "other-task" "other-trace" "" "git" "status" [] ∅ "" "".

Lemma evidence_belongs_to_its_subject_witness :
  about None (ToolJob sample_request) "t-1" [Asked (At None (TasksGet "t-1")) (Ok sample_task); Asked (At None Now) 7%Z]
    (At None (ToolsExecute (ToolGateway.mkRequest "t-1" "trace-1" "agent" "git" "status" [] ∅ "" ""))).
Proof.
  apply (evidence_belongs_to_its_subject (mkDeps true true true true true true true) (λ _, "error") id (λ _, []) (λ _, Ok "") id).
  eexists. do 2 apply asks_Do. apply asks_nil.
Defined.
End ControlEvidence.
