(* ===== verification/Handlers.v ===== *)
(** * Handlers: the business handlers of the HTTP API

    [src/internal/httpapi]: server.go, task_commands.go, route_commands.go,
    evidence_handlers.go, task_scope_guard.go and full_handler.go, with the part
    of [net/http.ServeMux] that dispatches to them.  A handler decodes the body,
    calls one operation of the control plane and writes its answer; the
    operations are requests to the environment, made under the principal of the
    request.  JSON, SHA-256 and [err.Error()] are parameters. *)
From S2P Require Import Prelude Programs GoStrings GoText Identity Domain RouteTypes ModelTypes ModelRuntime ControlPlane.
From S2P Require Import Authorization Http Access Pages Admission ToolGateway Evaluation ControlEvidence.

Module Handlers.
Import Domain RouteTypes ModelTypes.
Import ControlPlane(CommandMetadata, mkCommandMetadata, TaskCommandResult, TaskResult_Task, TaskResult_Replayed,
  RouteCommandResult, RouteCommand_Decision, RouteCommand_Replayed, ModelCommandResult, ModelCommand_Result,
  ModelCommand_Replayed).
Import Http.
Import Access(MethodGet, MethodPost, MethodPut, pathParts).

(** ** The control plane, as the handlers call it *)

Inductive Call : Type → Set :=
| ListModels : Call (result (list Model))
| GetModel (id : string) : Call (result Model)
| CreateModel (m : Model) : Call (result Model)
| UpdateModel (m : Model) : Call (result Model)
| ListAdmissionEvidence (id : string) : Call (result (list Admission.Evidence))
| CheckModelAdmission (id : string) : Call (result Admission.Decision)
| AppendAdmissionEvidence (id : string) (e : Admission.Evidence) : Call (result Admission.Evidence)
| ListTools : Call (result (list ToolGateway.Definition_))
| ListTasks : Call (result (list Task))
| GetTask (id : string) : Call (result Task)
| CreateTaskIdempotent (input agent : string) (m : CommandMetadata) : Call (TaskCommandResult * option error)
| DecideRouteIdempotent (r : RouteRequest) (m : CommandMetadata) : Call (RouteCommandResult * option error)
| ExecuteModelIdempotent (task : string) (r : ProviderRequest) (m : CommandMetadata) : Call (ModelCommandResult * option error)
| CreateTask (input agent : string) : Call (Task * option error)
| DecideRoute (r : RouteRequest) : Call (RouteDecision * option error)
| ExecuteTool (task : string) (r : ToolGateway.Request) : Call (ToolGateway.Result * option error)
| ListRouteDecisions (task : string) : Call (result (list RouteDecision))
| ListCostEvents (task : string) : Call (result (list CostEvent))
| ListToolAudit (task : string) : Call (result (list ToolGateway.AuditEvent))
| ListTrace (task : string) : Call (result (list ModelRuntime.TraceEvent))
| ListEvaluations (task : string) : Call (result (list Evaluation.Run))
| CreateEvaluation (task : string) (c : Evaluation.Config) (m : Evaluation.Metrics) (t : Evaluation.Thresholds)
    (raw : string) : Call (result Evaluation.Run)
| Random : Call (option string).                      (** [rand.Read], for correlation ids *)

(** A call and the principal whose context it is made under. *)
Inductive Ev (X : Type) : Set :=
| At (ctx : option Identity.Principal) (c : Call X).
Arguments At {X} ctx c.

Abbreviation Handler := (Http.Handler Ev).

Definition rand : prog Ev (option string) := ask (At None Random).

(** What a handler writes as JSON. *)
Inductive Value : Type :=
| VStatus (s : string)
| VError (message : string)
| VModels (l : list Model)
| VModel (m : Model)
| VAdmission (d : Admission.Decision) (l : list Admission.Evidence)
| VEvidence (e : Admission.Evidence)
| VTools (l : list ToolGateway.Definition_)
| VToolResult (r : ToolGateway.Result)
| VTasks (l : list Task)
| VTask (t : Task)
| VDecision (d : RouteDecision)
| VDecisions (l : list RouteDecision)
| VCosts (l : list CostEvent)
| VAudit (l : list ToolGateway.AuditEvent)
| VModelResult (r : ModelRuntime.Result)
| VTrace (l : list ModelRuntime.TraceEvent)
| VRuns (l : list Evaluation.Run)
| VRun (r : Evaluation.Run).

(** [routeCommandRequest]. *)
Record routeCommandRequest : Type := mkRouteCommand {
  rc_RouteClass : RouteClass;
  rc_RequiredCapabilities : list string;
  rc_InferenceEffort : InferenceEffort;
  rc_ServiceTier : ServiceTier;
  rc_EstimatedInputTokens : Z;
  rc_EstimatedOutputTokens : Z;
  rc_Budget : float64;
  rc_Currency : string;
  rc_DataResidency : string;
  rc_EvidenceVersion : string;
  rc_PolicyVersion : string;
  rc_AllowDegraded : bool;
  rc_RequireFreshSignals : bool;
  rc_SignalMaxAgeSeconds : Z
}.

Record createRequest : Type := mkCreate { cr_Input : string; cr_AgentID : string }.

Record toolBody : Type := mkToolBody {
  tb_AgentID : string;
  tb_Action : string;
  tb_Arguments : list string;
  tb_Environment : gmap string string;
  tb_ApprovalID : string;
  tb_WorkspacePath : string
}.

Record evaluationBody : Type := mkEvaluationBody {
  eb_Config : Evaluation.Config;
  eb_Metrics : Evaluation.Metrics;
  eb_Thresholds : Evaluation.Thresholds;
  eb_RawOutput : string
}.

(** [decodeJSON] for each body, and [json.Marshal] of what is digested. *)
Record Codec : Type := mkCodec {
  encode : Value → string;
  decode_model : string → result Model;
  decode_evidence : string → result Admission.Evidence;
  decode_create : string → result createRequest;
  decode_route : string → result routeCommandRequest;
  decode_tool : string → result toolBody;
  decode_provider : string → result ProviderRequest;
  decode_evaluation : string → result evaluationBody;
  marshal_create : createRequest → result string;
  marshal_route : string → routeCommandRequest → result string;
  marshal_model : string → ProviderRequest → result string;
  sha256 : string → string
}.

Definition idempotencyKeyHeader : string := "Idempotency-Key".

Definition isSupportedProviderTaskType (t : TaskType) : bool := match t with TaskTypeOther _ => false | _ => true end.

Definition validateModelExecutionRequest (r : ProviderRequest) : result unit :=
  match Request_TaskType r with
  | TaskTypeOther "" => Err (Errorf "taskType is required" [])
  | t =>
      if negb (isSupportedProviderTaskType t) then Err (Errorf "taskType is unsupported" [])
      else if blank (Request_Instruction r) then Err (Errorf "instruction is required" [])
      else if blank (Schema_Name (Request_OutputSchema r)) then Err (Errorf "outputSchema.name is required" [])
      else if blank (Schema_Version (Request_OutputSchema r)) then Err (Errorf "outputSchema.version is required" [])
      else Ok tt
  end.

(** The router request of a route command. *)
Definition router_request (taskID : string) (r : routeCommandRequest) : RouteRequest :=
  mkRouteRequest taskID (rc_RouteClass r) (rc_RequiredCapabilities r) (rc_InferenceEffort r) (rc_ServiceTier r)
    (rc_EstimatedInputTokens r) (rc_EstimatedOutputTokens r) (rc_Budget r) (rc_Currency r) (rc_DataResidency r)
    (rc_EvidenceVersion r) (rc_PolicyVersion r) (rc_AllowDegraded r) (rc_RequireFreshSignals r)
    (mul64 (rc_SignalMaxAgeSeconds r) Second).

Definition tool_call (toolID : string) (b : toolBody) : ToolGateway.Request :=
  ToolGateway.mkRequest "" "" (tb_AgentID b) toolID (tb_Action b) (tb_Arguments b) (tb_Environment b) (tb_ApprovalID b)
    (tb_WorkspacePath b).

Section handlers.
Variable C : Codec.
Variable error_text : error → string.

(** ** server.go: writing answers *)

Definition writeValue (w : Response) (status : Z) (v : Value) : Response := writeJSON w status (encode C v).
Definition writeErrorStatus (w : Response) (status : Z) (message : string) : Response := writeValue w status (VError message).

Definition writeError (w : Response) (err : error) : Response :=
  if errors_Is err "repository.ErrNotFound" then writeErrorStatus w 404 (error_text err)
  else writeErrorStatus w 500 (error_text err).

Definition writeToolError (w : Response) (err : error) : Response :=
  if errors_Is err "repository.ErrNotFound" || errors_Is err "ErrToolNotFound" then writeErrorStatus w 404 (error_text err)
  else if errors_Is err "ErrDenied" then writeErrorStatus w 403 (error_text err)
  else if errors_Is err "ErrApprovalRequired" then writeErrorStatus w 409 (error_text err)
  else if errors_Is err "sandbox.ErrInvalidRequest" then writeErrorStatus w 400 (error_text err)
  else writeErrorStatus w 500 (error_text err).

Definition writeEvidenceError (w : Response) (err : error) : Response :=
  if errors_Is err "repository.ErrNotFound" || Contains (error_text err) "not found"
  then writeErrorStatus w 404 (error_text err)
  else if Contains (error_text err) "required" || Contains (error_text err) "already exists"
  then writeErrorStatus w 400 (error_text err)
  else writeErrorStatus w 500 (error_text err).

Definition writeModelExecutionError (w : Response) (err : error) : Response :=
  if errors_Is err "repository.ErrNotFound" || Contains (error_text err) "not found"
  then writeErrorStatus w 404 (error_text err)
  else if Contains (error_text err) "does not have a route decision" then writeErrorStatus w 409 (error_text err)
  else match errors_AsProvider err with
  | Some (_, _, true) => writeErrorStatus w 503 (error_text err)
  | _ => writeErrorStatus w 500 (error_text err)
  end.

Definition methodNotAllowed (w : Response) (methods : list string) : Response :=
  writeErrorStatus (set_header w "Allow" (Authorization.Join methods ", ")) 405 "method not allowed".

(** Calls are made under the request's context. *)
Abbreviation call r c := (ask (At (Req_Principal r) c)).

(** [if err != nil { fail(w, err); return }; writeJSON(w, status, value)]. *)
Definition answer {A} (w : Response) (fail : Response → error → Response) (status : Z) (value : A → Value)
    (p : prog Ev (result A)) : prog Ev Response :=
  got ← p;
  Ret (match got with Ok a => writeValue w status (value a) | Err e => fail w e end).

(** [if err := decodeJSON(r, &target); err != nil { 400 }]. *)
Definition decoded {A} (w : Response) (target : result A) (k : A → prog Ev Response) : prog Ev Response :=
  match target with Ok a => k a | Err e => Ret (writeErrorStatus w 400 (error_text e)) end.

(** ** server.go: the resources *)

Definition healthz : Handler := λ _ w, Ret (writeValue w 200 (VStatus "ok")).
Definition readyz : Handler := λ _ w, Ret (writeValue w 200 (VStatus "ready")).

Definition models : Handler := λ r w,
  if Req_Method r ==? MethodGet then answer w writeError 200 VModels (call r ListModels)
  else if Req_Method r ==? MethodPost then
    decoded w (decode_model C (Req_Body r)) (λ m,
    if (Model_ID m ==? "") || (Model_Name m ==? "") || (Model_Provider m ==? "")
    then Ret (writeErrorStatus w 400 "id, name and provider are required")
    else answer w writeError 201 VModel (call r (CreateModel m)))
  else Ret (methodNotAllowed w [MethodGet; MethodPost]).

Definition modelByID : Handler := λ r w,
  let id := TrimPrefix (Req_Path r) "/api/v1/models/" in
  if (id ==? "") || Contains id "/" then Ret (writeErrorStatus w 400 "model id is required")
  else if Req_Method r ==? MethodGet then answer w writeError 200 VModel (call r (GetModel id))
  else if Req_Method r ==? MethodPut then
    decoded w (decode_model C (Req_Body r)) (λ m,
    if (Model_Name m ==? "") || (Model_Provider m ==? "")
    then Ret (writeErrorStatus w 400 "name and provider are required")
    else answer w writeError 200 VModel (call r (UpdateModel (ControlEvidence.set_ID m id))))
  else Ret (methodNotAllowed w [MethodGet; MethodPut]).

Definition tools : Handler := λ r w,
  if Req_Method r !=? MethodGet then Ret (methodNotAllowed w [MethodGet])
  else answer w writeError 200 VTools (call r ListTools).

(** Only its GET branch is reached: [FullHandler] takes the POST. *)
Definition tasks : Handler := λ r w,
  if Req_Method r ==? MethodGet then answer w writeError 200 VTasks (call r ListTasks)
  else if Req_Method r ==? MethodPost then
    decoded w (decode_create C (Req_Body r)) (λ req,
    if blank (cr_Input req) then Ret (writeErrorStatus w 400 "input is required") else
    '(task, err) ← call r (CreateTask (cr_Input req) (cr_AgentID req));
    Ret (match err with Some e => writeError w e | None => writeValue w 202 (VTask task) end))
  else Ret (methodNotAllowed w [MethodGet; MethodPost]).

Definition executeTool (taskID toolID : string) : Handler := λ r w,
  if Req_Method r !=? MethodPost then Ret (methodNotAllowed w [MethodPost])
  else if toolID ==? "" then Ret (writeErrorStatus w 400 "tool id is required")
  else decoded w (decode_tool C (Req_Body r)) (λ req,
    if blank (tb_Action req) then Ret (writeErrorStatus w 400 "action is required") else
    '(result, err) ← call r (ExecuteTool taskID (tool_call toolID req));
    Ret (match err with Some e => writeToolError w e | None => writeValue w 201 (VToolResult result) end)).

(** Not reached: [commandAwareTaskMutations] takes the POST. *)
Definition routeTask (taskID : string) : Handler := λ r w,
  if Req_Method r !=? MethodPost then Ret (methodNotAllowed w [MethodPost])
  else decoded w (decode_route C (Req_Body r)) (λ req,
    '(decision, err) ← call r (DecideRoute (router_request taskID req));
    Ret (match err with
         | Some e => if Contains (error_text e) "no policy-compliant model capacity"
                     then writeErrorStatus w 503 (error_text e) else writeError w e
         | None => writeValue w 201 (VDecision decision)
         end)).

(** A subresource that is only read. *)
Definition listing {A} (c : Call (result A)) (value : A → Value) : Handler := λ r w,
  if Req_Method r !=? MethodGet then Ret (methodNotAllowed w [MethodGet])
  else answer w writeError 200 value (call r c).

Definition taskResource : Handler := λ r w,
  match Split (Trim (TrimPrefix (Req_Path r) "/api/v1/tasks/") "/") "/" with
  | [] => Ret (writeErrorStatus w 400 "task id is required")
  | taskID :: rest =>
      if taskID ==? "" then Ret (writeErrorStatus w 400 "task id is required") else
      match rest with
      | [] => listing (GetTask taskID) VTask r w
      | [name] =>
          if name ==? "route" then routeTask taskID r w
          else if name ==? "routes" then listing (ListRouteDecisions taskID) VDecisions r w
          else if name ==? "costs" then listing (ListCostEvents taskID) VCosts r w
          else if name ==? "audit" then listing (ListToolAudit taskID) VAudit r w
          else Ret (writeErrorStatus w 404 "task resource not found")
      | [name; tool] =>
          if name ==? "tools" then executeTool taskID tool r w
          else Ret (writeErrorStatus w 404 "task resource not found")
      | _ => Ret (writeErrorStatus w 404 "task resource not found")
      end
  end.

(** ** task_commands.go and route_commands.go *)

Definition digest (body : result string) : result string :=
  match body with Ok b => Ok ("sha256:" +:+ hex (sha256 C b)) | Err e => Err e end.

Definition metadata (r : Request) (key d : string) : CommandMetadata :=
  mkCommandMetadata key d (TrimSpace (Get (Req_Header r) "X-Request-ID")).

(** The headers of a replayed answer. *)
Definition replayed (w : Response) (b : bool) : Response := if b then set_header w "Idempotency-Replayed" "true" else w.

(** The two idempotency errors, before what else [other] makes of an error. *)
Definition commandError (w : Response) (e : error) (other : Response) : Response :=
  if errors_Is e "ErrIdempotencyConflict" then writeErrorStatus w 409 "IDEMPOTENCY_CONFLICT"
  else if errors_Is e "ErrIdempotencyInProgress" then writeErrorStatus w 409 "IDEMPOTENCY_IN_PROGRESS"
  else other.

(** The idempotency key, the body and its digest, in that order. *)
Definition command {A} (r : Request) (w : Response) (body : result A) (check : A → option string) (bytes_of : A → result string)
    (k : A → CommandMetadata → prog Ev Response) : prog Ev Response :=
  let key := TrimSpace (Get (Req_Header r) idempotencyKeyHeader) in
  if key ==? "" then Ret (writeErrorStatus w 400 "Idempotency-Key is required") else
  decoded w body (λ req,
  match check req with
  | Some message => Ret (writeErrorStatus w 400 message)
  | None => decoded w (digest (bytes_of req)) (λ d, k req (metadata r key d))
  end).

Definition taskCollectionCommandAware : Handler := λ r w,
  if Req_Method r !=? MethodPost then tasks r w else
  command r w (decode_create C (Req_Body r)) (λ req, if blank (cr_Input req) then Some "input is required" else None)
    (marshal_create C) (λ req m,
  '(result, err) ← call r (CreateTaskIdempotent (cr_Input req) (cr_AgentID req) m);
  Ret (match err with
       | Some e => commandError w e (writeError w e)
       | None => writeValue (replayed w (TaskResult_Replayed result)) 202 (VTask (TaskResult_Task result))
       end)).

Definition routeCommandTaskID (path : string) : option string :=
  if negb (HasPrefix path "/api/v1/tasks/") then None
  else match Split (Trim (TrimPrefix path "/api/v1/tasks/") "/") "/" with
  | [taskID; name] => if (taskID ==? "") || (name !=? "route") then None else Some taskID
  | _ => None
  end.

Definition routeTaskCommandAware (taskID : string) : Handler := λ r w,
  command r w (decode_route C (Req_Body r)) (λ _, None) (marshal_route C taskID) (λ req m,
  '(result, err) ← call r (DecideRouteIdempotent (router_request taskID req) m);
  Ret (match err with
       | Some e =>
           commandError w e
             (if Contains (error_text e) "no policy-compliant model capacity" then writeErrorStatus w 503 (error_text e)
              else if errors_Is e "ErrInvalidTaskTransition" then writeErrorStatus w 409 (error_text e)
              else writeError w e)
       | None => writeValue (replayed w (RouteCommand_Replayed result)) 201 (VDecision (RouteCommand_Decision result))
       end)).

Definition commandAwareTaskMutations (next : Handler) : Handler := λ r w,
  if Req_Method r ==? MethodPost then
    match routeCommandTaskID (Req_Path r) with
    | Some taskID => routeTaskCommandAware taskID r w
    | None => next r w
    end
  else next r w.

(** ** evidence_handlers.go *)

Definition modelAdmission (modelID : string) : Handler := λ r w,
  if modelID ==? "" then Ret (writeErrorStatus w 400 "model id is required")
  else if Req_Method r ==? MethodGet then
    evidence ← call r (ListAdmissionEvidence modelID);
    match evidence with
    | Err e => Ret (writeEvidenceError w e)
    | Ok evidence =>
        answer w writeEvidenceError 200 (λ d, VAdmission d evidence) (call r (CheckModelAdmission modelID))
    end
  else if Req_Method r ==? MethodPost then
    decoded w (decode_evidence C (Req_Body r)) (λ e,
    answer w writeEvidenceError 201 VEvidence (call r (AppendAdmissionEvidence modelID e)))
  else Ret (methodNotAllowed w [MethodGet; MethodPost]).

Definition executeModel (taskID : string) : Handler := λ r w,
  if taskID ==? "" then Ret (writeErrorStatus w 400 "task id is required") else
  command r w (decode_provider C (Req_Body r))
    (λ req, match validateModelExecutionRequest req with Err e => Some (error_text e) | Ok _ => None end)
    (λ req, marshal_model C taskID (set_request_id req "")) (λ req m,
  '(result, err) ← call r (ExecuteModelIdempotent taskID req m);
  let w := replayed w (ModelCommand_Replayed result) in
  Ret (match err with
       | Some e =>
           commandError w e
             (if errors_Is e "ErrInvalidTaskTransition" then writeErrorStatus w 409 (error_text e)
              else writeModelExecutionError w e)
       | None => writeValue w 200 (VModelResult (ModelCommand_Result result))
       end)).

Definition taskTrace (taskID : string) : Handler := λ r w,
  answer w writeEvidenceError 200 VTrace (call r (ListTrace taskID)).

Definition taskEvaluations (taskID : string) : Handler := λ r w,
  if taskID ==? "" then Ret (writeErrorStatus w 400 "task id is required")
  else if Req_Method r ==? MethodGet then
    answer w writeEvidenceError 200 VRuns (call r (ListEvaluations taskID))
  else if Req_Method r ==? MethodPost then
    decoded w (decode_evaluation C (Req_Body r)) (λ req,
    answer w writeEvidenceError 201 VRun
      (call r (CreateEvaluation taskID (eb_Config req) (eb_Metrics req) (eb_Thresholds req) (eb_RawOutput req))))
  else Ret (methodNotAllowed w [MethodGet; MethodPost]).

(** ** task_scope_guard.go *)

(** The task id the guard looks up: the first segment, up to a colon. *)
Definition guardID (segment : string) : string :=
  if Contains segment ":" then default "" (head (Split segment ":")) else segment.

Definition taskScopeGuard (next : Handler) : Handler := λ r w,
  if negb (HasPrefix (Req_Path r) "/api/v1/tasks/") then next r w else
  let path := Trim (TrimPrefix (Req_Path r) "/api/v1/tasks/") "/" in
  if path ==? "" then next r w else
  let taskID := guardID (default "" (head (Split path "/"))) in
  if taskID ==? "" then next r w else
  got ← call r (GetTask taskID);
  match got with
  | Err e => Ret (writeError w e)
  | Ok _ => next r w
  end.

(** ** Dispatch: [http.ServeMux] with the patterns of full_handler.go and server.go *)

(** [url.PathUnescape]; a segment that is not well escaped stays as it is. *)
Definition hex_value (a : ascii) : option N :=
  (if is_digit a then Some (code a - 48) else if in_range 97 102 a then Some (code a - 87)
   else if in_range 65 70 a then Some (code a - 55) else None)%N.

Fixpoint unescape (l : list ascii) : option (list ascii) :=
  match l with
  | [] => Some []
  | a :: l =>
      if a ==? "%"%char then
        match l with
        | x :: y :: l => hx ← hex_value x; hy ← hex_value y; rest ← unescape l; Some (ascii_of_N (hx * 16 + hy) :: rest)
        | _ => None
        end
      else rest ← unescape l; Some (a :: rest)
  end.
Definition pathUnescape (s : string) : string :=
  match unescape (bytes s) with Some l => of_bytes l | None => s end.

(** The segments of a path, unescaped; "/" stands for a trailing slash. *)
Fixpoint mux_segments (parts : list string) : list string :=
  match parts with
  | [] => []
  | [last] => if last ==? "" then ["/"] else [pathUnescape last]
  | part :: parts => pathUnescape part :: mux_segments parts
  end.
Definition segments (path : string) : list string :=
  match path with EmptyString => [] | String _ rest => mux_segments (Split rest "/") end.

(** [cleanPath] of net/http. *)
Definition cleanPath (p : string) : string :=
  if p ==? "" then "/" else
  let p := if HasPrefix p "/" then p else "/" +:+ p in
  let np := Clean p in
  if HasSuffix p "/" && (np !=? "/") then np +:+ "/" else np.

Inductive Target : Type :=
| TAdmission (id : string)
| TModel (id : string)
| TTrace (id : string)
| TEvaluations (id : string)
| TTaskCollection
| TOther.

Definition is_get (method : string) : bool := (method ==? MethodGet) || (method ==? "HEAD").

(** The patterns of [FullHandler]: those with a method first, then the exact
    collection, then everything else. *)
Definition outer (method : string) (segs : list string) : Target :=
  match segs with
  | [api; v1; collection; id; name] =>
      if (api !=? "api") || (v1 !=? "v1") || (id ==? "/") then TOther
      else if (collection ==? "models") && (name ==? "admission") && (is_get method || (method ==? MethodPost)) then TAdmission id
      else if collection !=? "tasks" then TOther
      else if (name ==? "model") && (method ==? MethodPost) then TModel id
      else if (name ==? "trace") && is_get method then TTrace id
      else if (name ==? "evaluations") && (is_get method || (method ==? MethodPost)) then TEvaluations id
      else TOther
  | [api; v1; collection] =>
      if (api ==? "api") && (v1 ==? "v1") && (collection ==? "tasks") then TTaskCollection else TOther
  | _ => TOther
  end.

(** [http.NotFound]. *)
Definition notFound (w : Response) : Response :=
  Write (WriteHeader (set_header (set_header w "Content-Type" "text/plain; charset=utf-8") "X-Content-Type-Options" "nosniff") 404)
    ("404 page not found" +:+ String (ascii_of_N 10) EmptyString).

(** [Server.Handler]. *)
Definition inner : Handler := λ r w,
  match segments (Req_EscapedPath r) with
  | [one] => if one ==? "healthz" then healthz r w else if one ==? "readyz" then readyz r w else Ret (notFound w)
  | [api; v1; collection] =>
      if (api !=? "api") || (v1 !=? "v1") then Ret (notFound w)
      else if collection ==? "models" then models r w
      else if collection ==? "tools" then tools r w
      else if collection ==? "tasks" then tasks r w
      else Ret (notFound w)
  | api :: v1 :: collection :: _ =>
      if (api !=? "api") || (v1 !=? "v1") then Ret (notFound w)
      else if collection ==? "models" then modelByID r w
      else if collection ==? "tasks" then taskResource r w
      else Ret (notFound w)
  | _ => Ret (notFound w)
  end.

(** What [http.RedirectHandler] answers for the clean path. *)
Variable moved : Request → string → Response → Response.

Definition mux : Handler := λ r w,
  let escaped := Req_EscapedPath r in
  let path := if Req_Method r ==? "CONNECT" then escaped else cleanPath escaped in
  if path !=? escaped then Ret (moved r path w) else
  match outer (Req_Method r) (segments escaped) with
  | TAdmission id => modelAdmission id r w
  | TModel id => executeModel id r w
  | TTrace id => taskTrace id r w
  | TEvaluations id => taskEvaluations id r w
  | TTaskCollection => taskCollectionCommandAware r w
  | TOther => inner r w
  end.

(** ** full_handler.go *)

Variable enc_error : APIError → string.
Variable pages : Pages.Codec.

Definition FullHandler : Handler :=
  WithRequestMetadata rand
    (Pages.WithAPIResponseContract rand enc_error error_text pages
       (taskScopeGuard (commandAwareTaskMutations mux))).
End handlers.
End Handlers.
