(* ===== verification/HandlersSpec.v ===== *)
(** * HandlersSpec: the operation a request performs is the one it was authorized for

    The access table ([AccessSpec.route]) and the dispatch of [FullHandler] read
    the path separately.  Here the two are proved to agree: [needs] is the action
    and the resource of each operation of the control plane, and every operation
    that a request reaches is the one the table names for it, made under the
    principal of the request and, on a task, after that task was found in its
    scope. *)
From S2P Require Import Prelude Identity Domain Admission RouteTypes GoStrings GoText Programs ModelTypes ControlPlane ActivitySpec.
From S2P Require Import Authn AuthnSystem Authorization Http Access Boundary Pages ToolGateway Evaluation ControlEvidence Handlers.

Module HandlersSpec.
Import Http Access AccessSpec Handlers.

(** ** What an operation needs *)

Definition Need : Type := Authorization.Action * (Identity.Principal → Authorization.Resource).

(** The two operations without idempotency are not offered at all. *)
Definition needs {X} (c : Call X) : option Need :=
  match c with
  | ListModels => Some (Authorization.ActionModelRead, tenant "model" "")
  | CreateModel _ => Some (Authorization.ActionModelWrite, tenant "model" "")
  | GetModel id => Some (Authorization.ActionModelRead, tenant "model" id)
  | UpdateModel m => Some (Authorization.ActionModelWrite, tenant "model" (Domain.Model_ID m))
  | ListAdmissionEvidence id | CheckModelAdmission id =>
      Some (Authorization.ActionModelAdmissionRead, tenant "model_admission" id)
  | AppendAdmissionEvidence id _ => Some (Authorization.ActionModelAdmissionWrite, tenant "model_admission" id)
  | ListTools => Some (Authorization.ActionToolRead, tenant "tool" "")
  | ListTasks => Some (Authorization.ActionTaskRead, project "task" "" ∅)
  | CreateTaskIdempotent _ _ _ => Some (Authorization.ActionTaskCreate, project "task" "" ∅)
  | GetTask id => Some (Authorization.ActionTaskRead, project "task" id ∅)
  | DecideRouteIdempotent r _ => Some (Authorization.ActionTaskRoute, project "task" (RouteTypes.Req_TaskID r) ∅)
  | ExecuteModelIdempotent id _ _ => Some (Authorization.ActionTaskModelExecute, project "task" id ∅)
  | ExecuteTool id r =>
      Some (Authorization.ActionToolExecute,
            project "tool" (ToolGateway.ToolID r) {[ "task_id" := id ]})
  | ListRouteDecisions id => Some (Authorization.ActionTaskRouteRead, project "task" id ∅)
  | ListCostEvents id => Some (Authorization.ActionTaskCostRead, project "task" id ∅)
  | ListToolAudit id => Some (Authorization.ActionTaskAuditRead, project "task" id ∅)
  | ListTrace id => Some (Authorization.ActionTaskTraceRead, project "task" id ∅)
  | ListEvaluations id => Some (Authorization.ActionTaskEvaluationRead, project "task" id ∅)
  | CreateEvaluation id _ _ _ _ => Some (Authorization.ActionTaskEvaluationWrite, project "task" id ∅)
  | CreateTask _ _ | DecideRoute _ | Random => None
  end.

(** The scope guard's own look-up of the task segment. *)
Definition lookup (rest : list string) {X} (c : Call X) : Prop :=
  match c with
  | GetTask id => ∃ segment more, rest = "tasks" :: segment :: more ∧ id = guardID segment
  | _ => False
  end.

Lemma lookup_nil {X} (c : Call X) : ¬ lookup [] c.
Proof. intros H. destruct c; try exact H. by destruct H as (segment & more & Hr & _). Qed.

Definition random {X} (c : Call X) : Prop := match c with Random => True | _ => False end.

(** A task segment without a colon was found under [p]. *)
Definition guarded (p : option Identity.Principal) (rest : list string) (h : list (exchange Ev)) : Prop :=
  ∀ segment more, rest = "tasks" :: segment :: more → Contains segment ":" = false →
  ∃ task, Asked (At p (GetTask segment)) (Ok task) ∈ h.

Definition allowed (p : option Identity.Principal) (rest : list string) (need : option Need) {X}
    (h : list (exchange Ev)) (e : Ev X) : Prop :=
  let '(At ctx c) := e in
  random c ∨ ctx = p ∧ (lookup rest c ∨ needs c = need ∧ need ≠ None ∧ guarded p rest h).

(** What [net/url] guarantees of a request's paths when no escape stands for a
    slash: decoding the segments one by one is decoding the path. *)
Record wellformed (r : Request) : Prop := {
  rooted : HasPrefix (Req_Path r) "/" = true;
  decoded_parts : Split (Req_Path r) "/" = pathUnescape <$> Split (Req_EscapedPath r) "/"
}.

(** ** The segments the router sees *)

Fixpoint mark (parts : list string) : list string :=
  match parts with
  | [] => []
  | [last] => if last ==? "" then ["/"] else [last]
  | part :: parts => part :: mark parts
  end.

Lemma unescape_ne a l l' : unescape (a :: l) = Some l' → l' ≠ [].
Proof.
  simpl. case_bool_decide.
  - destruct l as [|x [|y l]]; [done..|]. destruct (hex_value x), (hex_value y), (unescape l); simpl; by intros [= <-].
  - destruct (unescape l); simpl; by intros [= <-].
Qed.

Lemma pathUnescape_empty s : pathUnescape s = "" ↔ s = "".
Proof.
  split; [|by intros ->]. unfold pathUnescape. destruct s as [|a s]; [done|].
  destruct (unescape (bytes (String a s))) as [l|] eqn:Hu; [|done]. apply unescape_ne in Hu.
  intros Hl. apply (f_equal bytes) in Hl. by rewrite bytes_of_bytes in Hl.
Qed.

Lemma mux_segments_mark parts : mux_segments parts = mark (pathUnescape <$> parts).
Proof.
  induction parts as [|part [|part' parts] IH]; simpl; [done| |by f_equal].
  destruct (decide (part = "")) as [->|Hne]; [done|].
  by rewrite !bool_decide_false by (try done; by rewrite pathUnescape_empty).
Qed.

Lemma segments_parts r parts : wellformed r → Split (Req_Path r) "/" = "" :: parts → parts ≠ [] →
  segments (Req_EscapedPath r) = mark parts.
Proof.
  intros [_ Hd] Hs Hne. rewrite Hs in Hd. pose proof (Paths.Split_join "/" (Req_EscapedPath r)) as [Hj _].
  destruct (Split (Req_EscapedPath r) "/") as [|x xs] eqn:Hx; [done|]. simpl in Hd. injection Hd as Hx0 Hxs.
  symmetry in Hx0. apply pathUnescape_empty in Hx0 as ->.
  assert (xs ≠ []) as Hxne by (intros ->; by subst).
  rewrite Paths.join_cons in Hj by done. simpl in Hj.
  destruct (Req_EscapedPath r) as [|a rest]; [done|]. injection Hj as <- Hrest. simpl.
  rewrite mux_segments_mark, Hxs. f_equal. unfold Split in Hx. simpl in Hx. injection Hx as Hx.
  unfold Split. by rewrite Hx.
Qed.

(** The path of a request whose parts are known: one slash before them, any
    number after. *)
Lemma path_shape r rest : HasPrefix (Req_Path r) "/api/" = true → pathParts (Req_Path r) = "api" :: "v1" :: rest →
  Forall (Paths.solid "/") rest
  ∧ ∃ j, bytes (Req_Path r) = "/"%char :: Paths.join "/" ("api" :: "v1" :: rest) ++ replicate j "/"%char.
Proof.
  unfold pathParts. intros Hp Hparts.
  pose proof (Paths.Split_join "/" (Trim (Req_Path r) "/")) as [Hj Hsolid]. rewrite Hparts in Hj, Hsolid.
  split; [by do 2 apply Forall_cons in Hsolid as [_ Hsolid]|].
  destruct (Paths.Trim_seps "/" (Req_Path r)) as (i & j & Hb). rewrite <- Hj in Hb. exists j. rewrite Hb.
  apply starts_with_spec in Hp as [q Hq]. rewrite Hb in Hq. rewrite Paths.join_cons in Hq by done.
  destruct i as [|[|i]]; [done|done|done].
Qed.

Lemma path_split r rest j : Forall (Paths.solid "/") rest →
  bytes (Req_Path r) = "/"%char :: Paths.join "/" ("api" :: "v1" :: rest) ++ replicate j "/"%char →
  Split (Req_Path r) "/" = "" :: ("api" :: "v1" :: rest) ++ replicate j "".
Proof.
  intros Hs Hb. unfold Split. rewrite Hb.
  trans ("" :: split_byte "/" [] (Paths.join "/" ("api" :: "v1" :: rest) ++ replicate j "/"%char)); [done|].
  f_equal. apply (Paths.split_join "/"); [done|].
  assert (Paths.solid "/" "api" ∧ Paths.solid "/" "v1") as [H1 H2] by (unfold Paths.solid; split; set_solver).
  by repeat constructor.
Qed.

(** ** The handlers *)

Section handlers.
Variable C : Handlers.Codec.
Variable error_text : error → string.
Variable moved : Request → string → Response → Response.
Variable enc_error : APIError → string.
Variable pages : Pages.Codec.

Section request.
Variable p : option Identity.Principal.
Variable rest : list string.
Variable need : option Need.

Abbreviation ok h c := (allowed p rest need h (At p c)).
Abbreviation safe h prog := (wp (@allowed p rest need) h prog (λ _ _, True)).

Lemma answer_safe {A} h w fail status (value : A → Value) (c : Call (result A)) :
  ok h c → safe h (answer C w fail status value (ask (At p c))).
Proof. intros Hc. apply wp_Do; done. Qed.

Lemma decoded_safe {A} h w (target : result A) k : (∀ a, safe h (k a)) → safe h (decoded C error_text w target k).
Proof. intros Hk. by destruct target; [apply Hk|]. Qed.

Lemma command_safe {A} h r w (body : result A) check bytes_of k :
  (∀ a m, safe h (k a m)) → safe h (command C error_text r w body check bytes_of k).
Proof.
  intros Hk. unfold command. case_bool_decide; [done|]. apply decoded_safe. intros a. destruct (check a); [done|].
  apply decoded_safe. intros d. apply Hk.
Qed.

(** A call whose answer is only written. *)
Lemma call_safe {X} h (c : Call X) (k : X → Response) : ok h c → safe h (x ← ask (At p c); Ret (k x)).
Proof. intros Hc. apply wp_Do; done. Qed.
Lemma call_pair_safe {X Y} h (c : Call (X * Y)) (k : X → Y → Response) :
  ok h c → safe h ('(x, y) ← ask (At p c); Ret (k x y)).
Proof. intros Hc. apply wp_Do; [done|]. by intros [x y]. Qed.

Lemma random_safe h (k : option string → prog Ev Response) :
  (∀ h raw, safe h (k raw)) → safe h (raw ← rand; k raw).
Proof. intros Hk. apply wp_Do; [by left|]. intros raw. apply Hk. Qed.

(** ** The wrappers around the handlers add no call *)

Lemma ensured_safe h w header prefix (k : string * Response → prog Ev Response) :
  (∀ h a, safe h (k a)) → safe h (ensureID rand w header prefix ≫= k).
Proof.
  intros Hk. unfold ensureID. case_bool_decide; [|apply Hk]. apply wp_Do; [by left|]. intros raw. apply Hk.
Qed.

Lemma chosen_safe h value r header prefix (k : string → prog Ev Response) :
  (∀ h a, safe h (k a)) → safe h (chooseID rand value r header prefix ≫= k).
Proof.
  intros Hk. unfold chooseID. generalize (if value ==? "" then normalizeCorrelationID (Get (Req_Header r) header) else value).
  intros x. case_bool_decide; [|apply Hk]. apply wp_Do; [by left|]. intros raw. apply Hk.
Qed.

Lemma envelope_safe h w status code message retryable :
  safe h (writeAPIError rand enc_error w status code message retryable).
Proof. apply ensured_safe. intros h1 [id w1]. apply ensured_safe. by intros h2 [trace w2]. Qed.

Lemma contract_safe next r w h : safe h (next r fresh) →
  safe h (Pages.WithAPIResponseContract rand enc_error error_text pages next r w).
Proof.
  intros Hn. unfold Pages.WithAPIResponseContract. destruct (Pages.paginationRequest r) as [spec|e]; [|apply envelope_safe].
  apply wp_bind. eapply wp_mono; [|exact Hn]. intros h1 buffered _. cbv beta zeta.
  destruct (if (400 <=? _)%Z then _ else _) as [[[code message] retryable]|]; [apply envelope_safe|].
  destruct spec as [spec|]; [|done]. destruct (_ && _)%bool; [|done].
  destruct (Pages.paginateJSON _ _ _) as [body|e]; [done|]. destruct (errors_Is e _); apply envelope_safe.
Qed.

(** ** The scope guard *)

Abbreviation tail r := (Split (Trim (TrimPrefix (Req_Path r) "/api/v1/tasks/") "/") "/").

Lemma guard_safe next r w h id more : Req_Principal r = p → rest = "tasks" :: id :: more → id ≠ "" →
  HasPrefix (Req_Path r) "/api/v1/tasks/" = true → tail r = id :: more →
  (∀ h, guarded p rest h → safe h (next r w)) → safe h (taskScopeGuard C error_text next r w).
Proof.
  intros Hp Hrest Hid Hpre Htail Hnext. unfold taskScopeGuard. rewrite Hpre. cbn [negb].
  destruct (decide (Trim (TrimPrefix (Req_Path r) "/api/v1/tasks/") "/" = "")) as [He|He].
  { rewrite He in Htail. by injection Htail as <-. }
  rewrite bool_decide_false by done. rewrite Htail.
  change (default "" (head (id :: more))) with id. unfold guardID.
  destruct (Contains id ":") eqn:Hc.
  - assert (∀ h, guarded p rest h) as Hg.
    { intros h' segment more' Hr. rewrite Hrest in Hr. injection Hr as <- <-. by rewrite Hc. }
    case_bool_decide; [by apply Hnext|]. rewrite Hp. apply wp_Do; [|intros [task|e]; [by apply Hnext|done]].
    right. split; [done|]. left. exists id, more. unfold guardID. by rewrite Hc.
  - rewrite bool_decide_false by done. rewrite Hp. apply wp_Do.
    { right. split; [done|]. left. exists id, more. unfold guardID. by rewrite Hc. }
    intros [task|e]; [|done]. apply Hnext. intros segment more' Hr _. rewrite Hrest in Hr. injection Hr as <- <-.
    exists task. apply elem_of_app. right. apply list_elem_of_here.
Qed.

(** The guard and the route command pass every other path on. *)
Lemma pass_safe r w h : tail r = [""] ∨ HasPrefix (Req_Path r) "/api/v1/tasks/" = false →
  safe h (mux C error_text moved r w) →
  safe h (taskScopeGuard C error_text (commandAwareTaskMutations C error_text (mux C error_text moved)) r w).
Proof.
  intros Hpath Hm. assert (safe h (commandAwareTaskMutations C error_text (mux C error_text moved) r w)) as Hn.
  { unfold commandAwareTaskMutations, routeCommandTaskID. case_bool_decide; [|done].
    destruct (HasPrefix _ _) eqn:Hpre; [|done]. destruct Hpath as [->|]; [done|congruence]. }
  unfold taskScopeGuard. destruct (HasPrefix _ _) eqn:Hpre; [|done]. destruct Hpath as [Ht|]; [|congruence]. cbn [negb].
  case_bool_decide; [done|]. rewrite Ht. done.
Qed.

(** ** Where the router sends a request *)

Lemma mark_slashes parts j : mark (parts ++ replicate (S j) "") = parts ++ replicate j "" ++ ["/"].
Proof.
  assert (∀ j, mark (replicate (S j) "") = replicate j "" ++ ["/"]) as H0.
  { intros i. induction i as [|i IH]; [done|]. simpl replicate in IH |- *. simpl mark in IH |- *. by rewrite IH. }
  induction parts as [|part parts IH]; [apply H0|]. simpl app in IH |- *. rewrite <- IH.
  destruct (parts ++ "" :: replicate j "") eqn:E; [|done]. by destruct parts.
Qed.

(** Every pattern with a method, and the collection, end in a word. *)
Lemma outer_slash method segs : last segs = Some "/" → outer method segs = TOther.
Proof.
  destruct segs as [|a [|b [|c [|d [|e [|f segs]]]]]]; try done; simpl; intros [= ->].
  - by rewrite andb_false_r.
  - destruct (_ || _ || _)%bool; [done|]. rewrite andb_false_r. by destruct (c !=? "tasks").
Qed.

Lemma mux_inner r w h : outer (Req_Method r) (segments (Req_EscapedPath r)) = TOther →
  safe h (inner C error_text r w) → safe h (mux C error_text moved r w).
Proof. intros Ho Hi. unfold mux. cbv zeta. case_bool_decide; simpl; [|done]. by rewrite Ho. Qed.

Lemma mux_sub r w h collection id name :
  segments (Req_EscapedPath r) = ["api"; "v1"; collection; id; name] →
  (collection = "models" → name = "admission" → safe h (modelAdmission C error_text id r w)) →
  (collection = "tasks" → name = "model" → Req_Method r = MethodPost → safe h (executeModel C error_text id r w)) →
  (collection = "tasks" → name = "trace" → is_get (Req_Method r) = true → safe h (taskTrace C error_text id r w)) →
  (collection = "tasks" → name = "evaluations" → safe h (taskEvaluations C error_text id r w)) →
  safe h (inner C error_text r w) → safe h (mux C error_text moved r w).
Proof.
  intros Hs Ha Hm Ht He Hi. unfold mux. cbv zeta. match goal with |- context [negb ?b] => destruct b end; cbn [negb]; [|done].
  rewrite Hs. unfold outer.
  destruct (_ || _ || _)%bool; [exact Hi|].
  destruct (_ && _ && _)%bool eqn:E1; [apply andb_true_iff in E1 as [[E1 E2]%andb_true_iff _]; go_props; auto|].
  destruct (collection !=? "tasks") eqn:E0; [exact Hi|]. clear E1.
  apply negb_false_iff, bool_decide_eq_true in E0.
  destruct (_ && _)%bool eqn:E2; [apply andb_true_iff in E2 as [? ?]; go_props; auto|]. clear E2.
  destruct ((name ==? "trace") && _)%bool eqn:E3; [apply andb_true_iff in E3 as [? ?]; go_props; auto|]. clear E3.
  destruct (_ && _)%bool eqn:E4; [apply andb_true_iff in E4 as [? ?]; go_props; auto|exact Hi].
Qed.

Lemma inner_more r w collection x l : segments (Req_EscapedPath r) = "api" :: "v1" :: collection :: x :: l →
  inner C error_text r w = if collection ==? "models" then modelByID C error_text r w
                           else if collection ==? "tasks" then taskResource C error_text r w else Ret (notFound w).
Proof. intros Hs. unfold inner. by rewrite Hs. Qed.

(** ** Models and tools *)

Lemma models_safe r w h : Req_Principal r = p →
  (Req_Method r = MethodGet → ok h ListModels) → (Req_Method r = MethodPost → ∀ m, ok h (CreateModel m)) →
  safe h (models C error_text r w).
Proof.
  intros Hp Hget Hpost. unfold models. rewrite Hp. case_bool_decide; [apply answer_safe; auto|].
  case_bool_decide; [|done]. apply decoded_safe. intros m. destruct (_ || _ || _)%bool; [done|]. apply answer_safe. auto.
Qed.

Lemma modelByID_safe r w h id : Req_Principal r = p → Req_Path r = "/api/v1/models/" +:+ id →
  (Paths.solid "/" id → id ≠ "" → Req_Method r = MethodGet → ok h (GetModel id)) →
  (Paths.solid "/" id → id ≠ "" → Req_Method r = MethodPut → ∀ m, Domain.Model_ID m = id → ok h (UpdateModel m)) →
  safe h (modelByID C error_text r w).
Proof.
  intros Hp Hpath Hget Hput. unfold modelByID. rewrite Hpath, TrimPrefix_app, Hp. cbv zeta.
  case_bool_decide; [done|]. destruct (Contains id "/") eqn:Hc; [done|]. cbn [orb].
  assert (Paths.solid "/" id) as Hs.
  { intros (l1 & l2 & Hl)%list_elem_of_split. apply not_true_iff_false in Hc. apply Hc, contains_spec. by exists l1, l2. }
  case_bool_decide; [by apply answer_safe, Hget|]. case_bool_decide; [|done]. apply decoded_safe. intros m.
  destruct (_ || _)%bool; [done|]. apply answer_safe. by apply Hput.
Qed.

Lemma tools_safe r w h : Req_Principal r = p → (Req_Method r = MethodGet → ok h ListTools) → safe h (tools C error_text r w).
Proof. intros Hp Hget. unfold tools. rewrite Hp. case_bool_decide; [apply answer_safe; auto|done]. Qed.

Lemma modelAdmission_safe r w h id : Req_Principal r = p →
  (Req_Method r = MethodGet → ∀ h, ok h (ListAdmissionEvidence id) ∧ ok h (CheckModelAdmission id)) →
  (Req_Method r = MethodPost → ∀ e, ok h (AppendAdmissionEvidence id e)) →
  safe h (modelAdmission C error_text id r w).
Proof.
  intros Hp Hget Hpost. unfold modelAdmission. rewrite Hp. case_bool_decide; [done|]. case_bool_decide.
  - apply wp_Do; [by apply Hget|]. intros [evidence|e]; [|done]. by apply answer_safe, Hget.
  - case_bool_decide; [|done]. apply decoded_safe. intros e. apply answer_safe. auto.
Qed.

(** ** Tasks *)

Lemma collection_safe r w h : Req_Principal r = p →
  (Req_Method r = MethodGet → ok h ListTasks) →
  (Req_Method r = MethodPost → ∀ input agent m, ok h (CreateTaskIdempotent input agent m)) →
  safe h (taskCollectionCommandAware C error_text r w).
Proof.
  intros Hp Hget Hpost. unfold taskCollectionCommandAware. rewrite Hp. case_bool_decide as Hm; cbn [negb].
  - apply command_safe. intros req m. apply call_pair_safe. auto.
  - unfold tasks. rewrite Hp. case_bool_decide; [apply answer_safe; auto|]. by rewrite bool_decide_false.
Qed.

Lemma listing_safe {A} r w h (c : Call (result A)) value : Req_Principal r = p → (Req_Method r = MethodGet → ok h c) →
  safe h (listing C error_text c value r w).
Proof. intros Hp Hget. unfold listing. rewrite Hp. case_bool_decide; [apply answer_safe; auto|done]. Qed.

Lemma executeTool_safe r w h id tool : Req_Principal r = p →
  (Req_Method r = MethodPost → ∀ req, ToolGateway.ToolID req = tool → ok h (ExecuteTool id req)) →
  safe h (executeTool C error_text id tool r w).
Proof.
  intros Hp Hpost. unfold executeTool. rewrite Hp. case_bool_decide; cbn [negb]; [|done]. case_bool_decide; [done|].
  apply decoded_safe. intros req. destruct (blank _); [done|]. apply call_pair_safe. by apply Hpost.
Qed.

Lemma routeCommand_safe r w h id : Req_Principal r = p →
  (∀ req m, RouteTypes.Req_TaskID req = id → ok h (DecideRouteIdempotent req m)) →
  safe h (routeTaskCommandAware C error_text id r w).
Proof.
  intros Hp Hroute. unfold routeTaskCommandAware. rewrite Hp. apply command_safe. intros req m. apply call_pair_safe.
  by apply Hroute.
Qed.

Lemma executeModel_safe r w h id : Req_Principal r = p → (∀ req m, ok h (ExecuteModelIdempotent id req m)) →
  safe h (executeModel C error_text id r w).
Proof.
  intros Hp Hm. unfold executeModel. rewrite Hp. case_bool_decide; [done|]. apply command_safe. intros req m.
  apply (call_pair_safe h (ExecuteModelIdempotent id req m)). apply Hm.
Qed.

Lemma taskEvaluations_safe r w h id : Req_Principal r = p →
  (Req_Method r = MethodGet → ok h (ListEvaluations id)) →
  (Req_Method r = MethodPost → ∀ c m t raw, ok h (CreateEvaluation id c m t raw)) →
  safe h (taskEvaluations C error_text id r w).
Proof.
  intros Hp Hget Hpost. unfold taskEvaluations. rewrite Hp. case_bool_decide; [done|].
  case_bool_decide; [apply answer_safe; auto|]. case_bool_decide; [|done]. apply decoded_safe. intros req.
  apply answer_safe. auto.
Qed.

(** ** The parts of the path, as each reader of it sees them *)

Abbreviation shape r j :=
  (bytes (Req_Path r) = "/"%char :: Paths.join "/" ("api" :: "v1" :: rest) ++ replicate j "/"%char).

Lemma segments_shape r j : wellformed r → Forall (Paths.solid "/") rest → shape r j →
  segments (Req_EscapedPath r) = mark (("api" :: "v1" :: rest) ++ replicate j "").
Proof. intros Hw Hs Hb. eapply segments_parts; [done|by apply path_split|done]. Qed.

Lemma path_after r j collection more : rest = collection :: more → more ≠ [] ∨ j ≠ 0 → shape r j →
  ∃ q, Req_Path r = ("/api/v1/" +:+ collection +:+ "/") +:+ q
     ∧ bytes q = if more is [] then replicate (pred j) "/"%char else Paths.join "/" more ++ replicate j "/"%char.
Proof.
  intros Hrest Hj Hb.
  exists (of_bytes (if more is [] then replicate (pred j) "/"%char else Paths.join "/" more ++ replicate j "/"%char)).
  rewrite bytes_of_bytes. split; [|done]. rewrite <- (of_bytes_bytes (Req_Path r)), Hb, Hrest.
  rewrite <- (of_bytes_bytes (_ +:+ of_bytes _)). f_equal. rewrite !bytes_app, bytes_of_bytes.
  destruct more as [|id more]; [destruct j; [by destruct Hj|]|]; simpl; by rewrite <- !app_assoc.
Qed.

(** A path that goes on after its last part is no model. *)
Lemma modelByID_refuses r w h q : Req_Principal r = p → Req_Path r = "/api/v1/models/" +:+ q → q = "" ∨ "/"%char ∈ bytes q →
  safe h (modelByID C error_text r w).
Proof. intros Hp Hq Hbad. eapply modelByID_safe; [done|exact Hq|..]; intros Hs Hne; by destruct Hbad. Qed.

Lemma not_tasks r j collection more : rest = collection :: more → collection = "models" ∨ collection = "tools" →
  shape r j → HasPrefix (Req_Path r) "/api/v1/tasks/" = false.
Proof.
  intros Hrest Hc Hb. unfold HasPrefix. rewrite Hb, Hrest.
  destruct Hc as [-> | ->], more as [|id more]; [destruct j|..|destruct j|]; reflexivity.
Qed.

Lemma tasks_prefix r j id more : rest = "tasks" :: id :: more → Forall (Paths.solid "/") rest →
  Forall (λ s, s ≠ "") (id :: more) → shape r j →
  HasPrefix (Req_Path r) "/api/v1/tasks/" = true ∧ tail r = id :: more.
Proof.
  intros Hrest Hs Hne Hb. destruct (path_after r j "tasks" (id :: more)) as (q & Hq & Hbq); [done|by left|done|].
  change (("/api/v1/" +:+ "tasks" +:+ "/") +:+ q) with ("/api/v1/tasks/" +:+ q) in Hq.
  rewrite Hq, HasPrefix_app, TrimPrefix_app. split; [done|]. eapply Paths.Trim_join; [done| |exact Hbq].
  rewrite Hrest in Hs. apply Forall_cons in Hs as [_ Hs]. by apply Forall_and.
Qed.

(** ** The requests of the table *)

Ltac decide_strings :=
  repeat (first [rewrite bool_decide_true by (done || congruence)
                |rewrite bool_decide_false by (done || congruence)]; cbn [negb orb andb]).

Section route.
Variables (r : Request) (w : Response) (j : nat).
Hypothesis Hw : wellformed r.
Hypothesis Hp : Req_Principal r = p.
Hypothesis Hsolid : Forall (Paths.solid "/") rest.
Hypothesis Hb : shape r j.

Abbreviation business := (taskScopeGuard C error_text (commandAwareTaskMutations C error_text (mux C error_text moved)) r w).

(** Nothing after the parts, or the fallback: its segments end in a slash. *)
Lemma exact_or_slashes :
  j = 0 ∧ segments (Req_EscapedPath r) = mark ("api" :: "v1" :: rest)
  ∨ j ≠ 0 ∧ (∀ h, safe h (inner C error_text r w) → safe h (mux C error_text moved r w))
    ∧ ∀ collection more, rest = collection :: more →
      ∃ x l, segments (Req_EscapedPath r) = "api" :: "v1" :: collection :: x :: l.
Proof.
  pose proof (segments_shape r j Hw Hsolid Hb) as Hsegs. destruct j as [|i]; [left; by rewrite app_nil_r in Hsegs|right].
  rewrite mark_slashes in Hsegs. split; [done|]. split.
  - intros h Hi. apply mux_inner; [|done]. apply outer_slash. rewrite Hsegs, !last_app. by destruct (last (replicate _ _)).
  - intros collection more Hrest. rewrite Hsegs, Hrest. simpl.
    destruct more as [|x more]; [|by eexists _, _]. destruct i; by eexists _, _.
Qed.

Lemma reach_models h : rest = ["models"] →
  (Req_Method r = MethodGet → ok h ListModels) → (Req_Method r = MethodPost → ∀ m, ok h (CreateModel m)) →
  safe h business.
Proof.
  intros Hrest Hget Hpost. apply pass_safe; [right; eapply not_tasks; [done|by left|exact Hb]|].
  destruct exact_or_slashes as [[_ Hsegs]|(Hj & Hmux & Hsegs)].
  - rewrite Hrest in Hsegs. apply mux_inner; [by rewrite Hsegs|]. unfold inner. rewrite Hsegs. by apply models_safe.
  - apply Hmux. destruct (Hsegs _ _ Hrest) as (x & l & Hl). rewrite (inner_more _ _ _ _ _ Hl). simpl.
    destruct (path_after r j "models" []) as (q & Hq & Hbq); [done|by right|done|].
    apply (modelByID_refuses r w h q); [done|exact Hq|]. destruct (pred j) as [|i]; [left; by destruct q|right].
    rewrite Hbq. apply list_elem_of_here.
Qed.

Lemma reach_model h id : rest = ["models"; id] → id ≠ "" →
  (Req_Method r = MethodGet → ok h (GetModel id)) →
  (Req_Method r = MethodPut → ∀ m, Domain.Model_ID m = id → ok h (UpdateModel m)) → safe h business.
Proof.
  intros Hrest Hid Hget Hput. apply pass_safe; [right; eapply not_tasks; [done|by left|exact Hb]|].
  destruct (path_after r j "models" [id]) as (q & Hq & Hbq); [done|by left|done|].
  destruct exact_or_slashes as [[Hj Hsegs]|(Hj & Hmux & Hsegs)].
  - rewrite Hrest in Hsegs. simpl in Hsegs. rewrite bool_decide_false in Hsegs by done.
    apply mux_inner; [by rewrite Hsegs|]. rewrite (inner_more _ _ _ _ _ Hsegs). simpl.
    assert (q = id) as ->.
    { rewrite <- (of_bytes_bytes q), Hbq, Hj. simpl. by rewrite app_nil_r, of_bytes_bytes. }
    apply (modelByID_safe r w h id); [done|exact Hq|auto..].
  - apply Hmux. destruct (Hsegs _ _ Hrest) as (x & l & Hl). rewrite (inner_more _ _ _ _ _ Hl). simpl.
    apply (modelByID_refuses r w h q); [done|exact Hq|right]. rewrite Hbq. destruct j; [done|].
    apply elem_of_app. right. apply list_elem_of_here.
Qed.

Lemma reach_admission h id : rest = ["models"; id; "admission"] → id ≠ "" →
  (Req_Method r = MethodGet → ∀ h, ok h (ListAdmissionEvidence id) ∧ ok h (CheckModelAdmission id)) →
  (Req_Method r = MethodPost → ∀ e, ok h (AppendAdmissionEvidence id e)) → safe h business.
Proof.
  intros Hrest Hid Hget Hpost. apply pass_safe; [right; eapply not_tasks; [done|by left|exact Hb]|].
  destruct (path_after r j "models" [id; "admission"]) as (q & Hq & Hbq); [done|by left|done|].
  assert (safe h (modelByID C error_text r w)) as Hmodel.
  { apply (modelByID_refuses r w h q); [done|exact Hq|right]. rewrite Hbq. simpl. apply elem_of_app. left.
    apply elem_of_app. right. apply list_elem_of_here. }
  destruct exact_or_slashes as [[Hj Hsegs]|(Hj & Hmux & Hsegs)].
  - rewrite Hrest in Hsegs. simpl in Hsegs.
    eapply mux_sub; [exact Hsegs|intros _ _; by apply modelAdmission_safe|done..|].
    by rewrite (inner_more _ _ _ _ _ Hsegs).
  - apply Hmux. destruct (Hsegs _ _ Hrest) as (x & l & Hl). by rewrite (inner_more _ _ _ _ _ Hl).
Qed.

Lemma reach_tools h : rest = ["tools"] → (Req_Method r = MethodGet → ok h ListTools) → safe h business.
Proof.
  intros Hrest Hget. apply pass_safe; [right; eapply not_tasks; [done|by right|exact Hb]|].
  destruct exact_or_slashes as [[_ Hsegs]|(Hj & Hmux & Hsegs)].
  - rewrite Hrest in Hsegs. apply mux_inner; [by rewrite Hsegs|]. unfold inner. rewrite Hsegs. by apply tools_safe.
  - apply Hmux. destruct (Hsegs _ _ Hrest) as (x & l & Hl). by rewrite (inner_more _ _ _ _ _ Hl).
Qed.

Lemma reach_tasks h : rest = ["tasks"] → (Req_Method r = MethodGet → ok h ListTasks) →
  (Req_Method r = MethodPost → ∀ input agent m, ok h (CreateTaskIdempotent input agent m)) → safe h business.
Proof.
  intros Hrest Hget Hpost. destruct exact_or_slashes as [[Hj Hsegs]|(Hj & Hmux & Hsegs)].
  - apply pass_safe; [right; unfold HasPrefix; by rewrite Hb, Hj, Hrest|]. unfold mux. cbv zeta.
    match goal with |- context [negb ?b] => destruct b end; cbn [negb]; [|done].
    rewrite Hrest in Hsegs. rewrite Hsegs. by apply collection_safe.
  - destruct (path_after r j "tasks" []) as (q & Hq & Hbq); [done|by right|done|].
    change (("/api/v1/" +:+ "tasks" +:+ "/") +:+ q) with ("/api/v1/tasks/" +:+ q) in Hq.
    assert (tail r = [""]) as Htail.
    { rewrite Hq, TrimPrefix_app. unfold Trim. by rewrite Hbq, Paths.trim_char_only. }
    apply pass_safe; [by left|]. apply Hmux. destruct (Hsegs _ _ Hrest) as (x & l & Hl).
    rewrite (inner_more _ _ _ _ _ Hl). simpl. unfold taskResource. by rewrite Htail.
Qed.

(** A task and what is under it. *)
Lemma reach_task h id more : rest = "tasks" :: id :: more → Forall (λ s, s ≠ "") (id :: more) →
  (∀ h, guarded p rest h → Req_Method r = MethodPost → more = ["route"] → safe h (routeTaskCommandAware C error_text id r w)) →
  (∀ h, guarded p rest h → (Req_Method r = MethodPost → more ≠ ["route"]) → safe h (mux C error_text moved r w)) →
  safe h business.
Proof.
  intros Hrest Hne Hroute Hmux. destruct (tasks_prefix r j id more) as [Hpre Htail]; [done..|].
  pose proof (proj1 (proj1 (Forall_cons _ _ _) Hne)) as Hid.
  eapply guard_safe; [done..|]. intros h' Hg. unfold commandAwareTaskMutations, routeCommandTaskID.
  case_bool_decide as Hm; [|by apply Hmux]. rewrite Hpre, Htail. cbn [negb].
  destruct more as [|name [|]]; [by apply Hmux| |by apply Hmux].
  rewrite (bool_decide_false (id = "")) by done. cbn [orb]. destruct (decide (name = "route")) as [->|Hname].
  - by apply Hroute.
  - rewrite bool_decide_false by done. apply Hmux; [done|]. congruence.
Qed.

Lemma mark_words parts : Forall (λ s, s ≠ "") parts → mark parts = parts.
Proof.
  induction parts as [|part [|part' parts] IH]; intros H; [done|..]; apply Forall_cons in H as [Hpart H]; simpl.
  - by rewrite bool_decide_false.
  - f_equal. by apply IH.
Qed.

Lemma task_mux h id more : rest = "tasks" :: id :: more → Forall (λ s, s ≠ "") (id :: more) →
  (more = ["model"] → Req_Method r = MethodPost → safe h (executeModel C error_text id r w)) →
  (more = ["trace"] → is_get (Req_Method r) = true → safe h (taskTrace C error_text id r w)) →
  (more = ["evaluations"] → safe h (taskEvaluations C error_text id r w)) →
  (tail r = id :: more → safe h (taskResource C error_text r w)) → safe h (mux C error_text moved r w).
Proof.
  intros Hrest Hne Hmodel Htrace Heval Hres. destruct (tasks_prefix r j id more) as [_ Htail]; [done..|].
  specialize (Hres Htail). destruct exact_or_slashes as [[_ Hsegs]|(Hj & Hmux & Hsegs)].
  - rewrite Hrest in Hsegs. rewrite mark_words in Hsegs by (do 3 (constructor; [done|]); done).
    assert (safe h (inner C error_text r w)) as Hi by (by rewrite (inner_more _ _ _ _ _ Hsegs)).
    destruct more as [|name [|name' more]]; [by apply mux_inner; [rewrite Hsegs|]| |by apply mux_inner; [rewrite Hsegs|]].
    eapply mux_sub; [exact Hsegs|done|intros _ ->; auto..|done].
  - apply Hmux. destruct (Hsegs _ _ Hrest) as (x & l & Hl). by rewrite (inner_more _ _ _ _ _ Hl).
Qed.
End route.

Lemma ok_intro {X} h (c : Call X) action resource : need = Some (action, resource) → needs c = Some (action, resource) →
  guarded p rest h → ok h c.
Proof. intros Hneed Hc Hg. right. split; [done|]. right. by rewrite Hc, Hneed. Qed.

Lemma not_task_guarded h collection more : rest = collection :: more → collection ≠ "tasks" → guarded p rest h.
Proof. intros Hrest Hc segment more' Hr. congruence. Qed.

Lemma collection_guarded h : rest = ["tasks"] → guarded p rest h.
Proof. intros Hrest segment more Hr. congruence. Qed.

(** The calls a handler may make by its method, each the one that is needed. *)
Ltac needed :=
  simpl; repeat match goal with
  | E : Domain.Model_ID _ = _ |- _ => rewrite E; clear E
  | E : ToolGateway.ToolID _ = _ |- _ => rewrite E; clear E
  | E : RouteTypes.Req_TaskID _ = _ |- _ => rewrite E; clear E
  end; reflexivity.
Ltac permitted tac :=
  intros; try congruence;
  first [eapply ok_intro; [eassumption|needed|tac]|split; (eapply ok_intro; [eassumption|needed|tac])].

Lemma business_safe r w h action resource : wellformed r → Req_Principal r = p →
  HasPrefix (Req_Path r) "/api/" = true → pathParts (Req_Path r) = "api" :: "v1" :: rest →
  route rest (Req_Method r) action resource → need = Some (action, resource) →
  safe h (taskScopeGuard C error_text (commandAwareTaskMutations C error_text (mux C error_text moved)) r w).
Proof.
  intros Hw Hp Hpre Hparts Hroute Hneed. destruct (path_shape r rest Hpre Hparts) as (Hs & j & Hb).
  remember (Req_Method r) as method eqn:Hm. symmetry in Hm.
  assert (∃ rest', rest = rest' ∧ route rest' method action resource) as (rest' & Hrest & Hroute') by eauto.
  assert (MethodGet ≠ MethodPost ∧ MethodGet ≠ MethodPut ∧ MethodPost ≠ MethodPut) as (? & ? & ?) by done.
  clear Hroute. destruct Hroute' as [| |id Hid|id Hid|id Hid|id Hid| | | |id Hid|id Hid|id Hid|id Hid|id Hid|id Hid|id Hid|id Hid|id Hid|id tool Hid Htool].
  all: first [change (Req_Method r = MethodGet) in Hm|change (Req_Method r = MethodPost) in Hm|change (Req_Method r = MethodPut) in Hm].
  1-2: eapply (reach_models r w j); try eassumption; permitted ltac:(by eapply not_task_guarded).
  1-2: eapply (reach_model r w j); try eassumption; permitted ltac:(by eapply not_task_guarded).
  1-2: eapply (reach_admission r w j); try eassumption; permitted ltac:(by eapply not_task_guarded).
  1: eapply (reach_tools r w j); try eassumption; permitted ltac:(by eapply not_task_guarded).
  1-2: eapply (reach_tasks r w j); try eassumption; permitted ltac:(by apply collection_guarded).
  all: eapply (reach_task r w j); try eassumption; [by repeat constructor|..].
  all: intros h' Hg; intros; try congruence.
  all: try (apply routeCommand_safe; [done|permitted ltac:(done)]).
  all: try match goal with H : _ → ?x ≠ ?x |- _ => by destruct (H Hm) end.
  all: eapply (task_mux r w j); try eassumption; [by repeat constructor|intros; try discriminate..|intros Htail].
  all: try (apply executeModel_safe; [done|permitted ltac:(done)]).
  all: try (apply taskEvaluations_safe; [done|permitted ltac:(done)..]).
  all: try (unfold taskTrace; rewrite Hp; apply answer_safe; permitted ltac:(done)).
  all: unfold taskResource; rewrite Htail, (bool_decide_false (id = "")) by done; cbn -[listing executeTool]; try done.
  all: try (apply listing_safe; [done|permitted ltac:(done)]).
  apply executeTool_safe; [done|permitted ltac:(done)].
Qed.

(** ** Requests outside the API *)

Lemma mark_two parts a b l : mark parts = a :: b :: l → ∃ b' l', parts = a :: b' :: l'.
Proof.
  destruct parts as [|x [|y parts]]; simpl; [done| |].
  - by case_bool_decide.
  - intros [= -> _]. by eexists _, _.
Qed.

Lemma outside_segments r b l : wellformed r → HasPrefix (Req_Path r) "/api/" = false →
  segments (Req_EscapedPath r) ≠ "api" :: b :: l.
Proof.
  intros Hw Hpre Hs. pose proof (rooted _ Hw) as Hr. apply starts_with_spec in Hr as [q Hq].
  pose proof (Paths.Split_join "/" (Req_Path r)) as [Hj _].
  assert (∃ parts, Split (Req_Path r) "/" = "" :: parts ∧ parts ≠ []) as (parts & Hparts & Hne).
  { unfold Split. rewrite Hq. eexists. split; [reflexivity|]. apply Paths.split_byte_ne. }
  rewrite (segments_parts r parts) in Hs by done. apply mark_two in Hs as (b' & l' & ->).
  rewrite Hparts in Hj. apply not_true_iff_false in Hpre. apply Hpre. unfold HasPrefix. rewrite <- Hj. by destruct l'.
Qed.

Lemma outside_safe r w h : wellformed r → HasPrefix (Req_Path r) "/api/" = false →
  safe h (taskScopeGuard C error_text (commandAwareTaskMutations C error_text (mux C error_text moved)) r w).
Proof.
  intros Hw Hpre. assert (∀ b l, segments (Req_EscapedPath r) ≠ "api" :: b :: l) as Hout by (intros; by apply outside_segments).
  apply pass_safe.
  { right. apply not_true_iff_false. intros (q & Hq)%starts_with_spec. apply not_true_iff_false in Hpre. apply Hpre.
    unfold HasPrefix. by rewrite Hq. }
  apply mux_inner.
  - destruct (segments _) as [|a [|b [|c [|d [|e [|f l]]]]]]; try done; simpl;
      (rewrite (bool_decide_false (a = "api")) by (intros ->; by eapply Hout)); done.
  - unfold inner. destruct (segments _) as [|a [|b [|c l]]]; [done| |done|].
    + by repeat case_bool_decide.
    + rewrite (bool_decide_false (a = "api")) by (intros ->; by eapply Hout). by destruct l.
Qed.
End request.

(** ** The whole handler *)

Lemma FullHandler_safe p rest need r w h :
  (∀ r' h, Boundary.same r r' → Req_Principal r' = Req_Principal r →
    wp (@allowed p rest need) h
      (taskScopeGuard C error_text (commandAwareTaskMutations C error_text (mux C error_text moved)) r' fresh) (λ _ _, True)) →
  wp (@allowed p rest need) h (FullHandler C error_text moved enc_error pages r w) (λ _ _, True).
Proof.
  intros Hb. unfold FullHandler, WithRequestMetadata. apply chosen_safe. intros h1 id. apply chosen_safe. intros h2 id'.
  apply contract_safe. by apply Hb.
Qed.

Lemma wellformed_same r r' : Boundary.same r r' → wellformed r → wellformed r'.
Proof. intros [= Hm Hp He Hq Hb] [H1 H2]. split; congruence. Qed.

(** What a request that the boundary cleared asks of the control plane. *)
Lemma cleared_safe S v r r' w h : wellformed r → Boundary.permitted S v r h (Boundary.OfBase (Boundary.EServe r' w)) →
  ∃ rest need, wp (@allowed (Req_Principal r') rest need) [] (FullHandler C error_text moved enc_error pages r' w) (λ _ _, True)
  ∧ (need = None ∧ rest = [] ∨ ∃ p action resource, Req_Principal r' = Some p ∧ need = Some (action, resource)
       ∧ pathParts (Req_Path r) = "api" :: "v1" :: rest ∧ route rest (Req_Method r) action resource
       ∧ Identity.Type_ p ≠ Identity.PrincipalSystem ∧ Authorization.within p (resource p)
       ∧ ∃ value, value ∈ Identity.Roles p ∧ Authorization.may (ToLower (TrimSpace value)) action).
Proof.
  intros Hw [Hsame Hcleared]. pose proof (wellformed_same _ _ Hsame Hw) as Hw'. injection Hsame as Hm Hpath He Hq Hb.
  destruct (HasPrefix (Req_Path r) "/api/") eqn:Hpre.
  - destruct (Boundary.authorized _ _ _ _ _ (Hcleared eq_refl))
      as (p & rest & action & resource & Hp & Hparts & Hroute & Hty & Hwithin & Hmay).
    exists rest, (Some (action, resource)). split; [|right; by eexists _, _, _].
    apply FullHandler_safe. intros r2 h2 Hsame2 Hp2. pose proof (wellformed_same _ _ Hsame2 Hw') as Hw2.
    injection Hsame2 as Hm2 Hpath2 _ _ _.
    eapply business_safe; [done|done|congruence..| |done]. by rewrite Hm2, Hm.
  - exists [], None. split; [|by left]. apply FullHandler_safe. intros r2 h2 Hsame2 Hp2.
    pose proof (wellformed_same _ _ Hsame2 Hw') as Hw2. injection Hsame2 as Hm2 Hpath2 _ _ _.
    apply outside_safe; [done|congruence].
Qed.
End handlers.

(** C5. Every operation of the control plane that an HTTP request reaches is the one
    it was authorized for.  When the server hands a request on to the handlers
    and these ask the operation [c], then the request is under /api/v1 and an
    entry of the API table, the operation is made under the verified principal
    of the request, who is no system principal and has a role that grants the
    entry's action in its own tenant and project; and either [c] only looks up
    the task the path names, or it is the operation of that action on that
    resource, on a task asked after the task was found in the principal's scope.
    The paths of the request must be as net/url makes them, with no escaped
    slash, and the guard is stated for task ids without a colon. *)
Theorem operations_are_authorized S v C error_text moved enc_error pages enc text r w h r' w' k t X ctx (c : Call X) k' :
  wellformed r →
  asks (Boundary.server S v enc text r w) h (Do (Boundary.OfBase (Boundary.EServe r' w')) k) →
  asks (FullHandler C error_text moved enc_error pages r' w') t (Do (At ctx c) k') →
  ~ random c →
  ∃ p rest action resource,
    ctx = Some p ∧ Req_Principal r' = Some p
    ∧ pathParts (Req_Path r) = "api" :: "v1" :: rest ∧ route rest (Req_Method r) action resource
    ∧ Identity.Type_ p ≠ Identity.PrincipalSystem ∧ Authorization.within p (resource p)
    ∧ (∃ value, value ∈ Identity.Roles p ∧ Authorization.may (ToLower (TrimSpace value)) action)
    ∧ (lookup rest c ∨ needs c = Some (action, resource) ∧ guarded (Some p) rest t).
Proof.
  intros Hw Hserve Ht Hc.
  pose proof (wp_request (@Boundary.permitted S v r) _ _ _ _ _ _ (Boundary.server_safe S v enc text r w) Hserve) as Hp.
  destruct (cleared_safe C error_text moved enc_error pages S v r r' w' h Hw Hp) as (rest & need & Hsafe & Hneed).
  destruct (wp_request (@allowed (Req_Principal r') rest need) _ _ _ _ _ _ Hsafe Ht) as [Hr|[-> Hcall]]; [done|].
  destruct Hneed as [[-> ->]|(p & action & resource & Hprin & -> & Hrest)].
  - destruct Hcall as [Hl|(_ & Hn & _)]; [|done]. by apply lookup_nil in Hl.
  - exists p, rest, action, resource. rewrite Hprin in *. destruct Hcall as [Hl|(Hn & _ & Hg)]; tauto.
Qed.
End HandlersSpec.

(** * HandlersExamples: requests through the server and its handlers

    A developer reads the costs of a task: the theorem of [HandlersSpec] on that
    request.  Then the two requests its hypotheses leave out: an escaped slash,
    for which the access table and the router read different paths, and a task
    id with a colon, for which the guard looks up another task. *)

Module HandlersExamples.
Import Http Access AccessSpec Handlers HandlersSpec.
Import AuthnExamples(std, verifier, token, developer).

Definition zero_metrics : Evaluation.Metrics := Evaluation.mkMetrics f_zero f_zero f_zero 0 f_zero f_zero f_zero.
Definition zero_thresholds : Evaluation.Thresholds := Evaluation.mkThresholds f_zero f_zero f_zero 0 f_zero f_zero f_zero.
Definition empty_config : Evaluation.Config := Evaluation.mkConfig "" "" "" "" "" "" ∅ "" 0 0 "" "" "" "" "" "" "" ∅.
Definition unread {A} (body : string) : result A := Err (Errorf "not read" []).

(** Codecs that read nothing but an empty evaluation. *)
Definition codec : Handlers.Codec :=
  Handlers.mkCodec (λ _, "value") unread unread unread unread unread unread
    (λ _, Ok (mkEvaluationBody empty_config zero_metrics zero_thresholds ""))
    (λ _, Ok "") (λ _ _, Ok "") (λ _ _, Ok "") id.
Definition page_codec : Pages.Codec :=
  Pages.mkCodec (λ _, Ok []) (λ _, Ok "") (λ _, None) (λ _, None) (λ _, None).
Definition moved (r : Request) (path : string) (w : Response) : Response := w.

Definition business : Handler := FullHandler codec BoundaryExamples.text moved BoundaryExamples.encode page_codec.

(** The guard's look-ups succeed; the first other operation is left open. *)
Definition reply : ∀ X, Ev X → option X := λ X e,
  let '(At _ c) := e in
  match c in Call X return option X with
  | GetTask _ => Some (Ok (ActivityExamples.sample_task Domain.TaskCreated))
  | Random => Some (Some "0123456789abcdef")
  | _ => None
  end.

(** ** A request of the table *)

Definition costs : Request :=
  mkRequest "GET" "/api/v1/tasks/task-1/costs" "/api/v1/tasks/task-1/costs" ∅
    {[ "Authorization" := ["Bearer " +:+ token] ]} "" None None None.

Definition boundary := follow BoundaryExamples.answer (Boundary.server std verifier BoundaryExamples.encode BoundaryExamples.text costs fresh).
Definition served : Request :=
  match boundary.2 with Do (Boundary.OfBase (Boundary.EServe r _)) _ => r | _ => costs end.
Definition response : Response :=
  match boundary.2 with Do (Boundary.OfBase (Boundary.EServe _ w)) _ => w | _ => fresh end.

Lemma boundary_serves : boundary.2 = Do (Boundary.OfBase (Boundary.EServe served response)) Ret.
Proof. vm_compute. reflexivity. Qed.

Definition handled := follow reply (business served response).

(** The operation a run stopped at, with its principal. *)
Definition costs_call (p : prog Ev Response) : option (option Identity.Principal * string) :=
  match p with Do (At ctx c) _ => match c with ListCostEvents id => Some (ctx, id) | _ => None end | Ret _ => None end.
Definition evaluation_call (p : prog Ev Response) : option string :=
  match p with Do (At _ c) _ => match c with CreateEvaluation id _ _ _ _ => Some id | _ => None end | Ret _ => None end.

Lemma costs_call_Do p ctx id : costs_call p = Some (ctx, id) → ∃ k, p = Do (At ctx (ListCostEvents id)) k.
Proof.
  destruct p as [a|X [ctx' c] k]; simpl; [discriminate|]. destruct c; intros H; try discriminate.
  injection H as -> ->. by exists k.
Qed.

Lemma handled_run : ∃ k, handled.2 = Do (At (Some developer) (ListCostEvents "task-1")) k.
Proof. apply costs_call_Do. vm_compute. reflexivity. Qed.

Lemma costs_wellformed : wellformed costs.
Proof. split; vm_compute; reflexivity. Qed.

Lemma operations_are_authorized_witness :
  ∃ p rest action resource,
    Some developer = Some p ∧ Req_Principal served = Some p
    ∧ pathParts (Req_Path costs) = "api" :: "v1" :: rest ∧ route rest (Req_Method costs) action resource
    ∧ Identity.Type_ p ≠ Identity.PrincipalSystem ∧ Authorization.within p (resource p)
    ∧ (∃ value, value ∈ Identity.Roles p ∧ Authorization.may (ToLower (TrimSpace value)) action)
    ∧ (lookup rest (ListCostEvents "task-1")
       ∨ needs (ListCostEvents "task-1") = Some (action, resource) ∧ guarded (Some p) rest handled.1).
Proof.
  destruct handled_run as [k Hk].
  apply (operations_are_authorized std verifier codec BoundaryExamples.text moved BoundaryExamples.encode page_codec
    BoundaryExamples.encode BoundaryExamples.text costs fresh boundary.1 served response Ret handled.1
    _ (Some developer) (ListCostEvents "task-1") k costs_wellformed).
  - rewrite <- boundary_serves.
    exact (follow_asks BoundaryExamples.answer (Boundary.server std verifier BoundaryExamples.encode BoundaryExamples.text costs fresh)).
  - rewrite <- Hk. exact (follow_asks reply (business served response)).
  - exact id.
Defined.

(** ** What the hypotheses leave out *)

(** An escaped slash: the access table reads the decoded path and authorizes the
    tool "evaluations" of the task "a", the router reads the escaped one and
    evaluates the task "a/tools". *)
Definition escaped : Request :=
  mkRequest "POST" "/api/v1/tasks/a/tools/evaluations" "/api/v1/tasks/a%2Ftools/evaluations" ∅ ∅ "" (Some developer) None None.

Example escaped_slash :
  (request ← resolveAPIAccess escaped developer; Some (Authorization.Request_Action request.1)) = Some Authorization.ActionToolExecute
  ∧ evaluation_call (follow reply (business escaped fresh)).2 = Some "a/tools".
Proof. split; vm_compute; reflexivity. Qed.

(** A colon: the guard looks up the task "mine", the costs are those of the task
    "mine:other". *)
Definition colon : Request :=
  mkRequest "GET" "/api/v1/tasks/mine:other/costs" "/api/v1/tasks/mine:other/costs" ∅ ∅ "" (Some developer) None None.

Definition looked_up (e : exchange Ev) : list string :=
  match e with Asked (At _ c) _ => match c with GetTask id => [id] | _ => [] end end.

Example colon_guard :
  flat_map looked_up (follow reply (business colon fresh)).1 = ["mine"]
  ∧ costs_call (follow reply (business colon fresh)).2 = Some (Some developer, "mine:other").
Proof. split; vm_compute; reflexivity. Qed.
End HandlersExamples.
