(* ===== verification/SchemaValidator.v ===== *)
(** * SchemaValidator: the required fields of structured outputs

    [src/model/schema/validator.go].  A pointer to an output is an option. *)
From S2P Require Import Prelude GoStrings ModelSchema ModelTypes.

Module SchemaValidator.
Import ModelSchema.
Import ModelTypes(any, AnyNil).

(** An error of a type with a code and a message; its text is the code, a colon
    and the message. *)
Definition Coded (ty code message : string) : error := TypedErr ty (code +:+ ": " +:+ message) None.

Definition NewValidationError (code message : string) : error := Coded "schema.ValidationError" code message.

(** The checks of one validation, in order: the first that fails is the answer. *)
Definition reject (b : bool) (code message : string) : result unit :=
  if b then Err (NewValidationError code message) else Ok tt.

Definition validateCommon (meta : CommonMetadata) (expectedKind : string) : result unit :=
  _ ← reject (Meta_SchemaVersion meta !=? SchemaVersionV1Alpha1) "InvalidSchemaVersion" ("schemaVersion must be " +:+ SchemaVersionV1Alpha1);
  _ ← reject (Meta_Kind meta !=? expectedKind) "InvalidKind" ("kind must be " +:+ expectedKind);
  _ ← reject (Meta_RequestID meta ==? "") "MissingRequestID" "requestId is required";
  _ ← reject (Meta_TaskType meta ==? "") "MissingTaskType" "taskType is required";
  reject (Meta_CreatedBy meta ==? "") "MissingCreatedBy" "createdBy is required".

Definition validateResourceRef (ref : ResourceRef) (field : string) : result unit :=
  _ ← reject (Resource_Kind ref ==? "") "MissingResourceKind" (field +:+ ".kind is required");
  reject (Resource_Name ref ==? "") "MissingResourceName" (field +:+ ".name is required").

Definition is_nil (v : any) : bool := match v with AnyNil => true | _ => false end.

Definition at_index (prefix : string) (i : nat) (suffix : string) : string :=
  prefix +:+ "[" +:+ Itoa (Z.of_nat i) +:+ suffix.

(** [for i, x := range xs] with two checks of each element. *)
Section each.
Context {A : Type} (check : nat → A → result unit).
Fixpoint each (i : nat) (xs : list A) : result unit :=
  match xs with
  | [] => Ok tt
  | x :: xs => _ ← check i x; each (S i) xs
  end.
End each.

Definition check_change (i : nat) (change : PlannedChange any) : result unit :=
  _ ← reject (Change_Field change ==? "") "MissingChangeField" (at_index "ChangePlan.changes" i "].field is required");
  reject (is_nil (Change_To change)) "MissingChangeTo" (at_index "ChangePlan.changes" i "].to is required").

Definition ValidateChangePlan (plan : option (ChangePlan any)) : result unit :=
  match plan with
  | None => Err (NewValidationError "ChangePlanNil" "change plan is nil")
  | Some plan =>
      _ ← validateCommon (Plan_Meta plan) KindChangePlan;
      _ ← reject (Plan_Intent plan ==? "") "MissingIntent" "ChangePlan.intent is required";
      _ ← validateResourceRef (Plan_Target plan) "ChangePlan.target";
      _ ← reject (Plan_OperationType plan ==? "") "MissingOperationType" "ChangePlan.operationType is required";
      _ ← reject (length (Plan_Changes plan) =? 0) "MissingChanges" "ChangePlan.changes must not be empty";
      _ ← each check_change 0 (Plan_Changes plan);
      reject (Rollback_Summary (Plan_Rollback plan) ==? "") "MissingRollback" "ChangePlan.rollback.summary is required"
  end.

Definition ValidateYamlPatchProposal (patch : option (YamlPatchProposal any)) : result unit :=
  match patch with
  | None => Err (NewValidationError "YamlPatchProposalNil" "yaml patch proposal is nil")
  | Some patch =>
      _ ← validateCommon (Patch_Meta patch) KindYamlPatchProposal;
      _ ← validateResourceRef (Patch_Resource patch) "YamlPatchProposal.resource";
      _ ← reject (Patch_PatchType patch ==? "") "MissingPatchType" "YamlPatchProposal.patchType is required";
      _ ← reject (length (Patch_Patch patch) =? 0) "MissingPatch" "YamlPatchProposal.patch must not be empty";
      _ ← reject (DirectExecutionAllowed (Patch_Safety patch)) "DirectExecutionAllowed" "YamlPatchProposal.safety.directExecutionAllowed must be false";
      reject (negb (RequiresPR (Patch_Safety patch))) "PRRequired" "YamlPatchProposal.safety.requiresPR must be true"
  end.

Definition ValidateRiskExplanation (explanation : option RiskExplanation) : result unit :=
  match explanation with
  | None => Err (NewValidationError "RiskExplanationNil" "risk explanation is nil")
  | Some explanation =>
      _ ← validateCommon (Risk_Meta explanation) KindRiskExplanation;
      _ ← reject (PolicyRef_RiskLevel (Risk_PolicyResult explanation) ==? "") "MissingRiskLevel" "RiskExplanation.policyResult.riskLevel is required";
      _ ← reject (Explanation_Summary (Risk_Explanation explanation) ==? "") "MissingExplanationSummary" "RiskExplanation.explanation.summary is required";
      reject (length (Explanation_Reasons (Risk_Explanation explanation)) =? 0) "MissingExplanationReasons" "RiskExplanation.explanation.reasons must not be empty"
  end.

Definition check_step (i : nat) (step : RollbackStep) : result unit :=
  _ ← reject (Step_Order step <=? 0)%Z "InvalidRollbackStepOrder" (at_index "RollbackPlan.steps" i "].order must be > 0");
  reject (Step_Action step ==? "") "MissingRollbackStepAction" (at_index "RollbackPlan.steps" i "].action is required").

Definition ValidateRollbackPlan (plan : option (RollbackPlan any)) : result unit :=
  match plan with
  | None => Err (NewValidationError "RollbackPlanNil" "rollback plan is nil")
  | Some plan =>
      _ ← validateCommon (Undo_Meta plan) KindRollbackPlan;
      _ ← validateResourceRef (Undo_Target plan) "RollbackPlan.target";
      _ ← reject (Undo_RollbackType plan ==? "") "MissingRollbackType" "RollbackPlan.rollbackType is required";
      _ ← reject (Undo_Summary plan ==? "") "MissingRollbackSummary" "RollbackPlan.summary is required";
      _ ← reject (length (Undo_Steps plan) =? 0) "MissingRollbackSteps" "RollbackPlan.steps must not be empty";
      _ ← each check_step 0 (Undo_Steps plan);
      reject (length (Validation_Expected (Undo_Validation plan)) =? 0) "MissingRollbackValidation" "RollbackPlan.validation.expected must not be empty"
  end.

Definition check_evidence (i : nat) (evidence : EvidenceItem) : result unit :=
  _ ← reject (Evidence_Source evidence ==? "") "MissingEvidenceSource" (at_index "ValidationReport.evidence" i "].source is required");
  reject (Evidence_Value evidence ==? "") "MissingEvidenceValue" (at_index "ValidationReport.evidence" i "].value is required").

Definition ValidateValidationReport (report : option ValidationReport) : result unit :=
  match report with
  | None => Err (NewValidationError "ValidationReportNil" "validation report is nil")
  | Some report =>
      _ ← validateCommon (Report_Meta report) KindValidationReport;
      _ ← validateResourceRef (Report_OperationRef report) "ValidationReport.operationRef";
      _ ← validateResourceRef (Report_Target report) "ValidationReport.target";
      _ ← reject (Report_Result report ==? "") "MissingValidationResult" "ValidationReport.result is required";
      _ ← reject (Report_Summary report ==? "") "MissingValidationSummary" "ValidationReport.summary is required";
      _ ← reject (length (Report_Evidence report) =? 0) "MissingEvidence" "ValidationReport.evidence must not be empty";
      each check_evidence 0 (Report_Evidence report)
  end.

(** ** What an accepted plan has *)

Lemma reject_Ok b code message u : reject b code message = Ok u → b = false.
Proof. by destruct b. Qed.

Lemma each_Ok {A} (check : nat → A → result unit) i xs u :
  each check i xs = Ok u → ∀ x, x ∈ xs → ∃ j u', check j x = Ok u'.
Proof.
  revert i. induction xs as [|x xs IH]; intros i H y Hy; [by apply not_elem_of_nil in Hy|].
  simpl in H. bind_inv H u1 H1. apply elem_of_cons in Hy as [->|Hy]; [eauto|]. by apply (IH (S i)).
Qed.

Lemma ValidateChangePlan_Ok plan u :
  ValidateChangePlan (Some plan) = Ok u →
  Plan_Changes plan ≠ [] ∧ Meta_RequestID (Plan_Meta plan) ≠ "" ∧ Plan_Intent plan ≠ ""
  ∧ Resource_Kind (Plan_Target plan) ≠ "" ∧ Resource_Name (Plan_Target plan) ≠ "" ∧ Plan_OperationType plan ≠ ""
  ∧ Rollback_Summary (Plan_Rollback plan) ≠ ""
  ∧ ∀ c, c ∈ Plan_Changes plan → Change_Field c ≠ "" ∧ Change_To c ≠ AnyNil.
Proof.
  intros H. unfold ValidateChangePlan in H. bind_inv H u1 Hc. bind_inv H u2 Hi. bind_inv H u3 Ht. bind_inv H u4 Ho. bind_inv H u5 Hl.
  bind_inv H u6 He. unfold validateCommon in Hc. bind_inv Hc u7 Hc1. bind_inv Hc u8 Hc2. bind_inv Hc u9 Hc3.
  unfold validateResourceRef in Ht. bind_inv Ht u10 Ht1.
  apply reject_Ok in Hi, Ho, Hl, H, Hc3, Ht1, Ht. apply bool_decide_eq_false in Hi, Ho, H, Hc3, Ht1, Ht. apply Nat.eqb_neq in Hl.
  repeat split; [intros E; by rewrite E in Hl|done..| |].
  - intros E. destruct (each_Ok _ _ _ _ He c H0) as (j & u' & Hj). unfold check_change in Hj. bind_inv Hj u11 Hj1.
    apply reject_Ok, bool_decide_eq_false in Hj1. done.
  - intros E. destruct (each_Ok _ _ _ _ He c H0) as (j & u' & Hj). unfold check_change in Hj. bind_inv Hj u11 Hj1.
    apply reject_Ok in Hj. by rewrite E in Hj.
Qed.
End SchemaValidator.
