(* ===== verification/ModelSafety.v ===== *)
(** * ModelSafety: the safety gate of the model layer

    [src/model/safety/safety.go]: restricted instructions, sensitive context and
    unsafe outputs.  The lists are those of [NewValidator], the only constructor.
    The searches in nested maps are characterised by the texts and the field
    paths they reach. *)
From S2P Require Import Prelude GoStrings ModelSchema ModelTypes SchemaValidator.

Module ModelSafety.
Import ModelSchema.
Import ModelTypes(any, AnyNil, AnyString, AnyArray, AnyObject, AnyPlan, AnyPlanPtr, AnyPatch, AnyPatchPtr, AnyRollback,
  AnyRollbackPtr, AnyReport, AnyReportPtr, AnyRisk, AnyRiskPtr, TaskType, TaskTypeOther, ProviderRequest, Request_TaskType,
  Request_Instruction, Request_Context, ModelContext, Context_UserIntent, Context_GitDiffSummary, Context_RunbookSnippets,
  Context_ResourceSnapshots, Sanitized_Spec, Sanitized_Status, ProviderResponse, Response_RawText, Response_Structured).

Definition sensitiveKeywords : list string :=
  ["password"; "passwd"; "token"; "secret"; "apikey"; "api_key"; "accesskey"; "privatekey"; "clientsecret"; "authorization";
   "cookie"; "kubeconfig"; "credential"].
Definition restrictedPhrases : list string :=
  ["direct apply"; "direct delete"; "shell access"; "machine power operation"; "credential value"; "print credential";
   "bypass policy"; "bypass approval"; "auto merge"; "auto-merge"; "auto approve"; "auto-approve"].
Definition forbiddenPatchFields : list string :=
  ["status"; "metadata.finalizers"; "metadata.ownerReferences"; "spec.bmcSecretRef"; "spec.credentials"; "spec.secretRef"].
Definition editableFieldAllowlist : list string :=
  ["ManagedCluster.spec.workers[].replicas"; "spec.workers[name=gpu-workers].replicas"].

(** [NewSafetyError(t, level, message)]; every level is Block. *)
Definition NewSafetyError (t message : string) : error := SchemaValidator.Coded "safety.SafetyError" t message.

Definition stringContainsSensitiveKey (s : string) : bool :=
  existsb (λ keyword, Contains (ToLower s) keyword) sensitiveKeywords.
Definition containsRestrictedPhrase (text : string) : bool :=
  existsb (λ phrase, Contains (ToLower text) phrase) restrictedPhrases.

Fixpoint valueContainsSensitiveKey (value : any) : bool :=
  match value with
  | AnyString s => stringContainsSensitiveKey s
  | AnyArray l => existsb valueContainsSensitiveKey l
  | _ => false
  end.

(** The entries of a value that is a [map[string]any], none otherwise. *)
Fixpoint nestedSensitiveKey (value : any) : bool :=
  match value with
  | AnyObject m =>
      existsb (λ kv : string * any, let (key, v) := kv in
        stringContainsSensitiveKey key || nestedSensitiveKey v || valueContainsSensitiveKey v) m
  | _ => false
  end.
Definition mapContainsSensitiveKey (m : list (string * any)) : bool := nestedSensitiveKey (AnyObject m).

Definition isForbiddenField (path : string) : bool :=
  existsb (λ forbidden, (path ==? forbidden) || HasPrefix path (forbidden +:+ ".")) forbiddenPatchFields.

Definition field_path (prefix key : string) : string := if prefix !=? "" then prefix +:+ "." +:+ key else key.

Fixpoint nestedForbiddenField (value : any) (prefix : string) : bool :=
  match value with
  | AnyObject m =>
      existsb (λ kv : string * any, let (key, v) := kv in
        let path := field_path prefix key in isForbiddenField path || nestedForbiddenField v path) m
  | _ => false
  end.
Definition mapContainsForbiddenField (m : list (string * any)) (prefix : string) : bool := nestedForbiddenField (AnyObject m) prefix.

Definition isEditableFieldAllowed (field : string) : bool := existsb (λ allowed, field ==? allowed) editableFieldAllowlist.

Definition isUnsupportedModelTask (task : TaskType) : bool := match task with TaskTypeOther _ => true | _ => false end.

Definition contextContainsSensitiveKey (ctx : ModelContext) : bool :=
  stringContainsSensitiveKey (Context_UserIntent ctx) || stringContainsSensitiveKey (Context_GitDiffSummary ctx)
  || existsb stringContainsSensitiveKey (Context_RunbookSnippets ctx)
  || existsb (λ s, mapContainsSensitiveKey (Sanitized_Spec s) || mapContainsSensitiveKey (Sanitized_Status s))
       (Context_ResourceSnapshots ctx).

Definition block (b : bool) (t message : string) : result unit := if b then Err (NewSafetyError t message) else Ok tt.

Definition ValidateRequest (task_name : TaskType → string) (req : ProviderRequest) : result unit :=
  _ ← block (isUnsupportedModelTask (Request_TaskType req)) "UnsupportedModelTask"
        ("task " +:+ task_name (Request_TaskType req) +:+ " is not supported by model providers");
  _ ← block (containsRestrictedPhrase (Request_Instruction req)) "RestrictedInstruction" "request contains restricted instruction";
  block (contextContainsSensitiveKey (Request_Context req)) "SensitiveContext" "request context appears to contain sensitive fields".

(** The first change whose field may not be edited. *)
Fixpoint check_fields (changes : list (PlannedChange any)) : result unit :=
  match changes with
  | [] => Ok tt
  | change :: changes =>
      _ ← block (negb (isEditableFieldAllowed (Change_Field change))) "FieldOutsideAllowlist"
            ("change plan modifies a field outside allowlist: " +:+ Change_Field change);
      check_fields changes
  end.

Definition validateChangePlan (plan : option (ChangePlan any)) : result unit :=
  match plan with
  | None => Err (NewSafetyError "EmptyChangePlan" "change plan is nil")
  | Some plan =>
      _ ← block (Resource_Kind (Plan_Target plan) ==? "Secret") "SensitiveTarget" "model output cannot target sensitive resource kind";
      check_fields (Plan_Changes plan)
  end.

Definition validateYamlPatchProposal (patch : option (YamlPatchProposal any)) : result unit :=
  match patch with
  | None => Err (NewSafetyError "EmptyPatchProposal" "patch proposal is nil")
  | Some patch =>
      _ ← block (DirectExecutionAllowed (Patch_Safety patch)) "DirectExecutionAllowed" "patch proposal must not allow direct execution";
      _ ← block (negb (RequiresPR (Patch_Safety patch))) "ReviewRequired" "patch proposal must require reviewed workflow";
      _ ← block (Resource_Kind (Patch_Resource patch) ==? "Secret") "SensitivePatchTarget" "model output cannot patch sensitive resource kind";
      _ ← block (mapContainsForbiddenField (Patch_Patch patch) "") "ForbiddenFieldMutation" "patch modifies forbidden fields";
      block (mapContainsSensitiveKey (Patch_Patch patch)) "SensitivePatchContent" "patch contains sensitive-looking keys or values"
  end.

Definition validateRollbackPlan (plan : option (RollbackPlan any)) : result unit :=
  match plan with
  | None => Err (NewSafetyError "EmptyRollbackPlan" "rollback plan is nil")
  | Some plan =>
      _ ← block (existsb (λ step, containsRestrictedPhrase (Step_Action step)) (Undo_Steps plan)) "RestrictedRollbackStep"
            "rollback step contains restricted instruction";
      block (mapContainsForbiddenField (Undo_Patch plan) "") "ForbiddenFieldMutation" "rollback patch modifies forbidden fields"
  end.

Definition validateValidationReport (report : option ValidationReport) : result unit :=
  match report with
  | None => Err (NewSafetyError "EmptyValidationReport" "validation report is nil")
  | Some report =>
      _ ← block (Resource_Kind (Report_Target report) ==? "Secret") "SensitiveValidationTarget" "validation report cannot expose sensitive resource target";
      block (length (Report_Evidence report) =? 0) "MissingEvidence" "validation report must include evidence"
  end.

Definition validateRiskExplanation (explanation : option RiskExplanation) : result unit :=
  match explanation with
  | None => Err (NewSafetyError "EmptyRiskExplanation" "risk explanation is nil")
  | Some explanation =>
      block (PolicyRef_RiskLevel (Risk_PolicyResult explanation) ==? "") "MissingPolicyResult" "risk explanation must be grounded in policy result"
  end.

Definition ValidateResponse (resp : option ProviderResponse) : result unit :=
  match resp with
  | None => Err (NewSafetyError "EmptyProviderResponse" "provider response is nil")
  | Some resp =>
      _ ← block (containsRestrictedPhrase (Response_RawText resp)) "RestrictedOutput" "provider raw output contains restricted instruction";
      match Response_Structured resp with
      | AnyPlan p => validateChangePlan (Some p)
      | AnyPlanPtr p => validateChangePlan p
      | AnyPatch p => validateYamlPatchProposal (Some p)
      | AnyPatchPtr p => validateYamlPatchProposal p
      | AnyRollback p => validateRollbackPlan (Some p)
      | AnyRollbackPtr p => validateRollbackPlan p
      | AnyReport r => validateValidationReport (Some r)
      | AnyReportPtr r => validateValidationReport r
      | AnyRisk e => validateRiskExplanation (Some e)
      | AnyRiskPtr e => validateRiskExplanation e
      | AnyNil => Err (NewSafetyError "MissingStructuredOutput" "provider response does not contain structured output")
      | _ => Ok tt
      end
  end.

(** ** What the searches reach *)

(** Induction through arrays and objects. *)
Section nested.
Variable P : any → Prop.
Hypothesis leaf : ∀ v, match v with AnyArray _ | AnyObject _ => False | _ => True end → P v.
Hypothesis array : ∀ l, Forall P l → P (AnyArray l).
Hypothesis object : ∀ m, Forall (λ kv, P kv.2) m → P (AnyObject m).

Fixpoint any_nested (v : any) : P v :=
  match v with
  | AnyArray l => array l ((fix go l : Forall P l := match l with [] => Forall_nil_2 P | x :: l => Forall_cons_2 P x l (any_nested x) (go l) end) l)
  | AnyObject m =>
      object m ((fix go m : Forall (λ kv, P kv.2) m :=
          match m with [] => Forall_nil_2 _ | kv :: m => Forall_cons_2 (λ kv, P kv.2) kv m (any_nested kv.2) (go m) end) m)
  | v => leaf v I
  end.
End nested.

(** The texts in a value, through arrays. *)
Inductive holds : any → string → Prop :=
| holds_string s : holds (AnyString s) s
| holds_item l v s : v ∈ l → holds v s → holds (AnyArray l) s.

(** The texts of a map: its keys, the texts in its values, those of the maps that
    are its values. *)
Inductive reaches : any → string → Prop :=
| reaches_key m k v : (k, v) ∈ m → reaches (AnyObject m) k
| reaches_value m k v s : (k, v) ∈ m → holds v s → reaches (AnyObject m) s
| reaches_nested m k v s : (k, v) ∈ m → reaches v s → reaches (AnyObject m) s.

(** The keys that lead to a field of a map. *)
Inductive field_at : any → list string → Prop :=
| field_here m k v : (k, v) ∈ m → field_at (AnyObject m) [k]
| field_below m k v ks : (k, v) ∈ m → field_at v ks → field_at (AnyObject m) (k :: ks).

Lemma existsb_elem {A} (f : A → bool) l : existsb f l = true ↔ ∃ x, x ∈ l ∧ f x = true.
Proof. rewrite existsb_exists. by setoid_rewrite list_elem_of_In. Qed.

Lemma value_correct v :
  valueContainsSensitiveKey v = true ↔ ∃ s, holds v s ∧ stringContainsSensitiveKey s = true.
Proof.
  induction v as [v Hv|l IH|m _] using any_nested.
  - destruct v; try done; simpl; (split; [|intros (s0 & Hh & Hs); inversion Hh; by subst]); intros H; try done.
    exists s. split; [constructor|done].
  - simpl. rewrite existsb_elem. rewrite Forall_forall in IH. split.
    + intros (x & Hx & H). apply IH in H as (s & Hh & Hs); [|done]. exists s. split; [by eapply holds_item|done].
    + intros (s & Hh & Hs). inversion Hh as [|? x ? Hx Hxs]; subst. exists x. split; [done|]. apply IH; eauto.
  - simpl. split; [done|]. intros (s & Hh & _). inversion Hh.
Qed.

Lemma mapContainsSensitiveKey_correct m :
  mapContainsSensitiveKey m = true ↔ ∃ s, reaches (AnyObject m) s ∧ stringContainsSensitiveKey s = true.
Proof.
  unfold mapContainsSensitiveKey. generalize (AnyObject m). clear m.
  intros v. induction v as [v Hv|l _|m IH] using any_nested.
  - destruct v; try done; (split; [done|]); intros (s0 & Hr & _); inversion Hr.
  - split; [done|]. intros (s & Hr & _). inversion Hr.
  - cbn [nestedSensitiveKey]. rewrite existsb_elem. rewrite Forall_forall in IH. split.
    + intros ([k v] & Hin & H). apply orb_true_iff in H as [[H|H]%orb_true_iff|H].
      * exists k. split; [by eapply reaches_key|done].
      * apply (IH (k, v) Hin) in H as (s & Hr & Hs). exists s. split; [by eapply reaches_nested|done].
      * apply value_correct in H as (s & Hh & Hs). exists s. split; [by eapply reaches_value|done].
    + intros (s & Hr & Hs). inversion Hr as [? ? v Hin|? k v ? Hin Hh|? k v ? Hin Hn]; subst.
      * exists (s, v). split; [done|]. cbv beta iota. by rewrite Hs.
      * exists (k, v). split; [done|]. cbv beta iota. rewrite (proj2 (value_correct v)) by eauto. by rewrite orb_true_r.
      * exists (k, v). split; [done|]. cbv beta iota. assert (nestedSensitiveKey v = true) as -> by (apply (IH (k, v) Hin); eauto). by rewrite orb_true_r.
Qed.

Lemma mapContainsForbiddenField_correct m prefix :
  mapContainsForbiddenField m prefix = true ↔
  ∃ ks, field_at (AnyObject m) ks ∧ isForbiddenField (foldl field_path prefix ks) = true.
Proof.
  unfold mapContainsForbiddenField. generalize (AnyObject m). clear m. intros v. revert prefix.
  induction v as [v Hv|l _|m IH] using any_nested; intros prefix.
  - destruct v; try done; (split; [done|]); intros (ks & Hr & _); inversion Hr.
  - split; [done|]. intros (ks & Hr & _). inversion Hr.
  - cbn [nestedForbiddenField]. rewrite existsb_elem. rewrite Forall_forall in IH. split.
    + intros ([k v] & Hin & H). apply orb_true_iff in H as [H|H].
      * exists [k]. split; [by eapply field_here|done].
      * apply (IH (k, v) Hin) in H as (ks & Hf & Hs). exists (k :: ks). split; [by eapply field_below|done].
    + intros (ks & Hf & Hs). inversion Hf as [? k v Hin|? k v ks' Hin Hn]; subst; exists (k, v); (split; [done|]); cbn zeta; simpl in Hs.
      * by rewrite Hs.
      * assert (nestedForbiddenField v (field_path prefix k) = true) as -> by (apply (IH (k, v) Hin); eauto). by rewrite orb_true_r.
Qed.

Lemma block_Ok b t message u : block b t message = Ok u → b = false.
Proof. by destruct b. Qed.

Lemma check_fields_Ok changes u :
  check_fields changes = Ok u → ∀ c, c ∈ changes → Change_Field c ∈ editableFieldAllowlist.
Proof.
  induction changes as [|c0 changes IH]; simpl; intros H c Hc; [by apply not_elem_of_nil in Hc|].
  bind_inv H u1 H1. apply block_Ok, negb_false_iff, existsb_elem in H1 as (x & Hx & Heq%bool_decide_eq_true).
  apply elem_of_cons in Hc as [->|Hc]; [by rewrite Heq|]. by apply IH.
Qed.

Lemma validateChangePlan_Ok plan u :
  validateChangePlan (Some plan) = Ok u →
  Resource_Kind (Plan_Target plan) ≠ "Secret" ∧ ∀ c, c ∈ Plan_Changes plan → Change_Field c ∈ editableFieldAllowlist.
Proof.
  intros H. unfold validateChangePlan in H. bind_inv H u1 H1. apply block_Ok, bool_decide_eq_false in H1.
  split; [done|]. by eapply check_fields_Ok.
Qed.

(** The patch of an output, as a value or behind a pointer. *)
Definition patch_of (v : any) : option (YamlPatchProposal any) :=
  match v with AnyPatch p | AnyPatchPtr (Some p) => Some p | _ => None end.
Definition rollback_of (v : any) : option (RollbackPlan any) :=
  match v with AnyRollback p | AnyRollbackPtr (Some p) => Some p | _ => None end.
Definition plan_of (v : any) : option (ChangePlan any) :=
  match v with AnyPlan p | AnyPlanPtr (Some p) => Some p | _ => None end.

Lemma plan_of_Some v p : plan_of v = Some p → v = AnyPlan p ∨ v = AnyPlanPtr (Some p).
Proof. destruct v as [| | | | | | | | | |?|[?|]| | | | | | | | |]; intros [= ->]; auto. Qed.
Lemma patch_of_Some v p : patch_of v = Some p → v = AnyPatch p ∨ v = AnyPatchPtr (Some p).
Proof. destruct v as [| | | | | | | | | | | |?|[?|]| | | | | | |]; intros [= ->]; auto. Qed.
Lemma rollback_of_Some v p : rollback_of v = Some p → v = AnyRollback p ∨ v = AnyRollbackPtr (Some p).
Proof. destruct v as [| | | | | | | | | | | | | |?|[?|]| | | | |]; intros [= ->]; auto. Qed.

Lemma existsb_none {A} (f : A → bool) l x : existsb f l = false → x ∈ l → f x = false.
Proof. intros H Hx. destruct (f x) eqn:E; [|done]. rewrite <- H. symmetry. apply existsb_elem. eauto. Qed.

Lemma unrestricted text : containsRestrictedPhrase text = false →
  ∀ phrase, phrase ∈ restrictedPhrases → Contains (ToLower text) phrase = false.
Proof. intros H phrase. by apply (existsb_none (λ p, Contains (ToLower text) p)). Qed.

Lemma no_forbidden m : mapContainsForbiddenField m "" = false →
  ∀ ks, field_at (AnyObject m) ks → isForbiddenField (foldl field_path "" ks) = false.
Proof.
  intros H ks Hks. destruct (isForbiddenField _) eqn:E; [|done]. rewrite <- H. symmetry.
  apply mapContainsForbiddenField_correct. eauto.
Qed.

Lemma validateYamlPatchProposal_Ok patch u :
  validateYamlPatchProposal (Some patch) = Ok u →
  Patch_Safety patch = mkPatchSafety false true ∧ Resource_Kind (Patch_Resource patch) ≠ "Secret"
  ∧ (∀ ks, field_at (AnyObject (Patch_Patch patch)) ks → isForbiddenField (foldl field_path "" ks) = false)
  ∧ ∀ s k, reaches (AnyObject (Patch_Patch patch)) s → k ∈ sensitiveKeywords → Contains (ToLower s) k = false.
Proof.
  intros H. unfold validateYamlPatchProposal in H. bind_inv H u1 H1. bind_inv H u2 H2. bind_inv H u3 H3. bind_inv H u4 H4.
  apply block_Ok in H, H1, H2, H3, H4. apply negb_false_iff in H2. apply bool_decide_eq_false in H3.
  split; [|split; [done|]]; [|split].
  - destruct (Patch_Safety patch) as [d r]. simpl in *. by subst.
  - by apply no_forbidden.
  - intros s k Hr Hk. apply (existsb_none (λ k, Contains (ToLower s) k) sensitiveKeywords); [|done].
    change (stringContainsSensitiveKey s = false). destruct (stringContainsSensitiveKey s) eqn:E; [|done].
    rewrite <- H. symmetry. apply mapContainsSensitiveKey_correct. eauto.
Qed.

Lemma validateRollbackPlan_Ok plan u :
  validateRollbackPlan (Some plan) = Ok u →
  (∀ step phrase, step ∈ Undo_Steps plan → phrase ∈ restrictedPhrases → Contains (ToLower (Step_Action step)) phrase = false)
  ∧ ∀ ks, field_at (AnyObject (Undo_Patch plan)) ks → isForbiddenField (foldl field_path "" ks) = false.
Proof.
  intros H. unfold validateRollbackPlan in H. bind_inv H u1 H1. apply block_Ok in H, H1. split; [|by apply no_forbidden].
  intros step phrase Hs. apply unrestricted. by apply (existsb_none (λ st, containsRestrictedPhrase (Step_Action st)) (Undo_Steps plan)).
Qed.

(** A response that is accepted says nothing restricted in its text, and holds an
    output.  A change plan in it does not target a secret and edits only fields of
    the allowlist; a patch must be reviewed, changes none of the forbidden fields
    at any depth of nested maps and has no sensitive text among its keys, its
    values and those of nested maps; a rollback plan has no restricted step and
    changes none of the forbidden fields. *)
Theorem accepted_outputs_are_confined resp u :
  ValidateResponse (Some resp) = Ok u →
  (∀ phrase, phrase ∈ restrictedPhrases → Contains (ToLower (Response_RawText resp)) phrase = false)
  ∧ Response_Structured resp ≠ AnyNil
  ∧ (∀ plan, plan_of (Response_Structured resp) = Some plan →
       Resource_Kind (Plan_Target plan) ≠ "Secret" ∧ ∀ c, c ∈ Plan_Changes plan → Change_Field c ∈ editableFieldAllowlist)
  ∧ (∀ patch, patch_of (Response_Structured resp) = Some patch →
       Patch_Safety patch = mkPatchSafety false true ∧ Resource_Kind (Patch_Resource patch) ≠ "Secret"
       ∧ (∀ ks, field_at (AnyObject (Patch_Patch patch)) ks → isForbiddenField (foldl field_path "" ks) = false)
       ∧ ∀ s k, reaches (AnyObject (Patch_Patch patch)) s → k ∈ sensitiveKeywords → Contains (ToLower s) k = false)
  ∧ (∀ plan, rollback_of (Response_Structured resp) = Some plan →
       (∀ step phrase, step ∈ Undo_Steps plan → phrase ∈ restrictedPhrases → Contains (ToLower (Step_Action step)) phrase = false)
       ∧ ∀ ks, field_at (AnyObject (Undo_Patch plan)) ks → isForbiddenField (foldl field_path "" ks) = false).
Proof.
  intros H. unfold ValidateResponse in H. bind_inv H u0 Hraw. apply block_Ok in Hraw. split; [by apply unrestricted|].
  split; [by intros E; rewrite E in H|]. split; [|split]; intros p Hp.
  - apply plan_of_Some in Hp as [E|E]; rewrite E in H; by eapply validateChangePlan_Ok.
  - apply patch_of_Some in Hp as [E|E]; rewrite E in H; by eapply validateYamlPatchProposal_Ok.
  - apply rollback_of_Some in Hp as [E|E]; rewrite E in H; by eapply validateRollbackPlan_Ok.
Qed.

(** ** Examples *)

Definition sample_output (structured : any) : ProviderResponse :=
  ModelTypes.mkProviderResponse "r-1" "mock" "m" ModelTypes.TaskGeneratePatch "text" structured "stop" (ModelTypes.mkTokenUsage 1 1 2) 1 [] [].
Definition sample_patch : YamlPatchProposal any :=
  mkYamlPatchProposal (mkCommonMetadata SchemaVersionV1Alpha1 KindYamlPatchProposal "r-1" "GeneratePatch" "model" None None [])
    (mkResourceRef "" "ManagedCluster" "" "dev") "merge" [("spec", AnyObject [("workers", AnyArray [AnyString "gpu"])])] None
    (mkPatchSafety false true).

Lemma accepted_outputs_are_confined_witness :
  patch_of (Response_Structured (sample_output (AnyPatch sample_patch))) = Some sample_patch
  ∧ ∀ s k, reaches (AnyObject (Patch_Patch sample_patch)) s → k ∈ sensitiveKeywords → Contains (ToLower s) k = false.
Proof.
  split; [reflexivity|].
  destruct (accepted_outputs_are_confined (sample_output (AnyPatch sample_patch)) tt eq_refl) as (_ & _ & _ & H & _).
  destruct (H sample_patch eq_refl) as (_ & _ & _ & H4). exact H4.
Defined.

(** A map inside a list is not searched: neither its keys nor its fields. *)
Example list_hides_secret :
  mapContainsSensitiveKey [("items", AnyArray [AnyObject [("password", AnyString "hunter2")]])] = false.
Proof. reflexivity. Qed.

(** The forbidden fields are compared letter by letter, as YAML keys are. *)
Example nested_finalizers :
  mapContainsForbiddenField [("metadata", AnyObject [("finalizers", AnyNil)])] "" = true.
Proof. reflexivity. Qed.
End ModelSafety.
