(* ===== verification/ModelGateway.v ===== *)
(** * ModelGateway: from an intent to a validated plan

    [src/model/gateway/gateway.go] as a program over the provider, the clock and
    the auditor.  The validators are parameters of the gateway, as in the source;
    the text of an error is a parameter. *)
From S2P Require Import Prelude GoStrings Programs ModelSchema ModelTypes SchemaValidator ModelSafety.

Module ModelGateway.
Export Programs.
Import ModelSchema.
Import ModelTypes(any, AnyPlan, TaskType, TaskGeneratePlan, ProviderRequest, mkProviderRequest, ModelContext, mkOutputSchemaRef,
  mkSafetyPolicyRef, TokenUsage, mkTokenUsage, SafetySignal, ProviderResponse, Response_ProviderName, Response_ModelName,
  Response_TokenUsage, Response_SafetySignals, Response_Structured).

Record SafetyValidator : Type := mkSafetyValidator {
  sv_request : ProviderRequest → result unit;
  sv_response : option ProviderResponse → result unit
}.

(** The validators and whether there is an auditor; the provider answers
    requests of the program. *)
Record Gateway : Type := mkGateway {
  gw_validator : option (ChangePlan any) → result unit;
  gw_safety : option SafetyValidator;
  gw_auditor : bool
}.

Record GeneratePlanRequest : Type := mkGeneratePlanRequest {
  Generate_RequestID : string;
  Generate_UserID : string;
  Generate_UserIntent : string;
  Generate_RiskHint : string;
  Generate_Context : ModelContext
}.

Record AuditRecord : Type := mkAuditRecord {
  Audit_RequestID : string;
  Audit_TaskType : TaskType;
  Audit_ProviderName : string;
  Audit_ModelName : string;
  Audit_OutputKind : string;
  Audit_ValidationResult : string;
  Audit_SafetySignals : list SafetySignal;
  Audit_LatencyMs : Z;
  Audit_TokenUsage : TokenUsage;
  Audit_Error : string;
  Audit_CreatedAt : Time
}.

Inductive Ev : Type → Set :=
| Now : Ev Time
| Generate (req : ProviderRequest) : Ev (option ProviderResponse * option error)
| RecordAudit (record : AuditRecord) : Ev (option error).

Abbreviation request e := (ask (e : Ev _)).

(** The plan and the audit record, or the error and the audit record; a response
    that is nil without an error is dereferenced when there is no safety gate. *)
Inductive Outcome : Type :=
| Returned (plan : result (ChangePlan any)) (audit : AuditRecord)
| Panicked.

Definition ErrUnexpectedStructuredOutput : error := Errorf "unexpected structured output type" [].

Section gateway.
(** [err.Error()]. *)
Variable Error : error → string.
Variable g : Gateway.

Definition ensureRequestID (id : string) : prog Ev string :=
  if id !=? "" then Ret id else now ← request Now; Ret ("modelreq-" +:+ Itoa (UnixNano now)).

Definition recordAudit (record : AuditRecord) : prog Ev AuditRecord :=
  if gw_auditor g then _ ← request (RecordAudit record); Ret record else Ret record.

Definition auditSuccess (requestID : string) (task : TaskType) (startedAt : Time) (resp : ProviderResponse) (outputKind : string) :
    prog Ev AuditRecord :=
  since ← request Now;
  now ← request Now;
  recordAudit (mkAuditRecord requestID task (Response_ProviderName resp) (Response_ModelName resp) outputKind "Passed"
    (Response_SafetySignals resp) (Milliseconds (Sub since startedAt)) (Response_TokenUsage resp) "" now).

Definition auditBlocked (requestID : string) (task : TaskType) (startedAt : Time) (err : error) : prog Ev AuditRecord :=
  since ← request Now;
  now ← request Now;
  recordAudit (mkAuditRecord requestID task "" "" "" "Blocked" [] (Milliseconds (Sub since startedAt)) (mkTokenUsage 0 0 0) (Error err) now).

Definition auditProviderError (requestID : string) (task : TaskType) (startedAt : Time) (resp : option ProviderResponse) (err : error) :
    prog Ev AuditRecord :=
  since ← request Now;
  now ← request Now;
  let latency := Milliseconds (Sub since startedAt) in
  recordAudit
    match resp with
    | None => mkAuditRecord requestID task "" "" "" "Failed" [] latency (mkTokenUsage 0 0 0) (Error err) now
    | Some r => mkAuditRecord requestID task (Response_ProviderName r) (Response_ModelName r) "" "Failed" (Response_SafetySignals r)
                  latency (Response_TokenUsage r) (Error err) now
    end.

Definition provider_request (requestID : string) (req : GeneratePlanRequest) : ProviderRequest :=
  mkProviderRequest requestID TaskGeneratePlan (Generate_UserID req) (Generate_RiskHint req) "" (Generate_UserIntent req)
    (Generate_Context req) (mkOutputSchemaRef KindChangePlan SchemaVersionV1Alpha1) (mkSafetyPolicyRef "default" "v1alpha1") 0 f_zero.

Definition safety_request (r : ProviderRequest) : result unit :=
  match gw_safety g with Some s => sv_request s r | None => Ok tt end.
Definition safety_response (r : option ProviderResponse) : result unit :=
  match gw_safety g with Some s => sv_response s r | None => Ok tt end.

(** [resp.Structured.(schema.ChangePlan)]. *)
Definition as_plan (v : any) : option (ChangePlan any) := match v with AnyPlan p => Some p | _ => None end.

(** GeneratePlan once the request has an id. *)
Definition generate (requestID : string) (req : GeneratePlanRequest) : prog Ev Outcome :=
  startedAt ← request Now;
  let providerReq := provider_request requestID req in
  match safety_request providerReq with
  | Err err => audit ← auditBlocked requestID TaskGeneratePlan startedAt err; Ret (Returned (Err err) audit)
  | Ok _ =>
      answer ← request (Generate providerReq);
      let (resp, failed) := answer : option ProviderResponse * option error in
      let fail err := audit ← auditProviderError requestID TaskGeneratePlan startedAt resp err; Ret (Returned (Err err) audit) in
      match failed with
      | Some err => fail err
      | None =>
          match safety_response resp with
          | Err err => fail err
          | Ok _ =>
              match resp with
              | None => Ret Panicked
              | Some r =>
                  match as_plan (Response_Structured r) with
                  | None => fail ErrUnexpectedStructuredOutput
                  | Some plan =>
                      match gw_validator g (Some plan) with
                      | Err err => fail err
                      | Ok _ => audit ← auditSuccess requestID TaskGeneratePlan startedAt r KindChangePlan; Ret (Returned (Ok plan) audit)
                      end
                  end
              end
          end
      end
  end.

Definition GeneratePlan (req : GeneratePlanRequest) : prog Ev Outcome :=
  requestID ← ensureRequestID (Generate_RequestID req);
  generate requestID req.

(** ** What a run does *)

(** The provider is only asked what the safety gate has passed, for the plan that
    was requested. *)
Definition asked_safely (req : GeneratePlanRequest) {X} (h : list (exchange Ev)) (e : Ev X) : Prop :=
  match e with
  | Generate r => safety_request r = Ok tt ∧ ∃ id, r = provider_request id req
  | _ => True
  end.

(** A plan that is returned was answered by the provider, passed the gate and the
    validator, and is audited as passed; everything else is audited as not
    passed, with the text of the error that is returned.  The record that is
    returned is the last thing recorded, when there is an auditor. *)
Definition vetted (req : GeneratePlanRequest) (h : list (exchange Ev)) (o : Outcome) : Prop :=
  match o with
  | Panicked => gw_safety g = None ∨ ∃ s, gw_safety g = Some s ∧ sv_response s None = Ok tt
  | Returned r audit =>
      (gw_auditor g = true → ∃ h' x, h = h' ++ [Asked (RecordAudit audit) x])
      ∧ match r with
        | Ok plan =>
            Audit_ValidationResult audit = "Passed" ∧ gw_validator g (Some plan) = Ok tt
            ∧ ∃ id resp, Asked (Generate (provider_request id req)) (Some resp, None) ∈ h ∧ safety_request (provider_request id req) = Ok tt
                ∧ safety_response (Some resp) = Ok tt ∧ Response_Structured resp = AnyPlan plan
        | Err err => Audit_ValidationResult audit ≠ "Passed" ∧ Audit_Error audit = Error err
        end
  end.

Lemma wp_recordAudit req h record (Q : list (exchange Ev) → AuditRecord → Prop) :
  (∀ h', (gw_auditor g = true → ∃ h1 x, h' = h1 ++ [Asked (RecordAudit record) x]) → (∀ y, y ∈ h → y ∈ h') → Q h' record) →
  wp (@asked_safely req) h (recordAudit record) Q.
Proof.
  intros HQ. unfold recordAudit. destruct (gw_auditor g).
  - apply wp_bind. apply wp_Do; [exact I|]. intros x. apply HQ; [eauto|]. intros y Hy. apply elem_of_app. by left.
  - apply HQ; done.
Qed.

Lemma wp_failed req h requestID startedAt resp err :
  wp (@asked_safely req) h
    (audit ← auditProviderError requestID TaskGeneratePlan startedAt resp err; Ret (Returned (Err err) audit)) (vetted req).
Proof.
  apply wp_bind. unfold auditProviderError. apply wp_bind, wp_Do; [exact I|]. intros since. apply wp_bind, wp_Do; [exact I|].
  intros now. apply wp_recordAudit. intros h' Hh _. split; [done|]. by destruct resp.
Qed.

Lemma unit_Ok (r : result unit) u : r = Ok u → r = Ok tt.
Proof. by destruct u. Qed.

Lemma generate_vetted h requestID req : wp (@asked_safely req) h (generate requestID req) (vetted req).
Proof.
  unfold generate. apply wp_bind, wp_Do; [exact I|]. intros startedAt. cbn zeta.
  destruct (safety_request (provider_request requestID req)) as [u|err] eqn:Hreq; apply unit_Ok in Hreq || idtac.
  - apply wp_bind, wp_Do; [split; eauto|]. intros [resp [err|]]; cbn [wp]; cbv beta iota zeta; [apply wp_failed|].
    destruct (safety_response resp) as [u1|err] eqn:Hresp; [apply unit_Ok in Hresp|apply wp_failed].
    destruct resp as [r|].
    + destruct (as_plan (Response_Structured r)) as [plan|] eqn:Hp; [|apply wp_failed].
      destruct (gw_validator g (Some plan)) as [u2|err] eqn:Hv; [apply unit_Ok in Hv|apply wp_failed].
      apply wp_bind. unfold auditSuccess. apply wp_bind, wp_Do; [exact I|]. intros since. apply wp_bind, wp_Do; [exact I|].
      intros now. apply wp_recordAudit. intros h' Hh Hin. split; [done|]. split; [done|]. split; [done|].
      exists requestID, r. split; [apply Hin; mem|]. do 2 (split; [done|]).
      by destruct (Response_Structured r); simplify_eq/=.
    + cbn [wp vetted]. unfold safety_response in Hresp. destruct (gw_safety g) as [s|]; [right; eauto|by left].
  - apply wp_bind. unfold auditBlocked. apply wp_bind, wp_Do; [exact I|]. intros since. apply wp_bind, wp_Do; [exact I|].
    intros now. apply wp_recordAudit. intros h' Hh _. by split.
Qed.

Lemma GeneratePlan_vetted req : wp (@asked_safely req) [] (GeneratePlan req) (vetted req).
Proof.
  unfold GeneratePlan, ensureRequestID. apply wp_bind. case_match; [apply generate_vetted|].
  apply wp_bind, wp_Do; [exact I|]. intros now. apply generate_vetted.
Qed.
End gateway.

(** The gateway as it is set up: [schema.NewBasicValidator], [safety.NewValidator]. *)
Definition the_gateway (task_name : TaskType → string) (auditor : bool) : Gateway :=
  mkGateway SchemaValidator.ValidateChangePlan
    (Some (mkSafetyValidator (ModelSafety.ValidateRequest task_name) ModelSafety.ValidateResponse)) auditor.
End ModelGateway.

(** * MockProvider: the deterministic provider

    [src/model/mock/provider.go], the provider of tests and offline development,
    as a program that reads the clock. *)

Module MockProvider.
Import ModelSchema ModelGateway.
Import ModelTypes.

Definition mock_name : string := "mock".
Definition mock_model : string := "mock-deterministic-v1".

Definition restrictedTerms : list string :=
  ["direct apply"; "direct delete"; "shell access"; "machine power operation"; "credential value"; "print credential"; "bypass policy";
   "bypass approval"; "auto merge"; "auto-merge"].
Definition restrictedInstruction (instruction : string) : bool :=
  existsb (λ term, Contains (ToLower instruction) term) restrictedTerms.

Definition mock_meta (kind requestID taskType : string) (confidence : option ConfidenceHint) : CommonMetadata :=
  mkCommonMetadata SchemaVersionV1Alpha1 kind requestID taskType "model-gateway" (Some (mkModelRef mock_name mock_model)) confidence [].
Definition mock_cluster : ModelSchema.ResourceRef := ModelSchema.mkResourceRef "infra.ai/v1alpha1" "ManagedCluster" "default" "dev-gpu-cluster".

Definition mock_plan (requestID : string) : ChangePlan any :=
  mkChangePlan
    (mock_meta KindChangePlan requestID "GeneratePlan" (Some (mkConfidenceHint "High" ["deterministic fixture for dev scale-out"])))
    "scale dev-gpu-cluster gpu-workers from 3 to 6" mock_cluster "ScaleOut" "dev" "Medium"
    [mkPlannedChange "spec.workers[name=gpu-workers].replicas" (AnyInt 3) (AnyInt 6) "user requested dev GPU worker scale-out"]
    (mkRollbackSummary "set gpu-workers replicas back to 3")
    (mkValidationExpectations ["ManagedCluster Ready=True"; "workerReadyReplicas=6"]).

Definition mock_rollback (requestID : string) : RollbackPlan any :=
  mkRollbackPlan (mock_meta KindRollbackPlan requestID "GenerateRollback" None) mock_cluster "ScaleOut" "ReversePatch"
    "Set gpu-workers replicas from 6 back to 3."
    [mkRollbackStep 1 "Create a reviewed change that sets replicas from 6 to 3.";
     mkRollbackStep 2 "Wait for the approved delivery workflow to complete.";
     mkRollbackStep 3 "Verify workerReadyReplicas returns to 3."]
    [("spec", AnyObject [("workers", AnyArray [AnyObject
       [("name", AnyString "gpu-workers"); ("replicas", AnyInt 3); ("machineClassRef", AnyObject [("name", AnyString "gpu-large")])]])])]
    (mkValidationExpectations ["workerReadyReplicas=3"]).

Definition mock_report (requestID : string) : ValidationReport :=
  mkValidationReport (mock_meta KindValidationReport requestID "GenerateValidationReport" None)
    (ModelSchema.mkResourceRef "infra.ai/v1alpha1" "AgentOperation" "default" "scale-dev-gpu-cluster") mock_cluster
    (mkObservedState "Running" 6 6 [ModelSchema.mkConditionSummary "Ready" "True" "WorkersReady" ""]) "Succeeded"
    "The scale-out completed successfully."
    [mkEvidenceItem "ManagedCluster.status.workerReadyReplicas" "6"; mkEvidenceItem "ManagedCluster.status.conditions[Ready]" "True"].

Definition mock_risk (requestID : string) : RiskExplanation :=
  mkRiskExplanation (mock_meta KindRiskExplanation requestID "ExplainRisk" None)
    (mkPolicyResultRef "Medium" false "default-risk-policy" "dev-worker-scale-small" "PASS" "dev scale-out within small threshold")
    (mkExplanation "This is a medium-risk dev scale-out."
       ["The target environment is dev."; "The replica increase is +3."; "A rollback plan is available."])
    ["Verify capacity before merging the reviewed change."].

Section mock.
(** The text of a task type. *)
Variable task_name : TaskType → string.

Definition mock_response (req : ProviderRequest) (structured : any) (usage : TokenUsage) (latency : Z) : ProviderResponse :=
  mkProviderResponse (Request_RequestID req) mock_name mock_model (Request_TaskType req) "" structured "stop" usage latency [] [].

(** The response and the error, each possibly nil; [since] is the clock when the
    response is built. *)
Definition Mock_Generate (req : ProviderRequest) (startedAt since : Time) : option ProviderResponse * option error :=
  let latency := Milliseconds (Sub since startedAt) in
  let id := Request_RequestID req in
  let none := mkTokenUsage 0 0 0 in
  if restrictedInstruction (Request_Instruction req)
  then (Some (mkProviderResponse id mock_name mock_model (Request_TaskType req) "" AnyNil "blocked" none latency
                [mkSafetySignal "RestrictedInstruction" "Block" "mock provider blocked restricted instruction"] []),
        Some (ProviderErr "UnsafeOutput" "restricted instruction blocked by mock provider" false))
  else match Request_TaskType req with
       | TaskGeneratePlan => (Some (mock_response req (AnyPlan (mock_plan id)) (mkTokenUsage 1 1 2) latency), None)
       | TaskGenerateRollback => (Some (mock_response req (AnyRollback (mock_rollback id)) none latency), None)
       | TaskGenerateValidationReport => (Some (mock_response req (AnyReport (mock_report id)) none latency), None)
       | TaskExplainRisk => (Some (mock_response req (AnyRisk (mock_risk id)) none latency), None)
       | task => (None, Some (ProviderErr "InvalidOutput" ("unsupported mock task type: " +:+ task_name task) false))
       end.
End mock.
End MockProvider.
