(* ===== verification/ModelRouting.v ===== *)
(** * ModelRouting: the registry of providers and the static router

    [src/model/registry/registry.go] and [src/model/routing/router.go], with the
    capabilities of [src/model/provider/provider.go].  A provider is what its
    methods return; its health is asked for by the caller and is an input. *)
From S2P Require Import Prelude GoStrings Order ModelTypes SchemaValidator ModelGateway.

Module ModelRouting.
Import ModelTypes(TaskType, TaskGeneratePlan, TaskGeneratePatch, TaskExplainRisk, TaskGenerateRollback, TaskGenerateValidationReport,
  TaskSummarizeState, TaskRepairYAML, TaskExplainPolicyFailure, TaskTypeOther).
Import SchemaValidator(Coded).

#[export] Instance TaskType_eq_dec : EqDecision TaskType.
Proof. solve_decision. Defined.

Inductive ProviderType : Set :=
| ProviderTypeHosted | ProviderTypePrivate | ProviderTypeLocal | ProviderTypeMock | ProviderTypeCustomDomain | ProviderTypeOther (s : string).

#[export] Instance ProviderType_eq_dec : EqDecision ProviderType.
Proof. solve_decision. Defined.

Record ProviderCapabilities : Type := mkCapabilities {
  SupportsStructuredOutput : bool;
  SupportsJSONSchema : bool;
  SupportsStreaming : bool;
  SupportsToolUse : bool;
  SupportsVision : bool;
  SupportsLongContext : bool;
  SupportsChinese : bool;
  SupportsCodeGeneration : bool;
  SupportsLocalDeployment : bool;
  MaxInputTokens : Z;
  MaxOutputTokens : Z;
  RecommendedTasks : list TaskType;
  RestrictedCapabilities : list string
}.

Record ModelProvider : Type := mkModelProvider { Name : string; Type_ : ProviderType; Capabilities : ProviderCapabilities }.

Record ProviderHealth : Type := mkProviderHealth {
  Health_Name : string; Health_Available : bool; Health_LatencyMs : Z; Health_ModelNames : list string; Health_Message : string
}.

(** ** registry *)

Definition NewRegistryError (code message : string) : error := Coded "registry.RegistryError" code message.

Record ProviderInfo : Type := mkProviderInfo {
  Info_Name : string;
  Info_Type : ProviderType;
  Info_SupportsStructuredOutput : bool;
  Info_SupportsJSONSchema : bool;
  Info_SupportsLocalDeployment : bool;
  Info_MaxInputTokens : Z;
  Info_MaxOutputTokens : Z;
  Info_RecommendedTasks : list TaskType;
  Info_RestrictedCapabilities : list string
}.
Record ProviderHealthInfo : Type := mkProviderHealthInfo {
  HealthInfo_Name : string;
  HealthInfo_Type : ProviderType;
  HealthInfo_Available : bool;
  HealthInfo_LatencyMs : Z;
  HealthInfo_ModelNames : list string;
  HealthInfo_Message : string
}.

Definition MemoryRegistry : Type := gmap string ModelProvider.
Definition NewMemoryRegistry : MemoryRegistry := ∅.

Definition Register (p : option ModelProvider) (r : MemoryRegistry) : result unit * MemoryRegistry :=
  match p with
  | None => (Err (NewRegistryError "NilProvider" "provider is nil"), r)
  | Some p =>
      if Name p ==? "" then (Err (NewRegistryError "MissingProviderName" "provider name is required"), r)
      else if bool_decide (is_Some (r !! Name p))
      then (Err (NewRegistryError "ProviderAlreadyExists" ("provider " +:+ Name p +:+ " already exists")), r)
      else (Ok tt, <[Name p := p]> r)
  end.

Definition Registry_Get (name : string) (r : MemoryRegistry) : option ModelProvider := r !! name.

Definition info (p : ModelProvider) : ProviderInfo :=
  let caps := Capabilities p in
  mkProviderInfo (Name p) (Type_ p) (SupportsStructuredOutput caps) (SupportsJSONSchema caps) (SupportsLocalDeployment caps)
    (MaxInputTokens caps) (MaxOutputTokens caps) (RecommendedTasks caps) (RestrictedCapabilities caps).

(** [sort.Slice] by name: the names of a registry are different, so the order it
    leaves equal names in does not matter. *)
Definition Registry_List (visit : MemoryRegistry → list ModelProvider) (r : MemoryRegistry) : list ProviderInfo :=
  SliceStable (λ a b, str_lt (Info_Name a) (Info_Name b)) (info <$> visit r).

Definition health_info (Error : error → string) (p : ModelProvider) (answer : option ProviderHealth * option error) : ProviderHealthInfo :=
  match answer with
  | (_, Some err) => mkProviderHealthInfo (Name p) (Type_ p) false 0 [] (Error err)
  | (Some h, None) =>
      mkProviderHealthInfo (Name p) (Type_ p) (Health_Available h) (Health_LatencyMs h) (Health_ModelNames h) (Health_Message h)
  | (None, None) => mkProviderHealthInfo (Name p) (Type_ p) false 0 [] ""
  end.

Definition Registry_Health (Error : error → string) (visit : MemoryRegistry → list ModelProvider)
    (health : ModelProvider → option ProviderHealth * option error) (r : MemoryRegistry) : list ProviderHealthInfo :=
  SliceStable (λ a b, str_lt (HealthInfo_Name a) (HealthInfo_Name b)) ((λ p, health_info Error p (health p)) <$> visit r).

(** ** routing *)

Inductive RouteTaskType : Set :=
| RouteGeneratePlan | RouteGeneratePatch | RouteExplainRisk | RouteGenerateRollback | RouteGenerateValidationReport
| RouteSummarizeState | RouteRepairYAML | RouteExplainPolicyFailure
| TaskRiskClassification | TaskApprovalDecision | TaskRestrictedOperation | RouteTaskOther (s : string).
Inductive RiskLevel : Set := RiskLow | RiskMedium | RiskHigh | RiskCritical | RiskOther (s : string).
Inductive DataSensitivity : Set :=
| DataSensitivityPublic | DataSensitivityInternal | DataSensitivityConfidential | DataSensitivityRestricted | DataSensitivityOther (s : string).

#[export] Instance RouteTaskType_eq_dec : EqDecision RouteTaskType.
Proof. solve_decision. Defined.
#[export] Instance RiskLevel_eq_dec : EqDecision RiskLevel.
Proof. solve_decision. Defined.
#[export] Instance DataSensitivity_eq_dec : EqDecision DataSensitivity.
Proof. solve_decision. Defined.

Definition EnvironmentProduction : string := "production".

Record RouteRequest : Type := mkRouteRequest {
  Route_RequestID : string;
  Route_TaskType : RouteTaskType;
  Route_RiskHint : RiskLevel;
  Route_Environment : string;
  Route_DataSensitivity : DataSensitivity;
  Route_RequiredSchema : string;
  Route_LatencyBudgetMs : Z;
  Route_CostBudget : string;
  Route_Language : string;
  Route_ContextSize : string;
  Route_RequiresPrivateProvider : bool
}.
Record RouteDecision : Type := mkRouteDecision {
  Decision_RoutingDecisionID : string;
  Decision_RequestID : string;
  Decision_TaskType : RouteTaskType;
  Decision_RiskHint : RiskLevel;
  Decision_Environment : string;
  Decision_DataSensitivity : DataSensitivity;
  Decision_SelectedProvider : string;
  Decision_SelectedModel : string;
  Decision_FallbackProviders : list string;
  Decision_ValidationRequired : list string;
  Decision_Reason : list string;
  Decision_Blocked : bool;
  Decision_BlockedReason : string;
  Decision_CreatedAt : Time
}.
Record RouteRule : Type := mkRouteRule {
  Rule_TaskType : RouteTaskType;
  Rule_MinRisk : RiskLevel;
  Rule_MaxRisk : RiskLevel;
  Rule_Environment : string;
  Rule_PreferredProvider : string;
  Rule_FallbackProviders : list string;
  Rule_MinEvaluationScore : Z
}.
Record RoutingPolicy : Type := mkRoutingPolicy {
  FailClosed : bool; RequireEvaluation : bool; BlockOnSafetyFailure : bool; Routes : list RouteRule
}.
Record ProviderScore : Type := mkProviderScore {
  Score_ProviderName : string; Score_AverageScore : Z; Score_SafetyFailures : Z; Score_SchemaFailures : Z; Score_RecommendedTasks : list RouteTaskType
}.

Record StaticRouter : Type := mkStaticRouter {
  router_providers : gmap string ModelProvider; router_scores : gmap string ProviderScore; router_policy : RoutingPolicy
}.

Definition NewStaticRouter (providers : list ModelProvider) (scores : gmap string ProviderScore) (policy : RoutingPolicy) : StaticRouter :=
  mkStaticRouter (foldl (λ m p, <[Name p := p]> m) ∅ providers) scores policy.

Definition NewRoutingError (code message : string) : error := Coded "routing.RoutingError" code message.

Definition riskRank (risk : RiskLevel) : Z :=
  match risk with RiskLow => 1 | RiskMedium => 2 | RiskHigh => 3 | RiskCritical => 4 | RiskOther _ => 0 end.
Definition riskInRange (risk min max : RiskLevel) : bool := (riskRank min <=? riskRank risk)%Z && (riskRank risk <=? riskRank max)%Z.

Definition toProviderTaskType (task : RouteTaskType) : option TaskType :=
  match task with
  | RouteGeneratePlan => Some TaskGeneratePlan
  | RouteGeneratePatch => Some TaskGeneratePatch
  | RouteExplainRisk => Some TaskExplainRisk
  | RouteGenerateRollback => Some TaskGenerateRollback
  | RouteGenerateValidationReport => Some TaskGenerateValidationReport
  | RouteSummarizeState => Some TaskSummarizeState
  | RouteRepairYAML => Some TaskRepairYAML
  | RouteExplainPolicyFailure => Some TaskExplainPolicyFailure
  | _ => None
  end.

Definition providerSupportsTask (caps : ProviderCapabilities) (task : RouteTaskType) : bool :=
  match toProviderTaskType task with
  | None => false
  | Some providerTask => existsb (λ t, t ==? providerTask) (RecommendedTasks caps)
  end.

Definition rule_matches (req : RouteRequest) (rule : RouteRule) : bool :=
  (Rule_TaskType rule ==? Route_TaskType req)
  && riskInRange (Route_RiskHint req) (Rule_MinRisk rule) (Rule_MaxRisk rule)
  && negb ((Rule_Environment rule !=? "") && (Rule_Environment rule !=? Route_Environment req)).
Definition matchRules (r : StaticRouter) (req : RouteRequest) : list RouteRule :=
  filter (λ rule, rule_matches req rule = true) (Routes (router_policy r)).

Definition providerAllowedForRequest (r : StaticRouter) (p : ModelProvider) (req : RouteRequest) (rule : RouteRule) : bool :=
  if negb (providerSupportsTask (Capabilities p) (Route_TaskType req)) then false
  else if Route_RequiresPrivateProvider req && (Type_ p ==? ProviderTypeHosted) then false
  else if (Route_DataSensitivity req ==? DataSensitivityConfidential) && (Type_ p ==? ProviderTypeHosted) then false
  else if (Route_Environment req ==? EnvironmentProduction) && (Route_RiskHint req ==? RiskHigh) && (Type_ p ==? ProviderTypeLocal) then false
  else match router_scores r !! Name p with
       | Some score =>
           if (0 <? Score_SafetyFailures score)%Z then false
           else negb (Score_AverageScore score <? Rule_MinEvaluationScore rule)%Z
       | None => negb (RequireEvaluation (router_policy r))
       end.

(** The loops over the rules and the names of each: the first provider that is
    known and allowed, with its rule. *)
Definition candidate (r : StaticRouter) (req : RouteRequest) (rule : RouteRule) (name : string) : option (ModelProvider * RouteRule) :=
  match router_providers r !! name with
  | None => None
  | Some p => if providerAllowedForRequest r p req rule then Some (p, rule) else None
  end.
Fixpoint first_name (r : StaticRouter) (req : RouteRequest) (rule : RouteRule) (names : list string) : option (ModelProvider * RouteRule) :=
  match names with
  | [] => None
  | name :: names => match candidate r req rule name with Some c => Some c | None => first_name r req rule names end
  end.
Fixpoint first_rule (r : StaticRouter) (req : RouteRequest) (rules : list RouteRule) : option (ModelProvider * RouteRule) :=
  match rules with
  | [] => None
  | rule :: rules =>
      match first_name r req rule (Rule_PreferredProvider rule :: Rule_FallbackProviders rule) with
      | Some c => Some c
      | None => first_rule r req rules
      end
  end.

(** The clock of an id and of a creation time. *)
Section route.
Variable now id_now : Time.

Definition newRouteID : string := "route-" +:+ Itoa (UnixNano id_now).

Definition blockedDecision (req : RouteRequest) (reason : string) : RouteDecision :=
  mkRouteDecision newRouteID (Route_RequestID req) (Route_TaskType req) (Route_RiskHint req) (Route_Environment req) (Route_DataSensitivity req)
    "" "" [] [] [reason] true reason now.

Definition isRestrictedTask (task : RouteTaskType) : bool := task ==? TaskRestrictedOperation.

Definition deterministic (req : RouteRequest) : RouteDecision :=
  mkRouteDecision newRouteID (Route_RequestID req) (Route_TaskType req) (RiskOther "") "" (DataSensitivityOther "")
    "deterministic-policy" "deterministic-policy" [] ["policy"] ["risk and approval decisions use deterministic policy"] false "" now.

Definition routed (req : RouteRequest) (p : ModelProvider) (rule : RouteRule) : RouteDecision :=
  mkRouteDecision newRouteID (Route_RequestID req) (Route_TaskType req) (Route_RiskHint req) (Route_Environment req) (Route_DataSensitivity req)
    (Name p) "default" (Rule_FallbackProviders rule) ["schema"; "safety"; "policy"]
    ["provider matched routing rule"; "provider passed evaluation threshold"; "provider supports requested task"] false "" now.

Definition Route (r : StaticRouter) (req : RouteRequest) : RouteDecision * option error :=
  let blocked code reason := (blockedDecision req reason, Some (NewRoutingError code reason)) in
  if isRestrictedTask (Route_TaskType req) then blocked "RestrictedTask" "restricted task is not routed to model providers"
  else if Route_DataSensitivity req ==? DataSensitivityRestricted then blocked "RestrictedData" "restricted data is not routed to model providers"
  else if (Route_TaskType req ==? TaskRiskClassification) || (Route_TaskType req ==? TaskApprovalDecision) then (deterministic req, None)
  else
    let rules := matchRules r req in
    if length rules =? 0 then blocked "NoRouteMatched" "no routing rule matched"
    else match first_rule r req rules with
         | Some (p, rule) => (routed req p rule, None)
         | None => blocked "NoSafeProvider" "no safe provider available"
         end.
End route.

Definition DefaultRoutingPolicy : RoutingPolicy :=
  mkRoutingPolicy true true true
    [mkRouteRule RouteGeneratePlan RiskLow RiskLow "" "local-small" ["mock"; "hosted-strong"] 80;
     mkRouteRule RouteGeneratePlan RiskMedium RiskHigh "" "hosted-strong" ["private-strong"; "mock"] 90;
     mkRouteRule RouteGenerateRollback RiskMedium RiskHigh "" "hosted-strong" ["private-strong"; "mock"] 90;
     mkRouteRule RouteGenerateValidationReport RiskLow RiskMedium "" "local-small" ["mock"] 75;
     mkRouteRule RouteExplainRisk RiskLow RiskHigh "" "local-small" ["mock"; "hosted-strong"] 75].

(** ** What the router does *)

(** The levels of risk, from the lowest. *)
Definition level (risk : RiskLevel) : Z :=
  match risk with RiskOther _ => 0 | RiskLow => 1 | RiskMedium => 2 | RiskHigh => 3 | RiskCritical => 4 end.

(** The provider task that a routed task is. *)
Inductive provides : RouteTaskType → TaskType → Prop :=
| provides_plan : provides RouteGeneratePlan TaskGeneratePlan
| provides_patch : provides RouteGeneratePatch TaskGeneratePatch
| provides_risk : provides RouteExplainRisk TaskExplainRisk
| provides_rollback : provides RouteGenerateRollback TaskGenerateRollback
| provides_report : provides RouteGenerateValidationReport TaskGenerateValidationReport
| provides_summary : provides RouteSummarizeState TaskSummarizeState
| provides_repair : provides RouteRepairYAML TaskRepairYAML
| provides_policy : provides RouteExplainPolicyFailure TaskExplainPolicyFailure.

Lemma toProviderTaskType_provides task t : toProviderTaskType task = Some t ↔ provides task t.
Proof. split; [destruct task; simpl; intros [= <-]; constructor|by intros []]. Qed.

(** A provider that may serve a request under a rule. *)
Record serves (r : StaticRouter) (req : RouteRequest) (rule : RouteRule) (p : ModelProvider) : Prop := {
  serves_rule : rule ∈ Routes (router_policy r) ∧ Rule_TaskType rule = Route_TaskType req
    ∧ (Rule_Environment rule = "" ∨ Rule_Environment rule = Route_Environment req)
    ∧ (level (Rule_MinRisk rule) ≤ level (Route_RiskHint req) ≤ level (Rule_MaxRisk rule))%Z;
  serves_known : ∃ name, name ∈ Rule_PreferredProvider rule :: Rule_FallbackProviders rule ∧ router_providers r !! name = Some p;
  serves_task : ∃ t, provides (Route_TaskType req) t ∧ t ∈ RecommendedTasks (Capabilities p);
  serves_data : Type_ p = ProviderTypeHosted → Route_RequiresPrivateProvider req = false ∧ Route_DataSensitivity req ≠ DataSensitivityConfidential;
  serves_risk : Type_ p = ProviderTypeLocal → Route_Environment req ≠ "production" ∨ Route_RiskHint req ≠ RiskHigh;
  serves_score : match router_scores r !! Name p with
    | Some score => (Score_SafetyFailures score ≤ 0)%Z ∧ (Rule_MinEvaluationScore rule ≤ Score_AverageScore score)%Z
    | None => RequireEvaluation (router_policy r) = false
    end
}.

Lemma rule_matches_spec req rule :
  rule_matches req rule = true ↔
  Rule_TaskType rule = Route_TaskType req ∧ (Rule_Environment rule = "" ∨ Rule_Environment rule = Route_Environment req)
  ∧ (level (Rule_MinRisk rule) ≤ level (Route_RiskHint req) ≤ level (Rule_MaxRisk rule))%Z.
Proof.
  assert (∀ risk, riskRank risk = level risk) as Hl by (by intros []).
  unfold rule_matches, riskInRange. rewrite !Hl, !andb_true_iff, !Z.leb_le, bool_decide_eq_true, negb_true_iff, andb_false_iff, !negb_false_iff, !bool_decide_eq_true.
  tauto.
Qed.

Lemma supports_spec caps task :
  providerSupportsTask caps task = true ↔ ∃ t, provides task t ∧ t ∈ RecommendedTasks caps.
Proof.
  setoid_rewrite <- toProviderTaskType_provides. unfold providerSupportsTask. destruct (toProviderTaskType task) as [t|].
  - rewrite existsb_exists. split.
    + intros (x & Hx & E%bool_decide_eq_true). subst. exists t. split; [done|]. by apply list_elem_of_In.
    + intros (t' & [= <-] & Hin). exists t. split; [by apply list_elem_of_In|]. by apply bool_decide_eq_true.
  - split; [done|]. by intros (t & ? & _).
Qed.

Lemma allowed_spec r p req rule :
  providerAllowedForRequest r p req rule = true ↔
  (∃ t, provides (Route_TaskType req) t ∧ t ∈ RecommendedTasks (Capabilities p))
  ∧ (Type_ p = ProviderTypeHosted → Route_RequiresPrivateProvider req = false ∧ Route_DataSensitivity req ≠ DataSensitivityConfidential)
  ∧ (Type_ p = ProviderTypeLocal → Route_Environment req ≠ EnvironmentProduction ∨ Route_RiskHint req ≠ RiskHigh)
  ∧ match router_scores r !! Name p with
    | Some score => (Score_SafetyFailures score ≤ 0)%Z ∧ (Rule_MinEvaluationScore rule ≤ Score_AverageScore score)%Z
    | None => RequireEvaluation (router_policy r) = false
    end.
Proof.
  unfold providerAllowedForRequest. rewrite <- supports_spec. destruct (providerSupportsTask _ _); cbn [negb]; [|naive_solver].
  assert (∀ b : bool, (match router_scores r !! Name p with
     | Some score => if (0 <? Score_SafetyFailures score)%Z then false else negb (Score_AverageScore score <? Rule_MinEvaluationScore rule)%Z
     | None => negb (RequireEvaluation (router_policy r)) end = true ↔
     match router_scores r !! Name p with
     | Some score => (Score_SafetyFailures score ≤ 0)%Z ∧ (Rule_MinEvaluationScore rule ≤ Score_AverageScore score)%Z
     | None => RequireEvaluation (router_policy r) = false end)) as Hscore.
  { intros _. destruct (router_scores r !! Name p) as [score|]; [|apply negb_true_iff].
    destruct (Z.ltb_spec 0 (Score_SafetyFailures score)); [split; [done|lia]|]. rewrite negb_true_iff, Z.ltb_ge. split; [done|tauto]. }
  rewrite <- (Hscore true). clear Hscore. destruct (Route_RequiresPrivateProvider req); repeat case_bool_decide; cbn [andb]; naive_solver.
Qed.

Lemma candidate_Some r req rule name p rule' :
  candidate r req rule name = Some (p, rule') ↔
  rule' = rule ∧ router_providers r !! name = Some p ∧ providerAllowedForRequest r p req rule = true.
Proof.
  unfold candidate. destruct (router_providers r !! name) as [q|]; [|split; [done|by intros (_ & H & _)]].
  destruct (providerAllowedForRequest r q req rule) eqn:E; (split; [|intros (-> & [= ->] & H)]).
  - intros [= -> ->]. done.
  - done.
  - done.
  - congruence.
Qed.

Lemma first_name_Some r req rule names p rule' :
  first_name r req rule names = Some (p, rule') →
  rule' = rule ∧ ∃ name, name ∈ names ∧ router_providers r !! name = Some p ∧ providerAllowedForRequest r p req rule = true.
Proof.
  induction names as [|name names IH]; simpl; [done|]. destruct (candidate r req rule name) as [[q rl]|] eqn:E.
  - intros [= -> ->]. apply candidate_Some in E as (-> & H1 & H2). split; [done|]. exists name. split; [apply list_elem_of_here|done].
  - intros (-> & n & Hn & H)%IH. split; [done|]. exists n. split; [by apply list_elem_of_further|done].
Qed.

Lemma first_name_None r req rule names :
  first_name r req rule names = None → ∀ name p, name ∈ names → router_providers r !! name = Some p → providerAllowedForRequest r p req rule = false.
Proof.
  induction names as [|name names IH]; simpl; intros H n p Hn Hp; [by apply not_elem_of_nil in Hn|].
  destruct (candidate r req rule name) eqn:E; [done|]. apply elem_of_cons in Hn as [->|Hn]; [|by apply (IH H n)].
  unfold candidate in E. rewrite Hp in E. by destruct (providerAllowedForRequest r p req rule).
Qed.

Lemma first_rule_Some r req rules p rule :
  first_rule r req rules = Some (p, rule) →
  rule ∈ rules ∧ ∃ name, name ∈ Rule_PreferredProvider rule :: Rule_FallbackProviders rule ∧ router_providers r !! name = Some p
    ∧ providerAllowedForRequest r p req rule = true.
Proof.
  induction rules as [|rl rules IH]; cbn [first_rule]; [done|].
  destruct (first_name r req rl _) as [[q rl']|] eqn:E.
  - intros [= -> ->]. apply first_name_Some in E as [-> H]. split; [apply list_elem_of_here|done].
  - intros [Hin H]%IH. split; [by apply list_elem_of_further|done].
Qed.

Lemma first_rule_None r req rules :
  first_rule r req rules = None → ∀ rule name p, rule ∈ rules → name ∈ Rule_PreferredProvider rule :: Rule_FallbackProviders rule →
  router_providers r !! name = Some p → providerAllowedForRequest r p req rule = false.
Proof.
  induction rules as [|rl rules IH]; cbn [first_rule]; intros H rule name p Hr Hn Hp; [by apply not_elem_of_nil in Hr|].
  destruct (first_name r req rl _) eqn:E; [done|]. apply elem_of_cons in Hr as [->|Hr]; [|by apply (IH H rule name)].
  by apply (first_name_None _ _ _ _ E name).
Qed.

Lemma matchRules_elem r req rule : rule ∈ matchRules r req ↔ rule ∈ Routes (router_policy r) ∧ rule_matches req rule = true.
Proof. unfold matchRules. rewrite list_elem_of_filter. tauto. Qed.

(** C33. What the router decides, and that it decides it whenever it can.  The
    decision names the request and its task, and is blocked exactly if there is
    an error.  A restricted operation, and any task on restricted data, is
    blocked.  Otherwise the classification of a risk and a decision on an
    approval always go to the deterministic policy; any other task goes to a
    provider that may serve it under a rule of the policy, to be validated
    against the schema, for safety and by the policy, and is blocked only if no
    provider may serve it under any rule. *)
Theorem routes_are_safe now id_now r req d err :
  Route now id_now r req = (d, err) →
  let restricted := Route_TaskType req = TaskRestrictedOperation ∨ Route_DataSensitivity req = DataSensitivityRestricted in
  let policy := Route_TaskType req = TaskRiskClassification ∨ Route_TaskType req = TaskApprovalDecision in
  (Decision_RequestID d, Decision_TaskType d) = (Route_RequestID req, Route_TaskType req)
  ∧ (is_Some err ↔ Decision_Blocked d = true)
  ∧ (restricted → is_Some err)
  ∧ (¬ restricted → policy → err = None ∧ Decision_SelectedProvider d = "deterministic-policy")
  ∧ (¬ restricted → ¬ policy →
       (err = None ∧ ∃ rule p, serves r req rule p ∧ Decision_SelectedProvider d = Name p
          ∧ Decision_ValidationRequired d = ["schema"; "safety"; "policy"])
       ∨ (is_Some err ∧ ∀ rule p, ¬ serves r req rule p)).
Proof.
  unfold Route, isRestrictedTask. cbn zeta. case_bool_decide as Ht; [intros [= <- <-]; naive_solver|]. case_bool_decide as Hs; [intros [= <- <-]; naive_solver|].
  assert (∀ rule p, serves r req rule p → rule ∈ matchRules r req ∧ providerAllowedForRequest r p req rule = true) as Hserves.
  { intros rule p [(H1 & H2 & H3 & H4) _ H5 H6 H7 H8]. split; [apply matchRules_elem; rewrite rule_matches_spec; done|]. apply allowed_spec. done. }
  destruct (_ || _)%bool eqn:Hdet.
  { intros [= <- <-]. apply orb_true_iff in Hdet as [E%bool_decide_eq_true|E%bool_decide_eq_true]; naive_solver. }
  rewrite orb_false_iff, !bool_decide_eq_false in Hdet.
  destruct (length (matchRules r req) =? 0) eqn:Hl.
  { intros [= <- <-]. split; [done|]. split; [naive_solver|]. split; [naive_solver|]. split; [tauto|]. intros _ _. right. split; [by eexists|].
    intros rule p [Hin _]%Hserves. apply Nat.eqb_eq, nil_length_inv in Hl. rewrite Hl in Hin. by apply not_elem_of_nil in Hin. }
  destruct (first_rule r req (matchRules r req)) as [[p rule]|] eqn:Hf; intros [= <- <-].
  - apply first_rule_Some in Hf as (Hin & name & Hn & Hp & Ha). split; [done|]. split; [split; [by intros []|done]|]. split; [naive_solver|]. split; [tauto|].
    intros _ _. left. split; [done|]. exists rule, p. split; [|done]. apply matchRules_elem in Hin as [Hin Hm]. apply rule_matches_spec in Hm as (H1 & H2 & H3).
    apply allowed_spec in Ha as (H4 & H5 & H6 & H7). split; [done|eauto|done..].
  - split; [done|]. split; [naive_solver|]. split; [naive_solver|]. split; [tauto|]. intros _ _. right. split; [by eexists|]. intros rule p Hsv. destruct (Hserves rule p Hsv) as [Hin Ha].
    destruct (serves_known _ _ _ _ Hsv) as (name & Hn & Hp). by rewrite (first_rule_None _ _ _ Hf rule name p Hin Hn Hp) in Ha.
Qed.

(** The providers of a registry are known by their names. *)
Lemma Register_known p r r' : (∀ name q, r !! name = Some q → Name q = name) → Register p r = (Ok tt, r') →
  (∀ name q, r' !! name = Some q → Name q = name) ∧ ∀ name q, r !! name = Some q → r' !! name = Some q.
Proof.
  unfold Register. destruct p as [p|]; [|done]. case_bool_decide; [done|]. case_bool_decide as Hex; [done|]. intros Hr [= <-]. split.
  - intros name q Hq. apply (lookup_insert_Some (M := gmap string)) in Hq as [[<- <-]|[_ Hq]]; [done|by apply Hr].
  - intros name q Hq. destruct (decide (Name p = name)) as [<-|Hne]; [|exact (eq_trans (lookup_insert_ne (M := gmap string) _ _ _ _ Hne) Hq)].
    destruct Hex. eauto.
Qed.

(** ** A route *)

(** [mock.Provider]: its name, type and capabilities. *)
Definition mock_provider : ModelProvider :=
  mkModelProvider MockProvider.mock_name ProviderTypeMock
    (mkCapabilities true true false false false false true false true 4096 2048
       [TaskGeneratePlan; TaskGenerateRollback; TaskGenerateValidationReport; TaskExplainRisk]
       ["DirectExecution"; "ManifestApply"; "CredentialRead"; "MachineControl"; "ProductionDelete"; "AutoApprove"; "AutoMerge"]).
Definition sample_router : StaticRouter :=
  NewStaticRouter [mock_provider] {["mock" := mkProviderScore "mock" 95 0 0 []]} DefaultRoutingPolicy.
Definition sample_route_request (data : DataSensitivity) : RouteRequest :=
  mkRouteRequest "r-1" RouteGeneratePlan RiskHigh "production" data "" 0 "" "" "" true.

Lemma routes_are_safe_witness :
  ∃ rule p, serves sample_router (sample_route_request DataSensitivityConfidential) rule p ∧ Name p = "mock".
Proof.
  destruct (routes_are_safe 5 5 sample_router (sample_route_request DataSensitivityConfidential)
    (routed 5 5 (sample_route_request DataSensitivityConfidential) mock_provider
       (mkRouteRule RouteGeneratePlan RiskMedium RiskHigh "" "hosted-strong" ["private-strong"; "mock"] 90)) None eq_refl) as (_ & _ & _ & _ & H).
  destruct H as [[_ (rule & p & Hs & Hn & _)]|[[e E] _]]; [by intros [E|E]|by intros [E|E]|exists rule, p; split; [exact Hs|exact (eq_sym Hn)]|discriminate E].
Defined.
End ModelRouting.
