(* ===== verification/ChangePolicy.v ===== *)
(** * ChangePolicy: proposals and the policy that judges them

    [src/agent/proposal/proposal.go], [src/policy/checker/checker.go] and
    [src/agent/workflow/workflow.go].  Go leaves the conversion of a float64 to
    int open when its integer part is not an int: [float_int] is the conversion. *)
From S2P Require Import Prelude GoStrings GoText ModelSchema ModelTypes SchemaValidator.

Module ChangePolicy.
Import ModelSchema.
Import ModelTypes(any, AnyNil, AnyString, AnyInt, AnyInt32, AnyInt64, AnyNumber, AnyFloat32).
Import SchemaValidator(Coded).

(** ** proposal *)

Record ProposalChange : Set := mkProposalChange {
  Proposed_Field : string; Proposed_From : any; Proposed_To : any; Proposed_Reason : string
}.
Record PolicyResult : Set := mkPolicyResult {
  Policy_RiskLevel : string;
  Policy_ApprovalRequired : bool;
  Policy_PolicyName : string;
  Policy_MatchedRule : string;
  Policy_Result : string;
  Policy_Reason : string
}.
Record RollbackProposal : Set := mkRollbackProposal { RollbackProposal_Summary : string }.
Record ValidationPlan : Set := mkValidationPlan { ValidationPlan_Expected : list string }.

Record ChangeProposal : Set := mkChangeProposal {
  Proposal_ID : string;
  Proposal_RequestID : string;
  Proposal_Intent : string;
  Proposal_Target : ResourceRef;
  Proposal_OperationType : string;
  Proposal_Environment : string;
  Proposal_Changes : list ProposalChange;
  Proposal_ModelRiskHint : string;
  Proposal_PolicyResult : option PolicyResult;
  Proposal_Rollback : RollbackProposal;
  Proposal_ValidationPlan : ValidationPlan;
  Proposal_ApprovalRequired : bool;
  Proposal_CreatedBy : string;
  Proposal_CreatedAt : Time
}.

Definition NewProposalError (code message : string) : error := Coded "proposal.ProposalError" code message.

Definition newProposalID (requestID : string) : string := "proposal-" +:+ requestID.

Definition proposal_change (change : PlannedChange any) : ProposalChange :=
  mkProposalChange (Change_Field change) (Change_From change) (Change_To change) (Change_Reason change).

Definition FromChangePlan (now : Time) (plan : ChangePlan any) (createdBy : string) : result ChangeProposal :=
  let requestID := Meta_RequestID (Plan_Meta plan) in
  if requestID ==? "" then Err (NewProposalError "MissingRequestID" "ChangePlan.requestId is required")
  else if Plan_Intent plan ==? "" then Err (NewProposalError "MissingIntent" "ChangePlan.intent is required")
  else if (Resource_Kind (Plan_Target plan) ==? "") || (Resource_Name (Plan_Target plan) ==? "")
  then Err (NewProposalError "MissingTarget" "ChangePlan.target.kind and target.name are required")
  else if length (Plan_Changes plan) =? 0 then Err (NewProposalError "MissingChanges" "ChangePlan.changes must not be empty")
  else
    let createdBy := if createdBy ==? "" then "system" else createdBy in
    Ok (mkChangeProposal (newProposalID requestID) requestID (Plan_Intent plan) (Plan_Target plan) (Plan_OperationType plan)
          (Plan_Environment plan) (proposal_change <$> Plan_Changes plan) (Plan_RiskHint plan) None
          (mkRollbackProposal (Rollback_Summary (Plan_Rollback plan)))
          (mkValidationPlan (Validation_Expected (Plan_Validation plan))) false createdBy now).

Definition ApplyPolicyResult (p : ChangeProposal) (r : PolicyResult) : ChangeProposal :=
  mkChangeProposal (Proposal_ID p) (Proposal_RequestID p) (Proposal_Intent p) (Proposal_Target p) (Proposal_OperationType p)
    (Proposal_Environment p) (Proposal_Changes p) (Proposal_ModelRiskHint p) (Some r) (Proposal_Rollback p)
    (Proposal_ValidationPlan p) (Policy_ApprovalRequired r) (Proposal_CreatedBy p) (Proposal_CreatedAt p).

Definition IsPolicyEvaluated (p : option ChangeProposal) : bool :=
  match p with
  | Some p => match Proposal_PolicyResult p with Some r => Policy_Result r !=? "" | None => false end
  | None => false
  end.

(** ** checker *)

Record Rule : Set := mkRule {
  Rule_Name : string;
  Rule_Environment : string;
  Rule_OperationType : string;
  Rule_TargetKind : string;
  Rule_AllowedField : string;
  Rule_MaxReplicaDelta : Z;
  Rule_RiskLevel : string;
  Rule_ApprovalRequired : bool;
  Rule_Reason : string
}.
Record Policy : Set := mkPolicy { Policy_Name : string; Policy_Rules : list Rule }.

Definition RiskMedium : string := "Medium".
Definition RiskHigh : string := "High".

Definition NewPolicyError (code message : string) : error := Coded "checker.PolicyError" code message.

Definition gpu_replicas : string := "spec.workers[name=gpu-workers].replicas".

Definition DefaultPolicy : Policy :=
  mkPolicy "default-risk-policy"
    [mkRule "dev-managedcluster-small-scale" "dev" "ScaleOut" "ManagedCluster" gpu_replicas 3 RiskMedium false
       "dev ManagedCluster scale-out within small replica delta";
     mkRule "staging-managedcluster-small-scale" "staging" "ScaleOut" "ManagedCluster" gpu_replicas 3 RiskMedium true
       "staging infrastructure change requires review"].

Section checker.
Variable float_int : float64 → Z.

Definition toInt (value : any) : option Z :=
  match value with
  | AnyInt v | AnyInt32 v | AnyInt64 v => Some v
  | AnyNumber f | AnyFloat32 f => Some (float_int f)
  | _ => None
  end.

Definition replicaDelta (from to : any) : Z :=
  match toInt from, toInt to with
  | Some f, Some t => if (f <=? t)%Z then sub64 t f else sub64 f t
  | _, _ => 0%Z
  end.

Definition change_matches (r : Rule) (change : ProposalChange) : bool :=
  negb ((Rule_AllowedField r !=? "") && (Proposed_Field change !=? Rule_AllowedField r))
  && negb ((0 <? Rule_MaxReplicaDelta r)%Z
           && (Rule_MaxReplicaDelta r <? replicaDelta (Proposed_From change) (Proposed_To change))%Z).

Definition matches (r : Rule) (p : ChangeProposal) : bool :=
  negb ((Rule_Environment r !=? "") && (Rule_Environment r !=? Proposal_Environment p))
  && negb ((Rule_OperationType r !=? "") && (Rule_OperationType r !=? Proposal_OperationType p))
  && negb ((Rule_TargetKind r !=? "") && (Rule_TargetKind r !=? Resource_Kind (Proposal_Target p)))
  && forallb (change_matches r) (Proposal_Changes p).

(** [NewChecker]: a policy without rules is replaced. *)
Definition NewChecker (policy : Policy) : Policy := if length (Policy_Rules policy) =? 0 then DefaultPolicy else policy.

Definition fail_closed (policy : Policy) : PolicyResult :=
  mkPolicyResult RiskHigh true (Policy_Name policy) "fail-closed" "REVIEW_REQUIRED" "no explicit policy rule matched; fail closed".

Definition rule_result (policy : Policy) (rule : Rule) : PolicyResult :=
  mkPolicyResult (Rule_RiskLevel rule) (Rule_ApprovalRequired rule) (Policy_Name policy) (Rule_Name rule) "PASS" (Rule_Reason rule).

Definition Evaluate (policy : Policy) (p : option ChangeProposal) : result PolicyResult :=
  match p with
  | None => Err (NewPolicyError "NilProposal" "proposal is nil")
  | Some p =>
      if length (Proposal_Changes p) =? 0 then Err (NewPolicyError "MissingChanges" "proposal changes must not be empty")
      else match List.find (λ rule, matches rule p) (Policy_Rules policy) with
           | Some rule => Ok (rule_result policy rule)
           | None => Ok (fail_closed policy)
           end
  end.

Definition Explain (r : PolicyResult) : string :=
  Policy_Result r +:+ " | " +:+ Policy_RiskLevel r +:+ " | " +:+ Policy_MatchedRule r +:+ " | " +:+ Policy_Reason r.
Definition ResultSummary (r : PolicyResult) : string :=
  "risk=" +:+ Policy_RiskLevel r +:+ " approvalRequired=" +:+ (if Policy_ApprovalRequired r then "true" else "false")
  +:+ " rule=" +:+ Policy_MatchedRule r.
End checker.

(** ** workflow *)

Definition NewWorkflowError (code message : string) : error := Coded "workflow.WorkflowError" code message.

(** The checker of the planner, if there is one. *)
Definition BuildEvaluatedProposal (checker : option (option ChangeProposal → result PolicyResult)) (now : Time)
    (plan : ChangePlan any) (createdBy : string) : result ChangeProposal :=
  changeProposal ← FromChangePlan now plan createdBy;
  match checker with
  | None => Err (NewWorkflowError "MissingPolicyChecker" "policy checker is required")
  | Some evaluate => policyResult ← evaluate (Some changeProposal); Ok (ApplyPolicyResult changeProposal policyResult)
  end.

(** ** What the policy decides *)

Lemma FromChangePlan_Ok now plan createdBy p :
  FromChangePlan now plan createdBy = Ok p →
  Proposal_Changes p = proposal_change <$> Plan_Changes plan ∧ Plan_Changes plan ≠ [] ∧ Proposal_Target p = Plan_Target plan
  ∧ Proposal_Environment p = Plan_Environment plan ∧ Proposal_OperationType p = Plan_OperationType plan
  ∧ Proposal_PolicyResult p = None.
Proof.
  unfold FromChangePlan. intros H. do 3 (case_match; [done|]). destruct (length _ =? 0) eqn:Hl; [done|].
  injection H as <-. simpl. split; [done|]. split; [by intros E; rewrite E in Hl|done].
Qed.

Lemma BuildEvaluatedProposal_Ok evaluate now plan createdBy p :
  BuildEvaluatedProposal (Some evaluate) now plan createdBy = Ok p →
  ∃ p0 r, FromChangePlan now plan createdBy = Ok p0 ∧ evaluate (Some p0) = Ok r ∧ p = ApplyPolicyResult p0 r.
Proof. intros H. unfold BuildEvaluatedProposal in H. bind_inv H p0 H0. bind_inv H r Hr. injection H as <-. eauto. Qed.

Section decisions.
Variable float_int : float64 → Z.

(** The first rule that matches decides; without one, the change is reviewed. *)
Lemma Evaluate_Ok policy p r :
  Evaluate float_int policy (Some p) = Ok r →
  (∃ rule, rule ∈ Policy_Rules policy ∧ matches float_int rule p = true ∧ r = rule_result policy rule)
  ∨ r = fail_closed policy ∧ ∀ rule, rule ∈ Policy_Rules policy → matches float_int rule p = false.
Proof.
  unfold Evaluate. case_match; [done|]. destruct (List.find _ _) as [rule|] eqn:Hf; intros [= <-].
  - apply find_some in Hf as [Hin Hm]. left. exists rule. split; [by apply list_elem_of_In|done].
  - right. split; [done|]. intros rule Hin. apply (find_none _ _ Hf). by apply list_elem_of_In.
Qed.

(** What the default policy lets pass without approval: a scale-out of the GPU
    workers of a ManagedCluster that the plan says is in dev, by at most three
    replicas in each change whose values are numbers. *)
Lemma default_without_approval p r :
  Evaluate float_int DefaultPolicy (Some p) = Ok r → Policy_ApprovalRequired r = false →
  Proposal_Environment p = "dev" ∧ Proposal_OperationType p = "ScaleOut" ∧ Resource_Kind (Proposal_Target p) = "ManagedCluster"
  ∧ ∀ c, c ∈ Proposal_Changes p →
      Proposed_Field c = gpu_replicas ∧ (replicaDelta float_int (Proposed_From c) (Proposed_To c) ≤ 3)%Z.
Proof.
  intros H Ha. apply Evaluate_Ok in H as [(rule & Hin & Hm & ->)|[-> _]]; [|done].
  simpl in Hin, Ha. apply elem_of_cons in Hin as [->|Hin]; [|by apply list_elem_of_singleton in Hin as ->].
  unfold matches in Hm. apply andb_true_iff in Hm as [Hm Hc]. apply andb_true_iff in Hm as [Hm Hk].
  apply andb_true_iff in Hm as [He Ho]. simpl in He, Ho, Hk. rewrite negb_involutive in He, Ho, Hk.
  apply bool_decide_eq_true in He, Ho, Hk. do 3 (split; [done|]). intros c Hin. apply forallb_forall with (x := c) in Hc; [|by apply list_elem_of_In].
  unfold change_matches in Hc. apply andb_true_iff in Hc as [Hf Hd]. simpl in Hf, Hd. rewrite negb_involutive in Hf.
  apply bool_decide_eq_true in Hf. apply negb_true_iff, Z.ltb_ge in Hd. done.
Qed.
End decisions.
End ChangePolicy.
