(* ===== verification/DraftPipeline.v ===== *)
(** * DraftPipeline: from an intent to a pull request draft

    [src/agent/prdraft/prdraft.go] and [src/agent/pipeline/pipeline.go].  The text
    [fmt] gives a value with the verb v is the parameter [sprint].  The pipeline is
    a program over the environment of its gateway. *)
From S2P Require Import Prelude Programs GoStrings ModelSchema ModelTypes SchemaValidator ModelSafety ModelGateway ChangePolicy.

Module DraftPipeline.
Import ModelSchema ModelGateway ChangePolicy.
Import ModelTypes(any, AnyPlan, ModelContext, mkModelContext, Response_Structured, ProviderResponse).
Import SchemaValidator(Coded).

(** ** prdraft *)

Record Draft : Set := mkDraft { Draft_Title : string; Draft_Body : string }.

Definition NewDraftError (code message : string) : error := Coded "prdraft.DraftError" code message.

(** [strings.Join(parts, sep)]. *)
Fixpoint Join (sep : string) (parts : list string) : string :=
  match parts with
  | [] => ""
  | [part] => part
  | part :: parts => part +:+ sep +:+ Join sep parts
  end.
Definition newline : string := String (ascii_of_N 10) "".

Section draft.
Variable sprint : any → string.

Definition renderChange (change : ProposalChange) : list string :=
  ("- `" +:+ Proposed_Field change +:+ "`: `" +:+ sprint (Proposed_From change) +:+ "` -> `" +:+ sprint (Proposed_To change) +:+ "`")
  :: (if Proposed_Reason change !=? "" then ["  - Reason: " +:+ Proposed_Reason change] else []).
Definition renderChanges (changes : list ProposalChange) : string := Join newline (changes ≫= renderChange).

Definition renderRollback (rollback : RollbackProposal) : string :=
  if RollbackProposal_Summary rollback ==? "" then "- Rollback plan is not provided." else "- " +:+ RollbackProposal_Summary rollback.

Definition renderValidation (plan : ValidationPlan) : string :=
  if length (ValidationPlan_Expected plan) =? 0 then "- [ ] Manual validation required."
  else Join newline ((λ e, "- [ ] " +:+ e) <$> ValidationPlan_Expected plan).

Definition quoted (label s : string) : string := "- " +:+ label +:+ ": `" +:+ s +:+ "`".

Definition draft_body (p : ChangeProposal) (r : PolicyResult) : string :=
  Join newline
    ["## Intent"; Proposal_Intent p; "";
     "## Target";
     quoted "Kind" (Resource_Kind (Proposal_Target p));
     quoted "Name" (Resource_Name (Proposal_Target p));
     quoted "Namespace" (Resource_Namespace (Proposal_Target p));
     quoted "Environment" (Proposal_Environment p); "";
     "## Proposed Changes"; renderChanges (Proposal_Changes p); "";
     "## Risk and Approval";
     quoted "Model risk hint" (Proposal_ModelRiskHint p);
     quoted "Policy risk level" (Policy_RiskLevel r);
     quoted "Approval required" (if Policy_ApprovalRequired r then "true" else "false");
     quoted "Policy" (Policy_PolicyName r);
     quoted "Matched rule" (Policy_MatchedRule r);
     quoted "Policy result" (Policy_Result r);
     "- Reason: " +:+ Policy_Reason r; "";
     "## Rollback Plan"; renderRollback (Proposal_Rollback p); "";
     "## Validation Checklist"; renderValidation (Proposal_ValidationPlan p); "";
     "## Safety Boundary";
     "- This PR draft is generated from a policy-evaluated proposal.";
     "- No direct infrastructure execution is performed by the model or agent.";
     "- Apply path should remain GitOps / controller based."].

Definition change_title (operation : string) (target : ResourceRef) : string :=
  operation +:+ " " +:+ Resource_Kind target +:+ "/" +:+ Resource_Name target.

Definition DraftOf (p : option ChangeProposal) : result Draft :=
  match p with
  | None => Err (NewDraftError "NilProposal" "proposal is nil")
  | Some p =>
      match Proposal_PolicyResult p with
      | Some r =>
          if negb (IsPolicyEvaluated (Some p))
          then Err (NewDraftError "PolicyNotEvaluated" "proposal must be evaluated by policy before PR draft generation")
          else if length (Proposal_Changes p) =? 0
          then Err (NewDraftError "MissingChanges" "proposal changes must not be empty")
          else Ok (mkDraft (change_title (Proposal_OperationType p) (Proposal_Target p)) (draft_body p r))
      | None => Err (NewDraftError "PolicyNotEvaluated" "proposal must be evaluated by policy before PR draft generation")
      end
  end.
End draft.

(** ** pipeline *)

Definition NewPipelineError (code message : string) : error := Coded "pipeline.PipelineError" code message.

Record Request : Set := mkRequest {
  Req_RequestID : string; Req_UserID : string; Req_UserIntent : string; Req_RiskHint : string; Req_CreatedBy : string
}.
Record Result : Set := mkResult {
  Res_Plan : ChangePlan any; Res_Audit : option AuditRecord; Res_Proposal : ChangeProposal; Res_Draft : Draft
}.

(** What a gateway returns: a plan, an audit record and an error, each possibly
    nil; [None] when it panics. *)
Definition Answer : Type := option (option (ChangePlan any) * option AuditRecord * option error).
Definition answer_of (o : Outcome) : Answer :=
  match o with
  | Returned (Ok plan) audit => Some (Some plan, Some audit, None)
  | Returned (Err err) audit => Some (None, Some audit, Some err)
  | Panicked => None
  end.

(** The parts of a pipeline, each possibly nil. *)
Record Pipeline : Type := mkPipeline {
  pl_gateway : option (GeneratePlanRequest → prog Ev Answer);
  pl_planner : option (Time → ChangePlan any → string → result ChangeProposal);
  pl_generator : option (option ChangeProposal → result Draft)
}.

Definition empty_context : ModelContext := mkModelContext [] [] None "" [] [] "".

(** The planner reads the clock when it builds the proposal. *)
Definition Run (p : Pipeline) (req : Request) : prog Ev (option (result Result)) :=
  match pl_gateway p, pl_planner p, pl_generator p with
  | None, _, _ => Ret (Some (Err (NewPipelineError "MissingGateway" "plan gateway is required")))
  | Some _, None, _ => Ret (Some (Err (NewPipelineError "MissingPlanner" "evaluated proposal planner is required")))
  | Some _, Some _, None => Ret (Some (Err (NewPipelineError "MissingDraftGenerator" "draft generator is required")))
  | Some gateway, Some planner, Some generate =>
      answer ← gateway (mkGeneratePlanRequest (Req_RequestID req) (Req_UserID req) (Req_UserIntent req) (Req_RiskHint req) empty_context);
      match answer with
      | None => Ret None
      | Some (_, _, Some err) => Ret (Some (Err err))
      | Some (None, _, None) => Ret (Some (Err (NewPipelineError "MissingPlan" "gateway returned nil plan")))
      | Some (Some plan, audit, None) =>
          now ← request Now;
          Ret (Some (evaluatedProposal ← planner now plan (Req_CreatedBy req);
                     draft ← generate (Some evaluatedProposal);
                     Ok (mkResult plan audit evaluatedProposal draft)))
      end
  end.

(** The pipeline over the gateway, the default policy and the draft generator. *)
Section assembled.
Variable Error : error → string.
Variable task_name : ModelTypes.TaskType → string.
Variable sprint : any → string.
Variable float_int : float64 → Z.
Variable auditor : bool.

Definition the_pipeline : Pipeline :=
  mkPipeline
    (Some (λ req, o ← GeneratePlan Error (the_gateway task_name auditor) req; Ret (answer_of o)))
    (Some (BuildEvaluatedProposal (Some (Evaluate float_int (NewChecker DefaultPolicy)))))
    (Some (DraftOf sprint)).
End assembled.
End DraftPipeline.
