(* ===== verification/Clusters.v ===== *)
(** * Clusters: managed clusters and their reconciliation

    [src/infra/api/types.go] and [validation.go], the adapter boundary with its
    in-memory implementation ([src/infra/adapter]) and the controller over any
    adapter ([src/infra/controller/fake.go]).  Replicas are int32 and wrap. *)
From S2P Require Import Prelude GoStrings.

Module Clusters.

Definition wrap32 (z : Z) : Z := ((z + 2147483648) mod 4294967296 - 2147483648)%Z.
Definition in_int32 (z : Z) : Prop := (-2147483648 ≤ z ≤ 2147483647)%Z.

Lemma wrap32_id z : in_int32 z → wrap32 z = z.
Proof. intros H. unfold wrap32, in_int32 in *. rewrite Z.mod_small; lia. Qed.
Lemma wrap32_range z : in_int32 (wrap32 z).
Proof. unfold wrap32, in_int32. pose proof (Z.mod_pos_bound (z + 2147483648) 4294967296). lia. Qed.

(** ** api *)

Definition GroupName : string := "infra.aicloud.dev".
Definition Version : string := "v1alpha1".
Definition KindManagedCluster : string := "ManagedCluster".
Definition KindMachineClass : string := "MachineClass".

Record OwnerReference : Set := mkOwnerReference { Owner_APIVersion : string; Owner_Kind : string; Owner_Name : string }.
Record LocalObjectReference : Set := mkLocalObjectReference { LocalRef_Kind : string; LocalRef_Name : string }.
Record Condition : Set := mkCondition {
  Condition_Type : string; Condition_Status : string; Condition_ObservedGeneration : Z; Condition_Reason : string; Condition_Message : string
}.

Record ObjectMeta : Set := mkObjectMeta {
  Meta_Name : string;
  Meta_Namespace : string;
  Meta_Labels : gmap string string;
  Meta_Annotations : gmap string string;
  Meta_Generation : Z;
  Meta_Finalizers : list string;
  Meta_OwnerReferences : list OwnerReference
}.

Record WorkerGroupSpec : Set := mkWorkerGroupSpec {
  Worker_Name : string; Worker_Replicas : Z; Worker_MachineClassRef : LocalObjectReference; Worker_Labels : gmap string string
}.
Record ManagedClusterSpec : Set := mkManagedClusterSpec {
  Spec_Environment : string; Spec_ProviderRef : LocalObjectReference; Spec_Workers : list WorkerGroupSpec
}.
Record ManagedClusterStatus : Set := mkManagedClusterStatus {
  Status_ObservedGeneration : Z; Status_Phase : string; Status_WorkerReadyReplicas : Z; Status_Conditions : list Condition
}.
Record ManagedCluster : Set := mkManagedCluster {
  Cluster_APIVersion : string;
  Cluster_Kind : string;
  Cluster_Meta : ObjectMeta;
  Cluster_Spec : ManagedClusterSpec;
  Cluster_Status : ManagedClusterStatus
}.

Record GPUSpec : Set := mkGPUSpec { GPU_Count : Z; GPU_Type : string }.
Record MachineClassSpec : Set := mkMachineClassSpec {
  Class_Provider : string; Class_CPU : string; Class_Memory : string; Class_GPU : option GPUSpec; Class_Labels : gmap string string
}.
Record MachineClass : Set := mkMachineClass {
  Class_APIVersion : string; Class_Kind : string; Class_Meta : ObjectMeta; Class_Spec : MachineClassSpec
}.

Definition ConditionReady : string := "Ready".
Definition ConditionReconciling : string := "Reconciling".
Definition ConditionDegraded : string := "Degraded".
Definition PhaseRunning : string := "Running".
Definition PhaseReconciling : string := "Reconciling".
Definition PhaseDegraded : string := "Degraded".

Definition no_status : ManagedClusterStatus := mkManagedClusterStatus 0 "" 0 [].

Definition NewManagedCluster (name namespace environment : string) : ManagedCluster :=
  mkManagedCluster (GroupName +:+ "/" +:+ Version) KindManagedCluster (mkObjectMeta name namespace ∅ ∅ 1 [] [])
    (mkManagedClusterSpec environment (mkLocalObjectReference "" "") []) no_status.

Definition NewMachineClass (name provider : string) : MachineClass :=
  mkMachineClass (GroupName +:+ "/" +:+ Version) KindMachineClass (mkObjectMeta name "" ∅ ∅ 0 [] [])
    (mkMachineClassSpec provider "" "" None ∅).

(** A field with what is wrong with it, and the text of a list of them. *)
Record ValidationError : Set := mkValidationError { Invalid_Field : string; Invalid_Message : string }.
Definition ValidationErrors_Error (errs : list ValidationError) : string :=
  match errs with
  | [] => ""
  | _ => foldl (λ message e, message +:+ "; " +:+ Invalid_Field e +:+ ": " +:+ Invalid_Message e) "validation failed" errs
  end.
Definition validation_failed (errs : list ValidationError) : result unit :=
  match errs with [] => Ok tt | _ => Err (TypedErr "api.ValidationErrors" (ValidationErrors_Error errs) None) end.

Definition invalid (b : bool) (field message : string) : list ValidationError :=
  if b then [mkValidationError field message] else [].

(** The workers from the [i]-th on, with the names seen before. *)
Fixpoint validate_workers (i : nat) (seen : gset string) (workers : list WorkerGroupSpec) : list ValidationError :=
  match workers with
  | [] => []
  | worker :: workers =>
      let fieldPrefix := "spec.workers[" +:+ Itoa (Z.of_nat i) +:+ "]" in
      (if Worker_Name worker ==? "" then [mkValidationError (fieldPrefix +:+ ".name") "worker group name is required"]
       else invalid (bool_decide (Worker_Name worker ∈ seen)) (fieldPrefix +:+ ".name") "worker group name must be unique")
      ++ invalid (Worker_Replicas worker <? 0)%Z (fieldPrefix +:+ ".replicas") "replicas must be >= 0"
      ++ invalid (LocalRef_Name (Worker_MachineClassRef worker) ==? "") (fieldPrefix +:+ ".machineClassRef.name") "machineClassRef.name is required"
      ++ validate_workers (S i) (if Worker_Name worker ==? "" then seen else {[Worker_Name worker]} ∪ seen) workers
  end.

Definition ValidateManagedCluster (cluster : ManagedCluster) : result unit :=
  validation_failed
    (invalid ((Cluster_Kind cluster !=? "") && (Cluster_Kind cluster !=? KindManagedCluster)) "kind" "kind must be ManagedCluster"
     ++ invalid (Meta_Name (Cluster_Meta cluster) ==? "") "metadata.name" "metadata.name is required"
     ++ invalid (Spec_Environment (Cluster_Spec cluster) ==? "") "spec.environment" "spec.environment is required"
     ++ validate_workers 0 ∅ (Spec_Workers (Cluster_Spec cluster))).

Definition ValidateMachineClass (class : MachineClass) : result unit :=
  validation_failed
    (invalid ((Class_Kind class !=? "") && (Class_Kind class !=? KindMachineClass)) "kind" "kind must be MachineClass"
     ++ invalid (Meta_Name (Class_Meta class) ==? "") "metadata.name" "metadata.name is required"
     ++ invalid (Class_Provider (Class_Spec class) ==? "") "spec.provider" "spec.provider is required"
     ++ match Class_GPU (Class_Spec class) with
        | None => []
        | Some gpu =>
            invalid (GPU_Count gpu <? 0)%Z "spec.gpu.count" "gpu.count must be >= 0"
            ++ invalid ((0 <? GPU_Count gpu)%Z && (GPU_Type gpu ==? "")) "spec.gpu.type" "gpu.type is required when gpu.count > 0"
        end).

(** *** What a valid cluster is *)

Definition valid_worker (w : WorkerGroupSpec) : Prop :=
  Worker_Name w ≠ "" ∧ (0 ≤ Worker_Replicas w)%Z ∧ LocalRef_Name (Worker_MachineClassRef w) ≠ "".
Definition valid_cluster (c : ManagedCluster) : Prop :=
  (Cluster_Kind c = "" ∨ Cluster_Kind c = KindManagedCluster) ∧ Meta_Name (Cluster_Meta c) ≠ "" ∧ Spec_Environment (Cluster_Spec c) ≠ ""
  ∧ Forall valid_worker (Spec_Workers (Cluster_Spec c)) ∧ NoDup (Worker_Name <$> Spec_Workers (Cluster_Spec c)).

Lemma invalid_nil b field message : invalid b field message = [] ↔ b = false.
Proof. by destruct b. Qed.

Lemma validation_failed_Ok errs : validation_failed errs = Ok tt ↔ errs = [].
Proof. by destruct errs. Qed.

Lemma validate_workers_nil i seen workers :
  validate_workers i seen workers = [] ↔
  Forall valid_worker workers ∧ NoDup (Worker_Name <$> workers) ∧ ∀ w, w ∈ workers → Worker_Name w ∉ seen.
Proof.
  revert i seen. induction workers as [|w workers IH]; intros i seen; cbn [validate_workers].
  { split; [|done]. intros _. repeat split; [constructor..|]. by intros w H%not_elem_of_nil. }
  rewrite !app_nil, !invalid_nil, IH, Forall_cons, fmap_cons, NoDup_cons. unfold valid_worker at 2.
  rewrite Z.ltb_ge, bool_decide_eq_false. destruct (decide (Worker_Name w = "")) as [He|He].
  { rewrite bool_decide_true by done. split; [intros (H & _); done|intros ([[H _] _] & _); done]. }
  rewrite bool_decide_false by done. rewrite invalid_nil, bool_decide_eq_false. split.
  - intros (Hs & Hr & Hc & Hf & Hn & Hd). split; [done|]. split.
    + split; [|done]. intros (w' & Hw & Hin)%list_elem_of_fmap. apply (Hd w' Hin). rewrite <- Hw. set_solver.
    + intros w' [->|Hw]%elem_of_cons; [done|]. pose proof (Hd w' Hw). set_solver.
  - intros ([(_ & Hr & Hc) Hf] & [Hnin Hn] & Hd). split; [apply Hd, list_elem_of_here|]. do 4 (split; [done|]).
    intros w' Hw [Heq%elem_of_singleton|Hin]%elem_of_union; [|by apply (Hd w'); [by apply list_elem_of_further|]].
    apply Hnin. rewrite <- Heq. by apply list_elem_of_fmap_2.
Qed.

Lemma ValidateManagedCluster_correct c : ValidateManagedCluster c = Ok tt ↔ valid_cluster c.
Proof.
  unfold ValidateManagedCluster, valid_cluster. rewrite validation_failed_Ok, !app_nil, !invalid_nil, validate_workers_nil, !bool_decide_eq_false.
  rewrite andb_false_iff, !negb_false_iff, !bool_decide_eq_true. set_solver.
Qed.

Lemma ValidateManagedCluster_Ok c u : ValidateManagedCluster c = Ok u → valid_cluster c.
Proof. destruct u. apply ValidateManagedCluster_correct. Qed.
End Clusters.

(** * Controller: reconciling managed clusters

    [src/infra/adapter/adapter.go] and [src/infra/controller/fake.go].  The adapter is a type class with the
    in-memory adapter as an instance; the controller is written over the class. *)

Module Controller.
Import Clusters.

(** ** adapter *)

Record ObservedClusterState : Set := mkObserved {
  Observed_ReadyReplicas : Z; Observed_Phase : string; Observed_Conditions : list Condition
}.

(** The backend an adapter talks to is its state. *)
Class ClusterAdapter (A : Type) : Type := {
  Observe : ManagedCluster → A → result ObservedClusterState * A;
  ApplyDesiredState : ManagedCluster → A → result unit * A
}.

Definition NamespacedName (namespace name : string) : string := if namespace ==? "" then name else namespace +:+ "/" +:+ name.
Definition key_of (cluster : ManagedCluster) : string := NamespacedName (Meta_Namespace (Cluster_Meta cluster)) (Meta_Name (Cluster_Meta cluster)).

Definition desiredReplicas (cluster : ManagedCluster) : Z :=
  foldl (λ total worker, wrap32 (total + Worker_Replicas worker)) 0%Z (Spec_Workers (Cluster_Spec cluster)).

Definition FakeClusterAdapter : Type := gmap string ObservedClusterState.

Definition Fake_Observe (cluster : ManagedCluster) (a : FakeClusterAdapter) : result ObservedClusterState * FakeClusterAdapter :=
  match ValidateManagedCluster cluster with
  | Err err => (Err err, a)
  | Ok _ =>
      (Ok match a !! key_of cluster with
          | Some observed => observed
          | None => let s := Cluster_Status cluster in mkObserved (Status_WorkerReadyReplicas s) (Status_Phase s) (Status_Conditions s)
          end, a)
  end.

Definition Fake_ApplyDesiredState (cluster : ManagedCluster) (a : FakeClusterAdapter) : result unit * FakeClusterAdapter :=
  match ValidateManagedCluster cluster with
  | Err err => (Err err, a)
  | Ok _ =>
      let current := match fst (Fake_Observe cluster a) with Ok o => o | Err _ => mkObserved 0 "" [] end in
      let desired := desiredReplicas cluster in
      let ready := Observed_ReadyReplicas current in
      let next := if (ready <? desired)%Z then mkObserved (wrap32 (ready + 1)) PhaseReconciling (Observed_Conditions current)
                  else if (desired <? ready)%Z then mkObserved (wrap32 (ready - 1)) PhaseReconciling (Observed_Conditions current)
                  else mkObserved ready PhaseRunning (Observed_Conditions current) in
      (Ok tt, <[key_of cluster := next]> a)
  end.

Definition SetObservedState (cluster : ManagedCluster) (state : ObservedClusterState) (a : FakeClusterAdapter) : result unit * FakeClusterAdapter :=
  if Meta_Name (Cluster_Meta cluster) ==? "" then (Err (Errorf "cluster name is required" []), a)
  else (Ok tt, <[key_of cluster := state]> a).

#[export] Instance fake_adapter : ClusterAdapter FakeClusterAdapter := {
  Observe := Fake_Observe;
  ApplyDesiredState := Fake_ApplyDesiredState
}.

(** ** controller *)

Definition FakeStateStore : Type := gmap string ManagedCluster.
Definition Store_Get (key : string) (s : FakeStateStore) : option ManagedCluster := s !! key.
Definition Store_Set (key : string) (cluster : ManagedCluster) (s : FakeStateStore) : FakeStateStore := <[key := cluster]> s.

Definition set_status (c : ManagedCluster) (s : ManagedClusterStatus) : ManagedCluster :=
  mkManagedCluster (Cluster_APIVersion c) (Cluster_Kind c) (Cluster_Meta c) (Cluster_Spec c) s.

Section controller.
(** [err.Error()]. *)
Variable Error : error → string.
Context {A : Type} `{ClusterAdapter A}.

Record FakeController : Type := mkController { ctl_store : FakeStateStore; ctl_adapter : A }.

Definition condition (c : ManagedCluster) (ty status reason message : string) : Condition :=
  mkCondition ty status (Meta_Generation (Cluster_Meta c)) reason message.

Definition degraded (c : ManagedCluster) (reason : string) (err : error) : ManagedCluster :=
  let s := Cluster_Status c in
  set_status c (mkManagedClusterStatus (Status_ObservedGeneration s) PhaseDegraded (Status_WorkerReadyReplicas s)
    [condition c ConditionReady "False" reason (Error err); condition c ConditionDegraded "True" reason (Error err)]).

Definition running (c : ManagedCluster) (ready : Z) : ManagedCluster :=
  set_status c (mkManagedClusterStatus (Meta_Generation (Cluster_Meta c)) PhaseRunning ready
    [condition c ConditionReady "True" "WorkersReady" "all worker groups are ready";
     condition c ConditionReconciling "False" "ReconcileComplete" "desired state has been reconciled"]).

Definition reconciling (c : ManagedCluster) (ready : Z) : ManagedCluster :=
  set_status c (mkManagedClusterStatus (Status_ObservedGeneration (Cluster_Status c)) PhaseReconciling ready
    [condition c ConditionReady "False" "ScalingWorkers" "workers are scaling toward desired replicas";
     condition c ConditionReconciling "True" "DesiredStateChanged" "desired state has not been fully reconciled"]).

(** The cluster with the status that is stored for it. *)
Definition with_stored_status (c : ManagedCluster) (store : FakeStateStore) : ManagedCluster :=
  match Store_Get (key_of c) store with Some current => set_status c (Cluster_Status current) | None => c end.

(** The cluster that is returned, with the error if any. *)
Definition Reconcile (cluster : ManagedCluster) (ctl : FakeController) : (ManagedCluster * option error) * FakeController :=
  match ValidateManagedCluster cluster with
  | Err err => ((cluster, Some err), ctl)
  | Ok _ =>
      let key := key_of cluster in
      let cluster := with_stored_status cluster (ctl_store ctl) in
      let save c err a := ((c, err), mkController (Store_Set key c (ctl_store ctl)) a) in
      match ApplyDesiredState cluster (ctl_adapter ctl) with
      | (Err err, a) => save (degraded cluster "AdapterError" err) (Some err) a
      | (Ok _, a) =>
          match Observe cluster a with
          | (Err err, a) => save (degraded cluster "ObserveError" err) (Some err) a
          | (Ok observed, a) =>
              if (Observed_ReadyReplicas observed =? desiredReplicas cluster)%Z
              then save (running cluster (Observed_ReadyReplicas observed)) None a
              else save (reconciling cluster (Observed_ReadyReplicas observed)) None a
          end
      end
  end.

(** The reconciler called again and again for a cluster. *)
Fixpoint reconcile_times (n : nat) (cluster : ManagedCluster) (ctl : FakeController) : FakeController :=
  match n with
  | O => ctl
  | S n => reconcile_times n cluster (snd (Reconcile cluster ctl))
  end.

(** Whatever the adapter: reconciliation changes nothing but the status, stores
    what it returns under the key of the cluster and nothing else, says Running
    exactly if the adapter observed what is desired, and Degraded exactly if the
    adapter failed. *)
Theorem Reconcile_reports cluster ctl c err ctl' :
  Reconcile cluster ctl = ((c, err), ctl') → valid_cluster cluster →
  c = set_status cluster (Cluster_Status c)
  ∧ ctl_store ctl' = <[key_of cluster := c]> (ctl_store ctl)
  ∧ (is_Some err ↔ Status_Phase (Cluster_Status c) = PhaseDegraded)
  ∧ (err = None →
      ∃ observed a, Observe (with_stored_status cluster (ctl_store ctl)) a = (Ok observed, ctl_adapter ctl')
        ∧ ApplyDesiredState (with_stored_status cluster (ctl_store ctl)) (ctl_adapter ctl) = (Ok tt, a)
        ∧ Status_WorkerReadyReplicas (Cluster_Status c) = Observed_ReadyReplicas observed
        ∧ (Status_Phase (Cluster_Status c) = PhaseRunning ↔ Observed_ReadyReplicas observed = desiredReplicas cluster)
        ∧ (Status_Phase (Cluster_Status c) = PhaseRunning →
             Status_ObservedGeneration (Cluster_Status c) = Meta_Generation (Cluster_Meta cluster))).
Proof.
  intros Hrun Hvalid. unfold Reconcile in Hrun. rewrite (proj2 (ValidateManagedCluster_correct cluster) Hvalid) in Hrun.
  cbn zeta in Hrun.
  assert (∃ s, with_stored_status cluster (ctl_store ctl) = set_status cluster s) as [s Hs].
  { unfold with_stored_status. destruct (Store_Get _ _); [eauto|]. exists (Cluster_Status cluster). by destruct cluster. }
  rewrite Hs in *. destruct (ApplyDesiredState _ _) as [[[]|e] a] eqn:Happly; [|by simplify_eq/=].
  destruct (Observe _ a) as [[observed|e] a'] eqn:Hobs; [|by simplify_eq/=].
  assert (desiredReplicas (set_status cluster s) = desiredReplicas cluster) as Hd by done. rewrite Hd in Hrun.
  destruct (Z.eqb_spec (Observed_ReadyReplicas observed) (desiredReplicas cluster)) as [Heq|Hne]; simplify_eq/=.
  - do 2 (split; [done|]). split; [split; [by intros []|done]|]. intros _. exists observed, a. done.
  - do 2 (split; [done|]). split; [split; [by intros []|done]|]. intros _. exists observed, a. repeat split; done.
Qed.
End controller.

(** ** Convergence with the in-memory adapter *)

Section converges.
Variable Error : error → string.
Variable cluster : ManagedCluster.
Hypothesis valid : valid_cluster cluster.

(** What the adapter would observe. *)
Definition ready_now (ctl : FakeController (A := FakeClusterAdapter)) : Z :=
  match ctl_adapter ctl !! key_of cluster with
  | Some observed => Observed_ReadyReplicas observed
  | None => Status_WorkerReadyReplicas (Cluster_Status (with_stored_status cluster (ctl_store ctl)))
  end.

(** One replica closer. *)
Definition closer (ready desired : Z) : Z :=
  if (ready <? desired)%Z then (ready + 1)%Z else if (desired <? ready)%Z then (ready - 1)%Z else ready.

Lemma desiredReplicas_range c : in_int32 (desiredReplicas c).
Proof.
  unfold desiredReplicas. generalize (Spec_Workers (Cluster_Spec c)). intros l.
  assert (in_int32 0) as H0 by (unfold in_int32; lia). revert H0. generalize 0%Z. induction l as [|w l IH]; intros z Hz; [done|].
  apply IH, wrap32_range.
Qed.

Lemma valid_status s : ValidateManagedCluster (set_status cluster s) = Ok tt.
Proof. apply ValidateManagedCluster_correct. exact valid. Qed.

Lemma with_stored_status_eq store :
  with_stored_status cluster store = set_status cluster (Cluster_Status (with_stored_status cluster store)).
Proof. unfold with_stored_status. destruct (Store_Get _ _); [done|]. by destruct cluster. Qed.

Lemma Reconcile_step ctl :
  in_int32 (ready_now ctl) →
  ∃ c ctl', Reconcile Error cluster ctl = ((c, None), ctl') ∧ ready_now ctl' = closer (ready_now ctl) (desiredReplicas cluster)
    ∧ c = (if (ready_now ctl' =? desiredReplicas cluster)%Z then running else reconciling)
            (with_stored_status cluster (ctl_store ctl)) (ready_now ctl').
Proof.
  intros Hr. unfold Reconcile. rewrite (proj2 (ValidateManagedCluster_correct cluster) valid). cbn zeta.
  set (stored := with_stored_status cluster (ctl_store ctl)).
  assert (stored = set_status cluster (Cluster_Status stored)) as Hst by apply with_stored_status_eq.
  assert (key_of stored = key_of cluster) as Hkey by (by rewrite Hst).
  assert (desiredReplicas stored = desiredReplicas cluster) as Hdes by (by rewrite Hst).
  assert (ValidateManagedCluster stored = Ok tt) as Hv by (rewrite Hst; apply valid_status).
  simpl. unfold Fake_ApplyDesiredState, Fake_Observe. rewrite Hv, Hkey, Hdes. cbn [fst].
  set (current := match ctl_adapter ctl !! key_of cluster with Some o => o | None => _ end).
  assert (Observed_ReadyReplicas current = ready_now ctl) as Hcur.
  { unfold current, ready_now. by destruct (ctl_adapter ctl !! key_of cluster). }
  rewrite Hcur. set (next := if (ready_now ctl <? _)%Z then _ else _).
  assert (Observed_ReadyReplicas next = closer (ready_now ctl) (desiredReplicas cluster)) as Hnext.
  { unfold next, closer. pose proof (desiredReplicas_range cluster) as Hd. unfold in_int32 in *.
    destruct (Z.ltb_spec (ready_now ctl) (desiredReplicas cluster)); [apply wrap32_id; unfold in_int32; lia|].
    destruct (Z.ltb_spec (desiredReplicas cluster) (ready_now ctl)); [apply wrap32_id; unfold in_int32; lia|done]. }
  assert (<[key_of cluster := next]> (ctl_adapter ctl) !! key_of cluster = Some next) as Hlk
    by exact (lookup_insert_eq (M := gmap string) _ _ _).
  rewrite Hlk, Hnext.
  destruct (closer _ _ =? _)%Z eqn:Heq; eexists _, _; (split; [reflexivity|]);
    (assert (∀ st, ready_now (mkController st (<[key_of cluster := next]> (ctl_adapter ctl))) = closer (ready_now ctl) (desiredReplicas cluster))
      as Hrn by (intros st; unfold ready_now; cbn [ctl_adapter]; by rewrite Hlk));
    rewrite !Hrn, Heq; done.
Qed.

Lemma closer_range ready desired : in_int32 ready → in_int32 desired → in_int32 (closer ready desired).
Proof. unfold in_int32, closer. intros H1 H2. destruct (Z.ltb_spec ready desired); [lia|]. destruct (Z.ltb_spec desired ready); lia. Qed.

Lemma reconcile_times_ready n ctl :
  in_int32 (ready_now ctl) → (Z.abs (desiredReplicas cluster - ready_now ctl) ≤ Z.of_nat n)%Z →
  ready_now (reconcile_times Error n cluster ctl) = desiredReplicas cluster.
Proof.
  revert ctl. induction n as [|n IH]; intros ctl Hr Hn; [simpl; lia|].
  destruct (Reconcile_step ctl Hr) as (c & ctl' & Heq & Hready & _). cbn [reconcile_times]. rewrite Heq. apply IH.
  - cbn [snd]. rewrite Hready. apply closer_range; [done|apply desiredReplicas_range].
  - cbn [snd]. rewrite Hready. unfold closer. destruct (Z.ltb_spec (ready_now ctl) (desiredReplicas cluster)); [lia|].
    destruct (Z.ltb_spec (desiredReplicas cluster) (ready_now ctl)); lia.
Qed.

Lemma reconcile_times_range n ctl : in_int32 (ready_now ctl) → in_int32 (ready_now (reconcile_times Error n cluster ctl)).
Proof.
  revert ctl. induction n as [|n IH]; intros ctl Hr; [done|].
  destruct (Reconcile_step ctl Hr) as (c & ctl' & Heq & Hready & _). cbn [reconcile_times]. rewrite Heq. apply IH. cbn [snd].
  rewrite Hready. apply closer_range; [done|apply desiredReplicas_range].
Qed.

(** C34. Reconciling a valid cluster over and over, from any state of the controller
    and its adapter, reaches the desired replicas after as many calls as replicas
    are missing or too many; from then on every call reports the cluster as
    Running at its generation with all replicas ready. *)
Theorem reconciliation_converges n ctl :
  in_int32 (ready_now ctl) → (Z.abs (desiredReplicas cluster - ready_now ctl) ≤ Z.of_nat n)%Z →
  ∃ c ctl', Reconcile Error cluster (reconcile_times Error n cluster ctl) = ((c, None), ctl')
    ∧ Status_Phase (Cluster_Status c) = PhaseRunning
    ∧ Status_WorkerReadyReplicas (Cluster_Status c) = desiredReplicas cluster
    ∧ Status_ObservedGeneration (Cluster_Status c) = Meta_Generation (Cluster_Meta cluster)
    ∧ Cluster_Spec c = Cluster_Spec cluster.
Proof.
  intros Hr Hn. pose proof (reconcile_times_ready n ctl Hr Hn) as Hready.
  destruct (Reconcile_step (reconcile_times Error n cluster ctl)) as (c & ctl' & Heq & Hr' & ->); [by apply reconcile_times_range|].
  assert (ready_now ctl' = desiredReplicas cluster) as Hd.
  { rewrite Hr', Hready. unfold closer. by rewrite Z.ltb_irrefl. }
  eexists _, ctl'. split; [exact Heq|]. rewrite Hd, Z.eqb_refl. unfold running. rewrite with_stored_status_eq. done.
Qed.
End converges.

(** ** A cluster that is scaled from nothing *)

Definition sample_cluster : ManagedCluster :=
  mkManagedCluster "infra.aicloud.dev/v1alpha1" KindManagedCluster (mkObjectMeta "dev-gpu-cluster" "default" ∅ ∅ 1 [] [])
    (mkManagedClusterSpec "dev" (mkLocalObjectReference "" "")
       [mkWorkerGroupSpec "gpu-workers" 3 (mkLocalObjectReference "" "gpu-large") ∅]) no_status.

Lemma sample_cluster_valid : valid_cluster sample_cluster.
Proof. by apply ValidateManagedCluster_correct. Qed.

Lemma reconciliation_converges_witness :
  ∃ c ctl', Reconcile (λ _, "") sample_cluster (reconcile_times (λ _, "") 3 sample_cluster (mkController ∅ (∅ : FakeClusterAdapter))) = ((c, None), ctl')
    ∧ Status_WorkerReadyReplicas (Cluster_Status c) = 3%Z.
Proof.
  destruct (reconciliation_converges (λ _, "") sample_cluster sample_cluster_valid 3 (mkController ∅ (∅ : FakeClusterAdapter)))
    as (c & ctl' & H1 & _ & H2 & _).
  - vm_compute. done.
  - vm_compute. done.
  - exists c, ctl'. split; [exact H1|]. exact H2.
Defined.
End Controller.
