(* ===== verification/GitOps.v ===== *)
(** * GitOps: reviewable manifest changes

    [src/integrations/gitops]: patch plans, their application to a manifest in
    memory, the dry-run writer and the branch plan.  [strings.ToLower] on text
    that is kept is the parameter [lower]; the text [fmt] gives a value with the
    verb v is [sprint]. *)
From S2P Require Import Prelude GoStrings GoText ModelSchema ModelTypes SchemaValidator ChangePolicy DraftPipeline Clusters.

Module GitOps.
Import ModelSchema ChangePolicy.
Import ModelTypes(any, AnyInt, AnyInt32, AnyInt64, AnyNumber, AnyFloat32).
Import SchemaValidator(Coded).
Import DraftPipeline(Join, change_title, newline).
Import Clusters(ManagedCluster, mkManagedCluster, Cluster_APIVersion, Cluster_Kind, Cluster_Meta, Cluster_Spec, Cluster_Status, Meta_Name,
  Meta_Namespace, Spec_Workers, Spec_Environment, Spec_ProviderRef, mkManagedClusterSpec, WorkerGroupSpec, mkWorkerGroupSpec, Worker_Name, Worker_Replicas,
  Worker_MachineClassRef, Worker_Labels, ValidateManagedCluster, KindManagedCluster).

Definition NewGitOpsError (code message : string) : error := Coded "gitops.GitOpsError" code message.

Record ManifestFieldChange : Set := mkFieldChange {
  Field_Field : string; Field_From : any; Field_To : any; Field_Reason : string
}.
Record PRMetadata : Set := mkPRMetadata { PR_BranchName : string; PR_CommitMessage : string; PR_Title : string; PR_Draft : bool }.
Record ManifestPatchPlan : Set := mkPatchPlan {
  Patch_RequestID : string;
  Patch_ProposalID : string;
  Patch_Target : ResourceRef;
  Patch_SourcePath : string;
  Patch_OutputPath : string;
  Patch_Changes : list ManifestFieldChange;
  Patch_Rollback : list ManifestFieldChange;
  Patch_Validation : list string;
  Patch_PolicyResult : PolicyResult;
  Patch_PR : PRMetadata
}.

(** ** Patch plans *)

Definition blockedPrefixes : list string :=
  ["status"; "metadata.finalizers"; "metadata.ownerReferences"; "spec.credentials"; "spec.secretRef"; "spec.bmcSecretRef"].
Definition isBlockedField (field : string) : bool :=
  existsb (λ prefix, (field ==? prefix) || HasPrefix field (prefix +:+ ".")) blockedPrefixes.

Definition allowedFields : list string := ["spec.workers[name=gpu-workers].replicas"].

Definition validateField (field : string) : result unit :=
  if field ==? "" then Err (NewGitOpsError "MissingField" "change field is required")
  else if isBlockedField field then Err (NewGitOpsError "BlockedField" ("field " +:+ field +:+ " is blocked for GitOps manifest generation"))
  else if negb (bool_decide (field ∈ allowedFields)) then Err (NewGitOpsError "FieldNotAllowed" ("field " +:+ field +:+ " is not in GitOps allowlist"))
  else Ok tt.

(** [strings.ReplaceAll(value, "a", "-")], [strings.ReplaceAll(value, "--", "-")]. *)
Definition dash (a : ascii) (l : list ascii) : list ascii := (λ b, if b ==? a then "-"%char else b) <$> l.
Fixpoint merge_dashes (l : list ascii) : list ascii :=
  match l with
  | a :: ((b :: l2) as l1) =>
      if (a ==? "-"%char) && (b ==? "-"%char) then "-"%char :: merge_dashes l2 else a :: merge_dashes l1
  | _ => l
  end.

(** [for strings.Contains(value, "--")]: each round is shorter. *)
Fixpoint merge_all (fuel : nat) (l : list ascii) : list ascii :=
  match fuel with
  | O => l
  | S fuel => if contains (bytes "--") l then merge_all fuel (merge_dashes l) else l
  end.

(** One round for each byte is enough: the loop ends because nothing is left to
    merge. *)
Lemma merge_dashes_length l :
  length (merge_dashes l) ≤ length l ∧ (contains (bytes "--") l = true → length (merge_dashes l) < length l).
Proof.
  induction l as [l IH] using (well_founded_induction (well_founded_ltof _ length)). unfold ltof in IH.
  destruct l as [|a [|b l]]; [done|split; [done|]; cbn; case_bool_decide; done|]. cbn [merge_dashes].
  destruct ((a ==? "-"%char) && (b ==? "-"%char)) eqn:E.
  - destruct (IH l) as [H _]; [simpl; lia|]. simpl. lia.
  - destruct (IH (b :: l)) as [H1 H2]; [simpl; lia|]. split; [simpl in *; lia|]. intros Hc.
    assert (contains (bytes "--") (b :: l) = true) as Hb; [|specialize (H2 Hb); simpl in *; lia].
    apply andb_false_iff in E as [E%bool_decide_eq_false|E%bool_decide_eq_false]; cbn in Hc.
    + rewrite (bool_decide_false ("-"%char = a)) in Hc by congruence. exact Hc.
    + rewrite (bool_decide_false ("-"%char = b)) in Hc by congruence. rewrite andb_false_r in Hc. cbn. rewrite (bool_decide_false ("-"%char = b)) by congruence. exact Hc.
Qed.

Lemma merge_all_merged fuel l : length l ≤ fuel → contains (bytes "--") (merge_all fuel l) = false.
Proof.
  revert l. induction fuel as [|fuel IH]; intros l Hl; [by destruct l; [|simpl in Hl; lia]|]. cbn [merge_all].
  destruct (contains (bytes "--") l) eqn:E; [|done]. apply IH. pose proof (proj2 (merge_dashes_length l) E). lia.
Qed.

Section planner.
Variable lower : string → string.
Variable sprint : any → string.

Definition sanitizePathPart (value : string) : string :=
  let l := dash "/" (dash " " (dash "_" (bytes (TrimSpace (lower value))))) in
  of_bytes (trim_char "-" (merge_all (length l) l)).

Definition or_else (s d : string) : string := if s ==? "" then d else s.

Definition buildPRMetadata (p : ChangeProposal) : PRMetadata :=
  let operation := or_else (sanitizePathPart (lower (Proposal_OperationType p))) "change" in
  let requestID := or_else (sanitizePathPart (Proposal_RequestID p)) "request" in
  let targetName := or_else (sanitizePathPart (Resource_Name (Proposal_Target p))) "target" in
  let title := change_title (Proposal_OperationType p) (Proposal_Target p) in
  mkPRMetadata ("aicloud/" +:+ requestID +:+ "/" +:+ operation +:+ "/" +:+ targetName) ("aicloud: " +:+ title) title
    match Proposal_PolicyResult p with Some r => Policy_ApprovalRequired r | None => false end.

Definition field_change (change : ProposalChange) : ManifestFieldChange :=
  mkFieldChange (Proposed_Field change) (Proposed_From change) (Proposed_To change) (Proposed_Reason change).
Definition field_rollback (change : ProposalChange) : ManifestFieldChange :=
  mkFieldChange (Proposed_Field change) (Proposed_To change) (Proposed_From change) ("rollback: " +:+ Proposed_Reason change).

Fixpoint validate_fields (changes : list ProposalChange) : result unit :=
  match changes with
  | [] => Ok tt
  | change :: changes => _ ← validateField (Proposed_Field change); validate_fields changes
  end.

Definition BuildPatchPlan (p : option ChangeProposal) (sourcePath outputPath : string) : result ManifestPatchPlan :=
  match p with
  | None => Err (NewGitOpsError "NilProposal" "proposal is nil")
  | Some p =>
      match Proposal_PolicyResult p with
      | Some policyResult =>
          if negb (IsPolicyEvaluated (Some p))
          then Err (NewGitOpsError "PolicyNotEvaluated" "proposal must be evaluated by policy before manifest patch planning")
          else if sourcePath ==? "" then Err (NewGitOpsError "MissingSourcePath" "source manifest path is required")
          else
            let outputPath := or_else outputPath sourcePath in
            if length (Proposal_Changes p) =? 0 then Err (NewGitOpsError "MissingChanges" "proposal changes must not be empty")
            else
              _ ← validate_fields (Proposal_Changes p);
              Ok (mkPatchPlan (Proposal_RequestID p) (Proposal_ID p) (Proposal_Target p) sourcePath outputPath
                    (field_change <$> Proposal_Changes p) (field_rollback <$> Proposal_Changes p)
                    (ValidationPlan_Expected (Proposal_ValidationPlan p)) policyResult (buildPRMetadata p))
      | None => Err (NewGitOpsError "PolicyNotEvaluated" "proposal must be evaluated by policy before manifest patch planning")
      end
  end.

(** ** Applying a plan to a manifest in memory *)

Definition managedClusterWorkerReplicasField : string := "spec.workers[name=gpu-workers].replicas".

(** [math.Trunc(v) == v], for finite v; infinities are out of range below. *)
Definition f_integral (f : float64) : bool :=
  match f with
  | S754_zero _ => true
  | S754_finite _ m e => (0 <=? e)%Z || (Z.pos m mod 2 ^ (- e) =? 0)%Z
  | _ => false
  end.
Definition checked32 (v : Z) : option Z := if fits_int4 v then Some v else None.

Definition toInt32 (value : any) : option Z :=
  match value with
  | AnyInt v | AnyInt64 v => checked32 v
  | AnyInt32 v => Some v
  | AnyNumber f | AnyFloat32 f => if f_integral f then checked32 (f_trunc f) else None
  | _ => None
  end.

Fixpoint findWorkerGroup (workers : list WorkerGroupSpec) (name : string) : option nat :=
  match workers with
  | [] => None
  | worker :: workers => if Worker_Name worker ==? name then Some 0 else S <$> findWorkerGroup workers name
  end.

Definition set_replicas (w : WorkerGroupSpec) (replicas : Z) : WorkerGroupSpec :=
  mkWorkerGroupSpec (Worker_Name w) replicas (Worker_MachineClassRef w) (Worker_Labels w).

Definition apply_change (change : ManifestFieldChange) (workers : list WorkerGroupSpec) : result (list WorkerGroupSpec) :=
  if Field_Field change !=? managedClusterWorkerReplicasField
  then Err (NewGitOpsError "UnsupportedManagedClusterField" ("unsupported ManagedCluster patch field " +:+ Field_Field change)) else
  match toInt32 (Field_From change), toInt32 (Field_To change) with
  | None, _ => Err (NewGitOpsError "InvalidFromValue" ("from value for " +:+ Field_Field change +:+ " must be an integer"))
  | Some _, None => Err (NewGitOpsError "InvalidToValue" ("to value for " +:+ Field_Field change +:+ " must be an integer"))
  | Some from, Some to =>
      if (to <? 0)%Z then Err (NewGitOpsError "InvalidReplicaValue" "replicas must be >= 0") else
      match findWorkerGroup workers "gpu-workers" with
      | None => Err (NewGitOpsError "WorkerGroupNotFound" "worker group gpu-workers not found")
      | Some index =>
          match workers !! index with
          | None => Err (NewGitOpsError "WorkerGroupNotFound" "worker group gpu-workers not found")
          | Some worker =>
              let current := Worker_Replicas worker in
              if current !=? from
              then Err (NewGitOpsError "CurrentValueMismatch" ("expected current replicas " +:+ Itoa from +:+ ", got " +:+ Itoa current))
              else Ok (<[index := set_replicas worker to]> workers)
          end
      end
  end.

Fixpoint apply_changes (changes : list ManifestFieldChange) (workers : list WorkerGroupSpec) : result (list WorkerGroupSpec) :=
  match changes with
  | [] => Ok workers
  | change :: changes => workers ← apply_change change workers; apply_changes changes workers
  end.

Definition set_workers (c : ManagedCluster) (workers : list WorkerGroupSpec) : ManagedCluster :=
  mkManagedCluster (Cluster_APIVersion c) (Cluster_Kind c) (Cluster_Meta c)
    (mkManagedClusterSpec (Spec_Environment (Cluster_Spec c)) (Spec_ProviderRef (Cluster_Spec c)) workers) (Cluster_Status c).

Definition mismatch (expected actual : string) : bool := (expected !=? "") && (expected !=? actual).

Definition ApplyManagedClusterPatch (plan : ManifestPatchPlan) (cluster : ManagedCluster) : result ManagedCluster :=
  let target := Patch_Target plan in
  let name := Meta_Name (Cluster_Meta cluster) in
  let namespace := Meta_Namespace (Cluster_Meta cluster) in
  _ ← ValidateManagedCluster cluster;
  if mismatch (Resource_Kind target) KindManagedCluster
  then Err (NewGitOpsError "TargetKindMismatch" ("expected target kind " +:+ KindManagedCluster +:+ ", got " +:+ Resource_Kind target))
  else if mismatch (Resource_Name target) name
  then Err (NewGitOpsError "TargetNameMismatch" ("plan targets " +:+ Resource_Name target +:+ " but manifest is " +:+ name))
  else if mismatch (Resource_Namespace target) namespace
  then Err (NewGitOpsError "TargetNamespaceMismatch"
              ("plan targets namespace " +:+ Resource_Namespace target +:+ " but manifest is namespace " +:+ namespace))
  else if length (Patch_Changes plan) =? 0 then Err (NewGitOpsError "MissingChanges" "manifest patch plan changes must not be empty")
  else
    workers ← apply_changes (Patch_Changes plan) (Spec_Workers (Cluster_Spec cluster));
    let updated := set_workers cluster workers in
    _ ← ValidateManagedCluster updated;
    Ok updated.

(** ** The dry-run writer and the branch plan *)

Record WriteResult : Set := mkWriteResult {
  Write_SourcePath : string;
  Write_OutputPath : string;
  Write_Summary : string;
  Write_Updated : ManagedCluster;
  Write_Changes : list ManifestFieldChange;
  Write_Rollback : list ManifestFieldChange
}.

Definition summarizeChanges (plan : ManifestPatchPlan) : string :=
  if length (Patch_Changes plan) =? 0 then "no manifest changes"
  else Join "; " ((λ c, Field_Field c +:+ ": " +:+ sprint (Field_From c) +:+ " -> " +:+ sprint (Field_To c)) <$> Patch_Changes plan).

Definition WriteManagedCluster (plan : ManifestPatchPlan) (cluster : ManagedCluster) : result WriteResult :=
  updated ← ApplyManagedClusterPatch plan cluster;
  Ok (mkWriteResult (Patch_SourcePath plan) (Patch_OutputPath plan) (summarizeChanges plan) updated (Patch_Changes plan) (Patch_Rollback plan)).

Record FileChangePlan : Set := mkFileChange { File_Path : string; File_Summary : string }.
Record CommitPlan : Set := mkCommitPlan { Commit_Message : string; Commit_Files : list FileChangePlan }.
Record PullRequestPlan : Set := mkPullRequest { Pull_Title : string; Pull_Body : string; Pull_Draft : bool }.
Record BranchPlan : Set := mkBranchPlan {
  Branch_BaseBranch : string; Branch_HeadBranch : string; Branch_Commit : CommitPlan; Branch_PullRequest : PullRequestPlan
}.

Definition buildPullRequestBody (plan : ManifestPatchPlan) (r : WriteResult) : string :=
  let gap := newline +:+ newline in
  "## Intent" +:+ gap +:+ PR_Title (Patch_PR plan) +:+ gap +:+ "## Manifest" +:+ gap +:+ Write_OutputPath r +:+ gap
  +:+ "## Changes" +:+ gap +:+ Write_Summary r +:+ gap +:+ "## Safety Boundary" +:+ gap
  +:+ "This plan is dry-run only. It does not apply live infrastructure changes." +:+ newline.

Definition BuildBranchPlan (baseBranch : string) (plan : ManifestPatchPlan) (r : WriteResult) : result BranchPlan :=
  if baseBranch ==? "" then Err (NewGitOpsError "MissingBaseBranch" "base branch is required")
  else if PR_BranchName (Patch_PR plan) ==? "" then Err (NewGitOpsError "MissingHeadBranch" "patch plan PR branch name is required")
  else if Write_OutputPath r ==? "" then Err (NewGitOpsError "MissingOutputPath" "write result output path is required")
  else Ok (mkBranchPlan baseBranch (PR_BranchName (Patch_PR plan))
             (mkCommitPlan (PR_CommitMessage (Patch_PR plan)) [mkFileChange (Write_OutputPath r) (Write_Summary r)])
             (mkPullRequest (PR_Title (Patch_PR plan)) (buildPullRequestBody plan r) (PR_Draft (Patch_PR plan)))).
End planner.
End GitOps.
