(* ===== verification/GitOpsSpec.v ===== *)
(** * GitOpsSpec: what reaches a manifest

    The pipeline from an intent to a draft and the GitOps steps composed: a draft
    is made only of what the provider answered, the gates passed and the policy
    judged; what may be merged without approval is small; a patch changes the
    replicas of one group of workers, and can be undone. *)
From S2P Require Import Prelude GoStrings GoText Programs ModelSchema ModelTypes SchemaValidator ModelSafety ModelGateway ChangePolicy DraftPipeline.
From S2P Require Import Clusters GitOps.

Module GitOpsSpec.
Import ModelSchema ModelGateway ChangePolicy DraftPipeline GitOps.
Import ModelTypes(any, AnyNil, AnyInt, AnyInt32, AnyInt64, AnyNumber, AnyFloat32, AnyPlan, Response_Structured, ProviderResponse).
Import Clusters(ManagedCluster, Cluster_Meta, Cluster_Spec, Meta_Name, Spec_Workers, WorkerGroupSpec, Worker_Name, Worker_Replicas,
  ValidateManagedCluster, valid_cluster, valid_worker, in_int32, ValidateManagedCluster_Ok, ValidateManagedCluster_correct).

(** ** Drafts *)

Section drafts.
Variable Error : error → string.
Variable task_name : ModelTypes.TaskType → string.
Variable sprint : any → string.
Variable float_int : float64 → Z.
Variable auditor : bool.

Abbreviation pipeline := (the_pipeline Error task_name sprint float_int auditor).
Abbreviation gateway := (the_gateway task_name auditor).

Definition plan_request (req : Request) : GeneratePlanRequest :=
  mkGeneratePlanRequest (Req_RequestID req) (Req_UserID req) (Req_UserIntent req) (Req_RiskHint req) empty_context.

(** What the parts of the pipeline passed. *)
Record drafted (req : Request) (h : list (exchange Ev)) (res : Result) : Prop := {
  drafted_answer : ∃ id resp, Asked (Generate (provider_request id (plan_request req))) (Some resp, None) ∈ h
    ∧ ModelSafety.ValidateRequest task_name (provider_request id (plan_request req)) = Ok tt
    ∧ ModelSafety.ValidateResponse (Some resp) = Ok tt ∧ Response_Structured resp = AnyPlan (Res_Plan res);
  drafted_plan : SchemaValidator.ValidateChangePlan (Some (Res_Plan res)) = Ok tt;
  drafted_audit : ∃ audit, Res_Audit res = Some audit ∧ Audit_ValidationResult audit = "Passed"
    ∧ (auditor = true → ∃ x, Asked (RecordAudit audit) x ∈ h);
  drafted_proposal : Proposal_Changes (Res_Proposal res) = proposal_change <$> Plan_Changes (Res_Plan res)
    ∧ Proposal_Target (Res_Proposal res) = Plan_Target (Res_Plan res)
    ∧ Proposal_Environment (Res_Proposal res) = Plan_Environment (Res_Plan res)
    ∧ Proposal_OperationType (Res_Proposal res) = Plan_OperationType (Res_Plan res);
  drafted_policy : ∃ p0 r, Evaluate float_int DefaultPolicy (Some p0) = Ok r ∧ Res_Proposal res = ApplyPolicyResult p0 r
}.

(** A text without any of the phrases the safety gate refuses. *)
Definition harmless (text : string) : Prop :=
  ∀ phrase, phrase ∈ ["direct apply"; "direct delete"; "shell access"; "machine power operation"; "credential value";
    "print credential"; "bypass policy"; "bypass approval"; "auto merge"; "auto-merge"; "auto approve"; "auto-approve"] →
  Contains (ToLower text) phrase = false.

(** The draft [res] is made from an answer of the provider to the user's intent. *)
Record vetted_draft (req : Request) (h : list (exchange Ev)) (res : Result) : Prop := {
  vetted_answer : ∃ rq resp, Asked (Generate rq) (Some resp, None) ∈ h
    ∧ ModelTypes.Request_TaskType rq = ModelTypes.TaskGeneratePlan ∧ ModelTypes.Request_UserID rq = Req_UserID req
    ∧ ModelTypes.Request_Instruction rq = Req_UserIntent req ∧ harmless (Req_UserIntent req)
    ∧ harmless (ModelTypes.Response_RawText resp) ∧ Response_Structured resp = AnyPlan (Res_Plan res);
  vetted_plan : SchemaValidator.ValidateChangePlan (Some (Res_Plan res)) = Ok tt
    ∧ Resource_Kind (Plan_Target (Res_Plan res)) ≠ "Secret"
    ∧ ∀ c, c ∈ Plan_Changes (Res_Plan res) →
        Change_Field c ∈ ["ManagedCluster.spec.workers[].replicas"; "spec.workers[name=gpu-workers].replicas"];
  vetted_audit : ∃ audit, Res_Audit res = Some audit ∧ Audit_ValidationResult audit = "Passed"
    ∧ (auditor = true → ∃ x, Asked (RecordAudit audit) x ∈ h);
  vetted_changes :
    (λ c, (Proposed_Field c, Proposed_From c, Proposed_To c, Proposed_Reason c)) <$> Proposal_Changes (Res_Proposal res)
    = (λ c, (Change_Field c, Change_From c, Change_To c, Change_Reason c)) <$> Plan_Changes (Res_Plan res);
  vetted_target : (Proposal_Target (Res_Proposal res), Proposal_Environment (Res_Proposal res), Proposal_OperationType (Res_Proposal res))
    = (Plan_Target (Res_Plan res), Plan_Environment (Res_Plan res), Plan_OperationType (Res_Plan res));
  vetted_judged : ∃ pr, Proposal_PolicyResult (Res_Proposal res) = Some pr
    ∧ Proposal_ApprovalRequired (Res_Proposal res) = Policy_ApprovalRequired pr
}.

Lemma drafted_vetted req h res : drafted req h res → vetted_draft req h res.
Proof.
  intros [(id & resp & Hin & Hreq & Hresp & Hst) Hplan Haud (Hch & Ht & He & Ho) (p0 & pr & _ & Hp)]. split.
  - eexists _, resp. split; [exact Hin|]. do 3 (split; [done|]).
    unfold ModelSafety.ValidateRequest in Hreq. bind_inv Hreq u Hu. bind_inv Hreq u1 Hu1. apply ModelSafety.block_Ok in Hu1.
    unfold ModelSafety.ValidateResponse in Hresp. bind_inv Hresp u2 Hu2. apply ModelSafety.block_Ok in Hu2.
    split; [exact (ModelSafety.unrestricted _ Hu1)|]. split; [exact (ModelSafety.unrestricted _ Hu2)|done].
  - unfold ModelSafety.ValidateResponse in Hresp. bind_inv Hresp u Hu. rewrite Hst in Hresp.
    split; [done|]. exact (ModelSafety.validateChangePlan_Ok _ _ Hresp).
  - done.
  - rewrite Hch, <- list_fmap_compose. done.
  - by rewrite Ht, He, Ho.
  - exists pr. by rewrite Hp.
Qed.

Lemma Run_drafted req :
  wp (@asked_safely gateway (plan_request req)) [] (Run pipeline req)
    (λ h r, match r with None => False | Some (Err _) => True | Some (Ok res) => drafted req h res end).
Proof.
  unfold Run, the_pipeline. cbn [pl_gateway pl_planner pl_generator]. apply wp_bind, wp_bind.
  eapply wp_mono; [|apply GeneratePlan_vetted]. intros h [[plan|err] audit|] Hv; cbn [wp answer_of].
  - destruct Hv as (Haud & Hpass & Hval & id & resp & Hin & Hreq & Hresp & Hst). apply wp_bind, wp_Do; [exact I|]. intros now. cbn [wp].
    destruct (BuildEvaluatedProposal _ now plan _) as [p|e] eqn:Hb; [|exact I]. cbn [mbind result_bind].
    destruct (DraftOf sprint (Some p)) as [draft|e] eqn:Hd; [|exact I]. cbn [mbind result_bind].
    apply BuildEvaluatedProposal_Ok in Hb as (p0 & pr & Hp0 & He & ->). apply FromChangePlan_Ok in Hp0 as (Hch & _ & Ht & Hen & Hop & _).
    split; simpl.
    + exists id, resp. split; [apply elem_of_app; by left|]. done.
    + exact Hval.
    + exists audit. split; [done|]. split; [done|]. intros Ha. destruct (Haud Ha) as (h' & x & ->). exists x. mem.
    + done.
    + exists p0, pr. done.
  - exact I.
  - destruct Hv as [Hv|(s & Hs & Hv)]; [done|]. injection Hs as <-. done.
Qed.

(** C16. Whatever the provider answers, a draft is made only from a plan that the
    provider answered to a request for a plan with the user's intent as its
    instruction; neither the intent nor the text of the answer has a restricted
    phrase, the plan passed the schema, does not target a Secret and edits only
    the two fields of workers' replicas that are allowed; and it is audited as
    passed, in a record that was written if there is an auditor.  Nothing is made
    up on the way: the proposal has the changes, the target, the environment and
    the operation of the plan, and carries a judgement of the policy, with its
    verdict on approval.  If no approval is required, the plan is for a ScaleOut
    of a ManagedCluster in dev, and every change is to the replicas of the group
    gpu-workers.  The pipeline never dereferences a missing response. *)
Theorem drafts_are_vetted req h r :
  returns (Run pipeline req) h r →
  ∃ r', r = Some r' ∧ ∀ res, r' = Ok res →
    vetted_draft req h res
    ∧ (Proposal_ApprovalRequired (Res_Proposal res) = false →
         Plan_Environment (Res_Plan res) = "dev" ∧ Plan_OperationType (Res_Plan res) = "ScaleOut"
         ∧ Resource_Kind (Plan_Target (Res_Plan res)) = "ManagedCluster"
         ∧ ∀ c, c ∈ Plan_Changes (Res_Plan res) → Change_Field c = "spec.workers[name=gpu-workers].replicas").
Proof.
  intros H. pose proof (wp_returns _ _ _ _ _ (Run_drafted req) H) as Hq. simpl in Hq. destruct r as [r'|]; [|done].
  exists r'. split; [done|]. intros res ->. split; [by apply drafted_vetted|].
  destruct Hq as [_ _ _ (Hch & Ht & He & Ho) (p0 & pr & Hev & Hp)].
  rewrite Hp. intros Ha. rewrite Hp in Hch, Ht, He, Ho. simpl in *.
  destruct (default_without_approval _ _ _ Hev Ha) as (H1 & H2 & H3 & H4). rewrite <- He, <- Ho, <- Ht.
  do 3 (split; [done|]). intros c Hc. apply (H4 (proposal_change c)). rewrite Hch. by apply list_elem_of_fmap_2.
Qed.
End drafts.

(** ** Patches *)

Lemma findWorkerGroup_Some ws name i :
  findWorkerGroup ws name = Some i → ∃ w, ws !! i = Some w ∧ Worker_Name w = name.
Proof.
  revert i. induction ws as [|w ws IH]; intros i; simpl; [done|]. case_bool_decide; [intros [= <-]; eauto|].
  destruct (findWorkerGroup ws name) as [j|]; [|done]. intros [= <-]. exact (IH j eq_refl).
Qed.

Lemma findWorkerGroup_names (ws ws' : list WorkerGroupSpec) name : Worker_Name <$> ws = Worker_Name <$> ws' → findWorkerGroup ws name = findWorkerGroup ws' name.
Proof. revert ws'. induction ws as [|w ws IH]; intros [|w' ws'] [=]; [done|]. simpl. by rewrite H0, (IH ws'). Qed.

Lemma set_replicas_names (ws : list WorkerGroupSpec) (i : nat) w r : ws !! i = Some w → Worker_Name <$> <[i := set_replicas w r]> ws = Worker_Name <$> ws.
Proof. intros H. rewrite list_fmap_insert. apply list_insert_id. by rewrite list_lookup_fmap, H. Qed.

Lemma set_replicas_same w : set_replicas w (Worker_Replicas w) = w.
Proof. by destruct w. Qed.

(** The changes lead from [a] replicas to [b], each from the value before it. *)
Fixpoint walks (changes : list ManifestFieldChange) (a b : Z) : Prop :=
  match changes with
  | [] => a = b
  | c :: changes =>
      Field_Field c = managedClusterWorkerReplicasField
      ∧ ∃ to, toInt32 (Field_From c) = Some a ∧ toInt32 (Field_To c) = Some to ∧ (0 ≤ to)%Z ∧ walks changes to b
  end.

Lemma apply_change_Ok c ws ws' :
  apply_change c ws = Ok ws' →
  ∃ i w to, findWorkerGroup ws "gpu-workers" = Some i ∧ ws !! i = Some w ∧ ws' = <[i := set_replicas w to]> ws
    ∧ Field_Field c = managedClusterWorkerReplicasField ∧ toInt32 (Field_From c) = Some (Worker_Replicas w)
    ∧ toInt32 (Field_To c) = Some to ∧ (0 ≤ to)%Z.
Proof.
  unfold apply_change. case_bool_decide as Hf; [|done]. cbn [negb]. destruct (toInt32 (Field_From c)) as [from|] eqn:Hfrom; [|done].
  destruct (toInt32 (Field_To c)) as [to|] eqn:Hto; [|done]. destruct (Z.ltb_spec to 0) as [|Hpos]; [done|].
  destruct (findWorkerGroup ws "gpu-workers") as [i|] eqn:Hi; [|done]. destruct (ws !! i) as [w|] eqn:Hw; [|done].
  cbn zeta. case_bool_decide as Hc; [|done]. intros [= <-]. exists i, w, to. by rewrite Hc.
Qed.

Lemma apply_changes_Ok changes ws ws' :
  changes ≠ [] → apply_changes changes ws = Ok ws' →
  ∃ i w r, findWorkerGroup ws "gpu-workers" = Some i ∧ ws !! i = Some w ∧ ws' = <[i := set_replicas w r]> ws
    ∧ (0 ≤ r)%Z ∧ walks changes (Worker_Replicas w) r.
Proof.
  revert ws. induction changes as [|c changes IH]; intros ws Hne H; [done|]. simpl in H. bind_inv H ws1 H1.
  apply apply_change_Ok in H1 as (i & w & to & Hi & Hw & -> & Hfield & Hfrom & Hto & Hpos).
  pose proof (lookup_lt_Some _ _ _ Hw) as Hlt. destruct changes as [|c' changes].
  - injection H as <-. exists i, w, to. do 4 (split; [done|]). split; [done|]. exists to. done.
  - apply IH in H as (j & w1 & r & Hj & Hw1 & -> & Hr & Hwalk); [|done].
    rewrite (findWorkerGroup_names _ ws) in Hj by (by apply set_replicas_names). assert (j = i) as -> by congruence.
    rewrite list_lookup_insert_eq in Hw1 by done. injection Hw1 as <-. exists i, w, r. do 2 (split; [done|]).
    split; [by rewrite list_insert_insert_eq|]. split; [done|]. split; [done|]. exists to. done.
Qed.

Lemma apply_changes_walks changes (ws : list WorkerGroupSpec) (i : nat) w b :
  findWorkerGroup ws "gpu-workers" = Some i → ws !! i = Some w → walks changes (Worker_Replicas w) b →
  apply_changes changes ws = Ok (<[i := set_replicas w b]> ws).
Proof.
  revert ws w. induction changes as [|c changes IH]; intros ws w Hi Hw Hwalk; simpl in *.
  { subst. by rewrite set_replicas_same, list_insert_id. }
  destruct Hwalk as (Hf & to & Hfrom & Hto & Hpos & Hwalk). unfold apply_change at 1. rewrite Hf, bool_decide_true by done. cbn [negb].
  rewrite Hfrom, Hto, (proj2 (Z.ltb_ge to 0)), Hi, Hw by done. cbn zeta. rewrite bool_decide_true by done. cbn [negb mbind result_bind].
  pose proof (lookup_lt_Some _ _ _ Hw) as Hlt. rewrite (IH (<[i := set_replicas w to]> ws) (set_replicas w to)).
  - by rewrite list_insert_insert_eq.
  - by rewrite (findWorkerGroup_names _ ws) by (by apply set_replicas_names).
  - by apply list_lookup_insert_eq.
  - done.
Qed.

(** The changes of a plan backwards. *)
Definition undo (c : ManifestFieldChange) (c' : ManifestFieldChange) : Prop :=
  Field_Field c' = Field_Field c ∧ Field_From c' = Field_To c ∧ Field_To c' = Field_From c.

Lemma walks_app l1 l2 a b c : walks l1 a b → walks l2 b c → walks (l1 ++ l2) a c.
Proof.
  revert a. induction l1 as [|ch l1 IH]; intros a H1 H2; simpl in *; [by subst|].
  destruct H1 as (Hf & to & H3 & H4 & H5 & H6). split; [done|]. exists to. eauto 10.
Qed.

Lemma walks_undo changes undos a b :
  Forall2 undo changes undos → (0 ≤ a)%Z → walks changes a b → walks (reverse undos) b a.
Proof.
  intros H. revert a. induction H as [|c c' changes undos (Hf & Hfrom & Hto) _ IH]; intros a Ha Hw; simpl in *; [by subst|].
  destruct Hw as (Hf' & to & H1 & H2 & H3 & H4). rewrite reverse_cons. eapply walks_app; [by apply IH|].
  simpl. rewrite Hf, Hfrom, Hto. split; [done|]. exists a. done.
Qed.

Lemma Patch_Ok plan cluster updated :
  ApplyManagedClusterPatch plan cluster = Ok updated →
  valid_cluster cluster ∧ valid_cluster updated ∧ Patch_Changes plan ≠ []
  ∧ (Resource_Name (Patch_Target plan) = "" ∨ Resource_Name (Patch_Target plan) = Meta_Name (Cluster_Meta cluster))
  ∧ ∃ ws, apply_changes (Patch_Changes plan) (Spec_Workers (Cluster_Spec cluster)) = Ok ws ∧ updated = set_workers cluster ws.
Proof.
  unfold ApplyManagedClusterPatch. intros H. bind_inv H u Hv. destruct (mismatch (Resource_Kind _) _); [done|].
  destruct (mismatch (Resource_Name _) _) eqn:Hn; [done|]. destruct (mismatch (Resource_Namespace _) _); [done|].
  destruct (length _ =? 0) eqn:Hl; [done|].
  bind_inv H ws Hws. bind_inv H u1 Hv1. injection H as <-. split; [by eapply ValidateManagedCluster_Ok|].
  split; [by eapply ValidateManagedCluster_Ok|]. split; [by intros E; rewrite E in Hl|]. split; [|eauto].
  unfold mismatch in Hn. apply andb_false_iff in Hn as [Hn|Hn]; apply negb_false_iff, bool_decide_eq_true in Hn; auto.
Qed.

(** The plan with other changes. *)
Definition with_changes (plan : ManifestPatchPlan) (changes : list ManifestFieldChange) : ManifestPatchPlan :=
  mkPatchPlan (Patch_RequestID plan) (Patch_ProposalID plan) (Patch_Target plan) (Patch_SourcePath plan) (Patch_OutputPath plan) changes
    (Patch_Rollback plan) (Patch_Validation plan) (Patch_PolicyResult plan) (Patch_PR plan).

Lemma BuildPatchPlan_Ok lower p src out plan :
  BuildPatchPlan lower (Some p) src out = Ok plan →
  Patch_Changes plan = field_change <$> Proposal_Changes p ∧ Patch_Rollback plan = field_rollback <$> Proposal_Changes p
  ∧ Patch_Target plan = Proposal_Target p
  ∧ ∃ r, Proposal_PolicyResult p = Some r ∧ PR_Draft (Patch_PR plan) = Policy_ApprovalRequired r.
Proof.
  unfold BuildPatchPlan. destruct (Proposal_PolicyResult p) as [r|] eqn:Hr; [|done]. destruct (negb _); [done|].
  case_bool_decide as Hsrc; [done|]. destruct (_ =? 0); [done|]. intros H. bind_inv H u Hu. injection H as <-. simpl.
  do 3 (split; [done|]). exists r. rewrite Hr. done.
Qed.

Lemma field_undo changes : Forall2 undo (field_change <$> changes) (field_rollback <$> changes).
Proof. induction changes; constructor; done. Qed.

(** C32. Every patch can be taken back: applying the rollback of the plan, its changes
    in the opposite order, to the manifest it made gives the manifest it was made
    from, and passes every check on the way. *)
Theorem patches_can_be_undone lower p src out plan cluster updated :
  BuildPatchPlan lower (Some p) src out = Ok plan → ApplyManagedClusterPatch plan cluster = Ok updated →
  ApplyManagedClusterPatch (with_changes plan (reverse (Patch_Rollback plan))) updated = Ok cluster.
Proof.
  intros Hb Ha. apply BuildPatchPlan_Ok in Hb as (Hc & Hr & _).
  pose proof Ha as Hok. apply Patch_Ok in Hok as (Hv & Hv' & Hne & _ & ws & Hws & ->).
  apply apply_changes_Ok in Hws as (i & w & r & Hi & Hw & -> & Hpos & Hwalk); [|done].
  pose proof (lookup_lt_Some _ _ _ Hw) as Hlt. rewrite Hc in Hwalk. eapply walks_undo in Hwalk; [|apply field_undo|].
  2: { destruct Hv as (_ & _ & _ & Hws & _). by destruct (proj1 (Forall_lookup _ _) Hws _ _ Hw) as (_ & H0 & _). }
  rewrite <- Hr in Hwalk. unfold ApplyManagedClusterPatch in Ha |- *.
  rewrite (proj2 (ValidateManagedCluster_correct cluster) Hv) in Ha.
  rewrite (proj2 (ValidateManagedCluster_correct (set_workers cluster _)) Hv'). cbn [mbind result_bind] in *.
  cbn [with_changes Patch_Target Patch_Changes set_workers Cluster_Meta Cluster_Spec Spec_Workers].
  destruct (mismatch (Resource_Kind _) _); [done|]. destruct (mismatch (Resource_Name _) _); [done|].
  destruct (mismatch (Resource_Namespace _) _); [done|]. rewrite length_reverse, Hr, length_fmap. rewrite Hc, length_fmap in Ha.
  destruct (_ =? 0); [done|]. rewrite <- Hr.
  rewrite (apply_changes_walks _ _ i (set_replicas w r) (Worker_Replicas w)).
  - cbn [mbind result_bind]. rewrite list_insert_insert_eq.
    assert (set_workers (set_workers cluster (<[i:=set_replicas w r]> (Spec_Workers (Cluster_Spec cluster))))
      (<[i:=set_replicas (set_replicas w r) (Worker_Replicas w)]> (Spec_Workers (Cluster_Spec cluster))) = cluster) as Hback.
    { assert (set_replicas (set_replicas w r) (Worker_Replicas w) = w) as -> by (by destruct w).
      rewrite (list_insert_id _ _ _ Hw). by destruct cluster as [? ? ? []]. }
    rewrite Hback. by rewrite (proj2 (ValidateManagedCluster_correct cluster) Hv).
  - by rewrite (findWorkerGroup_names _ (Spec_Workers (Cluster_Spec cluster))) by (by apply set_replicas_names).
  - by apply list_lookup_insert_eq.
  - exact Hwalk.
Qed.

(** ** What may be merged without approval *)

(** The integer that a value of a change is. *)
Definition denotes (v : any) (z : Z) : Prop :=
  match v with
  | AnyInt n | AnyInt32 n | AnyInt64 n => n = z
  | AnyNumber f | AnyFloat32 f => f_integral f = true ∧ f_trunc f = z
  | _ => False
  end.

Lemma toInt32_denotes v z : toInt32 v = Some z → denotes v z.
Proof.
  assert (∀ n, checked32 n = Some z → n = z) as Hc by (unfold checked32; intros n; case_match; naive_solver).
  destruct v; simpl; try done; intros H; (try (by apply Hc)); (try congruence); (case_match; [|done]); by auto.
Qed.

Lemma denotes_unique v a b : denotes v a → denotes v b → a = b.
Proof. destruct v; simpl; naive_solver. Qed.

(** The changes of a plan, each of the replicas of gpu-workers, lead from [a] to [b]. *)
Fixpoint leads (changes : list (PlannedChange any)) (a b : Z) : Prop :=
  match changes with
  | [] => a = b
  | c :: changes =>
      Change_Field c = "spec.workers[name=gpu-workers].replicas"
      ∧ denotes (Change_From c) a ∧ ∃ to, denotes (Change_To c) to ∧ (0 ≤ to)%Z ∧ leads changes to b
  end.

Lemma walks_leads (changes : list (PlannedChange any)) a b :
  walks (field_change <$> (proposal_change <$> changes)) a b → leads changes a b.
Proof.
  revert a. induction changes as [|c changes IH]; intros a; simpl; [done|]. intros (Hf & to & H1 & H2 & H3 & H4).
  split; [done|]. split; [by apply toInt32_denotes|]. exists to. split; [by apply toInt32_denotes|]. auto.
Qed.

(** [after] is [before] with [r] replicas in the worker group [i], which is [w]. *)
Definition resized (before after : ManagedCluster) (i : nat) (w : WorkerGroupSpec) (r : Z) : Prop :=
  (Clusters.Cluster_APIVersion after, Clusters.Cluster_Kind after, Cluster_Meta after, Clusters.Cluster_Status after)
  = (Clusters.Cluster_APIVersion before, Clusters.Cluster_Kind before, Cluster_Meta before, Clusters.Cluster_Status before)
  ∧ (Clusters.Spec_Environment (Cluster_Spec after), Clusters.Spec_ProviderRef (Cluster_Spec after))
    = (Clusters.Spec_Environment (Cluster_Spec before), Clusters.Spec_ProviderRef (Cluster_Spec before))
  ∧ Spec_Workers (Cluster_Spec before) !! i = Some w
  ∧ Spec_Workers (Cluster_Spec after)
    = <[i := Clusters.mkWorkerGroupSpec (Worker_Name w) r (Clusters.Worker_MachineClassRef w) (Clusters.Worker_Labels w)]>
        (Spec_Workers (Cluster_Spec before)).

(** The integers of Go are in the range of their type. *)
Definition typed (v : any) : Prop := match v with AnyInt32 z => in_int32 z | _ => True end.

Section small.
Variable float_int : float64 → Z.
(** The conversion of a float64 whose integer part is an int. *)
Hypothesis float_int_exact : ∀ f, f_finite f = true → (int_min ≤ f_trunc f ≤ int_max)%Z → float_int f = f_trunc f.

Lemma checked32_Some v z : checked32 v = Some z → v = z ∧ in_int32 z.
Proof.
  unfold checked32, fits_int4, in_int32. destruct (_ && _)%bool eqn:H; [|done]. intros [= <-].
  apply andb_true_iff in H as [H1%Z.leb_le H2%Z.leb_le]. done.
Qed.

Lemma f_integral_finite f : f_integral f = true → f_finite f = true.
Proof. by destruct f. Qed.

Lemma toInt32_toInt v z : typed v → toInt32 v = Some z → toInt float_int v = Some z ∧ in_int32 z.
Proof.
  assert (∀ f, (if f_integral f then checked32 (f_trunc f) else None) = Some z → float_int f = z ∧ in_int32 z) as Hf.
  { intros f. destruct (f_integral f) eqn:Hi; [|done]. intros [Ht Hr]%checked32_Some. split; [|done]. subst. apply float_int_exact.
    - by apply f_integral_finite.
    - unfold in_int32, int_min, int_max in *. lia. }
  destruct v; simpl; intros Ht H; try done.
  - destruct (Hf _ H) as [-> ?]. done.
  - apply checked32_Some in H as [-> ?]. done.
  - by injection H as <-.
  - apply checked32_Some in H as [-> ?]. done.
  - destruct (Hf _ H) as [-> ?]. done.
Qed.

Lemma small_change c a b :
  typed (Proposed_From c) → typed (Proposed_To c) → toInt32 (Proposed_From c) = Some a → toInt32 (Proposed_To c) = Some b →
  (replicaDelta float_int (Proposed_From c) (Proposed_To c) ≤ 3)%Z → (Z.abs (b - a) ≤ 3)%Z.
Proof.
  intros Ht1 Ht2 H1 H2. destruct (toInt32_toInt _ _ Ht1 H1) as [Ha Hra]. destruct (toInt32_toInt _ _ Ht2 H2) as [Hb Hrb].
  unfold replicaDelta. rewrite Ha, Hb. unfold sub64, wrap64, two64, in_int32 in *.
  destruct (Z.leb_spec a b); rewrite Z.mod_small; lia.
Qed.

Definition small (c : PlannedChange any) : Prop :=
  ∀ a b, denotes (Change_From c) a → denotes (Change_To c) b → (Z.abs (b - a) ≤ 3)%Z.

Lemma small_walk (changes : list (PlannedChange any)) a b :
  (∀ c, c ∈ changes → typed (Change_From c) ∧ typed (Change_To c) ∧ (replicaDelta float_int (Change_From c) (Change_To c) ≤ 3)%Z) →
  walks (field_change <$> (proposal_change <$> changes)) a b → ∀ c, c ∈ changes → small c.
Proof.
  revert a. induction changes as [|c changes IH]; intros a Hs Hw c' Hc'; simpl in Hw; [by apply not_elem_of_nil in Hc'|].
  destruct Hw as (_ & to & H1 & H2 & _ & Hw). apply elem_of_cons in Hc' as [->|Hc'].
  - intros x y Hx Hy. destruct (Hs c) as (Ht1 & Ht2 & Hd); [apply list_elem_of_here|].
    rewrite (denotes_unique _ _ _ Hx (toInt32_denotes _ _ H1)), (denotes_unique _ _ _ Hy (toInt32_denotes _ _ H2)).
    exact (small_change (proposal_change c) a to Ht1 Ht2 H1 H2 Hd).
  - eapply (IH to); [|done|done]. intros c1 H. apply Hs. by apply list_elem_of_further.
Qed.

Variable Error : error → string.
Variable task_name : ModelTypes.TaskType → string.
Variable sprint : any → string.
Variable lower : string → string.
Variable auditor : bool.

(** C17. From an intent to a manifest, whatever the provider answers, as long as a
    value of the plan that is a Go int32 is in the range of int32, and a float64
    whose integer part is an int converts to that int.  The patch made from a
    draft changes the replicas of one group of the manifest, gpu-workers, and
    nothing else, as the changes of the plan say: the first from the number of
    replicas there was, each next one from where the one before led, the last to
    the number there is now; and it leaves a valid manifest.  If the pull request
    is not a draft, no approval being required, then every single change is by at
    most three replicas, and the plan says that the cluster is in dev. *)
Theorem unreviewed_changes_are_small req h res src out plan cluster updated :
  returns (Run (the_pipeline Error task_name sprint float_int auditor) req) h (Some (Ok res)) →
  (∀ c, c ∈ Plan_Changes (Res_Plan res) → typed (Change_From c) ∧ typed (Change_To c)) →
  BuildPatchPlan lower (Some (Res_Proposal res)) src out = Ok plan →
  ApplyManagedClusterPatch plan cluster = Ok updated →
  ∃ i w r, Worker_Name w = "gpu-workers" ∧ resized cluster updated i w r
    ∧ leads (Plan_Changes (Res_Plan res)) (Worker_Replicas w) r ∧ valid_cluster updated
    ∧ (PR_Draft (Patch_PR plan) = false →
         Plan_Environment (Res_Plan res) = "dev" ∧ ∀ c, c ∈ Plan_Changes (Res_Plan res) → small c).
Proof.
  intros Hrun Ht Hb Ha. pose proof (wp_returns _ _ _ _ _ (Run_drafted Error task_name sprint float_int auditor req) Hrun) as Hd.
  destruct Hd as [_ _ _ (Hch & _ & He & _) (p0 & pr & Hev & Hp)]. apply BuildPatchPlan_Ok in Hb as (Hc & _ & _ & r0 & Hr0 & Hdraft).
  apply Patch_Ok in Ha as (Hv & Hv' & Hne & _ & ws & Hws & ->).
  apply apply_changes_Ok in Hws as (i & w & r & Hi & Hw & -> & Hpos & Hwalk); [|done].
  destruct (findWorkerGroup_Some _ _ _ Hi) as (w' & Hw' & Hname). assert (w' = w) as -> by congruence.
  rewrite Hc, Hch in Hwalk. exists i, w, r. split; [done|]. split; [done|]. split; [by apply walks_leads|]. split; [done|].
  rewrite Hdraft. intros Happ. assert (r0 = pr) as -> by (rewrite Hp in Hr0; simpl in Hr0; congruence).
  destruct (default_without_approval _ _ _ Hev Happ) as (Hdev & _ & _ & Hall). rewrite Hp in Hch, He. simpl in Hch, He.
  split; [congruence|]. eapply small_walk; [|exact Hwalk]. intros c Hin. destruct (Ht c Hin) as [Ht1 Ht2]. split; [done|]. split; [done|].
  apply (Hall (proposal_change c)). rewrite Hch. by apply list_elem_of_fmap_2.
Qed.
End small.
End GitOpsSpec.

(** * PipelineExamples: the pipeline with the mock provider

    The offline pipeline completes, and concrete runs from an intent to a
    manifest, with those that pass although they should be reviewed. *)

Module PipelineExamples.
Import ModelSchema ModelGateway MockProvider ChangePolicy DraftPipeline GitOps GitOpsSpec.
Import ModelTypes(any, AnyNil, AnyInt, AnyString, AnyPlan, TaskType, Request_Instruction, Request_TaskType, TaskGeneratePlan).
Import Clusters(ManagedCluster, mkManagedCluster, Cluster_Spec, Spec_Workers, Worker_Replicas, mkObjectMeta, mkManagedClusterSpec,
  mkWorkerGroupSpec, mkLocalObjectReference, no_status, KindManagedCluster).

Section offline.
Variable Error : error → string.
Variable task_name : TaskType → string.
Variable sprint : any → string.
Variable float_int : float64 → Z.
Variable auditor : bool.

(** The provider is the mock provider, at some times of the clock. *)
Definition offline (h : list (exchange Ev)) : Prop :=
  ∀ rq x, Asked (Generate rq) x ∈ h → ∃ startedAt since, x = Mock_Generate task_name rq startedAt since.

Lemma mock_terms_restricted text :
  ModelSafety.containsRestrictedPhrase text = false → restrictedInstruction text = false.
Proof.
  intros H. unfold restrictedInstruction. apply not_true_is_false. intros (term & Hin & Ht)%ModelSafety.existsb_elem.
  rewrite (ModelSafety.unrestricted text H term) in Ht; [done|].
  unfold restrictedTerms in Hin. unfold ModelSafety.restrictedPhrases. set_solver.
Qed.

Lemma mock_plan_valid id : id ≠ "" → SchemaValidator.ValidateChangePlan (Some (mock_plan id)) = Ok tt.
Proof.
  intros Hid. unfold SchemaValidator.ValidateChangePlan, SchemaValidator.validateCommon. cbn [mock_plan Plan_Meta mock_meta Meta_RequestID].
  rewrite (bool_decide_false (id = "")) by done. reflexivity.
Qed.

Lemma mock_proposal now id createdBy :
  id ≠ "" →
  ∃ p, BuildEvaluatedProposal (Some (Evaluate float_int (NewChecker DefaultPolicy))) now (mock_plan id) createdBy = Ok p
    ∧ Proposal_ApprovalRequired p = false ∧ ∃ d, DraftOf sprint (Some p) = Ok d.
Proof.
  intros Hid. unfold BuildEvaluatedProposal, FromChangePlan. cbn [mock_plan Plan_Meta mock_meta Meta_RequestID].
  rewrite (bool_decide_false (id = "")) by done. eexists. split; [reflexivity|]. split; [reflexivity|]. eexists. reflexivity.
Qed.

(** What a run returns when the provider is the mock provider. *)
Definition answered {X} (e : Ev X) : X → Prop :=
  match e in Ev X return X → Prop with
  | Generate rq => λ x, ∃ startedAt since, x = Mock_Generate task_name rq startedAt since
  | _ => λ _, True
  end.
Fixpoint ends {A} (p : prog Ev A) (Q : A → Prop) : Prop :=
  match p with
  | Ret a => Q a
  | Do e k => ∀ x, answered e x → ends (k x) Q
  end.

Lemma ends_bind {A B} (p : prog Ev A) (f : A → prog Ev B) Q : ends p (λ a, ends (f a) Q) → ends (p ≫= f) Q.
Proof. induction p as [a|X e k IH]; simpl; [done|]. intros H x Hx. by apply IH, H. Qed.

Lemma ends_mono {A} (p : prog Ev A) (Q Q' : A → Prop) : ends p Q → (∀ a, Q a → Q' a) → ends p Q'.
Proof. intros Hp HQ. induction p as [a|X e k IH]; simpl in *; [by apply HQ|]. intros x Hx. by apply IH, Hp. Qed.

Lemma ends_ask {A} {X} (e : Ev X) (f : X → prog Ev A) Q : (∀ x, answered e x → ends (f x) Q) → ends (x ← ask e; f x) Q.
Proof. done. Qed.

Lemma ends_returns {A} (p : prog Ev A) t a Q : ends p Q → returns p t a → offline t → Q a.
Proof.
  intros Hp Ht. unfold returns in Ht. remember (Ret a) as q eqn:Hq. induction Ht as [p|X e x k t p Ht IH]; intros Hoff; subst; [done|].
  apply IH; [|done|].
  - apply Hp. destruct e as [|rq|record]; simpl; try done. apply (Hoff rq). apply list_elem_of_here.
  - intros rq y Hin. apply Hoff. by apply list_elem_of_further.
Qed.

Lemma ends_record g record (Q : AuditRecord → Prop) : Q record → ends (recordAudit g record) Q.
Proof. intros HQ. unfold recordAudit. destruct (gw_auditor g); [by intros x _|exact HQ]. Qed.

Lemma generate_offline id req :
  id ≠ "" → ModelSafety.containsRestrictedPhrase (Generate_UserIntent req) = false →
  ModelSafety.contextContainsSensitiveKey (Generate_Context req) = false →
  ends (generate Error (the_gateway task_name auditor) id req) (λ o, ∃ audit, o = Returned (Ok (mock_plan id)) audit).
Proof.
  intros Hid Hi Hc. unfold generate. apply ends_ask. intros startedAt _. cbn zeta.
  assert (safety_request (the_gateway task_name auditor) (provider_request id req) = Ok tt) as ->.
  { unfold safety_request, the_gateway. cbn [gw_safety sv_request]. unfold ModelSafety.ValidateRequest.
    cbn [provider_request Request_Instruction ModelTypes.Request_Context Request_TaskType]. by rewrite Hi, Hc. }
  apply ends_ask. intros answer (t1 & t2 & ->). unfold Mock_Generate. cbn [provider_request Request_Instruction Request_TaskType ModelTypes.Request_RequestID].
  rewrite (mock_terms_restricted _ Hi). cbn [gw_validator the_gateway safety_response gw_safety sv_response].
  assert (∀ rq usage latency, safety_response (the_gateway task_name auditor) (Some (mock_response rq (AnyPlan (mock_plan id)) usage latency)) = Ok tt)
    as -> by reflexivity.
  cbn [mock_response ModelTypes.Response_Structured as_plan]. rewrite (mock_plan_valid id Hid).
  apply ends_bind. unfold auditSuccess. do 2 (apply ends_ask; intros ? _). apply ends_record. cbn [ends]. eauto.
Qed.

Lemma GeneratePlan_offline req :
  ModelSafety.containsRestrictedPhrase (Generate_UserIntent req) = false →
  ModelSafety.contextContainsSensitiveKey (Generate_Context req) = false →
  ends (GeneratePlan Error (the_gateway task_name auditor) req)
    (λ o, ∃ id audit, id ≠ "" ∧ (Generate_RequestID req ≠ "" → id = Generate_RequestID req) ∧ o = Returned (Ok (mock_plan id)) audit).
Proof.
  intros Hi Hc. unfold GeneratePlan, ensureRequestID. apply ends_bind.
  destruct (decide (Generate_RequestID req = "")) as [He|He].
  - rewrite He, bool_decide_true by done. apply ends_ask. intros now _. cbn [ends].
    eapply ends_mono; [by apply generate_offline|]. intros o (audit & ->). eexists _, audit. split; [|split; [by intros []|done]]. done.
  - rewrite bool_decide_false by done. cbn [negb ends]. eapply ends_mono; [by apply generate_offline|]. intros o (audit & ->).
    exists (Generate_RequestID req), audit. done.
Qed.

(** The pipeline works offline: with the mock provider, an intent without a
    restricted phrase always ends in a draft, of the plan of the provider for the
    id of the request, that needs no approval. *)
Theorem offline_pipeline_completes req h r :
  returns (Run (the_pipeline Error task_name sprint float_int auditor) req) h r → offline h →
  ModelSafety.containsRestrictedPhrase (Req_UserIntent req) = false →
  ∃ res id, r = Some (Ok res) ∧ Res_Plan res = mock_plan id ∧ (Req_RequestID req ≠ "" → id = Req_RequestID req)
    ∧ Proposal_ApprovalRequired (Res_Proposal res) = false.
Proof.
  intros Hrun Hoff Hi. revert r h Hrun Hoff. enough (ends (Run (the_pipeline Error task_name sprint float_int auditor) req)
    (λ r, ∃ res id, r = Some (Ok res) ∧ Res_Plan res = mock_plan id ∧ (Req_RequestID req ≠ "" → id = Req_RequestID req)
    ∧ Proposal_ApprovalRequired (Res_Proposal res) = false)) as He by (intros r h Hrun; by apply (ends_returns _ _ _ _ He)).
  unfold Run, the_pipeline. cbn [pl_gateway pl_planner pl_generator]. apply ends_bind, ends_bind.
  eapply ends_mono; [by apply GeneratePlan_offline|]. intros o (id & audit & Hid & Hsame & ->). cbn [ends answer_of].
  apply ends_ask. intros now _. cbn [ends]. destruct (mock_proposal now id (Req_CreatedBy req) Hid) as (p & -> & Happ & d & Hd).
  cbn [mbind result_bind]. rewrite Hd. cbn [mbind result_bind]. exists (mkResult (mock_plan id) (Some audit) p d), id. done.
Qed.
End offline.

(** ** A run *)

Definition names (t : TaskType) : string := "task".
Definition print (v : any) : string := "v".
Definition sample_answer (X : Type) (e : Ev X) : option X :=
  match e in Ev X return option X with
  | Now => Some 5%Z
  | Generate rq => Some (Mock_Generate names rq 5%Z 5%Z)
  | RecordAudit _ => Some None
  end.
Definition sample_request : Request := mkRequest "r-1" "alice" "scale the dev cluster" "Low" "alice".
Abbreviation sample_pipeline := (the_pipeline (λ _, "error") names print f_trunc true).
Definition sample_history : list (exchange Ev) := fst (follow sample_answer (Run sample_pipeline sample_request)).
Definition sample_proposal : ChangeProposal :=
  match BuildEvaluatedProposal (Some (Evaluate f_trunc DefaultPolicy)) 5 (mock_plan "r-1") "alice" with
  | Ok p => p
  | Err _ => mkChangeProposal "" "" "" mock_cluster "" "" [] "" None (mkRollbackProposal "") (mkValidationPlan []) false "" 0
  end.
Definition sample_audit : AuditRecord :=
  mkAuditRecord "r-1" TaskGeneratePlan mock_name mock_model KindChangePlan "Passed" [] 0 (ModelTypes.mkTokenUsage 1 1 2) "" 5.
Definition sample_result : Result :=
  mkResult (mock_plan "r-1") (Some sample_audit) sample_proposal
    match DraftOf print (Some sample_proposal) with Ok d => d | Err _ => mkDraft "" "" end.

Lemma pipeline_run : returns (Run sample_pipeline sample_request) sample_history (Some (Ok sample_result)).
Proof. exact (follow_asks sample_answer (Run sample_pipeline sample_request)). Qed.

Lemma sample_offline : offline names sample_history.
Proof.
  intros rq x Hin. pose proof (proj1 (Forall_forall _ _) (follow_answers sample_answer (Run sample_pipeline sample_request)) _ Hin) as H.
  injection H as <-. by exists 5%Z, 5%Z.
Qed.

Lemma offline_pipeline_completes_witness :
  ∃ res id, Some (Ok sample_result) = Some (Ok res) ∧ Res_Plan res = mock_plan id ∧ (Req_RequestID sample_request ≠ "" → id = "r-1")
    ∧ Proposal_ApprovalRequired (Res_Proposal res) = false.
Proof. exact (offline_pipeline_completes _ _ _ _ _ sample_request _ _ pipeline_run sample_offline eq_refl). Defined.

Lemma drafts_are_vetted_witness :
  ∃ r', Some (Ok sample_result) = Some r' ∧ (∃ pr, Proposal_PolicyResult (Res_Proposal sample_result) = Some pr)
    ∧ Plan_Environment (Res_Plan sample_result) = "dev".
Proof.
  destruct (drafts_are_vetted _ _ _ _ _ sample_request _ _ pipeline_run) as (r' & Hr & H). exists r'. split; [exact Hr|].
  injection Hr as <-. destruct (H sample_result eq_refl) as (Hd & He). destruct (vetted_judged _ _ _ _ Hd) as (pr & Hpr & _).
  split; [by exists pr|]. exact (proj1 (He eq_refl)).
Defined.

Definition sample_manifest : ManagedCluster := Controller.sample_cluster.
Definition empty_patch : ManifestPatchPlan :=
  mkPatchPlan "" "" mock_cluster "" "" [] [] [] (fail_closed DefaultPolicy) (mkPRMetadata "" "" "" true).
Definition patch_of_proposal (p : ChangeProposal) : ManifestPatchPlan :=
  match BuildPatchPlan id (Some p) "clusters/dev.yaml" "" with Ok plan => plan | Err _ => empty_patch end.
Definition patched (plan : ManifestPatchPlan) (c : ManagedCluster) : ManagedCluster :=
  match ApplyManagedClusterPatch plan c with Ok updated => updated | Err _ => c end.

Lemma unreviewed_changes_are_small_witness :
  ∃ i w r, resized sample_manifest (patched (patch_of_proposal sample_proposal) sample_manifest) i w r
    ∧ leads (Plan_Changes (mock_plan "r-1")) (Worker_Replicas w) r ∧ ∀ c, c ∈ Plan_Changes (mock_plan "r-1") → small c.
Proof.
  destruct (unreviewed_changes_are_small f_trunc (λ f _ _, eq_refl) (λ _, "error") names print id true sample_request sample_history sample_result
    "clusters/dev.yaml" "" (patch_of_proposal sample_proposal) sample_manifest (patched (patch_of_proposal sample_proposal) sample_manifest)
    pipeline_run) as (i & w & r & _ & Hu & Hl & _ & Hsmall).
  - intros c Hc. apply list_elem_of_singleton in Hc. by subst.
  - vm_compute. reflexivity.
  - vm_compute. reflexivity.
  - exists i, w, r. split; [exact Hu|]. split; [exact Hl|]. exact (proj2 (Hsmall eq_refl)).
Defined.

Lemma patches_can_be_undone_witness :
  ApplyManagedClusterPatch
    (with_changes (patch_of_proposal sample_proposal) (reverse (Patch_Rollback (patch_of_proposal sample_proposal))))
    (patched (patch_of_proposal sample_proposal) sample_manifest) = Ok sample_manifest.
Proof. apply (patches_can_be_undone id sample_proposal "clusters/dev.yaml" ""); vm_compute; reflexivity. Defined.

(** ** What passes without approval *)

Definition step (from to : any) : ProposalChange := mkProposalChange gpu_replicas from to "".
Definition proposal_with (changes : list ProposalChange) : ChangeProposal :=
  mkChangeProposal "p" "r-1" "scale" mock_cluster "ScaleOut" "dev" changes "Low" None (mkRollbackProposal "") (mkValidationPlan []) false "alice" 5.
Definition judged (p : ChangeProposal) : ChangeProposal :=
  match Evaluate f_trunc DefaultPolicy (Some p) with Ok r => ApplyPolicyResult p r | Err _ => p end.

(** The delta of each change is limited, not that of the plan: three steps of
    three replicas scale the group by nine, without approval. *)
Definition stairs : ChangeProposal :=
  judged (proposal_with [step (AnyInt 3) (AnyInt 6); step (AnyInt 6) (AnyInt 9); step (AnyInt 9) (AnyInt 12)]).
Example steps_add_up :
  PR_Draft (Patch_PR (patch_of_proposal stairs)) = false
  ∧ (Worker_Replicas <$> Spec_Workers (Cluster_Spec (patched (patch_of_proposal stairs) sample_manifest))) = [12%Z].
Proof. vm_compute. done. Qed.

(** The rollback of a plan with several changes lists them in the order of the
    plan; applied as it is listed, it does not apply. *)
Example rollback_is_not_reversed :
  let plan := patch_of_proposal stairs in
  is_ok (ApplyManagedClusterPatch (with_changes plan (Patch_Rollback plan)) (patched plan sample_manifest)) = false.
Proof. vm_compute. reflexivity. Qed.

(** The policy judges the environment the model wrote into the plan; nothing
    compares it with the environment of the cluster that is patched. *)
Definition production_manifest : ManagedCluster :=
  mkManagedCluster "" KindManagedCluster (mkObjectMeta "dev-gpu-cluster" "default" ∅ ∅ 1 [] [])
    (mkManagedClusterSpec "production" (mkLocalObjectReference "" "") [mkWorkerGroupSpec "gpu-workers" 3 (mkLocalObjectReference "" "gpu-large") ∅]) no_status.
Example production_patched_without_approval :
  PR_Draft (Patch_PR (patch_of_proposal sample_proposal)) = false
  ∧ (Worker_Replicas <$> Spec_Workers (Cluster_Spec (patched (patch_of_proposal sample_proposal) production_manifest))) = [6%Z].
Proof. vm_compute. done. Qed.

(** A delta that is not between two numbers counts as none: the proposal is
    passed without approval (and fails later, when it is applied). *)
Example unknown_delta_passes :
  Proposal_ApprovalRequired (judged (proposal_with [step AnyNil (AnyInt 1000)])) = false.
Proof. reflexivity. Qed.
End PipelineExamples.
