(* ===== verification/ManifestYaml.v ===== *)
(** * ManifestYaml: manifests as text

    [src/integrations/gitops/yamlio/managedcluster.go] and
    [src/integrations/gitops/manifest_bytes_writer.go]: the reader of the YAML
    subset the repository uses, line by line as the source does it, the writer,
    and the writer of patched manifests.  The pointer to the current worker is
    always to the last of the list: its presence is that the list is not empty. *)
From S2P Require Import Prelude GoStrings GoText Order SchemaValidator DraftPipeline Clusters GitOps GitOpsSpec.

Module ManifestYaml.
Import SchemaValidator(Coded).
Import DraftPipeline(newline).
Import Clusters.

Definition NewYAMLIOError (code message : string) : error := Coded "yamlio.YAMLIOError" code message.

Record WorkerGroupYAML : Set := mkWorkerYAML { WY_Name : string; WY_Replicas : Z; WY_MachineClass : string }.
Record ManagedClusterYAML : Set := mkClusterYAML {
  CY_APIVersion : string;
  CY_Kind : string;
  CY_Name : string;
  CY_Namespace : string;
  CY_Labels : gmap string string;
  CY_Environment : string;
  CY_Workers : list WorkerGroupYAML
}.

Definition fromManagedClusterYAML (doc : ManagedClusterYAML) : ManagedCluster :=
  mkManagedCluster (CY_APIVersion doc) (CY_Kind doc) (mkObjectMeta (CY_Name doc) (CY_Namespace doc) (CY_Labels doc) ∅ 1 [] [])
    (mkManagedClusterSpec (CY_Environment doc) (mkLocalObjectReference "" "")
       ((λ w, mkWorkerGroupSpec (WY_Name w) (WY_Replicas w) (mkLocalObjectReference "" (WY_MachineClass w)) ∅) <$> CY_Workers doc))
    no_status.

Definition toManagedClusterYAML (cluster : ManagedCluster) : ManagedClusterYAML :=
  mkClusterYAML (Cluster_APIVersion cluster) (Cluster_Kind cluster) (Meta_Name (Cluster_Meta cluster)) (Meta_Namespace (Cluster_Meta cluster))
    (Meta_Labels (Cluster_Meta cluster)) (Spec_Environment (Cluster_Spec cluster))
    ((λ w, mkWorkerYAML (Worker_Name w) (Worker_Replicas w) (LocalRef_Name (Worker_MachineClassRef w))) <$> Spec_Workers (Cluster_Spec cluster)).

(** ** Reading *)

Definition empty_doc : ManagedClusterYAML := mkClusterYAML "" "" "" "" ∅ "" [].
Definition with_api (d : ManagedClusterYAML) v := mkClusterYAML v (CY_Kind d) (CY_Name d) (CY_Namespace d) (CY_Labels d) (CY_Environment d) (CY_Workers d).
Definition with_kind (d : ManagedClusterYAML) v := mkClusterYAML (CY_APIVersion d) v (CY_Name d) (CY_Namespace d) (CY_Labels d) (CY_Environment d) (CY_Workers d).
Definition with_name (d : ManagedClusterYAML) v := mkClusterYAML (CY_APIVersion d) (CY_Kind d) v (CY_Namespace d) (CY_Labels d) (CY_Environment d) (CY_Workers d).
Definition with_namespace (d : ManagedClusterYAML) v := mkClusterYAML (CY_APIVersion d) (CY_Kind d) (CY_Name d) v (CY_Labels d) (CY_Environment d) (CY_Workers d).
Definition with_labels (d : ManagedClusterYAML) v := mkClusterYAML (CY_APIVersion d) (CY_Kind d) (CY_Name d) (CY_Namespace d) v (CY_Environment d) (CY_Workers d).
Definition with_environment (d : ManagedClusterYAML) v := mkClusterYAML (CY_APIVersion d) (CY_Kind d) (CY_Name d) (CY_Namespace d) (CY_Labels d) v (CY_Workers d).
Definition with_workers (d : ManagedClusterYAML) v := mkClusterYAML (CY_APIVersion d) (CY_Kind d) (CY_Name d) (CY_Namespace d) (CY_Labels d) (CY_Environment d) v.

(** The variables of the loop. *)
Record Reader : Set := mkReader {
  rd_doc : ManagedClusterYAML; rd_section : string; rd_inLabels : bool; rd_inWorkers : bool; rd_inMachineClassRef : bool
}.
Definition set_doc (r : Reader) (d : ManagedClusterYAML) : Reader :=
  mkReader d (rd_section r) (rd_inLabels r) (rd_inWorkers r) (rd_inMachineClassRef r).

Definition invalid_yaml (message : string) : error := NewYAMLIOError "InvalidYAML" message.

(** [strings.SplitN(line, ":", 2)]: up to the first colon, and after it. *)
Fixpoint cut_colon (l : list ascii) : option (list ascii * list ascii) :=
  match l with
  | [] => None
  | a :: l => if a ==? ":"%char then Some ([], l) else '(k, v) ← cut_colon l; Some (a :: k, v)
  end.
Definition quote : ascii := ascii_of_N 34.
Definition splitYAMLKeyValue (line : string) : option (string * string) :=
  '(k, v) ← cut_colon (bytes line);
  let key := TrimSpace (of_bytes k) in
  let value := Trim (TrimSpace (of_bytes v)) quote in
  if key ==? "" then None else Some (key, value).

(** [strconv.ParseInt(value, 10, 32)]. *)
Definition ParseInt32 (value : string) : option Z := z ← Atoi value; if fits_int4 z then Some z else None.

(** [currentWorker], as the last of the workers. *)
Definition edit_worker (f : WorkerGroupYAML → WorkerGroupYAML) (ws : list WorkerGroupYAML) : list WorkerGroupYAML :=
  alter f (pred (length ws)) ws.

(** A line that ends with a colon. *)
Definition read_header (key : string) (r : Reader) : result Reader :=
  if bool_decide (key ∈ ["metadata"; "spec"]) then Ok (mkReader (rd_doc r) key false false false)
  else if key ==? "labels" then Ok (mkReader (rd_doc r) (rd_section r) true false false)
  else if key ==? "workers" then Ok (mkReader (rd_doc r) (rd_section r) false true false)
  else if key ==? "machineClassRef" then Ok (mkReader (rd_doc r) (rd_section r) (rd_inLabels r) (rd_inWorkers r) true)
  else Err (invalid_yaml ("unsupported section: " +:+ key)).

Definition read_worker_field (key value : string) (r : Reader) : result Reader :=
  let d := rd_doc r in
  let edit f := Ok (set_doc r (with_workers d (edit_worker f (CY_Workers d)))) in
  if rd_inMachineClassRef r then
    if key !=? "name" then Err (invalid_yaml ("unsupported machineClassRef field: " +:+ key))
    else edit (λ w, mkWorkerYAML (WY_Name w) (WY_Replicas w) value)
  else if key ==? "name" then edit (λ w, mkWorkerYAML value (WY_Replicas w) (WY_MachineClass w))
  else if key ==? "replicas" then
    match ParseInt32 value with
    | None => Err (invalid_yaml "invalid replicas")
    | Some replicas => edit (λ w, mkWorkerYAML (WY_Name w) replicas (WY_MachineClass w))
    end
  else Err (invalid_yaml ("unsupported worker field: " +:+ key)).

Definition read_section_field (key value : string) (r : Reader) : result Reader :=
  let d := rd_doc r in
  if rd_section r ==? "" then
    if key ==? "apiVersion" then Ok (set_doc r (with_api d value))
    else if key ==? "kind" then Ok (set_doc r (with_kind d value))
    else Err (invalid_yaml ("unsupported top-level field: " +:+ key))
  else if rd_section r ==? "metadata" then
    if key ==? "name" then Ok (set_doc r (with_name d value))
    else if key ==? "namespace" then Ok (set_doc r (with_namespace d value))
    else Err (invalid_yaml ("unsupported metadata field: " +:+ key))
  else if rd_section r ==? "spec" then
    if key ==? "environment" then Ok (set_doc r (with_environment d value))
    else Err (invalid_yaml ("unsupported spec field: " +:+ key))
  else Ok r.

Definition read_field (trimmed : string) (r : Reader) : result Reader :=
  match splitYAMLKeyValue trimmed with
  | None => Err (invalid_yaml ("expected key-value line: " +:+ trimmed))
  | Some (key, value) =>
      let d := rd_doc r in
      if rd_inWorkers r && negb (length (CY_Workers d) =? 0) then read_worker_field key value r
      else if rd_inLabels r then Ok (set_doc r (with_labels d (<[key := value]> (CY_Labels d))))
      else read_section_field key value r
  end.

Definition read_line (line : string) (r : Reader) : result Reader :=
  let trimmed := TrimSpace line in
  if (trimmed ==? "") || HasPrefix trimmed "#" then Ok r
  else if HasSuffix trimmed ":" && negb (HasPrefix trimmed "-") then read_header (TrimSuffix trimmed ":") r
  else if HasPrefix trimmed "- " then
    if negb (rd_inWorkers r) then Err (invalid_yaml "list item outside workers")
    else
      let d := rd_doc r in
      let r := mkReader (with_workers d (CY_Workers d ++ [mkWorkerYAML "" 0 ""])) (rd_section r) (rd_inLabels r) (rd_inWorkers r) false in
      let trimmed := TrimPrefix trimmed "- " in
      if trimmed ==? "" then Ok r else read_field trimmed r
  else read_field trimmed r.

Fixpoint read_lines (lines : list string) (r : Reader) : result Reader :=
  match lines with
  | [] => Ok r
  | line :: lines => r ← read_line line r; read_lines lines r
  end.

Definition parseManagedClusterYAML (raw : string) : result ManagedClusterYAML :=
  if Contains raw "[" || Contains raw "]" then Err (invalid_yaml "unsupported YAML sequence syntax")
  else r ← read_lines (Split raw (ascii_of_N 10)) (mkReader empty_doc "" false false false); Ok (rd_doc r).

Definition err_text (e : error) : string := match e with TypedErr _ text _ => text | _ => "" end.

Definition ReadManagedCluster (data : string) : result ManagedCluster :=
  if String.length data =? 0 then Err (NewYAMLIOError "EmptyInput" "managed cluster YAML is empty")
  else
    doc ← parseManagedClusterYAML data;
    let cluster := fromManagedClusterYAML doc in
    match ValidateManagedCluster cluster with
    | Err err => Err (NewYAMLIOError "InvalidManagedCluster" (err_text err))
    | Ok _ => Ok cluster
    end.

(** ** Writing *)

Definition worker_lines (w : WorkerGroupYAML) : list string :=
  ["    - name: " +:+ WY_Name w; "      replicas: " +:+ Itoa (WY_Replicas w); "      machineClassRef:"; "        name: " +:+ WY_MachineClass w].

(** [sort.Strings] on the keys. *)
Definition sorted_keys (m : gmap string string) : list string := SliceStable str_lt (elements (dom m)).
Definition label_lines (labels : gmap string string) : list string :=
  if bool_decide (labels = ∅) then []
  else "  labels:" :: ((λ k, "    " +:+ k +:+ ": " +:+ default "" (labels !! k)) <$> sorted_keys labels).

Definition document_lines (d : ManagedClusterYAML) : list string :=
  ["apiVersion: " +:+ CY_APIVersion d; "kind: " +:+ CY_Kind d; "metadata:"; "  name: " +:+ CY_Name d; "  namespace: " +:+ CY_Namespace d]
  ++ label_lines (CY_Labels d)
  ++ ["spec:"; "  environment: " +:+ CY_Environment d; "  workers:"]
  ++ (CY_Workers d ≫= worker_lines).

(** Every line is written with the newline that ends it. *)
Definition formatManagedClusterYAML (d : ManagedClusterYAML) : string := foldr (λ line rest, line +:+ newline +:+ rest) "" (document_lines d).

Definition WriteManagedClusterYAML (cluster : ManagedCluster) : result string :=
  match ValidateManagedCluster cluster with
  | Err err => Err (NewYAMLIOError "InvalidManagedCluster" (err_text err))
  | Ok _ => Ok (formatManagedClusterYAML (toManagedClusterYAML cluster))
  end.

(** ** The writer of patched manifests *)

Definition WriteManagedClusterBytes (write : GitOps.ManifestPatchPlan → ManagedCluster → result GitOps.WriteResult)
    (plan : GitOps.ManifestPatchPlan) (input : string) : result (GitOps.WriteResult * string) :=
  match ReadManagedCluster input with
  | Err err => Err (GitOps.NewGitOpsError "ReadManagedClusterManifestFailed" (err_text err))
  | Ok cluster =>
      writeResult ← write plan cluster;
      match WriteManagedClusterYAML (GitOps.Write_Updated writeResult) with
      | Err err => Err (GitOps.NewGitOpsError "RenderManagedClusterManifestFailed" (err_text err))
      | Ok manifest => Ok (writeResult, manifest)
      end
  end.
End ManifestYaml.

(** * ManifestYamlSpec: what is written is read back

    The writer and the reader of manifests are inverse on manifests whose texts
    fit in a line; composed with the patches, the text of a patched manifest is
    read back as the patched manifest. *)

Module ManifestYamlSpec.
Import Clusters ManifestYaml.
Import DraftPipeline(newline).

(** ** Texts that fit in a line *)

Definition nl : ascii := ascii_of_N 10.
Definition outside (a : ascii) : Prop := a ≠ nl ∧ a ≠ "["%char ∧ a ≠ "]"%char.

(** A value: it begins and ends with a graphic character other than a quote, does
    not end with a colon and has no line break and no bracket in it. *)
Record plain (v : string) : Prop := {
  plain_head : ∃ a, head (bytes v) = Some a ∧ graphic a = true ∧ a ≠ quote;
  plain_last : ∃ b, last (bytes v) = Some b ∧ graphic b = true ∧ b ≠ quote ∧ b ≠ ":"%char;
  plain_in a : a ∈ bytes v → outside a
}.

(** A key: it has no colon, and does not look like a comment or a list item. *)
Record plain_key (k : string) : Prop := {
  key_head : ∃ a, head (bytes k) = Some a ∧ graphic a = true ∧ a ≠ "#"%char ∧ a ≠ "-"%char;
  key_last : ∃ b, last (bytes k) = Some b ∧ graphic b = true;
  key_in a : a ∈ bytes k → outside a ∧ a ≠ ":"%char
}.

Record printable (c : ManagedCluster) : Prop := {
  print_api : plain (Cluster_APIVersion c);
  print_kind : plain (Cluster_Kind c);
  print_name : plain (Meta_Name (Cluster_Meta c));
  print_namespace : plain (Meta_Namespace (Cluster_Meta c));
  print_environment : plain (Spec_Environment (Cluster_Spec c));
  print_labels k v : Meta_Labels (Cluster_Meta c) !! k = Some v → plain_key k ∧ plain v;
  print_workers w : w ∈ Spec_Workers (Cluster_Spec c) →
    plain (Worker_Name w) ∧ plain (LocalRef_Name (Worker_MachineClassRef w)) ∧ in_int32 (Worker_Replicas w)
}.

Definition spaces (n : nat) : string := of_bytes (replicate n " "%char).

Lemma trim_front_stop sp2 sp3 a l :
  (∀ a b, sp2 a b = true → graphic a = false) → (∀ a b c, sp3 a b c = true → graphic a = false) →
  graphic a = true → trim_front sp2 sp3 (a :: l) = a :: l.
Proof.
  intros H2 H3 Ha. destruct l as [|b [|c l]]; simpl; rewrite (space1_graphic a Ha); [done|..];
    (destruct (sp2 a b) eqn:E2; [apply H2 in E2; congruence|]); [done|].
  destruct (sp3 a b c) eqn:E3; [apply H3 in E3; congruence|done].
Qed.

Lemma trim_front_indent sp2 sp3 n l : trim_front sp2 sp3 (replicate n " "%char ++ l) = trim_front sp2 sp3 l.
Proof. induction n as [|n IH]; [done|]. simpl. exact IH. Qed.

Lemma TrimSpace_line n s a b :
  head (bytes s) = Some a → graphic a = true → last (bytes s) = Some b → graphic b = true → TrimSpace (spaces n +:+ s) = s.
Proof.
  intros Ha Hga Hb Hgb. unfold TrimSpace, trim_left, trim_right, spaces. rewrite bytes_app, bytes_of_bytes, trim_front_indent.
  destruct (bytes s) as [|a' l] eqn:Hs; [done|]. injection Ha as ->. rewrite trim_front_stop; [| | |done].
  - rewrite <- head_reverse in Hb. destruct (reverse (a :: l)) as [|b' l'] eqn:Hr; [done|]. injection Hb as ->.
    rewrite trim_front_stop; [| | |done].
    + rewrite <- Hr, reverse_involutive, <- Hs. apply of_bytes_bytes.
    + intros x y H%space2_graphic. by destruct H.
    + intros x y z H%space3_graphic. by destruct H as (? & ? & ?).
  - intros x y H%space2_graphic. by destruct H.
  - intros x y z H%space3_graphic. by destruct H as (? & ? & ?).
Qed.

Lemma cut_colon_app k l : ":"%char ∉ k → cut_colon (k ++ ":"%char :: l) = Some (k, l).
Proof.
  induction k as [|a k IH]; simpl; intros Hk; [done|]. apply not_elem_of_cons in Hk as [Ha Hk].
  rewrite bool_decide_false by done. by rewrite IH.
Qed.

Lemma Trim_quotes v : plain v → Trim v quote = v.
Proof.
  intros [(a & Ha & _ & Hq) (b & Hb & _ & Hq' & _) _]. unfold Trim. rewrite <- (app_nil_r (bytes v)).
  change (@nil ascii) with (replicate 0 quote). rewrite Paths.trim_char_core; [apply of_bytes_bytes|congruence|congruence|].
  intros E. by rewrite E in Ha.
Qed.

Definition field_text (k v : string) : string := k +:+ ": " +:+ v.

Lemma field_text_bytes k v : bytes (field_text k v) = bytes k ++ ":"%char :: " "%char :: bytes v.
Proof. unfold field_text. by rewrite !bytes_app. Qed.

Lemma field_text_head k v a : head (bytes k) = Some a → head (bytes (field_text k v)) = Some a.
Proof. intros H. rewrite field_text_bytes. by destruct (bytes k). Qed.

Lemma last_cons_some {A} (x : A) l b : last l = Some b → last (x :: l) = Some b.
Proof. intros H. rewrite last_cons, H. done. Qed.

Lemma field_text_last k v b : last (bytes v) = Some b → last (bytes (field_text k v)) = Some b.
Proof. intros H. rewrite field_text_bytes, last_app. by rewrite (last_cons_some _ _ b (last_cons_some _ _ b H)). Qed.

Lemma split_field k v : plain_key k → plain v → splitYAMLKeyValue (field_text k v) = Some (k, v).
Proof.
  intros Hk Hv. unfold splitYAMLKeyValue. rewrite field_text_bytes, cut_colon_app; [|intros H; by destruct (key_in k Hk _ H)].
  cbn [mbind option_bind]. destruct (key_head k Hk) as (a & Ha & Hga & _). destruct (key_last k Hk) as (b & Hb & Hgb).
  rewrite of_bytes_bytes.
  assert (TrimSpace k = k) as -> by (by apply (TrimSpace_line 0 k a b)).
  destruct (plain_head v Hv) as (a' & Ha' & Hga' & _). destruct (plain_last v Hv) as (b' & Hb' & Hgb' & _).
  assert (TrimSpace (of_bytes (" "%char :: bytes v)) = v) as ->.
  { pose proof (TrimSpace_line 1 v a' b' Ha' Hga' Hb' Hgb') as H. rewrite <- H at 2. f_equal. simpl. by rewrite of_bytes_bytes. }
  rewrite Trim_quotes by done. rewrite bool_decide_false; [done|]. intros ->. done.
Qed.

Lemma HasPrefix_head s p a c l : bytes p = c :: l → head (bytes s) = Some a → a ≠ c → HasPrefix s p = false.
Proof. intros Hp Hs Hne. unfold HasPrefix. rewrite Hp. destruct (bytes s); [done|]. injection Hs as ->. simpl. by rewrite bool_decide_false by done. Qed.

Lemma HasSuffix_last s b : last (bytes s) = Some b → b ≠ ":"%char → HasSuffix s ":" = false.
Proof.
  intros Hs Hne. unfold HasSuffix. rewrite <- head_reverse in Hs. destruct (reverse (bytes s)) as [|b' l]; [done|]. injection Hs as ->.
  change (reverse (bytes ":")) with [":"%char]. simpl. by rewrite bool_decide_false by done.
Qed.

(** A line with a key and a value. *)
Lemma read_field_line n k v r : plain_key k → plain v → read_line (spaces n +:+ field_text k v) r = read_field (field_text k v) r.
Proof.
  intros Hk Hv. destruct (key_head k Hk) as (a & Ha & Hga & Hh & Hd). destruct (plain_last v Hv) as (b & Hb & Hgb & _ & Hc).
  pose proof (field_text_head k v a Ha) as Hhead. pose proof (field_text_last k v b Hb) as Hlast.
  unfold read_line. rewrite (TrimSpace_line n (field_text k v) a b) by done. cbn zeta.
  rewrite bool_decide_false by (intros E; rewrite E in Hhead; done).
  rewrite (HasPrefix_head _ "#" a "#" []), (HasSuffix_last _ b), (HasPrefix_head _ "- " a "-" [" "%char]) by done. done.
Qed.

(** The line that begins a worker. *)
Lemma read_item_line n k v r : plain_key k → plain v → rd_inWorkers r = true →
  read_line (spaces n +:+ ("- " +:+ field_text k v)) r
  = read_field (field_text k v)
      (mkReader (with_workers (rd_doc r) (CY_Workers (rd_doc r) ++ [mkWorkerYAML "" 0 ""])) (rd_section r) (rd_inLabels r) true false).
Proof.
  intros Hk Hv Hr. destruct (key_head k Hk) as (a & Ha & Hga & Hh & Hd). destruct (plain_last v Hv) as (b & Hb & Hgb & _ & Hc).
  pose proof (field_text_head k v a Ha) as Hhead. pose proof (field_text_last k v b Hb) as Hlast.
  assert (last (bytes ("- " +:+ field_text k v)) = Some b) as Hlast'.
  { rewrite bytes_app, last_app, Hlast. done. }
  unfold read_line. rewrite (TrimSpace_line n ("- " +:+ field_text k v) "-" b) by done. cbn zeta.
  rewrite bool_decide_false by done. rewrite (HasPrefix_head _ "#" "-" "#" []), (HasSuffix_last _ b), HasPrefix_app, Hr, TrimPrefix_app by done.
  cbn [orb andb negb]. rewrite bool_decide_false by (intros E; rewrite E in Hhead; done). done.
Qed.

(** ** The lines of a document *)

Lemma read_lines_app l1 l2 r : read_lines (l1 ++ l2) r = (r1 ← read_lines l1 r; read_lines l2 r1).
Proof. revert r. induction l1 as [|line l1 IH]; intros r; simpl; [done|]. destruct (read_line line r); simpl; [apply IH|done]. Qed.

Lemma concrete_key k : forallb (λ a, is_lower a || is_upper a) (bytes k) = true → k ≠ "" → plain_key k.
Proof.
  intros Hall Hne. rewrite forallb_forall in Hall.
  assert (∀ a, a ∈ bytes k → graphic a = true ∧ outside a ∧ a ≠ ":"%char ∧ a ≠ "#"%char ∧ a ≠ "-"%char) as Hin.
  { intros a Ha. apply list_elem_of_In, Hall in Ha. unfold is_lower, is_upper, in_range in Ha.
    rewrite orb_true_iff, !andb_true_iff, !N.leb_le in Ha. unfold graphic, outside. rewrite andb_true_iff, N.leb_le, N.ltb_lt.
    split; [lia|]. repeat split; intros ->; vm_compute in Ha; destruct Ha as [[]|[]]; done. }
  destruct (bytes k) as [|a l] eqn:Hk; [by destruct k|]. split.
  - exists a. rewrite Hk. split; [done|]. destruct (Hin a) as (? & ? & ? & ? & ?); [apply list_elem_of_here|done].
  - rewrite Hk. destruct (last (a :: l)) as [b|] eqn:Hb; [|by apply last_None in Hb]. exists b. split; [done|].
    by apply (Hin b), last_Some_elem_of.
  - intros b Hb. rewrite Hk in Hb. by destruct (Hin b Hb) as (? & ? & ? & ? & ?).
Qed.

(** A field of the sections. *)
Lemma read_kv n k v r : plain_key k → plain v → rd_inWorkers r = false → rd_inLabels r = false →
  read_line (spaces n +:+ field_text k v) r = read_section_field k v r.
Proof. intros Hk Hv Hw Hl. rewrite read_field_line by done. unfold read_field. rewrite split_field by done. by rewrite Hw, Hl. Qed.

(** The labels. *)
Lemma read_labels ks (labels : gmap string string) r :
  (∀ k, k ∈ ks → ∃ v, labels !! k = Some v ∧ plain_key k ∧ plain v) → rd_inWorkers r = false → rd_inLabels r = true →
  read_lines ((λ k, "    " +:+ k +:+ ": " +:+ default "" (labels !! k)) <$> ks) r
  = Ok (set_doc r (with_labels (rd_doc r) (foldl (λ m k, <[k := default "" (labels !! k)]> m) (CY_Labels (rd_doc r)) ks))).
Proof.
  revert r. induction ks as [|k ks IH]; intros r Hks Hw Hl; simpl.
  { destruct r as [[]]. done. }
  destruct (Hks k) as (v & Hv & Hk & Hp); [apply list_elem_of_here|]. rewrite Hv. cbn [default from_option id].
  pose proof (read_field_line 4 k v r Hk Hp) as Hline. change (spaces 4 +:+ field_text k v) with ("    " +:+ k +:+ ": " +:+ v) in Hline.
  cbn in Hline |- *. rewrite Hline. unfold read_field. rewrite split_field, Hw, Hl by done. cbn [andb mbind result_bind].
  rewrite IH; [done| |done|done]. intros k' Hk'. apply Hks. by apply list_elem_of_further.
Qed.

Lemma foldl_labels ks (labels m : gmap string string) k :
  foldl (λ m k, <[k := default "" (labels !! k)]> m) m ks !! k = if bool_decide (k ∈ ks) then Some (default "" (labels !! k)) else m !! k.
Proof.
  revert m. induction ks as [|k' ks IH]; intros m; simpl; [done|]. rewrite IH. destruct (decide (k ∈ ks)) as [Hin|Hin].
  - rewrite !bool_decide_true; [done|by apply list_elem_of_further|done].
  - rewrite (bool_decide_false (k ∈ ks)) by done. destruct (decide (k = k')) as [->|Hne].
    + rewrite bool_decide_true by apply list_elem_of_here. by rewrite lookup_insert_eq.
    + rewrite bool_decide_false, lookup_insert_ne; [done|done|]. rewrite not_elem_of_cons. done.
Qed.

Lemma labels_rebuilt (labels : gmap string string) :
  foldl (λ m k, <[k := default "" (labels !! k)]> m) ∅ (sorted_keys labels) = labels.
Proof.
  apply map_eq. intros k. rewrite foldl_labels. unfold sorted_keys.
  destruct (labels !! k) as [v|] eqn:Hk.
  - rewrite bool_decide_true; [done|]. rewrite SliceStable_Permutation, elem_of_elements. by apply elem_of_dom_2 in Hk.
  - rewrite bool_decide_false; [done|]. rewrite SliceStable_Permutation, elem_of_elements. by apply not_elem_of_dom.
Qed.

(** The replicas. *)
Lemma digits_digit acc l z : digits_value acc l = Some z → Forall (λ a, is_digit a = true) l.
Proof.
  revert acc. induction l as [|a l IH]; intros acc; simpl; [constructor|]. destruct (is_digit a) eqn:Ha; [|done].
  intros H. constructor; [done|by eapply IH].
Qed.

Lemma Itoa_plain z : (0 ≤ z)%Z → plain (Itoa z).
Proof.
  intros Hz. assert (Itoa z = pretty.pretty (Z.to_N z)) as -> by (unfold Itoa; destruct z; simpl; [done|done|lia]).
  pose proof (pretty_N_value (Z.to_N z)) as Hv. unfold unsigned_value in Hv.
  destruct (bytes (pretty.pretty (Z.to_N z))) as [|a l] eqn:E; [done|]. apply digits_digit in Hv. rewrite Forall_forall in Hv.
  assert (∀ b, b ∈ a :: l → graphic b = true ∧ outside b ∧ b ≠ quote ∧ b ≠ ":"%char) as Hin.
  { intros b Hb%Hv. unfold is_digit, in_range in Hb. rewrite andb_true_iff, !N.leb_le in Hb.
    unfold graphic, outside. rewrite andb_true_iff, N.leb_le, N.ltb_lt. split; [lia|].
    repeat split; intros ->; vm_compute in Hb; destruct Hb; done. }
  split; rewrite E.
  - exists a. split; [done|]. destruct (Hin a) as (? & ? & ? & ?); [apply list_elem_of_here|done].
  - destruct (last (a :: l)) as [b|] eqn:Hb; [|by apply last_None in Hb]. exists b. split; [done|].
    destruct (Hin b) as (? & ? & ? & ?); [by apply last_Some_elem_of|done].
  - intros b Hb. by destruct (Hin b Hb) as (? & ? & ?).
Qed.

Lemma ParseInt32_Itoa z : (0 ≤ z)%Z → in_int32 z → ParseInt32 (Itoa z) = Some z.
Proof.
  unfold in_int32. intros Hz Hr. unfold ParseInt32. rewrite Atoi_Itoa by (unfold int_max; lia). cbn [mbind option_bind].
  unfold fits_int4. by rewrite (proj2 (Z.leb_le _ _)), (proj2 (Z.leb_le _ _)) by lia.
Qed.

(** The workers. *)
Definition plain_worker (w : WorkerGroupYAML) : Prop :=
  plain (WY_Name w) ∧ plain (WY_MachineClass w) ∧ (0 ≤ WY_Replicas w)%Z ∧ in_int32 (WY_Replicas w).

Lemma edit_last f ws w : edit_worker f (ws ++ [w]) = ws ++ [f w].
Proof.
  unfold edit_worker. rewrite length_app. cbn [length]. replace (pred (length ws + 1)) with (length ws + 0) by lia.
  by rewrite alter_app_r.
Qed.

Lemma read_worker_kv n k v r ws w :
  plain_key k → plain v → rd_inWorkers r = true → CY_Workers (rd_doc r) = ws ++ [w] →
  read_line (spaces n +:+ field_text k v) r = read_worker_field k v r.
Proof.
  intros Hk Hv Hw Hws. rewrite read_field_line by done. unfold read_field. rewrite split_field by done.
  rewrite Hw, Hws, length_app. cbn [length]. rewrite (proj2 (Nat.eqb_neq _ _)) by lia. done.
Qed.

Lemma read_worker w r :
  plain_worker w → rd_inWorkers r = true →
  read_lines (worker_lines w) r
  = Ok (mkReader (with_workers (rd_doc r) (CY_Workers (rd_doc r) ++ [w])) (rd_section r) (rd_inLabels r) true true).
Proof.
  intros (Hn & Hc & Hz & Hr) Hw. assert (plain_key "name") as Hkn by (by apply concrete_key).
  assert (plain_key "replicas") as Hkr by (by apply concrete_key).
  set (at_ := λ ws b, mkReader (with_workers (rd_doc r) ws) (rd_section r) (rd_inLabels r) true b).
  assert (read_line ("    - name: " +:+ WY_Name w) r = Ok (at_ (CY_Workers (rd_doc r) ++ [mkWorkerYAML (WY_Name w) 0 ""]) false)) as H1.
  { pose proof (read_item_line 4 "name" (WY_Name w) r Hkn Hn Hw) as H1.
    change (spaces 4 +:+ ("- " +:+ field_text "name" (WY_Name w))) with ("    - name: " +:+ WY_Name w) in H1. rewrite H1.
    unfold read_field. rewrite split_field by done. cbn [rd_inWorkers rd_doc CY_Workers with_workers]. rewrite length_app. cbn [length].
    rewrite (proj2 (Nat.eqb_neq _ _)) by lia. cbn [andb negb]. unfold read_worker_field. cbn [rd_inMachineClassRef rd_doc].
    rewrite bool_decide_true by done. cbn [CY_Workers with_workers]. by rewrite edit_last. }
  assert (∀ ws v, read_line ("      replicas: " +:+ Itoa (WY_Replicas w)) (at_ (ws ++ [v]) false)
    = Ok (at_ (ws ++ [mkWorkerYAML (WY_Name v) (WY_Replicas w) (WY_MachineClass v)]) false)) as H2.
  { intros ws v. pose proof (read_worker_kv 6 "replicas" (Itoa (WY_Replicas w)) (at_ (ws ++ [v]) false) ws v Hkr (Itoa_plain _ Hz) eq_refl eq_refl) as H2.
    change (spaces 6 +:+ field_text "replicas" (Itoa (WY_Replicas w))) with ("      replicas: " +:+ Itoa (WY_Replicas w)) in H2. rewrite H2.
    unfold read_worker_field, at_. cbn [rd_inMachineClassRef rd_doc]. rewrite (bool_decide_false ("replicas" = "name")), bool_decide_true by done.
    rewrite ParseInt32_Itoa by done. cbn [CY_Workers with_workers]. by rewrite edit_last. }
  assert (∀ ws, read_line "      machineClassRef:" (at_ ws false) = Ok (at_ ws true)) as H3 by reflexivity.
  assert (∀ ws v, read_line ("        name: " +:+ WY_MachineClass w) (at_ (ws ++ [v]) true)
    = Ok (at_ (ws ++ [mkWorkerYAML (WY_Name v) (WY_Replicas v) (WY_MachineClass w)]) true)) as H4.
  { intros ws v. pose proof (read_worker_kv 8 "name" (WY_MachineClass w) (at_ (ws ++ [v]) true) ws v Hkn Hc eq_refl eq_refl) as H4.
    change (spaces 8 +:+ field_text "name" (WY_MachineClass w)) with ("        name: " +:+ WY_MachineClass w) in H4. rewrite H4.
    unfold read_worker_field, at_. cbn [rd_inMachineClassRef rd_doc]. rewrite bool_decide_true by done. cbn [negb CY_Workers with_workers].
    by rewrite edit_last. }
  unfold worker_lines. cbn [read_lines]. rewrite H1. cbn [mbind result_bind]. rewrite H2. cbn [mbind result_bind]. rewrite H3.
  cbn [mbind result_bind]. rewrite H4. by destruct w.
Qed.

Lemma read_workers ws r :
  Forall plain_worker ws → rd_inWorkers r = true →
  ∃ r', read_lines (ws ≫= worker_lines) r = Ok r' ∧ rd_doc r' = with_workers (rd_doc r) (CY_Workers (rd_doc r) ++ ws).
Proof.
  revert r. induction ws as [|w ws IH]; intros r Hp Hw.
  { exists r. split; [done|]. rewrite app_nil_r. by destruct r as [[]]. }
  apply Forall_cons in Hp as [Hpw Hp]. rewrite bind_cons, read_lines_app, read_worker by done. cbn [mbind result_bind].
  destruct (IH (mkReader (with_workers (rd_doc r) (CY_Workers (rd_doc r) ++ [w])) (rd_section r) (rd_inLabels r) true true) Hp eq_refl) as (r' & Hr' & Hd).
  exists r'. split; [exact Hr'|]. rewrite Hd. cbn [rd_doc with_workers CY_Workers]. by rewrite <- app_assoc.
Qed.

(** *** The document *)

Record plain_doc (d : ManagedClusterYAML) : Prop := {
  doc_api : plain (CY_APIVersion d);
  doc_kind : plain (CY_Kind d);
  doc_name : plain (CY_Name d);
  doc_namespace : plain (CY_Namespace d);
  doc_environment : plain (CY_Environment d);
  doc_labels k v : CY_Labels d !! k = Some v → plain_key k ∧ plain v;
  doc_workers : Forall plain_worker (CY_Workers d)
}.

Lemma read_label_lines (labels : gmap string string) d :
  (∀ k v, labels !! k = Some v → plain_key k ∧ plain v) → CY_Labels d = ∅ →
  ∃ b, read_lines (label_lines labels) (mkReader d "metadata" false false false) = Ok (mkReader (with_labels d labels) "metadata" b false false).
Proof.
  intros Hl Hd. unfold label_lines. case_bool_decide as He.
  - exists false. subst. rewrite <- Hd. by destruct d.
  - exists true. cbn [read_lines]. assert (read_line "  labels:" (mkReader d "metadata" false false false) = Ok (mkReader d "metadata" true false false)) as -> by reflexivity.
    cbn [mbind result_bind]. rewrite read_labels; [|intros k Hk|done|done].
    + cbn [rd_doc set_doc]. rewrite Hd, labels_rebuilt. done.
    + unfold sorted_keys in Hk. rewrite SliceStable_Permutation, elem_of_elements, elem_of_dom in Hk. destruct Hk as [v Hv]. eauto.
Qed.

(** The lines of the sections, for any document read so far. *)
Lemma section_line n k v sec d : plain_key k → plain v →
  read_line (spaces n +:+ field_text k v) (mkReader d sec false false false) = read_section_field k v (mkReader d sec false false false).
Proof. intros Hk Hv. by apply read_kv. Qed.

Lemma read_document d :
  plain_doc d → ∃ r, read_lines (document_lines d) (mkReader empty_doc "" false false false) = Ok r ∧ rd_doc r = d.
Proof.
  intros [Ha Hk Hn Hns He Hl Hw]. unfold document_lines.
  set (at_ := λ d sec b, mkReader d sec b false false). assert (∀ k, forallb (λ a, is_lower a || is_upper a) (bytes k) = true → k ≠ "" → plain_key k) as Hkey by apply concrete_key.
  assert (∀ d0, read_line ("apiVersion: " +:+ CY_APIVersion d) (at_ d0 "" false) = Ok (at_ (with_api d0 (CY_APIVersion d)) "" false)) as H1
    by (intros d0; exact (section_line 0 "apiVersion" _ "" d0 (Hkey "apiVersion" eq_refl ltac:(done)) Ha)).
  assert (∀ d0, read_line ("kind: " +:+ CY_Kind d) (at_ d0 "" false) = Ok (at_ (with_kind d0 (CY_Kind d)) "" false)) as H2
    by (intros d0; exact (section_line 0 "kind" _ "" d0 (Hkey "kind" eq_refl ltac:(done)) Hk)).
  assert (∀ d0, read_line "metadata:" (at_ d0 "" false) = Ok (at_ d0 "metadata" false)) as H3 by reflexivity.
  assert (∀ d0, read_line ("  name: " +:+ CY_Name d) (at_ d0 "metadata" false) = Ok (at_ (with_name d0 (CY_Name d)) "metadata" false)) as H4
    by (intros d0; exact (section_line 2 "name" _ "metadata" d0 (Hkey "name" eq_refl ltac:(done)) Hn)).
  assert (∀ d0, read_line ("  namespace: " +:+ CY_Namespace d) (at_ d0 "metadata" false) = Ok (at_ (with_namespace d0 (CY_Namespace d)) "metadata" false)) as H5
    by (intros d0; exact (section_line 2 "namespace" _ "metadata" d0 (Hkey "namespace" eq_refl ltac:(done)) Hns)).
  assert (∀ d0 b, read_line "spec:" (at_ d0 "metadata" b) = Ok (at_ d0 "spec" false)) as H6 by reflexivity.
  assert (∀ d0, read_line ("  environment: " +:+ CY_Environment d) (at_ d0 "spec" false) = Ok (at_ (with_environment d0 (CY_Environment d)) "spec" false)) as H7
    by (intros d0; exact (section_line 2 "environment" _ "spec" d0 (Hkey "environment" eq_refl ltac:(done)) He)).
  assert (∀ d0, read_line "  workers:" (at_ d0 "spec" false) = Ok (mkReader d0 "spec" false true false)) as H8 by reflexivity.
  change (mkReader empty_doc "" false false false) with (at_ empty_doc "" false). rewrite read_lines_app. cbn [read_lines].
  rewrite H1. cbn [mbind result_bind]. rewrite H2. cbn [mbind result_bind]. rewrite H3. cbn [mbind result_bind]. rewrite H4.
  cbn [mbind result_bind]. rewrite H5. cbn [mbind result_bind]. rewrite read_lines_app.
  match goal with |- context [read_lines (label_lines _) (at_ ?x _ _)] => destruct (read_label_lines (CY_Labels d) x Hl eq_refl) as (b & Hb) end.
  unfold at_ at 1. rewrite Hb. cbn [mbind result_bind]. rewrite read_lines_app. cbn [read_lines].
  change (mkReader ?x "metadata" b false false) with (at_ x "metadata" b). rewrite H6. cbn [mbind result_bind]. rewrite H7. cbn [mbind result_bind].
  rewrite H8. cbn [mbind result_bind].
  match goal with |- context [read_lines _ ?x] => destruct (read_workers (CY_Workers d) x Hw eq_refl) as (r & Hr & Hd) end.
  exists r. split; [exact Hr|]. rewrite Hd. by destruct d.
Qed.

(** ** The text *)

Lemma Split_lines lines :
  Forall (λ l, nl ∉ bytes l) lines → Split (foldr (λ line rest, line +:+ newline +:+ rest) "" lines) nl = lines ++ [""].
Proof.
  intros Hl. unfold Split. induction Hl as [|line lines Hline _ IH]; [done|]. cbn [foldr].
  rewrite !bytes_app, Paths.split_byte_app, app_nil_r by done. change (bytes newline) with [nl]. cbn [app split_byte].
  rewrite bool_decide_true by done. by rewrite IH, reverse_involutive, of_bytes_bytes.
Qed.

Lemma lines_elem a lines : a ∈ bytes (foldr (λ line rest, line +:+ newline +:+ rest) "" lines) → a = nl ∨ ∃ l, l ∈ lines ∧ a ∈ bytes l.
Proof.
  induction lines as [|line lines IH]; cbn [foldr]; [by intros H%not_elem_of_nil|]. rewrite !bytes_app, !elem_of_app.
  change (bytes newline) with [nl]. intros [H|[H%list_elem_of_singleton|H]]; [right|by left|].
  - exists line. split; [apply list_elem_of_here|done].
  - apply IH in H as [->|(l & Hl & Ha)]; [by left|right]. exists l. split; [by apply list_elem_of_further|done].
Qed.

Lemma Contains_char s c : c ∉ bytes s → Contains s (String c "") = false.
Proof.
  intros H. apply not_true_is_false. unfold Contains. rewrite contains_spec. intros (l1 & l2 & E). apply H. rewrite E.
  apply elem_of_app. right. apply list_elem_of_here.
Qed.

(** A line of a plain document has no line break and no bracket. *)
Definition clean (line : string) : Prop := ∀ a, a ∈ bytes line → outside a.

Lemma clean_app s t : clean s → clean t → clean (s +:+ t).
Proof. intros Hs Ht a. rewrite bytes_app. intros [H|H]%elem_of_app; auto. Qed.

Lemma clean_concrete s : forallb (λ a, negb ((a ==? nl) || (a ==? "["%char) || (a ==? "]"%char))) (bytes s) = true → clean s.
Proof.
  rewrite forallb_forall. intros H a Ha%list_elem_of_In%H. apply negb_true_iff, orb_false_iff in Ha as [[H1 H2]%orb_false_iff H3].
  apply bool_decide_eq_false in H1, H2, H3. done.
Qed.

Lemma clean_value s v : forallb (λ a, negb ((a ==? nl) || (a ==? "["%char) || (a ==? "]"%char))) (bytes s) = true → plain v → clean (s +:+ v).
Proof. intros Hs Hv. apply clean_app; [by apply clean_concrete|]. exact (plain_in v Hv). Qed.

Lemma document_clean d : plain_doc d → Forall clean (document_lines d).
Proof.
  intros [Ha Hk Hn Hns He Hl Hw]. unfold document_lines. rewrite !Forall_app. split; [|split; [|split]].
  - repeat (apply Forall_nil_2 || apply Forall_cons_2); (by apply clean_value) || by apply clean_concrete.
  - unfold label_lines. case_bool_decide; [constructor|]. apply Forall_cons_2; [by apply clean_concrete|]. apply Forall_fmap, Forall_forall.
    intros k Hin. unfold sorted_keys in Hin. rewrite SliceStable_Permutation, elem_of_elements, elem_of_dom in Hin. destruct Hin as [v Hv].
    simpl. rewrite Hv. destruct (Hl k v Hv) as [Hpk Hpv]. apply (clean_app "    "); [by apply clean_concrete|].
    apply clean_app; [intros a Hin; by apply (key_in k Hpk)|]. by apply (clean_value ": ").
  - repeat (apply Forall_nil_2 || apply Forall_cons_2); (by apply clean_value) || by apply clean_concrete.
  - apply Forall_forall. intros l (w & Hl' & Hin)%list_elem_of_bind. rewrite Forall_forall in Hw. destruct (Hw w Hin) as (H1 & H2 & H3 & _).
    revert l Hl'. apply Forall_forall. unfold worker_lines.
    repeat (apply Forall_nil_2 || apply Forall_cons_2); (by apply clean_value) || (by apply clean_value; [|apply Itoa_plain]) || by apply clean_concrete.
Qed.

Lemma parse_format d : plain_doc d → parseManagedClusterYAML (formatManagedClusterYAML d) = Ok d.
Proof.
  intros Hd. pose proof (document_clean d Hd) as Hc. rewrite Forall_forall in Hc. unfold parseManagedClusterYAML, formatManagedClusterYAML.
  assert (∀ c, c = "["%char ∨ c = "]"%char → c ∉ bytes (foldr (λ line rest, line +:+ newline +:+ rest) "" (document_lines d))) as Hno.
  { intros c Hcc [->|(l & Hl & Hin)]%lines_elem; [destruct Hcc; done|]. destruct (Hc l Hl c Hin) as (_ & H1 & H2). destruct Hcc; done. }
  rewrite (Contains_char _ "["), (Contains_char _ "]") by (apply Hno; auto). cbn [orb].
  change (ascii_of_N 10) with nl. rewrite Split_lines by (apply Forall_forall; intros l Hl Hin; by destruct (Hc l Hl nl Hin)).
  destruct (read_document d Hd) as (r & Hr & Hdoc). rewrite read_lines_app, Hr. cbn [mbind result_bind read_lines].
  assert (∀ r0, read_line "" r0 = Ok r0) as -> by reflexivity. cbn [mbind result_bind]. by rewrite Hdoc.
Qed.

(** ** Manifests *)

Lemma to_plain c : valid_cluster c → printable c → plain_doc (toManagedClusterYAML c).
Proof.
  intros (_ & _ & _ & Hv & _) [Ha Hk Hn Hns He Hl Hw]. split; simpl; [done..|]. apply Forall_fmap, Forall_forall. intros w Hin.
  destruct (Hw w Hin) as (H1 & H2 & H3). rewrite Forall_forall in Hv. destruct (Hv w Hin) as (_ & H4 & _). done.
Qed.

Lemma kept_valid c : valid_cluster c → valid_cluster (fromManagedClusterYAML (toManagedClusterYAML c)).
Proof.
  intros (H1 & H2 & H3 & H4 & H5). split; [done|]. split; [done|]. split; [done|]. simpl. rewrite <- !list_fmap_compose. split; [|exact H5].
  apply Forall_fmap. exact H4.
Qed.

(** A cluster written as a manifest is read back: its type, name, namespace,
    labels, environment and workers with their replicas and machine classes, as
    long as its texts fit in lines. *)
Lemma written_is_read cluster text :
  WriteManagedClusterYAML cluster = Ok text → printable cluster →
  ReadManagedCluster text = Ok (fromManagedClusterYAML (toManagedClusterYAML cluster)).
Proof.
  unfold WriteManagedClusterYAML. destruct (ValidateManagedCluster cluster) as [u|] eqn:Hv; [|done]. intros [= <-] Hp.
  apply ValidateManagedCluster_Ok in Hv. unfold ReadManagedCluster.
  assert ((String.length (formatManagedClusterYAML (toManagedClusterYAML cluster)) =? 0) = false) as -> by reflexivity.
  rewrite parse_format by (by apply to_plain). cbn [mbind result_bind].
  by rewrite (proj2 (ValidateManagedCluster_correct _) (kept_valid _ Hv)).
Qed.

(** Everything of the cluster is in the manifest. *)
Definition manifest_only (c : ManagedCluster) : Prop := fromManagedClusterYAML (toManagedClusterYAML c) = c.

Lemma read_manifest_only text c : ReadManagedCluster text = Ok c → manifest_only c ∧ valid_cluster c.
Proof.
  unfold ReadManagedCluster. destruct (_ =? 0); [done|]. intros H. bind_inv H doc Hdoc.
  destruct (ValidateManagedCluster _) as [u|] eqn:Hv; [|done]. injection H as <-. split; [|by eapply ValidateManagedCluster_Ok].
  unfold manifest_only, fromManagedClusterYAML, toManagedClusterYAML. simpl. rewrite <- !list_fmap_compose. reflexivity.
Qed.

Lemma patched_manifest_only (c : ManagedCluster) (i : nat) w r :
  manifest_only c → Spec_Workers (Cluster_Spec c) !! i = Some w →
  manifest_only (GitOps.set_workers c (<[i := GitOps.set_replicas w r]> (Spec_Workers (Cluster_Spec c)))).
Proof.
  unfold manifest_only, fromManagedClusterYAML, toManagedClusterYAML. destruct c as [api kind [] [env pref ws] st]. simpl.
  intros H Hw. injection H as <- <- <- <- <- Hws <-. f_equal. f_equal. rewrite <- list_fmap_compose in *.
  rewrite list_fmap_insert, Hws. f_equal. apply (f_equal (λ l, l !! i)) in Hws. rewrite list_lookup_fmap, Hw in Hws. simpl in Hws.
  injection Hws as Hws. destruct w; simpl in *. by injection Hws as <- <-.
Qed.

(** C18. From text to text: let a patch be applied to the text of a manifest, and
    suppose that the patched cluster is printable, that is, that its API version,
    kind, name, namespace and environment, the values of its labels and the names
    of its worker groups and of their machine classes are not empty, begin and end
    with a graphic character that is not a quote, do not end with a colon and have
    no line break or bracket in them, that the keys of its labels are not empty,
    begin and end with a graphic character, do not begin with # or - and have no
    line break, bracket or colon in them, and that the replicas are in the range
    of int32.  Then the text that is written is read back as the patched cluster,
    and that is the cluster read from the text before, with only the replicas of
    its group gpu-workers changed. *)
Theorem patched_manifests_are_read_back sprint plan input res text :
  WriteManagedClusterBytes (GitOps.WriteManagedCluster sprint) plan input = Ok (res, text) →
  printable (GitOps.Write_Updated res) →
  ReadManagedCluster text = Ok (GitOps.Write_Updated res)
  ∧ ∃ cluster i w r, ReadManagedCluster input = Ok cluster ∧ Worker_Name w = "gpu-workers"
      ∧ GitOpsSpec.resized cluster (GitOps.Write_Updated res) i w r.
Proof.
  unfold WriteManagedClusterBytes. destruct (ReadManagedCluster input) as [cluster|] eqn:Hread; [|done]. intros H Hp. bind_inv H wr Hwr.
  unfold GitOps.WriteManagedCluster in Hwr. bind_inv Hwr updated Ha. injection Hwr as <-.
  destruct (WriteManagedClusterYAML _) as [manifest|] eqn:Hw; [|done]. injection H as <- <-. simpl in *.
  apply GitOpsSpec.Patch_Ok in Ha as (_ & _ & Hne & _ & ws & Hws & ->).
  apply GitOpsSpec.apply_changes_Ok in Hws as (i & w & r & Hi & Hwk & -> & _ & _); [|done].
  apply read_manifest_only in Hread as Hm. destruct Hm as [Hm _].
  split; [|exists cluster, i, w, r; split; [done|]; split; [|done]].
  - rewrite (written_is_read _ _ Hw Hp). f_equal. by apply patched_manifest_only.
  - destruct (GitOpsSpec.findWorkerGroup_Some _ _ _ Hi) as (w' & Hw' & Hname). congruence.
Qed.

(** ** A manifest *)

Definition simple_char (a : ascii) : bool :=
  is_lower a || is_upper a || is_digit a || (a ==? "-"%char) || (a ==? "."%char) || (a ==? "/"%char).

Lemma simple_char_plain a : simple_char a = true → graphic a = true ∧ outside a ∧ a ≠ quote ∧ a ≠ ":"%char.
Proof. intros H. destruct a as [[] [] [] [] [] [] [] []]; try discriminate H; repeat split; discriminate. Qed.

Lemma simple_plain v : forallb simple_char (bytes v) = true → v ≠ "" → plain v.
Proof.
  intros Hall Hne. assert (∀ a, a ∈ bytes v → graphic a = true ∧ outside a ∧ a ≠ quote ∧ a ≠ ":"%char) as Hin.
  { intros a Ha. apply simple_char_plain. rewrite forallb_forall in Hall. apply Hall. by apply list_elem_of_In. }
  destruct (bytes v) as [|a l] eqn:Hv; [by destruct v|]. split; rewrite Hv.
  - exists a. split; [done|]. destruct (Hin a) as (? & ? & ? & ?); [apply list_elem_of_here|done].
  - destruct (last (a :: l)) as [b|] eqn:Hb; [|by apply last_None in Hb]. exists b. split; [done|].
    destruct (Hin b) as (? & ? & ? & ?); [by apply last_Some_elem_of|done].
  - intros b Hb. by destruct (Hin b Hb) as (? & ? & ?).
Qed.

Definition sample_text : string := formatManagedClusterYAML (toManagedClusterYAML Controller.sample_cluster).
Definition sample_print (v : ModelTypes.ModelTypes.any) : string := "v".
Definition sample_written : result (GitOps.WriteResult * string) :=
  WriteManagedClusterBytes (GitOps.WriteManagedCluster sample_print)
    (PipelineExamples.patch_of_proposal PipelineExamples.sample_proposal) sample_text.
Definition scaled_cluster : ManagedCluster :=
  PipelineExamples.patched (PipelineExamples.patch_of_proposal PipelineExamples.sample_proposal) Controller.sample_cluster.
Definition sample_write : GitOps.WriteResult :=
  let plan := PipelineExamples.patch_of_proposal PipelineExamples.sample_proposal in
  GitOps.mkWriteResult "clusters/dev.yaml" "clusters/dev.yaml" (GitOps.summarizeChanges sample_print plan) scaled_cluster
    (GitOps.Patch_Changes plan) (GitOps.Patch_Rollback plan).

Lemma scaled_printable : printable scaled_cluster.
Proof.
  split; try (by apply simple_plain).
  - intros k v H. exfalso. revert H. by vm_compute.
  - intros w H. apply list_elem_of_singleton in H as ->. split; [by apply simple_plain|]. split; [by apply simple_plain|]. by vm_compute.
Qed.

Lemma patched_manifests_are_read_back_witness :
  ReadManagedCluster (formatManagedClusterYAML (toManagedClusterYAML scaled_cluster)) = Ok scaled_cluster
  ∧ Worker_Replicas <$> Spec_Workers (Cluster_Spec scaled_cluster) = [6%Z].
Proof.
  split; [|vm_compute; reflexivity].
  apply (patched_manifests_are_read_back sample_print (PipelineExamples.patch_of_proposal PipelineExamples.sample_proposal) sample_text sample_write);
    [vm_compute; reflexivity|exact scaled_printable].
Defined.

(** A cluster without a namespace is valid and written, but what is written is
    not read back: the line of an empty value reads as the beginning of a section. *)
Example empty_namespace_is_not_read_back :
  let c := NewManagedCluster "dev" "" "dev" in
  ValidateManagedCluster c = Ok tt ∧ is_ok (WriteManagedClusterYAML c ≫= ReadManagedCluster) = false.
Proof. vm_compute. done. Qed.
End ManifestYamlSpec.
