(* ===== verification/MachineMapping.v ===== *)
(** * MachineMapping: clusters as machines

    [src/infra/mapping]: the bare metal host claims, virtual machines and Cluster
    API deployments of a managed cluster.  [strings.ToLower] on text that is kept
    is the parameter [lower]. *)
From S2P Require Import Prelude GoStrings GoText SchemaValidator Clusters GitOps ManifestYaml.

Module MachineMapping.
Import Clusters.
Import SchemaValidator(Coded).
Import GitOps(dash).

(** [fmt.Sprintf("%04d", n)] for a natural number. *)
Definition four_digits (n : Z) : string := of_bytes (replicate (4 - length (bytes (Itoa n))) "0"%char) +:+ Itoa n.

(** [for ordinal := int32(1); ordinal <= replicas; ordinal++]: [None] is a loop
    that has not ended. *)
Fixpoint ordinals (fuel : nat) (ordinal replicas : Z) : option (list Z) :=
  match fuel with
  | O => None
  | S fuel => if (ordinal <=? replicas)%Z then cons ordinal <$> ordinals fuel (wrap32 (ordinal + 1)) replicas else Some []
  end.

Definition gpuProfile (gpu : option GPUSpec) : string :=
  match gpu with
  | None => ""
  | Some gpu => if (GPU_Count gpu =? 0)%Z then "" else Itoa (GPU_Count gpu) +:+ "x" +:+ GPU_Type gpu
  end.

Definition indexMachineClasses (classes : list MachineClass) : gmap string MachineClass :=
  foldl (λ index class, <[Meta_Name (Class_Meta class) := class]> index) ∅ classes.

Definition machineLabels (clusterName environment workerGroupName machineClassName : string) : gmap string string :=
  <["aicloud.dev/machine-class" := machineClassName]> (<["aicloud.dev/worker-group" := workerGroupName]>
  (<["aicloud.dev/environment" := environment]> (<["aicloud.dev/managedcluster-name" := clusterName]> {["aicloud.dev/managed-by" := "aicloud"]}))).

(** [DesiredBareMetalHostClaim] and [DesiredVirtualMachine] have the same fields. *)
Record DesiredMachine : Set := mkDesiredMachine {
  Machine_Name : string;
  Machine_Namespace : string;
  Machine_ClusterName : string;
  Machine_WorkerGroupName : string;
  Machine_Ordinal : Z;
  Machine_ClassName : string;
  Machine_CPU : string;
  Machine_Memory : string;
  Machine_GPUProfile : string;
  Machine_Labels : gmap string string
}.

Section mapping.
Variable lower : string → string.

Definition sanitizeName (value : string) : string :=
  let value := of_bytes (trim_char "-" (dash "/" (dash "." (dash "_" (bytes (TrimSpace (lower value))))))) in
  if value ==? "" then "unnamed" else value.

(** The texts between the names and the ordinal are [-host-] and [-]. *)
Definition machine_name (infix clusterName workerGroupName : string) (ordinal : Z) : string :=
  sanitizeName clusterName +:+ "-" +:+ sanitizeName workerGroupName +:+ infix +:+ four_digits ordinal.

Definition machine (infix : string) (cluster : ManagedCluster) (worker : WorkerGroupSpec) (class : MachineClass) (ordinal : Z) : DesiredMachine :=
  let name := Meta_Name (Cluster_Meta cluster) in
  mkDesiredMachine (machine_name infix name (Worker_Name worker) ordinal) (Meta_Namespace (Cluster_Meta cluster)) name (Worker_Name worker)
    ordinal (Meta_Name (Class_Meta class)) (Class_CPU (Class_Spec class)) (Class_Memory (Class_Spec class)) (gpuProfile (Class_GPU (Class_Spec class)))
    (machineLabels name (Spec_Environment (Cluster_Spec cluster)) (Worker_Name worker) (Meta_Name (Class_Meta class))).

(** [NewMappingError] of each of the packages. *)
Definition NewMappingError (code message : string) : error := Coded "MappingError" code message.

(** The loop over the workers; [None] when a loop over ordinals has not ended. *)
Fixpoint map_workers (infix : string) (cluster : ManagedCluster) (index : gmap string MachineClass) (workers : list WorkerGroupSpec) :
    option (result (list DesiredMachine)) :=
  match workers with
  | [] => Some (Ok [])
  | worker :: workers =>
      match index !! LocalRef_Name (Worker_MachineClassRef worker) with
      | None => Some (Err (NewMappingError "MachineClassNotFound" ("machine class not found: " +:+ LocalRef_Name (Worker_MachineClassRef worker))))
      | Some class =>
          os ← ordinals (S (Z.to_nat (Worker_Replicas worker))) 1 (Worker_Replicas worker);
          rest ← map_workers infix cluster index workers;
          Some (rest ← rest; Ok ((machine infix cluster worker class <$> os) ++ rest))
      end
  end.

Definition MapMachines (infix : string) (cluster : ManagedCluster) (classes : list MachineClass) : option (result (list DesiredMachine)) :=
  match ValidateManagedCluster cluster with
  | Err err => Some (Err (NewMappingError "InvalidManagedCluster" (ManifestYaml.err_text err)))
  | Ok _ => map_workers infix cluster (indexMachineClasses classes) (Spec_Workers (Cluster_Spec cluster))
  end.

Definition Metal3_MapManagedCluster : ManagedCluster → list MachineClass → option (result (list DesiredMachine)) := MapMachines "-host-".
Definition Kubevirt_MapManagedCluster : ManagedCluster → list MachineClass → option (result (list DesiredMachine)) := MapMachines "-".

(** *** Cluster API *)

Record DesiredCluster : Set := mkDesiredCluster {
  Desired_Name : string; Desired_Namespace : string; Desired_Environment : string; Desired_Labels : gmap string string
}.
Record DesiredMachineDeployment : Set := mkDeployment {
  Deployment_Name : string;
  Deployment_Namespace : string;
  Deployment_ClusterName : string;
  Deployment_WorkerGroupName : string;
  Deployment_Replicas : Z;
  Deployment_MachineClassName : string;
  Deployment_Labels : gmap string string
}.

Definition machineDeploymentName (clusterName workerGroupName : string) : string := sanitizeName clusterName +:+ "-" +:+ sanitizeName workerGroupName.

Definition baseLabels (clusterName environment workerGroupName : string) : gmap string string :=
  let labels := <["aicloud.dev/environment" := environment]>
    (<["aicloud.dev/managedcluster-name" := clusterName]> {["aicloud.dev/managed-by" := "aicloud"]}) in
  if workerGroupName !=? "" then <["aicloud.dev/worker-group" := workerGroupName]> labels else labels.

Definition ClusterAPI_MapManagedCluster (cluster : ManagedCluster) : result (DesiredCluster * list DesiredMachineDeployment) :=
  match ValidateManagedCluster cluster with
  | Err err => Err (NewMappingError "InvalidManagedCluster" (ManifestYaml.err_text err))
  | Ok _ =>
      let name := Meta_Name (Cluster_Meta cluster) in
      let namespace := Meta_Namespace (Cluster_Meta cluster) in
      let environment := Spec_Environment (Cluster_Spec cluster) in
      Ok (mkDesiredCluster name namespace environment (baseLabels name environment ""),
          (λ worker, mkDeployment (machineDeploymentName name (Worker_Name worker)) namespace name (Worker_Name worker) (Worker_Replicas worker)
                       (LocalRef_Name (Worker_MachineClassRef worker)) (baseLabels name environment (Worker_Name worker)))
          <$> Spec_Workers (Cluster_Spec cluster))
  end.

Definition MachineDeploymentPatchPath (clusterName workerGroupName : string) : string :=
  "clusters/" +:+ sanitizeName clusterName +:+ "/machinedeployments/" +:+ machineDeploymentName clusterName workerGroupName +:+ ".yaml".

(** ** The machines of a cluster *)

(** The ordinals of a group. *)
Definition count_to (n : Z) : list Z := (λ i, Z.of_nat i) <$> seq 1 (Z.to_nat n).

Lemma ordinals_S fuel o n :
  ordinals (S fuel) o n = if (o <=? n)%Z then cons o <$> ordinals fuel (wrap32 (o + 1)) n else Some [].
Proof. done. Qed.

Lemma ordinals_from k i n :
  (0 ≤ n < 2147483647)%Z → (Z.of_nat i + Z.of_nat k = n + 1)%Z → 1 ≤ i →
  ordinals (S k) (Z.of_nat i) n = Some ((λ i, Z.of_nat i) <$> seq i k).
Proof.
  revert i. induction k as [|k IH]; intros i Hn Hik Hi; rewrite ordinals_S.
  - rewrite (proj2 (Z.leb_gt _ _)) by lia. done.
  - rewrite (proj2 (Z.leb_le _ _)) by lia. rewrite wrap32_id by (unfold in_int32; lia).
    replace (Z.of_nat i + 1)%Z with (Z.of_nat (S i)) by lia. rewrite (IH (S i)) by lia. done.
Qed.

Lemma ordinals_counts n : (0 ≤ n < 2147483647)%Z → ordinals (S (Z.to_nat n)) 1 n = Some (count_to n).
Proof. intros Hn. apply (ordinals_from (Z.to_nat n) 1); lia. Qed.

(** With as many replicas as an int32 holds the loop does not end. *)
Lemma ordinals_diverge fuel i : in_int32 i → ordinals fuel i 2147483647 = None.
Proof.
  revert i. induction fuel as [|fuel IH]; intros i Hi; [done|]. rewrite ordinals_S. unfold in_int32 in Hi. rewrite (proj2 (Z.leb_le _ _)) by lia.
  by rewrite IH by apply wrap32_range.
Qed.

Lemma map_workers_total infix cluster index workers :
  Forall (λ w, (0 ≤ Worker_Replicas w < 2147483647)%Z) workers →
  (∀ w, w ∈ workers → is_Some (index !! LocalRef_Name (Worker_MachineClassRef w))) →
  ∃ machines, map_workers infix cluster index workers = Some (Ok machines)
    ∧ machines = workers ≫= λ w, machine infix cluster w (default (NewMachineClass "" "") (index !! LocalRef_Name (Worker_MachineClassRef w)))
                                   <$> count_to (Worker_Replicas w).
Proof.
  induction workers as [|w workers IH]; intros Hr Hc; cbn [map_workers]; [by eexists|]. apply Forall_cons in Hr as [Hw Hr].
  destruct (Hc w (list_elem_of_here _ _)) as [class Hclass]. rewrite Hclass, ordinals_counts by done. cbn [mbind option_bind].
  destruct IH as (rest & -> & Hrest); [done|intros w' Hw'; apply Hc; by apply list_elem_of_further|]. cbn [mbind option_bind result_bind].
  eexists. split; [done|]. rewrite bind_cons, Hclass, Hrest. done.
Qed.

(** *** Their names *)

Lemma digits_zeros k l : l ≠ [] → digits_value 0 (replicate k "0"%char ++ l) = digits_value 0 l.
Proof. intros Hl. induction k as [|k IH]; [done|]. exact IH. Qed.

Lemma four_digits_value n : (0 ≤ n)%Z → digits_value 0 (bytes (four_digits n)) = Some n.
Proof.
  intros Hn. unfold four_digits. rewrite bytes_app, bytes_of_bytes.
  assert (Itoa n = pretty.pretty (Z.to_N n)) as -> by (unfold Itoa; destruct n; simpl; [done|done|lia]).
  pose proof (pretty_N_value (Z.to_N n)) as Hv. unfold unsigned_value in Hv.
  destruct (bytes (pretty.pretty (Z.to_N n))) as [|a l] eqn:E; [done|]. rewrite digits_zeros, Hv by done. f_equal. lia.
Qed.

Lemma no_dash_digits n : (0 ≤ n)%Z → "-"%char ∉ bytes (four_digits n).
Proof.
  intros Hn Hin. pose proof (four_digits_value n Hn) as Hv. apply ManifestYamlSpec.digits_digit in Hv. rewrite Forall_forall in Hv.
  by apply Hv in Hin.
Qed.

(** What is before the last dash and what is after it. *)
Lemma last_dash (x y a b : list ascii) : "-"%char ∉ a → "-"%char ∉ b → x ++ "-"%char :: a = y ++ "-"%char :: b → x = y ∧ a = b.
Proof.
  revert y. induction x as [|c x IH]; intros [|d y] Ha Hb H; cbn [app] in H.
  - by injection H as ->.
  - injection H as _ ->. destruct Ha. apply elem_of_app. right. apply list_elem_of_here.
  - injection H as _ <-. destruct Hb. apply elem_of_app. right. apply list_elem_of_here.
  - injection H as -> H. destruct (IH y Ha Hb H). by subst.
Qed.

Lemma machine_name_bytes infix cluster w o :
  bytes (machine_name infix cluster w o)
  = bytes (sanitizeName cluster) ++ bytes "-" ++ bytes (sanitizeName w) ++ bytes infix ++ bytes (four_digits o).
Proof.
  unfold machine_name. by rewrite (bytes_app (sanitizeName cluster)), (bytes_app "-"), (bytes_app (sanitizeName w)), (bytes_app infix).
Qed.

Lemma machine_name_inj infix cluster w1 w2 o1 o2 :
  infix = "-host-" ∨ infix = "-" → (0 ≤ o1)%Z → (0 ≤ o2)%Z →
  machine_name infix cluster w1 o1 = machine_name infix cluster w2 o2 → sanitizeName w1 = sanitizeName w2 ∧ o1 = o2.
Proof.
  intros Hinfix H1 H2 H. apply (f_equal bytes) in H. rewrite !machine_name_bytes in H. apply app_inv_head, app_inv_head in H.
  assert (∃ p, bytes infix = p ++ ["-"%char]) as [p Hp] by (destruct Hinfix as [-> | ->]; [exists (bytes "-host")|exists []]; done).
  rewrite Hp, <- !app_assoc, (app_assoc (bytes (sanitizeName w1)) p), (app_assoc (bytes (sanitizeName w2)) p) in H.
  destruct (last_dash _ _ _ _ (no_dash_digits o1 H1) (no_dash_digits o2 H2) H) as [Hw Ho]. apply app_inv_tail in Hw. split.
  - apply (f_equal of_bytes) in Hw. by rewrite !of_bytes_bytes in Hw.
  - pose proof (four_digits_value o1 H1) as E1. pose proof (four_digits_value o2 H2) as E2. rewrite Ho in E1. congruence.
Qed.

Lemma NoDup_machines infix cluster class_of workers :
  infix = "-host-" ∨ infix = "-" → NoDup ((λ w, sanitizeName (Worker_Name w)) <$> workers) →
  NoDup (Machine_Name <$> (workers ≫= λ w, machine infix cluster w (class_of w) <$> count_to (Worker_Replicas w))).
Proof.
  intros Hi. induction workers as [|w workers IH]; [constructor|]. rewrite fmap_cons, NoDup_cons, bind_cons, fmap_app. intros [Hnin Hnd].
  apply NoDup_app. split; [|split; [|by apply IH]].
  - rewrite <- list_fmap_compose. apply NoDup_fmap_2_strong; [|apply NoDup_fmap_2; [apply _|apply NoDup_seq]].
    intros o1 o2 Ho1 Ho2 E. apply list_elem_of_fmap in Ho1 as (i & -> & _), Ho2 as (j & -> & _). simpl in E.
    apply machine_name_inj in E as [_ E]; [done|done|lia|lia].
  - intros name H1 H2. apply list_elem_of_fmap in H1 as (m1 & -> & H1), H2 as (m2 & E & H2).
    apply list_elem_of_fmap in H1 as (o1 & -> & H1). apply list_elem_of_bind in H2 as (w2 & H2 & Hw2).
    apply list_elem_of_fmap in H2 as (o2 & -> & H2). apply list_elem_of_fmap in H1 as (i & -> & _), H2 as (j & -> & _). simpl in E.
    apply machine_name_inj in E as [E _]; [|done|lia|lia]. apply Hnin. rewrite E. by apply (list_elem_of_fmap_2 (λ w, sanitizeName (Worker_Name w))).
Qed.

(** A valid cluster whose classes are known is mapped to machines: for each group
    of workers as many as it has replicas, numbered from one, with the class of
    the group; and no two have the same name, if no two groups have the same name
    after it is made fit for machines.  The loop over the replicas ends for every
    number of them but the largest int32. *)
Theorem machines_match_the_cluster infix cluster classes :
  infix = "-host-" ∨ infix = "-" → valid_cluster cluster →
  Forall (λ w, (Worker_Replicas w < 2147483647)%Z) (Spec_Workers (Cluster_Spec cluster)) →
  (∀ w, w ∈ Spec_Workers (Cluster_Spec cluster) → is_Some (indexMachineClasses classes !! LocalRef_Name (Worker_MachineClassRef w))) →
  ∃ class_of machines, MapMachines infix cluster classes = Some (Ok machines)
    ∧ (∀ w, w ∈ Spec_Workers (Cluster_Spec cluster) → indexMachineClasses classes !! LocalRef_Name (Worker_MachineClassRef w) = Some (class_of w))
    ∧ machines = (Spec_Workers (Cluster_Spec cluster) ≫= λ w, machine infix cluster w (class_of w) <$> count_to (Worker_Replicas w))
    ∧ (NoDup ((λ w, sanitizeName (Worker_Name w)) <$> Spec_Workers (Cluster_Spec cluster)) → NoDup (Machine_Name <$> machines)).
Proof.
  intros Hi Hv Hr Hc. unfold MapMachines. rewrite (proj2 (ValidateManagedCluster_correct cluster) Hv).
  destruct (map_workers_total infix cluster (indexMachineClasses classes) (Spec_Workers (Cluster_Spec cluster))) as (machines & Hm & Heq); [|done|].
  { destruct Hv as (_ & _ & _ & Hw & _). rewrite Forall_forall in Hw, Hr |- *. intros w Hin. destruct (Hw w Hin) as (_ & H0 & _). by split; [|apply Hr]. }
  exists (λ w, default (NewMachineClass "" "") (indexMachineClasses classes !! LocalRef_Name (Worker_MachineClassRef w))), machines.
  split; [exact Hm|]. split; [intros w Hw; by destruct (Hc w Hw) as [class ->]|]. split; [exact Heq|]. rewrite Heq. by apply NoDup_machines.
Qed.
End mapping.

(** ** Examples *)

Definition sample_class : MachineClass := NewMachineClass "gpu-large" "metal3".

Lemma machines_match_the_cluster_witness :
  ∃ class_of machines, Metal3_MapManagedCluster id Controller.sample_cluster [sample_class] = Some (Ok machines)
    ∧ machines = (Spec_Workers (Cluster_Spec Controller.sample_cluster) ≫= λ w, machine id "-host-" Controller.sample_cluster w (class_of w) <$> count_to (Worker_Replicas w)).
Proof.
  destruct (machines_match_the_cluster id "-host-" Controller.sample_cluster [sample_class]) as (class_of & machines & H1 & _ & H2 & _).
  - by left.
  - exact Controller.sample_cluster_valid.
  - repeat constructor.
  - intros w Hw. apply list_elem_of_singleton in Hw as ->. by eexists.
  - exists class_of, machines. split; [exact H1|exact H2].
Defined.

(** Two groups with different names whose machines have the same names. *)
Definition twins : ManagedCluster :=
  mkManagedCluster "" "" (mkObjectMeta "dev" "default" ∅ ∅ 1 [] [])
    (mkManagedClusterSpec "dev" (mkLocalObjectReference "" "")
       [mkWorkerGroupSpec "gpu_a" 1 (mkLocalObjectReference "" "gpu-large") ∅; mkWorkerGroupSpec "gpu.a" 1 (mkLocalObjectReference "" "gpu-large") ∅]) no_status.
Example twins_share_a_name :
  ValidateManagedCluster twins = Ok tt
  ∧ match Metal3_MapManagedCluster id twins [sample_class] with
    | Some (Ok [a; b]) => Machine_Name a = Machine_Name b ∧ Machine_WorkerGroupName a ≠ Machine_WorkerGroupName b
    | _ => False
    end.
Proof. vm_compute. done. Qed.
End MachineMapping.
