(* ===== verification/Startup.v ===== *)
(** * Startup: the repositories in memory and the start of the API server

    The in-memory repositories of models and deployments
    ([src/internal/repository/memory.go], [memory_deployments.go]), the static
    policy engine of
    [src/internal/policy/service.go] with the built-in tools, and what
    [src/cmd/api-server/main.go] and [runtime_stores.go] register before the
    first request: the configured provider and the mock provider with their
    models, deployments and admission evidence.  Readings of the clock, the
    provider's health, SHA-256, the order in which a map is visited, Unicode
    lower case and case folding are parameters. *)
From S2P Require Import Prelude Domain RouteTypes GoStrings GoText Order Pricing Admission ModelTypes ModelRouting ControlEvidence ModelRuntime.
From S2P Require Import TaskSchema Http Sandbox ToolGateway.

Module Startup.
Import Domain Pricing.
Import Admission(Evidence, mkEvidence, Ev_ID, Ev_ModelID, Ev_ModelVersion, Ev_Status, StatusApproved, StatusCollected).
Import ModelRouting(ModelProvider, ProviderType, ProviderTypePrivate, ProviderTypeLocal, ProviderCapabilities, ProviderHealth, Health_Available).
Import TaskSchema(ErrNotFound).

(** ** Models in memory *)

Definition MemoryModels : Type := gmap string Model.
Definition NewMemoryModels (seed : list Model) : MemoryModels := foldl (λ m model, <[Model_ID model := model]> m) ∅ seed.
Definition Models_List (visit : MemoryModels → list Model) (r : MemoryModels) : result (list Model) :=
  Ok (SliceStable (λ a b, str_lt (Model_ID a) (Model_ID b)) (visit r)).
Definition Models_Get (id : string) (r : MemoryModels) : result Model :=
  match r !! id with Some model => Ok model | None => Err ErrNotFound end.
Definition Models_Create (model : Model) (r : MemoryModels) : result Model * MemoryModels :=
  match r !! Model_ID model with
  | Some _ => (Err (Errorf "model already exists" []), r)
  | None => (Ok model, <[Model_ID model := model]> r)
  end.
Definition Models_Update (model : Model) (r : MemoryModels) : result Model * MemoryModels :=
  match r !! Model_ID model with
  | None => (Err ErrNotFound, r)
  | Some _ => (Ok model, <[Model_ID model := model]> r)
  end.

(** ** Deployments in memory *)

Definition set_model_version_id (d : Deployment) (id : string) : Deployment :=
  mkDeployment (Deployment_ID d) id (Deployment_ModelID d) (Deployment_ModelVersion d) (Deployment_Provider d) (Deployment_Endpoint d)
    (Deployment_Mode d) (Deployment_Region d) (Deployment_DataResidency d) (Deployment_Runtime d) (Deployment_Quantization d)
    (Deployment_PricingPolicyRef d) (Deployment_Pricing d) (Deployment_Health d) (Deployment_HealthCheckedAt d) (Deployment_P95LatencyMS d)
    (Deployment_ErrorRate d) (Deployment_QuotaRemaining d) (Deployment_CapacityAvailable d) (Deployment_QueueDepth d)
    (Deployment_ServiceTiers d) (Deployment_InferenceEfforts d) (Deployment_Lifecycle d) (Deployment_RoutingEligible d) (Deployment_Owner d)
    (Deployment_PolicyRef d) (Deployment_ReplacementIDs d) (Deployment_CreatedAt d) (Deployment_UpdatedAt d).
Definition set_deployment_created (d : Deployment) (created : Time) : Deployment :=
  mkDeployment (Deployment_ID d) (Deployment_ModelVersionID d) (Deployment_ModelID d) (Deployment_ModelVersion d) (Deployment_Provider d)
    (Deployment_Endpoint d) (Deployment_Mode d) (Deployment_Region d) (Deployment_DataResidency d) (Deployment_Runtime d)
    (Deployment_Quantization d) (Deployment_PricingPolicyRef d) (Deployment_Pricing d) (Deployment_Health d) (Deployment_HealthCheckedAt d)
    (Deployment_P95LatencyMS d) (Deployment_ErrorRate d) (Deployment_QuotaRemaining d) (Deployment_CapacityAvailable d)
    (Deployment_QueueDepth d) (Deployment_ServiceTiers d) (Deployment_InferenceEfforts d) (Deployment_Lifecycle d)
    (Deployment_RoutingEligible d) (Deployment_Owner d) (Deployment_PolicyRef d) (Deployment_ReplacementIDs d) created
    (Deployment_UpdatedAt d).

Definition normalizeDeploymentIdentity (d : Deployment) : Deployment :=
  if Deployment_ModelVersionID d ==? "" then set_model_version_id d (Deployment_ModelID d) else d.

Definition MemoryDeployments : Type := gmap string Deployment.
Definition NewMemoryDeployments (seed : list Deployment) : MemoryDeployments :=
  foldl (λ m d, <[Deployment_ID d := normalizeDeploymentIdentity d]> m) ∅ seed.

(** The listings sort by id: no two deployments have the same. *)
Definition list_deployments (visit : MemoryDeployments → list Deployment) (keep : Deployment → bool) (r : MemoryDeployments) :
    result (list Deployment) :=
  Ok (SliceStable (λ a b, str_lt (Deployment_ID a) (Deployment_ID b)) (filter (λ d, keep d = true) (visit r))).
Definition Deployments_List visit : MemoryDeployments → result (list Deployment) := list_deployments visit (λ _, true).
Definition Deployments_ListByModel visit (modelID version : string) : MemoryDeployments → result (list Deployment) :=
  list_deployments visit (λ d, (Deployment_ModelID d ==? modelID) && (Deployment_ModelVersion d ==? version)).
Definition Deployments_ListByModelVersion visit (modelVersionID : string) : MemoryDeployments → result (list Deployment) :=
  list_deployments visit (λ d, Deployment_ModelVersionID d ==? modelVersionID).
Definition Deployments_Get (id : string) (r : MemoryDeployments) : result Deployment :=
  match r !! id with Some d => Ok d | None => Err ErrNotFound end.
Definition Deployments_Create (d : Deployment) (r : MemoryDeployments) : result Deployment * MemoryDeployments :=
  match r !! Deployment_ID d with
  | Some _ => (Err (Errorf "deployment already exists" []), r)
  | None => let d := normalizeDeploymentIdentity d in (Ok d, <[Deployment_ID d := d]> r)
  end.
Definition Deployments_Update (d : Deployment) (r : MemoryDeployments) : result Deployment * MemoryDeployments :=
  match r !! Deployment_ID d with
  | None => (Err ErrNotFound, r)
  | Some _ => let d := normalizeDeploymentIdentity d in (Ok d, <[Deployment_ID d := d]> r)
  end.

(** ** The policy of the built-in tools *)

Record PolicyRule : Type := mkPolicyRule {
  PolicyRule_Name : string;
  PolicyRule_Subject : string;
  PolicyRule_Action : string;
  PolicyRule_Resource : string;
  PolicyRule_Allowed : bool;
  PolicyRule_RequireApproval : bool;
  PolicyRule_Reason : string
}.
Record StaticEngine : Type := mkStaticEngine { Engine_Version : string; Engine_Rules : list PolicyRule }.

Section policy.
(** [strings.EqualFold]. *)
Variable EqualFold : string → string → bool.

Definition matches (pattern value : string) : bool := (pattern ==? "*") || EqualFold pattern value.

Fixpoint first_match (subject action resource : string) (rules : list PolicyRule) : option PolicyRule :=
  match rules with
  | [] => None
  | rule :: rules =>
      if matches (PolicyRule_Subject rule) subject && matches (PolicyRule_Action rule) action && matches (PolicyRule_Resource rule) resource
      then Some rule else first_match subject action resource rules
  end.

Definition Evaluate (e : StaticEngine) (subject action resource : string) : ToolGateway.PolicyDecision :=
  match first_match subject action resource (Engine_Rules e) with
  | Some rule =>
      ToolGateway.mkPolicyDecision (PolicyRule_Allowed rule) (PolicyRule_RequireApproval rule) (PolicyRule_Reason rule) (Engine_Version e)
        (PolicyRule_Name rule)
  | None => ToolGateway.mkPolicyDecision false false "no policy rule matched" (Engine_Version e) ""
  end.
End policy.

Definition DenyByDefault (subject action resource : string) : ToolGateway.PolicyDecision :=
  ToolGateway.mkPolicyDecision false true "policy engine is fail-closed in the skeleton runtime" "deny-by-default-v1" "".

Definition builtin_tools : list ToolGateway.Definition_ :=
  [ToolGateway.mkDefinition "repo-inspect" "v1" "alpine/git:2.45.2" ["git"; "status"; "--short"] "low" "repository:read" (2 * Minute)
     "250m" "256Mi" (2 * Minute) Sandbox.NetworkDenyAll [] false;
   ToolGateway.mkDefinition "workspace-command" "v1" "alpine:3.20" ["/bin/echo"] "high" "workspace:write" (2 * Minute)
     "500m" "512Mi" (2 * Minute) Sandbox.NetworkDenyAll [] true].
Definition builtin_policy : StaticEngine :=
  mkStaticEngine "builtin-tool-policy-v1"
    [mkPolicyRule "allow-repo-inspect" "*" "inspect" "repo-inspect" true false "read-only repository inspection";
     mkPolicyRule "approve-workspace-command" "*" "execute" "workspace-command" true true "workspace modifications require approval"].

(** ** Registering providers *)

Record ProviderConfig : Type := mkProviderConfig {
  Cfg_Enabled : bool;
  Cfg_Name : string;
  Cfg_Endpoint : string;
  Cfg_SecretEnv : string;
  Cfg_DefaultModel : string;
  Cfg_ModelVersion : string;
  Cfg_TimeoutSeconds : Z;
  Cfg_MaxRetries : Z;
  Cfg_MaxInputTokens : Z;
  Cfg_MaxOutputTokens : Z;
  Cfg_Private : bool;
  Cfg_Approved : bool;
  Cfg_LicenseID : string;
  Cfg_LicenseTextRef : string;
  Cfg_EvidenceReviewer : string;
  Cfg_DataResidency : string;
  Cfg_Currency : string;
  Cfg_InputPerMillion : float64;
  Cfg_OutputPerMillion : float64
}.

Definition validateApprovedProviderEvidence (cfg : ProviderConfig) : result unit :=
  if Cfg_Approved cfg && ((Cfg_LicenseTextRef cfg ==? "") || (Cfg_EvidenceReviewer cfg ==? ""))
  then Err (Errorf "approved provider requires license text reference and evidence reviewer" []) else Ok tt.

Definition reviewedAt (approved : bool) (value : Time) : option Time := if approved then Some value else None.

Definition deploymentLifecycleFromModel (state : ModelLifecycle) : DeploymentLifecycle :=
  match state with
  | ModelActive => DeploymentReady
  | ModelDegraded => DeploymentDegraded
  | ModelRetired | ModelRevoked => DeploymentRetired
  | _ => DeploymentDiscovered
  end.

(** The fields that the literal leaves out are zero. *)
Definition deploymentFromModel (model : Model) (id : string) : Deployment :=
  mkDeployment id "" (Model_ID model) (Model_Version model) (Model_Provider model) (Model_Endpoint model) (Model_DeploymentMode model) ""
    (Model_DataResidency model) "" "" "" (Build_PricingProfile "" f_zero f_zero f_zero f_zero) (Model_Health model)
    (Model_HealthCheckedAt model) (Model_P95LatencyMS model) (Model_ErrorRate model) (Model_QuotaRemaining model)
    (Model_CapacityAvailable model) (Model_QueueDepth model) (Model_ServiceTiers model) (Model_InferenceEfforts model)
    (deploymentLifecycleFromModel (Model_Lifecycle model))
    ((Model_ApprovalStatus model ==? ApprovalApproved)
     && negb match Model_Lifecycle model with ModelRetired | ModelRevoked => true | _ => false end)
    "" "" [] (Model_CreatedAt model) (Model_UpdatedAt model).

(** The replacer maps four single bytes to a hyphen. *)
Definition hyphened (a : ascii) : ascii :=
  if (a ==? " "%char) || (a ==? ":"%char) || (a ==? "@"%char) || (a ==? "/"%char) then "-"%char else a.

Section digests.
(** [sha256.Sum256]: the bytes of the digest; [strings.ToLower]; the text of a
    task type. *)
Variable sha256 : string → string.
Variable lower : string → string.
Variable task_name : ModelTypes.TaskType → string.

Definition shortDigest (value : string) : string := Http.hex (of_bytes (take 8 (bytes (sha256 value)))).
Definition evidenceDigest (parts : list string) : string := "sha256:" +:+ Http.hex (sha256 (String.concat "|" parts)).
Definition deploymentID (modelID endpoint residency : string) : string :=
  "deployment-" +:+ shortDigest (String.concat "|" [modelID; endpoint; residency]).
Definition providerModelID (providerName modelName version : string) : string :=
  of_bytes (hyphened <$> bytes (lower (String.concat "-" [providerName; modelName; version]))).
Definition model_id_of (cfg : ProviderConfig) : string := providerModelID (Cfg_Name cfg) (Cfg_DefaultModel cfg) (Cfg_ModelVersion cfg).

Definition capabilityNames (caps : ProviderCapabilities) : list string :=
  let add (enabled : bool) (name : string) := if enabled then [name] else [] in
  add (ModelRouting.SupportsStructuredOutput caps) "structured-output" ++ add (ModelRouting.SupportsJSONSchema caps) "json-schema"
  ++ add (ModelRouting.SupportsStreaming caps) "streaming" ++ add (ModelRouting.SupportsToolUse caps) "tool-use"
  ++ add (ModelRouting.SupportsVision caps) "vision" ++ add (ModelRouting.SupportsLongContext caps) "long-context"
  ++ add (ModelRouting.SupportsChinese caps) "chinese" ++ add (ModelRouting.SupportsCodeGeneration caps) "coding"
  ++ add (ModelRouting.SupportsLocalDeployment caps) "local-deployment"
  ++ ((λ task, "task:" +:+ task_name task) <$> ModelRouting.RecommendedTasks caps).

Definition mock_model (now : Time) : Model :=
  Build_Model "mock-model-v1" "Mock Model" "v1" "mock" "" DeploymentLocal ModelActive
    ["structured-output"; "json-schema"; "chinese"; "local-deployment"] (Build_PricingProfile "USD" f_zero f_zero f_zero f_zero) HealthHealthy
    (Some now) 0 f_zero (-1) (-1) 0 [TierStandard] [EffortLow] "mock-golden-v1" "internal"
    (Build_LicenseEvidence "" "" "" false false false false "" None) (Build_ModelProvenance "" [] [] [] "") "" ApprovalApproved "low" ""
    now now.
Definition mock_evidence (now : Time) : Evidence :=
  mkEvidence "admission-mock-model-v1" "mock-model-v1" "v1" StatusApproved "internal" "internal://licenses/aicloud-mock-v1"
    "internal://model/mock" [] [] true true false false "" "sha256:mock-deterministic-v1" "internal-signature:mock-v1"
    "internal://security-scans/mock-v1" "aicloud-maintainers" (Some now) (evidenceDigest ["mock-model-v1"; "v1"; "internal"; "mock-v1"]) now.
Definition mockRuntimeRecords (now : Time) : Model * Evidence := (mock_model now, mock_evidence now).

Definition configuredProviderEvidence (modelID : string) (cfg : ProviderConfig) (now : Time) : Evidence :=
  mkEvidence ("admission-" +:+ shortDigest (modelID +:+ "|" +:+ Cfg_LicenseID cfg +:+ "|" +:+ Cfg_LicenseTextRef cfg)) modelID
    (Cfg_ModelVersion cfg) (if Cfg_Approved cfg then StatusApproved else StatusCollected) (Cfg_LicenseID cfg) (Cfg_LicenseTextRef cfg)
    (Cfg_Endpoint cfg) [] [] (Cfg_Approved cfg) (Cfg_Approved cfg) false false "" "" "" "" (Cfg_EvidenceReviewer cfg)
    (if Cfg_Approved cfg then Some now else None)
    (evidenceDigest [modelID; Cfg_ModelVersion cfg; Cfg_LicenseID cfg; Cfg_LicenseTextRef cfg]) now.

(** The model of the configured provider, by what its health check answers. *)
Definition healthy (health : option ProviderHealth * option error) : bool :=
  match health with (Some h, None) => Health_Available h | _ => false end.
Definition configured_model (cfg : ProviderConfig) (adapter : ModelProvider) (health : option ProviderHealth * option error) (now : Time) : Model :=
  Build_Model (model_id_of cfg) (Cfg_DefaultModel cfg) (Cfg_ModelVersion cfg) (Cfg_Name cfg) (Cfg_Endpoint cfg)
    match ModelRouting.Type_ adapter with
    | ProviderTypePrivate => DeploymentPrivateEndpoint
    | ProviderTypeLocal => DeploymentLocal
    | _ => DeploymentPublicAPI
    end
    (if Cfg_Approved cfg then if healthy health then ModelActive else ModelDegraded else ModelDraft)
    (capabilityNames (ModelRouting.Capabilities adapter))
    (Build_PricingProfile (Cfg_Currency cfg) (Cfg_InputPerMillion cfg) (Cfg_OutputPerMillion cfg) f_zero f_zero)
    (if healthy health then HealthHealthy else HealthUnhealthy) (Some now) 0 f_zero (-1) (-1) 0 [TierStandard; TierPriority; TierBatch]
    [EffortLow; EffortMedium; EffortHigh] "" (Cfg_LicenseID cfg)
    (Build_LicenseEvidence (Cfg_LicenseID cfg) (Cfg_LicenseTextRef cfg) "" (Cfg_Approved cfg) (Cfg_Approved cfg) false false
       (Cfg_EvidenceReviewer cfg) (reviewedAt (Cfg_Approved cfg) now))
    (Build_ModelProvenance (Cfg_Endpoint cfg) [] [] [] "") "" (if Cfg_Approved cfg then ApprovalApproved else ApprovalDiscovered) ""
    (Cfg_DataResidency cfg) now now.

(** *** The steps

    A step may fail and changes the stores: what they hold then stays, as in the
    source. *)
Record Stores : Type := mkStores {
  st_models : MemoryModels;
  st_deployments : MemoryDeployments;
  st_admissions : Admission.MemoryStore;
  st_providers : ModelRuntime.MemoryProviderRegistry ModelProvider
}.
Definition step (A : Type) : Type := Stores → result A * Stores.
Definition step_bind {A B} (p : step A) (f : A → step B) : step B :=
  λ s, match p s with (Ok a, s) => f a s | (Err e, s) => (Err e, s) end.

Definition on_models {A} (f : MemoryModels → result A * MemoryModels) : step A :=
  λ s, let (r, m) := f (st_models s) in (r, mkStores m (st_deployments s) (st_admissions s) (st_providers s)).
Definition on_deployments {A} (f : MemoryDeployments → result A * MemoryDeployments) : step A :=
  λ s, let (r, d) := f (st_deployments s) in (r, mkStores (st_models s) d (st_admissions s) (st_providers s)).
Definition on_admissions {A} (f : Admission.MemoryStore → result A * Admission.MemoryStore) : step A :=
  λ s, let (r, a) := f (st_admissions s) in (r, mkStores (st_models s) (st_deployments s) a (st_providers s)).
Definition put_provider (key : string) (p : option ModelProvider) : step unit :=
  λ s, let (r, ps) := ModelRuntime.Registry_Put key p (st_providers s) in (r, mkStores (st_models s) (st_deployments s) (st_admissions s) ps).

(** The registry of providers is made anew. *)
Definition new_registry : step unit := λ s, (Ok tt, mkStores (st_models s) (st_deployments s) (st_admissions s) ∅).

(** [modelservice.Service] over the repository; [now] is its clock. *)
Definition service_Create (now : Time) (model : Model) : MemoryModels → result Model * MemoryModels :=
  Models_Create (ControlEvidence.applyDefaults model now).
Definition service_Update (now : Time) (model : Model) (r : MemoryModels) : result Model * MemoryModels :=
  match Models_Get (Model_ID model) r with
  | Err e => (Err e, r)
  | Ok current =>
      let model := if IsZero (Model_CreatedAt model) then ControlEvidence.set_created model (Model_CreatedAt current) else model in
      Models_Update (ControlEvidence.applyDefaults model now) r
  end.

Definition upsertModel (now : Time) (model : Model) : step Model :=
  on_models (λ r, match Models_Get (Model_ID model) r with
                  | Err e => if errors_Is e "repository.ErrNotFound" then service_Create now model r else (Err e, r)
                  | Ok current => service_Update now (ControlEvidence.set_created model (Model_CreatedAt current)) r
                  end).

Definition upsertDeployment (item : Deployment) : step Deployment :=
  on_deployments (λ r, match Deployments_Get (Deployment_ID item) r with
                       | Err e => if errors_Is e "repository.ErrNotFound" then Deployments_Create item r else (Err e, r)
                       | Ok current => Deployments_Update (set_deployment_created item (Deployment_CreatedAt current)) r
                       end).

Section admissions.
Variable visit : Admission.MemoryStore → list Evidence.

Definition appendEvidenceOnce (now : Time) (evidence : Evidence) : step unit :=
  on_admissions (λ a, match Admission.Memory_Get (Ev_ID evidence) a with
                      | Ok _ => (Ok tt, a)
                      | Err _ => @Admission.Service_Append _ (Admission.MemoryStore_Store visit) now evidence a
                      end).

(** [registerConfiguredProvider] ends as [upsertModel] does. *)
Definition registerConfiguredProvider (now service_now : Time) (cfg : ProviderConfig) (adapter : ModelProvider)
    (health : option ProviderHealth * option error) : step Model :=
  upsertModel service_now (configured_model cfg adapter health now).

Definition configure (now append_now : Time) (cfg : ProviderConfig) (adapter : ModelProvider) : step unit :=
  let modelID := model_id_of cfg in
  step_bind (on_models (λ r, (Models_Get modelID r, r))) (λ model,
  let deployment := deploymentFromModel model (deploymentID (Model_ID model) (Cfg_Endpoint cfg) (Cfg_DataResidency cfg)) in
  step_bind (upsertDeployment deployment) (λ _,
  step_bind (put_provider modelID (Some adapter)) (λ _,
  step_bind (put_provider (Deployment_ID deployment) (Some adapter)) (λ _,
  appendEvidenceOnce append_now (configuredProviderEvidence modelID cfg now))))).

(** The readings of the clock, in the order of the code. *)
Record Clock : Type := mkClock {
  at_register : Time; at_create : Time; at_mock : Time; at_mock_create : Time; at_mock_append : Time; at_evidence : Time; at_append : Time
}.

Definition initializeModelRuntime (t : Clock) (cfg : ProviderConfig) (configured : option ModelProvider) : step unit :=
  let (model, evidence) := mockRuntimeRecords (at_mock t) in
  let deployment := deploymentFromModel model "deployment-mock-model-v1" in
  step_bind new_registry (λ _,
  step_bind (upsertModel (at_mock_create t) model) (λ _,
  step_bind (upsertDeployment deployment) (λ _,
  step_bind (appendEvidenceOnce (at_mock_append t) evidence) (λ _,
  step_bind (put_provider (Model_ID model) (Some ModelRouting.mock_provider)) (λ _,
  step_bind (put_provider (Deployment_ID deployment) (Some ModelRouting.mock_provider)) (λ _,
  match configured with
  | Some adapter => configure (at_evidence t) (at_append t) cfg adapter
  | None => λ s, (Ok tt, s)
  end)))))).

(** [main] up to the model runtime: [build] is what the factory makes of the
    configuration. *)
Definition start (t : Clock) (cfg : ProviderConfig) (build : result ModelProvider) (health : option ProviderHealth * option error) : step unit :=
  if Cfg_Enabled cfg then
    match validateApprovedProviderEvidence cfg, build with
    | Err e, _ | Ok _, Err e => λ s, (Err e, s)
    | Ok _, Ok adapter =>
        step_bind (registerConfiguredProvider (at_register t) (at_create t) cfg adapter health) (λ _,
        initializeModelRuntime t cfg (Some adapter))
    end
  else initializeModelRuntime t cfg None.

(** ** What a start leaves *)

Definition fresh : Stores := mkStores ∅ ∅ ∅ ∅.

Lemma hex_not_mock s : Http.hex s ≠ "mock-model-v1".
Proof.
  unfold Http.hex. destruct (bytes s) as [|a l]; [done|]. simpl. intros H. injection H as H _.
  assert (∀ n, (n < 16)%N → Http.hex_digit n ≠ "m"%char) as Hd.
  { intros n Hn. unfold Http.hex_digit. destruct (n <? 10)%N eqn:E; apply N.ltb_lt in E || apply N.ltb_ge in E.
    all: intros Heq; apply (f_equal N_of_ascii) in Heq; rewrite N_ascii_embedding in Heq by lia; change (N_of_ascii "m"%char) with 109%N in Heq; lia. }
  apply (Hd (code a / 16)%N); [|done]. apply N.Div0.div_lt_upper_bound. unfold code. pose proof (N_ascii_bounded a). lia.
Qed.

(** The record that is stored, with its time of creation. *)
Definition stamped (now : Time) (e : Evidence) : Evidence :=
  mkEvidence (Ev_ID e) (Ev_ModelID e) (Ev_ModelVersion e) (Ev_Status e) (Admission.Ev_LicenseID e) (Admission.Ev_LicenseTextRef e)
    (Admission.Ev_SourceRef e) (Admission.Ev_UpstreamModels e) (Admission.Ev_DatasetRefs e) (Admission.Ev_CommercialUseAllowed e)
    (Admission.Ev_HostedServiceAllowed e) (Admission.Ev_RedistributionAllowed e) (Admission.Ev_NoticeRequired e) (Admission.Ev_NoticeRef e)
    (Admission.Ev_ArtifactDigest e) (Admission.Ev_ArtifactSignature e) (Admission.Ev_SecurityScanRef e) (Admission.Ev_Reviewer e)
    (Admission.Ev_ReviewedAt e) (Admission.Ev_EvidenceDigest e) (if IsZero (Admission.Ev_CreatedAt e) then now else Admission.Ev_CreatedAt e).

Lemma appendEvidenceOnce_new now e s :
  st_admissions s !! Ev_ID e = None → Ev_ID e ≠ "" → Ev_ModelID e ≠ "" → Ev_ModelVersion e ≠ "" → Admission.Ev_EvidenceDigest e ≠ "" →
  appendEvidenceOnce now e s
  = (Ok tt, mkStores (st_models s) (st_deployments s) (<[Ev_ID e := stamped now e]> (st_admissions s)) (st_providers s)).
Proof.
  intros Hn H1 H2 H3 H4. unfold appendEvidenceOnce, on_admissions, Admission.Memory_Get. rewrite Hn.
  unfold Admission.Service_Append. rewrite !bool_decide_false by done. cbn [orb]. cbn [Admission.Append Admission.MemoryStore_Store].
  unfold Admission.Memory_Append. cbn [Admission.Ev_ID]. by rewrite Hn.
Qed.

Lemma upsertModel_new now model s :
  st_models s !! Model_ID model = None →
  upsertModel now model s
  = (Ok (ControlEvidence.applyDefaults model now),
     mkStores (<[Model_ID model := ControlEvidence.applyDefaults model now]> (st_models s)) (st_deployments s) (st_admissions s) (st_providers s)).
Proof.
  intros Hn. unfold upsertModel, on_models, Models_Get. rewrite Hn. unfold service_Create, Models_Create.
  cbn [ControlEvidence.applyDefaults Model_ID errors_Is ErrNotFound]. rewrite Hn, bool_decide_true by done. done.
Qed.

Lemma upsertDeployment_new d s :
  st_deployments s !! Deployment_ID d = None →
  upsertDeployment d s
  = (Ok (normalizeDeploymentIdentity d),
     mkStores (st_models s) (<[Deployment_ID d := normalizeDeploymentIdentity d]> (st_deployments s)) (st_admissions s) (st_providers s)).
Proof.
  intros Hn. unfold upsertDeployment, on_deployments, Deployments_Get. rewrite Hn. unfold Deployments_Create.
  cbn [errors_Is ErrNotFound]. rewrite Hn, bool_decide_true by done. unfold normalizeDeploymentIdentity. by case_bool_decide.
Qed.

Lemma put_provider_new key p s :
  key ≠ "" →
  put_provider key (Some p) s
  = (Ok tt, mkStores (st_models s) (st_deployments s) (st_admissions s) (<[key := p]> (st_providers s))).
Proof. intros Hk. unfold put_provider, ModelRuntime.Registry_Put. by rewrite bool_decide_false. Qed.

Definition stored_mock (t : Clock) : Model := ControlEvidence.applyDefaults (mock_model (at_mock t)) (at_mock_create t).
Definition with_mock (t : Clock) (s : Stores) : Stores :=
  mkStores (<["mock-model-v1" := stored_mock t]> (st_models s))
    (<["deployment-mock-model-v1" := normalizeDeploymentIdentity (deploymentFromModel (mock_model (at_mock t)) "deployment-mock-model-v1")]>
       (st_deployments s))
    (<["admission-mock-model-v1" := stamped (at_mock_append t) (mock_evidence (at_mock t))]> (st_admissions s))
    (<["deployment-mock-model-v1" := ModelRouting.mock_provider]> {["mock-model-v1" := ModelRouting.mock_provider]}).

Lemma initialize_new t cfg configured s :
  st_models s !! "mock-model-v1" = None → st_deployments s !! "deployment-mock-model-v1" = None →
  st_admissions s !! "admission-mock-model-v1" = None →
  initializeModelRuntime t cfg configured s
  = match configured with
    | Some adapter => configure (at_evidence t) (at_append t) cfg adapter (with_mock t s)
    | None => (Ok tt, with_mock t s)
    end.
Proof.
  intros Hm Hd Ha. unfold initializeModelRuntime, mockRuntimeRecords, step_bind, new_registry.
  rewrite upsertModel_new by done. rewrite upsertDeployment_new by done. rewrite appendEvidenceOnce_new by done.
  rewrite !put_provider_new by done. by destruct configured.
Qed.

Definition stored_model (t : Clock) (cfg : ProviderConfig) (adapter : ModelProvider) (health : option ProviderHealth * option error) : Model :=
  ControlEvidence.applyDefaults (configured_model cfg adapter health (at_register t)) (at_create t).

Lemma start_fresh t cfg adapter health :
  Cfg_Enabled cfg = true → validateApprovedProviderEvidence cfg = Ok tt → Cfg_ModelVersion cfg ≠ "" →
  model_id_of cfg ≠ "" → model_id_of cfg ≠ "mock-model-v1" →
  let m := stored_model t cfg adapter health in
  let d := deploymentFromModel m (deploymentID (model_id_of cfg) (Cfg_Endpoint cfg) (Cfg_DataResidency cfg)) in
  let e := stamped (at_append t) (configuredProviderEvidence (model_id_of cfg) cfg (at_evidence t)) in
  let s := with_mock t (mkStores {[model_id_of cfg := m]} ∅ ∅ ∅) in
  start t cfg (Ok adapter) health fresh
  = (Ok tt, mkStores (st_models s) (<[Deployment_ID d := normalizeDeploymentIdentity d]> (st_deployments s))
      (<[Ev_ID e := e]> (st_admissions s)) (<[Deployment_ID d := adapter]> (<[model_id_of cfg := adapter]> (st_providers s)))).
Proof.
  intros He Hv Hver Hid Hmock. unfold start. rewrite He, Hv. unfold registerConfiguredProvider, step_bind. rewrite upsertModel_new by done.
  rewrite initialize_new; cbn [st_models st_deployments st_admissions]; [|by apply lookup_insert_None|done|done].
  unfold configure, step_bind, on_models, Models_Get, with_mock. cbn [st_models].
  match goal with |- context [?l !! model_id_of cfg] => assert (l !! model_id_of cfg = Some (stored_model t cfg adapter health)) as -> end.
  { etransitivity; [by apply (lookup_insert_ne (M := gmap string))|]. apply (lookup_insert_eq (M := gmap string)). }
  rewrite upsertDeployment_new; [|]. 2: {
    cbn [st_deployments]. apply lookup_insert_None. split; [done|]. cbn. intros H. injection H as H. by apply symmetry, hex_not_mock in H. }
  rewrite !put_provider_new by done. rewrite appendEvidenceOnce_new; [done| |done|done|done|done].
  cbn [st_admissions]. apply lookup_insert_None. split; [done|]. cbn. intros H. injection H as H. by apply symmetry, hex_not_mock in H.
Qed.

Lemma stored_model_facts t cfg adapter health :
  Cfg_ModelVersion cfg ≠ "" →
  let m := stored_model t cfg adapter health in
  Model_ID m = model_id_of cfg ∧ Model_Version m = Cfg_ModelVersion cfg
  ∧ Model_ApprovalStatus m = (if Cfg_Approved cfg then ApprovalApproved else ApprovalDiscovered)
  ∧ (Model_Lifecycle m ≠ ModelRetired ∧ Model_Lifecycle m ≠ ModelRevoked)
  ∧ Model_DeploymentMode m = match ModelRouting.Type_ adapter with
      ProviderTypePrivate => DeploymentPrivateEndpoint | ProviderTypeLocal => DeploymentLocal | _ => DeploymentPublicAPI end.
Proof.
  intros Hv. cbn. rewrite bool_decide_false by done. destruct (Cfg_Approved cfg), (healthy health); done.
Qed.

Lemma configured_sufficient t cfg adapter health :
  validateApprovedProviderEvidence cfg = Ok tt → Cfg_Approved cfg = true →
  Admission.sufficient (stored_model t cfg adapter health) (stamped (at_append t) (configuredProviderEvidence (model_id_of cfg) cfg (at_evidence t)))
  ↔ Cfg_LicenseID cfg ≠ "" ∧ Cfg_Endpoint cfg ≠ "" ∧ ModelRouting.Type_ adapter ≠ ProviderTypeLocal.
Proof.
  unfold validateApprovedProviderEvidence. intros Hv Ha. rewrite Ha in Hv. cbn [andb] in Hv. destruct (_ || _) eqn:E; [done|].
  apply orb_false_elim in E as [H1%bool_decide_eq_false H2%bool_decide_eq_false].
  unfold Admission.sufficient. cbn. rewrite Ha. split.
  - intros (Hl & _ & He & _ & _ & _ & _ & _ & Hloc & _). split; [done|]. split; [done|]. intros Ht. rewrite Ht in Hloc.
    destruct Hloc as [Hloc _]; [set_solver|done].
  - intros (Hl & He & Ht). do 7 (split; [done|]). split; [done|]. split; [|done].
    destruct (ModelRouting.Type_ adapter); try done; intros Hin; set_solver.
Qed.

Lemma on_file_one e1 e2 id1 id2 model e :
  id1 ≠ id2 → Ev_ModelID e1 ≠ Ev_ModelID e2 → Ev_ModelID e2 = Model_ID model → Ev_ModelVersion e2 = Model_Version model →
  Admission.on_file (<[id2 := e2]> (<[id1 := e1]> ∅)) model e ↔ e = e2.
Proof.
  intros Hid Hne Hm Hv. unfold Admission.on_file, Admission.about. split.
  - intros [[id Hlook] [Hi _]]. apply lookup_insert_Some in Hlook as [[_ <-]|[_ Hlook]]; [done|].
    apply lookup_insert_Some in Hlook as [[_ <-]|[_ Hlook]]; [congruence|done].
  - intros ->. split; [|done]. exists id2. apply lookup_insert_eq.
Qed.

(** The id of a configured model: the names of the provider and of the model and the
    version, hyphenated and in lower case, with a hyphen for every space, colon, at
    sign and slash. *)
Definition named_id (cfg : ProviderConfig) (id : string) : Prop :=
  id = of_bytes ((λ a, if decide (a ∈ [" "; ":"; "@"; "/"]%char) then "-"%char else a)
         <$> bytes (lower (Cfg_Name cfg +:+ "-" +:+ Cfg_DefaultModel cfg +:+ "-" +:+ Cfg_ModelVersion cfg))).
(** That of its deployment: eight bytes of a digest of the model, its endpoint and
    where its data is kept. *)
Definition named_deployment (cfg : ProviderConfig) (model id : string) : Prop :=
  id = "deployment-" +:+ Http.hex (of_bytes (take 8 (bytes (sha256
         (model +:+ "|" +:+ Cfg_Endpoint cfg +:+ "|" +:+ Cfg_DataResidency cfg))))).

Lemma named_id_model cfg id : named_id cfg id → id = model_id_of cfg.
Proof.
  intros ->. unfold model_id_of, providerModelID. f_equal. apply list_fmap_ext. intros _ a _. unfold hyphened.
  repeat case_bool_decide; subst; case_decide as Hd; try done; cbn [orb]; rewrite ?elem_of_cons, ?elem_of_nil in Hd; tauto || (exfalso; set_solver).
Qed.
Lemma named_deployment_id cfg model id :
  named_deployment cfg model id → id = deploymentID model (Cfg_Endpoint cfg) (Cfg_DataResidency cfg).
Proof. intros ->. done. Qed.
Lemma evidence_valid cfg :
  (Cfg_Approved cfg = true → Cfg_LicenseTextRef cfg ≠ "" ∧ Cfg_EvidenceReviewer cfg ≠ "") → validateApprovedProviderEvidence cfg = Ok tt.
Proof.
  unfold validateApprovedProviderEvidence. destruct (Cfg_Approved cfg); [|done]. intros [Ht Hr]; [done|].
  by rewrite !bool_decide_false.
Qed.

(** C35. Starting on empty stores with a configured provider that could be built
    succeeds when the configuration is enabled, names, if it is approved, the text
    of the license and the reviewer, has a version of the model, and makes an id of
    the model that is neither empty nor that of the mock model, [mock-model-v1]
    (with that id the provider takes the place of the mock model and is admitted
    unapproved, see [unapproved_provider_as_mock]); the evidence is visited in any
    order.  The start leaves the adapter registered under the ids of its model and
    of its deployment, the model on record with the provider, the version and the
    endpoint of the configuration, and the deployment with the same provider and
    endpoint and the id of the model.  The model is admitted if and only if the
    configuration approves it, with a license and an endpoint, and the provider is
    not a local one; its deployment may be routed to if and only if it is approved,
    whatever the health check answered. *)
Theorem only_approved_providers_are_admitted t cfg adapter health id deployment :
  (∀ a, visit a ≡ₚ (map_to_list a).*2) →
  Cfg_Enabled cfg = true → (Cfg_Approved cfg = true → Cfg_LicenseTextRef cfg ≠ "" ∧ Cfg_EvidenceReviewer cfg ≠ "") →
  Cfg_ModelVersion cfg ≠ "" → named_id cfg id → id ≠ "" → id ≠ "mock-model-v1" → named_deployment cfg id deployment →
  ∃ s m d dep, start t cfg (Ok adapter) health fresh = (Ok tt, s)
    ∧ st_providers s !! id = Some adapter ∧ st_providers s !! deployment = Some adapter
    ∧ st_models s !! id = Some m ∧ Model_ID m = id ∧ Model_Version m = Cfg_ModelVersion cfg
    ∧ Model_Provider m = Cfg_Name cfg ∧ Model_Endpoint m = Cfg_Endpoint cfg
    ∧ @Admission.Check _ (Admission.MemoryStore_Store visit) m (st_admissions s) = Ok d
    ∧ (Admission.Allowed d = true ↔ Cfg_Approved cfg = true ∧ Cfg_LicenseID cfg ≠ "" ∧ Cfg_Endpoint cfg ≠ ""
         ∧ ModelRouting.Type_ adapter ≠ ProviderTypeLocal)
    ∧ st_deployments s !! deployment = Some dep ∧ Deployment_ID dep = deployment ∧ Deployment_ModelVersionID dep = id
    ∧ Deployment_Provider dep = Cfg_Name cfg ∧ Deployment_Endpoint dep = Cfg_Endpoint cfg
    ∧ Deployment_RoutingEligible dep = Cfg_Approved cfg.
Proof.
  intros Hvis He Hv%evidence_valid Hver Hn Hid Hmock Hdep. apply named_id_model in Hn as ->. apply named_deployment_id in Hdep.
  pose proof (start_fresh t cfg adapter health He Hv Hver Hid Hmock) as Hs. cbn zeta in Hs.
  set (m := stored_model t cfg adapter health) in *.
  set (e := stamped (at_append t) (configuredProviderEvidence (model_id_of cfg) cfg (at_evidence t))) in *.
  destruct (stored_model_facts t cfg adapter health Hver) as (Hi & Hmv & Happ & [Hl1 Hl2] & _). fold m in Hi, Hmv, Happ, Hl1, Hl2.
  match type of Hs with _ = (_, ?s) => set (s' := s) in Hs end.
  destruct (Admission.Check_correct visit (st_admissions s') m (Hvis _)) as (d & Hd & Hno & Hyes).
  assert (∀ e', Admission.on_file (st_admissions s') m e' ↔ e' = e) as Hfile.
  { intros e'. apply on_file_one; [|exact (not_eq_sym Hmock)|exact (eq_sym Hi)|exact (eq_sym Hmv)].
    cbn. intros E. injection E as E. by apply symmetry, hex_not_mock in E. }
  subst deployment. set (deployment := deploymentID _ _ _) in *.
  exists s', m, d, (normalizeDeploymentIdentity (deploymentFromModel m deployment)). split; [exact Hs|].
  split_and!; [| | |exact Hi|exact Hmv|done|done|exact Hd| | |done| |done|done|].
  - destruct (decide (deployment = model_id_of cfg)) as [E|E].
    + apply (lookup_insert_Some (M := gmap string)). left. done.
    + etransitivity; [by apply (lookup_insert_ne (M := gmap string))|]. apply (lookup_insert_eq (M := gmap string)).
  - apply (lookup_insert_eq (M := gmap string)).
  - etransitivity; [by apply (lookup_insert_ne (M := gmap string))|]. apply (lookup_insert_eq (M := gmap string)).
  - destruct (Cfg_Approved cfg) eqn:Ha.
    + destruct (Hyes e) as [_ Hiff]; [done|by apply Hfile|right; left; unfold e; cbn; by rewrite Ha|by intros e' ->%Hfile|].
      rewrite Hiff. pose proof (configured_sufficient t cfg adapter health Hv Ha) as Hsuf. fold m e in Hsuf. rewrite Hsuf.
      assert (Ev_Status e = StatusApproved) as -> by (unfold e; cbn; by rewrite Ha). naive_solver.
    + split; [|by intros []]. intros Hall. destruct (Hno Hall) as [Hbad _]. congruence.
  - apply (lookup_insert_eq (M := gmap string)).
  - cbn. exact Hi.
  - change (bool_decide (Model_ApprovalStatus m = ApprovalApproved)
      && negb match Model_Lifecycle m with ModelRetired | ModelRevoked => true | _ => false end = Cfg_Approved cfg).
    rewrite Happ. destruct (Model_Lifecycle m), (Cfg_Approved cfg); done.
Qed.

(** Without a configured provider the mock model is registered and admitted, and
    may be routed to. *)
Theorem mock_model_is_admitted t cfg build health :
  (∀ a, visit a ≡ₚ (map_to_list a).*2) → Cfg_Enabled cfg = false →
  ∃ s m d dep, start t cfg build health fresh = (Ok tt, s)
    ∧ st_models s !! "mock-model-v1" = Some m ∧ @Admission.Check _ (Admission.MemoryStore_Store visit) m (st_admissions s) = Ok d
    ∧ Admission.Allowed d = true ∧ st_providers s !! "mock-model-v1" = Some ModelRouting.mock_provider
    ∧ st_deployments s !! "deployment-mock-model-v1" = Some dep ∧ Deployment_RoutingEligible dep = true.
Proof.
  intros Hvis He. unfold start. rewrite He, initialize_new by done.
  destruct (Admission.Check_correct visit (st_admissions (with_mock t fresh)) (stored_mock t) (Hvis _)) as (d & Hd & _ & Hyes).
  eexists _, (stored_mock t), d, _. split; [done|]. split; [apply (lookup_insert_eq (M := gmap string))|]. split; [exact Hd|].
  assert (∀ e, Admission.on_file (st_admissions (with_mock t fresh)) (stored_mock t) e → e = stamped (at_mock_append t) (mock_evidence (at_mock t))) as Hone.
  { intros e [[id Hlook] _]. cbn [st_admissions with_mock fresh] in Hlook. apply lookup_insert_Some in Hlook as [[_ <-]|[_ Hlook]]; done. }
  split; [|split; [etransitivity; [by apply (lookup_insert_ne (M := gmap string))|apply (lookup_insert_eq (M := gmap string))]|split; [apply (lookup_insert_eq (M := gmap string))|done]]].
  destruct (Hyes (stamped (at_mock_append t) (mock_evidence (at_mock t)))) as [_ Hiff]; [done| |right; by left|by intros e ->%Hone|].
  - split; [|done]. eexists. apply (lookup_insert_eq (M := gmap string)).
  - apply Hiff. split; [done|]. unfold Admission.sufficient. cbn. split_and!; try done; set_solver.
Qed.
End admissions.
End digests.

(** ** What the built-in policy lets pass *)

Definition is_ascii (s : string) : bool := forallb (λ a, (code a <? 128)%N) (bytes s).

(** A built-in tool that may write to the workspace is never allowed without an
    approval, none has access to a network, and what is allowed without an
    approval is the inspection of the repository.  On ASCII texts [EqualFold] is
    equality up to the case of letters. *)
Theorem writing_tools_need_approval EqualFold subject action id :
  (∀ s t, is_ascii s = true → is_ascii t = true → EqualFold s t = GoText.EqualFold s t) →
  (∀ def, ToolGateway.NewMemoryRegistry builtin_tools !! id = Some def → ToolGateway.Def_NetworkMode def = Sandbox.NetworkDenyAll)
  ∧ (ToolGateway.Policy_Allowed (Evaluate EqualFold builtin_policy subject action id) = true →
     (∀ def, ToolGateway.NewMemoryRegistry builtin_tools !! id = Some def → ToolGateway.Def_WorkspaceWrite def = true →
        ToolGateway.Policy_RequiresApproval (Evaluate EqualFold builtin_policy subject action id) = true)
     ∧ (ToolGateway.Policy_RequiresApproval (Evaluate EqualFold builtin_policy subject action id) = false →
        EqualFold "inspect" action = true ∧ EqualFold "repo-inspect" id = true)).
Proof.
  intros Hfold.
  assert (∀ def, ToolGateway.NewMemoryRegistry builtin_tools !! id = Some def →
    ToolGateway.Def_NetworkMode def = Sandbox.NetworkDenyAll ∧ (ToolGateway.Def_WorkspaceWrite def = true → id = "workspace-command")) as Hreg.
  { intros def Hd. cbn in Hd. apply lookup_insert_Some in Hd as [[<- <-]|[_ Hd]]; [done|].
    apply lookup_insert_Some in Hd as [[<- <-]|[_ Hd]]; done. }
  split; [intros def Hd; by apply Hreg|]. unfold Evaluate, builtin_policy. cbn [Engine_Rules first_match PolicyRule_Subject PolicyRule_Action PolicyRule_Resource].
  unfold matches. cbn [bool_decide andb orb]. rewrite (bool_decide_true ("*" = "*")) by done.
  rewrite !(bool_decide_false (_ = "*")) by done. cbn [orb andb].
  destruct (EqualFold "inspect" action && EqualFold "repo-inspect" id) eqn:E.
  - apply andb_prop in E as [E1 E2]. intros _. split; [|done]. intros def Hd Hw. destruct (Hreg def Hd) as [_ Hid]. rewrite (Hid Hw) in E2.
    rewrite Hfold in E2 by done. discriminate E2.
  - destruct (EqualFold "execute" action && EqualFold "workspace-command" id); done.
Qed.

(** ** Starts *)

Definition first_visit (a : Admission.MemoryStore) : list Evidence := (map_to_list a).*2.
Definition sample_adapter : ModelProvider := ModelRouting.mkModelProvider "hosted" ModelRouting.ProviderTypeHosted (ModelRouting.Capabilities ModelRouting.mock_provider).
Definition sample_config (name model : string) (approved : bool) : ProviderConfig :=
  mkProviderConfig true name "https://models.example" "KEY" model "v1" 60 2 1000 1000 false approved "commercial-api" "https://license.example"
    "alice" "eu" "USD" f_zero f_zero.
Definition sample_clock : Clock := mkClock 1 2 3 4 5 6 7.
Definition sample_start (cfg : ProviderConfig) : step unit :=
  start id ToLower (λ _, "task") first_visit sample_clock cfg (Ok sample_adapter) (None, None).
Definition admitted (s : Stores) (id : string) : option bool :=
  m ← st_models s !! id;
  match @Admission.Check _ (Admission.MemoryStore_Store first_visit) m (st_admissions s) with Ok d => Some (Admission.Allowed d) | Err _ => None end.

Lemma only_approved_providers_are_admitted_witness :
  ∃ s m d, sample_start (sample_config "acme" "large" true) fresh = (Ok tt, s) ∧ st_models s !! "acme-large-v1" = Some m
    ∧ @Admission.Check _ (Admission.MemoryStore_Store first_visit) m (st_admissions s) = Ok d ∧ Admission.Allowed d = true.
Proof.
  destruct (only_approved_providers_are_admitted id ToLower (λ _, "task") first_visit sample_clock (sample_config "acme" "large" true)
    sample_adapter (None, None) "acme-large-v1" _ ltac:(reflexivity) ltac:(reflexivity) ltac:(by split) ltac:(discriminate)
    ltac:(vm_compute; reflexivity) ltac:(discriminate) ltac:(discriminate) eq_refl)
    as (s & m & d & dep & Hs & _ & _ & Hm & _ & _ & _ & _ & Hd & Hall & _).
  exists s, m, d. split; [exact Hs|]. split; [exact Hm|]. split; [exact Hd|]. apply Hall. repeat split; discriminate.
Defined.

Lemma mock_model_is_admitted_witness :
  ∃ s m d, start id ToLower (λ _, "task") first_visit sample_clock
      (mkProviderConfig false "" "" "" "" "" 0 0 0 0 false false "" "" "" "" "" f_zero f_zero) (Ok sample_adapter) (None, None) fresh = (Ok tt, s)
    ∧ st_models s !! "mock-model-v1" = Some m
    ∧ @Admission.Check _ (Admission.MemoryStore_Store first_visit) m (st_admissions s) = Ok d ∧ Admission.Allowed d = true.
Proof.
  destruct (mock_model_is_admitted id ToLower (λ _, "task") first_visit sample_clock
    (mkProviderConfig false "" "" "" "" "" 0 0 0 0 false false "" "" "" "" "" f_zero f_zero) (Ok sample_adapter) (None, None))
    as (s & m & d & dep & Hs & Hm & Hd & Ha & _); [reflexivity|reflexivity|].
  exists s, m, d. split; [exact Hs|]. split; [exact Hm|]. split; [exact Hd|exact Ha].
Defined.

Lemma writing_tools_need_approval_witness :
  ToolGateway.Policy_RequiresApproval (Evaluate GoText.EqualFold builtin_policy "agent" "execute" "workspace-command") = true.
Proof.
  destruct (writing_tools_need_approval GoText.EqualFold "agent" "execute" "workspace-command") as [_ H]; [reflexivity|].
  destruct (H eq_refl) as [Hw _]. by eapply Hw.
Defined.

(** The id of the evidence does not depend on the approval, and evidence is
    appended only once: on stores that are kept, a provider that was started
    without approval is never admitted after the configuration approves it. *)
Example later_approval_is_lost :
  let s1 := snd (sample_start (sample_config "acme" "large" false) fresh) in
  let (r2, s2) := sample_start (sample_config "acme" "large" true) s1 in
  r2 = Ok tt ∧ admitted s1 "acme-large-v1" = Some false ∧ admitted s2 "acme-large-v1" = Some false
  ∧ Model_ApprovalStatus <$> st_models s2 !! "acme-large-v1" = Some ApprovalApproved.
Proof. vm_compute. done. Qed.

(** A provider whose names make the id of the mock model takes its place: it is
    admitted without approval. *)
Example unapproved_provider_as_mock :
  let (r, s) := sample_start (sample_config "Mock" "Model" false) fresh in
  r = Ok tt ∧ st_providers s !! "mock-model-v1" = Some sample_adapter ∧ admitted s "mock-model-v1" = Some true.
Proof. vm_compute. done. Qed.
End Startup.
